(* ===== verification/_CoqProject ===== *)
-Q . S2P
Prelude.v
Texts.v
EntityLock.v
ModuleState.v
Orchestration.v
DestroyChain.v
DestroyRun.v
Janitor.v
DestroyEnd.v
StackDestroy.v
Cancel.v
DepGraph.v
Breaker.v
Reachability.v
Probes.v
TmfifoIpam.v
BnkCluster.v
BareMetal.v
FleetBulkOp.v
ProjectGraph.v
ProjectPlan.v
DeployChain.v
DeployRun.v
DeployWave.v
DeployEnd.v
RunProgress.v
FleetReconcile.v
FleetTarget.v
FleetPolicy.v
FleetEnforce.v
UpgradePlan.v
UpgradeRun.v
Naming.v
PyText.v
ProjectContext.v
Variables.v
VariableLaws.v
BfConf.v
SshVariables.v
StackRun.v
ModuleResolution.v
StackCreate.v
StackLaws.v
Accounts.v
AccountLaws.v
Operators.v
OperatorLaws.v
OperatorSockets.v
EngineRouter.v
ProxyMigration.v
ProxyTranslate.v
InputChecks.v
ProjectModules.v
BenchmarkScenarios.v
BenchmarkRuns.v
BenchmarkLaws.v
BenchmarkAgent.v
CatalogVersions.v
