(* ===== verification/Prelude.v ===== *)
(** * BNK Forge: a verification development of the backend's core

    BNK Forge (src/backend/) deploys and operates BNK clusters.  Workers of a
    task queue change rows that several of them reach, so the program's core
    is what keeps those rows consistent: locks, status machines, orders of
    work, allocators and guards of calls that fail.  This development models
    that core as executable functions and proves what it promises.

    ** Files

    - Prelude.v (this file): fallible code, SQL's three-valued conditions,
      JSON-like values, the interface [SetOrder] of Python's set iteration,
      Python dicts in insertion order, rows of a table updated together, totals
      over a table, the hint database and tactics.
    - Texts.v: the text functions several components use.

    Locks and status:

    - EntityLock.v: services/entity_lock.py, services/module_lock.py.  The
      tables with lock columns; each SQL statement and each method;
      the polling of [acquire]; [sys_step], the interleaving of any workers.
    - ModuleState.v: services/module_state.py and the writer of module_lock.py,
      on the tables of EntityLock.v: the transition graph, the audit rows, the
      fenced writes of status.

    Orchestration of deploys and destroys:

    - Orchestration.v: the columns of modules, tasks and stacks that
      orchestration reads and writes ([odb]), the status sets, and
      [update_stack_progress] of services/stack_deployment_service.py.
    - DestroyChain.v: tasks/_tofu_helpers.py and the destroy halves of
      services/parallel_execution_service.py, stack_deployment_service.py and
      tasks/ssh_tasks.py: scopes, first waves, the trigger after a worker,
      the detection of the end, [destroy_stack].
    - DestroyRun.v: [wstep], the interleaving of the workers of a project's
      destroy, and what its steps keep.  Janitor.v:
      services/execution_janitor.py.  DestroyEnd.v: [rstep], workers and
      janitor together, and what a run comes to.  StackDestroy.v: what holds of
      a stack's destroy.  Cancel.v: routes/tasks.py [cancel_task] and
      project_module_service.py [cancel_operation].
    - ProjectGraph.v: services/dependency_graph_service.py, on the counting of
      DepGraph.v.  ProjectPlan.v: the plans and the readiness check of
      parallel_execution_service.py.
    - DeployChain.v: the first wave of a deploy, the chain after an apply in a
      project and in a stack, the init and apply workers of tasks/ssh_tasks.py,
      the routes deploy-all and destroy-all.  DeployRun.v: [dstep], the
      interleaving of the workers.  DeployWave.v: what one wave does.
      DeployEnd.v: what a deploy comes to.  RunProgress.v: the route
      [get_run_progress].

    - StackCreate.v: services/stack_deployment_service.py [deploy_stack], the
      making of a stack's modules from its template, on those rows.
      StackLaws.v: its theorems.  StackRun.v: services/stack_service.py
      [run_deploy].  ModuleResolution.v: services/module_resolution.py.

    Graphs, reachability, networks, hosts, fleets:

    - DepGraph.v: utils/dependency_graph.py.  Cycle search, Kahn's sort,
      validation of edits, deployment orders, layers, checks.
    - Breaker.v: the breaker of one target (services/reachability/breaker.py)
      and the classes of exceptions (probe.py).
    - Reachability.v: services/reachability/registry.py, the map of breakers,
      states and event streams, and the [with_breaker] wrapper; a client of
      Breaker.v.
    - Probes.v: services/reachability/probes/: what the cluster and SSH probes
      answer, with the network's answers as arguments; a client of
      Reachability.v's vocabulary.
    - TmfifoIpam.v: services/tmfifo_ipam_service.py: IPv4 texts and numbers,
      the rows of hosts, DPUs and configurations, the allocator of /30 links.
    - BnkCluster.v: services/bnk_cluster_service.py on those rows, a client of
      the allocator.
    - BareMetal.v: services/bare_metal/orchestrator.py: the step registries,
      creation, preview, execution, resume and cancel of deployments.
    - FleetBulkOp.v: services/fleet_bulkop_service.py with the routes and tasks
      around it: run-start gates, waves, gates between waves, resume, cancel.
    - FleetReconcile.v: services/fleet_reconcile_service.py and the backfill of
      tasks/fleet_tasks.py: the member rows as images of clusters, hosts, DPUs.
    - FleetTarget.v: services/fleet_selector.py, fleet_rbac.py and the handlers
      of routes/fleet.py that change targets, strategies, labels and runs.
    - FleetPolicy.v: services/fleet_policy_service.py and its handlers.
      FleetEnforce.v: an enforcement carried out by FleetBulkOp.v's executor.
    - UpgradePlan.v: services/bnk_upgrade_service.py, bnk_upgrade_plan_service.py
      and scanner/bnk_install.py: versions, the reading of an install, checks,
      plans and requests.  UpgradeRun.v: bnk_upgrade_execution_service.py and
      its tasks, over the interface [Cluster] of the cluster, helm and the
      clock.

    Variables of runs, and the configuration of DPUs:

    - Naming.v: utils/naming.py.  PyText.v: the texts of values.
      ProjectContext.v: services/execution/blueprint_context.py, what the rows
      of a project give as variables and the transforms of its modules.
    - Variables.v: services/execution/variable_assembler.py, the layers of the
      variables of a run, the wiring of its inputs, its mappings.
      VariableLaws.v: its theorems.
    - BfConf.v: services/bf_conf_renderer.py and the rendering of
      dpu_flash_service.py, with Jinja, crypt, keys, YAML and bash as
      parameters.  SshVariables.v: what a bare-metal host adds to the
      variables, the bf.conf of its DPU with it.

    Access:

    - Accounts.v: services/auth_service.py, api_token_service.py,
      core/auth_middleware.py and auth_context.py, routes/auth.py and
      [seed_auth_step] of startup_steps.py: accounts, API tokens, what the
      middleware lets pass, the checks of routes, the handlers that change
      accounts, what a start does to shipped ones.  AccountLaws.v: its
      theorems.

    Modules of a project:

    - InputChecks.v: VariableValidator of services/variable_parser.py,
      [_validate_module_variables], [validate_action_inputs]: which values are
      taken for the inputs of modules and of their actions.
    - ProjectModules.v: services/project_module_service.py and
      [detect_module_dependencies] of project_service.py: adding, changing,
      re-pinning and removing modules, their dependencies and order.
    - CatalogVersions.v: utils/catalog_versioning.py, module_version_query.py,
      catalog_prune_service.py: the order of versions, the flag of the latest,
      what pruning a source leaves.

    Operators in clusters, and engines:

    - Operators.v: services/operator_registry.py, routes/operator_polling.py,
      routes/operators/ and tasks/operator_cleanup_task.py: registration tokens,
      the rows of operators, the queue of commands.  OperatorLaws.v: its
      theorems.  OperatorSockets.v: the connections of a process, the sessions
      of routes/operator_ws.py, execution/operator_engine.py.
    - EngineRouter.v: services/engine_registry.py and execution/engine_router.py:
      the table of engines, breakers and health cache, the engine of a module,
      the operator of a project.

    Proxies:

    - ProxyMigration.v: services/proxy_migration_service.py: the run that
      replaces a proxy by a BNK gateway, the check of the gateway, the
      confirmations and aborts.
    - ProxyTranslate.v: services/proxy_translate_service.py: Ingresses or
      HTTPRoutes into a Gateway with one HTTPRoute.

    Benchmarks:

    - BenchmarkScenarios.v: services/benchmark_scenarios.py: the scenarios and
      the configurations they expand into.  BenchmarkRuns.v:
      services/benchmark_service.py and routes/benchmarks.py: runs, groups,
      agents, baselines.  BenchmarkLaws.v: its theorems.  BenchmarkAgent.v:
      scripts/forge_agent.py: the command line, the traces, the queue of runs.

    A definition has the name of the function it models; a helper without a
    counterpart stands for a block of that function.  A Python exception is an
    [Err] of the component's own error type.  A session or a table is an
    explicit argument and result.  Time is an argument, an integer in the unit
    the file names.  What another system answers (network, other services, the
    broker's message ids, the order of a query or of parallel jobs) is an
    argument, so the theorems hold for all answers; where one needs more, it
    says so as a hypothesis.  So is the id the database gives a new row, which
    the fleet's theorems take to be fresh.

    ** What the theorems show

    - Locks: an acquire succeeds exactly when nobody holds the row; the locks
      of a row carry consecutive tokens; a write under a lock is rejected
      exactly when a later acquire was granted; a worker that refreshes in
      time keeps its lock; the polling loop ends within a computed bound.
    - Module status: the audit rows are a chain of legal transitions; no trail
      to a working status without an init (direct writes of status are in no
      trail); a worker that lost its lock cannot write; every status can be
      left again.
    - Destroys: nothing is destroyed while something outside the clusters that
      uses it stands; no module has two destroys at once; every run ends, and
      where it ends each module is gone, failed, or held by one that failed;
      a worker that dies between its commit and its trigger ends a run early;
      the janitor leaves nothing stuck; which modules a stack's destroy starts
      and which it takes down beyond the stack; what a cancel leaves.
    - Deploys, of projects without stacks: which modules a wave starts; every
      run ends unless variables have changed since the plans, and where it ends
      each module is applied or stands on one that failed, is disabled or is
      foreign; an init and the wave of a sibling can start two applies; what
      the progress of a run is, and when it says completed too early; a
      destroy that fails half-way and leaves its stacks DESTROYING.
    - Stacks: preparing one leaves one module for a path and, when it succeeds,
      all that are required; which modules a run starts, and that it can start
      one beside a dependency that is applied again; a module missing from the
      library leaves a part of the stack behind; a disabled module ends the
      chain of a bare-metal stack; the subnets of a VPC lie in it and the
      derived ones apart; a stack's variables hide those of its project; the
      batch and the single resolution of a path agree.
    - Accounts: which requests the middleware lets pass; nobody gets beyond
      the role of the tokens held at first by making more; an administrator
      stays through every change of accounts; no shipped password is usable
      after a start; who may change a project.  What does not hold: a new
      password leaves the API tokens valid, and deleting an owner opens the
      projects to all operators.
    - Modules of a project: edits keep the dependencies of a project legal while
      the orders that enabling computes exist, an order puts modules after what they need, the inputs of an action are what
      is declared and nothing like an option.  What does not hold: enabling a
      module may save a cycle or lose a blueprint's edges, removing one blocks
      those that need it, an input that is a list of maps takes no value.
    - The catalogue: the order of versions is total; a recomputation flags the
      newest active version of a path and no other; pruning never deletes a
      version in use and leaves an active version wherever there was one.
    - Operators: a command is handed out once and gets one result; polls drain
      the queue; a wait ends with what the first settled turn says; a cluster
      has one operator; what a call over a WebSocket is answered.  What does
      not hold: a token that is used up locks its operator out, tokens are not
      bound to operators, WebSocket sessions record nothing, answers over the
      queue are misread.  Engines: which one a module gets, when one is skipped.
    - Proxy migrations: only a run that has passed its check and is confirmed
      twice removes the old proxy; when the check passes.  What does not hold:
      no run gets past its check, an abort does not stop a run that waits for
      its worker, and a manifest that was applied may stay for good.
      Translations: Ingresses of one host keep what they do, and every path has
      its rule and a report of what differs.  What does not hold: with several
      hosts each gets the paths of all, and client objects lose the types of
      their paths and their default backends without a report.
    - Benchmarks: what overrides can change; one child of a group runs at a
      time, a sweep ends with one report for each child, a cancel ends it; one
      baseline for a context; who connects as an agent; what a download leaves
      on disk.  What does not hold: a report repeated, early or late breaks a
      sweep, a command that is lost stops it for good, saved configurations do
      not count, a cancel kills whatever runs.
    - Dependency graphs: detection and sort are sound and complete for cycles
      and total; orders and layers respect dependencies, a layer's number is
      the longest path; an edit is accepted exactly when it keeps the graph
      legal; a plan's parallel time lies between its longest path and its
      sequential time; which projects are ready.
    - Reachability: when a breaker is closed, how its trials are spaced, that
      the registry implements one breaker per target, how often a failing
      target is really called, what subscribers see, and a schedule in which
      they are left with a stale state; what probes answer.
    - Addresses and membership: the allocator answers the lowest free link and
      fails only when none is free; assignment leaves exactly the requested
      members; the invariant of the rows survives; refusals change nothing.
    - Bare metal: an execution runs exactly the steps from its resume point;
      a failed deployment can be resumed and completed; creation and execution
      keep one active deployment per host, and two schedules that break it.
    - Fleet: a run starts exactly on a fresh decision and uses it up; over all
      its executions each wave is dispatched once while the plan stays the
      same; resuming through the route leaves the run stranded; a run that
      changes its own grouping skips a member.  The backfill makes the members
      a mirror of the inventory; resolving a target selects what it says; the
      user may change all a run acts on, except when it is run again; an
      evaluation counts right, an enforcement acts on the drifted members in
      scope only, its run can be completed, and then they comply; a policy on a
      target that selects nothing reaches every member.
    - BNK upgrades: what a plan holds and when one is made; an execution runs
      the steps in order up to the first failure, and none of an install that
      is not FLO's; over all deliveries, deaths
      and lost locks each step is begun at most once, and the one a worker died
      in is never finished; a cluster has one upgrade that is not over, unless
      a delivery without the lock interferes; the waits end; helm's success is
      taken for a failure, and no upgrade completes.
    - Variables: which layer a variable comes from; when the wiring of a
      required input fails, and what every input gets otherwise; which module a
      path means; that wiring by name does not depend on the order of the
      database; what mappings leave; that a default of a template beats what a
      DPU forces.  Slugs match the module's patterns of safe names.
    - DPUs: the address reported is the one baked in; addresses and names are
      distinct where the devices are, and not where the bare-metal path renders;
      the lint accepts exactly the tidy texts; a host's identity wins over the
      layers and its hardware does not.

    ** How orchestration is modelled

    A status column holds one of ModuleState.v's statuses.  What a worker
    commits and what it triggers afterwards are two steps, and steps of other
    workers come between them; what a death between the two costs is
    [lost_trigger_is_final], and the theorems on how runs end are of runs
    without one.  A wave, a
    trigger, a sweep of the janitor and a request are one step each: two that
    overlap, and what [FOR UPDATE SKIP LOCKED] would do about it, are not
    modelled.  [deployed_modules] is the property over the foreign key.  The
    theorems on runs are of one project whose destroys have the scope
    "project", and of one project without stacks for deploys.  Whether a
    module's variables have changed since its plan is an argument.  The broker
    takes every message; the exceptions modelled are those the code raises
    itself.  Timestamps, snapshots before a destroy and notifications are left
    out.  Texts are clipped by bytes where Python counts characters.

    ** Fuel and measures

    The loops of the dependency graphs take fuel computed from the number of
    modules or edges, and the theorems on them are of the functions with that
    fuel: a result is proved, not assumed.  The polling of [acquire] has fuel in
    EntityLock.v, with a theorem that the computed amount ends it, and so have
    the gates of an upgrade in UpgradeRun.v.  Runs of
    workers are relations without fuel; that they end is proved with measures.
    The other recursions are structural.

    ** Not modelled

    Logging, the session's connection failures, the caches in Redis, the
    broker's redelivery (except of upgrades), read-only lists and rollups, and
    the parts of the backend that only call other programs: engines and runners,
    Kubernetes, Helm, SSH, the streaming of a flash, scanners, the discovery and
    deployment of proxies and the CIS translation, module
    sources, secrets, what is measured in benchmarks, the routes other than those
    named above.  IPv6 texts, and letters outside ASCII in text functions.
    The frontend, the command line, the operator and the packaging are separate
    programs.

    ** Plan

    Next would be the resolver of missing dependencies, the checks of a stack's
    secrets and of an existing cluster, and the validation of blueprints. *)

From stdpp Require Export base gmap strings list sets option numbers tactics.
From stdpp Require Export sorting relations pretty.
#[export] Set Warnings "-register-all,-clear-no-such-hyp".

(** ** Fallible code

    A Python function that may raise is a function into [result E A], where
    [E] is the component's own type of exceptions. *)

Inductive result (E A : Type) : Type :=
| Ok (a : A)
| Err (e : E).
Arguments Ok {E A} a.
Arguments Err {E A} e.

#[global] Instance result_ret {E} : MRet (result E) := fun A a => Ok a.
#[global] Instance result_bind {E} : MBind (result E) :=
  fun A B f m => match m with Ok a => f a | Err e => Err e end.
#[global] Instance result_fmap {E} : FMap (result E) :=
  fun A B f m => match m with Ok a => Ok (f a) | Err e => Err e end.

#[global] Instance result_eq_dec {E A} `{EqDecision E, EqDecision A} :
  EqDecision (result E A).
Proof. solve_decision. Defined.

Definition is_Ok {E A} (r : result E A) : bool :=
  match r with Ok _ => true | Err _ => false end.

(** [if not b: raise e] *)
Definition ensure {E} (b : bool) (e : E) : result E unit :=
  if b then Ok tt else Err e.

Lemma bind_Ok {E A B} (m : result E A) (f : A -> result E B) b : (m ≫= f) = Ok b <-> exists a, m = Ok a /\ f a = Ok b.
Proof. destruct m; cbn; split; [eauto|intros (x & [= <-] & H); exact H|done|intros (x & [=] & _)]. Qed.

Lemma ensure_Ok {E} b (e : E) u : ensure b e = Ok u <-> b = true.
Proof. destruct u. by destruct b. Qed.

(** Split a computation known to have returned into its steps. *)
Ltac ok_steps H :=
  repeat match type of H with
         | (_ ≫= _) = Ok _ => let x := fresh "x" in let Hx := fresh "Hx" in
             apply bind_Ok in H as (x & Hx & H); cbn beta zeta in H
         end.

(** SQL's three-valued conditions: [None] is SQL's NULL. A [WHERE] clause
    keeps a row only when its condition is true, not when it is unknown. *)
Definition sql_lt (a : option Z) (b : Z) : option bool :=
  match a with Some x => Some (x <? b)%Z | None => None end.
Definition sql_eq (a : option Z) (b : Z) : option bool :=
  match a with Some x => Some (x =? b)%Z | None => None end.
Definition sql_is_null {A} (a : option A) : option bool :=
  Some (match a with None => true | Some _ => false end).
Definition sql_not (a : option bool) : option bool :=
  match a with Some b => Some (negb b) | None => None end.
Definition sql_or (a b : option bool) : option bool :=
  match a, b with
  | Some true, _ => Some true
  | _, Some true => Some true
  | Some false, Some false => Some false
  | _, _ => None
  end.
Definition sql_and (a b : option bool) : option bool :=
  match a, b with
  | Some false, _ => Some false
  | _, Some false => Some false
  | Some true, Some true => Some true
  | _, _ => None
  end.
Definition sql_true (a : option bool) : bool :=
  match a with Some b => b | None => false end.

(** ** JSON-like values: what the JSON columns and payloads hold *)

Inductive json : Type :=
| JNull
| JBool (b : bool)
| JInt (z : Z)
| JStr (s : string)
| JList (l : list json)
| JObj (fields : list (string * json)).

(** Python truthiness of such a value. *)
Definition truthy (j : json) : bool :=
  match j with
  | JNull => false
  | JBool b => b
  | JInt z => negb (Z.eqb z 0)
  | JStr s => negb (String.eqb s "")
  | JList l => match l with [] => false | _ => true end
  | JObj l => match l with [] => false | _ => true end
  end.

(** [s or ...] on an optional string: the empty string is falsy too. *)
Definition or_else (a b : option string) : option string :=
  match a with
  | Some s => if String.eqb s "" then b else a
  | None => b
  end.
(** [if s:] *)
Definition truthy_str (a : option string) : bool :=
  match a with Some s => negb (String.eqb s "") | None => false end.

(** ** Python [set] iteration

    CPython iterates a set in an order the language does not specify; what it
    promises is that each element is produced once.  Code that iterates a set
    is modelled over this interface, and its theorems hold for every order. *)

Class SetOrder (A : Type) `{Countable A} := {
  set_iter : gset A -> list A;
  set_iter_perm (s : gset A) : set_iter s ≡ₚ elements s
}.

(** The order [elements] gives: one order the interface admits. *)
Definition elements_order {A} `{Countable A} : SetOrder A :=
  {| set_iter := elements; set_iter_perm s := reflexivity (elements s) |}.

Section set_order_lemmas.
Context {A : Type} `{Countable A} {SO : SetOrder A}.

Lemma elem_of_set_iter (s : gset A) (x : A) : x ∈ set_iter s <-> x ∈ s.
Proof. rewrite set_iter_perm. apply elem_of_elements. Qed.

Lemma NoDup_set_iter (s : gset A) : NoDup (set_iter s).
Proof. rewrite set_iter_perm. apply NoDup_elements. Qed.

Lemma length_set_iter (s : gset A) : length (set_iter s) = size s.
Proof. by rewrite set_iter_perm. Qed.
End set_order_lemmas.

(** ** Queries

    [SELECT ... WHERE P]: rows in an order the database chooses. *)
Section query.
Context {SO : SetOrder Z}.

Definition select {R} (P : Z -> R -> bool) (t : gmap Z R) : list (Z * R) :=
  omap (fun i => match t !! i with
                 | Some r => if P i r then Some (i, r) else None
                 | None => None
                 end) (set_iter (dom t)).

Lemma elem_of_select {R} (P : Z -> R -> bool) t i r :
  (i, r) ∈ select P t <-> t !! i = Some r /\ P i r = true.
Proof.
  unfold select. rewrite list_elem_of_omap. split.
  - intros (j & _ & H). repeat case_match; by simplify_eq.
  - intros [H HP]. exists i. rewrite H, HP. split; [|done].
    apply elem_of_set_iter, elem_of_dom. by eexists.
Qed.

Lemma select_NoDup {R} (P : Z -> R -> bool) (t : gmap Z R) : NoDup (select P t).*1.
Proof.
  unfold select.
  assert (H : forall l : list Z, NoDup l -> NoDup (omap (fun i => match t !! i with
     | Some r => if P i r then Some (i, r) else None | None => None end) l).*1 /\
     forall i, i ∈ (omap (fun i => match t !! i with
     | Some r => if P i r then Some (i, r) else None | None => None end) l).*1 -> i ∈ l).
  { induction 1 as [|x l Hx Hl [IH1 IH2]]; cbn; [split; [constructor|done]|].
    destruct (t !! x) as [r|]; [destruct (P x r)|]; cbn; (split; [try apply NoDup_cons; auto|]);
      intros i; rewrite ?elem_of_cons; naive_solver. }
  apply H, NoDup_set_iter.
Qed.
End query.

(** An id no row of a table has: one choice of what the database's sequences
    give. *)
Definition next_id (R : Type) (t : gmap Z R) : Z := fresh (dom t).
Lemma next_id_new R (t : gmap Z R) : t !! next_id R t = None.
Proof. apply not_elem_of_dom. exact (is_fresh (dom t)). Qed.

(** ** Totals over the rows of a table *)

Definition table_total {R} (w : R -> nat) (t : gmap Z R) : nat := sum_list_with (fun ir => w ir.2) (map_to_list t).

Lemma table_total_insert {R} (w : R -> nat) (t : gmap Z R) i r :
  t !! i = None -> table_total w (<[i := r]> t) = (w r + table_total w t)%nat.
Proof. intros H. unfold table_total. by rewrite map_to_list_insert. Qed.

Lemma table_total_alter {R} (w : R -> nat) (t : gmap Z R) i r f :
  t !! i = Some r -> (table_total w (alter f i t) + w r = table_total w t + w (f r))%nat.
Proof.
  intros H. rewrite <- (insert_delete_id t i r H) at 2. rewrite table_total_insert by apply lookup_delete_eq.
  assert (E : alter f i t = <[i := f r]> (delete i t)).
  { apply map_eq. intros u. destruct (decide (u = i)) as [->|Hu].
    - by rewrite lookup_alter_eq, H, lookup_insert_eq.
    - by rewrite lookup_alter_ne, lookup_insert_ne, lookup_delete_ne. }
  rewrite E, table_total_insert by apply lookup_delete_eq. lia.
Qed.

(** ** Python dicts, in insertion order *)

Section pydict.
Context {K V : Type} `{EqDecision K}.

Fixpoint dget (k : K) (d : list (K * V)) : option V :=
  match d with
  | [] => None
  | (k', v) :: d' => if decide (k = k') then Some v else dget k d'
  end.

(** [d[k] = v]: in place when the key is there, appended when it is new. *)
Fixpoint dset (k : K) (v : V) (d : list (K * V)) : list (K * V) :=
  match d with
  | [] => [(k, v)]
  | (k', v') :: d' => if decide (k = k') then (k, v) :: d' else (k', v') :: dset k v d'
  end.

(** [{k: v for k, v in l}] *)
Definition dict_of (l : list (K * V)) : list (K * V) :=
  foldl (fun d kv => dset kv.1 kv.2 d) [] l.

Lemma dget_dset k k' v d :
  dget k' (dset k v d) = if decide (k' = k) then Some v else dget k' d.
Proof.
  induction d as [|[k0 v0] d IH]; cbn.
  - repeat case_decide; congruence.
  - destruct (decide (k = k0)) as [->|]; cbn; [|rewrite IH];
      repeat case_decide; congruence.
Qed.

Lemma dset_keys k v d k' : k' ∈ (dset k v d).*1 <-> k' = k \/ k' ∈ d.*1.
Proof.
  induction d as [|[k0 v0] d IH]; cbn.
  - set_solver.
  - case_decide; subst; cbn; rewrite !elem_of_cons; [naive_solver|].
    rewrite IH. naive_solver.
Qed.

Lemma dset_NoDup k v d : NoDup d.*1 -> NoDup (dset k v d).*1.
Proof.
  induction d as [|[k0 v0] d IH]; cbn; intros Hd.
  - apply NoDup_singleton.
  - apply NoDup_cons in Hd as [Hni Hd]. case_decide; subst; cbn.
    + by apply NoDup_cons.
    + apply NoDup_cons. split; [|auto]. rewrite dset_keys. naive_solver.
Qed.

Lemma dget_None k d : dget k d = None <-> k ∉ d.*1.
Proof.
  induction d as [|[k0 v0] d IH]; cbn; [set_solver|].
  rewrite not_elem_of_cons. case_decide; naive_solver.
Qed.

Lemma dget_elem_of k v d : dget k d = Some v -> (k, v) ∈ d.
Proof.
  induction d as [|[k0 v0] d IH]; cbn; [done|].
  case_decide; [intros [= ->]; subst; left|right; auto].
Qed.

Lemma elem_of_dget k v d : NoDup d.*1 -> (k, v) ∈ d -> dget k d = Some v.
Proof.
  induction d as [|[k0 v0] d IH]; cbn; intros Hnd Hin; [by apply elem_of_nil in Hin|].
  apply NoDup_cons in Hnd as [Hni Hnd]. apply elem_of_cons in Hin as [[= <- <-]|Hin].
  - by rewrite decide_True.
  - rewrite decide_False; [auto|]. intros ->. apply Hni.
    apply list_elem_of_fmap. by exists (k0, v).
Qed.

Lemma dict_of_snoc l kv : dict_of (l ++ [kv]) = dset kv.1 kv.2 (dict_of l).
Proof. unfold dict_of. by rewrite foldl_app. Qed.

Lemma dict_of_NoDup l : NoDup (dict_of l).*1.
Proof.
  induction l as [|kv l IH] using rev_ind; [constructor|].
  rewrite dict_of_snoc. by apply dset_NoDup.
Qed.

Lemma dict_of_keys l k : k ∈ (dict_of l).*1 <-> k ∈ l.*1.
Proof.
  induction l as [|kv l IH] using rev_ind; [done|].
  rewrite dict_of_snoc, dset_keys, IH, fmap_app, elem_of_app. set_solver.
Qed.

Lemma dict_of_elem l k v : (k, v) ∈ dict_of l -> (k, v) ∈ l.
Proof.
  induction l as [|kv l IH] using rev_ind; [done|]. rewrite dict_of_snoc. intros H.
  apply elem_of_dget in H; [|apply dset_NoDup, dict_of_NoDup]. rewrite dget_dset in H.
  rewrite elem_of_app, list_elem_of_singleton.
  case_decide; [right; destruct kv; naive_solver|]. left. by apply IH, dget_elem_of.
Qed.

(** With distinct keys the comprehension keeps the pairs as they come. *)
Lemma dget_dict_of l k : NoDup l.*1 -> dget k (dict_of l) = dget k l.
Proof.
  induction l as [|[k0 v0] l IH] using rev_ind; [done|].
  rewrite fmap_app. cbn. intros Hnd. apply NoDup_app in Hnd as (Hnd & Hdisj & _).
  rewrite dict_of_snoc, dget_dset, IH by done. cbn.
  clear IH. induction l as [|[k1 v1] l IH]; cbn.
  - by case_decide.
  - cbn in *. apply NoDup_cons in Hnd as [Hni Hnd].
    destruct (decide (k = k1)) as [->|Hne].
    + rewrite decide_False; [done|]. intros ->. eapply Hdisj; [left|left].
    + apply IH; [done|]. intros x Hx. apply Hdisj. by right.
Qed.
End pydict.

(** ** Automation *)

Create HintDb forge.

(** Turn boolean tests in the context into propositions. *)
Ltac bool_hyps :=
  repeat match goal with
  | H : andb _ _ = true |- _ => apply andb_true_iff in H; destruct H
  | H : orb _ _ = false |- _ => apply orb_false_iff in H; destruct H
  | H : negb _ = true |- _ => apply negb_true_iff in H
  | H : negb _ = false |- _ => apply negb_false_iff in H
  | H : bool_decide _ = true |- _ => apply bool_decide_eq_true_1 in H
  | H : bool_decide _ = false |- _ => apply bool_decide_eq_false_1 in H
  | H : Is_true _ |- _ => apply Is_true_true in H
  end.

(** Case split on the scrutinee of a [match] or [if] anywhere, then clean up. *)
Ltac crush_step :=
  first [ progress simplify_eq/= | progress bool_hyps | case_decide | case_match ].

Ltac crush := repeat crush_step; try done; eauto with forge.

(** Take apart a computation that is known to have returned [Ok]. *)
Ltac inv_ok H :=
  repeat (case_match; simplify_eq/=; try done);
  try (injection H as H); simplify_eq/=.

(** ** Lists *)

Section list_lemmas.
Context {A : Type}.

Lemma NoDup_snoc (l : list A) (x : A) : NoDup l -> x ∉ l -> NoDup (l ++ [x]).
Proof.
  intros Hl Hx. apply NoDup_app; repeat split; [done| |apply NoDup_singleton].
  intros y Hy ->%list_elem_of_singleton. done.
Qed.

Lemma filter_all (P : A -> Prop) `{!forall x, Decision (P x)} (l : list A) :
  Forall P l -> filter P l = l.
Proof.
  induction 1 as [|x l Hx Hl IH]; [done|].
  by rewrite filter_cons_True, IH.
Qed.

Lemma filter_none (P : A -> Prop) `{!forall x, Decision (P x)} (l : list A) :
  Forall (fun x => ~ P x) l -> filter P l = [].
Proof.
  induction 1 as [|x l Hx Hl IH]; [done|].
  by rewrite filter_cons_False.
Qed.
End list_lemmas.

#[export] Hint Resolve NoDup_snoc NoDup_set_iter : forge.

(** ** Updating several rows of a table *)

Section alter_all.
Context {K A : Type} `{Countable K}.

Lemma lookup_alter_all (f : K -> A -> A) (ids : list K) (t : gmap K A) j
    (IDEM : forall x, f j (f j x) = f j x) :
  foldr (fun i => alter (f i) i) t ids !! j =
  if decide (j ∈ ids) then f j <$> t !! j else t !! j.
Proof.
  induction ids as [|i ids IH]; cbn.
  - by rewrite decide_False by (by intros ?%elem_of_nil).
  - destruct (decide (i = j)) as [->|N].
    + rewrite lookup_alter_eq, IH.
      destruct (decide (j ∈ j :: ids)) as [_|N]; [|destruct N; left].
      destruct (decide (j ∈ ids)); [|done].
      destruct (t !! j); cbn; [by rewrite IDEM|done].
    + rewrite lookup_alter_ne, IH by done.
      destruct (decide (j ∈ ids)) as [I|I], (decide (j ∈ i :: ids)) as [I'|I']; try done.
      * destruct I'. by right.
      * by apply elem_of_cons in I' as [?|?].
Qed.
End alter_all.

Lemma filter_fst_NoDup {R} (Q : Z * R -> Prop) `{!forall x, Decision (Q x)} (l : list (Z * R)) :
  NoDup l.*1 -> NoDup (filter Q l).*1.
Proof.
  induction l as [|x l IH]; [done|]. rewrite fmap_cons, filter_cons. intros [Hx Hl]%NoDup_cons.
  case_decide; [rewrite fmap_cons|auto].
  apply NoDup_cons. split; [|auto]. intros (y & Hxy & [_ Hy]%list_elem_of_filter)%list_elem_of_fmap.
  apply Hx, list_elem_of_fmap. by exists y.
Qed.
