(* ===== verification/Texts.v ===== *)
(** * Python's text methods, on ASCII texts

    [str.strip], [str.lower], [str.startswith], [str.partition], splitting and
    slices, the reading of numbers, and tuples of numbers, as the components use
    them. *)

From Stdlib Require Import Ascii.
From S2P Require Import Prelude.

#[local] Open Scope string_scope.
#[local] Open Scope list_scope.
#[local] Open Scope Z_scope.

Definition is_space (c : ascii) : bool :=
  let n := Z.of_nat (nat_of_ascii c) in
  ((9 <=? n) && (n <=? 13)) || ((28 <=? n) && (n <=? 32)).
Fixpoint lstrip (s : string) : string :=
  match s with
  | EmptyString => EmptyString
  | String c s' => if is_space c then lstrip s' else s
  end.
Fixpoint rstrip (s : string) : string :=
  match s with
  | EmptyString => EmptyString
  | String c s' =>
      match rstrip s' with
      | EmptyString => if is_space c then EmptyString else String c EmptyString
      | t => String c t
      end
  end.
Definition strip (s : string) : string := rstrip (lstrip s).
Fixpoint lower (s : string) : string :=
  match s with
  | EmptyString => EmptyString
  | String c s =>
      let n := Z.of_nat (nat_of_ascii c) in
      String (if (65 <=? n) && (n <=? 90) then ascii_of_nat (nat_of_ascii c + 32) else c) (lower s)
  end.

(** [s[len(p):]] if [s.startswith(p)]. *)
Fixpoint after_prefix (p s : string) : option string :=
  match p, s with
  | EmptyString, _ => Some s
  | String a p, String b s => if Ascii.eqb a b then after_prefix p s else None
  | _, EmptyString => None
  end.

(** [s.partition(sep)] for a separator of one character: the text before its
    first occurrence and the text after it; [None] when it does not occur. *)
Fixpoint partition (sep : ascii) (s : string) : option (string * string) :=
  match s with
  | EmptyString => None
  | String c s' =>
      if Ascii.eqb c sep then Some (EmptyString, s')
      else match partition sep s' with
           | Some (k, v) => Some (String c k, v)
           | None => None
           end
  end.

(** [s[:n]] *)
Definition clip (n : nat) (s : string) : string := String.substring 0 n s.

(** [key in s] *)
Fixpoint contains (key s : string) : bool :=
  match after_prefix key s, s with
  | Some _, _ => true
  | None, String _ s' => contains key s'
  | None, EmptyString => false
  end.

(** [s.endswith(t)] *)
Fixpoint ends_with (t s : string) : bool :=
  String.eqb s t || match s with EmptyString => false | String _ s' => ends_with t s' end.

(** The text after the first occurrence of [key]. *)
Fixpoint after_sub (key s : string) : option string :=
  match after_prefix key s, s with
  | Some r, _ => Some r
  | None, String _ s' => after_sub key s'
  | None, EmptyString => None
  end.

(** The longest front of characters in [p], and the rest. *)
Fixpoint span (p : ascii -> bool) (s : string) : string * string :=
  match s with
  | EmptyString => (EmptyString, EmptyString)
  | String c s' => if p c then let '(a, b) := span p s' in (String c a, b) else (EmptyString, s)
  end.

(** Splitting at every character in [p]; [cur] is the part so far. *)
Fixpoint split_on (p : ascii -> bool) (s cur : string) : list string :=
  match s with
  | EmptyString => [cur]
  | String c s' => if p c then cur :: split_on p s' "" else split_on p s' (cur +:+ String c "")
  end.

(** ** Numbers and tuples *)

Definition digit (c : ascii) : option Z :=
  let n := Z.of_nat (nat_of_ascii c) in if (48 <=? n) && (n <=? 57) then Some (n - 48) else None.

(** The digits of [int]; an underscore may stand between two of them. *)
Fixpoint int_digits (s : string) (acc : Z) : option Z :=
  match s with
  | EmptyString => Some acc
  | String c s' =>
      match digit c with
      | Some n => int_digits s' (10 * acc + n)
      | None =>
          if Ascii.eqb c "_"%char then
            match s' with
            | String c' s'' => match digit c' with Some n => int_digits s'' (10 * acc + n) | None => None end
            | EmptyString => None
            end
          else None
      end
  end.
Definition unsigned_int (s : string) : option Z :=
  match s with
  | String c s' => match digit c with Some n => int_digits s' n | None => None end
  | EmptyString => None
  end.

(** [int(s)]; [None] is the [ValueError]. *)
Definition py_int (s : string) : option Z :=
  match strip s with
  | String "-" s' => Z.opp <$> unsigned_int s'
  | String "+" s' => unsigned_int s'
  | s => unsigned_int s
  end.

(** [a < b] on tuples *)
Fixpoint tuple_lt (a b : list Z) : bool :=
  match a, b with
  | _, [] => false
  | [], _ :: _ => true
  | x :: a, y :: b => if x =? y then tuple_lt a b else x <? y
  end.

Lemma tuple_lt_irrefl a : tuple_lt a a = false.
Proof. induction a as [|x a IH]; [done|]. cbn. by rewrite Z.eqb_refl. Qed.
Lemma tuple_lt_trans a b c : tuple_lt a b = true -> tuple_lt b c = true -> tuple_lt a c = true.
Proof.
  revert b c. induction a as [|x a IH]; intros [|y b] [|z c]; cbn; try done.
  destruct (Z.eqb_spec x y), (Z.eqb_spec y z), (Z.eqb_spec x z); subst; intros; bool_hyps; first [by eapply IH|lia].
Qed.
Lemma tuple_lt_total a b : tuple_lt a b = true \/ a = b \/ tuple_lt b a = true.
Proof.
  revert b. induction a as [|x a IH]; intros [|y b]; cbn; auto.
  rewrite (Z.eqb_sym y x). destruct (Z.eqb_spec x y) as [->|Hxy].
  - destruct (IH b) as [|[->|]]; auto.
  - destruct (Z.ltb_spec x y), (Z.ltb_spec y x); auto; lia.
Qed.

Lemma append_assoc (a b c : string) : (a +:+ b) +:+ c = a +:+ b +:+ c.
Proof. induction a as [|x a IH]; [done|]. change (String x ((a +:+ b) +:+ c) = String x (a +:+ b +:+ c)). by rewrite IH. Qed.

Lemma partition_app sep s t : partition sep s = None -> partition sep (s +:+ String sep t) = Some (s, t).
Proof.
  induction s as [|c s IH]; cbn [partition].
  { intros _. change (partition sep (String sep t) = Some ("", t)). cbn [partition]. by rewrite Ascii.eqb_refl. }
  change (String c s +:+ String sep t) with (String c (s +:+ String sep t)). cbn [partition].
  destruct (Ascii.eqb c sep); [done|]. destruct (partition sep s) as [[k v]|]; [done|]. intros _. by rewrite IH.
Qed.
