(* ===== verification/EntityLock.v ===== *)
(** * Heartbeat locks with fencing tokens ([backend/services/entity_lock.py])

    The three lockable tables are finite maps from row ids to [row]s; a row
    holds the four lock columns and its other columns by name.  Each method of
    [EntityLockService] is one SQL statement on one table, committed before the
    method returns, so each is one atomic function of the database.  Wall-clock
    readings are integer microseconds and are arguments.  [sys_step] interleaves
    the operations of any number of workers. *)

From S2P Require Import Prelude.
Local Open Scope string_scope.
Local Open Scope Z_scope.

(** ** Data *)

Record row := Row {
  holding_task_id : option Z;
  heartbeat_at : option Z;
  lock_fence_token : Z;
  lock_acquired_at : option Z;
  columns : gmap string json
}.

(** One table: rows by primary key.  The database: tables by name. *)
Abbreviation table := (gmap Z row).
Abbreviation database := (gmap string (gmap Z row)).

Definition RECLAIM_AFTER_SECONDS : Z := 30.
Definition HEARTBEAT_INTERVAL_SECONDS : Z := 5.
(** In microseconds, the unit of the model's clocks. *)
Definition ACQUIRE_POLL_INTERVAL : Z := 1000000.
Definition DEFAULT_CONTEXT_WAIT_TIMEOUT : Z := 60 * 1000000.

(** [timedelta(seconds=n)] *)
Definition seconds (n : Z) : Z := n * 1000000.

Definition _ALLOWED_LOCK_TABLES : list string :=
  [ "project_modules"; "proxy_deployments"; "bnk_upgrades" ].

Definition _ALLOWED_FIELDS_BY_TABLE : gmap string (list string) :=
  {[ "project_modules" :=
       [ "status"; "outputs"; "deployment_error"; "stage_detail";
         "last_deployed_at"; "workspace_path"; "last_init_at"; "plan_output";
         "plan_serial"; "vars_hash" ];
     "proxy_deployments" :=
       [ "status"; "status_message"; "proxy_url"; "external_url";
         "helm_release"; "helm_values"; "deployed_at" ];
     "bnk_upgrades" :=
       [ "status"; "started_at"; "completed_at"; "current_step";
         "step_results"; "error_message"; "error_step"; "duration_seconds";
         "pre_health"; "post_health"; "rollback_info"; "rollback_available";
         "rollback_reason"; "health_gate_passed" ] ]}.

Record EntityLock := MkLock {
  entity_id : Z;
  task_id : Z;
  fence_token : Z;
  lock_table : string
}.

#[global] Instance EntityLock_eq_dec : EqDecision EntityLock.
Proof. solve_decision. Defined.

(** The exceptions the module raises. *)
Inductive lock_exc :=
| EntityLockError
| EntityLockLostError
| ValueError_unknown_table
| ValueError_disallowed_columns (bad : list string)
| ValueError_no_id.

(** [ModuleLock(...)], the keyword-compatible constructor. *)
Definition ModuleLock (module_id : option Z) (tid fence : Z) (eid : option Z)
    (tbl : string) : result lock_exc EntityLock :=
  match eid, module_id with
  | None, None => Err ValueError_no_id
  | Some e, _ => Ok (MkLock e tid fence tbl)
  | None, Some m => Ok (MkLock m tid fence tbl)
  end.

Record EntityLockService := MkService {
  svc_table : string;
  reclaim_after_seconds : Z;
  heartbeat_interval_seconds : Z
}.

(** [EntityLockService.__init__] *)
Definition new_service (tbl : string) (reclaim hb : Z)
    : result lock_exc EntityLockService :=
  if decide (tbl ∈ _ALLOWED_LOCK_TABLES)
  then Ok (MkService tbl reclaim hb)
  else Err ValueError_unknown_table.

(** ** SQL statements *)

(** [UPDATE t SET f WHERE p]: the new table and the row count. *)
Definition sql_update (p : Z -> row -> option bool) (f : row -> row) (t : table)
    : table * nat :=
  (map_imap (fun i r => Some (if sql_true (p i r) then f r else r)) t,
   size (filter (fun ir => sql_true (p ir.1 ir.2) = true) t)).

Definition get_table (tbl : string) (db : database) : table := db !!! tbl.

(** Run an UPDATE on one table of the database. *)
Definition db_update (tbl : string) (p : Z -> row -> option bool)
    (f : row -> row) (db : database) : database * nat :=
  let '(t', n) := sql_update p f (get_table tbl db) in (<[tbl := t']> db, n).

Definition sql_acquire_where (eid cutoff : Z) (i : Z) (r : row) : option bool :=
  sql_and (sql_eq (Some i) eid)
    (sql_or (sql_is_null r.(holding_task_id)) (sql_lt r.(heartbeat_at) cutoff)).

Definition sql_acquire_set (tid now : Z) (r : row) : row :=
  Row (Some tid) (Some now) (r.(lock_fence_token) + 1) (Some now) r.(columns).

(** The guard of [_sql_refresh] and [_sql_release]. *)
Definition sql_holder_where (eid tid fence : Z) (i : Z) (r : row) : option bool :=
  sql_and (sql_eq (Some i) eid)
    (sql_and (sql_eq r.(holding_task_id) tid)
       (sql_eq (Some r.(lock_fence_token)) fence)).

Definition sql_refresh_set (now : Z) (r : row) : row :=
  Row r.(holding_task_id) (Some now) r.(lock_fence_token) r.(lock_acquired_at)
    r.(columns).

(** [SET holding_task_id = NULL, heartbeat_at = NULL] *)
Definition sql_release_set (r : row) : row :=
  Row None None r.(lock_fence_token) r.(lock_acquired_at) r.(columns).

Definition sql_force_release_where (eid : Z) (i : Z) (r : row) : option bool :=
  sql_and (sql_eq (Some i) eid) (sql_not (sql_is_null r.(holding_task_id))).

(** ** The service's methods *)

(** [_try_acquire]: the UPDATE ... RETURNING, then the lock from the row. *)
Definition _try_acquire (svc : EntityLockService) (now eid tid : Z) (db : database)
    : database * option EntityLock :=
  let cutoff := now - seconds svc.(reclaim_after_seconds) in
  let '(db', n) :=
    db_update svc.(svc_table) (sql_acquire_where eid cutoff)
      (sql_acquire_set tid now) db in
  match n, get_table svc.(svc_table) db' !! eid with
  | S _, Some r => (db', Some (MkLock eid tid r.(lock_fence_token) svc.(svc_table)))
  | _, _ => (db', None)
  end.

(** What the [i]-th iteration of the polling loop sees: the monotonic clock
    when the deadline is tested, the wall clock, and what other sessions did to
    the database since the previous iteration. *)
Record poll := Poll {
  mono_clock : Z;
  wall_clock : Z;
  interference : database -> database
}.

(** The [while True] loop of [acquire]; [None] is running out of fuel. *)
Fixpoint acquire_loop (svc : EntityLockService) (eid tid : Z) (deadline : option Z)
    (world : nat -> poll) (fuel i : nat) (db : database)
    : option (database * option EntityLock) :=
  match fuel with
  | O => None
  | S fuel' =>
      let w := world i in
      match _try_acquire svc w.(wall_clock) eid tid (w.(interference) db) with
      | (db', Some l) => Some (db', Some l)
      | (db', None) =>
          match deadline with
          | None => Some (db', None)
          | Some d =>
              if d <=? w.(mono_clock) then Some (db', None)
              else acquire_loop svc eid tid deadline world fuel' (S i) db'
          end
      end
  end.

(** [acquire]: [start] is [time.monotonic()] on entry. *)
Definition acquire (svc : EntityLockService) (eid tid wait_timeout start : Z)
    (world : nat -> poll) (fuel : nat) (db : database)
    : option (database * option EntityLock) :=
  let deadline := if 0 <? wait_timeout then Some (start + wait_timeout) else None in
  acquire_loop svc eid tid deadline world fuel 0 db.

Definition refresh (svc : EntityLockService) (now : Z) (l : EntityLock)
    (db : database) : database * bool :=
  let '(db', n) :=
    db_update svc.(svc_table)
      (sql_holder_where l.(entity_id) l.(task_id) l.(fence_token))
      (sql_refresh_set now) db in
  (db', Nat.eqb n 1).

Definition release (svc : EntityLockService) (l : EntityLock) (db : database)
    : database :=
  (db_update svc.(svc_table)
     (sql_holder_where l.(entity_id) l.(task_id) l.(fence_token))
     sql_release_set db).1.

Definition is_held (svc : EntityLockService) (now eid : Z) (db : database) : bool :=
  match get_table svc.(svc_table) db !! eid with
  | None => false
  | Some r =>
      match r.(holding_task_id), r.(heartbeat_at) with
      | Some _, Some hb => now - seconds svc.(reclaim_after_seconds) <=? hb
      | _, _ => false
      end
  end.

Definition force_release (svc : EntityLockService) (eid : Z) (db : database)
    : database * bool :=
  let '(db', n) :=
    db_update svc.(svc_table) (sql_force_release_where eid) sql_release_set db in
  (db', Nat.eqb n 1).

Record holder := Holder {
  h_entity_id : Z;
  h_table : string;
  h_task : Z;
  h_heartbeat : option Z;
  h_fence : Z
}.

Definition get_holder (svc : EntityLockService) (eid : Z) (db : database)
    : option holder :=
  match get_table svc.(svc_table) db !! eid with
  | Some r =>
      match r.(holding_task_id) with
      | Some t =>
          Some (Holder eid svc.(svc_table) t r.(heartbeat_at) r.(lock_fence_token))
      | None => None
      end
  | None => None
  end.

Definition list_held (svc : EntityLockService) (db : database) : list holder :=
  omap (fun ir => get_holder svc ir.1 db) (map_to_list (get_table svc.(svc_table) db)).

(** ** [HeartbeatRefresher._run]: one entry of the list per wake-up of the
    daemon thread ([_stop.wait] returned false).  A wake-up either refreshes, or
    the database call raises and the exception is swallowed. *)
Inductive wakeup :=
| Beat (now : Z) (others : database -> database)
| BeatRaises (others : database -> database).

Fixpoint _run (svc : EntityLockService) (l : EntityLock) (ws : list wakeup)
    (db : database) : database * bool :=
  match ws with
  | [] => (db, false)
  | Beat now others :: ws' =>
      match refresh svc now l (others db) with
      | (db', true) => _run svc l ws' db'
      | (db', false) => (db', true)
      end
  | BeatRaises others :: ws' => _run svc l ws' (others db)
  end.

(** ** [set_locked_entity_fields] *)

Definition sql_fence_where (eid fence : Z) (i : Z) (r : row) : option bool :=
  sql_and (sql_eq (Some i) eid) (sql_eq (Some r.(lock_fence_token)) fence).

Definition set_columns (fields : list (string * json)) (r : row) : row :=
  Row r.(holding_task_id) r.(heartbeat_at) r.(lock_fence_token)
    r.(lock_acquired_at) (list_to_map fields ∪ r.(columns)).

Definition set_locked_entity_fields (eid : Z) (l : EntityLock) (tbl : string)
    (fields : list (string * json)) (db : database)
    : result lock_exc database :=
  match fields with
  | [] => Ok db
  | _ =>
      match _ALLOWED_FIELDS_BY_TABLE !! tbl with
      | None => Err ValueError_unknown_table
      | Some allowed =>
          match filter (fun k => k ∉ allowed) fields.*1 with
          | [] =>
              let '(db', n) :=
                db_update tbl (sql_fence_where eid l.(fence_token))
                  (set_columns fields) db in
              if Nat.eqb n 0 then Err EntityLockLostError else Ok db'
          | bad => Err (ValueError_disallowed_columns bad)
          end
      end
  end.

(** ** [sweep_stale_entity_locks] *)

Definition sql_sweep_where (cutoff : Z) (_ : Z) (r : row) : option bool :=
  sql_and (sql_not (sql_is_null r.(holding_task_id))) (sql_lt r.(heartbeat_at) cutoff).

Definition sweep_table (cutoff : Z) (acc : database * gmap string nat) (tbl : string)
    : database * gmap string nat :=
  let '(db', n) := db_update tbl (sql_sweep_where cutoff) sql_release_set acc.1 in
  (db', <[tbl := n]> acc.2).

Definition sweep_stale_entity_locks (now : Z) (db : database)
    : database * gmap string nat :=
  let cutoff := now - seconds RECLAIM_AFTER_SECONDS in
  foldl (sweep_table cutoff) (db, ∅) _ALLOWED_LOCK_TABLES.

(** ** The context manager [entity_lock]

    [body] is the [with] block: it transforms the database and returns or
    raises; [lost] says whether the heartbeat thread noticed the loss while the
    block ran; [release_fails] that the final release raised (it is logged and
    swallowed). *)
Definition entity_lock {E A} (svc : EntityLockService)
    (eid tid wait_timeout start : Z) (world : nat -> poll) (fuel : nat)
    (body : EntityLock -> database -> database * result (lock_exc + E) A)
    (lost release_fails : bool) (db : database)
    : option (database * result (lock_exc + E) A) :=
  match acquire svc eid tid wait_timeout start world fuel db with
  | None => None
  | Some (db', None) => Some (db', Err (inl EntityLockError))
  | Some (db', Some l) =>
      let '(db'', res) := body l db' in
      if lost || release_fails then Some (db'', res)
      else Some (release svc l db'', res)
  end.

(** ** Interleaved workers

    A step of the system is one committed operation of some worker, at a wall
    clock reading. *)
Inductive action :=
| ATryAcquire (tbl : string) (eid tid : Z) (reclaim : Z)
| ARefresh (l : EntityLock)
| ARelease (l : EntityLock)
| AForceRelease (tbl : string) (eid : Z)
| AWrite (l : EntityLock) (fields : list (string * json))
| ASweep.

(** What the operation answers its caller. *)
Inductive answer :=
| Granted (l : EntityLock)
| Refused
| Done
| Raised (e : lock_exc).

Definition do_action (now : Z) (a : action) (db : database) : database * answer :=
  match a with
  | ATryAcquire tbl eid tid reclaim =>
      match new_service tbl reclaim HEARTBEAT_INTERVAL_SECONDS with
      | Err e => (db, Raised e)
      | Ok svc =>
          match _try_acquire svc now eid tid db with
          | (db', Some l) => (db', Granted l)
          | (db', None) => (db', Refused)
          end
      end
  | ARefresh l =>
      match new_service l.(lock_table) RECLAIM_AFTER_SECONDS HEARTBEAT_INTERVAL_SECONDS with
      | Err e => (db, Raised e)
      | Ok svc =>
          let '(db', ok) := refresh svc now l db in
          (db', if ok then Done else Refused)
      end
  | ARelease l =>
      match new_service l.(lock_table) RECLAIM_AFTER_SECONDS HEARTBEAT_INTERVAL_SECONDS with
      | Err e => (db, Raised e)
      | Ok svc => (release svc l db, Done)
      end
  | AForceRelease tbl eid =>
      match new_service tbl RECLAIM_AFTER_SECONDS HEARTBEAT_INTERVAL_SECONDS with
      | Err e => (db, Raised e)
      | Ok svc =>
          let '(db', ok) := force_release svc eid db in
          (db', if ok then Done else Refused)
      end
  | AWrite l fields =>
      match set_locked_entity_fields l.(entity_id) l l.(lock_table) fields db with
      | Ok db' => (db', Done)
      | Err e => (db, Raised e)
      end
  | ASweep => ((sweep_stale_entity_locks now db).1, Done)
  end.

(** A run: the operations with their clock readings, in commit order; the
    answers are collected in the same order. *)
Fixpoint run (acts : list (Z * action)) (db : database) : database * list answer :=
  match acts with
  | [] => (db, [])
  | (now, a) :: acts' =>
      let '(db', ans) := do_action now a db in
      let '(db'', rest) := run acts' db' in
      (db'', ans :: rest)
  end.

(** The locks granted on one row, in the order they were granted. *)
Definition lock_on (tbl : string) (eid : Z) (a : answer) : option EntityLock :=
  match a with
  | Granted l =>
      if decide (l.(lock_table) = tbl /\ l.(entity_id) = eid) then Some l else None
  | _ => None
  end.
Definition grants (tbl : string) (eid : Z) (ans : list answer) : list EntityLock :=
  omap (lock_on tbl eid) ans.

(** The current fence of a row. *)
Definition fence_of (tbl : string) (eid : Z) (db : database) : option Z :=
  lock_fence_token <$> get_table tbl db !! eid.

(** A lock row is well formed when it has a heartbeat exactly when it is held. *)
Definition row_ok (r : row) : Prop :=
  is_Some r.(holding_task_id) <-> is_Some r.(heartbeat_at).
Definition db_ok (db : database) : Prop :=
  forall tbl eid r, get_table tbl db !! eid = Some r -> row_ok r.

#[global] Arguments db_update : simpl never.
#[global] Arguments get_table : simpl never.
#[global] Arguments _try_acquire : simpl never.
#[global] Arguments refresh : simpl never.
#[global] Arguments release : simpl never.
#[global] Arguments force_release : simpl never.
#[global] Arguments set_locked_entity_fields : simpl never.
#[global] Arguments sweep_stale_entity_locks : simpl never.

(** ** Lemmas on the SQL layer *)

Lemma sql_and_true a b :
  sql_true (sql_and a b) = true <-> sql_true a = true /\ sql_true b = true.
Proof. destruct a as [[]|], b as [[]|]; naive_solver. Qed.

Lemma sql_or_true a b :
  sql_true (sql_or a b) = true <-> sql_true a = true \/ sql_true b = true.
Proof. destruct a as [[]|], b as [[]|]; naive_solver. Qed.

Lemma sql_eq_true a b : sql_true (sql_eq a b) = true <-> a = Some b.
Proof.
  destruct a as [x|]; cbn; [|done]. rewrite Z.eqb_eq. naive_solver.
Qed.

Lemma sql_lt_true a b : sql_true (sql_lt a b) = true <-> exists x, a = Some x /\ x < b.
Proof. destruct a as [x|]; cbn; [rewrite Z.ltb_lt|]; naive_solver. Qed.

Lemma get_table_insert tbl tbl' t (db : database) :
  get_table tbl' (<[tbl := t]> db) = if decide (tbl = tbl') then t else get_table tbl' db.
Proof.
  unfold get_table. case_decide; subst.
  - by rewrite lookup_total_insert_eq.
  - by rewrite lookup_total_insert_ne.
Qed.

Lemma sql_update_lookup p f t i :
  (sql_update p f t).1 !! i =
  (fun r => if sql_true (p i r) then f r else r) <$> t !! i.
Proof. cbn. rewrite map_lookup_imap. by destruct (t !! i). Qed.

(** What an UPDATE does to one row of one table. *)
Lemma db_update_lookup tbl p f db tbl' i :
  get_table tbl' (db_update tbl p f db).1 !! i =
  (fun r => if decide (tbl = tbl')
            then if sql_true (p i r) then f r else r else r)
    <$> get_table tbl' db !! i.
Proof.
  unfold db_update. destruct (sql_update _ _ _) as [t' n] eqn:E. cbn.
  rewrite get_table_insert. case_decide as Ht; subst.
  - by rewrite <- (sql_update_lookup p f), E.
  - by destruct (get_table tbl' db !! i).
Qed.

(** An UPDATE keyed by the primary key touches one row or none. *)
Lemma db_update_count tbl p f db eid :
  (forall i r, sql_true (p i r) = true -> i = eid) ->
  (db_update tbl p f db).2 =
  match get_table tbl db !! eid with
  | Some r => if sql_true (p eid r) then 1%nat else 0%nat
  | None => 0%nat
  end.
Proof.
  intros Hk. unfold db_update, sql_update. cbn.
  set (t := get_table tbl db).
  destruct (t !! eid) as [r|] eqn:Hr; [destruct (sql_true (p eid r)) eqn:Hp|].
  - replace (filter _ t) with ({[eid := r]} : table); [by rewrite map_size_singleton|].
    apply map_eq; intros i. destruct (decide (i = eid)) as [->|Hne].
    + rewrite lookup_singleton_eq. symmetry. by apply map_lookup_filter_Some.
    + rewrite lookup_singleton_ne by done. symmetry.
      apply map_lookup_filter_None. right. intros r' _ H'. by apply Hk in H'.
  - apply map_size_empty_iff, map_empty; intros i.
    apply map_lookup_filter_None. right. intros r' Hr' H'. cbn in H'.
    pose proof (Hk _ _ H') as ->. congruence.
  - apply map_size_empty_iff, map_empty; intros i.
    apply map_lookup_filter_None. right. intros r' Hr' H'. cbn in H'.
    pose proof (Hk _ _ H') as ->. congruence.
Qed.

(** An UPDATE whose guard is "the row with this key, if it satisfies [Q]". *)
Section keyed_update.
Context (tbl : string) (p : Z -> row -> option bool) (f : row -> row) (eid : Z).
Context (Q : row -> Prop) `{!forall r, Decision (Q r)}.
Context (Hp : forall i r, sql_true (p i r) = true <-> i = eid /\ Q r).

Lemma keyed_update_count db :
  (db_update tbl p f db).2 =
  match get_table tbl db !! eid with
  | Some r => if decide (Q r) then 1%nat else 0%nat
  | None => 0%nat
  end.
Proof using Hp.
  rewrite (db_update_count tbl p f db eid) by (intros i r; rewrite Hp; naive_solver).
  destruct (get_table tbl db !! eid) as [r|]; [|done].
  destruct (sql_true (p eid r)) eqn:E; case_decide as HQ; try done.
  - apply Hp in E. naive_solver.
  - apply not_true_iff_false in E. rewrite Hp in E. naive_solver.
Qed.

Lemma keyed_update_lookup db t i :
  get_table t (db_update tbl p f db).1 !! i =
  if decide (t = tbl /\ i = eid)
  then (fun r => if decide (Q r) then f r else r) <$> get_table tbl db !! eid
  else get_table t db !! i.
Proof using Hp.
  rewrite db_update_lookup.
  destruct (decide (t = tbl /\ i = eid)) as [[-> ->]|Hne].
  - destruct (get_table tbl db !! eid) as [r|]; [|done]. cbn.
    rewrite decide_True by done. f_equal.
    destruct (sql_true (p eid r)) eqn:E; case_decide as HQ; try done.
    + apply Hp in E. naive_solver.
    + apply not_true_iff_false in E. rewrite Hp in E. naive_solver.
  - destruct (get_table t db !! i) as [r|]; [|done]. cbn. f_equal.
    case_decide; [|done]. destruct (sql_true (p i r)) eqn:E; [|done].
    apply Hp in E. naive_solver.
Qed.
End keyed_update.

(** Two databases whose tables agree row by row; [<[t:=...]>] of an absent
    table makes a difference Leibniz equality sees and SQL does not. *)
Definition db_eqv (d1 d2 : database) : Prop :=
  forall tbl eid, get_table tbl d1 !! eid = get_table tbl d2 !! eid.

#[global] Instance db_eqv_equivalence : Equivalence db_eqv.
Proof.
  split; [by intros ???|by intros ?? H ??|].
  intros d1 d2 d3 H1 H2 t e. by rewrite H1, H2.
Qed.

#[global] Instance fence_of_proper tbl eid : Proper (db_eqv ==> eq) (fence_of tbl eid).
Proof. intros d1 d2 H. unfold fence_of. by rewrite H. Qed.

#[global] Instance is_held_proper svc now eid : Proper (db_eqv ==> eq) (is_held svc now eid).
Proof. intros d1 d2 H. unfold is_held. by rewrite H. Qed.

#[global] Instance db_ok_proper : Proper (db_eqv ==> iff) db_ok.
Proof.
  intros d1 d2 H. unfold db_ok. split; intros Hok t e r Hr.
  - rewrite <- H in Hr. eauto.
  - rewrite H in Hr. eauto.
Qed.

(** An UPDATE whose guard holds of no row changes nothing. *)
Lemma db_update_noop tbl p f db :
  (forall i r, get_table tbl db !! i = Some r -> sql_true (p i r) = false) ->
  db_eqv (db_update tbl p f db).1 db.
Proof.
  intros Hp t i. rewrite db_update_lookup.
  destruct (get_table t db !! i) as [r|] eqn:Hr; [|done]. cbn.
  case_decide; subst; [|done]. by rewrite (Hp _ _ Hr).
Qed.

(** ** The methods, case by case *)

(** [_try_acquire] succeeds when the row is free or its heartbeat is stale; the
    row is then held by the caller under the next fence. *)
Definition acquirable (svc : EntityLockService) (now : Z) (r : row) : Prop :=
  r.(holding_task_id) = None \/
  exists hb, r.(heartbeat_at) = Some hb /\ hb < now - seconds svc.(reclaim_after_seconds).

#[global] Instance acquirable_dec svc now r : Decision (acquirable svc now r).
Proof.
  unfold acquirable. destruct r.(heartbeat_at) as [hb|].
  - destruct (decide (holding_task_id r = None \/
      hb < now - seconds (reclaim_after_seconds svc))) as [H|H].
    + left. naive_solver.
    + right. naive_solver.
  - destruct (decide (holding_task_id r = None)); [left|right]; naive_solver.
Defined.

Lemma sql_acquire_where_true svc now eid i r :
  sql_true (sql_acquire_where eid (now - seconds svc.(reclaim_after_seconds)) i r) = true
  <-> i = eid /\ acquirable svc now r.
Proof.
  unfold sql_acquire_where, acquirable.
  rewrite sql_and_true, sql_or_true, sql_eq_true, sql_lt_true.
  destruct r.(holding_task_id); cbn; naive_solver.
Qed.

Lemma sql_holder_where_true eid tid fence i r :
  sql_true (sql_holder_where eid tid fence i r) = true <->
  i = eid /\ r.(holding_task_id) = Some tid /\ r.(lock_fence_token) = fence.
Proof.
  unfold sql_holder_where. rewrite !sql_and_true, !sql_eq_true. naive_solver.
Qed.

Lemma sql_fence_where_true eid fence i r :
  sql_true (sql_fence_where eid fence i r) = true <->
  i = eid /\ r.(lock_fence_token) = fence.
Proof.
  unfold sql_fence_where. rewrite sql_and_true, !sql_eq_true. naive_solver.
Qed.

Lemma sql_force_release_where_true eid i r :
  sql_true (sql_force_release_where eid i r) = true <->
  i = eid /\ is_Some r.(holding_task_id).
Proof.
  unfold sql_force_release_where. rewrite sql_and_true, sql_eq_true.
  destruct r.(holding_task_id); cbn; naive_solver.
Qed.

Lemma sql_sweep_where_true cutoff i r :
  sql_true (sql_sweep_where cutoff i r) = true <->
  is_Some r.(holding_task_id) /\ exists hb, r.(heartbeat_at) = Some hb /\ hb < cutoff.
Proof.
  unfold sql_sweep_where. rewrite sql_and_true, sql_lt_true.
  destruct r.(holding_task_id); cbn; naive_solver.
Qed.

Create Rewrite HintDb sql.
#[global] Hint Rewrite sql_acquire_where_true sql_holder_where_true
  sql_fence_where_true sql_force_release_where_true sql_sweep_where_true : sql.

Lemma try_acquire_spec svc now eid tid db :
  match get_table svc.(svc_table) db !! eid with
  | Some r =>
      if decide (acquirable svc now r)
      then
        let r' := sql_acquire_set tid now r in
        (_try_acquire svc now eid tid db).2
          = Some (MkLock eid tid (r.(lock_fence_token) + 1) svc.(svc_table)) /\
        forall tbl i, get_table tbl (_try_acquire svc now eid tid db).1 !! i =
          if decide (tbl = svc.(svc_table) /\ i = eid) then Some r'
          else get_table tbl db !! i
      else (_try_acquire svc now eid tid db).2 = None /\
           db_eqv (_try_acquire svc now eid tid db).1 db
  | None => (_try_acquire svc now eid tid db).2 = None /\
            db_eqv (_try_acquire svc now eid tid db).1 db
  end.
Proof.
  unfold _try_acquire.
  set (p := sql_acquire_where _ _). set (f := sql_acquire_set _ _).
  pose proof (sql_acquire_where_true svc now eid) as Hp.
  pose proof (keyed_update_count (svc_table svc) p f eid _ Hp db) as Hn.
  pose proof (keyed_update_lookup (svc_table svc) p f eid _ Hp db) as Hl.
  destruct (db_update _ _ _ _) as [db' n]. cbn [fst snd] in *.
  pose proof (Hl (svc_table svc) eid) as He. rewrite decide_True in He by done.
  destruct (get_table (svc_table svc) db !! eid) as [r|] eqn:Hr;
    [case_decide as Ha|]; subst n; cbn [fmap option_fmap option_map] in *.
  - rewrite decide_True in He by done. rewrite He. cbn. split; [done|].
    intros t i. rewrite Hl. by destruct (decide (acquirable svc now r)).
  - split; [done|]. intros t i. rewrite Hl.
    destruct (decide (acquirable svc now r)); [done|].
    case_decide as Ht; [destruct Ht as [-> ->]; by rewrite Hr|done].
  - split; [done|]. intros t i. rewrite Hl.
    case_decide as Ht; [destruct Ht as [-> ->]; by rewrite Hr|done].
Qed.

Lemma try_acquire_granted svc now eid tid db db' l :
  _try_acquire svc now eid tid db = (db', Some l) ->
  exists r, get_table svc.(svc_table) db !! eid = Some r /\ acquirable svc now r /\
    l = MkLock eid tid (r.(lock_fence_token) + 1) svc.(svc_table) /\
    forall tbl i, get_table tbl db' !! i =
      if decide (tbl = svc.(svc_table) /\ i = eid) then Some (sql_acquire_set tid now r)
      else get_table tbl db !! i.
Proof.
  intros E. pose proof (try_acquire_spec svc now eid tid db) as H. rewrite E in H.
  destruct (get_table _ _ !! _) as [r|] eqn:Hr; [|by destruct H].
  destruct (decide (acquirable svc now r)); [|by destruct H].
  destruct H as [[= ->] Hd]. eauto.
Qed.

Lemma try_acquire_refused svc now eid tid db db' :
  _try_acquire svc now eid tid db = (db', None) ->
  db_eqv db' db /\
  forall r, get_table svc.(svc_table) db !! eid = Some r -> ~ acquirable svc now r.
Proof.
  intros E. pose proof (try_acquire_spec svc now eid tid db) as H. rewrite E in H.
  destruct (get_table _ _ !! _) as [r|] eqn:Hr; [|by destruct H].
  destruct (decide (acquirable svc now r)); [by destruct H|].
  destruct H as [_ H]. split; [done|]. by intros ? [= <-].
Qed.

Lemma fence_of_update_other tbl p f db t i :
  (forall r, (f r).(lock_fence_token) = r.(lock_fence_token)) ->
  fence_of t i (db_update tbl p f db).1 = fence_of t i db.
Proof.
  intros Hf. unfold fence_of. rewrite db_update_lookup.
  destruct (get_table t db !! i) as [r|]; [|done]. cbn.
  case_decide; [|done]. case_match; [|done]. by rewrite Hf.
Qed.

Lemma sweep_table_fst c acc tbl :
  (sweep_table c acc tbl).1 =
  (db_update tbl (sql_sweep_where c) sql_release_set acc.1).1.
Proof. unfold sweep_table. by destruct (db_update _ _ _ _). Qed.

Lemma fence_of_sweep_tables c tbls acc t i :
  fence_of t i (foldl (sweep_table c) acc tbls).1 = fence_of t i acc.1.
Proof.
  revert acc. induction tbls as [|tbl tbls IH]; intros acc; [done|]. cbn [foldl].
  rewrite IH, sweep_table_fst. by apply fence_of_update_other.
Qed.

Lemma fence_of_sweep now db t i :
  fence_of t i (sweep_stale_entity_locks now db).1 = fence_of t i db.
Proof. apply (fence_of_sweep_tables _ _ (db, ∅)). Qed.

Lemma fence_of_write eid l tbl fields db db' t i :
  set_locked_entity_fields eid l tbl fields db = Ok db' ->
  fence_of t i db' = fence_of t i db.
Proof.
  unfold set_locked_entity_fields.
  destruct fields as [|kv fields]; [by intros [= <-]|].
  destruct (_ALLOWED_FIELDS_BY_TABLE !! tbl); [|done].
  destruct (filter _ _); [|done].
  pose proof (fence_of_update_other tbl (sql_fence_where eid (fence_token l))
    (set_columns (kv :: fields)) db t i) as H.
  destruct (db_update _ _ _ _) as [d n]. case_match; [done|].
  intros [= <-]. by apply H.
Qed.

(** Only a grant moves the fence of a row, by one, and the lock carries the
    new fence. *)
Lemma do_action_fence now a db db' ans t i :
  do_action now a db = (db', ans) ->
  match lock_on t i ans with
  | Some l => exists f, fence_of t i db = Some f /\ l.(fence_token) = f + 1 /\
                        fence_of t i db' = Some (f + 1)
  | None => fence_of t i db' = fence_of t i db
  end.
Proof.
  destruct a as [tbl eid tid reclaim|l|l|tbl eid|l fields|]; cbn.
  - unfold new_service. case_decide as Ht; [|by intros [= <- <-]].
    destruct (_try_acquire _ _ _ _ _) as [d [l|]] eqn:E; intros [= <- <-]; cbn.
    + apply try_acquire_granted in E as (r & Hr & _ & -> & Hd). cbn in *.
      unfold fence_of. destruct (decide (tbl = t /\ eid = i)) as [[-> ->]|Hne].
      * rewrite Hd, Hr, decide_True by done. cbn. eauto.
      * rewrite Hd, decide_False by naive_solver. done.
    + by apply try_acquire_refused in E as [-> _].
  - unfold new_service, refresh. case_decide; [|by intros [= <- <-]]. cbn.
    match goal with |- context [db_update ?a ?b ?c ?d] =>
      pose proof (fence_of_update_other a b c d t i (fun _ => eq_refl)) as Hf;
      destruct (db_update a b c d) as [d' n] end.
    intros [= <- <-]. by destruct (n =? 1)%nat.
  - unfold new_service, release. case_decide; intros [= <- <-]; [|done].
    by apply fence_of_update_other.
  - unfold new_service, force_release. case_decide; [|by intros [= <- <-]]. cbn.
    match goal with |- context [db_update ?a ?b ?c ?d] =>
      pose proof (fence_of_update_other a b c d t i (fun _ => eq_refl)) as Hf;
      destruct (db_update a b c d) as [d' n] end.
    intros [= <- <-]. by destruct (n =? 1)%nat.
  - case_match eqn:E; intros [= <- <-]; [|done]. by eapply fence_of_write.
  - intros [= <- <-]. apply fence_of_sweep.
Qed.

Lemma run_fence acts : forall db db' ans t i f,
  run acts db = (db', ans) ->
  fence_of t i db = Some f ->
  fence_token <$> grants t i ans = seqZ (f + 1) (Z.of_nat (length (grants t i ans))) /\
  fence_of t i db' = Some (f + Z.of_nat (length (grants t i ans))).
Proof.
  induction acts as [|[now a] acts IH]; intros db db' ans t i f; cbn.
  { intros [= <- <-] ->. cbn. by rewrite Z.add_0_r. }
  destruct (do_action now a db) as [d an] eqn:Ha.
  destruct (run acts d) as [d' rest] eqn:Hr. intros [= <- <-] Hf.
  pose proof (do_action_fence _ _ _ _ _ t i Ha) as Hd.
  unfold grants in *. cbn [omap list_omap].
  destruct (lock_on t i an) as [l|].
  - destruct Hd as (f' & Hf' & Hl & Hd). simplify_eq.
    destruct (IH _ _ _ t i _ Hr Hd) as [H1 H2]. cbn [length fmap list_fmap].
    rewrite H1, H2, Hl. rewrite Nat2Z.inj_succ, (seqZ_cons (f + 1)) by lia.
    split; [by rewrite Z.pred_succ, Z.add_1_r|f_equal; lia].
  - rewrite Hf in Hd. by apply IH with (1 := Hr).
Qed.

(** A run leaves the set of rows alone: no operation inserts or deletes. *)
Lemma run_row_exists acts db db' ans t i :
  run acts db = (db', ans) -> is_Some (fence_of t i db) -> is_Some (fence_of t i db').
Proof. intros Hr [f Hf]. destruct (run_fence _ _ _ _ _ _ _ Hr Hf) as [_ ->]. eauto. Qed.

(** A fence-guarded write on an existing row. *)
Lemma write_spec eid l tbl fields allowed db r :
  _ALLOWED_FIELDS_BY_TABLE !! tbl = Some allowed ->
  fields <> [] -> fields.*1 ⊆ allowed ->
  get_table tbl db !! eid = Some r ->
  if decide (r.(lock_fence_token) = l.(fence_token))
  then exists db', set_locked_entity_fields eid l tbl fields db = Ok db' /\
    forall t i, get_table t db' !! i =
      if decide (t = tbl /\ i = eid) then Some (set_columns fields r)
      else get_table t db !! i
  else set_locked_entity_fields eid l tbl fields db = Err EntityLockLostError.
Proof.
  intros Hall Hne Hsub Hr. unfold set_locked_entity_fields.
  destruct fields as [|kv fields]; [done|].
  rewrite Hall, filter_none by (apply Forall_forall; set_solver).
  pose proof (sql_fence_where_true eid (fence_token l)) as Hp.
  pose proof (keyed_update_count tbl _ (set_columns (kv :: fields)) eid _ Hp db) as Hn.
  pose proof (keyed_update_lookup tbl _ (set_columns (kv :: fields)) eid _ Hp db) as Hlk.
  rewrite Hr in Hn. destruct (db_update _ _ _ _) as [db3 n]. cbn [fst snd] in *. subst n.
  case_decide as Hf; [|done]. exists db3. split; [done|].
  intros t i. rewrite Hlk, Hr. cbn.
  by rewrite (decide_True (P := lock_fence_token r = fence_token l)) by done.
Qed.

(** ** What the sweep does to each row *)

Lemma sweep_tables_lookup c tbls acc t i :
  NoDup tbls ->
  get_table t (foldl (sweep_table c) acc tbls).1 !! i =
  (fun r => if decide (t ∈ tbls)
            then if sql_true (sql_sweep_where c i r) then sql_release_set r else r
            else r) <$> get_table t acc.1 !! i.
Proof.
  intros Hnd. revert acc. induction Hnd as [|tbl tbls Hni Hnd IH]; intros acc; cbn [foldl].
  { destruct (get_table t acc.1 !! i) as [r|]; [|done]. cbn. by rewrite decide_False by set_solver. }
  rewrite IH, sweep_table_fst, db_update_lookup.
  destruct (get_table t acc.1 !! i) as [r|]; [|done]. cbn [fmap option_fmap option_map]. f_equal.
  destruct (decide (tbl = t)) as [->|Hne].
  - rewrite decide_False, decide_True by set_solver. done.
  - destruct (decide (t ∈ tbls)).
    + by rewrite decide_True by set_solver.
    + by rewrite decide_False by set_solver.
Qed.

Lemma allowed_tables_NoDup : NoDup _ALLOWED_LOCK_TABLES.
Proof. unfold _ALLOWED_LOCK_TABLES. repeat constructor; set_solver. Qed.

Lemma sweep_lookup now db t i :
  get_table t (sweep_stale_entity_locks now db).1 !! i =
  (fun r => if decide (t ∈ _ALLOWED_LOCK_TABLES)
            then if sql_true (sql_sweep_where (now - seconds RECLAIM_AFTER_SECONDS) i r)
                 then sql_release_set r else r
            else r) <$> get_table t db !! i.
Proof. apply (sweep_tables_lookup _ _ (db, ∅)), allowed_tables_NoDup. Qed.

(** ** Well-formed lock columns *)

Lemma db_ok_update tbl p f db :
  (forall r, row_ok r -> row_ok (f r)) -> db_ok db -> db_ok (db_update tbl p f db).1.
Proof.
  intros Hf Hok t i r'. rewrite db_update_lookup.
  destruct (get_table t db !! i) as [r|] eqn:Hr; [|done]. cbn. intros [= <-].
  specialize (Hok _ _ _ Hr). case_decide; [|done]. case_match; eauto.
Qed.

Lemma row_ok_released r : row_ok (sql_release_set r).
Proof. split; by intros [? ?]. Qed.

#[export] Hint Resolve row_ok_released : forge.

(** A heartbeat is only written on a held row, so the refresh needs its guard. *)
Lemma db_ok_refresh svc now l db : db_ok db -> db_ok (refresh svc now l db).1.
Proof.
  intros Hok t i r'. unfold refresh.
  pose proof (keyed_update_lookup (svc_table svc) _ (sql_refresh_set now) _ _
    (sql_holder_where_true (entity_id l) (task_id l) (fence_token l)) db t i) as Hl.
  destruct (db_update _ _ _ _) as [d n]. cbn [fst] in *. rewrite Hl.
  destruct (decide (t = svc_table svc /\ i = entity_id l)) as [[-> ->]|]; [|apply Hok].
  destruct (get_table _ db !! _) as [r|] eqn:Hr; [|done]. cbn. intros [= <-].
  specialize (Hok _ _ _ Hr). case_decide as HQ; [|done].
  destruct HQ as [Hh _]. split; intros _; cbn; [|rewrite Hh]; eauto.
Qed.

Lemma db_ok_action now a db : db_ok db -> db_ok (do_action now a db).1.
Proof.
  intros Hok. destruct a as [tbl eid tid reclaim|l|l|tbl eid|l fields|]; cbn.
  - unfold new_service. case_decide; [|done].
    destruct (_try_acquire _ _ _ _ _) as [d [l|]] eqn:E; cbn.
    + apply try_acquire_granted in E as (r & Hr & _ & -> & Hd).
      intros t i r'. rewrite Hd. case_decide; [|apply Hok]. intros [= <-]. by split; eauto.
    + by apply try_acquire_refused in E as [-> _].
  - unfold new_service. case_decide; [|done].
    pose proof (db_ok_refresh
      (MkService (lock_table l) RECLAIM_AFTER_SECONDS HEARTBEAT_INTERVAL_SECONDS) now l db Hok) as H'.
    by destruct (refresh _ _ _ _).
  - unfold new_service, release. case_decide; [|done]. apply db_ok_update; auto with forge.
  - unfold new_service, force_release. case_decide; [|done]. cbn.
    pose proof (db_ok_update tbl (sql_force_release_where eid) sql_release_set db) as H'.
    destruct (db_update _ _ _ _). apply H'; auto with forge.
  - unfold set_locked_entity_fields.
    destruct fields as [|kv fields]; [done|]. case_match eqn:E; [|done]. repeat case_match; try done.
    simplify_eq. match goal with H : db_update ?a ?b ?c ?d = (?x, _) |- db_ok ?x =>
      pose proof (db_ok_update a b c d) as H'; rewrite H in H' end.
    apply H'; [|done]. by intros [].
  - intros t i r'. rewrite sweep_lookup.
    destruct (get_table t db !! i) as [r|] eqn:Hr; [|done]. cbn. intros [= <-].
    specialize (Hok _ _ _ Hr). repeat case_match; auto with forge.
Qed.

Lemma db_ok_run acts db : db_ok db -> db_ok (run acts db).1.
Proof.
  revert db. induction acts as [|[now a] acts IH]; intros db Hok; [done|]. cbn.
  pose proof (db_ok_action now a db Hok) as H. destruct (do_action now a db) as [d an].
  specialize (IH d H). by destruct (run acts d).
Qed.

(** ** Main theorems *)

(** C1. Fencing.  Suppose a worker was granted lock [l], and any operations of
    any workers were committed afterwards.  Its under-lock write of allowed
    columns is then rejected with [EntityLockLostError], the database untouched,
    exactly when some later acquire was granted on the same row; otherwise the
    write sets the given columns of that row, keeps its lock columns and leaves
    every other row alone. *)
Theorem fenced_write_iff now0 tbl eid tid reclaim db0 db1 l acts db2 ans now fields allowed :
  do_action now0 (ATryAcquire tbl eid tid reclaim) db0 = (db1, Granted l) ->
  run acts db1 = (db2, ans) ->
  _ALLOWED_FIELDS_BY_TABLE !! tbl = Some allowed ->
  fields <> [] -> fields.*1 ⊆ allowed ->
  match grants tbl eid ans with
  | [] => exists r db3,
      do_action now (AWrite l fields) db2 = (db3, Done) /\
      get_table tbl db2 !! eid = Some r /\
      (forall t i, get_table t db3 !! i =
         if decide (t = tbl /\ i = eid) then Some (set_columns fields r)
         else get_table t db2 !! i)
  | _ :: _ => do_action now (AWrite l fields) db2 = (db2, Raised EntityLockLostError)
  end.
Proof.
  intros Ha Hrun Hall Hne Hsub.
  pose proof (do_action_fence _ _ _ _ _ tbl eid Ha) as Hf. cbn in Ha, Hf.
  unfold new_service in Ha. destruct (decide (tbl ∈ _ALLOWED_LOCK_TABLES)); [|done].
  destruct (_try_acquire _ _ _ _ _) as [d [l'|]] eqn:E; simplify_eq.
  apply try_acquire_granted in E as (r0 & _ & _ & -> & _). cbn in *.
  rewrite decide_True in Hf by done. destruct Hf as (f & _ & Hl & Hf1). cbn in Hl.
  destruct (run_fence _ _ _ _ _ _ _ Hrun Hf1) as [_ Hf2].
  unfold fence_of in Hf2. destruct (get_table tbl db2 !! eid) as [r|] eqn:Hr; [|done].
  cbn in Hf2. injection Hf2 as Hf2.
  pose proof (write_spec eid (MkLock eid tid (lock_fence_token r0 + 1) tbl) tbl fields
    allowed db2 r Hall Hne Hsub Hr) as Hw.
  cbn [fence_token entity_id lock_table] in *.
  destruct (grants tbl eid ans) as [|g gs]; cbn [length] in Hf2.
  - rewrite decide_True in Hw by lia. destruct Hw as (db3 & -> & Hlk). eauto.
  - rewrite decide_False in Hw by lia. by rewrite Hw.
Qed.

(** Fence tokens.  Over any run, the locks granted on a row carry the
    consecutive fences that follow the row's initial one, in the order the
    grants were committed: no two grants ever share a fence. *)
Theorem fences_consecutive acts db db' ans tbl eid f :
  run acts db = (db', ans) ->
  fence_of tbl eid db = Some f ->
  fence_token <$> grants tbl eid ans = seqZ (f + 1) (Z.of_nat (length (grants tbl eid ans))) /\
  NoDup (fence_token <$> grants tbl eid ans) /\
  fence_of tbl eid db' = Some (f + Z.of_nat (length (grants tbl eid ans))).
Proof.
  intros Hrun Hf. destruct (run_fence _ _ _ _ _ _ _ Hrun Hf) as [H1 H2].
  rewrite H1. auto using NoDup_seqZ.
Qed.

(** In a well-formed row, being acquirable is being not held. *)
Lemma acquirable_is_held svc now eid db r :
  db_ok db -> get_table svc.(svc_table) db !! eid = Some r ->
  acquirable svc now r <-> is_held svc now eid db = false.
Proof.
  intros Hok Hr. specialize (Hok _ _ _ Hr). unfold is_held, acquirable, row_ok in *.
  rewrite Hr. destruct r.(holding_task_id), r.(heartbeat_at); cbn in *;
    rewrite ?Z.leb_gt; naive_solver.
Qed.

(** C9. Mutual exclusion.  After any run from a database whose rows have a holder
    exactly when they have a heartbeat, an acquire on an existing row, by a service
    whose reclaim window is not negative, is granted exactly when [is_held]
    says nobody holds it; a granted acquire makes [is_held] true at once and a
    refused one changes no row. *)
Theorem acquire_iff_not_held acts db db' ans svc now eid tid :
  db_ok db -> run acts db = (db', ans) ->
  is_Some (get_table svc.(svc_table) db' !! eid) ->
  0 <= svc.(reclaim_after_seconds) ->
  if is_held svc now eid db'
  then (_try_acquire svc now eid tid db').2 = None /\
       db_eqv (_try_acquire svc now eid tid db').1 db'
  else exists l, (_try_acquire svc now eid tid db').2 = Some l /\
       is_held svc now eid (_try_acquire svc now eid tid db').1 = true.
Proof.
  intros Hok Hrun [r Hr] Hpos.
  pose proof (db_ok_run acts db Hok) as Hok'. rewrite Hrun in Hok'. cbn in Hok'.
  pose proof (acquirable_is_held svc now eid db' r Hok' Hr) as Hiff.
  destruct (_try_acquire svc now eid tid db') as [d [l|]] eqn:E; cbn.
  - apply try_acquire_granted in E as (r' & Hr' & Ha & -> & Hd). simplify_eq.
    rewrite (proj1 Hiff Ha). eexists; split; [done|].
    unfold is_held. rewrite Hd, decide_True by done. cbn. apply Z.leb_le.
    unfold seconds. lia.
  - apply try_acquire_refused in E as [He Hn].
    destruct (is_held svc now eid db') eqn:Hh; [done|].
    exfalso. by apply (Hn r Hr), Hiff.
Qed.

(** ** Termination of the polling loop *)

Section polling.
Context (svc : EntityLockService) (eid tid : Z) (world : nat -> poll).
(** [time.sleep] sleeps at least as long as asked. *)
Context (Hsleep : forall j,
  (world j).(mono_clock) + ACQUIRE_POLL_INTERVAL <= (world (S j)).(mono_clock)).

Lemma acquire_loop_enough d k fuel i db :
  d <= (world i).(mono_clock) + Z.of_nat k * ACQUIRE_POLL_INTERVAL ->
  (k < fuel)%nat ->
  is_Some (acquire_loop svc eid tid (Some d) world fuel i db).
Proof using Hsleep.
  revert k i db. induction fuel as [|fuel IH]; intros k i db Hd Hk; [lia|].
  cbn. destruct (_try_acquire _ _ _ _ _) as [db' [l|]]; [by eauto|].
  destruct (Z.leb_spec d (mono_clock (world i))) as [|Hlt]; [by eauto|].
  pose proof (Hsleep i). unfold ACQUIRE_POLL_INTERVAL in *.
  destruct k as [|k]; [lia|]. apply (IH k); lia.
Qed.
End polling.

(** Termination of [acquire].  If [time.sleep] sleeps at least as long as
    asked (the monotonic clock of each iteration is at least the poll interval
    after the previous one's), the polling loop returns, lock or [None], within
    [wait_timeout] divided by the interval plus two attempts, whatever other
    sessions do meanwhile. *)
Theorem acquire_terminates svc eid tid wait start world db :
  (forall j, (world j).(mono_clock) + ACQUIRE_POLL_INTERVAL <= (world (S j)).(mono_clock)) ->
  start <= (world 0%nat).(mono_clock) ->
  is_Some (acquire svc eid tid wait start world
             (S (S (Z.to_nat (wait / ACQUIRE_POLL_INTERVAL)))) db).
Proof.
  intros Hsleep Hstart. unfold acquire. destruct (Z.ltb_spec 0 wait) as [Hw|Hw].
  - apply (acquire_loop_enough _ _ _ _ Hsleep _ (S (Z.to_nat (wait / ACQUIRE_POLL_INTERVAL)))); [|lia].
    unfold ACQUIRE_POLL_INTERVAL. rewrite Nat2Z.inj_succ.
    pose proof (Z.mul_succ_div_gt wait 1000000 ltac:(lia)).
    pose proof (Z.div_pos wait 1000000). lia.
  - cbn. destruct (_try_acquire _ _ _ _ _) as [db' [l|]]; by eauto.
Qed.

(** ** Heartbeats keep a lock *)

(** The row of [l] is held by [l] with heartbeat [hb]. *)
Definition holds (l : EntityLock) (hb : Z) (db : database) : Prop :=
  exists r, get_table l.(lock_table) db !! l.(entity_id) = Some r /\
    r.(holding_task_id) = Some l.(task_id) /\
    r.(lock_fence_token) = l.(fence_token) /\ r.(heartbeat_at) = Some hb.

Definition is_refresh_of (l : EntityLock) (a : action) : bool :=
  match a with ARefresh l' => bool_decide (l' = l) | _ => false end.

(** The runs in which [l]'s owner keeps beating: nobody force-releases the row,
    the owner does not release, every acquire uses a reclaim window of at least
    [RECLAIM_AFTER_SECONDS], and no operation happens more than that long after
    the owner's latest heartbeat. *)
Fixpoint beating (l : EntityLock) (hb : Z) (acts : list (Z * action)) : Prop :=
  match acts with
  | [] => True
  | (now, a) :: acts' =>
      hb <= now <= hb + seconds RECLAIM_AFTER_SECONDS /\
      match a with
      | ATryAcquire _ _ _ reclaim => RECLAIM_AFTER_SECONDS <= reclaim
      | ARelease l' => l' <> l
      | AForceRelease tbl eid => ~ (tbl = l.(lock_table) /\ eid = l.(entity_id))
      | _ => True
      end /\
      beating l (if is_refresh_of l a then now else hb) acts'
  end.

(** An update of another row, or one whose guard fails on [l]'s row, or one that
    keeps the lock columns, leaves [l] holding. *)
Lemma holds_lookup l hb db db' :
  (forall r, get_table l.(lock_table) db !! l.(entity_id) = Some r ->
     r.(holding_task_id) = Some l.(task_id) -> r.(lock_fence_token) = l.(fence_token) ->
     r.(heartbeat_at) = Some hb ->
     exists r', get_table l.(lock_table) db' !! l.(entity_id) = Some r' /\
       r'.(holding_task_id) = r.(holding_task_id) /\
       r'.(lock_fence_token) = r.(lock_fence_token) /\
       r'.(heartbeat_at) = r.(heartbeat_at)) ->
  holds l hb db -> holds l hb db'.
Proof.
  intros H (r & Hr & H1 & H2 & H3). destruct (H r Hr H1 H2 H3) as (r' & ? & E1 & E2 & E3).
  exists r'. rewrite E1, E2, E3. done.
Qed.

Lemma holds_db_update l hb tbl p f db :
  (forall r, r.(holding_task_id) = Some l.(task_id) ->
     r.(lock_fence_token) = l.(fence_token) -> r.(heartbeat_at) = Some hb ->
     tbl = l.(lock_table) -> sql_true (p l.(entity_id) r) = true ->
     (f r).(holding_task_id) = r.(holding_task_id) /\
     (f r).(lock_fence_token) = r.(lock_fence_token) /\
     (f r).(heartbeat_at) = r.(heartbeat_at)) ->
  holds l hb db -> holds l hb (db_update tbl p f db).1.
Proof.
  intros H. apply holds_lookup. intros r Hr H1 H2 H3.
  rewrite db_update_lookup, Hr. cbn. eexists; split; [done|].
  case_decide; [|done]. destruct (sql_true (p _ r)) eqn:E; [|done]. by apply H.
Qed.

Lemma holds_acquire l hb now tbl eid tid reclaim db :
  holds l hb db -> now <= hb + seconds RECLAIM_AFTER_SECONDS ->
  RECLAIM_AFTER_SECONDS <= reclaim ->
  let '(db', ans) := do_action now (ATryAcquire tbl eid tid reclaim) db in
  holds l hb db' /\ lock_on l.(lock_table) l.(entity_id) ans = None.
Proof.
  intros Hh Hnow Hrec. cbn. unfold new_service. destruct (decide (tbl ∈ _)); [|done].
  destruct (_try_acquire _ _ _ _ _) as [d [l'|]] eqn:E; cbn.
  - apply try_acquire_granted in E as (r & Hr & Hacq & -> & Hd). cbn in *.
    destruct (decide (tbl = lock_table l /\ eid = entity_id l)) as [[-> ->]|Hne].
    + exfalso. destruct Hh as (r' & Hr' & ? & ? & ?). simplify_eq.
      destruct Hacq as [?|(hb' & ? & ?)]; [congruence|]. simplify_eq.
      unfold seconds, RECLAIM_AFTER_SECONDS in *. cbn in *. lia.
    + split; [|done]. revert Hh. apply holds_lookup. intros r' Hr' _ _ _. exists r'.
      rewrite Hd, decide_False by naive_solver. done.
  - apply try_acquire_refused in E as [He _]. split; [|done].
    revert Hh. apply holds_lookup. intros r Hr _ _ _. exists r. by rewrite He.
Qed.

Lemma holds_refresh l hb now l' db :
  holds l hb db -> l.(lock_table) ∈ _ALLOWED_LOCK_TABLES ->
  let '(db', ans) := do_action now (ARefresh l') db in
  holds l (if is_refresh_of l (ARefresh l') then now else hb) db' /\
  (l' = l -> ans = Done) /\ lock_on l.(lock_table) l.(entity_id) ans = None.
Proof.
  intros Hh Hall. cbn. unfold new_service, refresh. case_bool_decide as Hl.
  - subst l'. rewrite decide_True by done. cbn.
    pose proof (sql_holder_where_true (entity_id l) (task_id l) (fence_token l)) as Hp.
    pose proof (keyed_update_count (lock_table l) _ (sql_refresh_set now) _ _ Hp db) as Hn.
    pose proof (keyed_update_lookup (lock_table l) _ (sql_refresh_set now) _ _ Hp db
      (lock_table l) (entity_id l)) as Hlk.
    destruct Hh as (r & Hr & H1 & H2 & H3).
    destruct (db_update _ _ _ _) as [d n]. cbn [fst snd] in *.
    rewrite Hr, decide_True in Hn by done. rewrite decide_True, Hr in Hlk by done.
    cbn in Hlk. rewrite decide_True in Hlk by done. subst n. cbn. split; [|done].
    eexists; split; [exact Hlk|]. done.
  - case_decide; [|done].
    pose proof (holds_db_update l hb (lock_table l')
      (sql_holder_where (entity_id l') (task_id l') (fence_token l')) (sql_refresh_set now) db) as H'.
    cbn. destruct (db_update _ _ _ _) as [d n]. split; [|by case_match].
    apply H'; [|done]. intros r H1 H2 H3 Ht [He [H4 H5]]%sql_holder_where_true.
    destruct Hl. destruct l, l'; cbn in *. congruence.
Qed.

Lemma holds_action l hb now a db :
  holds l hb db -> l.(lock_table) ∈ _ALLOWED_LOCK_TABLES ->
  beating l hb [(now, a)] ->
  let '(db', ans) := do_action now a db in
  holds l (if is_refresh_of l a then now else hb) db' /\
  (a = ARefresh l -> ans = Done) /\ lock_on l.(lock_table) l.(entity_id) ans = None.
Proof.
  intros Hh Hall (Hnow & Ha & _). destruct a as [tbl eid tid reclaim|l'|l'|tbl eid|l' fields|].
  - pose proof (holds_acquire l hb now tbl eid tid reclaim db Hh ltac:(lia) Ha) as H'.
    destruct (do_action _ _ _). cbn. naive_solver.
  - pose proof (holds_refresh l hb now l' db Hh Hall) as H'.
    destruct (do_action _ _ _). naive_solver.
  - cbn. unfold new_service, release. case_decide; [|done]. split; [|done].
    apply holds_db_update; [|done].
    intros r H1 H2 H3 Ht [He [H4 H5]]%sql_holder_where_true.
    destruct Ha. destruct l, l'; cbn in *. congruence.
  - cbn. unfold new_service, force_release. case_decide; [|done]. cbn.
    pose proof (holds_db_update l hb tbl (sql_force_release_where eid) sql_release_set db) as H'.
    destruct (db_update _ _ _ _) as [d n]. split; [|by case_match].
    apply H'; [|done]. intros r H1 H2 H3 Ht [He ?]%sql_force_release_where_true. naive_solver.
  - cbn. unfold set_locked_entity_fields.
    destruct fields as [|kv fields]; [done|].
    destruct (_ALLOWED_FIELDS_BY_TABLE !! _); [|done]. destruct (filter _ _); [|done].
    pose proof (holds_db_update l hb (lock_table l')
      (sql_fence_where (entity_id l') (fence_token l')) (set_columns (kv :: fields)) db) as H'.
    destruct (db_update _ _ _ _) as [d n]. destruct (n =? 0)%nat; split; try done.
    by apply H'.
  - cbn. split; [|done]. revert Hh. apply holds_lookup. intros r Hr H1 H2 H3.
    rewrite sweep_lookup, Hr. cbn. exists r. split; [|done]. f_equal.
    destruct (decide (lock_table l ∈ _)); [|done].
    destruct (sql_true _) eqn:E; [|done].
    apply (sql_sweep_where_true _ 0) in E as [_ (hb' & ? & ?)]. simplify_eq. lia.
Qed.

(** A beating worker keeps its lock.  While the owner of [l] refreshes at
    least every [RECLAIM_AFTER_SECONDS] and nobody force-releases the row, no
    worker is granted a lock on the row, every refresh by the owner succeeds, and
    the row is still held under [l]'s fence at the end. *)
Theorem beating_lock_kept l hb db acts db' ans :
  holds l hb db -> l.(lock_table) ∈ _ALLOWED_LOCK_TABLES ->
  beating l hb acts -> run acts db = (db', ans) ->
  grants l.(lock_table) l.(entity_id) ans = [] /\
  Forall2 (fun a an => a.2 = ARefresh l -> an = Done) acts ans /\
  exists hb', holds l hb' db'.
Proof.
  intros Hh Hall. revert hb db db' ans Hh.
  induction acts as [|[now a] acts IH]; intros hb db db' ans Hh Hb; cbn.
  { intros [= <- <-]. repeat split; eauto. }
  destruct Hb as (Hnow & Ha & Hb).
  pose proof (holds_action l hb now a db Hh Hall (conj Hnow (conj Ha I))) as H.
  destruct (do_action now a db) as [d an]. destruct H as (Hd & Hr & Hg).
  destruct (run acts d) as [d' rest] eqn:Hrun. intros [= <- <-].
  destruct (IH _ _ _ _ Hd Hb Hrun) as (H1 & H2 & H3).
  unfold grants in *. cbn. rewrite Hg. split; [done|]. split; [|done]. by constructor.
Qed.

(** ** Witnesses *)

Definition free_row : row := Row None None 7 None ∅.
Definition one_row_db : database := {[ "project_modules" := {[ 1 := free_row ]} ]}.
Definition lock_a : EntityLock := MkLock 1 10 8 "project_modules".
Definition lock_b : EntityLock := MkLock 1 11 9 "project_modules".

Lemma fenced_write_iff_witness :
  let db1 := (do_action 0 (ATryAcquire "project_modules" 1 10 30) one_row_db).1 in
  let acts := [(seconds 31, ATryAcquire "project_modules" 1 11 30)] in
  do_action (seconds 32) (AWrite lock_a [("status", JStr "applied")]) (run acts db1).1
  = ((run acts db1).1, Raised EntityLockLostError).
Proof.
  intros db1 acts.
  refine (fenced_write_iff 0 "project_modules" 1 10 30 one_row_db db1 lock_a acts
    (run acts db1).1 [Granted lock_b] (seconds 32) [("status", JStr "applied")] _ _ _ _ _ _).
  - vm_compute. reflexivity.
  - vm_compute. reflexivity.
  - vm_compute. reflexivity.
  - discriminate.
  - intros x Hx. apply list_elem_of_singleton in Hx as ->. left.
Defined.

Lemma fences_consecutive_witness :
  let acts := [(0, ATryAcquire "project_modules" 1 10 30);
               (seconds 31, ATryAcquire "project_modules" 1 11 30)] in
  fence_token <$> grants "project_modules" 1 (run acts one_row_db).2 = seqZ (7 + 1) 2.
Proof.
  intros acts.
  refine (proj1 (fences_consecutive acts one_row_db (run acts one_row_db).1
    [Granted lock_a; Granted lock_b] "project_modules" 1 7 _ _)); vm_compute; reflexivity.
Defined.

Lemma one_row_ok : db_ok one_row_db.
Proof.
  intros t i r. unfold one_row_db, get_table. intros H.
  destruct (decide (t = "project_modules")) as [->|Hne].
  - rewrite lookup_total_singleton in H. apply lookup_singleton_Some in H as [_ <-].
    split; by intros [? ?].
  - unfold lookup_total, map_lookup_total in H. rewrite lookup_singleton_ne in H by done. done.
Qed.

(** Worker 10 takes the row and beats once at 5 seconds.  At 31 worker 11 is refused,
    at 36 the beat is older than the window of 30 and it gets the row. *)
Definition beaten : database :=
  (run [(0, ATryAcquire "project_modules" 1 10 30); (seconds 5, ARefresh lock_a)] one_row_db).1.
Lemma acquire_iff_not_held_witness :
  let svc := MkService "project_modules" 30 5 in
  is_held svc (seconds 31) 1 beaten = true /\ (_try_acquire svc (seconds 31) 1 11 beaten).2 = None /\
  is_held svc (seconds 36) 1 beaten = false /\
  exists l, (_try_acquire svc (seconds 36) 1 11 beaten).2 = Some l /\
    is_held svc (seconds 36) 1 (_try_acquire svc (seconds 36) 1 11 beaten).1 = true.
Proof.
  intros svc. set (acts := [(0, ATryAcquire "project_modules" 1 10 30); (seconds 5, ARefresh lock_a)]).
  assert (Hrun : run acts one_row_db = (beaten, (run acts one_row_db).2)) by apply surjective_pairing.
  assert (Hrow : is_Some (get_table (svc_table svc) beaten !! 1)) by (eexists; vm_compute; reflexivity).
  assert (H31 : is_held svc (seconds 31) 1 beaten = true) by (vm_compute; reflexivity).
  assert (H36 : is_held svc (seconds 36) 1 beaten = false) by (vm_compute; reflexivity).
  pose proof (acquire_iff_not_held acts one_row_db beaten _ svc (seconds 31) 1 11 one_row_ok Hrun Hrow ltac:(by vm_compute)) as A.
  pose proof (acquire_iff_not_held acts one_row_db beaten _ svc (seconds 36) 1 11 one_row_ok Hrun Hrow ltac:(by vm_compute)) as B.
  rewrite H31 in A. rewrite H36 in B. split; [exact H31|split; [exact (proj1 A)|split; [exact H36|exact B]]].
Defined.

Lemma acquire_terminates_witness :
  let svc := MkService "project_modules" 30 5 in
  let world := fun i => Poll (Z.of_nat i * 1000000) (Z.of_nat i * 1000000) (fun d => d) in
  is_Some (acquire svc 1 10 (seconds 60) 0 world 62 one_row_db).
Proof.
  intros svc world.
  refine (acquire_terminates svc 1 10 (seconds 60) 0 world one_row_db _ _).
  - intros j. unfold world, ACQUIRE_POLL_INTERVAL. cbn [mono_clock]. lia.
  - cbn. lia.
Defined.

Lemma beating_lock_kept_witness :
  let db1 := (do_action 0 (ATryAcquire "project_modules" 1 10 30) one_row_db).1 in
  let acts := [(seconds 5, ARefresh lock_a);
               (seconds 34, ATryAcquire "project_modules" 1 11 30);
               (seconds 35, ASweep)] in
  grants "project_modules" 1 (run acts db1).2 = [].
Proof.
  intros db1 acts.
  refine (proj1 (beating_lock_kept lock_a 0 db1 acts (run acts db1).1 (run acts db1).2 _ _ _ _)).
  - eexists. split; [vm_compute; reflexivity|]. done.
  - left.
  - vm_compute. naive_solver.
  - by destruct (run acts db1).
Defined.
