(* ===== verification/ModuleState.v ===== *)
(** * Module status state machine ([backend/services/module_state.py],
    [backend/services/module_lock.py], [ModuleStatus] of
    [backend/models/enums.py])

    The legal transition graph, the helper every status writer goes through,
    and the audit log it keeps.  The state is the database of
    [EntityLock] with the [module_state_transitions] table beside it.  An ORM
    object is its primary key and what the session has cached of its status:
    [None] when the attribute is expired, so that reading it loads the row. *)

From S2P Require Import Prelude EntityLock.
Local Open Scope string_scope.
Local Open Scope Z_scope.

(** ** Statuses *)

Inductive ModuleStatus :=
| NOT_INITIALIZED | INITIALIZED | INITIALIZING | INIT_FAILED
| PLANNING | PLANNED | PLAN_FAILED
| APPLYING | APPLIED | APPLY_FAILED
| DESTROYING | DESTROYED | DESTROY_FAILED
| FAILED.

#[global] Instance ModuleStatus_eq_dec : EqDecision ModuleStatus.
Proof. solve_decision. Defined.

Definition all_statuses : list ModuleStatus :=
  [ NOT_INITIALIZED; INITIALIZED; INITIALIZING; INIT_FAILED; PLANNING; PLANNED;
    PLAN_FAILED; APPLYING; APPLIED; APPLY_FAILED; DESTROYING; DESTROYED;
    DESTROY_FAILED; FAILED ].

(** [ModuleStatus.X.value] *)
Definition status_value (s : ModuleStatus) : string :=
  match s with
  | NOT_INITIALIZED => "not_initialized"
  | INITIALIZED => "initialized"
  | INITIALIZING => "initializing"
  | INIT_FAILED => "init_failed"
  | PLANNING => "planning"
  | PLANNED => "planned"
  | PLAN_FAILED => "plan_failed"
  | APPLYING => "applying"
  | APPLIED => "applied"
  | APPLY_FAILED => "apply_failed"
  | DESTROYING => "destroying"
  | DESTROYED => "destroyed"
  | DESTROY_FAILED => "destroy_failed"
  | FAILED => "failed"
  end.

(** [ModuleStatus(s)]; [None] is the [ValueError] of an unknown value. *)
Definition parse_status (s : string) : option ModuleStatus :=
  list_find (fun m => status_value m = s) all_statuses ≫= fun im => Some im.2.

Definition terminal_states : list ModuleStatus :=
  [ APPLIED; DESTROYED; FAILED; APPLY_FAILED; DESTROY_FAILED; INIT_FAILED; PLAN_FAILED ].

(** ** The transition graph *)

Definition _INIT_OUTCOMES := [ INITIALIZING; INITIALIZED; INIT_FAILED ].
Definition _PLAN_OUTCOMES := [ PLANNING; PLANNED; PLAN_FAILED ].
Definition _APPLY_OUTCOMES := [ APPLYING; APPLIED; APPLY_FAILED ].
Definition _DESTROY_OUTCOMES := [ DESTROYING; DESTROYED; DESTROY_FAILED ].
Definition _ADMIN_RESET := [ NOT_INITIALIZED ].
Definition _NO_OP_DESTROY := [ DESTROYED ].

Definition ALLOWED_TRANSITIONS (s : ModuleStatus) : list ModuleStatus :=
  match s with
  | NOT_INITIALIZED => _INIT_OUTCOMES ++ _NO_OP_DESTROY
  | INITIALIZING => [ INITIALIZED; INIT_FAILED; NOT_INITIALIZED ]
  | PLANNING => [ PLANNED; PLAN_FAILED; INIT_FAILED; INITIALIZED ]
  | APPLYING => [ APPLIED; APPLY_FAILED; INIT_FAILED; PLAN_FAILED; PLANNED ]
  | DESTROYING => [ DESTROYED; DESTROY_FAILED; APPLIED ]
  | INITIALIZED =>
      _INIT_OUTCOMES ++ _PLAN_OUTCOMES ++ _APPLY_OUTCOMES ++ _DESTROY_OUTCOMES
        ++ _NO_OP_DESTROY ++ _ADMIN_RESET
  | PLANNED =>
      _PLAN_OUTCOMES ++ _APPLY_OUTCOMES ++ _DESTROY_OUTCOMES ++ _NO_OP_DESTROY
        ++ _ADMIN_RESET
  | APPLIED =>
      _PLAN_OUTCOMES ++ _APPLY_OUTCOMES ++ _DESTROY_OUTCOMES ++ _ADMIN_RESET
  | DESTROYED => _INIT_OUTCOMES ++ _ADMIN_RESET
  | INIT_FAILED =>
      _INIT_OUTCOMES ++ _PLAN_OUTCOMES ++ _APPLY_OUTCOMES ++ _NO_OP_DESTROY
        ++ _ADMIN_RESET
  | PLAN_FAILED =>
      _INIT_OUTCOMES ++ _PLAN_OUTCOMES ++ _APPLY_OUTCOMES ++ _NO_OP_DESTROY
        ++ _ADMIN_RESET
  | APPLY_FAILED =>
      _INIT_OUTCOMES ++ _PLAN_OUTCOMES ++ _APPLY_OUTCOMES ++ _DESTROY_OUTCOMES
        ++ _ADMIN_RESET
  | DESTROY_FAILED => _DESTROY_OUTCOMES ++ _ADMIN_RESET
  | FAILED => _INIT_OUTCOMES ++ _ADMIN_RESET
  end.

(** A status read from the column: [None] is SQL NULL. *)
Definition is_legal_transition (from_status : option string) (to_status : string) : bool :=
  if decide (from_status = Some to_status) then true
  else
    match from_status ≫= parse_status, parse_status to_status with
    | Some from_enum, Some to_enum => bool_decide (to_enum ∈ ALLOWED_TRANSITIONS from_enum)
    | _, _ => false
    end.

(** ** The transition helper *)

(** A row of [module_state_transitions]. *)
Record transition_row := TransitionRow {
  tr_module_id : Z;
  tr_from : option string;
  tr_to : string;
  tr_task_id : option Z;
  tr_fence : option Z;
  tr_reason : string
}.

Record mstate := MState {
  mdb : database;
  audit : list transition_row   (* newest first *)
}.

(** An ORM object of class [ProjectModule]. *)
Record ProjectModule := MkModule {
  pm_id : Z;
  pm_cached_status : option (option string)
}.

Inductive state_exc :=
| IllegalTransitionError (module_id : Z) (from_status : option string) (to_status : string)
| LockExc (e : lock_exc)
| ObjectDeletedError.

Definition modules_table : string := "project_modules".

(** The [status] column of a row. *)
Definition row_status (r : row) : option string :=
  match r.(columns) !! "status" with Some (JStr s) => Some s | _ => None end.

(** Reading [module.status]: the cached value, or a SELECT. *)
Definition read_status (m : ProjectModule) (db : database) : result state_exc (option string) :=
  match m.(pm_cached_status) with
  | Some s => Ok s
  | None =>
      match get_table modules_table db !! m.(pm_id) with
      | Some r => Ok (row_status r)
      | None => Err ObjectDeletedError
      end
  end.

(** [(reason or "")[:500]] *)
Definition clamp_reason (reason : string) : string := String.substring 0 500 reason.

Definition _log_transition (m : ProjectModule) (from_status : option string)
    (to_status : string) (lock : option EntityLock) (task : option Z)
    (reason : string) (st : mstate) : mstate :=
  MState st.(mdb)
    (TransitionRow m.(pm_id) from_status to_status task (fence_token <$> lock)
       (clamp_reason reason) :: st.(audit)).

(** [UPDATE project_modules SET status = :s WHERE id = :id], what the unit of
    work emits for [module.status = s; db.commit()]; an assignment of the value
    already loaded is no net change and emits nothing. *)
Definition orm_set_status (mid : Z) (from_status : option string) (s : string)
    (db : database) : database :=
  if decide (from_status = Some s) then db
  else (db_update modules_table (fun i _ => sql_eq (Some i) mid)
          (set_columns [("status", JStr s)]) db).1.

(** [set_locked_module_fields] called with the [_from_state_machine] marker:
    the marker is popped and the fields go to the fence-guarded UPDATE. *)
Definition set_locked_fields_direct (m : ProjectModule) (l : EntityLock)
    (fields : list (string * json)) (db : database) : result lock_exc database :=
  set_locked_entity_fields m.(pm_id) l modules_table fields db.

(** [transition_module_status].  [extra_fields] is a dict: a list without
    duplicate keys, [[]] for [None] and the empty dict, which the code does not
    tell apart. *)
Definition transition_module_status (m : ProjectModule) (to_status : string)
    (lock : option EntityLock) (task : option Z) (reason : string)
    (extra_fields : list (string * json)) (st : mstate) : result state_exc mstate :=
  from_status ← read_status m st.(mdb);
  if negb (is_legal_transition from_status to_status)
  then Err (IllegalTransitionError m.(pm_id) from_status to_status)
  else if bool_decide (from_status = Some to_status) && bool_decide (extra_fields.*1 = [])
  then Ok (_log_transition m from_status to_status lock task reason st)
  else
    match lock with
    | Some l =>
        (* {"status": to_status, ..., **extra}: a later key overrides *)
        match set_locked_fields_direct m l
                (extra_fields ++ [("status", JStr to_status)]) st.(mdb) with
        | Err e => Err (LockExc e)
        | Ok db' =>
            Ok (_log_transition m from_status to_status lock task reason
                  (MState db' st.(audit)))
        end
    | None =>
        Ok (_log_transition m from_status to_status lock task reason
              (MState (orm_set_status m.(pm_id) from_status to_status st.(mdb)) st.(audit)))
    end.

(** ** [module_lock.set_locked_module_fields] *)

Definition dict_get (k : string) (d : list (string * json)) : option json :=
  (list_to_map d : gmap string json) !! k.
Definition dict_pop (k : string) (d : list (string * json)) : list (string * json) :=
  filter (fun kv => kv.1 <> k) d.

(** A string-valued keyword argument or Text column: [v or ""]. *)
Definition text_or_empty (v : option json) : string :=
  match v with Some (JStr s) => s | _ => "" end.

(** [fields.pop("reason", None) or fields.get("deployment_error") or ""] *)
Definition derive_reason (fields : list (string * json)) : string :=
  match text_or_empty (dict_get "reason" fields) with
  | "" => text_or_empty (dict_get "deployment_error" fields)
  | r => r
  end.

(** The public entry, without the internal marker. The status value is the
    string of the [status] keyword. *)
Definition set_locked_module_fields (m : ProjectModule) (l : EntityLock)
    (fields : list (string * json)) (st : mstate) : result state_exc mstate :=
  match fields with
  | [] => Ok st
  | _ =>
      match dict_get "status" fields with
      | Some new_status =>
          let fields' := dict_pop "status" fields in
          let reason := String.substring 0 500 (derive_reason fields') in
          transition_module_status m (text_or_empty (Some new_status)) (Some l)
            (Some l.(task_id)) reason (dict_pop "reason" fields') st
      | None =>
          match set_locked_entity_fields m.(pm_id) l modules_table fields st.(mdb) with
          | Ok db' => Ok (MState db' st.(audit))
          | Err e => Err (LockExc e)
          end
      end
  end.

(** [ModuleLockService]: the service with the table fixed. *)
Definition ModuleLockService (reclaim hb : Z) : result lock_exc EntityLockService :=
  new_service modules_table reclaim hb.

(** [get_holder]/[list_held] of the wrapper add the key [module_id]. *)
Definition module_holder (h : holder) : Z * holder := (h.(h_entity_id), h).
Definition get_holder (svc : EntityLockService) (eid : Z) (db : database) : option (Z * holder) :=
  module_holder <$> EntityLock.get_holder svc eid db.
Definition list_held (svc : EntityLockService) (db : database) : list (Z * holder) :=
  module_holder <$> EntityLock.list_held svc db.

(** ** Runs of status writes *)

(** A call of one of the two public writers. *)
Inductive call :=
| CTransition (m : ProjectModule) (to_status : string) (lock : option EntityLock)
    (task : option Z) (reason : string) (extra : list (string * json))
| CLocked (m : ProjectModule) (l : EntityLock) (fields : list (string * json)).

Definition call_module (c : call) : ProjectModule :=
  match c with CTransition m _ _ _ _ _ => m | CLocked m _ _ => m end.

Definition call_result (c : call) (st : mstate) : result state_exc mstate :=
  match c with
  | CTransition m s lk t rs ex => transition_module_status m s lk t rs ex st
  | CLocked m l fields => set_locked_module_fields m l fields st
  end.

(** A call that raises has committed nothing. *)
Definition do_call (st : mstate) (c : call) : mstate :=
  match call_result c st with Ok st' => st' | Err _ => st end.

Definition run_calls (calls : list call) (st : mstate) : mstate := foldl do_call st calls.

(** The status column of module [mid]. *)
Definition db_status (mid : Z) (db : database) : option (option string) :=
  row_status <$> get_table modules_table db !! mid.

(** What the caller's ORM object says is what the row says, and a status is
    only written through the [to_status] argument. *)
Definition call_ok (c : call) (st : mstate) : Prop :=
  (forall s, (call_module c).(pm_cached_status) = Some s ->
     db_status (call_module c).(pm_id) st.(mdb) = Some s) /\
  match c with
  | CTransition _ _ _ _ _ extra => "status" ∉ extra.*1
  | CLocked _ _ _ => True
  end.

Fixpoint calls_ok (calls : list call) (st : mstate) : Prop :=
  match calls with
  | [] => True
  | c :: calls' => call_ok c st /\ calls_ok calls' (do_call st c)
  end.

(** [rows], newest first, lead from [s0] to [s] by legal transitions. *)
Fixpoint trail (s0 : option string) (rows : list transition_row) (s : option string) : Prop :=
  match rows with
  | [] => s0 = s
  | r :: rows' =>
      s = Some r.(tr_to) /\ is_legal_transition r.(tr_from) r.(tr_to) = true /\
      trail s0 rows' r.(tr_from)
  end.

Definition audit_of (mid : Z) (st : mstate) : list transition_row :=
  filter (fun r => r.(tr_module_id) = mid) st.(audit).

#[global] Arguments parse_status : simpl never.
#[global] Arguments row_status : simpl never.
#[global] Arguments set_columns : simpl never.
#[global] Arguments is_legal_transition : simpl never.
#[global] Arguments transition_module_status : simpl never.

(** ** Lemmas *)

Lemma parse_status_value s : parse_status (status_value s) = Some s.
Proof. by destruct s. Qed.

Lemma parse_status_Some s m : parse_status s = Some m -> s = status_value m.
Proof.
  unfold parse_status. destruct (list_find _ _) as [[i x]|] eqn:E; [|done].
  cbn. intros [= ->]. by apply list_find_Some in E as (_ & -> & _).
Qed.

Lemma is_legal_transition_cases f t :
  is_legal_transition f t = true ->
  f = Some t \/ exists a b, f = Some (status_value a) /\ t = status_value b /\
                            b ∈ ALLOWED_TRANSITIONS a.
Proof.
  unfold is_legal_transition. case_decide; [by left|].
  destruct f as [f|]; cbn; [|done].
  destruct (parse_status f) as [a|] eqn:Ea; [|done].
  destruct (parse_status t) as [b|] eqn:Eb; [|done].
  intros Hin%bool_decide_eq_true_1. right.
  apply parse_status_Some in Ea as ->. apply parse_status_Some in Eb as ->. eauto.
Qed.

(** A status write on the values of the enumeration is a self-loop or an edge. *)
Lemma is_legal_transition_values a b :
  is_legal_transition (Some (status_value a)) (status_value b) =
  bool_decide (a = b \/ b ∈ ALLOWED_TRANSITIONS a).
Proof. by destruct a, b; vm_compute. Qed.

Lemma row_status_set_columns fields r :
  row_status (set_columns fields r) =
  match dict_get "status" fields with
  | Some (JStr s) => Some s
  | Some _ => None
  | None => row_status r
  end.
Proof.
  unfold row_status, set_columns, dict_get. cbn.
  destruct ((list_to_map fields : gmap string json) !! "status") as [v|] eqn:E.
  - rewrite (lookup_union_Some_l _ _ _ _ E). by destruct v.
  - by rewrite lookup_union_r.
Qed.

Lemma dict_get_None k (d : list (string * json)) : k ∉ d.*1 -> dict_get k d = None.
Proof. intros H. unfold dict_get. by apply not_elem_of_list_to_map. Qed.

Lemma dict_get_app_last (d : list (string * json)) k v :
  k ∉ d.*1 -> dict_get k (d ++ [(k, v)]) = Some v.
Proof.
  intros H. unfold dict_get. rewrite list_to_map_app.
  rewrite lookup_union_r by (by apply not_elem_of_list_to_map).
  cbn. by rewrite lookup_insert_eq.
Qed.

Lemma dict_pop_not_in k (d : list (string * json)) : k ∉ (dict_pop k d).*1.
Proof.
  unfold dict_pop. intros ([k' v] & -> & Hin)%list_elem_of_fmap.
  apply list_elem_of_filter in Hin as [Hne _]. done.
Qed.

Lemma dict_pop_subset k (d : list (string * json)) : (dict_pop k d).*1 ⊆ d.*1.
Proof.
  intros x ([k' v] & -> & Hin)%list_elem_of_fmap.
  apply list_elem_of_filter in Hin as [_ Hin]. apply list_elem_of_fmap. by exists (k', v).
Qed.

(** An accepted fence-guarded write, read off its result. *)
Lemma write_ok eid l tbl fields db db' :
  set_locked_entity_fields eid l tbl fields db = Ok db' -> fields <> [] ->
  exists r, get_table tbl db !! eid = Some r /\
    r.(lock_fence_token) = l.(fence_token) /\
    forall t i, get_table t db' !! i =
      if decide (t = tbl /\ i = eid) then Some (set_columns fields r)
      else get_table t db !! i.
Proof.
  intros H Hne. unfold set_locked_entity_fields in H.
  destruct fields as [|kv fields]; [done|].
  destruct (_ALLOWED_FIELDS_BY_TABLE !! tbl); [|done]. destruct (filter _ _); [|done].
  pose proof (sql_fence_where_true eid (fence_token l)) as Hp.
  pose proof (keyed_update_count tbl _ (set_columns (kv :: fields)) eid _ Hp db) as Hn.
  pose proof (keyed_update_lookup tbl _ (set_columns (kv :: fields)) eid _ Hp db) as Hlk.
  destruct (db_update _ _ _ _) as [d n]. cbn [fst snd] in *.
  destruct (get_table tbl db !! eid) as [r|] eqn:Hr; [|by subst].
  case_decide as Hf; subst n; simplify_eq/=. exists r. do 2 (split; [done|]).
  intros t i. rewrite Hlk. by destruct (decide (lock_fence_token r = fence_token l)).
Qed.

(** What an UPDATE of the status column alone does. *)
Lemma orm_set_status_lookup mid from s db t i :
  get_table t (orm_set_status mid from s db) !! i =
  if decide (from <> Some s /\ t = modules_table /\ i = mid)
  then set_columns [("status", JStr s)] <$> get_table t db !! i
  else get_table t db !! i.
Proof.
  unfold orm_set_status. case_decide as Hs.
  { by rewrite decide_False by naive_solver. }
  rewrite db_update_lookup. destruct (get_table t db !! i) as [r|]; cbn.
  - destruct (Z.eqb_spec i mid) as [->|Hne], (decide (modules_table = t)) as [<-|Ht];
      [by rewrite decide_True|rewrite decide_False by naive_solver..]; done.
  - by case_decide.
Qed.

(** A successful transition: the edge is legal, one audit row is added, no
    other row of the database changes, and the module's status is the new one
    whenever the value read was the row's. *)
Lemma transition_ok m s lk t rs ex st st' :
  transition_module_status m s lk t rs ex st = Ok st' ->
  "status" ∉ ex.*1 ->
  exists from,
    read_status m st.(mdb) = Ok from /\
    is_legal_transition from s = true /\
    st'.(audit) = TransitionRow m.(pm_id) from s t (fence_token <$> lk) (clamp_reason rs)
                    :: st.(audit) /\
    (forall mid, mid <> m.(pm_id) -> db_status mid st'.(mdb) = db_status mid st.(mdb)) /\
    (db_status m.(pm_id) st.(mdb) = Some from ->
     db_status m.(pm_id) st'.(mdb) = Some (Some s)).
Proof.
  intros H Hex. unfold transition_module_status in H.
  destruct (read_status m (mdb st)) as [from|e] eqn:Hread; [|done]. cbn in H.
  destruct (is_legal_transition from s) eqn:Hlegal; cbn in H; [|done].
  exists from. do 2 (split; [done|]).
  case_match eqn:Hself.
  { simplify_eq. bool_hyps. cbn. do 2 (split; [done|]). by intros Hf; subst. }
  destruct lk as [l|].
  - destruct (set_locked_fields_direct _ _ _ _) as [db'|e] eqn:Hw; simplify_eq/=.
    apply write_ok in Hw as (r & Hr & _ & Hlk); [|by destruct ex].
    split; [done|]. unfold db_status. split.
    + intros mid Hne. rewrite Hlk, decide_False by naive_solver. done.
    + intros _. rewrite Hlk, decide_True by done. cbn.
      by rewrite row_status_set_columns, dict_get_app_last.
  - simplify_eq/=. split; [done|]. unfold db_status. split.
    + intros mid Hne. rewrite orm_set_status_lookup, decide_False by naive_solver. done.
    + rewrite orm_set_status_lookup.
      destruct (get_table modules_table (mdb st) !! pm_id m) as [r|]; [|done]. cbn.
      intros [= <-]. destruct (decide (row_status r = Some s)) as [Hd|Hd].
      * rewrite decide_False by naive_solver. cbn. by rewrite Hd.
      * rewrite decide_True by done. cbn. by rewrite row_status_set_columns.
Qed.

(** The public locked writer either leaves the status and the audit log alone
    or is one transition. *)
Lemma set_locked_module_fields_cases m l fields st st' :
  set_locked_module_fields m l fields st = Ok st' ->
  (st'.(audit) = st.(audit) /\
   forall mid, db_status mid st'.(mdb) = db_status mid st.(mdb)) \/
  exists s rs ex, dict_get "status" fields = Some s /\ ("status" ∉ ex.*1) /\
    transition_module_status m (text_or_empty (Some s)) (Some l) (Some l.(task_id)) rs ex st
    = Ok st'.
Proof.
  unfold set_locked_module_fields. destruct fields as [|kv fields]; [intros [= <-]; by left|].
  destruct (dict_get "status" (kv :: fields)) as [s|] eqn:Hs.
  - intros H. right. do 3 eexists. split; [done|]. split; [|exact H].
    intros Hin. apply dict_pop_subset in Hin. by apply dict_pop_not_in in Hin.
  - destruct (set_locked_entity_fields _ _ _ _ _) as [db'|e] eqn:Hw; [|done].
    intros [= <-]. left. split; [done|].
    apply write_ok in Hw as (r & Hr & _ & Hlk); [|done].
    intros mid. unfold db_status. cbn. rewrite Hlk. case_decide as Hd; [|done].
    destruct Hd as [_ ->]. rewrite Hr. cbn. by rewrite row_status_set_columns, Hs.
Qed.

Lemma read_status_ok c st from :
  call_ok c st -> read_status (call_module c) st.(mdb) = Ok from ->
  db_status (call_module c).(pm_id) st.(mdb) = Some from \/
  db_status (call_module c).(pm_id) st.(mdb) = None.
Proof.
  intros [Hc _]. unfold read_status, db_status in *.
  destruct (pm_cached_status (call_module c)) as [s|].
  - intros [= <-]. left. by apply Hc.
  - destruct (get_table _ _ !! _); [|done]. intros [= <-]. by left.
Qed.

(** One call, whatever it does, extends the trail of every module by at most one
    legal step. *)
Lemma do_call_trail c st mid :
  call_ok c st ->
  (audit_of mid (do_call st c) = audit_of mid st /\
   db_status mid (do_call st c).(mdb) = db_status mid st.(mdb)) \/
  exists row, audit_of mid (do_call st c) = row :: audit_of mid st /\
    is_legal_transition row.(tr_from) row.(tr_to) = true /\
    (is_Some (db_status mid st.(mdb)) -> db_status mid st.(mdb) = Some row.(tr_from) /\
     db_status mid (do_call st c).(mdb) = Some (Some row.(tr_to))).
Proof.
  intros Hok. unfold do_call. destruct (call_result c st) as [st'|] eqn:Hc; [|by left].
  assert (forall m s lk t rs ex, m = call_module c -> "status" ∉ ex.*1 ->
    transition_module_status m s lk t rs ex st = Ok st' ->
    audit_of mid st' = audit_of mid st /\ db_status mid st'.(mdb) = db_status mid st.(mdb) \/
    exists row, audit_of mid st' = row :: audit_of mid st /\
      is_legal_transition row.(tr_from) row.(tr_to) = true /\
      (is_Some (db_status mid st.(mdb)) -> db_status mid st.(mdb) = Some row.(tr_from) /\
       db_status mid st'.(mdb) = Some (Some row.(tr_to)))) as Hstep.
  { intros m s lk t rs ex -> Hex H.
    apply transition_ok in H as (from & Hread & Hleg & Haud & Hoth & Hst); [|done].
    unfold audit_of. rewrite Haud. destruct (decide (mid = pm_id (call_module c))) as [->|Hne].
    - right. eexists. rewrite filter_cons_True by done. split; [done|]. split; [done|]. cbn.
      intros [? Hs]. destruct (read_status_ok _ _ _ Hok Hread) as [H|H]; [|congruence].
      auto.
    - left. rewrite filter_cons_False by (cbn; congruence). auto. }
  destruct Hok as [_ Hex]. destruct c as [m s lk t rs ex|m l fields]; cbn in *.
  - by eapply Hstep.
  - apply set_locked_module_fields_cases in Hc as [[H1 H2]|(s & rs & ex & _ & Hex' & H)].
    + left. unfold audit_of. by rewrite H1, H2.
    + by eapply Hstep.
Qed.

(** Every status has been through the state machine or is the initial one. *)
Definition init_like (s : option string) : bool :=
  bool_decide (s ∈ Some ∘ status_value <$> [NOT_INITIALIZED; DESTROYED]).

Definition init_outcome (row : transition_row) : bool :=
  bool_decide (row.(tr_to) ∈ status_value <$> _INIT_OUTCOMES).

Lemma init_like_step from s :
  init_like from = true -> is_legal_transition from s = true ->
  init_like (Some s) = true \/ bool_decide (s ∈ status_value <$> _INIT_OUTCOMES) = true.
Proof.
  intros Hi Hl. unfold init_like in *. apply bool_decide_eq_true_1 in Hi.
  apply is_legal_transition_cases in Hl as [->|(a & b & -> & -> & Hab)].
  - left. by apply bool_decide_eq_true_2.
  - assert (a = NOT_INITIALIZED \/ a = DESTROYED) as Ha.
    { cbn in Hi. rewrite !elem_of_cons, elem_of_nil in Hi.
      destruct a; naive_solver. }
    clear Hi. destruct Ha as [-> | ->]; cbn in Hab;
      repeat (apply elem_of_cons in Hab as [->|Hab]; [vm_compute; auto|]);
      by apply elem_of_nil in Hab.
Qed.

Lemma trail_init_like s0 rows s :
  trail s0 rows s -> init_like s0 = true ->
  init_like s = true \/ existsb init_outcome rows = true.
Proof.
  revert s. induction rows as [|row rows IH]; cbn; intros s; [intros <-; auto|].
  intros (-> & Hl & Ht) H0. destruct (IH _ Ht H0) as [Hi|He].
  - destruct (init_like_step _ _ Hi Hl) as [?|Hb]; [by left|right].
    unfold init_outcome. by rewrite Hb.
  - right. by rewrite He, orb_true_r.
Qed.

(** ** Main theorems *)

(** The audit log tells the truth.  Start with an empty log and let any
    workers make any calls of the two status writers, with or without a lock,
    successful or raising.  If every call read the status its row had, then for
    every module the log's rows lead, by legal transitions each starting where
    the previous one ended, from the module's first status to its present one. *)
Theorem audit_trail_sound calls st0 mid s0 :
  st0.(audit) = [] -> calls_ok calls st0 ->
  db_status mid st0.(mdb) = Some s0 ->
  exists s, db_status mid (run_calls calls st0).(mdb) = Some s /\
            trail s0 (audit_of mid (run_calls calls st0)) s.
Proof.
  intros Haud Hok Hs0.
  assert (exists s, db_status mid st0.(mdb) = Some s /\ trail s0 (audit_of mid st0) s) as Hinv.
  { exists s0. split; [done|]. unfold audit_of. by rewrite Haud. }
  clear Haud Hs0. revert st0 Hok Hinv.
  induction calls as [|c calls IH]; intros st Hok Hinv; [done|]. cbn.
  destruct Hok as [Hc Hok]. apply IH; [done|].
  destruct Hinv as (s & Hs & Ht).
  destruct (do_call_trail c st mid Hc) as [[-> ->]|(row & -> & Hl & H)]; [by eauto|].
  destruct (H (mk_is_Some _ _ Hs)) as [Hf Ht']. exists (Some (tr_to row)).
  rewrite Hs in Hf. simplify_eq. cbn. auto.
Qed.

(** A worker that lost its lock changes nothing.  If the fence of the
    module's row is not the lock's, then whatever fields the worker passes to
    [set_locked_module_fields], the database is unchanged: the call raises, or it
    was a status self-loop without other fields, which only logs. *)
Theorem lost_fence_never_writes m l fields st f :
  fence_of modules_table m.(pm_id) st.(mdb) = Some f -> f <> l.(fence_token) ->
  match set_locked_module_fields m l fields st with
  | Err _ => True
  | Ok st' => st'.(mdb) = st.(mdb)
  end.
Proof.
  intros Hf Hne.
  assert (forall fs db', fs <> [] ->
    set_locked_entity_fields m.(pm_id) l modules_table fs st.(mdb) <> Ok db') as Hw.
  { intros fs db' Hfs Hw. apply write_ok in Hw as (r & Hr & Hfr & _); [|done].
    unfold fence_of in Hf. rewrite Hr in Hf. cbn in Hf. congruence. }
  unfold set_locked_module_fields. destruct fields as [|kv fields]; [done|].
  destruct (dict_get "status" (kv :: fields)) as [s|] eqn:Hs.
  - unfold transition_module_status. destruct (read_status _ _) as [from|]; [|done]. cbn.
    destruct (negb _); [done|]. destruct (_ && _); [done|].
    unfold set_locked_fields_direct.
    destruct (set_locked_entity_fields _ _ _ _ _) as [db'|e] eqn:E; [|done].
    apply Hw in E; [done|]. intros [_ ?]%app_eq_nil. done.
  - destruct (set_locked_entity_fields _ _ _ _ _) as [db'|e] eqn:E; [|done].
    by apply Hw in E.
Qed.

(** No apply without an init.  An audit trail that begins at [not_initialized] and
    ends at a status other than it and [destroyed] holds a write of one of the
    init outcomes.  The writes of status that go past [transition_module_status]
    are not in the trail. *)
Theorem no_apply_before_init rows s :
  trail (Some (status_value NOT_INITIALIZED)) rows (Some (status_value s)) ->
  s <> NOT_INITIALIZED -> s <> DESTROYED ->
  existsb init_outcome rows = true.
Proof.
  intros Ht H1 H2. destruct (trail_init_like _ _ _ Ht eq_refl) as [Hi|]; [|done].
  destruct s; try done; by vm_compute in Hi.
Qed.

Definition legal (a b : ModuleStatus) : bool :=
  is_legal_transition (Some (status_value a)) (status_value b).

(** No status is a dead end.  From every status [not_initialized] is at most
    two legal transitions away, and [applied] at most three, so an operator can
    always bring a module back. *)
Theorem every_status_recoverable s :
  (exists a, legal s a = true /\ legal a NOT_INITIALIZED = true) /\
  (exists a b, legal s a = true /\ legal a b = true /\ legal b APPLIED = true).
Proof.
  split; destruct s;
    first [ by exists NOT_INITIALIZED | by exists INITIALIZED | by exists PLANNED
          | by exists APPLIED | by exists INIT_FAILED
          | by exists NOT_INITIALIZED, INITIALIZED | by exists INITIALIZED, INITIALIZED
          | by exists APPLIED, APPLIED | by exists DESTROYING, APPLIED ].
Qed.

(** The self-loop branch returns before the fence is looked at: a worker whose
    lock was reclaimed adds an audit row with its stale fence and is not told. *)
Lemma selfloop_skips_fence m l task rs s st :
  read_status m st.(mdb) = Ok (Some s) ->
  transition_module_status m s (Some l) task rs [] st
  = Ok (MState st.(mdb)
         (TransitionRow m.(pm_id) (Some s) s task (Some l.(fence_token)) (clamp_reason rs)
            :: st.(audit))).
Proof.
  intros H. unfold transition_module_status. rewrite H. cbn.
  unfold is_legal_transition. by rewrite !decide_True, bool_decide_eq_true_2 by done.
Qed.

(** ** Witnesses *)

Definition module_row (s : ModuleStatus) : row :=
  Row (Some 10) (Some 0) 8 (Some 0) {[ "status" := JStr (status_value s) ]}.
Definition one_module (s : ModuleStatus) : mstate :=
  MState {[ "project_modules" := {[ 1 := module_row s ]} ]} [].
Definition module_1 : ProjectModule := MkModule 1 None.

Lemma audit_trail_sound_witness :
  let calls :=
    [ CTransition module_1 "initializing" None None "queued" [];
      CLocked module_1 lock_a [("status", JStr "initialized")];
      CLocked module_1 lock_a [("status", JStr "destroying"); ("deployment_error", JStr "x")];
      CLocked module_1 lock_b [("status", JStr "destroyed")] ] in
  exists s, db_status 1 (run_calls calls (one_module NOT_INITIALIZED)).(mdb) = Some s /\
    trail (Some "not_initialized") (audit_of 1 (run_calls calls (one_module NOT_INITIALIZED))) s.
Proof.
  intros calls. refine (audit_trail_sound calls (one_module NOT_INITIALIZED) 1
    (Some "not_initialized") eq_refl _ _).
  - repeat split; try done; set_solver.
  - vm_compute. reflexivity.
Defined.

Lemma lost_fence_never_writes_witness :
  match set_locked_module_fields module_1 lock_b [("status", JStr "applied")]
          (one_module PLANNED) with
  | Err _ => True
  | Ok st' => st'.(mdb) = (one_module PLANNED).(mdb)
  end.
Proof.
  refine (lost_fence_never_writes module_1 lock_b [("status", JStr "applied")]
    (one_module PLANNED) 8 _ _); [vm_compute; reflexivity|done].
Defined.

Lemma no_apply_before_init_witness :
  existsb init_outcome
    [ TransitionRow 1 (Some "initialized") "applied" None None "";
      TransitionRow 1 (Some "not_initialized") "initialized" None None "" ] = true.
Proof.
  refine (no_apply_before_init _ APPLIED _ _ _); [by vm_compute|done|done].
Defined.
