(* ===== verification/Orchestration.v ===== *)
(** * The rows orchestration works on (models/project.py, task.py, stack.py) and
      the progress of a stack (services/stack_deployment_service.py)

    The tables of modules, tasks and stack instances that the deploy and destroy
    chains, the cancel routes and the janitor share.  A module's status column
    holds one of the values of [ModuleStatus]; a task's [meta_data] is known by
    its ["destroy_scope"].  [deployed_modules] of a stack is a property of the
    source, the ids of the modules whose [stack_instance_id] is the stack;
    assigning it does nothing.  Timestamps and durations, which nothing here
    reads, and the rest of the columns are left out. *)

From S2P Require Import Prelude Texts ModuleState.

#[local] Open Scope string_scope.
#[local] Open Scope list_scope.
#[local] Open Scope Z_scope.

(** ** Rows *)

Record library := { execution_engine : option string; engine_type : option string }.

Record pmodule := {
  pm_project : Z;
  pm_stack : option Z;
  pm_dependencies : list Z;
  pm_status : ModuleStatus;
  deployment_error : option string;
  library_module : option library;
  enabled : bool;
  deployment_order : Z;
  has_outputs : bool   (** [outputs is not None] *)
}.

Inductive TaskStatus := T_QUEUED | T_PENDING | T_IN_PROGRESS | T_COMPLETED | T_FAILED | T_CANCELLED.
#[global] Instance TaskStatus_eq_dec : EqDecision TaskStatus.
Proof. solve_decision. Defined.

Inductive task_type := Tinit | Tplan | Tapply | Tdestroy.
#[global] Instance task_type_eq_dec : EqDecision task_type.
Proof. solve_decision. Defined.

Record task := {
  t_type : task_type;
  t_status : TaskStatus;
  t_project : Z;
  t_module : option Z;
  celery_task_id : option string;
  run_handle : option string;
  destroy_scope : option string;
  t_error : option string
}.

Inductive StackInstanceStatus := S_PENDING | S_DEPLOYING | S_DEPLOYED | S_DESTROYING | S_DESTROYED | S_FAILED.
#[global] Instance StackInstanceStatus_eq_dec : EqDecision StackInstanceStatus.
Proof. solve_decision. Defined.

Record stack := {
  s_project : Z;
  s_status : StackInstanceStatus;
  s_error : option string;
  current_step : Z;
  total_steps : option Z
}.

Record odb := {
  modules : gmap Z pmodule;
  tasks : gmap Z task;
  stacks : gmap Z stack;
  next_task : Z
}.

Definition with_modules (f : gmap Z pmodule -> gmap Z pmodule) (d : odb) : odb :=
  {| modules := f (modules d); tasks := tasks d; stacks := stacks d; next_task := next_task d |}.
Definition with_tasks (f : gmap Z task -> gmap Z task) (d : odb) : odb :=
  {| modules := modules d; tasks := f (tasks d); stacks := stacks d; next_task := next_task d |}.
Definition with_stacks (f : gmap Z stack -> gmap Z stack) (d : odb) : odb :=
  {| modules := modules d; tasks := tasks d; stacks := f (stacks d); next_task := next_task d |}.

(** Assignments to columns. *)
Definition set_status (st : ModuleStatus) (m : pmodule) : pmodule :=
  {| pm_project := pm_project m; pm_stack := pm_stack m; pm_dependencies := pm_dependencies m;
     pm_status := st; deployment_error := deployment_error m; library_module := library_module m;
     enabled := enabled m; deployment_order := deployment_order m; has_outputs := has_outputs m |}.
Definition set_error (e : option string) (m : pmodule) : pmodule :=
  {| pm_project := pm_project m; pm_stack := pm_stack m; pm_dependencies := pm_dependencies m;
     pm_status := pm_status m; deployment_error := e; library_module := library_module m;
     enabled := enabled m; deployment_order := deployment_order m; has_outputs := has_outputs m |}.
Definition set_outputs (b : bool) (m : pmodule) : pmodule :=
  {| pm_project := pm_project m; pm_stack := pm_stack m; pm_dependencies := pm_dependencies m;
     pm_status := pm_status m; deployment_error := deployment_error m; library_module := library_module m;
     enabled := enabled m; deployment_order := deployment_order m; has_outputs := b |}.
Definition set_task_status (st : TaskStatus) (e : option string) (t : task) : task :=
  {| t_type := t_type t; t_status := st; t_project := t_project t; t_module := t_module t;
     celery_task_id := celery_task_id t; run_handle := run_handle t;
     destroy_scope := destroy_scope t; t_error := e |}.
Definition set_celery (c : option string) (t : task) : task :=
  {| t_type := t_type t; t_status := t_status t; t_project := t_project t; t_module := t_module t;
     celery_task_id := c; run_handle := run_handle t;
     destroy_scope := destroy_scope t; t_error := t_error t |}.
Definition set_run (h : option string) (scope : option string) (t : task) : task :=
  {| t_type := t_type t; t_status := t_status t; t_project := t_project t; t_module := t_module t;
     celery_task_id := celery_task_id t; run_handle := h; destroy_scope := scope; t_error := t_error t |}.
Definition set_stack_status (st : StackInstanceStatus) (s : stack) : stack :=
  {| s_project := s_project s; s_status := st; s_error := s_error s;
     current_step := current_step s; total_steps := total_steps s |}.
Definition set_stack_error (e : option string) (s : stack) : stack :=
  {| s_project := s_project s; s_status := s_status s; s_error := e;
     current_step := current_step s; total_steps := total_steps s |}.
Definition set_step (n : Z) (s : stack) : stack :=
  {| s_project := s_project s; s_status := s_status s; s_error := s_error s;
     current_step := n; total_steps := total_steps s |}.

Definition update_module (i : Z) (f : pmodule -> pmodule) : odb -> odb := with_modules (alter f i).
Definition update_task (i : Z) (f : task -> task) : odb -> odb := with_tasks (alter f i).
Definition update_stack (i : Z) (f : stack -> stack) : odb -> odb := with_stacks (alter f i).

(** [db.add(task); db.flush()]: the row gets the next id. *)
Definition add_task (t : task) (d : odb) : odb :=
  {| modules := modules d; tasks := <[next_task d := t]> (tasks d); stacks := stacks d;
     next_task := next_task d + 1 |}.

(** ** Statuses *)

Definition NO_INFRA_STATUSES : list ModuleStatus :=
  [DESTROYED; NOT_INITIALIZED; INITIALIZED; PLANNED; INIT_FAILED; PLAN_FAILED].
Definition TERMINAL_DESTROY_STATUSES : list ModuleStatus :=
  [DESTROYED; DESTROY_FAILED; NOT_INITIALIZED; INITIALIZED; PLANNED; INIT_FAILED; PLAN_FAILED].
Definition transitional_statuses : list ModuleStatus := [INITIALIZING; PLANNING; APPLYING; DESTROYING].
Definition IN_CLUSTER_ENGINES : list string := ["kubernetes-direct"; "operator"; "kubernetes"].

Definition no_infra (s : ModuleStatus) : bool := bool_decide (s ∈ NO_INFRA_STATUSES).
Definition terminal_destroy (s : ModuleStatus) : bool := bool_decide (s ∈ TERMINAL_DESTROY_STATUSES).
Definition transitional (s : ModuleStatus) : bool := bool_decide (s ∈ transitional_statuses).

(** [TaskStatus.PENDING, QUEUED, IN_PROGRESS] *)
Definition active_task (t : task) : bool :=
  match t_status t with T_QUEUED | T_PENDING | T_IN_PROGRESS => true | _ => false end.

Definition is_in_cluster_module (m : pmodule) : bool :=
  match library_module m with
  | None => false
  | Some lib =>
      match execution_engine lib with
      | Some e => bool_decide (lower (strip e) ∈ IN_CLUSTER_ENGINES)
      | None => false
      end ||
      match engine_type lib with
      | Some e => String.eqb (lower (strip e)) "kubernetes"
      | None => false
      end
  end.

(** ["failed" in str(status).lower()] *)
Definition says_failed (s : ModuleStatus) : bool :=
  match s with INIT_FAILED | PLAN_FAILED | APPLY_FAILED | DESTROY_FAILED | FAILED => true | _ => false end.

(** ** Queries *)

Definition of_module (i : Z) (t : task) : bool := bool_decide (t_module t = Some i).
Definition destroy_of (i : Z) (t : task) : bool := of_module i t && bool_decide (t_type t = Tdestroy).

(** [order_by(id.desc()).first()] *)
Definition newest (P : task -> bool) (ts : gmap Z task) : option task :=
  last (omap (fun i => t ← ts !! i; if P t then Some t else None) (merge_sort Z.le (elements (dom ts)))).

Section orchestration.
Context {SO : SetOrder Z}.

Definition some_task (P : task -> bool) (d : odb) : bool :=
  negb (bool_decide (select (fun _ t => P t) (tasks d) = [])).

(** [DependencyGraphService.get_reverse_dependencies] *)
Definition get_reverse_dependencies (i project : Z) (d : odb) : list (Z * pmodule) :=
  select (fun _ m => bool_decide (pm_project m = project) && bool_decide (i ∈ pm_dependencies m)) (modules d).

Definition in_stack (s : Z) (m : pmodule) : bool := bool_decide (pm_stack m = Some s).

(** The property [deployed_modules]. *)
Definition deployed_modules (s : Z) (d : odb) : list Z := (select (fun _ m => in_stack s m) (modules d)).*1.

(** ** Progress of a stack *)

(** A module in a transitional status without an active task, by its newest
    task. *)
Definition recover_progress (d : odb) (i : Z) (m : pmodule) : pmodule :=
  if transitional (pm_status m) && negb (some_task (fun t => of_module i t && active_task t) d) then
    match newest (of_module i) (tasks d) with
    | None => m
    | Some t =>
        match t_status t with
        | T_FAILED =>
            set_error (Some (default "Task failed" (or_else (t_error t) None)))
              (match pm_status m with
               | APPLYING => set_status APPLY_FAILED m
               | INITIALIZING => set_status INIT_FAILED m
               | PLANNING => set_status PLAN_FAILED m
               | DESTROYING => set_status DESTROY_FAILED m
               | _ => m
               end)
        | T_COMPLETED =>
            match pm_status m with DESTROYING => set_status DESTROYED m | _ => set_status APPLIED m end
        | _ =>
            set_error (Some "Module was in a transitional state with no active task — reset")
              (set_status NOT_INITIALIZED m)
        end
    end
  else m.

Definition count_modules (P : ModuleStatus -> bool) (ms : list (Z * pmodule)) : Z :=
  Z.of_nat (length (filter (fun im => P (pm_status im.2) = true) ms)).

(** The error of the first failed module. *)
Definition first_error (ms : list (Z * pmodule)) : string :=
  match filter (fun im => says_failed (pm_status im.2) = true) ms with
  | (_, m) :: _ => default "None" (deployment_error m)
  | [] => ""
  end.

(** [update_stack_progress] on the stack row, from the statuses of its modules. *)
Definition progress_of (ms : list (Z * pmodule)) (s : stack) : stack :=
  let total := Z.of_nat (length ms) in
  let applied := count_modules (fun st => bool_decide (st = APPLIED)) ms in
  let failed := count_modules says_failed ms in
  let destroyed := count_modules (fun st => bool_decide (st = DESTROYED)) ms in
  let active := count_modules transitional ms in
  if bool_decide (s_status s = S_DESTROYING) then
    set_step destroyed
      (if 0 <? failed then
         set_stack_error (Some ("Module destruction failed: " +:+ first_error ms)) (set_stack_status S_FAILED s)
       else if destroyed =? total then set_stack_status S_DESTROYED s else s)
  else if destroyed =? total then set_step destroyed (set_stack_status S_DESTROYED s)
  else
    let s := set_step applied s in
    if 0 <? failed then
      set_stack_error (Some ("Module deployment failed: " +:+ first_error ms)) (set_stack_status S_FAILED s)
    else if applied =? total then set_stack_status S_DEPLOYED s
    else if 0 <? active then set_stack_status S_DEPLOYING s
    else if 0 <? applied then set_stack_status S_PENDING s
    else s.

Definition update_stack_progress (s : Z) (d : odb) : odb :=
  match stacks d !! s with
  | None => d
  | Some st =>
      match select (fun _ m => in_stack s m) (modules d) with
      | [] =>
          if bool_decide (s_status st = S_DESTROYING)
          then update_stack s (set_stack_status S_DESTROYED) d else d
      | _ =>
          let d' := with_modules (map_imap (fun i m => Some (if in_stack s m then recover_progress d i m else m))) d in
          update_stack s (progress_of (select (fun _ m => in_stack s m) (modules d'))) d'
      end
  end.
End orchestration.
