(* ===== verification/DestroyChain.v ===== *)
(** * The destroy chain (tasks/_tofu_helpers.py, tasks/parallel_tasks.py,
      services/parallel_execution_service.py, stack_deployment_service.py)

    A destroy of a project or of a stack starts with the modules nothing
    deployed depends on; the worker that has destroyed a module queues the
    destroys of the modules it depends on, once all that depend on them are
    gone, and looks whether the whole destroy has ended.

    [celery] is the id the broker gives the message of a task; a broker that
    refuses one is not modelled.  The row lock of a stack makes the detection
    of its end one step.  The workers' interleaving is in DestroyRun.v. *)

From S2P Require Import Prelude Texts ModuleState Orchestration.

#[local] Open Scope string_scope.
#[local] Open Scope list_scope.
#[local] Open Scope Z_scope.

(** How a destroy ends, as the detection finds it. *)
Inductive verdict := NotYet | Finalized | EntityFailed (modules : Z).

(** [_destroy_scope_for] *)
Definition _destroy_scope_for (mid : Z) (task_id : option Z) (d : odb) : option string :=
  let row := match task_id with
             | Some i => t ← tasks d !! i; if bool_decide (t_type t = Tdestroy) then Some t else None
             | None => newest (destroy_of mid) (tasks d)
             end in
  match row with
  | None => None
  | Some t =>
      if truthy_str (destroy_scope t) then destroy_scope t
      else if truthy_str (run_handle t) then None else Some "module"
  end.

(** Whether a dependent lets the modules it depends on go. *)
Definition clears (is_stack_scope : bool) (m : pmodule) : bool :=
  no_infra (pm_status m) ||
  (bool_decide (pm_status m = DESTROY_FAILED) && negb is_stack_scope && is_in_cluster_module m).

Definition reconciled_suffix : string := " [reconciled-to-destroyed: cluster already torn down]".
Definition forced_suffix : string := " [force-destroyed: skipped by force_destroy flag]".

(** [m.deployment_error = ((m.deployment_error or "") + suffix)[:2000]; m.status = "destroyed"] *)
Definition mark_destroyed (suffix : string) (m : pmodule) : pmodule :=
  set_status DESTROYED
    (set_error (Some (clip 2000 (default "" (or_else (deployment_error m) None) +:+ suffix))) m).

(** [db.delete] of module rows: the tasks' foreign keys become NULL. *)
Definition delete_modules (P : Z -> pmodule -> bool) (d : odb) : odb :=
  with_tasks (fmap (fun t =>
      match t_module t with
      | Some i => match modules d !! i with
                  | Some m => if P i m then
                      {| t_type := t_type t; t_status := t_status t; t_project := t_project t;
                         t_module := None; celery_task_id := celery_task_id t; run_handle := run_handle t;
                         destroy_scope := destroy_scope t; t_error := t_error t |} else t
                  | None => t
                  end
      | None => t
      end))
    (with_modules (filter (fun im => P im.1 im.2 = false)) d).

Section chain.
Context {SO : SetOrder Z} (celery : Z -> string).

(** A destroy task for module [i]: the row, the status, the message. *)
Definition queue_destroy (i : Z) (handle scope : option string) (d : odb) : odb :=
  match modules d !! i with
  | None => d
  | Some m =>
      let t := next_task d in
      update_task t (set_celery (Some (celery t)))
        (update_module i (set_status DESTROYING)
          (add_task {| t_type := Tdestroy; t_status := T_QUEUED; t_project := pm_project m;
                       t_module := Some i; celery_task_id := None; run_handle := handle;
                       destroy_scope := scope; t_error := None |} d))
  end.

(** One dependency of the module [mid] that has just ended. *)
Definition trigger_dep (mid project : Z) (scope : option string) (is_stack_scope : bool)
    (scope_ids : option (list Z)) (d : odb) (dep_id : Z) : odb :=
  match modules d !! dep_id with
  | None => d
  | Some dep =>
      if negb (bool_decide (pm_project dep = project)) then d
      else if no_infra (pm_status dep) then d
      else
        let dependents := get_reverse_dependencies dep_id project d in
        let dependents := match scope_ids with
                          | Some ids => filter (fun im => im.1 ∈ ids) dependents
                          | None => dependents
                          end in
        if negb (forallb (fun im => clears is_stack_scope im.2) dependents) then d
        else if some_task (fun t => destroy_of dep_id t && active_task t) d then d
        else queue_destroy dep_id (newest (destroy_of mid) (tasks d) ≫= run_handle) 
               (if truthy_str scope then scope else None) d
  end.

Definition stack_modules (s : Z) (d : odb) : list (Z * pmodule) := select (fun _ m => in_stack s m) (modules d).
Definition project_modules (p : Z) (d : odb) : list (Z * pmodule) :=
  select (fun _ m => bool_decide (pm_project m = p)) (modules d).

Definition destroy_failed (ms : list (Z * pmodule)) : list (Z * pmodule) :=
  filter (fun im => pm_status im.2 = DESTROY_FAILED) ms.
Definition all_terminal (ms : list (Z * pmodule)) : bool := forallb (fun im => terminal_destroy (pm_status im.2)) ms.

(** [_mark_entity_failed] and [_finalize_destroy] of a stack; of a project they
    only write to the log. *)
Definition mark_stack_failed (s : Z) (msg : string) (d : odb) : odb :=
  update_stack s (fun st => set_stack_error (Some msg) (set_stack_status S_FAILED st)) d.
Definition finalize_stack (s : Z) (d : odb) : odb :=
  update_stack s (set_stack_status S_DESTROYED) (delete_modules (fun _ m => in_stack s m) d).

Definition stopped_message (n : Z) : string :=
  "Destroy stopped: " +:+ pretty n +:+ " module(s) failed to destroy".

Definition _run_terminal_detection_stack (m : pmodule) (d : odb) : odb * verdict :=
  match pm_stack m with
  | None => (d, NotYet)
  | Some s =>
      match stacks d !! s with
      | None => (d, NotYet)
      | Some st =>
          let ms := stack_modules s d in
          if negb (bool_decide (s_status st = S_DESTROYING)) || bool_decide (ms = []) || negb (all_terminal ms)
          then (d, NotYet)
          else match destroy_failed ms with
               | [] => (finalize_stack s d, Finalized)
               | failed =>
                   let n := Z.of_nat (length failed) in
                   (mark_stack_failed s (stopped_message n) d, EntityFailed n)
               end
      end
  end.

(** Without a run handle. *)
Definition _run_terminal_detection_project_legacy (m : pmodule) (d : odb) : odb * verdict :=
  let active := filter (fun im => pm_status im.2 ∉ [NOT_INITIALIZED; INITIALIZED; PLANNED; INIT_FAILED; PLAN_FAILED])
                  (project_modules (pm_project m) d) in
  if negb (all_terminal active) then (d, NotYet)
  else match destroy_failed active with
       | [] => (d, Finalized)
       | failed => (d, EntityFailed (Z.of_nat (length failed)))
       end.

Definition _run_terminal_detection_project (mid : Z) (m : pmodule) (d : odb) : odb * verdict :=
  if negb (truthy_str (newest (destroy_of mid) (tasks d) ≫= run_handle))
  then _run_terminal_detection_project_legacy m d
  else
    let to_destroy := filter (fun im => no_infra (pm_status im.2) = false) (project_modules (pm_project m) d) in
    if negb (all_terminal to_destroy) then (d, NotYet)
    else
      let failed := destroy_failed to_destroy in
      let in_cluster_failed := filter (fun im => is_in_cluster_module im.2 = true) failed in
      let non_cluster_failed := filter (fun im => is_in_cluster_module im.2 = false) failed in
      if negb (bool_decide (in_cluster_failed = [])) && bool_decide (non_cluster_failed = []) then
        (foldl (fun d im => update_module im.1 (mark_destroyed reconciled_suffix) d) d in_cluster_failed, Finalized)
      else match failed with
           | [] => (d, Finalized)
           | _ => (d, EntityFailed (Z.of_nat (length failed)))
           end.

Definition _run_terminal_detection (mid : Z) (m : pmodule) (task_id : option Z) (d : odb) : odb * verdict :=
  match _destroy_scope_for mid task_id d with
  | Some scope =>
      if String.eqb scope "module" then (d, NotYet)
      else if String.eqb scope "project" then _run_terminal_detection_project mid m d
      else if String.eqb scope "stack" then _run_terminal_detection_stack m d
      else match pm_stack m with
           | Some _ => _run_terminal_detection_stack m d
           | None => _run_terminal_detection_project mid m d
           end
  | None =>
      match pm_stack m with
      | Some _ => _run_terminal_detection_stack m d
      | None => _run_terminal_detection_project mid m d
      end
  end.

Definition is_scope (scope : option string) (s : string) : bool :=
  match scope with Some x => String.eqb x s | None => false end.

Definition _trigger_next_destroy_module (mid : Z) (task_id : option Z) (d : odb) : odb * verdict :=
  match modules d !! mid with
  | None => (d, NotYet)
  | Some m =>
      let scope := _destroy_scope_for mid task_id d in
      if is_scope scope "module" then (d, NotYet)
      else
        let is_stack_scope := negb (is_scope scope "project") && negb (bool_decide (pm_stack m = None)) in
        let scope_ids :=
          if is_stack_scope then
            s ← pm_stack m; _ ← stacks d !! s;
            match deployed_modules s d with [] => None | ids => Some ids end
          else None in
        let d := foldl (trigger_dep mid (pm_project m) scope is_stack_scope scope_ids) d (pm_dependencies m) in
        _run_terminal_detection mid m task_id d
  end.

(** ** First waves *)

(** One module of the first wave of a project; [first] is the id of the first
    message.  A destroy already under way is adopted into the run. *)
Definition first_wave_module (handle : option string) (st : odb * option string) (i : Z) : odb * option string :=
  let '(d, first) := st in
  match modules d !! i with
  | None => st
  | Some m =>
      if no_infra (pm_status m) then st
      else if negb (forallb (fun im => no_infra (pm_status im.2)) (get_reverse_dependencies i (pm_project m) d)) then st
      else
        match select (fun _ t => destroy_of i t && active_task t) (tasks d) with
        | (t, existing) :: _ =>
            (if negb (is_scope (destroy_scope existing) "project") || negb (truthy_str (run_handle existing))
             then update_task t (set_run (or_else (run_handle existing) handle) (Some "project")) d else d,
             match first with Some _ => first | None => celery_task_id existing end)
        | [] =>
            (queue_destroy i handle (Some "project") d,
             match first with Some _ => first | None => Some (celery (next_task d)) end)
        end
  end.

(** [force_destroy]: the in-cluster modules count as destroyed. *)
Definition force_pass (p : Z) (d : odb) : odb :=
  with_modules (fmap (fun m =>
    if bool_decide (pm_project m = p) && negb (no_infra (pm_status m)) && is_in_cluster_module m
    then mark_destroyed forced_suffix m else m)) d.

Definition _dispatch_first_destroy_wave (p : Z) (handle : option string) (force_destroy : bool) (d : odb)
  : odb * option string :=
  let d := if force_destroy then force_pass p d else d in
  foldl (first_wave_module handle) (d, None) (project_modules p d).*1.

(** One module of the first wave of a stack. *)
Definition first_wave_stack_module (handle : option string) (scope : list Z) (st : odb * option string) (i : Z)
  : odb * option string :=
  let '(d, first) := st in
  match modules d !! i with
  | None => st
  | Some m =>
      if no_infra (pm_status m) then st
      else if existsb (fun j => match modules d !! j with
                                | Some x => bool_decide (i ∈ pm_dependencies x) && negb (no_infra (pm_status x))
                                | None => false
                                end) scope then st
      else
        match select (fun _ t => destroy_of i t && active_task t) (tasks d) with
        | (_, existing) :: _ => (d, match first with Some _ => first | None => celery_task_id existing end)
        | [] => (queue_destroy i handle None d,
                 match first with Some _ => first | None => Some (celery (next_task d)) end)
        end
  end.

Definition _dispatch_first_destroy_wave_stack (scope : list Z) (handle : option string) (d : odb)
  : odb * option string :=
  foldl (first_wave_stack_module handle scope) (d, None) scope.

(** ** Destroying a stack *)

Definition stale_error : string := "Stale transitional state recovered during destroy".
Definition died_error : string :=
  "Worker died mid-run; recovered during stack destroy. Resources may exist -- destroy will be attempted.".

(** A module in a transitional status without an active task, before a destroy. *)
Definition recover_for_destroy (d : odb) (i : Z) (m : pmodule) : pmodule :=
  if transitional (pm_status m) && negb (some_task (fun t => of_module i t && active_task t) d) then
    let other :=
      match pm_status m with
      | APPLYING => set_error (Some died_error) (set_status APPLY_FAILED m)
      | DESTROYING => set_error (Some died_error) (set_status DESTROY_FAILED m)
      | _ => set_error (Some stale_error) (set_status NOT_INITIALIZED m)
      end in
    match newest (of_module i) (tasks d) with
    | Some t =>
        match t_status t with
        | T_FAILED =>
            set_error (Some (default "Task failed" (or_else (t_error t) None)))
              (match pm_status m with
               | APPLYING => set_status APPLY_FAILED m
               | DESTROYING => set_status DESTROY_FAILED m
               | PLANNING => set_status PLAN_FAILED m
               | _ => set_status INIT_FAILED m
               end)
        | T_COMPLETED =>
            match pm_status m with DESTROYING => set_status DESTROYED m | _ => set_status APPLIED m end
        | _ => other
        end
    | None => other
    end
  else m.

Inductive stack_answer :=
| AlreadyDestroying
| NoModules
| InProgress (module : Z)
| AllDeleted (records : Z)
| Initiated (to_destroy deleted : Z).

Definition destroy_stack (s : Z) (handle : string) (d : odb) : odb * stack_answer :=
  match stacks d !! s with
  | None => (d, NoModules)
  | Some st =>
      if bool_decide (s_status st = S_DESTROYING) then (d, AlreadyDestroying)
      else if bool_decide (stack_modules s d = []) then (with_stacks (delete s) d, NoModules)
      else
        let d := with_modules (map_imap (fun i m => Some (if in_stack s m then recover_for_destroy d i m else m))) d in
        let ms := stack_modules s d in
        match filter (fun im => transitional (pm_status im.2) = true) ms with
        | (i, _) :: _ => (d, InProgress i)
        | [] =>
            let to_delete := filter (fun im => no_infra (pm_status im.2) = true) ms in
            let to_destroy := filter (fun im => no_infra (pm_status im.2) = false) ms in
            let d := delete_modules (fun _ m => in_stack s m && no_infra (pm_status m)) d in
            match to_destroy with
            | [] => (with_stacks (delete s) d, AllDeleted (Z.of_nat (length to_delete)))
            | _ =>
                let d := update_stack s (fun st =>
                  {| s_project := s_project st; s_status := S_DESTROYING; s_error := s_error st;
                     current_step := 0; total_steps := Some (Z.of_nat (length to_destroy)) |}) d in
                ((_dispatch_first_destroy_wave_stack to_destroy.*1 (Some handle) d).1,
                 Initiated (Z.of_nat (length to_destroy)) (Z.of_nat (length to_delete)))
            end
        end
  end.

(** ** A destroy worker (tasks/ssh_tasks.py [run_ssh_destroy]; the other engines
    end the same way) *)

Definition start_task (t : Z) : odb -> odb := update_task t (fun r => set_task_status T_IN_PROGRESS (t_error r) r).

(** [s[-n:]] *)
Definition last_chars (n : nat) (s : string) : string := String.substring (String.length s - n) n s.

(** The task and the module as the worker commits them; [None]: success. *)
Definition commit_destroy (t mid : Z) (failure : option string) (d : odb) : odb :=
  match failure with
  | None => update_module mid (fun m => set_outputs false (set_error None (set_status DESTROYED m)))
              (update_task t (fun r => set_task_status T_COMPLETED (t_error r) r) d)
  | Some e => update_module mid (fun m => set_error (Some (last_chars 2000 e)) (set_status DESTROY_FAILED m))
                (update_task t (set_task_status T_FAILED (Some e)) d)
  end.

(** [_update_stack_status_if_needed] for a module that is not applied. *)
Definition _update_stack_status (mid : Z) (d : odb) : odb :=
  match modules d !! mid ≫= pm_stack with Some s => update_stack_progress s d | None => d end.

Definition after_destroy (t mid : Z) (d : odb) : odb * verdict :=
  _trigger_next_destroy_module mid (Some t) (_update_stack_status mid d).
End chain.
