(* ===== verification/DestroyRun.v ===== *)
(** * Runs of the destroy chain

    What the workers of a destroy do over DestroyChain.v's operations, as a step
    relation, and what it keeps: the order of the destroys, that the chain never
    stalls, and how it ends.  A state is the tables and the modules whose worker
    has committed and not yet triggered. *)

From S2P Require Import Prelude Texts ModuleState Orchestration DestroyChain.

#[local] Open Scope string_scope.
#[local] Open Scope list_scope.
#[local] Open Scope Z_scope.
#[local] Set Default Proof Using "Type".

(** ** A project's rows *)

Definition proj (p : Z) (d : odb) : gmap Z pmodule := filter (fun im => pm_project im.2 = p) (modules d).

Lemma proj_Some p d i m : proj p d !! i = Some m <-> modules d !! i = Some m /\ pm_project m = p.
Proof. unfold proj. by rewrite map_lookup_filter_Some. Qed.

(** An assignment to columns other than the project's. *)
Definition keeps_row (f : pmodule -> pmodule) : Prop :=
  forall m, pm_project (f m) = pm_project m /\ pm_dependencies (f m) = pm_dependencies m /\
    is_in_cluster_module (f m) = is_in_cluster_module m.

Lemma proj_update p i f d : keeps_row f -> proj p (update_module i f d) = alter f i (proj p d).
Proof.
  intros Hf. apply map_eq. intros j. apply option_eq. intros m. rewrite proj_Some. cbn.
  destruct (decide (j = i)) as [->|Hj].
  - rewrite !lookup_alter_eq. split.
    + intros [(m0 & H0 & ->)%fmap_Some Hp]. destruct (Hf m0) as (Hp0 & _).
      apply fmap_Some. exists m0. split; [|done]. apply proj_Some. split; [done|congruence].
    + intros (m0 & [H0 Hp]%proj_Some & ->)%fmap_Some. destruct (Hf m0) as (Hp0 & _).
      split; [by rewrite H0|congruence].
  - rewrite !lookup_alter_ne by done. by rewrite proj_Some.
Qed.

Lemma proj_tasks p f d : proj p (with_tasks f d) = proj p d.
Proof. done. Qed.

Lemma newest_Some P ts r :
  newest P ts = Some r <->
  exists t, ts !! t = Some r /\ P r = true /\ forall t' r', ts !! t' = Some r' -> P r' = true -> t' <= t.
Proof.
  unfold newest. set (f := fun i => t ← ts !! i; if P t then Some t else None).
  assert (Hs : StronglySorted Z.le (merge_sort Z.le (elements (dom ts)))).
  { apply StronglySorted_merge_sort; apply _. }
  assert (Hin : forall t, is_Some (ts !! t) -> t ∈ merge_sort Z.le (elements (dom ts))).
  { intros t. by rewrite merge_sort_Permutation, elem_of_elements, elem_of_dom. }
  assert (Hgen : forall l, StronglySorted Z.le l -> last (omap f l) = Some r <->
    exists t, t ∈ l /\ ts !! t = Some r /\ P r = true /\
      forall t' r', t' ∈ l -> ts !! t' = Some r' -> P r' = true -> t' <= t).
  { intros l. induction l as [|x l IH] using rev_ind; intros Hl.
    { cbn. split; [done|]. intros (t & Ht & _). by apply elem_of_nil in Ht. }
    apply StronglySorted_app in Hl as (Hlt & Hl & _). specialize (IH Hl).
    assert (Hx : forall t, t ∈ l -> t <= x) by (intros t Ht; apply Hlt; [done|by apply list_elem_of_singleton]).
    rewrite omap_app. cbn. unfold f at 2. destruct (ts !! x) as [rx|] eqn:Ex; cbn;
      [destruct (P rx) eqn:EP|]; cbn; rewrite ?last_snoc, ?app_nil_r, ?IH.
    - split.
      + intros [= <-]. exists x. split_and!; [apply elem_of_app; right; by apply list_elem_of_singleton|done..|]. intros t' r' Ht' _ _.
        apply elem_of_app in Ht' as [Ht'|Ht']; [auto|]. apply list_elem_of_singleton in Ht'. lia.
      + intros (t & Ht & Hr & _ & Hm). assert (x <= t) by (eapply Hm; [apply elem_of_app; right; by apply list_elem_of_singleton|done|done]).
        assert (t = x) by (apply elem_of_app in Ht as [Ht|Ht%list_elem_of_singleton]; [specialize (Hx t Ht); lia|done]).
        congruence.
    - setoid_rewrite elem_of_app. split; [|intros (t & [Ht|Ht%list_elem_of_singleton] & Hr & HP & Hm); [|subst; congruence]].
      + intros (t & Ht & Hr & HP & Hm). exists t. split_and!; [by left|done..|].
        intros t' r' [Ht'|Ht'%list_elem_of_singleton] Hr' HP'; [eauto|]. subst. congruence.
      + exists t. split_and!; eauto.
    - setoid_rewrite elem_of_app. split; [|intros (t & [Ht|Ht%list_elem_of_singleton] & Hr & HP & Hm); [|subst; congruence]].
      + intros (t & Ht & Hr & HP & Hm). exists t. split_and!; [by left|done..|].
        intros t' r' [Ht'|Ht'%list_elem_of_singleton] Hr' HP'; [eauto|]. subst. congruence.
      + exists t. split_and!; eauto. }
  rewrite (Hgen _ Hs). split.
  - intros (t & _ & Hr & HP & Hm). exists t. split_and!; [done..|]. intros t' r' Hr' HP'.
    eapply Hm; [apply Hin; eauto|done|done].
  - intros (t & Hr & HP & Hm). exists t. split_and!; [apply Hin; eauto|done..|]. intros; eapply Hm; eauto.
Qed.

(** ** Statuses *)

Lemma terminal_cases s : terminal_destroy s = true <-> no_infra s = true \/ s = DESTROY_FAILED.
Proof. unfold terminal_destroy, no_infra. rewrite !bool_decide_eq_true. destruct s; set_solver. Qed.

Lemma not_transitional s : transitional s = false -> (s ∉ [INITIALIZING; PLANNING; APPLYING]) /\ s <> DESTROYING.
Proof. unfold transitional. rewrite bool_decide_eq_false. destruct s; set_solver. Qed.

Lemma clears_destroying st m : clears st (set_status DESTROYING m) = false.
Proof. unfold clears, no_infra. cbn. by rewrite !bool_decide_false by (cbn; set_solver). Qed.

Lemma clears_order m : clears false m = true -> no_infra (pm_status m) = true \/ is_in_cluster_module m = true.
Proof.
  unfold clears. intros H. apply orb_true_iff in H as [H|H]; [by left|]. bool_hyps. by right.
Qed.

(** ** The workers of a project's destroy *)

(** [pending]: a task and its module, committed by a worker that has not yet
    triggered what comes after. *)
Record wstate := { wdb : odb; pending : list (Z * Z) }.

Definition running (i : Z) (r : task) : bool := destroy_of i r && active_task r.

Section runs.
Context {SO : SetOrder Z} (celery : Z -> string) (p : Z).

Inductive wstep : wstate -> wstate -> Prop :=
| w_start t r mid d pd :
    tasks d !! t = Some r -> running mid r = true -> is_Some (proj p d !! mid) -> t_status r = T_QUEUED ->
    wstep {| wdb := d; pending := pd |} {| wdb := start_task t d; pending := pd |}
| w_commit t r mid failure d pd :
    tasks d !! t = Some r -> running mid r = true -> is_Some (proj p d !! mid) ->
    wstep {| wdb := d; pending := pd |} {| wdb := commit_destroy t mid failure d; pending := (t, mid) :: pd |}
| w_trigger t mid d pd pd' :
    pd ≡ₚ (t, mid) :: pd' ->
    wstep {| wdb := d; pending := pd |} {| wdb := (after_destroy celery t mid d).1; pending := pd' |}.

(** The newest destroy of a module belongs to a run. *)
Definition in_run (r : task) : bool := truthy_str (run_handle r) && bool_decide (destroy_scope r = Some "project").
Definition handled (i : Z) (ts : gmap Z task) : Prop :=
  exists t r, ts !! t = Some r /\ destroy_of i r = true /\ in_run r = true /\
    forall t' r', ts !! t' = Some r' -> destroy_of i r' = true -> t' <= t.

(** A module that is still to be destroyed. *)
Definition waits (s : ModuleStatus) : Prop := no_infra s = false /\ s <> DESTROYING /\ s <> DESTROY_FAILED.

Record core (orph : list Z) (d : odb) (pd : list (Z * Z)) : Prop := {
  inv_fresh t r : tasks d !! t = Some r -> t < next_task d;
  inv_settled i m : proj p d !! i = Some m -> pm_status m ∉ [INITIALIZING; PLANNING; APPLYING];
  inv_busy i m : proj p d !! i = Some m -> pm_status m = DESTROYING ->
    (exists t r, tasks d !! t = Some r /\ running i r = true) \/ i ∈ orph;
  inv_tasks i m t r : proj p d !! i = Some m -> tasks d !! t = Some r -> running i r = true ->
    pm_status m = DESTROYING /\ destroy_scope r = Some "project";
  inv_unique i m t r t' r' : proj p d !! i = Some m -> tasks d !! t = Some r -> tasks d !! t' = Some r' ->
    running i r = true -> running i r' = true -> t = t';
  inv_handled i m : proj p d !! i = Some m -> pm_status m = DESTROYING -> handled i (tasks d);
  inv_pending t i : (t, i) ∈ pd -> is_Some (proj p d !! i) /\ handled i (tasks d) /\
    exists r, tasks d !! t = Some r /\ t_type r = Tdestroy /\ destroy_scope r = Some "project";
  inv_order i m x mx : proj p d !! i = Some m -> pm_status m = DESTROYING ->
    proj p d !! x = Some mx -> i ∈ pm_dependencies mx ->
    no_infra (pm_status mx) = true \/ is_in_cluster_module mx = true
}.

(** Something will look at the module [i]: a module that holds it back, the
    look under way ([todo]), one announced by a commit, or a failure of an
    earlier run that will itself be looked at. *)
Inductive owed (todo : list Z) (ms : gmap Z pmodule) (pd : list (Z * Z)) : Z -> Prop :=
| owed_held i x mx : ms !! x = Some mx -> i ∈ pm_dependencies mx -> clears false mx = false -> owed todo ms pd i
| owed_todo i : i ∈ todo -> owed todo ms pd i
| owed_pending i t x mx : (t, x) ∈ pd -> ms !! x = Some mx -> i ∈ pm_dependencies mx -> owed todo ms pd i
| owed_retry i x mx : ms !! x = Some mx -> i ∈ pm_dependencies mx -> pm_status mx = DESTROY_FAILED ->
    owed todo ms pd x -> owed todo ms pd i.

Definition covered (todo : list Z) (d : odb) (pd : list (Z * Z)) : Prop :=
  forall i m, proj p d !! i = Some m -> waits (pm_status m) -> owed todo (proj p d) pd i.

(** A run that has ended has reconciled the failures it can. *)
Definition ended (d : odb) (pd : list (Z * Z)) : Prop :=
  pd = [] ->
  (forall i m, proj p d !! i = Some m -> terminal_destroy (pm_status m) = true) ->
  (forall i m, proj p d !! i = Some m -> pm_status m = DESTROY_FAILED -> is_in_cluster_module m = true) ->
  forall i m, proj p d !! i = Some m -> pm_status m <> DESTROY_FAILED.

Definition run_inv (w : wstate) : Prop :=
  core [] (wdb w) (pending w) /\ covered [] (wdb w) (pending w) /\ ended (wdb w) (pending w).

(** *** Queueing one destroy *)

Lemma keeps_status s : keeps_row (set_status s).
Proof. by intros m. Qed.

Lemma queue_proj i h sc d m :
  proj p d !! i = Some m -> proj p (queue_destroy celery i h sc d) = alter (set_status DESTROYING) i (proj p d).
Proof.
  intros [Hm _]%proj_Some. unfold queue_destroy. rewrite Hm.
  etransitivity; [|apply proj_update, keeps_status]. done.
Qed.

Lemma queue_tasks i h sc d m :
  modules d !! i = Some m ->
  exists r, tasks (queue_destroy celery i h sc d) = <[next_task d := r]> (tasks d) /\
    next_task (queue_destroy celery i h sc d) = next_task d + 1 /\
    t_type r = Tdestroy /\ t_module r = Some i /\ t_status r = T_QUEUED /\
    run_handle r = h /\ destroy_scope r = sc.
Proof.
  intros Hm. unfold queue_destroy. rewrite Hm. eexists. split.
  - cbn. rewrite alter_insert_eq. reflexivity.
  - done.
Qed.

Lemma elem_of_project_modules i m d : (i, m) ∈ project_modules p d <-> proj p d !! i = Some m.
Proof. unfold project_modules. by rewrite elem_of_select, bool_decide_eq_true, proj_Some. Qed.

Lemma elem_of_dependents i x m d :
  (x, m) ∈ get_reverse_dependencies i p d <-> proj p d !! x = Some m /\ i ∈ pm_dependencies m.
Proof. clear celery.
  unfold get_reverse_dependencies.
  rewrite elem_of_select, andb_true_iff, !bool_decide_eq_true, proj_Some. tauto.
Qed.

Lemma some_task_true P d : some_task P d = true <-> exists t r, tasks d !! t = Some r /\ P r = true.
Proof.
  unfold some_task. rewrite negb_true_iff, bool_decide_eq_false. split.
  - intros Hne. destruct (select _ _) as [|[t r] l] eqn:E; [done|]. exists t, r.
    assert (Hin : (t, r) ∈ select (fun _ t => P t) (tasks d)) by (rewrite E; left).
    by apply elem_of_select in Hin.
  - intros (t & r & Hr & HP) E. assert (Hin : (t, r) ∈ select (fun _ t => P t) (tasks d)) by by apply elem_of_select.
    rewrite E in Hin. by apply elem_of_nil in Hin.
Qed.

Lemma running_spec i r : running i r = true <-> t_module r = Some i /\ t_type r = Tdestroy /\ active_task r = true.
Proof. clear p celery. unfold running, destroy_of, of_module. rewrite !andb_true_iff, !bool_decide_eq_true. tauto. Qed.

Lemma destroy_of_spec i r : destroy_of i r = true <-> t_module r = Some i /\ t_type r = Tdestroy.
Proof. unfold destroy_of, of_module. by rewrite !andb_true_iff, !bool_decide_eq_true. Qed.

Lemma handled_insert i ts n r :
  (forall t r', ts !! t = Some r' -> t < n) -> handled i ts ->
  (destroy_of i r = true -> in_run r = true) -> handled i (<[n := r]> ts).
Proof.
  intros Hn (t & rt & Ht & Hd & Hh & Hmax) Hr. destruct (destroy_of i r) eqn:E.
  - exists n, r. rewrite lookup_insert_eq. split_and!; [done..|auto|]. intros t' r' H' _.
    destruct (decide (t' = n)) as [->|Hne]; [lia|]. rewrite lookup_insert_ne in H' by done. specialize (Hn _ _ H'). lia.
  - exists t, rt. rewrite lookup_insert_ne by (intros ->; specialize (Hn _ _ Ht); lia).
    split_and!; [done..|]. intros t' r' H' Hd'. destruct (decide (t' = n)) as [->|Hne].
    + rewrite lookup_insert_eq in H'. congruence.
    + rewrite lookup_insert_ne in H' by done. eauto.
Qed.

(** A row after an assignment that keeps rows. *)
Lemma alter_row f i j m (t : gmap Z pmodule) :
  alter f i t !! j = Some m ->
  exists m0, t !! j = Some m0 /\ ((j = i /\ m = f m0) \/ (j <> i /\ m = m0)).
Proof.
  destruct (decide (j = i)) as [->|Hj].
  - rewrite lookup_alter_eq. intros (m0 & H0 & ->)%fmap_Some. eauto.
  - rewrite lookup_alter_ne by done. eauto.
Qed.

Lemma queue_core orph d pd i m h :
  core orph d pd -> proj p d !! i = Some m -> no_infra (pm_status m) = false -> truthy_str h = true ->
  (forall t r, tasks d !! t = Some r -> running i r = false) ->
  (forall x mx, proj p d !! x = Some mx -> i ∈ pm_dependencies mx -> clears false mx = true) ->
  core orph (queue_destroy celery i h (Some "project") d) pd.
Proof.
  intros [Ifr Ise Ibu Ita Iun Iha Ipe Ior] Hm Hinf Hh Hno Hcl.
  pose proof (queue_proj i h (Some "project") d m Hm) as HM.
  assert (Hmod : modules d !! i = Some m) by by apply proj_Some in Hm as [? _].
  destruct (queue_tasks i h (Some "project") d m Hmod) as (r & HT & HN & Hty & Hmo & Hst & Hrh & Hsc).
  assert (Hrun : forall j, running j r = true <-> j = i).
  { intros j. rewrite running_spec. unfold active_task. rewrite Hty, Hmo, Hst. naive_solver. }
  assert (Hlook : forall t r', <[next_task d:=r]> (tasks d) !! t = Some r' ->
    (t = next_task d /\ r' = r) \/ (t <> next_task d /\ tasks d !! t = Some r')).
  { intros t r' Ht. apply lookup_insert_Some in Ht. naive_solver. }
  assert (Hha : forall j, handled j (tasks d) -> handled j (<[next_task d:=r]> (tasks d))).
  { intros j Hj. apply handled_insert; [exact Ifr|done|]. unfold in_run. by rewrite Hrh, Hsc, Hh. }
  assert (Hkeep : forall t r', tasks d !! t = Some r' -> <[next_task d:=r]> (tasks d) !! t = Some r').
  { intros t r' Ht. rewrite lookup_insert_ne; [done|]. intros <-. specialize (Ifr _ _ Ht). lia. }
  constructor; rewrite ?HM, ?HT, ?HN.
  - intros t r' [[-> ->]|[_ Ht]]%Hlook; [lia|]. specialize (Ifr _ _ Ht). lia.
  - intros j mj (m0 & H0 & [[-> ->]|[Hj ->]])%alter_row; [cbn; set_solver|eauto].
  - intros j mj (m0 & H0 & [[-> ->]|[Hj ->]])%alter_row Hd.
    + left. exists (next_task d), r. rewrite lookup_insert_eq. split; [done|]. by apply Hrun.
    + destruct (Ibu _ _ H0 Hd) as [(t & r' & Ht & Hr')|Ho]; [left|right]; eauto.
  - intros j mj t r' (m0 & H0 & Hcase)%alter_row [[-> ->]|[_ Ht]]%Hlook Hr'.
    + apply Hrun in Hr' as ->. destruct Hcase as [[_ ->]|[? _]]; [by rewrite Hsc|done].
    + destruct Hcase as [[-> ->]|[_ ->]]; [|eauto]. by rewrite (Hno _ _ Ht) in Hr'.
  - intros j mj t r1 t' r1' (m0 & H0 & _)%alter_row [[-> ->]|[_ Ht]]%Hlook [[-> ->]|[_ Ht']]%Hlook Hr Hr'; [done|..].
    + apply Hrun in Hr as ->. by rewrite (Hno _ _ Ht') in Hr'.
    + apply Hrun in Hr' as ->. by rewrite (Hno _ _ Ht) in Hr.
    + eauto.
  - intros j mj (m0 & H0 & [[-> ->]|[Hj ->]])%alter_row Hd; [|eauto].
    exists (next_task d), r. unfold in_run. rewrite lookup_insert_eq, Hrh, Hsc, Hh. split_and!; [done|by apply destroy_of_spec|done|].
    intros t' r' [[-> _]|[_ Ht]]%Hlook _; [done|]. specialize (Ifr _ _ Ht). lia.
  - intros t j (Hj & Hhj & rt & Ht & ? & ?)%Ipe. split_and!; [|auto|eauto 6].
    destruct Hj as [mj Hj]. destruct (decide (j = i)) as [->|Hne].
    + rewrite lookup_alter_eq, Hj. eauto.
    + rewrite lookup_alter_ne by done. eauto.
  - intros j mj x mx (m0 & H0 & Hcase)%alter_row Hd (mx0 & Hx & Hxcase)%alter_row Hdep.
    assert (Hdep0 : j ∈ pm_dependencies mx0) by (by destruct Hxcase as [[_ ->]|[_ ->]]).
    assert (Hold : no_infra (pm_status mx0) = true \/ is_in_cluster_module mx0 = true).
    { destruct Hcase as [[-> ->]|[_ ->]]; [apply clears_order; eauto|eauto]. }
    destruct Hxcase as [[-> ->]|[_ ->]]; [|done]. destruct Hold as [Hn|Hin]; [|by right].
    rewrite Hm in Hx. injection Hx as <-. congruence.
Qed.

(** What is owed stays owed from one state to another. *)
Lemma owed_mono (P : Z -> Prop) todo ms pd todo' ms' pd' :
  (forall i x mx, ms !! x = Some mx -> i ∈ pm_dependencies mx -> clears false mx = false ->
     owed todo' ms' pd' i) ->
  (forall i, i ∈ todo -> P i \/ owed todo' ms' pd' i) ->
  (forall i t x mx, (t, x) ∈ pd -> ms !! x = Some mx -> i ∈ pm_dependencies mx -> owed todo' ms' pd' i) ->
  (forall i x mx, ms !! x = Some mx -> i ∈ pm_dependencies mx -> pm_status mx = DESTROY_FAILED ->
     P x \/ owed todo' ms' pd' x -> owed todo' ms' pd' i) ->
  forall i, owed todo ms pd i -> P i \/ owed todo' ms' pd' i.
Proof. intros H1 H2 H3 H4 i. induction 1; eauto. Qed.

Lemma queue_covered d pd i m h sc todo :
  proj p d !! i = Some m -> covered (i :: todo) d pd -> covered todo (queue_destroy celery i h sc d) pd.
Proof.
  intros Hm Hc j mj. pose proof (queue_proj i h sc d m Hm) as HM. rewrite HM.
  set (d' := queue_destroy celery i h sc d) in *.
  intros (m0 & H0 & [[-> ->]|[Hj ->]])%alter_row Hw; [destruct Hw as (_ & Hw & _); done|].
  assert (Hnew : forall j mx, proj p d !! i = Some mx -> j ∈ pm_dependencies mx -> owed todo (proj p d') pd j).
  { intros k mx Hx Hdep. apply (owed_held _ _ _ k i (set_status DESTROYING mx)); [|done|by rewrite clears_destroying].
    by rewrite HM, lookup_alter_eq, Hx. }
  destruct (owed_mono (fun k => k = i) (i :: todo) (proj p d) pd todo (proj p d') pd) with (i := j) as [->|]; try done; eauto.
  - intros k x mx Hx Hdep Hcl. destruct (decide (x = i)) as [->|Hne]; [eauto|].
    apply (owed_held _ _ _ k x mx); [by rewrite HM, lookup_alter_ne|done..].
  - intros k Hk. apply elem_of_cons in Hk as [->|Hk]; [by left|right; by apply owed_todo].
  - intros k t x mx Ht Hx Hdep. destruct (decide (x = i)) as [->|Hne]; [eauto|].
    apply (owed_pending _ _ _ k t x mx); [done|by rewrite HM, lookup_alter_ne|done].
  - intros k x mx Hx Hdep Hs Ho. destruct (decide (x = i)) as [->|Hne]; [eauto|]. destruct Ho as [->|Ho]; [done|].
    apply (owed_retry _ _ _ k x mx); [by rewrite HM, lookup_alter_ne|done..].
  - by rewrite <- HM.
Qed.

Lemma handled_newest i ts : handled i ts -> truthy_str (newest (destroy_of i) ts ≫= run_handle) = true.
Proof.
  intros (t & r & Ht & Hd & Hh & Hmax). assert (E : newest (destroy_of i) ts = Some r).
  { apply newest_Some. exists t. auto. }
  unfold in_run in Hh. bool_hyps. by rewrite E.
Qed.

Lemma covered_weaken d pd todo i :
  (forall m, proj p d !! i = Some m -> no_infra (pm_status m) = false -> pm_status m <> DESTROYING ->
     exists x mx, proj p d !! x = Some mx /\ i ∈ pm_dependencies mx /\ clears false mx = false) ->
  covered (i :: todo) d pd -> covered todo d pd.
Proof.
  intros Hi Hc j mj Hj Hw.
  assert (Hex : forall m, proj p d !! i = Some m -> no_infra (pm_status m) = false -> pm_status m <> DESTROYING ->
    owed todo (proj p d) pd i).
  { intros m Hm H1 H2. destruct (Hi m Hm H1 H2) as (x & mx & Hx & Hdep & Hcl). by eapply owed_held. }
  destruct (owed_mono (fun k => k = i) (i :: todo) (proj p d) pd todo (proj p d) pd) with (i := j) as [->|]; try done.
  - intros. by eapply owed_held.
  - intros k Hk. apply elem_of_cons in Hk as [->|Hk]; [by left|right; by apply owed_todo].
  - intros. by eapply owed_pending.
  - intros k x mx Hx Hdep Hs Ho. eapply owed_retry; [done..|]. destruct Ho as [->|Ho]; [|done].
    eapply Hex; [done|by rewrite Hs|by rewrite Hs].
  - by eauto.
  - destruct Hw as (H1 & H2 & _). eauto.
Qed.

Lemma trigger_dep_inv orph d pd mid dep todo :
  core orph d pd -> handled mid (tasks d) -> covered (dep :: todo) d pd ->
  let d' := trigger_dep celery mid p (Some "project") false None d dep in
  core orph d' pd /\ handled mid (tasks d') /\ covered todo d' pd /\
  (forall t r, tasks d !! t = Some r -> tasks d' !! t = Some r).
Proof.
  intros Hcore Hh Hc. cbn zeta. unfold trigger_dep.
  destruct (modules d !! dep) as [m|] eqn:Hm.
  2: { split_and!; [done|done| |done]. eapply covered_weaken; [|done]. intros m [H _]%proj_Some. congruence. }
  destruct (bool_decide_reflect (pm_project m = p)) as [Hp|Hp]; cbn [negb].
  2: { split_and!; [done|done| |done]. eapply covered_weaken; [|done]. intros m' [H ?]%proj_Some. congruence. }
  assert (HM : proj p d !! dep = Some m) by by apply proj_Some.
  destruct (no_infra (pm_status m)) eqn:Hinf.
  { split_and!; [done|done| |done]. eapply covered_weaken; [|done]. intros m' H Hw _. congruence. }
  destruct (forallb _ _) eqn:Hall; cbn [negb].
  2: { split_and!; [done|done| |done]. eapply covered_weaken; [|done]. intros m' _ _ _.
       apply not_true_iff_false in Hall. rewrite forallb_forall in Hall.
       destruct (existsb (fun im => negb (clears false im.2)) (get_reverse_dependencies dep p d)) eqn:Ex.
       - apply existsb_exists in Ex as ([x mx] & Hx & Hn). apply list_elem_of_In, elem_of_dependents in Hx as [Hx Hdep].
         exists x, mx. split_and!; [done..|]. by apply negb_true_iff in Hn.
       - exfalso. apply Hall. intros [x mx] Hx. apply not_false_iff_true. intros Hn.
         apply not_true_iff_false in Ex. apply Ex, existsb_exists. exists (x, mx). split; [done|]. by rewrite Hn. }
  destruct (some_task _ d) eqn:Hs.
  - split_and!; [done|done| |done]. eapply covered_weaken; [|done]. intros m' H' _ Hd.
    apply some_task_true in Hs as (t & r & Hr & Hrun). change (running dep r = true) in Hrun.
    destruct Hcore as [_ _ _ Ita _ _ _ _]. by destruct (Ita dep m' t r H' Hr Hrun).
  - assert (Hhd := handled_newest _ _ Hh).
    change (if truthy_str (Some "project") then Some "project" else None) with (Some "project").
    split_and!.
    + eapply queue_core; try done.
      * intros t r Hr. apply not_true_iff_false. intros Hrun. apply not_true_iff_false in Hs.
        apply Hs, some_task_true. eauto.
      * intros x mx Hx Hdep. rewrite forallb_forall in Hall. apply (Hall (x, mx)), list_elem_of_In.
        by apply elem_of_dependents.
    + destruct (queue_tasks dep (newest (destroy_of mid) (tasks d) ≫= run_handle) (Some "project") d m Hm)
        as (r & -> & _ & _ & _ & _ & Hrh & Hsc).
      apply handled_insert; [by destruct Hcore|done|]. unfold in_run. by rewrite Hrh, Hsc, Hhd.
    + by eapply queue_covered.
    + destruct (queue_tasks dep (newest (destroy_of mid) (tasks d) ≫= run_handle) (Some "project") d m Hm)
        as (r & -> & _). intros t r' Ht. rewrite lookup_insert_ne; [done|]. intros <-.
      destruct Hcore as [Ifr _ _ _ _ _ _ _]. specialize (Ifr _ _ Ht). lia.
Qed.

Lemma trigger_deps_inv orph deps d pd mid :
  core orph d pd -> handled mid (tasks d) -> covered deps d pd ->
  let d' := foldl (trigger_dep celery mid p (Some "project") false None) d deps in
  core orph d' pd /\ handled mid (tasks d') /\ covered [] d' pd /\
  (forall t r, tasks d !! t = Some r -> tasks d' !! t = Some r).
Proof.
  revert d. induction deps as [|dep deps IH]; intros d Hcore Hh Hc; [done|]. cbn [foldl].
  destruct (trigger_dep_inv orph d pd mid dep deps Hcore Hh Hc) as (H1 & H2 & H3 & H4).
  destruct (IH _ H1 H2 H3) as (? & ? & ? & H5). auto 8.
Qed.

(** *** The end of a run *)

(** A row before and after the reconciliation. *)
Definition later (m m' : pmodule) : Prop :=
  pm_dependencies m' = pm_dependencies m /\ is_in_cluster_module m' = is_in_cluster_module m /\
  (pm_status m' = pm_status m \/
   (pm_status m = DESTROY_FAILED /\ pm_status m' = DESTROYED /\ is_in_cluster_module m = true)).

Lemma later_refl m : later m m.
Proof. repeat split. by left. Qed.

Lemma later_status m m' s : later m m' -> pm_status m' = s -> s <> DESTROYED -> pm_status m = s.
Proof. intros (_ & _ & [H|(_ & H & _)]); congruence. Qed.

Lemma later_no_infra m m' : later m m' -> no_infra (pm_status m) = true -> no_infra (pm_status m') = true.
Proof. intros (_ & _ & [->|(_ & -> & _)]); done. Qed.

Lemma reconciled_inv orph d d' pd :
  (forall i, option_Forall2 later (proj p d !! i) (proj p d' !! i)) ->
  tasks d' = tasks d -> next_task d' = next_task d ->
  core orph d pd -> core orph d' pd.
Proof. clear celery.
  intros Hl HT HN [Ifr Ise Ibu Ita Iun Iha Ipe Ior].
  assert (Hback : forall i m', proj p d' !! i = Some m' -> exists m, proj p d !! i = Some m /\ later m m').
  { intros i m' Hm. specialize (Hl i). rewrite Hm in Hl. inversion Hl; eauto. }
  assert (Hforth : forall i m, proj p d !! i = Some m -> exists m', proj p d' !! i = Some m' /\ later m m').
  { intros i m Hm. specialize (Hl i). rewrite Hm in Hl. inversion Hl; eauto. }
  constructor; rewrite ?HT, ?HN.
  - done.
  - intros i m' (m & Hm & (_ & _ & [->|(_ & -> & _)]))%Hback; [eauto|set_solver].
  - intros i m' (m & Hm & Hlm)%Hback Hd. eapply later_status in Hd; eauto.
  - intros i m' t r (m & Hm & Hlm)%Hback Ht Hr. destruct (Ita i m t r Hm Ht Hr) as [Hd Hs].
    split; [|done]. destruct Hlm as (_ & _ & [->|(H & _)]); congruence.
  - intros i m' t r t' r' (m & Hm & _)%Hback. eauto.
  - intros i m' (m & Hm & Hlm)%Hback Hd. eapply later_status in Hd; eauto.
  - intros t i ([m Hm] & Hr)%Ipe. split; [|done]. destruct (Hforth i m Hm) as (m' & ? & _). eauto.
  - intros i m' x mx' (m & Hm & Hlm)%Hback Hd (mx & Hx & Hlx)%Hback Hdep.
    eapply later_status in Hd; [|done|done]. pose proof Hlx as (Hdx & Hix & _). rewrite Hdx in Hdep.
    destruct (Ior i m x mx Hm Hd Hx Hdep) as [Hn|Hn]; [left; by eapply later_no_infra|right; congruence].
Qed.

Definition update_all (f : pmodule -> pmodule) (l : list (Z * pmodule)) (d : odb) : odb :=
  foldl (fun d im => update_module im.1 f d) d l.

Lemma update_all_frame f l d :
  tasks (update_all f l d) = tasks d /\ next_task (update_all f l d) = next_task d /\
  stacks (update_all f l d) = stacks d.
Proof. unfold update_all. revert d. induction l as [|im l IH]; intros d; [done|]. exact (IH (update_module im.1 f d)). Qed.

Lemma update_all_proj f l d i :
  keeps_row f -> NoDup l.*1 ->
  proj p (update_all f l d) !! i = if decide (i ∈ l.*1) then f <$> proj p d !! i else proj p d !! i.
Proof. clear celery.
  intros Hf. unfold update_all. revert d. induction l as [|[j m] l IH]; intros d Hnd; cbn.
  - by rewrite decide_False by (by intros ?%elem_of_nil).
  - apply NoDup_cons in Hnd as [Hj Hnd]. rewrite IH by done. rewrite proj_update by done.
    destruct (decide (i = j)) as [->|Hne].
    + rewrite decide_False by done. rewrite decide_True by left. by rewrite lookup_alter_eq.
    + rewrite lookup_alter_ne by done. apply decide_ext. rewrite elem_of_cons. naive_solver.
Qed.

Lemma keeps_mark suf : keeps_row (mark_destroyed suf).
Proof. by intros m. Qed.

Lemma elem_of_todo i m d :
  (i, m) ∈ filter (fun im => no_infra (pm_status im.2) = false) (project_modules p d) <->
  proj p d !! i = Some m /\ no_infra (pm_status m) = false.
Proof. clear celery. rewrite list_elem_of_filter, elem_of_project_modules. naive_solver. Qed.

Lemma detection_inv orph mid m d pd :
  core orph d pd -> covered [] d pd -> handled mid (tasks d) -> pm_project m = p ->
  let d' := (_run_terminal_detection_project mid m d).1 in
  core orph d' pd /\ covered [] d' pd /\ ended d' pd.
Proof. clear celery.
  intros Hcore Hc Hh Hp. cbn zeta. unfold _run_terminal_detection_project.
  rewrite (handled_newest _ _ Hh), Hp. cbn [negb].
  set (todo := filter (fun im => no_infra (pm_status im.2) = false) (project_modules p d)).
  destruct (all_terminal todo) eqn:Hall; cbn [negb].
  2: { split_and!; [done..|]. intros _ Hterm. exfalso. apply not_true_iff_false in Hall. apply Hall.
       apply forallb_forall. intros [i mi] Hi%list_elem_of_In. apply elem_of_todo in Hi as [Hi _]. eauto. }
  unfold all_terminal in Hall. rewrite forallb_forall in Hall.
  set (l := filter (fun im => is_in_cluster_module im.2 = true) (destroy_failed todo)).
  assert (Hfail : forall i mi, (i, mi) ∈ destroy_failed todo <-> proj p d !! i = Some mi /\ pm_status mi = DESTROY_FAILED).
  { intros i mi. unfold destroy_failed, todo. rewrite list_elem_of_filter, elem_of_todo. cbn. split; [naive_solver|].
    intros [Hi ->]. by repeat split. }
  assert (Hl : forall i mi, (i, mi) ∈ l <-> proj p d !! i = Some mi /\ pm_status mi = DESTROY_FAILED /\ is_in_cluster_module mi = true).
  { intros i mi. unfold l. rewrite list_elem_of_filter, Hfail. cbn. tauto. }
  destruct (negb (bool_decide (l = [])) && _) eqn:Hrec.
  - apply andb_true_iff in Hrec as [_ Hnon]. apply bool_decide_eq_true in Hnon.
    change (foldl _ d l) with (update_all (mark_destroyed reconciled_suffix) l d). cbn [fst].
    assert (Hnd : NoDup l.*1) by (repeat apply filter_fst_NoDup; apply select_NoDup).
    pose proof (update_all_proj (mark_destroyed reconciled_suffix) l d) as HM.
    destruct (update_all_frame (mark_destroyed reconciled_suffix) l d) as (HT & HN & _).
    assert (Hin : forall i mi, proj p d !! i = Some mi -> i ∈ l.*1 <-> pm_status mi = DESTROY_FAILED /\ is_in_cluster_module mi = true).
    { intros i mi Hi. rewrite list_elem_of_fmap. split.
      - intros ([i' m'] & -> & (H & ? & ?)%Hl). cbn in Hi. rewrite H in Hi. by injection Hi as <-.
      - intros Hs. exists (i, mi). split; [done|]. by apply Hl. }
    assert (Hcore' : core orph (update_all (mark_destroyed reconciled_suffix) l d) pd).
    { apply (reconciled_inv orph d); try done. intros i. rewrite HM by (done || apply keeps_mark). destruct (proj p d !! i) as [mi|] eqn:Hi.
      - case_decide as Hli; constructor; [|apply later_refl]. apply (Hin i mi Hi) in Hli as [Hs Hcl].
        repeat split. right. by rewrite Hs.
      - case_decide; constructor. }
    split_and!; [done|..].
    { intros i mi Hi Hw. exfalso. rewrite HM in Hi by (done || apply keeps_mark).
      destruct (proj p d !! i) as [m0|] eqn:H0; [|by case_decide].
      case_decide; [injection Hi as <-; by destruct Hw as [Hw _]|]. injection Hi as ->.
      destruct Hw as (H1 & _ & H3). assert (Hx : (i, mi) ∈ todo) by by apply elem_of_todo.
      apply list_elem_of_In, Hall, terminal_cases in Hx as [Hx|Hx]; cbn in Hx; congruence. }
    intros _ _ Hcl i mi Hi Hs. rewrite HM in Hi by (done || apply keeps_mark).
    destruct (proj p d !! i) as [m0|] eqn:H0; [|by case_decide].
    case_decide as Hli; [by injection Hi as <-|]. injection Hi as ->. apply Hli, (Hin i mi H0). split; [done|].
    apply not_false_iff_true. intros Hcf.
    assert (Hbad : (i, mi) ∈ filter (fun im => is_in_cluster_module im.2 = false) (destroy_failed todo)).
    { apply list_elem_of_filter. split; [done|]. by apply Hfail. }
    rewrite Hnon in Hbad. by apply elem_of_nil in Hbad.
  - assert (Hd : forall v : odb * verdict, v.1 = d -> core orph v.1 pd /\ covered [] v.1 pd /\ ended v.1 pd).
    { intros v ->. split_and!; [done..|]. intros _ _ Hcl i mi Hi Hs.
      apply not_true_iff_false in Hrec. apply Hrec, andb_true_iff. split.
      - apply negb_true_iff, bool_decide_eq_false. intros E.
        assert (Hx : (i, mi) ∈ l) by (apply Hl; eauto). rewrite E in Hx. by apply elem_of_nil in Hx.
      - apply bool_decide_eq_true, elem_of_nil_inv. intros [j mj] Hj.
        apply list_elem_of_filter in Hj as [Hcf Hj]. apply Hfail in Hj as [Hj Hsj]. cbn in Hcf.
        specialize (Hcl j mj Hj Hsj). congruence. }
    apply Hd. by destruct (destroy_failed todo).
Qed.

(** *** The steps *)

Lemma recover_project d i m : pm_project (recover_progress d i m) = pm_project m.
Proof.
  unfold recover_progress. destruct (_ && _); [|done]. destruct (newest _ _) as [t|]; [|done].
  by destruct (t_status t), (pm_status m).
Qed.

Lemma recover_progress_id d pd i m : core [] d pd -> proj p d !! i = Some m -> recover_progress d i m = m.
Proof. clear celery.
  intros Hcore Hm. unfold recover_progress.
  destruct (transitional (pm_status m)) eqn:Ht; [|done]. cbn [andb].
  apply bool_decide_eq_true in Ht. destruct Hcore as [_ Ise Ibu _ _ _ _ _]. specialize (Ise i m Hm).
  assert (Hd : pm_status m = DESTROYING) by (destruct (pm_status m); set_solver).
  destruct (Ibu i m Hm Hd) as [(t & r & Hr & Hrun)|[]%elem_of_nil]. apply running_spec in Hrun as (Hmo & _ & Hac).
  assert (Hs : some_task (fun t => of_module i t && active_task t) d = true).
  { apply some_task_true. exists t, r. split; [done|]. unfold of_module. rewrite Hmo, bool_decide_true; done. }
  by rewrite Hs.
Qed.

Lemma progress_frame d pd s :
  core [] d pd -> proj p (update_stack_progress s d) = proj p d /\
    tasks (update_stack_progress s d) = tasks d /\ next_task (update_stack_progress s d) = next_task d.
Proof.
  intros Hcore. unfold update_stack_progress. destruct (stacks d !! s) as [st|]; [|done].
  destruct (select _ _) as [|x l]; [by destruct (bool_decide _)|]. split; [|done].
  apply map_eq. intros i. apply option_eq. intros m. rewrite !proj_Some. cbn. rewrite map_lookup_imap.
  destruct (modules d !! i) as [m0|] eqn:H0; cbn; [|done].
  assert (Hrec : pm_project m0 = p -> recover_progress d i m0 = m0).
  { intros Hp. eapply recover_progress_id; [done|]. by apply proj_Some. }
  destruct (in_stack s m0); [|done]. split; intros [[= <-] Hp]; rewrite ?recover_project in *.
  - by rewrite Hrec.
  - by rewrite Hrec.
Qed.

(** An assignment to columns of a task other than its kind and its run. *)
Definition keeps_task (f : task -> task) : Prop :=
  forall r, t_type (f r) = t_type r /\ t_module (f r) = t_module r /\ run_handle (f r) = run_handle r /\
    destroy_scope (f r) = destroy_scope r.

Lemma keeps_destroy_of f i r : keeps_task f -> destroy_of i (f r) = destroy_of i r.
Proof. intros Hf. destruct (Hf r) as (Ht & Hm & _). unfold destroy_of, of_module. by rewrite Ht, Hm. Qed.

Lemma alter_task f t u r (ts : gmap Z task) :
  alter f t ts !! u = Some r -> exists r0, ts !! u = Some r0 /\ ((u = t /\ r = f r0) \/ (u <> t /\ r = r0)).
Proof.
  destruct (decide (u = t)) as [->|Hu].
  - rewrite lookup_alter_eq. intros (r0 & H0 & ->)%fmap_Some. eauto.
  - rewrite lookup_alter_ne by done. eauto.
Qed.

Lemma handled_alter f t i ts : keeps_task f -> handled i ts -> handled i (alter f t ts).
Proof.
  intros Hf (u & r & Hu & Hd & Hh & Hmax). exists u.
  assert (Hnew : exists r', alter f t ts !! u = Some r' /\ destroy_of i r' = true /\ in_run r' = true).
  { destruct (decide (u = t)) as [->|Hne].
    - exists (f r). rewrite lookup_alter_eq, Hu. destruct (Hf r) as (_ & _ & Hrh & Hsc).
      unfold in_run. rewrite keeps_destroy_of, Hrh, Hsc by done. done.
    - exists r. by rewrite lookup_alter_ne. }
  destruct Hnew as (r' & Hr' & Hd' & Hh'). exists r'. split_and!; [done..|].
  intros u' r'' (r0 & H0 & [[-> ->]|[_ ->]])%alter_task Hd''; [rewrite keeps_destroy_of in Hd'' by done|]; eauto.
Qed.

Lemma start_inv d pd t r mid :
  tasks d !! t = Some r -> running mid r = true ->
  run_inv {| wdb := d; pending := pd |} -> run_inv {| wdb := start_task t d; pending := pd |}.
Proof.
  unfold run_inv. cbn [wdb pending]. intros Ht Hrun ([Ifr Ise Ibu Ita Iun Iha Ipe Ior] & Hc & He).
  unfold start_task. set (f := fun r => set_task_status T_IN_PROGRESS (t_error r) r).
  assert (Hf : keeps_task f) by by intros.
  assert (Hrf : forall i r, running i r = true -> running i (f r) = true).
  { intros i r' (H1 & H2 & _)%running_spec. by apply running_spec. }
  assert (Hold : forall i u r', alter f t (tasks d) !! u = Some r' -> running i r' = true ->
    exists r0, tasks d !! u = Some r0 /\ running i r0 = true /\ destroy_scope r' = destroy_scope r0).
  { intros i u r' (r0 & H0 & [[-> ->]|[_ ->]])%alter_task Hr'; [|eauto].
    rewrite Ht in H0. injection H0 as <-. exists r. split_and!; [done| |done].
    apply running_spec in Hr' as (H1 & _). apply running_spec in Hrun as (H1' & ? & ?).
    apply running_spec. cbn in H1. done. }
  split; [constructor|split; [exact Hc|exact He]]; cbn.
  - intros u r' (r0 & H0 & _)%alter_task. eauto.
  - done.
  - intros i m Hm Hd. destruct (Ibu i m Hm Hd) as [(u & r0 & Hu & Hr0)|[]%elem_of_nil]. left. exists u.
    destruct (decide (u = t)) as [->|Hne].
    + exists (f r0). rewrite lookup_alter_eq, Hu. auto.
    + exists r0. by rewrite lookup_alter_ne.
  - intros i m u r' Hm Hu Hr'. destruct (Hold i u r' Hu Hr') as (r0 & H0 & Hr0 & ->). eauto.
  - intros i m u r1 u' r1' Hm Hu Hu' H1 H1'.
    destruct (Hold i u r1 Hu H1) as (r0 & H0 & Hr0 & _), (Hold i u' r1' Hu' H1') as (r0' & H0' & Hr0' & _). eauto.
  - intros i m Hm Hd. apply handled_alter; eauto.
  - intros u i (H1 & H2 & r0 & H0 & H3 & H4)%Ipe. split_and!; [done|by apply handled_alter|].
    destruct (decide (u = t)) as [->|Hne].
    + exists (f r0). by rewrite lookup_alter_eq, H0.
    + exists r0. by rewrite lookup_alter_ne.
  - exact Ior.
Qed.

(** What a commit assigns: the task [t] ends, the module's destroy has ended. *)
Lemma commit_shape t mid failure d :
  exists f g, commit_destroy t mid failure d = update_module mid g (update_task t f d) /\
    keeps_task f /\ keeps_row g /\ (forall r, active_task (f r) = false) /\
    (forall m, pm_status (g m) = DESTROYED \/ pm_status (g m) = DESTROY_FAILED).
Proof.
  destruct failure as [e|]; cbn; eexists _, _; (split; [reflexivity|]); repeat split; auto.
Qed.

Lemma commit_inv d pd t r mid failure :
  tasks d !! t = Some r -> running mid r = true -> is_Some (proj p d !! mid) ->
  run_inv {| wdb := d; pending := pd |} ->
  run_inv {| wdb := commit_destroy t mid failure d; pending := (t, mid) :: pd |}.
Proof. clear celery.
  unfold run_inv. cbn [wdb pending]. intros Ht Hrun [m Hm] ([Ifr Ise Ibu Ita Iun Iha Ipe Ior] & Hc & _).
  destruct (commit_shape t mid failure d) as (f & g & -> & Hf & Hg & Hend & Hst).
  destruct (Ita mid m t r Hm Ht Hrun) as [Hdes Hsc].
  pose proof (proj_update p mid g (update_task t f d) Hg) as HM.
  change (proj p (update_task t f d)) with (proj p d) in HM.
  assert (Hold : forall i u r', alter f t (tasks d) !! u = Some r' -> running i r' = true ->
    u <> t /\ tasks d !! u = Some r').
  { intros i u r' (r0 & H0 & [[-> ->]|[? ->]])%alter_task Hr'; [|done].
    apply running_spec in Hr' as (_ & _ & Hr'). by rewrite Hend in Hr'. }
  assert (Hg_wait : forall m, ~ waits (pm_status (g m)) /\ pm_status (g m) <> DESTROYING).
  { intros m0. unfold waits. destruct (Hst m0) as [->| ->]; split; try done; intros (H & _ & ?); [by vm_compute in H|done]. }
  split; [constructor|split; [|done]]; rewrite ?HM; cbn.
  - intros u r' (r0 & H0 & _)%alter_task. eauto.
  - intros i mi (m0 & H0 & [[-> ->]|[_ ->]])%alter_row; [|eauto]. destruct (Hst m0) as [->| ->]; set_solver.
  - intros i mi (m0 & H0 & [[-> ->]|[Hi ->]])%alter_row Hd; [by destruct (Hg_wait m0)|].
    destruct (Ibu i m0 H0 Hd) as [(u & r0 & Hu & Hr0)|[]%elem_of_nil]. left. exists u, r0. split; [|done].
    rewrite lookup_alter_ne; [done|]. intros <-. rewrite Ht in Hu. injection Hu as <-.
    apply running_spec in Hrun as (Hmo & _). apply running_spec in Hr0 as (Hmo' & _). congruence.
  - intros i mi u r' (m0 & H0 & [[-> ->]|[_ ->]])%alter_row Hu Hr'; destruct (Hold _ u r' Hu Hr') as [Hne Hu']; [|eauto].
    exfalso. apply Hne. eauto.
  - intros i mi u r1 u' r1' (m0 & H0 & _)%alter_row Hu Hu' H1 H1'.
    destruct (Hold i u r1 Hu H1), (Hold i u' r1' Hu' H1'). eauto.
  - intros i mi (m0 & H0 & [[-> ->]|[Hi ->]])%alter_row Hd; [by destruct (Hg_wait m0)|]. apply handled_alter; eauto.
  - intros u i Hin.
    assert (Hex : is_Some (proj p d !! i) -> is_Some (alter g mid (proj p d) !! i)).
    { intros [mi Hi]. destruct (decide (i = mid)) as [->|Hne];
        [rewrite lookup_alter_eq, Hi; eauto|rewrite lookup_alter_ne by done; eauto]. }
    apply elem_of_cons in Hin as [[= -> ->]|Hin].
    + split_and!; [eauto|apply handled_alter; eauto|]. exists (f r). rewrite lookup_alter_eq, Ht.
      destruct (Hf r) as (-> & _ & _ & ->). apply running_spec in Hrun. by intuition.
    + destruct (Ipe u i Hin) as (H1 & H2 & r0 & H0 & H3 & H4). split_and!; [auto|by apply handled_alter|].
      destruct (decide (u = t)) as [->|Hne].
      * exists (f r0). rewrite lookup_alter_eq, H0. destruct (Hf r0) as (-> & _ & _ & ->). done.
      * exists r0. by rewrite lookup_alter_ne.
  - intros i mi x mx (m0 & H0 & [[-> ->]|[Hi ->]])%alter_row Hd Hx Hdep; [by destruct (Hg_wait m0)|].
    apply alter_row in Hx as (mx0 & Hx & [[-> ->]|[_ ->]]); [|eauto].
    destruct (Hg mx0) as (_ & Hdx & Hcx). rewrite Hdx in Hdep. rewrite Hcx. right.
    destruct (Ior i m0 mid mx0 H0 Hd Hx Hdep) as [Hn|Hn]; [|done].
    rewrite Hm in Hx. injection Hx as <-. rewrite Hdes in Hn. by vm_compute in Hn.
  - intros i mi Hi Hw. rewrite HM in Hi. apply alter_row in Hi as (m0 & H0 & [[-> ->]|[Hi ->]]); [by destruct (Hg_wait m0)|].
    set (d' := update_module mid g (update_task t f d)) in *.
    assert (Hnew : forall j mx, proj p d !! mid = Some mx -> j ∈ pm_dependencies mx -> owed [] (proj p d') ((t, mid) :: pd) j).
    { intros j mx Hx Hdep. destruct (Hg mx) as (_ & Hdx & _).
      apply (owed_pending _ _ _ j t mid (g mx)); [by left|by rewrite HM, lookup_alter_eq, Hx|by rewrite Hdx]. }
    destruct (owed_mono (fun _ => False) [] (proj p d) pd [] (proj p d') ((t, mid) :: pd)) with (i := i); try done; eauto.
    + intros k x mx Hx Hdep Hcl. destruct (decide (x = mid)) as [->|Hne]; [eauto|].
      apply (owed_held _ _ _ k x mx); [by rewrite HM, lookup_alter_ne|done..].
    + intros k Hk. by apply elem_of_nil in Hk.
    + intros k u x mx Hu Hx Hdep. destruct (decide (x = mid)) as [->|Hne]; [eauto|].
      apply (owed_pending _ _ _ k u x mx); [by right|by rewrite HM, lookup_alter_ne|done].
    + intros k x mx Hx Hdep Hs [[]|Ho]. destruct (decide (x = mid)) as [->|Hne]; [eauto|].
      apply (owed_retry _ _ _ k x mx); [by rewrite HM, lookup_alter_ne|done..].
Qed.

(** *** The first wave *)

(** A project nothing is under way in. *)
Record ready (d : odb) : Prop := {
  ready_fresh t r : tasks d !! t = Some r -> t < next_task d;
  ready_settled i m : proj p d !! i = Some m -> transitional (pm_status m) = false;
  ready_idle i m t r : proj p d !! i = Some m -> tasks d !! t = Some r -> running i r = false
}.

Definition shape (d : odb) : gmap Z (list Z) := pm_dependencies <$> proj p d.

(** Dependencies go down in rank. *)
Definition ranked (rank : Z -> nat) (d : odb) : Prop :=
  forall i ds j, shape d !! i = Some ds -> j ∈ ds -> (rank j < rank i)%nat.

Lemma ready_core d : ready d -> core [] d [].
Proof.
  intros [Hf Hs Hi]. constructor; try done.
  - intros i m Hm. by apply not_transitional, (Hs i m).
  - intros i m Hm Hd. by apply Hs, not_transitional in Hm as [_ ?].
  - intros i m t r Hm Ht Hr. by rewrite (Hi i m t r) in Hr.
  - intros i m t r t' r' Hm Ht _ Hr. by rewrite (Hi i m t r) in Hr.
  - intros i m Hm Hd. by apply Hs, not_transitional in Hm as [_ ?].
  - intros t i Hin. by apply elem_of_nil in Hin.
  - intros i m x mx Hm Hd. by apply Hs, not_transitional in Hm as [_ ?].
Qed.

Lemma force_proj d :
  proj p (force_pass p d) = (fun m => if negb (no_infra (pm_status m)) && is_in_cluster_module m
                                      then mark_destroyed forced_suffix m else m) <$> proj p d.
Proof.
  apply map_eq. intros i. apply option_eq. intros m. rewrite proj_Some, lookup_fmap. unfold force_pass. cbn.
  rewrite lookup_fmap. split.
  - intros [(m0 & H0 & ->)%fmap_Some Hp]. destruct (bool_decide_reflect (pm_project m0 = p)) as [Hq|Hq]; cbn in *; [|done].
    apply fmap_Some. exists m0. split; [by apply proj_Some|done].
  - intros (m0 & [H0 Hq]%proj_Some & ->)%fmap_Some. rewrite H0. cbn. rewrite bool_decide_true by done. cbn.
    by destruct (negb _ && _).
Qed.

Lemma force_ready d : ready d -> ready (force_pass p d).
Proof.
  intros [Hf Hs Hi]. constructor; [exact Hf|..].
  - intros i m. rewrite force_proj, lookup_fmap. intros (m0 & H0 & ->)%fmap_Some.
    destruct (negb _ && _); [done|eauto].
  - intros i m t r. rewrite force_proj, lookup_fmap. intros (m0 & H0 & _)%fmap_Some. eauto.
Qed.

Record wave_inv (l : list Z) (d : odb) : Prop := {
  wave_core : core [] d [];
  wave_ids i : i ∈ l -> exists m, proj p d !! i = Some m /\ pm_status m <> DESTROYING;
  wave_held i m : proj p d !! i = Some m -> no_infra (pm_status m) = false ->
    pm_status m = DESTROYING \/ i ∈ l \/
    exists x mx, proj p d !! x = Some mx /\ i ∈ pm_dependencies mx /\ no_infra (pm_status mx) = false
}.

Lemma first_wave_inv h i l d first :
  truthy_str h = true -> i ∉ l -> wave_inv (i :: l) d -> wave_inv l (first_wave_module celery h (d, first) i).1.
Proof.
  intros Hh Hil [Hcore Hids Hheld].
  destruct (Hids i) as (m & Hm & Hst); [by left|].
  pose proof Hm as Hmp. apply proj_Some in Hmp as [Hmod Hp]. unfold first_wave_module. rewrite Hmod.
  assert (Hskip : (no_infra (pm_status m) = false -> exists x mx, proj p d !! x = Some mx /\ i ∈ pm_dependencies mx /\
    no_infra (pm_status mx) = false) -> wave_inv l d).
  { intros Hx. constructor; [done|intros j Hj; apply Hids; by right|].
    intros j mj Hj Hn. destruct (Hheld j mj Hj Hn) as [H|[H|H]]; [by left| |by right; right].
    apply elem_of_cons in H as [->|H]; [|by right; left]. right; right.
    rewrite Hm in Hj. injection Hj as ->. auto. }
  destruct (no_infra (pm_status m)) eqn:Hn; [by apply Hskip|]. rewrite Hp.
  destruct (forallb _ _) eqn:Hall; cbn [negb].
  2: { apply Hskip. intros _. apply not_true_iff_false in Hall. rewrite forallb_forall in Hall.
       destruct (existsb (fun im => negb (no_infra (pm_status im.2))) (get_reverse_dependencies i p d)) eqn:Ex.
       - apply existsb_exists in Ex as ([x mx] & Hx & Hxn). apply list_elem_of_In, elem_of_dependents in Hx as [Hx Hdep].
         exists x, mx. split_and!; [done..|]. by apply negb_true_iff in Hxn.
       - exfalso. apply Hall. intros [x mx] Hx. apply not_false_iff_true. intros Hxn.
         apply not_true_iff_false in Ex. apply Ex, existsb_exists. exists (x, mx). split; [done|]. by rewrite Hxn. }
  assert (Hno : forall t r, tasks d !! t = Some r -> running i r = false).
  { intros t r Hr. apply not_true_iff_false. intros Hrun. apply Hst. by eapply (inv_tasks _ _ _ Hcore). }
  destruct (select _ (tasks d)) as [|[t r] ts] eqn:Hsel.
  2: { exfalso. assert (Hin : (t, r) ∈ select (fun _ t => destroy_of i t && active_task t) (tasks d)) by (rewrite Hsel; left).
       apply elem_of_select in Hin as [Hr Hrun]. specialize (Hno t r Hr). unfold running in Hno. congruence. }
  cbn [fst]. rewrite forallb_forall in Hall.
  assert (Hleaf : forall x mx, proj p d !! x = Some mx -> i ∈ pm_dependencies mx -> no_infra (pm_status mx) = true).
  { intros x mx Hx Hdep. apply (Hall (x, mx)), list_elem_of_In. by apply elem_of_dependents. }
  constructor.
  - eapply queue_core; try done. intros x mx Hx Hdep. unfold clears. by rewrite (Hleaf x mx).
  - intros j Hj. destruct (Hids j) as (mj & Hmj & ?); [by right|]. exists mj. rewrite (queue_proj _ _ _ _ m) by done.
    rewrite lookup_alter_ne by (intros <-; done). done.
  - intros j mj. rewrite (queue_proj _ _ _ _ m) by done.
    intros (m0 & H0 & [[-> ->]|[Hj ->]])%alter_row Hjn; [by left|].
    destruct (Hheld j m0 H0 Hjn) as [H|[H|(x & mx & Hx & Hdep & Hxn)]]; [by left| |].
    + apply elem_of_cons in H as [->|H]; [done|by right; left].
    + right; right. exists x, (if decide (x = i) then set_status DESTROYING mx else mx).
      destruct (decide (x = i)) as [->|Hne]; [by rewrite lookup_alter_eq, Hx|by rewrite lookup_alter_ne].
Qed.

Lemma waves_inv h l d first :
  truthy_str h = true -> NoDup l -> wave_inv l d ->
  wave_inv [] (foldl (first_wave_module celery h) (d, first) l).1.
Proof.
  intros Hh. revert d first. induction l as [|i l IH]; intros d first Hnd Hw; [done|].
  apply NoDup_cons in Hnd as [Hi Hnd]. cbn [foldl].
  pose proof (first_wave_inv h i l d first Hh Hi Hw) as Hw'.
  destruct (first_wave_module celery h (d, first) i) as [d' first']. auto.
Qed.
(** What a worker of the project triggers. *)
Lemma progress_frame' d pd mid :
  core [] d pd -> let d1 := _update_stack_status mid d in
  proj p d1 = proj p d /\ tasks d1 = tasks d /\ next_task d1 = next_task d.
Proof.
  intros Hcore. cbn zeta. unfold _update_stack_status. destruct (modules d !! mid ≫= pm_stack); [|done].
  by eapply progress_frame.
Qed.

Definition chained (mid : Z) (m : pmodule) (d : odb) : odb :=
  foldl (trigger_dep celery mid p (Some "project") false None) (_update_stack_status mid d) (pm_dependencies m).

(** The trigger of a module whose destroy belongs to the project. *)
Lemma trigger_project mid tid m d :
  modules d !! mid = Some m -> pm_project m = p ->
  let d' := foldl (trigger_dep celery mid p (Some "project") false None) d (pm_dependencies m) in
  _destroy_scope_for mid tid d = Some "project" -> _destroy_scope_for mid tid d' = Some "project" ->
  _trigger_next_destroy_module celery mid tid d = _run_terminal_detection_project mid m d'.
Proof.
  intros Hm Hp d' H1 H2. unfold _trigger_next_destroy_module. rewrite Hm, H1. cbn [is_scope].
  change (String.eqb "project" "module") with false.
  change (String.eqb "project" "project") with true. cbn [negb andb]. cbn iota. rewrite Hp. fold d'.
  unfold _run_terminal_detection. rewrite H2.
  change (String.eqb "project" "module") with false. change (String.eqb "project" "project") with true. done.
Qed.

Lemma trigger_form d pd t mid m r :
  core [] d pd -> proj p d !! mid = Some m -> tasks d !! t = Some r ->
  t_type r = Tdestroy -> destroy_scope r = Some "project" ->
  tasks (chained mid m d) !! t = Some r ->
  after_destroy celery t mid d = _run_terminal_detection_project mid m (chained mid m d).
Proof.
  intros Hcore Hm Hr Hty Hsc Hr2. destruct (progress_frame' d pd mid Hcore) as (HM & HT & _).
  unfold chained in *. pose proof Hm as Hmp. apply proj_Some in Hmp as [Hmod Hp].
  unfold after_destroy. set (d1 := _update_stack_status mid d) in *.
  assert (Hscope : forall d2, tasks d2 !! t = Some r -> _destroy_scope_for mid (Some t) d2 = Some "project").
  { intros d2 H2. unfold _destroy_scope_for. rewrite H2. cbn.
    destruct (bool_decide_reflect (t_type r = Tdestroy)) as [_|H]; [|done]. cbn. by rewrite Hsc. }
  apply trigger_project; [|done|apply Hscope; by rewrite HT|by apply Hscope].
  eapply proj_Some. rewrite HM. exact Hm.
Qed.

Lemma chained_inv d pd t mid m pd' :
  pd ≡ₚ (t, mid) :: pd' -> core [] d pd -> covered [] d pd -> proj p d !! mid = Some m ->
  let d' := chained mid m d in
  core [] d' pd' /\ handled mid (tasks d') /\ covered [] d' pd' /\
  (forall t r, tasks d !! t = Some r -> tasks d' !! t = Some r).
Proof.
  intros Hpd Hcore Hc Hm. cbn zeta.
  destruct (inv_pending _ _ _ Hcore t mid) as (_ & Hh & _); [rewrite Hpd; by left|].
  destruct (progress_frame' d pd mid Hcore) as (HM & HT & HN).
  unfold chained. set (d1 := _update_stack_status mid d) in *. rewrite <- HT.
  apply trigger_deps_inv.
  - destruct Hcore as [Ifr Ise Ibu Ita Iun Iha Ipe Ior]. constructor; rewrite ?HM, ?HT, ?HN; eauto.
    intros u i Hin. apply Ipe. rewrite Hpd. by right.
  - by rewrite HT.
  - intros i mi Hi Hw. rewrite HM in Hi.
    destruct (owed_mono (fun _ => False) [] (proj p d) pd (pm_dependencies m) (proj p d1) pd') with (i := i); try done; eauto.
    + intros k x mx Hx Hdep Hcl. apply (owed_held _ _ _ k x mx); [by rewrite HM|done..].
    + intros k Hk. by apply elem_of_nil in Hk.
    + intros k u x mx Hu Hx Hdep. rewrite Hpd in Hu. apply elem_of_cons in Hu as [[= -> ->]|Hu].
      * rewrite Hm in Hx. injection Hx as <-. by apply owed_todo.
      * apply (owed_pending _ _ _ k u x mx); [done|by rewrite HM|done].
    + intros k x mx Hx Hdep Hs [[]|Ho]. apply (owed_retry _ _ _ k x mx); [by rewrite HM|done..].
Qed.

Lemma trigger_is_chained d pd t mid pd' :
  pd ≡ₚ (t, mid) :: pd' -> core [] d pd -> covered [] d pd ->
  exists m, proj p d !! mid = Some m /\
    after_destroy celery t mid d = _run_terminal_detection_project mid m (chained mid m d).
Proof.
  intros Hpd Hcore Hc.
  destruct (inv_pending _ _ _ Hcore t mid) as ([m Hm] & _ & r & Hr & Hty & Hsc); [rewrite Hpd; by left|].
  exists m. split; [done|]. eapply trigger_form; try done.
  by eapply (chained_inv d pd t mid m pd').
Qed.

Lemma trigger_inv d pd t mid pd' :
  pd ≡ₚ (t, mid) :: pd' -> run_inv {| wdb := d; pending := pd |} ->
  run_inv {| wdb := (after_destroy celery t mid d).1; pending := pd' |}.
Proof.
  unfold run_inv. cbn [wdb pending]. intros Hpd (Hcore & Hc & _).
  destruct (trigger_is_chained d pd t mid pd' Hpd Hcore Hc) as (m & Hm & ->).
  destruct (chained_inv d pd t mid m pd' Hpd Hcore Hc Hm) as (H1 & H2 & H3 & _).
  apply detection_inv; try done. by apply proj_Some in Hm as [_ ?].
Qed.

Lemma wstep_inv w w' : wstep w w' -> run_inv w -> run_inv w'.
Proof.
  intros H Hi. destruct H.
  - by eapply start_inv.
  - by eapply commit_inv.
  - by eapply trigger_inv.
Qed.
(** *** The dependencies stay as they are *)

Lemma shape_update i f d : keeps_row f -> shape (update_module i f d) = shape d.
Proof.
  intros Hf. unfold shape. rewrite proj_update by done. apply map_eq. intros j. rewrite !lookup_fmap.
  destruct (decide (j = i)) as [->|Hj]; [|by rewrite lookup_alter_ne].
  rewrite lookup_alter_eq. destruct (proj p d !! i) as [m|]; [|done]. cbn. by destruct (Hf m) as (_ & -> & _).
Qed.

Lemma shape_queue i h sc d : shape (queue_destroy celery i h sc d) = shape d.
Proof.
  unfold queue_destroy. destruct (modules d !! i) as [m|]; [|done].
  etransitivity; [|apply (shape_update i (set_status DESTROYING)), keeps_status]. done.
Qed.

Lemma shape_trigger mid sc st ids d dep : shape (trigger_dep celery mid p sc st ids d dep) = shape d.
Proof. unfold trigger_dep. repeat case_match; done || apply shape_queue. Qed.

Lemma shape_triggers mid sc st ids d deps :
  shape (foldl (trigger_dep celery mid p sc st ids) d deps) = shape d.
Proof.
  revert d. induction deps as [|x deps IH]; intros d; [done|]. cbn [foldl]. rewrite IH. apply shape_trigger.
Qed.

Lemma shape_force d : shape (force_pass p d) = shape d.
Proof.
  unfold shape. rewrite force_proj, <- map_fmap_compose. apply map_fmap_ext. intros i m _.
  cbn. by destruct (negb _ && _).
Qed.

Lemma shape_wave h l d first : shape (foldl (first_wave_module celery h) (d, first) l).1 = shape d.
Proof.
  revert d first. induction l as [|i l IH]; intros d first; [done|]. cbn [foldl].
  assert (H : shape (first_wave_module celery h (d, first) i).1 = shape d).
  { unfold first_wave_module. repeat case_match; done || apply shape_queue. }
  destruct (first_wave_module celery h (d, first) i) as [d' first']. rewrite IH. exact H.
Qed.

Lemma shape_detection mid m d : pm_project m = p -> shape (_run_terminal_detection_project mid m d).1 = shape d.
Proof.
  intros Hp. unfold _run_terminal_detection_project, _run_terminal_detection_project_legacy.
  repeat case_match; try done. cbn [fst].
  match goal with |- shape (foldl _ d ?l) = _ => generalize l end. clear. intros l. revert d.
  induction l as [|x l IH]; intros d; [done|]. cbn [foldl]. rewrite IH. apply shape_update, keeps_mark.
Qed.

End runs.
