(* ===== verification/Janitor.v ===== *)
(** * The execution janitor (services/execution_janitor.py)

    Marks the tasks whose worker is gone as failed, gets their modules out of
    the states only a worker leaves, and goes on with the destroys they were
    part of.  [live] is the set of the workers' active Celery ids as Redis has
    it; a Redis that cannot be reached is the empty set. *)

From S2P Require Import Prelude Texts ModuleState Orchestration DestroyChain DestroyRun.

#[local] Open Scope string_scope.
#[local] Open Scope list_scope.
#[local] Open Scope Z_scope.
#[local] Set Default Proof Using "Type".

Definition worker_lost : string := "Worker no longer alive — reset by stale-execution janitor".
Definition destroy_lost : string :=
  "Destroy orchestrator terminated unexpectedly — recovered by stale-destroy janitor".

(** [e or msg] *)
Definition or_message (e : option string) (msg : string) : option string := or_else e (Some msg).

Definition _TRANSIENT_TO_FAILED (s : ModuleStatus) : option ModuleStatus :=
  match s with
  | INITIALIZING => Some INIT_FAILED
  | PLANNING => Some PLAN_FAILED
  | APPLYING => Some APPLY_FAILED
  | _ => None
  end.

Definition fail_task (r : task) : task := set_task_status T_FAILED (or_message (t_error r) worker_lost) r.

Definition reset_module (m : pmodule) : pmodule :=
  match _TRANSIENT_TO_FAILED (pm_status m) with
  | Some failed => set_error (or_message (deployment_error m) worker_lost) (set_status failed m)
  | None => m
  end.

Definition fail_destroying (m : pmodule) : pmodule :=
  if bool_decide (pm_status m = DESTROYING)
  then set_error (or_message (deployment_error m) worker_lost) (set_status DESTROY_FAILED m) else m.

(** The keys of a dict filled in this order. *)
Definition dict_keys (l : list Z) : list Z := reverse (remove_dups (reverse l)).

Definition alive (live : list string) (r : task) : bool :=
  match celery_task_id r with
  | Some c => negb (String.eqb c "") && bool_decide (c ∈ live)
  | None => false
  end.

(** [row.module]: the module's row, if there is one. *)
Definition module_of (d : odb) (r : task) : option Z := i ← t_module r; _ ← modules d !! i; Some i.

Section janitor.
Context {SO : SetOrder Z} (celery : Z -> string) (live : list string).

Definition dead_tasks (d : odb) : list (Z * task) :=
  filter (fun tr => alive live tr.2 = false) (select (fun _ r => active_task r) (tasks d)).

Definition to_redrive (d : odb) (rows : list (Z * task)) : list Z :=
  dict_keys (omap (fun tr => if bool_decide (t_type tr.2 = Tdestroy) then module_of d tr.2 else None) rows).
Definition to_reset (d : odb) (rows : list (Z * task)) : list Z :=
  dict_keys (omap (fun tr => if bool_decide (t_type tr.2 = Tdestroy) then None else module_of d tr.2) rows).

Definition fail_tasks (d : odb) (rows : list (Z * task)) : odb :=
  foldl (fun d tr => update_task tr.1 fail_task d) d rows.
Definition reset_modules (d : odb) (ids : list Z) : odb := foldl (fun d i => update_module i reset_module d) d ids.

Definition redrive (d : odb) (i : Z) : odb :=
  (_trigger_next_destroy_module celery i None (update_module i fail_destroying d)).1.

Definition reset_stale_tasks (d : odb) : odb * list Z :=
  let rows := dead_tasks d in
  let d' := reset_modules (fail_tasks d rows) (to_reset d rows) in
  (foldl redrive d' (to_redrive d rows), rows.*1).

(** *** Stacks *)

Definition stuck (d : odb) (s : Z) (st : stack) : bool :=
  let scope_ids := deployed_modules s d in
  let rows := select (fun _ r => bool_decide (t_project r = s_project st) && bool_decide (t_type r = Tdestroy) &&
                active_task r && match t_module r with Some i => bool_decide (i ∈ scope_ids) | None => false end) (tasks d) in
  forallb (fun tr => negb (alive live tr.2)) rows.

Definition reset_stale_destroys (d : odb) : odb * list Z :=
  let rows := filter (fun ss => stuck d ss.1 ss.2 = true)
                (select (fun _ st => bool_decide (s_status st = S_DESTROYING)) (stacks d)) in
  (foldl (fun d ss => update_stack ss.1 (fun st =>
      set_stack_error (or_message (s_error st) destroy_lost) (set_stack_status S_FAILED st)) d) d rows, rows.*1).

Definition reset_stale_executions (d : odb) : odb * (list Z * list Z) :=
  let '(d1, tasks_reset) := reset_stale_tasks d in
  let '(d2, stacks_reset) := reset_stale_destroys d1 in
  (d2, (tasks_reset, stacks_reset)).
End janitor.

Lemma elem_of_dict_keys i l : i ∈ dict_keys l <-> i ∈ l.
Proof. unfold dict_keys. by rewrite elem_of_reverse, elem_of_remove_dups, elem_of_reverse. Qed.

Lemma NoDup_dict_keys l : NoDup (dict_keys l).
Proof. unfold dict_keys. rewrite reverse_Permutation. apply NoDup_remove_dups. Qed.

(** ** Destroys the janitor goes on with *)

Section sweep.
Context {SO : SetOrder Z} (celery : Z -> string) (p : Z).

Lemma core_mono orph orph' d pd : orph ⊆ orph' -> core p orph d pd -> core p orph' d pd.
Proof.
  intros Ho [Ifr Ise Ibu Ita Iun Iha Ipe Ior]. constructor; eauto.
  intros i m Hm Hd. destruct (Ibu i m Hm Hd) as [H|H]; [by left|right; by apply Ho].
Qed.

Lemma keeps_fail_task : keeps_task fail_task.
Proof. by intros r. Qed.

(** A dead task leaves its module to the janitor. *)
Lemma fail_core orph d t r mid :
  core p orph d [] -> tasks d !! t = Some r -> running mid r = true -> is_Some (proj p d !! mid) ->
  core p (mid :: orph) (update_task t fail_task d) [] /\
  (forall u r', tasks (update_task t fail_task d) !! u = Some r' -> running mid r' = false).
Proof.
  intros [Ifr Ise Ibu Ita Iun Iha Ipe Ior] Ht Hrun [m Hm].
  assert (Hold : forall i u r', alter fail_task t (tasks d) !! u = Some r' -> running i r' = true ->
    u <> t /\ tasks d !! u = Some r').
  { intros i u r' (r0 & H0 & [[-> ->]|[? ->]])%alter_task Hr'; [|done]. by apply running_spec in Hr' as (_ & _ & ?). }
  split.
  - constructor; cbn; eauto.
    + intros u r' (r0 & H0 & _)%alter_task. eauto.
    + intros i mi Hi Hd. destruct (decide (i = mid)) as [->|Hne]; [right; by left|].
      destruct (Ibu i mi Hi Hd) as [(u & r0 & Hu & Hr0)|Ho]; [left|right; by right]. exists u, r0. split; [|done].
      rewrite lookup_alter_ne; [done|]. intros <-. rewrite Ht in Hu. injection Hu as <-.
      apply running_spec in Hrun as (Hmo & _). apply running_spec in Hr0 as (Hmo' & _). congruence.
    + intros i mi u r' Hi Hu Hr'. destruct (Hold i u r' Hu Hr'). eauto.
    + intros i mi u r1 u' r1' Hi Hu Hu' H1 H1'. destruct (Hold i u r1 Hu H1), (Hold i u' r1' Hu' H1'). eauto.
    + intros i mi Hi Hd. apply handled_alter; [apply keeps_fail_task|eauto].
    + intros u i Hin. by apply elem_of_nil in Hin.
  - intros u r' Hu. apply not_true_iff_false. intros Hr'. destruct (Hold mid u r' Hu Hr') as [Hne Hu']. apply Hne.
    by eapply (Iun mid m u r' t r).
Qed.

(** The rows of one sweep: [l] is left to do. *)
Record orphans (l : list Z) (d : odb) : Prop := {
  orph_core : core p l d [];
  orph_idle i : i ∈ l -> (exists m, proj p d !! i = Some m /\ pm_status m = DESTROYING) /\
    forall t r, tasks d !! t = Some r -> running i r = false;
  orph_apart x ds i : x ∈ l -> shape p d !! x = Some ds -> i ∈ l -> i ∉ ds
}.

Lemma fail_tasks_orphans rows orph d :
  NoDup rows.*1 ->
  (forall t r, (t, r) ∈ rows -> tasks d !! t = Some r /\ exists i, running i r = true /\ is_Some (proj p d !! i)) ->
  core p orph d [] -> (forall i, i ∈ orph -> forall t r, tasks d !! t = Some r -> running i r = false) ->
  exists orph', core p orph' (fail_tasks d rows) [] /\
    (forall i, i ∈ orph' -> forall t r, tasks (fail_tasks d rows) !! t = Some r -> running i r = false) /\
    (forall i, i ∈ orph' <-> i ∈ orph \/ exists t r, (t, r) ∈ rows /\ running i r = true) /\
    modules (fail_tasks d rows) = modules d.
Proof.
  revert orph d. induction rows as [|[t r] rows IH]; intros orph d Hnd Hrows Hcore Hidle.
  { exists orph. split_and!; try done. intros i. split; [by left|]. intros [Hi|(t & r & Hin & _)]; [done|by apply elem_of_nil in Hin]. }
  apply NoDup_cons in Hnd as [Htn Hnd].
  destruct (Hrows t r) as (Ht & i & Hrun & Hi); [left|].
  destruct (fail_core orph d t r i Hcore Ht Hrun Hi) as [Hcore' Hidle'].
  destruct (IH (i :: orph) (update_task t fail_task d)) as (orph' & H1 & H2 & H3 & H4); try done.
  - intros u r' Hin. destruct (Hrows u r') as (Hu & Hex); [by right|]. split; [|exact Hex]. cbn.
    rewrite lookup_alter_ne; [done|]. intros <-. apply Htn, list_elem_of_fmap. by exists (t, r').
  - intros j Hj u r' Hu. apply elem_of_cons in Hj as [->|Hj]; [eauto|].
    apply alter_task in Hu as (r0 & H0 & [[-> ->]|[_ ->]]); [|eauto].
    apply not_true_iff_false. by intros (_ & _ & ?)%running_spec.
  - exists orph'. split_and!; try done. intros j. rewrite H3, elem_of_cons. split.
    + intros [[->|Hj]|(u & r' & Hu & Hr')]; [right|by left|right].
      * exists t, r. split; [left|done].
      * exists u, r'. split; [by right|done].
    + intros [Hj|(u & r' & [[= -> ->]|Hu]%elem_of_cons & Hr')]; [left; by right| |right; eauto].
      left. left. apply running_spec in Hr' as (Hr' & _). apply running_spec in Hrun as (Hrun & _). congruence.
Qed.

(** What the chain leaves alone. *)
Lemma trigger_frame mid deps d j :
  j ∉ deps ->
  let d' := foldl (trigger_dep celery mid p (Some "project") false None) d deps in
  proj p d' !! j = proj p d !! j /\
  (forall t r, tasks d' !! t = Some r -> running j r = true -> tasks d !! t = Some r).
Proof.
  cbn zeta. revert d. induction deps as [|x deps IH]; intros d Hj; [done|].
  apply not_elem_of_cons in Hj as [Hjx Hj]. cbn [foldl]. destruct (IH (trigger_dep celery mid p (Some "project") false None d x) Hj) as [H1 H2].
  assert (Hstep : proj p (trigger_dep celery mid p (Some "project") false None d x) !! j = proj p d !! j /\
    (forall t r, tasks (trigger_dep celery mid p (Some "project") false None d x) !! t = Some r -> running j r = true ->
     tasks d !! t = Some r)).
  { unfold trigger_dep. destruct (modules d !! x) as [m|] eqn:Hm; [|done].
    destruct (bool_decide_reflect (pm_project m = p)) as [Hp|]; cbn [negb]; [|done].
    assert (HM : proj p d !! x = Some m) by by apply proj_Some.
    repeat (case_match; try done). all: split; [rewrite (queue_proj _ _ _ _ _ _ m) by done; by rewrite lookup_alter_ne|].
    all: intros t r; destruct (queue_tasks celery x (newest (destroy_of mid) (tasks d) ≫= run_handle)
           (Some "project") d m Hm) as (r' & HT & _ & _ & Hmo & _); cbn in HT |- *; rewrite HT.
    all: intros [[_ <-]|[_ ?]]%lookup_insert_Some Hr; [|done]; apply running_spec in Hr as (Hr & _); congruence. }
  destruct Hstep as [S1 S2]. split; [by rewrite H1|]. eauto.
Qed.

Lemma detection_frame mid m d j mj :
  pm_project m = p -> proj p d !! j = Some mj -> pm_status mj = DESTROYING ->
  let d' := (_run_terminal_detection_project mid m d).1 in proj p d' !! j = Some mj /\ tasks d' = tasks d.
Proof.
  intros Hp Hj Hd. cbn zeta. unfold _run_terminal_detection_project, _run_terminal_detection_project_legacy.
  rewrite Hp. repeat case_match; try done. cbn [fst].
  set (todo := filter _ (project_modules p d)) in *.
  set (l := filter _ (destroy_failed todo)).
  change (foldl _ d l) with (update_all (mark_destroyed reconciled_suffix) l d).
  split; [|by destruct (update_all_frame (mark_destroyed reconciled_suffix) l d)].
  rewrite update_all_proj; [|apply keeps_mark|repeat apply filter_fst_NoDup; apply select_NoDup].
  rewrite decide_False; [done|]. intros ([j' mj'] & -> & Hin)%list_elem_of_fmap. unfold l, destroy_failed in Hin.
  apply list_elem_of_filter in Hin as [_ Hin]. apply list_elem_of_filter in Hin as [Hf Hin].
  apply list_elem_of_filter in Hin as [_ Hin]. apply elem_of_project_modules in Hin. cbn in *. congruence.
Qed.

Lemma keeps_fail_destroying : keeps_row fail_destroying.
Proof. intros m. unfold fail_destroying. by case_match. Qed.

Lemma fail_destroying_status m : pm_status m = DESTROYING -> pm_status (fail_destroying m) = DESTROY_FAILED.
Proof. intros H. unfold fail_destroying. by rewrite bool_decide_true. Qed.

(** The module [i] is a failure; what it held back is to be looked at. *)
Lemma mark_orphan i l d m :
  orphans (i :: l) d -> covered p [] d [] -> proj p d !! i = Some m ->
  let d1 := update_module i fail_destroying d in
  core p l d1 [] /\ covered p (pm_dependencies m) d1 [] /\ handled i (tasks d1) /\ shape p d1 = shape p d.
Proof. clear celery.
  intros [[Ifr Ise Ibu Ita Iun Iha Ipe Ior] Hidle _] Hc Hm. cbn zeta.
  destruct (Hidle i) as [(m' & Hm' & Hdes) Hno]; [left|]. rewrite Hm in Hm'. injection Hm' as <-.
  pose proof (proj_update p i fail_destroying d keeps_fail_destroying) as HM.
  set (d1 := update_module i fail_destroying d) in *.
  assert (Hst : pm_status (fail_destroying m) = DESTROY_FAILED) by by apply fail_destroying_status.
  assert (Hrow : forall j mj, proj p d1 !! j = Some mj ->
    (j = i /\ mj = fail_destroying m) \/ (j <> i /\ proj p d !! j = Some mj)).
  { intros j mj. rewrite HM. intros (m0 & H0 & [[-> ->]|[Hj ->]])%alter_row; [left|by right].
    rewrite Hm in H0. by injection H0 as <-. }
  split_and!.
  - constructor; cbn; try done.
    + intros j mj [[-> ->]|[_ Hj]]%Hrow; [rewrite Hst; set_solver|eauto].
    + intros j mj [[-> ->]|[Hne Hj]]%Hrow Hd; [congruence|].
      destruct (Ibu j mj Hj Hd) as [H|H]; [by left|right]. by apply elem_of_cons in H as [?|?].
    + intros j mj t r [[-> ->]|[Hne Hj]]%Hrow Ht Hr; [by rewrite (Hno t r Ht) in Hr|eauto].
    + intros j mj t r t' r' [[-> ->]|[Hne Hj]]%Hrow Ht Ht' Hr; [by rewrite (Hno t r Ht) in Hr|eauto].
    + intros j mj [[-> ->]|[Hne Hj]]%Hrow Hd; [congruence|eauto].
    + intros t j Hin. by apply elem_of_nil in Hin.
    + intros j mj x mx [[-> ->]|[Hne Hj]]%Hrow Hd Hx Hdep; [congruence|].
      apply Hrow in Hx as [[-> ->]|[_ Hx]]; [|eauto].
      destruct (keeps_fail_destroying m) as (_ & Hdm & Hcm). rewrite Hdm in Hdep. rewrite Hcm. right.
      destruct (Ior j mj i m Hj Hd Hm Hdep) as [H|H]; [|done]. rewrite Hdes in H. by vm_compute in H.
  - intros j mj [[-> ->]|[Hne Hj]]%Hrow Hw; [destruct Hw as (_ & _ & Hw); congruence|].
    assert (Hnew : forall k mx, proj p d !! i = Some mx -> k ∈ pm_dependencies mx -> owed (pm_dependencies m) (proj p d1) [] k).
    { intros k mx Hx Hdep. rewrite Hm in Hx. injection Hx as <-. by apply owed_todo. }
    destruct (owed_mono (fun _ => False) [] (proj p d) [] (pm_dependencies m) (proj p d1) []) with (i := j); try done; eauto.
    + intros k x mx Hx Hdep Hcl. destruct (decide (x = i)) as [->|Hxi]; [eauto|].
      apply (owed_held _ _ _ k x mx); [by rewrite HM, lookup_alter_ne|done..].
    + intros k Hk. by apply elem_of_nil in Hk.
    + intros k u x mx Hu. by apply elem_of_nil in Hu.
    + intros k x mx Hx Hdep Hs [[]|Ho]. destruct (decide (x = i)) as [->|Hxi]; [eauto|].
      apply (owed_retry _ _ _ k x mx); [by rewrite HM, lookup_alter_ne|done..].
  - apply (Iha i m Hm Hdes).
  - apply shape_update, keeps_fail_destroying.
Qed.

Lemma handled_scope i d : handled i (tasks d) -> _destroy_scope_for i None d = Some "project".
Proof.
  intros (t & r & Ht & Hd & Hr & Hmax). unfold _destroy_scope_for.
  assert (E : newest (destroy_of i) (tasks d) = Some r) by (apply newest_Some; eauto).
  rewrite E. unfold in_run in Hr. bool_hyps. by rewrite H0.
Qed.

Lemma redrive_step i l d :
  NoDup (i :: l) -> orphans (i :: l) d -> covered p [] d [] ->
  let d' := redrive celery d i in
  orphans l d' /\ covered p [] d' [] /\ ended p d' [] /\ shape p d' = shape p d.
Proof.
  intros [Hil _]%NoDup_cons Ho Hc. cbn zeta. pose proof Ho as [_ Hidle Hapart].
  destruct (Hidle i) as [(m & Hm & Hdes) _]; [left|].
  destruct (mark_orphan i l d m Ho Hc Hm) as (H1 & H2 & H3 & H4). unfold redrive.
  set (d1 := update_module i fail_destroying d) in *.
  destruct (trigger_deps_inv celery p l (pm_dependencies m) d1 [] i H1 H3 H2) as (G1 & G2 & G3 & _).
  set (d2 := foldl (trigger_dep celery i p (Some "project") false None) d1 (pm_dependencies m)) in *.
  assert (Hm1 : proj p d1 !! i = Some (fail_destroying m)).
  { unfold d1. rewrite proj_update by apply keeps_fail_destroying. by rewrite lookup_alter_eq, Hm. }
  destruct (keeps_fail_destroying m) as (Hp1 & Hd1 & _).
  assert (Hp : pm_project (fail_destroying m) = p) by (by apply proj_Some in Hm1 as [_ ?]).
  rewrite (trigger_project celery p i None (fail_destroying m) d1).
  2: by apply proj_Some in Hm1 as [? _].
  2: done.
  2: by apply handled_scope.
  2: { apply handled_scope. rewrite Hd1. exact G2. }
  rewrite Hd1. fold d2.
  destruct (detection_inv p l i (fail_destroying m) d2 [] G1 G3 G2 Hp) as (E1 & E2 & E3).
  assert (Hsh : shape p (_run_terminal_detection_project i (fail_destroying m) d2).1 = shape p d).
  { rewrite shape_detection by done. rewrite <- H4. unfold d2. apply shape_triggers. }
  split_and!; try done. constructor; [done| |].
  - intros j Hj. destruct (Hidle j) as [(mj & Hmj & Hdj) Hno]; [by right|].
    assert (Hji : j <> i) by congruence.
    assert (Hjd : j ∉ pm_dependencies m).
    { apply (Hapart i); [left| |by right]. unfold shape. by rewrite lookup_fmap, Hm. }
    destruct (trigger_frame i (pm_dependencies m) d1 j Hjd) as [F1 F2]. fold d2 in F1, F2.
    assert (Hj2 : proj p d2 !! j = Some mj).
    { rewrite F1. unfold d1. rewrite proj_update by apply keeps_fail_destroying. by rewrite lookup_alter_ne. }
    destruct (detection_frame i (fail_destroying m) d2 j mj Hp Hj2 Hdj) as [D1 D2]. split; [eauto|].
    intros t r. rewrite D2. intros Ht. apply not_true_iff_false. intros Hr. specialize (F2 t r Ht Hr).
    by rewrite (Hno t r F2) in Hr.
  - intros x ds j Hx. rewrite Hsh. intros Hds Hj. apply (Hapart x); [by right|done|by right].
Qed.

Lemma redrives l d :
  NoDup l -> orphans l d -> covered p [] d [] -> ended p d [] \/ l <> [] ->
  let d' := foldl (redrive celery) d l in
  orphans [] d' /\ covered p [] d' [] /\ ended p d' [] /\ shape p d' = shape p d.
Proof.
  revert d. induction l as [|i l IH]; intros d Hnd Ho Hc He; [by destruct He|]. cbn [foldl]. cbn zeta.
  destruct (redrive_step i l d Hnd Ho Hc) as (H1 & H2 & H3 & H4).
  destruct (IH (redrive celery d i)) as (G1 & G2 & G3 & G4); [by inversion Hnd|done|done|by left|].
  split_and!; try done. by rewrite G4.
Qed.

(** A sweep between two steps of a run, when all the tasks it finds dead are
    destroys of the run, no two of them of modules one of which uses the other. *)
Lemma sweep_keeps_run live d :
  run_inv p {| wdb := d; pending := [] |} ->
  (forall t r, tasks d !! t = Some r -> active_task r = true -> alive live r = false ->
     exists i, running i r = true /\ is_Some (proj p d !! i)) ->
  (forall i m x mx, proj p d !! i = Some m -> proj p d !! x = Some mx ->
     pm_status m = DESTROYING -> pm_status mx = DESTROYING -> i ∉ pm_dependencies mx) ->
  run_inv p {| wdb := (reset_stale_tasks celery live d).1; pending := [] |} /\
  shape p (reset_stale_tasks celery live d).1 = shape p d.
Proof.
  unfold run_inv. cbn [wdb pending]. intros (Hcore & Hc & He) Hrows Happ.
  set (rows := dead_tasks live d).
  assert (Hin : forall t r, (t, r) ∈ rows <-> tasks d !! t = Some r /\ active_task r = true /\ alive live r = false).
  { intros t r. unfold rows, dead_tasks. rewrite list_elem_of_filter, elem_of_select. tauto. }
  destruct (fail_tasks_orphans rows [] d) as (orph & H1 & H2 & H3 & H4); try done.
  { unfold rows, dead_tasks. apply filter_fst_NoDup, select_NoDup. }
  { intros t r (Ht & Ha & Hl)%Hin. split; [done|]. eauto. }
  { intros i Hi. by apply elem_of_nil in Hi. }
  set (d1 := fail_tasks d rows) in *.
  assert (HM : proj p d1 = proj p d) by (unfold proj; by rewrite H4).
  assert (Hreset : to_reset d rows = []).
  { unfold to_reset. assert (E : omap (fun tr : Z * task => if bool_decide (t_type tr.2 = Tdestroy) then None
      else module_of d tr.2) rows = []); [|by rewrite E].
    assert (Hall : forall tr, tr ∈ rows -> t_type tr.2 = Tdestroy).
    { intros [t r] (Ht & Ha & Hl)%Hin. destruct (Hrows t r Ht Ha Hl) as (i & (_ & ? & _)%running_spec & _). done. }
    clear - Hall. induction rows as [|tr rows IH]; [done|]. cbn. rewrite bool_decide_true by (apply Hall; left).
    apply IH. intros x Hx. apply Hall. by right. }
  unfold reset_stale_tasks. fold rows. rewrite Hreset. cbn [reset_modules foldl fst]. fold d1.
  set (l := to_redrive d rows).
  assert (Hl : forall i, i ∈ l <-> exists t r, (t, r) ∈ rows /\ running i r = true).
  { intros i. unfold l, to_redrive. rewrite elem_of_dict_keys, list_elem_of_omap. split.
    - intros ([t r] & Hr & E). exists t, r. split; [done|]. apply Hin in Hr as (Ht & Ha & Hlv).
      cbn in E. case_bool_decide; [|done]. unfold module_of in E. destruct (t_module r) as [j|] eqn:Ej; [|done].
      cbn in E. destruct (modules d !! j); [|done]. injection E as ->. by apply running_spec.
    - intros (t & r & Hr & Hrun). exists (t, r). split; [done|]. apply Hin in Hr as (Ht & Ha & Hlv).
      destruct (Hrows t r Ht Ha Hlv) as (j & Hj & [mj Hmj]). pose proof Hrun as (Hmo & Hty & _)%running_spec.
      cbn. rewrite bool_decide_true by done. unfold module_of. rewrite Hmo. cbn.
      pose proof Hj as (Hmo' & _)%running_spec. assert (j = i) as -> by congruence.
      apply proj_Some in Hmj as [-> _]. done. }
  assert (Hdes : forall i, i ∈ l -> exists m, proj p d !! i = Some m /\ pm_status m = DESTROYING).
  { intros i (t & r & (Ht & Ha & Hlv)%Hin & Hrun)%Hl. destruct (Hrows t r Ht Ha Hlv) as (j & Hj & [mj Hmj]).
    pose proof Hj as (Hmo' & _)%running_spec. pose proof Hrun as (Hmo & _)%running_spec.
    assert (j = i) as -> by congruence. exists mj. split; [done|].
    by destruct (inv_tasks p _ _ _ Hcore i mj t r Hmj Ht Hrun). }
  assert (Hcov : covered p [] d1 []).
  { intros i m. rewrite HM. apply Hc. }
  assert (Horph : forall i, i ∈ orph <-> i ∈ l).
  { intros i. rewrite H3, Hl. split; [intros [[]%elem_of_nil|?]; done|by right]. }
  assert (Ho : orphans l d1).
  { constructor.
    - apply (core_mono orph l d1 []); [intros i; apply Horph|done].
    - intros i Hi. split; [rewrite HM; by apply Hdes|by apply H2, Horph].
    - intros x ds i Hx Hds Hi. destruct (Hdes x Hx) as (mx & Hmx & Hdx), (Hdes i Hi) as (m & Hm & Hd).
      unfold shape in Hds. rewrite HM, lookup_fmap, Hmx in Hds. injection Hds as <-. by apply (Happ i m x mx). }
  assert (Hend : ended p d1 [] \/ l <> []).
  { destruct l as [|i l'] eqn:El; [left|by right].
    assert (rows = []) as Hnil.
    { destruct rows as [|[t r] rows']; [done|]. exfalso.
      destruct (proj1 (Hin t r)) as (Ht & Ha & Hlv); [left|]. destruct (Hrows t r Ht Ha Hlv) as (j & Hj & _).
      assert (Hjl : j ∈ []) by (apply Hl; exists t, r; split; [left|done]). by apply elem_of_nil in Hjl. }
    unfold d1. by rewrite Hnil. }
  destruct (redrives l d1 (NoDup_dict_keys _) Ho Hcov Hend) as (G1 & G2 & G3 & G4).
  split_and!; [by destruct G1|done|done|]. rewrite G4. unfold shape. by rewrite HM.
Qed.
End sweep.

(** ** What a sweep leaves behind *)

(** Tasks keep their outcome, and modules only go on being destroyed. *)
Record goes_on (d d' : odb) : Prop := {
  on_next : next_task d <= next_task d';
  on_tasks t r : t < next_task d -> tasks d !! t = Some r ->
    exists r', tasks d' !! t = Some r' /\ t_status r' = t_status r /\ t_error r' = t_error r;
  on_modules i m' : modules d' !! i = Some m' ->
    exists m, modules d !! i = Some m /\
      (pm_status m' = pm_status m \/ transitional (pm_status m') = false \/ pm_status m' = DESTROYING)
}.

Lemma goes_on_refl d : goes_on d d.
Proof. constructor; eauto. lia. Qed.

Lemma goes_on_trans d1 d2 d3 : goes_on d1 d2 -> goes_on d2 d3 -> goes_on d1 d3.
Proof.
  intros [N1 T1 M1] [N2 T2 M2]. constructor; [lia|..].
  - intros t r Ht Hr. destruct (T1 t r Ht Hr) as (r2 & H2 & S2 & E2). destruct (T2 t r2) as (r3 & H3 & S3 & E3); [lia|done|].
    exists r3. split_and!; congruence.
  - intros i m3 H3. destruct (M2 i m3 H3) as (m2 & H2 & C2). destruct (M1 i m2 H2) as (m1 & H1 & C1).
    exists m1. split; [done|]. destruct C2 as [E|C2]; [rewrite E|]; by auto.
Qed.

Lemma goes_on_foldl {X} (step : odb -> X -> odb) l d :
  (forall d x, goes_on d (step d x)) -> goes_on d (foldl step d l).
Proof.
  intros Hs. revert d. induction l as [|x l IH]; intros d; [apply goes_on_refl|]. cbn.
  eapply goes_on_trans; [apply Hs|apply IH].
Qed.

Lemma goes_on_module i f d :
  (forall m, pm_status (f m) = pm_status m \/ transitional (pm_status (f m)) = false \/ pm_status (f m) = DESTROYING) ->
  goes_on d (update_module i f d).
Proof.
  intros Hf. constructor; cbn; [lia|eauto|].
  intros j m' (m0 & H0 & [[-> ->]|[_ ->]])%alter_row; exists m0; auto.
Qed.

Section leaves.
Context {SO : SetOrder Z} (celery : Z -> string).

Lemma goes_on_queue i h sc d : goes_on d (queue_destroy celery i h sc d).
Proof.
  unfold queue_destroy. destruct (modules d !! i) as [m|]; [|apply goes_on_refl].
  eapply goes_on_trans; [apply (goes_on_module i (set_status DESTROYING)); by auto|].
  constructor; cbn; [lia| |eauto].
  intros t r Ht Hr. exists r. rewrite lookup_alter_ne, lookup_insert_ne by lia. done.
Qed.

Lemma goes_on_trigger mid p sc st ids d dep : goes_on d (trigger_dep celery mid p sc st ids d dep).
Proof. unfold trigger_dep. repeat case_match; apply goes_on_refl || apply goes_on_queue. Qed.

Lemma goes_on_delete P d : goes_on d (delete_modules P d).
Proof.
  constructor; cbn; [lia|..].
  - intros t r _ Hr. rewrite lookup_fmap, Hr. eexists. split; [reflexivity|]. by repeat case_match.
  - intros i m' (Hm & _)%map_lookup_filter_Some. eauto.
Qed.

Lemma goes_on_stacks f d : goes_on d (with_stacks f d).
Proof. constructor; cbn; [lia|eauto..]. Qed.

Lemma goes_on_detection mid m tid d : goes_on d (_run_terminal_detection mid m tid d).1.
Proof.
  assert (Hs : goes_on d (_run_terminal_detection_stack m d).1).
  { unfold _run_terminal_detection_stack. repeat case_match; try apply goes_on_refl.
    - eapply goes_on_trans; [apply goes_on_delete|apply goes_on_stacks].
    - apply goes_on_stacks. }
  assert (Hp : goes_on d (_run_terminal_detection_project mid m d).1).
  { unfold _run_terminal_detection_project, _run_terminal_detection_project_legacy.
    repeat case_match; try apply goes_on_refl. apply goes_on_foldl. intros d' x. apply goes_on_module. by auto. }
  unfold _run_terminal_detection. by repeat case_match; try apply goes_on_refl.
Qed.

Lemma goes_on_redrive d i : goes_on d (redrive celery d i).
Proof.
  unfold redrive. eapply goes_on_trans; [apply (goes_on_module i fail_destroying)|].
  - intros m. unfold fail_destroying. case_bool_decide; [right; left; done|by left].
  - set (d1 := update_module i fail_destroying d). unfold _trigger_next_destroy_module.
    repeat case_match; try apply goes_on_refl. all: eapply goes_on_trans; [|apply goes_on_detection].
    all: apply goes_on_foldl; intros; apply goes_on_trigger.
Qed.

Lemma fail_tasks_tasks rows d t :
  NoDup rows.*1 -> tasks (fail_tasks d rows) !! t = (if bool_decide (t ∈ rows.*1) then fail_task else id) <$> tasks d !! t.
Proof. clear celery.
  revert d. induction rows as [|[u r] rows IH]; intros d Hnd.
  { cbn. rewrite bool_decide_false by apply not_elem_of_nil. by destruct (tasks d !! t). }
  apply NoDup_cons in Hnd as [Hu Hnd]. cbn [fail_tasks foldl]. change (foldl _ ?x rows) with (fail_tasks x rows).
  rewrite IH by done. cbn. destruct (decide (t = u)) as [->|Hne].
  - rewrite (bool_decide_false (u ∈ _)), (bool_decide_true (u ∈ _)), lookup_alter_eq by (done || left).
    by destruct (tasks d !! u).
  - rewrite lookup_alter_ne by done. f_equal. erewrite bool_decide_ext; [reflexivity|]. rewrite elem_of_cons. naive_solver.
Qed.

Lemma fail_tasks_next rows d : next_task (fail_tasks d rows) = next_task d /\ modules (fail_tasks d rows) = modules d /\
  stacks (fail_tasks d rows) = stacks d.
Proof. revert d. induction rows as [|x rows IH]; intros d; [done|]. exact (IH (update_task x.1 fail_task d)). Qed.

Lemma reset_module_settles m : (reset_module m = m \/ transitional (pm_status (reset_module m)) = false) /\
  pm_status (reset_module m) ∉ [INITIALIZING; PLANNING; APPLYING].
Proof.
  unfold reset_module. destruct (pm_status m) eqn:E; cbn; split; try (by left); try (by right); rewrite ?E; set_solver.
Qed.

Lemma reset_modules_rows ids d :
  tasks (reset_modules d ids) = tasks d /\ next_task (reset_modules d ids) = next_task d /\
  forall i m', modules (reset_modules d ids) !! i = Some m' -> i ∈ ids -> pm_status m' ∉ [INITIALIZING; PLANNING; APPLYING].
Proof.
  revert d. induction ids as [|x ids IH]; intros d; [split_and!; try done; intros i m' _ Hi; by apply elem_of_nil in Hi|].
  cbn [reset_modules foldl]. change (foldl _ ?y ids) with (reset_modules y ids).
  destruct (IH (update_module x reset_module d)) as (H1 & H2 & H3). split_and!; [done..|].
  intros i m' Hm Hi. destruct (decide (i ∈ ids)) as [Hin|Hin]; [by eapply H3|].
  apply elem_of_cons in Hi as [->|Hi]; [|done].
  assert (Hk : forall l y i, i ∉ l -> modules (reset_modules y l) !! i = modules y !! i).
  { clear. induction l as [|j l IHl]; intros y i Hi; [done|]. apply not_elem_of_cons in Hi as [Hj Hi].
    cbn [reset_modules foldl]. change (foldl _ ?z l) with (reset_modules z l). rewrite IHl by done. cbn. by rewrite lookup_alter_ne. }
  rewrite Hk in Hm by done. cbn in Hm. rewrite lookup_alter_eq in Hm. apply fmap_Some in Hm as (m & _ & ->).
  apply reset_module_settles.
Qed.

Lemma stale_destroys_rows live d :
  tasks (reset_stale_destroys live d).1 = tasks d /\ modules (reset_stale_destroys live d).1 = modules d /\
  forall s st, stacks (reset_stale_destroys live d).1 !! s = Some st -> s_status st = S_DESTROYING ->
    exists st0, stacks d !! s = Some st0 /\ stuck live d s st0 = false.
Proof.
  unfold reset_stale_destroys. cbn [fst].
  set (rows := filter (fun ss => stuck live d ss.1 ss.2 = true) (select (fun _ st => bool_decide (s_status st = S_DESTROYING)) (stacks d))).
  set (f := fun st => set_stack_error (or_message (s_error st) destroy_lost) (set_stack_status S_FAILED st)).
  assert (H : forall (l : list (Z * stack)) y, let y' := foldl (fun d ss => update_stack ss.1 f d) y l in
    tasks y' = tasks y /\ modules y' = modules y /\
    forall s st, stacks y' !! s = Some st -> s_status st = S_DESTROYING -> (s ∉ l.*1) /\ stacks y !! s = Some st).
  { induction l as [|[s0 st0] l IH]; intros y; cbn; [split_and!; try done; intros; split; [apply not_elem_of_nil|done]|].
    destruct (IH (update_stack s0 f y)) as (H1 & H2 & H3). split_and!; [done..|]. intros s st Hs Hd.
    destruct (H3 s st Hs Hd) as [Hn Hs']. cbn in Hs'. destruct (decide (s = s0)) as [->|Hne].
    - rewrite lookup_alter_eq in Hs'. apply fmap_Some in Hs' as (st1 & _ & ->). done.
    - rewrite lookup_alter_ne in Hs' by done. rewrite not_elem_of_cons. done. }
  destruct (H rows d) as (H1 & H2 & H3). split_and!; [done..|]. intros s st Hs Hd.
  destruct (H3 s st Hs Hd) as [Hn Hs']. exists st. split; [done|]. apply not_true_iff_false. intros Hst. apply Hn.
  apply list_elem_of_fmap. exists (s, st). split; [done|]. apply list_elem_of_filter. split; [done|].
  apply elem_of_select. by rewrite bool_decide_true.
Qed.

(** C35. After a pass: a task is failed exactly when it was not at its end and no
    worker has it, one that still waits in the queue included; no module whose
    deployment was lost is left as if it were under way; no stack is left
    DESTROYING without a worker on a destroy of one of its modules. *)
Theorem janitor_unsticks live d :
  (forall t r, tasks d !! t = Some r -> t < next_task d) ->
  let '(d', (ids, _)) := reset_stale_executions celery live d in
  (forall t r, tasks d !! t = Some r ->
     (t ∈ ids <-> active_task r = true /\ alive live r = false) /\
     exists r', tasks d' !! t = Some r' /\
       (t_status r', t_error r') =
         if active_task r && negb (alive live r) then (T_FAILED, or_message (t_error r) worker_lost)
         else (t_status r, t_error r)) /\
  (forall t r i m', tasks d !! t = Some r -> active_task r = true -> alive live r = false -> t_type r <> Tdestroy ->
     t_module r = Some i -> modules d' !! i = Some m' -> pm_status m' ∉ [INITIALIZING; PLANNING; APPLYING]) /\
  (forall s st, stacks d' !! s = Some st -> s_status st = S_DESTROYING ->
     exists t r i m, tasks d' !! t = Some r /\ t_type r = Tdestroy /\ active_task r = true /\ alive live r = true /\
       t_module r = Some i /\ modules d' !! i = Some m /\ pm_stack m = Some s).
Proof.
  intros HF. unfold reset_stale_executions, reset_stale_tasks. set (rows := dead_tasks live d).
  set (d1 := reset_modules (fail_tasks d rows) (to_reset d rows)).
  set (d2 := foldl (redrive celery) d1 (to_redrive d rows)).
  destruct (stale_destroys_rows live d2) as (T3 & M3 & S3).
  destruct (reset_stale_destroys live d2) as [d3 stale]. cbn [fst] in *.
  assert (Hin : forall t r, (t, r) ∈ rows <-> tasks d !! t = Some r /\ active_task r = true /\ alive live r = false).
  { intros t r. unfold rows, dead_tasks. rewrite list_elem_of_filter, elem_of_select. cbn. intuition. }
  assert (Hids : forall t r, tasks d !! t = Some r -> t ∈ rows.*1 <-> active_task r = true /\ alive live r = false).
  { intros t r Hr. rewrite list_elem_of_fmap. split.
    - intros ([t' r'] & -> & (Hr' & ?)%Hin). cbn in Hr. rewrite Hr in Hr'. injection Hr' as <-. done.
    - intros H. exists (t, r). split; [done|]. by apply Hin. }
  assert (Hnd : NoDup rows.*1) by (unfold rows, dead_tasks; apply filter_fst_NoDup, select_NoDup).
  assert (Hon : goes_on d1 d2) by (apply goes_on_foldl; intros; apply goes_on_redrive).
  destruct (fail_tasks_next rows d) as (FN & FM & _).
  destruct (reset_modules_rows (to_reset d rows) (fail_tasks d rows)) as (RT & RN & RM).
  split_and!.
  - intros t r Hr. split; [by apply Hids|]. rewrite T3.
    assert (H1 : exists r1, tasks d1 !! t = Some r1 /\ (t_status r1, t_error r1) =
      if active_task r && negb (alive live r) then (T_FAILED, or_message (t_error r) worker_lost) else (t_status r, t_error r)).
    { unfold d1. rewrite RT, fail_tasks_tasks, Hr by done. eexists. split; [reflexivity|].
      destruct (bool_decide_reflect (t ∈ rows.*1)) as [H|H].
      - apply (Hids t r Hr) in H as [-> ->]. done.
      - destruct (active_task r) eqn:Ea; [|done]. destruct (alive live r) eqn:El; [done|]. exfalso. apply H. by apply (Hids t r Hr). }
    destruct H1 as (r1 & H1 & E1). destruct Hon as [_ Hon _].
    destruct (Hon t r1) as (r2 & H2 & S2 & E2); [unfold d1; rewrite RN, FN; eauto|done|].
    exists r2. split; [done|]. by rewrite S2, E2.
  - intros t r i m' Hr Ha Hl Hty Hmo Hm'. rewrite M3 in Hm'. destruct Hon as [_ _ Hon].
    destruct (Hon i m' Hm') as (m1 & H1 & C1).
    assert (Hd : is_Some (modules d !! i)).
    { revert H1. unfold d1, reset_modules. generalize (to_reset d rows). intros l. rewrite <- FM.
      generalize (fail_tasks d rows), m1. clear. induction l as [|x l IH] using rev_ind; intros y mx; cbn; [eauto|].
      rewrite foldl_app. cbn. intros (m0 & H0 & _)%alter_row. eauto. }
    assert (Hs : pm_status m1 ∉ [INITIALIZING; PLANNING; APPLYING]).
    { apply (RM i m1 H1). unfold to_reset. apply elem_of_dict_keys, list_elem_of_omap. exists (t, r). split; [by apply Hin|].
      cbn. rewrite bool_decide_false by done. unfold module_of. rewrite Hmo. cbn. destruct Hd as [m0 ->]. done. }
    destruct C1 as [->|[C1|C1]]; [done| |rewrite C1; set_solver].
    apply not_transitional in C1. by destruct C1.
  - intros s st Hs Hd. destruct (S3 s st Hs Hd) as (st0 & _ & Hst). unfold stuck in Hst.
    set (rs := select _ (tasks d2)) in Hst. apply not_true_iff_false in Hst. rewrite forallb_forall in Hst.
    destruct (existsb (fun tr => alive live tr.2) rs) eqn:Ex.
    + apply existsb_exists in Ex as ([t r] & Hr%list_elem_of_In & Hal). unfold rs in Hr. apply elem_of_select in Hr as [Hr HP].
      bool_hyps. destruct (t_module r) as [i|] eqn:Ei; [|done]. apply bool_decide_eq_true in H0.
      unfold deployed_modules in H0. apply list_elem_of_fmap in H0 as ([i' m] & -> & Hi).
      apply elem_of_select in Hi as [Hi Hsm]. exists t, r, i', m. rewrite T3, M3.
      unfold in_stack in Hsm. apply bool_decide_eq_true in Hsm. done.
    + exfalso. apply Hst. intros tr Htr. apply not_true_iff_false in Ex. apply negb_true_iff, not_true_iff_false.
      intros Hal. apply Ex, existsb_exists. eauto.
Qed.
End leaves.

(** *** A deployment that waits in the queue *)

Module Example.

#[local] Instance some_order : SetOrder Z := elements_order.
Definition message (t : Z) : string := pretty t.

Definition waiting : odb :=
  {| modules := {[1 := {| pm_project := 1; pm_stack := None; pm_dependencies := []; pm_status := APPLYING;
        deployment_error := None; library_module := None; enabled := true; deployment_order := 0; has_outputs := true |}]};
     tasks := {[1 := {| t_type := Tapply; t_status := T_QUEUED; t_project := 1; t_module := Some 1;
        celery_task_id := Some "1"; run_handle := None; destroy_scope := None; t_error := None |}]};
     stacks := ∅; next_task := 2 |}.

Example queued_apply_fails :
  (pm_status <$> modules (reset_stale_executions message ["7"] waiting).1 !! 1) = Some APPLY_FAILED /\
  (t_status <$> tasks (reset_stale_executions message ["7"] waiting).1 !! 1) = Some T_FAILED.
Proof. by vm_compute. Qed.

Lemma janitor_unsticks_witness :
  let '(d', (ids, _)) := reset_stale_executions message ["7"] waiting in
  (forall t r, tasks waiting !! t = Some r ->
     (t ∈ ids <-> active_task r = true /\ alive ["7"] r = false) /\
     exists r', tasks d' !! t = Some r' /\
       (t_status r', t_error r') =
         if active_task r && negb (alive ["7"] r) then (T_FAILED, or_message (t_error r) worker_lost)
         else (t_status r, t_error r)) /\
  (forall t r i m', tasks waiting !! t = Some r -> active_task r = true -> alive ["7"] r = false -> t_type r <> Tdestroy ->
     t_module r = Some i -> modules d' !! i = Some m' -> pm_status m' ∉ [INITIALIZING; PLANNING; APPLYING]) /\
  (forall s st, stacks d' !! s = Some st -> s_status st = S_DESTROYING ->
     exists t r i m, tasks d' !! t = Some r /\ t_type r = Tdestroy /\ active_task r = true /\ alive ["7"] r = true /\
       t_module r = Some i /\ modules d' !! i = Some m /\ pm_stack m = Some s).
Proof.
  apply (janitor_unsticks message ["7"] waiting).
  refine (bool_decide_unpack (map_Forall (fun t _ => t < 2) (tasks waiting)) _). vm_compute. exact I.
Defined.
End Example.
