(* ===== verification/DestroyEnd.v ===== *)
(** * How a destroy ends

    Over DestroyRun.v's runs: the first wave starts a run, every run is finite,
    and where it can go no further only what a failed destroy holds back is
    left. *)

From S2P Require Import Prelude Texts ModuleState Orchestration DestroyChain DestroyRun Janitor.

#[local] Open Scope string_scope.
#[local] Open Scope list_scope.
#[local] Open Scope Z_scope.
#[local] Set Default Proof Using "Type".

Lemma list_bound {A} (f : A -> nat) (l : list A) : exists N, forall x, x ∈ l -> (f x <= N)%nat.
Proof.
  induction l as [|a l [N IH]]; [exists 0%nat; intros x Hx; by apply elem_of_nil in Hx|].
  exists (Nat.max N (f a)). intros x [->|Hx]%elem_of_cons; [lia|]. specialize (IH x Hx). lia.
Qed.

Section ends.
Context {SO : SetOrder Z} (celery : Z -> string) (p : Z).

#[local] Abbreviation proj := (proj p).
#[local] Abbreviation shape := (shape p).
#[local] Abbreviation ranked := (ranked p).
#[local] Abbreviation run_inv := (run_inv p).
#[local] Abbreviation wstep := (wstep celery p).

(** ** Going up the dependencies *)

Lemma ascend rank d (P : Z -> Prop) :
  ranked rank d ->
  (forall i m, proj d !! i = Some m -> (forall x mx, proj d !! x = Some mx -> i ∈ pm_dependencies mx -> P x) -> P i) ->
  forall i m, proj d !! i = Some m -> P i.
Proof.
  intros Hr Hstep. destruct (list_bound rank (map_to_list (proj d)).*1) as [N HN].
  assert (HN' : forall i m, proj d !! i = Some m -> (rank i <= N)%nat).
  { intros i m Hi. apply HN, list_elem_of_fmap. exists (i, m). split; [done|]. by apply elem_of_map_to_list. }
  assert (Hgo : forall n i m, proj d !! i = Some m -> (N - rank i < n)%nat -> P i); [|eauto].
  induction n as [|n IH]; intros i m Hi Hn; [lia|]. apply (Hstep i m Hi). intros x mx Hx Hdep.
  apply (IH x mx Hx). specialize (HN' x mx Hx).
  assert (rank i < rank x)%nat; [|lia]. apply (Hr x (pm_dependencies mx)); [|done].
  unfold DestroyRun.shape. by rewrite lookup_fmap, Hx.
Qed.

(** ** The start of a run *)

(** A destroy of the project, as [destroy_project_parallel] leaves it. *)
Definition started (handle : option string) (force : bool) (d : odb) : wstate :=
  {| wdb := (_dispatch_first_destroy_wave celery p handle force d).1; pending := [] |}.

Lemma wave_start d : ready p d -> wave_inv p (project_modules p d).*1 d.
Proof.
  intros Hr. constructor; [by apply ready_core|..].
  - intros i ([j m] & -> & Hm)%list_elem_of_fmap. apply elem_of_project_modules in Hm. exists m. split; [done|].
    by eapply not_transitional, (ready_settled p d).
  - intros i m Hm _. right; left. apply list_elem_of_fmap. exists (i, m). split; [done|].
    by apply elem_of_project_modules.
Qed.


Lemma wave_covered rank d : wave_inv p [] d -> ranked rank d -> covered p [] d [].
Proof.
  intros [_ _ Hheld] Hr. intros i m Hm (Hn & Hd & _). revert m Hm Hn Hd.
  assert (H : forall i m, proj d !! i = Some m -> forall m, proj d !! i = Some m -> no_infra (pm_status m) = false ->
    pm_status m <> DESTROYING -> owed [] (proj d) [] i); [|eauto].
  apply (ascend rank d (fun i => forall m, proj d !! i = Some m -> no_infra (pm_status m) = false ->
    pm_status m <> DESTROYING -> owed [] (proj d) [] i)); [done|].
  clear i. intros i m0 _ IH m Hm Hn Hd.
  destruct (Hheld i m Hm Hn) as [H|[H|(x & mx & Hx & Hdep & Hxn)]]; [done|by apply elem_of_nil in H|].
  destruct (clears false mx) eqn:Hcl; [|by eapply owed_held].
  unfold clears in Hcl. rewrite Hxn in Hcl. cbn in Hcl. bool_hyps. apply (owed_retry _ _ _ i x mx); [done..|].
  apply (IH x mx Hx Hdep mx Hx Hxn). congruence.
Qed.

Lemma wave_ended rank d : wave_inv p [] d -> ranked rank d -> ended p d [].
Proof.
  intros [_ _ Hheld] Hr _ Hterm _ i m Hm.
  refine (ascend rank d (fun i => forall m, proj d !! i = Some m -> pm_status m <> DESTROY_FAILED) Hr _ i m Hm m Hm).
  clear i m Hm. intros i m0 _ IH m Hm Hs.
  assert (Hn : no_infra (pm_status m) = false) by by rewrite Hs.
  destruct (Hheld i m Hm Hn) as [H|[H|(x & mx & Hx & Hdep & Hxn)]]; [congruence|by apply elem_of_nil in H|].
  apply (IH x mx Hx Hdep mx Hx). destruct (proj1 (terminal_cases _) (Hterm x mx Hx)); congruence.
Qed.

Lemma started_inv rank handle force d :
  truthy_str handle = true -> ready p d -> ranked rank d ->
  run_inv (started handle force d) /\ shape (wdb (started handle force d)) = shape d.
Proof.
  intros Hh Hd Hr. unfold started, _dispatch_first_destroy_wave.
  set (d0 := if force then force_pass p d else d).
  assert (H0 : ready p d0 /\ shape d0 = shape d).
  { subst d0. destruct force; [split; [by apply force_ready|apply shape_force]|done]. }
  destruct H0 as [Hd0 Hs0].
  assert (Hw : wave_inv p [] (foldl (first_wave_module celery handle) (d0, None) (project_modules p d0).*1).1).
  { apply waves_inv; [done|apply select_NoDup|by apply wave_start]. }
  assert (Hsh := shape_wave celery p handle (project_modules p d0).*1 d0 None). rewrite Hs0 in Hsh.
  cbn [wdb]. split; [|done]. unfold DestroyRun.run_inv. cbn [wdb pending].
  set (d1 := (foldl _ _ _).1) in *.
  assert (Hr1 : ranked rank d1) by (unfold DestroyRun.ranked; by rewrite Hsh).
  split_and!; [by destruct Hw|by eapply wave_covered|by eapply wave_ended].
Qed.

Lemma shape_chained mid m d pd t :
  core p [] d pd -> (t, mid) ∈ pd -> shape (chained celery p mid m d) = shape d.
Proof.
  intros Hcore _. unfold chained. destruct (progress_frame' p d pd mid Hcore) as (HM & _).
  set (d1 := _update_stack_status mid d) in *.
  rewrite shape_triggers. unfold DestroyRun.shape. by rewrite HM.
Qed.

Lemma wstep_shape w w' : wstep w w' -> run_inv w -> shape (wdb w') = shape (wdb w).
Proof.
  intros H. destruct H as [t r mid d pd|t r mid failure d pd|t mid d pd pd' Hpd]; unfold DestroyRun.run_inv;
    cbn [wdb pending]; intros (Hcore & Hc & _).
  - done.
  - destruct (commit_shape t mid failure d) as (f & g & -> & _ & Hg & _). by rewrite shape_update.
  - destruct (trigger_is_chained celery p d pd t mid pd' Hpd Hcore Hc) as (m & Hm & ->).
    rewrite shape_detection by (by apply proj_Some in Hm as [_ ?]). eapply shape_chained; [done|].
    rewrite Hpd. by left.
Qed.

(** A step of a worker, or a sweep of the janitor that finds dead tasks of this
    run only, no two of them of modules one of which uses the other. *)
Inductive rstep : wstate -> wstate -> Prop :=
| r_work w w' : wstep w w' -> rstep w w'
| r_sweep live d :
    (forall t r, tasks d !! t = Some r -> active_task r = true -> alive live r = false ->
       exists i, running i r = true /\ is_Some (proj d !! i)) ->
    (forall i m x mx, proj d !! i = Some m -> proj d !! x = Some mx ->
       pm_status m = DESTROYING -> pm_status mx = DESTROYING -> i ∉ pm_dependencies mx) ->
    rstep {| wdb := d; pending := [] |} {| wdb := (reset_stale_tasks celery live d).1; pending := [] |}.

Lemma rstep_inv w w' : rstep w w' -> run_inv w -> run_inv w' /\ shape (wdb w') = shape (wdb w).
Proof.
  intros H Hi. destruct H as [w w' H|live d Hrows Happ].
  - split; [by eapply wstep_inv|by apply wstep_shape].
  - by apply sweep_keeps_run.
Qed.

Lemma run_steps rank w w' :
  rtc rstep w w' -> run_inv w -> ranked rank (wdb w) ->
  run_inv w' /\ ranked rank (wdb w') /\ shape (wdb w') = shape (wdb w).
Proof.
  induction 1 as [|w1 w2 w3 Hs _ IH]; [done|]. intros Hi Hr.
  destruct (rstep_inv _ _ Hs Hi) as [Hi2 Hsh]. destruct IH as (H1 & H2 & H3).
  - done.
  - unfold DestroyRun.ranked. by rewrite Hsh.
  - split_and!; [done..|]. by rewrite H3.
Qed.

(** ** Where a run can go no further *)


(** A destroy that failed outside the cluster. *)
Definition stopper (d : odb) (x : Z) : Prop :=
  exists mx, proj d !! x = Some mx /\ pm_status mx = DESTROY_FAILED /\ is_in_cluster_module mx = false.

#[local] Instance stopper_dec d : Decision (exists x, stopper d x).
Proof.
  destruct (filter (fun im => pm_status im.2 = DESTROY_FAILED /\ is_in_cluster_module im.2 = false)
    (map_to_list (proj d))) as [|[x mx] l] eqn:E.
  - right. intros (x & mx & Hx & Hs).
    assert (H : (x, mx) ∈ filter (fun im => pm_status im.2 = DESTROY_FAILED /\ is_in_cluster_module im.2 = false)
      (map_to_list (proj d))) by (apply list_elem_of_filter; split; [done|by apply elem_of_map_to_list]).
    rewrite E in H. by apply elem_of_nil in H.
  - left. exists x, mx. assert (H : (x, mx) ∈ (x, mx) :: l) by left. rewrite <- E in H.
    apply list_elem_of_filter in H as [Hs Hx%elem_of_map_to_list]. done.
Defined.




(** ** Every run is finite *)

(** What the destroy of [i] can still set off, itself included. *)
Fixpoint weight (sh : gmap Z (list Z)) (n : nat) (i : Z) : nat :=
  match n with
  | O => 1
  | S n => S (sum_list_with (fun j => S (S (weight sh n j))) (default [] (sh !! i)))
  end.

Lemma weight_enough sh rank n n' i :
  (forall i ds j, sh !! i = Some ds -> j ∈ ds -> (rank j < rank i)%nat) ->
  (rank i <= n)%nat -> (rank i <= n')%nat -> weight sh n i = weight sh n' i.
Proof.
  intros Hr. revert n' i. induction n as [|n IH]; intros [|n'] i Hn Hn'; [done|..]; cbn.
  - destruct (sh !! i) as [[|j ds]|] eqn:E; [done| |done]. specialize (Hr i _ j E). cbn in Hr.
    assert (rank j < rank i)%nat by (apply Hr; left). lia.
  - destruct (sh !! i) as [[|j ds]|] eqn:E; [done| |done]. specialize (Hr i _ j E). cbn in Hr.
    assert (rank j < rank i)%nat by (apply Hr; left). lia.
  - f_equal. destruct (sh !! i) as [ds|] eqn:E; [|done]. cbn.
    assert (Hin : forall j, j ∈ ds -> (rank j < rank i)%nat) by eauto. clear E. induction ds as [|j ds IHds]; [done|]. cbn.
    rewrite IHds by (intros k Hk; apply Hin; by right).
    assert (rank j < rank i)%nat by (apply Hin; left). by rewrite (IH n' j) by lia.
Qed.

Definition task_cost (sh : gmap Z (list Z)) (W : Z -> nat) (r : task) : nat :=
  match t_module r with
  | Some i =>
      if running i r && bool_decide (is_Some (sh !! i))
      then W i + (if bool_decide (t_status r = T_QUEUED) then 2 else 1) else 0
  | None => 0
  end%nat.

Definition tasks_cost (sh : gmap Z (list Z)) (W : Z -> nat) (ts : gmap Z task) : nat := table_total (task_cost sh W) ts.

Lemma tasks_cost_alter sh W ts t r f :
  ts !! t = Some r ->
  (tasks_cost sh W (alter f t ts) + task_cost sh W r = tasks_cost sh W ts + task_cost sh W (f r))%nat.
Proof. apply table_total_alter. Qed.

Definition cost (sh : gmap Z (list Z)) (W : Z -> nat) (w : wstate) : nat :=
  (tasks_cost sh W (tasks (wdb w)) + sum_list_with (fun tm => W tm.2) (pending w))%nat.

Lemma queue_cost sh W i h sc d :
  (forall t r, tasks d !! t = Some r -> t < next_task d) ->
  (tasks_cost sh W (tasks (queue_destroy celery i h sc d)) <= tasks_cost sh W (tasks d) + (2 + W i))%nat.
Proof.
  intros Hf. destruct (modules d !! i) as [m|] eqn:Hm; [|unfold queue_destroy; rewrite Hm; lia].
  destruct (queue_tasks celery i h sc d m Hm) as (r & -> & _ & _ & Hmo & Hst & _).
  unfold tasks_cost. rewrite table_total_insert.
  - unfold task_cost. rewrite Hmo. destruct (_ && _); [|lia]. rewrite Hst, bool_decide_true by done. lia.
  - destruct (tasks d !! next_task d) as [r'|] eqn:E; [|done]. apply Hf in E. lia.
Qed.

Lemma queue_fresh i h sc d :
  (forall t r, tasks d !! t = Some r -> t < next_task d) ->
  forall t r, tasks (queue_destroy celery i h sc d) !! t = Some r -> t < next_task (queue_destroy celery i h sc d).
Proof.
  intros Hf t r'. destruct (modules d !! i) as [m|] eqn:Hm; [|unfold queue_destroy; rewrite Hm; apply Hf].
  destruct (queue_tasks celery i h sc d m Hm) as (r & -> & -> & _).
  intros [[<- _]|[_ Ht]]%lookup_insert_Some; [lia|]. apply Hf in Ht. lia.
Qed.

Lemma trigger_cost sh W mid sc st ids d dep :
  (forall t r, tasks d !! t = Some r -> t < next_task d) ->
  (tasks_cost sh W (tasks (trigger_dep celery mid p sc st ids d dep)) <= tasks_cost sh W (tasks d) + (2 + W dep))%nat.
Proof.
  intros Hf. unfold trigger_dep. destruct (modules d !! dep); [|lia].
  repeat (case_match; try lia); by apply queue_cost.
Qed.

Lemma chained_cost sh W mid m d pd pd' t :
  pd ≡ₚ (t, mid) :: pd' -> core p [] d pd -> covered p [] d pd -> proj d !! mid = Some m ->
  (tasks_cost sh W (tasks (chained celery p mid m d)) <=
   tasks_cost sh W (tasks d) + sum_list_with (fun j => S (S (W j))) (pm_dependencies m))%nat.
Proof.
  intros Hpd Hcore Hc Hm.
  destruct (progress_frame' p d pd mid Hcore) as (HM & HT & HN).
  unfold chained. set (d1 := _update_stack_status mid d) in *. rewrite <- HT.
  assert (Hf : forall t r, tasks d1 !! t = Some r -> t < next_task d1).
  { rewrite HT, HN. by apply Hcore. }
  clearbody d1. clear - Hf. revert d1 Hf. induction (pm_dependencies m) as [|x deps IH]; intros d1 Hf; cbn; [lia|].
  assert (Hf' : forall t r, tasks (trigger_dep celery mid p (Some "project") false None d1 x) !! t = Some r ->
    t < next_task (trigger_dep celery mid p (Some "project") false None d1 x)).
  { unfold trigger_dep. repeat (case_match; try exact Hf); by apply queue_fresh. }
  pose proof (trigger_cost sh W mid (Some "project") false None d1 x Hf). specialize (IH _ Hf'). lia.
Qed.

Lemma wstep_cost W w w' :
  wstep w w' -> run_inv w ->
  (forall i ds, shape (wdb w) !! i = Some ds -> (S (sum_list_with (fun j => S (S (W j))) ds) <= W i)%nat) ->
  (cost (shape (wdb w)) W w' < cost (shape (wdb w)) W w)%nat.
Proof.
  intros H. destruct H as [t r mid d pd Ht Hrun [m Hm] Hq|t r mid failure d pd Ht Hrun [m Hm]|t mid d pd pd' Hpd];
    unfold DestroyRun.run_inv, cost; cbn [wdb pending]; intros (Hcore & Hc & _) HW.
  - assert (Hsh : is_Some (shape d !! mid)) by (unfold DestroyRun.shape; rewrite lookup_fmap, Hm; by eexists).
    pose proof (tasks_cost_alter (shape d) W (tasks d) t r (fun r => set_task_status T_IN_PROGRESS (t_error r) r) Ht) as Hal.
    pose proof Hrun as (Hmo & Hty & Hac)%running_spec.
    assert (Hr' : running mid (set_task_status T_IN_PROGRESS (t_error r) r) = true) by by apply running_spec.
    unfold task_cost in Hal. cbn [t_module set_task_status t_status] in Hal. rewrite Hmo, Hrun, Hr', Hq in Hal.
    rewrite bool_decide_true in Hal by done. rewrite (bool_decide_true (T_QUEUED = _)), (bool_decide_false (T_IN_PROGRESS = _)) in Hal by done.
    cbn in Hal. unfold start_task. cbn. lia.
  - assert (Hsh : is_Some (shape d !! mid)) by (unfold DestroyRun.shape; rewrite lookup_fmap, Hm; by eexists).
    destruct (commit_shape t mid failure d) as (f & g & -> & _ & Hg & Hend & _).
    pose proof (tasks_cost_alter (shape d) W (tasks d) t r f Ht) as Hal.
    assert (H0 : task_cost (shape d) W (f r) = 0%nat).
    { unfold task_cost. destruct (t_module (f r)); [|done]. unfold running. by rewrite Hend, andb_false_r. }
    assert (H1 : (W mid + 1 <= task_cost (shape d) W r)%nat).
    { pose proof Hrun as (Hmo & _)%running_spec. unfold task_cost. rewrite Hmo, Hrun, bool_decide_true by done. cbn.
      case_bool_decide; lia. }
    cbn. lia.
  - destruct (trigger_is_chained celery p d pd t mid pd' Hpd Hcore Hc) as (m & Hm & ->).
    assert (Hd : tasks (_run_terminal_detection_project mid m (chained celery p mid m d)).1 =
      tasks (chained celery p mid m d)).
    { unfold _run_terminal_detection_project, _run_terminal_detection_project_legacy. repeat case_match; try done.
      apply update_all_frame. }
    rewrite Hd. pose proof (chained_cost (shape d) W mid m d pd pd' t Hpd Hcore Hc Hm).
    rewrite Hpd. cbn. assert (S (sum_list_with (fun j => S (S (W j))) (pm_dependencies m)) <= W mid)%nat; [|lia].
    apply HW. unfold DestroyRun.shape. by rewrite lookup_fmap, Hm.
Qed.

Lemma weights_exist rank d :
  ranked rank d -> exists W, forall i ds, shape d !! i = Some ds -> (S (sum_list_with (fun j => S (S (W j))) ds) <= W i)%nat.
Proof.
  intros Hr. exists (fun i => weight (shape d) (rank i) i). intros i ds Hi.
  rewrite (weight_enough (shape d) rank (rank i) (S (rank i))) by (done || lia). cbn. rewrite Hi. cbn.
  assert (Hin : forall j, j ∈ ds -> (rank j < rank i)%nat) by eauto. clear Hi. apply le_n_S.
  induction ds as [|j ds IH]; cbn; [lia|].
  assert (rank j < rank i)%nat by (apply Hin; left).
  rewrite (weight_enough (shape d) rank (rank j) (rank i) j) by (done || lia).
  assert (forall j, j ∈ ds -> (rank j < rank i)%nat) by (intros k Hk; apply Hin; by right). specialize (IH ltac:(done)). lia.
Qed.

Lemma runs_bounded rank w :
  run_inv w -> ranked rank (wdb w) -> exists N, forall n w', nsteps wstep n w w' -> (n <= N)%nat.
Proof.
  intros Hi Hr. destruct (weights_exist rank (wdb w) Hr) as [W HW]. exists (cost (shape (wdb w)) W w).
  assert (Hgo : forall n w1 w', nsteps wstep n w1 w' -> run_inv w1 -> shape (wdb w1) = shape (wdb w) ->
    (n <= cost (shape (wdb w)) W w1)%nat); [|eauto].
  induction 1 as [|n w1 w2 w3 Hs _ IH]; intros Hi1 Hs1; [lia|].
  pose proof (wstep_cost W w1 w2 Hs Hi1) as Hlt. rewrite Hs1 in Hlt. specialize (Hlt HW).
  assert (Hs2 : shape (wdb w2) = shape (wdb w)) by (rewrite <- Hs1; by apply wstep_shape).
  specialize (IH (wstep_inv celery p _ _ Hs Hi1) Hs2). lia.
Qed.
End ends.

(** ** What a destroy of a project promises *)

#[local] Unset Default Proof Using.

Section promises.
Context {SO : SetOrder Z} (celery : Z -> string) (p : Z) (rank : Z -> nat) (handle : option string) (force : bool) (d : odb).
Hypothesis HANDLE : truthy_str handle = true.
Hypothesis READY : ready p d.
Hypothesis RANKED : ranked p rank d.

Lemma reachable_inv w :
  rtc (rstep celery p) (started celery p handle force d) w -> run_inv p w /\ ranked p rank (wdb w).
Proof.
  intros Hw. destruct (started_inv celery p rank handle force d HANDLE READY RANKED) as [Hi Hsh].
  destruct (run_steps celery p rank _ w Hw Hi) as (H1 & H2 & _); [|done].
  unfold ranked. by rewrite Hsh.
Qed.


(** Two destroys of one module never run at the same time. *)
Theorem one_destroy_each w i m t r t' r' :
  rtc (rstep celery p) (started celery p handle force d) w ->
  proj p (wdb w) !! i = Some m -> tasks (wdb w) !! t = Some r -> tasks (wdb w) !! t' = Some r' ->
  running i r = true -> running i r' = true -> t = t' /\ pm_status m = DESTROYING.
Proof.
  intros Hw Hi Ht Ht' Hr Hr'. destruct (reachable_inv w Hw) as [(Hcore & _) _]. split.
  - by eapply (inv_unique p _ _ _ Hcore i m).
  - by eapply (inv_tasks p _ _ _ Hcore i m t r).
Qed.

(** C32. Whatever the workers do, in whatever order, and whichever destroys fail,
    the run is over after a bounded number of steps; so it is after every sweep
    of the janitor. *)
Theorem destroy_terminates w :
  rtc (rstep celery p) (started celery p handle force d) w ->
  exists N, forall n w', nsteps (wstep celery p) n w w' -> (n <= N)%nat.
Proof. intros Hw. destruct (reachable_inv w Hw). by apply (runs_bounded celery p rank). Qed.

End promises.

(** A worker that dies between the commit of its module and the trigger that
    follows leaves nothing to recover by: once no task is under way the janitor
    changes nothing and no worker has anything to do, whatever still waits. *)
Theorem lost_trigger_is_final {SO : SetOrder Z} celery p live d :
  (forall t r, tasks d !! t = Some r -> active_task r = false) ->
  reset_stale_tasks celery live d = (d, []) /\ forall w', ~ wstep celery p {| wdb := d; pending := [] |} w'.
Proof.
  intros Hno. split.
  - unfold reset_stale_tasks. assert (E : dead_tasks live d = []); [|by rewrite E].
    apply elem_of_nil_inv. intros [t r] Hin. unfold dead_tasks in Hin. apply list_elem_of_filter in Hin as [_ Hin].
    apply elem_of_select in Hin as [Hr Ha]. by rewrite (Hno t r Hr) in Ha.
  - intros w' H. assert (Hr : forall t r i, tasks d !! t = Some r -> running i r = true -> False).
    { intros t r i Ht (_ & _ & Ha)%running_spec. by rewrite (Hno t r Ht) in Ha. }
    inversion H as [| |? ? ? ? ? Hp]; subst; [by eauto..|]. by apply Permutation_nil_cons in Hp.
Qed.

(** ** A project of two modules *)

Module Example.

#[local] Instance some_order : SetOrder Z := elements_order.
Definition message (t : Z) : string := pretty t.

Definition row (deps : list Z) (st : ModuleStatus) : pmodule :=
  {| pm_project := 1; pm_stack := None; pm_dependencies := deps; pm_status := st; deployment_error := None;
     library_module := Some {| execution_engine := Some "opentofu"; engine_type := Some "terraform" |};
     enabled := true; deployment_order := 0; has_outputs := true |}.

(** Module 2 runs on module 1. *)
Definition d0 : odb :=
  {| modules := {[1 := row [] APPLIED; 2 := row [1] APPLIED]}; tasks := ∅; stacks := ∅; next_task := 1 |}.

Definition w0 : wstate := started message 1 (Some "run") false d0.
Definition w1 : wstate := {| wdb := start_task 1 (wdb w0); pending := [] |}.
Definition w2 : wstate := {| wdb := commit_destroy 1 2 None (wdb w1); pending := [(1, 2)] |}.
Definition w3 : wstate := {| wdb := (after_destroy message 1 2 (wdb w2)).1; pending := [] |}.
Definition w4 : wstate := {| wdb := commit_destroy 2 1 None (wdb w3); pending := [(2, 1)] |}.
Definition w5 : wstate := {| wdb := (after_destroy message 2 1 (wdb w4)).1; pending := [] |}.

Lemma d0_ready : ready 1 d0.
Proof.
  constructor.
  - intros t r H. cbn in H. by rewrite lookup_empty in H.
  - intros i m [Hm _]%proj_Some. cbn in Hm. apply lookup_insert_Some in Hm as [[_ <-]|[_ Hm]]; [done|].
    by apply lookup_singleton_Some in Hm as [_ <-].
  - intros i m t r _ H. cbn in H. by rewrite lookup_empty in H.
Qed.

Lemma d0_ranked : ranked 1 Z.to_nat d0.
Proof.
  intros i ds j. unfold shape. rewrite lookup_fmap. intros (m & [Hm _]%proj_Some & ->)%fmap_Some Hj. cbn in Hm.
  apply lookup_insert_Some in Hm as [[<- <-]|[_ Hm]]; [by apply elem_of_nil in Hj|].
  apply lookup_singleton_Some in Hm as [<- <-]. apply list_elem_of_singleton in Hj as ->. vm_compute. lia.
Qed.

Lemma start_1 : wstep message 1 w0 w1.
Proof.
  eapply (w_start message 1 1 _ 2 (wdb w0) []); [vm_compute; reflexivity|vm_compute; reflexivity| |reflexivity].
  eexists. vm_compute. reflexivity.
Qed.

Lemma commit_2 failure : wstep message 1 w1 {| wdb := commit_destroy 1 2 failure (wdb w1); pending := [(1, 2)] |}.
Proof.
  eapply (w_commit message 1 1 _ 2 failure (wdb w1) []); [vm_compute; reflexivity|vm_compute; reflexivity|].
  eexists. vm_compute. reflexivity.
Qed.

Lemma to_w3 : rtc (rstep message 1) w0 w3.
Proof.
  eapply rtc_l; [apply r_work, start_1|]. eapply rtc_l; [apply r_work, (commit_2 None)|].
  apply rtc_once, r_work. by apply (w_trigger message 1 1 2 (wdb w2) [(1, 2)] []).
Qed.




Lemma one_destroy_each_witness : 2 = 2 /\ DESTROYING = DESTROYING.
Proof.
  refine (one_destroy_each message 1 Z.to_nat (Some "run") false d0 _ d0_ready d0_ranked w3 1 (row [] DESTROYING) 2 _ 2 _
    to_w3 _ _ _ _ _); [reflexivity|vm_compute; reflexivity..].
Defined.

Lemma destroy_terminates_witness :
  exists N, forall n w', nsteps (wstep message 1) n w3 w' -> (n <= N)%nat.
Proof. exact (destroy_terminates message 1 Z.to_nat (Some "run") false d0 eq_refl d0_ready d0_ranked w3 to_w3). Defined.


(** Module 2 is destroyed and its worker gone: module 1 stays as it is. *)
Lemma lost_trigger_is_final_witness :
  modules (wdb w2) !! 1 = Some (row [] APPLIED) /\
  reset_stale_tasks message [] (wdb w2) = (wdb w2, []) /\
  forall w', ~ wstep message 1 {| wdb := wdb w2; pending := [] |} w'.
Proof.
  split; [vm_compute; reflexivity|]. apply (lost_trigger_is_final message 1 [] (wdb w2)).
  refine (bool_decide_unpack (map_Forall (fun _ r => active_task r = false) (tasks (wdb w2))) _). vm_compute. exact I.
Defined.
End Example.
