(* ===== verification/StackDestroy.v ===== *)
(** * Destroying a stack

    What [destroy_stack] starts and what the chain of a stack does where a
    project's does something else (DestroyRun.v, DestroyEnd.v): which modules it
    reaches, and what becomes of the stack's rows. *)

From S2P Require Import Prelude Texts ModuleState Orchestration DestroyChain DestroyRun.

#[local] Open Scope string_scope.
#[local] Open Scope list_scope.
#[local] Open Scope Z_scope.

(** ** Rows *)

Lemma in_stack_spec s m : in_stack s m = true <-> pm_stack m = Some s.
Proof. unfold in_stack. by rewrite bool_decide_eq_true. Qed.

(** A module no recovery touches. *)
Lemma recover_progress_settled {SO : SetOrder Z} d i m : transitional (pm_status m) = false -> recover_progress d i m = m.
Proof. intros H. unfold recover_progress. by rewrite H. Qed.

Lemma recover_progress_keeps {SO : SetOrder Z} d i m :
  pm_stack (recover_progress d i m) = pm_stack m /\ pm_project (recover_progress d i m) = pm_project m /\
  pm_dependencies (recover_progress d i m) = pm_dependencies m.
Proof.
  unfold recover_progress. destruct (_ && _); [|done]. destruct (newest _ _) as [t|]; [|done].
  by destruct (t_status t), (pm_status m).
Qed.

Lemma progress_modules {SO : SetOrder Z} s d i :
  modules (update_stack_progress s d) !! i =
  (fun m => if in_stack s m && bool_decide (is_Some (stacks d !! s)) then recover_progress d i m else m) <$> modules d !! i.
Proof.
  unfold update_stack_progress. destruct (stacks d !! s) as [st|] eqn:Es.
  2: { rewrite bool_decide_false by (by intros [? ?]). destruct (modules d !! i) as [m|]; [|done]. cbn. by rewrite andb_comm. }
  rewrite (bool_decide_true (is_Some _)) by (by eexists).
  destruct (select _ _) as [|x l] eqn:E.
  - assert (Hno : (fun m => if in_stack s m && true then recover_progress d i m else m) <$> modules d !! i = modules d !! i).
    { destruct (modules d !! i) as [m|] eqn:Hm; [|done]. cbn. destruct (in_stack s m) eqn:Hs; [|done].
      assert (Hin : (i, m) ∈ select (fun _ m => in_stack s m) (modules d)) by by apply elem_of_select.
      rewrite E in Hin. by apply elem_of_nil in Hin. }
    rewrite Hno. by destruct (bool_decide _).
  - cbn. rewrite map_lookup_imap. destruct (modules d !! i) as [m|]; [|done]. cbn. by destruct (in_stack s m).
Qed.

Lemma progress_tasks {SO : SetOrder Z} s d : tasks (update_stack_progress s d) = tasks d.
Proof.
  unfold update_stack_progress. destruct (stacks d !! s); [|done]. destruct (select _ _); [|done].
  by destruct (bool_decide _).
Qed.

Lemma progress_stacks {SO : SetOrder Z} s d x :
  is_Some (stacks (update_stack_progress s d) !! x) <-> is_Some (stacks d !! x).
Proof.
  unfold update_stack_progress. destruct (stacks d !! s) as [st|] eqn:E; [|done].
  assert (H : forall f, is_Some (alter f s (stacks d) !! x) <-> is_Some (stacks d !! x)).
  { intros f. destruct (decide (x = s)) as [->|Hx]; [rewrite lookup_alter_eq, E; cbn; by split; eauto|].
    by rewrite lookup_alter_ne. }
  destruct (select _ _); [destruct (bool_decide _); [apply H|done]|apply H].
Qed.

(** ** What the chain reaches *)

Section reach.
Context {SO : SetOrder Z} (celery : Z -> string).

Lemma detection_stack_modules m d i x s :
  pm_stack m = Some s -> modules d !! i = Some x -> in_stack s x = false ->
  modules (_run_terminal_detection_stack m d).1 !! i = Some x.
Proof.
  intros Hs Hi Hx. unfold _run_terminal_detection_stack. rewrite Hs. repeat case_match; try done.
  cbn. apply map_lookup_filter_Some. by split.
Qed.

(** The module [dep] is looked at once its users in the stack are destroyed. *)
Lemma stack_dep_queued s d mid m dep md :
  modules d !! mid = Some m -> pm_stack m = Some s ->
  modules d !! dep = Some md -> pm_project md = pm_project m -> no_infra (pm_status md) = false ->
  some_task (running dep) d = false ->
  (forall x mx, modules d !! x = Some mx -> pm_stack mx = Some s -> dep ∈ pm_dependencies mx -> pm_status mx = DESTROYED) ->
  trigger_dep celery mid (pm_project m) None true
    (match deployed_modules s d with [] => None | ids => Some ids end) d dep =
  queue_destroy celery dep (newest (destroy_of mid) (tasks d) ≫= run_handle) None d.
Proof.
  intros Hm Hs Hdep Hp Hinf Hno Husers. unfold trigger_dep. rewrite Hdep, Hp, bool_decide_true by done. cbn [negb].
  rewrite Hinf.
  assert (Hids : forall i x, modules d !! i = Some x -> i ∈ deployed_modules s d -> pm_stack x = Some s).
  { intros i x Hx. unfold deployed_modules. intros ([i' x'] & -> & Hin)%list_elem_of_fmap.
    apply elem_of_select in Hin as [Hx' Hin%in_stack_spec]. cbn in *. congruence. }
  assert (Hmid : mid ∈ deployed_modules s d).
  { unfold deployed_modules. apply list_elem_of_fmap. exists (mid, m). split; [done|].
    apply elem_of_select. by rewrite in_stack_spec. }
  destruct (deployed_modules s d) as [|i0 ids0] eqn:Eids; [by apply elem_of_nil in Hmid|].
  assert (Hcl : forallb (fun im => clears true im.2)
    (filter (fun im => im.1 ∈ i0 :: ids0) (get_reverse_dependencies dep (pm_project m) d)) = true).
  { apply forallb_forall. intros [x mx] Hx%list_elem_of_In. apply list_elem_of_filter in Hx as [Hin Hx].
    cbn in Hin. unfold get_reverse_dependencies in Hx. apply elem_of_select in Hx as [Hx Hd]. bool_hyps.
    unfold clears. cbn. by rewrite (Husers x mx); eauto. }
  rewrite Hcl. cbn [negb]. unfold running in Hno. by rewrite Hno.
Qed.

(** The stack's own progress leaves what is destroyed, and what is not its own. *)
Lemma progress_row s d i m :
  modules d !! i = Some m -> transitional (pm_status m) = false \/ pm_stack m <> Some s ->
  modules (update_stack_progress s d) !! i = Some m.
Proof.
  intros Hm H. rewrite progress_modules, Hm. cbn. destruct (in_stack s m) eqn:E; [|done].
  destruct H as [H|H]; [|by apply in_stack_spec in E]. cbn. case_match; [|done]. by rewrite recover_progress_settled.
Qed.

Lemma progress_users s d dep :
  (forall x mx, modules d !! x = Some mx -> pm_stack mx = Some s -> dep ∈ pm_dependencies mx -> pm_status mx = DESTROYED) ->
  forall x mx, modules (update_stack_progress s d) !! x = Some mx -> pm_stack mx = Some s -> dep ∈ pm_dependencies mx ->
  pm_status mx = DESTROYED.
Proof.
  intros H x mx. rewrite progress_modules. intros (m0 & H0 & ->)%fmap_Some.
  destruct (in_stack s m0 && _); [|by eauto].
  destruct (recover_progress_keeps d x m0) as (-> & _ & ->). intros Hs Hd. specialize (H x m0 H0 Hs Hd).
  rewrite recover_progress_settled; [done|by rewrite H].
Qed.

(** Destroying a module in the scope of its stack goes on with a module it
    depends on that belongs to another stack, or to none, once the users of
    that module inside the stack are gone: users outside the stack do not
    count. *)
Theorem stack_destroy_escapes d t r mid m s dep md :
  tasks d !! t = Some r -> t < next_task d -> t_type r = Tdestroy -> destroy_scope r = None ->
  truthy_str (run_handle r) = true ->
  modules d !! mid = Some m -> pm_stack m = Some s -> is_Some (stacks d !! s) -> pm_status m = DESTROYED ->
  pm_dependencies m = [dep] ->
  modules d !! dep = Some md -> pm_project md = pm_project m -> pm_stack md <> Some s ->
  no_infra (pm_status md) = false -> some_task (running dep) d = false ->
  (forall x mx, modules d !! x = Some mx -> pm_stack mx = Some s -> dep ∈ pm_dependencies mx -> pm_status mx = DESTROYED) ->
  modules (after_destroy celery t mid d).1 !! dep = Some (set_status DESTROYING md).
Proof.
  intros Ht Hfr Hty Hsc Hrh Hm Hs Hst Hdes Hdeps Hdep Hp Hout Hinf Hno Husers.
  unfold after_destroy, _update_stack_status. rewrite Hm. cbn [mbind option_bind]. rewrite Hs.
  set (d1 := update_stack_progress s d).
  assert (Hm1 : modules d1 !! mid = Some m) by (apply progress_row; [done|left; by rewrite Hdes]).
  assert (Hdep1 : modules d1 !! dep = Some md) by (apply progress_row; [done|by right]).
  assert (Hscope : forall d2, tasks d2 !! t = Some r -> _destroy_scope_for mid (Some t) d2 = None).
  { intros d2 H2. unfold _destroy_scope_for. rewrite H2. cbn [mbind option_bind]. rewrite bool_decide_true by done.
    by rewrite Hsc, Hrh. }
  assert (HT : tasks d1 = tasks d) by apply progress_tasks.
  assert (Hst1 : is_Some (stacks d1 !! s)) by by apply progress_stacks. destruct Hst1 as [st1 Hst1].
  unfold _trigger_next_destroy_module. rewrite Hm1, Hscope, Hdeps by by rewrite HT.
  cbn [is_scope negb andb foldl]. rewrite Hs, bool_decide_false by done. cbn [negb mbind option_bind].
  rewrite Hst1. cbn [mbind option_bind].
  rewrite (stack_dep_queued s d1 mid m dep md) by
    (done || (unfold some_task in *; by rewrite HT) || (by eapply progress_users)).
  set (d2 := queue_destroy celery dep _ None d1).
  assert (Hd2 : modules d2 !! dep = Some (set_status DESTROYING md))
    by (unfold d2, queue_destroy; rewrite Hdep1; cbn; by rewrite lookup_alter_eq, Hdep1).
  unfold _run_terminal_detection. rewrite Hscope, Hs.
  - apply (detection_stack_modules m d2 dep _ s); [done..|]. by apply bool_decide_eq_false.
  - unfold d2. destruct (queue_tasks celery dep (newest (destroy_of mid) (tasks d1) ≫= run_handle) None d1 md Hdep1) as (r' & -> & _).
    rewrite lookup_insert_ne, HT; [done|].
    assert (next_task d1 = next_task d); [|lia].
    unfold d1, update_stack_progress. repeat case_match; done.
Qed.
End reach.

(** ** The rows of a destroyed stack *)

Lemma count_all P ms : (forall im, im ∈ ms -> P (pm_status im.2) = true) -> count_modules P ms = Z.of_nat (length ms).
Proof.
  intros H. unfold count_modules. f_equal. induction ms as [|im ms IH]; [done|].
  rewrite filter_cons_True by (apply H; left). cbn. f_equal. apply IH. intros x Hx. apply H. by right.
Qed.

Lemma count_none P ms : (forall im, im ∈ ms -> P (pm_status im.2) = false) -> count_modules P ms = 0.
Proof.
  intros H. unfold count_modules. induction ms as [|im ms IH]; [done|].
  rewrite filter_cons_False by (rewrite H by left; done). apply IH. intros x Hx. apply H. by right.
Qed.

Section rows.
Context {SO : SetOrder Z} (celery : Z -> string).

Lemma progress_destroyed ms st :
  s_status st = S_DESTROYING -> (forall im, im ∈ ms -> pm_status im.2 = DESTROYED) ->
  s_status (progress_of ms st) = S_DESTROYED.
Proof.
  intros Hst H. unfold progress_of. rewrite Hst.
  rewrite (count_none says_failed) by (intros im Him; by rewrite (H im Him)).
  rewrite (count_all (fun st => bool_decide (st = DESTROYED))) by (intros im Him; by rewrite (H im Him)).
  cbn. by rewrite Z.eqb_refl.
Qed.

(** The chain does nothing for a dependency without infrastructure. *)
Lemma trigger_nothing mid p sc st ids d deps :
  (forall dep md, dep ∈ deps -> modules d !! dep = Some md -> no_infra (pm_status md) = true) ->
  foldl (trigger_dep celery mid p sc st ids) d deps = d.
Proof.
  induction deps as [|dep deps IH]; intros H; [done|]. cbn [foldl].
  assert (E : trigger_dep celery mid p sc st ids d dep = d).
  { unfold trigger_dep. destruct (modules d !! dep) as [md|] eqn:Hd; [|done].
    rewrite (H dep md) by (done || left). by destruct (negb _). }
  rewrite E. apply IH. intros x mx Hx. apply H. by right.
Qed.

(** When the last module of a stack has been destroyed the worker first brings
    the stack's progress up to date, which makes it DESTROYED; the detection of
    the end, which wants DESTROYING, then does nothing: the rows of the modules
    stay. *)
Theorem stack_rows_outlive d t r mid m s st :
  tasks d !! t = Some r -> t_type r = Tdestroy -> destroy_scope r = None -> truthy_str (run_handle r) = true ->
  modules d !! mid = Some m -> pm_stack m = Some s ->
  stacks d !! s = Some st -> s_status st = S_DESTROYING ->
  (forall x mx, modules d !! x = Some mx -> pm_stack mx = Some s -> pm_status mx = DESTROYED) ->
  (forall dep md, dep ∈ pm_dependencies m -> modules d !! dep = Some md -> pm_stack md = Some s) ->
  exists st', (after_destroy celery t mid d).2 = NotYet /\
    modules (after_destroy celery t mid d).1 = modules d /\
    stacks (after_destroy celery t mid d).1 !! s = Some st' /\ s_status st' = S_DESTROYED.
Proof.
  intros Ht Hty Hsc Hrh Hm Hs Hst Hdes Hall Hdeps.
  unfold after_destroy, _update_stack_status. rewrite Hm. cbn [mbind option_bind]. rewrite Hs.
  set (d1 := update_stack_progress s d).
  assert (HM : modules d1 = modules d).
  { apply map_eq. intros i. unfold d1. destruct (modules d !! i) as [mi|] eqn:E.
    - apply progress_row; [done|]. destruct (decide (pm_stack mi = Some s)) as [Hi|]; [left|by right].
      by rewrite (Hall i mi).
    - by rewrite progress_modules, E. }
  assert (HT : tasks d1 = tasks d) by apply progress_tasks.
  assert (Hst1 : exists st1, stacks d1 !! s = Some st1 /\ s_status st1 = S_DESTROYED).
  { unfold d1, update_stack_progress. rewrite Hst.
    assert (Hin : (mid, m) ∈ select (fun _ m => in_stack s m) (modules d)) by (apply elem_of_select; by rewrite in_stack_spec).
    destruct (select _ (modules d)) as [|x l] eqn:E; [by apply elem_of_nil in Hin|].
    cbn [stacks update_stack with_stacks with_modules]. rewrite lookup_alter_eq, Hst. eexists. split; [reflexivity|].
    apply progress_destroyed; [done|]. intros [i mi] Hi. apply elem_of_select in Hi as [Hi Hsi].
    cbn [modules with_modules] in Hi. rewrite map_lookup_imap in Hi. destruct (modules d !! i) as [m0|] eqn:E0; [|done].
    cbn in Hi. injection Hi as <-. apply in_stack_spec in Hsi. cbn.
    destruct (in_stack s m0) eqn:Es; [|by apply in_stack_spec in Hsi; rewrite Hsi in Es].
    apply in_stack_spec in Es. assert (Hd0 := Hall i m0 E0 Es).
    rewrite recover_progress_settled; [done|by rewrite Hd0]. }
  destruct Hst1 as (st1 & Hst1 & Hdes1).
  assert (Hscope : _destroy_scope_for mid (Some t) d1 = None).
  { unfold _destroy_scope_for. rewrite HT, Ht. cbn [mbind option_bind]. rewrite bool_decide_true by done.
    by rewrite Hsc, Hrh. }
  unfold _trigger_next_destroy_module. rewrite HM, Hm, Hscope. cbn [is_scope].
  rewrite trigger_nothing.
  2: { intros dep md Hdep Hmd. rewrite HM in Hmd. by rewrite (Hall dep md); eauto. }
  unfold _run_terminal_detection. rewrite Hscope, Hs. unfold _run_terminal_detection_stack.
  rewrite Hs, Hst1, Hdes1. cbn. eauto.
Qed.
End rows.

(** ** The first wave of a stack *)

Lemma some_task_ext {SO : SetOrder Z} P d d' :
  (forall t r, tasks d !! t = Some r -> P r = true -> exists t' r', tasks d' !! t' = Some r' /\ P r' = true) ->
  (forall t r, tasks d' !! t = Some r -> P r = true -> exists t' r', tasks d !! t' = Some r' /\ P r' = true) ->
  some_task P d' = some_task P d.
Proof.
  intros H1 H2. apply eq_true_iff_eq. rewrite !some_task_true. split; intros (t & r & Hr & HP); eauto.
Qed.

Section wave.
Context {SO : SetOrder Z} (celery : Z -> string) (h : option string) (scope : list Z) (d0 : odb).
Hypothesis INFRA : forall i, i ∈ scope -> exists m, modules d0 !! i = Some m /\ no_infra (pm_status m) = false /\ pm_status m <> DESTROYING.

(** Whether the first wave takes the module [i]. *)
Definition used_in_scope (d : odb) (i : Z) : bool :=
  existsb (fun j => match modules d !! j with
                    | Some x => bool_decide (i ∈ pm_dependencies x) && negb (no_infra (pm_status x))
                    | None => false
                    end) scope.
Definition goes (i : Z) : bool := negb (used_in_scope d0 i) && negb (some_task (running i) d0).

Record swave_inv (l : list Z) (d : odb) : Prop := {
  sw_modules i : modules d !! i =
    (fun m => if bool_decide (i ∈ scope /\ i ∉ l) && goes i then set_status DESTROYING m else m) <$> modules d0 !! i;
  sw_stacks : stacks d = stacks d0;
  sw_fresh t r : tasks d !! t = Some r -> t < next_task d;
  sw_running i : bool_decide (i ∈ scope /\ i ∉ l) && goes i = false -> some_task (running i) d = some_task (running i) d0;
  sw_task i : i ∈ scope -> i ∉ l -> goes i = true ->
    exists t r, tasks d !! t = Some r /\ running i r = true /\ run_handle r = h
}.

Lemma used_same l d i : swave_inv l d -> used_in_scope d i = used_in_scope d0 i.
Proof.
  intros [HM _ _ _ _]. unfold used_in_scope. revert INFRA.
  assert (H : forall l', (forall j, j ∈ l' -> j ∈ scope) -> (forall i, i ∈ scope -> exists m, modules d0 !! i = Some m /\
    no_infra (pm_status m) = false /\ pm_status m <> DESTROYING) ->
    existsb (fun j => match modules d !! j with
                    | Some x => bool_decide (i ∈ pm_dependencies x) && negb (no_infra (pm_status x))
                    | None => false
                    end) l' =
    existsb (fun j => match modules d0 !! j with
                    | Some x => bool_decide (i ∈ pm_dependencies x) && negb (no_infra (pm_status x))
                    | None => false
                    end) l'); [|by apply H].
  induction l' as [|j l' IH]; intros Hl HI; [done|]. cbn. f_equal; [|apply IH; [intros; apply Hl; by right|done]].
  destruct (HI j) as (m & Hm & Hn & _); [apply Hl; left|]. rewrite HM, Hm. cbn.
  destruct (_ && goes j); [|done]. cbn. by rewrite Hn.
Qed.

Lemma swave_step l d first i :
  i ∈ scope -> i ∉ l -> swave_inv (i :: l) d -> swave_inv l (first_wave_stack_module celery h scope (d, first) i).1.
Proof.
  intros Hi Hil Hinv. pose proof (used_same _ _ i Hinv) as Hused. pose proof Hinv as [HM HS HF HR HK].
  destruct (INFRA i Hi) as (m & Hm & Hn & Hd).
  assert (Hat : forall j, bool_decide (j ∈ scope /\ j ∉ i :: l) = bool_decide (j ∈ scope /\ j ∉ l) && negb (bool_decide (j = i))).
  { intros j. apply eq_true_iff_eq. rewrite andb_true_iff, negb_true_iff, !bool_decide_eq_true, bool_decide_eq_false, not_elem_of_cons.
    tauto. }
  assert (Hself : bool_decide (i ∈ scope /\ i ∉ l) = true) by by apply bool_decide_eq_true.
  assert (Hmi : modules d !! i = Some m).
  { rewrite HM, Hm. cbn. by rewrite Hat, (bool_decide_true (i = i)), andb_false_r. }
  assert (Hri : some_task (running i) d = some_task (running i) d0).
  { apply HR. by rewrite Hat, (bool_decide_true (i = i)), andb_false_r. }
  assert (Hskip : goes i = false -> swave_inv l d).
  { intros Hg. constructor; try done.
    - intros j. rewrite HM, Hat. destruct (decide (j = i)) as [->|Hj].
      + by rewrite Hg, !andb_false_r.
      + by rewrite (bool_decide_false (j = i)), andb_true_r.
    - intros j Hj. apply HR. rewrite Hat. destruct (bool_decide (j ∈ scope /\ j ∉ l)); [|done].
      cbn in *. by rewrite Hj, andb_false_r.
    - intros j Hj Hjl Hg'. apply HK; [done| |done]. rewrite not_elem_of_cons. split; [congruence|done]. }
  unfold first_wave_stack_module. rewrite Hmi, Hn. fold (used_in_scope d i). rewrite Hused.
  destruct (used_in_scope d0 i) eqn:Eu; [apply Hskip; unfold goes; by rewrite Eu|].
  destruct (select _ (tasks d)) as [|[t r] ts] eqn:Hsel.
  2: { apply Hskip. unfold goes. rewrite Eu. cbn. apply negb_false_iff. rewrite <- Hri. apply some_task_true. exists t, r.
       assert (Hin : (t, r) ∈ select (fun _ t => destroy_of i t && active_task t) (tasks d)) by (rewrite Hsel; left).
       by apply elem_of_select in Hin. }
  assert (Hg : goes i = true).
  { unfold goes. rewrite Eu. cbn. apply negb_true_iff. rewrite <- Hri. apply not_true_iff_false. intros (t & r & Hr & Hrun)%some_task_true.
    assert (Hin : (t, r) ∈ select (fun _ t => destroy_of i t && active_task t) (tasks d)) by by apply elem_of_select.
    rewrite Hsel in Hin. by apply elem_of_nil in Hin. }
  cbn [fst]. destruct (queue_tasks celery i h None d m Hmi) as (r & HT & HN & Hty & Hmo & Hst & Hrh & Hsc).
  assert (Hrun : forall j, running j r = true <-> j = i).
  { intros j. rewrite running_spec. unfold active_task. rewrite Hty, Hmo, Hst. naive_solver. }
  assert (Hkeep : forall t r', tasks d !! t = Some r' -> tasks (queue_destroy celery i h None d) !! t = Some r').
  { intros t r' Ht. rewrite HT, lookup_insert_ne; [done|]. intros <-. specialize (HF _ _ Ht). lia. }
  constructor.
  - intros j. assert (HQ : modules (queue_destroy celery i h None d) = alter (set_status DESTROYING) i (modules d)).
    { unfold queue_destroy. by rewrite Hmi. }
    rewrite HQ. destruct (decide (j = i)) as [->|Hj].
    + by rewrite lookup_alter_eq, Hmi, Hm, Hself, Hg.
    + rewrite lookup_alter_ne, HM, Hat, (bool_decide_false (j = i)), andb_true_r by done. done.
  - unfold queue_destroy. rewrite Hmi. done.
  - intros t r'. rewrite HT, HN. intros [[<- _]|[_ Ht]]%lookup_insert_Some; [lia|]. apply HF in Ht. lia.
  - intros j Hj. assert (Hne : j <> i) by (intros ->; by rewrite Hself, Hg in Hj).
    rewrite <- (HR j).
    + apply some_task_ext; [eauto|]. intros t r'. rewrite HT. intros [[<- <-]|[_ Ht]]%lookup_insert_Some Hr'; [|eauto].
      by apply Hrun in Hr'.
    + rewrite Hat. destruct (bool_decide (j ∈ scope /\ j ∉ l)); [|done]. cbn in *. by rewrite Hj, andb_false_r.
  - intros j Hj Hjl Hgj. destruct (decide (j = i)) as [->|Hne].
    + exists (next_task d), r. rewrite HT, lookup_insert_eq. split_and!; [done|by apply Hrun|done].
    + destruct (HK j Hj) as (t & r' & Ht & ?); [by rewrite not_elem_of_cons|done|]. eauto.
Qed.

Lemma swaves l d first :
  (forall i, i ∈ l -> i ∈ scope) -> NoDup l -> swave_inv l d ->
  swave_inv [] (foldl (first_wave_stack_module celery h scope) (d, first) l).1.
Proof.
  revert d first. induction l as [|i l IH]; intros d first Hl Hnd Hinv; [done|].
  apply NoDup_cons in Hnd as [Hi Hnd]. cbn [foldl].
  assert (Hw := swave_step l d first i (Hl i ltac:(left)) Hi Hinv).
  destruct (first_wave_stack_module celery h scope (d, first) i) as [d' first'].
  apply IH; [intros; apply Hl; by right|done|done].
Qed.

Lemma swave_start : (forall t r, tasks d0 !! t = Some r -> t < next_task d0) -> swave_inv scope d0.
Proof.
  intros HF. constructor; try done.
  - intros i. rewrite bool_decide_false by tauto. cbn. by destruct (modules d0 !! i).
Qed.
End wave.

Section destroy_stack.
Context {SO : SetOrder Z} (celery : Z -> string).

Lemma recover_destroy_keeps d i m :
  pm_stack (recover_for_destroy d i m) = pm_stack m /\
  pm_dependencies (recover_for_destroy d i m) = pm_dependencies m.
Proof.
  unfold recover_for_destroy. destruct (_ && _); [|done].
  destruct (newest _ _) as [t|]; [destruct (t_status t)|]; by destruct (pm_status m).
Qed.

Lemma delete_running P d i m :
  modules d !! i = Some m -> P i m = false -> some_task (running i) (delete_modules P d) = some_task (running i) d.
Proof.
  intros Hm HP. apply eq_true_iff_eq. rewrite !some_task_true. cbn. setoid_rewrite lookup_fmap.
  split.
  - intros (t & r & (r0 & H0 & ->)%fmap_Some & Hr). exists t, r0. split; [done|]. revert Hr.
    destruct (t_module r0) as [j|] eqn:Ej; [|done]. destruct (modules d !! j) as [mj|]; [|done]. by destruct (P j mj).
  - intros (t & r & Hr & Hrun). exists t. rewrite Hr. eexists. split; [reflexivity|].
    pose proof Hrun as (Hmo & _)%running_spec. by rewrite Hmo, Hm, HP.
Qed.

(** The rows after the first wave over the stack's rows. *)
Lemma wave_result s h scope d d' :
  (forall i, i ∈ scope <-> exists m, modules d !! i = Some m /\ pm_stack m = Some s) ->
  (forall i m, modules d !! i = Some m -> pm_stack m = Some s -> no_infra (pm_status m) = false /\ pm_status m <> DESTROYING) ->
  swave_inv h scope d [] d' ->
  (forall i m, modules d' !! i = Some m -> pm_stack m = Some s ->
     (pm_status m = DESTROYING <->
        (forall x mx, modules d' !! x = Some mx -> pm_stack mx = Some s -> i ∉ pm_dependencies mx) /\
        some_task (running i) d = false) /\
     (pm_status m = DESTROYING -> exists t r, tasks d' !! t = Some r /\ running i r = true /\ run_handle r = h)) /\
  (forall i, is_Some (modules d' !! i) <-> is_Some (modules d !! i)) /\
  (forall i m, pm_stack m <> Some s -> modules d' !! i = Some m <-> modules d !! i = Some m).
Proof.
  intros Hsc Hinf [HM _ _ _ HK].
  assert (Hrow : forall i m, modules d' !! i = Some m -> exists m0, modules d !! i = Some m0 /\
    pm_stack m = pm_stack m0 /\ pm_dependencies m = pm_dependencies m0 /\
    m = if bool_decide (i ∈ scope /\ i ∉ []) && goes scope d i then set_status DESTROYING m0 else m0).
  { intros i m Hm. rewrite HM in Hm. apply fmap_Some in Hm as (m0 & H0 & E). exists m0. rewrite E.
    split_and!; [done|by case_match|by case_match|done]. }
  assert (Hused : forall i, used_in_scope scope d i = true <->
    exists x mx, modules d !! x = Some mx /\ pm_stack mx = Some s /\ i ∈ pm_dependencies mx).
  { intros i. unfold used_in_scope. rewrite existsb_exists. split.
    - intros (x & Hx%list_elem_of_In & H). apply Hsc in Hx as (mx & Hx & Hs). rewrite Hx in H. bool_hyps. eauto.
    - intros (x & mx & Hx & Hs & Hd). exists x. split; [apply list_elem_of_In, Hsc; eauto|]. rewrite Hx.
      destruct (Hinf x mx Hx Hs) as [-> _]. by rewrite bool_decide_true. }
  assert (Hgo : forall i, goes scope d i = true <->
    (forall x mx, modules d' !! x = Some mx -> pm_stack mx = Some s -> i ∉ pm_dependencies mx) /\
    some_task (running i) d = false).
  { intros i. unfold goes. rewrite andb_true_iff, !negb_true_iff, <- not_true_iff_false, Hused.
    split; intros [H Hrn]; split; try done.
    - intros x mx Hx Hs Hd. destruct (Hrow x mx Hx) as (m0 & Hm0 & Es & Ed & _). apply H. exists x, m0. by rewrite <- Es, <- Ed.
    - intros (x & mx & Hx & Hs & Hd). set (mx' := if bool_decide (x ∈ scope /\ x ∉ []) && goes scope d x then set_status DESTROYING mx else mx).
      apply (H x mx'); [by rewrite HM, Hx|by unfold mx'; case_match|by unfold mx'; case_match]. }
  split_and!.
  - intros i m Hm Hs. destruct (Hrow i m Hm) as (m0 & H0 & Es & _ & E). rewrite Es in Hs.
    assert (Hi : i ∈ scope) by (apply Hsc; eauto). destruct (Hinf i m0 H0 Hs) as [Hn Hd].
    assert (Hin : i ∉ []) by apply not_elem_of_nil.
    rewrite bool_decide_true in E by done. cbn [andb] in E. rewrite <- Hgo.
    destruct (goes scope d i) eqn:Hg; subst m; (split; [by split|]); [intros _; by apply HK|by intros ?].
  - intros i. rewrite HM. by rewrite fmap_is_Some.
  - intros i m Hs. rewrite HM.
    assert (Hno : forall m0, modules d !! i = Some m0 -> pm_stack m0 <> Some s ->
      bool_decide (i ∈ scope /\ i ∉ []) = false).
    { intros m0 Hm0 Hs0. apply bool_decide_eq_false. intros [Hi _]. apply Hsc in Hi as (m1 & Hm1 & ?). congruence. }
    split.
    + intros (m0 & H0 & E)%fmap_Some. assert (Hs0 : pm_stack m0 <> Some s) by (intros H; apply Hs; rewrite E; by case_match).
      rewrite (Hno m0 H0 Hs0) in E. by subst.
    + intros H0. rewrite H0. cbn. by rewrite (Hno m H0 Hs).
Qed.

(** What [destroy_stack] answers Initiated for: the rows of the stack without
    infrastructure are gone, the others stay, and of these the ones no other
    uses, and only they, are being destroyed, each by a task of the run, unless
    a destroy of theirs was under way; no other module changes. *)
Theorem destroy_stack_first_wave s h d d' n k :
  (forall t r, tasks d !! t = Some r -> t < next_task d) ->
  destroy_stack celery s h d = (d', Initiated n k) ->
  (s_status <$> stacks d' !! s = Some S_DESTROYING) /\
  (forall i m, modules d !! i = Some m -> pm_stack m = Some s ->
     no_infra (pm_status (recover_for_destroy d i m)) = false <-> is_Some (modules d' !! i)) /\
  (forall i m, modules d' !! i = Some m -> pm_stack m = Some s ->
     (pm_status m = DESTROYING <->
        (forall x mx, modules d' !! x = Some mx -> pm_stack mx = Some s -> i ∉ pm_dependencies mx) /\
        some_task (running i) d = false) /\
     (pm_status m = DESTROYING -> exists t r, tasks d' !! t = Some r /\ running i r = true /\ run_handle r = Some h)) /\
  (forall i m, pm_stack m <> Some s -> modules d' !! i = Some m <-> modules d !! i = Some m).
Proof.
  intros HF. unfold destroy_stack. destruct (stacks d !! s) as [st|] eqn:Est; [|done].
  destruct (bool_decide (s_status st = S_DESTROYING)); [done|]. destruct (bool_decide (stack_modules s d = [])); [done|].
  set (d1 := with_modules _ d). set (ms := stack_modules s d1).
  destruct (filter (fun im => transitional (pm_status im.2) = true) ms) as [|[? ?] ?] eqn:Etr; [|done].
  set (td := filter (fun im => no_infra (pm_status im.2) = false) ms).
  set (P := fun (_ : Z) m => in_stack s m && no_infra (pm_status m)). set (d2 := delete_modules P d1).
  destruct td as [|x td'] eqn:Etd; [done|]. rewrite <- Etd. intros [= <- _ _].
  set (d3 := update_stack s _ d2).
  assert (H1 : forall i m, modules d1 !! i = Some m <-> exists m0, modules d !! i = Some m0 /\ pm_stack m = pm_stack m0 /\
    m = if in_stack s m0 then recover_for_destroy d i m0 else m0).
  { intros i m. cbn. rewrite map_lookup_imap. destruct (modules d !! i) as [m0|]; cbn; [|naive_solver]. split.
    - intros [= <-]. exists m0. split_and!; [done| |done]. case_match; [|done]. by destruct (recover_destroy_keeps d i m0).
    - by intros (? & [= <-] & _ & ->). }
  assert (H3 : forall i m, modules d3 !! i = Some m <-> modules d1 !! i = Some m /\ P i m = false).
  { intros i m. cbn. by rewrite map_lookup_filter_Some. }
  assert (Htd : forall i m, (i, m) ∈ td <-> modules d3 !! i = Some m /\ pm_stack m = Some s).
  { intros i m. unfold td. rewrite list_elem_of_filter. unfold ms, stack_modules.
    rewrite elem_of_select, H3, <- in_stack_spec. unfold P. cbn [snd].
    destruct (in_stack s m), (no_infra (pm_status m)); cbn; intuition congruence. }
  assert (Hrun : forall i m, modules d3 !! i = Some m -> some_task (running i) d3 = some_task (running i) d).
  { intros i m [Hm HP]%H3. etransitivity; [|exact (delete_running P d1 i m Hm HP)]. done. }
  assert (Hsc : forall i, i ∈ td.*1 <-> exists m, modules d3 !! i = Some m /\ pm_stack m = Some s).
  { intros i. rewrite list_elem_of_fmap. split.
    - intros ([j m] & -> & Hin%Htd). eauto.
    - intros (m & Hm & Hs). exists (i, m). split; [done|]. by apply Htd. }
  assert (Hinf : forall i m, modules d3 !! i = Some m -> pm_stack m = Some s ->
    no_infra (pm_status m) = false /\ pm_status m <> DESTROYING).
  { intros i m Hm Hs. assert (Hin : (i, m) ∈ td) by by apply Htd.
    unfold td in Hin. apply list_elem_of_filter in Hin as [Hn Hin]. split; [done|]. intros Hd.
    assert (Hbad : (i, m) ∈ filter (fun im => transitional (pm_status im.2) = true) ms)
      by (apply list_elem_of_filter; cbn; by rewrite Hd).
    rewrite Etr in Hbad. by apply elem_of_nil in Hbad. }
  assert (HF3 : forall t r, tasks d3 !! t = Some r -> t < next_task d3).
  { intros t r Ht. cbn in Ht. rewrite lookup_fmap in Ht. apply fmap_Some in Ht as (r0 & H0 & _). by apply (HF t r0). }
  assert (Hw : swave_inv (Some h) td.*1 d3 [] (foldl (first_wave_stack_module celery (Some h) td.*1) (d3, None) td.*1).1).
  { apply swaves; [|done| |by apply swave_start].
    - intros i (m & Hm & Hs)%Hsc. exists m. split; [done|]. by apply (Hinf i m).
    - unfold td, ms, stack_modules. apply filter_fst_NoDup, select_NoDup. }
  unfold _dispatch_first_destroy_wave_stack. set (d' := (foldl _ _ _).1) in *.
  destruct (wave_result s (Some h) td.*1 d3 d' Hsc Hinf Hw) as (HA & HB & HC).
  split_and!.
  - destruct Hw as [_ -> _ _ _]. cbn. by rewrite lookup_alter_eq, Est.
  - intros i m Hm Hs. rewrite HB.
    assert (Hin : in_stack s m = true) by by apply in_stack_spec.
    assert (Hm1 : modules d1 !! i = Some (recover_for_destroy d i m)).
    { apply H1. exists m. rewrite Hin. by destruct (recover_destroy_keeps d i m). }
    assert (Hs1 : in_stack s (recover_for_destroy d i m) = true).
    { apply in_stack_spec. by destruct (recover_destroy_keeps d i m) as [-> _]. }
    split.
    + intros Hn. eexists. apply H3. split; [exact Hm1|]. unfold P. by rewrite Hn, andb_false_r.
    + intros [m' [Hm' HP]%H3]. rewrite Hm1 in Hm'. injection Hm' as <-. unfold P in HP. by rewrite Hs1 in HP.
  - intros i m Hm Hs. destruct (HA i m Hm Hs) as [HA1 HA2]. split; [|done]. rewrite HA1.
    destruct (proj1 (HB i) (mk_is_Some _ _ Hm)) as [m3 Hm3]. by rewrite (Hrun i m3 Hm3).
  - intros i m Hs. rewrite HC, H3, H1 by done.
    assert (Hin : in_stack s m = false) by by apply bool_decide_eq_false.
    unfold P. rewrite Hin. cbn [andb]. split.
    + intros [(m0 & H0 & Es & E) _]. assert (Hin0 : in_stack s m0 = false) by (apply bool_decide_eq_false; by rewrite <- Es).
      rewrite Hin0 in E. by subst.
    + intros H0. split; [|done]. exists m. by rewrite Hin.
Qed.
End destroy_stack.

(** ** A stack of two modules and its neighbours *)

Module Example.

#[local] Instance some_order : SetOrder Z := elements_order.
Definition message (t : Z) : string := pretty t.

Definition row (s : option Z) (deps : list Z) (st : ModuleStatus) : pmodule :=
  {| pm_project := 1; pm_stack := s; pm_dependencies := deps; pm_status := st; deployment_error := None;
     library_module := None; enabled := true; deployment_order := 0; has_outputs := true |}.
Definition a_stack (st : StackInstanceStatus) : stack :=
  {| s_project := 1; s_status := st; s_error := None; current_step := 0; total_steps := Some 1 |}.
Definition a_task (i : Z) : task :=
  {| t_type := Tdestroy; t_status := T_COMPLETED; t_project := 1; t_module := Some i; celery_task_id := Some "c";
     run_handle := Some "run"; destroy_scope := None; t_error := None |}.

(** Module 1 of no stack is used by module 2 of stack 1 and by module 3 of stack 2. *)
Definition shared : odb :=
  {| modules := {[1 := row None [] APPLIED; 2 := row (Some 1) [1] DESTROYED; 3 := row (Some 2) [1] APPLIED]};
     tasks := {[1 := a_task 2]}; stacks := {[1 := a_stack S_DESTROYING; 2 := a_stack S_DEPLOYED]}; next_task := 2 |}.

Lemma stack_destroy_escapes_witness :
  modules (after_destroy message 1 2 shared).1 !! 1 = Some (row None [] DESTROYING).
Proof.
  refine (stack_destroy_escapes message shared 1 (a_task 2) 2 (row (Some 1) [1] DESTROYED) 1 1 (row None [] APPLIED)
    _ _ _ _ _ _ _ _ _ _ _ _ _ _ _ _); try reflexivity; try discriminate.
  - eexists. vm_compute. reflexivity.
  - refine (bool_decide_unpack (map_Forall (fun _ mx => pm_stack mx = Some 1 -> 1 ∈ pm_dependencies mx ->
      pm_status mx = DESTROYED) (modules shared)) _). vm_compute. exact I.
Defined.

Definition last_one : odb :=
  {| modules := {[1 := row (Some 1) [] DESTROYED]}; tasks := {[1 := a_task 1]};
     stacks := {[1 := a_stack S_DESTROYING]}; next_task := 2 |}.

Lemma stack_rows_outlive_witness :
  exists st', (after_destroy message 1 1 last_one).2 = NotYet /\
    modules (after_destroy message 1 1 last_one).1 = modules last_one /\
    stacks (after_destroy message 1 1 last_one).1 !! 1 = Some st' /\ s_status st' = S_DESTROYED.
Proof.
  refine (stack_rows_outlive message last_one 1 (a_task 1) 1 (row (Some 1) [] DESTROYED) 1 (a_stack S_DESTROYING)
    _ _ _ _ _ _ _ _ _ _); try reflexivity.
  - refine (bool_decide_unpack (map_Forall (fun _ mx => pm_stack mx = Some 1 -> pm_status mx = DESTROYED)
      (modules last_one)) _). vm_compute. exact I.
  - intros dep md Hdep. by apply elem_of_nil in Hdep.
Defined.

Definition deployed : odb :=
  {| modules := {[1 := row (Some 1) [] APPLIED; 2 := row (Some 1) [1] APPLIED; 3 := row (Some 1) [] PLANNED]};
     tasks := ∅; stacks := {[1 := a_stack S_DEPLOYED]}; next_task := 1 |}.

Lemma destroy_stack_first_wave_witness :
  let d' := (destroy_stack message 1 "run" deployed).1 in
  (s_status <$> stacks d' !! 1 = Some S_DESTROYING) /\
  (forall i m, modules deployed !! i = Some m -> pm_stack m = Some 1 ->
     no_infra (pm_status (recover_for_destroy deployed i m)) = false <-> is_Some (modules d' !! i)) /\
  (forall i m, modules d' !! i = Some m -> pm_stack m = Some 1 ->
     (pm_status m = DESTROYING <->
        (forall x mx, modules d' !! x = Some mx -> pm_stack mx = Some 1 -> i ∉ pm_dependencies mx) /\
        some_task (running i) deployed = false) /\
     (pm_status m = DESTROYING -> exists t r, tasks d' !! t = Some r /\ running i r = true /\ run_handle r = Some "run")) /\
  (forall i m, pm_stack m <> Some 1 -> modules d' !! i = Some m <-> modules deployed !! i = Some m).
Proof.
  cbn zeta. refine (destroy_stack_first_wave message 1 "run" deployed _ 2 1 _ _).
  - intros t r H. cbn in H. by rewrite lookup_empty in H.
  - rewrite (surjective_pairing (destroy_stack message 1 "run" deployed)). f_equal.
Defined.
End Example.
