(* ===== verification/Cancel.v ===== *)
(** * Cancelling an operation (routes/tasks.py [cancel_task],
      services/project_module_service.py [cancel_operation])

    Two ways to stop what runs on a module: by its task, and by the module.
    What the broker and the container daemon are asked is an output: the Celery
    ids revoked and whether the module's lock is released.  [confirmed] is
    whether the kill of the containers was. *)

From S2P Require Import Prelude Texts ModuleState Orchestration DestroyChain DestroyRun.

#[local] Open Scope string_scope.
#[local] Open Scope list_scope.
#[local] Open Scope Z_scope.

Inductive cancel_answer :=
| TaskNotFound
| InvalidTaskStatus
| Cancelled (revoked : list string) (tasks_cancelled : Z) (lock_released : bool)
| ResetStuck
| NothingToCancel.

Definition by_user : string := "Operation cancelled by user".
Definition stuck_reset : string := "Stuck deployment reset by user".

(** ** By the task *)

(** [module.status in ("applying", "destroying", "initializing")] *)
Definition revert (m : pmodule) : pmodule :=
  match pm_status m with
  | APPLYING | DESTROYING | INITIALIZING => set_error (Some by_user) (set_status INITIALIZED m)
  | _ => m
  end.

Definition cancel_task (t : Z) (d : odb) : odb * cancel_answer :=
  match tasks d !! t with
  | None => (d, TaskNotFound)
  | Some r =>
      match t_status r with
      | T_QUEUED | T_IN_PROGRESS =>
          let d := update_task t (set_task_status T_CANCELLED (Some "Task cancelled by user")) d in
          (match t_module r with Some i => update_module i revert d | None => d end,
           Cancelled (match celery_task_id r with Some c => [c] | None => [] end) 1
             (match t_module r with Some _ => true | None => false end))
      | _ => (d, InvalidTaskStatus)
      end
  end.

(** ** By the module *)

Definition status_map (s : ModuleStatus) : option ModuleStatus :=
  match s with
  | INITIALIZING => Some NOT_INITIALIZED
  | PLANNING => Some INITIALIZED
  | APPLYING => Some PLANNED
  | DESTROYING => Some APPLIED
  | _ => None
  end.

Definition _reset_module_status (msg : string) (m : pmodule) : pmodule :=
  match status_map (pm_status m) with
  | Some s => set_error (Some msg) (set_status s m)
  | None => m
  end.

Section cancel.
Context {SO : SetOrder Z}.

Definition cancellable (i : Z) (d : odb) : list (Z * task) := select (fun _ r => of_module i r && active_task r) (tasks d).

Definition cancel_tasks (ids : list Z) (d : odb) : odb :=
  foldl (fun d t => update_task t (set_task_status T_CANCELLED (Some by_user)) d) d ids.

Definition cancel_operation (i : Z) (confirmed : bool) (d : odb) : odb * cancel_answer :=
  let rows := cancellable i d in
  let ids := omap (fun tr => if truthy_str (celery_task_id tr.2) then celery_task_id tr.2 else None) rows in
  match ids with
  | _ :: _ =>
      (update_module i (_reset_module_status by_user) (cancel_tasks rows.*1 d),
       Cancelled ids (Z.of_nat (length rows)) confirmed)
  | [] =>
      match modules d !! i with
      | Some m =>
          if transitional (pm_status m) then (update_module i (_reset_module_status stuck_reset) d, ResetStuck)
          else (d, NothingToCancel)
      | None => (d, NothingToCancel)
      end
  end.

Lemma cancel_tasks_lookup ids d t :
  tasks (cancel_tasks ids d) !! t =
  (fun r => if bool_decide (t ∈ ids) then set_task_status T_CANCELLED (Some by_user) r else r) <$> tasks d !! t.
Proof.
  unfold cancel_tasks. revert d. induction ids as [|u ids IH]; intros d; cbn.
  { destruct (tasks d !! t); [|done]. cbn. by rewrite bool_decide_false by apply not_elem_of_nil. }
  rewrite IH. cbn. destruct (decide (t = u)) as [->|Hne].
  - rewrite lookup_alter_eq. destruct (tasks d !! u) as [r|]; [|done]. cbn.
    rewrite (bool_decide_true (u ∈ u :: ids)) by left. by case_bool_decide.
  - rewrite lookup_alter_ne by done. destruct (tasks d !! t) as [r|]; [|done]. cbn.
    erewrite bool_decide_ext; [reflexivity|]. rewrite elem_of_cons. naive_solver.
Qed.

Lemma cancel_tasks_modules ids d : modules (cancel_tasks ids d) = modules d.
Proof.
  unfold cancel_tasks. revert d. induction ids as [|u ids IH]; intros d; [done|].
  exact (IH (update_task u (set_task_status T_CANCELLED (Some by_user)) d)).
Qed.

(** The module's row after a cancel that found a message to revoke. *)
Lemma cancel_operation_module i confirmed d d' revoked n released m :
  cancel_operation i confirmed d = (d', Cancelled revoked n released) -> modules d !! i = Some m ->
  exists m', modules d' !! i = Some m' /\ pm_status m' = default (pm_status m) (status_map (pm_status m)).
Proof.
  unfold cancel_operation. destruct (omap _ _); [by repeat case_match|]. intros [= <- _ _ _] Hm.
  cbn. rewrite cancel_tasks_modules, lookup_alter_eq, Hm. eexists. split; [reflexivity|].
  unfold _reset_module_status. by destruct (status_map (pm_status m)).
Qed.

(** Cancelling a module stops it entirely: every task of it that had not ended
    is cancelled and, if a message of it was sent, revoked; other tasks stay. *)
Theorem cancel_operation_stops i confirmed d d' revoked n released :
  cancel_operation i confirmed d = (d', Cancelled revoked n released) ->
  released = confirmed /\
  (forall t r', tasks d' !! t = Some r' -> of_module i r' = true -> active_task r' = false) /\
  (forall c, c ∈ revoked <-> exists t r, tasks d !! t = Some r /\ of_module i r = true /\ active_task r = true /\
     celery_task_id r = Some c /\ c <> "") /\
  (forall t r, tasks d !! t = Some r -> of_module i r && active_task r = false -> tasks d' !! t = Some r) /\
  (forall m, modules d !! i = Some m ->
     exists m', modules d' !! i = Some m' /\ pm_status m' = default (pm_status m) (status_map (pm_status m))).
Proof.
  intros Hop. assert (Hmod := fun m => cancel_operation_module i confirmed d d' revoked n released m Hop). revert Hop.
  unfold cancel_operation. set (rows := cancellable i d).
  assert (Hin : forall t r, (t, r) ∈ rows <-> tasks d !! t = Some r /\ of_module i r = true /\ active_task r = true).
  { intros t r. unfold rows, cancellable. by rewrite elem_of_select, andb_true_iff. }
  set (ids := omap _ rows).
  assert (Hids : forall c, c ∈ ids <-> exists t r, (t, r) ∈ rows /\ celery_task_id r = Some c /\ c <> "").
  { intros c. unfold ids. rewrite list_elem_of_omap. split.
    - intros ([t r] & Hr & E). exists t, r. split; [done|]. cbn in E. destruct (celery_task_id r) as [x|]; [|done].
      destruct x as [|a x]; [done|]. by injection E as <-.
    - intros (t & r & Hr & E & Hc). exists (t, r). split; [done|]. cbn. rewrite E. by destruct c. }
  destruct ids as [|c0 ids0] eqn:E; [by repeat case_match|]. intros [= <- <- <- <-].
  assert (Hrows : forall t r, tasks d !! t = Some r -> t ∈ rows.*1 <-> of_module i r && active_task r = true).
  { intros t r Hr. rewrite list_elem_of_fmap, andb_true_iff. split.
    - intros ([t' r'] & -> & (Hr' & H)%Hin). cbn in Hr. rewrite Hr in Hr'. by injection Hr' as <-.
    - intros H. exists (t, r). split; [done|]. by apply Hin. }
  split_and!; [done|..].
  - intros t r'. cbn. rewrite cancel_tasks_lookup. intros (r & Hr & ->)%fmap_Some Hmo.
    case_bool_decide as Ht; [done|]. apply not_true_iff_false. intros Ha. apply Ht, (Hrows t r Hr). by rewrite Hmo.
  - intros c. rewrite Hids. setoid_rewrite Hin. naive_solver.
  - intros t r Hr Hno. cbn. rewrite cancel_tasks_lookup, Hr. cbn. rewrite bool_decide_false; [done|].
    intros H. apply (Hrows t r Hr) in H. congruence.
  - exact Hmod.
Qed.

(** A destroy that is cut off by its task leaves its module as if it held
    nothing, and so does an apply that is cut off by its module: a later destroy
    of the project passes over the module and takes down what it runs on.  A
    destroy cut off by its module leaves it deployed. *)
Theorem cut_off_counts_as_gone celery h first t r i m d d1 a1 confirmed d2 revoked n released :
  tasks d !! t = Some r -> t_module r = Some i -> modules d !! i = Some m ->
  cancel_task t d = (d1, a1) -> a1 <> InvalidTaskStatus ->
  cancel_operation i confirmed d = (d2, Cancelled revoked n released) ->
  (pm_status m = APPLYING \/ pm_status m = DESTROYING ->
     first_wave_module celery h (d1, first) i = (d1, first) /\
     exists m1, modules d1 !! i = Some m1 /\ pm_status m1 = INITIALIZED /\ clears true m1 = true) /\
  (pm_status m = APPLYING ->
     first_wave_module celery h (d2, first) i = (d2, first) /\
     exists m2, modules d2 !! i = Some m2 /\ pm_status m2 = PLANNED /\ clears true m2 = true) /\
  (pm_status m = DESTROYING -> exists m2, modules d2 !! i = Some m2 /\ pm_status m2 = APPLIED /\ clears true m2 = false).
Proof.
  intros Hr Hmo Hm Hc1 Ha1 Hc2.
  assert (H1 : pm_status m = APPLYING \/ pm_status m = DESTROYING ->
    exists m1, modules d1 !! i = Some m1 /\ pm_status m1 = INITIALIZED).
  { intros Hs. unfold cancel_task in Hc1. rewrite Hr, Hmo in Hc1.
    assert (E : d1 = update_module i revert (update_task t (set_task_status T_CANCELLED (Some "Task cancelled by user")) d))
      by (destruct (t_status r); by simplify_eq).
    subst d1. cbn. rewrite lookup_alter_eq, Hm. eexists. split; [reflexivity|]. unfold revert. by destruct Hs as [-> | ->]. }
  destruct (cancel_operation_module i confirmed d d2 revoked n released m Hc2 Hm) as (m2 & Hm2 & Hs2).
  assert (Hskip : forall d' m', modules d' !! i = Some m' -> no_infra (pm_status m') = true ->
    first_wave_module celery h (d', first) i = (d', first) /\ clears true m' = true).
  { intros d' m' Hm' Hn. unfold first_wave_module, clears. by rewrite Hm', Hn. }
  split_and!; intros Hs.
  - destruct (H1 Hs) as (m1 & Hm1 & Hs1). destruct (Hskip d1 m1 Hm1) as [E Hcl]; [by rewrite Hs1|]. eauto.
  - rewrite Hs in Hs2. cbn in Hs2. destruct (Hskip d2 m2 Hm2) as [E Hcl]; [by rewrite Hs2|]. eauto.
  - rewrite Hs in Hs2. cbn in Hs2. exists m2. split_and!; [done..|]. unfold clears. by rewrite Hs2.
Qed.
End cancel.

(** ** An apply that is cut off *)

Module Example.

#[local] Instance some_order : SetOrder Z := elements_order.
Definition message (t : Z) : string := pretty t.

Definition row (st : ModuleStatus) (e : option string) : pmodule :=
  {| pm_project := 1; pm_stack := None; pm_dependencies := []; pm_status := st; deployment_error := e;
     library_module := None; enabled := true; deployment_order := 0; has_outputs := true |}.
Definition the_task (ty : task_type) (st : TaskStatus) (e : option string) : task :=
  {| t_type := ty; t_status := st; t_project := 1; t_module := Some 1; celery_task_id := Some "c1";
     run_handle := None; destroy_scope := None; t_error := e |}.
Definition applying : odb :=
  {| modules := {[1 := row APPLYING None]}; tasks := {[1 := the_task Tapply T_IN_PROGRESS None]}; stacks := ∅; next_task := 2 |}.
Definition after_operation : odb :=
  {| modules := {[1 := row PLANNED (Some by_user)]}; tasks := {[1 := the_task Tapply T_CANCELLED (Some by_user)]};
     stacks := ∅; next_task := 2 |}.

Lemma cancel_operation_stops_witness :
  true = true /\
  (forall t r', tasks after_operation !! t = Some r' -> of_module 1 r' = true -> active_task r' = false) /\
  (forall c, c ∈ ["c1"] <-> exists t r, tasks applying !! t = Some r /\ of_module 1 r = true /\ active_task r = true /\
     celery_task_id r = Some c /\ c <> "") /\
  (forall t r, tasks applying !! t = Some r -> of_module 1 r && active_task r = false -> tasks after_operation !! t = Some r) /\
  (forall m, modules applying !! 1 = Some m ->
     exists m', modules after_operation !! 1 = Some m' /\ pm_status m' = default (pm_status m) (status_map (pm_status m))).
Proof.
  apply (cancel_operation_stops 1 true applying after_operation ["c1"] 1 true). vm_compute. reflexivity.
Defined.

Lemma cut_off_counts_as_gone_witness :
  let d1 := (cancel_task 1 applying).1 in
  (APPLYING = APPLYING \/ APPLYING = DESTROYING ->
     first_wave_module message None (d1, None) 1 = (d1, None) /\
     exists m1, modules d1 !! 1 = Some m1 /\ pm_status m1 = INITIALIZED /\ clears true m1 = true) /\
  (APPLYING = APPLYING ->
     first_wave_module message None (after_operation, None) 1 = (after_operation, None) /\
     exists m2, modules after_operation !! 1 = Some m2 /\ pm_status m2 = PLANNED /\ clears true m2 = true) /\
  (APPLYING = DESTROYING -> exists m2, modules after_operation !! 1 = Some m2 /\ pm_status m2 = APPLIED /\ clears true m2 = false).
Proof.
  refine (cut_off_counts_as_gone message None None 1 (the_task Tapply T_IN_PROGRESS None) 1 (row APPLYING None) applying
    _ (Cancelled ["c1"] 1 true) true after_operation ["c1"] 1 true _ _ _ _ _ _); [reflexivity..| |].
  - discriminate.
  - vm_compute. reflexivity.
Defined.
End Example.
