(* ===== verification/DepGraph.v ===== *)
(** * Module dependency graphs ([backend/utils/dependency_graph.py])

    Cycle detection (coloured depth-first search), Kahn's topological sort, the
    dependency validation of an edit, deployment orders, layers for the graph
    view and the "are my dependencies met" test.  A dependency graph is a Python
    dict from module id to its list of dependency ids, in insertion order. *)

From S2P Require Import Prelude.
Local Open Scope Z_scope.

Abbreviation deps_dict := (list (Z * list Z)).

(** [dependencies.get(node, [])] *)
Definition deps_of (d : deps_dict) (n : Z) : list Z := default [] (dget n d).

(** A module dictionary, with the keys this file reads; [.get] defaults are
    applied by the readers. *)
Record module := Module {
  m_id : Z;
  m_project_id : option Z;
  m_name : option string;
  m_status : option string;
  m_path : option string;
  m_deployment_order : option Z;
  m_dependencies : option (list Z)
}.

(** [module.get('dependencies', [])] *)
Definition get_dependencies (m : module) : list Z := default [] m.(m_dependencies).

(** ** [detect_circular_dependencies] *)

Inductive color := WHITE | GRAY | BLACK.

#[global] Instance color_eq_dec : EqDecision color.
Proof. solve_decision. Defined.

(** [defaultdict(lambda: WHITE)] *)
Definition color_of (c : gmap Z color) (n : Z) : color := default WHITE (c !! n).

Inductive dfs_result :=
| NoCycle
| Cycle (path : list Z)
| NotOnPath.   (** [path.index] raised [ValueError] *)

(** [path[path.index(node):] + [node]] *)
Definition cycle_from (node : Z) (path : list Z) : dfs_result :=
  match list_find (fun n => n = node) path with
  | Some (i, _) => Cycle (drop i path ++ [node])
  | None => NotOnPath
  end.

Section dfs.
Context (d : deps_dict).

(** The [for neighbor in ...] loop of [dfs], given the recursive call, and the
    final [color[node] = BLACK]. *)
Fixpoint dfs_neighbors (rec : Z -> gmap Z color -> option (dfs_result * gmap Z color))
    (node : Z) (ns : list Z) (c : gmap Z color) : option (dfs_result * gmap Z color) :=
  match ns with
  | [] => Some (NoCycle, <[node := BLACK]> c)
  | n :: ns' =>
      match rec n c with
      | Some (NoCycle, c') => dfs_neighbors rec node ns' c'
      | r => r
      end
  end.

(** The recursion of [dfs]; the second component is the shared [color] dict.
    [None] is running out of fuel. *)
Fixpoint dfs (fuel : nat) (node : Z) (path : list Z) (c : gmap Z color)
    : option (dfs_result * gmap Z color) :=
  match fuel with
  | O => None
  | S fuel' =>
      match color_of c node with
      | GRAY => Some (cycle_from node path, c)
      | BLACK => Some (NoCycle, c)
      | WHITE =>
          dfs_neighbors (fun n => dfs fuel' n (path ++ [node])) node
            (deps_of d node) (<[node := GRAY]> c)
      end
  end.

(** The loop over the nodes of the dict. *)
Fixpoint detect_loop (fuel : nat) (nodes : list Z) (c : gmap Z color)
    : option dfs_result :=
  match nodes with
  | [] => Some NoCycle
  | n :: ns =>
      match color_of c n with
      | WHITE =>
          match dfs fuel n [] c with
          | None => None
          | Some (NoCycle, c') => detect_loop fuel ns c'
          | Some (r, _) => Some r
          end
      | _ => detect_loop fuel ns c
      end
  end.

(** Every node the search can meet. *)
Definition all_nodes : gset Z := list_to_set (d.*1 ++ mjoin d.*2).

(** Each level of the recursion greys one more node. *)
Definition detect_fuel : nat := S (size all_nodes).

Definition detect_circular_dependencies : option dfs_result :=
  detect_loop detect_fuel d.*1 ∅.
End dfs.

(** ** [topological_sort] *)

Inductive graph_exc :=
| CircularDependencyError (cycle : list Z)
| CircularDuringSort
| PathIndexError
| OutOfFuel.

Section kahn.
Context {SO : SetOrder Z}.

(** The state the loops build: [graph] (a defaultdict) and [in_degree]. *)
Record kahn := Kahn {
  graph : gmap Z (list Z);
  in_degree : gmap Z Z
}.

Definition graph_get (g : gmap Z (list Z)) (n : Z) : list Z := default [] (g !! n).
Definition degree (deg : gmap Z Z) (n : Z) : Z := default 0 (deg !! n).

Definition add_edge (ids : gset Z) (module_id : Z) (k : kahn) (dep_id : Z) : kahn :=
  if decide (dep_id ∈ ids)
  then Kahn (<[dep_id := graph_get k.(graph) dep_id ++ [module_id]]> k.(graph))
            (<[module_id := degree k.(in_degree) module_id + 1]> k.(in_degree))
  else k.

Definition add_module (ids : gset Z) (k : kahn) (entry : Z * list Z) : kahn :=
  if decide (entry.1 ∈ ids)
  then foldl (add_edge ids entry.1) k entry.2
  else k.

Definition build (ids : gset Z) (d : deps_dict) : kahn :=
  foldl (add_module ids) (Kahn ∅ (gset_to_gmap 0 ids)) d.

(** The inner loop: the dependents of the node just emitted. *)
Definition relax (qd : list Z * gmap Z Z) (neighbor : Z) : list Z * gmap Z Z :=
  let '(q, deg) := qd in
  let n := degree deg neighbor - 1 in
  let deg' := <[neighbor := n]> deg in
  if decide (n = 0) then (q ++ [neighbor], deg') else (q, deg').

Fixpoint kahn_loop (fuel : nat) (g : gmap Z (list Z)) (deg : gmap Z Z)
    (queue result : list Z) : option (list Z) :=
  match queue with
  | [] => Some result
  | current :: queue' =>
      match fuel with
      | O => None
      | S fuel' =>
          let '(q, deg') := foldl relax (queue', deg) (graph_get g current) in
          kahn_loop fuel' g deg' q (result ++ [current])
      end
  end.

Definition module_ids (modules : list module) : gset Z := list_to_set (m_id <$> modules).

Definition topological_sort (modules : list module) (d : deps_dict)
    : result graph_exc (list Z) :=
  match detect_circular_dependencies d with
  | None => Err OutOfFuel
  | Some NotOnPath => Err PathIndexError
  | Some (Cycle c) => Err (CircularDependencyError c)
  | Some NoCycle =>
      let ids := module_ids modules in
      let k := build ids d in
      let queue := filter (fun m => degree k.(in_degree) m = 0) (set_iter ids) in
      match kahn_loop (S (size ids)) k.(graph) k.(in_degree) queue [] with
      | None => Err OutOfFuel
      | Some res =>
          if decide (length res = size ids) then Ok res else Err CircularDuringSort
      end
  end.

(** ** [calculate_deployment_order] *)
Definition module_dict (modules : list module) : deps_dict :=
  dict_of ((fun m => (m.(m_id), get_dependencies m)) <$> modules).

Definition calculate_deployment_order (modules : list module)
    : result graph_exc (list (Z * nat)) :=
  sorted_ids ← topological_sort modules (module_dict modules);
  mret (dict_of (imap (fun order module_id => (module_id, order)) sorted_ids)).
End kahn.

(** ** [validate_dependencies] *)

Inductive validation :=
| Valid
| SelfDependency
| NotInProject (dep_id : Z)
| WouldCycle (cycle : list Z)
| ValidationFault.   (** the search failed to return; see [validate_total] *)

(** The hypothetical graph: the project's modules with [module_id]'s
    dependencies replaced. *)
Definition hypothetical_deps (module_id : Z) (dependency_ids : list Z) (project_id : Z)
    (all_modules : list module) : deps_dict :=
  dict_of ((fun m => (m.(m_id),
                      if decide (m.(m_id) = module_id) then dependency_ids
                      else get_dependencies m))
           <$> filter (fun m => m.(m_project_id) = Some project_id) all_modules).

Definition project_module_ids (project_id : Z) (all_modules : list module) : gset Z :=
  list_to_set (m_id <$> filter (fun m => m.(m_project_id) = Some project_id) all_modules).

Definition validate_dependencies (module_id : Z) (dependency_ids : list Z)
    (project_id : Z) (all_modules : list module) : validation :=
  let ids := project_module_ids project_id all_modules in
  if decide (module_id ∈ dependency_ids) then SelfDependency
  else
    match list_find (fun dep => dep ∉ ids) dependency_ids with
    | Some (_, dep) => NotInProject dep
    | None =>
        match detect_circular_dependencies
                (hypothetical_deps module_id dependency_ids project_id all_modules) with
        | Some NoCycle => Valid
        | Some (Cycle c) => WouldCycle c
        | Some NotOnPath | None => ValidationFault
        end
    end.

(** ** [_compute_layers] and [get_dependency_graph] *)

Section layers.
Context (d : deps_dict).

(** [max(layer_of(dep) for dep in deps)], given the recursive call; layers are
    never negative, so the maximum may start at 0. *)
Fixpoint max_layer (rec : Z -> list (Z * Z) -> option (Z * list (Z * Z)))
    (ds : list Z) (acc : Z) (layers : list (Z * Z)) : option (Z * list (Z * Z)) :=
  match ds with
  | [] => Some (acc, layers)
  | dep :: ds' =>
      '(l, layers') ← rec dep layers;
      max_layer rec ds' (Z.max acc l) layers'
  end.

(** [layer_of], with the memo dict threaded; [None] is running out of fuel. *)
Fixpoint layer_of (fuel : nat) (mid : Z) (layers : list (Z * Z))
    : option (Z * list (Z * Z)) :=
  match dget mid layers with
  | Some l => Some (l, layers)
  | None =>
      match fuel with
      | O => None
      | S fuel' =>
          '(layer, layers') ←
             match deps_of d mid with
             | [] => Some (0, layers)
             | deps => '(best, layers') ← max_layer (layer_of fuel') deps 0 layers;
                       Some (best + 1, layers')
             end;
          Some (layer, dset mid layer layers')
      end
  end.
End layers.

Definition _compute_layers {SO : SetOrder Z} (ids : gset Z) (d : deps_dict)
    : option (list (Z * Z)) :=
  foldl (fun acc mid =>
           layers ← acc; '(_, layers') ← layer_of d (size ids) mid layers; Some layers')
    (Some []) (set_iter ids).

Record graph_node := GraphNode {
  n_id : Z;
  n_name : string;
  n_status : string;
  n_path : string;
  n_deployment_order : Z;
  n_layer : option Z
}.

Record graph_edge := GraphEdge { e_from : Z; e_to : Z }.

Record graph_view := GraphView {
  g_nodes : list graph_node;
  g_edges : list graph_edge;
  g_layers : list (Z * Z);
  g_has_cycle : bool;
  g_cycle : option (list Z)   (** with the ['error'] text, absent when acyclic *)
}.

(** [{m['id']: [d for d in m.get('dependencies', []) if d in module_ids]}] *)
Definition in_graph_deps (modules : list module) : deps_dict :=
  dict_of ((fun m => (m.(m_id),
                      filter (fun x => x ∈ module_ids modules) (get_dependencies m)))
           <$> modules).

Definition node_of (layers : list (Z * Z)) (m : module) : graph_node :=
  GraphNode m.(m_id)
    (default ("Module " +:+ pretty m.(m_id))%string m.(m_name))
    (default "unknown"%string m.(m_status)) (default ""%string m.(m_path))
    (default 0 m.(m_deployment_order)) (dget m.(m_id) layers).

Definition edges_of (modules : list module) : list graph_edge :=
  m ← modules; (fun dep => GraphEdge dep m.(m_id)) <$> get_dependencies m.

Definition get_dependency_graph {SO : SetOrder Z} (modules : list module) : option graph_view :=
  let ids := module_ids modules in
  let d := in_graph_deps modules in
  cyc ← detect_circular_dependencies d;
  cycle ← match cyc with
          | NoCycle => Some None
          | Cycle c => Some (Some c)
          | NotOnPath => None
          end;
  layers ← match cycle with Some _ => Some [] | None => _compute_layers ids d end;
  Some (GraphView (node_of layers <$> modules) (edges_of modules) layers
          (match cycle with Some _ => true | None => false end) cycle).

(** ** [get_dependent_modules] and [check_dependencies_met] *)

Definition get_dependent_modules (module_id : Z) (all_modules : list module) : list Z :=
  m_id <$> filter (fun m => module_id ∈ get_dependencies m) all_modules.

Inductive unmet :=
| UnmetNotFound (dep_id : Z)
| UnmetModule (m : module).

Definition check_dependencies_met (m : module) (all_modules : list module)
    (required_statuses : list string) : bool * list unmet :=
  match get_dependencies m with
  | [] => (true, [])
  | dependency_ids =>
      let module_map := dict_of ((fun m => (m.(m_id), m)) <$> all_modules) in
      let u :=
        omap (fun dep_id =>
                match dget dep_id module_map with
                | None => Some (UnmetNotFound dep_id)
                | Some dm =>
                    if decide (m_status dm ∈ Some <$> required_statuses) then None
                    else Some (UnmetModule dm)
                end) dependency_ids in
      (bool_decide (u = []), u)
  end.

(** ** Graph vocabulary of the theorems *)

Definition edge (d : deps_dict) (n m : Z) : Prop := m ∈ deps_of d n.

(** Consecutive elements are joined by an edge. *)
Fixpoint chain (d : deps_dict) (l : list Z) : Prop :=
  match l with
  | x :: (y :: _) as l' => edge d x y /\ chain d l'
  | _ => True
  end.

(** A closed walk [x -> ... -> x], written as the code writes it. *)
Definition is_cycle (d : deps_dict) (c : list Z) : Prop :=
  exists x l, c = x :: l ++ [x] /\ chain d c.

(** A list in which every node's successors come earlier. *)
Definition finish_order (d : deps_dict) (L : list Z) : Prop :=
  forall i n, L !! i = Some n -> forall m, edge d n m -> exists j, (j < i)%nat /\ L !! j = Some m.

Lemma chain_app d l1 x l2 :
  chain d (l1 ++ x :: l2) <-> chain d (l1 ++ [x]) /\ chain d (x :: l2).
Proof.
  induction l1 as [|a l1 IH]; cbn [app]; [cbn; tauto|].
  destruct l1 as [|b l1]; cbn [app] in *; cbn [chain]; cbn [chain] in IH; tauto.
Qed.

Lemma chain_snoc d l x y : chain d (l ++ [x]) -> edge d x y -> chain d (l ++ [x; y]).
Proof. intros H1 H2. apply chain_app. cbn. auto. Qed.

Lemma chain_drop d l i : chain d l -> chain d (drop i l).
Proof.
  revert l. induction i as [|i IH]; intros [|a l]; try done. cbn [drop].
  intros H. apply IH. destruct l; [done|]. apply H.
Qed.

Lemma edge_key d n m : edge d n m -> n ∈ d.*1.
Proof.
  unfold edge, deps_of. intros H. destruct (decide (n ∈ d.*1)) as [|Hn]; [done|].
  apply dget_None in Hn. rewrite Hn in H. by apply elem_of_nil in H.
Qed.

(** In a finishing order the index strictly decreases along a chain. *)
Lemma finish_order_chain d L x l i z :
  finish_order d L -> chain d (x :: l) -> L !! i = Some x ->
  last l = Some z -> exists j, (j < i)%nat /\ L !! j = Some z.
Proof.
  intros HL. revert x i. induction l as [|y l IH]; intros x i Hc Hi Hz; [done|].
  destruct Hc as [Hxy Hc]. destruct (HL _ _ Hi _ Hxy) as (j & Hj & Hy).
  destruct l as [|w l]; [by cbn in Hz; simplify_eq; eauto|].
  destruct (IH y j Hc Hy Hz) as (k & Hk & Hlast). exists k. split; [lia|done].
Qed.

Lemma finish_order_acyclic d L c :
  finish_order d L -> NoDup L -> d.*1 ⊆ L -> ~ is_cycle d c.
Proof.
  intros HL Hnd Hkeys (x & l & -> & Hc).
  assert (x ∈ L) as Hx.
  { apply Hkeys. destruct l as [|y l]; cbn in Hc; destruct Hc as [He _];
      by eapply edge_key. }
  apply list_elem_of_lookup in Hx as [i Hi].
  destruct (finish_order_chain d L x (l ++ [x]) i x HL Hc Hi) as (j & Hj & Hx).
  { by rewrite last_snoc. }
  pose proof (NoDup_lookup _ _ _ _ Hnd Hi Hx). lia.
Qed.

Lemma finish_order_snoc d L n :
  finish_order d L -> (forall m, edge d n m -> m ∈ L) -> finish_order d (L ++ [n]).
Proof.
  intros HL Hn i x Hi m He. apply lookup_app_Some in Hi as [Hi|[Hlen Hi]].
  - destruct (HL _ _ Hi _ He) as (j & Hj & Hm). exists j. split; [done|].
    by apply lookup_app_l_Some.
  - apply list_lookup_singleton_Some in Hi as [Hi ->].
    destruct (proj1 (list_elem_of_lookup _ _) (Hn _ He)) as [j Hm]. exists j.
    split; [apply lookup_lt_Some in Hm; lia|]. by apply lookup_app_l_Some.
Qed.

(** ** The depth-first search *)

(** The invariant of the colours: grey is the path, black is finished. *)
Record dfs_inv (d : deps_dict) (path L : list Z) (c : gmap Z color) : Prop := {
  inv_grey n : color_of c n = GRAY <-> n ∈ path;
  inv_black n : color_of c n = BLACK <-> n ∈ L;
  inv_finish : finish_order d L;
  inv_nodup : NoDup L
}.

Lemma color_of_insert c n x m :
  color_of (<[n := x]> c) m = if decide (n = m) then x else color_of c m.
Proof. unfold color_of. rewrite lookup_insert. by case_decide. Qed.

Lemma dfs_inv_grey d path L c n :
  dfs_inv d path L c -> color_of c n = WHITE ->
  dfs_inv d (path ++ [n]) L (<[n := GRAY]> c).
Proof.
  intros [Hg Hb Hf Hn] Hw. split; [| |done..]; intros m; rewrite color_of_insert.
  - rewrite elem_of_app, list_elem_of_singleton, <- Hg.
    case_decide; subst; naive_solver.
  - case_decide; subst; rewrite <- Hb; naive_solver congruence.
Qed.

Lemma dfs_inv_black d path L c n :
  dfs_inv d (path ++ [n]) L c -> n ∉ path -> (forall m, edge d n m -> m ∈ L) ->
  dfs_inv d path (L ++ [n]) (<[n := BLACK]> c).
Proof.
  intros [Hg Hb Hf Hn] Hp Hs. assert (n ∉ L) as HnL.
  { rewrite <- Hb. rewrite (proj2 (Hg n)) by set_solver. done. }
  split; [| |by apply finish_order_snoc|by apply NoDup_snoc];
    intros m; rewrite color_of_insert.
  - specialize (Hg m). rewrite elem_of_app, list_elem_of_singleton in Hg.
    case_decide; subst; naive_solver.
  - rewrite elem_of_app, list_elem_of_singleton, <- Hb. case_decide; subst; naive_solver.
Qed.

(** White nodes left: what the recursion consumes. *)
Definition whites (d : deps_dict) (c : gmap Z color) : gset Z :=
  filter (fun n => color_of c n = WHITE) (all_nodes d).

Lemma whites_grey d c n :
  n ∈ all_nodes d -> color_of c n = WHITE ->
  (S (size (whites d (<[n := GRAY]> c))) <= size (whites d c))%nat.
Proof.
  intros Hn Hw. assert (whites d (<[n := GRAY]> c) ⊂ whites d c) as Hsub.
  { split.
    - intros m. unfold whites. rewrite !elem_of_filter, color_of_insert.
      case_decide; naive_solver.
    - intros H. specialize (H n). unfold whites in H.
      rewrite !elem_of_filter, color_of_insert, decide_True in H by done. naive_solver. }
  apply subset_size in Hsub. lia.
Qed.

Lemma edge_all_nodes d n m : edge d n m -> m ∈ all_nodes d.
Proof.
  unfold edge, deps_of, all_nodes. intros H.
  destruct (dget n d) as [l|] eqn:E; [|by apply elem_of_nil in H].
  apply dget_elem_of in E. rewrite elem_of_list_to_set, elem_of_app. right.
  apply list_elem_of_join. exists l. split; [done|].
  apply list_elem_of_fmap. by exists (n, l).
Qed.

(** Colours only darken. *)
Definition darker (c c' : gmap Z color) : Prop :=
  forall n, color_of c' n = WHITE -> color_of c n = WHITE.

Lemma darker_whites d c c' : darker c c' -> (size (whites d c') <= size (whites d c))%nat.
Proof.
  intros H. apply subseteq_size. intros n. unfold whites. rewrite !elem_of_filter.
  naive_solver.
Qed.

(** What one call of [dfs] establishes. *)
Definition dfs_post (d : deps_dict) (path L : list Z) (node : Z) (c : gmap Z color)
    (out : option (dfs_result * gmap Z color)) : Prop :=
  exists r c', out = Some (r, c') /\ darker c c' /\
    match r with
    | NoCycle => exists L', dfs_inv d path L' c' /\ L ⊆ L' /\ node ∈ L'
    | Cycle cyc => is_cycle d cyc
    | NotOnPath => False
    end.

Lemma cycle_from_spec d node path :
  node ∈ path -> chain d (path ++ [node]) ->
  exists cyc, cycle_from node path = Cycle cyc /\ is_cycle d cyc.
Proof.
  intros Hin Hc. unfold cycle_from.
  destruct (list_find_elem_of (fun n => n = node) path node Hin eq_refl) as [[i x] E].
  rewrite E. apply list_find_Some in E as (Hi & -> & _).
  eexists; split; [done|]. exists node, (drop (S i) path).
  pose proof (drop_S _ _ _ Hi) as Hd.
  split; [by rewrite Hd|]. rewrite <- drop_app_le by (apply lookup_lt_Some in Hi; lia).
  by apply chain_drop.
Qed.

Lemma darker_grey c n : darker c (<[n := GRAY]> c).
Proof. intros m. rewrite color_of_insert. by case_decide. Qed.

#[global] Instance darker_preorder : PreOrder darker.
Proof. split; [by intros c n|]. unfold darker. intros c1 c2 c3. naive_solver. Qed.

(** The neighbour loop, given that the recursive calls meet their contract. *)
Lemma dfs_neighbors_spec d rec node path ns : forall L c,
  (forall n L c1, edge d node n -> dfs_inv d (path ++ [node]) L c1 -> darker c c1 ->
     dfs_post d (path ++ [node]) L n c1 (rec n c1)) ->
  (forall n, n ∈ ns -> edge d node n) ->
  (forall n, edge d node n -> n ∈ ns \/ n ∈ L) ->
  node ∉ path -> dfs_inv d (path ++ [node]) L c ->
  dfs_post d path L node c (dfs_neighbors rec node ns c).
Proof.
  induction ns as [|n ns IH]; intros L c Hrec Hns Hall Hnode Hinv; cbn.
  - do 2 eexists. split; [done|]. split.
    + intros m. rewrite color_of_insert. by case_decide.
    + exists (L ++ [node]). split; [|set_solver].
      apply dfs_inv_black; [done..|]. intros m Hm. destruct (Hall m Hm) as [H|H]; [|done].
      by apply elem_of_nil in H.
  - destruct (Hrec n L c) as (r & c' & Hr & Hdark & Hpost); [apply Hns; left|done|reflexivity|].
    rewrite Hr. destruct r as [|cyc|]; [|by exists (Cycle cyc), c'|done].
    destruct Hpost as (L' & Hinv' & HL & Hn).
    destruct (IH L' c') as (r & c'' & -> & Hdark' & Hpost'); [|set_solver| |done|done|].
    + intros n' L1 c1 He Hi Hd. apply Hrec; [done..|]. by etrans.
    + intros m Hm. destruct (Hall m Hm) as [[->|H]%elem_of_cons|H]; set_solver.
    + exists r, c''. split; [done|]. split; [by etrans|].
      destruct r; [|done|done]. destruct Hpost' as (L'' & ? & ? & ?).
      exists L''. set_solver.
Qed.

Lemma dfs_spec d fuel : forall node path L c,
  dfs_inv d path L c -> node ∈ all_nodes d -> chain d (path ++ [node]) ->
  (size (whites d c) < fuel)%nat ->
  dfs_post d path L node c (dfs d fuel node path c).
Proof.
  induction fuel as [|fuel IH]; intros node path L c Hinv Hn Hc Hf; [lia|]. cbn.
  destruct (color_of c node) eqn:Hcol.
  - pose proof (whites_grey d c node Hn Hcol) as Hw.
    destruct (dfs_neighbors_spec d (fun n => dfs d fuel n (path ++ [node])) node path
      (deps_of d node) L (<[node := GRAY]> c)) as (r & c' & -> & Hdark & Hpost).
    + intros n L1 c1 He Hi Hd. apply IH; [done|by eapply edge_all_nodes| |].
      * rewrite <- app_assoc. by apply chain_snoc.
      * apply (darker_whites d) in Hd. lia.
    + done.
    + auto.
    + rewrite <- (inv_grey _ _ _ _ Hinv). congruence.
    + by apply dfs_inv_grey.
    + exists r, c'. split; [done|]. split; [|done].
      etrans; [apply darker_grey|done].
  - apply (inv_grey _ _ _ _ Hinv) in Hcol.
    destruct (cycle_from_spec d node path Hcol Hc) as (cyc & -> & Hcyc).
    exists (Cycle cyc), c. by repeat split.
  - apply (inv_black _ _ _ _ Hinv) in Hcol.
    exists NoCycle, c. split; [done|]. split; [done|]. by exists L.
Qed.

Lemma detect_loop_spec d fuel nodes : forall L c,
  dfs_inv d [] L c -> (forall n, n ∈ nodes -> n ∈ all_nodes d) ->
  (size (all_nodes d) < fuel)%nat ->
  exists r, detect_loop d fuel nodes c = Some r /\
    match r with
    | NoCycle => exists L', finish_order d L' /\ NoDup L' /\ L ⊆ L' /\ nodes ⊆ L'
    | Cycle cyc => is_cycle d cyc
    | NotOnPath => False
    end.
Proof.
  induction nodes as [|n ns IH]; intros L c Hinv Hns Hf; cbn.
  { exists NoCycle. split; [done|]. exists L. destruct Hinv. set_solver. }
  assert (size (whites d c) <= size (all_nodes d))%nat as Hw
    by (apply subseteq_size; unfold whites; set_solver).
  destruct (color_of c n) eqn:Hcol.
  - destruct (dfs_spec d fuel n [] L c Hinv) as (r & c' & -> & _ & Hpost);
      [apply Hns; left|done|lia|].
    destruct r as [|cyc|]; [|by exists (Cycle cyc)|done].
    destruct Hpost as (L' & Hinv' & HL & Hn).
    destruct (IH L' c' Hinv') as (r & -> & Hr); [set_solver|done|].
    exists r. split; [done|]. destruct r; [|done..].
    destruct Hr as (L'' & ? & ? & ? & ?). exists L''. set_solver.
  - apply (inv_grey _ _ _ _ Hinv) in Hcol. by apply elem_of_nil in Hcol.
  - apply (inv_black _ _ _ _ Hinv) in Hcol.
    destruct (IH L c Hinv) as (r & -> & Hr); [set_solver|done|].
    exists r. split; [done|]. destruct r; [|done..].
    destruct Hr as (L'' & ? & ? & ? & ?). exists L''. set_solver.
Qed.

(** The outcome of the whole detection, with the order it visited. *)
Lemma detect_spec d :
  exists r, detect_circular_dependencies d = Some r /\
    match r with
    | NoCycle => exists L, finish_order d L /\ NoDup L /\ d.*1 ⊆ L
    | Cycle cyc => is_cycle d cyc
    | NotOnPath => False
    end.
Proof.
  destruct (detect_loop_spec d (detect_fuel d) d.*1 [] ∅) as (r & Hr & Hpost).
  - split; [| |by intros i n Hi|constructor]; intros n; unfold color_of;
      rewrite lookup_empty; cbn; set_solver.
  - unfold all_nodes. set_solver.
  - unfold detect_fuel. lia.
  - exists r. split; [done|]. destruct r; [|done..]. naive_solver.
Qed.

(** ** Kahn's algorithm *)

(** How often [x] occurs in [l]. *)
Definition occ (x : Z) (l : list Z) : nat := length (filter (fun y => y = x) l).

Lemma occ_cons x y l : occ x (y :: l) = ((if decide (y = x) then 1 else 0) + occ x l)%nat.
Proof. unfold occ. rewrite filter_cons. by case_decide. Qed.

Lemma occ_app x l1 l2 : occ x (l1 ++ l2) = (occ x l1 + occ x l2)%nat.
Proof. unfold occ. by rewrite filter_app, length_app. Qed.

Lemma occ_pos x l : (0 < occ x l)%nat <-> x ∈ l.
Proof.
  unfold occ. split.
  - intros H. destruct (filter _ _) as [|y l'] eqn:E; [cbn in H; lia|].
    assert (y ∈ filter (fun y => y = x) l) as Hy by (rewrite E; left).
    apply list_elem_of_filter in Hy as [-> Hy]. done.
  - intros H. assert (x ∈ filter (fun y => y = x) l) as Hy by (by apply list_elem_of_filter).
    destruct (filter _ _); [by apply elem_of_nil in Hy|cbn; lia].
Qed.

Lemma occ_0 x l : x ∉ l -> occ x l = 0%nat.
Proof. intros H. destruct (occ x l) eqn:E; [done|]. destruct H. apply occ_pos. lia. Qed.


Lemma degree_insert deg n x m :
  degree (<[n := x]> deg) m = if decide (n = m) then x else degree deg m.
Proof. unfold degree. rewrite lookup_insert. by case_decide. Qed.

Lemma graph_get_insert g n l m :
  graph_get (<[n := l]> g) m = if decide (n = m) then l else graph_get g m.
Proof. unfold graph_get. rewrite lookup_insert. by case_decide. Qed.

(** The relaxation of a node's dependents: every degree drops by the number of
    edges, and exactly the nodes whose degree drops to zero are queued, once. *)
Lemma relax_spec l : forall q deg q' deg',
  (forall m, m ∈ l -> Z.of_nat (occ m l) <= degree deg m) ->
  foldl relax (q, deg) l = (q', deg') ->
  (forall m, degree deg' m = degree deg m - Z.of_nat (occ m l)) /\
  exists pushed, q' = q ++ pushed /\ NoDup pushed /\
    forall m, m ∈ pushed <-> m ∈ l /\ degree deg m = Z.of_nat (occ m l).
Proof.
  induction l as [|x l IH]; intros q deg q' deg' Hle; cbn [foldl].
  { intros [= <- <-]. split; [intros m; cbn; lia|]. exists []. rewrite app_nil_r.
    repeat split; [constructor|set_solver..]. }
  pose proof (Hle x ltac:(left)) as Hx. rewrite occ_cons, decide_True in Hx by done.
  assert (forall m, m ∈ l -> Z.of_nat (occ m l) <=
    degree (<[x := degree deg x - 1]> deg) m) as Hle'.
  { intros m Hm. specialize (Hle m ltac:(by right)). rewrite occ_cons in Hle.
    rewrite degree_insert. repeat case_decide; simplify_eq; lia. }
  unfold relax at 2. intros H.
  destruct (decide (degree deg x - 1 = 0)) as [Hz|Hz];
    apply IH in H as [Hdeg (pushed & -> & Hnd & Hp)]; try done.
  - assert (x ∉ l) as Hxl.
    { intros Hin%occ_pos. lia. }
    split; [intros m; rewrite Hdeg, degree_insert, occ_cons; case_decide; subst; lia|].
    exists (x :: pushed). rewrite <- app_assoc. split; [done|]. split.
    + apply NoDup_cons. split; [|done]. rewrite Hp. naive_solver.
    + intros m. rewrite !elem_of_cons, Hp, degree_insert, occ_cons.
      destruct (decide (x = m)) as [<-|Hne]; [|naive_solver].
      rewrite (occ_0 x l) by done. split; [|naive_solver]. intros _. split; [by left|lia].
  - split; [intros m; rewrite Hdeg, degree_insert, occ_cons; case_decide; subst; lia|].
    exists pushed. do 2 (split; [done|]). intros m.
    rewrite Hp, elem_of_cons, degree_insert, occ_cons.
    destruct (decide (x = m)) as [<-|Hne]; [|naive_solver].
    split; [intros [? ?]; split; [by left|lia]|].
    intros [_ ?]. split; [apply occ_pos; lia|lia].
Qed.

Section kahn_correct.
Context {SO : SetOrder Z} (ids : gset Z) (d : deps_dict).

(** The dependencies of [m] that are still to be emitted. *)
Definition pending (P : list Z) (m : Z) : list Z :=
  filter (fun n => n ∈ ids /\ n ∉ P) (deps_of d m).

(** What [build] must produce. *)
Record built (D : deps_dict) (k : kahn) : Prop := {
  built_graph n m : occ m (graph_get k.(graph) n) =
    if decide (m ∈ ids /\ n ∈ ids) then occ n (deps_of D m) else 0%nat;
  built_degree m : m ∈ ids ->
    degree k.(in_degree) m = Z.of_nat (length (filter (fun n => n ∈ ids) (deps_of D m)))
}.

Lemma deps_of_snoc (D : deps_dict) m0 ds m :
  m0 ∉ D.*1 -> deps_of (D ++ [(m0, ds)]) m = if decide (m = m0) then ds else deps_of D m.
Proof using.
  unfold deps_of. intros Hni. induction D as [|[k v] D IH]; cbn.
  - case_decide; done.
  - cbn in Hni. rewrite not_elem_of_cons in Hni. destruct Hni as [Hne Hni].
    destruct (decide (m = k)) as [->|]; [by rewrite decide_False|]. auto.
Qed.

Lemma built_edge D m0 ds k dep :
  m0 ∉ D.*1 -> m0 ∈ ids -> built (D ++ [(m0, ds)]) k ->
  built (D ++ [(m0, ds ++ [dep])]) (add_edge ids m0 k dep).
Proof using.
  intros Hni Hm0 [Hg Hd]. unfold add_edge. case_decide as Hdep.
  - split; cbn.
    + intros n m. specialize (Hg n m). rewrite deps_of_snoc in Hg |- * by done.
      rewrite graph_get_insert. destruct (decide (dep = n)) as [<-|Hne].
      * rewrite occ_app, Hg, occ_cons. change (occ m []) with 0%nat.
        destruct (decide (m = m0)) as [->|Hm].
        -- rewrite !decide_True by done. rewrite occ_app, occ_cons, decide_True by done.
           change (occ dep []) with 0%nat. lia.
        -- rewrite (decide_False (P := m0 = m)) by done. lia.
      * rewrite Hg. destruct (decide (m = m0)) as [->|Hm]; [|done].
        rewrite occ_app, occ_cons, (decide_False (P := dep = n)) by done.
        change (occ n []) with 0%nat. by rewrite Nat.add_0_r.
    + intros m Hm. specialize (Hd m Hm). pose proof (Hd0 := Hd).
      rewrite deps_of_snoc in Hd |- * by done. rewrite degree_insert.
      destruct (decide (m0 = m)) as [<-|Hne].
      * rewrite decide_True in Hd |- * by done.
        rewrite Hd, filter_app, length_app, filter_cons_True by done. cbn. lia.
      * rewrite decide_False in Hd |- * by done. done.
  - split.
    + intros n m. rewrite Hg, !deps_of_snoc by done.
      destruct (decide (m = m0)); [|done].
      case_decide as Hn; [|done]. rewrite occ_app, occ_cons, decide_False by naive_solver.
      change (occ n []) with 0%nat. lia.
    + intros m Hm. rewrite Hd, !deps_of_snoc by done. destruct (decide (m = m0)); [|done].
      rewrite filter_app, filter_cons_False by done. cbn. by rewrite app_nil_r.
Qed.
Lemma built_module D m0 ds k :
  m0 ∉ D.*1 -> m0 ∈ ids -> built D k ->
  built (D ++ [(m0, ds)]) (foldl (add_edge ids m0) k ds).
Proof using.
  intros Hni Hm0 [Hg Hd]. induction ds as [|dep ds IH] using rev_ind.
  - assert (forall m, deps_of (D ++ [(m0, [])]) m = deps_of D m) as E.
    { intros m. rewrite deps_of_snoc by done. case_decide; [|done]. subst.
      unfold deps_of. by rewrite (proj2 (dget_None m0 D)). }
    split; cbn; [intros n m|intros m Hm]; rewrite E; auto.
  - rewrite foldl_snoc. by apply built_edge.
Qed.

Lemma build_built D : NoDup D.*1 -> built D (build ids D).
Proof using.
  induction D as [|[m0 ds] D IH] using rev_ind; intros Hnd.
  - split; cbn.
    + intros n m. unfold graph_get. rewrite lookup_empty. by case_decide.
    + intros m Hm. unfold degree. by rewrite (proj2 (lookup_gset_to_gmap_Some _ _ _ 0)).
  - rewrite fmap_app in Hnd. apply NoDup_app in Hnd as (Hnd & Hdisj & _).
    assert (m0 ∉ D.*1) as Hni by (intros Hin; apply (Hdisj _ Hin); left).
    specialize (IH Hnd). unfold build in *. rewrite foldl_snoc. unfold add_module at 1. cbn.
    case_decide as Hm0; [by apply built_module|].
    destruct IH as [Hg Hd]. split; [intros n m|intros m Hm].
    + rewrite Hg, deps_of_snoc by done. destruct (decide (m = m0)) as [->|]; [|done].
      by rewrite !decide_False by naive_solver.
    + rewrite Hd, deps_of_snoc, decide_False by naive_solver. done.
Qed.

Lemma pending_snoc P c m :
  c ∈ ids -> c ∉ P ->
  length (pending P m) = (length (pending (P ++ [c]) m) + occ c (deps_of d m))%nat.
Proof using.
  intros Hc Hp. unfold pending. induction (deps_of d m) as [|x l IH]; [done|].
  rewrite occ_cons, !filter_cons.
  destruct (decide (x = c)) as [->|Hne].
  - rewrite decide_True, decide_False by set_solver. cbn. lia.
  - destruct (decide (x ∈ ids /\ x ∉ P)).
    + rewrite decide_True by set_solver. cbn. lia.
    + rewrite decide_False by set_solver. lia.
Qed.

Lemma pending_nil P m : pending P m = [] <-> forall n, edge d m n -> n ∈ ids -> n ∈ P.
Proof using.
  unfold pending, edge. split.
  - intros H n He Hn. destruct (decide (n ∈ P)) as [|Hp]; [done|].
    assert (n ∈ filter (fun n => n ∈ ids /\ n ∉ P) (deps_of d m)) as Hin
      by (by apply list_elem_of_filter).
    rewrite H in Hin. by apply elem_of_nil in Hin.
  - intros H. apply filter_none, Forall_forall. intros n Hn [Hi Hp]. eauto.
Qed.

(** The order the theorem promises: dependencies first. *)
Definition deps_first (P : list Z) : Prop :=
  forall i m n, P !! i = Some m -> edge d m n -> n ∈ ids ->
  exists j, (j < i)%nat /\ P !! j = Some n.

Record kinv (P q : list Z) (deg : gmap Z Z) : Prop := {
  kinv_nodup : NoDup (P ++ q);
  kinv_ids m : m ∈ P ++ q -> m ∈ ids;
  kinv_degree m : m ∈ ids -> degree deg m = Z.of_nat (length (pending P m));
  kinv_zero m : m ∈ ids -> m ∈ P ++ q <-> pending P m = [];
  kinv_order : deps_first P
}.

Lemma deps_first_snoc P c : deps_first P -> pending P c = [] -> deps_first (P ++ [c]).
Proof using.
  intros Ho Hp i m n Hi He Hn. apply lookup_app_Some in Hi as [Hi|[Hlen Hi]].
  - destruct (Ho _ _ _ Hi He Hn) as (j & Hj & Hjn). exists j. split; [done|].
    by apply lookup_app_l_Some.
  - apply list_lookup_singleton_Some in Hi as [Hi ->].
    rewrite pending_nil in Hp. specialize (Hp _ He Hn).
    apply list_elem_of_lookup in Hp as [j Hj]. exists j.
    split; [apply lookup_lt_Some in Hj; lia|]. by apply lookup_app_l_Some.
Qed.

(** One turn of the [while] loop. *)
Lemma kinv_step k P c q deg q' deg' :
  built d k -> kinv P (c :: q) deg ->
  foldl relax (q, deg) (graph_get k.(graph) c) = (q', deg') ->
  kinv (P ++ [c]) q' deg'.
Proof using.
  intros [Hg _] [Hnd Hids Hdeg Hzero Hord] Hrel.
  assert (c ∈ ids) as Hc by (apply Hids; set_solver).
  assert (c ∉ P) as HcP.
  { apply NoDup_app in Hnd as (_ & Hdisj & _). intros H. apply (Hdisj _ H). left. }
  assert (forall m, m ∈ ids -> Z.of_nat (length (pending P m)) =
    Z.of_nat (length (pending (P ++ [c]) m)) + Z.of_nat (occ c (deps_of d m))) as Hpend.
  { intros m Hm. rewrite (pending_snoc P c m) by done. lia. }
  assert (forall m, m ∈ graph_get (graph k) c -> m ∈ ids) as Hgi.
  { intros m Hm%occ_pos. rewrite Hg in Hm. case_decide; [naive_solver|lia]. }
  assert (forall m, m ∈ ids -> occ m (graph_get (graph k) c) = occ c (deps_of d m)) as Hocc.
  { intros m Hm. by rewrite Hg, decide_True. }
  apply relax_spec in Hrel as [Hdeg' (pushed & -> & Hndp & Hpushed)].
  2:{ intros m Hm. specialize (Hgi m Hm). rewrite Hdeg, Hocc, Hpend by done. lia. }
  assert (forall m, m ∈ pushed <-> m ∈ ids /\ c ∈ deps_of d m /\ pending (P ++ [c]) m = [])
    as Hpush.
  { intros m. rewrite Hpushed. split.
    - intros [Hm Hd]. pose proof (Hgi _ Hm) as Hmi. rewrite Hdeg, Hpend, Hocc in Hd by done.
      split; [done|]. apply occ_pos in Hm. rewrite Hocc in Hm by done.
      split; [by apply occ_pos|]. apply length_zero_iff_nil. lia.
    - intros (Hmi & Hcm & Hp). rewrite Hdeg, Hpend, Hocc, Hp by done.
      split; [|cbn; lia]. apply occ_pos. rewrite Hocc by done. by apply occ_pos. }
  assert (forall m, m ∈ ids -> c ∈ deps_of d m -> m ∉ P ++ c :: q) as Hfresh.
  { intros m Hm Hcm Hin. apply Hzero in Hin; [|done]. rewrite pending_nil in Hin.
    by apply HcP, Hin. }
  split.
  - rewrite <- app_assoc. cbn. rewrite app_comm_cons, app_assoc.
    apply NoDup_app. split; [done|]. split; [|done].
    intros m Hm Hmp. apply Hpush in Hmp as (? & ? & _). by eapply Hfresh.
  - intros m. rewrite !elem_of_app, list_elem_of_singleton.
    intros [[Hm| ->]|[Hm|Hm]]; [apply Hids; set_solver|done|apply Hids; set_solver|].
    by apply Hpush in Hm as [? _].
  - intros m Hm. rewrite Hdeg', Hdeg, Hpend, Hocc by done. lia.
  - intros m Hm. specialize (Hzero m Hm).
    rewrite <- app_assoc. cbn. rewrite app_comm_cons, app_assoc, elem_of_app, Hpush, Hzero.
    specialize (Hpend m Hm). rewrite <- !length_zero_iff_nil. split; [lia|].
    intros Hp. destruct (decide (c ∈ deps_of d m)) as [Hcm|Hcm]; [by auto|].
    left. rewrite occ_0 in Hpend by done. lia.
  - apply deps_first_snoc; [done|]. apply Hzero; set_solver.
Qed.

Lemma kahn_loop_spec k fuel : forall P q deg,
  built d k -> kinv P q deg -> (size ids < fuel + length P)%nat ->
  exists res deg', kahn_loop fuel k.(graph) deg q P = Some res /\ kinv res [] deg'.
Proof using.
  induction fuel as [|fuel IH]; intros P q deg Hb Hinv Hf.
  all: destruct q as [|c q]; [by exists P, deg|].
  all: assert (length (P ++ c :: q) <= size ids)%nat as Hlen.
  1,3: destruct Hinv as [Hnd Hids _ _ _];
       rewrite <- (size_list_to_set (C := gset Z)) by done;
       apply subseteq_size; intros x; rewrite elem_of_list_to_set; auto.
  all: rewrite length_app in Hlen; cbn in Hlen.
  - lia.
  - cbn. destruct (foldl relax _ _) as [q' deg'] eqn:E.
    apply IH; [done|by eapply kinv_step|]. rewrite length_app. cbn. lia.
Qed.

(** On an acyclic graph the loop emits every node. *)
Lemma kinv_complete P deg L :
  kinv P [] deg -> finish_order d L -> d.*1 ⊆ L -> forall m, m ∈ ids -> m ∈ P.
Proof using.
  intros Hinv HL Hk.
  assert (forall i m, L !! i = Some m -> m ∈ ids -> m ∈ P) as Hrank.
  { intros i. induction (lt_wf i) as [i _ IH]. intros m Hi Hm.
    pose proof (kinv_zero _ _ _ Hinv m Hm) as Hz. rewrite app_nil_r in Hz.
    apply Hz, pending_nil. intros n He Hn.
    destruct (HL _ _ Hi _ He) as (j & Hj & Hjn). eauto. }
  intros m Hm. destruct (decide (m ∈ L)) as [HmL|HmL].
  - apply list_elem_of_lookup in HmL as [i Hi]. eauto.
  - pose proof (kinv_zero _ _ _ Hinv m Hm) as Hz. rewrite app_nil_r in Hz.
    apply Hz, pending_nil. intros n He _. destruct HmL. by eapply Hk, edge_key.
Qed.

Lemma kinv_init order :
  NoDup d.*1 -> order ≡ₚ elements ids ->
  let k := build ids d in
  kinv [] (filter (fun m => degree k.(in_degree) m = 0) order) k.(in_degree).
Proof using.
  intros Hkeys Ho k. pose proof (build_built d Hkeys) as [_ Hd].
  assert (forall m, pending [] m = filter (fun n => n ∈ ids) (deps_of d m)) as Hp.
  { intros m. unfold pending. apply list_filter_iff. set_solver. }
  split; cbn.
  - apply NoDup_filter. rewrite Ho. apply NoDup_elements.
  - intros m. rewrite list_elem_of_filter, Ho, elem_of_elements. naive_solver.
  - intros m Hm. by rewrite Hd, Hp.
  - intros m Hm. rewrite list_elem_of_filter, Ho, elem_of_elements, Hp.
    unfold k. rewrite (Hd m Hm), <- length_zero_iff_nil. naive_solver lia.
  - by intros i m n Hi.
Qed.
End kahn_correct.

(** ** Layers *)

(** [n] is the number of edges of the longest dependency path from [m]. *)
Definition longest (d : deps_dict) (m : Z) (n : Z) : Prop :=
  (exists c, chain d (m :: c) /\ Z.of_nat (length c) = n) /\
  (forall c, chain d (m :: c) -> Z.of_nat (length c) <= n).

Section layers_correct.
Context (d : deps_dict).

Definition memo_ok (layers : list (Z * Z)) : Prop :=
  forall m l, dget m layers = Some l -> longest d m l.

(** The memo only grows. *)
Definition grows (l1 l2 : list (Z * Z)) : Prop :=
  forall m l, dget m l1 = Some l -> dget m l2 = Some l.

#[global] Instance grows_preorder : PreOrder grows.
Proof. split; [by intros l m x|]. unfold grows. intros l1 l2 l3. naive_solver. Qed.

Lemma longest_leaf m : deps_of d m = [] -> longest d m 0.
Proof.
  intros H. split; [by exists []|]. intros [|y c]; [done|]. cbn. unfold edge. rewrite H.
  intros [He _]. by apply elem_of_nil in He.
Qed.

(** The layer of a node from the layers of its dependencies. *)
Lemma longest_step m best :
  (forall dep, dep ∈ deps_of d m -> exists l, longest d dep l /\ l <= best) ->
  (exists dep, dep ∈ deps_of d m /\ longest d dep best) ->
  longest d m (best + 1).
Proof.
  intros Hle (dep & Hdep & (c & Hc & Hlen) & _). split.
  - exists (dep :: c). cbn. split; [|lia]. split; done.
  - intros [|y c'] Hc'; [cbn; lia|]. destruct Hc' as [He Hc'].
    destruct (Hle y He) as (l & (_ & Hl) & Hb). specialize (Hl c' Hc'). cbn. lia.
Qed.

Lemma longest_nonneg m n : longest d m n -> 0 <= n.
Proof. intros [(c & _ & <-) _]. lia. Qed.

(** What one call of [layer_of] establishes. *)
Definition layer_post (m : Z) (layers : list (Z * Z))
    (out : option (Z * list (Z * Z))) : Prop :=
  exists l layers', out = Some (l, layers') /\ longest d m l /\ memo_ok layers' /\
    grows layers layers' /\ dget m layers' = Some l.

Lemma max_layer_spec rec ds : forall acc layers,
  (forall dep layers, dep ∈ ds -> memo_ok layers -> layer_post dep layers (rec dep layers)) ->
  memo_ok layers ->
  exists best layers', max_layer rec ds acc layers = Some (best, layers') /\
    memo_ok layers' /\ grows layers layers' /\ acc <= best /\
    (forall dep, dep ∈ ds -> exists l, longest d dep l /\ l <= best) /\
    (best = acc \/ exists dep, dep ∈ ds /\ longest d dep best).
Proof.
  induction ds as [|dep ds IH]; intros acc layers Hrec Hok; cbn.
  { exists acc, layers. do 4 (split; [done|]). split; [|by left].
    intros x Hx. by apply elem_of_nil in Hx. }
  destruct (Hrec dep layers ltac:(left) Hok) as (l & ls & -> & Hl & Hok' & Hg & _). cbn.
  destruct (IH (Z.max acc l) ls) as (best & ls' & -> & Hok'' & Hg' & Hacc & Hall & Hex);
    [intros; apply Hrec; [by right|done]|done|].
  exists best, ls'. do 2 (split; [done|]). split; [by etrans|]. split; [lia|]. split.
  - intros x [->|Hx]%elem_of_cons; [exists l; split; [done|lia]|auto].
  - destruct Hex as [->|(x & Hx & Hb)]; [|right; exists x; set_solver].
    destruct (Z.max_spec acc l) as [[_ ->]|[_ ->]]; [right|by left].
    exists dep. split; [left|done].
Qed.

Lemma layer_of_spec fuel : forall m layers,
  memo_ok layers -> (forall c, chain d (m :: c) -> (length c < fuel)%nat) ->
  layer_post m layers (layer_of d fuel m layers).
Proof.
  induction fuel as [|fuel IH]; intros m layers Hok Hf.
  { specialize (Hf [] I). cbn in Hf. lia. }
  cbn [layer_of]. destruct (dget m layers) as [l|] eqn:Hm.
  { exists l, layers. repeat split; try done; by apply Hok. }
  assert (forall l ls, longest d m l -> memo_ok ls -> grows layers ls ->
    layer_post m layers (Some (l, dset m l ls))) as Hfin.
  { intros l ls Hl Hls Hg. exists l, (dset m l ls). split; [done|]. split; [done|].
    split; [|split].
    - intros x y. rewrite dget_dset. case_decide; [intros [= <-]; by subst|apply Hls].
    - intros x y Hx. rewrite dget_dset. case_decide; [congruence|auto].
    - by rewrite dget_dset, decide_True. }
  destruct (deps_of d m) as [|dep0 ds] eqn:Hds; cbn [mbind option_bind].
  { apply Hfin; [by apply longest_leaf|done|reflexivity]. }
  destruct (max_layer_spec (layer_of d fuel) (dep0 :: ds) 0 layers)
    as (best & ls & -> & Hls & Hg & Hb & Hall & Hex); [|done|].
  { intros dep layers' Hdep Hok'. apply IH; [done|]. intros c Hc.
    specialize (Hf (dep :: c)). cbn in Hf. rewrite <- Nat.succ_lt_mono in Hf.
    apply Hf. split; [|done]. unfold edge. by rewrite Hds. }
  apply Hfin; [|done|done]. apply longest_step; rewrite Hds; [done|].
  destruct Hex as [->|Hex]; [|done]. exists dep0. split; [left|].
  destruct (Hall dep0 ltac:(left)) as (l & Hl & Hle).
  pose proof (longest_nonneg _ _ Hl). by replace 0 with l by lia.
Qed.
End layers_correct.

(** In an acyclic graph a path has no repeated node. *)
Lemma chain_NoDup d L l :
  finish_order d L -> NoDup L -> d.*1 ⊆ L -> chain d l -> NoDup l.
Proof.
  intros HL Hnd Hk. induction l as [|x l IH]; intros Hc; [constructor|].
  apply NoDup_cons. split; [|apply IH; by destruct l; [|apply Hc]].
  intros Hx. apply list_elem_of_split in Hx as (l1 & l2 & ->).
  apply (finish_order_acyclic d L (x :: l1 ++ [x]) HL Hnd Hk). exists x, l1.
  split; [done|]. rewrite app_comm_cons in Hc |- *. by apply chain_app in Hc as [Hc _].
Qed.

Lemma chain_nodes d x l y : chain d (x :: l) -> y ∈ l -> exists n, edge d n y.
Proof.
  revert x. induction l as [|z l IH]; intros x Hc Hy; [by apply elem_of_nil in Hy|].
  destruct Hc as [He Hc]. apply elem_of_cons in Hy as [->|Hy]; eauto.
Qed.

(** The layers of every node of an acyclic graph over [ids]. *)
Lemma compute_layers_spec {SO : SetOrder Z} ids d L :
  finish_order d L -> NoDup L -> d.*1 ⊆ L ->
  (forall n m, edge d n m -> m ∈ ids) ->
  exists layers, _compute_layers ids d = Some layers /\ memo_ok d layers /\
    forall m, m ∈ ids -> exists l, dget m layers = Some l.
Proof.
  intros HL Hnd Hk Hids.
  assert (forall m c, m ∈ ids -> chain d (m :: c) -> (length c < size ids)%nat) as Hf.
  { intros m c Hm Hc. pose proof (chain_NoDup d L _ HL Hnd Hk Hc) as Hndc.
    assert (size (list_to_set (m :: c) : gset Z) <= size ids)%nat as Hs.
    { apply subseteq_size. intros x. rewrite elem_of_list_to_set, elem_of_cons.
      intros [->|Hx]; [done|]. destruct (chain_nodes _ _ _ _ Hc Hx). eauto. }
    rewrite size_list_to_set in Hs by done. cbn in Hs. lia. }
  unfold _compute_layers.
  assert (forall nodes layers, (forall m, m ∈ nodes -> m ∈ ids) -> memo_ok d layers ->
    exists layers', foldl (fun acc mid =>
      layers ← acc; '(_, layers') ← layer_of d (size ids) mid layers; Some layers')
      (Some layers) nodes = Some layers' /\ memo_ok d layers' /\ grows layers layers' /\
      forall m, m ∈ nodes -> exists l, dget m layers' = Some l) as Hgen.
  { induction nodes as [|n ns IH]; intros layers Hn Hok; cbn.
    { exists layers. do 3 (split; [done|]). intros m Hm. by apply elem_of_nil in Hm. }
    destruct (layer_of_spec d (size ids) n layers Hok) as (l & ls & -> & _ & Hls & Hg & Hl).
    { intros c. apply Hf, Hn. left. }
    cbn. destruct (IH ls) as (ls' & -> & ? & Hg' & Hall); [set_solver|done|].
    exists ls'. do 2 (split; [done|]). split; [unfold grows in *; naive_solver|].
    intros m [->|Hm]%elem_of_cons; [|auto]. exists l. by apply Hg'. }
  destruct (Hgen (set_iter ids) []) as (ls & H1 & H2 & _ & H3);
    [intros m; apply elem_of_set_iter|by intros m l|].
  exists ls. do 2 (split; [done|]). intros m Hm. apply H3. by apply elem_of_set_iter.
Qed.

(** ** The theorems' graphs *)

Lemma module_dict_NoDup modules : NoDup (module_dict modules).*1.
Proof. apply dict_of_NoDup. Qed.

Lemma in_graph_deps_keys modules m :
  m ∈ (in_graph_deps modules).*1 <-> m ∈ module_ids modules.
Proof.
  unfold in_graph_deps, module_ids. rewrite dict_of_keys, elem_of_list_to_set.
  rewrite <- list_fmap_compose. done.
Qed.

Lemma in_graph_edge modules n m : edge (in_graph_deps modules) n m -> m ∈ module_ids modules.
Proof.
  unfold edge, deps_of. destruct (dget n _) as [l|] eqn:E; [|intros H; by apply elem_of_nil in H].
  apply dget_elem_of, dict_of_elem in E. cbn. intros Hm.
  apply list_elem_of_fmap in E as (x & [= -> ->] & _).
  by apply list_elem_of_filter in Hm as [? _].
Qed.

(** ** Main theorems *)

(** Cycle detection is sound, complete and total.  On every graph
    [detect_circular_dependencies] returns: [NoCycle] exactly when the graph has
    no cycle, and otherwise a closed walk of the graph along dependency edges;
    [path.index] never raises. *)
Theorem detect_correct d :
  exists r, detect_circular_dependencies d = Some r /\
    (r = NoCycle <-> forall c, ~ is_cycle d c) /\
    (forall c, r = Cycle c -> is_cycle d c) /\ r <> NotOnPath.
Proof.
  destruct (detect_spec d) as (r & Hr & Hpost). exists r. split; [done|].
  destruct r as [|cyc|]; [| |done].
  - destruct Hpost as (L & HL & Hnd & Hk). split; [|done].
    split; [|done]. intros _ c. by eapply finish_order_acyclic.
  - split; [|naive_solver]. split; [done|]. intros H. by destruct (H cyc).
Qed.

Lemma sort_spec {SO : SetOrder Z} modules d :
  NoDup d.*1 ->
  (exists c, topological_sort modules d = Err (CircularDependencyError c) /\ is_cycle d c) \/
  ((forall c, ~ is_cycle d c) /\
   exists res, topological_sort modules d = Ok res /\
     res ≡ₚ elements (module_ids modules) /\
     forall i m n, res !! i = Some m -> edge d m n -> n ∈ module_ids modules ->
       exists j, (j < i)%nat /\ res !! j = Some n).
Proof.
  intros Hkeys. unfold topological_sort. destruct (detect_spec d) as (r & -> & Hpost).
  destruct r as [|c|]; [right|left; by exists c|done].
  destruct Hpost as (L & HL & Hnd & Hk).
  split; [intros c; by eapply finish_order_acyclic|].
  set (ids := module_ids modules).
  pose proof (kinv_init ids d (set_iter ids) Hkeys (set_iter_perm ids)) as Hinit.
  destruct (kahn_loop_spec ids d (build ids d) (S (size ids)) _ _ _
    (build_built ids d Hkeys) Hinit ltac:(cbn; lia)) as (res & deg & Hres & Hinv).
  unfold kahn_loop in *. rewrite Hres.
  pose proof (kinv_complete ids d res deg L Hinv HL Hk) as Hall.
  destruct Hinv as [Hndr Hids _ _ Hord]. rewrite app_nil_r in Hndr, Hids.
  assert (res ≡ₚ elements ids) as Hperm.
  { apply NoDup_Permutation; [done|apply NoDup_elements|]. intros x.
    rewrite elem_of_elements. naive_solver. }
  rewrite decide_True by (by rewrite Hperm). exists res. done.
Qed.

(** C7. [topological_sort] is correct, whatever order Python iterates sets in.
    It raises [CircularDependencyError], with a genuine cycle, exactly when the
    graph is cyclic; otherwise it returns every module id exactly once, each
    after all its dependencies among the modules.  The second, "should not
    happen" error is never raised. *)
Theorem topological_sort_correct {SO : SetOrder Z} modules d :
  NoDup d.*1 ->
  (exists c, topological_sort modules d = Err (CircularDependencyError c) /\ is_cycle d c) \/
  ((forall c, ~ is_cycle d c) /\
   exists res, topological_sort modules d = Ok res /\
     res ≡ₚ elements (module_ids modules) /\
     forall i m n, res !! i = Some m -> edge d m n -> n ∈ module_ids modules ->
       exists j, (j < i)%nat /\ res !! j = Some n).
Proof. apply sort_spec. Qed.

(** Deployment orders.  When the modules' graph is acyclic,
    [calculate_deployment_order] numbers exactly the modules, without repeats
    and from 0 below their count, and every module comes after each of its
    dependencies in the project; it raises only when the graph is cyclic. *)
Theorem deployment_order_correct {SO : SetOrder Z} modules :
  (forall c, ~ is_cycle (module_dict modules) c) ->
  exists orders, calculate_deployment_order modules = Ok orders /\
    NoDup orders.*1 /\ (forall m, m ∈ orders.*1 <-> m ∈ module_ids modules) /\
    (forall m o, dget m orders = Some o -> (o < size (module_ids modules))%nat) /\
    (forall m n om, edge (module_dict modules) m n -> n ∈ module_ids modules ->
       dget m orders = Some om -> exists on, dget n orders = Some on /\ (on < om)%nat) /\
    (forall m n o, dget m orders = Some o -> dget n orders = Some o -> m = n).
Proof.
  intros Hac. unfold calculate_deployment_order.
  destruct (sort_spec modules (module_dict modules) (module_dict_NoDup _))
    as [(c & _ & Hc)|(_ & res & -> & Hperm & Hord)]; [by apply Hac in Hc|]. cbn.
  set (l := imap _ res).
  assert (l.*1 = res) as Hl.
  { unfold l. rewrite fmap_imap. rewrite <- (list_fmap_id res) at 2.
    rewrite <- (imap_const id res). by apply imap_ext. }
  assert (NoDup res) as Hnd by (rewrite Hperm; apply NoDup_elements).
  assert (forall m o, dget m (dict_of l) = Some o <-> res !! o = Some m) as Hget.
  { intros m o. rewrite dget_dict_of by (by rewrite Hl). split.
    - intros H. apply dget_elem_of, list_elem_of_lookup in H as [i Hi].
      unfold l in Hi. rewrite list_lookup_imap in Hi.
      destruct (res !! i) eqn:E; simplify_eq/=. done.
    - intros H. apply elem_of_dget; [by rewrite Hl|]. apply list_elem_of_lookup.
      exists o. unfold l. by rewrite list_lookup_imap, H. }
  exists (dict_of l). split; [done|]. split; [apply dict_of_NoDup|]. split; [|split; [|split]].
  - intros m. rewrite dict_of_keys, Hl, Hperm. apply elem_of_elements.
  - intros m o Ho%Hget. apply lookup_lt_Some in Ho. by rewrite Hperm in Ho.
  - intros m n om He Hn Hm%Hget. destruct (Hord _ _ _ Hm He Hn) as (j & Hj & Hjn).
    exists j. by rewrite Hget.
  - intros m n o Hm%Hget Hn%Hget. congruence.
Qed.

(** Dependency edits are validated exactly.  [validate_dependencies]
    accepts iff the module does not depend on itself, every dependency is a
    module of the project, and the project's graph with the edit applied has no
    cycle; a rejection names a true reason, and the search always returns. *)
Theorem validate_dependencies_correct module_id dependency_ids project_id all_modules :
  let d := hypothetical_deps module_id dependency_ids project_id all_modules in
  let ids := project_module_ids project_id all_modules in
  match validate_dependencies module_id dependency_ids project_id all_modules with
  | Valid => (module_id ∉ dependency_ids) /\ (forall dep, dep ∈ dependency_ids -> dep ∈ ids) /\
             forall c, ~ is_cycle d c
  | SelfDependency => module_id ∈ dependency_ids
  | NotInProject dep => (dep ∈ dependency_ids) /\ dep ∉ ids
  | WouldCycle c => is_cycle d c
  | ValidationFault => False
  end.
Proof.
  intros d ids. unfold validate_dependencies. case_decide as Hself; [done|].
  destruct (list_find _ _) as [[i dep]|] eqn:Hf.
  - apply list_find_Some in Hf as (Hi & Hni & _). split; [|done].
    by apply list_elem_of_lookup_2 in Hi.
  - apply list_find_None in Hf. rewrite Forall_forall in Hf.
    destruct (detect_spec d) as (r & Hr & Hpost). fold d. rewrite Hr.
    destruct r as [|c|]; [|done|done].
    destruct Hpost as (L & HL & Hnd & Hk). split; [done|]. split.
    + intros dep Hdep. apply Hf in Hdep. by apply dec_stable in Hdep.
    + intros c. by eapply finish_order_acyclic.
Qed.

(** The graph view.  [get_dependency_graph] always returns; it reports a
    cycle iff the in-project graph has one, and then that cycle and no layers;
    otherwise every module's layer is the length of its longest dependency path. *)
Theorem dependency_graph_correct {SO : SetOrder Z} modules :
  let d := in_graph_deps modules in
  exists v, get_dependency_graph modules = Some v /\
    length v.(g_nodes) = length modules /\
    if v.(g_has_cycle)
    then exists c, v.(g_cycle) = Some c /\ is_cycle d c /\ v.(g_layers) = []
    else (forall c, ~ is_cycle d c) /\ v.(g_cycle) = None /\
         forall m, m ∈ module_ids modules ->
           exists l, dget m v.(g_layers) = Some l /\ longest d m l.
Proof.
  intros d. unfold get_dependency_graph. fold d.
  destruct (detect_spec d) as (r & -> & Hpost). cbn [mbind option_bind].
  destruct r as [|c|]; [| |done]; cbn [mbind option_bind].
  - destruct Hpost as (L & HL & Hnd & Hk).
    destruct (compute_layers_spec (module_ids modules) d L HL Hnd Hk) as (ls & -> & Hok & Hall);
      [apply in_graph_edge|]. cbn. eexists. split; [done|]. cbn.
    split; [by rewrite length_fmap|]. split; [intros c; by eapply finish_order_acyclic|].
    split; [done|]. intros m Hm. destruct (Hall m Hm) as [l Hl]. exists l. auto.
  - eexists. split; [done|]. cbn. split; [by rewrite length_fmap|]. exists c.
    done.
Qed.

(** The status test of [check_dependencies_met]: true iff every dependency is a
    known module whose status is acceptable. *)
Lemma check_dependencies_met_iff m modules statuses :
  NoDup (m_id <$> modules) ->
  (check_dependencies_met m modules statuses).1 = true <->
  forall dep, dep ∈ get_dependencies m ->
    exists dm s, dm ∈ modules /\ dm.(m_id) = dep /\ dm.(m_status) = Some s /\ s ∈ statuses.
Proof.
  intros Hnd. unfold check_dependencies_met.
  set (mm := dict_of _).
  assert (forall dep dm, dget dep mm = Some dm <-> dm ∈ modules /\ dm.(m_id) = dep) as Hmm.
  { intros dep dm. unfold mm. rewrite dget_dict_of by (by rewrite <- list_fmap_compose).
    split.
    - intros H. apply dget_elem_of, list_elem_of_fmap in H as (x & [= -> ->] & Hx). done.
    - intros [Hin <-]. apply elem_of_dget; [by rewrite <- list_fmap_compose|].
      apply list_elem_of_fmap. by exists dm. }
  destruct (get_dependencies m) as [|d0 ds]; [split; [|done]|].
  { intros _ dep Hd. by apply elem_of_nil in Hd. }
  set (f := fun dep_id => _). cbn [fst]. rewrite bool_decide_eq_true.
  assert (forall l, omap f l = [] <-> forall dep, dep ∈ l -> f dep = None) as Ho.
  { induction l as [|x l IH]; cbn; [split; [intros _ dep H; by apply elem_of_nil in H|done]|].
    destruct (f x) eqn:E; [split; [done|]|].
    - intros H. specialize (H x ltac:(left)). congruence.
    - rewrite IH. set_solver. }
  rewrite Ho. clear Ho. split; intros H dep Hdep; specialize (H dep Hdep); unfold f in *.
  - destruct (dget dep mm) as [dm|] eqn:E; [|done]. case_decide as Hs; [|done].
    apply Hmm in E as [Hin Hid]. apply list_elem_of_fmap in Hs as (s & Hs & Hin').
    exists dm, s. auto.
  - destruct H as (dm & s & Hin & Hid & Hs & Hst).
    rewrite (proj2 (Hmm dep dm)) by done. rewrite decide_True; [done|].
    apply list_elem_of_fmap. eauto.
Qed.

(** ** Witnesses *)

Definition mk (i : Z) (ds : list Z) : module := Module i (Some 1) None None None None (Some ds).
Definition diamond : list module := [mk 4 [2; 3]; mk 3 [1]; mk 2 [1]; mk 1 []].

#[local] Instance some_order : SetOrder Z := elements_order.

Lemma topological_sort_correct_witness :
  exists res, topological_sort diamond (module_dict diamond) = Ok res /\
    res ≡ₚ elements (module_ids diamond).
Proof.
  destruct (topological_sort_correct diamond (module_dict diamond))
    as [(c & Hc & _)|(_ & res & Hres & Hp & _)].
  - repeat constructor; set_solver.
  - vm_compute in Hc. discriminate.
  - eauto.
Defined.

Lemma diamond_acyclic : forall c, ~ is_cycle (module_dict diamond) c.
Proof.
  destruct (detect_spec (module_dict diamond)) as (r & Hr & Hpost).
  vm_compute in Hr. injection Hr as <-. destruct Hpost as (L & ? & ? & ?).
  intros c. by eapply finish_order_acyclic.
Qed.

Lemma deployment_order_correct_witness :
  exists orders, calculate_deployment_order diamond = Ok orders /\ NoDup orders.*1.
Proof.
  destruct (deployment_order_correct diamond diamond_acyclic) as (o & H1 & H2 & _). eauto.
Defined.

Example diamond_orders :
  calculate_deployment_order diamond = Ok [(1, 0%nat); (3, 1%nat); (2, 2%nat); (4, 3%nat)] \/
  calculate_deployment_order diamond = Ok [(1, 0%nat); (2, 1%nat); (3, 2%nat); (4, 3%nat)].
Proof. first [left; by vm_compute | right; by vm_compute]. Qed.

Example two_cycle :
  detect_circular_dependencies [(1, [2]); (2, [3]); (3, [1])] = Some (Cycle [1; 2; 3; 1]).
Proof. reflexivity. Qed.
