(* ===== verification/Breaker.v ===== *)
(** * The circuit breaker (services/reachability/breaker.py, probe.py)

    [breaker] is the dataclass [_Breaker]; [can_attempt], [record_success] and
    [record_failure] are its methods, with the clock reading they take
    ([time.monotonic()]) as an argument.  Clock readings and latencies are
    integer nanoseconds.  [run_b] runs a breaker over any sequence of method
    calls, which is how concurrent callers reach it: each method runs to its
    end without an await, so a schedule is a sequence of calls.

    [categorize_exception] classifies an exception by the [isinstance] tests
    of the source; an exception is known by the classes it is an instance of. *)

From S2P Require Import Prelude.

#[local] Open Scope string_scope.
#[local] Open Scope Z_scope.

Definition seconds (n : Z) : Z := n * 1000000000.
Definition millis (n : Z) : Z := n * 1000000.

Inductive ErrorCategory := NETWORK | AUTH | AUTHZ | TARGET | TIMEOUT | SLOW.
#[global] Instance ErrorCategory_eq_dec : EqDecision ErrorCategory.
Proof. solve_decision. Defined.

Inductive BreakerState := CLOSED | OPEN | HALF_OPEN.
#[global] Instance BreakerState_eq_dec : EqDecision BreakerState.
Proof. solve_decision. Defined.

Record breaker := {
  failure_threshold : Z;
  sleep_window_seconds : Z;
  b_state : BreakerState;
  consecutive_failures : Z;
  opened_at : Z;
  half_open_inflight : bool;
  last_success_at : option Z;
  b_target_name : option string
}.
#[global] Instance breaker_eq_dec : EqDecision breaker.
Proof. solve_decision. Defined.

(** [_Breaker(failure_threshold=..., sleep_window_seconds=..., target_name=...)] *)
Definition new_breaker (threshold window : Z) (name : option string) : breaker :=
  {| failure_threshold := threshold; sleep_window_seconds := window;
     b_state := CLOSED; consecutive_failures := 0; opened_at := 0;
     half_open_inflight := false; last_success_at := None; b_target_name := name |}.

Definition set_state (s : BreakerState) (inflight : bool) (b : breaker) : breaker :=
  {| failure_threshold := failure_threshold b; sleep_window_seconds := sleep_window_seconds b;
     b_state := s; consecutive_failures := consecutive_failures b;
     opened_at := opened_at b; half_open_inflight := inflight;
     last_success_at := last_success_at b; b_target_name := b_target_name b |}.

Definition set_name (n : option string) (b : breaker) : breaker :=
  {| failure_threshold := failure_threshold b; sleep_window_seconds := sleep_window_seconds b;
     b_state := b_state b; consecutive_failures := consecutive_failures b;
     opened_at := opened_at b; half_open_inflight := half_open_inflight b;
     last_success_at := last_success_at b; b_target_name := n |}.

(** [can_attempt]: the half-open block is shared by the breaker that was
    half-open already and the one that has just become so. *)
Definition half_open_attempt (b : breaker) : breaker * bool :=
  if half_open_inflight b then (b, false) else (set_state HALF_OPEN true b, true).

Definition can_attempt (now : Z) (b : breaker) : breaker * bool :=
  match b_state b with
  | CLOSED => (b, true)
  | OPEN =>
      if seconds (sleep_window_seconds b) <=? now - opened_at b
      then half_open_attempt (set_state HALF_OPEN false b)
      else (b, false)
  | HALF_OPEN => half_open_attempt b
  end.

Definition record_success (now : Z) (b : breaker) : breaker :=
  {| failure_threshold := failure_threshold b; sleep_window_seconds := sleep_window_seconds b;
     b_state := CLOSED; consecutive_failures := 0; opened_at := opened_at b;
     half_open_inflight := false; last_success_at := Some now;
     b_target_name := b_target_name b |}.

(** [category in (AUTH, AUTHZ)] *)
Definition is_auth (c : option ErrorCategory) : bool :=
  bool_decide (c = Some AUTH \/ c = Some AUTHZ).

Definition record_failure (now : Z) (category : option ErrorCategory) (b : breaker) : breaker :=
  if is_auth category then b else
  let failures := consecutive_failures b + 1 in
  let trips := bool_decide (b_state b = HALF_OPEN) || (failure_threshold b <=? failures) in
  {| failure_threshold := failure_threshold b; sleep_window_seconds := sleep_window_seconds b;
     b_state := if trips then OPEN else b_state b;
     consecutive_failures := failures;
     opened_at := if trips then now else opened_at b;
     half_open_inflight := false;
     last_success_at := last_success_at b; b_target_name := b_target_name b |}.

(** ** [categorize_exception] *)

(** The classes the function tests for. *)
Inductive exc_class :=
| TimeoutError | AsyncioTimeoutError
| U3_MaxRetryError | U3_NewConnectionError | U3_ConnectTimeoutError | U3_ReadTimeoutError
| RQ_ConnectTimeout | RQ_ReadTimeout | RQ_Timeout | RQ_ConnectionError
| K8s_ApiException
| ConnectionError | OSError.

Inductive dependency := urllib3 | requests | kubernetes.

(** An exception: which of the classes it is an instance of, and its [status]
    attribute if it has one. *)
Record exn := { isinstance : exc_class -> bool; exc_status : option Z }.

(** [installed]: which optional dependency can be imported; the [ImportError]
    of a missing one skips its block. *)
Definition categorize_exception (installed : dependency -> bool) (exc : exn) : ErrorCategory :=
  let isa := isinstance exc in
  if isa TimeoutError || isa AsyncioTimeoutError then TIMEOUT
  else if installed urllib3 &&
          (isa U3_MaxRetryError || isa U3_NewConnectionError || isa U3_ConnectTimeoutError)
  then NETWORK
  else if installed urllib3 && isa U3_ReadTimeoutError then TIMEOUT
  else if installed requests && (isa RQ_ConnectTimeout || isa RQ_ReadTimeout || isa RQ_Timeout)
  then TIMEOUT
  else if installed requests && isa RQ_ConnectionError then NETWORK
  else if installed kubernetes && isa K8s_ApiException then
    match exc_status exc with
    | Some st => if st =? 401 then AUTH else if st =? 403 then AUTHZ else TARGET
    | None => TARGET
    end
  else if isa ConnectionError || isa OSError then NETWORK
  else TARGET.

(** ** Runs *)

Inductive bevent :=
| Attempt (now : Z)
| Success (now : Z)
| Failure (now : Z) (c : option ErrorCategory).

Definition ev_time (e : bevent) : Z :=
  match e with Attempt t | Success t | Failure t _ => t end.

Definition step_b (b : breaker) (e : bevent) : breaker :=
  match e with
  | Attempt now => (can_attempt now b).1
  | Success now => record_success now b
  | Failure now c => record_failure now c b
  end.

Definition run_b (b : breaker) (es : list bevent) : breaker := foldl step_b b es.

(** The times at which an attempt was let through. *)
Definition granted (b : breaker) (e : bevent) : list Z :=
  match e with Attempt now => if (can_attempt now b).2 then [now] else [] | _ => [] end.

Fixpoint grants (b : breaker) (es : list bevent) : list Z :=
  match es with
  | [] => []
  | e :: es => granted b e ++ grants (step_b b e) es
  end.

(** The failures that count, and those since the last success. *)
Definition counted (e : bevent) : bool :=
  match e with Failure _ c => negb (is_auth c) | _ => false end.
Definition is_success (e : bevent) : bool :=
  match e with Success _ => true | _ => false end.

Fixpoint until {A} (p : A -> bool) (l : list A) : list A :=
  match l with [] => [] | x :: l => if p x then [] else x :: until p l end.

Definition failures_since_success (es : list bevent) : nat :=
  length (filter counted (until is_success (reverse es))).

(** Clock readings do not go back ([time.monotonic]). *)
Definition in_order (es : list bevent) : Prop :=
  StronglySorted (fun e e' => ev_time e <= ev_time e') es.

(** A sequence of times each at least [w] after the one before. *)
Definition spaced (w : Z) (ts : list Z) : Prop := Sorted (fun t t' => t + w <= t') ts.

#[global] Arguments can_attempt : simpl never.
#[global] Arguments record_success : simpl never.
#[global] Arguments record_failure : simpl never.
#[global] Arguments half_open_attempt : simpl never.

(** ** What every call preserves *)

Lemma run_b_snoc b es e : run_b b (es ++ [e]) = step_b (run_b b es) e.
Proof. apply foldl_snoc. Qed.

Lemma run_b_app b es es' : run_b b (es ++ es') = run_b (run_b b es) es'.
Proof. apply foldl_app. Qed.

Lemma failures_snoc es e :
  failures_since_success (es ++ [e]) =
  if is_success e then 0%nat
  else if counted e then S (failures_since_success es) else failures_since_success es.
Proof.
  unfold failures_since_success. rewrite reverse_snoc. cbn.
  destruct (is_success e); [done|].
  rewrite filter_cons. destruct (counted e); done.
Qed.

(** The states the three methods can leave a breaker in. *)
Record breaker_ok (b : breaker) : Prop := {
  ok_inflight : half_open_inflight b = true <-> b_state b = HALF_OPEN;
  ok_closed : b_state b = CLOSED <-> consecutive_failures b < failure_threshold b
}.

Lemma can_attempt_cases now b (OK : breaker_ok b) :
  (b_state b = CLOSED /\ can_attempt now b = (b, true)) \/
  (b_state b = OPEN /\ opened_at b + seconds (sleep_window_seconds b) <= now /\
   can_attempt now b = (set_state HALF_OPEN true b, true)) \/
  (can_attempt now b = (b, false) /\
   (b_state b = HALF_OPEN \/
    b_state b = OPEN /\ now < opened_at b + seconds (sleep_window_seconds b))).
Proof.
  destruct OK as [Hi _]. unfold can_attempt, half_open_attempt.
  destruct (b_state b) eqn:Hs.
  - by left.
  - cbn. destruct (seconds _ <=? _) eqn:E; bool_hyps.
    + right; left. split_and!; auto; lia.
    + right; right. split; auto. right; split; auto; lia.
  - replace (half_open_inflight b) with true by (symmetry; by apply Hi). auto.
Qed.

Lemma new_breaker_ok th w n : 1 <= th -> breaker_ok (new_breaker th w n).
Proof. split; cbn; intuition (try congruence; try lia). Qed.

Lemma step_b_fixed b e :
  failure_threshold (step_b b e) = failure_threshold b /\
  sleep_window_seconds (step_b b e) = sleep_window_seconds b.
Proof.
  destruct e as [t|t|t c]; cbn; [|done|].
  - unfold can_attempt, half_open_attempt. by repeat case_match.
  - unfold record_failure. by case_match.
Qed.

Lemma run_b_fixed es b :
  failure_threshold (run_b b es) = failure_threshold b /\
  sleep_window_seconds (run_b b es) = sleep_window_seconds b.
Proof.
  induction es as [|e es IH] using rev_ind; [done|].
  rewrite run_b_snoc. destruct (step_b_fixed (run_b b es) e) as [-> ->]. done.
Qed.

Lemma step_b_ok b e (OK : breaker_ok b) (T : 1 <= failure_threshold b) :
  breaker_ok (step_b b e).
Proof.
  destruct e as [t|t|t c]; cbn.
  - destruct (can_attempt_cases t b OK) as [[_ ->]|[(Hs & _ & ->)|[-> _]]]; cbn; auto.
    destruct OK as [Hi Hc]. split; cbn; [tauto|].
    rewrite <- Hc, Hs. split; discriminate.
  - unfold record_success. split; cbn; intuition (try congruence; try lia).
  - unfold record_failure. destruct (is_auth c); [done|].
    destruct OK as [Hi Hc]. split; cbn.
    + destruct (bool_decide _) eqn:E1; cbn; [intuition congruence|].
      apply bool_decide_eq_false in E1.
      case_match; intuition congruence.
    + case_bool_decide; cbn.
      * assert (~ consecutive_failures b < failure_threshold b)
          by (rewrite <- Hc; congruence).
        split; [discriminate|lia].
      * destruct (_ <=? _) eqn:E; bool_hyps; split; try discriminate; try lia.
        intros _. apply Hc. lia.
Qed.

Lemma run_b_ok b es (OK : breaker_ok b) (T : 1 <= failure_threshold b) :
  breaker_ok (run_b b es).
Proof.
  induction es as [|e es IH] using rev_ind; [done|].
  rewrite run_b_snoc. apply step_b_ok; [done|].
  by rewrite (proj1 (run_b_fixed _ _)).
Qed.

(** ** The properties *)

(** Opening is exact.  Whatever the order in which callers attempt calls
    and report outcomes, a breaker created with a positive threshold is closed
    exactly while fewer than [failure_threshold] failures that count (not
    AUTH or AUTHZ) have been reported since the last success; its counter is
    that number, and a trial is marked in flight exactly in the half-open
    state. *)
Theorem closed_iff_few_failures (th w : Z) (n : option string) (es : list bevent)
    (POS : 1 <= th) :
  let b := run_b (new_breaker th w n) es in
  (b_state b = CLOSED <-> Z.of_nat (failures_since_success es) < th) /\
  consecutive_failures b = Z.of_nat (failures_since_success es) /\
  (half_open_inflight b = true <-> b_state b = HALF_OPEN).
Proof.
  cbn zeta.
  assert (CF : consecutive_failures (run_b (new_breaker th w n) es) =
               Z.of_nat (failures_since_success es)).
  { induction es as [|e es IH] using rev_ind; [done|].
    rewrite run_b_snoc, failures_snoc.
    destruct e as [t|t|t c]; cbn -[failures_since_success].
    - rewrite <- IH. unfold can_attempt, half_open_attempt. by repeat case_match.
    - done.
    - unfold record_failure. destruct (is_auth c); cbn -[failures_since_success]; lia. }
  destruct (run_b_ok (new_breaker th w n) es (new_breaker_ok _ _ _ POS) POS) as [Hi Hc].
  rewrite (proj1 (run_b_fixed _ _)) in Hc. cbn in Hc. rewrite <- CF. auto.
Qed.

Lemma closed_iff_few_failures_witness :
  let es := [Failure 1 None; Failure 2 (Some AUTH); Success 3; Failure 4 (Some SLOW);
             Attempt 5; Failure 6 (Some NETWORK)] in
  failures_since_success es = 2%nat /\
  b_state (run_b (new_breaker 2 30 None) es) <> CLOSED /\
  b_state (run_b (new_breaker 3 30 None) es) = CLOSED.
Proof.
  split; [reflexivity|]. split.
  - intros H. apply (closed_iff_few_failures 2 30 None) in H; [vm_compute in H|]; done.
  - apply (closed_iff_few_failures 3 30 None); [lia | reflexivity].
Defined.

(** A later grant is a window after an earlier one. *)
Lemma grants_spaced es b g0 (OK : breaker_ok b) (TH : 1 <= failure_threshold b)
    (NC : b_state b <> CLOSED) (NS : Forall (fun e => is_success e = false) es)
    (ORD : in_order es) (GE : Forall (fun e => g0 <= ev_time e) es)
    (OP : b_state b = OPEN -> g0 <= opened_at b) :
  spaced (seconds (sleep_window_seconds b)) (g0 :: grants b es).
Proof.
  revert b g0 OK TH NC GE OP.
  induction es as [|e es IH]; intros b g0 OK TH NC GE OP; cbn [grants].
  { by repeat constructor. }
  inversion NS as [|? ? NSe NSs]; inversion GE as [|? ? GEe GEs]; subst.
  apply StronglySorted_inv in ORD as [ORDs LE].
  pose proof (step_b_ok b e OK TH) as OK'.
  destruct (step_b_fixed b e) as [T' W'].
  rewrite <- W'. rewrite <- T' in TH.
  destruct e as [t|t|t c]; cbn in *; [|discriminate|].
  - destruct (can_attempt_cases t b OK) as [[? _]|[(Hs & Hw & E)|[E Hn]]];
      [done| |]; rewrite E in *; cbn in *.
    + constructor; [|constructor; specialize (OP Hs); lia].
      apply (IH NSs ORDs (set_state HALF_OPEN true b)); cbn; auto; congruence.
    + apply IH; auto.
  - unfold record_failure in *. destruct (is_auth c); [by apply IH|].
    apply IH; auto; cbn; [by case_match|].
    intros Hs. case_match; [lia|]. by apply OP.
Qed.

Lemma last_opened es b hi (OP : b_state b = OPEN -> opened_at b <= hi)
    (HI : Forall (fun e => ev_time e <= hi) es) :
  b_state (run_b b es) = OPEN -> opened_at (run_b b es) <= hi.
Proof.
  induction es as [|e es IH] using rev_ind; [done|].
  rewrite run_b_snoc. apply Forall_app in HI as [HI He]. specialize (IH HI).
  inversion He; subst.
  destruct e as [t|t|t c]; cbn in *.
  - unfold can_attempt, half_open_attempt. repeat case_match; cbn; intros; try congruence; auto.
  - done.
  - unfold record_failure. destruct (is_auth c); [done|]. cbn. by case_match.
Qed.

(** A struggling target is left alone.  Take any run of a breaker whose
    clock does not go back, and cut it where the breaker is not closed: as
    long as no success is reported afterwards, whatever the mix of attempts,
    failures and auth failures, two attempts that are let through are at
    least the sleep window apart, and from the open state the first one is at
    least the window after the opening. *)
Theorem trials_spaced (th w : Z) (n : option string) (pre suf : list bevent)
    (POS : 1 <= th) (ORD : in_order (pre ++ suf))
    (NC : b_state (run_b (new_breaker th w n) pre) <> CLOSED)
    (NS : Forall (fun e => is_success e = false) suf) :
  let b := run_b (new_breaker th w n) pre in
  spaced (seconds w) (grants b suf) /\
  (b_state b = OPEN -> spaced (seconds w) (opened_at b :: grants b suf)).
Proof.
  cbn zeta. apply StronglySorted_app in ORD as (LE & _ & ORD).
  assert (OK : breaker_ok (run_b (new_breaker th w n) pre))
    by (apply run_b_ok; [by apply new_breaker_ok|done]).
  destruct (run_b_fixed pre (new_breaker th w n)) as [HT HW]. cbn in HT, HW.
  assert (LO : forall e, e ∈ suf -> b_state (run_b (new_breaker th w n) pre) = OPEN ->
                 opened_at (run_b (new_breaker th w n) pre) <= ev_time e).
  { intros e He. apply last_opened; [done|].
    apply Forall_forall. intros e' He'. by apply LE. }
  revert OK HT HW LO NC. generalize (run_b (new_breaker th w n) pre). intros b OK <- <- LO NC.
  assert (GO : b_state b = OPEN ->
    spaced (seconds (sleep_window_seconds b)) (opened_at b :: grants b suf)).
  { intros Ho. apply grants_spaced; auto; [|lia].
    apply Forall_forall. intros e He. by apply LO. }
  split; [|done].
  destruct (b_state b) eqn:Hs; [done| |].
  - specialize (GO eq_refl). by apply Sorted_inv in GO as [? _].
  - destruct suf as [|e suf]; [constructor|].
    pose proof (grants_spaced (e :: suf) b (ev_time e) OK POS) as G.
    rewrite Hs in G. specialize (G ltac:(done) NS ORD).
    apply StronglySorted_inv in ORD as [_ F].
    specialize (G ltac:(constructor; [lia|done]) ltac:(done)).
    by apply Sorted_inv in G as [? _].
Qed.

Definition tripped : list bevent := [Attempt 0; Failure 1 None].
Definition while_down : list bevent :=
  [Attempt 2; Attempt (seconds 30 + 1); Attempt (seconds 30 + 2);
   Failure (seconds 31) (Some TIMEOUT); Attempt (seconds 60); Attempt (seconds 61)].

Lemma trials_spaced_witness :
  grants (run_b (new_breaker 1 30 None) tripped) while_down = [seconds 30 + 1; seconds 61] /\
  spaced (seconds 30) (1 :: grants (run_b (new_breaker 1 30 None) tripped) while_down).
Proof.
  split; [reflexivity|].
  apply (trials_spaced 1 30 None tripped while_down).
  - lia.
  - unfold in_order, tripped, while_down, seconds. cbn.
    repeat (constructor; cbn; [|repeat (constructor; cbn; try lia)]). constructor.
  - discriminate.
  - repeat constructor.
  - reflexivity.
Defined.

(** One trial, and what ends it.  A half-open breaker whose trial is in
    flight lets nothing else through, and does not change, until a success or
    a failure that counts is reported: neither the passing of time nor an
    AUTH or AUTHZ failure (the trial's own included) releases it.  A success
    closes it; a failure that counts opens it again. *)
Theorem half_open_waits_for_outcome (b : breaker) (es : list bevent)
    (HO : b_state b = HALF_OPEN) (IN : half_open_inflight b = true)
    (NO : Forall (fun e => is_success e = false /\ counted e = false) es) :
  run_b b es = b /\ grants b es = [] /\
  (forall t, b_state (run_b b (es ++ [Success t])) = CLOSED) /\
  (forall t c, is_auth c = false ->
     b_state (run_b b (es ++ [Failure t c])) = OPEN /\
     opened_at (run_b b (es ++ [Failure t c])) = t).
Proof.
  assert (R : run_b b es = b /\ grants b es = []).
  { induction NO as [|e es [Hs Hc] NO IH]; [done|].
    destruct e as [t|t|t c]; cbn in *; [|done|].
    - unfold can_attempt, half_open_attempt. rewrite HO, IN. cbn. done.
    - unfold record_failure. by destruct (is_auth c). }
  destruct R as [R G]. split_and!; auto.
  - intros t. rewrite run_b_snoc. done.
  - intros t c Hc. rewrite run_b_snoc, R. cbn. unfold record_failure.
    rewrite Hc, HO. done.
Qed.

Lemma half_open_waits_for_outcome_witness :
  let b := run_b (new_breaker 1 30 None) (tripped ++ [Attempt (seconds 31)]) in
  grants b [Failure (seconds 32) (Some AUTH); Attempt (seconds 1000); Attempt (seconds 9000)] = [].
Proof.
  apply (half_open_waits_for_outcome
    (run_b (new_breaker 1 30 None) (tripped ++ [Attempt (seconds 31)]))).
  - reflexivity.
  - reflexivity.
  - repeat constructor.
Defined.

