(* ===== verification/Reachability.v ===== *)
(** * The reachability registry (services/reachability/registry.py) and the
      [with_breaker] decorator (breaker.py)

    [registry] is the state of [ReachabilityRegistry]; each method is a
    function on it.  On the event loop methods only suspend where the model has
    separate steps, so a run is a sequence of [revent]s; the synchronous wrappers
    of routes that run in worker threads are taken to be one step each half, which
    the code does not enforce: two threads may both find no breaker and make one
    each.
    [asyncio.Queue()] is unbounded: [put] neither blocks nor overflows.

    [call_enter] and [call_leave] are the two halves of the wrapper around a
    decorated function; [sync_wrapper] runs the function between them, and an
    async wrapper is the same two halves with other events in between.

    Not modelled: the best-effort Redis copy of a snapshot, logging, and the
    task that repeats the probes ([_scheduler_loop]); each probe it runs is an
    event. *)

From Stdlib Require Import Ascii.
From S2P Require Import Prelude Breaker.

#[local] Open Scope string_scope.
#[local] Open Scope list_scope.
#[local] Open Scope Z_scope.

Inductive ReachabilityState := UNKNOWN | REACHABLE | UNREACHABLE.
#[global] Instance ReachabilityState_eq_dec : EqDecision ReachabilityState.
Proof. solve_decision. Defined.

(** [error_context] holds strings under string keys. *)
Record ProbeResult := {
  pr_state : ReachabilityState;
  checked_at : Z;
  latency_ms : option Z;
  error_category : option ErrorCategory;
  error_context : gmap string string
}.

(** The class attributes of a registered [Probe]. *)
Record probe_cfg := {
  slow_threshold_ms : Z;
  breaker_failure_threshold : Z;
  breaker_sleep_window_seconds : Z
}.

Definition target : Type := string * Z.

Record snapshot := {
  s_target : target;
  s_target_name : option string;
  s_state : ReachabilityState;
  s_latency_ms : option Z;
  s_error_category : option ErrorCategory;
  s_error_context : gmap string string;
  s_checked_at : Z
}.

Definition _serialize_result (r : ProbeResult) (k : target) (name : option string) : snapshot :=
  {| s_target := k; s_target_name := name; s_state := pr_state r;
     s_latency_ms := latency_ms r; s_error_category := error_category r;
     s_error_context := error_context r; s_checked_at := checked_at r |}.

(** A subscriber: what its iterator has yielded and what waits in its queue. *)
Record subscriber := { yielded : list snapshot; queued : list snapshot }.

Record registry := {
  _probes : gmap string probe_cfg;
  _breakers : gmap target breaker;
  _latest : list (target * snapshot);
  _target_names : gmap target string;
  _last_success_wall : gmap target Z;
  _subscribers : gmap nat subscriber;
  next_queue : nat
}.

Definition init_registry (probes : gmap string probe_cfg) : registry :=
  {| _probes := probes; _breakers := ∅; _latest := []; _target_names := ∅;
     _last_success_wall := ∅; _subscribers := ∅; next_queue := 0 |}.

Definition with_breakers (f : gmap target breaker -> gmap target breaker) (r : registry) : registry :=
  {| _probes := _probes r; _breakers := f (_breakers r); _latest := _latest r;
     _target_names := _target_names r; _last_success_wall := _last_success_wall r;
     _subscribers := _subscribers r; next_queue := next_queue r |}.
Definition with_latest (f : list (target * snapshot) -> list (target * snapshot)) (r : registry) : registry :=
  {| _probes := _probes r; _breakers := _breakers r; _latest := f (_latest r);
     _target_names := _target_names r; _last_success_wall := _last_success_wall r;
     _subscribers := _subscribers r; next_queue := next_queue r |}.
Definition with_names (f : gmap target string -> gmap target string) (r : registry) : registry :=
  {| _probes := _probes r; _breakers := _breakers r; _latest := _latest r;
     _target_names := f (_target_names r); _last_success_wall := _last_success_wall r;
     _subscribers := _subscribers r; next_queue := next_queue r |}.
Definition with_wall (f : gmap target Z -> gmap target Z) (r : registry) : registry :=
  {| _probes := _probes r; _breakers := _breakers r; _latest := _latest r;
     _target_names := _target_names r; _last_success_wall := f (_last_success_wall r);
     _subscribers := _subscribers r; next_queue := next_queue r |}.
Definition with_subscribers (f : gmap nat subscriber -> gmap nat subscriber) (r : registry) : registry :=
  {| _probes := _probes r; _breakers := _breakers r; _latest := _latest r;
     _target_names := _target_names r; _last_success_wall := _last_success_wall r;
     _subscribers := f (_subscribers r); next_queue := next_queue r |}.

(** ** Breaker integration *)

Definition new_breaker_for (probes : gmap string probe_cfg) (ty : string) (name : option string) : breaker :=
  match probes !! ty with
  | Some p => new_breaker (breaker_failure_threshold p) (breaker_sleep_window_seconds p) name
  | None => new_breaker 5 30 name
  end.

Definition _breaker_for (k : target) (r : registry) : registry * breaker :=
  match _breakers r !! k with
  | Some b => (r, b)
  | None =>
      let b := new_breaker_for (_probes r) k.1 (_target_names r !! k) in
      (with_breakers <[k := b]> r, b)
  end.

(** A method call on the breaker object of a target: the object is shared with
    the dict, so its new state is what the dict holds. *)
Definition on_breaker {A} (k : target) (f : breaker -> breaker * A) (r : registry) : registry * A :=
  let '(r, b) := _breaker_for k r in
  let '(b, a) := f b in
  (with_breakers <[k := b]> r, a).

Definition allow_call (now : Z) (k : target) (r : registry) : registry * bool :=
  on_breaker k (can_attempt now) r.

Definition slow_threshold (probes : gmap string probe_cfg) (ty : string) : Z :=
  match probes !! ty with Some p => slow_threshold_ms p | None => 5000 end.

(** [now] is the monotonic reading of the breaker, [wall] that of
    [datetime.now(UTC)]. *)
Definition record_real_call (now wall : Z) (k : target) (success : bool)
    (category : option ErrorCategory) (latency : Z) (r : registry) : registry :=
  if success && (millis (slow_threshold (_probes r) k.1) <=? latency)
  then (on_breaker k (fun b => (record_failure now (Some SLOW) b, tt)) r).1
  else if success
  then with_wall <[k := wall]> (on_breaker k (fun b => (record_success now b, tt)) r).1
  else (on_breaker k (fun b => (record_failure now category b, tt)) r).1.

(** ** Subscriptions *)

Definition all_states (r : registry) : list snapshot := (_latest r).*2.
Definition get_state (k : target) (r : registry) : option snapshot := dget k (_latest r).
Definition get_target_name (k : target) (r : registry) : option string := _target_names r !! k.
Definition get_last_success_iso (k : target) (r : registry) : option Z := _last_success_wall r !! k.

(** [subscribe()] up to its first [queue.get()]: a new queue, the replay of
    the current states, and its registration. *)
Definition subscribe (r : registry) : registry :=
  {| _probes := _probes r; _breakers := _breakers r; _latest := _latest r;
     _target_names := _target_names r; _last_success_wall := _last_success_wall r;
     _subscribers := <[next_queue r := {| yielded := []; queued := all_states r |}]> (_subscribers r);
     next_queue := S (next_queue r) |}.

(** One [yield await queue.get()]; it waits while the queue is empty. *)
Definition take (s : subscriber) : subscriber :=
  match queued s with
  | [] => s
  | x :: q => {| yielded := yielded s ++ [x]; queued := q |}
  end.
Definition next_event (q : nat) (r : registry) : registry := with_subscribers (alter take q) r.
Definition unsubscribe (q : nat) (r : registry) : registry := with_subscribers (delete q) r.

Definition put (x : snapshot) (s : subscriber) : subscriber :=
  {| yielded := yielded s; queued := queued s ++ [x] |}.
Definition _publish (x : snapshot) (r : registry) : registry := with_subscribers (fmap (put x)) r.

(** ** Probe results *)

Definition feed (now wall : Z) (k : target) (result : ProbeResult) (r : registry) : registry :=
  let latency := default 0 (latency_ms result) in
  match pr_state result with
  | REACHABLE => record_real_call now wall k true None latency r
  | UNREACHABLE => record_real_call now wall k false (error_category result) latency r
  | UNKNOWN => r
  end.

Definition changed (prev : option snapshot) (x : snapshot) : bool :=
  match prev with
  | None => true
  | Some p => bool_decide (s_state p <> s_state x)
              || bool_decide (s_error_context p <> s_error_context x)
  end.

Definition learn_name (k : target) (name : option string) (r : registry) : registry :=
  match name with
  | Some n =>
      if String.eqb n "" then r else
      with_breakers
        (alter (fun b => if truthy_str (b_target_name b) then b else set_name (Some n) b) k)
        (with_names <[k := n]> r)
  | None => r
  end.

(** [_record_probe_result] up to the [await] of the Redis copy: the new state
    and the snapshot to publish when the coroutine resumes, if any (the test
    that decides it only reads [prev] and the snapshot). *)
Definition _record_probe_result (now wall : Z) (k : target) (result : ProbeResult) (r : registry)
  : registry * option snapshot :=
  let target_name := or_else (error_context result !! "target_name") (_target_names r !! k) in
  let r := learn_name k target_name r in
  let x := _serialize_result result k target_name in
  let prev := dget k (_latest r) in
  let r := feed now wall k result (with_latest (dset k x) r) in
  (r, if changed prev x then Some x else None).

(** [_probe_one]: what the probe did, a result or an exception (its text). *)
Definition probe_result (wall : Z) (probed : result string ProbeResult) : ProbeResult :=
  match probed with
  | Ok x => x
  | Err exc =>
      {| pr_state := UNREACHABLE; checked_at := wall; latency_ms := None;
         error_category := Some TARGET;
         error_context := {[ "suggested_action" := "Probe failed unexpectedly: " +:+ exc ]} |}
  end.
Definition _probe_one (now wall : Z) (k : target) (probed : result string ProbeResult) (r : registry)
  : registry * option snapshot :=
  _record_probe_result now wall k (probe_result wall probed) r.

(** [force_probe] up to the same [await]: the exception of an unknown target
    type, the probe's own exception, or the snapshot to publish.  When it
    resumes it answers [get_state]. *)
Definition force_probe (now wall : Z) (k : target) (probed : result string ProbeResult) (r : registry)
  : registry * result string (option snapshot) :=
  match _probes r !! k.1 with
  | None => (r, Err ("Unknown target_type: " +:+ k.1))
  | Some _ =>
      match probed with
      | Err exc => (r, Err exc)
      | Ok result => let '(r, x) := _record_probe_result now wall k result r in (r, Ok x)
      end
  end.

Definition reset_breaker_state (r : registry) : registry :=
  {| _probes := _probes r; _breakers := ∅; _latest := []; _target_names := ∅;
     _last_success_wall := ∅; _subscribers := _subscribers r; next_queue := next_queue r |}.

(** ** Runs of the registry

    [in_flight] holds, oldest first, the snapshots of the coroutines that wait
    for Redis with something to publish; [RPublish i] resumes one of them.
    Without Redis nothing waits, and [RPublish] follows its probe at once. *)

Inductive revent :=
| RAllow (now : Z) (k : target)
| RCall (now wall : Z) (k : target) (success : bool) (c : option ErrorCategory) (latency : Z)
| RProbe (now wall : Z) (k : target) (probed : result string ProbeResult)
| RForce (now wall : Z) (k : target) (probed : result string ProbeResult)
| RPublish (i : nat)
| RSubscribe
| RNext (q : nat)
| RUnsubscribe (q : nat)
| RReset.

Record rstate := { reg : registry; in_flight : list snapshot }.

Definition start (probes : gmap string probe_cfg) : rstate :=
  {| reg := init_registry probes; in_flight := [] |}.

Definition only_reg (f : registry -> registry) (s : rstate) : rstate :=
  {| reg := f (reg s); in_flight := in_flight s |}.

Definition suspended (p : registry * option snapshot) (s : rstate) : rstate :=
  {| reg := p.1; in_flight := in_flight s ++ match p.2 with Some x => [x] | None => [] end |}.

Definition rstep (s : rstate) (e : revent) : rstate :=
  match e with
  | RAllow now k => only_reg (fun r => (allow_call now k r).1) s
  | RCall now wall k ok c l => only_reg (record_real_call now wall k ok c l) s
  | RProbe now wall k p => suspended (_probe_one now wall k p (reg s)) s
  | RForce now wall k p =>
      match force_probe now wall k p (reg s) with
      | (r, Ok x) => suspended (r, x) s
      | (_, Err _) => s
      end
  | RPublish i =>
      match in_flight s !! i with
      | Some x => {| reg := _publish x (reg s); in_flight := delete i (in_flight s) |}
      | None => s
      end
  | RSubscribe => only_reg subscribe s
  | RNext q => only_reg (next_event q) s
  | RUnsubscribe q => only_reg (unsubscribe q) s
  | RReset => only_reg reset_breaker_state s
  end.

Definition rrun (s : rstate) (es : list revent) : rstate := foldl rstep s es.

(** ** The decorator *)

Inductive outcome (R : Type) :=
| Returned (r : R)
| OpenError (k : target) (name : string) (suggested_action : string) (last_success : option Z)
| Raised (e : exn).
Arguments Returned {R} r.
Arguments OpenError {R} k name suggested_action last_success.
Arguments Raised {R} e.

(** [str.title()] on ASCII: a letter is upper case after a non-letter and
    lower case after a letter. *)
Definition is_upper (c : ascii) : bool := (65 <=? Z.of_nat (nat_of_ascii c)) && (Z.of_nat (nat_of_ascii c) <=? 90).
Definition is_lower (c : ascii) : bool := (97 <=? Z.of_nat (nat_of_ascii c)) && (Z.of_nat (nat_of_ascii c) <=? 122).
Definition upper (c : ascii) : ascii := if is_lower c then ascii_of_nat (nat_of_ascii c - 32) else c.
Definition lower (c : ascii) : ascii := if is_upper c then ascii_of_nat (nat_of_ascii c + 32) else c.
Fixpoint title_from (after_letter : bool) (s : string) : string :=
  match s with
  | EmptyString => EmptyString
  | String c s =>
      String (if after_letter then lower c else upper c)
             (title_from (is_upper c || is_lower c) s)
  end.
Definition title : string -> string := title_from false.

Definition _build_open_error {R} (k : target) (r : registry) : outcome R :=
  let name := default "" (or_else (get_target_name k r) (Some (k.1 +:+ ":" +:+ pretty k.2))) in
  OpenError k name
    (title k.1 +:+ " '" +:+ name +:+ "' was unreachable on recent attempts; not retrying yet. Use the retry button to force a probe.")
    (get_last_success_iso k r).

(** [_resolve_target_id]: arguments are opaque objects; [int_of] is what
    [int(v)] gives, nothing when it raises TypeError or ValueError. *)
Section resolve.
Context {V : Type} (is_none : V -> bool) (int_of : V -> option Z).

Fixpoint index_of (x : string) (l : list string) : option nat :=
  match l with
  | [] => None
  | y :: l => if String.eqb x y then Some 0%nat else S <$> index_of x l
  end.

Definition _resolve_target_id (param_names : list string) (target_id_arg : string)
    (args : list V) (kwargs : list (string * V)) : option Z :=
  let v :=
    match dget target_id_arg kwargs with
    | Some v => Some v
    | None => i ← index_of target_id_arg param_names; args !! i
    end in
  match v with
  | Some v => if is_none v then None else int_of v
  | None => None
  end.
End resolve.

(** The clock readings of one wrapped call, in the order they are taken. *)
Record readings := {
  t_attempt : Z; t_start : Z; t_end : Z; t_record : Z; t_wall : Z
}.

Section wrapper.
Context {W R : Type} (installed : dependency -> bool).

(** Before the function: nothing, or the error that replaces it. *)
Definition call_enter (t : readings) (k : target) (r : registry) : registry * option (outcome R) :=
  let '(r, ok) := allow_call (t_attempt t) k r in
  (r, if ok then None else Some (_build_open_error k r)).

(** How an exception of the function is classified; a [BreakerOpenError] of a
    nested wrapper is an instance of none of the classes. *)
Definition category_of (o : outcome R) : option ErrorCategory :=
  match o with
  | Returned _ => None
  | OpenError _ _ _ _ => Some (categorize_exception installed {| isinstance _ := false; exc_status := None |})
  | Raised e => Some (categorize_exception installed e)
  end.
Definition returned (o : outcome R) : bool :=
  match o with Returned _ => true | _ => false end.

(** After it. *)
Definition call_leave (t : readings) (k : target) (o : outcome R) (r : registry) : registry :=
  record_real_call (t_record t) (t_wall t) k (returned o) (category_of o) (t_end t - t_start t) r.

(** [fn]: the decorated function, on the registry and the rest of the world. *)
Definition sync_wrapper (t : readings) (ty : string) (target_id : option Z)
    (fn : registry * W -> registry * W * outcome R) (s : registry * W) : registry * W * outcome R :=
  match target_id with
  | None => fn s
  | Some id =>
      match call_enter t (ty, id) s.1 with
      | (r, Some err) => (r, s.2, err)
      | (r, None) =>
          let '(r, w, o) := fn (r, s.2) in
          (call_leave t (ty, id) o r, w, o)
      end
  end.
End wrapper.

#[global] Arguments record_real_call : simpl never.
#[global] Arguments on_breaker : simpl never.
#[global] Arguments _record_probe_result : simpl never.

(** ** The registry runs one breaker per target *)

(** The calls that one event makes on the breaker of a target. *)
Definition call_events (probes : gmap string probe_cfg) (k : target) (now : Z)
    (ok : bool) (c : option ErrorCategory) (latency : Z) : list bevent :=
  if ok then
    if millis (slow_threshold probes k.1) <=? latency then [Failure now (Some SLOW)] else [Success now]
  else [Failure now c].

Definition probe_events (probes : gmap string probe_cfg) (k : target) (now : Z) (res : ProbeResult) : list bevent :=
  match pr_state res with
  | UNKNOWN => []
  | REACHABLE => call_events probes k now true None (default 0 (latency_ms res))
  | UNREACHABLE => [Failure now (error_category res)]
  end.

Definition events_at (probes : gmap string probe_cfg) (k : target) (e : revent) : list bevent :=
  match e with
  | RAllow now k' => if decide (k' = k) then [Attempt now] else []
  | RCall now _ k' ok c l => if decide (k' = k) then call_events probes k now ok c l else []
  | RProbe now wall k' p => if decide (k' = k) then probe_events probes k now (probe_result wall p) else []
  | RForce now _ k' (Ok res) =>
      if decide (k' = k) then
        match probes !! k.1 with Some _ => probe_events probes k now res | None => [] end
      else []
  | _ => []
  end.

(** Those of a whole run, since the last reset. *)
Definition history (probes : gmap string probe_cfg) (k : target) (es : list revent) : list bevent :=
  foldl (fun h e => match e with RReset => [] | _ => h ++ events_at probes k e end) [] es.

Section refinement.
Context (probes : gmap string probe_cfg) (k : target).

Definition fresh_breaker : breaker := new_breaker_for probes k.1 None.

(** The registry's breaker has seen the calls [h]. *)
Definition seen (h : list bevent) (r : registry) : Prop :=
  _probes r = probes /\
  match _breakers r !! k with
  | None => h = []
  | Some b => set_name None b = run_b fresh_breaker h
  end.

Lemma step_b_name n b e : set_name n (step_b b e) = step_b (set_name n b) e.
Proof.
  destruct e as [t|t|t c]; cbn.
  - unfold can_attempt, half_open_attempt. by destruct b, b_state, half_open_inflight; cbn; repeat case_match.
  - done.
  - unfold record_failure. by destruct (is_auth c).
Qed.

Lemma seen_nil r : _probes r = probes -> _breakers r !! k = None -> seen [] r.
Proof. intros Hp Hb. split; [done|]. by rewrite Hb. Qed.

Lemma new_breaker_for_name ty n : set_name None (new_breaker_for probes ty n) = new_breaker_for probes ty None.
Proof. unfold new_breaker_for. by case_match. Qed.

Lemma on_breaker_probes {A} k' (f : breaker -> breaker * A) r :
  _probes (on_breaker k' f r).1 = _probes r.
Proof. unfold on_breaker, _breaker_for. by repeat case_match; simplify_eq. Qed.

Lemma on_breaker_lookup {A} k' (f : breaker -> breaker * A) r :
  _breakers (on_breaker k' f r).1 !! k =
  if decide (k' = k)
  then Some (f (default (new_breaker_for (_probes r) k.1 (_target_names r !! k)) (_breakers r !! k))).1
  else _breakers r !! k.
Proof.
  unfold on_breaker, _breaker_for.
  destruct (_breakers r !! k') as [b|] eqn:E.
  - destruct (f b) as [b' a] eqn:F. cbn.
    destruct (decide (k' = k)) as [->|].
    + rewrite lookup_insert_eq, E. cbn. by rewrite F.
    + by rewrite lookup_insert_ne.
  - destruct (f _) as [b' a] eqn:F. cbn.
    destruct (decide (k' = k)) as [->|].
    + rewrite lookup_insert_eq, E. cbn. by rewrite F.
    + by rewrite !lookup_insert_ne.
Qed.

Lemma on_breaker_seen {A} k' (f : breaker -> breaker * A) e h r
    (STEP : forall b, (f b).1 = step_b b e) (S : seen h r) :
  seen (if decide (k' = k) then h ++ [e] else h) (on_breaker k' f r).1.
Proof.
  destruct S as [Hp Hb]. split; [by rewrite on_breaker_probes|].
  rewrite on_breaker_lookup. destruct (decide (k' = k)) as [->|]; [|done].
  rewrite STEP, step_b_name, run_b_snoc. f_equal. rewrite Hp.
  destruct (_breakers r !! k) as [b|]; cbn; [done|].
  subst h. apply new_breaker_for_name.
Qed.

(** Changes that leave the breakers and the probes alone. *)
Lemma seen_eq h r r' (S : seen h r) :
  _probes r' = _probes r -> _breakers r' !! k = _breakers r !! k -> seen h r'.
Proof. unfold seen. by intros -> ->. Qed.

Lemma record_real_call_seen now wall k' ok c l h r (S : seen h r) :
  seen (if decide (k' = k) then h ++ call_events probes k now ok c l else h)
       (record_real_call now wall k' ok c l r).
Proof.
  unfold record_real_call, call_events. rewrite (proj1 S).
  assert (K : forall b1 b2 : list bevent, (if decide (k' = k) then b1 else b2) = if decide (k = k') then b1 else b2)
    by (intros; repeat case_decide; congruence).
  destruct (decide (k' = k)) as [->|N]; destruct ok; cbn [andb].
  - destruct (_ <=? _).
    + pose proof (on_breaker_seen k (fun b => (record_failure now (Some SLOW) b, tt)) (Failure now (Some SLOW)) h r (fun _ => eq_refl) S) as G.
      by rewrite decide_True in G by done.
    + eapply seen_eq; [|done|done].
      pose proof (on_breaker_seen k (fun b => (record_success now b, tt)) (Success now) h r (fun _ => eq_refl) S) as G.
      by rewrite decide_True in G by done.
  - pose proof (on_breaker_seen k (fun b => (record_failure now c b, tt)) (Failure now c) h r (fun _ => eq_refl) S) as G.
    by rewrite decide_True in G by done.
  - destruct (_ <=? _); eapply seen_eq; eauto; cbn;
      rewrite ?on_breaker_probes, ?on_breaker_lookup, ?decide_False by done; done.
  - eapply seen_eq; eauto; cbn;
      rewrite ?on_breaker_probes, ?on_breaker_lookup, ?decide_False by done; done.
Qed.

Lemma learn_name_seen k' n h r (S : seen h r) : seen h (learn_name k' n r).
Proof.
  unfold learn_name. destruct n as [n|]; [|done]. destruct (String.eqb n ""); [done|].
  destruct S as [Hp Hb]. split; [done|]. cbn.
  destruct (decide (k' = k)) as [->|].
  - rewrite lookup_alter_eq. destruct (_breakers r !! k) as [b|]; cbn; [|done].
    rewrite <- Hb. by case_match.
  - by rewrite lookup_alter_ne.
Qed.

Lemma record_probe_seen now wall k' res h r (S : seen h r) :
  seen (if decide (k' = k) then h ++ probe_events probes k now res else h)
       (_record_probe_result now wall k' res r).1.
Proof.
  unfold _record_probe_result, feed, probe_events. cbn [fst].
  eapply learn_name_seen in S.
  assert (S' : seen h (with_latest (dset k' (_serialize_result res k'
     (or_else (error_context res !! "target_name") (_target_names r !! k'))))
     (learn_name k' (or_else (error_context res !! "target_name") (_target_names r !! k')) r)))
    by (eapply seen_eq; [exact S|done|done]).
  destruct (pr_state res).
  - case_decide; [by rewrite app_nil_r|done].
  - by apply record_real_call_seen.
  - by apply (record_real_call_seen now wall k' false (error_category res)).
Qed.
End refinement.

Lemma rstep_seen probes k h s e (S : seen probes k h (reg s)) :
  seen probes k (match e with RReset => [] | _ => h ++ events_at probes k e end) (reg (rstep s e)).
Proof.
  destruct e as [now k'|now wall k' ok c l|now wall k' pr|now wall k' pr|i| |q|q|]; cbn;
    rewrite ?app_nil_r; try (eapply seen_eq; [exact S|done|done]).
  - pose proof (on_breaker_seen probes k k' (can_attempt now) (Attempt now) h (reg s) (fun _ => eq_refl) S) as G.
    unfold allow_call. case_decide; rewrite ?app_nil_r; done.
  - pose proof (record_real_call_seen probes k now wall k' ok c l h (reg s) S) as G.
    case_decide; rewrite ?app_nil_r; done.
  - pose proof (record_probe_seen probes k now wall k' (probe_result wall pr) h (reg s) S) as G.
    unfold _probe_one. case_decide; rewrite ?app_nil_r; done.
  - unfold force_probe. rewrite (proj1 S).
    destruct pr as [res|exc].
    + pose proof (record_probe_seen probes k now wall k' res h (reg s) S) as G.
      destruct (decide (k' = k)) as [->|N].
      * destruct (probes !! k.1); cbn; [|by rewrite app_nil_r].
        destruct (_record_probe_result _ _ _ _ _); done.
      * destruct (probes !! k'.1); cbn; rewrite app_nil_r; [|done].
        destruct (_record_probe_result _ _ _ _ _); done.
    + rewrite app_nil_r. by destruct (probes !! k'.1).
  - case_match; [|done]. eapply seen_eq; [exact S|done|done].
  - by apply seen_nil; [apply S|].
Qed.

(** C36. Per-target isolation.  Whatever mix of wrapped calls, probe results,
    forced probes, subscriptions and resets the registry goes through, for
    any targets, the breaker it keeps for a target is (but for its display
    name) the breaker configured for the target's type run over the calls
    made for that very target since the last reset: no event for another
    target touches it, an UNKNOWN probe never does, and a success slower than
    the type's threshold counts as a failure. *)
Theorem registry_runs_breakers (probes : gmap string probe_cfg) (es : list revent) (k : target) :
  match _breakers (reg (rrun (start probes) es)) !! k with
  | None => history probes k es = []
  | Some b => set_name None b = run_b (new_breaker_for probes k.1 None) (history probes k es)
  end.
Proof.
  assert (S : seen probes k (history probes k es) (reg (rrun (start probes) es))).
  { unfold history, rrun. induction es as [|e es IH] using rev_ind; [done|].
    rewrite !foldl_snoc. by apply rstep_seen. }
  apply S.
Qed.

(** ** What subscribers see *)

(** The part of a snapshot whose change is an event. *)
Definition view (x : snapshot) : ReachabilityState * gmap string string :=
  (s_state x, s_error_context x).

(** The last snapshot of a target in a stream. *)
Definition last_at (k : target) (l : list snapshot) : option snapshot :=
  last (filter (fun x => s_target x = k) l).

#[global] Arguments last_at : simpl never.

Lemma last_at_app k l l' :
  last_at k (l ++ l') = match last_at k l' with Some x => Some x | None => last_at k l end.
Proof.
  unfold last_at. rewrite filter_app, last_app. by destruct (last (filter _ l')).
Qed.

Lemma last_at_snoc k l x :
  last_at k (l ++ [x]) = if decide (s_target x = k) then Some x else last_at k l.
Proof.
  rewrite last_at_app. unfold last_at at 1. rewrite filter_cons.
  by destruct (decide (s_target x = k)).
Qed.

(** The dict of latest snapshots: one entry per target, under its own key. *)
Definition latest_ok (l : list (target * snapshot)) : Prop :=
  NoDup l.*1 /\ Forall (fun kx => s_target kx.2 = kx.1) l.

Lemma latest_ok_dset k x l (OK : latest_ok l) (K : s_target x = k) : latest_ok (dset k x l).
Proof.
  destruct OK as [ND F]. split; [by apply dset_NoDup|].
  clear ND. induction l as [|[k0 x0] l IH]; cbn; [by repeat constructor|].
  inversion F; subst. destruct (decide (s_target x = k0)); constructor; auto.
Qed.

Lemma last_at_latest k l (OK : latest_ok l) : last_at k l.*2 = dget k l.
Proof.
  destruct OK as [ND F]. induction l as [|[k0 x0] l IH]; cbn; [done|].
  cbn in ND. apply NoDup_cons in ND as [N ND]. inversion F as [|? ? E F']; subst; cbn in *.
  change (x0 :: l.*2) with ([x0] ++ l.*2). rewrite last_at_app, IH by done.
  unfold last_at. rewrite filter_cons, E.
  destruct (decide (k0 = k)) as [->|]; destruct (decide _); try congruence; cbn; [|by destruct (dget k l)].
  by rewrite (proj2 (dget_None k l) N).
Qed.

(** Nothing but a probe result changes the latest states, and nothing but
    [subscribe], [take] and [_publish] the subscribers. *)
Definition same_stream (r r' : registry) : Prop :=
  _latest r' = _latest r /\ _subscribers r' = _subscribers r.

Lemma on_breaker_stream {A} k (f : breaker -> breaker * A) r : same_stream r (on_breaker k f r).1.
Proof. unfold on_breaker, _breaker_for, same_stream. by repeat case_match; simplify_eq. Qed.

Lemma record_real_call_stream now wall k ok c l r :
  same_stream r (record_real_call now wall k ok c l r).
Proof. unfold record_real_call. repeat case_match; apply on_breaker_stream. Qed.

Lemma record_probe_stream now wall k res r :
  exists x, (s_target x = k /\ view x = (pr_state res, error_context res)) /\
    _latest (_record_probe_result now wall k res r).1 = dset k x (_latest r) /\
    _subscribers (_record_probe_result now wall k res r).1 = _subscribers r /\
    (_record_probe_result now wall k res r).2 =
      if changed (dget k (_latest r)) x then Some x else None.
Proof.
  set (n := or_else (error_context res !! "target_name") (_target_names r !! k)).
  exists (_serialize_result res k n). split; [done|].
  assert (L : same_stream r (learn_name k n r)).
  { unfold learn_name. destruct n as [n|]; [|done]. by destruct (String.eqb n ""). }
  unfold _record_probe_result. fold n. cbn [fst snd].
  assert (F : forall r0, same_stream r0 (feed now wall k res r0)).
  { intros r0. unfold feed. destruct (pr_state res); [done|apply record_real_call_stream..]. }
  destruct (F (with_latest (dset k (_serialize_result res k n)) (learn_name k n r))) as [-> ->].
  cbn. by destruct L as [-> ->].
Qed.

Lemma changed_false p x : changed p x = false -> view <$> p = Some (view x).
Proof.
  destruct p as [p|]; [|done]. cbn. intros H. bool_hyps.
  unfold view. cbn. repeat case_bool_decide; try done.
  destruct p, x; cbn in *; f_equal; f_equal; apply dec_stable; done.
Qed.

(** Published in the order they were recorded, and no reset. *)
Definition in_turn (e : revent) : Prop :=
  match e with RPublish i => i = 0%nat | RReset => False | _ => True end.

Record stream_ok (s : rstate) : Prop := {
  so_latest : latest_ok (_latest (reg s));
  so_flight : forall k x, last_at k (in_flight s) = Some x ->
    Some (view x) = view <$> get_state k (reg s);
  so_stream : forall q sub k, _subscribers (reg s) !! q = Some sub ->
    view <$> last_at k (yielded sub ++ queued sub ++ in_flight s) = view <$> get_state k (reg s)
}.

Lemma stream_ok_same s r (OK : stream_ok s) (S : same_stream (reg s) r) :
  stream_ok {| reg := r; in_flight := in_flight s |}.
Proof.
  destruct OK as [A B C], S as [S1 S2].
  split; unfold get_state in *; cbn; rewrite ?S1, ?S2; auto.
Qed.

Lemma stream_ok_probe s now wall k res (OK : stream_ok s) :
  stream_ok (suspended (_record_probe_result now wall k res (reg s)) s).
Proof.
  destruct (record_probe_stream now wall k res (reg s)) as (x & [K _] & HL & HS & HP).
  destruct OK as [A B C]. unfold suspended, get_state in *.
  destruct (changed _ _) eqn:Hc; split; cbn; unfold get_state; rewrite ?HL, ?HS, ?HP; cbn.
  - by apply latest_ok_dset.
  - intros k' y. rewrite last_at_snoc, dget_dset, K.
    destruct (decide (k = k')) as [->|N].
    + rewrite decide_True by done. by intros [= ->].
    + rewrite decide_False by congruence. apply B.
  - intros q sub k' Hq. rewrite !app_assoc, last_at_snoc, dget_dset, K.
    destruct (decide (k = k')) as [->|N].
    + by rewrite decide_True.
    + rewrite decide_False by congruence. rewrite <- app_assoc. by eapply C.
  - by apply latest_ok_dset.
  - apply changed_false in Hc. intros k' y. rewrite app_nil_r, dget_dset. intros H.
    rewrite (B k' y H). by case_decide; subst.
  - apply changed_false in Hc. intros q sub k' Hq. rewrite app_nil_r, dget_dset, (C q sub k' Hq).
    by case_decide; subst.
Qed.

Lemma stream_ok_step s e (OK : stream_ok s) (T : in_turn e) : stream_ok (rstep s e).
Proof.
  destruct e as [now k|now wall k ok c l|now wall k pr|now wall k pr|i| |q|q|]; cbn in *.
  - apply stream_ok_same; [done|]. apply on_breaker_stream.
  - apply stream_ok_same; [done|]. apply record_real_call_stream.
  - by apply stream_ok_probe.
  - unfold force_probe. destruct (_probes (reg s) !! k.1); [|done].
    destruct pr as [res|]; [|done].
    pose proof (stream_ok_probe s now wall k res OK) as G.
    by destruct (_record_probe_result _ _ _ _ _).
  - subst i. destruct s as [r fl]. cbn. destruct fl as [|x fl]; [done|]. cbn.
    destruct OK as [A B C]. unfold get_state in *. cbn in *. split; cbn; [done| |].
    + intros k y H. apply B. change (x :: fl) with ([x] ++ fl). rewrite last_at_app. by rewrite H.
    + intros q sub k H. rewrite lookup_fmap in H.
      destruct (_subscribers r !! q) as [sub0|] eqn:E; [|discriminate]. cbn in H. simplify_eq.
      rewrite <- (C q sub0 k E). cbn. by rewrite <- app_assoc.
  - destruct OK as [A B C]. split; cbn; [done|done|].
    intros q sub k H. unfold get_state in *. cbn.
    destruct (decide (q = next_queue (reg s))) as [->|N].
    + rewrite lookup_insert_eq in H. simplify_eq. cbn. rewrite last_at_app.
      unfold all_states. rewrite last_at_latest by done.
      destruct (last_at k (in_flight s)) eqn:E; [|done]. by apply B.
    + rewrite lookup_insert_ne in H by done. by eapply C.
  - destruct OK as [A B C]. split; cbn; [done|done|].
    intros q' sub k H. unfold get_state in *. cbn.
    destruct (decide (q' = q)) as [->|N].
    + rewrite lookup_alter_eq in H.
      destruct (_subscribers (reg s) !! q) as [sub0|] eqn:E; [|discriminate]. cbn in H. simplify_eq.
      rewrite <- (C q sub0 k E). unfold take. destruct (queued sub0) eqn:Eq; cbn; [by rewrite Eq|].
      by rewrite <- app_assoc.
    + rewrite lookup_alter_ne in H by done. by eapply C.
  - destruct OK as [A B C]. split; cbn; [done|done|].
    intros q' sub k H. apply lookup_delete_Some in H as [_ H]. by eapply C.
  - done.
Qed.

Lemma stream_ok_run probes es (T : Forall in_turn es) : stream_ok (rrun (start probes) es).
Proof.
  unfold rrun. induction es as [|e es IH] using rev_ind.
  - split; cbn; [|done|done]. split; constructor.
  - apply Forall_app in T as [T Te]. inversion Te; subst.
    rewrite foldl_snoc. apply stream_ok_step; auto.
Qed.

(** Subscribers see the state.  In every run in which the results that
    were recorded are published in the order they were recorded (always so
    without Redis), a subscriber that joined at any point (replay included),
    together with what waits in its queue and what is still to be published,
    has as last event of every target exactly the state and error context the
    registry holds for it, and no event of a target the registry does not
    know. *)
Theorem subscribers_see_latest (probes : gmap string probe_cfg) (es : list revent)
    (T : Forall in_turn es) (q : nat) (sub : subscriber) (k : target) :
  let s := rrun (start probes) es in
  _subscribers (reg s) !! q = Some sub ->
  view <$> last_at k (yielded sub ++ queued sub ++ in_flight s) = view <$> get_state k (reg s).
Proof. cbn zeta. apply so_stream. by apply stream_ok_run. Qed.

Definition ok_result : ProbeResult :=
  {| pr_state := REACHABLE; checked_at := 1; latency_ms := Some (millis 3);
     error_category := None; error_context := {[ "target_name" := "lab" ]} |}.
Definition bad_result : ProbeResult :=
  {| pr_state := UNREACHABLE; checked_at := 2; latency_ms := None;
     error_category := Some NETWORK; error_context := {[ "target_name" := "lab" ]} |}.
Definition lab : target := ("cluster", 1).

Definition watched : list revent :=
  [RProbe 1 1 lab (Ok ok_result); RPublish 0; RSubscribe; RProbe 2 2 lab (Ok ok_result);
   RProbe 3 3 lab (Ok bad_result); RNext 0; RPublish 0; RNext 0].

Lemma subscribers_see_latest_witness :
  let s := rrun (start ∅) watched in
  let sub := {| yielded := [_serialize_result ok_result lab (Some "lab");
                            _serialize_result bad_result lab (Some "lab")]; queued := [] |} in
  view <$> last_at lab (yielded sub ++ queued sub ++ in_flight s) = view <$> get_state lab (reg s).
Proof.
  apply (subscribers_see_latest ∅ watched) with (q := 0%nat).
  - repeat constructor.
  - vm_compute. reflexivity.
Defined.

Definition cluster_probes : gmap string probe_cfg :=
  {[ "cluster" := {| slow_threshold_ms := 5000; breaker_failure_threshold := 5;
                     breaker_sleep_window_seconds := 30 |} ]}.

Definition overlapping : list revent :=
  [RProbe 1 1 lab (Ok ok_result); RPublish 0; RSubscribe; RNext 0;
   RProbe 3 3 lab (Ok bad_result); RForce 4 4 lab (Ok ok_result);
   RPublish 1; RPublish 0; RNext 0; RNext 0].

(** What a subscriber whose last word is out of date looks like. *)
Definition stale (s : rstate) : Prop :=
  in_flight s = [] /\
  view <$> get_state lab (reg s) = Some (REACHABLE, error_context ok_result) /\
  exists sub, _subscribers (reg s) !! 0%nat = Some sub /\ queued sub = [] /\
    s_state <$> last_at lab (yielded sub) = Some UNREACHABLE.

Lemma stale_step s : stale s -> stale (rstep s (RProbe 9 9 lab (Ok ok_result))).
Proof.
  intros (F & V & sub & S).
  destruct (record_probe_stream 9 9 lab ok_result (reg s)) as (x & [_ Vx] & HL & HS & HP).
  cbn. unfold stale, suspended, _probe_one. cbn [probe_result reg in_flight].
  unfold get_state in *. rewrite HL, HS, HP, F, dget_dset, decide_True by done.
  replace (changed _ x) with false.
  - split_and!; [done| |by exists sub]. cbn. by rewrite Vx.
  - destruct (dget lab _) as [p|]; [|done]. cbn in *. unfold view in *.
    injection V as V1 V2. injection Vx as W1 W2.
    symmetry. apply orb_false_iff. split; apply bool_decide_eq_false; intros []; congruence.
Qed.

(** Out of order, a stream goes stale.  Two probes of one target overlap
    (a scheduled one and the retry button's), and the Redis writes they wait
    for finish in the other order: every event has been delivered, nothing is
    left to publish, and the subscriber's last word on the target is
    UNREACHABLE while the registry says REACHABLE; any number of further
    probes that agree with the registry publish nothing that corrects it. *)
Theorem stale_stream :
  exists es : list revent, Forall (fun e => e <> RReset) es /\
  forall n : nat,
    let s := rrun (start cluster_probes) (es ++ replicate n (RProbe 9 9 lab (Ok ok_result))) in
    in_flight s = [] /\
    s_state <$> get_state lab (reg s) = Some REACHABLE /\
    exists sub, _subscribers (reg s) !! 0%nat = Some sub /\ queued sub = [] /\
      s_state <$> last_at lab (yielded sub) = Some UNREACHABLE.
Proof.
  exists overlapping. split; [by repeat constructor|].
  intros n. cbn zeta.
  assert (St : stale (rrun (start cluster_probes)
    (overlapping ++ replicate n (RProbe 9 9 lab (Ok ok_result))))).
  { unfold rrun. rewrite foldl_app. induction n as [|n IH].
    - split_and!; [reflexivity..|].
      eexists. split_and!; [vm_compute; reflexivity|reflexivity..].
    - rewrite replicate_S_end, foldl_snoc. by apply stale_step. }
  destruct St as (F & V & S). split_and!; auto.
  destruct (get_state _ _); cbn in *; [|done]. unfold view in V. by injection V as -> _.
Qed.

(** ** Load on a target that keeps failing *)

(** A sequential caller: wrapped calls one after the other, each with its
    clock readings and its own function. *)
Section load.
Context {W R : Type} (installed : dependency -> bool).
Definition wrapped : Type := readings * (registry * W -> registry * W * outcome R).

Definition run_calls (ty : string) (id : Z) (s : registry * W) (calls : list wrapped) : registry * W :=
  foldl (fun s c => (sync_wrapper installed c.1 ty (Some id) c.2 s).1) s calls.
End load.

#[global] Arguments sync_wrapper : simpl never.

(** The function of a call fails in a way that counts and leaves the breaker
    of the target alone; the world counts the times a function has run. *)
Definition fails {R} (installed : dependency -> bool) (k : target) (c : @wrapped nat R) : Prop :=
  forall r n,
    let '(r', n', o) := c.2 (r, n) in
    n' = S n /\ _breakers r' !! k = _breakers r !! k /\ _probes r' = _probes r /\
    (if returned o
     then millis (slow_threshold (_probes r) k.1) <= t_end c.1 - t_start c.1
     else is_auth (category_of installed o) = false).

(** The readings of the calls, in order from [t0] on. *)
Fixpoint timed {W R} (t0 : Z) (calls : list (@wrapped W R)) : Prop :=
  match calls with
  | [] => True
  | c :: cs => t0 <= t_attempt c.1 /\ t_attempt c.1 <= t_record c.1 /\ timed (t_record c.1) cs
  end.

(** How many runs the breaker of a target has let through by [now]. *)
Record load_ok (th w t0 now : Z) (b : breaker) (n : nat) : Prop := {
  lo_ok : breaker_ok b;
  lo_th : failure_threshold b = th;
  lo_win : sleep_window_seconds b = w;
  lo_time : t0 <= now;
  lo_count : consecutive_failures b = Z.of_nat n;
  lo_rest : b_state b <> HALF_OPEN;
  lo_open : b_state b = OPEN ->
    opened_at b <= now /\ (Z.of_nat n - th) * seconds w <= opened_at b - t0
}.

Lemma load_refused th w t0 now t b n (L : load_ok th w t0 now b n) (A : now <= t)
    (NO : (can_attempt t b).2 = false) :
  load_ok th w t0 t (can_attempt t b).1 n.
Proof.
  destruct L as [OK TH WI TI CO RE OP].
  destruct (can_attempt_cases t b OK) as [[? E]|[(? & ? & E)|[E ?]]]; rewrite E in *; try done.
  cbn. split; auto; [lia|]. intros Ho. destruct (OP Ho). split; lia.
Qed.

Lemma load_allowed th w t0 now t t' c b n (L : load_ok th w t0 now b n) (A : now <= t) (A' : t <= t')
    (PT : 1 <= th) (NN : 0 <= seconds w) (YES : (can_attempt t b).2 = true) (NC : is_auth c = false) :
  load_ok th w t0 t' (record_failure t' c (can_attempt t b).1) (S n).
Proof.
  destruct L as [OK TH WI TI CO RE OP].
  assert (OK' : breaker_ok (step_b (step_b b (Attempt t)) (Failure t' c))).
  { apply step_b_ok; [apply step_b_ok; [done|lia]|].
    rewrite (proj1 (step_b_fixed b (Attempt t))). lia. }
  cbn in OK'. clear RE.
  destruct (can_attempt_cases t b OK) as [[Hs E]|[(Hs & Ht & E)|[E ?]]]; rewrite E in *; try done;
    cbn [fst] in *; unfold record_failure in *; rewrite NC in *; cbn in *.
  - assert (consecutive_failures b < failure_threshold b) by (by apply OK).
    split; cbn; auto; try lia.
    + rewrite bool_decide_eq_false_2 by congruence. cbn. destruct (_ <=? _); congruence.
    + rewrite bool_decide_eq_false_2 by congruence. cbn.
      destruct (_ <=? _) eqn:E1; [|congruence]. bool_hyps. intros _.
      split; [lia|]. replace (Z.of_nat (S n) - th) with 0 by lia. lia.
  - destruct (OP Hs) as [O1 O2]. rewrite bool_decide_eq_true_2 in * by done.
    cbn in *. split; cbn; auto; try lia; try done.
    intros _. split; [lia|]. rewrite WI in Ht. lia.
Qed.

Lemma on_breaker_result {A} k (f : breaker -> breaker * A) r :
  (on_breaker k f r).2 =
  (f (default (new_breaker_for (_probes r) k.1 (_target_names r !! k)) (_breakers r !! k))).2.
Proof.
  unfold on_breaker, _breaker_for. destruct (_breakers r !! k) eqn:E; cbn.
  - by destruct (f b).
  - by destruct (f _).
Qed.

(** A report of a failure that counts, or of a success that is too slow. *)
Lemma record_counted now wall (k : target) (ok : bool) c l r
    (C : if ok then millis (slow_threshold (_probes r) k.1) <= l else is_auth c = false) :
  exists c', is_auth c' = false /\
    _probes (record_real_call now wall k ok c l r) = _probes r /\
    _breakers (record_real_call now wall k ok c l r) !! k =
      Some (record_failure now c'
        (default (new_breaker_for (_probes r) k.1 (_target_names r !! k)) (_breakers r !! k))).
Proof.
  unfold record_real_call. destruct ok; cbn [andb].
  - rewrite (proj2 (Z.leb_le _ _) C). exists (Some SLOW). split; [reflexivity|].
    by rewrite on_breaker_probes, on_breaker_lookup, decide_True.
  - exists c. by rewrite on_breaker_probes, on_breaker_lookup, decide_True.
Qed.

(** The registry at rest between two calls. *)
Definition at_rest (probes : gmap string probe_cfg) (k : target) (th w t0 now : Z) (s : registry * nat) : Prop :=
  _probes s.1 = probes /\
  match _breakers s.1 !! k with
  | Some b => load_ok th w t0 now b s.2
  | None => s.2 = 0%nat
  end.

Lemma at_rest_default probes k th w t0 now s name
    (PT : 1 <= th) (TH : failure_threshold (fresh_breaker probes k) = th)
    (W : sleep_window_seconds (fresh_breaker probes k) = w) (T : t0 <= now)
    (A : at_rest probes k th w t0 now s) :
  load_ok th w t0 now (default (new_breaker_for (_probes s.1) k.1 name) (_breakers s.1 !! k)) s.2.
Proof.
  destruct A as [-> A]. destruct (_breakers s.1 !! k); [done|]. cbn. rewrite A.
  unfold fresh_breaker, new_breaker_for in *.
  destruct (probes !! k.1); cbn in *; split; cbn; try done; apply new_breaker_ok; lia.
Qed.

Lemma at_rest_call {R} installed probes ty id th w t0 now (s : registry * nat) (c : @wrapped nat R)
    (PT : 1 <= th) (TH : failure_threshold (fresh_breaker probes (ty, id)) = th)
    (W : sleep_window_seconds (fresh_breaker probes (ty, id)) = w) (NN : 0 <= seconds w)
    (T : t0 <= now) (T1 : now <= t_attempt c.1) (T2 : t_attempt c.1 <= t_record c.1)
    (F : fails installed (ty, id) c) (A : at_rest probes (ty, id) th w t0 now s) :
  at_rest probes (ty, id) th w t0 (t_record c.1) (sync_wrapper installed c.1 ty (Some id) c.2 s).1.
Proof.
  pose proof (fun name => at_rest_default _ _ _ _ _ _ _ name PT TH W T A) as L.
  destruct c as [t fn], s as [r n]. cbn [fst snd] in *.
  specialize (L (_target_names r !! (ty, id))).
  unfold sync_wrapper, call_enter. cbn [fst snd].
  unfold allow_call.
  pose proof (on_breaker_result (ty, id) (can_attempt (t_attempt t)) r) as HR.
  pose proof (on_breaker_lookup (ty, id) (ty, id) (can_attempt (t_attempt t)) r) as HL.
  pose proof (on_breaker_probes (ty, id) (can_attempt (t_attempt t)) r) as HP.
  rewrite decide_True in HL by done. pose proof (proj1 A) as HA. cbn [fst] in HA. rewrite HA in HP. cbn [fst] in *.
  destruct (on_breaker _ _ r) as [r1 ok]. cbn [fst snd] in *.
  destruct ok.
  - specialize (F r1 n). cbn in F. destruct (fn (r1, n)) as [[r2 n2] o].
    destruct F as (-> & FB & FP & FC). cbn.
    unfold call_leave. rewrite <- FP in FC.
    destruct (record_counted (t_record t) (t_wall t) (ty, id) (returned o) (category_of installed o)
      (t_end t - t_start t) r2 FC) as (c' & Hc & RP & RB).
    split; cbn [fst snd]; [congruence|].
    rewrite RB, FB, HL. cbn.
    by apply (load_allowed th w t0 now _ _ _ _ _ L).
  - cbn. split; cbn; [done|]. rewrite HL.
    destruct (load_refused th w t0 now (t_attempt t) _ n L) as [? ? ? ? ? ? OP]; [lia|done|].
    split; auto; try lia. intros Ho. destruct (OP Ho) as [O1 O2]. split; [exact (Z.le_trans _ _ _ O1 T2)|exact O2].
Qed.

Lemma at_rest_calls {R} installed probes ty id th w t0 t1 (calls : list (@wrapped nat R)) now s
    (PT : 1 <= th) (HT : failure_threshold (fresh_breaker probes (ty, id)) = th)
    (HW : sleep_window_seconds (fresh_breaker probes (ty, id)) = w) (NN : 0 <= seconds w)
    (T : t0 <= now) (T' : now <= t1) (TI : timed now calls)
    (LA : Forall (fun c => t_record c.1 <= t1) calls)
    (FA : Forall (fails installed (ty, id)) calls) (A : at_rest probes (ty, id) th w t0 now s) :
  exists now', t0 <= now' <= t1 /\
    at_rest probes (ty, id) th w t0 now' (run_calls installed ty id s calls).
Proof.
  revert now s T T' TI A. induction calls as [|c cs IH]; intros now s T T' TI A; cbn.
  { by exists now. }
  destruct TI as (T1 & T2 & TI). apply Forall_cons in LA as [LA1 LA], FA as [FA1 FA].
  apply (IH LA FA (t_record c.1)); [lia|done|done|].
  apply (at_rest_call installed probes ty id th w t0 now); auto.
Qed.

(** Fail fast, with a number.  A caller makes any sequence of calls, one
    after the other, through the decorator to a target that keeps failing in
    ways that count (errors other than AUTH and AUTHZ, or answers slower than
    the threshold).  Of those calls, however many there are, the decorated
    function really runs at most the threshold plus once per sleep window of
    the elapsed time; all the others are refused without running it. *)
Theorem failing_target_load {R} (installed : dependency -> bool) (probes : gmap string probe_cfg)
    (ty : string) (id : Z) (calls : list (@wrapped nat R)) (t0 t1 th w : Z)
    (CFG : failure_threshold (new_breaker_for probes ty None) = th /\
           sleep_window_seconds (new_breaker_for probes ty None) = w)
    (POS : 1 <= th /\ 0 < w)
    (TIMES : timed t0 calls) (LAST : t0 <= t1 /\ Forall (fun c => t_record c.1 <= t1) calls)
    (FAIL : Forall (fails installed (ty, id)) calls) :
  let runs := Z.of_nat (run_calls installed ty id (init_registry probes, 0%nat) calls).2 in
  runs <= th + (t1 - t0) / seconds w.
Proof.
  cbn zeta. destruct CFG as [HT HW], POS as [PT PW], LAST as [L0 LAST].
  assert (SW : 0 < seconds w) by (unfold seconds; lia).
  assert (A0 : at_rest probes (ty, id) th w t0 t0 (init_registry probes, 0%nat)) by done.
  destruct (at_rest_calls installed probes ty id th w t0 t1 calls t0 (init_registry probes, 0%nat))
    as (now & N & A); auto; try lia.
  pose proof (at_rest_default probes (ty, id) th w t0 now _ None PT HT HW ltac:(lia) A) as D.
  revert D. generalize (run_calls installed ty id (init_registry probes, 0%nat) calls). intros [r n] D.
  cbn [fst snd] in *. destruct D as [[_ OC] TH _ _ CO RE OP].
  assert (0 <= (t1 - t0) / seconds w) by (apply Z.div_pos; lia).
  destruct (b_state _) eqn:Hs; [|clear OC|done].
  - pose proof (proj1 OC eq_refl) as LT. rewrite TH, CO in LT. lia.
  - destruct (OP eq_refl) as [O1 O2].
    pose proof (Z.le_trans _ _ _ O2 (proj1 (Z.sub_le_mono_r _ _ t0) O1)) as O3.
    assert (Z.of_nat n - th <= (t1 - t0) / seconds w); [|lia].
    apply Z.div_le_lower_bound; lia.
Qed.

(** A refused connection, at second [n], noticed after 10 ms. *)
Definition refused_at (n : Z) : @wrapped nat unit :=
  ({| t_attempt := seconds n; t_start := seconds n; t_end := seconds n + millis 10;
      t_record := seconds n + millis 10; t_wall := seconds n |},
   fun s => (s.1, S s.2, Raised {| isinstance c := match c with ConnectionError | OSError => true | _ => false end;
                                   exc_status := None |})).

(** One call every ten seconds: six of the ten run, four are refused. *)
Definition ten_calls : list (@wrapped nat unit) := refused_at <$> [0; 10; 20; 30; 40; 50; 60; 70; 80; 90].

Lemma failing_target_load_witness :
  (run_calls (fun _ => true) "cluster" 1 (init_registry cluster_probes, 0%nat) ten_calls).2 = 6%nat /\
  Z.of_nat (run_calls (fun _ => true) "cluster" 1 (init_registry cluster_probes, 0%nat) ten_calls).2
    <= 5 + (seconds 91 - 0) / seconds 30.
Proof.
  split; [vm_compute; reflexivity|].
  apply (failing_target_load (fun _ => true) cluster_probes "cluster" 1 ten_calls 0 (seconds 91) 5 30).
  - split; reflexivity.
  - lia.
  - cbn. unfold seconds, millis. lia.
  - split; [unfold seconds; lia|]. unfold ten_calls. cbn [fmap list_fmap].
    repeat (apply Forall_cons; split; [vm_compute; discriminate|]). apply Forall_nil_2.
  - repeat (apply Forall_cons; split; [intros r n; cbn; done|]). apply Forall_nil_2.
Defined.
