(* ===== verification/Probes.v ===== *)
(** * The reachability probes (services/reachability/probes/cluster.py, ssh.py)

    A probe turns what it reads (database rows, the answers of the TCP, HTTP
    and SSH attempts, given as arguments) into a [ProbeResult].  Times are
    integer nanoseconds, texts are the source's. *)

From Stdlib Require Import Ascii.
From S2P Require Import Prelude Breaker Reachability.

#[local] Open Scope string_scope.
#[local] Open Scope list_scope.
#[local] Open Scope Z_scope.

(** The context of a result: a target name, and an action if there is one. *)
Definition ctx (name action : string) : gmap string string :=
  {[ "target_name" := name; "suggested_action" := action ]}.

(** ** ClusterProbe *)

Record cluster_row := { c_id : Z; c_name : string }.

(** A [ConnectedOperator] row. *)
Record operator_row := {
  o_cluster_id : option Z;
  last_heartbeat_at : option Z;
  last_health_at : option Z
}.

Definition OPERATOR_HEARTBEAT_FRESH_SECONDS : Z := 90.
Definition OPERATOR_HEALTH_FRESH_SECONDS : Z := 180.

Definition _age_seconds (ts : option Z) (now : Z) : option Z :=
  match ts with None => None | Some t => Some (Z.max 0 (now - t)) end.

(** [filter(cluster_id == ...)] *)
Definition operators_of (ops : list operator_row) (cluster : cluster_row) : list operator_row :=
  filter (fun o => o_cluster_id o = Some (c_id cluster)) ops.

Definition _is_operator_engine (ops : list operator_row) (cluster : cluster_row) : bool :=
  match operators_of ops cluster with [] => false | _ => true end.

(** [order_by(last_heartbeat_at.desc().nullslast()).first()]; rows that tie
    come in the order of the table. *)
Fixpoint freshest (ops : list operator_row) : option operator_row :=
  match ops with
  | [] => None
  | o :: ops =>
      match freshest ops with
      | None => Some o
      | Some o' =>
          match last_heartbeat_at o, last_heartbeat_at o' with
          | Some t, Some t' => if t' <=? t then Some o else Some o'
          | None, Some _ => Some o'
          | _, None => Some o
          end
      end
  end.

(** [age is None or age > limit] *)
Definition too_old (age : option Z) (limit : Z) : bool :=
  match age with None => true | Some a => seconds limit <? a end.

Definition unreachable (now : Z) (latency : option Z) (c : ErrorCategory) (context : gmap string string) : ProbeResult :=
  {| pr_state := UNREACHABLE; checked_at := now; latency_ms := latency;
     error_category := Some c; error_context := context |}.
Definition reachable (now : Z) (latency : option Z) (name : string) : ProbeResult :=
  {| pr_state := REACHABLE; checked_at := now; latency_ms := latency;
     error_category := None; error_context := {[ "target_name" := name ]} |}.
Definition unknown (now : Z) (context : gmap string string) : ProbeResult :=
  {| pr_state := UNKNOWN; checked_at := now; latency_ms := None;
     error_category := None; error_context := context |}.

Definition _probe_via_operator (now : Z) (ops : list operator_row) (cluster : cluster_row) : ProbeResult :=
  match freshest (operators_of ops cluster) with
  | None =>
      unreachable now None NETWORK (ctx (c_name cluster)
        ("No operator is registered for cluster '" +:+ c_name cluster +:+
         "'. Install the bnk-operator into the cluster, or switch the cluster to direct kubeconfig mode."))
  | Some op =>
      let heartbeat_age := _age_seconds (last_heartbeat_at op) now in
      let health_age := _age_seconds (last_health_at op) now in
      if too_old heartbeat_age OPERATOR_HEARTBEAT_FRESH_SECONDS then
        unreachable now None NETWORK (ctx (c_name cluster)
          (match heartbeat_age with
           | Some a => "Operator for '" +:+ c_name cluster +:+ "' last heartbeat " +:+
               pretty (a / seconds 1) +:+
               "s ago — operator process or its WebSocket connection back to forge is down."
           | None => "Operator for '" +:+ c_name cluster +:+ "' has never sent a heartbeat."
           end))
      else if too_old health_age OPERATOR_HEALTH_FRESH_SECONDS then
        unreachable now None TARGET (ctx (c_name cluster)
          ("Operator for '" +:+ c_name cluster +:+
           "' is heartbeating but has not reported a successful in-cluster API call recently — its K8s client may be unable to reach the API server. Check operator logs in the cluster."))
      else reachable now None (c_name cluster)
  end.

(** What the direct attempts found: the parsed API server, the port of the
    tunnel when one is used, whether the port opened and the API answered. *)
Record direct_attempt := {
  d_host : string;
  d_port : Z;
  d_tunnel_port : option Z;
  d_tcp_open : bool;
  d_api_accessible : bool;
  d_latency : Z
}.

(** [if tunnel_port: host, port = ...] *)
Definition dialled (d : direct_attempt) : string * Z :=
  match d_tunnel_port d with
  | Some p => if p =? 0 then (d_host d, d_port d) else ("127.0.0.1", p)
  | None => (d_host d, d_port d)
  end.

(** The API is asked only when the port opened. *)
Definition _probe_direct (now : Z) (cluster : cluster_row) (d : direct_attempt) : ProbeResult :=
  if String.eqb (d_host d) "" then
    unknown now (ctx (c_name cluster) "No API server URL configured for this cluster.")
  else
    let '(host, port) := dialled d in
    if d_tcp_open d && d_api_accessible d then reachable now (Some (d_latency d)) (c_name cluster)
    else if d_tcp_open d then
      unreachable now (Some (d_latency d)) TARGET (ctx (c_name cluster)
        ("Port " +:+ pretty port +:+ " on " +:+ host +:+
         " accepts connections but the Kubernetes API did not respond. Verify the API server URL and port."))
    else
      unreachable now (Some (d_latency d)) NETWORK (ctx (c_name cluster)
        ("Cannot reach " +:+ host +:+ ":" +:+ pretty port +:+
         ". Check VPN connection or whether the API server is online.")).

(** [ClusterProbe.probe] *)
Definition cluster_probe (now : Z) (clusters : list cluster_row) (ops : list operator_row)
    (d : direct_attempt) (target_id : Z) : ProbeResult :=
  match list_find (fun c => c_id c = target_id) clusters with
  | None =>
      unknown now (ctx ("cluster:" +:+ pretty target_id)
        "Cluster row was deleted; will stop probing on next cycle.")
  | Some (_, cluster) =>
      if _is_operator_engine ops cluster then _probe_via_operator now ops cluster
      else _probe_direct now cluster d
  end.

(** ** SSHProbe *)

Record ssh_cred := { sc_id : Z; sc_name : string; sc_host : string; sc_port : Z; sc_username : string }.

(** [sub in s] *)
Definition contains (sub s : string) : bool :=
  match String.index 0 sub s with Some _ => true | None => false end.

Fixpoint lower_str (s : string) : string :=
  match s with EmptyString => EmptyString | String c s => String (lower c) (lower_str s) end.

Definition _categorize_message (message : string) : ErrorCategory :=
  if contains "authentication failed" message || contains "no ssh credentials" message then AUTH
  else if contains "timed out" message then TIMEOUT
  else if contains "cannot resolve" message || contains "refused" message then NETWORK
  else TARGET.

Definition _suggested_action (cred : ssh_cred) (message : string) (category : ErrorCategory) : string :=
  let host := sc_host cred +:+ ":" +:+ pretty (if sc_port cred =? 0 then 22 else sc_port cred) in
  match category with
  | AUTH => "SSH authentication to " +:+ sc_username cred +:+ "@" +:+ host +:+
      " failed. Re-check the stored key/password or the username on this credential."
  | TIMEOUT => "SSH connect to " +:+ host +:+
      " timed out. Check VPN connection or whether the jumphost is online."
  | NETWORK => "Cannot reach " +:+ host +:+
      ". Check VPN connection or DNS resolution for the jumphost."
  | _ => "SSH probe failed: " +:+ (if String.eqb message "" then "unknown error" else message)
  end.

(** [ssh_ok], [message]: what [test_ssh_connection] answered. *)
Definition _probe_blocking (now latency : Z) (cred : ssh_cred) (ssh_ok : bool) (message : option string) : ProbeResult :=
  if ssh_ok then reachable now (Some latency) (sc_name cred)
  else
    let message := lower_str (default "" message) in
    let category := _categorize_message message in
    unreachable now (Some latency) category
      (ctx (sc_name cred) (_suggested_action cred message category)).

(** [SSHProbe.probe] *)
Definition ssh_probe (now latency : Z) (creds : list ssh_cred) (ssh_ok : bool) (message : option string)
    (target_id : Z) : ProbeResult :=
  match list_find (fun c => sc_id c = target_id) creds with
  | None =>
      unknown now (ctx ("ssh:" +:+ pretty target_id)
        "SSH credential row was deleted; will stop probing on next cycle.")
  | Some (_, cred) => _probe_blocking now latency cred ssh_ok message
  end.

(** ** What the registry may count on *)

(** The contract of [ProbeResult]: an unreachable target has a category and
    both keys of the context, a reachable one no category and its name; only
    an unreachable one has a category. *)
Definition result_ok (r : ProbeResult) : Prop :=
  is_Some (error_context r !! "target_name") /\
  match pr_state r with
  | UNREACHABLE => is_Some (error_category r) /\ is_Some (error_context r !! "suggested_action") /\
                   error_category r <> Some SLOW
  | REACHABLE => error_category r = None
  | UNKNOWN => error_category r = None /\ is_Some (error_context r !! "suggested_action")
  end.

Lemma ctx_keys n a : is_Some (ctx n a !! "target_name") /\ is_Some (ctx n a !! "suggested_action").
Proof. unfold ctx. split; by eexists. Qed.

Lemma unreachable_ok now l c n a : c <> SLOW -> result_ok (unreachable now l c (ctx n a)).
Proof. intros. split; cbn; [apply ctx_keys|]. split_and!; [done|apply ctx_keys|congruence]. Qed.
Lemma unknown_ok now n a : result_ok (unknown now (ctx n a)).
Proof. split; cbn; [apply ctx_keys|]. split; [done|apply ctx_keys]. Qed.
Lemma reachable_ok now l n : result_ok (reachable now l n).
Proof. split; cbn; [|done]. by eexists. Qed.
#[export] Hint Resolve unreachable_ok unknown_ok reachable_ok : forge.

Lemma categorize_message_not_slow m : _categorize_message m <> SLOW /\ _categorize_message m <> AUTHZ.
Proof. unfold _categorize_message. by repeat case_match. Qed.

(** The probes keep their contract.  Whatever the database holds and
    whatever the network answers, a cluster probe and an SSH probe return a
    result that names its target, carries an action whenever the target is
    not reachable, and a category exactly when it is unreachable; the cluster
    probe never blames credentials, so all its failures count, and the SSH
    probe's failure counts unless the message speaks of credentials. *)
Theorem probes_keep_contract now clusters ops d latency creds ssh_ok message id :
  let rc := cluster_probe now clusters ops d id in
  let rs := ssh_probe now latency creds ssh_ok message id in
  result_ok rc /\ result_ok rs /\
  is_auth (error_category rc) = false /\
  (is_auth (error_category rs) = true <->
   pr_state rs = UNREACHABLE /\
   (contains "authentication failed" (lower_str (default "" message)) = true \/
    contains "no ssh credentials" (lower_str (default "" message)) = true)).
Proof.
  cbn zeta. split_and!.
  - unfold cluster_probe, _probe_via_operator, _probe_direct, dialled.
    repeat case_match; auto with forge; apply unreachable_ok; done.
  - unfold ssh_probe, _probe_blocking. repeat case_match; auto with forge.
    apply unreachable_ok. apply categorize_message_not_slow.
  - unfold cluster_probe, _probe_via_operator, _probe_direct, dialled.
    repeat case_match; reflexivity.
  - unfold ssh_probe, _probe_blocking. repeat case_match; cbn; try (split; [done|intros [? ?]; done]).
    unfold _categorize_message.
    destruct (contains "authentication failed" _) eqn:E1; cbn; [split; auto|].
    destruct (contains "no ssh credentials" _) eqn:E2; cbn; [split; auto|].
    split; [|intros [_ []]; congruence]. by repeat case_match.
Qed.

Lemma freshest_max ops op : freshest ops = Some op ->
  op ∈ ops /\
  forall op' hb', op' ∈ ops -> last_heartbeat_at op' = Some hb' ->
    exists hb, last_heartbeat_at op = Some hb /\ hb' <= hb.
Proof.
  revert op. induction ops as [|o ops IH]; cbn; intros op H; [done|].
  destruct (freshest ops) as [o'|] eqn:F.
  - destruct (IH o' eq_refl) as [IN MAX].
    destruct (last_heartbeat_at o) as [t|] eqn:E; destruct (last_heartbeat_at o') as [t'|] eqn:E';
      [destruct (t' <=? t) eqn:L; bool_hyps| | |]; simplify_eq;
      (split; [set_solver|]); intros op' hb' [->|I]%elem_of_cons H'; rewrite ?E, ?E' in *; simplify_eq;
      try (destruct (MAX _ _ I H') as (hb & Q & ?); simplify_eq); eauto with lia.
    all: try (eexists; split; [done|lia]).
  - destruct ops as [|o1 ops]; [|by destruct (freshest ops) as [q|]; cbn in F; repeat case_match].
    simplify_eq. split; [set_solver|]. intros op' hb' ->%list_elem_of_singleton H'.
    exists hb'. split; [done|lia].
Qed.

Lemma freshest_None ops : freshest ops = None -> ops = [].
Proof. destruct ops as [|o ops]; [done|]. cbn. intros H. by repeat case_match. Qed.

Lemma too_old_false ts now limit (L : 0 <= limit) :
  too_old (_age_seconds ts now) limit = false <->
  exists t, ts = Some t /\ now - t <= seconds limit.
Proof.
  unfold too_old, _age_seconds, seconds. destruct ts as [t|].
  - rewrite Z.ltb_ge. split; [exists t; split; [done|lia]|intros (? & [= <-] & ?); lia].
  - split; [done|by intros (? & ? & ?)].
Qed.

(** Reachable through an operator.  A cluster that has operators is
    reported reachable exactly when the operator chosen, which has the latest
    heartbeat of all of them, sent it at most 90 seconds ago and reported
    health at most 180 seconds ago; an operator that never sent a heartbeat
    hides no other, and times in the future count as now. *)
Theorem operator_probe_reachable_iff now ops cluster
    (OP : _is_operator_engine ops cluster = true) :
  pr_state (_probe_via_operator now ops cluster) = REACHABLE <->
  exists op hb he, op ∈ ops /\ o_cluster_id op = Some (c_id cluster) /\
    freshest (operators_of ops cluster) = Some op /\
    (forall op' hb', op' ∈ ops -> o_cluster_id op' = Some (c_id cluster) ->
       last_heartbeat_at op' = Some hb' -> hb' <= hb) /\
    last_heartbeat_at op = Some hb /\ last_health_at op = Some he /\
    now - hb <= seconds 90 /\ now - he <= seconds 180.
Proof.
  unfold _is_operator_engine, _probe_via_operator in *.
  destruct (freshest (operators_of ops cluster)) as [op|] eqn:F.
  2: { apply freshest_None in F. by rewrite F in OP. }
  destruct (freshest_max _ _ F) as [IN MAX].
  unfold operators_of in IN. apply list_elem_of_filter in IN as [OC IN].
  pose proof (too_old_false (last_heartbeat_at op) now OPERATOR_HEARTBEAT_FRESH_SECONDS ltac:(done)) as H1.
  pose proof (too_old_false (last_health_at op) now OPERATOR_HEALTH_FRESH_SECONDS ltac:(done)) as H2.
  destruct (too_old _ OPERATOR_HEARTBEAT_FRESH_SECONDS).
  { split; [done|]. intros (op1 & hb & he & _ & _ & [= <-] & _ & Eb & _ & L & _).
    discriminate (proj2 H1 (ex_intro _ hb (conj Eb L))). }
  destruct (too_old _ OPERATOR_HEALTH_FRESH_SECONDS).
  { split; [done|]. intros (op1 & hb & he & _ & _ & [= <-] & _ & _ & Ee & _ & L).
    discriminate (proj2 H2 (ex_intro _ he (conj Ee L))). }
  split; [|done]. intros _.
  destruct (proj1 H1 eq_refl) as (hb & Eb & Lb), (proj1 H2 eq_refl) as (he & Ee & Le).
  exists op, hb, he. split_and!; auto.
  intros op' hb' I O E. destruct (MAX op' hb') as (hb2 & E2 & ?); [|done|by simplify_eq].
  by apply list_elem_of_filter.
Qed.

Lemma operator_probe_reachable_iff_witness :
  let ops := [{| o_cluster_id := Some 1; last_heartbeat_at := None; last_health_at := None |};
              {| o_cluster_id := Some 1; last_heartbeat_at := Some (seconds 20); last_health_at := Some 0 |}] in
  pr_state (_probe_via_operator (seconds 110) ops {| c_id := 1; c_name := "lab" |}) = REACHABLE.
Proof.
  apply (operator_probe_reachable_iff (seconds 110)
    [{| o_cluster_id := Some 1; last_heartbeat_at := None; last_health_at := None |};
     {| o_cluster_id := Some 1; last_heartbeat_at := Some (seconds 20); last_health_at := Some 0 |}]
    {| c_id := 1; c_name := "lab" |}); [reflexivity|].
  eexists _, _, _. split_and!; [right; left|reflexivity|reflexivity| |reflexivity|reflexivity| |].
  - intros op' hb' [->|[->|[]%elem_of_nil]%elem_of_cons]%elem_of_cons; cbn; intros; simplify_eq; lia.
  - vm_compute; discriminate.
  - vm_compute; discriminate.
Defined.
