(* ===== verification/TmfifoIpam.v ===== *)
(** * The tmfifo address allocator (services/tmfifo_ipam_service.py)

    First the part of Python's [ipaddress] the service uses, on IPv4 texts:
    an address is an integer below 2^32, a network its first address and its
    prefix length.  Texts of IPv6 networks are outside the model: [ip_network]
    answers [None] for them.  Then the rows of the cluster tables the service
    and its client (BnkCluster.v) share, and the three operations of
    [TmfifoPoolAllocator].  The advisory lock that serialises the callers of
    one cluster is what makes each operation one step. *)

From Stdlib Require Import Ascii.
From S2P Require Import Prelude.

#[local] Open Scope string_scope.
#[local] Open Scope list_scope.
#[local] Open Scope Z_scope.

Module Ip.
#[local] Arguments Ascii.eqb : simpl never.

(** [s.split(c)] *)
Fixpoint split_on (c : ascii) (s : string) : list string :=
  match s with
  | EmptyString => [EmptyString]
  | String d s =>
      if Ascii.eqb c d then EmptyString :: split_on c s
      else match split_on c s with
           | w :: ws => String d w :: ws
           | [] => [String d EmptyString]
           end
  end.

Definition digit (c : ascii) : option Z :=
  let n := Z.of_nat (nat_of_ascii c) in
  if (48 <=? n) && (n <=? 57) then Some (n - 48) else None.

Fixpoint digits_from (acc : Z) (s : string) : option Z :=
  match s with
  | EmptyString => Some acc
  | String c s => d ← digit c; digits_from (10 * acc + d) s
  end.
(** [int(s)] of a text of ASCII digits, not empty. *)
Definition digits (s : string) : option Z :=
  match s with EmptyString => None | _ => digits_from 0 s end.

(** [_parse_octet]: at most three digits, no leading zero, at most 255. *)
Definition parse_octet (s : string) : option Z :=
  v ← digits s;
  if (3 <? Z.of_nat (String.length s)) then None
  else match s with
       | String "0" (String _ _) => None
       | _ => if 255 <? v then None else Some v
       end.

(** [IPv4Address(s)] *)
Definition parse_ip (s : string) : option Z :=
  match split_on "." s with
  | [a; b; c; d] =>
      a ← parse_octet a; b ← parse_octet b; c ← parse_octet c; d ← parse_octet d;
      Some (((a * 256 + b) * 256 + c) * 256 + d)
  | _ => None
  end.

(** [str(address)] *)
Definition show_ip (a : Z) : string :=
  pretty (a / 16777216) +:+ "." +:+ pretty (a / 65536 mod 256) +:+ "." +:+
  pretty (a / 256 mod 256) +:+ "." +:+ pretty (a mod 256).

Record net := { n_addr : Z; n_prefix : Z }.
#[global] Instance net_eq_dec : EqDecision net.
Proof. solve_decision. Defined.

Definition size (n : net) : Z := 2 ^ (32 - n_prefix n).
Definition show_net (n : net) : string := show_ip (n_addr n) +:+ "/" +:+ pretty (n_prefix n).

(** [_make_netmask]: a prefix length, a netmask or a hostmask. *)
Definition parse_mask (s : string) : option Z :=
  match digits s with
  | Some p => if p <=? 32 then Some p else None
  | None =>
      m ← parse_ip s;
      match list_find (fun p => m = 2 ^ 32 - 2 ^ (32 - p)) (seqZ 0 33) with
      | Some (_, p) => Some p
      | None =>
          match list_find (fun p => m = 2 ^ (32 - p) - 1) (seqZ 0 33) with
          | Some (_, p) => Some p
          | None => None
          end
      end
  end.

(** [ip_network(s, strict=...)]: [None] is its ValueError. *)
Definition ip_network (strict : bool) (s : string) : option net :=
  let parts :=
    match split_on "/" s with
    | [a] => Some (a, "32")
    | [a; m] => Some (a, m)
    | _ => None
    end in
  '(a, m) ← parts;
  a ← parse_ip a;
  p ← parse_mask m;
  let first := a - a mod 2 ^ (32 - p) in
  if strict && negb (a =? first) then None
  else Some {| n_addr := first; n_prefix := p |}.

Definition contains (n : net) (a : Z) : bool :=
  (n_addr n <=? a) && (a <? n_addr n + size n).

(** What every network is. *)
Definition wf (n : net) : Prop :=
  0 <= n_prefix n <= 32 /\ 0 <= n_addr n /\ n_addr n + size n <= 2 ^ 32 /\
  (size n | n_addr n).

(** The addresses of [0 .. 255] as the texts of octets: a finite check. *)
Lemma octet_table :
  forallb (fun n => bool_decide (parse_octet (pretty n) = Some n) &&
                    bool_decide (split_on "." (pretty n) = [pretty n])) (seqZ 0 256) = true.
Proof. vm_compute. reflexivity. Qed.

Lemma octet_text n : 0 <= n < 256 ->
  parse_octet (pretty n) = Some n /\ split_on "." (pretty n) = [pretty n].
Proof.
  intros H. pose proof octet_table as T. rewrite forallb_forall in T.
  assert (I : In n (seqZ 0 256)) by (apply list_elem_of_In, elem_of_seqZ; lia).
  specialize (T n I).
  apply andb_true_iff in T as [A B]. by apply bool_decide_eq_true in A, B.
Qed.

Lemma split_on_not_nil c s : split_on c s <> [].
Proof. destruct s; cbn; repeat case_match; discriminate. Qed.

Lemma split_on_app c s t : split_on c s = [s] ->
  split_on c (s +:+ String c t) = s :: split_on c t.
Proof.
  assert (A0 : forall u, "" +:+ u = u) by done.
  assert (A1 : forall x u v, String x u +:+ v = String x (u +:+ v)) by done.
  induction s as [|d s IH]; rewrite ?A0, ?A1; cbn.
  - by rewrite Ascii.eqb_refl.
  - destruct (Ascii.eqb c d) eqn:E.
    + intros H. by injection H as _ H%split_on_not_nil.
    + intros H. destruct (split_on c s) as [|w ws] eqn:F; [by apply split_on_not_nil in F|].
      injection H as -> ->. by rewrite IH.
Qed.

Lemma show_ip_split a : 0 <= a < 2 ^ 32 ->
  split_on "." (show_ip a) =
    [pretty (a / 16777216); pretty (a / 65536 mod 256); pretty (a / 256 mod 256); pretty (a mod 256)].
Proof.
  intros H. unfold show_ip.
  destruct (octet_text (a / 16777216)) as [_ S1];
    [split; [apply Z.div_pos; lia|apply Z.div_lt_upper_bound; lia]|].
  destruct (octet_text (a / 65536 mod 256)) as [_ S2]; [apply Z.mod_pos_bound; lia|].
  destruct (octet_text (a / 256 mod 256)) as [_ S3]; [apply Z.mod_pos_bound; lia|].
  destruct (octet_text (a mod 256)) as [_ S4]; [apply Z.mod_pos_bound; lia|].
  assert (A : forall u, "." +:+ u = String "." u) by done. rewrite !A.
  rewrite (split_on_app _ _ _ S1), (split_on_app _ _ _ S2), (split_on_app _ _ _ S3). by rewrite S4.
Qed.

(** Printing an address and reading it back. *)
Lemma parse_show_ip a : 0 <= a < 2 ^ 32 -> parse_ip (show_ip a) = Some a.
Proof.
  intros H. unfold parse_ip. rewrite show_ip_split by done.
  destruct (octet_text (a / 16777216)) as [-> _];
    [split; [apply Z.div_pos; lia|apply Z.div_lt_upper_bound; lia]|].
  destruct (octet_text (a / 65536 mod 256)) as [-> _]; [apply Z.mod_pos_bound; lia|].
  destruct (octet_text (a / 256 mod 256)) as [-> _]; [apply Z.mod_pos_bound; lia|].
  destruct (octet_text (a mod 256)) as [-> _]; [apply Z.mod_pos_bound; lia|].
  cbn [mbind option_bind]. f_equal.
  replace (a / 16777216) with (a / 256 / 256 / 256) by (rewrite !Z.div_div by lia; done).
  replace (a / 65536) with (a / 256 / 256) by (rewrite !Z.div_div by lia; done).
  pose proof (Z.div_mod a 256 ltac:(lia)). pose proof (Z.div_mod (a / 256) 256 ltac:(lia)).
  pose proof (Z.div_mod (a / 256 / 256) 256 ltac:(lia)). lia.
Qed.

Lemma digits_nonneg s v : digits s = Some v -> 0 <= v.
Proof.
  assert (D : forall s acc v, 0 <= acc -> digits_from acc s = Some v -> 0 <= v).
  { clear. induction s as [|c s IH]; cbn; intros acc v H E; [by simplify_eq|].
    unfold digit in E. destruct (_ && _) eqn:C; [|done]. cbn in E. bool_hyps.
    apply IH in E; lia. }
  unfold digits. destruct s; [done|]. by apply D.
Qed.

Lemma parse_octet_range s v : parse_octet s = Some v -> 0 <= v < 256.
Proof.
  unfold parse_octet. destruct (digits s) as [n|] eqn:E; [|done]. cbn.
  assert (0 <= n) by (by apply digits_nonneg in E).
  intros H1. repeat case_match; simplify_eq; bool_hyps; lia.
Qed.

Lemma parse_ip_range s a : parse_ip s = Some a -> 0 <= a < 2 ^ 32.
Proof.
  unfold parse_ip. destruct (split_on "." s) as [|w0 [|w1 [|w2 [|w3 [|]]]]]; try done.
  destruct (parse_octet w0) as [b0|] eqn:E0; [|done].
  destruct (parse_octet w1) as [b1|] eqn:E1; [|done].
  destruct (parse_octet w2) as [b2|] eqn:E2; [|done].
  destruct (parse_octet w3) as [b3|] eqn:E3; [|done].
  apply parse_octet_range in E0, E1, E2, E3. cbn. intros [= <-]. lia.
Qed.

Lemma parse_mask_range s p : parse_mask s = Some p -> 0 <= p <= 32.
Proof.
  unfold parse_mask. destruct (digits s) as [n|] eqn:E.
  - assert (0 <= n) by (by apply digits_nonneg in E).
    destruct (n <=? 32) eqn:L; [|done]. intros [= <-]. bool_hyps. lia.
  - destruct (parse_ip s) as [m|]; [|done]. cbn [mbind option_bind].
    assert (L : forall (P : Z -> Prop) `{forall x, Decision (P x)} i x,
              list_find P (seqZ 0 33) = Some (i, x) -> 0 <= x <= 32).
    { intros P ? i x (H & _)%list_find_Some.
      apply list_elem_of_lookup_2, elem_of_seqZ in H. lia. }
    destruct (list_find _ (seqZ 0 33)) as [[i x]|] eqn:F1.
    + intros [= <-]. by apply L in F1.
    + clear F1. destruct (list_find _ (seqZ 0 33)) as [[i x]|] eqn:F2; [|done].
      intros [= <-]. by apply L in F2.
Qed.

Lemma size_pos n : 0 <= n_prefix n <= 32 -> 0 < size n.
Proof. intros. unfold size. apply Z.pow_pos_nonneg; lia. Qed.

Lemma ip_network_wf strict s n : ip_network strict s = Some n -> wf n.
Proof.
  unfold ip_network. destruct (match split_on "/" s with [a] => _ | _ => _ end) as [[a m]|]; [|done].
  cbn. destruct (parse_ip a) as [v|] eqn:E; [|done]. cbn.
  destruct (parse_mask m) as [p|] eqn:F; [|done]. cbn.
  destruct (strict && _); [done|]. intros [= <-].
  apply parse_ip_range in E. apply parse_mask_range in F.
  unfold wf, size. cbn [n_addr n_prefix].
  set (b := 2 ^ (32 - p)).
  assert (B : 0 < b) by (apply Z.pow_pos_nonneg; lia).
  assert (E32 : 2 ^ 32 = b * 2 ^ p) by (unfold b; rewrite <- Z.pow_add_r by lia; f_equal; lia).
  pose proof (Z.div_mod v b ltac:(lia)) as DM. pose proof (Z.mod_pos_bound v b B).
  assert (v / b < 2 ^ p) by (apply Z.div_lt_upper_bound; lia).
  assert (0 <= v / b) by (apply Z.div_pos; lia).
  replace (v - v mod b) with (b * (v / b)) by lia.
  split_and!; [lia|lia|nia|nia|apply Z.divide_factor_l].
Qed.

(** The texts [/0] to [/32]: a finite check. *)
Lemma mask_table :
  forallb (fun p => bool_decide (parse_mask (pretty p) = Some p) &&
                    bool_decide (split_on "/" (pretty p) = [pretty p])) (seqZ 0 33) = true.
Proof. vm_compute. reflexivity. Qed.

Lemma octet_no_slash :
  forallb (fun n => bool_decide (split_on "/" (pretty n) = [pretty n])) (seqZ 0 256) = true.
Proof. vm_compute. reflexivity. Qed.

Lemma split_on_join c s t : split_on c s = [s] -> split_on c t = [t] ->
  split_on c (s +:+ t) = [s +:+ t].
Proof.
  assert (A1 : forall x u v, String x u +:+ v = String x (u +:+ v)) by done.
  intros Hs Ht. induction s as [|d s IH]; [done|]. rewrite A1. cbn in *.
  destruct (Ascii.eqb c d) eqn:E; [by injection Hs as _ Hs%split_on_not_nil|].
  destruct (split_on c s) as [|w ws] eqn:F; [by apply split_on_not_nil in F|].
  injection Hs as -> ->. by rewrite IH.
Qed.

Lemma show_ip_no_slash a : 0 <= a < 2 ^ 32 -> split_on "/" (show_ip a) = [show_ip a].
Proof.
  intros H. pose proof octet_no_slash as T. rewrite forallb_forall in T.
  assert (N : forall n, 0 <= n < 256 -> split_on "/" (pretty n) = [pretty n]).
  { intros n B. assert (I : In n (seqZ 0 256)) by (apply list_elem_of_In, elem_of_seqZ; lia).
    specialize (T n I). by apply bool_decide_eq_true in T. }
  unfold show_ip. repeat apply split_on_join; try done; apply N;
    [split; [apply Z.div_pos; lia|apply Z.div_lt_upper_bound; lia]|apply Z.mod_pos_bound; lia..].
Qed.

Lemma ip_network_text strict a p : 0 <= a < 2 ^ 32 -> 0 <= p <= 32 ->
  ip_network strict (show_ip a +:+ "/" +:+ pretty p) =
  if strict && negb (a mod 2 ^ (32 - p) =? 0) then None
  else Some {| n_addr := a - a mod 2 ^ (32 - p); n_prefix := p |}.
Proof.
  intros Ha Hp. pose proof mask_table as T. rewrite forallb_forall in T.
  assert (I : In p (seqZ 0 33)) by (apply list_elem_of_In, elem_of_seqZ; lia).
  specialize (T p I). apply andb_true_iff in T as [M S].
  apply bool_decide_eq_true in M, S.
  unfold ip_network.
  assert (A : forall u, "/" +:+ u = String "/" u) by done. rewrite A.
  rewrite (split_on_app _ _ _ (show_ip_no_slash a Ha)), S. cbn.
  rewrite (parse_show_ip a Ha), M. cbn.
  replace (a =? a - a mod 2 ^ (32 - p)) with (a mod 2 ^ (32 - p) =? 0); [done|].
  destruct (Z.eqb_spec (a mod 2 ^ (32 - p)) 0); symmetry; [apply Z.eqb_eq|apply Z.eqb_neq]; lia.
Qed.

Lemma show_net_roundtrip n : wf n -> ip_network true (show_net n) = Some n.
Proof.
  intros (Hp & H0 & H1 & D). pose proof (size_pos n Hp).
  unfold show_net. rewrite ip_network_text by lia. unfold size in *.
  assert (E : n_addr n mod 2 ^ (32 - n_prefix n) = 0) by (apply Z.mod_divide; [lia|done]).
  rewrite E. cbn. rewrite Z.sub_0_r. by destruct n.
Qed.
End Ip.

Import Ip.

(** ** The rows of the cluster tables *)

Record dpu_row := {
  d_project : Z;
  host_node_ip : option string;
  d_cluster : option Z;
  host_tmfifo_ip : option string;
  dpu_tmfifo_ip : option string
}.
Record host_row := { h_project : Z; h_ip : string; h_cluster : option Z; is_control_plane : bool }.
Record config_row := { tmfifo_pool_cidr : string; join_transport : string; control_plane_host_id : option Z }.

(** [clusters]: the project of each cluster; [configs] is keyed by cluster. *)
Record db := {
  clusters : gmap Z Z;
  hosts : gmap Z host_row;
  dpus : gmap Z dpu_row;
  configs : gmap Z config_row
}.

Definition with_dpus (f : gmap Z dpu_row -> gmap Z dpu_row) (d : db) : db :=
  {| clusters := clusters d; hosts := hosts d; dpus := f (dpus d); configs := configs d |}.
Definition with_hosts (f : gmap Z host_row -> gmap Z host_row) (d : db) : db :=
  {| clusters := clusters d; hosts := f (hosts d); dpus := dpus d; configs := configs d |}.
Definition with_configs (f : gmap Z config_row -> gmap Z config_row) (d : db) : db :=
  {| clusters := clusters d; hosts := hosts d; dpus := dpus d; configs := f (configs d) |}.

(** The exceptions; a message is known by its reason. *)
Inductive reason :=
| InvalidCidr (cidr : string)
| PrefixTooLong (p : Z)
| CannotSubdivide (cidr : string)
| Exhausted (cidr : string) (cluster : Z)
| AllocationRace (cluster : Z) (ip : string)
| OutsideNewRange (dpu : Z).
Inductive bnk_error :=
| ValidationError (field : string) (why : reason)
| NotFoundError (kind : string) (ids : list Z)
| ConflictError (kind : string) (ids : list Z)
| BadRequestError (why : string) (id : Z)
| ValueError
| IndexError.

(** ** TmfifoPoolAllocator *)

Record TmfifoAllocation := { host_ip : string; dpu_ip : string; subnet_cidr : string }.
#[global] Instance TmfifoAllocation_eq_dec : EqDecision TmfifoAllocation.
Proof. solve_decision. Defined.

Definition default_pool : string := "192.168.100.0/22".

Section allocator.
Context {SO : SetOrder Z}.

Definition in_cluster (c : Z) (r : dpu_row) : bool := bool_decide (d_cluster r = Some c).

(** The network of one allocated address. *)
Definition link_net (ip : string) : option net := ip_network false (ip +:+ "/30").

(** The set comprehension over the cluster's DPUs; [None] is the ValueError of
    an address that does not parse. *)
Definition used_subnets (c : Z) (d : db) : option (list net) :=
  mapM (fun ip => link_net ip)
    (omap (fun ir => if truthy_str (dpu_tmfifo_ip ir.2) then dpu_tmfifo_ip ir.2 else None)
       (select (fun _ r => in_cluster c r) (dpus d))).

(** The first network of [n] consecutive /30s from [a] on that is not used. *)
Fixpoint first_free (used : list net) (a : Z) (n : nat) : option net :=
  match n with
  | O => None
  | S n =>
      let sub := {| n_addr := a; n_prefix := 30 |} in
      if bool_decide (sub ∈ used) then first_free used (a + 4) n else Some sub
  end.

(** [sub[1]], [sub[2]] and the text of the network. *)
Definition allocation_of (sub : net) : TmfifoAllocation :=
  {| host_ip := show_ip (n_addr sub + 1); dpu_ip := show_ip (n_addr sub + 2);
     subnet_cidr := show_net sub |}.

(** [subnets(new_prefix=30)] of a /32 yields the /32 itself, which has no
    address [1]; of a /31 it raises ValueError, which the loop's handler
    turns into a ValidationError. *)
Definition allocate_next_subnet (c : Z) (d : db) : result bnk_error TmfifoAllocation :=
  let pool_cidr :=
    match configs d !! c with Some cfg => tmfifo_pool_cidr cfg | None => default_pool end in
  match ip_network true pool_cidr with
  | None => Err (ValidationError "tmfifo_pool_cidr" (InvalidCidr pool_cidr))
  | Some pool =>
      match used_subnets c d with
      | None => Err ValueError
      | Some used =>
          if n_prefix pool =? 32 then Err IndexError
          else if 30 <? n_prefix pool then
            Err (ValidationError "tmfifo_pool_cidr" (CannotSubdivide pool_cidr))
          else
            match first_free used (n_addr pool) (Z.to_nat (2 ^ (30 - n_prefix pool))) with
            | Some sub => Ok (allocation_of sub)
            | None => Err (ValidationError "tmfifo_pool_cidr" (Exhausted pool_cidr c))
            end
      end
  end.

(** The partial unique index on (cluster, address) of table dpus. *)
Definition index_violated (id : Z) (c : Z) (ip : string) (d : db) : bool :=
  match select (fun i r => negb (i =? id) && in_cluster c r && bool_decide (dpu_tmfifo_ip r = Some ip)) (dpus d) with
  | [] => false
  | _ => true
  end.

Definition set_link (c : Z) (a : TmfifoAllocation) (r : dpu_row) : dpu_row :=
  {| d_project := d_project r; host_node_ip := host_node_ip r; d_cluster := Some c;
     host_tmfifo_ip := Some (host_ip a); dpu_tmfifo_ip := Some (dpu_ip a) |}.

(** [assign_dpu_tmfifo] of the row [id] the caller holds; [start] is the
    database at the beginning of the transaction, which a rollback restores. *)
Definition assign_dpu_tmfifo (start : db) (id : Z) (row : dpu_row) (c : Z) (d : db)
  : db * result bnk_error TmfifoAllocation :=
  if in_cluster c row && truthy_str (host_tmfifo_ip row) && truthy_str (dpu_tmfifo_ip row) then
    let h := default "" (host_tmfifo_ip row) in
    let ip := default "" (dpu_tmfifo_ip row) in
    match link_net ip with
    | Some n => (d, Ok {| host_ip := h; dpu_ip := ip; subnet_cidr := show_net n |})
    | None => (d, Err ValueError)
    end
  else
    match allocate_next_subnet c d with
    | Err e => (d, Err e)
    | Ok a =>
        if index_violated id c (dpu_ip a) d
        then (start, Err (ValidationError "dpu_tmfifo_ip" (AllocationRace c (dpu_ip a))))
        else (with_dpus <[id := set_link c a row]> d, Ok a)
    end.

Definition clear_link (r : dpu_row) : dpu_row :=
  {| d_project := d_project r; host_node_ip := host_node_ip r; d_cluster := None;
     host_tmfifo_ip := None; dpu_tmfifo_ip := None |}.
Definition release_dpu_tmfifo (id : Z) (d : db) : db := with_dpus (alter clear_link id) d.
End allocator.

(** ** The allocator's lemmas *)

(** The link of a DPU row: its /30 starts at [a], inside [pool]. *)
Definition linked (pool : net) (a : Z) (r : dpu_row) : Prop :=
  (4 | a) /\ n_addr pool <= a /\ a + 4 <= n_addr pool + size pool /\
  host_tmfifo_ip r = Some (show_ip (a + 1)) /\ dpu_tmfifo_ip r = Some (show_ip (a + 2)).

Lemma link_net_show a : (4 | a) -> 0 <= a -> a + 4 <= 2 ^ 32 ->
  link_net (show_ip (a + 2)) = Some {| n_addr := a; n_prefix := 30 |}.
Proof.
  intros [k ->] H0 H1. unfold link_net.
  change "/30" with ("/" +:+ pretty 30%Z).
  rewrite ip_network_text by lia. cbn [andb].
  change (2 ^ (32 - 30)) with 4.
  replace ((k * 4 + 2) mod 4) with 2.
  - f_equal. f_equal. lia.
  - rewrite Z.add_comm, Z_mod_plus_full. reflexivity.
Qed.

Lemma show_ip_inj a b : 0 <= a < 2 ^ 32 -> 0 <= b < 2 ^ 32 -> show_ip a = show_ip b -> a = b.
Proof. intros Ha Hb E. apply parse_show_ip in Ha, Hb. rewrite E in Ha. congruence. Qed.

Lemma show_ip_truthy a : 0 <= a < 2 ^ 32 -> truthy_str (Some (show_ip a)) = true.
Proof.
  intros Ha. cbn. destruct (String.eqb_spec (show_ip a) "") as [E|]; [|done].
  apply parse_show_ip in Ha. by rewrite E in Ha.
Qed.

Lemma first_free_spec used a n :
  match first_free used a n with
  | Some sub =>
      exists i : nat, (i < n)%nat /\ sub = {| n_addr := a + 4 * Z.of_nat i; n_prefix := 30 |} /\
        (sub ∉ used) /\
        forall j : nat, (j < i)%nat -> {| n_addr := a + 4 * Z.of_nat j; n_prefix := 30 |} ∈ used
  | None => forall j : nat, (j < n)%nat -> {| n_addr := a + 4 * Z.of_nat j; n_prefix := 30 |} ∈ used
  end.
Proof.
  revert a. induction n as [|n IH]; intros a; cbn; [intros; lia|].
  assert (S4 : forall j : nat, a + 4 + 4 * Z.of_nat j = a + 4 * Z.of_nat (S j)) by lia.
  case_bool_decide as U.
  - specialize (IH (a + 4)). destruct (first_free used (a + 4) n) as [sub|].
    + destruct IH as (i & Hi & -> & N & B). rewrite S4 in *.
      exists (S i). split_and!; [lia|done|done|].
      intros [|j] Hj; [by rewrite Z.add_0_r|]. rewrite <- S4. apply B. lia.
    + intros [|j] Hj; [by rewrite Z.add_0_r|]. rewrite <- S4. apply IH. lia.
  - exists 0%nat. rewrite Z.add_0_r. split_and!; [lia|done|done|lia].
Qed.

Section allocator_lemmas.
Context {SO : SetOrder Z}.

(** Which networks count as used. *)
Lemma used_subnets_spec c d used : used_subnets c d = Some used ->
  forall sub, sub ∈ used <->
    exists i r ip, dpus d !! i = Some r /\ d_cluster r = Some c /\
      dpu_tmfifo_ip r = Some ip /\ ip <> "" /\ link_net ip = Some sub.
Proof.
  unfold used_subnets. rewrite mapM_Some. intros F sub. split.
  - intros [n I]%list_elem_of_lookup_1. destruct (Forall2_lookup_r _ _ _ _ _ F I) as (ip & Hip & L).
    apply list_elem_of_lookup_2 in Hip.
    apply list_elem_of_omap in Hip as ([i r] & Hs & E). apply elem_of_select in Hs as [Hr Hc].
    cbn in E. destruct (dpu_tmfifo_ip r) as [ip'|] eqn:Ed; [|done]. cbn in E.
    destruct (String.eqb_spec ip' ""); [done|]. cbn in E. simplify_eq.
    unfold in_cluster in Hc. apply bool_decide_eq_true in Hc. by exists i, r, ip.
  - intros (i & r & ip & Hr & Hc & Hd & Hne & L).
    assert (I : ip ∈ omap (fun ir : Z * dpu_row => if truthy_str (dpu_tmfifo_ip ir.2) then dpu_tmfifo_ip ir.2 else None)
                 (select (fun _ r => in_cluster c r) (dpus d))).
    { apply list_elem_of_omap. exists (i, r). split.
      - apply elem_of_select. split; [done|]. by apply bool_decide_eq_true.
      - cbn. rewrite Hd. cbn. by destruct (String.eqb_spec ip ""). }
    apply list_elem_of_lookup_1 in I as [n I].
      destruct (Forall2_lookup_l _ _ _ _ _ F I) as (sub' & Hs & L').
      apply list_elem_of_lookup_2 in Hs. congruence.
Qed.

(** It is defined when every address of the cluster parses. *)
Lemma used_subnets_defined c d :
  (forall i r ip, dpus d !! i = Some r -> d_cluster r = Some c -> dpu_tmfifo_ip r = Some ip ->
     ip <> "" -> is_Some (link_net ip)) ->
  is_Some (used_subnets c d).
Proof.
  intros H. unfold used_subnets. apply mapM_is_Some, Forall_forall.
  intros ip ([i r] & Hs & E)%list_elem_of_omap. apply elem_of_select in Hs as [Hr Hc].
  unfold in_cluster in Hc. apply bool_decide_eq_true in Hc.
  cbn in E. destruct (dpu_tmfifo_ip r) as [ip'|] eqn:Ed; [|done]. cbn in E.
  destruct (String.eqb_spec ip' ""); [done|]. cbn in E. simplify_eq. by eapply H.
Qed.

(** A free /30: no DPU of the cluster is on it. *)
Definition free_link (c : Z) (d : db) (sub : net) : Prop :=
  forall i r ip, dpus d !! i = Some r -> d_cluster r = Some c ->
    dpu_tmfifo_ip r = Some ip -> ip <> "" -> link_net ip <> Some sub.

Definition pool_of (c : Z) (d : db) : string :=
  match configs d !! c with Some cfg => tmfifo_pool_cidr cfg | None => default_pool end.

(** The /30s of a pool, in order. *)
Definition block (pool : net) (i : nat) : net :=
  {| n_addr := n_addr pool + 4 * Z.of_nat i; n_prefix := 30 |}.
Definition blocks (pool : net) : nat := Z.to_nat (2 ^ (30 - n_prefix pool)).

(** A block of a well-formed pool lies in it, on a multiple of four. *)
Lemma block_in_pool pool i : wf pool -> n_prefix pool <= 30 -> (i < blocks pool)%nat ->
  (4 | n_addr (block pool i)) /\ n_addr pool <= n_addr (block pool i) /\
  n_addr (block pool i) + 4 <= n_addr pool + size pool.
Proof.
  intros (Hp & H0 & H1 & D) Hle Hi. unfold block, blocks, size in *. cbn.
  assert (E : 2 ^ (32 - n_prefix pool) = 4 * 2 ^ (30 - n_prefix pool)).
  { change 4 with (2 ^ 2). rewrite <- Z.pow_add_r by lia. f_equal. lia. }
  rewrite E in *.
  assert (0 < 2 ^ (30 - n_prefix pool)) by (apply Z.pow_pos_nonneg; lia).
  split_and!; [|lia|lia].
  apply Z.divide_add_r; [|apply Z.divide_factor_l].
  etransitivity; [apply Z.divide_factor_l|done].
Qed.

Lemma free_link_used c d used sub : used_subnets c d = Some used ->
  sub ∉ used <-> free_link c d sub.
Proof.
  intros U. rewrite (used_subnets_spec _ _ _ U). unfold free_link. split.
  - intros N i r ip Hr Hc Hd Hne L. apply N. by exists i, r, ip.
  - intros F (i & r & ip & Hr & Hc & Hd & Hne & L). by eapply F.
Qed.

Lemma allocate_cases (c : Z) (d : db) (pool : net)
    (POOL : ip_network true (pool_of c d) = Some pool) (LE : n_prefix pool <= 30)
    (READ : forall i r ip, dpus d !! i = Some r -> d_cluster r = Some c ->
              dpu_tmfifo_ip r = Some ip -> ip <> "" -> is_Some (link_net ip)) :
  (exists i : nat, (i < blocks pool)%nat /\
     allocate_next_subnet c d = Ok (allocation_of (block pool i)) /\
     free_link c d (block pool i) /\
     (forall j : nat, (j < i)%nat -> ~ free_link c d (block pool j))) \/
  (allocate_next_subnet c d = Err (ValidationError "tmfifo_pool_cidr" (Exhausted (pool_of c d) c)) /\
   forall j : nat, (j < blocks pool)%nat -> ~ free_link c d (block pool j)).
Proof.
  destruct (used_subnets_defined c d READ) as [used U].
  unfold allocate_next_subnet. fold (pool_of c d). rewrite POOL, U.
  replace (n_prefix pool =? 32) with false by (symmetry; apply Z.eqb_neq; lia).
  replace (30 <? n_prefix pool) with false by (symmetry; apply Z.ltb_ge; lia).
  pose proof (first_free_spec used (n_addr pool) (blocks pool)) as F.
  fold (blocks pool).
  assert (T : forall j, block pool j ∈ used -> ~ free_link c d (block pool j)).
  { intros j I FR. by apply (free_link_used c d used (block pool j) U) in FR. }
  destruct (first_free _ _ _) as [sub|].
  - destruct F as (i & Hi & -> & N & B). left. exists i.
    split_and!; [done|done|by eapply free_link_used|]. intros j Hj. apply T. by apply B.
  - right. split; [done|]. intros j Hj. apply T. by apply F.
Qed.

(** C38. The allocator takes the first free link.  In a cluster whose stored
    addresses are readable and whose pool is a network of prefix /30 or
    shorter, the allocator always answers: with the /30 of lowest address
    that no DPU of the cluster is on, its first two usable addresses and its
    CIDR text, all inside the pool; and it reports exhaustion exactly when
    every /30 of the pool is taken. *)
Theorem allocate_first_free (c : Z) (d : db) (pool : net)
    (POOL : ip_network true (pool_of c d) = Some pool) (LE : n_prefix pool <= 30)
    (READ : forall i r ip, dpus d !! i = Some r -> d_cluster r = Some c ->
              dpu_tmfifo_ip r = Some ip -> ip <> "" -> is_Some (link_net ip)) :
  (exists i : nat, (i < blocks pool)%nat /\
     allocate_next_subnet c d = Ok (allocation_of (block pool i)) /\
     free_link c d (block pool i) /\
     (forall j : nat, (j < i)%nat -> ~ free_link c d (block pool j)) /\
     contains pool (n_addr (block pool i)) = true /\
     contains pool (n_addr (block pool i) + 3) = true) \/
  (allocate_next_subnet c d = Err (ValidationError "tmfifo_pool_cidr" (Exhausted (pool_of c d) c)) /\
   forall j : nat, (j < blocks pool)%nat -> ~ free_link c d (block pool j)).
Proof.
  pose proof (ip_network_wf _ _ _ POOL) as WF.
  destruct (allocate_cases c d pool POOL LE READ) as [(i & Hi & E & F & B)|E]; [left|by right].
  destruct (block_in_pool pool i WF LE Hi) as (_ & L1 & L2).
  exists i. split_and!; auto; apply andb_true_iff; split; (apply Z.leb_le || apply Z.ltb_lt); lia.
Qed.
End allocator_lemmas.

(** A cluster on the default pool whose DPU 1 has the first link. *)
Definition one_dpu : db :=
  {| clusters := {[ 7 := 1 ]}; hosts := ∅; configs := ∅;
     dpus := {[ 1 := {| d_project := 1; host_node_ip := None; d_cluster := Some 7;
                        host_tmfifo_ip := Some "192.168.100.1"; dpu_tmfifo_ip := Some "192.168.100.2" |} ]} |}.

Lemma allocate_first_free_witness :
  @allocate_next_subnet elements_order 7 one_dpu =
    Ok {| host_ip := "192.168.100.5"; dpu_ip := "192.168.100.6"; subnet_cidr := "192.168.100.4/30" |} /\
  exists i : nat, (i < 256)%nat /\
    @allocate_next_subnet elements_order 7 one_dpu =
      Ok (allocation_of (block {| n_addr := 3232261120; n_prefix := 22 |} i)).
Proof.
  split; [vm_compute; reflexivity|].
  destruct (@allocate_first_free elements_order 7 one_dpu {| n_addr := 3232261120; n_prefix := 22 |})
    as [(i & Hi & E & _)|[E _]].
  - vm_compute. reflexivity.
  - cbn. lia.
  - intros i r ip Hr _ Hd _. unfold one_dpu in Hr. cbn in Hr.
    apply lookup_singleton_Some in Hr as [<- <-]. cbn in Hd. injection Hd as <-.
    eexists. vm_compute. reflexivity.
  - exists i. split; [exact Hi|exact E].
  - vm_compute in E. discriminate E.
Defined.

(** Texts and addresses.  Every network Python accepts is printed as a
    text that reads back as the same network, and every 32-bit address as a
    text that reads back as the same address; reading never yields an address
    outside 32 bits or a network that is not aligned to its size. *)
Theorem texts_roundtrip :
  (forall strict s n, ip_network strict s = Some n -> wf n /\ ip_network true (show_net n) = Some n) /\
  (forall a, 0 <= a < 2 ^ 32 -> parse_ip (show_ip a) = Some a) /\
  (forall s a, parse_ip s = Some a -> 0 <= a < 2 ^ 32).
Proof.
  split_and!.
  - intros strict s n H. apply ip_network_wf in H. split; [done|]. by apply show_net_roundtrip.
  - apply parse_show_ip.
  - apply parse_ip_range.
Qed.

(** Pools too small for a link.  A stored pool of prefix /31 is refused
    as invalid input; a pool of a single address, /32, is not: the network is
    its own only subnet, it never equals a used /30, and taking its second
    address raises an IndexError that nothing handles. *)
Theorem small_pools {SO : SetOrder Z} (c : Z) (d : db) (pool : net)
    (POOL : ip_network true (pool_of c d) = Some pool) (GT : 30 < n_prefix pool)
    (READ : forall i r ip, dpus d !! i = Some r -> d_cluster r = Some c ->
              dpu_tmfifo_ip r = Some ip -> ip <> "" -> is_Some (link_net ip)) :
  allocate_next_subnet c d =
    if n_prefix pool =? 32 then Err IndexError
    else Err (ValidationError "tmfifo_pool_cidr" (CannotSubdivide (pool_of c d))).
Proof.
  destruct (used_subnets_defined c d READ) as [used U].
  unfold allocate_next_subnet. fold (pool_of c d). rewrite POOL, U.
  replace (30 <? n_prefix pool) with true by (symmetry; by apply Z.ltb_lt). done.
Qed.

Definition tiny_pool (cidr : string) : db :=
  with_configs (fun _ => {[ 7 := {| tmfifo_pool_cidr := cidr; join_transport := "rshim"; control_plane_host_id := None |} ]}) one_dpu.

Lemma small_pools_witness :
  @allocate_next_subnet elements_order 7 (tiny_pool "10.0.0.1/32") = Err IndexError.
Proof.
  rewrite (@small_pools elements_order 7 (tiny_pool "10.0.0.1/32") {| n_addr := 167772161; n_prefix := 32 |}).
  - reflexivity.
  - vm_compute. reflexivity.
  - cbn. lia.
  - intros i r ip Hr _ Hd _. unfold tiny_pool, one_dpu in Hr. cbn in Hr.
    apply lookup_singleton_Some in Hr as [<- <-]. cbn in Hd. injection Hd as <-.
    eexists. vm_compute. reflexivity.
Defined.
