(* ===== verification/BnkCluster.v ===== *)
(** * BNK cluster membership (services/bnk_cluster_service.py)

    [get_or_create_config] and [assign_members], on the rows of TmfifoIpam.v.
    An operation answers with the session's rows as it leaves them, errors
    included: on an error the route rolls them back.  The advisory lock of
    the cluster, taken first, makes each operation one step; query results
    come in any order the database chooses. *)

From S2P Require Import Prelude TmfifoIpam.
Import Ip.

#[local] Open Scope string_scope.
#[local] Open Scope list_scope.
#[local] Open Scope Z_scope.

Section service.
Context {SO : SetOrder Z}.

Definition sorted_ids (l : list Z) : list Z := merge_sort Z.le l.

(** ** Configuration *)

Definition _check_pool_cidr_valid (cidr : string) : result bnk_error net :=
  match ip_network true cidr with
  | None => Err (ValidationError "tmfifo_pool_cidr" (InvalidCidr cidr))
  | Some n =>
      if 30 <? n_prefix n then Err (ValidationError "tmfifo_pool_cidr" (PrefixTooLong (n_prefix n)))
      else Ok n
  end.

(** [for dpu in existing_dpus: if ip_address(...) not in new_net: raise] *)
Fixpoint all_inside (n : net) (rows : list (Z * dpu_row)) : result bnk_error unit :=
  match rows with
  | [] => Ok tt
  | (i, r) :: rows =>
      match parse_ip (default "" (dpu_tmfifo_ip r)) with
      | None => Err ValueError
      | Some a =>
          if contains n a then all_inside n rows
          else Err (ValidationError "tmfifo_pool_cidr" (OutsideNewRange i))
      end
  end.

Definition _validate_cidr_change (c : Z) (new_cidr : string) (d : db) : result bnk_error unit :=
  match _check_pool_cidr_valid new_cidr with
  | Err e => Err e
  | Ok n =>
      all_inside n
        (select (fun _ r => in_cluster c r && negb (bool_decide (dpu_tmfifo_ip r = None))) (dpus d))
  end.

Definition in_cluster_h (c : Z) (h : host_row) : bool := bool_decide (h_cluster h = Some c).
Definition set_cp (flag : bool) (h : host_row) : host_row :=
  {| h_project := h_project h; h_ip := h_ip h; h_cluster := h_cluster h; is_control_plane := flag |}.

(** [for h in cluster_hosts: h.is_control_plane = (h.id == ...)] *)
Definition sync_control_plane (c cp : Z) (d : db) : db :=
  with_hosts (map_imap (fun i h => Some (if in_cluster_h c h then set_cp (i =? cp) h else h))) d.

(** The checks of a proposed control-plane host. *)
Definition check_cp (c project : Z) (require_member : bool) (cp : Z) (d : db) : result bnk_error unit :=
  match hosts d !! cp with
  | Some h =>
      if negb (h_project h =? project) then Err (NotFoundError "bare_metal_host" [cp])
      else if require_member && negb (in_cluster_h c h)
      then Err (BadRequestError "Host is not a member of the cluster" cp)
      else Ok tt
  | None => Err (NotFoundError "bare_metal_host" [cp])
  end.

Definition get_or_create_config (c : Z) (pool transport : option string) (cp : option Z)
    (require_member : bool) (d : db) : db * result bnk_error config_row :=
  match clusters d !! c with
  | None => (d, Err (NotFoundError "kubernetes_cluster" [c]))
  | Some project =>
      match (match cp with Some h => check_cp c project require_member h d | None => Ok tt end) with
      | Err e => (d, Err e)
      | Ok _ =>
          let stored : result bnk_error config_row :=
            match configs d !! c with
            | None =>
                match (match pool with Some p => (fun _ => tt) <$> _check_pool_cidr_valid p | None => Ok tt end) with
                | Err e => Err e
                | Ok _ =>
                    Ok {| tmfifo_pool_cidr := default default_pool (or_else pool (Some default_pool));
                          join_transport := default "rshim" (or_else transport (Some "rshim"));
                          control_plane_host_id := cp |}
                end
            | Some cfg =>
                let changes := match pool with Some p => negb (String.eqb p (tmfifo_pool_cidr cfg)) | None => false end in
                match (if changes then _validate_cidr_change c (default "" pool) d else Ok tt) with
                | Err e => Err e
                | Ok _ =>
                    Ok {| tmfifo_pool_cidr := if changes then default "" pool else tmfifo_pool_cidr cfg;
                          join_transport := default (join_transport cfg) transport;
                          control_plane_host_id := match cp with Some h => Some h | None => control_plane_host_id cfg end |}
                end
            end in
          match stored with
          | Err e => (d, Err e)
          | Ok cfg =>
              let d := with_configs <[c := cfg]> d in
              (match cp with Some h => sync_control_plane c h d | None => d end, Ok cfg)
          end
      end
  end.

(** ** Membership *)

(** [cluster_membership] *)
Definition cluster_membership (c : Z) (d : db) : list Z * list Z :=
  (sorted_ids (select (fun _ h => in_cluster_h c h) (hosts d)).*1,
   sorted_ids (select (fun _ r => in_cluster c r) (dpus d)).*1).

(** The rows of the requested ids in the project, and what is wrong with the
    request: ids without a row, or rows bound to another cluster. *)
Definition requested {R} (project : Z) (proj : R -> Z) (ids : list Z) (t : gmap Z R) : list (Z * R) :=
  select (fun i r => bool_decide (i ∈ ids) && (proj r =? project)) t.

Definition check_request {R} (kind : string) (c : Z) (cluster_of : R -> option Z)
    (ids : list Z) (rows : list (Z * R)) : result bnk_error unit :=
  let missing := filter (fun i => i ∉ rows.*1) (remove_dups ids) in
  let stolen := filter (fun ir => cluster_of ir.2 <> None /\ cluster_of ir.2 <> Some c) rows in
  if negb (bool_decide (missing = [])) then Err (NotFoundError kind (sorted_ids missing))
  else if negb (bool_decide (stolen = [])) then Err (ConflictError kind (sorted_ids stolen.*1))
  else Ok tt.

Definition leave_cluster (h : host_row) : host_row :=
  {| h_project := h_project h; h_ip := h_ip h; h_cluster := None; is_control_plane := false |}.
Definition join_cluster (c : Z) (cp : bool) (h : host_row) : host_row :=
  {| h_project := h_project h; h_ip := h_ip h; h_cluster := Some c; is_control_plane := cp |}.

(** Hosts that leave, after the links of their DPUs. *)
Definition release_all (ids : list Z) (d : db) : db := foldr release_dpu_tmfifo d ids.

Definition drop_hosts (c : Z) (keep : list Z) (d : db) : db :=
  let leaving := select (fun i h => in_cluster_h c h && negb (bool_decide (i ∈ keep))) (hosts d) in
  let ips := map (fun ih => h_ip ih.2) leaving in
  let released := select (fun _ r => in_cluster c r &&
        match host_node_ip r with Some ip => bool_decide (ip ∈ ips) | None => false end) (dpus d) in
  let d := release_all released.*1 d in
  with_hosts (fun t => foldr (alter leave_cluster) t leaving.*1) d.

(** DPUs that are no longer listed. *)
Definition drop_dpus (c : Z) (keep : list Z) (d : db) : db :=
  release_all (select (fun i r => in_cluster c r && negb (bool_decide (i ∈ keep))) (dpus d)).*1 d.

Definition join_hosts (c cp : Z) (ids : list Z) (d : db) : db :=
  with_hosts (fun t => foldr (fun i => alter (join_cluster c (i =? cp)) i) t ids) d.

(** The loop over the requested DPUs: the owner check, then the link. *)
Fixpoint assign_links (start : db) (c : Z) (member_ips : list string) (ids : list Z) (d : db)
  : db * result bnk_error (list (Z * TmfifoAllocation)) :=
  match ids with
  | [] => (d, Ok [])
  | i :: ids =>
      match dpus d !! i with
      | None => assign_links start c member_ips ids d
      | Some r =>
          if truthy_str (host_node_ip r) && negb (bool_decide (default "" (host_node_ip r) ∈ member_ips))
          then (d, Err (BadRequestError "DPU's owner host is not a member of the cluster" i))
          else
            match assign_dpu_tmfifo start i r c d with
            | (d, Err e) => (d, Err e)
            | (d, Ok a) =>
                match assign_links start c member_ips ids d with
                | (d, Err e) => (d, Err e)
                | (d, Ok l) => (d, Ok ((i, a) :: l))
                end
            end
      end
  end.

Record members := {
  m_host_ids : list Z;
  m_assigned : list (Z * TmfifoAllocation);
  m_config : config_row
}.

Definition assign_members (c cp : Z) (host_ids dpu_ids : list Z) (pool : option string) (d : db)
  : db * result bnk_error members :=
  match clusters d !! c with
  | None => (d, Err (NotFoundError "kubernetes_cluster" [c]))
  | Some project =>
      let host_ids := if bool_decide (cp ∈ host_ids) then host_ids
                      else cp :: filter (fun h => h <> cp) host_ids in
      match check_cp c project false cp d with
      | Err e => (d, Err e)
      | Ok _ =>
          let host_rows := requested project h_project host_ids (hosts d) in
          let dpu_rows := requested project d_project dpu_ids (dpus d) in
          match check_request "bare_metal_host" c h_cluster host_ids host_rows with
          | Err e => (d, Err e)
          | Ok _ =>
              match check_request "dpu" c d_cluster dpu_ids dpu_rows with
              | Err e => (d, Err e)
              | Ok _ =>
                  match get_or_create_config c pool None (Some cp) false d with
                  | (d1, Err e) => (d1, Err e)
                  | (d1, Ok cfg) =>
                      let d2 := drop_dpus c dpu_ids (drop_hosts c host_ids d1) in
                      let d3 := join_hosts c cp host_rows.*1 d2 in
                      match assign_links d c (map (fun ih => h_ip ih.2) host_rows) dpu_rows.*1 d3 with
                      | (d4, Err e) => (d4, Err e)
                      | (d4, Ok l) =>
                          (d4, Ok {| m_host_ids := host_ids; m_assigned := l; m_config := cfg |})
                      end
                  end
              end
          end
      end
  end.

(** [bulk_cluster_membership]: rows are appended to the bucket of their
    cluster; clusters that were not asked for are skipped. *)
Definition bucket (add : Z -> list Z * list Z -> list Z * list Z)
    (b : list (Z * (list Z * list Z))) (row : Z * Z) : list (Z * (list Z * list Z)) :=
  match dget row.2 b with Some v => dset row.2 (add row.1 v) b | None => b end.

Definition bulk_cluster_membership (ids : list Z) (d : db) : list (Z * (list Z * list Z)) :=
  let asked (o : option Z) := match o with Some c => bool_decide (c ∈ ids) | None => false end in
  let host_rows := map (fun ih : Z * host_row => (ih.1, default 0 (h_cluster ih.2)))
                     (select (fun _ h => asked (h_cluster h)) (hosts d)) in
  let dpu_rows := map (fun ir : Z * dpu_row => (ir.1, default 0 (d_cluster ir.2)))
                    (select (fun _ r => asked (d_cluster r)) (dpus d)) in
  let b := dict_of (map (fun c => (c, ([], []))) ids) in
  let b := foldl (bucket (fun i v => (v.1 ++ [i], v.2))) b host_rows in
  let b := foldl (bucket (fun i v => (v.1, v.2 ++ [i]))) b dpu_rows in
  map (fun cv => (cv.1, (sorted_ids cv.2.1, sorted_ids cv.2.2))) b.

#[global] Arguments select : simpl never.
#[global] Arguments bool_decide : simpl never.
#[global] Arguments drop_hosts : simpl never.
#[global] Arguments drop_dpus : simpl never.
#[global] Arguments join_hosts : simpl never.
#[global] Arguments release_all : simpl never.
#[global] Arguments sync_control_plane : simpl never.

(** ** What each step does to the tables *)

Lemma clear_link_idem r : clear_link (clear_link r) = clear_link r.
Proof. done. Qed.

Lemma release_all_spec ids d :
  hosts (release_all ids d) = hosts d /\ configs (release_all ids d) = configs d /\
  clusters (release_all ids d) = clusters d /\
  forall i, dpus (release_all ids d) !! i =
    if decide (i ∈ ids) then clear_link <$> dpus d !! i else dpus d !! i.
Proof.
  assert (E : release_all ids d = with_dpus (fun t => foldr (fun i => alter clear_link i) t ids) d).
  { unfold release_all. induction ids as [|i ids IH]; cbn; [by destruct d|].
    unfold release_dpu_tmfifo at 1. rewrite IH. done. }
  rewrite E. split_and!; try done. intros i. cbn.
  by apply (lookup_alter_all (fun _ => clear_link)).
Qed.

Lemma elem_of_select_ids {R} (P : Z -> R -> bool) t i :
  i ∈ (select P t).*1 <-> exists r, t !! i = Some r /\ P i r = true.
Proof.
  rewrite list_elem_of_fmap. split.
  - intros ([j r] & -> & H). exists r. by apply elem_of_select.
  - intros (r & H). exists (i, r). split; [done|]. by apply elem_of_select.
Qed.

Lemma drop_hosts_spec c keep d :
  configs (drop_hosts c keep d) = configs d /\ clusters (drop_hosts c keep d) = clusters d /\
  (forall i, hosts (drop_hosts c keep d) !! i =
     match hosts d !! i with
     | Some h => Some (if in_cluster_h c h && negb (bool_decide (i ∈ keep)) then leave_cluster h else h)
     | None => None
     end) /\
  (forall i r, dpus d !! i = Some r ->
     dpus (drop_hosts c keep d) !! i = Some r \/
     in_cluster c r = true /\ dpus (drop_hosts c keep d) !! i = Some (clear_link r)) /\
  (forall i, dpus d !! i = None -> dpus (drop_hosts c keep d) !! i = None).
Proof.
  unfold drop_hosts.
  destruct (release_all_spec
    (select (fun _ r => in_cluster c r && match host_node_ip r with
       | Some ip => bool_decide (ip ∈ map (fun ih : Z * host_row => h_ip ih.2)
           (select (fun i h => in_cluster_h c h && negb (bool_decide (i ∈ keep))) (hosts d)))
       | None => false end) (dpus d)).*1 d) as (RH & RC & RK & RD).
  cbn [with_hosts configs clusters hosts dpus]. rewrite RH. split_and!; [done|done|..].
  - intros i. rewrite (lookup_alter_all (fun _ => leave_cluster)) by done.
    destruct (decide _) as [I|I]; rewrite elem_of_select_ids in I.
    + destruct I as (h & Hh & P). by rewrite Hh, P.
    + destruct (hosts d !! i) as [h|] eqn:Hh; [|done].
      destruct (_ && _) eqn:P; [|done]. destruct I. by exists h.
  - intros i r Hr. rewrite RD, Hr. destruct (decide _) as [I|I]; [right|by left].
    split; [|done]. apply elem_of_select_ids in I as (r' & Hr' & P). simplify_eq.
    by apply andb_true_iff in P as [? _].
  - intros i Hr. rewrite RD, Hr. by destruct (decide _).
Qed.

Lemma drop_dpus_spec c keep d :
  hosts (drop_dpus c keep d) = hosts d /\ configs (drop_dpus c keep d) = configs d /\
  clusters (drop_dpus c keep d) = clusters d /\
  forall i, dpus (drop_dpus c keep d) !! i =
    match dpus d !! i with
    | Some r => Some (if in_cluster c r && negb (bool_decide (i ∈ keep)) then clear_link r else r)
    | None => None
    end.
Proof.
  unfold drop_dpus.
  destruct (release_all_spec (select (fun i r => in_cluster c r && negb (bool_decide (i ∈ keep))) (dpus d)).*1 d)
    as (RH & RC & RK & RD).
  split_and!; try done. intros i. rewrite RD.
  destruct (decide _) as [I|I]; rewrite elem_of_select_ids in I.
  - destruct I as (r & Hr & P). by rewrite Hr, P.
  - destruct (dpus d !! i) as [r|] eqn:Hr; [|done].
    destruct (_ && _) eqn:P; [|done]. destruct I. by exists r.
Qed.

Lemma join_hosts_lookup c cp ids d i :
  hosts (join_hosts c cp ids d) !! i =
  if decide (i ∈ ids) then join_cluster c (i =? cp) <$> hosts d !! i else hosts d !! i.
Proof. unfold join_hosts. cbn. by apply (lookup_alter_all (fun j => join_cluster c (j =? cp))). Qed.

Lemma sync_lookup c cp d i :
  hosts (sync_control_plane c cp d) !! i =
  (fun h => if in_cluster_h c h then set_cp (i =? cp) h else h) <$> hosts d !! i.
Proof. unfold sync_control_plane. cbn. rewrite map_lookup_imap. by destruct (hosts d !! i). Qed.

(** ** The invariant of the cluster tables

    Every stored pool is a network with room for a link; every DPU with an
    address in a cluster is on a link of the cluster's configured pool; no two
    DPUs of a cluster have the same address; and a member host is flagged
    control plane exactly when the configuration names it. *)
Record bnk_inv (d : db) : Prop := {
  inv_pool : forall c cfg, configs d !! c = Some cfg ->
    exists n, ip_network true (tmfifo_pool_cidr cfg) = Some n /\ n_prefix n <= 30;
  inv_link : forall i r c, dpus d !! i = Some r -> d_cluster r = Some c -> dpu_tmfifo_ip r <> None ->
    exists cfg n a, configs d !! c = Some cfg /\
      ip_network true (tmfifo_pool_cidr cfg) = Some n /\ linked n a r;
  inv_uniq : forall i j r r' c, dpus d !! i = Some r -> dpus d !! j = Some r' ->
    d_cluster r = Some c -> d_cluster r' = Some c -> dpu_tmfifo_ip r <> None ->
    dpu_tmfifo_ip r = dpu_tmfifo_ip r' -> i = j;
  inv_cp : forall i h c, hosts d !! i = Some h -> h_cluster h = Some c ->
    (is_control_plane h = true <-> exists cfg, configs d !! c = Some cfg /\ control_plane_host_id cfg = Some i)
}.

Lemma linked_range n a r : wf n -> linked n a r -> 0 <= a /\ a + 4 <= 2 ^ 32.
Proof. intros (_ & H0 & H1 & _) (_ & L1 & L2 & _). lia. Qed.

(** The network of a linked DPU's address. *)
Lemma linked_net n a r ip : wf n -> linked n a r -> dpu_tmfifo_ip r = Some ip ->
  link_net ip = Some {| n_addr := a; n_prefix := 30 |}.
Proof.
  intros W L E. destruct (linked_range n a r W L). destruct L as (D & _ & _ & _ & E').
  rewrite E' in E. injection E as <-. by apply link_net_show.
Qed.

Lemma inv_readable d c (I : bnk_inv d) i r ip : dpus d !! i = Some r -> d_cluster r = Some c ->
  dpu_tmfifo_ip r = Some ip -> ip <> "" -> is_Some (link_net ip).
Proof.
  intros Hr Hc Hd _. destruct (inv_link d I i r c Hr Hc ltac:(congruence)) as (cfg & n & a & _ & N & L).
  rewrite (linked_net n a r ip (ip_network_wf _ _ _ N) L Hd). by eexists.
Qed.

(** Rows that only lose their cluster keep the invariant. *)
Lemma inv_release d d' (I : bnk_inv d)
    (CF : configs d' = configs d) (HO : hosts d' = hosts d)
    (DP : forall i r', dpus d' !! i = Some r' -> dpus d !! i = Some r' \/ d_cluster r' = None) :
  bnk_inv d'.
Proof.
  destruct I as [IP IL IU IC]. split; rewrite ?CF, ?HO; auto.
  - intros i r c Hr Hc Hd. destruct (DP i r Hr) as [H|H]; [by eapply IL|congruence].
  - intros i j r r' c Hr Hr' Hc Hc' Hd E.
    destruct (DP i r Hr) as [H|H]; [|congruence]. destruct (DP j r' Hr') as [H'|H']; [|congruence].
    by eapply IU.
Qed.

Lemma inv_hosts d d' (I : bnk_inv d) (CF : configs d' = configs d) (DP : dpus d' = dpus d)
    (HO : forall i h' c, hosts d' !! i = Some h' -> h_cluster h' = Some c ->
       (is_control_plane h' = true <-> exists cfg, configs d !! c = Some cfg /\ control_plane_host_id cfg = Some i)) :
  bnk_inv d'.
Proof. destruct I as [IP IL IU IC]. split; rewrite ?CF, ?DP; auto. Qed.

Lemma inv_drop_dpus c keep d (I : bnk_inv d) : bnk_inv (drop_dpus c keep d).
Proof.
  destruct (drop_dpus_spec c keep d) as (H & C & _ & D). apply (inv_release d); auto.
  intros i r' Hr'. rewrite D in Hr'. destruct (dpus d !! i) as [r|]; [|done].
  injection Hr' as <-. destruct (_ && _); auto.
Qed.

Lemma inv_drop_hosts c keep d (I : bnk_inv d) : bnk_inv (drop_hosts c keep d).
Proof.
  destruct (drop_hosts_spec c keep d) as (C & _ & H & D & N).
  set (d1 := with_dpus (fun _ => dpus (drop_hosts c keep d)) d).
  assert (I1 : bnk_inv d1).
  { apply (inv_release d); auto. intros i r' Hr'. cbn in Hr'.
    destruct (dpus d !! i) as [r|] eqn:Hr; [|rewrite N in Hr' by done; done].
    destruct (D i r Hr) as [E|[_ E]]; rewrite E in Hr'; injection Hr' as <-; auto. }
  apply (inv_hosts d1); auto. intros i h' c' Hh' Hc'. rewrite H in Hh'.
  destruct (hosts d !! i) as [h|] eqn:Hh; [|done]. injection Hh' as <-.
  destruct (_ && _); [done|]. by apply (inv_cp d I i h c').
Qed.

Lemma all_inside_Ok n rows u : all_inside n rows = Ok u ->
  forall i r, (i, r) ∈ rows -> exists a, parse_ip (default "" (dpu_tmfifo_ip r)) = Some a /\ contains n a = true.
Proof.
  induction rows as [|[j r0] rows IH]; cbn; intros H i r I; [by apply elem_of_nil in I|].
  destruct (parse_ip _) as [a|] eqn:P; [|done]. destruct (contains n a) eqn:C; [|done].
  apply elem_of_cons in I as [[= -> ->]|I]; [by exists a|by apply (IH H i r)].
Qed.

Lemma check_pool_Ok s n : _check_pool_cidr_valid s = Ok n -> ip_network true s = Some n /\ n_prefix n <= 30.
Proof.
  unfold _check_pool_cidr_valid. destruct (ip_network true s) as [n'|]; [|done].
  destruct (30 <? n_prefix n') eqn:E; [done|]. intros [= ->]. apply Z.ltb_ge in E. by split.
Qed.

(** A link whose DPU address is inside a pool is inside it as a whole. *)
Lemma linked_inside n n' a r : wf n -> wf n' -> n_prefix n' <= 30 -> linked n a r ->
  contains n' (a + 2) = true -> linked n' a r.
Proof.
  intros W (Hp & H0 & H1 & D) LE L C. destruct (linked_range n a r W L) as [R0 R1].
  destruct L as (D4 & _ & _ & EH & ED).
  unfold contains in C. apply andb_true_iff in C as [C1%Z.leb_le C2%Z.ltb_lt].
  assert (E : size n' = 4 * 2 ^ (30 - n_prefix n')).
  { unfold size. change 4 with (2 ^ 2). rewrite <- Z.pow_add_r by lia. f_equal. lia. }
  destruct D as [q Hq], D4 as [k Hk]. rewrite E in *.
  split_and!; [by exists k|nia|nia|done|done].
Qed.

(** ** [get_or_create_config] *)

(** What a success leaves: one configuration row, and the flags. *)
Lemma get_or_create_Ok c pool tr cp m d d' cfg :
  get_or_create_config c pool tr cp m d = (d', Ok cfg) ->
  dpus d' = dpus d /\ clusters d' = clusters d /\ configs d' = <[c := cfg]> (configs d) /\
  (cp <> None -> control_plane_host_id cfg = cp) /\
  (cp = None -> hosts d' = hosts d /\
     (control_plane_host_id cfg = match configs d !! c with Some old => control_plane_host_id old | None => None end)) /\
  (forall h, cp = Some h -> hosts d' = hosts (sync_control_plane c h d)) /\
  match configs d !! c with
  | Some old =>
      tmfifo_pool_cidr cfg = tmfifo_pool_cidr old \/
      (exists n, _check_pool_cidr_valid (tmfifo_pool_cidr cfg) = Ok n /\
         forall i r, dpus d !! i = Some r -> d_cluster r = Some c -> dpu_tmfifo_ip r <> None ->
           exists a, parse_ip (default "" (dpu_tmfifo_ip r)) = Some a /\ contains n a = true)
  | None => exists n, _check_pool_cidr_valid (tmfifo_pool_cidr cfg) = Ok n
  end.
Proof.
  unfold get_or_create_config. destruct (clusters d !! c) as [project|]; [|done].
  destruct (match cp with Some _ => _ | None => _ end) as [u|e]; [|done].
  destruct (configs d !! c) as [old|] eqn:Hc.
  - set (ch := match pool with Some p => _ | None => false end).
    destruct (if ch then _ else _) as [u'|e'] eqn:V; [|done].
    intros [= <- <-]. split_and!; try done; try (by destruct cp).
    + by intros h ->.
    + destruct ch; [right|by left]. unfold _validate_cidr_change in V. cbn.
      destruct (_check_pool_cidr_valid _) as [n|]; [|done]. exists n. split; [done|].
      intros i r Hr Hcl Hd. apply (all_inside_Ok _ _ _ V i r), elem_of_select.
      split; [done|]. apply andb_true_iff.
      split; [by apply bool_decide_eq_true_2|by apply negb_true_iff, bool_decide_eq_false_2].
  - destruct (match pool with Some p => _ | None => _ end) as [u'|e'] eqn:V; [|done].
    intros [= <- <-]. split_and!; try done; try (by destruct cp).
    + by intros h ->.
    + cbn. destruct pool as [p|]; [|eexists; vm_compute; reflexivity].
      destruct (_check_pool_cidr_valid p) as [n|] eqn:P; [|done].
      exists n. cbn. destruct (String.eqb_spec p "") as [->|]; [|done].
      apply check_pool_Ok in P as [P _]. vm_compute in P. discriminate P.
Qed.

Lemma inv_get_or_create c pool tr cp m d d' cfg (I : bnk_inv d) :
  get_or_create_config c pool tr cp m d = (d', Ok cfg) -> bnk_inv d'.
Proof.
  intros G. destruct (get_or_create_Ok _ _ _ _ _ _ _ _ G) as (HD & _ & HC & HCP & HN & HS & HP).
  clear G.
  assert (POOL : exists n, ip_network true (tmfifo_pool_cidr cfg) = Some n /\ n_prefix n <= 30 /\
    forall i r, dpus d !! i = Some r -> d_cluster r = Some c -> dpu_tmfifo_ip r <> None ->
      exists a, linked n a r).
  { destruct (configs d !! c) as [old|] eqn:Ho.
    - destruct (inv_pool d I c old Ho) as (n0 & N0 & LE0).
      destruct HP as [E|(n & V & A)].
      + exists n0. rewrite E. split_and!; [done..|]. intros i r Hr Hc Hd.
        destruct (inv_link d I i r c Hr Hc Hd) as (cf & n & a & ? & ? & ?). simplify_eq. by exists a.
      + apply check_pool_Ok in V as [V LE]. exists n. split_and!; [done..|]. intros i r Hr Hc Hd.
        destruct (inv_link d I i r c Hr Hc Hd) as (cf & n1 & a & Hcf & N1 & L).
        assert (cf = old) by congruence. subst cf.
        destruct (A i r Hr Hc Hd) as (b & P & C). exists a.
        pose proof (ip_network_wf _ _ _ N1) as W1.
        destruct (linked_range _ _ _ W1 L) as [R0 R1].
        assert (E2 : dpu_tmfifo_ip r = Some (show_ip (a + 2))) by apply L.
        rewrite E2 in P. cbn in P. rewrite parse_show_ip in P by lia. injection P as <-.
        apply (linked_inside n1 n a r); auto. by eapply ip_network_wf.
    - destruct HP as [n V]. apply check_pool_Ok in V as [V LE]. exists n. split_and!; [done..|].
      intros i r Hr Hc Hd. destruct (inv_link d I i r c Hr Hc Hd) as (cf & ? & ? & ? & _). congruence. }
  destruct POOL as (n & N & LE & L). split; rewrite ?HD, ?HC.
  - intros c' cf. destruct (decide (c' = c)) as [->|NE].
    + rewrite lookup_insert_eq. intros [= <-]. by exists n.
    + rewrite lookup_insert_ne by done. apply (inv_pool d I).
  - intros i r c' Hr Hc Hd. destruct (decide (c' = c)) as [->|NE].
    + destruct (L i r Hr Hc Hd) as [a La]. exists cfg, n, a. by rewrite lookup_insert_eq.
    + setoid_rewrite lookup_insert_ne; [|done]. by apply (inv_link d I i).
  - apply (inv_uniq d I).
  - intros i h c' Hh Hc. destruct cp as [cph|].
    + rewrite (HS cph eq_refl), sync_lookup in Hh.
      destruct (hosts d !! i) as [h0|] eqn:Hh0; [|done]. cbn in Hh. injection Hh as <-.
      destruct (decide (c' = c)) as [->|NE].
      * rewrite lookup_insert_eq. specialize (HCP ltac:(done)).
        assert (in_cluster_h c h0 = true) as E.
        { apply bool_decide_eq_true. by destruct (in_cluster_h c h0). }
        rewrite E. cbn. rewrite Z.eqb_eq.
        split; [intros ->; by exists cfg|intros (? & [= <-] & ?); congruence].
      * rewrite lookup_insert_ne by done.
        assert (E : in_cluster_h c h0 = false).
        { destruct (in_cluster_h c h0) eqn:E; [|done]. apply bool_decide_eq_true in E. cbn in Hc. congruence. }
        rewrite E in *. by apply (inv_cp d I i h0 c').
    + destruct (HN eq_refl) as [EH EC]. rewrite EH in Hh.
      rewrite (inv_cp d I i h c' Hh Hc).
      destruct (decide (c' = c)) as [->|NE]; [|by rewrite lookup_insert_ne].
      rewrite lookup_insert_eq. split.
      * intros (cf & E1 & E2). rewrite E1 in EC. exists cfg. split; congruence.
      * intros (cf & [= <-] & E2). destruct (configs d !! c) as [old|]; [|congruence].
        exists old. split; congruence.
Qed.

(** ** [assign_members] *)

(** A success of the allocator under the invariant. *)
Lemma allocate_Ok c d a cfg (I : bnk_inv d) (CF : configs d !! c = Some cfg) :
  allocate_next_subnet c d = Ok a ->
  exists n b, ip_network true (tmfifo_pool_cidr cfg) = Some n /\
    a = allocation_of {| n_addr := b; n_prefix := 30 |} /\
    (4 | b) /\ n_addr n <= b /\ b + 4 <= n_addr n + size n /\
    free_link c d {| n_addr := b; n_prefix := 30 |}.
Proof.
  destruct (inv_pool d I c cfg CF) as (n & N & LE).
  assert (P : pool_of c d = tmfifo_pool_cidr cfg) by (unfold pool_of; by rewrite CF).
  rewrite <- P in N.
  destruct (allocate_cases c d n N LE (inv_readable d c I)) as [(i & Hi & E & F & _)|[E _]];
    rewrite E; [|done]. intros [= <-].
  destruct (block_in_pool n i (ip_network_wf _ _ _ N) LE Hi) as (D & L1 & L2).
  exists n, (n_addr (block n i)). rewrite <- P. split_and!; done.
Qed.

(** The new link of a DPU is a link of the pool and clashes with none. *)
Lemma inv_set_link c d a cfg id r (I : bnk_inv d) (CF : configs d !! c = Some cfg)
    (R : dpus d !! id = Some r) (A : allocate_next_subnet c d = Ok a) :
  bnk_inv (with_dpus <[id := set_link c a r]> d).
Proof.
  destruct (allocate_Ok c d a cfg I CF A) as (n & b & N & -> & D & L1 & L2 & F).
  assert (L : forall r0, linked n b (set_link c (allocation_of {| n_addr := b; n_prefix := 30 |}) r0))
    by (intros; split_and!; done).
  pose proof (ip_network_wf _ _ _ N) as W.
  assert (FRESH : forall j r' c', dpus d !! j = Some r' -> d_cluster r' = Some c' -> c' = c ->
    dpu_tmfifo_ip r' <> Some (show_ip (b + 2))).
  { intros j r' c' Hj Hc -> E.
    destruct (linked_range n b _ W (L r)).
    apply (F j r' (show_ip (b + 2))); auto.
    - intros E0. pose proof (show_ip_truthy (b + 2) ltac:(lia)) as T. by rewrite E0 in T.
    - by apply link_net_show. }
  split; cbn.
  - apply (inv_pool d I).
  - intros i r0 c' Hr Hc Hd. destruct (decide (i = id)) as [->|NE].
    + rewrite lookup_insert_eq in Hr. injection Hr as <-. cbn in Hc. injection Hc as <-.
      exists cfg, n, b. by split_and!.
    + rewrite lookup_insert_ne in Hr by done. by apply (inv_link d I i).
  - intros i j r1 r2 c' H1 H2 C1 C2 N1 E.
    destruct (decide (i = id)) as [->|NI], (decide (j = id)) as [->|NJ]; try done.
    + rewrite lookup_insert_eq in H1. rewrite lookup_insert_ne in H2 by done.
      injection H1 as <-. cbn in *. injection C1 as <-.
      by destruct (FRESH j r2 c H2 C2 eq_refl).
    + rewrite lookup_insert_ne in H1 by done. rewrite lookup_insert_eq in H2.
      injection H2 as <-. cbn in *. injection C2 as <-.
      by destruct (FRESH i r1 c H1 C1 eq_refl).
    + rewrite lookup_insert_ne in H1 by done. rewrite lookup_insert_ne in H2 by done.
      by eapply (inv_uniq d I).
  - apply (inv_cp d I).
Qed.

(** A DPU that is a member with a link. *)
Definition has_link (c : Z) (o : option dpu_row) : Prop :=
  exists r, o = Some r /\ d_cluster r = Some c /\
    truthy_str (host_tmfifo_ip r) = true /\ truthy_str (dpu_tmfifo_ip r) = true.

Lemma assign_dpu_Ok start id r c d d' a cfg (I : bnk_inv d) (CF : configs d !! c = Some cfg)
    (R : dpus d !! id = Some r) :
  assign_dpu_tmfifo start id r c d = (d', Ok a) ->
  bnk_inv d' /\ hosts d' = hosts d /\ configs d' = configs d /\ clusters d' = clusters d /\
  (forall j, j <> id -> dpus d' !! j = dpus d !! j) /\
  has_link c (dpus d' !! id) /\
  exists r', dpus d' !! id = Some r' /\ host_tmfifo_ip r' = Some (host_ip a) /\
    dpu_tmfifo_ip r' = Some (dpu_ip a) /\ host_node_ip r' = host_node_ip r.
Proof.
  unfold assign_dpu_tmfifo. destruct (_ && _) eqn:T.
  - apply andb_true_iff in T as [[T1 T2]%andb_true_iff T3]. unfold in_cluster in T1.
    apply bool_decide_eq_true in T1.
    destruct (link_net _) as [n|]; [|done]. intros [= <- <-].
    split_and!; try done; rewrite R; exists r; [done|]. cbn.
    by destruct (host_tmfifo_ip r), (dpu_tmfifo_ip r).
  - destruct (allocate_next_subnet c d) as [a0|] eqn:A; [|done].
    destruct (index_violated _ _ _ _); [done|]. intros [= <- <-].
    destruct (allocate_Ok c d a0 cfg I CF A) as (n & b & N & Ea & D & L1 & L2 & F).
    split_and!; try done.
    + by eapply inv_set_link.
    + intros j NE. cbn. by apply lookup_insert_ne.
    + exists (set_link c a0 r). cbn. rewrite lookup_insert_eq. rewrite Ea.
      destruct (ip_network_wf _ _ _ N) as (_ & H0 & H1 & _).
      split_and!; try done; apply show_ip_truthy; cbn; lia.
    + exists (set_link c a0 r). cbn. by rewrite lookup_insert_eq.
Qed.

Lemma assign_links_Ok start c ips ids d d' l cfg (I : bnk_inv d) (CF : configs d !! c = Some cfg)
    (RO : forall i, i ∈ ids -> is_Some (dpus d !! i)) :
  assign_links start c ips ids d = (d', Ok l) ->
  bnk_inv d' /\ hosts d' = hosts d /\ configs d' = configs d /\ clusters d' = clusters d /\
  l.*1 = ids /\
  (forall j, j ∉ ids -> dpus d' !! j = dpus d !! j) /\
  (forall j, j ∈ ids -> has_link c (dpus d' !! j)) /\
  (forall j, has_link c (dpus d !! j) -> has_link c (dpus d' !! j)).
Proof.
  revert d l I CF RO. induction ids as [|i ids IH]; intros d l I CF RO; cbn.
  { intros [= <- <-]. split_and!; try done. intros j Hj. by apply elem_of_nil in Hj. }
  destruct (RO i ltac:(left)) as [r R]. rewrite R.
  destruct (truthy_str _ && _); [done|].
  destruct (assign_dpu_tmfifo start i r c d) as [d1 [a|e]] eqn:A; [|done].
  destruct (assign_dpu_Ok _ _ _ _ _ _ _ _ I CF R A) as (I1 & EH & EC & EK & EO & HL & _).
  destruct (assign_links start c ips ids d1) as [d2 [l2|e]] eqn:AL; [|done].
  intros [= <- <-].
  destruct (IH d1 l2 I1) as (I2 & FH & FC & FK & FL & FO & FM & FP); [congruence| |done|].
  { intros j Hj. destruct (decide (j = i)) as [->|NE].
    - destruct HL as (r' & -> & _). by eexists.
    - rewrite EO by done. apply RO. by right. }
  assert (KEEP : forall j, has_link c (dpus d !! j) -> has_link c (dpus d1 !! j)).
  { intros j H. destruct (decide (j = i)) as [->|NE]; [done|by rewrite EO]. }
  split_and!; try congruence; try done.
  - cbn. by rewrite FL.
  - intros j [NE NI]%not_elem_of_cons. by rewrite FO, EO.
  - intros j [->|Hj]%elem_of_cons; [by apply FP|by apply FM].
  - intros j H. by apply FP, KEEP.
Qed.

Lemma check_request_Ok {R} kind c (cl : R -> option Z) ids rows u :
  check_request kind c cl ids rows = Ok u ->
  (forall i, i ∈ ids -> i ∈ rows.*1) /\
  (forall i r, (i, r) ∈ rows -> cl r = None \/ cl r = Some c).
Proof.
  unfold check_request.
  destruct (bool_decide (filter (fun i => i ∉ rows.*1) _ = [])) eqn:M; [|done]. cbn.
  destruct (bool_decide (filter (fun ir : Z * R => _) rows = [])) eqn:S; [|done]. intros _.
  apply bool_decide_eq_true in M, S. split.
  - intros i Hi. apply dec_stable. intros N.
    assert (i ∈ filter (fun i => i ∉ rows.*1) (remove_dups ids)) as H
      by (apply list_elem_of_filter; split; [done|by apply elem_of_remove_dups]).
    rewrite M in H. by apply elem_of_nil in H.
  - intros i r Hr. destruct (cl r) as [c'|] eqn:E; [|by left].
    destruct (decide (c' = c)) as [->|NE]; [by right|].
    assert ((i, r) ∈ filter (fun ir : Z * R => cl ir.2 <> None /\ cl ir.2 <> Some c) rows) as H
      by (apply list_elem_of_filter; split; [cbn; split; congruence|done]).
    rewrite S in H. by apply elem_of_nil in H.
Qed.

(** The rows found for an accepted request are exactly those asked for. *)
Lemma request_rows {R} kind c project (proj : R -> Z) (cl : R -> option Z) ids t u :
  check_request kind c cl ids (requested project proj ids t) = Ok u ->
  (forall i, i ∈ (requested project proj ids t).*1 <-> i ∈ ids) /\
  (forall i r, i ∈ ids -> t !! i = Some r -> cl r = None \/ cl r = Some c) /\
  (forall i, i ∈ ids -> is_Some (t !! i)).
Proof.
  intros [A B]%check_request_Ok.
  assert (E : forall i, i ∈ (requested project proj ids t).*1 -> exists r, t !! i = Some r /\ i ∈ ids /\ (i, r) ∈ requested project proj ids t).
  { intros i ([j r] & -> & I)%list_elem_of_fmap. exists r. cbn.
    pose proof I as I'. apply elem_of_select in I' as [Hr P].
    apply andb_true_iff in P as [P%bool_decide_eq_true _]. done. }
  split_and!.
  - intros i. split; [|apply A]. by intros (? & _ & ? & _)%E.
  - intros i r Hi Hr. destruct (E i (A i Hi)) as (r' & Hr' & _ & I). simplify_eq. by eapply B.
  - intros i Hi. destruct (E i (A i Hi)) as (r' & Hr' & _). by eexists.
Qed.

Definition full_host_ids (cp : Z) (host_ids : list Z) : list Z :=
  if bool_decide (cp ∈ host_ids) then host_ids else cp :: filter (fun h => h <> cp) host_ids.

Lemma elem_of_full_host_ids cp ids i : i ∈ full_host_ids cp ids <-> i ∈ ids \/ i = cp.
Proof.
  unfold full_host_ids. destruct (bool_decide (cp ∈ ids)) eqn:E.
  - apply bool_decide_eq_true in E. naive_solver.
  - rewrite elem_of_cons, list_elem_of_filter. destruct (decide (i = cp)); naive_solver.
Qed.

(** The stages of a success. *)
Lemma assign_members_stages c cp hs ds pool d d' m :
  assign_members c cp hs ds pool d = (d', Ok m) ->
  exists project d1 hrows drows l,
    hrows = requested project h_project (full_host_ids cp hs) (hosts d) /\
    drows = requested project d_project ds (dpus d) /\
    (exists u, check_request "bare_metal_host" c h_cluster (full_host_ids cp hs) hrows = Ok u) /\
    (exists u, check_request "dpu" c d_cluster ds drows = Ok u) /\
    get_or_create_config c pool None (Some cp) false d = (d1, Ok (m_config m)) /\
    assign_links d c (map (fun ih : Z * host_row => h_ip ih.2) hrows) drows.*1
      (join_hosts c cp hrows.*1 (drop_dpus c ds (drop_hosts c (full_host_ids cp hs) d1))) = (d', Ok l) /\
    m = {| m_host_ids := full_host_ids cp hs; m_assigned := l; m_config := m_config m |}.
Proof.
  unfold assign_members. destruct (clusters d !! c) as [project|]; [|done].
  fold (full_host_ids cp hs).
  destruct (check_cp _ _ _ _ _); [|done].
  destruct (check_request "bare_metal_host" _ _ _ _) as [u1|] eqn:C1; [|done].
  destruct (check_request "dpu" _ _ _ _) as [u2|] eqn:C2; [|done].
  destruct (get_or_create_config _ _ _ _ _ _) as [d1 [cfg|]] eqn:G; [|done].
  destruct (assign_links _ _ _ _ _) as [d4 [l|]] eqn:A; [|done].
  intros [= <- <-]. eexists project, d1, _, _, l. cbn. split_and!; eauto.
Qed.

(** The member hosts at the end, by the rows at the start. *)
Lemma final_host c cp hs ds d d1 i h hids
    (HH : hosts d1 = hosts (sync_control_plane c cp d))
    (HI : forall j, j ∈ hids <-> j ∈ hs) (Hh : hosts d !! i = Some h) :
  hosts (join_hosts c cp hids (drop_dpus c ds (drop_hosts c hs d1))) !! i =
  Some (if bool_decide (i ∈ hs) then join_cluster c (i =? cp) h
        else if in_cluster_h c h then leave_cluster h else h).
Proof.
  rewrite join_hosts_lookup.
  destruct (drop_dpus_spec c ds (drop_hosts c hs d1)) as (-> & _).
  destruct (drop_hosts_spec c hs d1) as (_ & _ & -> & _).
  rewrite HH, sync_lookup, Hh. cbn.
  destruct (bool_decide (i ∈ hs)) eqn:B.
  - apply bool_decide_eq_true in B. rewrite decide_True by (by apply HI). cbn. f_equal.
    by destruct (in_cluster_h c h), (in_cluster_h c _ && _).
  - apply bool_decide_eq_false in B. rewrite decide_False by (by rewrite HI). cbn. f_equal.
    destruct (in_cluster_h c h) eqn:E.
    + replace (in_cluster_h c (set_cp (i =? cp) h)) with true by done. done.
    + by rewrite E.
Qed.

Lemma final_host_None c cp hs ds d d1 i hids
    (HH : hosts d1 = hosts (sync_control_plane c cp d)) (Hh : hosts d !! i = None) :
  hosts (join_hosts c cp hids (drop_dpus c ds (drop_hosts c hs d1))) !! i = None.
Proof.
  rewrite join_hosts_lookup.
  destruct (drop_dpus_spec c ds (drop_hosts c hs d1)) as (-> & _).
  destruct (drop_hosts_spec c hs d1) as (_ & _ & -> & _).
  rewrite HH, sync_lookup, Hh. by destruct (decide _).
Qed.

Lemma final_dpu c cp hs ds d1 hids i r (Hr : dpus d1 !! i = Some r) :
  exists r', dpus (join_hosts c cp hids (drop_dpus c ds (drop_hosts c hs d1))) !! i = Some r' /\
    (in_cluster c r = false -> r' = r) /\
    (i ∉ ds -> in_cluster c r' = false).
Proof.
  change (dpus (join_hosts c cp hids ?x)) with (dpus x).
  destruct (drop_dpus_spec c ds (drop_hosts c hs d1)) as (_ & _ & _ & E).
  destruct (drop_hosts_spec c hs d1) as (_ & _ & _ & D & _).
  assert (X : exists r1, dpus (drop_hosts c hs d1) !! i = Some r1 /\ (in_cluster c r = false -> r1 = r)).
  { destruct (D i r Hr) as [H|[T H]]; rewrite H; eexists; split; [done..|done|congruence]. }
  destruct X as (r1 & X & K). unfold join_hosts, with_hosts. cbn [dpus]. rewrite E, X.
  eexists. split; [done|]. split.
  - intros F. rewrite (K F), F. done.
  - intros NI. rewrite (bool_decide_eq_false_2 _ NI). destruct (in_cluster c r1) eqn:F; cbn; done.
Qed.

(** Everything a success of [assign_members] leaves. *)
Lemma assign_members_final c cp hs ds pool d d' m (I : bnk_inv d)
    (OK : assign_members c cp hs ds pool d = (d', Ok m)) :
  m_host_ids m = full_host_ids cp hs /\ bnk_inv d' /\
  configs d' = <[c := m_config m]> (configs d) /\ control_plane_host_id (m_config m) = Some cp /\
  (forall i h, hosts d !! i = Some h -> hosts d' !! i =
     Some (if bool_decide (i ∈ full_host_ids cp hs) then join_cluster c (i =? cp) h
           else if in_cluster_h c h then leave_cluster h else h)) /\
  (forall i, hosts d !! i = None -> hosts d' !! i = None) /\
  (forall i, i ∈ full_host_ids cp hs -> exists h, hosts d !! i = Some h /\ (h_cluster h = None \/ h_cluster h = Some c)) /\
  (forall i, i ∈ ds -> has_link c (dpus d' !! i)) /\
  (forall i r, i ∈ ds -> dpus d !! i = Some r -> d_cluster r = None \/ d_cluster r = Some c) /\
  (forall i, i ∉ ds -> match dpus d !! i with
     | Some r => exists r', dpus d' !! i = Some r' /\ (in_cluster c r = false -> r' = r) /\ in_cluster c r' = false
     | None => dpus d' !! i = None
     end).
Proof.
  destruct (assign_members_stages _ _ _ _ _ _ _ _ OK)
    as (project & d1 & hrows & drows & l & Eh & Ed & [u1 C1] & [u2 C2] & G & A & Em).
  subst hrows drows.
  destruct (request_rows _ _ _ _ _ _ _ _ C1) as (H1 & H2 & H3).
  destruct (request_rows _ _ _ _ _ _ _ _ C2) as (D1 & D2 & D3).
  destruct (get_or_create_Ok _ _ _ _ _ _ _ _ G) as (GD & _ & GC & GCP & _ & GH & _).
  specialize (GH cp eq_refl). specialize (GCP ltac:(done)).
  pose proof (inv_get_or_create _ _ _ _ _ _ _ _ I G) as I1.
  set (fh := full_host_ids cp hs) in *.
  set (hids := (requested project h_project fh (hosts d)).*1) in *.
  set (d3 := join_hosts c cp hids (drop_dpus c ds (drop_hosts c fh d1))) in *.
  assert (C3 : configs d3 = <[c := m_config m]> (configs d)).
  { unfold d3, join_hosts. cbn [with_hosts configs].
    destruct (drop_dpus_spec c ds (drop_hosts c fh d1)) as (_ & -> & _).
    destruct (drop_hosts_spec c fh d1) as (-> & _). done. }
  assert (F3 : forall i h, hosts d !! i = Some h -> hosts d3 !! i =
     Some (if bool_decide (i ∈ fh) then join_cluster c (i =? cp) h
           else if in_cluster_h c h then leave_cluster h else h))
    by (intros i h Hh; by apply (final_host c cp fh ds d)).
  assert (N3 : forall i, hosts d !! i = None -> hosts d3 !! i = None)
    by (intros i Hh; by apply (final_host_None c cp fh ds d)).
  assert (I3 : bnk_inv d3).
  { apply (inv_hosts (drop_dpus c ds (drop_hosts c fh d1))); try done.
    - by apply inv_drop_dpus, inv_drop_hosts.
    - intros i h' c' Hh' Hc'.
      destruct (drop_dpus_spec c ds (drop_hosts c fh d1)) as (_ & -> & _).
      destruct (drop_hosts_spec c fh d1) as (-> & _). rewrite GC.
      destruct (hosts d !! i) as [h|] eqn:Hh; [|by rewrite N3 in Hh'].
      rewrite (F3 i h Hh) in Hh'. injection Hh' as <-.
      destruct (bool_decide (i ∈ fh)).
      + cbn in Hc'. injection Hc' as <-. rewrite lookup_insert_eq. cbn. rewrite Z.eqb_eq.
        split; [intros ->; by exists (m_config m)|intros (? & [= <-] & ?); congruence].
      + destruct (in_cluster_h c h) eqn:E; [done|].
        assert (c' <> c) by (intros ->; by apply bool_decide_eq_false in E).
        rewrite lookup_insert_ne by done. by apply (inv_cp d I i h c'). }
  assert (R3 : forall i, i ∈ (requested project d_project ds (dpus d)).*1 -> is_Some (dpus d3 !! i)).
  { intros i Hi. apply D1 in Hi. destruct (D3 i Hi) as [r Hr].
    rewrite <- GD in Hr. destruct (final_dpu c cp fh ds d1 hids i r Hr) as (r' & E & _).
    exists r'. exact E. }
  destruct (assign_links_Ok _ _ _ _ _ _ _ (m_config m) I3 ltac:(by rewrite C3, lookup_insert_eq) R3 A)
    as (I4 & FH & FC & _ & _ & FO & FM & _).
  rewrite FH, FC, C3. split_and!; auto.
  - by rewrite Em.
  - intros i Hi. destruct (H3 i Hi) as [h Hh]. exists h. split; [done|]. by apply (H2 i).
  - intros i Hi. apply FM. by apply D1.
  - intros i NI. rewrite FO by (by rewrite D1).
    destruct (dpus d !! i) as [r|] eqn:Hr; rewrite <- GD in Hr.
    + destruct (final_dpu c cp fh ds d1 hids i r Hr) as (r' & E & K & L). exists r'. auto.
    + unfold d3, join_hosts. cbn [with_hosts dpus].
      destruct (drop_dpus_spec c ds (drop_hosts c fh d1)) as (_ & _ & _ & ->).
      destruct (drop_hosts_spec c fh d1) as (_ & _ & _ & _ & E). by rewrite E.
Qed.

(** C5. Membership is what was asked for.  When [assign_members] succeeds,
    the members of the cluster are exactly the requested hosts and the
    control-plane host, all of which exist; exactly that one is flagged
    control plane and named by the configuration; the DPUs of the cluster are
    exactly the requested ones, each with both addresses of its link; and no
    host or DPU of another cluster has changed. *)
Theorem assign_members_exact c cp hs ds pool d d' m (I : bnk_inv d)
    (OK : assign_members c cp hs ds pool d = (d', Ok m)) :
  (forall i, (exists h, hosts d' !! i = Some h /\ h_cluster h = Some c) <-> i ∈ hs \/ i = cp) /\
  (forall i h, hosts d' !! i = Some h -> h_cluster h = Some c -> (is_control_plane h = true <-> i = cp)) /\
  (control_plane_host_id <$> configs d' !! c) = Some (Some cp) /\
  (forall i, (exists r, dpus d' !! i = Some r /\ d_cluster r = Some c) <-> i ∈ ds) /\
  (forall i, i ∈ ds -> has_link c (dpus d' !! i)) /\
  (forall c' i h, c' <> c -> hosts d !! i = Some h -> h_cluster h = Some c' -> hosts d' !! i = Some h) /\
  (forall c' i r, c' <> c -> dpus d !! i = Some r -> d_cluster r = Some c' -> dpus d' !! i = Some r).
Proof.
  destruct (assign_members_final _ _ _ _ _ _ _ _ I OK)
    as (_ & I' & CF & CP & FH & FN & FM & DL & DM & DO).
  assert (HOST : forall i h', hosts d' !! i = Some h' -> h_cluster h' = Some c ->
    i ∈ full_host_ids cp hs /\ is_control_plane h' = (i =? cp)).
  { intros i h' Hh' Hc. destruct (hosts d !! i) as [h|] eqn:Hh; [|by rewrite FN in Hh'].
    rewrite (FH i h Hh) in Hh'. injection Hh' as <-.
    destruct (bool_decide (i ∈ full_host_ids cp hs)) eqn:B; [by apply bool_decide_eq_true in B|].
    destruct (in_cluster_h c h) eqn:E; [done|]. by apply bool_decide_eq_false in E. }
  split_and!; auto.
  - intros i. rewrite <- elem_of_full_host_ids. split.
    + intros (h & Hh & Hc). by destruct (HOST i h Hh Hc).
    + intros Hi. destruct (FM i Hi) as (h & Hh & _). rewrite (FH i h Hh), bool_decide_eq_true_2 by done.
      by eexists.
  - intros i h Hh Hc. destruct (HOST i h Hh Hc) as [_ ->]. by rewrite Z.eqb_eq.
  - rewrite CF, lookup_insert_eq. cbn. by rewrite CP.
  - intros i. split.
    + intros (r' & Hr' & Hc). apply dec_stable. intros NI. specialize (DO i NI).
      destruct (dpus d !! i) as [r|]; [|congruence].
      destruct DO as (r2 & E & _ & F). apply bool_decide_eq_false in F. congruence.
    + intros Hi. destruct (DL i Hi) as (r & Hr & Hc & _). by exists r.
  - intros c' i h NE Hh Hc. rewrite (FH i h Hh).
    destruct (bool_decide (i ∈ full_host_ids cp hs)) eqn:B.
    + apply bool_decide_eq_true in B. destruct (FM i B) as (h0 & Hh0 & [|]); congruence.
    + destruct (in_cluster_h c h) eqn:E; [|done]. apply bool_decide_eq_true in E. congruence.
  - intros c' i r NE Hr Hc. destruct (decide (i ∈ ds)) as [Hi|Hi].
    + destruct (DM i r Hi Hr); congruence.
    + specialize (DO i Hi). rewrite Hr in DO. destruct DO as (r' & -> & K & _).
      rewrite K; [done|]. apply bool_decide_eq_false. congruence.
Qed.

(** C34. The tables stay sound.  The invariant (stored pools have room for a
    link, every address of a cluster is a link of its configured pool, no two
    DPUs of a cluster share an address, the flags agree with the
    configuration) holds of empty tables and survives every success of
    [get_or_create_config], pool changes and control-plane moves included,
    of [assign_members] and every release. *)
Theorem bnk_inv_preserved :
  (forall k, bnk_inv {| clusters := k; hosts := ∅; dpus := ∅; configs := ∅ |}) /\
  (forall c pool tr cp m d d' cfg, bnk_inv d ->
     get_or_create_config c pool tr cp m d = (d', Ok cfg) -> bnk_inv d') /\
  (forall c cp hs ds pool d d' m, bnk_inv d ->
     assign_members c cp hs ds pool d = (d', Ok m) -> bnk_inv d') /\
  (forall i d, bnk_inv d -> bnk_inv (release_dpu_tmfifo i d)).
Proof.
  split_and!.
  - intros k. split; cbn; intros *; by rewrite lookup_empty.
  - intros *. apply inv_get_or_create.
  - intros * I OK. by destruct (assign_members_final _ _ _ _ _ _ _ _ I OK) as (_ & I' & _).
  - intros i d I. apply (inv_release d); try done. intros j r' H. cbn in H.
    destruct (decide (j = i)) as [->|NE].
    + rewrite lookup_alter_eq in H. destruct (dpus d !! i); [|done]. cbn in H. injection H as <-. by right.
    + rewrite lookup_alter_ne in H by done. by left.
Qed.

(** The 404 and 409 answers. *)
Definition is_guard (e : bnk_error) : bool :=
  match e with NotFoundError _ _ | ConflictError _ _ => true | _ => false end.

Lemma get_or_create_Err c pool tr cp m d d' e :
  get_or_create_config c pool tr cp m d = (d', Err e) -> d' = d.
Proof.
  unfold get_or_create_config. destruct (clusters d !! c); [|congruence].
  destruct (match cp with Some _ => _ | None => _ end) as [u|e0]; [|congruence].
  destruct (match configs d !! c with Some _ => _ | None => _ end) as [cfg|e0]; congruence.
Qed.

Lemma allocate_Err c d e : allocate_next_subnet c d = Err e -> is_guard e = false.
Proof. unfold allocate_next_subnet. intros H. repeat case_match; simplify_eq; done. Qed.

Lemma assign_links_Err start c ips ids d d' e :
  assign_links start c ips ids d = (d', Err e) -> is_guard e = false.
Proof.
  revert d. induction ids as [|i ids IH]; intros d; cbn; [done|].
  destruct (dpus d !! i) as [r|]; [|apply IH].
  destruct (_ && _); [by intros [= <- <-]|].
  destruct (assign_dpu_tmfifo start i r c d) as [d1 [a|e1]] eqn:A.
  - destruct (assign_links start c ips ids d1) as [d2 [l|e2]] eqn:L; [done|].
    intros [= <- <-]. by eapply IH.
  - intros [= <- <-]. unfold assign_dpu_tmfifo in A. destruct (_ && _).
    + by destruct (link_net _); simplify_eq.
    + destruct (allocate_next_subnet c d) eqn:E; [|simplify_eq; by eapply allocate_Err].
      destruct (index_violated _ _ _ _); by simplify_eq.
Qed.

(** Refusals come before any change.  Whenever [get_or_create_config]
    fails, and whenever [assign_members] answers 404 or 409 (a host or DPU
    that is missing, in another project, or bound to another cluster), no row
    has been touched; and [assign_members] refuses in this way exactly the
    requests whose cluster or hosts or DPUs are not all there and free, so
    that any other failure means every one of them was. *)
Theorem refusals_change_nothing c cp hs ds pool d :
  (forall tr mem cp' d' e, get_or_create_config c pool tr cp' mem d = (d', Err e) -> d' = d) /\
  (forall d' e, assign_members c cp hs ds pool d = (d', Err e) ->
     (is_guard e = true -> d' = d) /\
     (is_guard e = false ->
        exists project, clusters d !! c = Some project /\
          (forall i, i ∈ hs \/ i = cp -> exists h, hosts d !! i = Some h /\ h_project h = project /\
             (h_cluster h = None \/ h_cluster h = Some c)) /\
          (forall i, i ∈ ds -> exists r, dpus d !! i = Some r /\ d_project r = project /\
             (d_cluster r = None \/ d_cluster r = Some c)))).
Proof.
  split; [intros *; apply get_or_create_Err|]. intros d' e.
  unfold assign_members. destruct (clusters d !! c) as [project|] eqn:K; [|by intros [= <- <-]].
  fold (full_host_ids cp hs).
  destruct (check_cp _ _ _ _ _) as [u|e0] eqn:CP.
  2: { intros [= <- <-]. split; [done|]. unfold check_cp in CP.
       destruct (hosts d !! cp); [|by simplify_eq]. destruct (negb _); by simplify_eq. }
  assert (G : forall R kind (cl : R -> option Z) ids rows e1,
    check_request kind c cl ids rows = Err e1 -> is_guard e1 = true).
  { intros R kind cl ids rows e1. unfold check_request. by repeat case_match; intros [= <-]. }
  destruct (check_request "bare_metal_host" _ _ _ _) as [u1|e1] eqn:C1;
    [|intros [= <- <-]; split; [done|]; intros F; by rewrite (G _ _ _ _ _ _ C1) in F].
  destruct (check_request "dpu" _ _ _ _) as [u2|e2] eqn:C2;
    [|intros [= <- <-]; split; [done|]; intros F; by rewrite (G _ _ _ _ _ _ C2) in F].
  intros H. split.
  - destruct (get_or_create_config _ _ _ _ _ _) as [d1 [cfg|e3]] eqn:GC.
    + destruct (assign_links _ _ _ _ _) as [d4 [l|e4]] eqn:A; [done|].
      injection H as <- <-. intros F. by rewrite (assign_links_Err _ _ _ _ _ _ _ A) in F.
    + injection H as <- <-. intros _. by eapply get_or_create_Err.
  - intros _. exists project. split; [done|]. clear H.
    pose proof (request_rows _ _ _ _ _ _ _ _ C1) as (H1 & H2 & _).
    pose proof (request_rows _ _ _ _ _ _ _ _ C2) as (D1 & D2 & _).
    split.
    + intros i Hi. apply elem_of_full_host_ids in Hi.
      pose proof (proj2 (H1 i) Hi) as Q. unfold requested in Q. apply elem_of_select_ids in Q as (h & Hh & P).
      apply andb_true_iff in P as [_ P%Z.eqb_eq]. exists h. split_and!; auto. by apply (H2 i).
    + intros i Hi. pose proof (proj2 (D1 i) Hi) as Q. unfold requested in Q. apply elem_of_select_ids in Q as (r & Hr & P).
      apply andb_true_iff in P as [_ P%Z.eqb_eq]. exists r. split_and!; auto. by apply (D2 i).
Qed.

(** ** Bulk membership *)

Lemma select_ids_NoDup {R} (P : Z -> R -> bool) (t : gmap Z R) : NoDup (select P t).*1.
Proof.
  unfold select. pose proof (NoDup_set_iter (dom t)) as ND.
  induction (set_iter (dom t)) as [|i l IH]; [constructor|].
  apply NoDup_cons in ND as [N ND]. specialize (IH ND). cbn.
  destruct (t !! i) as [r|]; [destruct (P i r)|]; [|done..].
  cbn. apply NoDup_cons. split; [|done].
  intros ([j r'] & -> & I)%list_elem_of_fmap. cbn in N.
  apply list_elem_of_omap in I as (k & Hk & E). repeat case_match; by simplify_eq.
Qed.

Lemma sorted_ids_eq l l' : NoDup l -> NoDup l' -> (forall i, i ∈ l <-> i ∈ l') -> sorted_ids l = sorted_ids l'.
Proof.
  intros N N' E. unfold sorted_ids.
  assert (P : merge_sort Z.le l ≡ₚ merge_sort Z.le l') by (rewrite !merge_sort_Permutation; by apply NoDup_Permutation).
  apply (StronglySorted_unique Z.le); [..|done]; apply Sorted_StronglySorted;
    try apply Sorted_merge_sort; intros ?; intros; lia.
Qed.

Lemma dget_buckets (c : Z) ids :
  dget c (dict_of (map (fun c => (c, (@nil Z, @nil Z))) ids)) = if decide (c ∈ ids) then Some ([], []) else None.
Proof.
  induction ids as [|x ids IH] using rev_ind; [done|].
  rewrite map_app. cbn [map]. rewrite dict_of_snoc, dget_dset, IH. cbn [fst snd].
  destruct (decide (c = x)) as [->|N].
  - destruct (decide (x ∈ ids ++ [x])) as [_|J]; [done|]. destruct J. apply elem_of_app. right. left.
  - destruct (decide (c ∈ ids)) as [I|I], (decide (c ∈ ids ++ [x])) as [J|J]; try done.
    + destruct J. apply elem_of_app. by left.
    + apply elem_of_app in J as [?|?%list_elem_of_singleton]; done.
Qed.

Lemma dget_bucket add rows (c : Z) b :
  dget c (foldl (bucket add) b rows) =
  (fun v => foldr (fun row v => add row.1 v) v (reverse (filter (fun row => row.2 = c) rows))) <$> dget c b.
Proof.
  induction rows as [|row rows IH] using rev_ind; cbn.
  - by destruct (dget c b).
  - rewrite foldl_snoc, filter_app, filter_cons, filter_nil, reverse_app. unfold bucket at 1.
    destruct (decide (row.2 = c)) as [E|N].
    + rewrite E, IH. destruct (dget c b) as [v|] eqn:B; cbn; [|by rewrite ?IH, ?B].
      by rewrite dget_dset, decide_True.
    + change (reverse []) with (@nil (Z * Z)). cbn [app]. rewrite <- IH.
      destruct (dget row.2 (foldl (bucket add) b rows)); [|done].
      rewrite dget_dset, decide_False by congruence. done.
Qed.

Lemma fold_add1 rows v :
  foldr (fun (row : Z * Z) (v : list Z * list Z) => (v.1 ++ [row.1], v.2)) v (reverse rows) = (v.1 ++ rows.*1, v.2).
Proof.
  induction rows as [|r rows IH] using rev_ind; cbn; [by rewrite app_nil_r; destruct v|].
  rewrite reverse_snoc. cbn. rewrite IH. cbn. by rewrite fmap_app, app_assoc.
Qed.
Lemma fold_add2 rows v :
  foldr (fun (row : Z * Z) (v : list Z * list Z) => (v.1, v.2 ++ [row.1])) v (reverse rows) = (v.1, v.2 ++ rows.*1).
Proof.
  induction rows as [|r rows IH] using rev_ind; cbn; [by rewrite app_nil_r; destruct v|].
  rewrite reverse_snoc. cbn. rewrite IH. cbn. by rewrite fmap_app, app_assoc.
Qed.

(** The ids of the rows of cluster [c] among those selected for the bulk. *)
Lemma bulk_rows {R} (cl : R -> option Z) (ids : list Z) c (t : gmap Z R) (I : c ∈ ids) :
  sorted_ids (filter (fun row : Z * Z => row.2 = c)
    (map (fun ir : Z * R => (ir.1, default 0 (cl ir.2)))
       (select (fun _ r => match cl r with Some c => bool_decide (c ∈ ids) | None => false end) t))).*1 =
  sorted_ids (select (fun _ r => bool_decide (cl r = Some c)) t).*1.
Proof.
  set (l := select (fun _ r => match cl r with Some c => _ | None => false end) t).
  assert (E : forall l : list (Z * R), exists l', sublist l' l.*1 /\
    (filter (fun row : Z * Z => row.2 = c) (map (fun ir : Z * R => (ir.1, default 0 (cl ir.2))) l)).*1 = l').
  { clear. induction l as [|[i r] l (l' & S & E)]; [by exists []|]. cbn [map].
    rewrite filter_cons. destruct (decide _).
    - exists (i :: l'). split; [by constructor|]. cbn. by rewrite <- E.
    - exists l'. split; [by constructor|done]. }
  apply sorted_ids_eq; [|apply select_ids_NoDup|].
  - destruct (E l) as (l' & S & ->). eapply sublist_NoDup; [|done]. apply select_ids_NoDup.
  - intros i. rewrite elem_of_select_ids, list_elem_of_fmap. split.
    + intros ([j x] & -> & F). apply list_elem_of_filter in F as [Ex F]. cbn in Ex. subst x.
      apply list_elem_of_In, in_map_iff in F as ([k r] & [= <- Ec] & F).
      apply list_elem_of_In, elem_of_select in F as [Hr P]. exists r. split; [done|].
      apply bool_decide_eq_true. destruct (cl r); [cbn in Ec; congruence|done].
    + intros (r & Hr & P). apply bool_decide_eq_true in P. exists (i, c). split; [done|].
      apply list_elem_of_filter. split; [done|]. apply list_elem_of_In, in_map_iff. exists (i, r).
      cbn. rewrite P. split; [done|]. apply list_elem_of_In, elem_of_select. split; [done|].
      rewrite P. by apply bool_decide_eq_true.
Qed.

(** The bulk query is the single one.  [bulk_cluster_membership] answers,
    for each cluster asked for (repetitions and clusters without members
    included) and for no other, what [cluster_membership] answers for it, in
    whatever order the database returns its rows. *)
Theorem bulk_membership_correct ids d c :
  dget c (bulk_cluster_membership ids d) =
  if decide (c ∈ ids) then Some (cluster_membership c d) else None.
Proof.
  unfold bulk_cluster_membership.
  assert (M : forall b : list (Z * (list Z * list Z)),
    dget c (map (fun cv => (cv.1, (sorted_ids cv.2.1, sorted_ids cv.2.2))) b) =
    (fun v => (sorted_ids v.1, sorted_ids v.2)) <$> dget c b).
  { induction b as [|[k v] b IH]; [done|]. cbn. by destruct (decide (c = k)). }
  rewrite M, !dget_bucket, dget_buckets.
  destruct (decide (c ∈ ids)) as [I|]; [|done]. cbn [fmap option_fmap option_map].
  rewrite fold_add1, fold_add2. cbn. unfold cluster_membership. f_equal. f_equal.
  - by apply (bulk_rows h_cluster).
  - by apply (bulk_rows d_cluster).
Qed.
End service.

(** ** A concrete cluster *)

Definition rack_host (ip : string) : host_row :=
  {| h_project := 1; h_ip := ip; h_cluster := None; is_control_plane := false |}.
Definition rack_dpu (ip : string) : dpu_row :=
  {| d_project := 1; host_node_ip := Some ip; d_cluster := None; host_tmfifo_ip := None; dpu_tmfifo_ip := None |}.
Definition rack : db :=
  {| clusters := {[ 7 := 1 ]};
     hosts := {[ 1 := rack_host "10.0.0.1"; 2 := rack_host "10.0.0.2" ]};
     dpus := {[ 11 := rack_dpu "10.0.0.1"; 12 := rack_dpu "10.0.0.2" ]};
     configs := ∅ |}.

Lemma rack_inv : bnk_inv rack.
Proof.
  assert (D : forall i r, dpus rack !! i = Some r -> d_cluster r = None).
  { intros i r. cbn. rewrite lookup_insert_Some, lookup_singleton_Some. naive_solver. }
  assert (H : forall i h, hosts rack !! i = Some h -> h_cluster h = None).
  { intros i r. cbn. rewrite lookup_insert_Some, lookup_singleton_Some. naive_solver. }
  split.
  - intros c cfg. cbn. by rewrite lookup_empty.
  - intros i r c Hr Hc. by rewrite (D i r Hr) in Hc.
  - intros i j r r' c Hr _ Hc. by rewrite (D i r Hr) in Hc.
  - intros i h c Hh Hc. by rewrite (H i h Hh) in Hc.
Qed.

Definition rack_call : db * result bnk_error members :=
  @assign_members elements_order 7 1 [2] [11; 12] (Some "10.9.0.0/24") rack.

Lemma assign_members_exact_witness :
  is_Ok rack_call.2 = true /\
  (forall i, (exists r, dpus rack_call.1 !! i = Some r /\ d_cluster r = Some 7) <-> i ∈ [11; 12]) /\
  (dpu_tmfifo_ip <$> dpus rack_call.1 !! 12) = Some (Some "10.9.0.6").
Proof.
  split; [vm_compute; reflexivity|]. split; [|vm_compute; reflexivity].
  destruct rack_call as [d' [m|e]] eqn:E.
  - apply (@assign_members_exact elements_order 7 1 [2] [11; 12] (Some "10.9.0.0/24") rack d' m).
    + exact rack_inv.
    + exact E.
  - exfalso. assert (X : is_Ok rack_call.2 = true) by (vm_compute; reflexivity).
    rewrite E in X. discriminate X.
Defined.

Lemma bnk_inv_preserved_witness : bnk_inv rack_call.1.
Proof.
  destruct rack_call as [d' [m|e]] eqn:E.
  - apply (@bnk_inv_preserved elements_order) with (c := 7) (cp := 1) (hs := [2]) (ds := [11; 12])
      (pool := Some "10.9.0.0/24") (d := rack) (m := m).
    + exact rack_inv.
    + exact E.
  - exfalso. assert (X : is_Ok rack_call.2 = true) by (vm_compute; reflexivity).
    rewrite E in X. discriminate X.
Defined.

Lemma refusals_change_nothing_witness :
  (@assign_members elements_order 7 1 [2; 3] [11] None rack).1 = rack.
Proof.
  destruct (@assign_members elements_order 7 1 [2; 3] [11] None rack) as [d' r] eqn:E.
  assert (X : (@assign_members elements_order 7 1 [2; 3] [11] None rack).2 =
              Err (NotFoundError "bare_metal_host" [3])) by (vm_compute; reflexivity).
  rewrite E in X. cbn in X. subst r.
  destruct (@refusals_change_nothing elements_order 7 1 [2; 3] [11] None rack) as [_ H].
  apply (H d' (NotFoundError "bare_metal_host" [3]) E). reflexivity.
Defined.
