(* ===== verification/BareMetal.v ===== *)
(** * Bare-metal deployments (services/bare_metal/orchestrator.py)

    The step registries, and [BareMetalDeploymentService] on the tables it
    reads and writes.  The dispatcher of a step is the argument [exec] of
    [execute_deployment]: what the step returned or the text of the exception
    it raised ([_execute_step] is the source's own, a placeholder that always
    succeeds).  Other sessions' writes between the commits of an execution,
    and the Celery calls, are not modelled. *)

From S2P Require Import Prelude.

#[local] Open Scope string_scope.
#[local] Open Scope list_scope.
#[local] Open Scope Z_scope.

Inductive DeploymentPhase := PHASE_1_DPU | PHASE_2_K8S | PHASE_3_JOIN | PHASE_4_PLATFORM.
#[global] Instance DeploymentPhase_eq_dec : EqDecision DeploymentPhase.
Proof. solve_decision. Defined.
Definition phase_value (p : DeploymentPhase) : string :=
  match p with
  | PHASE_1_DPU => "phase_1_dpu" | PHASE_2_K8S => "phase_2_k8s"
  | PHASE_3_JOIN => "phase_3_join" | PHASE_4_PLATFORM => "phase_4_platform"
  end.

Inductive BareMetalDeploymentStatus :=
| D_PENDING | D_DISCOVERING | D_PLANNING | D_IN_PROGRESS | D_PAUSED
| D_COMPLETED | D_FAILED | D_CANCELLED.
#[global] Instance BareMetalDeploymentStatus_eq_dec : EqDecision BareMetalDeploymentStatus.
Proof. solve_decision. Defined.
Definition terminal (s : BareMetalDeploymentStatus) : bool :=
  match s with D_COMPLETED | D_FAILED | D_CANCELLED => true | _ => false end.

Inductive DeploymentStepStatus := S_PENDING | S_RUNNING | S_COMPLETED | S_FAILED | S_SKIPPED.
#[global] Instance DeploymentStepStatus_eq_dec : EqDecision DeploymentStepStatus.
Proof. solve_decision. Defined.

Record StepDefinition := {
  sd_phase : DeploymentPhase;
  sd_name : string;
  sd_description : string;
  sd_connectivity_risk : bool;
  sd_connectivity_mechanism : option string;
  estimated_duration_seconds : Z;
  prerequisites : list string;
  idempotent : bool
}.
Definition mk_step p n d r m t pre i : StepDefinition :=
  {| sd_phase := p; sd_name := n; sd_description := d; sd_connectivity_risk := r;
     sd_connectivity_mechanism := m; estimated_duration_seconds := t;
     prerequisites := pre; idempotent := i |}.

(** ** Step registries *)

Definition REGULAR_STEPS : list StepDefinition := [
  mk_step PHASE_1_DPU "probe_dpu_state" "Probe DPU current state"
    false None 30 [] true;
  mk_step PHASE_1_DPU "flash_dpu" "Flash DPU with BFB image"
    false None 600 ["probe_dpu_state"] false;
  mk_step PHASE_1_DPU "wait_dpu_ready" "Wait for DPU to become SSH-reachable"
    false None 300 ["flash_dpu"] true;
  mk_step PHASE_1_DPU "install_dpu_prereqs" "Install containerd, runc, kubeadm on DPU"
    false None 120 ["wait_dpu_ready"] true;
  mk_step PHASE_2_K8S "install_k8s_prereqs" "Install kubeadm, kubelet, kubectl on host"
    false None 120 [] true;
  mk_step PHASE_2_K8S "kubeadm_init" "Initialize K8s control plane"
    false None 180 ["install_k8s_prereqs"] false;
  mk_step PHASE_2_K8S "install_cni" "Install Calico CNI"
    false None 60 ["kubeadm_init"] true;
  mk_step PHASE_2_K8S "install_cert_manager" "Install cert-manager"
    false None 60 ["kubeadm_init"] true;
  mk_step PHASE_2_K8S "install_sriov" "Install SR-IOV network operator"
    false None 60 ["kubeadm_init"] true;
  mk_step PHASE_2_K8S "install_multus" "Install Multus CNI"
    false None 60 ["kubeadm_init"] true;
  mk_step PHASE_2_K8S "install_storage" "Install storage provisioner"
    false None 60 ["kubeadm_init"] true;
  mk_step PHASE_3_JOIN "kubeadm_join" "Join DPU node to cluster"
    false None 120 ["install_k8s_prereqs"] false;
  mk_step PHASE_3_JOIN "label_dpu_node" "Label DPU node (app=f5-tmm)"
    false None 10 ["kubeadm_join"] true;
  mk_step PHASE_3_JOIN "taint_dpu_node" "Taint DPU node (dpu=true:NoSchedule)"
    false None 10 ["kubeadm_join"] true;
  mk_step PHASE_4_PLATFORM "install_flo" "Install FLO via Helm"
    false None 180 ["kubeadm_join"] true;
  mk_step PHASE_4_PLATFORM "deploy_bnk_cr" "Deploy BNK CR (CNEInstance)"
    false None 120 ["install_flo"] true;
  mk_step PHASE_4_PLATFORM "install_cwc_certs" "Install CWC certificates"
    false None 30 ["deploy_bnk_cr"] true;
  mk_step PHASE_4_PLATFORM "install_otel_certs" "Install OTEL certificates"
    false None 30 ["deploy_bnk_cr"] true;
  mk_step PHASE_4_PLATFORM "deploy_observability" "Deploy observability stack"
    false None 120 ["deploy_bnk_cr"] true
].

Definition _SHARED_PHASE_2_4 : list StepDefinition := drop 4 REGULAR_STEPS.

Definition BF3_STEPS : list StepDefinition := [
  mk_step PHASE_1_DPU "probe_dpu_state" "Probe DPU current state"
    false None 30 [] true;
  mk_step PHASE_1_DPU "stage_vf_netplan" "Pre-stage VF netplan config"
    false None 30 ["probe_dpu_state"] true;
  mk_step PHASE_1_DPU "install_fallback_timer" "Install connectivity fallback timer"
    false None 30 ["probe_dpu_state"] true;
  mk_step PHASE_1_DPU "flash_dpu" "Flash DPU with BFB image (mode change via bfb_post_install)"
    true (Some "pre_staged_netplan") 600 ["probe_dpu_state"] false;
  mk_step PHASE_1_DPU "wait_connectivity_restore" "Wait for host connectivity via VF"
    false None 300 ["flash_dpu"] true;
  mk_step PHASE_1_DPU "install_dpu_prereqs" "Install containerd, runc, kubeadm on DPU"
    false None 120 ["wait_connectivity_restore"] true
] ++ _SHARED_PHASE_2_4.

Definition BF3_IPMI_STEPS : list StepDefinition := [
  mk_step PHASE_1_DPU "probe_dpu_state" "Probe DPU current state"
    false None 30 [] true;
  mk_step PHASE_1_DPU "set_nic_mode_mlxconfig" "Set NIC mode via mlxconfig"
    false None 30 ["probe_dpu_state"] true;
  mk_step PHASE_1_DPU "deposit_phase_c" "Deposit Phase C bootstrap service"
    false None 60 ["set_nic_mode_mlxconfig"] true;
  mk_step PHASE_1_DPU "ipmi_power_cycle" "IPMI cold boot"
    true (Some "phase_c_bootstrap") 120 ["deposit_phase_c"] false;
  mk_step PHASE_1_DPU "wait_connectivity_restore" "Wait for host connectivity via VF"
    false None 300 ["ipmi_power_cycle"] true;
  mk_step PHASE_1_DPU "flash_dpu" "Flash DPU with BFB image"
    true (Some "post_flash_watcher") 600 ["wait_connectivity_restore"] false;
  mk_step PHASE_1_DPU "wait_dpu_ready" "Wait for DPU to become SSH-reachable"
    false None 300 ["flash_dpu"] true;
  mk_step PHASE_1_DPU "install_dpu_prereqs" "Install containerd, runc, kubeadm on DPU"
    false None 120 ["wait_dpu_ready"] true
] ++ _SHARED_PHASE_2_4.

Definition BMC_STEPS : list StepDefinition := [
  mk_step PHASE_1_DPU "probe_dpu_state" "Probe DPU current state"
    false None 30 [] true;
  mk_step PHASE_1_DPU "set_nic_mode_redfish" "Set NIC mode via Redfish BIOS attribute"
    false None 30 ["probe_dpu_state"] true;
  mk_step PHASE_1_DPU "deposit_phase_c" "Deposit Phase C bootstrap service"
    false None 60 ["set_nic_mode_redfish"] true;
  mk_step PHASE_1_DPU "redfish_cold_boot" "Redfish cold boot (GracefulShutdown → On)"
    true (Some "phase_c_bootstrap") 120 ["deposit_phase_c"] false;
  mk_step PHASE_1_DPU "wait_connectivity_restore" "Wait for host connectivity via VF"
    false None 300 ["redfish_cold_boot"] true;
  mk_step PHASE_1_DPU "flash_dpu" "Flash DPU with BFB image"
    true (Some "post_flash_watcher") 600 ["wait_connectivity_restore"] false;
  mk_step PHASE_1_DPU "wait_dpu_ready" "Wait for DPU to become SSH-reachable"
    false None 300 ["flash_dpu"] true;
  mk_step PHASE_1_DPU "install_dpu_prereqs" "Install containerd, runc, kubeadm on DPU"
    false None 120 ["wait_dpu_ready"] true
] ++ _SHARED_PHASE_2_4.

Definition DUAL_DPU_OBMC_STEPS : list StepDefinition := [
  mk_step PHASE_1_DPU "probe_dpu_state" "Probe DPU current state (multi-DPU + BMC rshim)"
    false None 45 [] true;
  mk_step PHASE_1_DPU "flash_dpu" "Flash DPU via BMC rshim (SFTP to /dev/rshim0/boot)"
    false None 600 ["probe_dpu_state"] false;
  mk_step PHASE_1_DPU "wait_dpu_ready" "Wait for DPU reachable via IPv6 link-local on host PF"
    false None 300 ["flash_dpu"] true;
  mk_step PHASE_1_DPU "setup_dpu_networking" "Configure DPU internet access via IPv6 link-local NAT through host"
    false None 30 ["wait_dpu_ready"] true;
  mk_step PHASE_1_DPU "install_dpu_prereqs" "Install containerd, runc, kubeadm on DPU"
    false None 120 ["setup_dpu_networking"] true
] ++ _SHARED_PHASE_2_4.

Definition TOPOLOGY_STEPS : list (string * list StepDefinition) :=
  [("regular", REGULAR_STEPS); ("bf3", BF3_STEPS); ("bf3_ipmi", BF3_IPMI_STEPS);
   ("bmc", BMC_STEPS); ("dual_dpu_obmc", DUAL_DPU_OBMC_STEPS)].

Definition get_steps_for_topology (topology : string) : option (list StepDefinition) :=
  dget topology TOPOLOGY_STEPS.

(** ** Tables *)

Record bm_host := {
  bh_project : Z;
  topology : option string;
  bmc_ip : option string;
  deploy_dpu_pci_address : option string;
  rshim_present : option bool;
  k8s_info : json;
  bh_cluster : option Z;
  version_profile_id : option Z
}.

(** A release row; [r_manifest] stands for the columns that are only copied. *)
Record release := { r_id : Z; r_name : string; is_active : bool; is_default : bool; r_manifest : json }.

Record step := {
  step_index : Z;
  s_phase : string;
  s_name : string;
  s_description : string;
  s_status : DeploymentStepStatus;
  s_connectivity_risk : bool;
  s_connectivity_mechanism : option string;
  already_done : bool;
  s_started_at : option Z;
  s_completed_at : option Z;
  s_error_message : option string;
  exit_code : option Z;
  output_log : option string
}.

Record deployment := {
  d_host_id : Z;
  d_project_id : Z;
  d_topology : string;
  d_status : BareMetalDeploymentStatus;
  version_profile_snapshot : option release;
  deployable_release_id : option Z;
  resume_from_step : option Z;
  triggered_by : string;
  selected_phases : option (list string);
  selected_steps : option (list string);
  current_step_index : Z;
  current_phase : option string;
  d_error_message : option string;
  error_phase : option string;
  error_step_index : option Z;
  d_started_at : option Z;
  d_completed_at : option Z;
  steps : list step
}.

Record tables := {
  bm_hosts : gmap Z bm_host;
  releases : list release;
  deployments : gmap Z deployment;
  next_deployment : Z
}.

Inductive bm_error :=
| BMNotFound (kind : string) (ids : list Z)
| BMBadRequest (why : string) (id : Z)
| BMValueError
| BMStepFailed (msg : string).

Definition set_deployments (f : gmap Z deployment -> gmap Z deployment) (t : tables) : tables :=
  {| bm_hosts := bm_hosts t; releases := releases t; deployments := f (deployments t);
     next_deployment := next_deployment t |}.

(** ** Creation *)

Definition _get_host_for_project (host_id project_id : Z) (t : tables) : result bm_error bm_host :=
  match bm_hosts t !! host_id with
  | Some h => if bh_project h =? project_id then Ok h else Err (BMNotFound "BareMetalHost" [host_id])
  | None => Err (BMNotFound "BareMetalHost" [host_id])
  end.

Definition _validate_topology_prerequisites (host_id : Z) (h : bm_host) : result bm_error unit :=
  if bool_decide (topology h = Some "dual_dpu_obmc") &&
     negb (truthy_str (bmc_ip h) && truthy_str (deploy_dpu_pci_address h))
  then Err (BMBadRequest "dual_dpu_obmc deployment requires bmc_ip and deploy_dpu_pci_address" host_id)
  else Ok tt.

Definition _determine_selected_steps (defs : list StepDefinition)
    (phases names : option (list string)) : list string :=
  match names, phases with
  | Some l, _ => l
  | None, Some ps => map sd_name (filter (fun s => phase_value (sd_phase s) ∈ ps) defs)
  | None, None => map sd_name defs
  end.

Definition _resolve_deployable_release (id : option Z) (t : tables) : result bm_error release :=
  match id with
  | Some i =>
      match list_find (fun r => r_id r = i) (releases t) with
      | Some (_, r) => if is_active r then Ok r else Err (BMBadRequest "BNK release is not active" i)
      | None => Err (BMNotFound "BnkDeployableRelease" [i])
      end
  | None =>
      match list_find (fun r => is_default r = true) (releases t) with
      | Some (_, r) => Ok r
      | None => Err (BMBadRequest "no default BNK release configured" 0)
      end
  end.

(** The active deployments of the hosts asked about. *)
Definition active_on (ids : list Z) (t : tables) : list (Z * deployment) :=
  filter (fun kd => d_host_id kd.2 ∈ ids /\ terminal (d_status kd.2) = false)
    (map_to_list (deployments t)).

Definition new_step (selected : list string) (idx : nat) (s : StepDefinition) : step :=
  {| step_index := Z.of_nat idx; s_phase := phase_value (sd_phase s); s_name := sd_name s;
     s_description := sd_description s;
     s_status := if bool_decide (sd_name s ∈ selected) then S_PENDING else S_SKIPPED;
     s_connectivity_risk := sd_connectivity_risk s;
     s_connectivity_mechanism := sd_connectivity_mechanism s;
     already_done := false; s_started_at := None; s_completed_at := None;
     s_error_message := None; exit_code := None; output_log := None |}.

Definition stamp_release (r : release) (h : bm_host) : bm_host :=
  {| bh_project := bh_project h; topology := topology h; bmc_ip := bmc_ip h;
     deploy_dpu_pci_address := deploy_dpu_pci_address h; rshim_present := rshim_present h;
     k8s_info := k8s_info h; bh_cluster := bh_cluster h; version_profile_id := Some (r_id r) |}.

Record create_request := {
  c_host_id : Z;
  c_project_id : Z;
  worker_host_ids : list Z;
  c_resume_from_step : option Z;
  c_triggered_by : string;
  c_selected_phases : option (list string);
  c_selected_steps : option (list string);
  c_release_id : option Z
}.

Definition create_deployment (q : create_request) (t : tables) : tables * result bm_error Z :=
  match _get_host_for_project (c_host_id q) (c_project_id q) t with
  | Err e => (t, Err e)
  | Ok h =>
      if negb (truthy_str (topology h)) then (t, Err (BMBadRequest "Host topology not set" (c_host_id q)))
      else
      match _validate_topology_prerequisites (c_host_id q) h with
      | Err e => (t, Err e)
      | Ok _ =>
          let missing := filter (fun i => is_Ok (_get_host_for_project i (c_project_id q) t) = false)
                           (remove_dups (worker_host_ids q)) in
          if negb (bool_decide (missing = [])) then (t, Err (BMNotFound "BareMetalHost" (merge_sort Z.le missing)))
          else
          match active_on (c_host_id q :: worker_host_ids q) t with
          | (_, d) :: _ => (t, Err (BMBadRequest "Host already has an active deployment" (d_host_id d)))
          | [] =>
              match get_steps_for_topology (default "" (topology h)) with
              | None => (t, Err BMValueError)
              | Some defs =>
                  let selected := _determine_selected_steps defs (c_selected_phases q) (c_selected_steps q) in
                  match _resolve_deployable_release (c_release_id q) t with
                  | Err e => (t, Err e)
                  | Ok r =>
                      let d :=
                        {| d_host_id := c_host_id q; d_project_id := c_project_id q;
                           d_topology := default "" (topology h); d_status := D_PENDING;
                           version_profile_snapshot := Some r; deployable_release_id := Some (r_id r);
                           resume_from_step := c_resume_from_step q; triggered_by := c_triggered_by q;
                           selected_phases := c_selected_phases q; selected_steps := c_selected_steps q;
                           current_step_index := 0; current_phase := None; d_error_message := None;
                           error_phase := None; error_step_index := None; d_started_at := None;
                           d_completed_at := None; steps := imap (new_step selected) defs |} in
                      ({| bm_hosts := alter (stamp_release r) (c_host_id q) (bm_hosts t);
                          releases := releases t;
                          deployments := <[next_deployment t := d]> (deployments t);
                          next_deployment := next_deployment t + 1 |},
                       Ok (next_deployment t))
                  end
              end
          end
      end
  end.

(** ** Preview *)

Definition _validate_phase_prerequisites (h : bm_host) (phases : option (list string)) : list string :=
  match phases with
  | None | Some [] => []
  | Some ps =>
      let has p := bool_decide (p ∈ ps) in
      let running := match k8s_info h with JObj fs => truthy (default JNull (dget "running" fs)) | _ => false end in
      (if has "phase_2_k8s" && negb (has "phase_1_dpu") && bool_decide (rshim_present h = Some false)
       then ["Phase 2 selected without Phase 1, but no DPU detected (rshim not present)"] else []) ++
      (if has "phase_3_join" && negb (has "phase_2_k8s") && negb running
       then ["Phase 3 selected without Phase 2, but K8s is not running on host"] else []) ++
      (if has "phase_4_platform" && negb (has "phase_3_join") &&
          negb (match bh_cluster h with Some c => negb (c =? 0) | None => false end)
       then ["Phase 4 selected without Phase 3, but no K8s cluster is linked to this host"] else [])
  end.

Record plan_step := { pv_index : Z; pv_def : StepDefinition; pv_selected : bool }.
Record plan := {
  p_topology : string;
  total_steps : Z;
  n_selected : Z;
  total_duration : Z;
  p_steps : list plan_step;
  prerequisite_warnings : list string
}.

Definition preview_deployment (host_id project_id : Z) (phases names : option (list string)) (t : tables)
  : result bm_error plan :=
  match _get_host_for_project host_id project_id t with
  | Err e => Err e
  | Ok h =>
      if negb (truthy_str (topology h)) then Err (BMBadRequest "Host topology not set" host_id) else
      match get_steps_for_topology (default "" (topology h)) with
      | None => Err BMValueError
      | Some defs =>
          let selected := _determine_selected_steps defs phases names in
          let pick := filter (fun s => sd_name s ∈ selected) defs in
          Ok {| p_topology := default "" (topology h);
                total_steps := Z.of_nat (length defs);
                n_selected := Z.of_nat (length pick);
                total_duration := foldr Z.add 0 (map estimated_duration_seconds pick);
                p_steps := imap (fun i s => {| pv_index := Z.of_nat i; pv_def := s;
                                               pv_selected := bool_decide (sd_name s ∈ selected) |}) defs;
                prerequisite_warnings := _validate_phase_prerequisites h phases |}
      end
  end.

(** ** Execution *)

(** What a dispatched step returns. *)
Record step_result := { skipped : bool; r_exit_code : option Z; r_output : option string }.

(** The clock of one execution: its readings at the start, around each step
    and at the end. *)
Record clock := { t_begin : Z; t_step_start : Z -> Z; t_step_end : Z -> Z; t_finish : Z }.

Definition start_step (now : Z) (s : step) : step :=
  {| step_index := step_index s; s_phase := s_phase s; s_name := s_name s;
     s_description := s_description s; s_status := S_RUNNING;
     s_connectivity_risk := s_connectivity_risk s; s_connectivity_mechanism := s_connectivity_mechanism s;
     already_done := already_done s; s_started_at := Some now; s_completed_at := s_completed_at s;
     s_error_message := s_error_message s; exit_code := exit_code s; output_log := output_log s |}.

Definition finish_step (now : Z) (r : step_result) (s : step) : step :=
  {| step_index := step_index s; s_phase := s_phase s; s_name := s_name s;
     s_description := s_description s;
     s_status := if skipped r then S_SKIPPED else S_COMPLETED;
     s_connectivity_risk := s_connectivity_risk s; s_connectivity_mechanism := s_connectivity_mechanism s;
     already_done := if skipped r then true else already_done s;
     s_started_at := s_started_at s; s_completed_at := Some now;
     s_error_message := s_error_message s;
     exit_code := if skipped r then exit_code s else Some (default 0 (r_exit_code r));
     output_log := if skipped r then output_log s else Some (default "" (r_output r)) |}.

Definition fail_step (now : Z) (msg : string) (s : step) : step :=
  {| step_index := step_index s; s_phase := s_phase s; s_name := s_name s;
     s_description := s_description s; s_status := S_FAILED;
     s_connectivity_risk := s_connectivity_risk s; s_connectivity_mechanism := s_connectivity_mechanism s;
     already_done := already_done s; s_started_at := s_started_at s; s_completed_at := Some now;
     s_error_message := Some msg; exit_code := exit_code s; output_log := output_log s |}.

(** The columns an execution writes on the deployment row. *)
Definition progress (status : BareMetalDeploymentStatus) (idx : Z) (phase : option string)
    (err : option (string * string * Z)) (completed : option Z) (d : deployment) : deployment :=
  {| d_host_id := d_host_id d; d_project_id := d_project_id d; d_topology := d_topology d;
     d_status := status; version_profile_snapshot := version_profile_snapshot d;
     deployable_release_id := deployable_release_id d; resume_from_step := resume_from_step d;
     triggered_by := triggered_by d; selected_phases := selected_phases d;
     selected_steps := selected_steps d; current_step_index := idx; current_phase := phase;
     d_error_message := match err with Some (m, _, _) => Some m | None => d_error_message d end;
     error_phase := match err with Some (_, p, _) => Some p | None => error_phase d end;
     error_step_index := match err with Some (_, _, i) => Some i | None => error_step_index d end;
     d_started_at := d_started_at d;
     d_completed_at := match completed with Some t => Some t | None => d_completed_at d end;
     steps := steps d |}.

Definition begin_execution (now : Z) (d : deployment) : deployment :=
  {| d_host_id := d_host_id d; d_project_id := d_project_id d; d_topology := d_topology d;
     d_status := D_IN_PROGRESS; version_profile_snapshot := version_profile_snapshot d;
     deployable_release_id := deployable_release_id d; resume_from_step := resume_from_step d;
     triggered_by := triggered_by d; selected_phases := selected_phases d;
     selected_steps := selected_steps d; current_step_index := current_step_index d;
     current_phase := current_phase d; d_error_message := d_error_message d;
     error_phase := error_phase d; error_step_index := error_step_index d;
     d_started_at := Some now; d_completed_at := d_completed_at d; steps := steps d |}.

Definition with_steps (l : list step) (d : deployment) : deployment :=
  {| d_host_id := d_host_id d; d_project_id := d_project_id d; d_topology := d_topology d;
     d_status := d_status d; version_profile_snapshot := version_profile_snapshot d;
     deployable_release_id := deployable_release_id d; resume_from_step := resume_from_step d;
     triggered_by := triggered_by d; selected_phases := selected_phases d;
     selected_steps := selected_steps d; current_step_index := current_step_index d;
     current_phase := current_phase d; d_error_message := d_error_message d;
     error_phase := error_phase d; error_step_index := error_step_index d;
     d_started_at := d_started_at d; d_completed_at := d_completed_at d; steps := l |}.

(** [l[start:]] and what it leaves out; a negative start counts from the end. *)
Definition slice_at {A} (start : Z) (l : list A) : nat :=
  if start <? 0 then Z.to_nat (Z.of_nat (length l) + start) else Z.to_nat start.

(** [sorted(deployment.steps, key=lambda s: s.step_index)] *)
Definition idx_le (a b : step) : Prop := step_index a <= step_index b.
#[global] Instance idx_le_dec a b : Decision (idx_le a b).
Proof. unfold idx_le. apply _. Defined.
#[global] Instance idx_le_trans : Transitive idx_le.
Proof. unfold idx_le. intros a b c; lia. Qed.
#[global] Instance idx_le_total : Total idx_le.
Proof. unfold idx_le. intros a b; lia. Qed.
Definition by_index : list step -> list step := merge_sort idx_le.

Section execute.
Context (exec : deployment -> step -> result string step_result) (ck : clock).

(** The loop: [behind] are the steps it has passed, in order; the deployment keeps
    all of them.  It answers the deployment and, if a step raised, the
    exception; the counts are of completed and skipped steps. *)
Fixpoint run_steps (d : deployment) (behind todo : list step) (completed skips : Z)
  : deployment * result string (Z * Z) :=
  match todo with
  | [] => (with_steps behind d, Ok (completed, skips))
  | s :: todo =>
      let s := start_step (t_step_start ck (step_index s)) s in
      let d := progress (d_status d) (step_index s) (Some (s_phase s)) None None
                 (with_steps (behind ++ s :: todo) d) in
      match exec d s with
      | Ok r =>
          let s := finish_step (t_step_end ck (step_index s)) r s in
          run_steps d (behind ++ [s]) todo
            (if skipped r then completed else completed + 1) (if skipped r then skips + 1 else skips)
      | Err msg =>
          let s := fail_step (t_step_end ck (step_index s)) msg s in
          (progress D_FAILED (step_index s) (Some (s_phase s))
             (Some (msg, s_phase s, step_index s)) None (with_steps (behind ++ s :: todo) d),
           Err msg)
      end
  end.

Definition execute_loop (d : deployment) : deployment * result string (Z * Z) :=
  let d := begin_execution (t_begin ck) d in
  let l := by_index (steps d) in
  let n := slice_at (default 0 (resume_from_step d)) l in
  match run_steps d (take n l) (drop n l) 0 0 with
  | (d, Err msg) => (d, Err msg)
  | (d, Ok counts) => (progress D_COMPLETED (current_step_index d) (current_phase d) None (Some (t_finish ck)) d, Ok counts)
  end.

Record summary := { sum_id : Z; sum_completed : Z; sum_skipped : Z; sum_total : Z }.

Definition execute_deployment (id : Z) (t : tables) : tables * result bm_error summary :=
  match deployments t !! id with
  | None => (t, Err (BMNotFound "BareMetalDeployment" [id]))
  | Some d =>
      let '(d', r) := execute_loop d in
      (set_deployments <[id := d']> t,
       match r with
       | Err msg => Err (BMStepFailed msg)
       | Ok (c, s) => Ok {| sum_id := id; sum_completed := c; sum_skipped := s;
                            sum_total := Z.of_nat (length (steps d)) |}
       end)
  end.
End execute.

(** The source's dispatcher. *)
Definition _execute_step (d : deployment) (s : step) : result string step_result :=
  Ok {| skipped := false; r_exit_code := Some 0;
        r_output := Some ("Step " +:+ s_name s +:+ " executed (placeholder)") |}.

(** ** Resume and cancel *)

Definition reset_step (from : Z) (s : step) : step :=
  if (from <=? step_index s) && bool_decide (s_status s = S_FAILED) then
    {| step_index := step_index s; s_phase := s_phase s; s_name := s_name s;
       s_description := s_description s; s_status := S_PENDING;
       s_connectivity_risk := s_connectivity_risk s; s_connectivity_mechanism := s_connectivity_mechanism s;
       already_done := already_done s; s_started_at := None; s_completed_at := None;
       s_error_message := None; exit_code := None; output_log := None |}
  else s.

Definition resume_point (from_step : option Z) (d : deployment) : Z :=
  match from_step with
  | Some i => i
  | None => default 0 (error_step_index d)
  end.

Definition resumed (from_step : option Z) (d : deployment) : deployment :=
  {| d_host_id := d_host_id d; d_project_id := d_project_id d; d_topology := d_topology d;
     d_status := D_PENDING; version_profile_snapshot := version_profile_snapshot d;
     deployable_release_id := deployable_release_id d;
     resume_from_step := Some (resume_point from_step d);
     triggered_by := triggered_by d; selected_phases := selected_phases d;
     selected_steps := selected_steps d; current_step_index := current_step_index d;
     current_phase := current_phase d; d_error_message := None; error_phase := None;
     error_step_index := None; d_started_at := d_started_at d; d_completed_at := d_completed_at d;
     steps := map (reset_step (resume_point from_step d)) (steps d) |}.

Definition resume_deployment (id : Z) (from_step : option Z) (t : tables) : tables * result bm_error unit :=
  match deployments t !! id with
  | None => (t, Err (BMNotFound "BareMetalDeployment" [id]))
  | Some d =>
      if bool_decide (d_status d = D_FAILED \/ d_status d = D_PAUSED)
      then (set_deployments <[id := resumed from_step d]> t, Ok tt)
      else (t, Err (BMBadRequest "Cannot resume deployment in this status" id))
  end.

Definition cancelled (now : Z) (d : deployment) : deployment :=
  progress D_CANCELLED (current_step_index d) (current_phase d) None (Some now) d.

Definition cancel_deployment (id now : Z) (t : tables) : tables * result bm_error unit :=
  match deployments t !! id with
  | None => (t, Err (BMNotFound "BareMetalDeployment" [id]))
  | Some d =>
      if terminal (d_status d) then (t, Err (BMBadRequest "Cannot cancel deployment in terminal status" id))
      else (set_deployments <[id := cancelled now d]> t, Ok tt)
  end.

(** ** The registries *)

(** Every name is new, and every prerequisite is the name of an earlier step. *)
Fixpoint well_ordered (earlier : list string) (l : list StepDefinition) : bool :=
  match l with
  | [] => true
  | s :: l =>
      negb (bool_decide (sd_name s ∈ earlier)) &&
      forallb (fun p => bool_decide (p ∈ earlier)) (prerequisites s) &&
      well_ordered (sd_name s :: earlier) l
  end.

Definition phase_number (p : DeploymentPhase) : Z :=
  match p with PHASE_1_DPU => 1 | PHASE_2_K8S => 2 | PHASE_3_JOIN => 3 | PHASE_4_PLATFORM => 4 end.

Lemma well_ordered_spec l earlier : well_ordered earlier l = true ->
  NoDup (map sd_name l) /\ (forall n, n ∈ map sd_name l -> n ∉ earlier) /\
  forall i s p, l !! i = Some s -> p ∈ prerequisites s ->
    p ∈ earlier \/ exists j s', (j < i)%nat /\ l !! j = Some s' /\ sd_name s' = p.
Proof.
  revert earlier. induction l as [|s l IH]; cbn; intros earlier H.
  { split_and!; [constructor|by intros ? ?%elem_of_nil|done]. }
  apply andb_true_iff in H as [[N P]%andb_true_iff W].
  apply negb_true_iff, bool_decide_eq_false in N. rewrite forallb_forall in P.
  destruct (IH _ W) as (ND & F & O). split_and!.
  - apply NoDup_cons. split; [|done]. intros I. apply (F _ I). left.
  - intros n [->|I]%elem_of_cons; [done|]. intros E. apply (F n I). by right.
  - intros [|i] s' p Hs Hp; cbn in Hs.
    + injection Hs as <-. left. apply list_elem_of_In in Hp.
      by apply P, bool_decide_eq_true in Hp.
    + destruct (O i s' p Hs Hp) as [[->|E]%elem_of_cons|(j & s2 & Hj & H2 & E)].
      * right. exists 0%nat, s. split; [lia|done].
      * by left.
      * right. exists (S j), s2. split; [lia|done].
Qed.

(** The plans make sense.  In every topology's registry the step names
    are distinct, every prerequisite is an earlier step of the same plan, and
    the phases come in order; a topology has a plan exactly if it is one of
    the five. *)
Lemma registries_well_ordered (top : string) (defs : list StepDefinition)
    (REG : get_steps_for_topology top = Some defs) :
  top ∈ ["regular"; "bf3"; "bf3_ipmi"; "bmc"; "dual_dpu_obmc"] /\
  NoDup (map sd_name defs) /\
  (forall i s p, defs !! i = Some s -> p ∈ prerequisites s ->
     exists j s', (j < i)%nat /\ defs !! j = Some s' /\ sd_name s' = p) /\
  Sorted Z.le (map (fun s => phase_number (sd_phase s)) defs).
Proof.
  assert (T : forallb (fun kd : string * list StepDefinition => well_ordered [] kd.2 &&
    bool_decide (Sorted Z.le (map (fun s => phase_number (sd_phase s)) kd.2))) TOPOLOGY_STEPS = true)
    by (vm_compute; reflexivity).
  apply dget_elem_of in REG. rewrite forallb_forall in T.
  specialize (T (top, defs) (proj1 (list_elem_of_In _ _) REG)). cbn [snd] in T.
  apply andb_true_iff in T as [W S%bool_decide_eq_true].
  destruct (well_ordered_spec _ _ W) as (ND & _ & O).
  split_and!; auto.
  - change ["regular"; "bf3"; "bf3_ipmi"; "bmc"; "dual_dpu_obmc"] with (map fst TOPOLOGY_STEPS).
    apply list_elem_of_In, in_map_iff. exists (top, defs). split; [done|]. by apply list_elem_of_In.
  - intros i s p Hs Hp. by destruct (O i s p Hs Hp) as [?%elem_of_nil|?].
Qed.

(** ** Executions *)

Section execution_lemmas.
Context (exec : deployment -> step -> result string step_result) (ck : clock).

(** The step was dispatched (marked running) and returned. *)
Definition ran (s s' : step) : Prop :=
  exists d r, exec d (start_step (t_step_start ck (step_index s)) s) = Ok r /\
    s' = finish_step (t_step_end ck (step_index s)) r (start_step (t_step_start ck (step_index s)) s).

(** The step was dispatched and raised. *)
Definition raised (msg : string) (s s' : step) : Prop :=
  exists d, exec d (start_step (t_step_start ck (step_index s)) s) = Err msg /\
    s' = fail_step (t_step_end ck (step_index s)) msg (start_step (t_step_start ck (step_index s)) s).

Lemma run_steps_spec todo d behind c k :
  match run_steps exec ck d behind todo c k with
  | (d', Ok (c', k')) =>
      d_status d' = d_status d /\ c' + k' = c + k + Z.of_nat (length todo) /\
      exists l, Forall2 ran todo l /\ steps d' = behind ++ l
  | (d', Err msg) =>
      d_status d' = D_FAILED /\ d_error_message d' = Some msg /\
      exists pre s post pre' s', todo = pre ++ s :: post /\ Forall2 ran pre pre' /\ raised msg s s' /\
        steps d' = behind ++ pre' ++ s' :: post /\ error_step_index d' = Some (step_index s)
  end.
Proof.
  revert d behind c k. induction todo as [|s todo IH]; intros d behind c k.
  { cbn. split_and!; [done|lia|]. exists []. by rewrite app_nil_r. }
  cbn [run_steps].
  set (s1 := start_step _ s). set (d1 := progress _ _ _ _ _ _).
  destruct (exec d1 s1) as [r|msg] eqn:E.
  - set (s2 := finish_step _ r s1).
    specialize (IH d1 (behind ++ [s2]) (if skipped r then c else c + 1) (if skipped r then k + 1 else k)).
    assert (R : ran s s2) by (exists d1, r; done).
    destruct (run_steps exec ck d1 _ todo _ _) as [d' [[c' k']|msg]].
    + destruct IH as (S & N & l & F & L). split_and!; [done| |].
      * destruct (skipped r); cbn [length]; lia.
      * exists (s2 :: l). split; [by constructor|]. by rewrite L, <- app_assoc.
    + destruct IH as (S & M & pre & s0 & post & pre' & s' & -> & F & R' & L & EI).
      split_and!; [done|done|]. exists (s :: pre), s0, post, (s2 :: pre'), s'.
      split_and!; [done|by constructor|done| |done]. by rewrite L, <- app_assoc.
  - split_and!; [done|done|]. exists [], s, todo, [], (fail_step (t_step_end ck (step_index s)) msg s1).
    split_and!; [done|constructor| |done|done]. by exists d1.
Qed.
End execution_lemmas.

(** Steps as they are created: numbered from zero. *)
Definition indexed (l : list step) : Prop :=
  forall i s, l !! i = Some s -> step_index s = Z.of_nat i.

Lemma by_index_indexed l : indexed l -> by_index l = l.
Proof.
  intros IX. unfold by_index. apply (StronglySorted_unique_strong idx_le).
  - intros x1 x2 H1 H2 L1 L2. rewrite merge_sort_Permutation in H1.
    apply list_elem_of_lookup_1 in H1 as [i H1], H2 as [j H2].
    unfold idx_le in *. rewrite (IX i x1 H1) in *. rewrite (IX j x2 H2) in *.
    assert (i = j) by lia. congruence.
  - apply StronglySorted_merge_sort; apply _.
  - apply Sorted_StronglySorted; [apply _|].
    assert (G : forall l k, (forall i s, l !! i = Some s -> step_index s = Z.of_nat (k + i)) -> Sorted idx_le l).
    { clear. induction l as [|s l IH]; intros k H; constructor.
      - apply (IH (S k)). intros i s' E. rewrite (H (S i) s' E). lia.
      - destruct l as [|s' l]; constructor. unfold idx_le.
        rewrite (H 0%nat s eq_refl), (H 1%nat s' eq_refl). lia. }
    apply (G l 0%nat IX).
  - apply merge_sort_Permutation.
Qed.

(** Where an execution starts. *)
Definition first_step (d : deployment) : nat := slice_at (default 0 (resume_from_step d)) (steps d).

(** How an execution of [d] that ends with [out] is recorded. *)
Definition execution_outcome exec ck (id : Z) (t : tables) (d : deployment)
    (out : tables * result bm_error summary) : Prop :=
  let n := first_step d in
  let '(t', r) := out in
  bm_hosts t' = bm_hosts t /\ releases t' = releases t /\ next_deployment t' = next_deployment t /\
  (forall j, j <> id -> deployments t' !! j = deployments t !! j) /\
  exists d', deployments t' !! id = Some d' /\ d_host_id d' = d_host_id d /\
  match r with
  | Ok sm =>
      d_status d' = D_COMPLETED /\
      (exists l, Forall2 (ran exec ck) (drop n (steps d)) l /\ steps d' = take n (steps d) ++ l) /\
      sum_completed sm + sum_skipped sm = Z.of_nat (length (drop n (steps d))) /\
      sum_total sm = Z.of_nat (length (steps d))
  | Err (BMStepFailed msg) =>
      exists pre s post pre' s', drop n (steps d) = pre ++ s :: post /\
        Forall2 (ran exec ck) pre pre' /\ raised exec ck msg s s' /\
        steps d' = take n (steps d) ++ pre' ++ s' :: post /\
        d_status d' = D_FAILED /\ d_error_message d' = Some msg /\
        error_step_index d' = Some (step_index s)
  | Err _ => False
  end.

Lemma run_steps_host exec ck todo d behind c k :
  d_host_id (run_steps exec ck d behind todo c k).1 = d_host_id d.
Proof.
  revert d behind c k. induction todo as [|s todo IH]; intros d behind c k; cbn [run_steps]; [done|].
  destruct (exec _ _); [|done]. by rewrite IH.
Qed.

Lemma execute_spec exec ck id t d (D : deployments t !! id = Some d) (IX : indexed (steps d)) :
  execution_outcome exec ck id t d (execute_deployment exec ck id t).
Proof.
  unfold execution_outcome, execute_deployment. rewrite D. unfold execute_loop, first_step.
  set (d0 := begin_execution _ d). change (steps d0) with (steps d).
  change (resume_from_step d0) with (resume_from_step d). rewrite by_index_indexed by done.
  set (n := slice_at _ (steps d)).
  pose proof (run_steps_spec exec ck (drop n (steps d)) d0 (take n (steps d)) 0 0) as S.
  pose proof (run_steps_host exec ck (drop n (steps d)) d0 (take n (steps d)) 0 0) as H.
  destruct (run_steps exec ck d0 (take n (steps d)) (drop n (steps d)) 0 0) as [d' [[c k]|msg]].
  - destruct S as (_ & N & l & F & L). cbn [set_deployments bm_hosts releases deployments].
    split_and!; [done|done|done|by intros j NE; rewrite lookup_insert_ne|].
    eexists. rewrite lookup_insert_eq. split; [done|]. split_and!; [done|done| |cbn; lia|done].
    exists l. by split.
  - destruct S as (St & M & pre & s & post & pre' & s' & -> & F & R & L & EI).
    cbn [set_deployments bm_hosts releases deployments].
    split_and!; [done|done|done|by intros j NE; rewrite lookup_insert_ne|].
    eexists. rewrite lookup_insert_eq. split; [done|]. split; [done|].
    exists pre, s, post, pre', s'. by split_and!.
Qed.

(** An execution does what its plan says.  Whatever the dispatcher does,
    an execution runs, in order and once each, the steps from the resume
    point on, selected or not and whatever the status of the deployment, and
    leaves the earlier ones alone.  If all return, every one of them is
    recorded as completed or skipped, the counts add up and the deployment is
    COMPLETED.  If one raises, the steps before it are so recorded, it is
    FAILED with the message, the steps after it are untouched, the deployment
    is FAILED at that step, and the exception is passed on.  Nothing else in
    the tables changes. *)
Theorem execute_correct exec ck id t d
    (D : deployments t !! id = Some d) (IX : indexed (steps d)) :
  execution_outcome exec ck id t d (execute_deployment exec ck id t).
Proof. by apply execute_spec. Qed.

(** A two-step deployment, already cancelled, whose second step was not
    selected. *)
Definition small_steps : list step :=
  imap (new_step ["probe_dpu_state"]) (take 2 REGULAR_STEPS).
Definition small_deployment (status : BareMetalDeploymentStatus) : deployment :=
  {| d_host_id := 1; d_project_id := 1; d_topology := "regular"; d_status := status;
     version_profile_snapshot := None; deployable_release_id := None; resume_from_step := None;
     triggered_by := "user"; selected_phases := None; selected_steps := Some ["probe_dpu_state"];
     current_step_index := 0; current_phase := None; d_error_message := None; error_phase := None;
     error_step_index := None; d_started_at := None; d_completed_at := None; steps := small_steps |}.
Definition small_tables (status : BareMetalDeploymentStatus) : tables :=
  {| bm_hosts := ∅; releases := []; deployments := {[ 5 := small_deployment status ]}; next_deployment := 6 |}.
Definition a_clock : clock :=
  {| t_begin := 0; t_step_start i := 10 * i; t_step_end i := 10 * i + 5; t_finish := 100 |}.

Lemma execute_correct_witness :
  map s_status small_steps = [S_PENDING; S_SKIPPED] /\
  exists d', deployments (execute_deployment _execute_step a_clock 5 (small_tables D_CANCELLED)).1 !! 5 = Some d' /\
    d_status d' = D_COMPLETED /\ map s_status (steps d') = [S_COMPLETED; S_COMPLETED].
Proof.
  split; [reflexivity|].
  pose proof (execute_correct _execute_step a_clock 5 (small_tables D_CANCELLED) (small_deployment D_CANCELLED)
    ltac:(reflexivity)) as H.
  assert (IX : indexed (steps (small_deployment D_CANCELLED))).
  { intros [|[|[|i]]] s E; vm_compute in E; congruence || (injection E as <-; reflexivity). }
  specialize (H IX). unfold execution_outcome in H. cbn zeta in H.
  destruct (execute_deployment _execute_step a_clock 5 (small_tables D_CANCELLED)) as [t' r] eqn:E.
  destruct H as (_ & _ & _ & _ & d' & D' & _). exists d'. split; [exact D'|].
  vm_compute in E. injection E as <- _. vm_compute in D'. injection D' as <-. split; reflexivity.
Defined.

(** ** Resuming *)

Lemma ran_index exec ck s s' : ran exec ck s s' -> step_index s' = step_index s.
Proof. by intros (d & r & _ & ->). Qed.

Lemma Forall2_ran_lookup exec ck l l' i s' : Forall2 (ran exec ck) l l' -> l' !! i = Some s' ->
  exists s, l !! i = Some s /\ step_index s' = step_index s /\
    (s_status s' = S_COMPLETED \/ s_status s' = S_SKIPPED).
Proof.
  intros F H. destruct (Forall2_lookup_r _ _ _ _ _ F H) as (s & Hs & R). exists s.
  split; [done|]. split; [by apply ran_index in R|].
  destruct R as (d & r & _ & ->). cbn. destruct (skipped r); auto.
Qed.

Lemma reset_step_index from s : step_index (reset_step from s) = step_index s.
Proof. unfold reset_step. by case_match. Qed.

Lemma reset_step_same from s : s_status s <> S_FAILED -> reset_step from s = s.
Proof.
  intros N. unfold reset_step. rewrite (bool_decide_eq_false_2 _ N), andb_false_r. done.
Qed.

(** A failed execution keeps the numbering and fails at its own index. *)
Lemma failed_shape exec ck d d' n pre s post pre' s' msg
    (IX : indexed (steps d)) (LE : (n <= length (steps d))%nat)
    (E : drop n (steps d) = pre ++ s :: post) (F : Forall2 (ran exec ck) pre pre')
    (R : raised exec ck msg s s') (L : steps d' = take n (steps d) ++ pre' ++ s' :: post) :
  indexed (steps d') /\ length (steps d') = length (steps d) /\
  step_index s = Z.of_nat (n + length pre) /\ (n + length pre < length (steps d))%nat /\
  steps d' !! (n + length pre)%nat = Some s' /\ s_status s' = S_FAILED.
Proof.
  pose proof (Forall2_length _ _ _ F) as FL.
  assert (SP : steps d = take n (steps d) ++ pre ++ s :: post) by (by rewrite <- E, take_drop).
  assert (TL : length (take n (steps d)) = n) by (rewrite length_take; lia).
  assert (SI : step_index s = Z.of_nat (n + length pre)).
  { apply IX. rewrite SP, lookup_app_r by lia. rewrite TL.
    rewrite lookup_app_r by lia. by replace (n + length pre - n - length pre)%nat with 0%nat by lia. }
  assert (LE2 : (n + length pre < length (steps d))%nat)
    by (rewrite SP, !length_app; cbn [length]; lia).
  assert (I' : step_index s' = step_index s) by (by destruct R as (? & _ & ->)).
  split_and!; try done.
  - intros i x H. rewrite L in H.
    destruct (decide (i < n)%nat) as [Hi|Hi].
    + apply IX. rewrite lookup_app_l in H by lia. by rewrite <- (take_drop n (steps d)), lookup_app_l by lia.
    + rewrite lookup_app_r in H by lia. rewrite TL in H.
      destruct (decide (i - n < length pre)%nat) as [Hj|Hj].
      * rewrite lookup_app_l in H by lia.
        destruct (Forall2_ran_lookup _ _ _ _ _ _ F H) as (x0 & Hx & -> & _).
        apply IX. rewrite SP, lookup_app_r by lia. rewrite TL. by rewrite lookup_app_l by lia.
      * rewrite lookup_app_r in H by lia.
        destruct (i - n - length pre')%nat as [|k] eqn:K; cbn in H.
        -- injection H as <-. rewrite I', SI. f_equal. lia.
        -- apply IX. rewrite SP, lookup_app_r by lia. rewrite TL, lookup_app_r by lia.
           by replace (i - n - length pre)%nat with (S k) by lia.
  - rewrite L, SP, !length_app, take_app_length' by (by rewrite TL).
    cbn [length]. lia.
  - rewrite L, lookup_app_r by lia. rewrite TL, lookup_app_r by lia.
    by replace (n + length pre - n - length pre')%nat with 0%nat by lia.
  - by destruct R as (? & _ & ->).
Qed.

(** C8. Resuming finishes the job.  A deployment whose execution failed can
    be resumed; the resume point is the step that failed, which is pending
    again; and if the dispatcher then stops raising, the next execution runs
    exactly the steps from that one on, answers, and leaves the deployment
    COMPLETED with every step from the first resume point on completed or
    skipped. *)
Theorem resume_completes exec1 exec2 ck1 ck2 id t t1 d msg
    (D : deployments t !! id = Some d) (IX : indexed (steps d))
    (LE : (first_step d <= length (steps d))%nat)
    (FAIL : execute_deployment exec1 ck1 id t = (t1, Err (BMStepFailed msg)))
    (OK : forall d s, is_Ok (exec2 d s) = true) :
  exists t2 t3 sm d1 d3 j,
    resume_deployment id None t1 = (t2, Ok tt) /\
    execute_deployment exec2 ck2 id t2 = (t3, Ok sm) /\
    deployments t1 !! id = Some d1 /\ deployments t3 !! id = Some d3 /\
    (first_step d <= j < length (steps d))%nat /\ error_step_index d1 = Some (Z.of_nat j) /\
    sum_completed sm + sum_skipped sm = Z.of_nat (length (steps d) - j) /\
    d_status d3 = D_COMPLETED /\
    (forall i, (i < j)%nat -> steps d3 !! i = steps d1 !! i) /\
    (forall i s, (first_step d <= i)%nat -> steps d3 !! i = Some s ->
       s_status s = S_COMPLETED \/ s_status s = S_SKIPPED).
Proof.
  pose proof (execute_spec exec1 ck1 id t d D IX) as S1. rewrite FAIL in S1.
  destruct S1 as (_ & _ & _ & _ & d1 & D1 & _ & pre & s & post & pre' & s' & E & F & R & L & ST & _ & EI).
  destruct (failed_shape _ _ _ _ _ _ _ _ _ _ _ IX LE E F R L) as (IX1 & LN & SI & LT & AT & _).
  pose proof (Forall2_length _ _ _ F) as FL.
  rewrite SI in EI. set (j := (first_step d + length pre)%nat) in *.
  set (d2 := resumed None d1).
  set (t2 := set_deployments <[id := d2]> t1).
  assert (RES : resume_deployment id None t1 = (t2, Ok tt)).
  { unfold resume_deployment. rewrite D1, bool_decide_eq_true_2 by auto. done. }
  assert (D2 : deployments t2 !! id = Some d2) by apply lookup_insert_eq.
  assert (P2 : resume_point None d1 = Z.of_nat j) by (unfold resume_point; by rewrite EI).
  assert (S2 : steps d2 = map (reset_step (Z.of_nat j)) (steps d1)) by (cbn [d2 resumed steps]; by rewrite P2).
  assert (L2 : forall i, steps d2 !! i = reset_step (Z.of_nat j) <$> steps d1 !! i)
    by (intros i; rewrite S2; apply list_lookup_fmap).
  assert (IX2 : indexed (steps d2)).
  { intros i x H. rewrite L2 in H. destruct (steps d1 !! i) as [y|] eqn:Y; [|done].
    injection H as <-. rewrite reset_step_index. by apply IX1. }
  assert (N2 : first_step d2 = j).
  { unfold first_step, slice_at. cbn [d2 resumed resume_from_step]. rewrite P2.
    change (default 0 (Some (Z.of_nat j))) with (Z.of_nat j).
    destruct (Z.ltb_spec (Z.of_nat j) 0); [lia|]. apply Nat2Z.id. }
  assert (LN2 : length (steps d2) = length (steps d)) by (rewrite S2, length_map; done).
  pose proof (execute_spec exec2 ck2 id t2 d2 D2 IX2) as S3. unfold execution_outcome in S3.
  destruct (execute_deployment exec2 ck2 id t2) as [t3 r3] eqn:E3.
  destruct S3 as (_ & _ & _ & _ & d3 & D3 & _ & O). rewrite N2 in O.
  destruct r3 as [sm|[| | |m]]; try done.
  2: { destruct O as (pre2 & s2 & post2 & pre2' & s2' & _ & _ & (dd & EE & _) & _).
       specialize (OK dd (start_step (t_step_start ck2 (step_index s2)) s2)). by rewrite EE in OK. }
  destruct O as (C3 & (l & F3 & L3) & CNT & _).
  assert (TL : length (take j (steps d2)) = j) by (rewrite length_take; lia).
  assert (LOW : forall i, (i < j)%nat -> steps d3 !! i = steps d1 !! i).
  { intros i Hi. rewrite L3, lookup_app_l, lookup_take_lt by lia. rewrite L2.
    destruct (steps d1 !! i) as [y|] eqn:Y; [|done]. cbn. f_equal. unfold reset_step.
    rewrite (IX1 i y Y). by replace (Z.of_nat j <=? Z.of_nat i) with false by (symmetry; apply Z.leb_gt; lia). }
  exists t2, t3, sm, d1, d3, j. split_and!; auto; try lia.
  - rewrite length_drop in CNT. lia.
  - intros i x Hi Hx. destruct (decide (i < j)%nat) as [Hj|Hj].
    + rewrite LOW, L in Hx by done.
      rewrite lookup_app_r in Hx by (rewrite length_take; lia). rewrite length_take in Hx.
      rewrite lookup_app_l in Hx by lia.
      by destruct (Forall2_ran_lookup _ _ _ _ _ _ F Hx) as (_ & _ & _ & ?).
    + rewrite L3, lookup_app_r in Hx by lia.
      by destruct (Forall2_ran_lookup _ _ _ _ _ _ F3 Hx) as (_ & _ & _ & ?).
Qed.

Definition fails_on (name : string) (d : deployment) (s : step) : result string step_result :=
  if String.eqb (s_name s) name then Err "boom" else _execute_step d s.

Lemma resume_completes_witness :
  exists t2 t3 sm d3,
    resume_deployment 5 None (execute_deployment (fails_on "flash_dpu") a_clock 5 (small_tables D_PENDING)).1 = (t2, Ok tt) /\
    execute_deployment _execute_step a_clock 5 t2 = (t3, Ok sm) /\
    deployments t3 !! 5 = Some d3 /\ d_status d3 = D_COMPLETED.
Proof.
  destruct (resume_completes (fails_on "flash_dpu") _execute_step a_clock a_clock 5 (small_tables D_PENDING)
    (execute_deployment (fails_on "flash_dpu") a_clock 5 (small_tables D_PENDING)).1
    (small_deployment D_PENDING) "boom") as (t2 & t3 & sm & d1 & d3 & j & H1 & H2 & _ & H3 & _ & _ & _ & H4 & _).
  - reflexivity.
  - intros [|[|[|i]]] s E; vm_compute in E; congruence || (injection E as <-; reflexivity).
  - vm_compute. lia.
  - vm_compute. reflexivity.
  - reflexivity.
  - exists t2, t3, sm, d3. split; [exact H1|]. split; [exact H2|]. split; [exact H3|exact H4].
Defined.

(** ** One active deployment per host *)

Definition active (d : deployment) : bool := negb (terminal (d_status d)).

Record one_active (t : tables) : Prop := {
  oa_host : forall i j d d', deployments t !! i = Some d -> deployments t !! j = Some d' ->
    d_host_id d = d_host_id d' -> active d = true -> active d' = true -> i = j;
  oa_fresh : forall i d, deployments t !! i = Some d -> i < next_deployment t
}.

(** A row whose host stays and that is not active any more. *)
Lemma one_active_settle t id d d' (I : one_active t) (D : deployments t !! id = Some d)
    (N : active d' = false) : one_active (set_deployments <[id := d']> t).
Proof.
  destruct I as [H F]. split; cbn.
  - intros i j e e' Hi Hj Hh Ai Aj.
    destruct (decide (i = id)) as [->|Ni]; [rewrite lookup_insert_eq in Hi; congruence|].
    destruct (decide (j = id)) as [->|Nj]; [rewrite lookup_insert_eq in Hj; congruence|].
    rewrite lookup_insert_ne in Hi by done. rewrite lookup_insert_ne in Hj by done. by eapply H.
  - intros i e He. destruct (decide (i = id)) as [->|Ni]; [by eapply F|].
    rewrite lookup_insert_ne in He by done. by eapply F.
Qed.

Lemma execute_terminal exec ck id t :
  deployments (execute_deployment exec ck id t).1 = deployments t \/
  exists d d', deployments t !! id = Some d /\ active d' = false /\
    (execute_deployment exec ck id t).1 = set_deployments <[id := d']> t.
Proof.
  unfold execute_deployment. destruct (deployments t !! id) as [d|] eqn:D; [|by left].
  right. exists d, (execute_loop exec ck d).1.
  destruct (execute_loop exec ck d) as [d' r] eqn:E. split_and!; try done.
  unfold execute_loop in E. cbn [fst]. revert E.
  pose proof (run_steps_spec exec ck (drop (slice_at (default 0 (resume_from_step (begin_execution (t_begin ck) d))) (by_index (steps (begin_execution (t_begin ck) d)))) (by_index (steps (begin_execution (t_begin ck) d))))
    (begin_execution (t_begin ck) d) (take (slice_at (default 0 (resume_from_step (begin_execution (t_begin ck) d))) (by_index (steps (begin_execution (t_begin ck) d)))) (by_index (steps (begin_execution (t_begin ck) d)))) 0 0) as S.
  cbv zeta.
  destruct (run_steps _ _ _ _ _ _ _) as [d1 [[c k]|msg]]; intros [= <- <-]; [done|].
  unfold active. destruct S as (-> & _). done.
Qed.

(** What a creation that succeeds has checked and written. *)
Lemma create_Ok q t t' id : create_deployment q t = (t', Ok id) ->
  exists h defs r,
    bm_hosts t !! c_host_id q = Some h /\ bh_project h = c_project_id q /\
    get_steps_for_topology (default "" (topology h)) = Some defs /\ truthy_str (topology h) = true /\
    (forall w, w ∈ worker_host_ids q -> exists hw, bm_hosts t !! w = Some hw /\ bh_project hw = c_project_id q) /\
    active_on (c_host_id q :: worker_host_ids q) t = [] /\
    _resolve_deployable_release (c_release_id q) t = Ok r /\
    id = next_deployment t /\ next_deployment t' = id + 1 /\ releases t' = releases t /\
    bm_hosts t' = alter (stamp_release r) (c_host_id q) (bm_hosts t) /\
    exists d, deployments t' = <[id := d]> (deployments t) /\ d_host_id d = c_host_id q /\
      d_status d = D_PENDING /\ version_profile_snapshot d = Some r /\
      resume_from_step d = c_resume_from_step q /\
      steps d = imap (new_step (_determine_selected_steps defs (c_selected_phases q) (c_selected_steps q))) defs.
Proof.
  assert (G : forall i p t0 h0, _get_host_for_project i p t0 = Ok h0 -> bm_hosts t0 !! i = Some h0 /\ bh_project h0 = p).
  { intros i p t0 h0. unfold _get_host_for_project. destruct (bm_hosts t0 !! i) as [h1|]; [|done].
    destruct (bh_project h1 =? p) eqn:E; [|done]. intros [= ->]. by apply Z.eqb_eq in E. }
  unfold create_deployment. intros H.
  destruct (_get_host_for_project (c_host_id q) _ _) as [h|] eqn:H1; [|done]. apply G in H1 as [H1 H1'].
  destruct (truthy_str (topology h)) eqn:H2; [|done]. cbn [negb] in H.
  destruct (_validate_topology_prerequisites _ _); [|done].
  destruct (bool_decide (filter _ _ = [])) eqn:M; [|done]. cbn [negb] in H. apply bool_decide_eq_true in M.
  destruct (active_on _ _) as [|[? ?] ?] eqn:A; [|done].
  destruct (get_steps_for_topology _) as [defs|] eqn:T; [|done].
  destruct (_resolve_deployable_release _ _) as [r|] eqn:R; [|done].
  injection H as <- <-. exists h, defs, r. split_and!; try done.
  - intros w Hw. destruct (_get_host_for_project w (c_project_id q) t) as [hw|] eqn:E; [by exists hw; apply G|].
    exfalso. assert (W : w ∈ filter (fun i => is_Ok (_get_host_for_project i (c_project_id q) t) = false) (remove_dups (worker_host_ids q))).
    { apply list_elem_of_filter. rewrite E. split; [done|by apply elem_of_remove_dups]. }
    rewrite M in W. by apply elem_of_nil in W.
  - eexists. by split_and!.
Qed.

Lemma active_on_nil ids t : active_on ids t = [] ->
  forall i d, deployments t !! i = Some d -> d_host_id d ∈ ids -> active d = false.
Proof.
  intros A i d D H. unfold active. destruct (terminal (d_status d)) eqn:T; [done|].
  assert (W : (i, d) ∈ active_on ids t).
  { apply list_elem_of_filter. split; [by cbn|]. by apply elem_of_map_to_list. }
  rewrite A in W. by apply elem_of_nil in W.
Qed.

(** One at a time.  Starting from tables where no host anchors two
    active deployments, creating, executing (whatever the steps do) and
    cancelling deployments, in any number and order, never gives a host two
    active ones; and a host a creation names, as anchor or worker, anchored
    no active deployment at that moment. *)
Theorem one_active_kept (t : tables) (I : one_active t) :
  (forall q t' id, create_deployment q t = (t', Ok id) ->
     one_active t' /\
     forall i d, deployments t !! i = Some d -> d_host_id d ∈ c_host_id q :: worker_host_ids q -> active d = false) /\
  (forall exec ck id, one_active (execute_deployment exec ck id t).1) /\
  (forall id now, one_active (cancel_deployment id now t).1) /\
  (forall q t' e, create_deployment q t = (t', Err e) -> t' = t).
Proof.
  split_and!.
  - intros q t' id H.
    destruct (create_Ok q t t' id H) as (h & defs & r & _ & _ & _ & _ & _ & A & _ & -> & N & _ & _ & d & D & Hh & _).
    pose proof (active_on_nil _ _ A) as NA. split; [|done].
    destruct I as [O F]. split; rewrite D.
    + intros i j e e' Hi Hj Hhe Ai Aj.
      destruct (decide (i = next_deployment t)) as [->|Ni], (decide (j = next_deployment t)) as [->|Nj]; try done.
      * rewrite lookup_insert_eq in Hi. injection Hi as <-. rewrite lookup_insert_ne in Hj by done.
        rewrite (NA j e' Hj) in Aj; [done|]. rewrite <- Hhe, Hh. left.
      * rewrite lookup_insert_eq in Hj. injection Hj as <-. rewrite lookup_insert_ne in Hi by done.
        rewrite (NA i e Hi) in Ai; [done|]. rewrite Hhe, Hh. left.
      * rewrite lookup_insert_ne in Hi by done. rewrite lookup_insert_ne in Hj by done. by eapply O.
    + intros i e He. rewrite N. destruct (decide (i = next_deployment t)) as [->|Ni]; [lia|].
      rewrite lookup_insert_ne in He by done. specialize (F i e He). lia.
  - intros exec ck id. destruct (execute_terminal exec ck id t) as [E|(d & d' & D & N & ->)].
    + destruct I as [O F]. unfold execute_deployment in *. destruct (deployments t !! id) as [d|] eqn:D.
      * destruct (execute_loop exec ck d) as [d' r]. cbn in E. split; cbn; [rewrite E; exact O|rewrite E; exact F].
      * by split.
    + by eapply one_active_settle.
  - intros id now. unfold cancel_deployment. destruct (deployments t !! id) as [d|] eqn:D; [|done].
    destruct (terminal (d_status d)); [done|]. by eapply one_active_settle.
  - intros q t' e. unfold create_deployment. intros H. repeat case_match; congruence.
Qed.

Definition lab_host : bm_host :=
  {| bh_project := 1; topology := Some "regular"; bmc_ip := None; deploy_dpu_pci_address := None;
     rshim_present := Some true; k8s_info := JNull; bh_cluster := None; version_profile_id := None |}.
Definition lab_release : release :=
  {| r_id := 3; r_name := "2.1"; is_active := true; is_default := true; r_manifest := JNull |}.
Definition lab_tables : tables :=
  {| bm_hosts := {[ 1 := lab_host; 2 := lab_host ]}; releases := [lab_release]; deployments := ∅; next_deployment := 1 |}.
Definition lab_request (host : Z) (workers : list Z) : create_request :=
  {| c_host_id := host; c_project_id := 1; worker_host_ids := workers; c_resume_from_step := None;
     c_triggered_by := "user"; c_selected_phases := Some ["phase_1_dpu"]; c_selected_steps := None;
     c_release_id := None |}.

Lemma lab_one_active : one_active lab_tables.
Proof. split; cbn; intros *; by rewrite lookup_empty. Qed.

Lemma one_active_kept_witness :
  one_active (create_deployment (lab_request 1 [2]) lab_tables).1 /\
  is_Ok (create_deployment (lab_request 1 [2]) lab_tables).2 = true.
Proof.
  split; [|vm_compute; reflexivity].
  destruct (one_active_kept lab_tables lab_one_active) as (C & _).
  apply (C (lab_request 1 [2]) _ 1). vm_compute. reflexivity.
Defined.

(** Two ways around it.  Resuming does not look for another active
    deployment: after a failed deployment of a host, a second one of the same
    host, and a resume of the first, the host has two active ones.  And a
    deployment keeps no trace of its worker hosts: while it is active, one of
    its workers can be given a deployment of its own. *)
Theorem two_deployments_on_one_host :
  (exists t1 t2 t3 t4 exec ck,
     create_deployment (lab_request 1 []) lab_tables = (t1, Ok 1) /\
     (execute_deployment exec ck 1 t1).1 = t2 /\
     create_deployment (lab_request 1 []) t2 = (t3, Ok 2) /\
     resume_deployment 1 None t3 = (t4, Ok tt) /\ ~ one_active t4) /\
  (exists t1 t2, create_deployment (lab_request 1 [2]) lab_tables = (t1, Ok 1) /\
     create_deployment (lab_request 2 []) t1 = (t2, Ok 2) /\
     exists d1 d2, deployments t2 !! 1 = Some d1 /\ deployments t2 !! 2 = Some d2 /\
       active d1 = true /\ active d2 = true).
Proof.
  set (t1 := (create_deployment (lab_request 1 []) lab_tables).1).
  set (t2 := (execute_deployment (fails_on "flash_dpu") a_clock 1 t1).1).
  set (t3 := (create_deployment (lab_request 1 []) t2).1).
  set (t4 := (resume_deployment 1 None t3).1).
  split.
  - exists t1, t2, t3, t4, (fails_on "flash_dpu"), a_clock.
    split; [vm_compute; reflexivity|]. split; [reflexivity|].
    split; [vm_compute; reflexivity|]. split; [vm_compute; reflexivity|].
    intros [H _].
    destruct (deployments t4 !! 1) as [d1|] eqn:E1; [|vm_compute in E1; discriminate].
    destruct (deployments t4 !! 2) as [d2|] eqn:E2; [|vm_compute in E2; discriminate].
    specialize (H 1 2 d1 d2 E1 E2). vm_compute in E1, E2. injection E1 as <-. injection E2 as <-.
    discriminate (H eq_refl eq_refl eq_refl).
  - exists (create_deployment (lab_request 1 [2]) lab_tables).1,
      (create_deployment (lab_request 2 []) (create_deployment (lab_request 1 [2]) lab_tables).1).1.
    split; [vm_compute; reflexivity|]. split; [vm_compute; reflexivity|].
    eexists _, _. split; [vm_compute; reflexivity|]. split; [vm_compute; reflexivity|].
    split; reflexivity.
Qed.

(** A deployment is its preview.  A creation that succeeds makes, under a
    fresh id, a pending deployment with one step per step of the topology's
    plan, numbered and in order, pending if it was selected and skipped if
    not, with the release chosen (the one asked for if it is active, the
    default otherwise) frozen on it and stamped on the host; the preview of
    the same selection shows the same steps, the same selection and the right
    total; no other deployment changes. *)
Theorem created_as_previewed q t t' id (OK : create_deployment q t = (t', Ok id)) :
  exists d p r, deployments t' = <[id := d]> (deployments t) /\ d_status d = D_PENDING /\
    preview_deployment (c_host_id q) (c_project_id q) (c_selected_phases q) (c_selected_steps q) t = Ok p /\
    indexed (steps d) /\ length (steps d) = length (p_steps p) /\
    (forall i s, steps d !! i = Some s -> exists pv, p_steps p !! i = Some pv /\
       pv_index pv = step_index s /\ sd_name (pv_def pv) = s_name s /\
       (if pv_selected pv then s_status s = S_PENDING else s_status s = S_SKIPPED)) /\
    n_selected p = Z.of_nat (length (filter (fun s => s_status s = S_PENDING) (steps d))) /\
    _resolve_deployable_release (c_release_id q) t = Ok r /\ version_profile_snapshot d = Some r /\
    (version_profile_id <$> bm_hosts t' !! c_host_id q) = Some (Some (r_id r)).
Proof.
  destruct (create_Ok q t t' id OK)
    as (h & defs & r & H1 & H2 & T & TT & _ & _ & R & _ & _ & _ & HB & d & D & _ & ST & SN & _ & SS).
  set (sel := _determine_selected_steps defs (c_selected_phases q) (c_selected_steps q)) in *.
  unfold preview_deployment, _get_host_for_project. rewrite H1, H2, Z.eqb_refl, TT, T. cbn [negb].
  eexists d, _, r. split_and!; try done.
  - intros i s Hs. rewrite SS, list_lookup_imap in Hs. destruct (defs !! i); [|done].
    cbn in Hs. injection Hs as <-. done.
  - rewrite SS. cbn [p_steps]. by rewrite !length_imap.
  - intros i s Hs. rewrite SS, list_lookup_imap in Hs. destruct (defs !! i) as [sd|] eqn:E; [|done].
    cbn in Hs. injection Hs as <-. cbn [p_steps]. eexists. rewrite list_lookup_imap, E. cbn.
    split_and!; try done. fold sel. by destruct (bool_decide _).
  - cbn [n_selected]. fold sel. rewrite SS. f_equal.
    assert (G : forall l (f : nat -> nat), length (filter (fun s => s_status s = S_PENDING) (imap (fun i => new_step sel (f i)) l)) =
      length (filter (fun s => sd_name s ∈ sel) l)).
    { induction l as [|sd l IH]; intros f; [done|]. cbn [imap].
      rewrite !filter_cons. specialize (IH (f ∘ S)). unfold compose in *.
      destruct (decide (sd_name sd ∈ sel)) as [I|I], (decide (s_status (new_step sel (f 0%nat) sd) = S_PENDING)) as [J|J];
        cbn [length]; try (by rewrite IH); exfalso; cbn in J.
      - by rewrite bool_decide_eq_true_2 in J.
      - by rewrite bool_decide_eq_false_2 in J. }
    symmetry. apply (G defs (fun i => i)).
  - rewrite HB, lookup_alter_eq, H1. done.
Qed.

Lemma created_as_previewed_witness :
  exists d p r, deployments (create_deployment (lab_request 1 [2]) lab_tables).1 = <[1 := d]> (deployments lab_tables) /\
    preview_deployment 1 1 (Some ["phase_1_dpu"]) None lab_tables = Ok p /\ n_selected p = 4 /\
    version_profile_snapshot d = Some r.
Proof.
  destruct (created_as_previewed (lab_request 1 [2]) lab_tables
    (create_deployment (lab_request 1 [2]) lab_tables).1 1) as (d & p & r & H1 & _ & H2 & _ & _ & _ & _ & _ & H3 & _).
  - vm_compute. reflexivity.
  - exists d, p, r. split; [exact H1|]. split; [exact H2|]. split; [|exact H3].
    vm_compute in H2. injection H2 as <-. reflexivity.
Defined.
