(* ===== verification/FleetBulkOp.v ===== *)
(** * Fleet bulk operations (services/fleet_bulkop_service.py, tasks/fleet_tasks.py,
      routes/fleet.py)

    The run-start gates, the grouping of members into waves, the wave loop
    with its cooperative cancel and its between-wave gates, and the routes and
    the task around it.  The jobs of a wave run in parallel, each on its own
    member; [order] is the order in which they finish.  [cancel_first] and
    [cancel_in] say when the cancel route is called: between the start of an
    execution and its first wave, and during a wave.  [run_waves] also answers
    the members it dispatched, in order.

    Labels and domains are texts; [strip] and [lower] act on ASCII.  RBAC, the
    Celery dispatch with its task ids and the session's connection failures
    are not modelled. *)

From Stdlib Require Import Ascii.
From S2P Require Import Prelude Texts.

#[local] Open Scope string_scope.
#[local] Open Scope list_scope.
#[local] Open Scope Z_scope.

(** ** Constants (models/fleet_targeting.py) *)

Definition SAFE_ACTIONS : list string := ["re-reconcile"; "set-labels"].
Definition STABLE_HEALTH_STATUSES : list string := ["healthy"; "active"; "ready"; "os_online"].
Definition DECISION_TTL_SECONDS : Z := 900.
Definition _DEFAULT_TIMED_WAIT_SECONDS : Z := 300.
Definition ASSIGNED_LABEL_KEYS : list string := ["env"; "team"; "criticality"; "owner"; "fault-domain"].

Inductive decision_status := RESOLVED | CONSUMED | SUPERSEDED.
#[global] Instance decision_status_eq_dec : EqDecision decision_status.
Proof. solve_decision. Defined.
Inductive run_status := B_PENDING | B_RUNNING | B_PAUSED_GATE | B_COMPLETED | B_FAILED | B_CANCELLED.
#[global] Instance run_status_eq_dec : EqDecision run_status.
Proof. solve_decision. Defined.
Inductive result_status := R_PENDING | R_RUNNING | R_SUCCEEDED | R_FAILED | R_SKIPPED.
#[global] Instance result_status_eq_dec : EqDecision result_status.
Proof. solve_decision. Defined.

Definition terminal_run (s : run_status) : bool :=
  match s with B_COMPLETED | B_FAILED | B_CANCELLED => true | _ => false end.

(** ** Tables *)

Record member := {
  m_project : option Z;
  m_target : string * Z;
  m_name : string;
  discovered_labels : gmap string string;
  assigned_labels : gmap string string;
  fault_domain : option string;
  health_status : option string;
  lifecycle_state : option string;
  last_reconciled_at : option Z
}.
#[global] Instance member_eq_dec : EqDecision member.
Proof. solve_decision. Defined.

Record decision := {
  target_id : Z;
  d_project : option Z;
  resolved_member_ids : list Z;
  resolved_at : Z;
  d_status : decision_status
}.
Definition decision_with (s : decision_status) (d : decision) : decision :=
  {| target_id := target_id d; d_project := d_project d; resolved_member_ids := resolved_member_ids d;
     resolved_at := resolved_at d; d_status := s |}.

(** [action_params]: the labels of the parameters, if there are some. *)
Record run := {
  decision_id : Z;
  r_project : option Z;
  action : string;
  action_params : option (gmap string string);
  wave_by : string;
  concurrency : Z;
  gate_mode : string;
  strategy_id : option Z;
  r_status : run_status;
  current_wave_index : Z;
  total_waves : option Z;
  error_message : option string;
  gate_resumes_at : option Z;
  started_at : option Z;
  completed_at : option Z
}.

Record strategy := {
  st_project : option Z;
  st_target : option Z;
  st_wave_by : string;
  max_concurrency_pct : option Z;
  gate_kind : string;
  gate_wait_seconds : option Z;
  st_deleted : bool
}.

Record run_result := {
  wave_index : Z;
  rr_fault_domain : option string;
  rr_status : result_status;
  detail : option string;
  rr_started_at : option Z;
  rr_completed_at : option Z
}.

Record fleet := {
  members : gmap Z member;
  decisions : gmap Z decision;
  runs : gmap Z run;
  results : gmap (Z * Z) run_result;
  strategies : gmap Z strategy
}.

Definition set_members (m : gmap Z member) (f : fleet) : fleet :=
  {| members := m; decisions := decisions f; runs := runs f; results := results f; strategies := strategies f |}.
Definition set_runs (g : gmap Z run -> gmap Z run) (f : fleet) : fleet :=
  {| members := members f; decisions := decisions f; runs := g (runs f); results := results f; strategies := strategies f |}.
Definition set_decisions (g : gmap Z decision -> gmap Z decision) (f : fleet) : fleet :=
  {| members := members f; decisions := g (decisions f); runs := runs f; results := results f; strategies := strategies f |}.
Definition set_results (g : gmap (Z * Z) run_result -> gmap (Z * Z) run_result) (f : fleet) : fleet :=
  {| members := members f; decisions := decisions f; runs := runs f; results := g (results f); strategies := strategies f |}.

(** The columns of a run that the executor and the routes assign. *)
Definition run_with (r : run) (st : run_status) (idx : Z) (err : option string) (done : option Z) : run :=
  {| decision_id := decision_id r; r_project := r_project r; action := action r; action_params := action_params r;
     wave_by := wave_by r; concurrency := concurrency r; gate_mode := gate_mode r;
     strategy_id := strategy_id r; r_status := st; current_wave_index := idx;
     total_waves := total_waves r;
     error_message := match err with Some e => Some e | None => error_message r end;
     gate_resumes_at := gate_resumes_at r; started_at := started_at r;
     completed_at := match done with Some t => Some t | None => completed_at r end |}.
Definition run_started (now : option Z) (waves : Z) (r : run) : run :=
  {| decision_id := decision_id r; r_project := r_project r; action := action r; action_params := action_params r;
     wave_by := wave_by r; concurrency := concurrency r; gate_mode := gate_mode r;
     strategy_id := strategy_id r; r_status := B_RUNNING; current_wave_index := current_wave_index r;
     total_waves := Some waves; error_message := error_message r;
     gate_resumes_at := gate_resumes_at r;
     started_at := match now with Some t => Some t | None => started_at r end;
     completed_at := completed_at r |}.
Definition run_waits (until : Z) (r : run) : run :=
  {| decision_id := decision_id r; r_project := r_project r; action := action r; action_params := action_params r;
     wave_by := wave_by r; concurrency := concurrency r; gate_mode := gate_mode r;
     strategy_id := strategy_id r; r_status := r_status r; current_wave_index := current_wave_index r;
     total_waves := total_waves r; error_message := error_message r;
     gate_resumes_at := Some until; started_at := started_at r; completed_at := completed_at r |}.

(** ** The run-start gates *)

Inductive stale_reason := WrongStatus (s : decision_status) | TooOld (age : Z) | MembersGone (missing : list Z).
Inductive bulk_error :=
| StaleDecisionError (why : stale_reason)
| BulkValueError (why : string)
| BulkRefused (why : string).

(** [now], [resolved_at]: seconds. *)
Definition _assert_decision_fresh (now : Z) (d : decision) (ms : gmap Z member) : result stale_reason (list Z) :=
  if negb (bool_decide (d_status d = RESOLVED)) then Err (WrongStatus (d_status d))
  else if DECISION_TTL_SECONDS <? now - resolved_at d then Err (TooOld (now - resolved_at d))
  else
    let missing := filter (fun i => ms !! i = None) (resolved_member_ids d) in
    if bool_decide (missing = []) then Ok (resolved_member_ids d) else Err (MembersGone missing).

(** ** Waves *)

(** The value a member is grouped by; the empty text is the none bucket. *)
Definition wave_key (by_ : string) (m : member) : string :=
  match after_prefix "label:" by_ with
  | Some label_key => strip (default "" ((assigned_labels m ∪ discovered_labels m) !! label_key))
  | None => strip (default "" (fault_domain m))
  end.

(** [buckets.setdefault(key, []).append(m)] over the members with a key. *)
Definition add_bucket (b : list (string * list Z)) (ki : string * Z) : list (string * list Z) :=
  dset ki.1 (default [] (dget ki.1 b) ++ [ki.2]) b.

Definition key_le (a b : string * list Z) : Prop := String.le a.1 b.1.
#[global] Instance key_le_dec a b : Decision (key_le a b).
Proof. unfold key_le. apply _. Defined.
#[global] Instance key_le_total : Total key_le.
Proof. intros a b. apply (total String.le). Qed.
#[global] Instance key_le_trans : Transitive key_le.
Proof. intros a b c. apply (transitivity (R := String.le)). Qed.

Definition _group_members_into_waves (by_ : string) (keyed : list (string * Z)) : list (string * list Z) :=
  let named := filter (fun ki => ki.1 <> "") keyed in
  let none_bucket := map snd (filter (fun ki => ki.1 = "") keyed) in
  merge_sort key_le (foldl add_bucket [] named) ++
  match none_bucket with [] => [] | _ => [("(none)", none_bucket)] end.

(** The members of a run, with the key each is grouped by. *)
Definition keyed_members (by_ : string) (ids : list Z) (ms : gmap Z member) : list (string * Z) :=
  omap (fun i => m ← ms !! i; Some (wave_key by_ m, i)) ids.

Definition waves_of (r : run) (ids : list Z) (ms : gmap Z member) : list (string * list Z) :=
  let by_ := if String.eqb (wave_by r) "" then "fault_domain" else wave_by r in
  _group_members_into_waves by_ (keyed_members by_ ids ms).

(** [max(1, ceil(n * pct / 100))], or the run's own number. *)
Definition _resolve_wave_concurrency (n : Z) (pct : option Z) (fallback : Z) : Z :=
  match pct with
  | Some p => if (1 <=? p) && (p <=? 100) then Z.max 1 ((n * p + 99) / 100) else Z.max 1 fallback
  | None => Z.max 1 fallback
  end.

(** At least one job of a wave runs at a time, and a percentage of the wave
    never asks for more jobs than it has members. *)
Lemma concurrency_bounds n p fallback :
  1 <= n -> 1 <= p <= 100 -> 1 <= _resolve_wave_concurrency n (Some p) fallback <= n.
Proof.
  intros Hn Hp. unfold _resolve_wave_concurrency.
  replace ((1 <=? p) && (p <=? 100)) with true by (symmetry; apply andb_true_iff; lia).
  assert ((n * p + 99) / 100 < n + 1) by (apply Z.div_lt_upper_bound; nia). lia.
Qed.

(** ** The action on one member *)

Section dispatch.
(** [reconcile_fleet_member]: whether the target row exists, or the
    exception; what it writes on the member table. *)
Context (reconcile : string * Z -> gmap Z member -> gmap Z member * result string bool).

Definition set_labels (labels : gmap string string) (m : member) : member :=
  {| m_project := m_project m; m_target := m_target m; m_name := m_name m;
     discovered_labels := discovered_labels m; assigned_labels := labels;
     fault_domain := fault_domain m; health_status := health_status m;
     lifecycle_state := lifecycle_state m; last_reconciled_at := last_reconciled_at m |}.

(** An exception rolls the session back: the table is what it was. *)
Definition _dispatch_action_for_member (i : Z) (act : string) (params : option (gmap string string))
    (ms : gmap Z member) : gmap Z member * (result_status * string) :=
  match ms !! i with
  | None => (ms, (R_SKIPPED, "Member not found — skipped."))
  | Some m =>
      if String.eqb act "re-reconcile" then
        match reconcile (m_target m) ms with
        | (ms', Ok true) => (ms', (R_SUCCEEDED, "Reconcile completed."))
        | (ms', Ok false) => (ms', (R_SKIPPED, "Target row missing — member skipped."))
        | (_, Err exc) => (ms, (R_FAILED, "Reconcile failed: " +:+ exc))
        end
      else if String.eqb act "set-labels" then
        let labels := default ∅ params in
        if forallb (fun kv => bool_decide (kv.1 ∈ ASSIGNED_LABEL_KEYS)) (map_to_list labels)
        then (<[i := set_labels labels m]> ms, (R_SUCCEEDED, "Assigned labels set"))
        else (ms, (R_FAILED, "set-labels failed: unknown assigned label key"))
      else (ms, (R_FAILED, "Unknown action '" +:+ act +:+ "'."))
  end.
End dispatch.

(** ** Gates between waves *)

Definition unstable (m : member) : bool :=
  let hs := lower (strip (default "" (health_status m))) in
  negb (String.eqb hs "") && negb (bool_decide (hs ∈ STABLE_HEALTH_STATUSES)).

Definition _wave_gate_passes (ids : list Z) (gate : string) (ms : gmap Z member) : bool :=
  if String.eqb gate "manual" || String.eqb gate "approval" then false
  else if String.eqb gate "health_stable" then
    forallb (fun i => match ms !! i with Some m => negb (unstable m) | None => true end) ids
  else false.

Definition _get_gate_wait_seconds (r : run) (f : fleet) : Z :=
  match strategy_id r with
  | Some s =>
      match strategies f !! s with
      | Some st => match gate_wait_seconds st with
                   | Some w => if 0 <? w then w else _DEFAULT_TIMED_WAIT_SECONDS
                   | None => _DEFAULT_TIMED_WAIT_SECONDS
                   end
      | None => _DEFAULT_TIMED_WAIT_SECONDS
      end
  | None => _DEFAULT_TIMED_WAIT_SECONDS
  end.

(** ** The routes *)

Definition cancel_run (now : Z) (r : run) : run :=
  if terminal_run (r_status r) then r
  else run_with r B_CANCELLED (current_wave_index r) None (Some now).

Definition cancel_fleet_bulk_op (now run_id : Z) (f : fleet) : fleet * result bulk_error unit :=
  match runs f !! run_id with
  | None => (f, Err (BulkRefused "not found"))
  | Some r =>
      if terminal_run (r_status r) then (f, Err (BulkRefused "already terminal"))
      else (set_runs <[run_id := cancel_run now r]> f, Ok tt)
  end.

Definition resume_fleet_bulk_op_route (run_id : Z) (f : fleet) : fleet * result bulk_error unit :=
  match runs f !! run_id with
  | None => (f, Err (BulkRefused "not found"))
  | Some r =>
      if bool_decide (r_status r = B_PAUSED_GATE)
      then (set_runs <[run_id := run_with r B_RUNNING (current_wave_index r) None None]> f, Ok tt)
      else (f, Err (BulkRefused "must be 'paused_gate'"))
  end.

(** ** The executor *)

Inductive bulk_outcome :=
| Completed (waves : Z)
| Cancelled (at_wave : Z)
| PausedGate (after_wave : Z).

Record tally := { succeeded : Z; failed : Z; skips : Z }.
Definition no_tally : tally := {| succeeded := 0; failed := 0; skips := 0 |}.
Definition count (s : result_status) (t : tally) : tally :=
  match s with
  | R_SUCCEEDED => {| succeeded := succeeded t + 1; failed := failed t; skips := skips t |}
  | R_FAILED => {| succeeded := succeeded t; failed := failed t + 1; skips := skips t |}
  | _ => {| succeeded := succeeded t; failed := failed t; skips := skips t + 1 |}
  end.

Section executor.
(** [dispatch]: a job, its writes on the member table and what its future
    answers; [order]: how the jobs of a wave finish. *)
Context (dispatch : Z -> string -> option (gmap string string) -> gmap Z member ->
                    gmap Z member * result string (result_status * string)).
Context (order : list Z -> list Z).
Context (cancel_first : bool) (cancel_in : nat -> bool).
Context (now : Z) (run_id : Z).

(** Result rows of a wave that do not exist yet. *)
Definition add_result (idx : nat) (f : fleet) (i : Z) : fleet :=
  match results f !! (run_id, i) with
  | Some _ => f
  | None =>
      set_results <[(run_id, i) :=
        {| wave_index := Z.of_nat idx;
           rr_fault_domain := match members f !! i with Some m => fault_domain m | None => None end;
           rr_status := R_PENDING; detail := None; rr_started_at := None; rr_completed_at := None |}]> f
  end.

Definition _update_result_row (st : result_status) (why : string) (r : run_result) : run_result :=
  {| wave_index := wave_index r; rr_fault_domain := rr_fault_domain r; rr_status := st;
     detail := Some why; rr_started_at := Some now; rr_completed_at := Some now |}.

(** One job: its writes, then its result row. *)
Definition job (act : string) (params : option (gmap string string)) (ft : fleet * tally) (i : Z) : fleet * tally :=
  let '(f, t) := ft in
  let '(ms, res) := dispatch i act params (members f) in
  let '(st, why) := match res with Ok sw => sw | Err exc => (R_FAILED, "Unexpected error: " +:+ exc) end in
  (set_results (alter (_update_result_row st why) (run_id, i)) (set_members ms f), count st t).

Definition fan_out (r : run) (ids : list Z) (ft : fleet * tally) : fleet * tally :=
  foldl (job (action r) (action_params r)) ft (order ids).

Definition update_run (g : run -> run) (f : fleet) : fleet := set_runs (alter g run_id) f.

(** The cancel route, when it is called at this point. *)
Definition maybe_cancel (b : bool) (f : fleet) : fleet :=
  if b then update_run (cancel_run now) f else f.

(** Pausing at the gate after wave [idx]; a timed gate also sets its end. *)
Definition pause_run (idx : nat) (until : option Z) (r : run) : run :=
  let r := run_with r B_PAUSED_GATE (Z.of_nat idx + 1) None None in
  match until with Some t => run_waits t r | None => r end.

Definition complete_run (r : run) : run := run_with r B_COMPLETED (current_wave_index r) None (Some now).

(** A cancelled run keeps its end, and gets one if it has none. *)
Definition stop_run (r : run) : run :=
  run_with r (r_status r) (current_wave_index r) None
    (match completed_at r with Some _ => None | None => Some now end).

(** One wave: the position, the new result rows, the jobs. *)
Definition run_wave (idx : nat) (r : run) (ids : list Z) (f : fleet) (t : tally) : fleet * tally :=
  let f := update_run (fun r => run_with r (r_status r) (Z.of_nat idx) None None) f in
  let f := foldl (add_result idx) f ids in
  let '(f, t) := fan_out r ids (f, t) in
  (maybe_cancel (cancel_in idx) f, t).

(** The gate after a wave: [None] lets the next wave run, [Some until] pauses. *)
Definition gate_after (r : run) (ids : list Z) (f : fleet) : option (option Z) :=
  if String.eqb (gate_mode r) "timed_wait" then Some (Some (now + _get_gate_wait_seconds r f))
  else if _wave_gate_passes ids (gate_mode r) (members f) then None
  else Some None.

(** The wave loop from wave [idx] on; [log] are the members dispatched. *)
Fixpoint run_waves (total : nat) (waves : list (string * list Z)) (idx resume_from : nat)
    (f : fleet) (t : tally) (log : list Z) : fleet * list Z * option (bulk_outcome * tally) :=
  match waves with
  | [] => (update_run complete_run f, log, Some (Completed (Z.of_nat total), t))
  | (_, ids) :: waves =>
      if (idx <? resume_from)%nat then run_waves total waves (S idx) resume_from f t log else
      match runs f !! run_id with
      | None => (f, log, None)
      | Some r =>
          if bool_decide (r_status r = B_CANCELLED)
          then (update_run stop_run f, log, Some (Cancelled (Z.of_nat idx), t))
          else
            let '(f, t) := run_wave idx r ids f t in
            let log := log ++ order ids in
            match (match waves with [] => None | _ => gate_after r ids f end) with
            | None => run_waves total waves (S idx) resume_from f t log
            | Some until => (update_run (pause_run idx until) f, log, Some (PausedGate (Z.of_nat idx), t))
            end
      end
  end.

Definition fail_run (msg : string) (f : fleet) : fleet :=
  update_run (fun r => run_with r B_FAILED (current_wave_index r) (Some msg) None) f.

(** From the wave plan on. *)
Definition run_plan (resuming : bool) (r : run) (ids : list Z) (f : fleet)
  : fleet * list Z * result bulk_error (bulk_outcome * tally) :=
  let waves := waves_of r ids (members f) in
  let f := set_runs <[run_id := run_started (if resuming then None else Some now) (Z.of_nat (length waves)) r]> f in
  match waves with
  | [] =>
      (update_run complete_run f, [], Ok (Completed 0, no_tally))
  | _ =>
      let f := maybe_cancel cancel_first f in
      match run_waves (length waves) waves 0 (Z.to_nat (current_wave_index r)) f no_tally [] with
      | (f, log, Some o) => (f, log, Ok o)
      | (f, log, None) => (f, log, Err (BulkValueError "run row is gone"))
      end
  end.

Definition _execute_bulk_run_with_db (resuming : bool) (f : fleet)
  : fleet * list Z * result bulk_error (bulk_outcome * tally) :=
  match runs f !! run_id with
  | None => (f, [], Err (BulkValueError "not found"))
  | Some r =>
      if terminal_run (r_status r) || bool_decide (r_status r = B_RUNNING)
      then (f, [], Err (BulkValueError "already in this status"))
      else
      match decisions f !! decision_id r with
      | None => (fail_run "FleetDecision not found." f, [], Err (BulkValueError "FleetDecision not found."))
      | Some d =>
          if negb (bool_decide (action r ∈ SAFE_ACTIONS)) then
            (fail_run "Action is not in the safe-actions allowlist" f, [],
             Err (BulkValueError "Action is not in the safe-actions allowlist"))
          else if resuming then
            run_plan true r (filter (fun i => members f !! i <> None) (resolved_member_ids d)) f
          else
            match _assert_decision_fresh now d (members f) with
            | Err why => (fail_run "stale decision" f, [], Err (StaleDecisionError why))
            | Ok ids =>
                run_plan false r ids
                  (set_decisions <[decision_id r := decision_with CONSUMED d]> f)
            end
      end
  end.

(** The Celery tasks. *)
Definition run_fleet_bulk_op : fleet -> fleet * list Z * result bulk_error (bulk_outcome * tally) :=
  _execute_bulk_run_with_db false.

Definition resume_fleet_bulk_op (f : fleet) : fleet * list Z * result bulk_error (bulk_outcome * tally) :=
  match runs f !! run_id with
  | None => (f, [], Err (BulkValueError "not found"))
  | Some r =>
      if bool_decide (r_status r = B_PAUSED_GATE) then _execute_bulk_run_with_db true f
      else (f, [], Err (BulkValueError "cannot be resumed"))
  end.
End executor.

(** ** Waves: a partition of the members, in a fixed order *)

Lemma add_bucket_keys (b : list (string * list Z)) ki k : k ∈ (add_bucket b ki).*1 <-> k = ki.1 \/ k ∈ b.*1.
Proof. apply dset_keys. Qed.

Lemma dset_fill (k : string) (l : list Z) (b : list (string * list Z)) :
  NoDup b.*1 ->
  concat (dset k (default [] (dget k b) ++ l) b).*2 ≡ₚ concat b.*2 ++ l.
Proof.
  induction b as [|[k' l'] b IH]; cbn; intros Hnd.
  - by rewrite app_nil_r.
  - apply NoDup_cons in Hnd as [Hk' Hnd]. destruct (decide (k = k')) as [->|Hk]; cbn.
    + rewrite <- !app_assoc. f_equiv. apply Permutation_app_comm.
    + rewrite IH by done. by rewrite app_assoc.
Qed.

Lemma buckets_spec (named : list (string * Z)) :
  let b := foldl add_bucket [] named in
  NoDup b.*1 /\ concat b.*2 ≡ₚ named.*2 /\ (forall k, k ∈ b.*1 -> k ∈ named.*1) /\
  (forall k ids i, (k, ids) ∈ b -> i ∈ ids -> (k, i) ∈ named) /\
  (forall k ids, (k, ids) ∈ b -> ids <> []).
Proof.
  induction named as [|[k i] named IH] using rev_ind; cbn.
  - repeat split; [constructor|done|set_solver|set_solver|set_solver].
  - rewrite foldl_app. cbn. set (b := foldl add_bucket [] named) in *.
    destruct IH as (Hnd & Hp & Hk & Hin & Hne). repeat split.
    + by apply dset_NoDup.
    + unfold add_bucket. cbn. rewrite dset_fill by done. rewrite Hp, fmap_app. done.
    + intros k'. rewrite add_bucket_keys, fmap_app, elem_of_app. cbn. set_solver.
    + intros k' ids j Hb Hj. apply elem_of_dget in Hb; [|by apply dset_NoDup].
      unfold add_bucket in Hb. rewrite dget_dset in Hb. cbn in Hb. apply elem_of_app.
      destruct (decide (k' = k)) as [->|]; [|left; eapply Hin; [by apply dget_elem_of|done]].
      injection Hb as <-. apply elem_of_app in Hj as [Hj|Hj]; [left|set_solver].
      destruct (dget k b) as [l|] eqn:El; cbn in Hj; [|set_solver].
      eapply Hin; [by apply dget_elem_of|done].
    + intros k' ids Hb. apply elem_of_dget in Hb; [|by apply dset_NoDup].
      unfold add_bucket in Hb. rewrite dget_dset in Hb. cbn in Hb.
      destruct (decide (k' = k)) as [->|]; [injection Hb as <-; by destruct (default [] _)|].
      eapply Hne. by apply dget_elem_of.
Qed.

Lemma partition_perm (keyed : list (string * Z)) :
  (filter (fun ki => ki.1 <> "") keyed).*2 ++ (filter (fun ki => ki.1 = "") keyed).*2 ≡ₚ keyed.*2.
Proof.
  induction keyed as [|[k i] keyed IH]; [done|].
  destruct (decide (k = "")) as [->|Hk].
  - rewrite filter_cons_False, filter_cons_True by (cbn; congruence).
    rewrite !fmap_cons, <- Permutation_middle. by rewrite IH.
  - rewrite filter_cons_True, filter_cons_False by (cbn; congruence).
    rewrite !fmap_cons. cbn. by rewrite IH.
Qed.

Lemma waves_perm by_ (keyed : list (string * Z)) :
  concat (_group_members_into_waves by_ keyed).*2 ≡ₚ keyed.*2.
Proof.
  unfold _group_members_into_waves. rewrite fmap_app, concat_app.
  rewrite <- partition_perm. apply Permutation_app.
  - rewrite merge_sort_Permutation. destruct (buckets_spec (filter (fun ki => ki.1 <> "") keyed)) as (_ & Hp & _). exact Hp.
  - destruct (filter (fun ki => ki.1 = "") keyed); cbn; [done|]. by rewrite app_nil_r.
Qed.

Lemma keyed_members_ids by_ ids ms :
  (keyed_members by_ ids ms).*2 = filter (fun i => ms !! i <> None) ids.
Proof.
  unfold keyed_members in *. induction ids as [|i ids IH]; [done|]. rewrite filter_cons.
  destruct (ms !! i) as [m|] eqn:E; cbn; rewrite E; cbn.
  - rewrite decide_True by congruence. f_equal. exact IH.
  - rewrite decide_False by congruence. exact IH.
Qed.

Lemma keyed_members_elem by_ ids ms k i :
  (k, i) ∈ keyed_members by_ ids ms <-> i ∈ ids /\ exists m, ms !! i = Some m /\ k = wave_key by_ m.
Proof.
  unfold keyed_members. rewrite list_elem_of_omap. split.
  - intros (i' & Hi & Hm). apply bind_Some in Hm as (m & Hm & [= <- <-]). eauto.
  - intros (Hi & m & Hm & ->). exists i. cbn. by rewrite Hm.
Qed.

(** The key the waves of a run are grouped by. *)
Definition grouping (r : run) : string :=
  if String.eqb (wave_by r) "" then "fault_domain" else wave_by r.

Definition wave_label (k : string) : string := if String.eqb k "" then "(none)" else k.

Lemma named_sorted (b : list (string * list Z)) :
  NoDup b.*1 -> StronglySorted (fun a b => String.le a.1 b.1 /\ a.1 <> b.1) (merge_sort key_le b).
Proof.
  intros Hnd.
  assert (Hs : StronglySorted key_le (merge_sort key_le b)).
  { apply StronglySorted_merge_sort; apply _. }
  assert (Hnd' : NoDup (merge_sort key_le b).*1) by by rewrite merge_sort_Permutation.
  revert Hs Hnd'. induction (merge_sort key_le b) as [|x l IH]; intros Hs Hnd'; constructor.
  - apply StronglySorted_inv in Hs as [Hs _]. apply NoDup_cons in Hnd' as [_ ?]. auto.
  - apply StronglySorted_inv in Hs as [_ Hx]. apply NoDup_cons in Hnd' as [Hn _].
    rewrite Forall_forall in *. intros y Hy. split; [by apply Hx|].
    intros Heq. apply Hn. rewrite Heq. by apply list_elem_of_fmap_2.
Qed.

Lemma none_wave_elem (keyed : list (string * Z)) i :
  i ∈ map snd (filter (fun ki => ki.1 = "") keyed) -> ("", i) ∈ keyed.
Proof.
  intros Hi. apply list_elem_of_fmap in Hi as ([k j] & -> & Hi).
  apply list_elem_of_filter in Hi as [Hk Hi]. cbn in Hk. by subst k.
Qed.

Lemma wave_elem by_ (keyed : list (string * Z)) k l :
  (k, l) ∈ _group_members_into_waves by_ keyed ->
  l <> [] /\ forall i, i ∈ l -> exists k0, (k0, i) ∈ keyed /\ k = wave_label k0.
Proof.
  unfold _group_members_into_waves. rewrite elem_of_app, merge_sort_Permutation. intros [Hb|Hn].
  - destruct (buckets_spec (filter (fun ki => ki.1 <> "") keyed)) as (_ & _ & _ & Hin & Hne).
    split; [by eapply Hne|]. intros i Hi. exists k.
    specialize (Hin k l i Hb Hi). apply list_elem_of_filter in Hin as [Hk Hin]. cbn in Hk.
    split; [done|]. unfold wave_label. by rewrite (proj2 (String.eqb_neq k "")).
  - pose proof (none_wave_elem keyed) as Hnone.
    destruct (map snd _) as [|x xs]; [by apply elem_of_nil in Hn|].
    apply list_elem_of_singleton in Hn. injection Hn as -> ->.
    split; [done|]. intros i Hi. exists "". auto.
Qed.

(** The waves of a run are a partition of its members that exist: each of
    them is in the waves exactly as often as in the decision, a wave holds the
    members of one key only and none is empty, the keyed waves come in
    strictly ascending key order, and the members without a key come last,
    in the wave "(none)". *)
Theorem waves_partition (r : run) (ids : list Z) (ms : gmap Z member) :
  let waves := waves_of r ids ms in
  concat waves.*2 ≡ₚ filter (fun i => ms !! i <> None) ids /\
  (forall k l, (k, l) ∈ waves -> l <> [] /\
     forall i, i ∈ l -> exists m, ms !! i = Some m /\ k = wave_label (wave_key (grouping r) m)) /\
  exists named none, waves = named ++ none /\
    StronglySorted (fun a b => String.le a.1 b.1 /\ a.1 <> b.1) named /\
    (none = [] \/ exists l, none = [("(none)", l)]) /\
    (forall k l i m, (k, l) ∈ none -> i ∈ l -> ms !! i = Some m -> wave_key (grouping r) m = "").
Proof.
  cbn zeta. unfold waves_of. fold (grouping r). set (keyed := keyed_members (grouping r) ids ms).
  split; [|split].
  - rewrite waves_perm. unfold keyed. by rewrite keyed_members_ids.
  - intros k l Hw. apply wave_elem in Hw as [Hne Hi]. split; [done|].
    intros i (k0 & Hk & ->)%Hi. apply keyed_members_elem in Hk as (_ & m & Hm & ->). eauto.
  - eexists _, _. split; [reflexivity|].
    split; [by apply named_sorted; apply buckets_spec|]. split.
    + destruct (map snd _); [by left|right; eauto].
    + intros k l i m Hn Hi Hm.
      assert (Hkey : ("", i) ∈ keyed).
      { apply none_wave_elem. destruct (map snd _); [by apply elem_of_nil in Hn|].
        apply list_elem_of_singleton in Hn. by injection Hn as _ ->. }
      apply keyed_members_elem in Hkey as (_ & m' & Hm' & ->). congruence.
Qed.

(** ** The executor *)

(** What an execution never changes of a run. *)
Definition same_plan (r r' : run) : Prop :=
  decision_id r' = decision_id r /\ action r' = action r /\ wave_by r' = wave_by r /\
  gate_mode r' = gate_mode r /\ strategy_id r' = strategy_id r.

#[global] Instance same_plan_trans : Transitive same_plan.
Proof. intros a b c. unfold same_plan. intuition congruence. Qed.

Section executor_lemmas.
Context (dispatch : Z -> string -> option (gmap string string) -> gmap Z member ->
                    gmap Z member * result string (result_status * string)).
Context (order : list Z -> list Z).
Context (cancel_first : bool) (cancel_in : nat -> bool).
Context (now : Z) (run_id : Z).

(** The members the waves [ws] dispatch, in order. *)
Definition wave_log (ws : list (string * list Z)) : list Z := concat (map (fun w => order w.2) ws).

Lemma fan_out_frame r ids ft :
  let f' := (fan_out dispatch order now run_id r ids ft).1 in
  runs f' = runs ft.1 /\ decisions f' = decisions ft.1 /\ strategies f' = strategies ft.1.
Proof.
  unfold fan_out. induction (order ids) as [|i l IH] using rev_ind; [done|].
  cbn zeta in *. rewrite foldl_app. cbn [foldl].
  destruct (foldl _ _ l) as [f t]. cbn in IH |- *.
  destruct (dispatch i _ _ _) as [ms res]. by destruct res as [[??]|?].
Qed.

Lemma add_results_frame idx ids f :
  let f' := foldl (add_result run_id idx) f ids in
  runs f' = runs f /\ decisions f' = decisions f /\ strategies f' = strategies f.
Proof.
  induction ids as [|i l IH] using rev_ind; [done|]. cbn zeta in *.
  rewrite foldl_app. cbn. unfold add_result. by destruct (results _ !! _).
Qed.

Lemma run_wave_frame idx r ids f t :
  let f' := (run_wave dispatch order cancel_in now run_id idx r ids f t).1 in
  decisions f' = decisions f /\
  runs f' !! run_id =
    (fun r => (if cancel_in idx then cancel_run now else id)
                (run_with r (r_status r) (Z.of_nat idx) None None)) <$> runs f !! run_id.
Proof.
  cbn zeta. unfold run_wave.
  pose proof (add_results_frame idx ids
    (update_run run_id (fun r => run_with r (r_status r) (Z.of_nat idx) None None) f)) as (Hr & Hd & _).
  set (f1 := foldl _ _ ids) in *.
  pose proof (fan_out_frame r ids (f1, t)) as (Hr2 & Hd2 & _).
  destruct (fan_out _ _ _ _ _ _ _) as [f2 t2]. cbn in *.
  assert (Hl : runs f2 !! run_id = (fun r => run_with r (r_status r) (Z.of_nat idx) None None) <$> runs f !! run_id)
    by (rewrite Hr2, Hr; cbn; apply lookup_alter_eq).
  unfold maybe_cancel. destruct (cancel_in idx); cbn; (split; [by rewrite Hd2, Hd|]).
  - rewrite lookup_alter_eq, Hl, <- option_fmap_compose. done.
  - done.
Qed.

(** How an execution over [waves] ends: [done_] waves of them dispatched
    before the end, the run row [r] left. *)
Definition ends (total : nat) (waves : list (string * list Z)) (first done_ : nat) (o : bulk_outcome) (r : run) : Prop :=
  match o with
  | Completed n => n = Z.of_nat total /\ done_ = length waves /\ r_status r = B_COMPLETED
  | PausedGate k => (0 < done_ < length waves)%nat /\ k + 1 = Z.of_nat (first + done_) /\
      r_status r = B_PAUSED_GATE /\ current_wave_index r = k + 1
  | Cancelled k => (done_ < length waves)%nat /\ k = Z.of_nat (first + done_) /\ r_status r = B_CANCELLED
  end.

Lemma stays_in_plan (b : bool) idx r :
  same_plan r ((if b then cancel_run now else id) (run_with r (r_status r) idx None None)).
Proof. unfold cancel_run. destruct b; cbn; [destruct (terminal_run _)|]; done. Qed.

Lemma run_waves_spec total waves idx resume_from f t log r :
  runs f !! run_id = Some r ->
  exists f' done_ o t' r',
    run_waves dispatch order cancel_in now run_id total waves idx resume_from f t log =
      (f', log ++ wave_log (take done_ (drop (resume_from - idx) waves)), Some (o, t')) /\
    runs f' !! run_id = Some r' /\ same_plan r r' /\ decisions f' = decisions f /\
    ends total (drop (resume_from - idx) waves) (idx + (resume_from - idx)) done_ o r'.
Proof.
  revert idx f t log r. induction waves as [|[k ids] waves IH]; intros idx f t log r Hr; cbn [run_waves].
  - eexists _, 0%nat, _, _, _. rewrite drop_nil, app_nil_r. split_and!; [done|..].
    + cbn. rewrite lookup_alter_eq, Hr. done.
    + done.
    + done.
    + done.
  - destruct (Nat.ltb_spec idx resume_from) as [Hlt|Hge].
    { destruct (IH (S idx) f t log r Hr) as (f' & n & o & t' & r' & E & Hr' & Hp & Hd & He).
      replace (resume_from - idx)%nat with (S (resume_from - S idx)) by lia. cbn [drop].
      replace (idx + S (resume_from - S idx))%nat with (S idx + (resume_from - S idx))%nat by lia.
      by exists f', n, o, t', r'. }
    replace (resume_from - idx)%nat with 0%nat by lia. rewrite drop_0, Nat.add_0_r, Hr.
    destruct (bool_decide_reflect (r_status r = B_CANCELLED)) as [Hc|Hc].
    { eexists _, 0%nat, _, _, _. split_and!.
      - cbn. by rewrite app_nil_r.
      - cbn. rewrite lookup_alter_eq, Hr. done.
      - done.
      - done.
      - cbn. split_and!; [lia|lia|done]. }
    pose proof (run_wave_frame idx r ids f t) as [Hd Hw]. cbn zeta in Hd, Hw.
    pose proof (stays_in_plan (cancel_in idx) (Z.of_nat idx) r) as Hp.
    rewrite Hr in Hw. cbn in Hw. set (r1 := _ (run_with _ _ _ _ _)) in Hw, Hp.
    destruct (run_wave _ _ _ _ _ idx r ids f t) as [f1 t1]. cbn in Hd, Hw.
    destruct (match waves with [] => None | _ => _ end) as [until|] eqn:Hg.
    { eexists _, 1%nat, _, _, _. split_and!.
      - cbn. by rewrite app_nil_r.
      - cbn. rewrite lookup_alter_eq, Hw. done.
      - etransitivity; [exact Hp|]. by destruct until.
      - done.
      - destruct waves; [done|]. cbn. split_and!; try lia; by destruct until. }
    destruct (IH (S idx) f1 t1 (log ++ order ids) r1 Hw) as (f' & n & o & t' & r' & E & Hr' & Hp' & Hd' & He).
    replace (resume_from - S idx)%nat with 0%nat in E, He by lia. rewrite drop_0 in E, He.
    rewrite Nat.add_0_r in He.
    exists f', (S n), o, t', r'. split_and!; [|done|by etransitivity|congruence|].
    + rewrite E. cbn. by rewrite app_assoc.
    + destruct o; cbn in He |- *; intuition lia.
Qed.

Lemma run_plan_spec resuming r ids f :
  runs f !! run_id = Some r ->
  let waves := waves_of r ids (members f) in
  let first := Z.to_nat (current_wave_index r) in
  exists f' done_ o t' r',
    run_plan dispatch order cancel_first cancel_in now run_id resuming r ids f =
      (f', wave_log (take done_ (drop first waves)), Ok (o, t')) /\
    runs f' !! run_id = Some r' /\ same_plan r r' /\ decisions f' = decisions f /\
    ends (length waves) (drop first waves) first done_ o r'.
Proof.
  intros Hr. cbn zeta. unfold run_plan. set (waves := waves_of r ids (members f)).
  set (r0 := run_started _ _ r). set (f0 := set_runs _ f).
  assert (H0 : runs f0 !! run_id = Some r0) by apply lookup_insert_eq.
  assert (Hp0 : same_plan r r0) by done.
  destruct waves as [|w waves'] eqn:Ew.
  { eexists _, 0%nat, _, _, (complete_run now r0). rewrite drop_nil. split_and!; [done|..|done|done].
    - cbn [runs update_run set_runs]. by rewrite lookup_alter_eq, H0.
    - done. }
  rewrite <- Ew in *. set (f1 := maybe_cancel _ _ _ f0).
  assert (H1 : exists r1, runs f1 !! run_id = Some r1 /\ same_plan r0 r1).
  { unfold f1, maybe_cancel. destruct cancel_first; [|by exists r0].
    exists (cancel_run now r0). cbn [runs update_run set_runs]. rewrite lookup_alter_eq, H0.
    split; [done|]. unfold cancel_run. by destruct (terminal_run _). }
  destruct H1 as (r1 & H1 & Hp1).
  destruct (run_waves_spec (length waves) waves 0 (Z.to_nat (current_wave_index r)) f1 no_tally [] r1 H1)
    as (f' & n & o & t' & r' & E & Hr' & Hp & Hd & He).
  rewrite Nat.sub_0_r in E, He. exists f', n, o, t', r'. split_and!.
  - by rewrite E.
  - done.
  - by do 2 (etransitivity; [eassumption|]).
  - rewrite Hd. unfold f1, maybe_cancel. by destruct cancel_first.
  - exact He.
Qed.
End executor_lemmas.

(** ** Starting a run *)

(** What the executor promises to start: a run on a fresh decision. *)
Definition startable (now run_id : Z) (f : fleet) : Prop :=
  exists r d, runs f !! run_id = Some r /\ decisions f !! decision_id r = Some d /\
    (r_status r = B_PENDING \/ r_status r = B_PAUSED_GATE) /\
    action r ∈ SAFE_ACTIONS /\
    d_status d = RESOLVED /\ now - resolved_at d <= DECISION_TTL_SECONDS /\
    Forall (fun i => members f !! i <> None) (resolved_member_ids d).

Lemma assert_fresh_spec now d ms :
  match _assert_decision_fresh now d ms with
  | Ok ids => ids = resolved_member_ids d /\ d_status d = RESOLVED /\
      now - resolved_at d <= DECISION_TTL_SECONDS /\ Forall (fun i => ms !! i <> None) ids
  | Err _ => ~ (d_status d = RESOLVED /\ now - resolved_at d <= DECISION_TTL_SECONDS /\
      Forall (fun i => ms !! i <> None) (resolved_member_ids d))
  end.
Proof.
  unfold _assert_decision_fresh.
  destruct (bool_decide_reflect (d_status d = RESOLVED)) as [Hs|Hs]; cbn; [|tauto].
  destruct (Z.ltb_spec DECISION_TTL_SECONDS (now - resolved_at d)) as [Ha|Ha]; [intuition lia|].
  destruct (bool_decide_reflect (filter (fun i => ms !! i = None) (resolved_member_ids d) = [])) as [Hm|Hm].
  - split_and!; [done..|]. rewrite Forall_forall. intros i Hi Hn.
    assert (i ∈ filter (fun i => ms !! i = None) (resolved_member_ids d)) by by apply list_elem_of_filter.
    rewrite Hm in *. set_solver.
  - intros (_ & _ & Hall). apply Hm. apply elem_of_nil_inv. intros i Hi.
    apply list_elem_of_filter in Hi as [Hn Hi]. rewrite Forall_forall in Hall. by apply (Hall i).
Qed.

Definition consume (r : run) (d : decision) (f : fleet) : fleet :=
  set_decisions <[decision_id r := decision_with CONSUMED d]> f.

Lemma start_cases dispatch order cancel_first cancel_in now run_id f :
  (exists r d, startable now run_id f /\ runs f !! run_id = Some r /\ decisions f !! decision_id r = Some d /\
     Forall (fun i => members f !! i <> None) (resolved_member_ids d) /\
     run_fleet_bulk_op dispatch order cancel_first cancel_in now run_id f =
       run_plan dispatch order cancel_first cancel_in now run_id false r (resolved_member_ids d) (consume r d f)) \/
  (~ startable now run_id f /\ exists f' e,
     run_fleet_bulk_op dispatch order cancel_first cancel_in now run_id f = (f', [], Err e) /\
     (f' = f \/ exists msg, f' = fail_run run_id msg f)).
Proof.
  unfold run_fleet_bulk_op, _execute_bulk_run_with_db, startable.
  destruct (runs f !! run_id) as [r|] eqn:Hr; [|right; split; [naive_solver|eauto 6]].
  destruct (terminal_run (r_status r) || _) eqn:Hst.
  { right. split; [|eauto 6]. intros (r' & d & [= <-] & _ & Hs & _).
    by destruct Hs as [Hs|Hs]; rewrite Hs in Hst. }
  destruct (decisions f !! decision_id r) as [d|] eqn:Hd;
    [|right; split; [naive_solver congruence|eauto 8]].
  destruct (bool_decide_reflect (action r ∈ SAFE_ACTIONS)) as [Ha|Ha]; cbn;
    [|right; split; [naive_solver congruence|eauto 8]].
  pose proof (assert_fresh_spec now d (members f)) as Hf.
  destruct (_assert_decision_fresh now d (members f)) as [ids|why].
  - left. destruct Hf as (-> & Hs & Hage & Hall). exists r, d. split_and!; [|done..].
    exists r, d. split_and!; try done. destruct (r_status r); cbn in Hst; try discriminate; auto.
  - right. split; [|eauto 8]. intros (r' & d' & [= <-] & Hd' & _ & _ & Hrest).
    rewrite Hd in Hd'. injection Hd' as <-. auto.
Qed.

(** A bulk run starts exactly when its action is on the allowlist, its
    row is neither terminal nor running and its decision is fresh: resolved,
    at most 900 seconds old, every member of it still there.  When it starts,
    the decision is consumed: no run on it, this one or another, at this or
    any later time, can start from the state that is left.  When it does
    not, no member is dispatched, and members, result rows, decisions and the
    other runs are what they were. *)
Theorem start_fresh_single_use dispatch order cancel_first cancel_in now run_id f :
  match run_fleet_bulk_op dispatch order cancel_first cancel_in now run_id f with
  | (f', _, Ok _) =>
      startable now run_id f /\
      forall now' run_id' r r', runs f !! run_id = Some r -> runs f' !! run_id' = Some r' ->
        decision_id r' = decision_id r -> ~ startable now' run_id' f'
  | (f', log, Err _) =>
      ~ startable now run_id f /\ log = [] /\
      members f' = members f /\ results f' = results f /\ decisions f' = decisions f /\
      forall i, i <> run_id -> runs f' !! i = runs f !! i
  end.
Proof.
  destruct (start_cases dispatch order cancel_first cancel_in now run_id f)
    as [(r & d & Hs & Hr & Hd & Hall & ->)|(Hs & f' & e & -> & Hf')].
  - destruct (run_plan_spec dispatch order cancel_first cancel_in now run_id false r
      (resolved_member_ids d) (consume r d f) Hr) as (f' & n & o & t & r1 & -> & _ & _ & Hdec & _).
    split; [done|]. intros now' run_id' r2 r3 H2 H3 Heq (r4 & d4 & H4 & Hd4 & _ & _ & Hres & _).
    rewrite H3 in H4. injection H4 as <-. rewrite Hr in H2. injection H2 as <-.
    rewrite Hdec, Heq in Hd4. cbn in Hd4. rewrite lookup_insert_eq in Hd4. injection Hd4 as <-.
    discriminate.
  - split_and!; [done|done|..]; destruct Hf' as [->|[msg ->]]; try done.
    intros i Hi. cbn. by rewrite lookup_alter_ne.
Qed.

(** ** A run over its executions *)

(** The wave plan of a run in a state: of the members of its decision that
    exist. *)
Definition plan_of (run_id : Z) (f : fleet) : list (string * list Z) :=
  match runs f !! run_id with
  | Some r =>
      match decisions f !! decision_id r with
      | Some d => waves_of r (filter (fun i => members f !! i <> None) (resolved_member_ids d)) (members f)
      | None => []
      end
  | None => []
  end.

(** A run started and then resumed by the task after each gate, with the plan
    [W] every time: the state left, the members dispatched and how the last
    execution ended.  Each execution has its own actions, order of finish,
    cancel calls and time, and anything but the row of the run may change
    between two of them. *)
Inductive executed (run_id : Z) (W : list (string * list Z)) : fleet -> list Z -> bulk_outcome -> Prop :=
| executed_start dispatch order cancel_first cancel_in now f r f' log o t :
    (forall l, order l ≡ₚ l) ->
    runs f !! run_id = Some r -> current_wave_index r = 0 -> plan_of run_id f = W ->
    run_fleet_bulk_op dispatch order cancel_first cancel_in now run_id f = (f', log, Ok (o, t)) ->
    executed run_id W f' log o
| executed_resume dispatch order cancel_first cancel_in now f log k g g' log' o t :
    (forall l, order l ≡ₚ l) ->
    executed run_id W f log (PausedGate k) ->
    runs g !! run_id = runs f !! run_id -> plan_of run_id g = W ->
    resume_fleet_bulk_op dispatch order cancel_first cancel_in now run_id g = (g', log', Ok (o, t)) ->
    executed run_id W g' (log ++ log') o.

(** How many waves an outcome says are done. *)
Definition waves_done (W : list (string * list Z)) (o : bulk_outcome) : Z :=
  match o with Completed _ => Z.of_nat (length W) | PausedGate k => k + 1 | Cancelled k => k end.

(** [log] is the first [n] waves, one after the other. *)
Definition dispatched (W : list (string * list Z)) (n : nat) (log : list Z) : Prop :=
  exists logs, log = concat logs /\ Forall2 Permutation logs (take n W).*2.

Lemma wave_log_dispatched order W :
  (forall l, order l ≡ₚ l) -> Forall2 Permutation (map (fun w : string * list Z => order w.2) W) W.*2.
Proof. intros Ho. induction W; constructor; auto. Qed.

Lemma dispatched_app order W first n log :
  (forall l, order l ≡ₚ l) -> dispatched W first log ->
  dispatched W (first + n) (log ++ wave_log order (take n (drop first W))).
Proof.
  intros Ho (logs & -> & Hl). exists (logs ++ map (fun w => order w.2) (take n (drop first W))).
  split; [by rewrite concat_app|]. rewrite <- take_take_drop, fmap_app.
  apply Forall2_app; [done|by apply wave_log_dispatched].
Qed.

Lemma filter_all_id (P : Z -> Prop) `{!forall i, Decision (P i)} (l : list Z) : Forall P l -> filter P l = l.
Proof. induction 1; [done|]. rewrite filter_cons_True by done. by f_equal. Qed.

(** What an execution that starts at wave [first] leaves. *)
Definition run_at (run_id : Z) (W : list (string * list Z)) (f : fleet) (log : list Z) (o : bulk_outcome) : Prop :=
  exists n r, dispatched W n log /\ (n <= length W)%nat /\ Z.of_nat n = waves_done W o /\
    runs f !! run_id = Some r /\
    match o with
    | PausedGate k => r_status r = B_PAUSED_GATE /\ current_wave_index r = k + 1 /\ 0 <= k /\ k + 1 < Z.of_nat (length W)
    | Completed n => n = Z.of_nat (length W) /\ r_status r = B_COMPLETED
    | Cancelled _ => r_status r = B_CANCELLED
    end.

Lemma ends_run_at order run_id W f log first n o r :
  (forall l, order l ≡ₚ l) -> dispatched W first log -> (first <= length W)%nat ->
  runs f !! run_id = Some r -> ends (length W) (drop first W) first n o r ->
  run_at run_id W f (log ++ wave_log order (take n (drop first W))) o.
Proof.
  intros Ho Hl Hf Hr He. exists (first + n)%nat, r. unfold ends in He. rewrite length_drop in He.
  split; [by apply dispatched_app|]. destruct o; cbn; intuition lia.
Qed.

Lemma executed_run_at run_id W f log o : executed run_id W f log o -> run_at run_id W f log o.
Proof.
  induction 1 as [dispatch order cancel_first cancel_in now f r f' log o t Ho Hr Hi HW E
    |dispatch order cancel_first cancel_in now f log k g g' log' o t Ho _ IH Hr HW E].
  - destruct (start_cases dispatch order cancel_first cancel_in now run_id f)
      as [(r' & d & _ & Hr' & Hd & Hall & E')|(_ & f1 & e & E' & _)]; rewrite E' in E; [|done].
    rewrite Hr in Hr'. injection Hr' as <-.
    destruct (run_plan_spec dispatch order cancel_first cancel_in now run_id false r
      (resolved_member_ids d) (consume r d f) Hr) as (f1 & n & o1 & t1 & r1 & E1 & Hr1 & _ & _ & He).
    rewrite E1 in E. injection E as <- <- <- <-.
    assert (HW' : waves_of r (resolved_member_ids d) (members (consume r d f)) = W).
    { rewrite <- HW. unfold plan_of. rewrite Hr, Hd. cbn. by rewrite filter_all_id. }
    clear E1 E'. change (members (consume r d f)) with (members f) in *.
    rewrite Hi, HW' in *. change (Z.to_nat 0) with 0%nat in *.
    apply (ends_run_at order run_id W f1 [] 0 n o1 r1 Ho); try done; [by exists []|lia].
  - destruct IH as (n & r & Hl & Hn & Hwd & Hrf & Hst & Hcw & Hk & Hlt).
    rewrite Hrf in Hr. unfold resume_fleet_bulk_op, _execute_bulk_run_with_db in E.
    rewrite Hr in E. unfold plan_of in HW. rewrite Hr, Hst in *.
    rewrite (bool_decide_eq_true_2 (B_PAUSED_GATE = B_PAUSED_GATE)) in E by done. cbn [orb] in E.
    rewrite bool_decide_eq_false_2 in E by done. cbn [terminal_run orb] in E.
    destruct (decisions g !! decision_id r) as [d|]; [|done].
    destruct (negb _); [done|].
    destruct (run_plan_spec dispatch order cancel_first cancel_in now run_id true r
      (filter (fun i => members g !! i <> None) (resolved_member_ids d)) g Hr)
      as (f1 & m & o1 & t1 & r1 & E1 & Hr1 & _ & _ & He).
    rewrite E1 in E. injection E as <- <- <- <-. rewrite HW, Hcw in *. cbn in Hwd.
    replace (Z.to_nat (k + 1)) with n in * by lia.
    by apply (ends_run_at order run_id W f1 log n m o1 r1 Ho).
Qed.

(** A run that completed dispatched its plan. *)
Lemma executed_completed run_id W f log n : executed run_id W f log (Completed n) ->
  n = Z.of_nat (length W) /\ log ≡ₚ concat W.*2.
Proof.
  intros (j & r & (logs & -> & Hl) & Hj & Hwd & _ & -> & _)%executed_run_at. split; [done|]. cbn in Hwd.
  rewrite take_ge in Hl by lia. clear -Hl. induction Hl; cbn; [done|]. by f_equiv.
Qed.

(** C37. However often a run is paused at a gate and resumed by the task, as
    long as its wave plan stays the same, what it dispatched over all its
    executions is the first waves of the plan, one wave after the other, each
    member of a wave once, as many waves as the last outcome says: all of
    them when it completed, those before the gate or the cancel otherwise. *)
Theorem executed_exactly_once run_id W f log o :
  executed run_id W f log o ->
  0 <= waves_done W o <= Z.of_nat (length W) /\
  dispatched W (Z.to_nat (waves_done W o)) log /\
  (forall n, o = Completed n -> n = Z.of_nat (length W) /\ log ≡ₚ concat W.*2) /\
  exists r, runs f !! run_id = Some r /\
    r_status r = match o with Completed _ => B_COMPLETED | PausedGate _ => B_PAUSED_GATE | Cancelled _ => B_CANCELLED end.
Proof.
  intros He. pose proof (executed_completed run_id W f log) as Hc.
  apply executed_run_at in He as Ha. destruct Ha as (n & r & Hl & Hn & Hwd & Hr & Ho).
  rewrite <- Hwd, Nat2Z.id. split; [lia|]. split; [done|]. split; [intros m ->; by apply Hc|].
  exists r. split; [done|]. destruct o; tauto.
Qed.

(** ** Resuming from the route *)

(** A paused run that an operator resumes through the route is never
    executed again: the route commits the status running before it hands the
    run to the task, the task takes only paused runs and fails without
    dispatching a member, and the run stays running, so that the route and
    both tasks refuse it from then on; only the cancel route ends it. *)
Theorem route_resume_strands_run dispatch order cancel_first cancel_in now run_id f r :
  runs f !! run_id = Some r -> r_status r = B_PAUSED_GATE ->
  exists g e1 e2 e3,
    resume_fleet_bulk_op_route run_id f = (g, Ok tt) /\
    (exists r', runs g !! run_id = Some r' /\ r_status r' = B_RUNNING) /\
    resume_fleet_bulk_op dispatch order cancel_first cancel_in now run_id g = (g, [], Err e1) /\
    run_fleet_bulk_op dispatch order cancel_first cancel_in now run_id g = (g, [], Err e2) /\
    resume_fleet_bulk_op_route run_id g = (g, Err e3) /\
    (exists h, cancel_fleet_bulk_op now run_id g = (h, Ok tt)).
Proof.
  intros Hr Hst. set (r' := run_with r B_RUNNING (current_wave_index r) None None).
  set (g := set_runs <[run_id := r']> f).
  assert (Hg : runs g !! run_id = Some r') by apply lookup_insert_eq.
  exists g. unfold resume_fleet_bulk_op_route, resume_fleet_bulk_op, run_fleet_bulk_op,
    _execute_bulk_run_with_db, cancel_fleet_bulk_op.
  rewrite Hr, Hst, Hg. eexists _, _, _. split_and!; try reflexivity; by eexists.
Qed.

(** ** The job as the executor submits it, and runs to look at *)

Definition submit (reconcile : string * Z -> gmap Z member -> gmap Z member * result string bool)
    (i : Z) (act : string) (params : option (gmap string string)) (ms : gmap Z member)
  : gmap Z member * result string (result_status * string) :=
  let '(ms', res) := _dispatch_action_for_member reconcile i act params ms in (ms', Ok res).

Definition no_reconcile (t : string * Z) (ms : gmap Z member) : gmap Z member * result string bool := (ms, Ok true).

Definition env_member (i : Z) (env : string) : member :=
  {| m_project := None; m_target := ("cluster", i); m_name := "c"; discovered_labels := ∅;
     assigned_labels := {["env" := env]}; fault_domain := None; health_status := None;
     lifecycle_state := None; last_reconciled_at := None |}.

(** Three members in the environments a, b and c, and a run in timed waves. *)
Definition env_fleet (act : string) : fleet :=
  {| members := list_to_map [(1, env_member 1 "a"); (2, env_member 2 "b"); (3, env_member 3 "c")];
     decisions := {[7 := {| target_id := 1; d_project := None; resolved_member_ids := [1; 2; 3]; resolved_at := 0;
                      d_status := RESOLVED |}]};
     runs := {[5 := {| decision_id := 7; r_project := None; action := act; action_params := Some {["env" := "z"]};
       wave_by := "label:env"; concurrency := 5; gate_mode := "timed_wait"; strategy_id := None;
       r_status := B_PENDING; current_wave_index := 0; total_waves := None; error_message := None;
       gate_resumes_at := None; started_at := None; completed_at := None |}]};
     results := ∅; strategies := ∅ |}.

Definition start5 := run_fleet_bulk_op (submit no_reconcile) id false (fun _ => false) 100 5.
Definition resume5 := resume_fleet_bulk_op (submit no_reconcile) id false (fun _ => false) 500 5.

Lemma executed_exactly_once_witness :
  let f1 := (start5 (env_fleet "re-reconcile")).1.1 in
  let f2 := (resume5 f1).1.1 in
  let f3 := (resume5 f2).1.1 in
  let W := plan_of 5 (env_fleet "re-reconcile") in
  exists log, executed 5 W f3 log (Completed 3) /\ log ≡ₚ concat W.*2.
Proof.
  intros f1 f2 f3 W.
  assert (H : executed 5 W f3 ([1] ++ [2] ++ [3]) (Completed 3)).
  { rewrite (assoc_L (++)).
    eapply (executed_resume 5 W (submit no_reconcile) id false (fun _ => false) 500 f2 ([1] ++ [2]) 1 f2);
      [done| |done|vm_compute; reflexivity|vm_compute; reflexivity].
    eapply (executed_resume 5 W (submit no_reconcile) id false (fun _ => false) 500 f1 [1] 0 f1);
      [done| |done|vm_compute; reflexivity|vm_compute; reflexivity].
    eapply (executed_start 5 W (submit no_reconcile) id false (fun _ => false) 100 (env_fleet "re-reconcile"));
      [done|vm_compute; reflexivity|reflexivity|reflexivity|vm_compute; reflexivity]. }
  exists ([1] ++ [2] ++ [3]). split; [exact H|].
  exact (proj2 (proj1 (proj2 (proj2 (executed_exactly_once 5 W f3 _ _ H))) 3 eq_refl)).
Defined.

Lemma route_resume_strands_run_witness :
  exists g e, resume_fleet_bulk_op_route 5 (start5 (env_fleet "re-reconcile")).1.1 = (g, Ok tt) /\
    resume5 g = (g, [], Err e).
Proof.
  assert (H : exists r, runs (start5 (env_fleet "re-reconcile")).1.1 !! 5 = Some r /\ r_status r = B_PAUSED_GATE)
    by (eexists; split; vm_compute; reflexivity).
  destruct H as (r & Hr & Hst).
  destruct (route_resume_strands_run (submit no_reconcile) id false (fun _ => false) 500 5 _ r Hr Hst)
    as (g & e1 & _ & _ & Hg & _ & Ht & _).
  exists g, e1. split; [exact Hg|exact Ht].
Defined.

(** A run that sets the label its waves are grouped by can complete
    without ever acting on one of its members: each resumption groups the
    members anew, by the labels the waves before it have set, and starts at a
    position of the old plan. *)
Theorem regrouping_skips_a_member :
  exists f f1 f2 f3 t1 t2 t3 d i log1 log2,
    startable 100 5 f /\ decisions f !! 7 = Some d /\
    i ∈ resolved_member_ids d /\ members f !! i <> None /\
    start5 f = (f1, log1, Ok (PausedGate 0, t1)) /\
    resume5 f1 = (f2, log2, Ok (PausedGate 1, t2)) /\
    resume5 f2 = (f3, [], Ok (Completed 2, t3)) /\
    (i ∉ log1 ++ log2) /\ members f3 !! i = members f !! i /\ results f3 !! (5, i) = None.
Proof.
  exists (env_fleet "set-labels"). eexists _, _, _, _, _, _, _, 2, _, _.
  split_and!; [|vm_compute; reflexivity|..].
  - eexists _, _. split_and!; [vm_compute; reflexivity|vm_compute; reflexivity|by left|set_solver|done|done|].
    repeat constructor; vm_compute; discriminate.
  - set_solver.
  - vm_compute. discriminate.
  - vm_compute. reflexivity.
  - vm_compute. reflexivity.
  - vm_compute. reflexivity.
  - set_solver.
  - vm_compute. reflexivity.
  - vm_compute. reflexivity.
Qed.
