(* ===== verification/ProjectGraph.v ===== *)
(** * The dependency graph of a project's rows (services/dependency_graph_service.py)

    Layers of modules that may run together, the search for cycles behind the
    readiness check, and the closure of a module's dependencies, on the rows of
    Orchestration.v.  The in-degrees and lists of dependents are those of
    DepGraph.v's sort.  A list of row objects is the list of their ids; the
    [ValueError] of a cycle carries the modules its message names.  The rounded
    average of the statistics is left out. *)

From S2P Require Import Prelude Texts ModuleState DepGraph Orchestration.

#[local] Open Scope string_scope.
#[local] Open Scope list_scope.
#[local] Open Scope Z_scope.
#[local] Set Default Proof Using "Type".

Inductive layers_exc :=
| CircularDependency (cycle_ids : gset Z)
| LayersOutOfFuel.

(** [module_map[mid].dependencies or []] *)
Definition deps_in (module_map : gmap Z pmodule) (mid : Z) : list Z :=
  match module_map !! mid with Some m => pm_dependencies m | None => [] end.

Section layers.
Context {SO : SetOrder Z}.

(** ** [_kahn_layers] *)

Definition count_dep (ids : gset Z) (filter_deps_to_set : bool) (mid : Z) (k : kahn) (dep_id : Z) : kahn :=
  if filter_deps_to_set && bool_decide (dep_id ∉ ids) then k else add_edge ids mid k dep_id.

Definition count_module (module_map : gmap Z pmodule) (ids : gset Z) (filter_deps_to_set : bool)
    (k : kahn) (mid : Z) : kahn :=
  foldl (count_dep ids filter_deps_to_set mid) k (deps_in module_map mid).

Definition count_degrees (module_map : gmap Z pmodule) (ids : gset Z) (filter_deps_to_set : bool) : kahn :=
  foldl (count_module module_map ids filter_deps_to_set)
    (Kahn (gset_to_gmap [] ids) (gset_to_gmap 0 ids)) (set_iter ids).

(** The inner loop: [layer_size] turns. *)
Fixpoint take_layer (layer_size : nat) (dependents : gmap Z (list Z)) (queue : list Z) (deg : gmap Z Z)
    (current_layer : list Z) : list Z * gmap Z Z * list Z :=
  match layer_size, queue with
  | S n, mid :: queue =>
      let '(queue, deg) := foldl relax (queue, deg) (graph_get dependents mid) in
      take_layer n dependents queue deg (current_layer ++ [mid])
  | _, _ => (queue, deg, current_layer)
  end.

(** [while queue]; every turn takes at least one module. *)
Fixpoint layers_loop (fuel : nat) (dependents : gmap Z (list Z)) (queue : list Z) (deg : gmap Z Z)
    (layers : list (list Z)) : option (list (list Z) * gmap Z Z) :=
  match queue with
  | [] => Some (layers, deg)
  | _ =>
      match fuel with
      | O => None
      | S fuel =>
          let '(queue, deg, layer) := take_layer (length queue) dependents queue deg [] in
          layers_loop fuel dependents queue deg (layers ++ [layer])
      end
  end.

Definition _kahn_layers (module_map : gmap Z pmodule) (ids : gset Z) (filter_deps_to_set : bool)
    : result layers_exc (list (list Z)) :=
  if decide (ids = ∅) then Ok []
  else
    let k := count_degrees module_map ids filter_deps_to_set in
    let queue := filter (fun mid => degree k.(in_degree) mid = 0) (set_iter ids) in
    match layers_loop (size ids) k.(graph) queue k.(in_degree) [] with
    | None => Err LayersOutOfFuel
    | Some (layers, deg) =>
        if decide (length (mjoin layers) < size ids)%nat
        then Err (CircularDependency (filter (fun mid => 0 < degree deg mid) ids))
        else Ok layers
    end.

(** ** The service *)

Definition rows_of (P : pmodule -> bool) (d : odb) : gmap Z pmodule := filter (fun im => P im.2 = true) (modules d).
Definition of_project (p : Z) (m : pmodule) : bool := bool_decide (pm_project m = p).
Definition enabled_of (p : Z) (m : pmodule) : bool := of_project p m && enabled m.

Definition build_layers (p : Z) (d : odb) : result layers_exc (list (list Z)) :=
  let module_map := rows_of (enabled_of p) d in
  if decide (module_map = ∅) then Ok [] else _kahn_layers module_map (dom module_map) false.

Definition get_execution_order (p : Z) (d : odb) : result layers_exc (list (list Z)) := build_layers p d.

(** The second search: [module_ids] once per module taken from the queue. *)
Definition lower_user (module_map : gmap Z pmodule) (mid : Z) (qd : list Z * gmap Z Z) (other_id : Z)
    : list Z * gmap Z Z :=
  if bool_decide (mid ∈ deps_in module_map other_id) then relax qd other_id else qd.

Fixpoint trim (fuel : nat) (module_map : gmap Z pmodule) (order : list Z) (queue : list Z) (deg : gmap Z Z)
    : option (gmap Z Z) :=
  match queue with
  | [] => Some deg
  | mid :: queue =>
      match fuel with
      | O => None
      | S fuel =>
          let '(queue, deg) := foldl (lower_user module_map mid) (queue, deg) order in
          trim fuel module_map order queue deg
      end
  end.

Definition inner_degree (module_map : gmap Z pmodule) (ids : gset Z) (mid : Z) : Z :=
  Z.of_nat (length (filter (fun dep_id => dep_id ∈ ids) (deps_in module_map mid))).

Inductive cycle_check :=
| NoCycles
| CycleAmong (cycle_ids : list Z)
| CheckOutOfFuel.

Definition validate_no_cycles (p : Z) (d : odb) : cycle_check :=
  let module_map := rows_of (of_project p) d in
  let ids := dom module_map in
  if decide (module_map = ∅) then NoCycles
  else
    match _kahn_layers module_map ids false with
    | Ok _ => NoCycles
    | Err LayersOutOfFuel => CheckOutOfFuel
    | Err (CircularDependency _) =>
        let deg := map_imap (fun mid _ => Some (inner_degree module_map ids mid)) module_map in
        let order := set_iter ids in
        match trim (S (size ids)) module_map order (filter (fun mid => degree deg mid = 0) order) deg with
        | None => CheckOutOfFuel
        | Some deg => CycleAmong (filter (fun mid => 0 < degree deg mid) order)
        end
    end.

Inductive graph_stats :=
| StatsError (cycle_ids : gset Z)
| Stats (total_modules total_layers max_parallel_modules modules_with_no_deps modules_with_deps : nat).

Definition get_dependency_graph_stats (p : Z) (d : odb) : option graph_stats :=
  match build_layers p d with
  | Err LayersOutOfFuel => None
  | Err (CircularDependency c) => Some (StatsError c)
  | Ok [] => Some (Stats 0 0 0 0 0)
  | Ok ((layer0 :: rest) as layers) =>
      let total := sum_list (length <$> layers) in
      Some (Stats total (length layers) (max_list (length <$> layers)) (length layer0) (total - length layer0))
  end.

(** ** The closure of a module's dependencies

    [to_visit] is the Python list from its end. *)
Fixpoint visit (fuel : nat) (d : odb) (to_visit : list Z) (all_deps : gset Z) : option (gset Z) :=
  match to_visit with
  | [] => Some all_deps
  | dep_id :: to_visit =>
      match fuel with
      | O => None
      | S fuel =>
          if decide (dep_id ∈ all_deps) then visit fuel d to_visit all_deps
          else visit fuel d (reverse (deps_in (modules d) dep_id) ++ to_visit) ({[dep_id]} ∪ all_deps)
      end
  end.

(** Each module's dependencies are pushed at most once, and the first ones. *)
Definition visit_fuel (d : odb) (mid : Z) : nat :=
  length (deps_in (modules d) mid) + sum_list_with (fun im => length (pm_dependencies im.2)) (map_to_list (modules d)).

Definition get_module_dependencies_recursive (mid : Z) (d : odb) : option (gset Z) :=
  match modules d !! mid with
  | None => Some ∅
  | Some m => match pm_dependencies m with
              | [] => Some ∅
              | deps => visit (visit_fuel d mid) d (reverse deps) ∅
              end
  end.

(** ** A chosen set of modules *)
Definition build_layers_for_modules (module_map : gmap Z pmodule) (reverse_order : bool)
    : result layers_exc (list (list Z)) :=
  if decide (module_map = ∅) then Ok []
  else
    layers ← _kahn_layers module_map (dom module_map) true;
    mret (if reverse_order then reverse layers else layers).
End layers.

Lemma filter_ext_in {A} (P1 P2 : A -> Prop) `{!forall x, Decision (P1 x), !forall x, Decision (P2 x)} (l : list A) :
  (forall x, x ∈ l -> P1 x <-> P2 x) -> filter P1 l = filter P2 l.
Proof.
  induction l as [|x l IH]; intros Hx; [done|]. rewrite !filter_cons.
  pose proof (Hx x ltac:(left)). rewrite IH by set_solver. repeat case_decide; naive_solver.
Qed.

(** ** The graph among the chosen modules *)

Definition inner {SO : SetOrder Z} (module_map : gmap Z pmodule) : deps_dict :=
  (fun i => (i, filter (fun x => x ∈ dom module_map) (deps_in module_map i))) <$> set_iter (dom module_map).

(** No module of [S] can come first. *)
Definition stuck_set (g : deps_dict) (S : gset Z) : Prop := forall m, m ∈ S -> exists n, n ∈ S /\ edge g m n.

Section spec.
Context {SO : SetOrder Z} (module_map : gmap Z pmodule).
#[local] Abbreviation ids := (dom module_map).
#[local] Abbreviation g := (inner module_map).

Lemma inner_keys : g.*1 = set_iter ids.
Proof. unfold inner. rewrite <- list_fmap_compose. apply list_fmap_id. Qed.

Lemma inner_NoDup : NoDup g.*1.
Proof. rewrite inner_keys. apply NoDup_set_iter. Qed.

Lemma deps_of_inner i : i ∈ ids -> deps_of g i = filter (fun x => x ∈ ids) (deps_in module_map i).
Proof.
  intros Hi. unfold deps_of. erewrite elem_of_dget; [reflexivity|apply inner_NoDup|].
  apply list_elem_of_fmap. exists i. split; [done|]. by apply elem_of_set_iter.
Qed.

Lemma edge_inner n m : edge g n m <-> n ∈ ids /\ m ∈ ids /\ m ∈ deps_in module_map n.
Proof.
  split.
  - intros He. assert (Hn : n ∈ ids).
    { apply edge_key in He. rewrite inner_keys in He. by apply elem_of_set_iter. }
    unfold edge in He. rewrite deps_of_inner in He by done. apply list_elem_of_filter in He. tauto.
  - intros (Hn & Hm & Hd). unfold edge. rewrite deps_of_inner by done. by apply list_elem_of_filter.
Qed.

Lemma count_module_eq b k mid :
  count_module module_map ids b k mid =
  foldl (add_edge ids mid) k (filter (fun x => x ∈ ids) (deps_in module_map mid)).
Proof.
  unfold count_module. revert k. induction (deps_in module_map mid) as [|x l IH]; intros k; [done|].
  cbn [foldl]. rewrite filter_cons. unfold count_dep at 2.
  case_decide as Hx; [rewrite bool_decide_false, andb_false_r by naive_solver; apply IH|].
  rewrite bool_decide_true, andb_true_r by done.
  replace (add_edge ids mid k x) with k by (unfold add_edge; by rewrite decide_False).
  destruct b; apply IH.
Qed.

Lemma count_built b : built ids g (count_degrees module_map ids b).
Proof.
  unfold count_degrees, inner.
  assert (H : forall l, NoDup l -> (forall x, x ∈ l -> x ∈ ids) ->
    built ids ((fun i => (i, filter (fun x => x ∈ ids) (deps_in module_map i))) <$> l)
      (foldl (count_module module_map ids b) (Kahn (gset_to_gmap [] ids) (gset_to_gmap 0 ids)) l)).
  { induction l as [|x l IH] using rev_ind; intros Hnd Hl.
    - split.
      + intros n m. unfold graph_get. cbn. destruct (_ !! n) as [l|] eqn:E; cbn.
        * apply lookup_gset_to_gmap_Some in E as [_ <-]. by case_decide.
        * by case_decide.
      + intros m Hm. unfold degree. cbn. by rewrite (proj2 (lookup_gset_to_gmap_Some _ _ _ 0)).
    - apply NoDup_app in Hnd as (Hnd & Hdisj & _). rewrite fmap_app, foldl_snoc, count_module_eq. cbn.
      apply built_module.
      + rewrite <- list_fmap_compose. intros (y & -> & Hy)%list_elem_of_fmap. cbn in Hdisj.
        apply (Hdisj _ Hy). left.
      + apply Hl. set_solver.
      + apply IH; [done|]. set_solver. }
  apply H; [apply NoDup_set_iter|]. intros x. apply elem_of_set_iter.
Qed.

(** A processed list in which dependencies come first. *)
Lemma finish_processed P : deps_first ids g P -> finish_order g P.
Proof. intros H i n Hi m He. apply (H i n m Hi He). by apply edge_inner in He as (_ & ? & _). Qed.

Lemma stuck_not_processed P S : finish_order g P -> stuck_set g S -> forall m, m ∈ S -> m ∉ P.
Proof.
  intros Hf HS m Hm [i Hi]%list_elem_of_lookup. revert m Hm Hi.
  induction (lt_wf i) as [i _ IH]. intros m Hm Hi.
  destruct (HS m Hm) as (n & Hn & He). destruct (Hf i m Hi n He) as (j & Hj & Hjn). by apply (IH j Hj n).
Qed.

Lemma chain_next (d : deps_dict) l x y z :
  chain d (x :: l ++ [y]) -> z ∈ x :: l -> exists n, n ∈ l ++ [y] /\ edge d z n.
Proof using.
  revert x. induction l as [|w l IH]; intros x Hc Hz.
  - apply list_elem_of_singleton in Hz as ->. exists y. split; [left|]. by destruct Hc.
  - destruct Hc as [He Hc]. apply elem_of_cons in Hz as [->|Hz]; [exists w; split; [left|done]|].
    destruct (IH w Hc Hz) as (n & Hn & He'). exists n. split; [by right|done].
Qed.

Lemma cycle_stuck c : is_cycle g c -> stuck_set g (list_to_set c).
Proof.
  intros (x & l & -> & Hc) z. rewrite elem_of_list_to_set, app_comm_cons, elem_of_app, list_elem_of_singleton.
  intros Hz. destruct (chain_next g l x x z Hc) as (n & Hn & He).
  { destruct Hz as [Hz| ->]; [done|left]. }
  exists n. split; [|done]. rewrite elem_of_list_to_set. by right.
Qed.

Lemma sorted_acyclic P : P ≡ₚ elements ids -> finish_order g P -> forall c, ~ is_cycle g c.
Proof.
  intros HP Hf c. apply (finish_order_acyclic g P c Hf); [rewrite HP; apply NoDup_elements|].
  intros x. by rewrite inner_keys, elem_of_set_iter, HP, elem_of_elements.
Qed.

(** ** The loop *)

Lemma relax_queue l q deg q' deg' :
  foldl relax (q, deg) l = (q', deg') -> exists pushed, q' = q ++ pushed /\ forall m, m ∈ pushed -> m ∈ l.
Proof using.
  revert q deg. induction l as [|x l IH]; intros q deg; cbn [foldl].
  { intros [= <- _]. exists []. by rewrite app_nil_r. }
  unfold relax at 2. intros H. case_decide; apply IH in H as (pushed & -> & Hp).
  - exists (x :: pushed). rewrite <- app_assoc. split; [done|]. set_solver.
  - exists pushed. split; [done|]. set_solver.
Qed.

(** The layers so far: each module's dependencies lie in earlier layers, one of
    them in the layer before. *)
Definition layered (layers : list (list Z)) : Prop := forall k layer m,
  layers !! k = Some layer -> m ∈ layer ->
  (forall n, edge g m n -> exists j layer', (j < k)%nat /\ layers !! j = Some layer' /\ n ∈ layer') /\
  (k <> 0%nat -> exists n layer', edge g m n /\ layers !! pred k = Some layer' /\ n ∈ layer').

(** The modules in the queue use one of [layer]. *)
Definition after_layer (layer queue : list Z) : Prop :=
  forall m, m ∈ queue -> exists n, n ∈ layer /\ edge g m n.

Section loop.
Context (k : kahn) (Hk : built ids g k).

Lemma take_layer_spec rest : forall P cur new deg q' deg' layer,
  kinv ids g P (rest ++ new) deg -> after_layer cur new ->
  take_layer (length rest) k.(graph) (rest ++ new) deg cur = (q', deg', layer) ->
  layer = cur ++ rest /\ kinv ids g (P ++ rest) q' deg' /\ after_layer layer q'.
Proof using Type Hk.
  induction rest as [|c rest IH]; intros P cur new deg q' deg' layer Hinv Haft; cbn [length take_layer app].
  { intros [= <- <- <-]. by rewrite !app_nil_r. }
  destruct (foldl relax _ _) as [q1 deg1] eqn:E. intros H.
  assert (Hinv1 : kinv ids g (P ++ [c]) q1 deg1) by (eapply kinv_step; [exact Hk|exact Hinv|exact E]).
  apply relax_queue in E as (pushed & -> & Hpushed). rewrite <- app_assoc in H, Hinv1.
  assert (Haft1 : after_layer (cur ++ [c]) (new ++ pushed)).
  { intros m [Hm|Hm]%elem_of_app.
    - destruct (Haft m Hm) as (n & Hn & He). exists n. set_solver.
    - exists c. split; [set_solver|]. apply Hpushed, occ_pos in Hm.
      rewrite (built_graph _ _ _ Hk) in Hm. case_decide; [|lia]. by apply occ_pos in Hm. }
  destruct (IH _ _ _ _ _ _ _ Hinv1 Haft1 H) as (-> & Hinv' & Haft').
  rewrite <- app_assoc in Hinv', Haft' |- *. done.
Qed.

Lemma layered_snoc layers layer :
  layered layers -> (forall m, m ∈ layer -> forall n, edge g m n -> n ∈ mjoin layers) ->
  (layers = [] \/ exists prev, last layers = Some prev /\ after_layer prev layer) ->
  layered (layers ++ [layer]).
Proof using.
  intros HL Hdeps Hprev i la m Hi Hm. apply lookup_app_Some in Hi as [Hi|[Hlen Hi]].
  - destruct (HL i la m Hi Hm) as [H1 H2]. split.
    + intros n He. destruct (H1 n He) as (j & la' & Hj & Hla & Hn). exists j, la'. split; [done|].
      split; [|done]. by apply lookup_app_l_Some.
    + intros H0. destruct (H2 H0) as (n & la' & He & Hla & Hn). exists n, la'. split; [done|].
      split; [|done]. by apply lookup_app_l_Some.
  - apply list_lookup_singleton_Some in Hi as [Hi <-]. assert (i = length layers) as -> by lia. split.
    + intros n He. specialize (Hdeps m Hm n He). apply list_elem_of_join in Hdeps as (la' & Hn & Hla).
      apply list_elem_of_lookup in Hla as [j Hj]. exists j, la'.
      split; [by eapply lookup_lt_Some|]. split; [|done]. by apply lookup_app_l_Some.
    + intros H0. destruct Hprev as [->|(prev & Hlast & Haft)]; [done|].
      destruct (Haft m Hm) as (n & Hn & He). exists n, prev. split; [done|]. split; [|done].
      rewrite last_lookup in Hlast. by apply lookup_app_l_Some.
Qed.

Lemma layers_loop_spec fuel : forall layers q deg,
  kinv ids g (mjoin layers) q deg -> layered layers ->
  (layers = [] \/ exists prev, last layers = Some prev /\ after_layer prev q) ->
  (size ids <= fuel + length (mjoin layers))%nat ->
  exists layers' deg', layers_loop fuel k.(graph) q deg layers = Some (layers', deg') /\
    kinv ids g (mjoin layers') [] deg' /\ layered layers'.
Proof using Type Hk.
  induction fuel as [|fuel IH]; intros layers q deg Hinv HL Hprev Hf.
  all: destruct q as [|c q]; [by exists layers, deg|].
  all: assert (length (mjoin layers ++ c :: q) <= size ids)%nat as Hlen.
  1,3: destruct Hinv as [Hnd Hids _ _ _];
       rewrite <- (size_list_to_set (C := gset Z)) by done;
       apply subseteq_size; intros x; rewrite elem_of_list_to_set; auto.
  all: rewrite length_app in Hlen; cbn in Hlen.
  { lia. }
  cbn [layers_loop]. destruct (take_layer _ _ _ _ _) as [[q' deg'] layer] eqn:E.
  rewrite <- (app_nil_r (c :: q)) in E at 2.
  assert (Hdeps : forall m, m ∈ c :: q -> forall n, edge g m n -> n ∈ mjoin layers).
  { intros m Hm n He. assert (Hmi : m ∈ ids) by (apply (kinv_ids _ _ _ _ _ Hinv); set_solver).
    assert (Hp : pending ids g (mjoin layers) m = []) by (apply (kinv_zero _ _ _ _ _ Hinv m Hmi); set_solver).
    rewrite pending_nil in Hp. apply Hp; [done|]. by apply edge_inner in He as (_ & ? & _). }
  apply (take_layer_spec (c :: q) (mjoin layers)) in E as (Hlayer & Hinv' & Haft);
    [|by rewrite app_nil_r|intros m Hm; by apply elem_of_nil in Hm].
  cbn [app] in Hlayer. subst layer.
  apply IH.
  - by rewrite join_app; cbn; rewrite app_nil_r.
  - by apply layered_snoc.
  - right. exists (c :: q). by rewrite last_snoc.
  - rewrite join_app. cbn. rewrite app_nil_r, length_app. cbn. lia.
Qed.
End loop.

(** ** What [_kahn_layers] answers *)

(** The largest set whose modules can never come first. *)
Definition greatest_stuck (S : gset Z) : Prop := stuck_set g S /\ forall S', stuck_set g S' -> S' ⊆ S.

Lemma stuck_in_ids S m : stuck_set g S -> m ∈ S -> m ∈ ids.
Proof. intros HS Hm. destruct (HS m Hm) as (n & _ & He). by apply edge_inner in He as (? & _). Qed.

Lemma stuck_cyclic S m : stuck_set g S -> m ∈ S -> exists c, is_cycle g c.
Proof.
  intros HS Hm. destruct (detect_spec g) as (r & _ & Hpost). destruct r as [|c|]; [|by exists c|done].
  destruct Hpost as (L & HL & _ & Hk). exfalso.
  apply (stuck_not_processed L S HL HS m Hm), Hk. rewrite inner_keys. by apply elem_of_set_iter, (stuck_in_ids S).
Qed.

Lemma kahn_layers_spec b :
  match _kahn_layers module_map ids b with
  | Ok layers => mjoin layers ≡ₚ elements ids /\ layered layers /\ finish_order g (mjoin layers)
  | Err (CircularDependency c) => greatest_stuck c /\ c <> ∅
  | Err LayersOutOfFuel => False
  end.
Proof.
  unfold _kahn_layers. case_decide as H0.
  { rewrite H0. split; [done|]. split; [by intros i l m|by intros i n]. }
  pose proof (count_built b) as Hk. set (k := count_degrees module_map ids b) in *.
  assert (Hinit : kinv ids g [] (filter (fun m => degree k.(in_degree) m = 0) (set_iter ids)) k.(in_degree)).
  { split; cbn.
    - apply NoDup_filter, NoDup_set_iter.
    - intros m. rewrite list_elem_of_filter, elem_of_set_iter. naive_solver.
    - intros m Hm. rewrite (built_degree _ _ _ Hk m Hm). unfold pending. do 2 f_equal.
      apply list_filter_iff. set_solver.
    - intros m Hm. rewrite list_elem_of_filter, elem_of_set_iter, (built_degree _ _ _ Hk m Hm).
      replace (pending ids g [] m) with (filter (fun n => n ∈ ids) (deps_of g m))
        by (unfold pending; apply list_filter_iff; set_solver).
      rewrite <- length_zero_iff_nil. naive_solver lia.
    - by intros i m n Hi. }
  destruct (layers_loop_spec k Hk (size ids) [] _ _ Hinit) as (layers & deg & -> & Hinv & HL);
    [by intros i l m|by left|cbn; lia|].
  pose proof (finish_processed _ (kinv_order _ _ _ _ _ Hinv)) as Hf.
  destruct Hinv as [Hnd Hids Hdeg Hzero _]. rewrite app_nil_r in Hnd, Hids, Hzero.
  assert (Hsub : forall x, x ∈ (list_to_set (mjoin layers) : gset Z) -> x ∈ ids)
    by (intros x; rewrite elem_of_list_to_set; apply Hids).
  case_decide as Hlt.
  - set (S := filter _ ids).
    assert (HS : forall m, m ∈ S <-> m ∈ ids /\ m ∉ mjoin layers).
    { intros m. unfold S. rewrite elem_of_filter. split.
      - intros [H1 Hm]. split; [done|]. rewrite Hzero by done. rewrite Hdeg in H1 by done.
        intros Hp. rewrite Hp in H1. cbn in H1. lia.
      - intros [Hm Hp]. split; [|done]. rewrite Hdeg by done. rewrite Hzero in Hp by done.
        destruct (pending _ _ _ m); [done|cbn; lia]. }
    split; [split|].
    + intros m [Hm Hp]%HS. rewrite Hzero in Hp by done.
      destruct (pending ids g (mjoin layers) m) as [|n l] eqn:E; [done|].
      assert (Hn : n ∈ pending ids g (mjoin layers) m) by (rewrite E; left).
      apply list_elem_of_filter in Hn as [[Hn Hnp] He]. exists n. by rewrite HS.
    + intros S' HS' m Hm. apply HS. split; [by apply (stuck_in_ids S')|]. by apply (stuck_not_processed _ S').
    + intros HSe. assert (Hsz : size ids = size (list_to_set (mjoin layers) : gset Z)).
      { f_equal. apply leibniz_equiv. intros x. split; [|apply Hsub]. intros Hx.
        rewrite elem_of_list_to_set. destruct (decide (x ∈ mjoin layers)) as [|Hn]; [done|].
        assert (Hx' : x ∈ S) by by apply HS. by rewrite HSe in Hx'. }
      rewrite size_list_to_set in Hsz by done. lia.
  - split; [|done]. apply NoDup_Permutation; [done|apply NoDup_elements|]. intros x. rewrite elem_of_elements.
    split; [apply Hids|]. intros Hx.
    assert (Heq : (list_to_set (mjoin layers) : gset Z) = ids).
    { apply set_subseteq_size_eq; [exact Hsub|]. rewrite size_list_to_set by done. lia. }
    rewrite <- Heq in Hx. by apply elem_of_list_to_set in Hx.
Qed.

(** A module's layer is the length of its longest dependency path. *)
Lemma layered_longest layers : layered layers ->
  forall k layer m, layers !! k = Some layer -> m ∈ layer -> longest g m (Z.of_nat k).
Proof.
  intros HL k. induction (lt_wf k) as [k _ IH]. intros layer m Hk Hm.
  destruct (HL k layer m Hk Hm) as [Hall Hone]. destruct k as [|k].
  - apply longest_leaf. destruct (deps_of g m) as [|n ds] eqn:E; [done|].
    destruct (Hall n) as (j & _ & Hj & _); [unfold edge; rewrite E; left|lia].
  - replace (Z.of_nat (S k)) with (Z.of_nat k + 1) by lia. apply longest_step.
    + intros n He. destruct (Hall n He) as (j & layer' & Hj & Hlj & Hn).
      exists (Z.of_nat j). split; [by eapply IH|lia].
    + destruct (Hone ltac:(done)) as (n & layer' & He & Hlk & Hn). exists n. split; [done|]. by eapply (IH k); [lia|..].
Qed.

(** ** The second search *)

Lemma lower_users c order q deg : NoDup order ->
  exists deg', foldl (lower_user module_map c) (q, deg) order =
    (q ++ filter (fun o => c ∈ deps_in module_map o /\ degree deg o = 1) order, deg') /\
    forall m, degree deg' m = degree deg m - (if decide (m ∈ order /\ c ∈ deps_in module_map m) then 1 else 0).
Proof.
  revert q deg. induction order as [|o l IH]; intros q deg Hnd; cbn [foldl].
  { exists deg. rewrite app_nil_r. split; [done|]. intros m. rewrite decide_False; [lia|].
    intros [H _]. by apply elem_of_nil in H. }
  apply NoDup_cons in Hnd as [Ho Hnd]. unfold lower_user at 2. case_bool_decide as Hc.
  - set (deg1 := <[o := degree deg o - 1]> deg).
    assert (Hf : filter (fun o => c ∈ deps_in module_map o /\ degree deg1 o = 1) l =
                 filter (fun o => c ∈ deps_in module_map o /\ degree deg o = 1) l).
    { apply filter_ext_in. intros x Hx. unfold deg1. rewrite degree_insert, decide_False; [done|]. by intros ->. }
    assert (Hdeg : forall deg' , (forall m, degree deg' m = degree deg1 m - (if decide (m ∈ l /\ c ∈ deps_in module_map m) then 1 else 0)) ->
      forall m, degree deg' m = degree deg m - (if decide (m ∈ o :: l /\ c ∈ deps_in module_map m) then 1 else 0)).
    { intros deg' H m. rewrite H. unfold deg1. rewrite degree_insert. destruct (decide (o = m)) as [<-|Hne].
      - rewrite decide_False, decide_True by set_solver. lia.
      - repeat case_decide; set_solver by lia. }
    unfold relax. fold deg1. rewrite filter_cons. case_decide as H1.
    + rewrite decide_True by (split; [done|lia]).
      destruct (IH (q ++ [o]) deg1 Hnd) as (deg' & -> & H). exists deg'. rewrite <- app_assoc, Hf. split; [done|auto].
    + rewrite decide_False by (intros [_ H]; lia).
      destruct (IH q deg1 Hnd) as (deg' & -> & H). exists deg'. rewrite Hf. split; [done|auto].
  - rewrite filter_cons, decide_False by tauto. destruct (IH q deg Hnd) as (deg' & -> & H). exists deg'.
    split; [done|]. intros m. rewrite H. f_equal. repeat case_decide; set_solver by lia.
Qed.

Definition users_done (P : list Z) (m : Z) : nat := length (filter (fun n => n ∈ deps_in module_map m) P).

Lemma done_bound P m l : NoDup (l ++ P) -> (forall x, x ∈ l ++ P -> x ∈ ids) ->
  (forall x, x ∈ l -> x ∈ deps_in module_map m) ->
  Z.of_nat (length l + users_done P m) <= inner_degree module_map ids m.
Proof.
  intros Hnd Hids Hl. unfold inner_degree, users_done. apply inj_le.
  rewrite <- length_app. apply submseteq_length, NoDup_submseteq.
  - apply NoDup_app in Hnd as (H1 & H2 & H3). apply NoDup_app. split; [done|]. split; [|by apply NoDup_filter].
    intros x Hx [_ Hp]%list_elem_of_filter. by apply (H2 x).
  - intros x Hx. apply list_elem_of_filter. apply elem_of_app in Hx as [Hx|[Hd Hx]%list_elem_of_filter].
    + split; [apply Hids; set_solver|auto].
    + split; [apply Hids; set_solver|done].
Qed.

Record trim_inv (S : gset Z) (P q : list Z) (deg : gmap Z Z) : Prop := {
  ti_nodup : NoDup (P ++ q);
  ti_ids m : m ∈ P ++ q -> m ∈ ids;
  ti_degree m : m ∈ ids -> degree deg m = inner_degree module_map ids m - Z.of_nat (users_done P m);
  ti_zero m : m ∈ P ++ q -> degree deg m = 0;
  ti_stuck m : m ∈ S -> m ∉ P ++ q
}.

Lemma users_done_snoc P c m :
  users_done (P ++ [c]) m = (users_done P m + if decide (c ∈ deps_in module_map m) then 1 else 0)%nat.
Proof. unfold users_done. rewrite filter_app, length_app, filter_cons. by case_decide. Qed.

Lemma trim_step S P c q deg order : stuck_set g S -> order ≡ₚ elements ids -> trim_inv S P (c :: q) deg ->
  exists pushed deg', foldl (lower_user module_map c) (q, deg) order = (q ++ pushed, deg') /\
    trim_inv S (P ++ [c]) (q ++ pushed) deg'.
Proof.
  intros HS Hord [Hnd Hids Hdeg Hzero Hst].
  assert (Hin : forall m, m ∈ order <-> m ∈ ids) by (intros m; by rewrite Hord, elem_of_elements).
  assert (Hndo : NoDup order) by (rewrite Hord; apply NoDup_elements).
  destruct (lower_users c order q deg Hndo) as (deg' & -> & Hdeg'). eexists _, deg'. split; [done|].
  set (pushed := filter _ order).
  assert (Hcids : c ∈ ids) by (apply Hids; set_solver).
  assert (Hfresh : forall m, m ∈ P ++ c :: q -> c ∉ deps_in module_map m).
  { intros m Hm Hc. pose proof (Hzero m Hm) as H0. rewrite Hdeg in H0 by by apply Hids.
    pose proof (done_bound P m [c]) as Hb. cbn in Hb. apply NoDup_app in Hnd as (HP & Hdisj & Hq).
    assert (Hb' : Z.of_nat (1 + users_done P m) <= inner_degree module_map ids m).
    { apply Hb.
      - apply NoDup_cons. split; [|done]. intros HcP. apply (Hdisj c HcP). left.
      - intros x [->|Hx]%elem_of_cons; [done|]. apply Hids. set_solver.
      - intros x ->%list_elem_of_singleton. done. }
    lia. }
  assert (Hpush : forall m, m ∈ pushed -> m ∈ ids /\ c ∈ deps_in module_map m /\ degree deg m = 1).
  { intros m [[H1 H2] H3]%list_elem_of_filter. by rewrite Hin in H3. }
  assert (Happ : (P ++ [c]) ++ q ++ pushed = (P ++ c :: q) ++ pushed) by by rewrite <- !app_assoc.
  assert (Hd' : forall m, m ∈ ids -> degree deg' m = inner_degree module_map ids m - Z.of_nat (users_done (P ++ [c]) m)).
  { intros m Hm. rewrite Hdeg', Hdeg, users_done_snoc by done. rewrite <- Hin in Hm.
    destruct (decide (c ∈ deps_in module_map m)); [rewrite decide_True by done|rewrite decide_False by tauto]; lia. }
  split; rewrite ?Happ; [|..|].
  - apply NoDup_app. split; [done|]. split; [|by apply NoDup_filter].
    intros m Hm (_ & Hc & _)%Hpush. by apply (Hfresh m).
  - intros m [Hm|Hm]%elem_of_app; [by apply Hids|]. by apply Hpush in Hm as (? & _).
  - done.
  - intros m [Hm|Hm]%elem_of_app; rewrite Hdeg'.
    + rewrite decide_False; [rewrite Hzero by done; lia|]. intros [_ Hc]. by apply (Hfresh m).
    + apply Hpush in Hm as (Hm & Hc & ->). rewrite decide_True; [done|]. by rewrite Hin.
  - intros m Hm [Hp|Hp]%elem_of_app; [by apply (Hst m)|].
    apply Hpush in Hp as (Hmi & Hc & H1). destruct (HS m Hm) as (n & Hn & He). apply edge_inner in He as (_ & Hni & Hnd').
    assert (Hnc : n <> c) by (intros ->; apply (Hst c Hn); set_solver).
    pose proof (done_bound P m [n; c]) as Hb. cbn in Hb. apply NoDup_app in Hnd as (HP & Hdisj & _).
    assert (Hb' : Z.of_nat (2 + users_done P m) <= inner_degree module_map ids m); [apply Hb|].
    + apply NoDup_cons. split; [|apply NoDup_cons; split; [|done]].
      * rewrite elem_of_cons. intros [?|HnP]; [done|]. apply (Hst n Hn). set_solver.
      * intros HcP. apply (Hdisj c HcP). left.
    + intros x. rewrite !elem_of_cons. intros [->|[->|Hx]]; [done|done|]. apply Hids. set_solver.
    + intros x. rewrite !elem_of_cons. intros [->|[->|Hx%elem_of_nil]]; done.
    + rewrite Hdeg in H1 by done. lia.
Qed.

Lemma trim_spec S order fuel : stuck_set g S -> order ≡ₚ elements ids -> forall P q deg,
  trim_inv S P q deg -> (size ids < fuel + length P)%nat ->
  exists deg', trim fuel module_map order q deg = Some deg' /\ forall m, m ∈ S -> 0 < degree deg' m.
Proof.
  intros HS Hord. induction fuel as [|fuel IH]; intros P q deg Hinv Hf.
  all: assert (Hlen : (length (P ++ q) <= size ids)%nat) by
    (destruct Hinv as [Hnd Hids _ _ _]; rewrite <- (size_list_to_set (C := gset Z)) by done;
     apply subseteq_size; intros x; rewrite elem_of_list_to_set; auto).
  all: rewrite length_app in Hlen; cbn in Hlen.
  { lia. }
  destruct q as [|c q]; cbn [trim].
  - exists deg. split; [done|]. intros m Hm. destruct Hinv as [Hnd Hids Hdeg _ Hst]. rewrite app_nil_r in *.
    destruct (HS m Hm) as (n & Hn & He). apply edge_inner in He as (Hmi & Hni & Hd). rewrite Hdeg by done.
    pose proof (done_bound P m [n]) as Hb. cbn in Hb.
    assert (Z.of_nat (1 + users_done P m) <= inner_degree module_map ids m); [apply Hb|lia].
    + apply NoDup_cons. split; [|done]. by apply Hst.
    + intros x [->|Hx]%elem_of_cons; [done|auto].
    + by intros x ->%list_elem_of_singleton.
  - destruct (trim_step _ _ _ _ _ _ HS Hord Hinv) as (pushed & deg' & -> & Hinv').
    apply (IH _ _ _ Hinv'). rewrite length_app. cbn in *. lia.
Qed.
End spec.

(** ** The closure *)

Definition needs (d : odb) (i j : Z) : Prop := j ∈ deps_in (modules d) i.

(** The pushes still to come. *)
Definition unvisited (d : odb) (all_deps : gset Z) : nat :=
  sum_list_with (fun im => if decide (im.1 ∈ all_deps) then 0%nat else length (pm_dependencies im.2))
    (map_to_list (modules d)).

Lemma unvisited_visit d x all_deps : x ∉ all_deps ->
  (unvisited d ({[x]} ∪ all_deps) + length (deps_in (modules d) x))%nat = unvisited d all_deps.
Proof.
  intros Hx. unfold unvisited, deps_in.
  assert (H : forall l : list (Z * pmodule), NoDup l.*1 ->
    (sum_list_with (fun im => if decide (im.1 ∈ ({[x]} ∪ all_deps : gset Z)) then 0%nat else length (pm_dependencies im.2)) l +
     length (match (list_to_map l : gmap Z pmodule) !! x with Some m => pm_dependencies m | None => [] end))%nat =
    sum_list_with (fun im => if decide (im.1 ∈ all_deps) then 0%nat else length (pm_dependencies im.2)) l).
  { induction l as [|[i m] l IH]; intros Hnd; [by cbn; rewrite lookup_empty|].
    cbn in Hnd. apply NoDup_cons in Hnd as [Hi Hnd]. specialize (IH Hnd). cbn.
    destruct (decide (x = i)) as [<-|Hne].
    - rewrite lookup_insert_eq. apply not_elem_of_list_to_map in Hi. rewrite Hi in IH. cbn in IH.
      rewrite decide_True, decide_False by set_solver. lia.
    - rewrite lookup_insert_ne by done. destruct (decide (i ∈ all_deps)).
      + rewrite decide_True by set_solver. lia.
      + rewrite decide_False by set_solver. lia. }
  specialize (H (map_to_list (modules d)) (NoDup_fst_map_to_list _)). by rewrite list_to_map_to_list in H.
Qed.

Record visit_inv (d : odb) (mid : Z) (to_visit : list Z) (all_deps : gset Z) : Prop := {
  vi_sound j : j ∈ to_visit \/ j ∈ all_deps -> tc (needs d) mid j;
  vi_start j : needs d mid j -> j ∈ to_visit \/ j ∈ all_deps;
  vi_closed i j : i ∈ all_deps -> needs d i j -> j ∈ to_visit \/ j ∈ all_deps
}.

Lemma visit_spec fuel d mid : forall to_visit all_deps, visit_inv d mid to_visit all_deps ->
  (length to_visit + unvisited d all_deps <= fuel)%nat ->
  exists s, visit fuel d to_visit all_deps = Some s /\ forall j, j ∈ s <-> tc (needs d) mid j.
Proof.
  assert (Hend : forall s, visit_inv d mid [] s -> forall j, j ∈ s <-> tc (needs d) mid j).
  { intros s [Hs H1 H2] j. split; [by auto|]. revert j.
    apply tc_ind_r; [intros y Hy|intros y z _ Hyz Hy].
    - destruct (H1 y Hy) as [?%elem_of_nil|]; done.
    - destruct (H2 y z Hy Hyz) as [?%elem_of_nil|]; done. }
  induction fuel as [|fuel IH]; intros [|x q] s Hinv Hf; cbn in Hf |- *; try (by exists s; auto); [lia|].
  destruct Hinv as [Hs H1 H2]. case_decide as Hx.
  - apply IH; [|lia]. split; [set_solver|..].
    + intros j Hj. destruct (H1 j Hj) as [[->|?]%elem_of_cons|]; auto.
    + intros i j Hi Hj. destruct (H2 i j Hi Hj) as [[->|?]%elem_of_cons|]; auto.
  - apply IH.
    + assert (Hmx : tc (needs d) mid x) by (apply Hs; left; left). split.
      * intros j. rewrite elem_of_app, elem_of_reverse, elem_of_union, elem_of_singleton.
        intros [[Hj|Hj]|[->|Hj]]; [by eapply tc_r|..]; [apply Hs; left; by right|done|apply Hs; by right].
      * intros j Hj. destruct (H1 j Hj) as [[->|?]%elem_of_cons|]; set_solver.
      * intros i j [->%elem_of_singleton|Hi]%elem_of_union Hj.
        -- left. apply elem_of_app. left. by apply elem_of_reverse.
        -- destruct (H2 i j Hi Hj) as [[->|?]%elem_of_cons|]; set_solver.
    + rewrite length_app, length_reverse. pose proof (unvisited_visit d x s Hx). lia.
Qed.

Lemma build_layers_eq {SO : SetOrder Z} p d :
  build_layers p d = _kahn_layers (rows_of (enabled_of p) d) (dom (rows_of (enabled_of p) d)) false.
Proof.
  unfold build_layers. case_decide as H0; [|done]. rewrite H0. unfold _kahn_layers.
  by rewrite decide_True by apply dom_empty_L.
Qed.

(** ** Main theorems *)

(** C6. The layers of a project.  [build_layers] answers for every project: either
    the enabled modules depend on one another without a cycle, and each of them
    is in exactly one layer, whose index is the length of its longest dependency
    path among them; or there is a cycle, and the error names the largest set of
    enabled modules none of which can come first. *)
Theorem build_layers_correct {SO : SetOrder Z} p d :
  let module_map := rows_of (enabled_of p) d in
  ((forall c, ~ is_cycle (inner module_map) c) /\
   exists layers, build_layers p d = Ok layers /\ mjoin layers ≡ₚ elements (dom module_map) /\
     forall k layer m, layers !! k = Some layer -> m ∈ layer -> longest (inner module_map) m (Z.of_nat k)) \/
  ((exists c, is_cycle (inner module_map) c) /\
   exists c, build_layers p d = Err (CircularDependency c) /\ greatest_stuck module_map c).
Proof.
  intros mm. rewrite build_layers_eq. fold mm. pose proof (kahn_layers_spec mm false) as H.
  destruct (_kahn_layers mm (dom mm) false) as [layers|[c|]]; [left|right|done].
  - destruct H as (Hperm & HL & Hf). split; [by apply (sorted_acyclic mm (mjoin layers))|].
    by exists layers; eauto using layered_longest.
  - destruct H as [Hgr Hne]. split; [|by exists c]. apply set_choose_L in Hne as [m Hm]. by apply (stuck_cyclic mm c m (proj1 Hgr)).
Qed.

(** The readiness check for cycles.  [validate_no_cycles] answers for every
    project, disabled modules included: it finds no cycle exactly when there is
    none, and otherwise its list has every module that lies on a cycle, or can
    only come after one. *)
Theorem validate_no_cycles_correct {SO : SetOrder Z} p d :
  let module_map := rows_of (of_project p) d in
  (validate_no_cycles p d = NoCycles /\ forall c, ~ is_cycle (inner module_map) c) \/
  (exists l c, validate_no_cycles p d = CycleAmong l /\ is_cycle (inner module_map) c /\
     (forall c' m, is_cycle (inner module_map) c' -> m ∈ c' -> m ∈ l) /\
     (forall S m, stuck_set (inner module_map) S -> m ∈ S -> m ∈ l)).
Proof.
  intros mm. unfold validate_no_cycles. fold mm. pose proof (kahn_layers_spec mm false) as H.
  case_decide as H0.
  { left. split; [done|]. apply (sorted_acyclic mm []); [by rewrite H0|by intros i n]. }
  destruct (_kahn_layers mm (dom mm) false) as [layers|[c|]]; [left|right|done].
  - split; [done|]. destruct H as (Hperm & _ & Hf). by apply (sorted_acyclic mm (mjoin layers)).
  - destruct H as [[Hst Hgr] Hne]. destruct (set_choose_L _ Hne) as [m Hm].
    destruct (stuck_cyclic mm c m Hst Hm) as [cyc Hcyc].
    set (deg := map_imap _ mm).
    assert (Hdeg : forall m, m ∈ dom mm -> degree deg m = inner_degree mm (dom mm) m).
    { intros i [x Hx]%elem_of_dom. unfold degree, deg. by rewrite map_lookup_imap, Hx. }
    assert (Hinv : trim_inv mm c [] (filter (fun mid => degree deg mid = 0) (set_iter (dom mm))) deg).
    { split; cbn.
      - apply NoDup_filter, NoDup_set_iter.
      - intros i. rewrite list_elem_of_filter, elem_of_set_iter. naive_solver.
      - intros i Hi. rewrite Hdeg by done. unfold users_done. cbn. lia.
      - intros i. rewrite list_elem_of_filter. naive_solver.
      - intros i Hi. rewrite list_elem_of_filter, elem_of_set_iter. intros [Hz Hid]. rewrite Hdeg in Hz by done.
        destruct (Hst i Hi) as (n & _ & He). apply edge_inner in He as (_ & Hn & Hdn). unfold inner_degree in Hz.
        destruct (filter _ _) as [|y l] eqn:E; [|done].
        assert (Hin : n ∈ filter (fun dep_id => dep_id ∈ dom mm) (deps_in mm i)) by by apply list_elem_of_filter.
        rewrite E in Hin. by apply elem_of_nil in Hin. }
    destruct (trim_spec mm c (set_iter (dom mm)) (S (size (dom mm))) Hst (set_iter_perm _) [] _ _ Hinv) as (deg' & -> & Hpos);
      [cbn; lia|]. eexists _, cyc. split; [done|]. split; [done|].
    assert (Hall : forall S' i, stuck_set (inner mm) S' -> i ∈ S' ->
      i ∈ filter (fun mid => 0 < degree deg' mid) (set_iter (dom mm))).
    { intros S' i HS' Hi. apply list_elem_of_filter. split; [apply Hpos; by apply (Hgr S')|].
      apply elem_of_set_iter. by apply (stuck_in_ids mm S'). }
    split; [|exact Hall]. intros c' i Hc' Hi. apply (Hall _ i (cycle_stuck mm c' Hc')). by apply elem_of_list_to_set.
Qed.

(** The closure of a module's dependencies.  [get_module_dependencies_recursive]
    ends for every module, cycles or not, with exactly the modules reached from
    it along one or more dependencies. *)
Theorem dependencies_recursive_correct mid d :
  exists s, get_module_dependencies_recursive mid d = Some s /\ forall j, j ∈ s <-> tc (needs d) mid j.
Proof.
  unfold get_module_dependencies_recursive.
  assert (Hnone : (forall j, ~ needs d mid j) -> exists s : gset Z, Some (∅ : gset Z) = Some s /\ forall j, j ∈ s <-> tc (needs d) mid j).
  { intros Hn. exists ∅. split; [done|]. intros j. split; [by intros ?%elem_of_empty|].
    intros Ht. exfalso. by destruct Ht; eapply Hn. }
  assert (Hd : forall j, needs d mid j <-> j ∈ match modules d !! mid with Some m => pm_dependencies m | None => [] end) by done.
  destruct (modules d !! mid) as [m|] eqn:Hm; [|apply Hnone; intros j Hj; by apply Hd, elem_of_nil in Hj].
  destruct (pm_dependencies m) as [|x l] eqn:Hdeps; [apply Hnone; intros j Hj; by apply Hd, elem_of_nil in Hj|].
  rewrite <- Hdeps in *. clear x l Hdeps. apply visit_spec.
  - split.
    + intros j [Hj|[]%elem_of_empty]. apply tc_once, Hd. by apply elem_of_reverse.
    + intros j Hj. left. by apply elem_of_reverse, Hd.
    + by intros i j []%elem_of_empty.
  - rewrite length_reverse. unfold visit_fuel, deps_in. rewrite Hm. apply Nat.add_le_mono_l.
    unfold unvisited. induction (map_to_list (modules d)) as [|im l IH]; cbn; [lia|]. case_decide; lia.
Qed.
