(* ===== verification/ProjectPlan.v ===== *)
(** * The plan of a project's run and its readiness
      (services/parallel_execution_service.py)

    How long each layer is expected to take, and what is checked before a run
    starts, over ProjectGraph.v's layers.  The columns of a module's library row
    and of its variables that only these functions read come with [catalog] and
    [inputs].  The rounded percentages of the plan are left out. *)

From Stdlib Require Import Ascii QArith.
From S2P Require Import Prelude Texts ModuleState DepGraph Orchestration ProjectGraph.

#[local] Open Scope string_scope.
#[local] Open Scope list_scope.
#[local] Open Scope Z_scope.
#[local] Set Default Proof Using "Type".

(** ** [get_module_time_estimate] *)

(** [estimated_time_minutes]: the number the pack's manifest declares, if it
    declares one. *)
Record lib_row := { lib_name : string; estimated_time_minutes : option Q }.

Definition DEFAULT_TIME_ESTIMATES : list (string * Z) :=
  [("vpc", 5); ("security", 3); ("eks", 15); ("rds", 10); ("storage", 7); ("gateway", 7); ("route", 2);
   ("policy", 2); ("default", 5)].

Definition estimate_by_name (module_name : string) : Z :=
  match dget module_name DEFAULT_TIME_ESTIMATES with
  | Some t => t
  | None => match list_find (fun kt => contains kt.1 module_name = true) DEFAULT_TIME_ESTIMATES with
            | Some (_, (_, t)) => t
            | None => 5
            end
  end.

Definition get_module_time_estimate (lib : option lib_row) : Z :=
  match lib with
  | None => 5
  | Some lib =>
      let by_name := estimate_by_name (lower (lib_name lib)) in
      match estimated_time_minutes lib with
      | Some q => if 0 <? Qnum q then Qnum q / Zpos (Qden q) else by_name
      | None => by_name
      end
  end.

(** ** [get_execution_plan] *)

Record plan_layer := {
  layer_index : nat;
  layer_modules : list (Z * Z);   (** each with its estimate *)
  module_count : nat;
  layer_minutes : Z;
  can_run_parallel : bool
}.

(** The plan of an empty project has no ["total_modules"]. *)
Inductive plan :=
| PlanError (cycle_ids : gset Z)
| EmptyPlan
| Plan (layers : list plan_layer) (total_layers total_modules : nat)
    (total_estimated_time_sequential total_estimated_time_parallel time_savings_minutes : Z).

Section plan.
Context {SO : SetOrder Z} (catalog : Z -> option lib_row).

Definition estimate (mid : Z) : Z := get_module_time_estimate (catalog mid).

(** The inner loop, over the modules of a layer. *)
Definition plan_module (st : list (Z * Z) * Z * Z) (mid : Z) : list (Z * Z) * Z * Z :=
  let '(ms, sequential_total, layer_max_time) := st in
  let t := estimate mid in
  (ms ++ [(mid, t)], sequential_total + t, Z.max layer_max_time t).

Definition plan_one_layer (st : list plan_layer * Z * Z) (layer : list Z) : list plan_layer * Z * Z :=
  let '(plan_layers, sequential_total, parallel_total) := st in
  let '(ms, sequential_total, layer_max_time) := foldl plan_module ([], sequential_total, 0) layer in
  (plan_layers ++ [{| layer_index := length plan_layers; layer_modules := ms; module_count := length ms;
                      layer_minutes := layer_max_time; can_run_parallel := (1 <? length ms)%nat |}],
   sequential_total, parallel_total + layer_max_time).

Definition get_execution_plan (p : Z) (d : odb) : option plan :=
  match build_layers p d with
  | Err LayersOutOfFuel => None
  | Err (CircularDependency c) => Some (PlanError c)
  | Ok [] => Some EmptyPlan
  | Ok layers =>
      let '(plan_layers, sequential_total, parallel_total) := foldl plan_one_layer ([], 0, 0) layers in
      Some (Plan plan_layers (length plan_layers) (sum_list (length <$> layers)) sequential_total parallel_total
              (if 0 <? sequential_total then sequential_total - parallel_total else 0))
  end.

(** ** [validate_project_ready] *)

Record input := { in_name : option string; in_source : option string; has_default : bool }.

(** [required]: none without a library row or its metadata.  Of the variables
    only the keys matter. *)
Record module_inputs := {
  path_in_project : string;
  required : option (list input);
  variable_overrides : list string;
  variables : list string
}.

Record project_variables := { pv_keys : list string; variable_defaults : option (list string) }.

Context (inputs : Z -> module_inputs) (pv : project_variables).

Definition user_vars (mid : Z) : list string :=
  match variable_overrides (inputs mid) with [] => variables (inputs mid) | l => l end.
Definition project_vars : list string := default (pv_keys pv) (variable_defaults pv).

Definition input_missing (all_available : list string) (inp : input) : option string :=
  let source := default "user" (in_source inp) in
  if String.eqb source "module" || String.eqb source "project" then None
  else if has_default inp then None
  else
    let var_name := default "" (in_name inp) in
    if truthy_str (Some var_name) && negb (bool_decide (var_name ∈ all_available)) then Some var_name else None.

Definition module_missing (mid : Z) (m : pmodule) : list string :=
  if negb (enabled m) then []
  else if bool_decide (pm_status m = APPLIED) then []
  else match required (inputs mid) with
       | None => []
       | Some l => omap (input_missing (project_vars ++ user_vars mid)) l
       end.

(** [s.split("/")[-1]] *)
Fixpoint last_segment (s : string) : string :=
  match partition "/"%char s, s with
  | Some _, String _ s => last_segment s
  | _, _ => s
  end.

Definition module_label (mid : Z) : string :=
  if truthy_str (Some (path_in_project (inputs mid))) then last_segment (path_in_project (inputs mid))
  else "module-" +:+ pretty mid.

Definition _check_missing_variables (ms : list (Z * pmodule)) : list (string * list string) :=
  foldl (fun missing im => match module_missing im.1 im.2 with
                           | [] => missing
                           | l => dset (module_label im.1) l missing
                           end) [] ms.

Inductive readiness :=
| Ready
| CircularAmong (cycle : list Z)
| NoModulesInProject
| AlreadyInProgress (n : nat)
| MissingVariables (missing : list (string * list string))
| ReadinessFault.

Inductive action := Deploy | Destroy.

Definition in_progress (m : pmodule) : bool := bool_decide (pm_status m ∈ [INITIALIZING; PLANNING; APPLYING]).

Definition validate_project_ready (p : Z) (a : action) (d : odb) : readiness :=
  match validate_no_cycles p d with
  | CheckOutOfFuel => ReadinessFault
  | CycleAmong cycle => CircularAmong cycle
  | NoCycles =>
      let ms := select (fun _ m => of_project p m) (modules d) in
      match ms with
      | [] => NoModulesInProject
      | _ =>
          match a with
          | Destroy => Ready
          | Deploy =>
              match filter (fun im => in_progress im.2 = true) ms with
              | (_ :: _) as l => AlreadyInProgress (length l)
              | [] => match _check_missing_variables ms with
                      | [] => Ready
                      | missing => MissingVariables missing
                      end
              end
          end
      end
  end.
End plan.

(** ** Main theorems *)

Lemma estimate_nonneg catalog mid : 0 <= estimate catalog mid.
Proof.
  assert (Ht : Forall (fun kt : string * Z => 0 <= kt.2) DEFAULT_TIME_ESTIMATES)
    by (repeat apply Forall_cons_2; [cbn; lia..|constructor]).
  rewrite Forall_forall in Ht.
  assert (Hn : forall s, 0 <= estimate_by_name s).
  { intros s. unfold estimate_by_name. destruct (dget s _) as [t|] eqn:E; [by apply dget_elem_of, Ht in E|].
    destruct (list_find _ _) as [[i [key t]]|] eqn:F; [|lia].
    apply list_find_Some in F as (Hi & _). by apply list_elem_of_lookup_2, Ht in Hi. }
  unfold estimate, get_module_time_estimate. destruct (catalog mid) as [lib|]; [|lia].
  destruct (estimated_time_minutes lib) as [q|]; [|apply Hn]. case_match; [|apply Hn].
  apply Z.ltb_lt in H. apply Z.div_pos; lia.
Qed.

Fixpoint sum_Z (l : list Z) : Z := match l with [] => 0 | x :: l => x + sum_Z l end.
Fixpoint longest_in (catalog : Z -> option lib_row) (layer : list Z) : Z :=
  match layer with [] => 0 | m :: layer => Z.max (estimate catalog m) (longest_in catalog layer) end.

Lemma sum_Z_app l1 l2 : sum_Z (l1 ++ l2) = sum_Z l1 + sum_Z l2.
Proof. induction l1 as [|x l IH]; cbn; [done|]. rewrite IH. lia. Qed.

Lemma sum_Z_perm l1 l2 : l1 ≡ₚ l2 -> sum_Z l1 = sum_Z l2.
Proof. induction 1; cbn; lia. Qed.

Lemma longest_in_ge catalog layer m : m ∈ layer -> estimate catalog m <= longest_in catalog layer.
Proof.
  induction layer as [|x l IH]; intros H; [by apply elem_of_nil in H|]. cbn.
  apply elem_of_cons in H as [->|H]; [lia|]. specialize (IH H). lia.
Qed.

Lemma longest_in_sum catalog layer : 0 <= longest_in catalog layer <= sum_Z (estimate catalog <$> layer).
Proof.
  induction layer as [|x l IH]; cbn; [lia|]. pose proof (estimate_nonneg catalog x).
  lia.
Qed.

Lemma plan_modules_eq catalog layer : forall ms seq mx, 0 <= mx ->
  foldl (plan_module catalog) (ms, seq, mx) layer =
  (ms ++ ((fun m => (m, estimate catalog m)) <$> layer), seq + sum_Z (estimate catalog <$> layer),
   Z.max mx (longest_in catalog layer)).
Proof.
  induction layer as [|x l IH]; intros ms seq mx Hmx; cbn.
  - rewrite app_nil_r, Z.add_0_r, Z.max_l by lia. done.
  - rewrite IH by lia. rewrite <- app_assoc. f_equal; [f_equal|]; cbn; lia.
Qed.

Lemma plan_layers_eq catalog layers : forall ls seq par, exists ls',
  foldl (plan_one_layer catalog) (ls, seq, par) layers =
  (ls', seq + sum_Z (estimate catalog <$> mjoin layers), par + sum_Z (longest_in catalog <$> layers)).
Proof.
  induction layers as [|layer layers IH]; intros ls seq par; cbn [foldl].
  - exists ls. cbn. f_equal; [f_equal|]; lia.
  - cbn [plan_one_layer]. rewrite plan_modules_eq by lia.
    match goal with |- context [foldl _ (?l, ?s, ?q) _] => destruct (IH l s q) as [ls' ->] end.
    exists ls'. cbn. rewrite fmap_app, sum_Z_app. pose proof (longest_in_sum catalog layer).
    rewrite Z.max_r, !Z.add_assoc by lia. done.
Qed.

Lemma sum_longest_nonneg catalog l : 0 <= sum_Z (longest_in catalog <$> l).
Proof. induction l as [|x l IH]; cbn; [lia|]. pose proof (longest_in_sum catalog x). lia. Qed.

Lemma sum_longest_take catalog j k l : (j <= k)%nat ->
  sum_Z (longest_in catalog <$> take j l) <= sum_Z (longest_in catalog <$> take k l).
Proof.
  intros Hjk. replace k with (j + (k - j))%nat by lia. rewrite <- take_take_drop, fmap_app, sum_Z_app.
  pose proof (sum_longest_nonneg catalog (take (k - j) (drop j l))). lia.
Qed.

(** A dependency path has a module in each layer at most. *)
Lemma chain_within {SO : SetOrder Z} catalog mm layers : layered mm layers ->
  forall c m k layer, layers !! k = Some layer -> m ∈ layer -> chain (inner mm) (m :: c) ->
  sum_Z (estimate catalog <$> m :: c) <= sum_Z (longest_in catalog <$> take (S k) layers).
Proof.
  intros HL. induction c as [|y c IH]; intros m k layer Hk Hm Hc.
  all: rewrite (take_S_r _ _ _ Hk), fmap_app, sum_Z_app; cbn.
  all: pose proof (longest_in_ge catalog layer m Hm) as Hge.
  - pose proof (sum_longest_nonneg catalog (take k layers)). lia.
  - destruct Hc as [He Hc]. destruct (HL k layer m Hk Hm) as [Hall _].
    destruct (Hall y He) as (j & layer' & Hj & Hlj & Hy). specialize (IH y j layer' Hlj Hy Hc). cbn [fmap list_fmap sum_Z] in IH.
    pose proof (sum_longest_take catalog (S j) k layers Hj). lia.
Qed.

Lemma sum_longest_le catalog layers :
  sum_Z (longest_in catalog <$> layers) <= sum_Z (estimate catalog <$> mjoin layers).
Proof.
  induction layers as [|l ls IH]; [done|]. cbn. rewrite fmap_app, sum_Z_app.
  apply Z.add_le_mono; [apply longest_in_sum|exact IH].
Qed.

(** The plan of a project.  [get_execution_plan] answers for every project: an
    error exactly when the enabled modules depend on one another in a cycle, a
    plan without ["total_modules"] exactly when there is no enabled module, and
    otherwise a plan that counts the enabled modules, whose sequential time is
    the sum of their estimates, and whose parallel time is at most that and at
    least the time of every dependency path. *)
Theorem execution_plan_correct {SO : SetOrder Z} catalog p d :
  let module_map := rows_of (enabled_of p) d in
  let g := inner module_map in
  match get_execution_plan catalog p d with
  | None => False
  | Some (PlanError c) => (exists cyc, is_cycle g cyc) /\ greatest_stuck module_map c
  | Some EmptyPlan => module_map = ∅
  | Some (Plan _ _ total_modules sequential parallel savings) =>
      (forall cyc, ~ is_cycle g cyc) /\ module_map <> ∅ /\
      total_modules = size module_map /\
      sequential = sum_Z (estimate catalog <$> elements (dom module_map)) /\
      0 <= parallel <= sequential /\ savings = sequential - parallel /\
      forall m c, m ∈ dom module_map -> chain g (m :: c) -> sum_Z (estimate catalog <$> m :: c) <= parallel
  end.
Proof.
  intros mm g. unfold get_execution_plan. rewrite build_layers_eq. fold mm.
  pose proof (kahn_layers_spec mm false) as H.
  destruct (_kahn_layers mm (dom mm) false) as [layers|[c|]] eqn:E; [|destruct H as [Hgr Hne]|done].
  2:{ apply set_choose_L in Hne as [m Hm]. split; [by apply (stuck_cyclic mm c m (proj1 Hgr))|done]. }
  destruct H as (Hperm & HL & Hf). destruct layers as [|l0 layers].
  { cbn in Hperm. symmetry in Hperm. apply Permutation_nil_r, elements_empty_inv in Hperm.
    by apply dom_empty_inv_L, leibniz_equiv. }
  set (ls := l0 :: layers) in *.
  destruct (plan_layers_eq catalog ls [] 0 0) as [plan_layers ->]. cbn [Z.add].
  pose proof (sum_longest_le catalog ls). pose proof (sum_longest_nonneg catalog ls).
  split; [by apply (sorted_acyclic mm (mjoin ls))|]. split.
  { intros Hmm. rewrite Hmm in E. unfold _kahn_layers in E. by rewrite decide_True in E by apply dom_empty_L. }
  split.
  { rewrite <- size_dom. unfold size, set_size. cbn. by rewrite <- Hperm, length_join. }
  split; [apply sum_Z_perm; by rewrite Hperm|]. split; [lia|]. split.
  { case_match eqn:H1; [done|]. apply Z.ltb_ge in H1. lia. }
  intros m c Hm Hc. assert (Hin : m ∈ mjoin ls) by by rewrite Hperm, elem_of_elements.
  apply list_elem_of_join in Hin as (layer & Hml & Hll). apply list_elem_of_lookup in Hll as [k Hk].
  etrans; [by eapply chain_within|]. etrans; [apply (sum_longest_take catalog (S k) (length ls))|].
  - by eapply lookup_lt_Some.
  - by rewrite firstn_all.
Qed.

(** A required input that nobody sets: not wired from a module, not filled from
    the project's columns, without a default, and in no set of variables. *)
Definition unset (inputs : Z -> module_inputs) (pv : project_variables) (mid : Z) (inp : input) : Prop :=
  in_source inp <> Some "module" /\ in_source inp <> Some "project" /\ has_default inp = false /\
  exists name, in_name inp = Some name /\ name <> "" /\
    (name ∉ project_vars pv) /\ name ∉ user_vars inputs mid.

Lemma input_missing_iff inputs pv mid inp :
  input_missing (project_vars pv ++ user_vars inputs mid) inp = None <-> ~ unset inputs pv mid inp.
Proof.
  unfold input_missing, unset. destruct inp as [name source dflt]; cbn.
  assert (Hs : String.eqb (default "user" source) "module" || String.eqb (default "user" source) "project" = true <->
    source = Some "module" \/ source = Some "project").
  { rewrite orb_true_iff, !String.eqb_eq. destruct source; cbn; naive_solver. }
  destruct (_ || _); [split; [|done]; intros _; destruct (proj1 Hs eq_refl); naive_solver|].
  assert (Hs' : source <> Some "module" /\ source <> Some "project").
  { split; intros ->; discriminate (proj2 Hs); auto. }
  destruct dflt; [naive_solver|]. destruct name as [name|]; cbn; [|naive_solver].
  destruct (String.eqb_spec name "") as [->|Hn]; [cbn; naive_solver|]. cbn.
  case_bool_decide as Hin; cbn; rewrite elem_of_app in Hin; [naive_solver|].
  split; [done|]. intros H. destruct H. split; [tauto|]. split; [tauto|]. split; [done|]. exists name. tauto.
Qed.

Lemma check_missing_nil inputs pv ms : _check_missing_variables inputs pv ms = [] <->
  forall i m, (i, m) ∈ ms -> module_missing inputs pv i m = [].
Proof.
  unfold _check_missing_variables. induction ms as [|[i m] ms IH] using rev_ind.
  - split; [|done]. intros _ i m H. by apply elem_of_nil in H.
  - rewrite foldl_snoc. cbn. split.
    + destruct (module_missing inputs pv i m) as [|x l] eqn:E.
      * intros H j n [Hj|Hj]%elem_of_app; [by apply IH|]. by apply list_elem_of_singleton in Hj as [= -> ->].
      * intros H. exfalso.
        assert (Hin : module_label inputs i ∈ (@nil (string * list string)).*1) by (rewrite <- H; apply dset_keys; by left).
        by apply elem_of_nil in Hin.
    + intros H. rewrite (H i m) by set_solver. apply IH. intros j n Hj. apply H. set_solver.
Qed.

Lemma omap_nil {A B} (f : A -> option B) l : omap f l = [] <-> forall x, x ∈ l -> f x = None.
Proof.
  induction l as [|x l IH]; cbn; [split; [|done]; intros _ x H; by apply elem_of_nil in H|].
  destruct (f x) eqn:E; [split; [done|]; intros H; specialize (H x ltac:(left)); congruence|].
  rewrite IH. split; [intros H y [->|Hy]%elem_of_cons; auto|]. intros H y Hy. apply H. by right.
Qed.

Lemma module_missing_nil inputs pv i m : module_missing inputs pv i m = [] <->
  (enabled m = true -> pm_status m <> APPLIED ->
   forall l inp, required (inputs i) = Some l -> inp ∈ l -> ~ unset inputs pv i inp).
Proof.
  unfold module_missing. destruct (enabled m); cbn; [|done]. case_bool_decide as Ha; [done|].
  destruct (required (inputs i)) as [l|]; [|done]. rewrite omap_nil. split.
  - intros H _ _ l' inp [= <-] Hi. by apply input_missing_iff, H.
  - intros H inp Hi. apply input_missing_iff. by apply (H eq_refl Ha l).
Qed.

(** Readiness of a deploy.  [validate_project_ready] lets a deploy start exactly
    when the project's modules, disabled ones included, depend on one another
    without a cycle, there is a module, none is working, and every enabled
    module that is not applied has a value for every required input it must be
    given. *)
Theorem ready_to_deploy_iff {SO : SetOrder Z} inputs pv p d :
  let module_map := rows_of (of_project p) d in
  validate_project_ready inputs pv p Deploy d = Ready <->
  (forall c, ~ is_cycle (inner module_map) c) /\ module_map <> ∅ /\
  forall i m, module_map !! i = Some m ->
    in_progress m = false /\
    (enabled m = true -> pm_status m <> APPLIED ->
     forall l inp, required (inputs i) = Some l -> inp ∈ l -> ~ unset inputs pv i inp).
Proof.
  intros mm. unfold validate_project_ready.
  assert (Hrow : forall i m, (i, m) ∈ select (fun _ m => of_project p m) (modules d) <-> mm !! i = Some m).
  { intros i m. rewrite elem_of_select. unfold mm, rows_of. rewrite map_lookup_filter_Some. done. }
  set (ms := select _ (modules d)) in *.
  assert (Hempty : ms = [] <-> mm = ∅).
  { split; intros H.
    - apply map_eq. intros i. rewrite lookup_empty. destruct (mm !! i) as [m|] eqn:E; [|done].
      apply Hrow in E. rewrite H in E. by apply elem_of_nil in E.
    - destruct ms as [|[i m] l]; [done|]. assert (E : mm !! i = Some m) by (apply Hrow; left). by rewrite H in E. }
  destruct (validate_no_cycles_correct p d) as [[-> Hac]|(l & c & -> & Hc & _)].
  2:{ split; [done|]. intros (Hac & _). by destruct (Hac c). }
  destruct ms as [|im ms'] eqn:Ems; [split; [done|]; intros (_ & Hne & _); by destruct Hne; apply Hempty|].
  rewrite <- Ems in *.
  assert (Hne : mm <> ∅) by (intros Hmm; apply Hempty in Hmm; congruence). clear Ems.
  assert (Hprog : filter (fun im => in_progress im.2 = true) ms = [] <->
    forall i m, mm !! i = Some m -> in_progress m = false).
  { split.
    - intros H i m Hm. destruct (in_progress m) eqn:E; [|done].
      assert (Hin : (i, m) ∈ filter (fun im => in_progress im.2 = true) ms)
        by (apply list_elem_of_filter; by rewrite Hrow).
      rewrite H in Hin. by apply elem_of_nil in Hin.
    - intros H. apply filter_none, Forall_forall. intros [i m] Hm Hp. apply Hrow, H in Hm. cbn in Hp. congruence. }
  assert (Hmiss : _check_missing_variables inputs pv ms = [] <->
    forall i m, mm !! i = Some m -> module_missing inputs pv i m = []).
  { rewrite check_missing_nil. split; intros H i m Hm; apply H; by apply Hrow. }
  split.
  - destruct (filter _ ms); [|done]. destruct (_check_missing_variables _ _ _); [|done]. intros _.
    split; [done|]. split; [done|]. intros i m Hm. split; [by apply (proj1 Hprog eq_refl i)|].
    apply module_missing_nil. by apply (proj1 Hmiss eq_refl).
  - intros (_ & _ & H). rewrite (proj2 Hprog) by (intros i m Hm; by apply (H i)).
    rewrite (proj2 Hmiss) by (intros i m Hm; by apply module_missing_nil, (H i)). done.
Qed.
