(* ===== verification/DeployChain.v ===== *)
(** * The deploy chain (services/parallel_execution_service.py,
      tasks/_tofu_helpers.py, tasks/ssh_tasks.py, routes/project_orchestration.py)

    A deploy of a project starts with the modules whose dependencies are applied;
    the worker that has applied a module looks for the modules that may follow,
    in the project or in the module's stack.  The workers are those of the SSH
    engine; the other engines end the same way.

    [celery] is the id the broker gives the message of a task, as in
    DestroyChain.v; a broker that refuses one is not modelled.  [vars_changed]
    says for which modules the variables differ from those of the last plan. *)

From S2P Require Import Prelude Texts ModuleState DepGraph Orchestration ProjectGraph ProjectPlan DestroyChain.

#[local] Open Scope string_scope.
#[local] Open Scope list_scope.
#[local] Open Scope Z_scope.

(** [order_by(ProjectModule.deployment_order)] *)
Definition order_le (a b : Z * pmodule) : Prop := deployment_order a.2 <= deployment_order b.2.
#[global] Instance order_le_dec : RelDecision order_le := fun a b => decide (deployment_order a.2 <= deployment_order b.2).

Section chain.
Context {SO : SetOrder Z} (celery : Z -> string) (vars_changed : Z -> bool).

(** ** Queueing *)

Definition applied (d : odb) (i : Z) : bool :=
  match modules d !! i with Some m => bool_decide (pm_status m = APPLIED) | None => false end.
Definition deps_ready (d : odb) (m : pmodule) : bool := forallb (applied d) (pm_dependencies m).
Definition in_flight (d : odb) (i : Z) : bool := some_task (fun t => of_module i t && active_task t) d.

(** The row of a task, its message, the status of the module. *)
Definition queue_task (ty : task_type) (st : TaskStatus) (ms : ModuleStatus) (i : Z) (handle : option string)
    (d : odb) : odb :=
  match modules d !! i with
  | None => d
  | Some m =>
      let t := next_task d in
      update_module i (set_status ms)
        (update_task t (set_celery (Some (celery t)))
          (add_task {| t_type := ty; t_status := st; t_project := pm_project m; t_module := Some i;
                       celery_task_id := None; run_handle := handle; destroy_scope := None; t_error := None |} d))
  end.

(** An init that goes on with the apply, or the apply. *)
Definition queue_deploy (st : TaskStatus) (i : Z) (m : pmodule) (handle : option string) (d : odb) : odb :=
  match pm_status m with
  | NOT_INITIALIZED => queue_task Tinit st INITIALIZING i handle d
  | _ => queue_task Tapply st APPLYING i handle d
  end.

Definition by_order (ms : list (Z * pmodule)) : list (Z * pmodule) := merge_sort order_le ms.

Definition first_wave_deploy (handle : option string) (st : odb * option string) (i : Z) : odb * option string :=
  let '(d, first) := st in
  match modules d !! i with
  | None => st
  | Some m =>
      if negb (enabled m) then st
      else if bool_decide (pm_status m = APPLIED) && negb (vars_changed i) then st
      else if in_flight d i then st
      else if negb (deps_ready d m) then st
      else (queue_deploy T_QUEUED i m handle d,
            match first with Some _ => first | None => Some (celery (next_task d)) end)
  end.

Definition _dispatch_first_wave (p : Z) (handle : option string) (d : odb) : odb * option string :=
  foldl (first_wave_deploy handle) (d, None) (by_order (project_modules p d)).*1.

(** ** After an apply *)

(** The handle of the run, from the newest init or apply of the module. *)
Definition handle_of (mid : Z) (d : odb) : option string :=
  newest (fun t => of_module mid t && bool_decide (t_type t ∈ [Tinit; Tapply])) (tasks d) ≫= run_handle.

Definition _trigger_next_project_module (mid : Z) (m : pmodule) (d : odb) : odb :=
  (_dispatch_first_wave (pm_project m) (handle_of mid d) d).1.

Definition trigger_stack_module (mid : Z) (d : odb) (i : Z) : odb :=
  match modules d !! i with
  | None => d
  | Some m =>
      if negb (enabled m) then d
      else if bool_decide (pm_status m ∈ [APPLIED; APPLYING; APPLY_FAILED; PLAN_FAILED]) then d
      else if negb (bool_decide (mid ∈ pm_dependencies m)) then d
      else if negb (deps_ready d m) then d
      else if in_flight d i then d
      else queue_deploy T_PENDING i m (handle_of mid d) d
  end.

Definition _trigger_next_stack_module (s mid : Z) (d : odb) : odb :=
  match deployed_modules s d with
  | [] => d
  | _ => foldl (trigger_stack_module mid) d (by_order (stack_modules s d)).*1
  end.

Definition _update_stack_status_if_needed (mid : Z) (d : odb) : odb :=
  match modules d !! mid with
  | None => d
  | Some m =>
      match pm_stack m with
      | None => if bool_decide (pm_status m = APPLIED) then _trigger_next_project_module mid m d else d
      | Some s =>
          match stacks d !! s with
          | None => d
          | Some st =>
              let should_chain := bool_decide (s_status st ∈ [S_DEPLOYING; S_PENDING; S_FAILED]) &&
                                  bool_decide (pm_status m = APPLIED) in
              let d := update_stack_progress s d in
              if should_chain then _trigger_next_stack_module s mid d else d
          end
      end
  end.

(** ** The workers *)

(** [can_execute]: every dependency applied and with outputs. *)
Definition can_execute (d : odb) (m : pmodule) : bool :=
  forallb (fun j => match modules d !! j with
                    | Some x => bool_decide (pm_status x = APPLIED) && has_outputs x
                    | None => false
                    end) (pm_dependencies m).

(** [_mark_task_failed]; [None]: the module is left alone. *)
Definition _mark_task_failed (t : Z) (error : string) (mid : Z) (failed_status : option ModuleStatus) (d : odb) : odb :=
  let d := update_task t (set_task_status T_FAILED (Some (clip 2000 error))) d in
  match failed_status with
  | None => d
  | Some st =>
      let d := update_module mid (fun m => set_error (Some (clip 2000 error)) (set_status st m)) d in
      match modules d !! mid ≫= pm_stack with Some _ => _update_stack_status_if_needed mid d | None => d end
  end.

(** [run_ssh_init]: what the worker commits; [None]: success. *)
Definition commit_init (t mid : Z) (failure : option string) (d : odb) : odb :=
  match failure with
  | None => update_module mid (set_status INITIALIZED)
              (update_task t (fun r => set_task_status T_COMPLETED (t_error r) r) d)
  | Some e => update_module mid (fun m => set_error (Some e) (set_status INIT_FAILED m))
                (update_task t (set_task_status T_FAILED (Some e)) d)
  end.

Definition disabled_message (mid : Z) : string :=
  "Module " +:+ pretty mid +:+ " is disabled; refusing to dispatch apply. Enable it first.".

(** The apply that follows an init has no run handle.  The dispatch refuses a
    disabled module after the row is there. *)
Definition auto_apply (t mid : Z) (m : pmodule) (d : odb) : odb :=
  if enabled m then queue_task Tapply T_QUEUED APPLYING mid None d
  else
    _mark_task_failed t (disabled_message mid) mid (Some INIT_FAILED)
      (add_task {| t_type := Tapply; t_status := T_QUEUED; t_project := pm_project m; t_module := Some mid;
                   celery_task_id := None; run_handle := None; destroy_scope := None; t_error := None |} d).

Definition after_init (t mid : Z) (success : bool) (d : odb) : odb :=
  match modules d !! mid with
  | None => d
  | Some m =>
      let d := match pm_stack m with Some _ => _update_stack_status_if_needed mid d | None => d end in
      match modules d !! mid with
      | None => d
      | Some m => if success && can_execute d m then auto_apply t mid m d else d
      end
  end.

(** [run_ssh_apply] *)
Definition refuse_apply (t mid : Z) (missing : string) (d : odb) : odb :=
  _mark_task_failed t ("Dependencies not satisfied: " +:+ missing) mid (Some APPLY_FAILED) (start_task t d).

Definition commit_apply (t mid : Z) (failure : option string) (d : odb) : odb :=
  match failure with
  | None => update_module mid (fun m => set_outputs true (set_error None (set_status APPLIED m)))
              (update_task t (fun r => set_task_status T_COMPLETED (t_error r) r) d)
  | Some e => update_module mid (fun m => set_error (Some (last_chars 2000 e)) (set_status APPLY_FAILED m))
                (update_task t (set_task_status T_FAILED (Some e)) d)
  end.

Definition after_apply (mid : Z) (d : odb) : odb := _update_stack_status_if_needed mid d.

(** ** The routes *)

Inductive run_answer :=
| ProjectNotFound
| CannotRun (cycle_ids : gset Z)      (** [ValueError] of the plan *)
| KeyErrorTotalModules                (** the plan has no ["total_modules"] *)
| NothingToRun
| PlanOnly (pl : plan)
| RunStarted (pl : plan) (first_task_id : option string)
| RunFault.

(** The common shape: the plan, its guards, then [start]. *)
Definition with_plan (catalog : Z -> option lib_row) (exists_project create_tasks : bool) (p : Z)
    (start : odb -> odb * option string) (d : odb) : odb * run_answer :=
  if negb exists_project then (d, ProjectNotFound)
  else
    match get_execution_plan catalog p d with
    | None => (d, RunFault)
    | Some (PlanError c) => (d, CannotRun c)
    | Some EmptyPlan => (d, KeyErrorTotalModules)
    | Some (Plan _ _ total_modules _ _ _ as pl) =>
        if (total_modules =? 0)%nat then (d, NothingToRun)
        else if create_tasks then let '(d, first) := start d in (d, RunStarted pl first)
        else (d, PlanOnly pl)
    end.

Definition deploy_project_parallel (catalog : Z -> option lib_row) (exists_project create_tasks : bool) (p : Z)
    (handle : string) : odb -> odb * run_answer :=
  with_plan catalog exists_project create_tasks p (_dispatch_first_wave p (Some handle)).

Definition destroy_project_parallel (catalog : Z -> option lib_row) (exists_project create_tasks : bool) (p : Z)
    (handle : string) (force_destroy : bool) : odb -> odb * run_answer :=
  with_plan catalog exists_project create_tasks p (_dispatch_first_destroy_wave celery p (Some handle) force_destroy).

Inductive route_answer :=
| NotFound404
| Conflict409 (task : Z)
| BadRequest400 (why : readiness)
| Answered (a : run_answer).

(** The unfinished tasks of the project. *)
Definition in_flight_tasks (p : Z) (d : odb) : list (Z * task) :=
  select (fun _ t => bool_decide (t_project t = p) && active_task t) (tasks d).

(** An exception of the service undoes what was not committed. *)
Definition rolled_back (d : odb) (r : odb * run_answer) : odb * route_answer :=
  match r.2 with
  | RunStarted _ _ | PlanOnly _ | NothingToRun => (r.1, Answered r.2)
  | _ => (d, Answered r.2)
  end.

Definition deploy_all_modules (catalog : Z -> option lib_row) (inputs : Z -> module_inputs) (pv : project_variables)
    (exists_project : bool) (p : Z) (handle : string) (d : odb) : odb * route_answer :=
  if negb exists_project then (d, NotFound404)
  else
    match in_flight_tasks p d with
    | (t, _) :: _ => (d, Conflict409 t)
    | [] =>
        match validate_project_ready inputs pv p Deploy d with
        | Ready => rolled_back d (deploy_project_parallel catalog true true p handle d)
        | why => (d, BadRequest400 why)
        end
    end.

(** Committed before the destroy is tried. *)
Definition stacks_to_destroying (p : Z) : odb -> odb :=
  with_stacks (fmap (fun s =>
    if bool_decide (s_project s = p) && bool_decide (s_status s ∈ [S_DEPLOYED; S_FAILED; S_PENDING])
    then set_stack_error None (set_stack_status S_DESTROYING s) else s)).

(** The readiness of the project is only logged. *)
Definition destroy_all_modules (catalog : Z -> option lib_row) (exists_project : bool) (p : Z) (handle : string)
    (force_destroy : bool) (d : odb) : odb * route_answer :=
  if negb exists_project then (d, NotFound404)
  else
    match in_flight_tasks p d with
    | (t, _) :: _ => (d, Conflict409 t)
    | [] =>
        let d := stacks_to_destroying p d in
        rolled_back d (destroy_project_parallel catalog true true p handle force_destroy d)
    end.
End chain.
