(* ===== verification/DeployRun.v ===== *)
(** * Runs of the deploy chain

    What the workers of a project's deploy do over DeployChain.v's operations, as
    a step relation, for a project whose modules are in no stack.  What a worker
    commits and what it does next are two steps, and so are the commit of an init
    and the apply it goes on with: others run in between.  A worker reads the
    dependencies when it starts.  Two waves do not overlap. *)

From S2P Require Import Prelude Texts ModuleState Orchestration DestroyChain DestroyRun DeployChain.

#[local] Open Scope string_scope.
#[local] Open Scope list_scope.
#[local] Open Scope Z_scope.
#[local] Set Default Proof Using "Type".

(** What a worker that has committed does next. *)
Inductive followup := FInit (t i : Z) (success : bool) | FApply (i : Z).
#[global] Instance followup_eq_dec : EqDecision followup.
Proof. solve_decision. Defined.

Record dstate := { ddb : odb; follow : list followup }.

Definition succeeded (failure : option string) : bool := match failure with None => true | Some _ => false end.

(** A task whose message waits for a worker. *)
Definition waiting (r : task) : bool :=
  bool_decide (t_status r ∈ [T_QUEUED; T_PENDING]) && negb (bool_decide (celery_task_id r = None)).

(** ** What a run keeps *)

Section tables.
Context {SO : SetOrder Z} (p : Z).

Record sound (d : odb) (pd : list followup) : Prop := {
  s_fresh t r : tasks d !! t = Some r -> t < next_task d;
  s_stackless i m : modules d !! i = Some m -> pm_project m = p -> pm_stack m = None;
  s_outputs i m : modules d !! i = Some m -> pm_status m = APPLIED -> has_outputs m = true;
  s_active t r i m : tasks d !! t = Some r -> active_task r = true -> t_module r = Some i ->
    modules d !! i = Some m -> pm_project m = p ->
    enabled m = true /\ (t_type r = Tinit \/ t_type r = Tapply) /\ celery_task_id r <> None;
  s_init t i ok : FInit t i ok ∈ pd -> exists m, modules d !! i = Some m /\ pm_project m = p /\ enabled m = true;
  s_apply i : FApply i ∈ pd -> exists m, modules d !! i = Some m /\ pm_project m = p
}.

(** A module that could be deployed now. *)
Definition needy (d : odb) (i : Z) (m : pmodule) : Prop :=
  modules d !! i = Some m /\ pm_project m = p /\ enabled m = true /\ pm_status m <> APPLIED /\ deps_ready d m = true.

Definition gave_up (s : ModuleStatus) : Prop := s = INIT_FAILED \/ s = APPLY_FAILED.

(** Whose turn it is to take the module on. *)
Definition cared_for (d : odb) (pd : list followup) (i : Z) (m : pmodule) : Prop :=
  in_flight d i = true \/ gave_up (pm_status m) \/ (exists t, FInit t i true ∈ pd) \/
  exists k, k ∈ pm_dependencies m /\ FApply k ∈ pd.

Definition deploy_inv (w : dstate) : Prop :=
  sound (ddb w) (follow w) /\ forall i m, needy (ddb w) i m -> cared_for (ddb w) (follow w) i m.

(** ** Reading the tables *)

Lemma applied_spec d i : applied d i = true <-> exists m, modules d !! i = Some m /\ pm_status m = APPLIED.
Proof.
  unfold applied. destruct (modules d !! i) as [m|]; [rewrite bool_decide_eq_true|]; naive_solver.
Qed.

Lemma deps_ready_spec d m : deps_ready d m = true <-> forall j, j ∈ pm_dependencies m -> applied d j = true.
Proof. unfold deps_ready. rewrite forallb_forall. split; intros H j Hj; apply H; by apply list_elem_of_In. Qed.

Lemma in_flight_spec d i :
  in_flight d i = true <-> exists t r, tasks d !! t = Some r /\ t_module r = Some i /\ active_task r = true.
Proof.
  unfold in_flight. rewrite some_task_true. unfold of_module.
  split; intros (t & r & Ht & H); exists t, r; (split; [done|]);
    [apply andb_true_iff in H as [H ?]; by apply bool_decide_eq_true in H|].
  destruct H as [H ->]. by rewrite bool_decide_true.
Qed.

(** With outputs beside every applied module, the worker's test is the wave's. *)
Lemma can_execute_ready d pd m : sound d pd -> can_execute d m = deps_ready d m.
Proof.
  intros Hs. unfold can_execute, deps_ready, applied. induction (pm_dependencies m) as [|j l IH]; cbn; [done|].
  rewrite IH. f_equal. destruct (modules d !! j) as [x|] eqn:E; [|done]. case_bool_decide as Hx; [|done].
  by rewrite (s_outputs _ _ Hs j x E Hx).
Qed.

(** ** A change to one module and its tasks *)

(** The columns a run never writes. *)
Definition keeps_module (f : pmodule -> pmodule) : Prop :=
  forall m, pm_project (f m) = pm_project m /\ pm_stack (f m) = pm_stack m /\
    pm_dependencies (f m) = pm_dependencies m /\ enabled (f m) = enabled m.

Lemma applied_alter i f d j : (forall m, modules d !! i = Some m -> pm_status (f m) <> APPLIED) ->
  applied (update_module i f d) j = true -> applied d j = true.
Proof.
  intros Hf. rewrite !applied_spec. cbn. intros (m & Hm & Ha). destruct (decide (j = i)) as [->|Hj].
  - rewrite lookup_alter_eq in Hm. destruct (modules d !! i) as [m0|] eqn:E; [|done]. cbn in Hm. simplify_eq.
    by destruct (Hf m0 eq_refl).
  - rewrite lookup_alter_ne in Hm by done. eauto.
Qed.


(** One queued task: what it does to the tables. *)
Lemma queue_task_eq celery ty st ms i h d m : modules d !! i = Some m ->
  exists r, queue_task celery ty st ms i h d =
      {| modules := alter (set_status ms) i (modules d); tasks := <[next_task d := r]> (tasks d);
         stacks := stacks d; next_task := next_task d + 1 |} /\
    t_type r = ty /\ t_status r = st /\ t_project r = pm_project m /\ t_module r = Some i /\
    run_handle r = h /\ celery_task_id r = Some (celery (next_task d)).
Proof.
  intros Hm. unfold queue_task. rewrite Hm. eexists. split.
  - unfold update_module, update_task, add_task, with_modules, with_tasks. cbn. f_equal.
    apply map_eq. intros t. destruct (decide (t = next_task d)) as [->|Ht].
    + rewrite lookup_alter_eq, !lookup_insert_eq. cbn. reflexivity.
    + by rewrite lookup_alter_ne, !lookup_insert_ne.
  - done.
Qed.

Lemma fresh_next d pd : sound d pd -> tasks d !! next_task d = None.
Proof. intros Hs. destruct (tasks d !! _) as [r|] eqn:E; [|done]. apply (s_fresh _ _ Hs) in E. lia. Qed.

(** What no longer is needy was not before, another module's work apart. *)
Lemma needy_before d d' j mj : (forall k, applied d' k = true -> applied d k = true) ->
  modules d' !! j = modules d !! j -> needy d' j mj -> needy d j mj.
Proof.
  intros Ha Hj (Hm & Hp & He & Hn & Hr). rewrite Hj in Hm. do 4 (split; [done|]).
  rewrite deps_ready_spec in Hr |- *. auto.
Qed.

(** A queued task keeps everything sound and takes its module on. *)
Lemma queue_sound celery ty st ms i h d pd m :
  sound d pd -> modules d !! i = Some m -> pm_project m = p -> enabled m = true ->
  (ty = Tinit \/ ty = Tapply) -> ms <> APPLIED -> (st = T_QUEUED \/ st = T_PENDING) ->
  let d' := queue_task celery ty st ms i h d in
  sound d' pd /\ in_flight d' i = true /\ (forall k, applied d' k = true -> applied d k = true) /\
  (forall j, j <> i -> modules d' !! j = modules d !! j) /\
  (forall j, in_flight d j = true -> in_flight d' j = true).
Proof.
  intros Hs Hm Hp He Hty Hms Hst. destruct (queue_task_eq celery ty st ms i h d m Hm)
    as (r & -> & Hrt & Hrs & Hrp & Hrm & _ & Hrc). cbn zeta.
  pose proof (fresh_next d pd Hs) as Hfr.
  assert (Hrow : forall j mj, alter (set_status ms) i (modules d) !! j = Some mj -> exists m0, modules d !! j = Some m0 /\
    pm_project mj = pm_project m0 /\ pm_stack mj = pm_stack m0 /\ enabled mj = enabled m0 /\
    has_outputs mj = has_outputs m0 /\ (pm_status mj = APPLIED -> pm_status m0 = APPLIED)).
  { intros j mj Hj. apply alter_row in Hj as (m0 & H0 & [[-> ->]|[_ ->]]); exists m0; by repeat split. }
  split; [|split; [|split; [|split]]].
  - destruct Hs as [Hf Hsl Ho Ha Hi Hap]. constructor; cbn.
    + intros t r' [[<- _]|[_ Ht]]%lookup_insert_Some; [lia|]. apply Hf in Ht. lia.
    + intros j mj (m0 & H0 & -> & -> & _)%Hrow. by apply (Hsl j).
    + intros j mj (m0 & H0 & _ & _ & _ & -> & Hst0)%Hrow Hj. eauto.
    + intros t r' j mj Ht Hact Hj (m0 & H0 & -> & _ & -> & _)%Hrow Hpj.
      apply lookup_insert_Some in Ht as [[<- <-]|[_ Ht]]; [|by eapply Ha].
      rewrite Hrm in Hj. injection Hj as <-. assert (m0 = m) as -> by congruence. rewrite Hrt, Hrc. by split; [|split].
    + intros t j ok Hj. destruct (Hi t j ok Hj) as (m0 & H0 & Hp0 & He0).
      destruct (decide (j = i)) as [->|Hji]; [rewrite lookup_alter_eq, H0|rewrite lookup_alter_ne by done]; eauto.
    + intros j Hj. destruct (Hap j Hj) as (m0 & H0 & Hp0).
      destruct (decide (j = i)) as [->|Hji]; [rewrite lookup_alter_eq, H0|rewrite lookup_alter_ne by done]; eauto.
  - apply in_flight_spec. exists (next_task d), r. cbn. rewrite lookup_insert_eq. do 2 (split; [done|]).
    unfold active_task. by destruct Hst as [Hst|Hst]; rewrite Hrs, Hst.
  - intros k. rewrite !applied_spec. cbn. intros (mk & (m0 & H0 & _ & _ & _ & _ & Hk)%Hrow & Ha). eauto.
  - intros j Hj. cbn. by rewrite lookup_alter_ne.
  - intros j. rewrite !in_flight_spec. intros (t & r' & Ht & H). exists t, r'. split; [|done]. cbn.
    rewrite lookup_insert_ne; [done|]. intros <-. congruence.
Qed.

(** A task that starts. *)
Lemma start_deploy d pd t r : tasks d !! t = Some r -> active_task r = true ->
  deploy_inv {| ddb := d; follow := pd |} -> deploy_inv {| ddb := start_task t d; follow := pd |}.
Proof.
  intros Ht Hact [Hs Hc]. cbn in *. split; cbn.
  - destruct Hs as [Hf Hsl Ho Ha Hi Hap]. constructor; try done; cbn.
    + intros u r' (r0 & H0 & _)%alter_task. eauto.
    + intros u r' j mj (r0 & H0 & [[-> ->]|[_ ->]])%alter_task; [|by eauto].
      cbn. intros _ Hm Hj Hp. assert (r0 = r) as -> by congruence. by apply (Ha t r j mj).
  - intros j mj (Hj & Hp & He & Hn & Hr). assert (Hn' : needy d j mj) by done.
    destruct (Hc j mj Hn') as [Hfl|Hcare]; [left|by right].
    apply in_flight_spec in Hfl as (u & r' & Hu & Hm & Hact'). apply in_flight_spec. cbn.
    destruct (decide (u = t)) as [->|Hut].
    + eexists t, _. rewrite lookup_alter_eq, Hu. split; [reflexivity|]. done.
    + exists u, r'. by rewrite lookup_alter_ne.
Qed.

(** A task of the module [i] that ends, with what the worker writes. *)
Definition ends_task (f : task -> task) : Prop :=
  forall r, t_module (f r) = t_module r /\ active_task (f r) = false.

Section closing.
Context (d : odb) (pd pd' : list followup) (t i : Z) (r : task) (m : pmodule).
Context (f : task -> task) (g : pmodule -> pmodule).
Hypothesis TASK : tasks d !! t = Some r.
Hypothesis OF : t_module r = Some i.
Hypothesis ROW : modules d !! i = Some m.
Hypothesis PROJECT : pm_project m = p.
Hypothesis ACTIVE : active_task r = true.
Hypothesis ENDS : ends_task f.
Hypothesis KEEPS : keeps_module g.
Hypothesis OUTPUTS : pm_status (g m) = APPLIED -> has_outputs (g m) = true.
Hypothesis MORE : pd ⊆ pd'.
Hypothesis NEW : forall y, y ∈ pd' -> y ∈ pd \/ y = FApply i \/ exists ok, y = FInit t i ok.
Hypothesis CASES : pm_status (g m) = APPLIED /\ FApply i ∈ pd' \/ gave_up (pm_status (g m)) \/
  pm_status (g m) <> APPLIED /\ FInit t i true ∈ pd'.
#[local] Abbreviation d' := (update_module i g (update_task t f d)).

Lemma close_row j mj : alter g i (modules d) !! j = Some mj ->
  exists m0, modules d !! j = Some m0 /\ pm_project mj = pm_project m0 /\ pm_stack mj = pm_stack m0 /\
    pm_dependencies mj = pm_dependencies m0 /\ enabled mj = enabled m0 /\ (mj = m0 \/ j = i /\ mj = g m).
Proof using ROW KEEPS.
  intros Hj. apply alter_row in Hj as (m0 & H0 & [[-> ->]|[_ ->]]); exists m0.
  - assert (m0 = m) as -> by congruence. destruct (KEEPS m) as (-> & -> & -> & ->). repeat split; auto.
  - repeat split; auto.
Qed.

Lemma close_member j m0 : modules d !! j = Some m0 -> pm_project m0 = p ->
  exists m1, alter g i (modules d) !! j = Some m1 /\ pm_project m1 = p /\ enabled m1 = enabled m0.
Proof using KEEPS.
  intros H0 Hp0. destruct (decide (j = i)) as [->|Hji].
  - rewrite lookup_alter_eq, H0. exists (g m0). by destruct (KEEPS m0) as (-> & _ & _ & ->).
  - rewrite lookup_alter_ne by done. eauto.
Qed.

Lemma close_sound : sound d pd -> sound d' pd'.
Proof using TASK OF ROW PROJECT ACTIVE ENDS KEEPS OUTPUTS NEW.
  intros Hs. destruct (s_active _ _ Hs t r i m TASK ACTIVE OF ROW PROJECT) as (He & _).
  destruct Hs as [Hfr Hsl Ho Ha Hi Hap]. constructor; cbn.
  - intros u r' (r0 & H0 & _)%alter_task. eauto.
  - intros j mj (m0 & H0 & -> & -> & _)%close_row. by apply (Hsl j).
  - intros j mj (m0 & H0 & _ & _ & _ & _ & [->|[-> ->]])%close_row; [eauto|done].
  - intros u r' j mj (r0 & H0 & [[-> ->]|[_ ->]])%alter_task Hr' Hj (m0 & Hm0 & -> & _ & _ & -> & _)%close_row Hpj;
      [by destruct (ENDS r0) as [_ E]; rewrite E in Hr'|by eapply Ha].
  - intros u j ok Hj. assert (Hx : exists m0, modules d !! j = Some m0 /\ pm_project m0 = p /\ enabled m0 = true).
    { destruct (NEW _ Hj) as [Hy|[Hy|[ok' Hy]]]; [by eapply Hi|done|]. injection Hy as -> -> ->. eauto. }
    destruct Hx as (m0 & H0 & Hp0 & He0). destruct (close_member j m0 H0 Hp0) as (m1 & H1 & Hp1 & He1).
    exists m1. by rewrite He1.
  - intros j Hj. assert (Hx : exists m0, modules d !! j = Some m0 /\ pm_project m0 = p).
    { destruct (NEW _ Hj) as [Hy|[Hy|[ok' Hy]]]; [by eapply Hap| |done]. injection Hy as ->. eauto. }
    destruct Hx as (m0 & H0 & Hp0). destruct (close_member j m0 H0 Hp0) as (m1 & H1 & Hp1 & _). eauto.
Qed.

(** A module that was cared for still is, unless its last dependency has just
    been applied. *)
Lemma close_cared j m0 : cared_for d pd j m0 -> j <> i -> cared_for d' pd' j m0.
Proof using TASK OF MORE.
  intros [Hfl|[Hgu|[[u Hu]|(k & Hk & Hkp)]]] Hji.
  - left. apply in_flight_spec in Hfl as (u & r' & Hu & Hm' & Hact'). apply in_flight_spec.
    exists u, r'. cbn. rewrite lookup_alter_ne; [done|]. intros <-. congruence.
  - right. by left.
  - right. right. left. exists u. by apply MORE.
  - right. right. right. exists k. split; [done|]. by apply MORE.
Qed.

Lemma close_cover : (forall j mj, needy d j mj -> cared_for d pd j mj) ->
  forall j mj, needy d' j mj -> cared_for d' pd' j mj.
Proof using TASK OF ROW KEEPS MORE CASES.
  intros Hc j mj Hneedy. pose proof Hneedy as (Hj & Hpj & Hej & Hnj & Hrj). cbn in Hj.
  destruct (decide (j = i)) as [->|Hji].
  { rewrite lookup_alter_eq, ROW in Hj. injection Hj as <-.
    destruct CASES as [[Hst' _]|[Hst'|[_ Hin]]]; [done|right; by left|right; right; left; eauto]. }
  destruct (close_row j mj Hj) as (m0 & H0 & _ & _ & _ & _ & [->|[-> _]]); [|done].
  destruct (decide (i ∈ pm_dependencies m0 /\ FApply i ∈ pd')) as [[Hi1 Hi2]|Hno]; [right; right; right; eauto|].
  apply close_cared; [|done]. apply Hc. do 4 (split; [done|]).
  rewrite deps_ready_spec in Hrj |- *. intros k Hk. specialize (Hrj k Hk).
  apply applied_spec in Hrj as (mk & Hmk & Hak). cbn in Hmk. apply close_row in Hmk as (mk0 & Hk0 & _ & _ & _ & _ & Hw).
  destruct Hw as [->|[-> ->]]; [by apply applied_spec; eauto|].
  destruct CASES as [[_ Hin]|[[Hst'|Hst']|[Hst' _]]]; [by destruct Hno|congruence..].
Qed.

Lemma close_deploy : deploy_inv {| ddb := d; follow := pd |} -> deploy_inv {| ddb := d'; follow := pd' |}.
Proof using TASK OF ROW PROJECT ACTIVE ENDS KEEPS OUTPUTS MORE NEW CASES.
  intros [Hs Hc]. split; [by apply close_sound|by apply close_cover].
Qed.
End closing.
End tables.

Section runs.
Context {SO : SetOrder Z} (celery : Z -> string) (vars_changed : Z -> bool) (p : Z).

Inductive dstep : dstate -> dstate -> Prop :=
| d_start t r i m d pd :
    tasks d !! t = Some r -> t_module r = Some i -> modules d !! i = Some m -> pm_project m = p ->
    waiting r = true -> (t_type r = Tinit \/ t_type r = Tapply /\ can_execute d m = true) ->
    dstep {| ddb := d; follow := pd |} {| ddb := start_task t d; follow := pd |}
| d_refuse t r i m missing d pd :
    tasks d !! t = Some r -> t_module r = Some i -> modules d !! i = Some m -> pm_project m = p ->
    waiting r = true -> t_type r = Tapply -> can_execute d m = false ->
    dstep {| ddb := d; follow := pd |} {| ddb := refuse_apply celery vars_changed t i missing d; follow := pd |}
| d_commit_init t r i m failure d pd :
    tasks d !! t = Some r -> t_module r = Some i -> modules d !! i = Some m -> pm_project m = p ->
    t_status r = T_IN_PROGRESS -> t_type r = Tinit ->
    dstep {| ddb := d; follow := pd |}
      {| ddb := commit_init t i failure d; follow := FInit t i (succeeded failure) :: pd |}
| d_commit_apply t r i m failure d pd :
    tasks d !! t = Some r -> t_module r = Some i -> modules d !! i = Some m -> pm_project m = p ->
    t_status r = T_IN_PROGRESS -> t_type r = Tapply ->
    dstep {| ddb := d; follow := pd |} {| ddb := commit_apply t i failure d; follow := FApply i :: pd |}
| d_after_init t i success d pd pd' :
    pd ≡ₚ FInit t i success :: pd' ->
    dstep {| ddb := d; follow := pd |} {| ddb := after_init celery vars_changed t i success d; follow := pd' |}
| d_after_apply i d pd pd' :
    pd ≡ₚ FApply i :: pd' ->
    dstep {| ddb := d; follow := pd |} {| ddb := after_apply celery vars_changed i d; follow := pd' |}.


(** ** The wave *)

Lemma queue_deploy_sound st i m h d pd :
  sound p d pd -> modules d !! i = Some m -> pm_project m = p -> enabled m = true ->
  (st = T_QUEUED \/ st = T_PENDING) ->
  let d' := queue_deploy celery st i m h d in
  sound p d' pd /\ in_flight d' i = true /\ (forall k, applied d' k = true -> applied d k = true) /\
  (forall j, j <> i -> modules d' !! j = modules d !! j) /\
  (forall j, in_flight d j = true -> in_flight d' j = true).
Proof using Type.
  intros Hs Hm Hp He Hst. unfold queue_deploy. destruct (pm_status m);
    (eapply queue_sound; [exact Hs|exact Hm|exact Hp|exact He|auto|discriminate|exact Hst]).
Qed.

(** Every needy module outside [l] has a task. *)
Definition wave_covered (l : list Z) (d : odb) : Prop :=
  forall j mj, needy p d j mj -> j ∉ l -> in_flight d j = true.

Lemma wave_step h i l d first pd :
  sound p d pd -> (forall m, modules d !! i = Some m -> pm_project m = p) -> wave_covered (i :: l) d ->
  let d' := (first_wave_deploy celery vars_changed h (d, first) i).1 in
  sound p d' pd /\ wave_covered l d'.
Proof using Type.
  intros Hs Hpi Hw. unfold first_wave_deploy.
  assert (Hskip : (forall m, needy p d i m -> in_flight d i = true) -> wave_covered l d).
  { intros H j mj Hn Hj. destruct (decide (j = i)) as [->|Hji]; [eauto|].
    apply (Hw j mj Hn). by rewrite not_elem_of_cons. }
  destruct (modules d !! i) as [m|] eqn:Hm.
  2:{ split; [done|]. apply Hskip. intros m (H & _). congruence. }
  destruct (enabled m) eqn:He; cbn [negb].
  2:{ split; [done|]. apply Hskip. intros m' (H & _ & H' & _). congruence. }
  destruct (bool_decide (pm_status m = APPLIED) && _) eqn:Ha.
  { split; [done|]. apply Hskip. intros m' (H & _ & _ & H' & _).
    apply andb_true_iff in Ha as [Ha _]. apply bool_decide_eq_true in Ha. congruence. }
  destruct (in_flight d i) eqn:Hfl; [by split; [|apply Hskip]|].
  destruct (deps_ready d m) eqn:Hr; cbn [negb].
  2:{ split; [done|]. apply Hskip. intros m' (H & _ & _ & _ & H'). congruence. }
  cbn [fst]. destruct (queue_deploy_sound T_QUEUED i m h d pd Hs Hm (Hpi m eq_refl) He (or_introl eq_refl))
    as (Hs' & Hi & Hap & Hot & Hin).
  split; [done|]. intros j mj Hn Hj. destruct (decide (j = i)) as [->|Hji]; [done|].
  apply Hin, (Hw j mj); [by eapply needy_before; [exact Hap|by apply Hot|]|]. by rewrite not_elem_of_cons.
Qed.

Lemma wave_step_project h i d first j mj :
  modules (first_wave_deploy celery vars_changed h (d, first) i).1 !! j = Some mj ->
  exists m, modules d !! j = Some m /\ pm_project mj = pm_project m.
Proof using Type.
  unfold first_wave_deploy. destruct (modules d !! i) as [m|] eqn:Hm; [|by eauto].
  repeat (destruct (negb _); [by eauto|]). destruct (_ && _); [by eauto|]. destruct (in_flight d i); [by eauto|].
  destruct (negb _); [by eauto|]. cbn [fst]. unfold queue_deploy.
  assert (Hq : forall ty ms, modules (queue_task celery ty T_QUEUED ms i h d) !! j = Some mj ->
    exists m, modules d !! j = Some m /\ pm_project mj = pm_project m).
  { intros ty ms. destruct (queue_task_eq celery ty T_QUEUED ms i h d m Hm) as (r & -> & _). cbn.
    intros (m0 & H0 & [[-> ->]|[_ ->]])%alter_row; eauto. }
  destruct (pm_status m); apply Hq.
Qed.

Lemma wave_covers h d pd : sound p d pd ->
  let d' := (_dispatch_first_wave celery vars_changed p h d).1 in
  sound p d' pd /\ wave_covered [] d'.
Proof using Type.
  intros Hs. unfold _dispatch_first_wave.
  assert (Hin : forall i m, modules d !! i = Some m ->
    (pm_project m = p <-> i ∈ (by_order (project_modules p d)).*1)).
  { intros i m Hm. unfold by_order. rewrite list_elem_of_fmap. split.
    - intros Hp. exists (i, m). split; [done|]. rewrite merge_sort_Permutation.
      by apply elem_of_project_modules, proj_Some.
    - intros ([j m'] & -> & Hj). rewrite merge_sort_Permutation in Hj.
      apply elem_of_project_modules, proj_Some in Hj as [Hj Hp]. cbn in Hm. congruence. }
  set (l := (by_order _).*1) in *. generalize (@None string) as first.
  assert (Hw : wave_covered l d).
  { intros j mj (Hj & Hp & _) Hn. destruct Hn. by apply (Hin j mj). }
  assert (Hp : forall i m, i ∈ l -> modules d !! i = Some m -> pm_project m = p).
  { intros i m Hi Hm. by apply (Hin i m). }
  clearbody l. clear Hin. revert d Hs Hw Hp. induction l as [|i l IH]; intros d Hs Hw Hp first; [done|].
  cbn [foldl]. destruct (wave_step h i l d first pd Hs) as [Hs' Hw']; [intros m; apply Hp; left|done|].
  destruct (first_wave_deploy celery vars_changed h (d, first) i) as [d1 f1] eqn:E. cbn in Hs', Hw'.
  apply IH; [done..|]. intros j mj Hj Hm.
  pose proof (wave_step_project h i d first j mj) as Hpr. rewrite E in Hpr. destruct (Hpr Hm) as (m & Hm0 & ->).
  apply (Hp j); [by right|done].
Qed.

(** ** The steps *)

Lemma covered_deploy d pd : sound p d pd -> wave_covered [] d -> deploy_inv p {| ddb := d; follow := pd |}.
Proof using Type. intros Hs Hw. split; [done|]. intros j mj Hn. left. apply (Hw j mj Hn). by apply not_elem_of_nil. Qed.

Lemma sound_less d pd pd' : pd' ⊆ pd -> sound p d pd -> sound p d pd'.
Proof using Type. clear celery vars_changed. intros Hsub [Hf Hsl Ho Ha Hi Hap]. constructor; eauto. Qed.

Lemma mark_failed_eq t e i st d m : modules d !! i = Some m -> pm_stack m = None ->
  _mark_task_failed celery vars_changed t e i (Some st) d =
  update_module i (fun m => set_error (Some (clip 2000 e)) (set_status st m))
    (update_task t (set_task_status T_FAILED (Some (clip 2000 e))) d).
Proof using Type. intros Hm Hst. unfold _mark_task_failed. cbn. by rewrite lookup_alter_eq, Hm; cbn; rewrite Hst. Qed.

Lemma after_init_inv t i ok d pd pd' : pd ≡ₚ FInit t i ok :: pd' ->
  deploy_inv p {| ddb := d; follow := pd |} ->
  deploy_inv p {| ddb := after_init celery vars_changed t i ok d; follow := pd' |}.
Proof using Type.
  intros Hpd [Hs Hc]. cbn in Hs, Hc.
  assert (Hs' : sound p d pd') by (eapply sound_less; [|exact Hs]; rewrite Hpd; set_solver).
  assert (Hcare : forall j mj, needy p d j mj -> cared_for d pd' j mj \/ j = i /\ ok = true).
  { intros j mj Hn. destruct (Hc j mj Hn) as [H|[H|[[u Hu]|(k & Hk & Hkp)]]]; [left; by left|left; right; by left|..].
    - rewrite Hpd in Hu. apply elem_of_cons in Hu as [[= -> -> <-]|Hu]; [by right|]. left. right. right. left. eauto.
    - rewrite Hpd in Hkp. apply elem_of_cons in Hkp as [[=]|Hkp]. left. right. right. right. eauto. }
  destruct (s_init _ _ _ Hs t i ok) as (m & Hm & Hp & He); [rewrite Hpd; left|].
  unfold after_init. rewrite Hm, (s_stackless _ _ _ Hs i m Hm Hp), Hm, (can_execute_ready p d pd m Hs).
  destruct (ok && deps_ready d m) eqn:Hok.
  - unfold auto_apply. rewrite He.
    destruct (queue_sound p celery Tapply T_QUEUED APPLYING i None d pd' m Hs' Hm Hp He) as (Hq & Hfl & Hap & Hot & Hin);
      [by right|done|by left|].
    split; [done|]. cbn. intros j mj Hn. destruct (decide (j = i)) as [->|Hji]; [by left|].
    assert (Hn' : needy p d j mj) by (eapply needy_before; [exact Hap|by apply Hot|done]).
    destruct (Hcare j mj Hn') as [[H|H]|[H _]]; [left; by apply Hin|by right|done].
  - split; [done|]. cbn. intros j mj Hn. destruct (Hcare j mj Hn) as [H|[-> ->]]; [done|].
    destruct Hn as (Hj & _ & _ & _ & Hr). assert (mj = m) as -> by congruence. by rewrite Hr in Hok.
Qed.

Lemma after_apply_inv i d pd pd' : pd ≡ₚ FApply i :: pd' ->
  deploy_inv p {| ddb := d; follow := pd |} ->
  deploy_inv p {| ddb := after_apply celery vars_changed i d; follow := pd' |}.
Proof using Type.
  intros Hpd [Hs Hc]. cbn in Hs, Hc.
  assert (Hs' : sound p d pd') by (eapply sound_less; [|exact Hs]; rewrite Hpd; set_solver).
  destruct (s_apply _ _ _ Hs i) as (m & Hm & Hp); [rewrite Hpd; left|].
  unfold after_apply, _update_stack_status_if_needed. rewrite Hm, (s_stackless _ _ _ Hs i m Hm Hp).
  case_bool_decide as Ha.
  - unfold _trigger_next_project_module. rewrite Hp.
    destruct (wave_covers (handle_of i d) d pd' Hs') as [Hw1 Hw2]. by apply covered_deploy.
  - split; [done|]. cbn. intros j mj Hn. destruct (Hc j mj Hn) as [H|[H|[[u Hu]|(k & Hk & Hkp)]]];
      [by left|right; by left|..].
    + rewrite Hpd in Hu. apply elem_of_cons in Hu as [[=]|Hu]. right. right. left. eauto.
    + rewrite Hpd in Hkp. apply elem_of_cons in Hkp as [[= ->]|Hkp]; [|right; right; right; eauto].
      destruct Hn as (_ & _ & _ & _ & Hr). rewrite deps_ready_spec in Hr.
      apply Hr, applied_spec in Hk as (mi & Hmi & Hai). congruence.
Qed.

Lemma waiting_active r : waiting r = true -> active_task r = true.
Proof using Type.
  clear celery vars_changed p. unfold waiting. intros H. apply andb_true_iff in H as [H _]. apply bool_decide_eq_true in H.
  unfold active_task. destruct (t_status r); try done; set_solver.
Qed.

Lemma dstep_inv w w' : dstep w w' -> deploy_inv p w -> deploy_inv p w'.
Proof using Type.
  intros H Hi. destruct H as [t r i m d pd Ht Hti Hm Hp Hw Hty|t r i m e d pd Ht Hti Hm Hp Hw Hty Hce
    |t r i m [e|] d pd Ht Hti Hm Hp Hw Hty|t r i m [e|] d pd Ht Hti Hm Hp Hw Hty|t i ok d pd pd' Hpd|i d pd pd' Hpd].
  - by eapply start_deploy; [exact Ht|apply waiting_active|].
  - unfold refuse_apply. set (d1 := start_task t d).
    assert (Hi1 : deploy_inv p {| ddb := d1; follow := pd |}) by (by eapply start_deploy; [exact Ht|apply waiting_active|]).
    pose proof (s_stackless _ _ _ (proj1 Hi) i m Hm Hp) as Hst.
    rewrite (mark_failed_eq t _ i APPLY_FAILED d1 m Hm Hst).
    eapply (close_deploy p d1 pd pd t i (set_task_status T_IN_PROGRESS (t_error r) r) m); try done.
    + unfold d1. cbn. by rewrite lookup_alter_eq, Ht.
    + auto.
    + right. left. by right.
  - eapply (close_deploy p d pd _ t i r m); try done; [unfold active_task; by rewrite Hw|set_solver|..].
    + intros y [->|Hy]%elem_of_cons; eauto.
    + right. left. by left.
  - eapply (close_deploy p d pd _ t i r m); try done; [unfold active_task; by rewrite Hw|set_solver|..].
    + intros y [->|Hy]%elem_of_cons; eauto.
    + right. right. split; [done|]. left.
  - eapply (close_deploy p d pd _ t i r m); try done; [unfold active_task; by rewrite Hw|set_solver|..].
    + intros y [->|Hy]%elem_of_cons; eauto.
    + right. left. by right.
  - eapply (close_deploy p d pd _ t i r m); try done; [unfold active_task; by rewrite Hw|set_solver|..].
    + intros y [->|Hy]%elem_of_cons; eauto.
    + left. split; [done|]. left.
  - by eapply after_init_inv.
  - by eapply after_apply_inv.
Qed.
End runs.
