(* ===== verification/DeployWave.v ===== *)
(** * The first wave of a deploy, exactly

    Which modules [_dispatch_first_wave] starts and what it writes for each, and
    what the routes do around the waves. *)

From S2P Require Import Prelude Texts ModuleState DepGraph Orchestration ProjectGraph ProjectPlan DestroyChain.
From S2P Require Import DestroyRun DeployChain DeployRun.

#[local] Open Scope string_scope.
#[local] Open Scope list_scope.
#[local] Open Scope Z_scope.
#[local] Set Default Proof Using "Type".

(** The status and the task of a module that is started. *)
Definition started_status (m : pmodule) : ModuleStatus :=
  match pm_status m with NOT_INITIALIZED => INITIALIZING | _ => APPLYING end.
Definition started_type (m : pmodule) : task_type :=
  match pm_status m with NOT_INITIALIZED => Tinit | _ => Tapply end.
Definition started_task (celery : Z -> string) (h : option string) (i : Z) (m : pmodule) (t : Z) : task :=
  {| t_type := started_type m; t_status := T_QUEUED; t_project := pm_project m; t_module := Some i;
     celery_task_id := Some (celery t); run_handle := h; destroy_scope := None; t_error := None |}.

Section wave.
Context {SO : SetOrder Z} (celery : Z -> string) (vars_changed : Z -> bool) (p : Z) (h : option string).
Hypothesis UNCHANGED : forall i, vars_changed i = false.

(** The modules a wave starts. *)
Definition chosen (d : odb) (i : Z) (m : pmodule) : Prop :=
  pm_project m = p /\ enabled m = true /\ pm_status m <> APPLIED /\ in_flight d i = false /\ deps_ready d m = true.
#[global] Instance chosen_dec d i m : Decision (chosen d i m).
Proof. unfold chosen. apply _. Defined.

Section fold.
Context (d0 : odb).
Hypothesis FRESH : forall t r, tasks d0 !! t = Some r -> t < next_task d0.

(** After the modules outside [l]. *)
Record waved (l : list Z) (d : odb) : Prop := {
  wv_modules i : modules d !! i =
    (fun m => if decide ((i ∉ l) /\ chosen d0 i m) then set_status (started_status m) m else m) <$> modules d0 !! i;
  wv_old t r : tasks d0 !! t = Some r -> tasks d !! t = Some r;
  wv_new t r : tasks d !! t = Some r -> tasks d0 !! t = None ->
    exists i m, (i ∉ l) /\ modules d0 !! i = Some m /\ chosen d0 i m /\ r = started_task celery h i m t;
  wv_task i m : i ∉ l -> modules d0 !! i = Some m -> chosen d0 i m ->
    exists t, tasks d0 !! t = None /\ tasks d !! t = Some (started_task celery h i m t);
  wv_once t t' r r' : tasks d !! t = Some r -> tasks d !! t' = Some r' -> tasks d0 !! t = None ->
    tasks d0 !! t' = None -> t_module r = t_module r' -> t = t';
  wv_fresh t r : tasks d !! t = Some r -> t < next_task d;
  wv_next : next_task d0 <= next_task d
}.

Lemma waved_applied l d j : waved l d -> applied d j = applied d0 j.
Proof.
  intros Hw. unfold applied. rewrite (wv_modules _ _ Hw). destruct (modules d0 !! j) as [m|]; [|done]. cbn.
  case_decide as Hc; [|done]. destruct Hc as [_ (_ & _ & Hn & _)]. rewrite (bool_decide_false (pm_status m = _)) by done.
  cbn. unfold started_status. by destruct (pm_status m).
Qed.

Lemma waved_ready l d m : waved l d -> deps_ready d m = deps_ready d0 m.
Proof.
  intros Hw. unfold deps_ready. induction (pm_dependencies m) as [|j js IH]; [done|]. cbn.
  by rewrite IH, (waved_applied l d j Hw).
Qed.

Lemma waved_in_flight l d i : waved l d -> i ∈ l -> in_flight d i = in_flight d0 i.
Proof.
  intros Hw Hi. apply eq_iff_eq_true. rewrite !in_flight_spec. split.
  - intros (t & r & Ht & Hm & Ha). destruct (tasks d0 !! t) as [r0|] eqn:E.
    + pose proof (wv_old _ _ Hw t r0 E). exists t, r0. assert (r = r0) as -> by congruence. done.
    + destruct (wv_new _ _ Hw t r Ht E) as (j & m & Hj & _ & _ & ->). cbn in Hm. injection Hm as ->. done.
  - intros (t & r & Ht & H). exists t, r. split; [by apply (wv_old _ _ Hw)|done].
Qed.

Lemma queue_deploy_eq i m d : modules d !! i = Some m ->
  queue_deploy celery T_QUEUED i m h d =
    {| modules := alter (set_status (started_status m)) i (modules d);
       tasks := <[next_task d := started_task celery h i m (next_task d)]> (tasks d);
       stacks := stacks d; next_task := next_task d + 1 |}.
Proof.
  intros Hm. unfold queue_deploy, started_task, started_status, started_type.
  assert (Hq : forall ty ms, queue_task celery ty T_QUEUED ms i h d =
    {| modules := alter (set_status ms) i (modules d);
       tasks := <[next_task d := {| t_type := ty; t_status := T_QUEUED; t_project := pm_project m; t_module := Some i;
         celery_task_id := Some (celery (next_task d)); run_handle := h; destroy_scope := None; t_error := None |}]> (tasks d);
       stacks := stacks d; next_task := next_task d + 1 |}).
  { intros ty ms. unfold queue_task. rewrite Hm. unfold update_module, update_task, add_task, with_modules, with_tasks.
    cbn. f_equal. apply map_eq. intros t. destruct (decide (t = next_task d)) as [->|Ht].
    - by rewrite lookup_alter_eq, !lookup_insert_eq.
    - by rewrite lookup_alter_ne, !lookup_insert_ne. }
  destruct (pm_status m); apply Hq.
Qed.

(** One turn that starts nothing. *)
Lemma waved_skip i l d : waved (i :: l) d -> (forall m, modules d0 !! i = Some m -> ~ chosen d0 i m) -> waved l d.
Proof.
  intros [H1 H2 H3 H4 H5 H6 H7] Hno. constructor; try done.
  - intros j. rewrite H1. destruct (modules d0 !! j) as [m|] eqn:Hj; [|done]. cbn. f_equal.
    destruct (decide (j = i)) as [->|Hji]; [rewrite !decide_False by naive_solver; done|].
    assert (E : j ∉ i :: l <-> j ∉ l) by (rewrite not_elem_of_cons; tauto). by repeat case_decide; tauto.
  - intros t r Ht H0. destruct (H3 t r Ht H0) as (j & m & Hj & H). exists j, m.
    split; [|done]. intros Hin. apply Hj. by right.
  - intros j m Hj Hm Hc. apply H4; [|done..]. apply not_elem_of_cons. split; [|done]. intros ->. by eapply Hno.
Qed.

Lemma waved_step i l d first : i ∉ l -> (forall m, modules d0 !! i = Some m -> pm_project m = p) -> waved (i :: l) d ->
  waved l (first_wave_deploy celery vars_changed h (d, first) i).1.
Proof using FRESH UNCHANGED.
  intros Hil Hp Hw. unfold first_wave_deploy.
  pose proof (wv_modules _ _ Hw i) as Hm. destruct (modules d0 !! i) as [m|] eqn:H0; cbn in Hm.
  2:{ rewrite Hm. apply (waved_skip i); [done|]. intros m E. congruence. }
  rewrite decide_False in Hm by (intros [E _]; destruct E; left). rewrite Hm.
  rewrite (waved_ready _ _ m Hw), (waved_in_flight _ _ i Hw) by left. rewrite UNCHANGED, andb_true_r.
  assert (Hskip : ~ chosen d0 i m -> waved l d).
  { intros Hno. apply (waved_skip i); [done|]. intros m' E. by assert (m' = m) as -> by congruence. }
  destruct (enabled m) eqn:He; cbn [negb]; [|apply Hskip; intros (_ & E & _); congruence].
  case_bool_decide as Ha; [apply Hskip; intros (_ & _ & E & _); done|].
  destruct (in_flight d0 i) eqn:Hf; [apply Hskip; intros (_ & _ & _ & E & _); congruence|].
  destruct (deps_ready d0 m) eqn:Hr; cbn [negb]; [|apply Hskip; intros (_ & _ & _ & _ & E); congruence].
  assert (Hc : chosen d0 i m) by (split; [by apply Hp|done]). clear Hskip. cbn [fst].
  rewrite (queue_deploy_eq i m d Hm). destruct Hw as [H1 H2 H3 H4 H5 H6 H7].
  assert (Hn0 : tasks d0 !! next_task d = None).
  { destruct (tasks d0 !! next_task d) as [r|] eqn:E; [|done]. apply FRESH in E. lia. }
  constructor; cbn.
  - intros j. destruct (decide (j = i)) as [->|Hji].
    + rewrite lookup_alter_eq, Hm, H0. cbn. by rewrite decide_True.
    + rewrite lookup_alter_ne, H1 by done. destruct (modules d0 !! j) as [mj|]; [|done]. cbn. f_equal.
      assert (E : j ∉ i :: l <-> j ∉ l) by (rewrite not_elem_of_cons; tauto). by repeat case_decide; tauto.
  - intros t r Ht. rewrite lookup_insert_ne; [by apply H2|]. intros <-. congruence.
  - intros t r [[<- <-]|[_ Ht]]%lookup_insert_Some Hn; [by exists i, m|].
    destruct (H3 t r Ht Hn) as (j & mj & Hj & H). exists j, mj. split; [|done]. intros Hin. apply Hj. by right.
  - intros j mj Hj Hmj Hcj. destruct (decide (j = i)) as [->|Hji].
    + assert (mj = m) as -> by congruence. exists (next_task d). by rewrite lookup_insert_eq.
    + destruct (H4 j mj) as (t & Ht0 & Ht); [by apply not_elem_of_cons|done..|]. exists t. split; [done|].
      rewrite lookup_insert_ne; [done|]. intros <-. apply H6 in Ht. lia.
  - assert (Hnew : forall t r, tasks d !! t = Some r -> tasks d0 !! t = None -> t_module r <> Some i).
    { intros t r Ht Hn. destruct (H3 t r Ht Hn) as (j & mj & Hj & _ & _ & ->). cbn. intros [= ->]. destruct Hj. left. }
    intros t t' r r' [[<- <-]|[Hne Ht]]%lookup_insert_Some [[<- <-]|[Hne' Ht']]%lookup_insert_Some Hn Hn' E; cbn in E.
    + done.
    + destruct (Hnew t' r' Ht' Hn'). by rewrite <- E.
    + destruct (Hnew t r Ht Hn). by rewrite E.
    + by apply (H5 t t' r r').
  - intros t r [[<- _]|[_ Ht]]%lookup_insert_Some; [lia|]. apply H6 in Ht. lia.
  - lia.
Qed.

Lemma wave_waved : waved [] (_dispatch_first_wave celery vars_changed p h d0).1.
Proof using FRESH UNCHANGED.
  unfold _dispatch_first_wave. set (l := (by_order (project_modules p d0)).*1).
  assert (Hin : forall i m, modules d0 !! i = Some m -> (pm_project m = p <-> i ∈ l)).
  { intros i m Hm. unfold l, by_order. rewrite list_elem_of_fmap. split.
    - intros Hp. exists (i, m). split; [done|]. rewrite merge_sort_Permutation.
      by apply elem_of_project_modules, proj_Some.
    - intros ([j m'] & -> & Hj). rewrite merge_sort_Permutation in Hj.
      apply elem_of_project_modules, proj_Some in Hj as [Hj Hp]. cbn in Hm. congruence. }
  assert (Hnd : NoDup l).
  { unfold l, by_order. rewrite merge_sort_Permutation. apply select_NoDup. }
  assert (Hw : waved l d0).
  { constructor; try done.
    - intros i. destruct (modules d0 !! i) as [m|] eqn:Hm; [|done]. cbn. rewrite decide_False; [done|].
      intros [Hi (Hp & _)]. apply Hi. by apply (Hin i m).
    - intros t r Ht Hn. congruence.
    - intros i m Hi Hm (Hp & _). destruct Hi. by apply (Hin i m).
    - intros t t' r r' Ht _ Hn. congruence. }
  assert (Hp : forall i m, i ∈ l -> modules d0 !! i = Some m -> pm_project m = p) by (intros i m Hi Hm; by apply (Hin i m)).
  assert (Hgo : forall l d first, NoDup l -> waved l d ->
    (forall i m, i ∈ l -> modules d0 !! i = Some m -> pm_project m = p) ->
    waved [] (foldl (first_wave_deploy celery vars_changed h) (d, first) l).1); [|by apply Hgo].
  clear Hw Hp Hnd Hin. clear l. induction l as [|i l IH]; intros d first Hnd Hw Hp; [done|]. cbn [foldl]. apply NoDup_cons in Hnd as [Hi Hnd].
  pose proof (waved_step i l d first Hi ltac:(intros m; apply Hp; left) Hw) as Hw'.
  destruct (first_wave_deploy celery vars_changed h (d, first) i) as [d1 f1]. apply IH; [done..|].
  intros j m Hj. apply Hp. by right.
Qed.
End fold.

(** The first wave of a deploy.  When no variables have changed,
    [_dispatch_first_wave] starts exactly the enabled modules of the project
    that are not applied, have no unfinished task and depend on applied modules
    only; each gets one task, queued under the run's handle and sent, an init
    where none has been done and else an apply, and the status that goes with
    it.  All other modules and tasks stay as they are. *)
Theorem first_wave_exact d :
  (forall t r, tasks d !! t = Some r -> t < next_task d) ->
  let d' := (_dispatch_first_wave celery vars_changed p h d).1 in
  (forall i m, modules d !! i = Some m ->
     (chosen d i m -> modules d' !! i = Some (set_status (started_status m) m) /\
        exists t, tasks d !! t = None /\ tasks d' !! t = Some (started_task celery h i m t) /\
          forall t' r', tasks d' !! t' = Some r' -> tasks d !! t' = None -> t_module r' = Some i -> t' = t) /\
     (~ chosen d i m -> modules d' !! i = Some m /\
        forall t' r', tasks d' !! t' = Some r' -> tasks d !! t' = None -> t_module r' <> Some i)) /\
  (forall t r, tasks d !! t = Some r -> tasks d' !! t = Some r).
Proof using UNCHANGED.
  intros Hf d'. destruct (wave_waved d Hf) as [H1 H2 H3 H4 H5 _ _]. fold d' in H1, H2, H3, H4, H5. split; [|exact H2].
  intros i m Hm. specialize (H1 i). rewrite Hm in H1. cbn in H1. split.
  - intros Hc. rewrite decide_True in H1 by (split; [apply not_elem_of_nil|done]). split; [done|].
    destruct (H4 i m (not_elem_of_nil i) Hm Hc) as (t & Ht0 & Ht). exists t. do 2 (split; [done|]).
    intros t' r' Ht' Hn Hr. by apply (H5 t' t r' _ Ht' Ht Hn Ht0).
  - intros Hc. rewrite decide_False in H1 by tauto. split; [done|]. intros t' r' Ht' Hn Hr.
    destruct (H3 t' r' Ht' Hn) as (j & mj & _ & Hj & Hcj & ->). cbn in Hr. injection Hr as ->. by simplify_eq.
Qed.

End wave.

Section race.
Context {SO : SetOrder Z} (celery : Z -> string) (vars_changed : Z -> bool) (p : Z).
Hypothesis UNCHANGED : forall i, vars_changed i = false.

(** An init and its apply.  When a worker has committed the init of a module and
    another worker's wave comes before the apply it goes on with, both queue an
    apply: the module has two, each with a message on its way. *)
Theorem auto_apply_doubles t i m k mk d pd pd' :
  sound p d pd -> pd ≡ₚ FInit t i true :: FApply k :: pd' ->
  modules d !! i = Some m -> pm_status m = INITIALIZED -> in_flight d i = false -> deps_ready d m = true ->
  modules d !! k = Some mk -> pm_status mk = APPLIED ->
  exists w, rtc (dstep celery vars_changed p) {| ddb := d; follow := pd |} w /\
    exists t1 t2 r1 r2, t1 <> t2 /\ tasks (ddb w) !! t1 = Some r1 /\ tasks (ddb w) !! t2 = Some r2 /\
      t_type r1 = Tapply /\ t_type r2 = Tapply /\ t_module r1 = Some i /\ t_module r2 = Some i /\
      waiting r1 = true /\ waiting r2 = true.
Proof using UNCHANGED.
  intros Hs Hpd Hm Hst Hf Hr Hk Hka.
  destruct (s_init _ _ _ Hs t i true) as (m' & Hm' & Hp & He); [rewrite Hpd; left|].
  assert (m' = m) as -> by congruence. clear Hm'.
  destruct (s_apply _ _ _ Hs k) as (mk' & Hk' & Hpk); [rewrite Hpd; right; left|].
  assert (mk' = mk) as -> by congruence. clear Hk'.
  assert (Hc : chosen p d i m) by (split; [done|]; split; [done|]; rewrite Hst; done).
  set (d1 := (_dispatch_first_wave celery vars_changed p (handle_of k d) d).1).
  assert (E1 : after_apply celery vars_changed k d = d1).
  { unfold after_apply, _update_stack_status_if_needed. rewrite Hk, (s_stackless _ _ _ Hs k mk Hk Hpk).
    rewrite bool_decide_true by done. unfold _trigger_next_project_module. by rewrite Hpk. }
  destruct (wave_waved celery vars_changed p (handle_of k d) UNCHANGED d (s_fresh _ _ _ Hs)) as [W1 _ _ W4 _ _ _].
  destruct (wave_covers celery vars_changed p (handle_of k d) d pd Hs) as [Hs1 _]. fold d1 in W1, W4, Hs1.
  destruct (W4 i m (not_elem_of_nil i) Hm Hc) as (t1 & _ & Ht1).
  specialize (W1 i). rewrite Hm in W1. cbn in W1. rewrite decide_True in W1 by (split; [apply not_elem_of_nil|done]).
  assert (Hready : deps_ready d1 m = true).
  { rewrite deps_ready_spec in Hr |- *. intros j Hj. apply Hr, applied_spec in Hj as (mj & Hmj & Haj).
    apply applied_spec. exists mj. split; [|done].
    destruct (wave_waved celery vars_changed p (handle_of k d) UNCHANGED d (s_fresh _ _ _ Hs)) as [X1 _ _ _ _ _ _].
    specialize (X1 j). fold d1 in X1. rewrite Hmj in X1. cbn in X1. rewrite decide_False in X1; [done|].
    intros [_ (_ & _ & Hn & _)]. done. }
  set (m1 := set_status (started_status m) m) in *.
  destruct (queue_task_eq celery Tapply T_QUEUED APPLYING i None d1 m1 W1) as (r2 & Hq & Hty & Hrs & _ & Hri & _ & Hrc).
  assert (E2 : after_init celery vars_changed t i true d1 = queue_task celery Tapply T_QUEUED APPLYING i None d1).
  { unfold after_init. rewrite W1. change (pm_stack m1) with (pm_stack m). rewrite (s_stackless _ _ _ Hs i m Hm Hp), W1.
    rewrite (can_execute_ready p d1 pd m1 Hs1). change (deps_ready d1 m1) with (deps_ready d1 m). rewrite Hready.
    unfold auto_apply. change (enabled m1) with (enabled m). by rewrite He. }
  exists {| ddb := queue_task celery Tapply T_QUEUED APPLYING i None d1; follow := pd' |}. split.
  - eapply rtc_l; [apply (d_after_apply _ _ _ k d pd (FInit t i true :: pd')); rewrite Hpd; constructor|].
    rewrite E1, <- E2. apply rtc_once. by apply d_after_init.
  - exists t1, (next_task d1), (started_task celery (handle_of k d) i m t1), r2. cbn [ddb]. rewrite Hq. cbn [tasks].
    assert (Hlt : t1 < next_task d1) by by apply (s_fresh _ _ _ Hs1 t1 _ Ht1).
    split; [lia|]. rewrite lookup_insert_ne, lookup_insert_eq by lia. split; [done|]. split; [done|].
    split; [cbn; unfold started_type; by rewrite Hst|]. do 3 (split; [done|]). split; [done|].
    unfold waiting. by rewrite Hrs, Hrc.
Qed.
End race.

(** ** A project of two modules *)

Module Example.

#[local] Instance some_order : SetOrder Z := elements_order.
Definition message (t : Z) : string := pretty t.
Definition unchanged (i : Z) : bool := false.

Definition row (deps : list Z) (st : ModuleStatus) (outputs : bool) : pmodule :=
  {| pm_project := 1; pm_stack := None; pm_dependencies := deps; pm_status := st; deployment_error := None;
     library_module := None; enabled := true; deployment_order := 0; has_outputs := outputs |}.

(** Module 2 runs on module 1. *)
Definition d0 : odb :=
  {| modules := {[1 := row [] INITIALIZED false; 2 := row [1] INITIALIZED false]}; tasks := ∅; stacks := ∅; next_task := 1 |}.

Lemma first_wave_exact_witness : exists t,
  tasks (_dispatch_first_wave message unchanged 1 (Some "run") d0).1 !! t =
    Some (started_task message (Some "run") 1 (row [] INITIALIZED false) t).
Proof.
  destruct (first_wave_exact message unchanged 1 (Some "run") (fun _ => eq_refl) d0) as [H _].
  - intros t r Ht. cbn in Ht. by rewrite lookup_empty in Ht.
  - destruct (proj1 (H 1 (row [] INITIALIZED false) eq_refl)) as (_ & t & _ & Ht & _); [|by exists t].
    apply (bool_decide_unpack _). vm_compute. exact I.
Defined.

(** The init of module 1 is done, and module 2, which needs nothing, applied. *)
Definition d1 : odb :=
  {| modules := {[1 := row [] INITIALIZED false; 2 := row [] APPLIED true]}; tasks := ∅; stacks := ∅; next_task := 1 |}.

Lemma d1_row (P : Z -> pmodule -> Prop) :
  P 1 (row [] INITIALIZED false) -> P 2 (row [] APPLIED true) -> forall i m, modules d1 !! i = Some m -> P i m.
Proof.
  intros H1 H2 i m Hm. cbn in Hm. apply lookup_insert_Some in Hm as [[<- <-]|[_ Hm]]; [done|].
  by apply lookup_singleton_Some in Hm as [<- <-].
Qed.

Lemma d1_sound : sound 1 d1 [FInit 7 1 true; FApply 2].
Proof.
  constructor.
  - intros t r Ht. cbn in Ht. by rewrite lookup_empty in Ht.
  - by apply (d1_row (fun _ m => pm_project m = 1 -> pm_stack m = None)).
  - by apply (d1_row (fun _ m => pm_status m = APPLIED -> has_outputs m = true)).
  - intros t r i m Ht. cbn in Ht. by rewrite lookup_empty in Ht.
  - intros t i ok Hi. apply elem_of_cons in Hi as [[= -> -> ->]|Hi%list_elem_of_singleton]; [|done].
    by exists (row [] INITIALIZED false).
  - intros i Hi. apply elem_of_cons in Hi as [Hi|Hi%list_elem_of_singleton]; [done|]. injection Hi as ->.
    by exists (row [] APPLIED true).
Qed.

Lemma auto_apply_doubles_witness :
  exists w, rtc (dstep message unchanged 1) {| ddb := d1; follow := [FInit 7 1 true; FApply 2] |} w /\
    exists t1 t2 r1 r2, t1 <> t2 /\ tasks (ddb w) !! t1 = Some r1 /\ tasks (ddb w) !! t2 = Some r2 /\
      t_type r1 = Tapply /\ t_type r2 = Tapply /\ t_module r1 = Some 1 /\ t_module r2 = Some 1 /\
      waiting r1 = true /\ waiting r2 = true.
Proof.
  exact (auto_apply_doubles message unchanged 1 (fun _ => eq_refl) 7 1 (row [] INITIALIZED false) 2 (row [] APPLIED true)
    d1 _ [] d1_sound (reflexivity _) eq_refl eq_refl eq_refl eq_refl eq_refl eq_refl).
Defined.
End Example.
