(* ===== verification/DeployEnd.v ===== *)
(** * How a deploy ends

    Over DeployRun.v's runs: what the first wave starts, that every run ends, what
    is left where none can go further, and what two waves make of an init. *)

From Stdlib Require Import Relation_Operators Lexicographic_Product.
From S2P Require Import Prelude Texts ModuleState Orchestration ProjectGraph ProjectPlan DestroyChain DestroyRun.
From S2P Require Import DeployChain DeployRun DeployWave.

#[local] Open Scope string_scope.
#[local] Open Scope list_scope.
#[local] Open Scope Z_scope.
#[local] Set Default Proof Using "Type".

(** ** What is left of a run *)

Section tables.
Context {SO : SetOrder Z} (p : Z).

(** A project ready for a deploy: its modules are in no stack and idle, applied
    modules have outputs. *)
Record deployable (d : odb) : Prop := {
  dp_fresh t r : tasks d !! t = Some r -> t < next_task d;
  dp_stackless i m : modules d !! i = Some m -> pm_project m = p -> pm_stack m = None;
  dp_outputs i m : modules d !! i = Some m -> pm_status m = APPLIED -> has_outputs m = true;
  dp_idle t r i m : tasks d !! t = Some r -> t_module r = Some i -> modules d !! i = Some m -> pm_project m = p ->
    active_task r = false
}.

Lemma deployable_sound d : deployable d -> sound p d [].
Proof.
  intros [Hf Hs Ho Hi]. constructor; try done.
  - intros t r i m Ht Ha Hm Hd Hp. by rewrite (Hi t r i m) in Ha.
  - by intros t i ok ?%elem_of_nil.
  - by intros i ?%elem_of_nil.
Qed.

(** The columns a run leaves alone. *)
Definition frozen (m m' : pmodule) : Prop :=
  pm_project m' = pm_project m /\ pm_stack m' = pm_stack m /\ pm_dependencies m' = pm_dependencies m /\
  enabled m' = enabled m.

Definition all_frozen (ms ms' : gmap Z pmodule) : Prop := forall i, option_Forall2 frozen (ms !! i) (ms' !! i).

#[global] Instance all_frozen_preorder : PreOrder all_frozen.
Proof.
  split.
  - intros ms i. destruct (ms !! i); constructor. by repeat split.
  - intros m1 m2 m3 H1 H2 i. specialize (H1 i). specialize (H2 i).
    destruct H1 as [a b Hab|]; inversion H2 as [x y Hbc|]; subst; constructor.
    unfold frozen in *. naive_solver congruence.
Qed.

Lemma frozen_alter f i ms : keeps_module f -> all_frozen ms (alter f i ms).
Proof.
  intros Hf j. destruct (decide (j = i)) as [->|Hj].
  - rewrite lookup_alter_eq. destruct (ms !! i) as [m|]; constructor. apply Hf.
  - rewrite lookup_alter_ne by done. destruct (ms !! j); constructor. by repeat split.
Qed.

Lemma frozen_dom ms ms' : all_frozen ms ms' -> dom ms' = dom ms.
Proof.
  intros H. apply set_eq. intros i. rewrite !elem_of_dom. specialize (H i).
  split; intros [m Hm]; rewrite Hm in H; inversion H; by eexists.
Qed.

Lemma frozen_back ms ms' i m' : all_frozen ms ms' -> ms' !! i = Some m' -> exists m, ms !! i = Some m /\ frozen m m'.
Proof. intros H Hm. specialize (H i). rewrite Hm in H. inversion H; subst; eauto. Qed.
End tables.

Section ends.
Context {SO : SetOrder Z} (celery : Z -> string) (vars_changed : Z -> bool) (p : Z).
#[local] Abbreviation dstep := (dstep celery vars_changed p).
#[local] Abbreviation wave := (_dispatch_first_wave celery vars_changed p).

Lemma queue_task_frozen ty st ms i h d : all_frozen (modules d) (modules (queue_task celery ty st ms i h d)).
Proof.
  unfold queue_task. destruct (modules d !! i); [|reflexivity]. cbn. by apply frozen_alter.
Qed.

Lemma queue_deploy_frozen st i m h d : all_frozen (modules d) (modules (queue_deploy celery st i m h d)).
Proof. unfold queue_deploy. destruct (pm_status m); apply queue_task_frozen. Qed.

Lemma wave_frozen h d : all_frozen (modules d) (modules (wave h d).1).
Proof.
  unfold _dispatch_first_wave. generalize (@None string) as first. generalize (by_order (project_modules p d)).*1 as l.
  intros l. revert d. induction l as [|i l IH]; intros d first; [reflexivity|]. cbn [foldl].
  assert (H : all_frozen (modules d) (modules (first_wave_deploy celery vars_changed h (d, first) i).1)).
  { unfold first_wave_deploy. destruct (modules d !! i) as [m|]; [|reflexivity].
    repeat (destruct (negb _); [reflexivity|]). destruct (_ && _); [reflexivity|]. destruct (in_flight d i); [reflexivity|].
    destruct (negb _); [reflexivity|]. apply queue_deploy_frozen. }
  destruct (first_wave_deploy celery vars_changed h (d, first) i) as [d1 f1]. etrans; [exact H|apply IH].
Qed.

Lemma dstep_frozen w w' : dstep w w' -> deploy_inv p w -> all_frozen (modules (ddb w)) (modules (ddb w')).
Proof.
  intros H [Hs _].
  destruct H as [|t r i m e d pd Ht Hti Hm Hp|t r i m [e|]|t r i m [e|]|t i success d pd pd' H|i d pd pd' H]; cbn [ddb follow] in *.
  1: reflexivity.
  2-5: by apply frozen_alter.
  - unfold refuse_apply. rewrite (mark_failed_eq celery vars_changed t _ i APPLY_FAILED (start_task t d) m Hm).
    + cbn. by apply frozen_alter.
    + by apply (s_stackless _ _ _ Hs i).
  - unfold after_init. destruct (s_init _ _ _ Hs t i success) as (m & Hm & Hp & He); [rewrite H; left|].
    rewrite Hm, (s_stackless _ _ _ Hs i m Hm Hp), Hm. destruct (_ && _); [|reflexivity].
    unfold auto_apply. rewrite He. apply queue_task_frozen.
  - unfold after_apply, _update_stack_status_if_needed.
    destruct (s_apply _ _ _ Hs i) as (m & Hm & Hp); [rewrite H; left|].
    rewrite Hm, (s_stackless _ _ _ Hs i m Hm Hp). case_bool_decide; [|reflexivity].
    unfold _trigger_next_project_module. rewrite Hp. apply wave_frozen.
Qed.

Definition deploying (h : string) (d : odb) : dstate := {| ddb := (wave (Some h) d).1; follow := [] |}.

Lemma deploying_inv h d : deployable p d -> deploy_inv p (deploying h d).
Proof.
  intros Hd. destruct (wave_covers celery vars_changed p (Some h) d [] (deployable_sound p d Hd)). by apply covered_deploy.
Qed.

Lemma reach_inv w w' : rtc dstep w w' -> deploy_inv p w ->
  deploy_inv p w' /\ all_frozen (modules (ddb w)) (modules (ddb w')).
Proof.
  induction 1 as [w|w1 w2 w3 Hs _ IH]; intros Hi; [by split|].
  destruct (IH (dstep_inv celery vars_changed p _ _ Hs Hi)) as [H1 H2]. split; [done|].
  etrans; [by apply (dstep_frozen w1 w2)|done].
Qed.

(** Where no step is left, no task of the project is unfinished. *)
Lemma stuck_idle d pd : deploy_inv p {| ddb := d; follow := pd |} ->
  (forall w', ~ dstep {| ddb := d; follow := pd |} w') ->
  pd = [] /\ forall i m, modules d !! i = Some m -> pm_project m = p -> in_flight d i = false.
Proof.
  intros [Hs _] Hstuck. cbn in Hs. split.
  - destruct pd as [|[t i ok|i] pd]; [done|exfalso..].
    + eapply Hstuck. by eapply d_after_init.
    + eapply Hstuck. by eapply d_after_apply.
  - intros i m Hm Hp. destruct (in_flight d i) eqn:E; [|done]. exfalso.
    apply in_flight_spec in E as (t & r & Ht & Hti & Ha).
    destruct (s_active _ _ _ Hs t r i m Ht Ha Hti Hm Hp) as (He & Hty & Hc).
    assert (Hw : waiting r = true \/ t_status r = T_IN_PROGRESS).
    { unfold waiting. rewrite (bool_decide_false (celery_task_id r = None)) by done. unfold active_task in Ha.
      destruct (t_status r); try done; auto; left; by rewrite bool_decide_true by set_solver. }
    destruct Hw as [Hw|Hw], Hty as [Hty|Hty].
    + eapply Hstuck. eapply d_start; eauto.
    + destruct (can_execute d m) eqn:Hce; eapply Hstuck; [eapply d_start; eauto|eapply (d_refuse _ _ _ _ _ _ _ ""); eauto].
    + eapply Hstuck. eapply (d_commit_init _ _ _ _ _ _ _ None); eauto.
    + eapply Hstuck. eapply (d_commit_apply _ _ _ _ _ _ _ None); eauto.
Qed.

(** A direct dependency. *)
Definition depends (d : odb) (i j : Z) : Prop := exists m, modules d !! i = Some m /\ j ∈ pm_dependencies m.

(** What the run does not get past. *)
Definition blocker (d : odb) (j : Z) : Prop :=
  match modules d !! j with
  | None => True
  | Some m => pm_status m <> APPLIED /\ (pm_project m <> p \/ enabled m = false \/ gave_up (pm_status m))
  end.

Lemma idle_outcome (rank : Z -> nat) d : deploy_inv p {| ddb := d; follow := [] |} ->
  (forall i j, depends d i j -> (rank j < rank i)%nat) ->
  (forall i m, modules d !! i = Some m -> pm_project m = p -> in_flight d i = false) ->
  forall i, applied d i = true \/ exists x, rtc (depends d) i x /\ blocker d x.
Proof.
  intros [Hs Hc] Hr Hidle i. cbn in Hc. remember (rank i) as n eqn:Hn. revert i Hn.
  induction (lt_wf n) as [n _ IH]. intros i ->.
  destruct (applied d i) eqn:Ha; [by left|right].
  assert (Hself : blocker d i -> exists x, rtc (depends d) i x /\ blocker d x) by (intros; by exists i).
  destruct (modules d !! i) as [m|] eqn:Hm; [|apply Hself; unfold blocker; by rewrite Hm].
  assert (Hna : pm_status m <> APPLIED).
  { intros Hst. rewrite (proj2 (applied_spec d i)) in Ha; [done|eauto]. }
  destruct (decide (pm_project m = p)) as [Hp|Hp]; [|apply Hself; unfold blocker; rewrite Hm; auto].
  destruct (enabled m) eqn:He; [|apply Hself; unfold blocker; rewrite Hm; auto].
  destruct (deps_ready d m) eqn:Hdr.
  - assert (Hn : needy p d i m) by done.
    destruct (Hc i m Hn) as [Hf|[Hg|[[t Ht]|(k & _ & Hk)]]].
    + by rewrite (Hidle i m Hm Hp) in Hf.
    + apply Hself. unfold blocker. rewrite Hm. auto.
    + by apply elem_of_nil in Ht.
    + by apply elem_of_nil in Hk.
  - assert (Hex : exists j, j ∈ pm_dependencies m /\ applied d j = false).
    { destruct (list_find (fun j => applied d j = false) (pm_dependencies m)) as [[k j]|] eqn:F.
      - apply list_find_Some in F as (Hj & Hja & _). exists j. split; [|done]. by eapply list_elem_of_lookup_2.
      - apply list_find_None in F. rewrite Forall_forall in F. apply not_true_iff_false in Hdr. destruct Hdr.
        apply deps_ready_spec. intros j Hj. destruct (applied d j) eqn:E; [done|]. by destruct (F j Hj). }
    destruct Hex as (j & Hj & Hja). assert (Hd : depends d i j) by (exists m; done).
    destruct (IH (rank j) (Hr i j Hd) j eq_refl) as [Hja'|(x & Hx & Hb)]; [congruence|].
    exists x. split; [by eapply rtc_l|done].
Qed.

(** ** Every run ends

    In this order: the inits to come, the applies of a module beyond one, the
    modules not applied, the waves to come, the applies to come.  Every step
    makes the first of them that it changes smaller. *)

Definition init_weight (r : task) : nat :=
  match t_type r with
  | Tinit => match t_status r with T_QUEUED | T_PENDING => 3 | T_IN_PROGRESS => 2 | _ => 0 end
  | _ => 0
  end.
Definition apply_weight (r : task) : nat :=
  match t_type r with
  | Tapply => match t_status r with T_QUEUED | T_PENDING => 3 | T_IN_PROGRESS => 2 | _ => 0 end
  | _ => 0
  end.
Definition applying (i : Z) (r : task) : nat :=
  if of_module i r && active_task r && bool_decide (t_type r = Tapply) then 1 else 0.
Definition uninit (m : pmodule) : nat := match pm_status m with NOT_INITIALIZED => 4 | _ => 0 end.
Definition unapplied (m : pmodule) : nat := match pm_status m with APPLIED => 0 | _ => 1 end.
Definition is_init (f : followup) : bool := match f with FInit _ _ _ => true | FApply _ => false end.
Definition is_wave (d : odb) (f : followup) : bool := match f with FApply i => applied d i | FInit _ _ _ => false end.
Definition some_of (P : followup -> bool) (pd : list followup) : nat := length (filter (fun f => P f = true) pd).

Definition inits (d : odb) (pd : list followup) : nat :=
  table_total uninit (modules d) + table_total init_weight (tasks d) + some_of is_init pd.
Definition surplus (d : odb) (i : Z) : nat :=
  table_total (applying i) (tasks d) + (if applied d i then 1 else 0) - 1.
Definition surpluses (d : odb) : nat := sum_list_with (surplus d) (elements (dom (modules d))).
Definition missing (d : odb) : nat := table_total unapplied (modules d).
Definition waves (d : odb) (pd : list followup) : nat := some_of (is_wave d) pd.
Definition applies (d : odb) (pd : list followup) : nat :=
  table_total apply_weight (tasks d) + some_of (fun f => negb (is_init f)) pd.

Definition less (a b : nat * (nat * (nat * (nat * nat)))) : Prop :=
  slexprod _ _ lt (slexprod _ _ lt (slexprod _ _ lt (slexprod _ _ lt lt))) a b.

Lemma less_wf : well_founded less.
Proof. repeat apply wf_slexprod; apply lt_wf. Qed.

Definition rank_of (w : dstate) : nat * (nat * (nat * (nat * nat))) :=
  (inits (ddb w) (follow w), (surpluses (ddb w), (missing (ddb w), (waves (ddb w) (follow w), applies (ddb w) (follow w))))).

(** Smaller in the first place where it differs. *)
Lemma less_intro a b c e f a' b' c' e' f' :
  (a' < a \/ a' <= a /\ (b' < b \/ b' <= b /\ (c' < c \/ c' <= c /\ (e' < e \/ e' <= e /\ f' < f))))%nat ->
  less (a', (b', (c', (e', f')))) (a, (b, (c, (e, f)))).
Proof.
  unfold less. intros [H|[Ha H]]; [by left|]. destruct (decide (a' = a)) as [->|]; [right|left; lia].
  destruct H as [H|[Hb H]]; [by left|]. destruct (decide (b' = b)) as [->|]; [right|left; lia].
  destruct H as [H|[Hc H]]; [by left|]. destruct (decide (c' = c)) as [->|]; [right|left; lia].
  destruct H as [H|[He H]]; [by left|]. destruct (decide (e' = e)) as [->|]; [right|left; lia]. lia.
Qed.

Lemma some_of_cons P x pd : some_of P (x :: pd) = ((if P x then 1 else 0) + some_of P pd)%nat.
Proof. unfold some_of. rewrite filter_cons. destruct (P x); [by rewrite decide_True|by rewrite decide_False]. Qed.

Lemma some_of_perm P pd pd' : pd ≡ₚ pd' -> some_of P pd = some_of P pd'.
Proof. intros H. unfold some_of. by rewrite H. Qed.

Lemma some_of_le P Q pd : (forall x, P x = true -> Q x = true) -> (some_of P pd <= some_of Q pd)%nat.
Proof.
  intros H. induction pd as [|x pd IH]; [done|]. rewrite !some_of_cons. specialize (H x).
  destruct (P x), (Q x); lia.
Qed.

Lemma sum_list_mono {A} (f g : A -> nat) l : (forall x, x ∈ l -> (f x <= g x)%nat) ->
  (sum_list_with f l <= sum_list_with g l)%nat.
Proof.
  induction l as [|x l IH]; intros H; cbn; [lia|]. pose proof (H x ltac:(left)).
  specialize (IH (fun y Hy => H y (proj2 (elem_of_cons l y x) (or_intror Hy)))). lia.
Qed.

Lemma sum_list_less {A} (f g : A -> nat) l y : y ∈ l -> (f y < g y)%nat -> (forall x, x ∈ l -> (f x <= g x)%nat) ->
  (sum_list_with f l < sum_list_with g l)%nat.
Proof.
  induction l as [|x l IH]; intros Hy Hlt H; [by apply elem_of_nil in Hy|]. cbn.
  assert (Hl : forall z, z ∈ l -> (f z <= g z)%nat) by (intros z Hz; apply H; by right).
  apply elem_of_cons in Hy as [->|Hy].
  - pose proof (sum_list_mono f g l Hl). lia.
  - pose proof (H x ltac:(left)). specialize (IH Hy Hlt Hl). lia.
Qed.

Lemma weight_active r : (init_weight r + apply_weight r = 0)%nat <->
  active_task r = false \/ (t_type r <> Tinit /\ t_type r <> Tapply).
Proof. clear celery vars_changed p. unfold init_weight, apply_weight, active_task. destruct (t_type r), (t_status r); naive_solver lia. Qed.

(** A task that ends, with its module. *)
Section closing.
Context (d : odb) (t i : Z) (r : task) (m : pmodule) (f : task -> task) (g : pmodule -> pmodule).
Hypothesis TASK : tasks d !! t = Some r.
Hypothesis OF : t_module r = Some i.
Hypothesis ROW : modules d !! i = Some m.
Hypothesis ENDS : forall r, t_module (f r) = t_module r /\ active_task (f r) = false.
Hypothesis NOT_UNINIT : pm_status (g m) <> NOT_INITIALIZED.
#[local] Abbreviation d' := (update_module i g (update_task t f d)).

Lemma close_ended : init_weight (f r) = 0%nat /\ apply_weight (f r) = 0%nat /\ forall j, applying j (f r) = 0%nat.
Proof using ENDS.
  destruct (ENDS r) as [_ H]. pose proof (proj2 (weight_active (f r)) (or_introl H)). split; [lia|]. split; [lia|].
  intros j. unfold applying. by rewrite H, andb_false_r.
Qed.

Lemma close_inits pd : (inits d' pd + init_weight r <= inits d pd)%nat.
Proof using TASK ROW ENDS NOT_UNINIT.
  unfold inits. cbn. pose proof (table_total_alter uninit (modules d) i m g ROW) as H1.
  pose proof (table_total_alter init_weight (tasks d) t r f TASK) as H2.
  destruct close_ended as (H3 & _). assert (uninit (g m) = 0%nat) by (unfold uninit; destruct (pm_status (g m)); done).
  lia.
Qed.

Lemma close_applies pd : (applies d' pd + apply_weight r = applies d pd)%nat.
Proof using TASK ENDS.
  unfold applies. cbn. pose proof (table_total_alter apply_weight (tasks d) t r f TASK) as H2.
  destruct close_ended as (_ & H3 & _). lia.
Qed.

Lemma close_applying j : (table_total (applying j) (tasks d') + applying j r = table_total (applying j) (tasks d))%nat.
Proof using TASK ENDS.
  cbn. pose proof (table_total_alter (applying j) (tasks d) t r f TASK) as H.
  destruct close_ended as (_ & _ & H3). rewrite H3 in H. lia.
Qed.

Lemma close_applied j : applied d' j = if decide (j = i) then bool_decide (pm_status (g m) = APPLIED) else applied d j.
Proof using ROW.
  unfold applied. cbn. case_decide as Hj; [subst j; by rewrite lookup_alter_eq, ROW|by rewrite lookup_alter_ne].
Qed.

Lemma close_surplus_other j : j <> i -> surplus d' j = surplus d j.
Proof using TASK OF ENDS ROW.
  intros Hj. unfold surplus. rewrite close_applied, decide_False by done.
  pose proof (close_applying j) as H. assert (applying j r = 0%nat).
  { unfold applying, of_module. by rewrite OF, bool_decide_false by congruence. }
  lia.
Qed.

Lemma close_dom : dom (modules d') = dom (modules d).
Proof using Type. cbn. apply dom_alter_L. Qed.

Lemma close_surpluses : (surplus d' i <= surplus d i)%nat -> (surpluses d' <= surpluses d)%nat.
Proof using TASK OF ENDS ROW.
  intros H. unfold surpluses. rewrite close_dom. apply sum_list_mono. intros j _.
  destruct (decide (j = i)) as [->|Hj]; [done|]. by rewrite close_surplus_other.
Qed.

Lemma close_surpluses_lt : (surplus d' i < surplus d i)%nat -> (surpluses d' < surpluses d)%nat.
Proof using TASK OF ENDS ROW.
  intros H. unfold surpluses. rewrite close_dom. eapply (sum_list_less _ _ _ i); [|exact H|].
  - apply elem_of_elements, elem_of_dom. by eexists.
  - intros j _. destruct (decide (j = i)) as [->|Hj]; [lia|]. by rewrite close_surplus_other.
Qed.

Lemma close_missing : (missing d' + unapplied m = missing d + unapplied (g m))%nat.
Proof using ROW. unfold missing. cbn. by apply table_total_alter. Qed.

Lemma close_waves pd : pm_status (g m) <> APPLIED -> (waves d' pd <= waves d pd)%nat.
Proof using ROW.
  intros Hg. unfold waves. apply some_of_le. intros [?|k]; cbn [is_wave]; [done|].
  rewrite close_applied. case_decide; [|done]. by rewrite bool_decide_false.
Qed.
End closing.

(** An apply that ends. *)
Lemma close_apply_less d pd pd' t i r m f g :
  tasks d !! t = Some r -> t_module r = Some i -> modules d !! i = Some m -> active_task r = true -> t_type r = Tapply ->
  (forall r, t_module (f r) = t_module r /\ active_task (f r) = false) ->
  pm_status (g m) = APPLIED \/ pm_status (g m) = APPLY_FAILED ->
  (pd' = pd \/ pd' = FApply i :: pd) ->
  less (rank_of {| ddb := update_module i g (update_task t f d); follow := pd' |}) (rank_of {| ddb := d; follow := pd |}).
Proof using Type.
  intros Ht Hti Hm Ha Hty Hf Hg Hpd. apply less_intro. cbn [ddb follow].
  set (d' := update_module i g (update_task t f d)).
  assert (Hni : pm_status (g m) <> NOT_INITIALIZED) by (destruct Hg as [Hg|Hg]; congruence).
  assert (Hi : (inits d' pd' <= inits d pd)%nat).
  { pose proof (close_inits d t i r m f g Ht Hm Hf Hni pd) as H.
    replace (inits d' pd') with (inits d' pd); [unfold d'; lia|]. unfold inits.
    destruct Hpd as [-> | ->]; [done|]. by rewrite some_of_cons. }
  right. split; [done|].
  assert (Hx : (table_total (applying i) (tasks d') + 1 = table_total (applying i) (tasks d))%nat).
  { pose proof (close_applying d t i r f g Ht Hf i) as H. unfold applying at 2 in H.
    rewrite Ha, Hty in H. unfold of_module in H. rewrite Hti, !bool_decide_true in H by done. exact H. }
  assert (Hap : applied d' i = bool_decide (pm_status (g m) = APPLIED)).
  { unfold d'. by rewrite (close_applied d t i m f g Hm), decide_True. }
  assert (Hap0 : applied d i = bool_decide (pm_status m = APPLIED)) by (unfold applied; by rewrite Hm).
  pose proof (close_missing d t i m f g Hm) as Hmiss. fold d' in Hmiss.
  assert (Hs : surplus d' i = (table_total (applying i) (tasks d') + (if applied d' i then 1 else 0) - 1)%nat) by done.
  assert (Hs0 : surplus d i = (table_total (applying i) (tasks d) + (if applied d i then 1 else 0) - 1)%nat) by done.
  rewrite Hap in Hs. rewrite Hap0 in Hs0.
  destruct (decide (pm_status m = APPLIED)) as [Hma|Hma].
  - (* applied already *)
    left. apply (close_surpluses_lt d t i r m f g Ht Hti Hm Hf). fold d'. rewrite Hs, Hs0.
    rewrite (bool_decide_true (pm_status m = _)) by done. cbv iota. destruct (bool_decide _); lia.
  - right. split.
    { apply (close_surpluses d t i r m f g Ht Hti Hm Hf). fold d'. rewrite Hs, Hs0.
      rewrite (bool_decide_false (pm_status m = _)) by done. cbv iota. destruct (bool_decide _); lia. }
    assert (Hu : unapplied m = 1%nat) by (unfold unapplied; destruct (pm_status m); done).
    destruct Hg as [Hg|Hg].
    + left. unfold unapplied at 2 in Hmiss. rewrite Hg in Hmiss. lia.
    + right. split; [unfold unapplied at 2 in Hmiss; rewrite Hg in Hmiss; lia|]. right.
      pose proof (close_waves d t i m f g Hm pd) as Hw. fold d' in Hw.
      pose proof (close_applies d t i r f g Ht Hf pd) as Hapl. fold d' in Hapl.
      assert (Hwt : (2 <= apply_weight r)%nat).
      { unfold apply_weight. rewrite Hty. unfold active_task in Ha. destruct (t_status r); try done; lia. }
      assert (Hna : applied d' i = false) by (rewrite Hap; by rewrite bool_decide_false by congruence).
      destruct Hpd as [-> | ->].
      * split; [apply Hw; congruence|lia].
      * unfold waves, applies in *. rewrite !some_of_cons. cbn [is_wave is_init negb]. rewrite Hna.
        split; [apply Hw; congruence|lia].
Qed.

(** A task queued for a module without one: an init is one to come less, an
    apply changes nothing that comes before it. *)
Definition calmer (d d' : odb) : Prop := forall pd,
  (inits d' pd < inits d pd)%nat \/
  (inits d' pd <= inits d pd)%nat /\ (surpluses d' <= surpluses d)%nat /\ (missing d' <= missing d)%nat /\
  forall k, applied d' k = applied d k.

#[local] Instance calmer_preorder : PreOrder calmer.
Proof using Type.
  split; [intros d pd; right; by repeat split|]. intros d1 d2 d3 H1 H2 pd.
  destruct (H1 pd) as [L1|(I1 & S1 & M1 & A1)], (H2 pd) as [L2|(I2 & S2 & M2 & A2)]; [left; lia..|].
  right. do 3 (split; [lia|]). intros k. by rewrite A2.
Qed.

Lemma no_applying d i : in_flight d i = false -> table_total (applying i) (tasks d) = 0%nat.
Proof using Type.
  intros H. unfold table_total.
  assert (Hz : forall t r, (t, r) ∈ map_to_list (tasks d) -> applying i r = 0%nat).
  { intros t r Hr%elem_of_map_to_list. unfold applying. destruct (of_module i r && active_task r) eqn:E; [|done].
    exfalso. apply not_true_iff_false in H. destruct H. apply in_flight_spec. exists t, r.
    apply andb_true_iff in E as [E ?]. unfold of_module in E. by apply bool_decide_eq_true in E. }
  induction (map_to_list (tasks d)) as [|[t r] l IH]; cbn; [done|].
  rewrite (Hz t r ltac:(left)), IH; [done|]. intros t' r' H'. apply (Hz t' r'). by right.
Qed.

Lemma queue_calmer st i m h d pd : sound p d pd -> modules d !! i = Some m -> pm_status m <> APPLIED ->
  in_flight d i = false -> (st = T_QUEUED \/ st = T_PENDING) -> calmer d (queue_deploy celery st i m h d).
Proof using Type.
  intros Hs Hm Hna Hfl Hst pd0.
  assert (Hq : forall ty ms, ms <> APPLIED -> ms <> NOT_INITIALIZED -> exists r,
    (t_type r = ty /\ t_status r = st /\ t_module r = Some i /\
    inits (queue_task celery ty st ms i h d) pd0 + uninit m = inits d pd0 + init_weight r /\
    missing (queue_task celery ty st ms i h d) = missing d /\
    (forall k, applied (queue_task celery ty st ms i h d) k = applied d k) /\
    dom (modules (queue_task celery ty st ms i h d)) = dom (modules d) /\
    forall j, table_total (applying j) (tasks (queue_task celery ty st ms i h d)) =
      (applying j r + table_total (applying j) (tasks d)))%nat).
  { intros ty ms H1 H2. destruct (queue_task_eq celery ty st ms i h d m Hm) as (r & -> & Hty & Hrs & _ & Hri & _).
    exists r. do 3 (split; [done|]). pose proof (fresh_next p d pd Hs) as Hf.
    unfold inits, missing. cbn. rewrite table_total_insert by done.
    pose proof (table_total_alter uninit (modules d) i m (set_status ms) Hm) as Hu.
    pose proof (table_total_alter unapplied (modules d) i m (set_status ms) Hm) as Ha.
    assert (E1 : uninit (set_status ms m) = 0%nat) by (unfold uninit; cbn; destruct ms; done).
    assert (E2 : unapplied (set_status ms m) = 1%nat) by (unfold unapplied; cbn; destruct ms; done).
    assert (E3 : unapplied m = 1%nat) by (unfold unapplied; destruct (pm_status m); done).
    split; [lia|]. split; [lia|]. split; [|split; [apply dom_alter_L|intros j; by rewrite table_total_insert]].
    intros k. unfold applied. cbn. destruct (decide (k = i)) as [->|Hk]; [|by rewrite lookup_alter_ne].
    rewrite lookup_alter_eq, Hm. cbn. by rewrite !bool_decide_false. }
  unfold queue_deploy. destruct (decide (pm_status m = NOT_INITIALIZED)) as [Hni|Hni].
  - rewrite Hni. destruct (Hq Tinit INITIALIZING ltac:(done) ltac:(done)) as (r & Hty & Hrs & _ & Hin & _).
    left. unfold uninit, init_weight in Hin. rewrite Hni, Hty, Hrs in Hin. destruct Hst as [-> | ->]; lia.
  - assert (E : forall A (a b : A), match pm_status m with NOT_INITIALIZED => a | _ => b end = b)
      by (intros A a b; destruct (pm_status m); done).
    rewrite E. destruct (Hq Tapply APPLYING ltac:(done) ltac:(done)) as (r & Hty & Hrs & Hri & Hin & Hmi & Hap & Hdom & Hx).
    right. unfold init_weight in Hin. rewrite Hty in Hin. unfold uninit in Hin. rewrite E in Hin.
    split; [lia|]. split; [|split; [lia|done]].
    unfold surpluses. rewrite Hdom. apply sum_list_mono. intros j _. unfold surplus. rewrite Hx, Hap.
    destruct (decide (j = i)) as [->|Hj].
    + rewrite (no_applying d i Hfl). unfold applied. rewrite Hm, bool_decide_false by done.
      assert (applying i r <= 1)%nat by (unfold applying; destruct (_ && _); lia). lia.
    + assert (applying j r = 0%nat) by (unfold applying, of_module; rewrite Hri, bool_decide_false by congruence; done). lia.
Qed.

Lemma auto_apply_inits i d pd0 pd m : sound p d pd -> modules d !! i = Some m ->
  (inits (queue_task celery Tapply T_QUEUED APPLYING i None d) pd0 <= inits d pd0)%nat.
Proof using Type.
  intros Hs Hm. destruct (queue_task_eq celery Tapply T_QUEUED APPLYING i None d m Hm) as (r & -> & Hty & _).
  unfold inits. cbn. rewrite table_total_insert by by apply (fresh_next p d pd).
  pose proof (table_total_alter uninit (modules d) i m (set_status APPLYING) Hm) as Hu.
  assert (E1 : uninit (set_status APPLYING m) = 0%nat) by done.
  assert (E2 : init_weight r = 0%nat) by (unfold init_weight; by rewrite Hty). lia.
Qed.

(** A message that is taken up. *)
Lemma start_less d pd t r : tasks d !! t = Some r -> waiting r = true -> (t_type r = Tinit \/ t_type r = Tapply) ->
  less (rank_of {| ddb := start_task t d; follow := pd |}) (rank_of {| ddb := d; follow := pd |}).
Proof using Type.
  intros Ht Hw Hty. apply less_intro. cbn [ddb follow].
  set (s := fun r => set_task_status T_IN_PROGRESS (t_error r) r).
  assert (Hst : t_status r = T_QUEUED \/ t_status r = T_PENDING).
  { unfold waiting in Hw. apply andb_true_iff in Hw as [Hw _]. apply bool_decide_eq_true in Hw.
    apply elem_of_cons in Hw as [Hw|Hw%list_elem_of_singleton]; auto. }
  pose proof (table_total_alter init_weight (tasks d) t r s Ht) as Hi.
  pose proof (table_total_alter apply_weight (tasks d) t r s Ht) as Ha.
  assert (Hsur : (surpluses (start_task t d) <= surpluses d)%nat).
  { apply sum_list_mono. intros j _. unfold surplus. change (applied (start_task t d) j) with (applied d j).
    change (tasks (start_task t d)) with (alter s t (tasks d)).
    pose proof (table_total_alter (applying j) (tasks d) t r s Ht) as Hx.
    assert (E : applying j (s r) = applying j r) by (unfold applying, of_module, active_task; cbn; by destruct Hst as [-> | ->]).
    lia. }
  unfold inits, applies. cbn [start_task update_task with_tasks modules tasks]. fold s.
  destruct Hty as [Hty|Hty].
  - left. unfold init_weight at 2 4 in Hi. cbn in Hi. rewrite Hty in Hi. destruct Hst as [Hst|Hst]; rewrite Hst in Hi; lia.
  - right. unfold init_weight at 2 4 in Hi. cbn in Hi. rewrite Hty in Hi. split; [lia|]. right. split.
    + exact Hsur.
    + right. split; [done|]. right. split; [done|].
      unfold apply_weight at 2 4 in Ha. cbn in Ha. rewrite Hty in Ha. destruct Hst as [Hst|Hst]; rewrite Hst in Ha; lia.
Qed.

Lemma update_task_twice t f f' d : update_task t f (update_task t f' d) = update_task t (fun r => f (f' r)) d.
Proof using Type. unfold update_task, with_tasks. cbn. f_equal. apply alter_alter_eq. Qed.

Section quiet.
(** No module's variables have changed since its last plan. *)
Hypothesis UNCHANGED : forall i, vars_changed i = false.

Lemma wave_calmer h d pd : sound p d pd -> calmer d (wave h d).1.
Proof using UNCHANGED.
  intros Hs. unfold _dispatch_first_wave.
  assert (Hl : forall i m, i ∈ (by_order (project_modules p d)).*1 -> modules d !! i = Some m -> pm_project m = p).
  { intros i m Hi Hm. unfold by_order in Hi. apply list_elem_of_fmap in Hi as ([j m'] & -> & Hj).
    rewrite merge_sort_Permutation in Hj. apply elem_of_project_modules, proj_Some in Hj as [Hj Hp]. cbn in Hm. congruence. }
  generalize (@None string) as first. revert Hl. generalize (by_order (project_modules p d)).*1 as l. intros l.
  revert d Hs. induction l as [|i l IH]; intros d Hs Hl first; [reflexivity|]. cbn [foldl].
  set (st := first_wave_deploy celery vars_changed h (d, first) i).
  assert (Hone : sound p st.1 pd /\ calmer d st.1 /\
    forall j m, modules st.1 !! j = Some m -> exists m0, modules d !! j = Some m0 /\ pm_project m = pm_project m0).
  { split; [|split; [|intros j m; apply wave_step_project]].
    - destruct (wave_step celery vars_changed p h i (elements (dom (modules d))) d first pd Hs) as [H _]; [|..|exact H].
      + intros m. apply Hl. left.
      + intros j mj (Hj & _) Hn. destruct Hn. right. apply elem_of_elements, elem_of_dom. by eexists.
    - unfold st, first_wave_deploy. destruct (modules d !! i) as [m|] eqn:Hm; [|reflexivity].
      destruct (enabled m); [cbn [negb]|reflexivity]. rewrite UNCHANGED. cbn [negb]. rewrite andb_true_r.
      case_bool_decide as Ha; [reflexivity|]. destruct (in_flight d i) eqn:Hfl; [reflexivity|].
      destruct (negb _); [reflexivity|]. cbn [fst]. eapply queue_calmer; eauto. }
  destruct Hone as (Hs1 & Hc1 & Hp1). destruct st as [d1 f1]. cbn [fst] in *. etrans; [exact Hc1|].
  apply IH; [done|]. intros j m Hj Hm. destruct (Hp1 j m Hm) as (m0 & Hm0 & ->). apply (Hl j m0); [by right|done].
Qed.

Lemma dstep_less w w' : dstep w w' -> deploy_inv p w -> less (rank_of w') (rank_of w).
Proof using UNCHANGED.
  intros H Hi. pose proof (proj1 Hi) as Hs.
  destruct H as [t r i m d pd Ht Hti Hm Hp Hw Hty|t r i m e d pd Ht Hti Hm Hp Hw Hty Hce
    |t r i m failure d pd Ht Hti Hm Hp Hw Hty|t r i m failure d pd Ht Hti Hm Hp Hw Hty|t i ok d pd pd' Hpd|i d pd pd' Hpd];
    cbn [ddb follow] in *.
  - apply (start_less d pd t r Ht Hw). tauto.
  - unfold refuse_apply.
    rewrite (mark_failed_eq celery vars_changed t _ i APPLY_FAILED (start_task t d) m Hm)
      by by apply (s_stackless _ _ _ Hs i).
    unfold start_task. rewrite update_task_twice.
    eapply close_apply_less; [exact Ht|exact Hti|exact Hm|by apply waiting_active|exact Hty|done|by right|by left].
  - assert (E : exists f g, commit_init t i failure d = update_module i g (update_task t f d) /\
      (forall r, t_module (f r) = t_module r /\ active_task (f r) = false) /\ pm_status (g m) <> NOT_INITIALIZED)
      by (destruct failure as [e|]; do 2 eexists; (split; [reflexivity|done])).
    destruct E as (f & g & -> & Hf & Hg). apply less_intro. left. cbn [ddb follow].
    pose proof (close_inits d t i r m f g Ht Hm Hf Hg pd) as Hlt.
    assert (Hwt : init_weight r = 2%nat) by (unfold init_weight; by rewrite Hty, Hw).
    unfold inits in *. rewrite some_of_cons. cbn [is_init]. lia.
  - assert (E : exists f g, commit_apply t i failure d = update_module i g (update_task t f d) /\
      (forall r, t_module (f r) = t_module r /\ active_task (f r) = false) /\
      (pm_status (g m) = APPLIED \/ pm_status (g m) = APPLY_FAILED))
      by (destruct failure as [e|]; do 2 eexists; (split; [reflexivity|auto])).
    destruct E as (f & g & -> & Hf & Hg).
    eapply close_apply_less; [exact Ht|exact Hti|exact Hm| |exact Hty|exact Hf|exact Hg|by right].
    unfold active_task. by rewrite Hw.
  - apply less_intro. left. cbn [ddb follow].
    assert (Hpd1 : inits d pd = S (inits d pd')).
    { unfold inits. rewrite (some_of_perm is_init _ _ Hpd), some_of_cons. cbn [is_init]. lia. }
    destruct (s_init _ _ _ Hs t i ok) as (m & Hm & Hp & He); [rewrite Hpd; left|].
    unfold after_init. rewrite Hm, (s_stackless _ _ _ Hs i m Hm Hp), Hm.
    destruct (_ && _); [|lia]. unfold auto_apply. rewrite He.
    pose proof (auto_apply_inits i d pd' pd m Hs Hm). lia.
  - apply less_intro. cbn [ddb follow].
    destruct (s_apply _ _ _ Hs i) as (m & Hm & Hp); [rewrite Hpd; left|].
    assert (Hpd1 : inits d pd = inits d pd') by (unfold inits; by rewrite (some_of_perm is_init _ _ Hpd), some_of_cons).
    unfold after_apply, _update_stack_status_if_needed. rewrite Hm, (s_stackless _ _ _ Hs i m Hm Hp).
    unfold waves, applies. rewrite !(some_of_perm _ _ _ Hpd), !some_of_cons. cbn [is_wave is_init negb].
    case_bool_decide as Ha.
    + unfold _trigger_next_project_module. rewrite Hp. rewrite Hpd1.
      rewrite (proj2 (applied_spec d i)) by eauto.
      destruct (wave_calmer (handle_of i d) d pd Hs pd') as [Hlt|(Hin & Hsu & Hmi & Hap)]; [by left|].
      right. split; [done|]. right. split; [done|]. right. split; [done|]. left.
      assert (Hle : (some_of (is_wave (wave (handle_of i d) d).1) pd' <= some_of (is_wave d) pd')%nat).
      { apply some_of_le. intros [?|k]; cbn [is_wave]; [done|]. by rewrite Hap. }
      lia.
    + right. split; [lia|]. right. split; [done|]. right. split; [done|]. right. split; [lia|]. lia.
Qed.

Lemma runs_end w : deploy_inv p w -> sn dstep w.
Proof using UNCHANGED.
  remember (rank_of w) as n eqn:Hn. revert w Hn. induction (less_wf n) as [n _ IH]. intros w -> Hi.
  constructor. intros w' Hw. apply (IH (rank_of w')); [by apply dstep_less|done|by eapply dstep_inv].
Qed.
End quiet.
End ends.

(** ** What a deploy of a project promises *)

#[local] Unset Default Proof Using.

Section promises.
Context {SO : SetOrder Z} (celery : Z -> string) (vars_changed : Z -> bool) (p : Z) (h : string) (d : odb).
Hypothesis DEPLOYABLE : deployable p d.

(** C4. How a deploy ends, in a project without stacks whose modules are idle and
    whose applied modules have outputs.  Where no step is left every module is
    applied, or it depends, directly or not, on a module that is the reason: one whose init or
    apply failed, a disabled one, or one that is not of the project; the module
    itself may be that one.  So it is whichever variables have changed, and
    whatever other waves come between an init and its apply. *)
Theorem deploy_outcome (rank : Z -> nat) w i :
  (forall i j, depends d i j -> (rank j < rank i)%nat) ->
  rtc (dstep celery vars_changed p) (deploying celery vars_changed p h d) w ->
  (forall w', ~ dstep celery vars_changed p w w') ->
  applied (ddb w) i = true \/ exists x, rtc (depends (ddb w)) i x /\ blocker p (ddb w) x.
Proof.
  intros Hr Hw Hstuck. pose proof (deploying_inv celery vars_changed p h d DEPLOYABLE) as H0.
  destruct (reach_inv celery vars_changed p _ w Hw H0) as [Hi Hfr]. destruct w as [d' pd]. cbn in *.
  destruct (stuck_idle celery vars_changed p d' pd Hi Hstuck) as [-> Hidle].
  apply (idle_outcome p rank d' Hi); [|done]. intros x y (m & Hm & Hy). apply Hr.
  destruct (frozen_back _ _ x m (transitivity (wave_frozen celery vars_changed p (Some h) d) Hfr) Hm) as (m0 & Hm0 & _ & _ & Hd & _).
  exists m0. by rewrite <- Hd.
Qed.

(** C33. Every deploy of such a project ends when no variables have changed since
    the plans: no run of the workers goes on for ever, although a module that
    failed is tried again whenever another one has been applied. *)
Theorem deploy_terminates w :
  (forall i, vars_changed i = false) ->
  rtc (dstep celery vars_changed p) (deploying celery vars_changed p h d) w -> sn (dstep celery vars_changed p) w.
Proof.
  intros Hv Hw. apply runs_end; [done|].
  by apply (reach_inv celery vars_changed p _ w Hw), deploying_inv.
Qed.
End promises.

(** ** A route that stops half-way *)

(** Destroying a project whose modules are all disabled.  [destroy_all_modules]
    sets the project's stacks to DESTROYING, commits, and then fails on a plan
    without ["total_modules"]: nothing is queued and the stacks stay so. *)
Theorem destroy_all_strands {SO : SetOrder Z} celery catalog p h force d s st :
  in_flight_tasks p d = [] ->
  (forall i m, modules d !! i = Some m -> pm_project m = p -> enabled m = false) ->
  stacks d !! s = Some st -> s_project st = p -> s_status st ∈ [S_DEPLOYED; S_FAILED; S_PENDING] ->
  let '(d', answer) := destroy_all_modules celery catalog true p h force d in
  answer = Answered KeyErrorTotalModules /\ modules d' = modules d /\ tasks d' = tasks d /\
  exists st', stacks d' !! s = Some st' /\ s_status st' = S_DESTROYING.
Proof.
  intros Hfl Hdis Hs Hp Hst. unfold destroy_all_modules. rewrite Hfl. cbn [negb].
  assert (E : rows_of (enabled_of p) (stacks_to_destroying p d) = ∅).
  { apply map_eq. intros i. rewrite lookup_empty. unfold rows_of. apply map_lookup_filter_None. right. cbn.
    intros m Hm. unfold enabled_of, of_project. intros H. apply andb_true_iff in H as [H1 H2].
    apply bool_decide_eq_true in H1. rewrite (Hdis i m Hm H1) in H2. done. }
  unfold destroy_project_parallel, with_plan, get_execution_plan, build_layers. cbn [negb].
  rewrite E, decide_True by done. cbn. do 3 (split; [done|]).
  rewrite lookup_fmap, Hs. cbn. rewrite !bool_decide_true by done. cbn. eauto.
Qed.

(** ** A project of two modules *)

Module Example.
Import DeployWave.Example.
#[local] Existing Instance some_order.

Lemma d0_row (P : Z -> pmodule -> Prop) :
  P 1 (row [] INITIALIZED false) -> P 2 (row [1] INITIALIZED false) -> forall i m, modules d0 !! i = Some m -> P i m.
Proof.
  intros H1 H2 i m Hm. cbn in Hm. apply lookup_insert_Some in Hm as [[<- <-]|[_ Hm]]; [done|].
  by apply lookup_singleton_Some in Hm as [<- <-].
Qed.

Lemma d0_deployable : deployable 1 d0.
Proof.
  constructor.
  - intros t r Ht. cbn in Ht. by rewrite lookup_empty in Ht.
  - by apply (d0_row (fun _ m => pm_project m = 1 -> pm_stack m = None)).
  - by apply (d0_row (fun _ m => pm_status m = APPLIED -> has_outputs m = true)).
  - intros t r i m Ht. cbn in Ht. by rewrite lookup_empty in Ht.
Qed.

Lemma chain_ranked i j : depends d0 i j -> (Z.to_nat j < Z.to_nat i)%nat.
Proof.
  intros (m & Hm & Hj). revert Hj. revert i m Hm.
  apply (d0_row (fun i m => j ∈ pm_dependencies m -> (Z.to_nat j < Z.to_nat i)%nat)); cbn.
  - intros Hj. by apply elem_of_nil in Hj.
  - intros ->%list_elem_of_singleton. lia.
Qed.

Definition w0 : dstate := deploying message unchanged 1 "run" d0.
Definition w1 : dstate := {| ddb := start_task 1 (ddb w0); follow := [] |}.
Definition w2 : dstate := {| ddb := commit_apply 1 1 (Some "no route") (ddb w1); follow := [FApply 1] |}.
Definition w3 : dstate := {| ddb := after_apply message unchanged 1 (ddb w2); follow := [] |}.

Lemma runs_to_w3 : rtc (dstep message unchanged 1) w0 w3.
Proof.
  eapply rtc_l.
  { eapply (d_start message unchanged 1 1 _ 1 _ (ddb w0) []); try (vm_compute; reflexivity).
    right. split; vm_compute; reflexivity. }
  eapply rtc_l.
  { eapply (d_commit_apply message unchanged 1 1 _ 1 _ (Some "no route") (ddb w1) []); vm_compute; reflexivity. }
  apply rtc_once. by apply (d_after_apply message unchanged 1 1 (ddb w2) [FApply 1] []).
Qed.

Lemma quiet_stuck d w' : map_Forall (fun _ r => active_task r = false) (tasks d) ->
  ~ dstep message unchanged 1 {| ddb := d; follow := [] |} w'.
Proof.
  intros Hq H.
  assert (Hw : forall t r, tasks d !! t = Some r -> waiting r = false /\ t_status r <> T_IN_PROGRESS).
  { intros t r Ht. specialize (Hq t r Ht). cbn in Hq. split; [|unfold active_task in Hq; by destruct (t_status r)].
    apply not_true_iff_false. intros Hw%waiting_active. congruence. }
  inversion H as [t r i m d' pd Ht _ _ _ Hx|t r i m e d' pd Ht _ _ _ Hx|t r i m f d' pd Ht _ _ _ Hx
    |t r i m f d' pd Ht _ _ _ Hx|t i ok d' pd pd' Hp|i d' pd pd' Hp]; subst;
    [destruct (Hw t r Ht); congruence..| |]; by apply Permutation_nil_cons in Hp.
Qed.

(** The apply of module 1 fails: module 2 is left. *)
Lemma deploy_outcome_witness :
  applied (ddb w3) 2 = true \/ exists x, rtc (depends (ddb w3)) 2 x /\ blocker 1 (ddb w3) x.
Proof.
  refine (deploy_outcome message unchanged 1 "run" d0 d0_deployable Z.to_nat w3 2 chain_ranked runs_to_w3 _).
  intros w'. apply quiet_stuck. refine (bool_decide_unpack _ _). vm_compute. exact I.
Defined.

Lemma deploy_terminates_witness : sn (dstep message unchanged 1) w0.
Proof. apply (deploy_terminates message unchanged 1 "run" d0 d0_deployable w0 (fun _ => eq_refl)). apply rtc_refl. Defined.

(** A deployed stack whose one module has been disabled. *)
Definition off : pmodule :=
  {| pm_project := 1; pm_stack := Some 5; pm_dependencies := []; pm_status := APPLIED; deployment_error := None;
     library_module := None; enabled := false; deployment_order := 0; has_outputs := true |}.
Definition standing : stack :=
  {| s_project := 1; s_status := S_DEPLOYED; s_error := None; current_step := 1; total_steps := Some 1 |}.
Definition d2 : odb := {| modules := {[1 := off]}; tasks := ∅; stacks := {[5 := standing]}; next_task := 1 |}.

Lemma destroy_all_strands_witness :
  let '(d', answer) := destroy_all_modules message (fun _ => None) true 1 "run" false d2 in
  answer = Answered KeyErrorTotalModules /\ modules d' = modules d2 /\ tasks d' = tasks d2 /\
  exists st', stacks d' !! 5 = Some st' /\ s_status st' = S_DESTROYING.
Proof.
  refine (destroy_all_strands message (fun _ => None) 1 "run" false d2 5 standing _ _ _ eq_refl _);
    [vm_compute; reflexivity| |vm_compute; reflexivity|].
  - intros i m Hm _. cbn in Hm. by apply lookup_singleton_Some in Hm as [_ <-].
  - left.
Defined.
End Example.
