(* ===== verification/RunProgress.v ===== *)
(** * The progress of a run (routes/project_orchestration.py [get_run_progress])

    What the interface is told of a deploy or a destroy: everything is read from
    the tasks that carry the run's handle and from ProjectGraph.v's layers.
    Names and times are left out; the percentage is of the counts given here. *)

From S2P Require Import Prelude Texts ModuleState DepGraph Orchestration ProjectGraph ProjectPlan DestroyChain.
From S2P Require Import DeployChain DeployRun DeployWave.

#[local] Open Scope string_scope.
#[local] Open Scope list_scope.
#[local] Open Scope Z_scope.
#[local] Set Default Proof Using "Type".

Inductive run_status := R_failed | R_completed | R_in_progress.
Inductive layer_status := L_completed | L_failed | L_in_progress | L_pending.

Record layer_result := { lr_module : Z; lr_success : bool; lr_task : option Z; lr_error : option string }.

Record layer_progress := {
  lp_index : nat;
  lp_modules : list Z;
  lp_status : layer_status;
  lp_results : list (Z * layer_result)
}.

Record run_progress := {
  rp_action : option action;
  rp_status : run_status;
  rp_total_layers : nat;
  rp_completed_layers : nat;
  rp_current_layer : nat;
  rp_layers : list layer_progress;
  rp_successful : list Z;
  rp_failed : list Z;
  rp_error : option string
}.

Definition terminal_success (t : task) : bool := bool_decide (t_status t = T_COMPLETED).
Definition terminal_fail (t : task) : bool := bool_decide (t_status t ∈ [T_FAILED; T_CANCELLED]).

Section progress.
Context {SO : SetOrder Z}.

Definition run_tasks (p : Z) (handle : string) (d : odb) : list (Z * task) :=
  select (fun _ t => bool_decide (t_project t = p) && bool_decide (run_handle t = Some handle)) (tasks d).

(** The newest task of each module. *)
Definition keep_newest (by_module : list (Z * (Z * task))) (it : Z * task) : list (Z * (Z * task)) :=
  match t_module it.2 with
  | None => by_module
  | Some i =>
      match dget i by_module with
      | Some (prev, _) => if prev <? it.1 then dset i it by_module else by_module
      | None => dset i it by_module
      end
  end.

Definition tasks_by_module (ts : list (Z * task)) : list (Z * (Z * task)) := foldl keep_newest [] ts.

Fixpoint action_of (ts : list (Z * task)) : option action :=
  match ts with
  | [] => None
  | (_, t) :: ts =>
      match t_type t with
      | Tdestroy => Some Destroy
      | Tapply | Tinit => Some Deploy
      | Tplan => action_of ts
      end
  end.

Definition ordered_layers (p : Z) (a : option action) (by_module : list (Z * (Z * task))) (d : odb) : list (list Z) :=
  let raw_layers := match build_layers p d with Ok l => l | Err _ => [] end in
  let raw_layers := match a with Some Destroy => reverse raw_layers | _ => raw_layers end in
  let layers := filter (fun l => l <> []) ((fun l => filter (fun i => i ∈ by_module.*1) l) <$> raw_layers) in
  let stragglers := filter (fun i => (i ∉ mjoin layers) /\ is_Some (modules d !! i)) by_module.*1 in
  match stragglers with [] => layers | _ => stragglers :: layers end.

Definition status_text (t : task) : string :=
  match t_status t with T_CANCELLED => "cancelled" | _ => "failed" end.

(** One module of a layer. *)
Definition layer_module (by_module : list (Z * (Z * task)))
    (st : list (Z * layer_result) * bool * bool * bool) (i : Z) : list (Z * layer_result) * bool * bool * bool :=
  let '(results, layer_failed, layer_all_terminal, layer_any_live) := st in
  let result ok t e := dset i {| lr_module := i; lr_success := ok; lr_task := t; lr_error := e |} results in
  match dget i by_module with
  | None => (result false None None, layer_failed, false, layer_any_live)
  | Some (id, t) =>
      if terminal_success t then (result true (Some id) None, layer_failed, layer_all_terminal, layer_any_live)
      else if terminal_fail t then
        (result false (Some id) (Some (if truthy_str (t_error t) then default "" (t_error t) else status_text t)),
         true, true, layer_any_live)
      else (result false (Some id) None, layer_failed, false, true)
  end.

Definition layer_of_run (by_module : list (Z * (Z * task))) (idx : nat) (layer : list Z) : layer_progress :=
  let '(results, layer_failed, layer_all_terminal, layer_any_live) :=
    foldl (layer_module by_module) ([], false, true, false) layer in
  {| lp_index := idx; lp_modules := layer;
     lp_status := if layer_all_terminal && negb layer_failed then L_completed
                  else if layer_all_terminal then L_failed
                  else if layer_any_live then L_in_progress else L_pending;
     lp_results := results |}.

Definition layer_completed (l : layer_progress) : bool := match lp_status l with L_completed => true | _ => false end.

Definition overall_status (ts : list task) : run_status :=
  if existsb terminal_fail ts then R_failed
  else if forallb (fun t => terminal_success t || terminal_fail t) ts then R_completed
  else R_in_progress.

Definition failed_message (a : option action) (n : nat) : string :=
  match a with
  | Some Destroy => "Destroy stopped: " +:+ pretty n +:+ " module(s) failed"
  | _ => "Deploy failed: " +:+ pretty n +:+ " module(s) failed"
  end.

(** [None]: 404, no task carries the handle. *)
Definition get_run_progress (p : Z) (handle : string) (d : odb) : option run_progress :=
  match run_tasks p handle d with
  | [] => None
  | ts =>
      let by_module := tasks_by_module ts in
      let a := action_of ts in
      let layers := imap (layer_of_run by_module) (ordered_layers p a by_module d) in
      let having (P : task -> bool) := (filter (fun itt => P itt.2.2 = true) by_module).*1 in
      let failed := having (fun t => negb (terminal_success t) && terminal_fail t) in
      let status := overall_status (snd <$> by_module.*2) in
      Some {| rp_action := a; rp_status := status; rp_total_layers := length layers;
              rp_completed_layers := length (filter (fun l => layer_completed l = true) layers);
              rp_current_layer := match list_find (fun l => layer_completed l = false) layers with
                                  | Some (_, l) => lp_index l
                                  | None => pred (length layers)
                                  end;
              rp_layers := layers; rp_successful := having terminal_success; rp_failed := failed;
              rp_error := match status with R_failed => Some (failed_message a (length failed)) | _ => None end |}
  end.
End progress.

(** ** The newest task of each module *)

Definition newest_of (ts : list (Z * task)) (i : Z) (it : Z * task) : Prop :=
  it ∈ ts /\ t_module it.2 = Some i /\ forall it', it' ∈ ts -> t_module it'.2 = Some i -> it'.1 <= it.1.

Definition best (ts : list (Z * task)) (i : Z) (o : option (Z * task)) : Prop :=
  match o with Some it => newest_of ts i it | None => forall it, it ∈ ts -> t_module it.2 <> Some i end.

Lemma newest_unique ts i it it' : NoDup ts.*1 -> newest_of ts i it -> newest_of ts i it' -> it = it'.
Proof.
  intros Hnd (H1 & H2 & H3) (H1' & H2' & H3'). assert (E : it.1 = it'.1).
  { pose proof (H3 it' H1' H2'). pose proof (H3' it H1 H2). lia. }
  destruct it as [t r], it' as [t' r']. cbn in E. subst t'. f_equal.
  assert (Some r = Some r'); [|congruence].
  by rewrite <- (elem_of_dget t r ts Hnd H1), <- (elem_of_dget t r' ts Hnd H1').
Qed.

Lemma best_other ts i o t r : t_module r <> Some i -> best ts i o -> best (ts ++ [(t, r)]) i o.
Proof.
  intros Hr. destruct o as [it|]; cbn.
  - intros (H & Hm & Hall). split; [apply elem_of_app; by left|]. split; [done|].
    intros it' [H'| ->%list_elem_of_singleton]%elem_of_app Hm'; [by apply Hall|done].
  - intros H it' [H'| ->%list_elem_of_singleton]%elem_of_app; [by apply H|done].
Qed.

Lemma best_same ts i o t r : t_module r = Some i -> best ts i o ->
  best (ts ++ [(t, r)]) i (match o with Some (prev, rp) => if prev <? t then Some (t, r) else o | None => Some (t, r) end).
Proof.
  intros Hr. destruct o as [[prev rp]|]; cbn.
  - intros (H & Hm & Hall). cbn in Hm. destruct (prev <? t) eqn:E; cbn.
    + apply Z.ltb_lt in E. split; [apply elem_of_app; right; left|]. split; [done|].
      intros it' [H'| ->%list_elem_of_singleton]%elem_of_app Hm'; [specialize (Hall it' H' Hm'); cbn in *; lia|done].
    + apply Z.ltb_ge in E. split; [apply elem_of_app; by left|]. split; [done|].
      intros it' [H'| ->%list_elem_of_singleton]%elem_of_app Hm'; [by apply Hall|done].
  - intros H. split; [apply elem_of_app; right; left|]. split; [done|].
    intros it' [H'| ->%list_elem_of_singleton]%elem_of_app Hm'; [by destruct (H it' H')|done].
Qed.

Lemma tasks_by_module_spec ts :
  NoDup (tasks_by_module ts).*1 /\ forall i, best ts i (dget i (tasks_by_module ts)).
Proof.
  unfold tasks_by_module. induction ts as [|[t r] ts [IH1 IH2]] using rev_ind.
  { split; [constructor|]. intros i it H. by apply elem_of_nil in H. }
  rewrite foldl_snoc. set (B := foldl keep_newest [] ts) in *. unfold keep_newest. cbn [fst snd].
  destruct (t_module r) as [j|] eqn:Hj; [|split; [done|]; intros i; apply best_other; [congruence|done]].
  assert (Hset : NoDup (dset j (t, r) B).*1 /\ forall i, i <> j -> best (ts ++ [(t, r)]) i (dget i (dset j (t, r) B))).
  { split; [by apply dset_NoDup|]. intros i Hi. rewrite dget_dset, decide_False by done. apply best_other; [congruence|done]. }
  pose proof (best_same ts j (dget j B) t r Hj (IH2 j)) as Hb.
  destruct (dget j B) as [[prev rp]|] eqn:E; [destruct (prev <? t)|].
  - split; [apply Hset|]. intros i. destruct (decide (i = j)) as [->|Hi]; [by rewrite dget_dset, decide_True|by apply Hset].
  - split; [done|]. intros i. destruct (decide (i = j)) as [->|Hi]; [by rewrite E|apply best_other; [congruence|done]].
  - split; [apply Hset|]. intros i. destruct (decide (i = j)) as [->|Hi]; [by rewrite dget_dset, decide_True|by apply Hset].
Qed.

Lemma newest_tasks ts it : NoDup ts.*1 -> it ∈ (tasks_by_module ts).*2 <-> exists i, newest_of ts i it.
Proof.
  intros Hnd. destruct (tasks_by_module_spec ts) as [H1 H2]. rewrite list_elem_of_fmap. split.
  - intros ([i it'] & -> & Hin). exists i. specialize (H2 i). by rewrite (elem_of_dget _ _ _ H1 Hin) in H2.
  - intros (i & Hn). specialize (H2 i). destruct (dget i (tasks_by_module ts)) as [it'|] eqn:E.
    + exists (i, it'). split; [by eapply newest_unique|]. by apply dget_elem_of.
    + destruct Hn as (H & Hm & _). by destruct (H2 it H).
Qed.

Lemma elem_of_run_tasks {SO : SetOrder Z} p h d t r : (t, r) ∈ run_tasks p h d <->
  tasks d !! t = Some r /\ t_project r = p /\ run_handle r = Some h.
Proof. unfold run_tasks. by rewrite elem_of_select, andb_true_iff, !bool_decide_eq_true. Qed.

(** ** Main theorems *)

(** The status of a run.  [get_run_progress] knows a run exactly when a task of
    the project carries its handle; it has failed exactly when the newest of them
    for some module failed or was cancelled, and is completed exactly when the
    newest one of every module is. *)
Theorem run_status_correct {SO : SetOrder Z} p h d :
  let ts := run_tasks p h d in
  match get_run_progress p h d with
  | None => forall t r, tasks d !! t = Some r -> t_project r = p -> run_handle r <> Some h
  | Some rp =>
      (rp_status rp = R_failed <-> exists i it, newest_of ts i it /\ t_status it.2 ∈ [T_FAILED; T_CANCELLED]) /\
      (rp_status rp = R_completed <-> forall i it, newest_of ts i it -> t_status it.2 = T_COMPLETED)
  end.
Proof.
  intros ts. assert (Hnd : NoDup ts.*1) by apply select_NoDup. unfold get_run_progress. fold ts.
  destruct ts as [|x l] eqn:E.
  { intros t r Ht Hp Hh. assert (Hin : (t, r) ∈ run_tasks p h d) by by apply elem_of_run_tasks.
    fold ts in Hin. rewrite E in Hin. by apply elem_of_nil in Hin. }
  rewrite <- E in *. clear x l E. cbn [rp_status].
  assert (Hin : forall r, r ∈ (snd <$> (tasks_by_module ts).*2) <-> exists i it, newest_of ts i it /\ r = it.2).
  { intros r. rewrite list_elem_of_fmap. split.
    - intros (it & -> & Hit). apply newest_tasks in Hit as [i Hi]; eauto.
    - intros (i & it & Hi & ->). exists it. split; [done|]. apply newest_tasks; eauto. }
  unfold overall_status. set (rs := snd <$> _) in *.
  assert (Hf : existsb terminal_fail rs = true <-> exists i it, newest_of ts i it /\ t_status it.2 ∈ [T_FAILED; T_CANCELLED]).
  { rewrite existsb_exists. unfold terminal_fail. split.
    - intros (r & Hr%list_elem_of_In & Hb). apply Hin in Hr as (i & it & Hi & ->). apply bool_decide_eq_true in Hb. eauto.
    - intros (i & it & Hi & Hst). exists it.2. rewrite <- list_elem_of_In, bool_decide_eq_true, Hin. eauto. }
  assert (Hc : forallb (fun t => terminal_success t || terminal_fail t) rs = true <->
    forall i it, newest_of ts i it -> terminal_success it.2 || terminal_fail it.2 = true).
  { rewrite forallb_forall. split.
    - intros H i it Hi. apply H. apply list_elem_of_In, Hin. eauto.
    - intros H r Hr%list_elem_of_In. apply Hin in Hr as (i & it & Hi & ->). eauto. }
  destruct (existsb terminal_fail rs); [split; [tauto|]|].
  - split; [done|]. intros H. destruct (proj1 Hf eq_refl) as (i & it & Hi & Hst). rewrite (H i it Hi) in Hst.
    clear - Hst. set_solver.
  - assert (Hno : forall i it, newest_of ts i it -> terminal_fail it.2 = false).
    { intros i it Hi. unfold terminal_fail. apply bool_decide_eq_false. intros Hst.
      assert (false = true) by (apply Hf; eauto). done. }
    split; [split; [by destruct (forallb _ _)|]; intros H; apply Hf in H; done|].
    assert (Hall : (forall i it, newest_of ts i it -> terminal_success it.2 || terminal_fail it.2 = true) <->
      forall i it, newest_of ts i it -> t_status it.2 = T_COMPLETED).
    { split; intros H i it Hi; specialize (H i it Hi); specialize (Hno i it Hi).
      - rewrite Hno, orb_false_r in H. by apply bool_decide_eq_true in H.
      - apply orb_true_iff. left. by apply bool_decide_eq_true. }
    rewrite <- Hall, <- Hc. by destruct (forallb _ rs).
Qed.

(** A run that is over too early.  The apply that follows an init carries no
    handle: as soon as the init of the only module a run has started is done and
    its apply queued, the run is completed, with the apply still to be done and
    the rest of the project not begun. *)
Theorem run_over_before_apply {SO : SetOrder Z} celery vars_changed p h t r i m d :
  (forall t' r', tasks d !! t' = Some r' -> run_handle r' = Some h -> t' = t) ->
  tasks d !! next_task d = None ->
  tasks d !! t = Some r -> run_handle r = Some h -> t_project r = p -> t_module r = Some i -> t_status r = T_COMPLETED ->
  modules d !! i = Some m -> pm_stack m = None -> enabled m = true -> can_execute d m = true ->
  let d' := after_init celery vars_changed t i true d in
  (exists rp, get_run_progress p h d' = Some rp /\ rp_status rp = R_completed) /\
  exists t' r', tasks d' !! t' = Some r' /\ t_type r' = Tapply /\ t_module r' = Some i /\ t_status r' = T_QUEUED.
Proof.
  intros Honly Hfresh Ht Hh Hp Hi Hst Hm Hs He Hc. cbn zeta.
  assert (E : after_init celery vars_changed t i true d = queue_task celery Tapply T_QUEUED APPLYING i None d).
  { unfold after_init. rewrite Hm, Hs, Hm, Hc. unfold auto_apply. by rewrite He. }
  rewrite E. set (d' := queue_task _ _ _ _ _ _ d).
  assert (Htasks : exists r', tasks d' = <[next_task d := r']> (tasks d) /\ t_type r' = Tapply /\ t_module r' = Some i /\
    t_status r' = T_QUEUED /\ run_handle r' = None).
  { destruct (queue_task_eq celery Tapply T_QUEUED APPLYING i None d m Hm) as (r' & Hq & H1 & H2 & _ & H3 & H4 & _).
    exists r'. unfold d'. by rewrite Hq. }
  destruct Htasks as (r' & Htasks & Hty & Hmo & Hq & Hno).
  split; [|exists (next_task d), r'; by rewrite Htasks, lookup_insert_eq].
  assert (Hrun : forall u, u ∈ run_tasks p h d' <-> u = (t, r)).
  { intros [u ru]. rewrite elem_of_run_tasks, Htasks. split.
    - intros (Hu & _ & Hhu). apply lookup_insert_Some in Hu as [[<- <-]|[_ Hu]]; [congruence|].
      pose proof (Honly u ru Hu Hhu) as ->. congruence.
    - intros [= -> ->]. rewrite lookup_insert_ne; [done|]. intros <-. congruence. }
  assert (Hone : run_tasks p h d' = [(t, r)]).
  { assert (Hnd : NoDup (run_tasks p h d').*1) by apply select_NoDup. apply NoDup_fmap_1 in Hnd.
    apply Permutation_singleton_r, NoDup_Permutation; [done|apply NoDup_singleton|].
    intros u. by rewrite Hrun, list_elem_of_singleton. }
  unfold get_run_progress. rewrite Hone. eexists. split; [reflexivity|]. cbn [rp_status].
  unfold tasks_by_module, keep_newest. cbn. rewrite Hi. cbn. unfold overall_status, terminal_fail, terminal_success. cbn.
  by rewrite Hst.
Qed.

(** Module 1 has been initialized; module 2, which runs on it, has not. *)
Module Example.
Import DeployWave.Example.
#[local] Existing Instance some_order.

Definition init_task : task :=
  {| t_type := Tinit; t_status := T_COMPLETED; t_project := 1; t_module := Some 1; celery_task_id := Some "1";
     run_handle := Some "run"; destroy_scope := None; t_error := None |}.
Definition d3 : odb :=
  {| modules := {[1 := row [] INITIALIZED false; 2 := row [1] NOT_INITIALIZED false]}; tasks := {[1 := init_task]};
     stacks := ∅; next_task := 2 |}.

Lemma run_over_before_apply_witness :
  let d' := after_init message unchanged 1 1 true d3 in
  (exists rp, get_run_progress 1 "run" d' = Some rp /\ rp_status rp = R_completed) /\
  exists t' r', tasks d' !! t' = Some r' /\ t_type r' = Tapply /\ t_module r' = Some 1 /\ t_status r' = T_QUEUED.
Proof.
  refine (run_over_before_apply message unchanged 1 "run" 1 init_task 1 (row [] INITIALIZED false) d3 _ _ _ _ _ _ _ _ _ _ _);
    [|vm_compute; reflexivity..].
  intros t' r' Ht _. cbn in Ht. by apply lookup_singleton_Some in Ht as [<- _].
Defined.
End Example.
