(* ===== verification/FleetReconcile.v ===== *)
(** * The fleet's membership rows (services/fleet_reconcile_service.py,
      services/fleet_vocabulary.py, tasks/fleet_tasks.py)

    A member of the fleet is a row that points to a cluster, a host or a DPU by
    its type and id, and repeats what is known of it as labels.  [inventory] has
    the columns of the three tables that the mapping reads.  An exception that a
    JSON column can raise is an [Err] with the exception's class.  [new_id] is
    the id the database gives a new row; [SetOrder] the order of a query. *)

From S2P Require Import Prelude Texts FleetBulkOp.

#[local] Open Scope string_scope.
#[local] Open Scope list_scope.
#[local] Open Scope Z_scope.
#[local] Set Default Proof Using "Type".

(** ** Vocabulary *)

Definition _DISCOVERED_LABEL_KEYS : list string :=
  ["name"; "vendor"; "region"; "k8s-version"; "platform-profile"; "platform-provider"; "has-dpu"; "status";
   "os"; "os-version"; "arch"; "nic-mode"; "bmc-vendor"; "topology"; "access-mode"; "flash-status"; "serial";
   "reachable"].

(** [None]: no exception. *)
Definition validate_assigned_labels (labels : gmap string string) : bool :=
  forallb (fun kv => bool_decide (kv.1 ∈ ASSIGNED_LABEL_KEYS)) (map_to_list labels) &&
  forallb (fun kv => negb (bool_decide (kv.1 ∈ _DISCOVERED_LABEL_KEYS))) (map_to_list labels).

Definition KNOWN_MEMBER_TYPES : list string := ["cluster"; "bare-metal-host"; "dpu"].

(** ** The rows members point to *)

Record cluster_row := {
  c_project : option Z;
  c_name : string;
  cloud_provider : option string;
  region : option string;
  version : option string;
  detected_platform_profile : option string;
  detected_platform_provider : option string;
  c_status : option string;
  platform_capabilities : json
}.

Record host_row := {
  h_project : option Z;
  h_name : string;
  os_info : json;
  k8s_info : json;
  rshim_present : option bool;
  nic_mode : option string;
  bmc_vendor : option string;
  topology : option string;
  h_last_discovery_status : option string
}.

Record dpu_row := {
  u_project : option Z;
  u_name : option string;
  bmc_ip : option string;
  serial_number : option string;
  access_mode : option string;
  flash_status : option string;
  dpu_os_reachable : option bool;
  u_last_discovery_status : option string
}.

Record deployment_row := { dep_host : Z; dep_status : option string }.

Record inventory := {
  clusters : gmap Z cluster_row;
  hosts : gmap Z host_row;
  dpus : gmap Z dpu_row;
  deployments : gmap Z deployment_row
}.

(** ** Lifecycle *)

(** [(v or "").strip().lower()] *)
Definition norm (v : option string) : string := lower (strip (default "" v)).

Definition _lifecycle_for_cluster (c : cluster_row) : string :=
  let status := norm (c_status c) in
  if String.eqb status "connecting" then "provisioning"
  else if String.eqb status "active" then "active"
  else if String.eqb status "inactive" then "decommissioned"
  else "unknown".

Definition _lifecycle_for_host (h : host_row) (latest_deployment : option deployment_row) : string :=
  let by_host :=
    let host_status := norm (h_last_discovery_status h) in
    if bool_decide (host_status ∈ ["pending"; "ssh_probe"; "bmc_probe"; "dpu_probe"; "assessment"]) then "provisioning"
    else if String.eqb host_status "completed" then "active"
    else "unknown" in
  match latest_deployment with
  | None => by_host
  | Some dep =>
      let st := norm (dep_status dep) in
      if bool_decide (st ∈ ["pending"; "discovering"; "planning"; "in_progress"]) then "provisioning"
      else if String.eqb st "completed" then "active"
      else if String.eqb st "cancelled" then "decommissioned"
      else by_host
  end.

Definition _lifecycle_for_dpu (u : dpu_row) : string :=
  let flash := norm (flash_status u) in
  if bool_decide (flash ∈ ["uploading"; "waiting_reboot"]) then "provisioning"
  else if String.eqb flash "os_online" then "active"
  else if String.eqb flash "cancelled" then "decommissioned"
  else if String.eqb flash "failed" then "unknown"
  else match dpu_os_reachable u with Some true => "active" | _ => "unknown" end.

(** ** Discovered labels *)

Definition put (k v : string) (labels : gmap string string) : gmap string string :=
  if String.eqb v "" then labels else <[k := v]> labels.
Definition put_flag (k : string) (b : option bool) (labels : gmap string string) : gmap string string :=
  match b with Some b => <[k := if b then "true" else "false"]> labels | None => labels end.

Definition has_dpu (caps : json) : option bool :=
  match caps with
  | JObj fields =>
      match dget "has_dpu" fields with
      | Some v => Some (truthy v)
      | None => truthy <$> dget "hasDpu" fields
      end
  | _ => None
  end.

Definition _discovered_labels_for_cluster (c : cluster_row) : gmap string string :=
  put_flag "has-dpu" (has_dpu (platform_capabilities c))
    (put "status" (norm (c_status c))
    (put "platform-provider" (norm (detected_platform_provider c))
    (put "platform-profile" (norm (detected_platform_profile c))
    (put "k8s-version" (norm (version c))
    (put "region" (norm (region c))
    (put "vendor" (norm (cloud_provider c))
    (put "name" (c_name c) ∅))))))).

(** [(info.get(key) or "").strip().lower()]; nothing when [info] is no dict. *)
Definition info_text (key : string) (info : json) : result string string :=
  match info with
  | JObj fields =>
      match dget key fields with
      | None => Ok ""
      | Some v =>
          if truthy v then match v with JStr s => Ok (lower (strip s)) | _ => Err "AttributeError" end
          else Ok ""
      end
  | _ => Ok ""
  end.

Definition _discovered_labels_for_host (h : host_row) : result string (gmap string string) :=
  os ← info_text "os_type" (os_info h);
  os_version ← info_text "os_version" (os_info h);
  arch ← info_text "arch" (os_info h);
  k8s ← info_text "version" (k8s_info h);
  Ok (put "topology" (norm (topology h))
     (put "bmc-vendor" (norm (bmc_vendor h))
     (put "nic-mode" (norm (nic_mode h))
     (put_flag "has-dpu" (rshim_present h)
     (put "k8s-version" k8s
     (put "arch" arch
     (put "os-version" os_version
     (put "os" os
     (put "name" (h_name h) ∅))))))))).

(** [name or bmc_ip or serial_number or None] *)
Definition dpu_name (u : dpu_row) : option string :=
  or_else (u_name u) (or_else (bmc_ip u) (or_else (serial_number u) None)).

Definition _discovered_labels_for_dpu (u : dpu_row) : gmap string string :=
  put_flag "reachable" (dpu_os_reachable u)
    (put "serial" (norm (serial_number u))
    (put "flash-status" (norm (flash_status u))
    (put "access-mode" (norm (access_mode u))
    (<["vendor" := "nvidia-bluefield"]>
    (put "name" (default "" (dpu_name u)) ∅))))).

(** ** Reconciling one member *)

(** What [_load_target] answers of a row that is there, with the lifecycle the
    caller derives from it. *)
Record facts := {
  f_labels : gmap string string;
  f_name : string;
  f_project : option Z;
  f_health : option string;
  f_lifecycle : string
}.

Section reconcile.
Context {SO : SetOrder Z} (inv : inventory).

(** [order_by(id.desc()).first()] of the host's deployments. *)
Definition latest_deployment (host : Z) : option deployment_row :=
  snd <$> foldl (fun best ir => match best with
                                | Some b => if b.1 <? ir.1 then Some ir else best
                                | None => Some ir
                                end) None (select (fun _ r => bool_decide (dep_host r = host)) (deployments inv)).

Definition _load_target (t : string * Z) : result string (option facts) :=
  let '(member_type, id) := t in
  if String.eqb member_type "cluster" then
    match clusters inv !! id with
    | None => Ok None
    | Some c => Ok (Some {| f_labels := _discovered_labels_for_cluster c; f_name := c_name c; f_project := c_project c;
                            f_health := c_status c; f_lifecycle := _lifecycle_for_cluster c |})
    end
  else if String.eqb member_type "bare-metal-host" then
    match hosts inv !! id with
    | None => Ok None
    | Some h =>
        labels ← _discovered_labels_for_host h;
        Ok (Some {| f_labels := labels; f_name := h_name h; f_project := h_project h;
                    f_health := or_else (h_last_discovery_status h) None;
                    f_lifecycle := _lifecycle_for_host h (latest_deployment id) |})
    end
  else if String.eqb member_type "dpu" then
    match dpus inv !! id with
    | None => Ok None
    | Some u => Ok (Some {| f_labels := _discovered_labels_for_dpu u;
                            f_name := default ("dpu-" +:+ pretty id) (dpu_name u); f_project := u_project u;
                            f_health := or_else (flash_status u) (or_else (u_last_discovery_status u) None);
                            f_lifecycle := _lifecycle_for_dpu u |})
    end
  else Err "ValueError".

(** The row of a target; at most one, by the table's unique constraint. *)
Definition member_of (t : string * Z) (ms : gmap Z member) : option (Z * member) :=
  head (select (fun _ m => bool_decide (m_target m = t)) ms).

Context (new_id : gmap Z member -> Z) (now : Z).

(** What a reconcile writes: all but the assigned labels and the fault domain. *)
Definition refresh (f : facts) (m : member) : member :=
  {| m_project := f_project f; m_target := m_target m; m_name := f_name f; discovered_labels := f_labels f;
     assigned_labels := assigned_labels m; fault_domain := fault_domain m; health_status := f_health f;
     lifecycle_state := Some (f_lifecycle f); last_reconciled_at := Some now |}.

Definition new_member (t : string * Z) (f : facts) : member :=
  {| m_project := f_project f; m_target := t; m_name := f_name f; discovered_labels := f_labels f;
     assigned_labels := ∅; fault_domain := None; health_status := f_health f;
     lifecycle_state := Some (f_lifecycle f); last_reconciled_at := Some now |}.

(** [Ok false]: the target row is gone, nothing is written. *)
Definition reconcile_fleet_member (t : string * Z) (ms : gmap Z member) : gmap Z member * result string bool :=
  if negb (bool_decide (t.1 ∈ KNOWN_MEMBER_TYPES)) then (ms, Err "ValueError")
  else
    match _load_target t with
    | Err e => (ms, Err e)
    | Ok None => (ms, Ok false)
    | Ok (Some f) =>
        (match member_of t ms with
         | Some (i, m) => <[i := refresh f m]> ms
         | None => <[new_id ms := new_member t f]> ms
         end, Ok true)
    end.

(** ** The periodic task *)

Record summary := { reconciled : nat; skipped : nat; pruned : nat; errors : nat }.

Definition backfill_one (st : gmap Z member * summary) (t : string * Z) : gmap Z member * summary :=
  let '(ms, s) := st in
  match reconcile_fleet_member t ms with
  | (ms, Ok true) => (ms, {| reconciled := S (reconciled s); skipped := skipped s; pruned := pruned s; errors := errors s |})
  | (ms, Ok false) => (ms, {| reconciled := reconciled s; skipped := S (skipped s); pruned := pruned s; errors := errors s |})
  | (ms, Err _) => (ms, {| reconciled := reconciled s; skipped := skipped s; pruned := pruned s; errors := S (errors s) |})
  end.

Definition all_of {R} (ty : string) (t : gmap Z R) : list (string * Z) :=
  (fun i => (ty, i)) <$> (select (fun _ _ => true) t).*1.
Definition all_targets : list (string * Z) :=
  all_of "cluster" (clusters inv) ++ all_of "bare-metal-host" (hosts inv) ++ all_of "dpu" (dpus inv).

(** [None]: a type the task leaves alone. *)
Definition target_lives (t : string * Z) : option bool :=
  if String.eqb t.1 "cluster" then Some (bool_decide (is_Some (clusters inv !! t.2)))
  else if String.eqb t.1 "bare-metal-host" then Some (bool_decide (is_Some (hosts inv !! t.2)))
  else if String.eqb t.1 "dpu" then Some (bool_decide (is_Some (dpus inv !! t.2)))
  else None.

Definition is_orphan (m : member) : bool := match target_lives (m_target m) with Some b => negb b | None => false end.

Definition prune_one (st : gmap Z member * summary) (im : Z * member) : gmap Z member * summary :=
  let '(ms, s) := st in
  if is_orphan im.2
  then (delete im.1 ms,
        {| reconciled := reconciled s; skipped := skipped s; pruned := S (pruned s); errors := errors s |})
  else (ms, s).

Definition backfill_fleet_members (ms : gmap Z member) : gmap Z member * summary :=
  let '(ms, s) := foldl backfill_one (ms, {| reconciled := 0; skipped := 0; pruned := 0; errors := 0 |}) all_targets in
  foldl prune_one (ms, s) (select (fun _ _ => true) ms).
End reconcile.

(** ** Reading the tables *)

(** One row per target: the table's unique constraint. *)
Definition one_per_target (ms : gmap Z member) : Prop := forall i j m m',
  ms !! i = Some m -> ms !! j = Some m' -> m_target m = m_target m' -> i = j.

(** What survives a reconcile of a member. *)
Definition same_member (m m' : member) : Prop :=
  m_target m' = m_target m /\ assigned_labels m' = assigned_labels m /\ fault_domain m' = fault_domain m.

Section mirror.
Context {SO : SetOrder Z} (inv : inventory) (now : Z).

Lemma member_of_spec t ms :
  match member_of t ms with
  | Some (i, m) => ms !! i = Some m /\ m_target m = t
  | None => forall i m, ms !! i = Some m -> m_target m <> t
  end.
Proof using.
  unfold member_of. destruct (select _ ms) as [|[i m] l] eqn:E; cbn [head].
  - intros i m Hm Ht. assert (Hin : (i, m) ∈ select (fun _ m => bool_decide (m_target m = t)) ms)
      by (apply elem_of_select; by rewrite bool_decide_true).
    rewrite E in Hin. by apply elem_of_nil in Hin.
  - assert (Hin : (i, m) ∈ select (fun _ m => bool_decide (m_target m = t)) ms) by (rewrite E; left).
    apply elem_of_select in Hin as [Hm Hb]. by apply bool_decide_eq_true in Hb.
Qed.

Lemma live_targets t : t ∈ all_targets inv <-> target_lives inv t = Some true.
Proof using.
  assert (Hall : forall R ty (tb : gmap Z R), t ∈ all_of ty tb <-> t.1 = ty /\ is_Some (tb !! t.2)).
  { intros R ty tb. unfold all_of. rewrite list_elem_of_fmap. destruct t as [ty' i]. cbn. split.
    - intros (j & [= -> ->] & ((k & r) & -> & Hr)%list_elem_of_fmap). apply elem_of_select in Hr as [Hr _]. cbn. by rewrite Hr.
    - intros (-> & r & Hr). exists i. split; [done|]. apply list_elem_of_fmap. exists (i, r). split; [done|].
      by apply elem_of_select. }
  unfold all_targets, target_lives. rewrite !elem_of_app, !Hall. destruct t as [ty i]. cbn.
  destruct (String.eqb_spec ty "cluster") as [->|H1];
    [|destruct (String.eqb_spec ty "bare-metal-host") as [->|H2]; [|destruct (String.eqb_spec ty "dpu") as [->|H3]]];
    (split; [intros [[? ?]|[[? ?]|[? ?]]]; simplify_eq; by rewrite bool_decide_true|]);
    intros [= H%bool_decide_eq_true]; auto.
Qed.

Lemma loaded_lives t f : _load_target inv t = Ok (Some f) -> target_lives inv t = Some true /\ t.1 ∈ KNOWN_MEMBER_TYPES.
Proof using.
  destruct t as [ty i]. unfold _load_target, target_lives, KNOWN_MEMBER_TYPES. cbn.
  destruct (String.eqb_spec ty "cluster") as [->|]; [destruct (clusters inv !! i)|
    destruct (String.eqb_spec ty "bare-metal-host") as [->|]; [destruct (hosts inv !! i)|
      destruct (String.eqb_spec ty "dpu") as [->|]; [destruct (dpus inv !! i)|]]]; intros H; try discriminate H;
    (split; [by rewrite bool_decide_true|set_solver]).
Qed.

(** What holds of the table when the targets [ts] have been reconciled. *)
Record mirrored (ms0 : gmap Z member) (ts : list (string * Z)) (ms : gmap Z member) : Prop := {
  mi_unique : one_per_target ms;
  mi_kept i m0 : ms0 !! i = Some m0 -> exists m, ms !! i = Some m /\ same_member m0 m;
  mi_fresh i m f : ms !! i = Some m -> m_target m ∈ ts -> _load_target inv (m_target m) = Ok (Some f) -> refresh now f m = m;
  mi_there t f : t ∈ ts -> _load_target inv t = Ok (Some f) -> exists i m, ms !! i = Some m /\ m_target m = t;
  mi_from i m : ms !! i = Some m ->
    (exists m0, ms0 !! i = Some m0 /\ same_member m0 m) \/ exists f, _load_target inv (m_target m) = Ok (Some f)
}.

Lemma same_member_refl m : same_member m m.
Proof using. done. Qed.

Lemma same_member_trans a b c : same_member a b -> same_member b c -> same_member a c.
Proof using. unfold same_member. intuition congruence. Qed.

Lemma mirrored_skip ms0 ts ms t :
  (forall f, _load_target inv t <> Ok (Some f)) -> mirrored ms0 ts ms -> mirrored ms0 (ts ++ [t]) ms.
Proof using.
  intros Hno [H1 H2 H3 H4 H5]. split; [done|done|..|done].
  - intros i m f Hm [Ht|Ht%list_elem_of_singleton]%elem_of_app Hf; [by apply (H3 i)|]. rewrite Ht in Hf. by destruct (Hno f).
  - intros t' f [Ht|Ht%list_elem_of_singleton]%elem_of_app Hf; [by apply (H4 t' f)|]. subst t'. by destruct (Hno f).
Qed.

(** The row of the target is written. *)
Lemma mirrored_write ms0 ts ms t f i m :
  _load_target inv t = Ok (Some f) -> mirrored ms0 ts ms -> m_target m = t -> refresh now f m = m ->
  match ms !! i with Some m1 => same_member m1 m | None => forall j m1, ms !! j = Some m1 -> m_target m1 <> t end ->
  mirrored ms0 (ts ++ [t]) (<[i := m]> ms).
Proof using.
  intros Hf [H1 H2 H3 H4 H5] Ht Hr Hi. split.
  - assert (Ho : forall j m1, j <> i -> ms !! j = Some m1 -> m_target m1 <> t).
    { intros j m1 Hj Hm1 Hmt. destruct (ms !! i) as [m2|] eqn:E; [|by apply (Hi j m1)].
      destruct Hi as (Hi & _). apply Hj. apply (H1 j i m1 m2); [done|done|congruence]. }
    intros j k mj mk [[<- <-]|[Hj Hmj]]%lookup_insert_Some [[<- <-]|[Hk Hmk]]%lookup_insert_Some Heq; [done| | |by eapply H1].
    + exfalso. apply (Ho k mk); [done|done|congruence].
    + exfalso. apply (Ho j mj); [done|done|congruence].
  - intros j m0 Hm0. destruct (H2 j m0 Hm0) as (m1 & Hm1 & Hs). destruct (decide (j = i)) as [->|Hj].
    + exists m. rewrite lookup_insert_eq. split; [done|]. rewrite Hm1 in Hi. by eapply same_member_trans.
    + exists m1. by rewrite lookup_insert_ne.
  - intros j mj f' [[<- <-]|[Hj Hmj]]%lookup_insert_Some Hin Hf'.
    + rewrite Ht in Hf'. assert (f' = f) as -> by congruence. exact Hr.
    + apply elem_of_app in Hin as [Hin|Hin%list_elem_of_singleton]; [by apply (H3 j mj f')|].
      destruct (ms !! i) as [m2|] eqn:E; [|by destruct (Hi j mj)].
      exfalso. apply Hj. apply (H1 i j m2 mj); [done|done|]. destruct Hi as (Hi & _). congruence.
  - intros t' f' Hin Hf'. destruct (decide (t' = t)) as [->|Hne]; [exists i, m; by rewrite lookup_insert_eq|].
    apply elem_of_app in Hin as [Hin|Hin%list_elem_of_singleton]; [|done].
    destruct (H4 t' f' Hin Hf') as (j & mj & Hmj & Htj). exists j, mj. rewrite lookup_insert_ne; [done|].
    intros <-. rewrite Hmj in Hi. destruct Hi as (Hi & _). congruence.
  - intros j mj [[<- <-]|[Hj Hmj]]%lookup_insert_Some; [right; exists f; by rewrite Ht|by apply H5].
Qed.

Context (new_id : gmap Z member -> Z).
Hypothesis FRESH : forall ms, ms !! new_id ms = None.

Lemma reconcile_mirrored ms0 ts ms s t :
  mirrored ms0 ts ms -> mirrored ms0 (ts ++ [t]) (backfill_one inv new_id now (ms, s) t).1.
Proof using Type FRESH.
  intros H. unfold backfill_one, reconcile_fleet_member.
  assert (Hskip : (forall f, _load_target inv t <> Ok (Some f)) -> mirrored ms0 (ts ++ [t]) ms) by (intros; by apply mirrored_skip).
  case_bool_decide as Hk; cbn [negb];
    [|apply Hskip; intros f Hf; by apply loaded_lives in Hf as [_ ?]].
  destruct (_load_target inv t) as [[f|]|e] eqn:Hf; [|by apply Hskip..].
  pose proof (member_of_spec t ms) as Hm. destruct (member_of t ms) as [[i m]|]; cbn [fst].
  - destruct Hm as [Hm Ht]. apply (mirrored_write ms0 ts ms t f); [done|done|done|done|]. by rewrite Hm.
  - apply (mirrored_write ms0 ts ms t f); [done|done|done|done|]. by rewrite FRESH.
Qed.

Lemma backfills_mirrored ms0 s : one_per_target ms0 -> forall ts,
  mirrored ms0 ts (foldl (backfill_one inv new_id now) (ms0, s) ts).1.
Proof using Type FRESH.
  intros Hu. induction ts as [|t ts IH] using rev_ind; cbn.
  - split; [done| |by intros i m f _ []%elem_of_nil|by intros t f []%elem_of_nil|].
    + intros i m0 Hm0. exists m0. by split.
    + intros i m Hm. left. by exists m.
  - rewrite foldl_snoc. destruct (foldl _ _ ts) as [ms s']. by apply reconcile_mirrored.
Qed.

Lemma prune_lookup l : forall ms s i,
  (foldl (prune_one inv) (ms, s) l).1 !! i =
  if existsb (fun im => bool_decide (im.1 = i) && is_orphan inv im.2) l then None else ms !! i.
Proof using.
  induction l as [|[j m] l IH]; intros ms s i; cbn [foldl existsb]; [done|].
  unfold prune_one at 2. cbn [fst snd]. destruct (is_orphan inv m) eqn:Ho; rewrite IH; cbn [fst snd].
  - rewrite andb_true_r. destruct (existsb _ l); [by rewrite orb_true_r|]. rewrite orb_false_r.
    case_bool_decide as Hj; [subst j; apply lookup_delete_eq|by apply lookup_delete_ne].
  - by rewrite andb_false_r.
Qed.

Lemma pruned_rows ms s i :
  (foldl (prune_one inv) (ms, s) (select (fun _ _ => true) ms)).1 !! i =
  match ms !! i with Some m => if is_orphan inv m then None else Some m | None => None end.
Proof using.
  rewrite prune_lookup. destruct (existsb _ _) eqn:E.
  - apply existsb_exists in E as ([j m] & Hin%list_elem_of_In & Hb). apply elem_of_select in Hin as [Hm _].
    cbn in Hb. apply andb_true_iff in Hb as [->%bool_decide_eq_true Ho]. by rewrite Hm, Ho.
  - destruct (ms !! i) as [m|] eqn:Hm; [|done]. destruct (is_orphan inv m) eqn:Ho; [|done].
    assert (Ht : existsb (fun im => bool_decide (im.1 = i) && is_orphan inv im.2) (select (fun _ _ => true) ms) = true).
    { apply existsb_exists. exists (i, m). rewrite <- list_elem_of_In, elem_of_select. cbn.
      by rewrite bool_decide_true, Ho. }
    congruence.
Qed.

Lemma backfill_lookup ms : one_per_target ms -> exists ms1, mirrored ms (all_targets inv) ms1 /\
  forall i, (backfill_fleet_members inv new_id now ms).1 !! i =
            match ms1 !! i with Some m => if is_orphan inv m then None else Some m | None => None end.
Proof using Type FRESH.
  intros Hu. unfold backfill_fleet_members.
  pose proof (backfills_mirrored ms {| reconciled := 0; skipped := 0; pruned := 0; errors := 0 |} Hu (all_targets inv)) as H.
  destruct (foldl _ _ _) as [ms1 s]. exists ms1. split; [exact H|]. intros i. apply pruned_rows.
Qed.

(** A table that is up to date for the targets stays as it is. *)
Lemma backfills_idle ms s ts :
  (forall t f, t ∈ ts -> _load_target inv t = Ok (Some f) -> exists i m, ms !! i = Some m /\ m_target m = t) ->
  (forall i m f, ms !! i = Some m -> _load_target inv (m_target m) = Ok (Some f) -> refresh now f m = m) ->
  (foldl (backfill_one inv new_id now) (ms, s) ts).1 = ms.
Proof using.
  intros H1 H2. revert s. induction ts as [|t ts IH]; intros s; [done|]. cbn [foldl].
  assert (Hts : forall t f, t ∈ ts -> _load_target inv t = Ok (Some f) -> exists i m, ms !! i = Some m /\ m_target m = t)
    by (intros; eapply H1; [by right|done]).
  unfold backfill_one at 2, reconcile_fleet_member. case_bool_decide; cbn [negb]; [|by apply IH].
  destruct (_load_target inv t) as [[f|]|e] eqn:Hf; [|by apply IH..].
  pose proof (member_of_spec t ms) as Hm. destruct (member_of t ms) as [[i m]|].
  - destruct Hm as [Hm Ht]. rewrite (H2 i m f Hm) by (by rewrite Ht). rewrite insert_id by done. by apply IH.
  - destruct (H1 t f ltac:(left) Hf) as (i & m & Hi & Ht). by destruct (Hm i m).
Qed.

Lemma known_lives t : t.1 ∈ KNOWN_MEMBER_TYPES -> exists b, target_lives inv t = Some b.
Proof using.
  unfold target_lives, KNOWN_MEMBER_TYPES. destruct t as [ty i]. cbn. rewrite !elem_of_cons, elem_of_nil.
  intros [-> |[-> |[-> |[]]]]; cbn; eauto.
Qed.

(** ** Main theorems *)

(** The periodic task.  After [backfill_fleet_members] the membership table
    mirrors the tables it points to: one row for each cluster, host and DPU
    whose facts can be read, or that had one before, and no other row of a known
    type; each such row has the facts of its target.  A member whose target
    lives, or whose type the task does not know, keeps its id, its assigned
    labels and its fault domain.  Run again, the task changes nothing. *)
Theorem backfill_mirrors ms :
  one_per_target ms ->
  let ms' := (backfill_fleet_members inv new_id now ms).1 in
  one_per_target ms' /\
  (forall t, t.1 ∈ KNOWN_MEMBER_TYPES ->
     (exists i m, ms' !! i = Some m /\ m_target m = t) <->
     target_lives inv t = Some true /\
     ((exists f, _load_target inv t = Ok (Some f)) \/ exists i m, ms !! i = Some m /\ m_target m = t)) /\
  (forall i m f, ms' !! i = Some m -> _load_target inv (m_target m) = Ok (Some f) -> refresh now f m = m) /\
  (forall i m, ms !! i = Some m -> target_lives inv (m_target m) <> Some false ->
     exists m', ms' !! i = Some m' /\ same_member m m') /\
  (backfill_fleet_members inv new_id now ms').1 = ms'.
Proof using Type FRESH.
  intros Hu ms'. destruct (backfill_lookup ms Hu) as (ms1 & [H1 H2 H3 H4 H5] & Hms'). fold ms' in Hms'.
  assert (Hrow : forall i m, ms' !! i = Some m <-> ms1 !! i = Some m /\ target_lives inv (m_target m) <> Some false).
  { intros i m. rewrite Hms'. unfold is_orphan. split.
    - destruct (ms1 !! i) as [m1|]; [|done]. destruct (target_lives inv (m_target m1)) as [[|]|] eqn:E; intros [= <-]; by rewrite E.
    - intros [-> Hl]. by destruct (target_lives inv (m_target m)) as [[|]|]. }
  assert (Hfresh : forall i m f, ms' !! i = Some m -> _load_target inv (m_target m) = Ok (Some f) -> refresh now f m = m).
  { intros i m f [Hm _]%Hrow Hf. apply (H3 i m f Hm); [|done]. by apply live_targets, (loaded_lives _ f). }
  assert (Hthere : forall t f, _load_target inv t = Ok (Some f) -> exists i m, ms' !! i = Some m /\ m_target m = t).
  { intros t f Hf. destruct (loaded_lives t f Hf) as [Hl _]. destruct (H4 t f) as (i & m & Hm & <-); [by apply live_targets|done|].
    exists i, m. split; [|done]. apply Hrow. rewrite Hl. done. }
  assert (Huni : one_per_target ms').
  { intros i j m m' [Hi _]%Hrow [Hj _]%Hrow. by apply H1. }
  split; [exact Huni|]. split; [|split; [exact Hfresh|split]].
  - intros t Hk. split.
    + intros (i & m & [Hm Hl]%Hrow & <-). destruct (known_lives (m_target m) Hk) as [[|] E]; [|done]. split; [done|].
      destruct (H5 i m Hm) as [(m0 & Hm0 & Hs)|Hf]; [right|by left]. exists i, m0. split; [done|]. by destruct Hs as [-> _].
    + intros [Hl [[f Hf]|(i & m & Hm & Ht)]]; [by eapply Hthere|].
      destruct (H2 i m Hm) as (m1 & Hm1 & Hs). exists i, m1. destruct Hs as [Hs _].
      split; [apply Hrow; split; [done|]; rewrite Hs, Ht, Hl; done|by rewrite Hs].
  - intros i m Hm Hl. destruct (H2 i m Hm) as (m1 & Hm1 & Hs). exists m1. split; [|done]. apply Hrow. split; [done|].
    by destruct Hs as [-> _].
  - unfold backfill_fleet_members.
    pose proof (backfills_idle ms' {| reconciled := 0; skipped := 0; pruned := 0; errors := 0 |} (all_targets inv)) as Hid.
    destruct (foldl _ _ (all_targets inv)) as [ms2 s2]. cbn [fst] in Hid. rewrite Hid; [|by intros t f _; apply Hthere|done].
    apply map_eq. intros i. rewrite pruned_rows. destruct (ms' !! i) as [m|] eqn:Hm; [|done].
    apply Hrow in Hm as [_ Hl]. unfold is_orphan. by destruct (target_lives inv (m_target m)) as [[|]|].
Qed.
End mirror.

(** ** What labels a reconcile writes *)

Definition discovered (labels : gmap string string) : Prop := forall k v,
  labels !! k = Some v -> k ∈ _DISCOVERED_LABEL_KEYS /\ v <> "".

Lemma discovered_empty : discovered ∅.
Proof. intros k v. by rewrite lookup_empty. Qed.

Lemma discovered_insert k v labels : k ∈ _DISCOVERED_LABEL_KEYS -> v <> "" -> discovered labels -> discovered (<[k := v]> labels).
Proof. intros Hk Hv Hl k' v' [[<- <-]|[_ H]]%lookup_insert_Some; [done|by apply Hl]. Qed.

Lemma discovered_put k v labels : k ∈ _DISCOVERED_LABEL_KEYS -> discovered labels -> discovered (put k v labels).
Proof.
  intros Hk Hl. unfold put. destruct (String.eqb_spec v ""); [done|]. by apply discovered_insert.
Qed.

Lemma discovered_flag k b labels : k ∈ _DISCOVERED_LABEL_KEYS -> discovered labels -> discovered (put_flag k b labels).
Proof. intros Hk Hl. destruct b as [[|]|]; [by apply discovered_insert..|done]. Qed.

#[local] Ltac discovered_step :=
  first [apply discovered_put; [by apply (bool_decide_eq_true_1 _); vm_compute|]
        |apply discovered_flag; [by apply (bool_decide_eq_true_1 _); vm_compute|]
        |apply discovered_insert; [by apply (bool_decide_eq_true_1 _); vm_compute|done|]
        |apply discovered_empty].

Lemma host_labels_discovered h labels : _discovered_labels_for_host h = Ok labels -> discovered labels.
Proof.
  unfold _discovered_labels_for_host. intros H.
  do 4 (match type of H with context [info_text ?k ?i] => destruct (info_text k i); [|discriminate H] end).
  injection H as <-. repeat discovered_step.
Qed.

Lemma assigned_keys k : k ∈ ASSIGNED_LABEL_KEYS -> k ∉ _DISCOVERED_LABEL_KEYS.
Proof.
  assert (H : Forall (fun k => k ∉ _DISCOVERED_LABEL_KEYS) ASSIGNED_LABEL_KEYS)
    by (apply (bool_decide_eq_true_1 _); vm_compute; reflexivity).
  rewrite Forall_forall in H. apply H.
Qed.

Lemma validate_assigned_spec labels :
  validate_assigned_labels labels = true <-> forall k, k ∈ dom labels -> k ∈ ASSIGNED_LABEL_KEYS.
Proof.
  unfold validate_assigned_labels. rewrite andb_true_iff, !forallb_forall.
  assert (Hin : forall k v, In (k, v) (map_to_list labels) <-> labels !! k = Some v).
  { intros k v. by rewrite <- list_elem_of_In, elem_of_map_to_list. }
  split.
  - intros [H _] k [v Hv]%elem_of_dom. apply Hin, H in Hv. by apply bool_decide_eq_true in Hv.
  - intros H. split; intros [k v] Hv%Hin; cbn.
    + rewrite bool_decide_eq_true. apply H, elem_of_dom. eauto.
    + rewrite bool_decide_false; [done|]. apply assigned_keys, H, elem_of_dom. eauto.
Qed.

(** The two kinds of labels.  What a reconcile writes of a target has keys of
    the discovered vocabulary only, no empty value, and a state of the lifecycle
    that is never "draining"; and labels pass for assigned ones exactly when
    their keys are of the assigned vocabulary, so that no member ever has one
    key in both sets and the order in which the two are merged does not matter. *)
Theorem reconciled_labels {SO : SetOrder Z} inv t f :
  _load_target inv t = Ok (Some f) ->
  discovered (f_labels f) /\
  f_lifecycle f ∈ ["provisioning"; "active"; "decommissioned"; "unknown"] /\
  (forall labels, validate_assigned_labels labels = true <-> forall k, k ∈ dom labels -> k ∈ ASSIGNED_LABEL_KEYS) /\
  (forall labels, validate_assigned_labels labels = true ->
     labels ##ₘ f_labels f /\ labels ∪ f_labels f = f_labels f ∪ labels).
Proof.
  intros Hf. assert (Hd : discovered (f_labels f) /\ f_lifecycle f ∈ ["provisioning"; "active"; "decommissioned"; "unknown"]).
  { destruct t as [ty i]. unfold _load_target in Hf.
    destruct (String.eqb ty "cluster"); [|destruct (String.eqb ty "bare-metal-host"); [|destruct (String.eqb ty "dpu"); [|done]]].
    - destruct (clusters inv !! i) as [c|]; [|done]. injection Hf as <-. split; cbn.
      + unfold _discovered_labels_for_cluster. repeat discovered_step.
      + unfold _lifecycle_for_cluster. repeat case_match; set_solver.
    - destruct (hosts inv !! i) as [h|]; [|done]. destruct (_discovered_labels_for_host h) as [l|] eqn:Hl; [|done].
      cbn in Hf. injection Hf as <-. split; cbn; [by eapply host_labels_discovered|].
      unfold _lifecycle_for_host. repeat case_match; set_solver.
    - destruct (dpus inv !! i) as [u|]; [|done]. injection Hf as <-. split; cbn.
      + unfold _discovered_labels_for_dpu. repeat discovered_step.
      + unfold _lifecycle_for_dpu. repeat case_match; set_solver. }
  destruct Hd as [Hd Hl]. split; [done|]. split; [done|]. split; [exact validate_assigned_spec|].
  intros labels Hv. assert (Hdisj : labels ##ₘ f_labels f).
  { apply map_disjoint_dom, elem_of_disjoint. intros k Hk [v Hv']%elem_of_dom.
    apply (assigned_keys k); [by apply (proj1 (validate_assigned_spec labels))|]. by apply (Hd k v). }
  split; [done|]. by apply map_union_comm.
Qed.

(** ** A fleet of two *)

Module Example.
#[local] Instance some_order : SetOrder Z := elements_order.

Definition prod : cluster_row :=
  {| c_project := Some 1; c_name := "Prod-1"; cloud_provider := Some " AWS "; region := Some "eu-west-1";
     version := Some "v1.30"; detected_platform_profile := None; detected_platform_provider := None;
     c_status := Some "active"; platform_capabilities := JObj [("has_dpu", JBool false)] |}.
Definition rack : host_row :=
  {| h_project := Some 2; h_name := "rack-7"; os_info := JObj [("os_type", JStr "Ubuntu"); ("os_version", JStr "22.04")];
     k8s_info := JNull; rshim_present := Some true; nic_mode := None; bmc_vendor := Some "Dell"; topology := None;
     h_last_discovery_status := Some "completed" |}.
Definition lab : inventory :=
  {| clusters := {[1 := prod]}; hosts := {[4 := rack]}; dpus := ∅;
     deployments := {[2 := {| dep_host := 4; dep_status := Some "in_progress" |}]} |}.

(** A member of a cluster that is gone, and the host with a label. *)
Definition gone : member :=
  {| m_project := Some 1; m_target := ("cluster", 9); m_name := "old"; discovered_labels := ∅; assigned_labels := ∅;
     fault_domain := None; health_status := None; lifecycle_state := None; last_reconciled_at := None |}.
Definition racked : member :=
  {| m_project := None; m_target := ("bare-metal-host", 4); m_name := "r"; discovered_labels := ∅;
     assigned_labels := {["env" := "lab"]}; fault_domain := Some "row-b"; health_status := None;
     lifecycle_state := None; last_reconciled_at := None |}.
Definition before : gmap Z member := {[1 := gone; 2 := racked]}.

Lemma one_each : one_per_target before.
Proof.
  intros i j m m' Hi Hj. unfold before in Hi, Hj.
  apply lookup_insert_Some in Hi as [[<- <-]|[_ Hi]]; apply lookup_insert_Some in Hj as [[<- <-]|[_ Hj]]; [done|..];
    try (apply lookup_singleton_Some in Hi as [<- <-]); try (apply lookup_singleton_Some in Hj as [<- <-]); done.
Qed.

Lemma backfill_mirrors_witness :
  let ms' := (backfill_fleet_members lab (next_id member) 60 before).1 in
  one_per_target ms' /\ (backfill_fleet_members lab (next_id member) 60 ms').1 = ms'.
Proof.
  destruct (backfill_mirrors lab 60 (next_id member) (next_id_new member) before one_each) as (H1 & _ & _ & _ & H2). split; [exact H1|exact H2].
Defined.

Lemma reconciled_labels_witness : exists f,
  _load_target lab ("bare-metal-host", 4) = Ok (Some f) /\ discovered (f_labels f) /\ f_lifecycle f = "provisioning".
Proof.
  assert (Hf : exists f, _load_target lab ("bare-metal-host", 4) = Ok (Some f) /\ f_lifecycle f = "provisioning")
    by (eexists; split; vm_compute; reflexivity).
  destruct Hf as (f & Hf & Hl). exists f. split; [exact Hf|]. split; [|exact Hl].
  exact (proj1 (reconciled_labels lab ("bare-metal-host", 4) f Hf)).
Defined.

Example prod_labels : _load_target lab ("cluster", 1) =
  Ok (Some {| f_labels := list_to_map [("name", "Prod-1"); ("vendor", "aws"); ("region", "eu-west-1"); ("k8s-version", "v1.30");
                                       ("status", "active"); ("has-dpu", "false")];
              f_name := "Prod-1"; f_project := Some 1; f_health := Some "active"; f_lifecycle := "active" |}).
Proof. vm_compute. reflexivity. Qed.
End Example.
