(* ===== verification/FleetTarget.v ===== *)
(** * Targets, decisions and the start of bulk runs (services/fleet_selector.py,
      services/fleet_rbac.py, routes/fleet.py)

    A target selects members of the fleet by labels, or names them; resolving it
    writes a decision, a snapshot of the ids, and a bulk run is started on a
    decision.  [tdb] adds the targets and the projects to FleetBulkOp.v's tables.
    Every route is a function of the tables and the user; the session of a route
    that raises is rolled back to its last commit.

    [new_id] is the id the database gives a new row, [now] the time in seconds.
    The texts of descriptions and errors, who created a row and the answers'
    other columns are left out; so is the id of the Celery task. *)

From Stdlib Require Import Ascii.
From S2P Require Import Prelude Texts FleetBulkOp FleetReconcile.

#[local] Open Scope string_scope.
#[local] Open Scope list_scope.
#[local] Open Scope Z_scope.
#[local] Set Default Proof Using "Type".

(** ** Tables *)

(** [selector]: a JSON object. *)
Record target := {
  tg_project : option Z;
  tg_name : string;
  selector : list (string * json);
  pinned_member_ids : list Z;
  tg_deleted : bool
}.

Record project_row := {
  owner : option Z;
  fleet_default_concurrency : option Z;
  fleet_default_gate_mode : option string
}.

(** [role]: the one in force for the request. *)
Record user := { user_id : Z; role : string }.

Record tdb := {
  core : fleet;
  targets : gmap Z target;
  projects : gmap Z project_row
}.

Definition set_core (f : fleet) (b : tdb) : tdb := {| core := f; targets := targets b; projects := projects b |}.
Definition set_targets (g : gmap Z target -> gmap Z target) (b : tdb) : tdb :=
  {| core := core b; targets := g (targets b); projects := projects b |}.
Definition set_strategies (g : gmap Z strategy -> gmap Z strategy) (f : fleet) : fleet :=
  {| members := members f; decisions := decisions f; runs := runs f; results := results f; strategies := g (strategies f) |}.

Inductive fleet_exc :=
| NotFoundError (what : string) (id : Z)
| BadRequestError (why : string)
| ValidationError (field : string)
| ForbiddenError
| InternalError.
#[global] Instance fleet_exc_eq_dec : EqDecision fleet_exc.
Proof. solve_decision. Defined.

(** ** Selectors *)

Definition FORBIDDEN_SELECTOR_KEYS : list string := ["project_id"; "member_id"; "member_type"].

(** [f.partition("=")] of a filter that has an "="; a filter that is no text
    fails on one of the two. *)
Definition filter_pair (f : json) : result fleet_exc (option (string * string)) :=
  match f with
  | JStr s => Ok (partition "="%char s)
  | JList l => if existsb (fun j => match j with JStr s => String.eqb s "=" | _ => false end) l
               then Err InternalError else Ok None
  | JObj fields => if existsb (fun kv => String.eqb kv.1 "=") fields then Err InternalError else Ok None
  | _ => Err InternalError
  end.

Definition combined_labels (m : member) : gmap string string := assigned_labels m ∪ discovered_labels m.

Fixpoint matches_selector (m : member) (label_filters : list json) : result fleet_exc bool :=
  match label_filters with
  | [] => Ok true
  | f :: label_filters =>
      match filter_pair f with
      | Err e => Err e
      | Ok None => matches_selector m label_filters
      | Ok (Some (key, value)) =>
          if bool_decide (combined_labels m !! key = Some value) then matches_selector m label_filters else Ok false
      end
  end.

Fixpoint check_filters (label_filters : list json) : result fleet_exc unit :=
  match label_filters with
  | [] => Ok tt
  | f :: label_filters =>
      match filter_pair f with
      | Err e => Err e
      | Ok None => check_filters label_filters
      | Ok (Some (key, _)) =>
          if bool_decide (key ∈ FORBIDDEN_SELECTOR_KEYS) then Err (ValidationError "selector")
          else check_filters label_filters
      end
  end.

(** [selector.get("labels") or []] *)
Definition labels_of (sel : list (string * json)) : json :=
  match dget "labels" sel with Some v => if truthy v then v else JList [] | None => JList [] end.

(** [for x in j]: the items of a list, the characters of a text, the keys of a dict. *)
Definition py_iter (j : json) : result fleet_exc (list json) :=
  match j with
  | JList l => Ok l
  | JStr s => Ok ((fun c => JStr (String c "")) <$> String.list_ascii_of_string s)
  | JObj fields => Ok (JStr <$> fields.*1)
  | _ => Err InternalError
  end.

(** Answers the filters too. *)
Definition validate_selector (sel : list (string * json)) : result fleet_exc (list json) :=
  match labels_of sel with
  | JList l => _ ← check_filters l; Ok l
  | _ => Err (ValidationError "selector.labels")
  end.

(** ** Ownership *)

Definition is_admin (u : user) : bool := String.eqb (role u) "admin".

Definition require_operator (u : user) : result fleet_exc unit :=
  ensure (bool_decide (role u ∈ ["admin"; "operator"])) ForbiddenError.

Definition _check_ownership (u : user) (pr : project_row) : result fleet_exc unit :=
  if is_admin u then Ok tt
  else match owner pr with
       | None => Ok tt
       | Some o => ensure (Z.eqb o (user_id u)) ForbiddenError
       end.

Fixpoint check_projects (u : user) (b : tdb) (seen : list Z) (project_ids : list (option Z)) : result fleet_exc unit :=
  match project_ids with
  | [] => Ok tt
  | None :: project_ids => check_projects u b seen project_ids
  | Some pid :: project_ids =>
      if bool_decide (pid ∈ seen) then check_projects u b seen project_ids
      else
        match projects b !! pid with
        | None => check_projects u b (pid :: seen) project_ids
        | Some pr => _ ← _check_ownership u pr; check_projects u b (pid :: seen) project_ids
        end
  end.

Definition require_fleet_mutation (project_ids : list (option Z)) (u : user) (b : tdb) : result fleet_exc unit :=
  check_projects u b [] project_ids.

(** The one value of a set, else the system's. *)
Definition agreed {A} `{Countable A} (vs : gset A) (fallback : A) : A :=
  match elements vs with [v] => v | _ => fallback end.

Definition resolve_rollout_defaults (b : tdb) (project_ids : list (option Z)) : Z * string :=
  let rows := omap (fun pid => pid ≫= fun i => projects b !! i) project_ids in
  (agreed (list_to_set (omap fleet_default_concurrency rows) : gset Z) 5,
   agreed (list_to_set (omap fleet_default_gate_mode rows) : gset string) "manual").

Section fleet.
Context {SO : SetOrder Z} (new_id : forall R, gmap Z R -> Z) (now : Z).

(** [None]: an admin, who sees all. *)
Definition _get_owned_project_ids (u : user) (b : tdb) : option (list Z) :=
  if is_admin u then None
  else Some (select (fun _ pr => bool_decide (owner pr = Some (user_id u))) (projects b)).*1.

Definition in_scope (owned : option (list Z)) (m : member) : bool :=
  match owned with
  | None => true
  | Some l => match m_project m with Some p => bool_decide (p ∈ l) | None => false end
  end.

(** [[m for m in query.all() if matches_selector(m, label_filters)]] *)
Fixpoint matching (label_filters : list json) (ms : list (Z * member)) : result fleet_exc (list Z) :=
  match ms with
  | [] => Ok []
  | (i, m) :: ms =>
      match matches_selector m label_filters, matching label_filters ms with
      | Ok ok, Ok rest => Ok (if ok then i :: rest else rest)
      | Err e, _ => Err e
      | _, Err e => Err e
      end
  end.

(** A pinned member that is there and not among the matched ones. *)
Definition add_pinned (b : tdb) (matched : list Z) (pid : Z) : list Z :=
  if bool_decide (pid ∈ matched) then matched
  else match members (core b) !! pid with Some _ => matched ++ [pid] | None => matched end.

(** The same in one query, in the order of the database. *)
Definition with_extra (b : tdb) (matched pinned : list Z) : list Z :=
  matched ++ (select (fun i _ => bool_decide (i ∈ pinned) && negb (bool_decide (i ∈ matched))) (members (core b))).*1.

(** The members of a target: none without a filter and a pin. *)
Definition target_members (join : list Z -> list Z -> list Z) (scope : option (list Z)) (label_filters : list json)
    (pinned : list Z) (b : tdb) : result fleet_exc (list Z) :=
  if bool_decide (label_filters = []) && bool_decide (pinned = []) then Ok []
  else
    matched ← (if bool_decide (label_filters = []) then Ok []
               else matching label_filters (select (fun _ m => in_scope scope m) (members (core b))));
    Ok (join matched pinned).

(** ** Decisions *)

Definition supersede (tid : Z) : gmap Z decision -> gmap Z decision :=
  fmap (fun d => if bool_decide (target_id d = tid) && bool_decide (d_status d = RESOLVED)
                 then decision_with SUPERSEDED d else d).

(** The new row, and the ones it replaces. *)
Definition decision_from_member_ids (tid : Z) (t : target) (ids : list Z) (b : tdb) : tdb * Z :=
  let ds := supersede tid (decisions (core b)) in
  let did := new_id _ ds in
  (set_core (set_decisions (fun _ => <[did := {| target_id := tid; d_project := tg_project t; resolved_member_ids := ids;
                                                 resolved_at := now; d_status := RESOLVED |}]> ds) (core b)) b, did).

Definition resolve_target (u : user) (tid : Z) (t : target) (b : tdb) : result fleet_exc (tdb * Z) :=
  label_filters ← validate_selector (selector t);
  ids ← target_members (foldl (add_pinned b)) (_get_owned_project_ids u b) label_filters (pinned_member_ids t) b;
  Ok (decision_from_member_ids tid t ids b).

(** ** Targets *)

(** A row that is not deleted. *)
Definition live_target (tid : Z) (b : tdb) : result fleet_exc target :=
  match targets b !! tid with
  | Some t => if tg_deleted t then Err (NotFoundError "FleetTarget" tid) else Ok t
  | None => Err (NotFoundError "FleetTarget" tid)
  end.

(** What a request changes, or the exception that leaves the tables. *)
Definition committed {A} (b : tdb) (r : result fleet_exc (tdb * A)) : tdb * result fleet_exc A :=
  match r with Ok (b', a) => (b', Ok a) | Err e => (b, Err e) end.

Record target_request := {
  tq_project : option Z;
  tq_name : option string;
  tq_selector : option (list (string * json));
  tq_pinned : option (list Z)
}.

(** The request's pinned members are not used. *)
Definition create_fleet_target (u : user) (body : target_request) (b : tdb) : tdb * result fleet_exc Z :=
  committed b (
    _ ← require_operator u;
    let sel := default [] (tq_selector body) in
    _ ← validate_selector sel;
    let tid := new_id _ (targets b) in
    Ok (set_targets <[tid := {| tg_project := tq_project body; tg_name := default "" (tq_name body); selector := sel;
                                pinned_member_ids := []; tg_deleted := false |}]> b, tid)).

Definition update_fleet_target (u : user) (tid : Z) (body : target_request) (b : tdb) : tdb * result fleet_exc unit :=
  committed b (
    _ ← require_operator u;
    t ← live_target tid b;
    _ ← require_fleet_mutation [tg_project t] u b;
    sel ← match tq_selector body with
          | Some sel => _ ← validate_selector sel; Ok sel
          | None => Ok (selector t)
          end;
    Ok (set_targets <[tid := {| tg_project := tg_project t; tg_name := default (tg_name t) (tq_name body); selector := sel;
                                pinned_member_ids := default (pinned_member_ids t) (tq_pinned body);
                                tg_deleted := false |}]> b, tt)).

Definition delete_fleet_target (u : user) (tid : Z) (b : tdb) : tdb * result fleet_exc unit :=
  committed b (
    _ ← require_operator u;
    t ← live_target tid b;
    _ ← require_fleet_mutation [tg_project t] u b;
    Ok (set_targets <[tid := {| tg_project := tg_project t; tg_name := tg_name t; selector := selector t;
                                pinned_member_ids := pinned_member_ids t; tg_deleted := true |}]> b, tt)).

Definition resolve_fleet_target (u : user) (tid : Z) (b : tdb) : tdb * result fleet_exc Z :=
  committed b (
    _ ← require_operator u;
    t ← live_target tid b;
    resolve_target u tid t b).

(** ** Looking at a fleet *)

(** The count, and the first members. *)
Definition preview_selector (u : user) (sel : list (string * json)) (pinned : list Z) (b : tdb)
    : result fleet_exc (nat * list Z) :=
  label_filters ← validate_selector sel;
  ids ← target_members (with_extra b) (_get_owned_project_ids u b) label_filters pinned b;
  Ok (length ids, take 25 ids).

Definition stored_filters (t : target) : result fleet_exc (list json) := py_iter (labels_of (selector t)).

Definition get_fleet_members_by_fleet (u : user) (tid : Z) (b : tdb) : result fleet_exc (list Z) :=
  t ← live_target tid b;
  label_filters ← stored_filters t;
  target_members (with_extra b) (_get_owned_project_ids u b) label_filters (pinned_member_ids t) b.

(** ** Strategies *)

Definition STRATEGY_GATE_KINDS : list string := ["approval"; "timed_wait"; "health_stable"].
Definition GATE_MODES : list string := ["health_stable"; "manual"].

Definition _validate_strategy_fields (wave_by : string) (pct : Z) (kind : string) (wait : option Z) : result fleet_exc unit :=
  _ ← ensure (String.eqb wave_by "fault_domain" ||
              match after_prefix "label:" wave_by with Some key => negb (String.eqb key "") | None => false end)
        (BadRequestError "wave_by");
  _ ← ensure ((1 <=? pct) && (pct <=? 100)) (BadRequestError "max_concurrency_pct");
  _ ← ensure (bool_decide (kind ∈ STRATEGY_GATE_KINDS)) (BadRequestError "gate_kind");
  ensure (negb (String.eqb kind "timed_wait") || match wait with Some w => 1 <=? w | None => false end)
    (BadRequestError "gate_wait_seconds").

Record strategy_request := {
  sq_project : option Z;
  sq_target : option Z;
  sq_wave_by : option string;
  sq_pct : option Z;
  sq_kind : option string;
  sq_wait : option Z
}.

Definition live_strategy (sid : Z) (b : tdb) : result fleet_exc strategy :=
  match strategies (core b) !! sid with
  | Some s => if st_deleted s then Err (NotFoundError "FleetOperationStrategy" sid) else Ok s
  | None => Err (NotFoundError "FleetOperationStrategy" sid)
  end.

Definition put_strategy (sid : Z) (s : strategy) (b : tdb) : tdb :=
  set_core (set_strategies <[sid := s]> (core b)) b.

Definition create_fleet_strategy (u : user) (body : strategy_request) (b : tdb) : tdb * result fleet_exc Z :=
  committed b (
    _ ← require_operator u;
    let wave := default "fault_domain" (sq_wave_by body) in
    let pct := default 20 (sq_pct body) in
    let kind := default "approval" (sq_kind body) in
    _ ← _validate_strategy_fields wave pct kind (sq_wait body);
    let sid := new_id _ (strategies (core b)) in
    Ok (put_strategy sid {| st_project := sq_project body; st_target := sq_target body; st_wave_by := wave;
                            max_concurrency_pct := Some pct; gate_kind := kind; gate_wait_seconds := sq_wait body;
                            st_deleted := false |} b, sid)).

Definition update_fleet_strategy (u : user) (sid : Z) (body : strategy_request) (b : tdb) : tdb * result fleet_exc unit :=
  committed b (
    _ ← require_operator u;
    s ← live_strategy sid b;
    _ ← require_fleet_mutation [st_project s] u b;
    let wave := default (st_wave_by s) (sq_wave_by body) in
    let pct := default (default 0 (max_concurrency_pct s)) (sq_pct body) in
    let kind := default (gate_kind s) (sq_kind body) in
    let wait := match sq_wait body with Some w => Some w | None => gate_wait_seconds s end in
    _ ← _validate_strategy_fields wave pct kind wait;
    Ok (put_strategy sid {| st_project := st_project s;
                            st_target := match sq_target body with Some t => Some t | None => st_target s end;
                            st_wave_by := wave; max_concurrency_pct := Some pct; gate_kind := kind;
                            gate_wait_seconds := wait; st_deleted := false |} b, tt)).

Definition delete_fleet_strategy (u : user) (sid : Z) (b : tdb) : tdb * result fleet_exc unit :=
  committed b (
    _ ← require_operator u;
    s ← live_strategy sid b;
    _ ← require_fleet_mutation [st_project s] u b;
    Ok (put_strategy sid {| st_project := st_project s; st_target := st_target s; st_wave_by := st_wave_by s;
                            max_concurrency_pct := max_concurrency_pct s; gate_kind := gate_kind s;
                            gate_wait_seconds := gate_wait_seconds s; st_deleted := true |} b, tt)).

(** ** Bulk runs *)

Definition pending_run (did : Z) (project : option Z) (act : string) (params : option (gmap string string))
    (waves : string) (conc : Z) (gate : string) : run :=
  {| decision_id := did; r_project := project; action := act; action_params := params; wave_by := waves;
     concurrency := conc; gate_mode := gate; strategy_id := None; r_status := B_PENDING; current_wave_index := 0;
     total_waves := None; error_message := None; gate_resumes_at := None; started_at := None; completed_at := None |}.

(** The columns a strategy sets. *)
Definition with_strategy (sid : option Z) (waves gate : string) (r : run) : run :=
  {| decision_id := decision_id r; r_project := r_project r; action := action r; action_params := action_params r;
     wave_by := waves; concurrency := concurrency r; gate_mode := gate; strategy_id := sid; r_status := r_status r;
     current_wave_index := current_wave_index r; total_waves := total_waves r; error_message := error_message r;
     gate_resumes_at := gate_resumes_at r; started_at := started_at r; completed_at := completed_at r |}.

Definition _apply_strategy_snapshot (sid : Z) (s : strategy) : run -> run :=
  with_strategy (Some sid) (st_wave_by s) (if String.eqb (gate_kind s) "approval" then "manual" else gate_kind s).

Definition apply_strategy (sid : option Z) (b : tdb) (r : run) : result fleet_exc run :=
  match sid with
  | None => Ok r
  | Some sid => s ← live_strategy sid b; Ok (_apply_strategy_snapshot sid s r)
  end.

Definition add_run (r : run) (b : tdb) : tdb * Z :=
  let rid := new_id _ (runs (core b)) in (set_core (set_runs <[rid := r]> (core b)) b, rid).

(** The projects of the members, each once. *)
Definition member_projects (ids : list Z) (b : tdb) : list (option Z) :=
  remove_dups ((fun im => m_project im.2) <$> select (fun i _ => bool_decide (i ∈ ids)) (members (core b))).

(** The request's numbers, else those of the projects; both are checked. *)
Definition rollout (conc : option Z) (gate : option string) (project_ids : list (option Z)) (b : tdb)
    : result fleet_exc (Z * string) :=
  let '(default_concurrency, default_gate_mode) := resolve_rollout_defaults b project_ids in
  let gate := default default_gate_mode gate in
  let conc := default default_concurrency conc in
  _ ← ensure (bool_decide (gate ∈ GATE_MODES)) (BadRequestError "gate_mode");
  _ ← ensure (negb ((conc <? 1) || (50 <? conc))) (BadRequestError "concurrency");
  Ok (conc, gate).

Record run_request := {
  rq_action : string;
  rq_params : option (gmap string string);
  rq_concurrency : option Z;
  rq_gate_mode : option string;
  rq_strategy : option Z
}.

(** [body.decision_id] is [did]. *)
Definition start_fleet_bulk_op (u : user) (did : Z) (body : run_request) (b : tdb) : tdb * result fleet_exc Z :=
  committed b (
    _ ← require_operator u;
    _ ← ensure (bool_decide (rq_action body ∈ SAFE_ACTIONS)) (BadRequestError "action");
    d ← match decisions (core b) !! did with Some d => Ok d | None => Err (NotFoundError "FleetDecision" did) end;
    _ ← ensure (bool_decide (d_status d = RESOLVED)) (BadRequestError "decision");
    let project_ids := d_project d :: member_projects (resolved_member_ids d) b in
    _ ← require_fleet_mutation project_ids u b;
    cg ← rollout (rq_concurrency body) (rq_gate_mode body) project_ids b;
    r ← apply_strategy (rq_strategy body) b
          (pending_run did (d_project d) (rq_action body) (rq_params body) "fault_domain" (fst cg) (snd cg));
    Ok (add_run r b)).

(** The ids are not bound to what the user may see; the ownership check is.
    The decision is committed before the strategy is looked up. *)
Definition run_fleet_selection (u : user) (tid : Z) (member_ids : list Z) (body : run_request) (b : tdb)
    : tdb * result fleet_exc Z :=
  let checked : result fleet_exc (target * list Z * (Z * string)) :=
    _ ← require_operator u;
    t ← live_target tid b;
    label_filters ← stored_filters t;
    fleet_ids ← target_members (with_extra b) None label_filters (pinned_member_ids t) b;
    let ids := filter (fun i => i ∈ fleet_ids) member_ids in
    _ ← ensure (negb (bool_decide (ids = []))) (BadRequestError "member_ids");
    _ ← ensure (bool_decide (rq_action body ∈ SAFE_ACTIONS)) (BadRequestError "action");
    let project_ids := tg_project t :: member_projects ids b in
    _ ← require_fleet_mutation project_ids u b;
    cg ← rollout (rq_concurrency body) (rq_gate_mode body) project_ids b;
    Ok (t, ids, cg) in
  match checked with
  | Err e => (b, Err e)
  | Ok (t, ids, (conc, gate)) =>
      let '(b, did) := decision_from_member_ids tid t ids b in
      committed b (
        r ← apply_strategy (rq_strategy body) b
              (pending_run did (tg_project t) (rq_action body) (rq_params body) "fault_domain" conc gate);
        Ok (add_run r b))
  end.

(** [original.x or default] *)
Definition or_text (s fallback : string) : string := if String.eqb s "" then fallback else s.
Definition or_number (n fallback : Z) : Z := if n =? 0 then fallback else n.

(** The ownership check is of the old decision's members; the new decision is
    committed before the run is written. *)
Definition rerun_fleet_bulk_op (u : user) (rid : Z) (b : tdb) : tdb * result fleet_exc Z :=
  let checked : result fleet_exc (run * list (option Z) * (tdb * Z)) :=
    _ ← require_operator u;
    r ← match runs (core b) !! rid with Some r => Ok r | None => Err (NotFoundError "FleetBulkRun" rid) end;
    _ ← ensure (terminal_run (r_status r)) (BadRequestError "status");
    d ← match decisions (core b) !! decision_id r with
        | Some d => Ok d
        | None => Err (NotFoundError "FleetDecision" (decision_id r))
        end;
    t ← live_target (target_id d) b;
    let project_ids := r_project r :: member_projects (resolved_member_ids d) b in
    _ ← require_fleet_mutation project_ids u b;
    bd ← resolve_target u (target_id d) t b;
    Ok (r, project_ids, bd) in
  match checked with
  | Err e => (b, Err e)
  | Ok (r, project_ids, (b, did)) =>
      let '(conc, gate) := resolve_rollout_defaults b project_ids in
      let r' := pending_run did (r_project r) (action r) (action_params r) (or_text (wave_by r) "fault_domain")
                  (or_number (concurrency r) conc) (or_text (gate_mode r) gate) in
      let r' := match strategy_id r with
                | None => r'
                | Some sid =>
                    match live_strategy sid b with
                    | Ok s => _apply_strategy_snapshot sid s r'
                    | Err _ => with_strategy (Some sid) (wave_by r') (gate_mode r') r'
                    end
                end in
      let '(b, rid') := add_run r' b in (b, Ok rid')
  end.

(** ** Labels of one member *)

Definition update_assigned_labels (u : user) (mid : Z) (labels : gmap string string) (b : tdb) : tdb * result fleet_exc unit :=
  committed b (
    _ ← require_operator u;
    _ ← ensure (validate_assigned_labels labels) (ValidationError "labels");
    m ← match members (core b) !! mid with Some m => Ok m | None => Err (NotFoundError "FleetMember" mid) end;
    _ ← require_fleet_mutation [m_project m] u b;
    Ok (set_core (set_members (<[mid := set_labels labels m]> (members (core b))) (core b)) b, tt)).
End fleet.

(** ** What a selector selects *)

Definition readable (label_filters : list json) : Prop := forall f, f ∈ label_filters -> exists o, filter_pair f = Ok o.

(** The member has every pair the filters ask for. *)
Definition selected (m : member) (label_filters : list json) : Prop := forall f k v,
  f ∈ label_filters -> filter_pair f = Ok (Some (k, v)) -> combined_labels m !! k = Some v.

Lemma check_filters_spec l : check_filters l = Ok tt <->
  readable l /\ forall f k v, f ∈ l -> filter_pair f = Ok (Some (k, v)) -> k ∉ FORBIDDEN_SELECTOR_KEYS.
Proof.
  induction l as [|f l IH]; cbn [check_filters].
  { split; [|done]. intros _. split; [intros f []%elem_of_nil|intros f k v []%elem_of_nil]. }
  unfold readable in *. setoid_rewrite (elem_of_cons l).
  destruct (filter_pair f) as [[[k v]|]|e] eqn:Hf; [case_bool_decide as Hk| |].
  - split; [done|]. intros [_ H]. by destruct (H f k v (or_introl eq_refl) Hf).
  - rewrite IH. split; intros [H1 H2]; (split; [|intros g k' v' Hg E]).
    + intros g [-> |Hg]; [eauto|by apply H1].
    + destruct Hg as [-> |Hg]; [rewrite Hf in E; by simplify_eq|by apply (H2 g k' v')].
    + intros g Hg. apply H1. by right.
    + apply (H2 g k' v'); [by right|done].
  - rewrite IH. split; intros [H1 H2]; (split; [|intros g k' v' Hg E]).
    + intros g [-> |Hg]; [eauto|by apply H1].
    + destruct Hg as [-> |Hg]; [rewrite Hf in E; by simplify_eq|by apply (H2 g k' v')].
    + intros g Hg. apply H1. by right.
    + apply (H2 g k' v'); [by right|done].
  - split; [done|]. intros [H _]. destruct (H f) as [o Ho]; [by left|congruence].
Qed.

Lemma validate_selector_spec sel l : validate_selector sel = Ok l -> labels_of sel = JList l /\ check_filters l = Ok tt.
Proof.
  unfold validate_selector. destruct (labels_of sel) as [| | | |l'|]; try done.
  destruct (check_filters l') as [[]|] eqn:E; intros [= <-]. by split.
Qed.

Lemma validated_readable sel l : validate_selector sel = Ok l -> readable l.
Proof. intros H. apply validate_selector_spec in H as [_ H]. by apply check_filters_spec in H as [H _]. Qed.

Lemma selected_cons m f l : selected m (f :: l) <->
  (forall k v, filter_pair f = Ok (Some (k, v)) -> combined_labels m !! k = Some v) /\ selected m l.
Proof.
  split.
  - intros H. split; [intros k v; apply H; left|]. intros g k v Hg. apply H. by right.
  - intros [H1 H2] g k v [-> |Hg]%elem_of_cons; [apply H1|by apply H2].
Qed.

Lemma matches_selector_spec m l : readable l ->
  exists ok, matches_selector m l = Ok ok /\ (ok = true <-> selected m l).
Proof.
  induction l as [|f l IH]; intros Hl; cbn [matches_selector].
  { exists true. split; [done|]. split; [|done]. intros _ f k v []%elem_of_nil. }
  destruct IH as (ok & Hok & Hs); [intros g Hg; apply Hl; by right|].
  destruct (Hl f) as [o Ho]; [left|]. setoid_rewrite selected_cons. rewrite Ho. destruct o as [[k v]|].
  - case_bool_decide as Hk; [exists ok; split; [done|]; rewrite Hs|exists false; split; [done|]; split; [done|]].
    + split; [|by intros [_ ?]]. intros H. split; [|done]. intros k' v' [= <- <-]. exact Hk.
    + intros [Hsel _]. by destruct Hk; apply Hsel.
  - exists ok. split; [done|]. rewrite Hs. split; [|by intros [_ ?]]. intros H. by split.
Qed.

Section fleet_lemmas.
Context {SO : SetOrder Z}.

Lemma matching_spec l ms : readable l -> exists ids, matching l ms = Ok ids /\
  (forall i, i ∈ ids <-> exists m, (i, m) ∈ ms /\ selected m l) /\ (NoDup ms.*1 -> NoDup ids).
Proof.
  intros Hl. induction ms as [|[i m] ms IH]; cbn [matching].
  { exists []. split; [done|]. split; [|constructor]. intros i. split; [intros []%elem_of_nil|intros (m & []%elem_of_nil & _)]. }
  destruct IH as (ids & -> & Hin & Hnd). destruct (matches_selector_spec m l Hl) as (ok & -> & Hok).
  exists (if ok then i :: ids else ids). split; [done|]. split.
  - intros j. setoid_rewrite elem_of_cons. destruct ok; [rewrite elem_of_cons|]; rewrite Hin.
    + assert (selected m l) by by apply Hok. split.
      * intros [-> |(m' & ? & ?)]; [exists m; by split; [left|]|exists m'; split; [by right|done]].
      * intros (m' & [[= -> ->]|?] & ?); [by left|right; eauto].
    + assert (~ selected m l) by (intros ?%Hok; done). split.
      * intros (m' & ? & ?); exists m'; split; [by right|done].
      * intros (m' & [[= -> ->]|?] & ?); [done|eauto].
  - rewrite fmap_cons. intros [Hi Hn]%NoDup_cons. destruct ok; [|by apply Hnd]. apply NoDup_cons. split; [|by apply Hnd].
    intros (m' & Hm' & _)%Hin. apply Hi. apply list_elem_of_fmap. by exists (i, m').
Qed.

Lemma add_pinned_spec b pinned : forall matched,
  (NoDup matched -> NoDup (foldl (add_pinned b) matched pinned)) /\
  forall i, i ∈ foldl (add_pinned b) matched pinned <-> i ∈ matched \/ i ∈ pinned /\ is_Some (members (core b) !! i).
Proof.
  induction pinned as [|p pinned IH]; intros matched; cbn [foldl].
  { split; [done|]. intros i. split; [by left|]. by intros [?|[[]%elem_of_nil _]]. }
  assert (Hadd : (NoDup matched -> NoDup (add_pinned b matched p)) /\
    forall i, i ∈ add_pinned b matched p <-> i ∈ matched \/ i = p /\ is_Some (members (core b) !! i)).
  { unfold add_pinned. case_bool_decide as Hp; [|destruct (members (core b) !! p) as [m|] eqn:E].
    - split; [done|]. naive_solver.
    - split; [intros; by apply NoDup_snoc|]. intros i. rewrite elem_of_app, list_elem_of_singleton. naive_solver.
    - split; [done|]. intros i. split; [by left|]. intros [?|[-> [? ?]]]; [done|congruence]. }
  destruct Hadd as [H1 H2], (IH (add_pinned b matched p)) as [H3 H4]. split; [auto|].
  intros i. rewrite H4, H2, elem_of_cons. naive_solver.
Qed.

Lemma with_extra_spec b matched pinned i :
  i ∈ with_extra b matched pinned <-> i ∈ matched \/ i ∈ pinned /\ is_Some (members (core b) !! i).
Proof.
  unfold with_extra. rewrite elem_of_app, list_elem_of_fmap. split.
  - intros [?|([j m] & -> & Hj)]; [by left|]. apply elem_of_select in Hj as [Hm Hb].
    apply andb_true_iff in Hb as [Hb _]. apply bool_decide_eq_true in Hb. right. cbn. by rewrite Hm.
  - intros [?|[Hp [m Hm]]]; [by left|]. destruct (decide (i ∈ matched)); [by left|]. right. exists (i, m). split; [done|].
    apply elem_of_select. split; [done|]. by rewrite bool_decide_true, bool_decide_false.
Qed.

(** The members a target stands for, in the given scope. *)
Definition stands_for (b : tdb) (scope : option (list Z)) (l : list json) (pinned : list Z) (i : Z) : Prop :=
  exists m, members (core b) !! i = Some m /\
    (i ∈ pinned \/ l <> [] /\ in_scope scope m = true /\ selected m l).

Lemma target_members_spec join b scope l pinned :
  (forall matched i, i ∈ join matched pinned <-> i ∈ matched \/ i ∈ pinned /\ is_Some (members (core b) !! i)) ->
  readable l -> exists ids, target_members join scope l pinned b = Ok ids /\
    (forall i, i ∈ ids <-> stands_for b scope l pinned i) /\
    ((forall matched, NoDup matched -> NoDup (join matched pinned)) -> NoDup ids).
Proof.
  intros Hjoin Hl. unfold target_members.
  destruct (bool_decide (l = [])) eqn:El, (bool_decide (pinned = [])) eqn:Ep; cbn [andb];
    try apply bool_decide_eq_true in El; try apply bool_decide_eq_false in El;
    try apply bool_decide_eq_true in Ep; try apply bool_decide_eq_false in Ep.
  - exists []. split; [done|]. split; [|constructor]. intros i. split; [intros []%elem_of_nil|].
    intros (m & _ & [Hi|[? _]]); [subst; by apply elem_of_nil in Hi|done].
  - exists (join [] pinned). split; [done|]. split; [|intros H; apply H; constructor]. intros i. rewrite Hjoin. split.
    + intros [[]%elem_of_nil|[Hp [m Hm]]]. exists m. by split; [|left].
    + intros (m & Hm & [Hp|[? _]]); [|done]. right. by rewrite Hm.
  - destruct (matching_spec l (select (fun _ m => in_scope scope m) (members (core b))) Hl) as (ids & -> & Hin & Hnd).
    exists (join ids pinned). split; [done|]. split; [|intros H; apply H, Hnd, select_NoDup].
    intros i. rewrite Hjoin, Hin. setoid_rewrite elem_of_select. split.
    + intros [(m & [Hm Hs] & Hsel)|[Hp [m Hm]]]; exists m; (split; [done|]); [by right|by left].
    + intros (m & Hm & [Hp|(_ & Hs & Hsel)]); [right; by rewrite Hm|left; by exists m].
  - destruct (matching_spec l (select (fun _ m => in_scope scope m) (members (core b))) Hl) as (ids & -> & Hin & Hnd).
    exists (join ids pinned). split; [done|]. split; [|intros H; apply H, Hnd, select_NoDup].
    intros i. rewrite Hjoin, Hin. setoid_rewrite elem_of_select. split.
    + intros [(m & [Hm Hs] & Hsel)|[Hp [m Hm]]]; exists m; (split; [done|]); [by right|by left].
    + intros (m & Hm & [Hp|(_ & Hs & Hsel)]); [right; by rewrite Hm|left; by exists m].
Qed.
End fleet_lemmas.

(** ** Who may change what *)

(** The user may change what belongs to the project: as an admin, as its owner,
    or because nobody owns it. *)
Definition may_mutate (u : user) (b : tdb) (pid : option Z) : Prop :=
  is_admin u = true \/
  match pid ≫= fun p => projects b !! p ≫= owner with
  | None => True
  | Some o => o = user_id u
  end.

Lemma check_projects_spec u b pids : forall seen, (forall p, p ∈ seen -> may_mutate u b (Some p)) ->
  check_projects u b seen pids = Ok tt <-> forall pid, pid ∈ pids -> may_mutate u b pid.
Proof.
  induction pids as [|[p|] pids IH]; intros seen Hseen; cbn [check_projects].
  - split; [intros _ pid []%elem_of_nil|done].
  - case_bool_decide as Hp; [|destruct (projects b !! p) as [pr|] eqn:Hpr].
    + rewrite (IH seen Hseen). split; [intros H pid [-> |?]%elem_of_cons; [by apply Hseen|by apply H]|].
      intros H pid Hpid. apply H. by right.
    + assert (Hown : _check_ownership u pr = Ok tt <-> may_mutate u b (Some p)).
      { unfold _check_ownership, may_mutate. cbn. rewrite Hpr. cbn. destruct (is_admin u); [split; [by left|done]|].
        destruct (owner pr) as [o|]; [rewrite ensure_Ok, Z.eqb_eq|]; (split; [by right|intros [?|?]; done]). }
      rewrite bind_Ok. split.
      * intros ([] & H1%Hown & H2) pid [-> |Hpid]%elem_of_cons; [done|]. revert pid Hpid. apply (IH (p :: seen)); [|done].
        intros q [-> |?]%elem_of_cons; [done|by apply Hseen].
      * intros H. exists tt. split; [apply Hown, H; left|]. apply IH; [|intros pid Hpid; apply H; by right].
        intros q [-> |?]%elem_of_cons; [apply H; left|by apply Hseen].
    + assert (Hm : may_mutate u b (Some p)) by (right; cbn; by rewrite Hpr).
      rewrite IH by (intros q [-> |?]%elem_of_cons; [done|by apply Hseen]). split.
      * intros H pid [-> |?]%elem_of_cons; [done|by apply H].
      * intros H pid Hpid. apply H. by right.
  - rewrite (IH seen Hseen). split; [intros H pid [-> |?]%elem_of_cons; [by right|by apply H]|].
    intros H pid Hpid. apply H. by right.
Qed.

Lemma require_fleet_mutation_spec u b pids :
  require_fleet_mutation pids u b = Ok tt <-> forall pid, pid ∈ pids -> may_mutate u b pid.
Proof. apply check_projects_spec. intros p []%elem_of_nil. Qed.

Lemma committed_Ok {A} b (r : result fleet_exc (tdb * A)) b' a : committed b r = (b', Ok a) <-> r = Ok (b', a).
Proof. unfold committed. destruct r as [[b1 a1]|e]; naive_solver. Qed.

Lemma committed_Err {A} b (r : result fleet_exc (tdb * A)) b' e : committed b r = (b', Err e) <-> b' = b /\ r = Err e.
Proof. unfold committed. destruct r as [[b1 a1]|e1]; naive_solver. Qed.

Section routes.
Context {SO : SetOrder Z} (new_id : forall R, gmap Z R -> Z) (now : Z).
Hypothesis FRESH : forall R (t : gmap Z R), t !! new_id R t = None.

Lemma member_projects_spec ids b i m :
  i ∈ ids -> members (core b) !! i = Some m -> m_project m ∈ member_projects ids b.
Proof using.
  intros Hi Hm. unfold member_projects. apply elem_of_remove_dups, list_elem_of_fmap. exists (i, m). split; [done|].
  apply elem_of_select. by rewrite bool_decide_true.
Qed.

Lemma supersede_lookup tid ds i :
  supersede tid ds !! i = (fun d => if bool_decide (target_id d = tid) && bool_decide (d_status d = RESOLVED)
                                    then decision_with SUPERSEDED d else d) <$> ds !! i.
Proof using. apply lookup_fmap. Qed.

(** What writing a decision does to the table. *)
Lemma new_decision tid t ids b b' did :
  decision_from_member_ids new_id now tid t ids b = (b', did) ->
  decisions (core b) !! did = None /\
  decisions (core b') !! did = Some {| target_id := tid; d_project := tg_project t; resolved_member_ids := ids;
                                       resolved_at := now; d_status := RESOLVED |} /\
  (forall j, j <> did -> decisions (core b') !! j = supersede tid (decisions (core b)) !! j) /\
  members (core b') = members (core b) /\ runs (core b') = runs (core b) /\
  strategies (core b') = strategies (core b) /\ results (core b') = results (core b) /\
  targets b' = targets b /\ projects b' = projects b.
Proof using FRESH.
  intros [= <- <-]. cbn. split_and!; try done.
  - pose proof (FRESH _ (supersede tid (decisions (core b)))) as H. rewrite supersede_lookup in H. by destruct (_ !! _).
  - apply lookup_insert_eq.
  - intros j Hj. by apply lookup_insert_ne.
Qed.

(** Resolving a target.  [resolve_fleet_target] answers every operator whose
    target has a valid selector.  The new decision has exactly the members that
    are pinned, or that the operator may see and that carry every label the
    selector asks for, and none when the target asks for nothing; it is the only
    resolved decision of the target, and no decision's members ever change.
    Members, runs and targets are what they were. *)
Theorem resolve_correct u tid t b :
  require_operator u = Ok tt -> targets b !! tid = Some t -> tg_deleted t = false ->
  match resolve_fleet_target new_id now u tid b with
  | (b', Ok did) => exists l d,
      validate_selector (selector t) = Ok l /\
      decisions (core b) !! did = None /\ decisions (core b') !! did = Some d /\
      target_id d = tid /\ d_status d = RESOLVED /\ resolved_at d = now /\
      NoDup (resolved_member_ids d) /\
      (forall i, i ∈ resolved_member_ids d <-> stands_for b (_get_owned_project_ids u b) l (pinned_member_ids t) i) /\
      (forall j dj, j <> did -> decisions (core b) !! j = Some dj -> exists dj', decisions (core b') !! j = Some dj' /\
         resolved_member_ids dj' = resolved_member_ids dj /\
         if bool_decide (target_id dj = tid) then d_status dj' <> RESOLVED else dj' = dj) /\
      members (core b') = members (core b) /\ runs (core b') = runs (core b) /\ targets b' = targets b
  | (b', Err e) => b' = b /\ forall l, validate_selector (selector t) <> Ok l
  end.
Proof using FRESH.
  intros Hu Ht Hdel. unfold resolve_fleet_target, live_target. rewrite Hu, Ht, Hdel. cbn. unfold resolve_target.
  destruct (validate_selector (selector t)) as [l|e] eqn:Hv; [|by split]. cbn.
  destruct (target_members_spec (foldl (add_pinned b)) b (_get_owned_project_ids u b) l (pinned_member_ids t)) as (ids & -> & Hin & Hnd).
  - intros matched i. by apply add_pinned_spec.
  - by eapply validated_readable.
  - cbn [mbind result_bind]. destruct (decision_from_member_ids new_id now tid t ids b) as [b' did] eqn:E. cbn [committed].
    destruct (new_decision tid t ids b b' did E) as (H1 & H2 & H3 & H4 & H5 & _ & _ & H6 & _).
    exists l. eexists. split; [done|]. split; [exact H1|]. split; [exact H2|]. cbn. do 3 (split; [done|]).
    split; [apply Hnd; intros matched; by apply add_pinned_spec|]. split; [exact Hin|]. split; [|done].
    intros j dj Hj Hdj. rewrite (H3 j Hj), supersede_lookup, Hdj. cbn.
    eexists. split; [done|]. destruct (bool_decide (target_id dj = tid)); cbn; [|done].
    case_bool_decide; cbn; done.
Qed.

Definition authorized (u : user) (b : tdb) (ids : list Z) : Prop := forall i m,
  i ∈ ids -> members (core b) !! i = Some m -> may_mutate u b (m_project m).

Lemma mutation_authorized u b p ids :
  require_fleet_mutation (p :: member_projects ids b) u b = Ok tt -> may_mutate u b p /\ authorized u b ids.
Proof using.
  rewrite require_fleet_mutation_spec. intros H. split; [apply H; left|]. intros i m Hi Hm. apply H. right.
  by eapply member_projects_spec.
Qed.

Lemma apply_strategy_keeps sid b r r' : apply_strategy sid b r = Ok r' ->
  decision_id r' = decision_id r /\ action r' = action r /\ r_status r' = r_status r /\
  current_wave_index r' = current_wave_index r /\ concurrency r' = concurrency r.
Proof using.
  unfold apply_strategy. destruct sid as [sid|]; [|by intros [= ->]]. intros H. ok_steps H. by injection H as <-.
Qed.

Lemma started_rows u did body b b' rid :
  start_fleet_bulk_op new_id u did body b = (b', Ok rid) -> exists r d,
    runs (core b) !! rid = None /\ b' = set_core (set_runs <[rid := r]> (core b)) b /\
    decision_id r = did /\ decisions (core b) !! did = Some d /\ d_status d = RESOLVED /\
    action r ∈ SAFE_ACTIONS /\ r_status r = B_PENDING /\ current_wave_index r = 0 /\ authorized u b (resolved_member_ids d).
Proof using FRESH.
  unfold start_fleet_bulk_op. rewrite committed_Ok. intros H. ok_steps H.
  apply ensure_Ok, bool_decide_eq_true in Hx0. destruct (decisions (core b) !! did) as [d|] eqn:Hd; [|done].
  injection Hx1 as <-. apply ensure_Ok, bool_decide_eq_true in Hx2. destruct x3. apply mutation_authorized in Hx3 as [_ Ha].
  apply apply_strategy_keeps in Hx5 as (E1 & E2 & E3 & E4 & _). injection H as <- <-.
  exists x5, d. rewrite E1, E2, E3, E4. split; [apply FRESH|]. done.
Qed.

Lemma selected_rows u tid ids body b b' rid :
  run_fleet_selection new_id now u tid ids body b = (b', Ok rid) -> exists r t l did ids' b1,
    targets b !! tid = Some t /\ stored_filters t = Ok l /\
    target_members (with_extra b) None l (pinned_member_ids t) b = Ok ids' /\
    decision_from_member_ids new_id now tid t (filter (fun i => i ∈ ids') ids) b = (b1, did) /\
    b' = set_core (set_runs <[rid := r]> (core b1)) b1 /\ runs (core b) !! rid = None /\ decision_id r = did /\
    action r ∈ SAFE_ACTIONS /\ r_status r = B_PENDING /\ current_wave_index r = 0 /\
    authorized u b (filter (fun i => i ∈ ids') ids).
Proof using FRESH.
  unfold run_fleet_selection. set (checked := _ ≫= _). destruct checked as [[[t ids1] [conc gate]]|e] eqn:Hc; [|done].
  subst checked. ok_steps Hc. unfold live_target in Hx0. destruct (targets b !! tid) as [t'|] eqn:Ht; [|done].
  destruct (tg_deleted t'); [done|]. injection Hx0 as <-. apply ensure_Ok, bool_decide_eq_true in Hx4.
  destruct x5. apply mutation_authorized in Hx5 as [_ Ha]. injection Hc as <- <- ->.
  destruct (decision_from_member_ids _ _ _ _ _ _) as [b1 did] eqn:Hd. rewrite committed_Ok. intros H. ok_steps H.
  apply apply_strategy_keeps in Hx0 as (E1 & E2 & E3 & E4 & _). injection H as <- <-.
  destruct (new_decision _ _ _ _ _ _ Hd) as (_ & _ & _ & _ & Hr & _).
  exists x0, t', x1, did, x2, b1. rewrite E1, E2, E3, E4. split_and!; try done. rewrite <- Hr. apply FRESH.
Qed.

(** Starting a run.  When [start_fleet_bulk_op] or [run_fleet_selection] answers
    with a run, its row is new, waits with a safe action on a resolved decision,
    and the user may change the project of every member it will act on.  The run
    of a selection acts on those members of the request that the target stands
    for, and the executor would start it.  A refusal leaves members and runs. *)
Theorem runs_authorized u tid did ids body b :
  (match start_fleet_bulk_op new_id u did body b with
   | (b', Ok rid) => exists r d, runs (core b) !! rid = None /\ runs (core b') = <[rid := r]> (runs (core b)) /\
       members (core b') = members (core b) /\ decisions (core b') !! decision_id r = Some d /\ decision_id r = did /\
       d_status d = RESOLVED /\ r_status r = B_PENDING /\ action r ∈ SAFE_ACTIONS /\ authorized u b (resolved_member_ids d)
   | (b', Err _) => b' = b
   end) /\
  (match run_fleet_selection new_id now u tid ids body b with
   | (b', Ok rid) => exists r d t l, runs (core b) !! rid = None /\ runs (core b') = <[rid := r]> (runs (core b)) /\
       members (core b') = members (core b) /\ decisions (core b') !! decision_id r = Some d /\
       targets b !! tid = Some t /\ stored_filters t = Ok l /\
       (readable l -> forall i, i ∈ resolved_member_ids d <-> i ∈ ids /\ stands_for b None l (pinned_member_ids t) i) /\
       (readable l -> startable now rid (core b')) /\ authorized u b (resolved_member_ids d)
   | (b', Err _) => members (core b') = members (core b) /\ runs (core b') = runs (core b)
   end).
Proof using FRESH.
  split.
  - destruct (start_fleet_bulk_op _ _ _ _ _) as [b' [rid|e]] eqn:E.
    + apply started_rows in E as (r & d & Hr & -> & <- & Hd & Hds & Hact & Hst & _ & Ha). exists r, d. by split_and!.
    + unfold start_fleet_bulk_op in E. by apply committed_Err in E as [-> _].
  - destruct (run_fleet_selection _ _ _ _ _ _ _) as [b' [rid|e]] eqn:E.
    + apply selected_rows in E as (r & t & l & did' & ids' & b1 & Ht & Hl & Hids & Hd & -> & Hr & Hdid & Hact & Hst & _ & Ha).
      destruct (new_decision _ _ _ _ _ _ Hd) as (_ & Hrow & _ & Hm & Hruns & _). subst did'.
      eexists r, _, t, l. split; [done|]. split; [cbn; by rewrite Hruns|]. split; [done|]. split; [exact Hrow|].
      do 2 (split; [done|]). cbn [resolved_member_ids].
      assert (Hmem : readable l -> forall i, i ∈ filter (fun i => i ∈ ids') ids <-> i ∈ ids /\ stands_for b None l (pinned_member_ids t) i).
      { intros Hrl i. rewrite list_elem_of_filter.
        destruct (target_members_spec (with_extra b) b None l (pinned_member_ids t)) as (ids2 & E2 & Hin & _);
          [intros; apply with_extra_spec|done|].
        rewrite Hids in E2. injection E2 as <-. rewrite Hin. tauto. }
      split; [exact Hmem|]. split; [|exact Ha]. intros Hrl. eexists r, _. cbn [core set_core runs set_runs].
      rewrite lookup_insert_eq. split; [done|]. split; [exact Hrow|]. split; [by left|]. split; [done|].
      split; [done|]. split; [cbn; unfold DECISION_TTL_SECONDS; lia|]. apply Forall_forall. cbn. intros i Hi.
      apply (Hmem Hrl) in Hi as (_ & m & Hm' & _). rewrite Hm. congruence.
    + unfold run_fleet_selection in E. destruct (_ ≫= _) as [[[t ids1] [conc gate]]|e1]; [|by injection E as <- _].
      destruct (decision_from_member_ids _ _ _ _ _ _) as [b1 did'] eqn:Hd. apply committed_Err in E as [-> _].
      destruct (new_decision _ _ _ _ _ _ Hd) as (_ & _ & _ & -> & -> & _). done.
Qed.

Lemma check_projects_Err u b pids e : forall seen, check_projects u b seen pids = Err e -> e = ForbiddenError.
Proof using.
  induction pids as [|[p|] pids IH]; intros seen; cbn [check_projects]; [done| |by apply IH].
  case_bool_decide; [by apply IH|]. destruct (projects b !! p) as [pr|]; [|by apply IH]. unfold _check_ownership.
  destruct (is_admin u); cbn; [by apply IH|]. destruct (owner pr) as [o|]; cbn; [|by apply IH].
  destruct (o =? user_id u); cbn; [by apply IH|]. by intros [= <-].
Qed.

(** The request that only changes the pinned members. *)
Definition pin (ids : list Z) : target_request :=
  {| tq_project := None; tq_name := None; tq_selector := None; tq_pinned := Some ids |}.

(** Running again on the members of others.  The check of [rerun_fleet_bulk_op]
    is of the old decision's members, and pinned members are resolved whoever
    owns them: an operator who may change a target, and has run something on it,
    pins a member of somebody else's project and runs it again.  The new run
    acts on that member and the executor starts it, although the operator is
    refused a run on the very same decision. *)
Theorem rerun_escapes_ownership u rid r d t l j m body b :
  require_operator u = Ok tt ->
  runs (core b) !! rid = Some r -> terminal_run (r_status r) = true -> action r ∈ SAFE_ACTIONS ->
  decisions (core b) !! decision_id r = Some d -> targets b !! target_id d = Some t -> tg_deleted t = false ->
  validate_selector (selector t) = Ok l ->
  may_mutate u b (tg_project t) -> may_mutate u b (r_project r) -> authorized u b (resolved_member_ids d) ->
  members (core b) !! j = Some m -> ~ may_mutate u b (m_project m) -> rq_action body ∈ SAFE_ACTIONS ->
  exists b1 b2 rid' r' d',
    update_fleet_target u (target_id d) (pin [j]) b = (b1, Ok tt) /\
    rerun_fleet_bulk_op new_id now u rid b1 = (b2, Ok rid') /\
    runs (core b2) !! rid' = Some r' /\ action r' = action r /\
    decisions (core b2) !! decision_id r' = Some d' /\ j ∈ resolved_member_ids d' /\
    startable now rid' (core b2) /\
    start_fleet_bulk_op new_id u (decision_id r') body b2 = (b2, Err ForbiddenError).
Proof using FRESH.
  intros Hu Hr Hterm Hact Hd Ht Hdel Hv Hmt Hmr Ha Hj Hno Hsafe.
  assert (Hupd : exists b1 t1, update_fleet_target u (target_id d) (pin [j]) b = (b1, Ok tt) /\ core b1 = core b /\
    projects b1 = projects b /\ targets b1 !! target_id d = Some t1 /\ tg_deleted t1 = false /\ selector t1 = selector t /\
    pinned_member_ids t1 = [j]).
  { unfold update_fleet_target, live_target. rewrite Hu, Ht, Hdel. cbn [mbind result_bind].
    rewrite (proj2 (require_fleet_mutation_spec u b [tg_project t])) by (by intros pid ->%list_elem_of_singleton).
    eexists _, _. split; [reflexivity|]. cbn. split_and!; [done|done|apply lookup_insert_eq|done..]. }
  destruct Hupd as (b1 & t1 & E1 & Hcore & Hproj & Ht1 & Hdel1 & Hsel1 & Hpin1).
  exists b1. setoid_rewrite E1.
  assert (Hmay : forall pid, may_mutate u b1 pid <-> may_mutate u b pid) by (intros; unfold may_mutate; by rewrite Hproj).
  assert (Hreq : require_fleet_mutation (r_project r :: member_projects (resolved_member_ids d) b1) u b1 = Ok tt).
  { apply require_fleet_mutation_spec. intros pid [-> |Hpid]%elem_of_cons; apply Hmay; [done|].
    unfold member_projects in Hpid. apply elem_of_remove_dups, list_elem_of_fmap in Hpid as ([i mi] & -> & Hi).
    apply elem_of_select in Hi as [Hi Hb]. apply bool_decide_eq_true in Hb. apply (Ha i); [done|]. by rewrite <- Hcore. }
  destruct (target_members_spec (foldl (add_pinned b1)) b1 (_get_owned_project_ids u b1) l [j]) as (ids & Hids & Hin & _);
    [intros; apply add_pinned_spec|by eapply validated_readable|].
  destruct (decision_from_member_ids new_id now (target_id d) t1 ids b1) as [b3 did] eqn:Hdec.
  destruct (new_decision _ _ _ _ _ _ Hdec) as (_ & Hrow & _ & Hmem & Hruns & _ & _ & _ & Hproj3).
  assert (Hjids : j ∈ ids) by (apply Hin; exists m; rewrite Hcore; split; [done|]; left; left).
  assert (Hrun : exists r', rerun_fleet_bulk_op new_id now u rid b1 = (set_core (set_runs <[new_id _ (runs (core b3)) := r']> (core b3)) b3,
      Ok (new_id _ (runs (core b3)))) /\ decision_id r' = did /\ action r' = action r /\ r_status r' = B_PENDING).
  { unfold rerun_fleet_bulk_op, live_target, resolve_target. rewrite Hu, Hcore, Hr. cbn [mbind result_bind].
    rewrite Hterm. cbn [mbind result_bind ensure]. rewrite Hd. cbn [mbind result_bind]. rewrite Ht1, Hdel1. cbn [mbind result_bind].
    rewrite Hreq. cbn [mbind result_bind]. rewrite Hsel1, Hv. cbn [mbind result_bind]. rewrite Hpin1, Hids. cbn [mbind result_bind]. rewrite Hdec. destruct (resolve_rollout_defaults _ _) as [conc gate].
    unfold add_run. destruct (strategy_id r) as [sid|]; [destruct (live_strategy sid b3)|]; by eexists. }
  destruct Hrun as (r' & Hrun & Hdid & Hact' & Hst'). rewrite Hrun.
  set (rid' := new_id _ (runs (core b3))). set (b2 := set_core _ b3).
  exists b2, rid', r', {| target_id := target_id d; d_project := tg_project t1; resolved_member_ids := ids;
                         resolved_at := now; d_status := RESOLVED |}.
  assert (Hrow2 : decisions (core b2) !! did = Some {| target_id := target_id d; d_project := tg_project t1;
     resolved_member_ids := ids; resolved_at := now; d_status := RESOLVED |}) by exact Hrow.
  split; [done|]. split; [done|]. split; [apply lookup_insert_eq|]. split; [done|]. split; [by rewrite Hdid|]. split; [exact Hjids|].
  split.
  - eexists r', _. split; [apply lookup_insert_eq|]. split; [rewrite Hdid; exact Hrow2|]. split; [by left|].
    split; [by rewrite Hact'|]. split; [done|]. split; [cbn; unfold DECISION_TTL_SECONDS; lia|].
    apply Forall_forall. cbn. intros i (mi & Hmi & _)%Hin. rewrite Hmem. congruence.
  - unfold start_fleet_bulk_op. rewrite Hu, Hdid, Hrow2. cbn [mbind result_bind]. rewrite bool_decide_true by done.
    cbn [mbind result_bind ensure d_status resolved_member_ids d_project].
    rewrite bool_decide_true by done. cbn [mbind result_bind ensure].
    destruct (require_fleet_mutation _ u b2) as [[]|e] eqn:E.
    + exfalso. apply mutation_authorized in E as [_ E]. apply Hno. specialize (E j m Hjids).
      unfold may_mutate in E |- *. change (projects b2) with (projects b3) in E. rewrite Hproj3, Hproj in E. apply E.
      change (members (core b2)) with (members (core b3)). by rewrite Hmem, Hcore.
    + cbn [mbind result_bind committed]. by rewrite (check_projects_Err _ _ _ _ _ E).
Qed.
End routes.

(** ** A fleet of two owners *)

Module Example.
#[local] Instance some_order : SetOrder Z := elements_order.

Definition in_project (p : Z) (env : string) (i : Z) : member :=
  {| m_project := Some p; m_target := ("cluster", i); m_name := "c"; discovered_labels := ∅;
     assigned_labels := {["env" := env]}; fault_domain := None; health_status := None;
     lifecycle_state := None; last_reconciled_at := Some 0 |}.

(** The operator owns the members 1 and 3, 2 belongs to somebody else. *)
Definition operator : user := {| user_id := 100; role := "operator" |}.
Definition web : target :=
  {| tg_project := Some 10; tg_name := "web"; selector := [("labels", JList [JStr "env=prod"])]; pinned_member_ids := [];
     tg_deleted := false |}.
Definition old_decision : decision :=
  {| target_id := 1; d_project := Some 10; resolved_member_ids := [1]; resolved_at := 0; d_status := RESOLVED |}.
Definition old_run : run :=
  {| decision_id := 7; r_project := Some 10; action := "set-labels"; action_params := Some {["env" := "z"]};
     wave_by := "fault_domain"; concurrency := 5; gate_mode := "manual"; strategy_id := None; r_status := B_COMPLETED;
     current_wave_index := 0; total_waves := None; error_message := None; gate_resumes_at := None; started_at := None;
     completed_at := None |}.
Definition shared : tdb :=
  {| core := {| members := list_to_map [(1, in_project 10 "prod" 1); (2, in_project 20 "prod" 2); (3, in_project 10 "dev" 3)];
                decisions := {[7 := old_decision]}; runs := {[5 := old_run]}; results := ∅; strategies := ∅ |};
     targets := {[1 := web]};
     projects := list_to_map [(10, {| owner := Some 100; fleet_default_concurrency := None; fleet_default_gate_mode := None |});
                              (20, {| owner := Some 200; fleet_default_concurrency := None; fleet_default_gate_mode := None |})] |}.
Definition relabel : run_request :=
  {| rq_action := "set-labels"; rq_params := Some {["env" := "z"]}; rq_concurrency := None; rq_gate_mode := None;
     rq_strategy := None |}.

Lemma resolve_correct_witness : exists b' did d,
  resolve_fleet_target next_id 60 operator 1 shared = (b', Ok did) /\ decisions (core b') !! did = Some d /\
  resolved_member_ids d = [1] /\ exists dj, decisions (core b') !! 7 = Some dj /\ d_status dj = SUPERSEDED.
Proof.
  assert (E : exists b' did d, resolve_fleet_target next_id 60 operator 1 shared = (b', Ok did) /\
    decisions (core b') !! did = Some d /\ resolved_member_ids d = [1] /\
    exists dj, decisions (core b') !! 7 = Some dj /\ d_status dj = SUPERSEDED)
    by (eexists _, _, _; split; [vm_compute; reflexivity|]; split; [vm_compute; reflexivity|];
        split; [vm_compute; reflexivity|]; eexists; split; vm_compute; reflexivity).
  pose proof (resolve_correct next_id 60 next_id_new operator 1 web shared eq_refl eq_refl eq_refl) as H.
  destruct E as (b' & did & d & E & Hd & Hrest). rewrite E in H. destruct H as (l & d' & _ & _ & Hd' & _).
  exists b', did, d'. split; [exact E|]. split; [exact Hd'|]. rewrite Hd in Hd'. injection Hd' as <-. exact Hrest.
Defined.

Lemma runs_authorized_witness : exists b' rid r d,
  start_fleet_bulk_op next_id operator 7 relabel shared = (b', Ok rid) /\ runs (core b') !! rid = Some r /\
  decisions (core b') !! decision_id r = Some d /\ r_status r = B_PENDING.
Proof.
  assert (E : exists b' rid, start_fleet_bulk_op next_id operator 7 relabel shared = (b', Ok rid))
    by (eexists _, _; vm_compute; reflexivity).
  destruct E as (b' & rid & E).
  pose proof (proj1 (runs_authorized next_id 60 next_id_new operator 1 7 [1; 2] relabel shared)) as H. rewrite E in H.
  destruct H as (r & d & _ & Hr & _ & Hd & _ & _ & Hst & _). exists b', rid, r, d. split; [exact E|].
  split; [rewrite Hr; apply lookup_insert_eq|]. split; [exact Hd|exact Hst].
Defined.

Lemma owner_spec u b pid : (is_admin u || match pid ≫= fun p => projects b !! p ≫= owner with
                                         | None => true | Some o => o =? user_id u end) = true <-> may_mutate u b pid.
Proof.
  unfold may_mutate. rewrite orb_true_iff. destruct (pid ≫= _); [by rewrite Z.eqb_eq|]. naive_solver.
Qed.

Lemma rerun_escapes_ownership_witness : exists b1 b2 rid' r' d',
  update_fleet_target operator 1 (pin [2]) shared = (b1, Ok tt) /\
  rerun_fleet_bulk_op next_id 60 operator 5 b1 = (b2, Ok rid') /\ runs (core b2) !! rid' = Some r' /\
  decisions (core b2) !! decision_id r' = Some d' /\ 2 ∈ resolved_member_ids d' /\
  start_fleet_bulk_op next_id operator (decision_id r') relabel b2 = (b2, Err ForbiddenError).
Proof.
  destruct (rerun_escapes_ownership next_id 60 next_id_new operator 5 old_run old_decision web [JStr "env=prod"] 2
              (in_project 20 "prod" 2) relabel shared)
    as (b1 & b2 & rid' & r' & d' & H1 & H2 & H3 & _ & H4 & H5 & _ & H6); try reflexivity; try (apply owner_spec; reflexivity).
  - cbn. right. left.
  - intros i m Hi%list_elem_of_singleton Hm. subst i. vm_compute in Hm. injection Hm as <-. apply owner_spec. reflexivity.
  - intros H%owner_spec. discriminate.
  - cbn. right. left.
  - exists b1, b2, rid', r', d'. split; [exact H1|]. split; [exact H2|]. split; [exact H3|]. split; [exact H4|]. split; [exact H5|exact H6].
Defined.

Example seen : (preview_selector operator [("labels", JList [JStr "env=prod"])] [2] shared) = Ok (2%nat, [1; 2]).
Proof. vm_compute. reflexivity. Qed.
End Example.
