(* ===== verification/FleetPolicy.v ===== *)
(** * Policies of a fleet (services/fleet_policy_service.py, routes/fleet.py)

    A policy says what the members of a target should look like.  Evaluating it
    writes down which members comply; enforcing it starts a bulk run over the
    drifted ones, on FleetTarget.v's decisions and runs.  [pdb] adds the policies
    and their evaluations to the tables.  The details of a result, the names and
    the authors are left out. *)

From Stdlib Require Import Ascii.
From S2P Require Import Prelude Texts FleetBulkOp FleetReconcile FleetTarget.

#[local] Open Scope string_scope.
#[local] Open Scope list_scope.
#[local] Open Scope Z_scope.
#[local] Set Default Proof Using "Type".

(** ** Tables *)

Definition POLICY_KINDS : list string := ["label-compliance"; "os-compliance-seed"].
Definition POLICY_MODES : list string := ["inform"; "enforce"].
Definition KIND_SUPPORTS_ENFORCE (kind : string) : bool := String.eqb kind "label-compliance".
Definition KIND_REMEDIATION_ACTION (kind : string) : option string :=
  if String.eqb kind "label-compliance" then Some "set-labels" else None.

Record policy := {
  p_project : option Z;
  p_target : Z;
  p_kind : string;
  p_mode : string;
  p_desired : list (string * json);
  p_deleted : bool
}.

Inductive compliance := COMPLIANT | DRIFTED | UNKNOWN.
#[global] Instance compliance_eq_dec : EqDecision compliance.
Proof. solve_decision. Defined.

Record evaluation := {
  e_policy : Z;
  e_project : option Z;
  e_evaluated_at : Z;
  e_selector : list (string * json);
  e_desired : list (string * json);
  e_results : list (Z * compliance);
  e_compliant : nat;
  e_drifted : nat;
  e_unknown : nat;
  e_total : nat;
  enforced_run_id : option Z;
  e_mode : string
}.

Record pdb := { base : tdb; policies : gmap Z policy; evaluations : gmap Z evaluation }.
Definition set_base (b : tdb) (d : pdb) : pdb := {| base := b; policies := policies d; evaluations := evaluations d |}.
Definition set_policies (g : gmap Z policy -> gmap Z policy) (d : pdb) : pdb :=
  {| base := base d; policies := g (policies d); evaluations := evaluations d |}.

(** ** Versions *)

Definition _parse_version (s : string) : list Z :=
  (fun part => default 0 (py_int part)) <$> split_on (fun c => Ascii.eqb c "."%char) s "".

(** ** Evaluating one member *)

(** [desired.get(key) or default] *)
Definition desired_get (key : string) (desired : list (string * json)) (fallback : json) : json :=
  match dget key desired with Some v => if truthy v then v else fallback | None => fallback end.

(** The pairs of a list of labels; entries without "=" are passed over. *)
Fixpoint label_pairs (entries : list json) : result fleet_exc (list (string * string)) :=
  match entries with
  | [] => Ok []
  | f :: entries =>
      match filter_pair f, label_pairs entries with
      | Err e, _ => Err e
      | _, Err e => Err e
      | Ok (Some kv), Ok l => Ok (kv :: l)
      | Ok None, Ok l => Ok l
      end
  end.

Definition required_pairs (desired : list (string * json)) : result fleet_exc (list (string * string)) :=
  entries ← py_iter (desired_get "required_labels" desired (JList []));
  label_pairs entries.

(** The dict of the pairs: of two values for a key the later one. *)
Definition required_dict (pairs : list (string * string)) : gmap string string :=
  foldl (fun d kv => <[kv.1 := kv.2]> d) ∅ pairs.

Definition _evaluate_label_compliance (m : member) (desired : list (string * json)) : result fleet_exc compliance :=
  match last_reconciled_at m with
  | None => Ok UNKNOWN
  | Some _ =>
      match required_pairs desired with
      | Err e => Err e
      | Ok pairs =>
          Ok (if forallb (fun kv => bool_decide (assigned_labels m !! kv.1 = Some kv.2)) pairs then COMPLIANT else DRIFTED)
      end
  end.

(** A text of the policy; another value has no text methods. *)
Definition desired_text (key : string) (desired : list (string * json)) : result fleet_exc string :=
  match desired_get key desired (JStr "") with JStr s => Ok s | _ => Err InternalError end.

Definition _evaluate_os_compliance_seed (m : member) (desired : list (string * json)) : result fleet_exc compliance :=
  match discovered_labels m !! "os", discovered_labels m !! "os-version" with
  | Some actual_os, Some actual_version =>
      if String.eqb actual_os "" || String.eqb actual_version "" then Ok UNKNOWN
      else
        required_os ← desired_text "os" desired;
        if negb (String.eqb (lower actual_os) (lower required_os)) then Ok DRIFTED
        else
          min_version ← desired_text "min_version" desired;
          Ok (if negb (String.eqb min_version "") && tuple_lt (_parse_version actual_version) (_parse_version min_version)
              then DRIFTED else COMPLIANT)
  | _, _ => Ok UNKNOWN
  end.

Definition _evaluate_member (kind : string) (desired : list (string * json)) (m : member) : result fleet_exc compliance :=
  if String.eqb kind "label-compliance" then _evaluate_label_compliance m desired
  else if String.eqb kind "os-compliance-seed" then _evaluate_os_compliance_seed m desired
  else Ok UNKNOWN.

Section policies.
Context {SO : SetOrder Z} (new_id : forall R, gmap Z R -> Z) (now : Z).

(** All members the selector matches, whatever the target pins; without a
    filter all of the scope. *)
Definition _resolve_member_ids_readonly (u : user) (t : target) (b : tdb) : result fleet_exc (list Z) :=
  label_filters ← validate_selector (selector t);
  matching label_filters (select (fun _ m => in_scope (_get_owned_project_ids u b) m) (members (core b))).

Fixpoint evaluate_members (kind : string) (desired : list (string * json)) (ms : gmap Z member) (ids : list Z)
    : result fleet_exc (list (Z * compliance)) :=
  match ids with
  | [] => Ok []
  | i :: ids =>
      match ms !! i with
      | None => evaluate_members kind desired ms ids
      | Some m =>
          match _evaluate_member kind desired m, evaluate_members kind desired ms ids with
          | Ok c, Ok l => Ok ((i, c) :: l)
          | Err e, _ => Err e
          | _, Err e => Err e
          end
      end
  end.

Definition having (c : compliance) (l : list (Z * compliance)) : list Z :=
  (filter (fun ic => ic.2 = c) l).*1.

(** The three lists one after the other. *)
Definition evaluation_of (pid : Z) (p : policy) (t : target) (l : list (Z * compliance)) (run : option Z) : evaluation :=
  let part c := filter (fun ic : Z * compliance => ic.2 = c) l in
  {| e_policy := pid; e_project := p_project p; e_evaluated_at := now; e_selector := selector t; e_desired := p_desired p;
     e_results := part COMPLIANT ++ part DRIFTED ++ part UNKNOWN;
     e_compliant := length (part COMPLIANT); e_drifted := length (part DRIFTED); e_unknown := length (part UNKNOWN);
     e_total := length (part COMPLIANT) + length (part DRIFTED) + length (part UNKNOWN);
     enforced_run_id := run; e_mode := p_mode p |}.

Definition _persist_evaluation (e : evaluation) (d : pdb) : pdb * Z :=
  let eid := new_id _ (evaluations d) in
  ({| base := base d; policies := policies d; evaluations := <[eid := e]> (evaluations d) |}, eid).

(** The target is found even when it is deleted. *)
Definition policy_target (p : policy) (b : tdb) : result fleet_exc target :=
  match targets b !! p_target p with Some t => Ok t | None => Err (NotFoundError "FleetTarget" (p_target p)) end.

Definition evaluate_fresh (u : user) (p : policy) (t : target) (b : tdb) : result fleet_exc (list (Z * compliance)) :=
  ids ← _resolve_member_ids_readonly u t b;
  evaluate_members (p_kind p) (p_desired p) (members (core b)) ids.

Definition evaluate_policy (u : user) (pid : Z) (p : policy) (d : pdb) : result fleet_exc (pdb * Z) :=
  t ← policy_target p (base d);
  l ← evaluate_fresh u p t (base d);
  Ok (_persist_evaluation (evaluation_of pid p t l None) d).

(** ** Enforcing *)

Definition action_params_of (p : policy) : result fleet_exc (option (gmap string string)) :=
  if String.eqb (p_kind p) "label-compliance"
  then pairs ← required_pairs (p_desired p); Ok (Some (required_dict pairs))
  else Ok None.

(** [None]: nothing has drifted. *)
Definition enforce_policy (u : user) (pid : Z) (p : policy) (conc : Z) (gate : string) (d : pdb)
    : result fleet_exc (pdb * option Z) :=
  _ ← ensure (String.eqb (p_mode p) "enforce") (BadRequestError "mode");
  _ ← ensure (KIND_SUPPORTS_ENFORCE (p_kind p)) (BadRequestError "kind");
  t ← policy_target p (base d);
  l ← evaluate_fresh u p t (base d);
  match having DRIFTED l with
  | [] => let '(d, _) := _persist_evaluation (evaluation_of pid p t l None) d in Ok (d, None)
  | drifted =>
      act ← match KIND_REMEDIATION_ACTION (p_kind p) with
            | Some act => if bool_decide (act ∈ SAFE_ACTIONS) then Ok act else Err (BadRequestError "action")
            | None => Err (BadRequestError "action")
            end;
      params ← action_params_of p;
      let '(b, did) := decision_from_member_ids new_id now (p_target p) t drifted (base d) in
      let '(b, rid) := add_run new_id (pending_run did (p_project p) act params "fault_domain" conc gate) b in
      let '(d, _) := _persist_evaluation (evaluation_of pid p t l (Some rid)) (set_base b d) in
      Ok (d, Some rid)
  end.

(** ** The routes *)

Definition pcommitted {A} (d : pdb) (r : result fleet_exc (pdb * A)) : pdb * result fleet_exc A :=
  match r with Ok (d', a) => (d', Ok a) | Err e => (d, Err e) end.

Definition live_policy (pid : Z) (d : pdb) : result fleet_exc policy :=
  match policies d !! pid with
  | Some p => if p_deleted p then Err (NotFoundError "FleetPolicy" pid) else Ok p
  | None => Err (NotFoundError "FleetPolicy" pid)
  end.

Definition evaluate_fleet_policy (u : user) (pid : Z) (d : pdb) : pdb * result fleet_exc Z :=
  pcommitted d (
    _ ← require_operator u;
    p ← live_policy pid d;
    evaluate_policy u pid p d).

(** [order_by(id.desc()).first()] of the target's resolved decisions. *)
Definition latest_decision (tid : Z) (b : tdb) : option decision :=
  snd <$> foldl (fun best ir => match best with
                                | Some x => if x.1 <? ir.1 then Some ir else best
                                | None => Some ir
                                end) None
    (select (fun _ dd => bool_decide (target_id dd = tid) && bool_decide (d_status dd = RESOLVED)) (decisions (core b))).

Definition policy_projects (p : policy) (b : tdb) : list (option Z) :=
  p_project p :: match latest_decision (p_target p) b with
                 | Some dd => member_projects (resolved_member_ids dd) b
                 | None => []
                 end.

Definition enforce_fleet_policy (u : user) (pid : Z) (d : pdb) : pdb * result fleet_exc (option Z) :=
  pcommitted d (
    _ ← require_operator u;
    p ← live_policy pid d;
    _ ← require_fleet_mutation (policy_projects p (base d)) u (base d);
    let '(conc, gate) := resolve_rollout_defaults (base d) (policy_projects p (base d)) in
    enforce_policy u pid p conc gate d).

(** What a policy may ask for. *)
Definition validate_desired (kind : string) (desired : list (string * json)) : result fleet_exc unit :=
  if String.eqb kind "label-compliance" then
    match dget "required_labels" desired with
    | Some (JList ((_ :: _) as l)) =>
        pairs ← label_pairs l;
        ensure (validate_assigned_labels (required_dict pairs)) (ValidationError "labels")
    | _ => Err (ValidationError "desired.required_labels")
    end
  else if String.eqb kind "os-compliance-seed" then
    match dget "os" desired with
    | Some v => ensure (truthy v) (ValidationError "desired.os")
    | None => Err (ValidationError "desired.os")
    end
  else Ok tt.

Record policy_request := {
  pq_project : option Z;
  pq_target : Z;
  pq_kind : option string;
  pq_mode : option string;
  pq_desired : option (list (string * json))
}.

(** The mode is not checked against the kind. *)
Definition create_fleet_policy (u : user) (body : policy_request) (d : pdb) : pdb * result fleet_exc Z :=
  pcommitted d (
    _ ← require_operator u;
    let kind := default "" (pq_kind body) in
    let mode := default "inform" (pq_mode body) in
    _ ← ensure (bool_decide (kind ∈ POLICY_KINDS)) (BadRequestError "kind");
    _ ← ensure (bool_decide (mode ∈ POLICY_MODES)) (BadRequestError "mode");
    _ ← match targets (base d) !! pq_target body with
        | Some t => Ok t
        | None => Err (NotFoundError "FleetTarget" (pq_target body))
        end;
    let desired := default [] (pq_desired body) in
    _ ← validate_desired kind desired;
    let pid := new_id _ (policies d) in
    Ok (set_policies <[pid := {| p_project := pq_project body; p_target := pq_target body; p_kind := kind; p_mode := mode;
                                 p_desired := desired; p_deleted := false |}]> d, pid)).

(** What the policy asks for is checked only when it is in the request. *)
Definition update_fleet_policy (u : user) (pid : Z) (body : policy_request) (d : pdb) : pdb * result fleet_exc unit :=
  pcommitted d (
    _ ← require_operator u;
    p ← live_policy pid d;
    _ ← require_fleet_mutation [p_project p] u (base d);
    let kind := default (p_kind p) (pq_kind body) in
    let mode := default (p_mode p) (pq_mode body) in
    _ ← ensure (match pq_kind body with Some k => bool_decide (k ∈ POLICY_KINDS) | None => true end) (BadRequestError "kind");
    _ ← ensure (match pq_mode body with Some m => bool_decide (m ∈ POLICY_MODES) | None => true end) (BadRequestError "mode");
    _ ← ensure (negb (String.eqb mode "enforce" && negb (KIND_SUPPORTS_ENFORCE kind))) (BadRequestError "inform-only");
    _ ← match pq_desired body with Some desired => validate_desired kind desired | None => Ok tt end;
    Ok (set_policies <[pid := {| p_project := p_project p; p_target := p_target p; p_kind := kind; p_mode := mode;
                                 p_desired := default (p_desired p) (pq_desired body); p_deleted := false |}]> d, tt)).

Definition delete_fleet_policy (u : user) (pid : Z) (d : pdb) : pdb * result fleet_exc unit :=
  pcommitted d (
    _ ← require_operator u;
    p ← live_policy pid d;
    _ ← require_fleet_mutation [p_project p] u (base d);
    Ok (set_policies <[pid := {| p_project := p_project p; p_target := p_target p; p_kind := p_kind p; p_mode := p_mode p;
                                 p_desired := p_desired p; p_deleted := true |}]> d, tt)).
End policies.

(** ** What a policy finds *)

Lemma label_pairs_Ok l pairs : label_pairs l = Ok pairs -> forall k v,
  (k, v) ∈ pairs <-> exists f, f ∈ l /\ filter_pair f = Ok (Some (k, v)).
Proof.
  revert pairs. induction l as [|f l IH]; cbn [label_pairs]; intros pairs H k v.
  { injection H as <-. split; [intros []%elem_of_nil|intros (f & []%elem_of_nil & _)]. }
  setoid_rewrite (elem_of_cons l).
  destruct (filter_pair f) as [[kv|]|e] eqn:Hf, (label_pairs l) as [ps|e'] eqn:Hl; try done; injection H as <-.
  - rewrite elem_of_cons, (IH ps eq_refl). split.
    + intros [<- |(g & Hg & E)]; [exists f; auto|exists g; auto].
    + intros (g & [-> |Hg] & E); [left; congruence|right; eauto].
  - rewrite (IH ps eq_refl). split; [intros (g & Hg & E); exists g; auto|].
    intros (g & [-> |Hg] & E); [congruence|eauto].
Qed.

(** The member has the labels the policy requires. *)
Definition has_labels (m : member) (pairs : list (string * string)) : Prop :=
  forall k v, (k, v) ∈ pairs -> assigned_labels m !! k = Some v.

Lemma forallb_has_labels m pairs :
  forallb (fun kv => bool_decide (assigned_labels m !! kv.1 = Some kv.2)) pairs = true <-> has_labels m pairs.
Proof.
  rewrite forallb_forall. unfold has_labels. split.
  - intros H k v Hk%list_elem_of_In. by apply H, bool_decide_eq_true in Hk.
  - intros H [k v] Hk%list_elem_of_In. apply bool_decide_eq_true. by apply H.
Qed.

Lemma label_verdict m desired pairs : required_pairs desired = Ok pairs ->
  exists c, _evaluate_member "label-compliance" desired m = Ok c /\
    (c = UNKNOWN <-> last_reconciled_at m = None) /\
    (c = COMPLIANT <-> last_reconciled_at m <> None /\ has_labels m pairs).
Proof.
  intros Hp. cbn [_evaluate_member String.eqb]. unfold _evaluate_member, _evaluate_label_compliance. cbn. rewrite Hp.
  destruct (last_reconciled_at m) as [at_|]; [|exists UNKNOWN; split; [done|]; split; naive_solver].
  pose proof (forallb_has_labels m pairs) as H. destruct (forallb _ pairs).
  - exists COMPLIANT. naive_solver.
  - exists DRIFTED. naive_solver.
Qed.

Lemma validated_labels desired : validate_desired "label-compliance" desired = Ok tt ->
  exists pairs, required_pairs desired = Ok pairs /\ validate_assigned_labels (required_dict pairs) = true.
Proof.
  unfold validate_desired, required_pairs, desired_get. rewrite String.eqb_refl.
  destruct (dget "required_labels" desired) as [[| | | |[|j l]|]|]; try done. cbn [truthy py_iter mbind result_bind].
  intros H. ok_steps H. exists x. split; [done|]. by apply ensure_Ok in H.
Qed.

Lemma evaluate_members_spec kind desired ms ids : forall l, evaluate_members kind desired ms ids = Ok l ->
  (forall i c, (i, c) ∈ l <-> i ∈ ids /\ exists m, ms !! i = Some m /\ _evaluate_member kind desired m = Ok c) /\
  (NoDup ids -> NoDup l.*1).
Proof.
  induction ids as [|j ids IH]; cbn [evaluate_members]; intros l H.
  { injection H as <-. split; [|constructor]. intros i c. split; [intros []%elem_of_nil|by intros [[]%elem_of_nil _]]. }
  destruct (ms !! j) as [m|] eqn:Hm.
  - destruct (_evaluate_member kind desired m) as [c0|] eqn:Hc; [|done].
    destruct (evaluate_members kind desired ms ids) as [l0|]; [|done]. injection H as <-.
    destruct (IH l0 eq_refl) as [Hin Hnd]. split.
    + intros i c. rewrite !elem_of_cons, Hin. split.
      * intros [[= -> ->]|[? ?]]; [split; [by left|by exists m]|split; [by right|done]].
      * intros [[-> |?] (m' & Hm' & Hc')]; [left; congruence|right; eauto].
    + intros [Hj Hids]%NoDup_cons. cbn. apply NoDup_cons. split; [|auto].
      intros ([i c] & -> & Hi)%list_elem_of_fmap. by apply Hin in Hi as [? _].
  - destruct (IH l H) as [Hin Hnd]. split; [|intros [_ ?]%NoDup_cons; auto].
    intros i c. rewrite Hin, elem_of_cons. split; [naive_solver|].
    intros [[-> |?] (m' & Hm' & Hc')]; [congruence|eauto].
Qed.

Lemma evaluate_members_total kind desired ms ids :
  (forall m, exists c, _evaluate_member kind desired m = Ok c) -> exists l, evaluate_members kind desired ms ids = Ok l.
Proof.
  intros Hall. induction ids as [|j ids [l IH]]; cbn [evaluate_members]; [by eexists|].
  destruct (ms !! j) as [m|]; [|by exists l]. destruct (Hall m) as [c ->]. rewrite IH. by eexists.
Qed.

Lemma elem_of_having c l i : i ∈ having c l <-> (i, c) ∈ l.
Proof.
  unfold having. rewrite list_elem_of_fmap. setoid_rewrite list_elem_of_filter. split.
  - intros ([j c'] & -> & Hc & Hj). cbn in *. by subst.
  - intros H. exists (i, c). auto.
Qed.

Lemma having_NoDup c l : NoDup l.*1 -> NoDup (having c l).
Proof.
  unfold having. induction l as [|[i c'] l IH]; [constructor|]. cbn. intros [Hi Hn]%NoDup_cons.
  case_decide; [|auto]. cbn. apply NoDup_cons. split; [|auto].
  intros ([j c''] & -> & Hj)%list_elem_of_fmap. apply list_elem_of_filter in Hj as [_ Hj]. apply Hi.
  apply list_elem_of_fmap. by exists (j, c'').
Qed.

Lemma parts_perm (l : list (Z * compliance)) :
  filter (fun ic => ic.2 = COMPLIANT) l ++ filter (fun ic => ic.2 = DRIFTED) l ++ filter (fun ic => ic.2 = UNKNOWN) l ≡ₚ l.
Proof.
  induction l as [|[i []] l IH]; [done|..]; rewrite !filter_cons; cbn;
    repeat case_decide; try discriminate; try congruence; cbn [app].
  - by constructor.
  - rewrite <- Permutation_middle. by constructor.
  - rewrite app_assoc, <- Permutation_middle, <- app_assoc. by constructor.
Qed.

Lemma pcommitted_Ok {A} d (r : result fleet_exc (pdb * A)) d' a : pcommitted d r = (d', Ok a) <-> r = Ok (d', a).
Proof. unfold pcommitted. destruct r as [[d1 a1]|e]; naive_solver. Qed.

Lemma pcommitted_Err {A} d (r : result fleet_exc (pdb * A)) d' e : pcommitted d r = (d', Err e) <-> d' = d /\ r = Err e.
Proof. unfold pcommitted. destruct r as [[d1 a1]|e1]; naive_solver. Qed.

Section policy_lemmas.
Context {SO : SetOrder Z}.

(** What a policy is about: the members in the user's scope that have every
    label the target's selector asks for. *)
Definition covered (u : user) (l : list json) (b : tdb) (i : Z) (m : member) : Prop :=
  members (core b) !! i = Some m /\ in_scope (_get_owned_project_ids u b) m = true /\ selected m l.

Lemma evaluate_fresh_spec u p t b l : validate_selector (selector t) = Ok l ->
  (forall res, evaluate_fresh u p t b = Ok res ->
    NoDup res.*1 /\
    forall i c, (i, c) ∈ res <-> exists m, covered u l b i m /\ _evaluate_member (p_kind p) (p_desired p) m = Ok c) /\
  ((forall m, exists c, _evaluate_member (p_kind p) (p_desired p) m = Ok c) -> exists res, evaluate_fresh u p t b = Ok res).
Proof.
  intros Hv. unfold evaluate_fresh, _resolve_member_ids_readonly. rewrite Hv. cbn [mbind result_bind].
  destruct (matching_spec l (select (fun _ m => in_scope (_get_owned_project_ids u b) m) (members (core b))))
    as (ids & -> & Hin & Hnd); [by eapply validated_readable|]. cbn [mbind result_bind]. split.
  - intros res H. apply evaluate_members_spec in H as [H1 H2]. split; [apply H2, Hnd, select_NoDup|].
    intros i c. rewrite H1, Hin. setoid_rewrite elem_of_select. unfold covered. split.
    + intros [(m & [Hm Hs] & Hsel) (m' & Hm' & Hc)]. exists m. rewrite Hm in Hm'. injection Hm' as <-. auto.
    + intros (m & (Hm & Hs & Hsel) & Hc). split; exists m; auto.
  - intros Hall. by apply evaluate_members_total.
Qed.

Lemma covered_authorized u l b i m : covered u l b i m -> may_mutate u b (m_project m).
Proof.
  intros (_ & Hs & _). unfold in_scope, _get_owned_project_ids in Hs. unfold may_mutate.
  destruct (is_admin u); [by left|]. right. destruct (m_project m) as [q|]; [|done]. cbn.
  apply bool_decide_eq_true, list_elem_of_fmap in Hs as ([q' pr] & -> & Hq). apply elem_of_select in Hq as [Hq Ho].
  apply bool_decide_eq_true in Ho. cbn. rewrite Hq. cbn. by rewrite Ho.
Qed.

Lemma live_policy_Ok pid d p : live_policy pid d = Ok p <-> policies d !! pid = Some p /\ p_deleted p = false.
Proof. unfold live_policy. destruct (policies d !! pid) as [q|]; [destruct (p_deleted q) eqn:E|]; naive_solver congruence. Qed.

Lemma policy_target_Ok p b t : policy_target p b = Ok t <-> targets b !! p_target p = Some t.
Proof. unfold policy_target. destruct (targets b !! p_target p); naive_solver. Qed.

Section routes.
Context (new_id : forall R, gmap Z R -> Z) (now : Z).
Hypothesis FRESH : forall R (t : gmap Z R), t !! new_id R t = None.

(** The one row an evaluation adds. *)
Definition recorded (d d' : pdb) (e : evaluation) : Prop :=
  exists eid, evaluations d !! eid = None /\ evaluations d' = <[eid := e]> (evaluations d) /\ policies d' = policies d.

Lemma persisted pid p t res run d d' eid : _persist_evaluation new_id (evaluation_of now pid p t res run) d = (d', eid) ->
  base d' = base d /\ exists e, recorded d d' e /\ e_policy e = pid /\ enforced_run_id e = run /\ e_mode e = p_mode p /\
    e_results e ≡ₚ res /\ e_total e = length (e_results e) /\
    e_compliant e = length (having COMPLIANT (e_results e)) /\ e_drifted e = length (having DRIFTED (e_results e)) /\
    e_unknown e = length (having UNKNOWN (e_results e)).
Proof using FRESH.
  intros [= <- <-]. split; [done|]. eexists. split; [eexists; split; [apply FRESH|done]|]. do 3 (split; [done|]).
  cbn [e_results evaluation_of]. split; [apply parts_perm|].
  split; [cbn [e_total evaluation_of]; rewrite !length_app; lia|].
  unfold having. rewrite !length_fmap, !parts_perm. done.
Qed.

(** Evaluating a policy.  The evaluation has one verdict for every member in the
    user's scope that the target's selector selects, and its counts are those of
    the verdicts; it is one new row, and nothing else changes: no member, run or
    decision.  A policy on labels that was accepted is always evaluated, and
    finds a member compliant exactly when it has been reconciled and an operator
    has given it every label required. *)
Theorem evaluation_correct u pid p t l d :
  require_operator u = Ok tt -> policies d !! pid = Some p -> p_deleted p = false ->
  targets (base d) !! p_target p = Some t -> validate_selector (selector t) = Ok l ->
  match evaluate_fleet_policy new_id now u pid d with
  | (d', Ok _) => exists e, recorded d d' e /\ base d' = base d /\ e_policy e = pid /\ enforced_run_id e = None /\
      NoDup (e_results e).*1 /\
      (forall i c, (i, c) ∈ e_results e <->
         exists m, covered u l (base d) i m /\ _evaluate_member (p_kind p) (p_desired p) m = Ok c) /\
      e_total e = length (e_results e) /\ e_compliant e = length (having COMPLIANT (e_results e)) /\
      e_drifted e = length (having DRIFTED (e_results e)) /\ e_unknown e = length (having UNKNOWN (e_results e))
  | (d', Err _) => d' = d
  end /\
  (p_kind p = "label-compliance" -> validate_desired (p_kind p) (p_desired p) = Ok tt ->
   (exists d' eid, evaluate_fleet_policy new_id now u pid d = (d', Ok eid)) /\
   exists pairs, required_pairs (p_desired p) = Ok pairs /\
     forall m, exists c, _evaluate_member (p_kind p) (p_desired p) m = Ok c /\
       (c = UNKNOWN <-> last_reconciled_at m = None) /\
       (c = COMPLIANT <-> last_reconciled_at m <> None /\ has_labels m pairs)).
Proof using FRESH.
  intros Hu Hp Hdel Ht Hv. pose proof (evaluate_fresh_spec u p t (base d) l Hv) as [H1 H2].
  unfold evaluate_fleet_policy. rewrite Hu, (proj2 (live_policy_Ok pid d p)) by done. cbn [mbind result_bind].
  unfold evaluate_policy. rewrite (proj2 (policy_target_Ok p (base d) t)) by done. cbn [mbind result_bind]. split.
  - destruct (evaluate_fresh u p t (base d)) as [res|e]; [|done]. cbn [mbind result_bind].
    destruct (_persist_evaluation _ _ d) as [d' eid] eqn:E. cbn [pcommitted].
    apply persisted in E as (Hb & e & Hrec & He1 & He2 & _ & Hperm & Hcounts). destruct (H1 res eq_refl) as [Hnd Hin].
    exists e. do 4 (split; [done|]). split; [by rewrite Hperm|]. split; [|done].
    intros i c. by rewrite Hperm, Hin.
  - intros Hk Hval. rewrite Hk in *. apply validated_labels in Hval as (pairs & Hpairs & _).
    assert (Hall : forall m, exists c, _evaluate_member "label-compliance" (p_desired p) m = Ok c).
    { intros m. destruct (label_verdict m _ pairs Hpairs) as (c & Hc & _). by exists c. }
    destruct (H2 Hall) as [res ->]. cbn [mbind result_bind]. destruct (_persist_evaluation _ _ d) as [d' eid].
    split; [by exists d', eid|]. exists pairs. split; [done|]. intros m. by apply label_verdict.
Qed.

(** What enforcing a policy reads: the row, its target and the verdicts. *)
Definition enforces (u : user) (pid : Z) (d : pdb) (p : policy) (l : list json) (res : list (Z * compliance)) : Prop :=
  policies d !! pid = Some p /\ p_deleted p = false /\ p_mode p = "enforce" /\ p_kind p = "label-compliance" /\
  exists t, targets (base d) !! p_target p = Some t /\ validate_selector (selector t) = Ok l /\
    evaluate_fresh u p t (base d) = Ok res.

Lemma enforce_cases u pid d d' out : enforce_fleet_policy new_id now u pid d = (d', Ok out) ->
  exists p l res t, enforces u pid d p l res /\ targets (base d) !! p_target p = Some t /\
    match having DRIFTED res with
    | [] => out = None /\ d' = (_persist_evaluation new_id (evaluation_of now pid p t res None) d).1
    | drifted => exists pairs b1 did conc gate rid, required_pairs (p_desired p) = Ok pairs /\ out = Some rid /\
        decision_from_member_ids new_id now (p_target p) t drifted (base d) = (b1, did) /\
        rid = new_id _ (runs (core b1)) /\
        d' = (_persist_evaluation new_id (evaluation_of now pid p t res (Some rid))
               (set_base (set_core (set_runs <[rid := pending_run did (p_project p) "set-labels" (Some (required_dict pairs))
                                                     "fault_domain" conc gate]> (core b1)) b1) d)).1
    end.
Proof using.
  unfold enforce_fleet_policy. rewrite pcommitted_Ok.
  intros H. ok_steps H. apply live_policy_Ok in Hx0 as [Hp Hdel].
  destruct (resolve_rollout_defaults (base d) (policy_projects x0 (base d))) as [conc gate].
  unfold enforce_policy in H. ok_steps H. apply ensure_Ok, String.eqb_eq in Hx0, Hx2.
  apply policy_target_Ok in Hx3 as Ht. rename x0 into p, x4 into t, x5 into res.
  assert (Hv : exists l, validate_selector (selector t) = Ok l).
  { unfold evaluate_fresh, _resolve_member_ids_readonly in Hx4. destruct (validate_selector (selector t)) as [l|]; [by exists l|done]. }
  destruct Hv as [l Hv]. exists p, l, res, t. split; [by repeat split; [..|exists t]|]. split; [done|].
  destruct (having DRIFTED res) as [|i drifted] eqn:Hd.
  - destruct (_persist_evaluation _ _ d) as [d1 eid]. injection H as <- <-. done.
  - rewrite Hx2 in H. change (KIND_REMEDIATION_ACTION "label-compliance") with (Some "set-labels") in H.
    cbv beta iota in H. rewrite bool_decide_true in H by (right; left). cbn [mbind result_bind] in H. unfold action_params_of in H.
    rewrite Hx2, String.eqb_refl in H. ok_steps H. destruct (decision_from_member_ids _ _ _ _ _ _) as [b1 did] eqn:Hdec.
    unfold add_run in H. cbn zeta iota beta in H. destruct (_persist_evaluation _ _ _) as [d1 eid] eqn:E. injection H as <- <-.
    ok_steps Hx5. injection Hx5 as <-.
    exists x4, b1, did, conc, gate, (new_id _ (runs (core b1))). by rewrite E.
Qed.

Lemma enforced_rows u pid d d' out : enforce_fleet_policy new_id now u pid d = (d', Ok out) ->
      exists p l res e, enforces u pid d p l res /\ recorded d d' e /\ enforced_run_id e = out /\
      e_results e ≡ₚ res /\ members (core (base d')) = members (core (base d)) /\
      match out with
      | None => base d' = base d /\ forall i, (i, DRIFTED) ∉ e_results e
      | Some rid => exists r dd pairs, runs (core (base d)) !! rid = None /\
          runs (core (base d')) = <[rid := r]> (runs (core (base d))) /\
          decisions (core (base d')) !! decision_id r = Some dd /\ decisions (core (base d)) !! decision_id r = None /\
          required_pairs (p_desired p) = Ok pairs /\ action r = "set-labels" /\ action_params r = Some (required_dict pairs) /\
          wave_by r = "fault_domain" /\ current_wave_index r = 0 /\ r_status r = B_PENDING /\
          (forall i, i ∈ resolved_member_ids dd <-> exists m, covered u l (base d) i m /\
             _evaluate_member (p_kind p) (p_desired p) m = Ok DRIFTED) /\ resolved_member_ids dd <> [] /\
          NoDup (resolved_member_ids dd) /\ authorized u (base d) (resolved_member_ids dd) /\ startable now rid (core (base d'))
      end.
Proof using FRESH.
  intros E.
  apply enforce_cases in E as (p & l & res & t & Henf & Ht & E). exists p, l, res.
  destruct Henf as (Hp & Hdel & Hmode & Hkind & t' & Ht' & Hv & Hres). rewrite Ht in Ht'. injection Ht' as <-.
  destruct (proj1 (evaluate_fresh_spec u p t (base d) l Hv) res Hres) as [Hnd Hin].
  assert (Henf : enforces u pid d p l res) by (repeat split; [..|exists t]; done).
  destruct (having DRIFTED res) as [|i drifted] eqn:Hd.
  - destruct E as [-> ->]. destruct (_persist_evaluation _ _ d) as [d1 eid] eqn:E.
    apply persisted in E as (Hb & e & Hrec & _ & He & _ & Hperm & _). exists e. cbn [fst]. rewrite Hb.
    do 5 (split; [done|]). split; [done|]. intros i. rewrite Hperm, <- elem_of_having, Hd. apply not_elem_of_nil.
  - destruct E as (pairs & b1 & did & conc & gate & rid & Hpairs & -> & Hdec & Hrid & ->).
    destruct (_persist_evaluation _ _ _) as [d1 eid] eqn:E.
    apply persisted in E as (Hb & e & (eid' & He1 & He2 & He3) & _ & He & _ & Hperm & _). exists e. cbn [fst]. rewrite Hb.
    destruct (new_decision new_id now FRESH _ _ _ _ _ _ Hdec) as (Hfresh & Hrow & _ & Hm & Hr & _).
    split; [done|]. split; [by exists eid'|]. do 2 (split; [done|]). cbn [base set_base core set_core members set_runs].
    split; [done|]. eexists _, _, pairs. cbn [runs set_runs]. rewrite Hr in *. split; [subst rid; apply FRESH|]. split; [reflexivity|].
    split; [exact Hrow|]. split; [exact Hfresh|]. do 6 (split; [done|]). cbn [resolved_member_ids].
    assert (Hmem : forall j, j ∈ i :: drifted <-> exists m, covered u l (base d) j m /\
       _evaluate_member (p_kind p) (p_desired p) m = Ok DRIFTED) by (intros j; by rewrite <- Hd, elem_of_having, Hin).
    split; [exact Hmem|]. split; [done|]. split; [rewrite <- Hd; by apply having_NoDup|]. split.
    + intros j m (m' & Hc & _)%Hmem Hj. assert (m' = m) as -> by (destruct Hc; congruence). by eapply covered_authorized.
    + eexists _, _. cbn [runs set_runs decisions members]. rewrite lookup_insert_eq. split; [done|]. split; [exact Hrow|]. split; [by left|].
      split; [right; left|]. split; [done|]. split; [cbn; unfold DECISION_TTL_SECONDS; lia|].
      apply Forall_forall. cbn [resolved_member_ids]. intros j (m & (Hj & _) & _)%Hmem. rewrite Hm. congruence.
Qed.

(** Enforcing a policy.  Only a policy on labels in mode enforce is enforced.
    When nothing has drifted the answer is no run, and only the evaluation is
    written.  Otherwise the new run waits to set exactly the labels required on
    a new decision, whose members are those that have drifted; the user may
    change the project of each of them, the executor would start the run, and the
    evaluation names it.  No member is changed, and a refusal leaves everything. *)
Theorem enforcement_sound u pid d :
  match enforce_fleet_policy new_id now u pid d with
  | (d', Ok out) => exists p l res e, enforces u pid d p l res /\ recorded d d' e /\ enforced_run_id e = out /\
      e_results e ≡ₚ res /\ members (core (base d')) = members (core (base d)) /\
      match out with
      | None => base d' = base d /\ forall i, (i, DRIFTED) ∉ e_results e
      | Some rid => exists r dd pairs, runs (core (base d)) !! rid = None /\
          runs (core (base d')) = <[rid := r]> (runs (core (base d))) /\
          decisions (core (base d')) !! decision_id r = Some dd /\ decisions (core (base d)) !! decision_id r = None /\
          required_pairs (p_desired p) = Ok pairs /\ action r = "set-labels" /\ action_params r = Some (required_dict pairs) /\
          wave_by r = "fault_domain" /\ current_wave_index r = 0 /\ r_status r = B_PENDING /\
          (forall i, i ∈ resolved_member_ids dd <-> exists m, covered u l (base d) i m /\
             _evaluate_member (p_kind p) (p_desired p) m = Ok DRIFTED) /\ resolved_member_ids dd <> [] /\
          NoDup (resolved_member_ids dd) /\ authorized u (base d) (resolved_member_ids dd) /\ startable now rid (core (base d'))
      end
  | (d', Err _) => d' = d
  end.
Proof using FRESH.
  destruct (enforce_fleet_policy new_id now u pid d) as [d' [out|e]] eqn:E.
  - by apply enforced_rows in E.
  - unfold enforce_fleet_policy in E. by apply pcommitted_Err in E as [-> _].
Qed.

(** A policy on a target without labels.  Such a target stands for none of the
    members: resolving it gives an empty decision.  Enforcing a policy on the
    same target acts on every member in the user's scope that has drifted. *)
Theorem policy_widens u pid p t m i pairs d :
  require_operator u = Ok tt -> policies d !! pid = Some p -> p_deleted p = false -> p_mode p = "enforce" ->
  p_kind p = "label-compliance" -> required_pairs (p_desired p) = Ok pairs ->
  targets (base d) !! p_target p = Some t -> tg_deleted t = false -> validate_selector (selector t) = Ok [] ->
  pinned_member_ids t = [] -> require_fleet_mutation (policy_projects p (base d)) u (base d) = Ok tt ->
  members (core (base d)) !! i = Some m -> in_scope (_get_owned_project_ids u (base d)) m = true ->
  last_reconciled_at m <> None -> ~ has_labels m pairs ->
  (exists b' did, resolve_fleet_target new_id now u (p_target p) (base d) = (b', Ok did) /\
     resolved_member_ids <$> decisions (core b') !! did = Some []) /\
  exists d' rid r dd, enforce_fleet_policy new_id now u pid d = (d', Ok (Some rid)) /\
    runs (core (base d')) !! rid = Some r /\ decisions (core (base d')) !! decision_id r = Some dd /\
    i ∈ resolved_member_ids dd.
Proof using FRESH.
  intros Hu Hp Hdel Hmode Hkind Hpairs Ht Htdel Hv Hpin Hreq Hi Hscope Hrec Hno. split.
  - unfold resolve_fleet_target, live_target. rewrite Hu, Ht, Htdel. cbn [mbind result_bind]. unfold resolve_target.
    rewrite Hv, Hpin. cbn [mbind result_bind]. unfold target_members. rewrite !bool_decide_true by done.
    cbn [andb mbind result_bind]. destruct (decision_from_member_ids _ _ _ _ _ _) as [b' did] eqn:E.
    destruct (new_decision new_id now FRESH _ _ _ _ _ _ E) as (_ & Hrow & _). exists b', did. cbn. split; [done|]. by rewrite Hrow.
  - assert (Hall : forall m, exists c, _evaluate_member (p_kind p) (p_desired p) m = Ok c).
    { intros m'. rewrite Hkind. destruct (label_verdict m' _ _ Hpairs) as (c & Hc & _). by exists c. }
    destruct (evaluate_fresh_spec u p t (base d) [] Hv) as [H1 H2]. destruct (H2 Hall) as [res Hres].
    destruct (H1 res Hres) as [_ Hin]. assert (Hdr : i ∈ having DRIFTED res).
    { apply elem_of_having, Hin. exists m. split; [split_and!; [done..|by intros f k v []%elem_of_nil]|].
      rewrite Hkind. destruct (label_verdict m _ _ Hpairs) as (c & Hc & Hc1 & Hc2). rewrite Hc. destruct c; [|done|].
      - destruct Hno. by apply Hc2.
      - destruct Hrec. by apply Hc1. }
    destruct (enforce_fleet_policy new_id now u pid d) as [d' out] eqn:E. unfold enforce_fleet_policy in E.
    rewrite Hu, (proj2 (live_policy_Ok pid d p)) in E by done. cbn [mbind result_bind] in E. rewrite Hreq in E.
    cbn [mbind result_bind] in E. destruct (resolve_rollout_defaults _ _) as [conc gate]. unfold enforce_policy in E.
    rewrite Hmode, Hkind in E. cbn [mbind result_bind ensure String.eqb] in E.
    rewrite (proj2 (policy_target_Ok p (base d) t)) in E by done. cbn in E. rewrite Hres in E. cbn [mbind result_bind] in E.
    destruct (having DRIFTED res) as [|j drifted] eqn:Hd; [by apply elem_of_nil in Hdr|].
    unfold action_params_of in E. rewrite Hkind, Hpairs in E. cbv beta iota in E. rewrite String.eqb_refl in E.
    injection E as <- <-. eexists _, _, _, _. split; [done|]. split; [apply lookup_insert_eq|].
    split; [apply lookup_insert_eq|exact Hdr].
Qed.
End routes.
End policy_lemmas.

(** ** Policies on the fleet of two owners *)

Module Example.
#[local] Instance some_order : SetOrder Z := elements_order.
Import FleetTarget.Example.

(** Production is to be owned by the team core; member 1 is not yet. *)
Definition owned : policy :=
  {| p_project := Some 10; p_target := 1; p_kind := "label-compliance"; p_mode := "enforce";
     p_desired := [("required_labels", JList [JStr "team=core"])]; p_deleted := false |}.
Definition watched : pdb := {| base := shared; policies := {[4 := owned]}; evaluations := ∅ |}.

Lemma evaluation_correct_witness : exists d' eid e,
  evaluate_fleet_policy next_id 60 operator 4 watched = (d', Ok eid) /\ recorded watched d' e /\ (1, DRIFTED) ∈ e_results e.
Proof.
  assert (E : exists d' eid, evaluate_fleet_policy next_id 60 operator 4 watched = (d', Ok eid))
    by (eexists _, _; vm_compute; reflexivity).
  destruct E as (d' & eid & E).
  pose proof (proj1 (evaluation_correct next_id 60 next_id_new operator 4 owned web [JStr "env=prod"] watched
    eq_refl eq_refl eq_refl eq_refl eq_refl)) as H. rewrite E in H.
  destruct H as (e & Hrec & _ & _ & _ & _ & Hin & _). exists d', eid, e. split; [exact E|]. split; [exact Hrec|].
  apply Hin. exists (in_project 10 "prod" 1). split; [split; [reflexivity|split; [reflexivity|]]|reflexivity].
  intros f k v Hf%list_elem_of_singleton Hp. subst f. vm_compute in Hp. injection Hp as <- <-. reflexivity.
Defined.

Lemma enforcement_sound_witness : exists d' rid r,
  enforce_fleet_policy next_id 60 operator 4 watched = (d', Ok (Some rid)) /\
  runs (core (base d')) !! rid = Some r /\ startable 60 rid (core (base d')).
Proof.
  assert (E : exists d' rid, enforce_fleet_policy next_id 60 operator 4 watched = (d', Ok (Some rid)))
    by (eexists _, _; vm_compute; reflexivity).
  destruct E as (d' & rid & E).
  pose proof (enforcement_sound next_id 60 next_id_new operator 4 watched) as H. rewrite E in H.
  destruct H as (p & l & res & e & _ & _ & _ & _ & _ & r & dd & pairs & _ & Hr & _ & _ & _ & _ & _ & _ & _ & _ & _ & _ & _ & _ & Hs).
  exists d', rid, r. split; [exact E|]. split; [rewrite Hr; apply lookup_insert_eq|exact Hs].
Defined.

(** A target that asks for nothing, and a policy on it. *)
Definition nothing : target :=
  {| tg_project := Some 10; tg_name := "all"; selector := []; pinned_member_ids := []; tg_deleted := false |}.
Definition on_nothing : policy :=
  {| p_project := Some 10; p_target := 2; p_kind := "label-compliance"; p_mode := "enforce";
     p_desired := p_desired owned; p_deleted := false |}.
Definition widened : pdb :=
  {| base := set_targets <[2 := nothing]> shared; policies := {[5 := on_nothing]}; evaluations := ∅ |}.

Lemma policy_widens_witness : exists d' rid,
  enforce_fleet_policy next_id 60 operator 5 widened = (d', Ok (Some rid)) /\
  exists b' did, resolve_fleet_target next_id 60 operator 2 (base widened) = (b', Ok did).
Proof.
  destruct (policy_widens next_id 60 next_id_new operator 5 on_nothing nothing (in_project 10 "dev" 3) 3 [("team", "core")] widened)
    as [(b' & did & Hr & _) (d' & rid & _ & _ & Hd & _)]; try reflexivity; try discriminate.
  - intros H. specialize (H "team" "core" ltac:(left)). discriminate.
  - exists d', rid. split; [exact Hd|]. exists b', did. exact Hr.
Defined.

Example versions : (_parse_version "22.04", tuple_lt (_parse_version "22.04") (_parse_version "22.04.0"),
                    _parse_version "5.15.0-rc1") = ([22; 4], true, [5; 15; 0]).
Proof. vm_compute. reflexivity. Qed.
End Example.
