(* ===== verification/FleetEnforce.v ===== *)
(** * From a policy to its members: an enforcement carried out

    FleetPolicy.v's enforcement leaves a run for FleetBulkOp.v's executor.  Here
    the run is carried out: started, and resumed by the task after each gate,
    while reconciliations go on between two executions.  Nothing of the code is
    modelled in this file; it is the composition of the two. *)

From S2P Require Import Prelude Texts FleetBulkOp FleetReconcile FleetTarget FleetPolicy.

#[local] Open Scope string_scope.
#[local] Open Scope list_scope.
#[local] Open Scope Z_scope.
#[local] Set Default Proof Using "Type".

(** ** Members in two states *)

(** A member that an operator has not relabelled or moved since: what a
    reconciliation of it leaves. *)
Definition same_view (m m' : member) : Prop :=
  assigned_labels m' = assigned_labels m /\ fault_domain m' = fault_domain m /\
  (last_reconciled_at m' = None -> last_reconciled_at m = None).

(** Every member of [ms] is still there; there may be others. *)
Definition same_members (ms ms' : gmap Z member) : Prop := forall i m,
  ms !! i = Some m -> exists m', ms' !! i = Some m' /\ same_view m m'.

#[global] Instance same_view_preorder : PreOrder same_view.
Proof. split; [done|]. intros a b c (? & ? & ?) (? & ? & ?). repeat split; [congruence..|auto]. Qed.
#[global] Instance same_members_preorder : PreOrder same_members.
Proof.
  split; [intros ms i m H; by exists m|]. intros a b c H1 H2 i m (m1 & Hm1 & V1)%H1.
  destruct (H2 i m1 Hm1) as (m2 & Hm2 & V2). exists m2. split; [done|]. by transitivity m1.
Qed.

(** What reconciling a member of the fleet does is of this kind. *)
Lemma reconcile_same_members {SO : SetOrder Z} inv (new_id : gmap Z member -> Z) now t ms :
  (forall ms, ms !! new_id ms = None) -> same_members ms (reconcile_fleet_member inv new_id now t ms).1.
Proof.
  intros Hnew. unfold reconcile_fleet_member. destruct (negb _); [done|]. destruct (_load_target inv t) as [[f|]|e]; try done.
  cbn [fst]. pose proof (member_of_spec t ms) as Hm. destruct (member_of t ms) as [[i m]|]; intros j mj Hj.
  - destruct Hm as [Hi _]. destruct (decide (j = i)) as [-> |]; [|rewrite lookup_insert_ne by done; by exists mj].
    rewrite lookup_insert_eq. eexists. split; [done|]. rewrite Hi in Hj. injection Hj as <-. by repeat split.
  - assert (j <> new_id ms) by (intros ->; by rewrite Hnew in Hj). rewrite lookup_insert_ne by done. by exists mj.
Qed.

(** The labels set on the members of a list. *)
Definition relabel (labels : gmap string string) (log : list Z) (ms : gmap Z member) : gmap Z member :=
  foldl (fun ms i => alter (set_labels labels) i ms) ms log.

Lemma relabel_app labels log log' ms : relabel labels (log ++ log') ms = relabel labels log' (relabel labels log ms).
Proof. apply foldl_app. Qed.

Lemma relabel_lookup labels log : forall ms i,
  relabel labels log ms !! i = if decide (i ∈ log) then set_labels labels <$> ms !! i else ms !! i.
Proof.
  induction log as [|j log IH]; intros ms i; [by rewrite decide_False by apply not_elem_of_nil|]. cbn.
  fold (relabel labels log (alter (set_labels labels) j ms)). rewrite IH.
  destruct (decide (i = j)) as [-> |Hij].
  - rewrite lookup_alter_eq. rewrite (decide_True (P := j ∈ j :: log)) by left. case_decide; [|done].
    by destruct (ms !! j).
  - rewrite lookup_alter_ne by done. destruct (decide (i ∈ log)); [by rewrite decide_True by by right|].
    rewrite decide_False by (by rewrite elem_of_cons; intros [|]). done.
Qed.

#[global] Instance relabel_proper labels log : Proper (same_members ==> same_members) (relabel labels log).
Proof.
  intros ms ms' H i m. rewrite !relabel_lookup. case_decide; [|by apply H].
  intros (m0 & (m' & Hm' & _ & H2 & H3)%H & ->)%fmap_Some. rewrite Hm'. eexists. split; [done|]. by repeat split.
Qed.

(** The members are there, where they were. *)
Definition in_place (ms ms' : gmap Z member) : Prop := forall i m,
  ms !! i = Some m -> exists m', ms' !! i = Some m' /\ fault_domain m' = fault_domain m.

Lemma relabel_in_place labels log ms : in_place ms (relabel labels log ms).
Proof. intros i m Hm. rewrite relabel_lookup, Hm. case_decide; by eexists. Qed.

Lemma same_in_place ms ms1 ms2 : in_place ms ms1 -> same_members ms1 ms2 -> in_place ms ms2.
Proof.
  intros H1 H2 i m (m1 & Hm1 & V1)%H1. destruct (H2 i m1 Hm1) as (m2 & Hm2 & _ & V2 & _). exists m2. split; [done|congruence].
Qed.

(** Waves by fault domain are those of the members before. *)
Lemma waves_same r r' ids ms ms' : wave_by r = "fault_domain" -> wave_by r' = "fault_domain" -> in_place ms ms' ->
  Forall (fun i => ms !! i <> None) ids -> waves_of r' ids ms' = waves_of r ids ms.
Proof.
  intros Hw Hw' H Hids. unfold waves_of. rewrite Hw, Hw'. cbn. f_equal.
  assert (Hcons : forall ms i m ids, ms !! i = Some m ->
    keyed_members "fault_domain" (i :: ids) ms = (wave_key "fault_domain" m, i) :: keyed_members "fault_domain" ids ms)
    by (intros ms0 i m ids0 Hm; unfold keyed_members; cbn; by rewrite Hm).
  induction Hids as [|i ids Hi _ IH]; [done|]. destruct (ms !! i) as [m|] eqn:Hm; [|done].
  destruct (H i m Hm) as (m' & Hm' & Hf). rewrite (Hcons ms i m), (Hcons ms' i m'), IH by done.
  unfold wave_key. cbn. by rewrite Hf.
Qed.

Lemma all_there ids ms ms' : in_place ms ms' -> Forall (fun i => ms !! i <> None) ids ->
  Forall (fun i => ms' !! i <> None) ids.
Proof.
  intros H Hall. apply (Forall_impl _ _ _ Hall). intros i Hi. destruct (ms !! i) as [m|] eqn:Hm; [|done].
  destruct (H i m Hm) as (m' & -> & _). done.
Qed.

(** ** What an execution does to the members *)

Section execution.
Context (reconcile : string * Z -> gmap Z member -> gmap Z member * result string bool).
Context (order : list Z -> list Z) (cancel_first : bool) (cancel_in : nat -> bool) (now : Z) (run_id : Z).
Context (labels : gmap string string).
Hypothesis ALLOWED : validate_assigned_labels labels = true.

(** A run that sets the labels. *)
Definition sets_labels (r : run) : Prop := action r = "set-labels" /\ action_params r = Some labels.

Lemma dispatch_relabels i ms :
  (submit reconcile i "set-labels" (Some labels) ms).1 = alter (set_labels labels) i ms.
Proof using ALLOWED.
  apply andb_true_iff in ALLOWED as [Hall _]. unfold submit, _dispatch_action_for_member.
  destruct (ms !! i) as [m|] eqn:Hm.
  - cbn [default String.eqb]. cbn. rewrite Hall. cbn. apply map_eq. intros j.
    destruct (decide (j = i)) as [-> |]; [by rewrite lookup_insert_eq, lookup_alter_eq, Hm|].
    by rewrite lookup_insert_ne, lookup_alter_ne.
  - cbn. apply map_eq. intros j. destruct (decide (j = i)) as [-> |]; [by rewrite lookup_alter_eq, Hm|by rewrite lookup_alter_ne].
Qed.

Lemma jobs_relabel l ft : members (foldl (job (submit reconcile) now run_id "set-labels" (Some labels)) ft l).1 = relabel labels l (members ft.1).
Proof using ALLOWED.
  revert ft. induction l as [|i l IH]; intros [f t]; [done|]. cbn [foldl]. rewrite IH. cbn.
  fold (relabel labels l (alter (set_labels labels) i (members f))). f_equal. unfold job.
  rewrite <- dispatch_relabels. destruct (submit _ _ _ _ _) as [ms res]. by destruct res as [[]|].
Qed.

Lemma add_results_members idx ids f : members (foldl (add_result run_id idx) f ids) = members f.
Proof.
  revert f. induction ids as [|i ids IH]; intros f; [done|]. cbn. rewrite IH. unfold add_result. by destruct (results f !! _).
Qed.

Lemma run_wave_relabels idx r ids f t : sets_labels r ->
  members (run_wave (submit reconcile) order cancel_in now run_id idx r ids f t).1 = relabel labels (order ids) (members f).
Proof using ALLOWED.
  intros [Ha Hp]. unfold run_wave. destruct (fan_out _ _ _ _ _ _ _) as [f1 t1] eqn:E.
  transitivity (members f1); [cbn; unfold maybe_cancel; by destruct (cancel_in idx)|].
  apply (f_equal (fun ft => members ft.1)) in E. cbn in E. rewrite <- E. unfold fan_out. rewrite Ha, Hp, jobs_relabel. cbn.
  by rewrite add_results_members.
Qed.

Lemma wave_row_sets idx r : sets_labels r ->
  sets_labels ((if cancel_in idx then cancel_run now else id) (run_with r (r_status r) (Z.of_nat idx) None None)).
Proof. intros [? ?]. unfold cancel_run. destruct (cancel_in idx); cbn; [destruct (terminal_run _)|]; done. Qed.

(** Whether nobody cancels during the execution. *)
Definition left_alone : Prop := cancel_first = false /\ forall i, cancel_in i = false.

Lemma run_waves_relabels total waves : forall idx resume_from f t log r,
  runs f !! run_id = Some r -> sets_labels r ->
  let '(f', log', out) := run_waves (submit reconcile) order cancel_in now run_id total waves idx resume_from f t log in
  (exists log1 r', log' = log ++ log1 /\ members f' = relabel labels log1 (members f) /\
     runs f' !! run_id = Some r' /\ sets_labels r') /\
  (left_alone -> r_status r <> B_CANCELLED -> forall k t', out <> Some (Cancelled k, t')).
Proof using ALLOWED.
  induction waves as [|[k ids] waves IH]; intros idx resume_from f t log r Hr Hs; cbn [run_waves].
  - split; [|done]. exists [], (complete_run now r). rewrite app_nil_r. split; [done|]. split; [done|].
    cbn. by rewrite lookup_alter_eq, Hr.
  - destruct (idx <? resume_from)%nat; [by apply (IH _ _ _ _ _ r)|]. rewrite Hr.
    case_bool_decide as Hc.
    { split; [|by intros _ ?]. exists [], (stop_run now r). rewrite app_nil_r. split; [done|]. split; [done|].
      cbn. by rewrite lookup_alter_eq, Hr. }
    pose proof (proj2 (run_wave_frame (submit reconcile) order cancel_in now run_id idx r ids f t)) as Hw.
    pose proof (run_wave_relabels idx r ids f t Hs) as Hm. pose proof (wave_row_sets idx r Hs) as Hs1.
    assert (Hc1 : left_alone -> r_status ((if cancel_in idx then cancel_run now else id)
      (run_with r (r_status r) (Z.of_nat idx) None None)) <> B_CANCELLED) by (intros [_ ->]; exact Hc).
    destruct (run_wave _ _ _ _ _ idx r ids f t) as [f1 t1]. cbn in Hw, Hm. rewrite Hr in Hw. cbn in Hw.
    set (r1 := _ (run_with _ _ _ _ _)) in Hw, Hs1, Hc1.
    destruct (match waves with [] => None | _ => _ end) as [until|].
    { split; [|done]. eexists (order ids), _. split; [done|]. split; [exact Hm|]. cbn. rewrite lookup_alter_eq, Hw.
      split; [done|]. by destruct until. }
    specialize (IH (S idx) resume_from f1 t1 (log ++ order ids) r1 Hw Hs1).
    destruct (run_waves _ _ _ _ _ _ _ _ _ f1 _ _) as [[f' log'] out]. destruct IH as [(log1 & r' & -> & Hm' & Hr') Hout].
    split; [|by intros Hl _; apply Hout; [done|apply Hc1]].
    exists (order ids ++ log1), r'. split; [by rewrite app_assoc|]. split; [|done]. by rewrite relabel_app, <- Hm.
Qed.

Lemma run_plan_relabels resuming r ids f : runs f !! run_id = Some r -> sets_labels r ->
  let '(f', log, out) := run_plan (submit reconcile) order cancel_first cancel_in now run_id resuming r ids f in
  (exists r', members f' = relabel labels log (members f) /\ runs f' !! run_id = Some r' /\ sets_labels r') /\
  (left_alone -> forall k t, out <> Ok (Cancelled k, t)).
Proof using ALLOWED.
  intros Hr Hs. unfold run_plan. set (waves := waves_of r ids (members f)). set (r0 := run_started _ _ r). set (f0 := set_runs _ f).
  assert (H0 : runs f0 !! run_id = Some r0) by apply lookup_insert_eq.
  assert (Hs0 : sets_labels r0) by exact Hs. destruct waves as [|w waves'] eqn:Ew.
  { split; [|done]. exists (complete_run now r0). split; [done|]. split; [|done].
    cbn [runs update_run set_runs]. by rewrite lookup_alter_eq, H0. }
  rewrite <- Ew. set (f1 := maybe_cancel _ _ _ f0).
  assert (H1 : exists r1, runs f1 !! run_id = Some r1 /\ sets_labels r1 /\ (left_alone -> r_status r1 <> B_CANCELLED)).
  { unfold f1, maybe_cancel. destruct cancel_first eqn:Ec.
    - exists (cancel_run now r0). cbn [runs update_run set_runs]. rewrite lookup_alter_eq, H0. split; [done|].
      split; [|intros [? _]; congruence]. unfold cancel_run. by destruct (terminal_run _).
    - by exists r0. }
  destruct H1 as (r1 & H1 & Hs1 & Hc1).
  pose proof (run_waves_relabels (length waves) waves 0 (Z.to_nat (current_wave_index r)) f1 no_tally [] r1 H1 Hs1) as H.
  destruct (run_waves _ _ _ _ _ _ _ _ _ _ _ _) as [[f' log] [[o t]|]]; destruct H as [(log1 & r' & -> & Hm & Hr' & Hs') Hout];
    (split; [exists r'; split; [rewrite Hm; unfold f1, maybe_cancel; by destruct cancel_first|done]|]); [|done].
  intros Hl k t' [= -> ->]. by apply (Hout Hl (Hc1 Hl) k t').
Qed.
End execution.

(** ** A run carried out *)

Section carried.
Context (reconcile : string * Z -> gmap Z member -> gmap Z member * result string bool).
Context (run_id : Z) (f0 : fleet).

(** Nobody touches the run or relabels its members; reconciliations may run. *)
Definition undisturbed (f g : fleet) : Prop :=
  runs g !! run_id = runs f !! run_id /\ decisions g = decisions f /\ same_members (members f) (members g).

(** Started from [f0], and resumed by the task after each gate: the state left,
    the members relabelled, how the last execution ended. *)
Inductive carried : fleet -> list Z -> bulk_outcome -> Prop :=
| carried_start order cancel_first cancel_in now f log o t :
    (forall l, order l ≡ₚ l) ->
    run_fleet_bulk_op (submit reconcile) order cancel_first cancel_in now run_id f0 = (f, log, Ok (o, t)) ->
    carried f log o
| carried_resume order cancel_first cancel_in now f log k g g' log' o t :
    (forall l, order l ≡ₚ l) -> carried f log (PausedGate k) -> undisturbed f g ->
    resume_fleet_bulk_op (submit reconcile) order cancel_first cancel_in now run_id g = (g', log', Ok (o, t)) ->
    carried g' (log ++ log') o.

Context (r0 : run) (d0 : decision) (labels : gmap string string).
Hypothesis ALLOWED : validate_assigned_labels labels = true.
Hypothesis ROW : runs f0 !! run_id = Some r0.
Hypothesis SETS : sets_labels labels r0.
Hypothesis BY_DOMAIN : wave_by r0 = "fault_domain".
Hypothesis FIRST : current_wave_index r0 = 0.
Hypothesis DECISION : decisions f0 !! decision_id r0 = Some d0.
Hypothesis THERE : Forall (fun i => members f0 !! i <> None) (resolved_member_ids d0).

(** What a state on the way has. *)
Definition on_the_way (f : fleet) (log : list Z) : Prop :=
  same_members (relabel labels log (members f0)) (members f) /\
  exists r, runs f !! run_id = Some r /\ sets_labels labels r /\ same_plan r0 r /\
    resolved_member_ids <$> decisions f !! decision_id r0 = Some (resolved_member_ids d0).

Lemma plan_stays f log : on_the_way f log -> plan_of run_id f = plan_of run_id f0.
Proof using ROW BY_DOMAIN DECISION THERE.
  intros (Hm & r & Hr & _ & (Hd & _ & Hw & _) & Hdec). unfold plan_of. rewrite Hr, ROW, Hd, DECISION.
  destruct (decisions f !! decision_id r0) as [d|]; [|done]. injection Hdec as ->.
  assert (Hp : in_place (members f0) (members f)) by (eapply same_in_place; [apply relabel_in_place|exact Hm]).
  rewrite !filter_all_id by (done || by eapply all_there). by apply waves_same; [|congruence|..].
Qed.

Lemma carried_on_the_way f log o : carried f log o ->
  executed run_id (plan_of run_id f0) f log o /\ on_the_way f log.
Proof using ALLOWED ROW SETS BY_DOMAIN FIRST DECISION THERE.
  induction 1 as [order cf ci now f log o t Ho E|order cf ci now f log k g g' log' o t Ho Hf [IH1 IH2] Hu E].
  - split; [by eapply executed_start|].
    destruct (start_cases (submit reconcile) order cf ci now run_id f0) as [(r & d & _ & Hr & Hd & _ & E')|(_ & f' & e & E' & _)];
      rewrite E' in E; [|done]. rewrite ROW in Hr. injection Hr as <-. rewrite DECISION in Hd. injection Hd as <-.
    pose proof (run_plan_relabels reconcile order cf ci now run_id labels ALLOWED false r0 (resolved_member_ids d0)
      (consume r0 d0 f0) ROW SETS) as H.
    destruct (run_plan_spec (submit reconcile) order cf ci now run_id false r0 (resolved_member_ids d0) (consume r0 d0 f0) ROW)
      as (f' & n & o' & t' & r1 & E1 & Hr1 & Hp1 & Hd1 & _). rewrite E1 in E, H. injection E as -> <- _ _.
    destruct H as [(r' & Hm & Hr' & Hs') _]. split; [by rewrite Hm|]. exists r1. rewrite Hr1 in Hr'. injection Hr' as ->.
    do 3 (split; [done|]). rewrite Hd1. cbn. by rewrite lookup_insert_eq.
  - destruct Hu as (Hrun & Hdec & Hm). destruct IH2 as (Hm0 & r & Hr & Hs & Hp & Hd).
    assert (Hg : on_the_way g log).
    { split; [by etransitivity|]. exists r. rewrite Hrun, Hdec. done. }
    split; [apply (executed_resume run_id _ (submit reconcile) order cf ci now f log k g g' log' o t); try done; by apply plan_stays in Hg|].
    unfold resume_fleet_bulk_op, _execute_bulk_run_with_db in E. rewrite Hrun, Hr in E. case_bool_decide as Hst; [|done].
    rewrite Hst in E. cbn [terminal_run orb] in E. rewrite bool_decide_eq_false_2 in E by done.
    destruct (decisions g !! decision_id r) as [d|]; [|done]. destruct (negb _); [done|].
    rewrite <- Hrun in Hr. set (ids := filter _ _) in E.
    pose proof (run_plan_relabels reconcile order cf ci now run_id labels ALLOWED true r ids g Hr Hs) as H.
    destruct (run_plan_spec (submit reconcile) order cf ci now run_id true r ids g Hr)
      as (f' & n & o' & t' & r1 & E1 & Hr1 & Hp1 & Hd1 & _). rewrite E1 in E, H. injection E as -> <- _ _.
    destruct H as [(r' & Hm' & Hr' & Hs') _]. split.
    + rewrite relabel_app, Hm'. apply relabel_proper. by destruct Hg.
    + exists r1. rewrite Hr1 in Hr'. injection Hr' as ->. split; [done|]. split; [done|]. split; [by etransitivity|].
      by rewrite Hd1, Hdec.
Qed.

(** A paused run is resumed to its end, if nobody cancels it. *)
Lemma carried_on f log k : carried f log (PausedGate k) -> exists f' log' n, carried f' log' (Completed n).
Proof using ALLOWED ROW SETS BY_DOMAIN FIRST DECISION THERE.
  remember (length (plan_of run_id f0) - Z.to_nat k)%nat as left eqn:Hleft.
  revert f log k Hleft. induction left as [left IH] using lt_wf_ind. intros f log k -> Hc.
  destruct (carried_on_the_way f log _ Hc) as [He Hw]. pose proof (plan_stays f log Hw) as HW.
  destruct Hw as (_ & r & Hr & Hs & Hp & Hd).
  destruct (executed_run_at _ _ _ _ _ He) as (n & r' & _ & _ & _ & Hr' & Hst & Hcw & Hk & Hlt).
  rewrite Hr in Hr'. injection Hr' as <-.
  destruct (decisions f !! decision_id r0) as [d|] eqn:Hd0; [|done].
  set (ids := filter (fun i => members f !! i <> None) (resolved_member_ids d)).
  assert (E : resume_fleet_bulk_op (submit reconcile) id false (fun _ => false) 0 run_id f =
              run_plan (submit reconcile) id false (fun _ => false) 0 run_id true r ids f).
  { unfold resume_fleet_bulk_op, _execute_bulk_run_with_db. rewrite Hr, Hst. rewrite bool_decide_eq_true_2 by done.
    cbn [terminal_run orb]. rewrite bool_decide_eq_false_2 by done. destruct Hp as (-> & _). rewrite Hd0.
    destruct Hs as [-> _]. rewrite bool_decide_eq_true_2 by (right; left). done. }
  pose proof (run_plan_relabels reconcile id false (fun _ => false) 0 run_id labels ALLOWED true r ids f Hr Hs) as Hl.
  destruct (run_plan_spec (submit reconcile) id false (fun _ => false) 0 run_id true r ids f Hr)
    as (f1 & m & o & t & r1 & E1 & _ & _ & _ & Hends). rewrite E1 in E, Hl. destruct Hl as [_ Hl].
  assert (Hplan : waves_of r ids (members f) = plan_of run_id f0).
  { rewrite <- HW. unfold plan_of. rewrite Hr. destruct Hp as (-> & _). by rewrite Hd0. }
  rewrite Hplan in Hends.
  assert (Hnext : carried f1 (log ++ wave_log id (take m (drop (Z.to_nat (current_wave_index r)) (waves_of r ids (members f))))) o).
  { eapply (carried_resume id false (fun _ => false) 0 f log k f); [done|done|repeat split; done|exact E]. }
  destruct o as [n1|k1|k1]; [by eauto| |].
  - by destruct (Hl (conj eq_refl (fun _ => eq_refl)) k1 t).
  - destruct Hends as (Hm & Hk1 & _). rewrite length_drop in Hm. rewrite Hcw in *.
    eapply (IH _); [|reflexivity|exact Hnext]. lia.
Qed.

Lemma carried_out now : startable now run_id f0 -> exists f log n, carried f log (Completed n).
Proof using ALLOWED ROW SETS BY_DOMAIN FIRST DECISION THERE.
  intros Hst.
  destruct (start_cases (submit reconcile) id false (fun _ => false) now run_id f0) as [(r & d & _ & Hr & Hd & _ & E)|[Hno _]]; [|done].
  rewrite ROW in Hr. injection Hr as <-. rewrite DECISION in Hd. injection Hd as <-.
  pose proof (run_plan_relabels reconcile id false (fun _ => false) now run_id labels ALLOWED false r0 (resolved_member_ids d0)
    (consume r0 d0 f0) ROW SETS) as Hl.
  destruct (run_plan_spec (submit reconcile) id false (fun _ => false) now run_id false r0 (resolved_member_ids d0) (consume r0 d0 f0) ROW)
    as (f1 & m & o & t & r1 & E1 & _). rewrite E1 in E, Hl. destruct Hl as [_ Hl].
  assert (Hc : carried f1 _ o) by (eapply (carried_start id); [done|exact E]).
  destruct o as [n|k|k]; [by eauto| |by eapply carried_on].
  by destruct (Hl (conj eq_refl (fun _ => eq_refl)) k t).
Qed.

Lemma carried_completed f log n i : carried f log (Completed n) -> i ∈ resolved_member_ids d0 ->
  exists m m', members f0 !! i = Some m /\ members f !! i = Some m' /\ assigned_labels m' = labels /\
    (last_reconciled_at m' = None -> last_reconciled_at m = None).
Proof using ALLOWED ROW SETS BY_DOMAIN FIRST DECISION THERE.
  intros Hc Hi. destruct (carried_on_the_way f log _ Hc) as [He [Hm _]]. apply executed_completed in He as [_ Hlog].
  assert (Hil : i ∈ log).
  { rewrite Hlog. unfold plan_of. rewrite ROW, DECISION. unfold waves_of.
    rewrite waves_perm, keyed_members_ids, !filter_all_id by (try done; by rewrite filter_all_id). done. }
  rewrite Forall_forall in THERE. specialize (THERE i Hi). destruct (members f0 !! i) as [m|] eqn:Em; [|done].
  destruct (Hm i (set_labels labels m)) as (m' & Hm' & V1 & _ & V3).
  { rewrite relabel_lookup, decide_True by done. by rewrite Em. }
  exists m, m'. split; [done|]. split; [done|]. split; [by rewrite V1|exact V3].
Qed.
End carried.

(** ** Enforcing makes compliant *)

(** No key is required with two values. *)
Definition consistent (pairs : list (string * string)) : Prop :=
  forall k v v', (k, v) ∈ pairs -> (k, v') ∈ pairs -> v = v'.

Lemma required_dict_lookup pairs : consistent pairs -> forall k v, (k, v) ∈ pairs -> required_dict pairs !! k = Some v.
Proof.
  unfold required_dict. induction pairs as [|[k0 v0] pairs IH] using rev_ind; intros Hc k v; [intros []%elem_of_nil|].
  rewrite foldl_app. cbn. intros Hk. destruct (decide (k = k0)) as [-> |].
  - rewrite lookup_insert_eq. f_equal. apply (Hc k0); [|done]. apply elem_of_app. right. left.
  - rewrite lookup_insert_ne by done. apply elem_of_app in Hk as [Hk|Hk%list_elem_of_singleton]; [|congruence].
    apply IH; [|done]. intros k1 v1 v2 H1 H2. apply (Hc k1); apply elem_of_app; by left.
Qed.

Lemma recorded_unique d d' e e' : recorded d d' e -> recorded d d' e' -> e = e'.
Proof.
  intros (i & Hi & H1 & _) (j & Hj & H2 & _). rewrite H1 in H2.
  destruct (decide (i = j)) as [-> |].
  - apply (f_equal (lookup j)) in H2. rewrite !lookup_insert_eq in H2. congruence.
  - apply (f_equal (lookup i)) in H2. rewrite lookup_insert_eq, lookup_insert_ne in H2 by done. congruence.
Qed.

Section enforce.
Context {SO : SetOrder Z} (new_id : forall R, gmap Z R -> Z) (now : Z).
Context (reconcile : string * Z -> gmap Z member -> gmap Z member * result string bool).
Hypothesis FRESH : forall R (t : gmap Z R), t !! new_id R t = None.

(** From an enforcement to compliant members.  When enforcing a policy answers
    with a run, that run can be carried out to its end, from the start and from
    every gate it waits at.  And however it has been carried out, with
    reconciliations going on between its executions, once it is completed every
    member the enforcement found drifted is still there and complies: a new
    evaluation of it by the same policy says so. *)
Theorem enforced_complies u pid p pairs d d' rid :
  enforce_fleet_policy new_id now u pid d = (d', Ok (Some rid)) ->
  policies d !! pid = Some p -> required_pairs (p_desired p) = Ok pairs ->
  consistent pairs -> validate_assigned_labels (required_dict pairs) = true ->
  let f0 := core (base d') in
  (exists f log n, carried reconcile rid f0 f log (Completed n)) /\
  (forall f log k, carried reconcile rid f0 f log (PausedGate k) ->
     exists f' log' n, carried reconcile rid f0 f' log' (Completed n)) /\
  forall f log n e i, carried reconcile rid f0 f log (Completed n) -> recorded d d' e -> (i, DRIFTED) ∈ e_results e ->
    exists m, members f !! i = Some m /\ _evaluate_member (p_kind p) (p_desired p) m = Ok COMPLIANT.
Proof using FRESH.
  intros E Hp Hpairs Hcons Hallowed f0.
  destruct (enforced_rows new_id now FRESH _ _ _ _ _ E) as (p' & l & res & e & Henf & Hrec & _ & Hperm & Hmem & Hout).
  destruct Henf as (Hp' & _ & _ & Hkind & t & _ & Hv & Hres). rewrite Hp in Hp'. injection Hp' as <-.
  destruct Hout as (r & dd & pairs' & _ & Hruns & Hdd & _ & Hpairs' & Ha & Hpar & Hby & Hfirst & _ & Hin & _ & _ & _ & Hst).
  rewrite Hpairs in Hpairs'. injection Hpairs' as <-.
  assert (Hrow : runs f0 !! rid = Some r) by (unfold f0; rewrite Hruns; apply lookup_insert_eq).
  assert (Hthere : Forall (fun i => members f0 !! i <> None) (resolved_member_ids dd)).
  { apply Forall_forall. intros i (m & (Hi & _) & _)%Hin. unfold f0. rewrite Hmem. congruence. }
  split; [by eapply carried_out|]. split; [intros f log k; by eapply carried_on|].
  intros f log n e' i Hc He' Hi. rewrite (recorded_unique _ _ _ _ He' Hrec), Hperm in Hi.
  apply (proj1 (evaluate_fresh_spec u p t (base d) l Hv) res Hres) in Hi as (m & Hcov & Hd).
  assert (Hidd : i ∈ resolved_member_ids dd) by (apply Hin; by exists m).
  destruct (carried_completed reconcile rid f0 r dd (required_dict pairs) Hallowed Hrow (conj Ha Hpar) Hby Hfirst Hdd Hthere
              f log n i Hc Hidd) as (m0 & m' & Hm0 & Hm' & Hlab & Hrec').
  exists m'. split; [done|]. unfold f0 in Hm0. rewrite Hmem in Hm0. destruct Hcov as [Hm _].
  rewrite Hm in Hm0. injection Hm0 as <-. rewrite Hkind in *.
  destruct (label_verdict m _ _ Hpairs) as (c & Hc1 & Hun & _). rewrite Hd in Hc1. injection Hc1 as <-.
  destruct (label_verdict m' _ _ Hpairs) as (c' & -> & _ & Hcomp). f_equal. apply Hcomp. split.
  - intros Hnone. by apply Hrec', Hun in Hnone.
  - intros k v Hk. rewrite Hlab. by apply required_dict_lookup.
Qed.
End enforce.

(** ** A policy carried out *)

Module Example.
#[local] Instance some_order : SetOrder Z := elements_order.
Import FleetTarget.Example FleetPolicy.Example.

Lemma enforced_complies_witness : exists d' rid f log n,
  enforce_fleet_policy next_id 60 operator 4 watched = (d', Ok (Some rid)) /\
  carried no_reconcile rid (core (base d')) f log (Completed n).
Proof.
  assert (E : exists d' rid, enforce_fleet_policy next_id 60 operator 4 watched = (d', Ok (Some rid)))
    by (eexists _, _; vm_compute; reflexivity).
  destruct E as (d' & rid & E).
  destruct (enforced_complies next_id 60 no_reconcile next_id_new operator 4 owned [("team", "core")] watched d' rid E)
    as [(f & log & n & Hc) _]; try reflexivity.
  - intros k v v' Hk%list_elem_of_singleton Hk'%list_elem_of_singleton. congruence.
  - exists d', rid, f, log, n. split; [exact E|exact Hc].
Defined.
End Example.
