(* ===== verification/UpgradePlan.v ===== *)
(** * BNK upgrades: versions, scan, pre-checks and plan
      (services/bnk_upgrade_service.py, bnk_upgrade_plan_service.py,
      scanner/bnk_install.py)

    What a scan says of a cluster's BNK, the checks before an upgrade, the plan,
    and the requests that create and cancel an upgrade.  The pods of a scan come
    classified (bnk_pod_discovery.py).  A scan has all its keys, as the scanner
    writes them, and only those read here.  The texts of details and errors,
    times, who asked and the namespaces a scan finds are left out. *)

From Stdlib Require Import Ascii.
From S2P Require Import Prelude Texts.

#[local] Open Scope string_scope.
#[local] Open Scope list_scope.
#[local] Open Scope Z_scope.
#[local] Set Default Proof Using "Type".

(** ** Versions *)

Definition is_digit (c : ascii) : bool := match digit c with Some _ => true | None => false end.

(** [int] of the parts up to the first that is no number. *)
Fixpoint leading_ints (parts : list string) : list Z :=
  match parts with
  | [] => []
  | p :: parts => match py_int p with Some n => n :: leading_ints parts | None => [] end
  end.

(** [v.lstrip("v")] *)
Fixpoint lstrip_v (s : string) : string :=
  match s with String "v" s' => lstrip_v s' | _ => s end.

Definition parse_version (v : string) : list Z :=
  match leading_ints (split_on (fun c => Ascii.eqb c "-" || Ascii.eqb c ".") (lstrip_v v) "") with
  | [] => [0]
  | l => l
  end.
Definition version_gt (a b : string) : bool := tuple_lt (parse_version b) (parse_version a).
Definition version_eq (a b : string) : bool := bool_decide (parse_version a = parse_version b).

Record version_range := { min_version : list Z; max_version : list Z; vr_label : string; min_k8s : string; max_k8s : string }.
Definition _VERSION_RANGES : list version_range :=
  [{| min_version := parse_version "2.20.0"; max_version := parse_version "3.0.0"; vr_label := "BNK 2.3 GA";
      min_k8s := "1.30"; max_k8s := "1.33" |};
   {| min_version := parse_version "2.0.0"; max_version := parse_version "2.20.0"; vr_label := "BNK 2.2 GA";
      min_k8s := "1.30"; max_k8s := "1.33" |};
   {| min_version := parse_version "v1.198.0"; max_version := parse_version "v1.199.0"; vr_label := "BNK 2.1 GA";
      min_k8s := "1.26"; max_k8s := "1.29" |};
   {| min_version := parse_version "v1.0.0"; max_version := parse_version "v1.198.0"; vr_label := "BNK 2.0";
      min_k8s := "1.25"; max_k8s := "1.28" |}].

Definition in_range (v : list Z) (vr : version_range) : bool :=
  negb (tuple_lt v (min_version vr)) && tuple_lt v (max_version vr).
Definition get_known_version_info (v : string) : option version_range :=
  snd <$> list_find (fun vr => in_range (parse_version v) vr = true) _VERSION_RANGES.

(** ** The scan *)

Record container := { ct_ready : bool; ct_image : string }.
Record pod := { phase : string; pod_containers : list container }.
Record vlan_resource := { vl_name : string; vl_conditions : list (string * string) }.

Record helm_row := { hr_name : string; hr_namespace : string; hr_chart : option string }.
Record flo_row := { flo_version : option string; flo_pods : Z; flo_running : Z; helm_release : option helm_row }.
(** [tmm_containers]: the dict of the TMM's containers; [cne_instance]: the name
    of the first one; [vlans]: names, and whether they are programmed. *)
Record install := {
  i_status : string;
  i_health : option string;
  install_shape : string;
  flo : flo_row;
  tmm_pods : Z;
  tmm_running : Z;
  tmm_containers : option (list (string * json));
  controller_pods : Z;
  controller_running : Z;
  cne_instance : option string;
  vlans : list (string * bool)
}.

Definition F5_CRD_GROUPS : list string := ["k8s.f5.com"; "k8s.f5net.com"; "gateway.k8s.f5net.com"; "fic.f5.com"].

(** [v?([\d][\d.-]+)] at the front of a text. *)
Definition version_tag (s : string) : option string :=
  let s := match s with String "v" s' => s' | _ => s end in
  let t := fst (span (fun c => is_digit c || Ascii.eqb c "." || Ascii.eqb c "-") s) in
  match s with
  | String c _ => if is_digit c && (2 <=? Z.of_nat (String.length t)) then Some t else None
  | EmptyString => None
  end.
Fixpoint tag_after_colon (s : string) : option string :=
  match s with
  | EmptyString => None
  | String c s' =>
      if Ascii.eqb c ":" then match version_tag s' with Some t => Some t | None => tag_after_colon s' end
      else tag_after_colon s'
  end.
Definition image_version (img : string) : option string :=
  match after_sub "f5-lifecycle" img ≫= tag_after_colon with
  | Some t => Some t
  | None => tag_after_colon img
  end.
Definition _extract_flo_version (pods : list pod) : option string :=
  head (omap (fun c => image_version (ct_image c)) (p ← pods; pod_containers p)).

Definition detect_install_shape (flo_pods tmm_pods controller_pods : list pod) : string :=
  match flo_pods, tmm_pods, controller_pods with
  | _ :: _, _, _ => "flo"
  | [], [], [] => "unknown"
  | [], _, _ => "helm"
  end.

Definition _find_flo_helm_release (rs : list helm_row) : option helm_row :=
  let named p := snd <$> list_find (fun r => p (lower (hr_name r)) = true) rs in
  match named (fun n => contains "f5" n && contains "lifecycle" n) with
  | Some r => Some r
  | None =>
      match named (fun n => contains "f5ingress" n || contains "cne" n) with
      | Some r => Some r
      | None => snd <$> list_find (fun r => hr_namespace r = "f5-operator") rs
      end
  end.

(** A count in a dict of counts, 0 without it. *)
Definition count_at (key : string) (d : list (string * json)) : Z :=
  match dget key d with Some (JInt n) => n | _ => 0 end.

(** The third key's text is left out. *)
Definition _tmm_container_summary (tmm_pods : list pod) : option (list (string * json)) :=
  match tmm_pods with
  | [] => None
  | p :: _ => Some [("total_containers", JInt (Z.of_nat (length (pod_containers p))));
                    ("ready_containers", JInt (Z.of_nat (length (filter (fun c => ct_ready c = true) (pod_containers p)))));
                    ("containers", JStr "")]
  end.

Definition _parse_vlans (vs : list vlan_resource) : list (string * bool) :=
  (fun v => (vl_name v, bool_decide (("Programmed", "True") ∈ vl_conditions v))) <$> vs.

Definition _determine_status (tmm_running flo_running controller_running : list pod) (has_f5_crds cne_instance_present : bool)
    (tmm_container_info : option (list (string * json))) (namespaces : list string) : string * option string :=
  let some {A} (l : list A) := match l with [] => false | _ => true end in
  if some tmm_running && has_f5_crds && (some flo_running || some controller_running || cne_instance_present) then
    ("installed",
     Some (if match tmm_container_info with
              | Some d => count_at "ready_containers" d =? count_at "total_containers" d
              | None => false
              end then "healthy" else "degraded"))
  else if has_f5_crds || some flo_running || bool_decide ("f5-operator" ∈ namespaces) || bool_decide ("f5-bnk" ∈ namespaces)
  then ("partial", Some "degraded")
  else ("not_installed", None).

(** [crds]: the groups of the CRDs; [cneinstances]: names. *)
Definition analyze_bnk_install (crds : list string) (tmm flo controller : list pod) (helm_releases : list helm_row)
    (cneinstances : list string) (vs : list vlan_resource) (namespaces : list string) : install :=
  let up := filter (fun p => phase p = "Running") in
  let has_f5_crds := existsb (fun g => bool_decide (g ∈ F5_CRD_GROUPS)) crds in
  let containers := _tmm_container_summary tmm in
  let '(st, he) := _determine_status (up tmm) (up flo) (up controller) has_f5_crds
                     (match cneinstances with [] => false | _ => true end) containers namespaces in
  {| i_status := st; i_health := he; install_shape := detect_install_shape flo tmm controller;
     flo := {| flo_version := _extract_flo_version flo; flo_pods := Z.of_nat (length flo);
               flo_running := Z.of_nat (length (up flo)); helm_release := _find_flo_helm_release helm_releases |};
     tmm_pods := Z.of_nat (length tmm); tmm_running := Z.of_nat (length (up tmm)); tmm_containers := containers;
     controller_pods := Z.of_nat (length controller); controller_running := Z.of_nat (length (up controller));
     cne_instance := head cneinstances; vlans := _parse_vlans vs |}.

(** ** The version installed *)

(** [\d+\.\d+\.\d+(?:-[\d.]+)?] over a whole text. *)
Definition version_tail (s : string) : bool :=
  match span is_digit s with
  | (String _ _, String "." r) =>
      match span is_digit r with
      | (String _ _, String "." r) =>
          match span is_digit r with
          | (String _ _, EmptyString) => true
          | (String _ _, String "-" r) =>
              match span (fun c => is_digit c || Ascii.eqb c ".") r with
              | (String _ _, EmptyString) => true
              | _ => false
              end
          | _ => false
          end
      | _ => false
      end
  | _ => false
  end.
Fixpoint chart_version (chart : string) : option string :=
  match chart with
  | EmptyString => None
  | String c chart' => if Ascii.eqb c "-" && version_tail chart' then Some chart' else chart_version chart'
  end.

Definition detect_current_bnk_version (i : install) : option string :=
  if truthy_str (flo_version (flo i)) then flo_version (flo i)
  else chart_version (default "" (helm_release (flo i) ≫= hr_chart)).

(** [v?(\d+\.\d+)] at the front of a text. *)
Definition k8s_minor (s : string) : option string :=
  let s := match s with String "v" s' => s' | _ => s end in
  match span is_digit s with
  | (String _ _ as a, String "." r) =>
      match span is_digit r with
      | (String _ _ as b, _) => Some (a +:+ "." +:+ b)
      | _ => None
      end
  | _ => None
  end.

(** ** Pre-checks *)

Inductive verdict := PASS | WARN | FAIL.
#[global] Instance verdict_eq_dec : EqDecision verdict.
Proof. solve_decision. Defined.
Record check := { c_name : string; c_status : verdict; c_critical : bool }.

Definition version_change (current : option string) (target : string) : list check :=
  match current with
  | Some cur =>
      if negb (String.eqb cur "") && negb (String.eqb target "") then
        [if version_eq target cur then {| c_name := "version_change"; c_status := FAIL; c_critical := true |}
         else if version_gt target cur then {| c_name := "version_change"; c_status := PASS; c_critical := true |}
         else {| c_name := "version_change"; c_status := WARN; c_critical := false |}]
      else []
  | None => []
  end.

Definition k8s_compat (k8s_version target : string) : list check :=
  match get_known_version_info target with
  | Some info =>
      if String.eqb k8s_version "" then []
      else
        match k8s_minor k8s_version with
        | None => []
        | Some k8s_ver =>
            [if tuple_lt (parse_version k8s_ver) (parse_version (min_k8s info))
             then {| c_name := "k8s_compat"; c_status := FAIL; c_critical := true |}
             else if tuple_lt (parse_version (max_k8s info)) (parse_version k8s_ver)
             then {| c_name := "k8s_compat"; c_status := WARN; c_critical := false |}
             else {| c_name := "k8s_compat"; c_status := PASS; c_critical := true |}]
        end
  | None => []
  end.

Definition all_up (running pods : Z) : bool := (running =? pods) && (0 <? pods).
Definition pass_or_warn (b : bool) : verdict := if b then PASS else WARN.

Definition _run_pre_checks (i : install) (k8s_version : string) (current : option string) (target : string) : list check :=
  [{| c_name := "bnk_installed"; c_status := if String.eqb (i_status i) "installed" then PASS else FAIL; c_critical := true |};
   {| c_name := "version_detected"; c_status := if truthy_str current then PASS else FAIL; c_critical := true |}]
  ++ version_change current target
  ++ [{| c_name := "flo_health";
         c_status := if String.eqb (install_shape i) "helm" then PASS
                     else pass_or_warn (all_up (flo_running (flo i)) (flo_pods (flo i)));
         c_critical := false |};
      {| c_name := "tmm_health"; c_status := pass_or_warn (all_up (tmm_running i) (tmm_pods i)); c_critical := false |};
      {| c_name := "vlans_programmed"; c_status := pass_or_warn (forallb snd (vlans i)); c_critical := false |}]
  ++ k8s_compat k8s_version target
  ++ [{| c_name := "helm_release"; c_status := match helm_release (flo i) with Some _ => PASS | None => WARN end;
         c_critical := false |}].

Definition pre_checks_passed (checks : list check) : bool :=
  bool_decide (filter (fun c => c_status c = FAIL /\ c_critical c = true) checks = []).

(** ** The plan *)

Inductive step_action := HELM_UPGRADE | MANIFEST_APPLY | HEALTH_GATE | CRD_WAIT | WARN_STEP.
#[global] Instance step_action_eq_dec : EqDecision step_action.
Proof. solve_decision. Defined.

Record helm_ref := { release_name : string; namespace : option string; chart : option string; version : string }.
Record plan_step := {
  ps_step : Z;
  ps_action : step_action;
  ps_module : option string;
  ps_phase : string;
  ps_checks : list string;
  ps_timeout : Z;
  ps_helm : option helm_ref
}.

Definition gate (phase : string) (checks : list string) (timeout step : Z) : plan_step :=
  {| ps_step := step; ps_action := HEALTH_GATE; ps_module := None; ps_phase := phase; ps_checks := checks;
     ps_timeout := timeout; ps_helm := None |}.
Definition reapply (module phase : string) (timeout step : Z) : plan_step :=
  {| ps_step := step; ps_action := MANIFEST_APPLY; ps_module := Some module; ps_phase := phase; ps_checks := [];
     ps_timeout := timeout; ps_helm := None |}.
Definition warn_step (step : Z) : plan_step :=
  {| ps_step := step; ps_action := WARN_STEP; ps_module := None; ps_phase := "pre_upgrade"; ps_checks := [];
     ps_timeout := 0; ps_helm := None |}.
Definition helm_step (r : helm_ref) (step : Z) : plan_step :=
  {| ps_step := step; ps_action := HELM_UPGRADE; ps_module := Some "bnk/flo"; ps_phase := "flo_upgrade"; ps_checks := [];
     ps_timeout := 600; ps_helm := Some r |}.
Definition crd_wait_step (step : Z) : plan_step :=
  {| ps_step := step; ps_action := CRD_WAIT; ps_module := None; ps_phase := "crd_migration"; ps_checks := [];
     ps_timeout := 120; ps_helm := None |}.

(** [plan.append({"step": step, ...})] after [step += 1]. *)
Definition numbered (steps : list (Z -> plan_step)) : list plan_step := imap (fun i mk => mk (Z.of_nat i + 1)) steps.

Definition text_or (s : option string) (fallback : string) : string := if truthy_str s then default "" s else fallback.

Definition _build_plan (i : install) (target : string) : list plan_step :=
  let rel := helm_release (flo i) in
  let name := hr_name <$> rel in
  let flo_chart := rel ≫= hr_chart in
  let flo_namespace := hr_namespace <$> rel in
  let is_flo := String.eqb (install_shape i) "flo" in
  let chart_ref_fallback := negb (truthy_str flo_chart) in
  let namespace_fallback := negb (truthy_str flo_namespace) in
  let chart' := if chart_ref_fallback && is_flo
                then Some ("oci://repo.f5.com/charts/" +:+ text_or name "f5-lifecycle-operator") else flo_chart in
  let namespace' := if namespace_fallback && is_flo then Some "f5-cne-core" else flo_namespace in
  numbered (
    [gate "pre_upgrade" [] 30]
    ++ (if chart_ref_fallback || namespace_fallback then [warn_step] else [])
    ++ [helm_step {| release_name := text_or name "flo"; namespace := namespace'; chart := chart'; version := target |};
        crd_wait_step;
        gate "flo_health" ["flo_pods_ready"; "controller_pods_ready"] 120]
    ++ (if truthy_str (cne_instance i) then [reapply "bnk/cneinstance" "cneinstance_update" 300] else [])
    ++ [gate "tmm_health" ["tmm_pods_ready"; "tmm_containers_ready"] 300]
    ++ (match vlans i with [] => [] | _ => [reapply "bnk/bnk-vlans" "vlans_update" 120] end)
    ++ [reapply "bnk/bnk-gatewayclass" "gatewayclass_update" 60;
        gate "post_upgrade" ["flo_pods_ready"; "tmm_pods_ready"; "tmm_containers_ready"; "vlans_programmed"; "gatewayclass_accepted"] 120]).

(** ** Upgrades *)

Inductive upgrade_status :=
| U_PLANNING | U_READY | U_IN_PROGRESS | U_HEALTH_CHECK | U_COMPLETED | U_FAILED | U_CANCELLED | U_ROLLING_BACK | U_ROLLED_BACK.
#[global] Instance upgrade_status_eq_dec : EqDecision upgrade_status.
Proof. solve_decision. Defined.

(** A step's result: its number, and the error if it failed. *)
Record step_result := { sr_step : Z; sr_error : option string }.
Record rollback_info := { flo_revision : option Z; flo_release_name : string; flo_namespace : option string }.

Record upgrade := {
  u_cluster : Z;
  u_project : option Z;
  from_version : option string;
  to_version : string;
  from_bnk_info : install;
  u_plan : list plan_step;
  total_steps : Z;
  current_step : Z;
  pre_checks : list check;
  pre_check_passed : bool;
  u_status : upgrade_status;
  step_results : list step_result;
  pre_health : option install;
  post_health : option install;
  health_gate_passed : option bool;
  rollback_available : bool;
  u_rollback_info : option rollback_info;
  rollback_reason : option string;
  u_error : option string;
  error_step : option Z
}.

(** [clusters]: their projects. *)
Record ubd := { clusters : gmap Z (option Z); upgrades : gmap Z upgrade }.
Definition set_upgrades (g : gmap Z upgrade -> gmap Z upgrade) (d : ubd) : ubd :=
  {| clusters := clusters d; upgrades := g (upgrades d) |}.

Inductive upgrade_exc :=
| UpgradeValueError (why : string)
| UpgradeInProgress (id : Z) (st : upgrade_status)
| UpgradeNotFound (id : Z)
| UpgradeBadRequest (why : string)
| ScanFailed.

(** The columns a write assigns. *)
Inductive field :=
| F_status (st : upgrade_status)
| F_step (n : Z)
| F_results (l : list step_result)
| F_pre (i : install)
| F_post (i : install)
| F_gate_passed
| F_rollback (r : rollback_info)
| F_reason (why : string)
| F_error (why : string)
| F_error_step (n : Z).

Definition set_field (u : upgrade) (f : field) : upgrade :=
  {| u_cluster := u_cluster u; u_project := u_project u; from_version := from_version u; to_version := to_version u;
     from_bnk_info := from_bnk_info u; u_plan := u_plan u; total_steps := total_steps u;
     current_step := match f with F_step n => n | _ => current_step u end;
     pre_checks := pre_checks u; pre_check_passed := pre_check_passed u;
     u_status := match f with F_status st => st | _ => u_status u end;
     step_results := match f with F_results l => l | _ => step_results u end;
     pre_health := match f with F_pre i => Some i | _ => pre_health u end;
     post_health := match f with F_post i => Some i | _ => post_health u end;
     health_gate_passed := match f with F_gate_passed => Some true | _ => health_gate_passed u end;
     rollback_available := match f with F_rollback _ => true | _ => rollback_available u end;
     u_rollback_info := match f with F_rollback r => Some r | _ => u_rollback_info u end;
     rollback_reason := match f with F_reason why => Some why | _ => rollback_reason u end;
     u_error := match f with F_error why => Some why | _ => u_error u end;
     error_step := match f with F_error_step n => Some n | _ => error_step u end |}.
Definition set_fields (fs : list field) (u : upgrade) : upgrade := fold_left set_field fs u.
Definition set_status (st : upgrade_status) : upgrade -> upgrade := set_fields [F_status st].

Definition _SUPERSEDABLE (st : upgrade_status) : bool := match st with U_PLANNING | U_READY => true | _ => false end.
Definition _EXECUTING (st : upgrade_status) : bool :=
  match st with U_IN_PROGRESS | U_HEALTH_CHECK | U_ROLLING_BACK => true | _ => false end.

(** The row a validation leaves: ready with a plan, or failed. *)
Definition planned (c : Z) (project : option Z) (i : install) (k8s_version target : string) : upgrade :=
  let current := detect_current_bnk_version i in
  let checks := _run_pre_checks i k8s_version current target in
  let passed := pre_checks_passed checks in
  let plan := if passed then _build_plan i target else [] in
  {| u_cluster := c; u_project := project; from_version := current; to_version := target; from_bnk_info := i;
     u_plan := plan; total_steps := Z.of_nat (length plan); current_step := 0; pre_checks := checks;
     pre_check_passed := passed; u_status := if passed then U_READY else U_FAILED; step_results := [];
     pre_health := None; post_health := None; health_gate_passed := None; rollback_available := false;
     u_rollback_info := None; rollback_reason := None; u_error := if passed then None else Some "pre-checks";
     error_step := None |}.

Section requests.
Context {SO : SetOrder Z} (new_id : gmap Z upgrade -> Z).

(** The first upgrade of the cluster that is not over. *)
Definition existing_upgrade (c : Z) (d : ubd) : option (Z * upgrade) :=
  head (select (fun _ u => (u_cluster u =? c) && (_SUPERSEDABLE (u_status u) || _EXECUTING (u_status u))) (upgrades d)).

(** [scan]: what the cluster is like and its Kubernetes version, or the
    exception of the scan, which takes back the cancelling. *)
Definition create_upgrade (c : Z) (target : string) (scan : option (install * string)) (d : ubd) : ubd * result upgrade_exc Z :=
  match clusters d !! c with
  | None => (d, Err (UpgradeValueError "Cluster not found"))
  | Some project =>
      match existing_upgrade c d with
      | Some (i, u) =>
          if _EXECUTING (u_status u) then (d, Err (UpgradeInProgress i (u_status u)))
          else
            match scan with
            | None => (d, Err ScanFailed)
            | Some (inst, k8s) =>
                let us := <[i := set_status U_CANCELLED u]> (upgrades d) in
                let uid := new_id us in
                (set_upgrades (fun _ => <[uid := planned c project inst k8s target]> us) d, Ok uid)
            end
      | None =>
          match scan with
          | None => (d, Err ScanFailed)
          | Some (inst, k8s) =>
              let uid := new_id (upgrades d) in
              (set_upgrades <[uid := planned c project inst k8s target]> d, Ok uid)
          end
      end
  end.

Definition cancel_upgrade (uid : Z) (d : ubd) : ubd * result upgrade_exc unit :=
  match upgrades d !! uid with
  | None => (d, Err (UpgradeValueError "Upgrade not found"))
  | Some u =>
      if _SUPERSEDABLE (u_status u) then (set_upgrades <[uid := set_status U_CANCELLED u]> d, Ok tt)
      else (d, Err (UpgradeValueError "Cannot cancel upgrade in this status"))
  end.

(** The upgrade of the cluster of the path. *)
Definition upgrade_of (c uid : Z) (d : ubd) : result upgrade_exc upgrade :=
  match upgrades d !! uid with
  | Some u => if u_cluster u =? c then Ok u else Err (UpgradeNotFound uid)
  | None => Err (UpgradeNotFound uid)
  end.

(** The routes; [execute_route] and [rollback_route] answer that the task has
    been handed to the broker.  The cluster of the path is the caller's own;
    [cancel_route] does not look at it. *)
Definition execute_route (c uid : Z) (d : ubd) : result upgrade_exc unit :=
  u ← upgrade_of c uid d;
  ensure (bool_decide (u_status u = U_READY)) (UpgradeBadRequest "must be 'ready' to execute").

Definition rollback_route (c uid : Z) (d : ubd) : result upgrade_exc unit :=
  u ← upgrade_of c uid d;
  _ ← ensure (rollback_available u) (UpgradeBadRequest "No rollback available");
  ensure (bool_decide (u_status u ∈ [U_FAILED; U_IN_PROGRESS; U_HEALTH_CHECK])) (UpgradeBadRequest "Cannot rollback from this status").

Definition cancel_route (c uid : Z) (d : ubd) : ubd * result upgrade_exc unit := cancel_upgrade uid d.
End requests.

(** ** The plan and the checks *)

Example k8s_minor_ex : k8s_minor "v1.30.2+rke2r1" = Some "1.30". Proof. reflexivity. Qed.
(** A leading [v] hides the version, and its build is taken for it. *)
Example chart_version_ex : chart_version "f5-lifecycle-operator-v2.21.13-0.0.53" = Some "0.0.53" /\ chart_version "f5-lifecycle-operator-2.21.0-0.0.5" = Some "2.21.0-0.0.5".
Proof. split; reflexivity. Qed.
Example image_version_ex : image_version "repo.f5.com:443/images/f5-lifecycle-operator:v2.21.0-0.0.5" = Some "2.21.0-0.0.5".
Proof. reflexivity. Qed.
Example known_ex : vr_label <$> get_known_version_info "v1.198.4-0.1.36" = Some "BNK 2.1 GA" /\ get_known_version_info "v1.199.0" = None.
Proof. split; reflexivity. Qed.

(** The number of an appended step is its place in the plan. *)
Lemma numbered_steps steps : (forall mk n, mk ∈ steps -> ps_step (mk n) = n) ->
  ps_step <$> numbered steps = seqZ 1 (Z.of_nat (length (numbered steps))).
Proof.
  intros Hmk. apply list_eq. intros k. unfold numbered. rewrite list_lookup_fmap, list_lookup_imap, length_imap.
  destruct (steps !! k) as [mk|] eqn:Ek; cbn.
  - rewrite Hmk by (by eapply list_elem_of_lookup_2). apply lookup_lt_Some in Ek. symmetry. apply lookup_seqZ. lia.
  - apply lookup_ge_None in Ek. symmetry. apply lookup_seqZ_ge. lia.
Qed.

Lemma plan_steps i target : ps_step <$> _build_plan i target = seqZ 1 (Z.of_nat (length (_build_plan i target))).
Proof.
  apply numbered_steps. intros mk n. unfold _build_plan.
  rewrite !elem_of_app. repeat case_match; rewrite ?elem_of_cons, ?elem_of_nil; intuition subst; reflexivity.
Qed.

Lemma seqZ_sorted k m : StronglySorted Z.lt (seqZ m (Z.of_nat k)).
Proof.
  revert m. induction k as [|k IH]; intros m; [rewrite seqZ_nil by lia; constructor|].
  rewrite seqZ_cons by lia. replace (Z.pred (Z.of_nat (S k))) with (Z.of_nat k) by lia. constructor; [apply IH|].
  apply Forall_forall. intros x Hx. apply elem_of_seqZ in Hx. lia.
Qed.

Lemma plan_sorted i target : StronglySorted (fun p q => ps_step p < ps_step q) (_build_plan i target).
Proof.
  pose proof (seqZ_sorted (length (_build_plan i target)) 1) as Hs. rewrite <-plan_steps in Hs.
  induction (_build_plan i target) as [|p plan IH]; [constructor|]. cbn in Hs. apply StronglySorted_inv in Hs as [Hs Hp].
  constructor; [by apply IH|]. rewrite Forall_fmap in Hp. exact Hp.
Qed.

(** The plan ends with the check of the result. *)
Lemma plan_last i target : exists p, p ∈ _build_plan i target /\ ps_step p = Z.of_nat (length (_build_plan i target)) /\
  ps_action p = HEALTH_GATE /\ ps_phase p = "post_upgrade" /\ "tmm_containers_ready" ∈ ps_checks p.
Proof.
  unfold _build_plan, numbered. cbv zeta. rewrite !app_assoc. match goal with |- context [imap _ (?l ++ [_; _])] => generalize l; intros front end.
  rewrite imap_app, length_app, length_imap. cbn.
  eexists. split; [apply elem_of_app; right; right; left|]. cbn. split; [|set_solver]. lia.
Qed.

(** A plan is numbered from 1; it checks and captures first, upgrades the
    release to the target once, waits for the CRDs, and re-applies what there is
    to re-apply after it, in that order, the whole ending with the check of the
    result. *)
Theorem plan_correct (i : install) (target : string) :
  let plan := _build_plan i target in
  ps_step <$> plan = seqZ 1 (Z.of_nat (length plan)) /\
  (ps_phase <$> head plan = Some "pre_upgrade" /\ ps_phase <$> last plan = Some "post_upgrade") /\
  exists pre h r post,
    plan = pre ++ h :: post /\
    ps_action h = HELM_UPGRADE /\ ps_helm h = Some r /\ version r = target /\
    (install_shape i = "flo" -> truthy_str (namespace r) = true /\ truthy_str (chart r) = true) /\
    Forall (fun p => ps_action p = HEALTH_GATE \/ ps_action p = WARN_STEP) pre /\
    Forall (fun p => ps_action p <> HELM_UPGRADE) post /\
    ps_action <$> head post = Some CRD_WAIT /\
    omap ps_module post =
      (if truthy_str (cne_instance i) then ["bnk/cneinstance"] else [])
      ++ (match vlans i with [] => [] | _ => ["bnk/bnk-vlans"] end) ++ ["bnk/bnk-gatewayclass"].
Proof.
  cbv zeta. split; [apply plan_steps|].
  assert (Hns : forall s, negb (truthy_str s) = false -> truthy_str s = true) by (intros s; by destruct (truthy_str s)).
  unfold _build_plan. cbv zeta.
  set (rel := helm_release (flo i)). set (is_flo := String.eqb (install_shape i) "flo").
  set (ch := if _ && is_flo then Some ("oci://repo.f5.com/charts/" +:+ _) else _).
  set (ns := if _ && is_flo then Some "f5-cne-core" else _).
  assert (Hc : install_shape i = "flo" -> truthy_str ns = true /\ truthy_str ch = true).
  { intros Hs. subst ns ch is_flo. rewrite Hs. cbn [String.eqb]. rewrite !andb_true_r. split; case_match; eauto. }
  clearbody ch ns.
  destruct (negb (truthy_str (rel ≫= hr_chart)) || negb (truthy_str (hr_namespace <$> rel)));
    destruct (truthy_str (cne_instance i)); destruct (vlans i);
    (split; [split; reflexivity|]);
    first [ eexists [_; _], _, _, _; split; [reflexivity|]; split; [reflexivity|]
          | eexists [_], _, _, _; split; [reflexivity|] ];
    repeat (split; [first [reflexivity | exact Hc | repeat constructor; (left; reflexivity) || (right; reflexivity) || discriminate]|]);
    reflexivity.
Qed.

Lemma pre_checks_passed_spec cs :
  pre_checks_passed cs = true <-> Forall (fun c => ~ (c_status c = FAIL /\ c_critical c = true)) cs.
Proof.
  unfold pre_checks_passed. rewrite bool_decide_eq_true. induction cs as [|c cs IH].
  { split; [intros _; constructor|done]. }
  rewrite Forall_cons, filter_cons. case_decide as H; [split; [done|tauto]|]. rewrite IH. tauto.
Qed.

(** Whether [target] would change the version: a check that passes without either. *)
Definition changes (current : option string) (target : string) : Prop :=
  forall cur, current = Some cur -> cur <> "" -> target <> "" -> version_eq target cur = false.
(** Whether the cluster's Kubernetes is new enough for [target], as far as both are known. *)
Definition k8s_supported (k8s target : string) : Prop :=
  forall info m, get_known_version_info target = Some info -> k8s <> "" -> k8s_minor k8s = Some m ->
    tuple_lt (parse_version m) (parse_version (min_k8s info)) = false.

Lemma version_change_passed current target :
  Forall (fun c => ~ (c_status c = FAIL /\ c_critical c = true)) (version_change current target) <-> changes current target.
Proof.
  unfold version_change, changes. destruct current as [cur|]; [|split; [done|intros _; constructor]].
  destruct (String.eqb_spec cur "") as [->|Hc], (String.eqb_spec target "") as [->|Ht]; cbn [negb andb];
    try (split; [intros _ c [= <-]; done|intros _; constructor]).
  rewrite Forall_singleton. destruct (version_eq target cur) eqn:Hv; cbn.
  - split; [tauto|]. intros H. specialize (H cur eq_refl Hc Ht). congruence.
  - split; [by intros _ c [= <-]|]. intros _. destruct (version_gt target cur); cbn; intuition congruence.
Qed.

Lemma k8s_compat_passed k8s target :
  Forall (fun c => ~ (c_status c = FAIL /\ c_critical c = true)) (k8s_compat k8s target) <-> k8s_supported k8s target.
Proof.
  unfold k8s_compat, k8s_supported. destruct (get_known_version_info target) as [info|]; [|split; [done|intros _; constructor]].
  destruct (String.eqb_spec k8s "") as [->|Hk]; [split; [done|intros _; constructor]|].
  destruct (k8s_minor k8s) as [m|]; [|split; [done|intros _; constructor]].
  rewrite Forall_singleton. destruct (tuple_lt (parse_version m) (parse_version (min_k8s info))) eqn:Hm.
  - cbn. split; [tauto|]. intros H. specialize (H info m eq_refl Hk eq_refl). congruence.
  - split; [by intros _ ? ? [= <-] _ [= <-]|]. intros _. case_match; cbn; intuition congruence.
Qed.

Lemma checks_passed i k8s current target :
  pre_checks_passed (_run_pre_checks i k8s current target) = true <->
  i_status i = "installed" /\ truthy_str current = true /\ changes current target /\ k8s_supported k8s target.
Proof.
  rewrite pre_checks_passed_spec. unfold _run_pre_checks.
  rewrite !Forall_app, !Forall_cons, !Forall_nil, version_change_passed, k8s_compat_passed. cbn [c_status c_critical].
  assert (Hw : forall b, pass_or_warn b <> FAIL) by (by intros []).
  destruct (String.eqb_spec (i_status i) "installed"), (truthy_str current), (helm_release (flo i));
    intuition (try discriminate; try congruence).
Qed.

(** A validation is ready, with a plan for the target, exactly when BNK is
    installed in a version that could be read, the target differs from it and
    the cluster's Kubernetes is not known to be too old; otherwise it has failed
    and has no plan.  Degraded pods, VLANs and a downgrade are warnings only. *)
Theorem validation_correct (c : Z) (project : option Z) (i : install) (k8s target : string) :
  let u := planned c project i k8s target in
  let current := detect_current_bnk_version i in
  (u_status u = U_READY /\ u_plan u = _build_plan i target \/ u_status u = U_FAILED /\ u_plan u = []) /\
  total_steps u = Z.of_nat (length (u_plan u)) /\
  (u_status u = U_READY <->
   i_status i = "installed" /\ truthy_str current = true /\ changes current target /\ k8s_supported k8s target).
Proof.
  cbv zeta. unfold planned. cbn [u_status u_plan total_steps]. rewrite <-checks_passed.
  destruct (pre_checks_passed _); intuition congruence.
Qed.

(** ** Requests *)

Definition is_open (u : upgrade) : bool := _SUPERSEDABLE (u_status u) || _EXECUTING (u_status u).
(** A cluster has at most one upgrade that is not over. *)
Definition one_open (d : ubd) : Prop :=
  forall i j u v, upgrades d !! i = Some u -> upgrades d !! j = Some v -> is_open u = true -> is_open v = true ->
    u_cluster u = u_cluster v -> i = j.

Lemma one_open_put i u d :
  (is_open u = true -> forall j v, upgrades d !! j = Some v -> is_open v = true -> u_cluster v = u_cluster u -> j = i) ->
  one_open d -> one_open (set_upgrades <[i := u]> d).
Proof.
  intros Hu Hd a b x y. cbn. rewrite !lookup_insert_Some. intros [[<- <-]|[Ha Hx]] [[<- <-]|[Hb Hy]] Ox Oy Hc; eauto.
  symmetry. eapply Hu; eauto.
Qed.

Lemma one_open_close i u d : is_open u = false -> one_open d -> one_open (set_upgrades <[i := u]> d).
Proof. intros Hu. apply one_open_put. congruence. Qed.

Section requests_correct.
Context {SO : SetOrder Z} (new_id : gmap Z upgrade -> Z).

Lemma existing_None c d :
  existing_upgrade c d = None <-> forall i u, upgrades d !! i = Some u -> is_open u = true -> u_cluster u <> c.
Proof.
  unfold existing_upgrade. rewrite head_None. split.
  - intros H i u Hu Ho Hc. assert (Hin : (i, u) ∈ ([] : list (Z * upgrade))); [|by apply elem_of_nil in Hin].
    rewrite <-H. apply elem_of_select. split; [done|]. apply andb_true_iff. split; [lia|done].
  - intros H. destruct (select _ _) as [|[i u] l] eqn:E; [done|]. exfalso.
    assert (Hin : (i, u) ∈ (i, u) :: l) by (by left). rewrite <-E in Hin. apply elem_of_select in Hin as [Hu Hp].
    apply andb_true_iff in Hp as [Hc Ho]. apply (H i u Hu Ho). lia.
Qed.

Lemma existing_Some c d i u :
  existing_upgrade c d = Some (i, u) -> upgrades d !! i = Some u /\ is_open u = true /\ u_cluster u = c.
Proof.
  intros H. apply head_Some_elem_of, elem_of_select in H as [Hu Hp]. apply andb_true_iff in Hp as [Hc Ho].
  repeat split; [done..|lia].
Qed.

Hypothesis FRESH : forall t, t !! new_id t = None.

(** Under [one_open], the open upgrade of a cluster is the one found. *)
Lemma existing_unique c d i u : one_open d -> existing_upgrade c d = Some (i, u) ->
  forall j v, upgrades d !! j = Some v -> is_open v = true -> u_cluster v = c -> j = i.
Proof. intros OPEN (Hu & Ho & Hc)%existing_Some j v Hj Hv Hcv. eapply OPEN; eauto. congruence. Qed.

Lemma create_open c target scan d : one_open d -> one_open (create_upgrade new_id c target scan d).1.
Proof using FRESH.
  intros OPEN. unfold create_upgrade. destruct (clusters d !! c) as [project|]; [|done].
  destruct (existing_upgrade c d) as [[i u]|] eqn:Ex.
  - pose proof (existing_unique c d i u OPEN Ex) as Hu1.
    destruct (_EXECUTING (u_status u)); [done|]. destruct scan as [[inst k8s]|]; [|done].
    change (one_open (set_upgrades <[new_id (<[i:=set_status U_CANCELLED u]> (upgrades d)) := planned c project inst k8s target]>
                        (set_upgrades <[i:=set_status U_CANCELLED u]> d))).
    apply one_open_put; [|by apply one_open_close].
    intros _ j v. cbn. rewrite lookup_insert_Some. intros [[<- <-]|[Hne Hj]] Hv Hc; [done|].
    by destruct Hne; symmetry; apply (Hu1 j v).
  - rewrite existing_None in Ex. destruct scan as [[inst k8s]|]; [|done].
    apply one_open_put; [|done]. intros _ j v Hj Hv Hc. exfalso. by apply (Ex j v).
Qed.

(** C31. Of a known cluster: a request is refused, naming it, exactly while an
    upgrade of the cluster is under way, and takes back all it did when the scan
    fails; otherwise it adds one validated upgrade, cancels the one that was
    planned or ready, leaves every other upgrade, and a cluster still has at
    most one that is not over. *)
Theorem create_correct (c : Z) (target : string) (scan : option (install * string)) (d : ubd) (project : option Z)
    (OPEN : one_open d) (CLUSTER : clusters d !! c = Some project) :
  let d' := (create_upgrade new_id c target scan d).1 in
  one_open d' /\
  match (create_upgrade new_id c target scan d).2 with
  | Ok uid => exists inst k8s, scan = Some (inst, k8s) /\ upgrades d !! uid = None /\
      upgrades d' !! uid = Some (planned c project inst k8s target) /\
      forall j u, upgrades d !! j = Some u ->
        if is_open u && (u_cluster u =? c)
        then _EXECUTING (u_status u) = false /\ upgrades d' !! j = Some (set_status U_CANCELLED u)
        else upgrades d' !! j = Some u
  | Err (UpgradeInProgress i st) => d' = d /\
      exists u, upgrades d !! i = Some u /\ u_cluster u = c /\ u_status u = st /\ _EXECUTING st = true
  | Err e => d' = d /\ e = ScanFailed /\ scan = None
  end.
Proof using FRESH.
  split; [by apply create_open|]. unfold create_upgrade. rewrite CLUSTER.
  destruct (existing_upgrade c d) as [[i u]|] eqn:Ex.
  - pose proof (existing_unique c d i u OPEN Ex) as Hu1. apply existing_Some in Ex as (Hu & Ho & Hc).
    destruct (_EXECUTING (u_status u)) eqn:Ee; cbn [fst snd]; [by eauto 8|].
    destruct scan as [[inst k8s]|]; cbn [fst snd]; [|done].
    set (us := <[i := _]> (upgrades d)). pose proof (FRESH us) as Hf. set (uid := new_id us) in *.
    assert (Hne : uid <> i) by (intros ->; subst us; by rewrite lookup_insert_eq in Hf).
    assert (Hnone : upgrades d !! uid = None) by (subst us; by rewrite lookup_insert_ne in Hf by done).
    exists inst, k8s. cbn. split; [done|]. split; [done|]. split; [by rewrite lookup_insert_eq|].
    intros j v Hj. assert (j <> uid) by congruence. rewrite lookup_insert_ne by done. subst us.
    destruct (is_open v && (u_cluster v =? c)) eqn:Ev.
    + apply andb_true_iff in Ev as [Hv Hcv]. assert (j = i) as -> by (apply (Hu1 j v); [done|done|lia]).
      rewrite lookup_insert_eq. assert (v = u) as -> by congruence. done.
    + destruct (decide (j = i)) as [->|]; [|by rewrite lookup_insert_ne by done]. exfalso.
      assert (v = u) as -> by congruence. rewrite Ho in Ev. cbn in Ev. lia.
  - rewrite existing_None in Ex. destruct scan as [[inst k8s]|]; cbn [fst snd]; [|done].
    pose proof (FRESH (upgrades d)) as Hf. set (uid := new_id _) in *.
    exists inst, k8s. cbn. split; [done|]. split; [done|]. split; [by rewrite lookup_insert_eq|].
    intros j v Hj. rewrite lookup_insert_ne by congruence.
    destruct (is_open v && (u_cluster v =? c)) eqn:Ev; [|done].
    apply andb_true_iff in Ev as [Hv Hcv]. exfalso. apply (Ex j v); [done|done|lia].
Qed.
End requests_correct.

(** Only a planned or ready upgrade is cancelled, and that is all that changes. *)
Lemma cancel_spec uid d :
  match cancel_upgrade uid d with
  | (d', Ok _) => exists u, upgrades d !! uid = Some u /\ _SUPERSEDABLE (u_status u) = true /\
      d' = set_upgrades <[uid := set_status U_CANCELLED u]> d
  | (d', Err _) => d' = d
  end.
Proof. unfold cancel_upgrade. destruct (upgrades d !! uid) as [u|]; [|done]. destruct (_SUPERSEDABLE _) eqn:E; eauto. Qed.

Lemma cancel_open uid d : one_open d -> one_open (cancel_upgrade uid d).1.
Proof.
  intros Hd. pose proof (cancel_spec uid d) as Hc. destruct (cancel_upgrade uid d) as [d' [[]|e]]; cbn; [|by subst].
  destruct Hc as (u & _ & _ & ->). by apply one_open_close.
Qed.

(** ** A cluster to upgrade *)

Module Example.
#[local] Instance some_order : SetOrder Z := elements_order.

Definition running (img : string) : pod := {| phase := "Running"; pod_containers := [{| ct_ready := true; ct_image := img |}] |}.
Definition release : helm_row :=
  {| hr_name := "f5-lifecycle-operator"; hr_namespace := "f5-operator"; hr_chart := Some "oci://repo.f5.com/charts/f5-lifecycle-operator" |}.
Definition healthy : install :=
  analyze_bnk_install ["k8s.f5.com"] [running "tmm:v1"] [running "repo.f5.com/images/f5-lifecycle-operator:v2.20.0-0.0.1"]
    [running "f5ingress:v1"] [release] ["bnk"] [{| vl_name := "external"; vl_conditions := [("Programmed", "True")] |}] ["f5-operator"].

Example healthy_ex : (i_status healthy, i_health healthy, detect_current_bnk_version healthy) = ("installed", Some "healthy", Some "2.20.0-0.0.1").
Proof. reflexivity. Qed.

(** Cluster 1 has an upgrade that is ready. *)
Definition waiting : ubd :=
  {| clusters := {[1 := Some 7]}; upgrades := {[5 := planned 1 (Some 7) healthy "v1.31.2" "2.20.5-0.0.3"]} |}.

Example waiting_ex : (fun u => (u_status u, length (u_plan u))) <$> (upgrades waiting !! 5) = Some (U_READY, 9%nat).
Proof. reflexivity. Qed.

Lemma waiting_open : one_open waiting.
Proof.
  intros i j u v Hi Hj _ _ _. unfold waiting in Hi, Hj. cbn [upgrades] in Hi, Hj.
  apply lookup_singleton_Some in Hi as [<- _]. by apply lookup_singleton_Some in Hj as [<- _].
Qed.

Lemma create_correct_witness : exists uid,
  (create_upgrade (next_id upgrade) 1 "2.21.0-0.0.5" (Some (healthy, "v1.31.2")) waiting).2 = Ok uid /\
  upgrades (create_upgrade (next_id upgrade) 1 "2.21.0-0.0.5" (Some (healthy, "v1.31.2")) waiting).1 !! 5 =
    Some (set_status U_CANCELLED (planned 1 (Some 7) healthy "v1.31.2" "2.20.5-0.0.3")).
Proof.
  pose proof (create_correct (next_id upgrade) (next_id_new upgrade) 1 "2.21.0-0.0.5" (Some (healthy, "v1.31.2")) waiting (Some 7)
                waiting_open eq_refl) as [_ H].
  destruct (create_upgrade (next_id upgrade) 1 "2.21.0-0.0.5" (Some (healthy, "v1.31.2")) waiting).2 as [uid|[why|i st|i|why|]] eqn:E.
  - exists uid. split; [done|]. destruct H as (inst & k8s & _ & _ & _ & H). exact (proj2 (H 5 _ eq_refl)).
  - destruct H as (_ & H & _). discriminate.
  - destruct H as (_ & u & _ & _ & _ & Hst). revert E. vm_compute. discriminate.
  - destruct H as (_ & H & _). discriminate.
  - destruct H as (_ & H & _). discriminate.
  - destruct H as (_ & _ & H). discriminate.
Defined.
End Example.
