(* ===== verification/UpgradeRun.v ===== *)
(** * Runs of BNK upgrades
      (services/bnk_upgrade_execution_service.py, helm_service.py,
      tasks/bnk_upgrade_tasks.py)

    The worker that executes an upgrade's plan and the one that rolls it back,
    over the row of the upgrade and the cluster.  What the cluster does is an
    interface; a worker may die or lose its lock at any of its writes.  The log
    is the model's own: the numbers of the steps begun. *)

From Stdlib Require Import Ascii.
From S2P Require Import Prelude Texts UpgradePlan.

#[local] Open Scope string_scope.
#[local] Open Scope list_scope.
#[local] Open Scope Z_scope.
#[local] Set Default Proof Using "Type".

(** ** The cluster and the tools *)

(** The library module of a module of the project. *)
Record library_module := { execution_engine : option string; deploy_model : option string }.

(** What the helm command line prints: [None] when it is no JSON. *)
Record helm_result := { exit_code : Z; stdout : option json }.

(** [W]: the cluster, the registry and the clock.  [crd_jobs]: succeeded and
    failed of the CRD installer's jobs, [None] when the API fails;
    [helm_history]: the revisions, [None] when helm fails. *)
Class Cluster (W : Type) := {
  clock : W -> Z;
  sleep : Z -> W -> W;
  scan : W -> W * option install;
  crd_jobs : W -> W * option (list (Z * Z));
  helm_upgrade : helm_ref -> W -> W * helm_result;
  helm_rollback : string -> string -> option Z -> W -> W * helm_result;
  helm_history : string -> string -> W -> W * option (list (option Z))
}.

(** A clock that does not go back; helm prints a release's JSON object, which has
    no such key; a scan is the scanner's reading. *)
Class ClusterLaws (W : Type) {CL : Cluster W} := {
  sleep_clock n w : 0 <= n -> clock w + n <= clock (sleep n w);
  scan_clock w : clock w <= clock (scan w).1;
  crd_clock w : clock w <= clock (crd_jobs w).1;
  helm_prints r w d : stdout (helm_upgrade r w).2 = Some (JObj d) -> dget "exit_code" d = None;
  scan_reads w i : (scan w).2 = Some i ->
    exists crds tmm flo controller rs cnes vs nss, i = analyze_bnk_install crds tmm flo controller rs cnes vs nss
}.

(** ** Workers *)

Inductive fate := Lives | Dies (writes : nat) | Loses (writes : nat).

Inductive exn := Failed (why : string) | LockLost.

Section worker.
Context {W : Type} {CL : Cluster W}.

(** [ends]: what becomes of the worker after so many more writes. *)
Record st := { row : upgrade; world : W; log : list Z; ends : fate }.

Inductive ans (A : Type) :=
| Done (a : A) (s : st)
| Raised (e : exn) (s : st)
| Stopped (s : st).
Arguments Done {A}. Arguments Raised {A}. Arguments Stopped {A}.

Definition M (A : Type) : Type := st -> ans A.
Definition ret {A} (a : A) : M A := Done a.
Definition raise {A} (e : exn) : M A := Raised e.
#[local] Instance M_bind : MBind M := fun A B k m s =>
  match m s with
  | Done a s => k a s
  | Raised e s => Raised e s
  | Stopped s => Stopped s
  end.
(** [try: ... except Exception as e: ...] *)
Definition attempt {A} (m : M A) (h : exn -> M A) : M A := fun s =>
  match m s with Raised e s => h e s | r => r end.

Definition get {A} (f : upgrade -> A) : M A := fun s => Done (f (row s)) s.
Definition tool {A} (f : W -> W * A) : M A := fun s =>
  let '(w, a) := f (world s) in Done a {| row := row s; world := w; log := log s; ends := ends s |}.
Definition begun (n : Z) : M unit := fun s =>
  Done tt {| row := row s; world := world s; log := log s ++ [n]; ends := ends s |}.

(** The row is read again and written under the fence, in one transaction. *)
Definition _write_upgrade (fs : list field) : M unit := fun s =>
  let wrote f := Done tt {| row := set_fields fs (row s); world := world s; log := log s; ends := f |} in
  match ends s with
  | Lives => wrote Lives
  | Dies O => Stopped s
  | Dies (S n) => wrote (Dies n)
  | Loses O => Raised LockLost s
  | Loses (S n) => wrote (Loses n)
  end.

Definition fail {A} (why : string) : M A := raise (Failed why).
Definition require {A} (o : option A) (why : string) : M A := match o with Some a => ret a | None => fail why end.

(** ** Helm *)

(** No argument looks like a flag. *)
Definition _validate_arg (s : option string) : M unit :=
  match s with Some (String "-" _) => fail "invalid argument" | _ => ret tt end.

(** The dict of an answer, or the error [.get] of something else. *)
Definition as_dict (j : json) : M (list (string * json)) :=
  match j with JObj d => ret d | _ => fail "no attribute 'get'" end.

Definition upgrade_release (r : helm_ref) : M json :=
  _validate_arg (Some (release_name r));; _validate_arg (chart r);; _validate_arg (Some (version r));;
  _validate_arg (namespace r);;
  res ← tool (helm_upgrade r);
  if negb (exit_code res =? 0) then fail "Failed to upgrade release"
  else match stdout res with
       | Some j => ret j
       | None => ret (JObj [("success", JBool true); ("message", JStr ""); ("release", JStr (release_name r))])
       end.

Definition rollback_release (name ns : string) (revision : option Z) : M json :=
  _validate_arg (Some name);; _validate_arg (Some ns);;
  res ← tool (helm_rollback name ns revision);
  if negb (exit_code res =? 0) then fail "Failed to rollback release"
  else ret (JObj [("success", JBool true); ("message", JStr ""); ("release", JStr name); ("namespace", JStr ns);
                  ("revision", match revision with Some n => JInt n | None => JNull end)]).

Definition get_history (name ns : string) : M (list (option Z)) :=
  _validate_arg (Some name);; _validate_arg (Some ns);;
  h ← tool (helm_history name ns);
  require h "Failed to get release history".

(** [result.get("exit_code", 1) != 0] *)
Definition exit_code_of (d : list (string * json)) : bool :=
  match dget "exit_code" d with Some (JInt 0) | Some (JBool false) => true | _ => false end.

Definition _execute_helm_upgrade (p : plan_step) : M unit :=
  r ← require (ps_helm p) "missing 'namespace'";
  if negb (truthy_str (namespace r)) then fail "missing 'namespace'"
  else if negb (truthy_str (chart r)) then fail "missing 'chart'"
  else
    j ← upgrade_release r; d ← as_dict j;
    if exit_code_of d then ret tt else fail "Helm upgrade failed: unknown error".

(** ** Re-applying *)

(** [project_module]: the module of the cluster's project, if it has it, and its
    library module.  The function that is to give the variables of a module whose
    manifests are to be applied again is imported first, and does not exist. *)
Context (project_module : string -> option (option library_module)).

Definition _execute_manifest_apply (p : plan_step) : M unit :=
  match ps_module p with
  | None => fail "No module path in manifest_apply step"
  | Some m =>
      match project_module m with
      | None | Some None => ret tt
      | Some (Some lib) =>
          if negb (truthy_str (execution_engine lib)) then ret tt
          else if negb (bool_decide (lower (strip (default "" (execution_engine lib))) ∈ ["kubernetes-direct"; "operator"])) then ret tt
          else if negb (String.eqb (lower (strip (default "" (deploy_model lib)))) "manifests") then ret tt
          else fail "cannot import name 'assemble_variables'"
      end
  end.

(** ** Waiting *)

Definition time : M Z := tool (fun w => (w, clock w)).
Definition pause (n : Z) : M unit := tool (fun w => (sleep n w, tt)).

(** [running == total and total > 0] is [all_up]. *)
Definition _evaluate_health_check (check : string) (bnk : install) : M bool :=
  if String.eqb check "flo_pods_ready" then ret (all_up (flo_running (flo bnk)) (flo_pods (flo bnk)))
  else if String.eqb check "controller_pods_ready" then ret (all_up (controller_running bnk) (controller_pods bnk))
  else if String.eqb check "tmm_pods_ready" then ret (all_up (tmm_running bnk) (tmm_pods bnk))
  else if String.eqb check "tmm_containers_ready" then
    match tmm_containers bnk with
    | Some d => ret (all_up (count_at "ready" d) (count_at "total" d))
    | None => fail "'NoneType' object has no attribute 'get'"
    end
  else if String.eqb check "vlans_programmed" then ret (forallb snd (vlans bnk))
  else ret true.

Fixpoint all_checks (checks : list string) (bnk : install) : M bool :=
  match checks with
  | [] => ret true
  | c :: cs => b ← _evaluate_health_check c bnk; r ← all_checks cs bnk; ret (b && r)
  end.

Fixpoint gate_loop (fuel : nat) (deadline : Z) (p : plan_step) : M unit :=
  match fuel with
  | O => fail "Health gate timed out"
  | S fuel =>
      now ← time;
      if negb (now <? deadline) then fail "Health gate timed out"
      else
        r ← tool scan;
        match r with
        | None => pause 10;; gate_loop fuel deadline p
        | Some bnk =>
            if String.eqb (ps_phase p) "pre_upgrade" then _write_upgrade [F_pre bnk]
            else
              (if String.eqb (ps_phase p) "post_upgrade" then _write_upgrade [F_post bnk] else ret tt);;
              all_passed ← all_checks (ps_checks p) bnk;
              if all_passed : bool then
                if String.eqb (ps_phase p) "post_upgrade" then _write_upgrade [F_gate_passed] else ret tt
              else pause 15;; gate_loop fuel deadline p
        end
  end.

(** A second of the timeout per reading is fuel enough: see [gate_terminates]. *)
Definition _execute_health_gate (p : plan_step) : M unit :=
  now ← time; gate_loop (Z.to_nat (ps_timeout p)) (now + ps_timeout p) p.

(** Whether the first job that is over succeeded. *)
Fixpoint jobs_over (jobs : list (Z * Z)) : option bool :=
  match jobs with
  | [] => None
  | (succeeded, failed) :: jobs => if 0 <? succeeded then Some true else if 0 <? failed then Some false else jobs_over jobs
  end.

Fixpoint crd_loop (fuel : nat) (deadline : Z) : M unit :=
  match fuel with
  | O => ret tt
  | S fuel =>
      now ← time;
      if negb (now <? deadline) then ret tt
      else
        r ← tool crd_jobs;
        match r with
        | Some [] => ret tt
        | Some jobs =>
            match jobs_over jobs with
            | Some true => ret tt
            | Some false => fail "CRD installer job failed"
            | None => pause 10;; crd_loop fuel deadline
            end
        | None => pause 10;; crd_loop fuel deadline
        end
  end.
Definition _execute_crd_wait (p : plan_step) : M unit :=
  now ← time; crd_loop (Z.to_nat (ps_timeout p)) (now + ps_timeout p).

(** ** Executing *)

Definition find_helm_step (plan : list plan_step) : option plan_step :=
  snd <$> list_find (fun p => ps_action p = HELM_UPGRADE) plan.

(** The revision to come back to: whatever goes wrong here is only a warning. *)
Definition capture_rollback : M unit :=
  attempt
    (plan ← get u_plan;
     p ← require (find_helm_step plan) "no helm_upgrade step";
     r ← require (ps_helm p) "missing 'namespace'";
     if negb (truthy_str (namespace r)) then fail "missing 'namespace'"
     else
       h ← get_history (release_name r) (default "" (namespace r));
       match last h with
       | Some rev => _write_upgrade [F_rollback {| flo_revision := rev; flo_release_name := release_name r;
                                                   flo_namespace := namespace r |}]
       | None => ret tt
       end)
    (fun _ => ret tt).

Definition action (p : plan_step) : M unit :=
  match ps_action p with
  | HELM_UPGRADE => _execute_helm_upgrade p
  | MANIFEST_APPLY => _execute_manifest_apply p
  | HEALTH_GATE => _execute_health_gate p
  | CRD_WAIT => _execute_crd_wait p
  | WARN_STEP => ret tt
  end.

Definition message (e : exn) : string := match e with Failed why => why | LockLost => "lock lost" end.

(** A step: whether it went well. *)
Definition run_step (p : plan_step) : M bool :=
  _write_upgrade [F_step (ps_step p)];;
  begun (ps_step p);;
  e ← attempt (action p;; ret None) (fun e => ret (Some (message e)));
  old ← get step_results;
  let results := F_results (old ++ [{| sr_step := ps_step p; sr_error := e |}]) in
  match e with
  | Some why => _write_upgrade [F_status U_FAILED; F_error why; F_error_step (ps_step p); results];; ret false
  | None => _write_upgrade [results];; ret true
  end.

(** Whether the loop ran to its end. *)
Fixpoint run_steps (plan : list plan_step) : M bool :=
  match plan with
  | [] => ret true
  | p :: plan =>
      at_step ← get current_step;
      if ps_step p <=? at_step then run_steps plan
      else b ← run_step p; if b : bool then run_steps plan else ret false
  end.

Definition execute_upgrade : M unit :=
  u ← get (fun u => u);
  if negb (bool_decide (u_status u = U_READY) || bool_decide (u_status u = U_IN_PROGRESS)) then fail "not ready for execution"
  else if negb (String.eqb (install_shape (from_bnk_info u)) "flo") then
    _write_upgrade [F_status U_FAILED; F_error "not yet supported"]
  else
    _write_upgrade [F_status U_IN_PROGRESS; F_results (step_results u)];;
    capture_rollback;;
    b ← run_steps (u_plan u);
    if b : bool then _write_upgrade [F_status U_COMPLETED] else ret tt.

(** ** Rolling back *)

Definition rollback : M unit :=
  u ← get (fun u => u);
  if negb (rollback_available u) then fail "No rollback available"
  else if negb (bool_decide (u_status u ∈ [U_FAILED; U_IN_PROGRESS; U_HEALTH_CHECK])) then fail "Cannot rollback"
  else
    _write_upgrade [F_status U_ROLLING_BACK; F_reason (text_or (u_error u) "User-initiated rollback")];;
    let info := u_rollback_info u in
    let ns := info ≫= flo_namespace in
    if negb (truthy_str ns) then fail "missing 'flo_namespace'"
    else
      attempt
        (j ← rollback_release (from_option flo_release_name "flo" info) (default "" ns) (info ≫= flo_revision);
         d ← as_dict j;
         if exit_code_of d then
           r ← tool scan;
           bnk ← require r "scan failed";
           _write_upgrade [F_status U_ROLLED_BACK; F_post bnk]
         else fail "Helm rollback failed")
        (fun e => _write_upgrade [F_status U_FAILED; F_error (message e)];; raise e).

(** ** Tasks *)

(** An assignment that is not fenced. *)
Definition unfenced (fs : list field) (s : st) : st :=
  {| row := set_fields fs (row s); world := world s; log := log s; ends := ends s |}.

(** [locked]: whether the lock was had.  The state is what the task leaves. *)
Definition execute_upgrade_task (locked : bool) (s : st) : st :=
  if locked then
    match execute_upgrade s with
    | Done _ s' | Stopped s' => s'
    | Raised LockLost s' => unfenced [F_status U_FAILED; F_error "Lock lost mid-upgrade"] s'
    | Raised (Failed why) s' =>
        if bool_decide (u_status (row s') = U_IN_PROGRESS) then unfenced [F_status U_FAILED; F_error why] s' else s'
    end
  else unfenced [F_status U_FAILED; F_error "Could not acquire lock"] s.

Definition rollback_upgrade_task (locked : bool) (s : st) : st :=
  if locked then
    match rollback s with
    | Done _ s' | Stopped s' => s'
    | Raised LockLost s' => unfenced [F_status U_FAILED; F_error "Lock lost mid-rollback"] s'
    | Raised (Failed _) s' => s'
    end
  else unfenced [F_status U_FAILED; F_error "Could not acquire lock for rollback"] s.
End worker.

Arguments Done {_ _}. Arguments Raised {_ _}. Arguments Stopped {_ _}.

(** ** What a step of a worker keeps *)

Section worker_facts.
Context {W : Type} {CL : Cluster W}.

#[local] Existing Instance M_bind.

(** [m] moves along [R], and is only cut off when the worker is. *)
Definition keeps {A} (R : @st W -> @st W -> Prop) (m : @M W A) : Prop := forall s,
  match m s with
  | Done _ s' | Raised (Failed _) s' => R s s'
  | Raised LockLost s' | Stopped s' => R s s' /\ ends s <> Lives
  end.

Section keeps.
Context (R : @st W -> @st W -> Prop) {PO : PreOrder R} (LIVES : forall s s', R s s' -> ends s = Lives -> ends s' = Lives).

Lemma keeps_ret {A} (a : A) : keeps R (ret a).
Proof using PO. intros s. by cbn. Qed.
Lemma keeps_fail {A} why : keeps R (@fail W A why).
Proof using PO. intros s. by cbn. Qed.
Lemma keeps_bind {A B} (m : @M W A) (k : A -> @M W B) : keeps R m -> (forall a, keeps R (k a)) -> keeps R (m ≫= k).
Proof using PO LIVES.
  intros Hm Hk s. specialize (Hm s). unfold mbind, M_bind. destruct (m s) as [a s'|[why|] s'|s']; try done.
  specialize (Hk a s'). destruct (k a s') as [b s2|[why|] s2|s2]; [by etrans..| |];
    destruct Hk as [Hk He]; (split; [by etrans|]); eauto.
Qed.
Lemma keeps_attempt {A} (m : @M W A) h : keeps R m -> (forall e, keeps R (h e)) -> keeps R (attempt m h).
Proof using PO LIVES.
  intros Hm Hh s. specialize (Hm s). unfold attempt. destruct (m s) as [a s'|e s'|s']; [done| |done].
  assert (HR : R s s') by (destruct e; [done|by destruct Hm]). specialize (Hh e s').
  destruct (h e s') as [b s2|[why|] s2|s2]; [by etrans..| |]; destruct Hh as [Hh He]; (split; [by etrans|]); eauto.
Qed.
Lemma keeps_require {A} (o : option A) why : keeps R (require o why).
Proof using PO. destruct o; [apply keeps_ret|apply keeps_fail]. Qed.
Lemma keeps_get {A} (f : upgrade -> A) : keeps R (get f).
Proof using PO. intros s. by cbn. Qed.
End keeps.
Context (project_module : string -> option (option library_module)).

(** What a step may not touch: the identity of the upgrade, how far it is, the
    log. *)
Definition frame (s s' : @st W) : Prop :=
  (log s' = log s /\ (ends s = Lives -> ends s' = Lives)) /\
  (u_cluster (row s') = u_cluster (row s) /\ u_plan (row s') = u_plan (row s) /\
   from_bnk_info (row s') = from_bnk_info (row s)) /\
  u_status (row s') = u_status (row s) /\ current_step (row s') = current_step (row s) /\
  step_results (row s') = step_results (row s) /\ error_step (row s') = error_step (row s).
#[global] Instance frame_preorder : PreOrder frame.
Proof. split; [by intros s|]. intros s1 s2 s3 H1 H2. unfold frame in *. intuition (eauto; congruence). Qed.

Lemma frame_lives s s' : frame s s' -> ends s = Lives -> ends s' = Lives.
Proof. by intros ((_ & H) & _). Qed.
#[local] Hint Resolve frame_lives : core.

Lemma frame_tool {A} (f : W -> W * A) : keeps frame (tool f).
Proof. intros s. unfold tool. by destruct (f (world s)). Qed.

(** The fields a step of the plan writes: the snapshots. *)
Definition snapshot (f : field) : bool :=
  match f with F_pre _ | F_post _ | F_gate_passed | F_rollback _ => true | _ => false end.
Lemma frame_write fs : forallb snapshot fs = true -> keeps frame (_write_upgrade fs).
Proof.
  intros Hfs.
  assert (Hrow : forall u w l e e', (e = Lives -> e' = Lives) ->
    frame {| row := u; world := w; log := l; ends := e |} {| row := set_fields fs u; world := w; log := l; ends := e' |}).
  { intros u w l e e' He. unfold frame. cbn. revert u. induction fs as [|f fs IH]; intros u; [by cbn|].
    cbn in Hfs. apply andb_true_iff in Hfs as [Hf Hfs]. specialize (IH Hfs (set_field u f)).
    destruct f; try discriminate; exact IH. }
  intros [u w l e]. unfold _write_upgrade. cbn. destruct e as [|[|n]|[|n]]; try (by apply Hrow); by split.
Qed.

Ltac keep :=
  repeat (first
    [ apply keeps_bind; [apply _|eauto| |intros ?] | apply keeps_attempt; [apply _|eauto| |intros ?]
    | apply keeps_ret; apply _ | apply keeps_fail; apply _ | apply keeps_require; apply _ | apply keeps_get; apply _
    | apply frame_tool | apply frame_write; reflexivity
    | match goal with |- keeps _ (match ?x with _ => _ end) => destruct x end ]; eauto).

Lemma frame_gate n d p : keeps frame (gate_loop n d p).
Proof.
  assert (Hcs : forall cs bnk, keeps frame (all_checks (W := W) cs bnk)).
  { intros cs bnk. induction cs as [|c cs IH]; cbn; [keep|]. unfold _evaluate_health_check. keep. }
  induction n as [|n IH]; cbn; unfold time, pause; keep.
Qed.
Lemma frame_crd n d : keeps frame (crd_loop n d).
Proof. induction n as [|n IH]; cbn; unfold time, pause; keep. Qed.

Lemma frame_action p : keeps frame (action project_module p).
Proof.
  unfold action. destruct (ps_action p).
  - unfold _execute_helm_upgrade, upgrade_release, _validate_arg, as_dict. keep.
  - unfold _execute_manifest_apply. keep.
  - unfold _execute_health_gate, time. keep. apply frame_gate.
  - unfold _execute_crd_wait, time. keep. apply frame_crd.
  - keep.
Qed.
Lemma frame_capture : keeps frame capture_rollback.
Proof. unfold capture_rollback, get_history, _validate_arg. keep. Qed.

(** ** One step *)

(** The step was entered in [s] and nothing has been recorded of it. *)
Definition entered (p : plan_step) (s s' : @st W) : Prop :=
  frame {| row := set_fields [F_step (ps_step p)] (row s); world := world s'; log := log s ++ [ps_step p]; ends := ends s |} s'.

Lemma write_row fs (s : @st W) :
  match _write_upgrade fs s with
  | Done _ s' => row s' = set_fields fs (row s) /\ world s' = world s /\ log s' = log s /\ (ends s = Lives -> ends s' = Lives)
  | Raised LockLost s' | Stopped s' => s' = s /\ ends s <> Lives
  | Raised (Failed _) s' => False
  end.
Proof. unfold _write_upgrade. destruct (ends s) as [|[|n]|[|n]]; cbn; repeat split; try done; by intros ?. Qed.

Lemma run_step_spec p (s : @st W) :
  match run_step project_module p s with
  | Done b s' => exists s0 e, entered p s s0 /\ log s' = log s0 /\ (ends s = Lives -> ends s' = Lives) /\
      row s' = set_fields ((if b then [] else [F_status U_FAILED; F_error (default "" e); F_error_step (ps_step p)])
                           ++ [F_results (step_results (row s) ++ [{| sr_step := ps_step p; sr_error := e |}])]) (row s0) /\
      (b = true <-> e = None)
  | Raised LockLost s' | Stopped s' => (s' = s \/ entered p s s') /\ ends s <> Lives
  | Raised (Failed _) s' => False
  end.
Proof.
  unfold run_step, mbind, M_bind. pose proof (write_row [F_step (ps_step p)] s) as Hw.
  destruct (_write_upgrade _ s) as [[] s1|[why|] s1|s1]; [|done|by destruct Hw; auto..].
  destruct Hw as (Hr & Hwo & Hl & He). cbn [begun]. rewrite Hr, Hl.
  set (s2 := {| row := _; world := _; log := _; ends := ends s1 |}).
  assert (Hent : forall s0, frame s2 s0 -> entered p s s0).
  { intros s0 Hf. unfold entered. destruct Hf as ((Hfl & Hfe) & Hf). split; [split; [done|]|done]. intros E. apply Hfe, He, E. }
  assert (Hk : keeps frame (attempt (action project_module p;; ret None) (fun e => ret (Some (message e))))).
  { apply keeps_attempt; [apply _|eauto|apply keeps_bind; [apply _|eauto|apply frame_action|intros _; apply keeps_ret; apply _]|].
    intros e. apply keeps_ret; apply _. }
  specialize (Hk s2). unfold mbind, M_bind in Hk.
  destruct (attempt _ _ s2) as [e s3|[why|] s3|s3] eqn:Ea.
  - specialize (Hent s3 Hk). assert (Hres : step_results (row s3) = step_results (row s)) by apply Hk.
    assert (Hl3 : ends s = Lives -> ends s3 = Lives) by apply Hent.
    cbn [get]. rewrite Hres. destruct e as [why|];
      match goal with |- context [_write_upgrade ?fs s3] => pose proof (write_row fs s3) as Hw3; destruct (_write_upgrade fs s3) as [[] s4|[why4|] s4|s4] end;
      try done; try (destruct Hw3 as [-> Hne]; split; [by right|intros E; by apply Hne, Hl3]);
      destruct Hw3 as (Hr4 & _ & Hl4 & He4).
    + exists s3, (Some why). split; [done|split; [done|split; [auto|split; [exact Hr4|by split]]]].
    + exists s3, None. split; [done|split; [done|split; [auto|split; [exact Hr4|by split]]]].
  - exfalso. revert Ea. unfold attempt. destruct (match action project_module p s2 with Done _ _ => _ | Raised _ _ => _ | Stopped _ => _ end); discriminate.
  - destruct Hk as [Hk Hne]. split; [right; by apply Hent|]. cbn in Hne. auto.
  - destruct Hk as [Hk Hne]. split; [right; by apply Hent|]. cbn in Hne. auto.
Qed.

(** ** At most once *)

(** From [s] to [s']: the steps begun are past the current one, in order; results
    are recorded only of these. *)
Definition advance (s s' : @st W) : Prop :=
  (u_cluster (row s') = u_cluster (row s) /\ u_plan (row s') = u_plan (row s) /\
   from_bnk_info (row s') = from_bnk_info (row s)) /\
  exists l res, log s' = log s ++ l /\ step_results (row s') = step_results (row s) ++ res /\
    StronglySorted Z.lt (current_step (row s) :: l) /\
    Forall (fun n => n <= current_step (row s')) (current_step (row s) :: l) /\
    Forall (fun r => sr_step r ∈ l) res.

#[global] Instance advance_preorder : PreOrder advance.
Proof.
  split.
  - intros s. split; [done|]. exists [], []. rewrite !app_nil_r.
    split; [done|split; [done|]]. repeat constructor. lia.
  - intros s1 s2 s3 (Hi1 & l1 & r1 & Hl1 & Hr1 & Hs1 & Hm1 & Hf1) (Hi2 & l2 & r2 & Hl2 & Hr2 & Hs2 & Hm2 & Hf2).
    split; [intuition congruence|]. exists (l1 ++ l2), (r1 ++ r2).
    rewrite Hl2, Hl1, Hr2, Hr1, !app_assoc. split; [done|split; [done|]].
    apply StronglySorted_inv in Hs2 as [Hs2 Hgt2]. rewrite app_comm_cons.
    assert (Hm12 : current_step (row s2) <= current_step (row s3)) by (by inversion Hm2).
    split; [|split].
    + apply StronglySorted_app. split; [|done]. intros x y Hx Hy. rewrite Forall_forall in Hm1, Hgt2.
      specialize (Hm1 x Hx). specialize (Hgt2 y Hy). lia.
    + apply Forall_app. split; [|by inversion Hm2]. eapply Forall_impl; [exact Hm1|]. cbn. lia.
    + apply Forall_app. split; (eapply Forall_impl; [eassumption|]); cbn; set_solver.
Qed.

(** What leaves the log, the current step and the results alone. *)
Lemma advance_still (s s' : @st W) :
  u_cluster (row s') = u_cluster (row s) -> u_plan (row s') = u_plan (row s) -> from_bnk_info (row s') = from_bnk_info (row s) ->
  log s' = log s -> current_step (row s') = current_step (row s) -> step_results (row s') = step_results (row s) ->
  advance s s'.
Proof.
  intros ? ? ? Hl Hc Hr. split; [done|]. exists [], []. rewrite Hl, Hc, Hr, !app_nil_r.
  split; [done|split; [done|]]. repeat constructor. lia.
Qed.

Lemma frame_advance s s' : frame s s' -> advance s s'.
Proof. intros ((Hl & _) & (? & ? & ?) & _ & Hc & Hr & _). by apply advance_still. Qed.

Lemma entered_advance p s s' : current_step (row s) < ps_step p -> entered p s s' -> 
  advance s s' /\ current_step (row s') = ps_step p /\ log s' = log s ++ [ps_step p] /\ step_results (row s') = step_results (row s).
Proof.
  intros Hlt ((Hl & _) & Hi & _ & Hc & Hr & _). cbn in Hl, Hi, Hc, Hr. split; [|done]. split; [exact Hi|].
  exists [ps_step p], []. rewrite app_nil_r, Hc. split; [done|]. split; [done|].
  split; [repeat constructor; lia|]. split; [repeat constructor; lia|constructor].
Qed.

(** Where an answer leaves the state. *)
Definition final {A} (r : ans A) : @st W := match r with Done _ s | Raised _ s | Stopped s => s end.

Lemma run_step_advance p s : current_step (row s) < ps_step p -> advance s (final (run_step project_module p s)).
Proof.
  intros Hlt. pose proof (run_step_spec p s) as Hs. destruct (run_step project_module p s) as [b s'|[why|] s'|s']; cbn;
    [|done|destruct Hs as [[->|He] _]; [done|by apply (entered_advance p)]..].
  destruct Hs as (s0 & e & He & Hl & _ & Hr & _). destruct (entered_advance p s s0 Hlt He) as ((Hi & _) & Hc & Hl0 & Hr0).
  assert (Hcr : current_step (row s') = ps_step p /\ step_results (row s') = step_results (row s) ++ [{| sr_step := ps_step p; sr_error := e |}] /\
    u_cluster (row s') = u_cluster (row s0) /\ u_plan (row s') = u_plan (row s0) /\ from_bnk_info (row s') = from_bnk_info (row s0))
    by (rewrite Hr, <-Hc; by destruct b).
  destruct Hcr as (Hc' & Hr' & ? & ? & ?). split; [intuition congruence|].
  exists [ps_step p], [{| sr_step := ps_step p; sr_error := e |}]. rewrite Hl, Hl0, Hc'.
  split; [done|]. split; [done|]. split; [repeat constructor; lia|]. split; [repeat constructor; lia|].
  constructor; [by left|constructor].
Qed.

Lemma run_steps_advance plan s : advance s (final (run_steps project_module plan s)).
Proof.
  revert s. induction plan as [|p plan IH]; intros s; [done|]. cbn [run_steps]. unfold mbind, M_bind. cbn [get].
  destruct (Z.leb_spec (ps_step p) (current_step (row s))) as [|Hlt]; [apply IH|].
  pose proof (run_step_advance p s Hlt) as Ha. destruct (run_step project_module p s) as [[] s'|e s'|s']; try done.
  etrans; [exact Ha|apply IH].
Qed.

Lemma write_advance fs s :
  let u := set_fields fs (row s) in
  u_cluster u = u_cluster (row s) -> u_plan u = u_plan (row s) -> from_bnk_info u = from_bnk_info (row s) ->
  current_step u = current_step (row s) -> step_results u = step_results (row s) ->
  advance s (final (_write_upgrade fs s)).
Proof.
  cbv zeta. intros H1 H2 H3 H4 H5. pose proof (write_row fs s) as Hw.
  destruct (_write_upgrade fs s) as [[] s'|[why|] s'|s']; cbn; [|done|by destruct Hw as [-> _]..].
  destruct Hw as (Hr & _ & Hl & _). apply advance_still; rewrite ?Hr; done.
Qed.

Lemma advance_bind {A B} (m : @M W A) (k : A -> @M W B) s :
  advance s (final (m s)) -> (forall a s', m s = Done a s' -> advance s' (final (k a s'))) -> advance s (final ((m ≫= k) s)).
Proof.
  intros Hm Hk. unfold mbind, M_bind. destruct (m s) as [a s'|e s'|s'] eqn:E; try done.
  etrans; [exact Hm|]. by apply Hk.
Qed.

Lemma keeps_advance {A} (m : @M W A) s : keeps frame m -> advance s (final (m s)).
Proof. intros Hk. apply frame_advance. specialize (Hk s). destruct (m s) as [a s'|[why|] s'|s']; [exact Hk|exact Hk|exact (proj1 Hk)..]. Qed.

Lemma execute_advance s : advance s (final (execute_upgrade project_module s)).
Proof.
  unfold execute_upgrade. apply advance_bind; [done|]. cbn [get]. intros u s' [= <- <-].
  case_match; [done|]. case_match; [by apply write_advance|].
  apply advance_bind; [by apply write_advance|]. intros [] s1 _.
  apply advance_bind; [apply keeps_advance, frame_capture|]. intros [] s2 _.
  apply advance_bind; [apply run_steps_advance|]. intros [] s3 _; [by apply write_advance|done].
Qed.

Lemma rollback_advance s : advance s (final (rollback (W := W) s)).
Proof.
  clear project_module. unfold rollback. apply advance_bind; [done|]. cbn [get]. intros u s' [= <- <-].
  case_match; [done|]. case_match; [done|].
  apply advance_bind; [by apply write_advance|]. intros [] s1 _. case_match; [done|].
  set (m := _ ≫= _ : @M W unit).
  assert (Hm : advance s1 (final (m s1))).
  { subst m. apply advance_bind; [apply keeps_advance; unfold rollback_release, _validate_arg; keep|]. intros j s2 _.
    apply advance_bind; [apply keeps_advance; unfold as_dict; keep|]. intros d s3 _. case_match; [|done].
    apply advance_bind; [apply keeps_advance; keep|]. intros r s4 _.
    apply advance_bind; [apply keeps_advance; keep|]. intros i s5 _. by apply write_advance. }
  unfold attempt. destruct (m s1) as [a s2|e s2|s2]; [done| |done]. cbn in Hm. etrans; [exact Hm|].
  apply advance_bind; [by apply write_advance|done].
Qed.

(** ** Deliveries *)

(** What can happen to an upgrade once it is planned: its tasks are delivered, as
    often as they are, with or without the lock, and cut off anywhere, in a
    cluster that changes meanwhile; and it is cancelled. *)
Inductive event : @st W -> @st W -> Prop :=
| E_execute locked s : event s (execute_upgrade_task project_module locked s)
| E_rollback locked s : event s (rollback_upgrade_task locked s)
| E_cancel s : _SUPERSEDABLE (u_status (row s)) = true ->
    event s {| row := set_status U_CANCELLED (row s); world := world s; log := log s; ends := ends s |}
| E_world s w f : event s {| row := row s; world := w; log := log s; ends := f |}.

Lemma event_advance s s' : event s s' -> advance s s'.
Proof.
  intros [locked s0|locked s0|s0 _|s0 w f]; [| |by apply advance_still..].
  - unfold execute_upgrade_task. destruct locked; [|by apply advance_still].
    pose proof (execute_advance s0) as Ha. destruct (execute_upgrade project_module s0) as [[] s2|[why|] s2|s2]; try done.
    cbn in Ha. by case_bool_decide.
  - unfold rollback_upgrade_task. destruct locked; [|by apply advance_still].
    pose proof (rollback_advance s0) as Ha. destruct (rollback s0) as [[] s2|[why|] s2|s2]; done.
Qed.

Lemma events_advance s s' : rtc event s s' -> advance s s'.
Proof. induction 1 as [|s1 s2 s3 H1 _ IH]; [done|]. etrans; [by apply event_advance|done]. Qed.

(** C11. However often its tasks are delivered, and wherever their workers die or
    lose the lock, the steps of an upgrade are begun in the order of their
    numbers and each at most once, and results are recorded only of these. *)
Theorem at_most_once (s s' : @st W) (NEW : log s = []) (NO_RESULTS : step_results (row s) = []) (REACHED : rtc event s s') :
  StronglySorted Z.lt (log s') /\ NoDup (log s') /\ Forall (fun r => sr_step r ∈ log s') (step_results (row s')).
Proof.
  apply events_advance in REACHED as (_ & l & res & Hl & Hr & Hs & _ & Hf). rewrite Hl, Hr, NEW, NO_RESULTS. cbn.
  apply StronglySorted_inv in Hs as [Hs _]. split; [done|]. split; [|done].
  clear -Hs. induction Hs as [|x l Hs IH Hx]; constructor; [|done]. intros Hin. rewrite Forall_forall in Hx. specialize (Hx x Hin). lia.
Qed.

(** A step that a worker was in when it died is not run again, and no result of
    it is ever recorded: whatever happens next begins with the step after it. *)
Theorem interrupted_step_lost (s s' : @st W) (n : Z) (IN_STEP : current_step (row s) = n)
    (NO_RESULT : Forall (fun r => sr_step r <> n) (step_results (row s))) (REACHED : rtc event s s') :
  (exists l, log s' = log s ++ l /\ Forall (fun k => n < k) l) /\ Forall (fun r => sr_step r <> n) (step_results (row s')).
Proof.
  apply events_advance in REACHED as (_ & l & res & Hl & Hr & Hs & _ & Hf).
  apply StronglySorted_inv in Hs as [_ Hgt]. rewrite IN_STEP in Hgt. split; [by exists l|].
  rewrite Hr. apply Forall_app. split; [done|]. rewrite Forall_forall in Hf. rewrite Forall_forall in Hgt. rewrite Forall_forall.
  intros r Hin Hn. specialize (Hgt _ (Hf r Hin)). lia.
Qed.

(** ** A run that is not cut off *)

Lemma write_lives fs (s : @st W) : ends s = Lives ->
  _write_upgrade fs s = Done tt {| row := set_fields fs (row s); world := world s; log := log s; ends := Lives |}.
Proof. intros E. unfold _write_upgrade. by rewrite E. Qed.

Lemma step_lives p (s : @st W) : ends s = Lives ->
  exists b s', run_step project_module p s = Done b s' /\ ends s' = Lives /\
    log s' = log s ++ [ps_step p] /\ current_step (row s') = ps_step p /\
    exists e, step_results (row s') = step_results (row s) ++ [{| sr_step := ps_step p; sr_error := e |}] /\
      if b then e = None /\ u_status (row s') = u_status (row s)
      else is_Some e /\ u_status (row s') = U_FAILED /\ error_step (row s') = Some (ps_step p).
Proof.
  intros E. pose proof (run_step_spec p s) as Hs. destruct (run_step project_module p s) as [b s'|[why|] s'|s'];
    [|done|by destruct Hs as [_ Hs]..].
  destruct Hs as (s0 & e & ((Hl & _) & _ & Hst & Hc & Hr & _) & Hl' & He & Hrow & Hb). exists b, s'. cbn in Hl, Hc, Hr, Hst.
  split; [done|]. split; [auto|]. split; [congruence|]. split; [rewrite Hrow, <-Hc; by destruct b|].
  exists e. split; [rewrite Hrow; by destruct b|]. rewrite Hrow. destruct b; cbn.
  - split; [by apply Hb|done].
  - destruct e; [by eauto|]. discriminate (proj2 Hb eq_refl).
Qed.

(** The steps still to run. *)
Definition pending (plan : list plan_step) (u : upgrade) : list plan_step := filter (fun p => current_step u < ps_step p) plan.

(** How a run over [steps] ended: [ok] went well, and the first of [rest] failed. *)
Definition ended (ok rest : list plan_step) (s s' : @st W) : Prop :=
  log s' = log s ++ (ps_step <$> (ok ++ take 1 rest)) /\
  let went p := {| sr_step := ps_step p; sr_error := None |} in
  match rest with
  | [] => step_results (row s') = step_results (row s) ++ (went <$> ok)
  | p :: _ => exists why, step_results (row s') = step_results (row s) ++ (went <$> ok) ++ [{| sr_step := ps_step p; sr_error := Some why |}] /\
      u_status (row s') = U_FAILED /\ error_step (row s') = Some (ps_step p)
  end.

Lemma pending_after p plan u : Forall (fun q => ps_step p < ps_step q) plan -> current_step u = ps_step p -> pending plan u = plan.
Proof.
  intros Hf Hc. unfold pending. induction Hf as [|q plan Hq Hf IH]; [done|]. rewrite filter_cons_True by lia. by rewrite IH.
Qed.

Lemma run_steps_lives plan (s : @st W) : ends s = Lives -> StronglySorted (fun p q => ps_step p < ps_step q) plan ->
  exists ok rest s', pending plan (row s) = ok ++ rest /\ ended ok rest s s' /\ ends s' = Lives /\
    run_steps project_module plan s = Done (match rest with [] => true | _ => false end) s'.
Proof.
  revert s. induction plan as [|p plan IH]; intros s E Hs.
  { exists [], [], s. cbn. unfold ended. by rewrite !app_nil_r. }
  apply StronglySorted_inv in Hs as [Hs Hp]. cbn [run_steps]. unfold mbind, M_bind. cbn [get].
  unfold pending. rewrite filter_cons. destruct (Z.leb_spec (ps_step p) (current_step (row s))) as [|Hlt].
  { rewrite decide_False by lia. by apply IH. }
  rewrite decide_True by lia. change (filter _ plan) with (pending plan (row s)).
  destruct (step_lives p s E) as (b & s1 & -> & E1 & Hl & Hc & e & Hr & Hb).
  assert (Hpend : pending plan (row s) = plan).
  { unfold pending. clear -Hp Hlt. induction Hp as [|q plan Hq Hp IH]; [done|]. rewrite filter_cons_True by lia. by rewrite IH. }
  rewrite Hpend. destruct b.
  - destruct Hb as [-> Hst]. destruct (IH s1 E1 Hs) as (ok & rest & s' & Hpl & Hend & E' & Hrun).
    rewrite (pending_after p plan _ Hp Hc) in Hpl. exists (p :: ok), rest, s'. split; [by rewrite Hpl|].
    split; [|by rewrite Hrun]. destruct Hend as [Hl' Hend]. split; [by rewrite Hl', Hl, <-!app_assoc|].
    cbv zeta in *. destruct rest as [|q rest]; [by rewrite Hend, Hr, <-!app_assoc|].
    destruct Hend as (why & Hr' & Hst'). exists why. by rewrite Hr', Hr, <-!app_assoc.
  - destruct Hb as ([why ->] & Hst & Hes). exists [], (p :: plan), s1. split; [done|]. split; [|done].
    split; [done|]. cbv zeta. by exists why.
Qed.

Lemma capture_lives (s : @st W) : ends s = Lives -> exists s', capture_rollback s = Done tt s' /\ frame s s' /\ ends s' = Lives.
Proof.
  intros E. pose proof (frame_capture s) as Hk. unfold capture_rollback in *. unfold attempt in *.
  match goal with |- context [(get u_plan ≫= ?k) s] => destruct ((get u_plan ≫= k) s) as [[] s'|e s'|s'] end; cbn in *.
  - exists s'. split; [done|]. split; [done|]. by apply (frame_lives s).
  - exists s'. split; [done|]. split; [done|]. by apply (frame_lives s).
  - by destruct Hk.
Qed.

(** C10. An execution that is not cut off.  An upgrade that is neither ready nor in progress is
    refused and nothing changes; one of an install that is not FLO's runs no step and has failed;
    any other runs the steps after the current one in order up to the first that fails, and no
    further: it records a result for each it ran, and the upgrade is completed when none failed,
    and failed at that step otherwise. *)
Theorem upgrade_run_correct (s : @st W) (LIVES : ends s = Lives)
    (SORTED : StronglySorted (fun p q => ps_step p < ps_step q) (u_plan (row s))) :
  if negb (bool_decide (u_status (row s) = U_READY) || bool_decide (u_status (row s) = U_IN_PROGRESS))
  then execute_upgrade project_module s = Raised (Failed "not ready for execution") s
  else if negb (String.eqb (install_shape (from_bnk_info (row s))) "flo")
  then exists s', execute_upgrade project_module s = Done tt s' /\ log s' = log s /\ world s' = world s /\
         step_results (row s') = step_results (row s) /\ current_step (row s') = current_step (row s) /\ u_status (row s') = U_FAILED
  else exists ok rest s',
    pending (u_plan (row s)) (row s) = ok ++ rest /\
    execute_upgrade project_module s = Done tt s' /\ ended ok rest s s' /\
    (rest = [] -> u_status (row s') = U_COMPLETED).
Proof.
  unfold execute_upgrade, mbind, M_bind. cbn [get].
  destruct (negb (_ || _)); [done|].
  destruct (negb (String.eqb _ "flo")).
  { rewrite write_lives by done. eexists. split; [reflexivity|]. by split_and!. }
  cbv beta iota. rewrite write_lives by done.
  set (s1 := {| row := set_fields _ _; world := _; log := _; ends := _ |}).
  destruct (capture_lives s1 eq_refl) as (s2 & -> & ((Hl & _) & (_ & Hp & _) & _ & Hc & Hr & _) & E2).
  destruct (run_steps_lives (u_plan (row s)) s2 E2 SORTED) as (ok & rest & s3 & Hpend & Hend & E3 & ->).
  assert (Hpend' : pending (u_plan (row s)) (row s2) = pending (u_plan (row s)) (row s)) by (unfold pending; by rewrite Hc).
  rewrite Hpend' in Hpend. cbn in Hl, Hr.
  assert (Hend' : ended ok rest s s3).
  { destruct Hend as [Hl3 Hend]. split; [by rewrite Hl3, Hl|]. cbv zeta in *. rewrite Hr in Hend. exact Hend. }
  destruct rest as [|p rest].
  - rewrite write_lives by done. eexists ok, [], _. split; [done|]. split; [done|]. split; [exact Hend'|done].
  - exists ok, (p :: rest), s3. split; [done|]. split; [done|]. split; [exact Hend'|discriminate].
Qed.

(** ** Under the laws of the cluster *)

Context {LAWS : ClusterLaws W}.

(** The checks read the scan and nothing else. *)
Lemma all_checks_pure cs bnk (s : @st W) :
  (exists b, all_checks cs bnk s = Done b s) \/ (exists why, all_checks cs bnk s = Raised (Failed why) s).
Proof.
  assert (He : forall c, (exists b, _evaluate_health_check c bnk s = Done b s) \/
                        (exists why, _evaluate_health_check c bnk s = Raised (Failed why) s))
    by (intros c; unfold _evaluate_health_check; repeat case_match; cbn; eauto).
  induction cs as [|c cs IH]; cbn; [eauto|]. unfold mbind, M_bind.
  destruct (He c) as [[b ->]|[why ->]]; [|by eauto]. destruct IH as [[b' ->]|[why ->]]; cbn; eauto.
Qed.

Lemma bind_ext {A B} (m : @M W A) (k1 k2 : A -> @M W B) s :
  (forall a s', m s = Done a s' -> k1 a s' = k2 a s') -> (m ≫= k1) s = (m ≫= k2) s.
Proof. intros H. unfold mbind, M_bind. destruct (m s) as [a s'| |]; auto. Qed.
Lemma tool_Done {A} (f : W -> W * A) (s : @st W) a s' : tool f s = Done a s' -> world s' = (f (world s)).1 /\ a = (f (world s)).2.
Proof. unfold tool. destruct (f (world s)) as [w b]. by intros [= <- <-]. Qed.

Lemma pause_ext n (k1 k2 : unit -> @M W unit) s : 0 <= n ->
  (forall s', clock (world s) + n <= clock (world s') -> k1 tt s' = k2 tt s') -> (pause n ≫= k1) s = (pause n ≫= k2) s.
Proof using LAWS.
  intros Hn H. unfold pause. apply bind_ext. intros [] s' Hs%tool_Done. apply H. rewrite (proj1 Hs). by apply sleep_clock.
Qed.

Lemma gate_fuel k n m d p (s : @st W) :
  d - clock (world s) <= 10 * Z.of_nat k -> (k < n)%nat -> (k < m)%nat -> gate_loop n d p s = gate_loop m d p s.
Proof using LAWS.
  revert n m s. induction k as [|k IH]; intros [|n] [|m] s Hd Hn Hm; try lia; cbn [gate_loop]; unfold time;
    apply bind_ext; intros now s1 [Hw1 ->]%tool_Done; cbn in Hw1 |- *;
    destruct (Z.ltb_spec (clock (world s)) d) as [Hlt|]; try done; try lia.
  apply bind_ext. intros r s2 [Hw2 _]%tool_Done. pose proof (scan_clock (world s1)) as Hsc. rewrite <-Hw2, Hw1 in Hsc.
  destruct r as [bnk|]; [|apply pause_ext; [lia|]; intros s3 Hs3; apply IH; lia].
  destruct (String.eqb (ps_phase p) "pre_upgrade"); [done|]. apply bind_ext. intros [] s3 Hs3.
  assert (Hw3 : world s3 = world s2).
  { destruct (String.eqb _ _); [|by injection Hs3 as <-].
    match type of Hs3 with _write_upgrade ?fs ?s0 = _ => pose proof (write_row fs s0) as Hr; rewrite Hs3 in Hr end.
    by destruct Hr as (_ & -> & _). }
  apply bind_ext. intros b s4 Hs4. destruct (all_checks_pure (ps_checks p) bnk s3) as [[b' Hb]|[why Hb]]; [|congruence].
  assert (s4 = s3) as -> by congruence. destruct b; [done|].
  apply pause_ext; [lia|]. intros s5 Hs5. rewrite Hw3 in Hs5. apply IH; lia.
Qed.

Lemma crd_fuel k n m d (s : @st W) :
  d - clock (world s) <= 10 * Z.of_nat k -> (k < n)%nat -> (k < m)%nat -> crd_loop n d s = crd_loop m d s.
Proof using LAWS.
  revert n m s. induction k as [|k IH]; intros [|n] [|m] s Hd Hn Hm; try lia; cbn [crd_loop]; unfold time;
    apply bind_ext; intros now s1 [Hw1 ->]%tool_Done; cbn in Hw1 |- *;
    destruct (Z.ltb_spec (clock (world s)) d) as [Hlt|]; try done; try lia.
  apply bind_ext. intros r s2 [Hw2 _]%tool_Done. pose proof (crd_clock (world s1)) as Hsc. rewrite <-Hw2, Hw1 in Hsc.
  repeat case_match; try done; (apply pause_ext; [lia|]; intros s3 Hs3; apply IH; lia).
Qed.

(** A wait ends after at most one reading per ten seconds of its timeout and one
    more: further fuel changes nothing, so that a second of the timeout each is
    enough. *)
Theorem waits_terminate (p : plan_step) (s : @st W) (n m : nat)
    (N : Z.max 0 (ps_timeout p) / 10 + 1 < Z.of_nat n) (MM : Z.max 0 (ps_timeout p) / 10 + 1 < Z.of_nat m) :
  gate_loop n (clock (world s) + ps_timeout p) p s = gate_loop m (clock (world s) + ps_timeout p) p s /\
  crd_loop n (clock (world s) + ps_timeout p) s = crd_loop m (clock (world s) + ps_timeout p) s.
Proof using LAWS.
  assert (Hq : 0 <= Z.max 0 (ps_timeout p) / 10 /\ ps_timeout p <= 10 * (Z.max 0 (ps_timeout p) / 10 + 1)).
  { pose proof (Z.div_mod (Z.max 0 (ps_timeout p)) 10 ltac:(lia)).
    pose proof (Z.mod_pos_bound (Z.max 0 (ps_timeout p)) 10 ltac:(lia)). lia. }
  revert Hq N MM. generalize (Z.max 0 (ps_timeout p) / 10). intros q Hq N MM.
  split; [apply (gate_fuel (Z.to_nat (q + 1)))|apply (crd_fuel (Z.to_nat (q + 1)))]; lia.
Qed.

(** ** What cannot succeed *)

(** A step that never goes well. *)
Definition stuck (p : plan_step) : Prop := forall s s', action project_module p s <> Done tt s'.

Lemma bind_Done {A B} (m : @M W A) (k : A -> @M W B) s b s' :
  (m ≫= k) s = Done b s' -> exists a s1, m s = Done a s1 /\ k a s1 = Done b s'.
Proof. unfold mbind, M_bind. destruct (m s) as [a s1| |]; [eauto|done..]. Qed.

Lemma stuck_step p s s' : stuck p -> run_step project_module p s <> Done true s'.
Proof.
  intros Hs H. unfold run_step in H.
  apply bind_Done in H as ([] & s1 & _ & H). apply bind_Done in H as ([] & s2 & _ & H).
  apply bind_Done in H as (e & s3 & He & H). apply bind_Done in H as (old & s4 & _ & H).
  destruct e as [why|]; apply bind_Done in H as ([] & s5 & _ & H); [done|].
  unfold attempt in He. destruct ((action project_module p ≫= _) s2) as [e s6|e s6|s6] eqn:Ea; [|done..].
  apply bind_Done in Ea as ([] & s7 & Ha & _). by apply (Hs s2 s7).
Qed.

Lemma stuck_steps p plan s s' : stuck p -> p ∈ plan -> StronglySorted (fun p q => ps_step p < ps_step q) plan ->
  current_step (row s) < ps_step p -> run_steps project_module plan s <> Done true s'.
Proof.
  intros Hs. revert s. induction plan as [|q plan IH]; intros s Hin Hsort Hc; [by apply elem_of_nil in Hin|].
  apply StronglySorted_inv in Hsort as [Hsort Hq]. cbn [run_steps]. intros H.
  apply bind_Done in H as (at_step & s0 & Hg & H). injection Hg as <- <-.
  apply elem_of_cons in Hin as [<-|Hin].
  - rewrite (proj2 (Z.leb_gt _ _)) in H by lia. apply bind_Done in H as (b & s1 & Hr & H).
    destruct b; [by apply stuck_step in Hr|done].
  - destruct (Z.leb_spec (ps_step q) (current_step (row s))) as [|Hlt]; [by apply (IH s)|].
    apply bind_Done in H as (b & s1 & Hr & H). destruct b; [|done]. apply (IH s1); [done|done| |done].
    pose proof (run_step_spec q s) as Hsp. rewrite Hr in Hsp. destruct Hsp as (s2 & e & He & _ & _ & Hrow & _).
    destruct (entered_advance q s s2 Hlt He) as (_ & Hc2 & _). rewrite Forall_forall in Hq. specialize (Hq p Hin).
    rewrite Hrow. cbn. lia.
Qed.

(** A gate on the TMM's containers: the scan has no such counts. *)
Lemma tmm_gate_stuck p : ps_action p = HEALTH_GATE -> ps_phase p <> "pre_upgrade" -> "tmm_containers_ready" ∈ ps_checks p -> stuck p.
Proof using LAWS.
  intros Ha Hp Hc. assert (Hcs : forall cs crds tmm fl ctl rs cnes vs nss (s s' : @st W) b, "tmm_containers_ready" ∈ cs ->
    all_checks cs (analyze_bnk_install crds tmm fl ctl rs cnes vs nss) s = Done b s' -> b = false).
  { intros cs crds tmm fl ctl rs cnes vs nss. induction cs as [|c cs IH]; intros s s' b Hin H; [by apply elem_of_nil in Hin|].
    apply bind_Done in H as (b1 & s1 & H1 & H). apply bind_Done in H as (b2 & s2 & H2 & H). injection H as <- _.
    apply elem_of_cons in Hin as [<-|Hin]; [|rewrite (IH _ _ _ Hin H2); apply andb_false_r].
    revert H1. unfold analyze_bnk_install. destruct (_determine_status _ _ _ _ _ _ _).
    unfold _evaluate_health_check. cbn. by destruct tmm; intros [= <- _]. }
  assert (Hl : forall n d s s', gate_loop n d p s <> Done tt s').
  { intros n d. induction n as [|n IH]; intros s s' H; [done|]. cbn [gate_loop] in H.
    apply bind_Done in H as (now & s1 & _ & H). case_match; [done|].
    apply bind_Done in H as (r & s2 & Hr & H). apply tool_Done in Hr as [_ Hr].
    destruct r as [bnk|]; [|by apply bind_Done in H as ([] & s3 & _ & H%IH)].
    destruct (String.eqb_spec (ps_phase p) "pre_upgrade"); [done|].
    apply bind_Done in H as ([] & s3 & _ & H). apply bind_Done in H as (b & s4 & Hb & H).
    symmetry in Hr. apply scan_reads in Hr as (? & ? & ? & ? & ? & ? & ? & ? & ->). rewrite (Hcs _ _ _ _ _ _ _ _ _ _ _ _ Hc Hb) in H.
    by apply bind_Done in H as ([] & s5 & _ & H%IH). }
  intros s s' H. unfold action in H. rewrite Ha in H. apply bind_Done in H as (now & s1 & _ & H). by apply Hl in H.
Qed.

Lemma helm_step_stuck p : ps_action p = HELM_UPGRADE -> stuck p.
Proof using LAWS.
  intros Ha s s' H. unfold action in H. rewrite Ha in H.
  apply bind_Done in H as (r & s1 & _ & H). do 2 (case_match; [done|]).
  apply bind_Done in H as (j & s2 & Hu & H). apply bind_Done in H as (d & s3 & Hd & H).
  unfold upgrade_release in Hu. do 4 (apply bind_Done in Hu as ([] & ? & _ & Hu)).
  apply bind_Done in Hu as (res & s8 & Hres & Hu). apply tool_Done in Hres as [_ Hres].
  enough (Hx : exit_code_of d = false) by (by rewrite Hx in H).
  destruct (negb (exit_code res =? 0)); [done|]. destruct (stdout res) as [j'|] eqn:Ej; injection Hu as <- _; [|by injection Hd as <- _].
  destruct j' as [| | | | |d']; try done. injection Hd as <- _. unfold exit_code_of. rewrite Hres in Ej. by rewrite (helm_prints _ _ _ Ej).
Qed.
Lemma final_bind {A B} (m : @M W A) (k : A -> @M W B) (P : @st W -> Prop) s :
  P (final (m s)) -> (forall a s', m s = Done a s' -> P (final (k a s'))) -> P (final ((m ≫= k) s)).
Proof. intros Hm Hk. unfold mbind, M_bind. destruct (m s) as [a s'|e s'|s'] eqn:E; [by apply Hk|done..]. Qed.

(** A write of another status does not complete. *)
Lemma final_write fs (s : @st W) : u_status (row s) <> U_COMPLETED -> u_status (set_fields fs (row s)) <> U_COMPLETED ->
  u_status (row (final (_write_upgrade fs s))) <> U_COMPLETED.
Proof.
  intros Hs Hf. pose proof (write_row fs s) as Hw. destruct (_write_upgrade fs s) as [[] s'|[why|] s'|s']; cbn; [|done|by destruct Hw as [-> _]..].
  by destruct Hw as (-> & _).
Qed.

Lemma steps_status plan s : u_status (row s) <> U_COMPLETED ->
  u_status (row (final (run_steps project_module plan s))) <> U_COMPLETED.
Proof.
  revert s. induction plan as [|p plan IH]; intros s Hs; [done|]. cbn [run_steps].
  apply (final_bind _ _ (fun s => u_status (row s) <> U_COMPLETED)); [done|]. intros n s0 [= <- <-].
  case_match; [by apply IH|]. pose proof (run_step_spec p s) as Hsp.
  assert (Hent : forall s', entered p s s' -> u_status (row s') = u_status (row s)) by (intros s' (_ & _ & Hst & _); exact Hst).
  assert (Hstep : u_status (row (final (run_step project_module p s))) <> U_COMPLETED).
  { destruct (run_step project_module p s) as [b s'|[why|] s'|s']; cbn [final].
    - destruct Hsp as (s0 & e & He & _ & _ & Hrow & _). rewrite Hrow. destruct b; cbn; [|done]. by rewrite Hent.
    - done.
    - destruct Hsp as [[->|He] _]; [done|by rewrite Hent].
    - destruct Hsp as [[->|He] _]; [done|by rewrite Hent]. }
  apply final_bind; [exact Hstep|]. intros b s' Hr. rewrite Hr in Hstep. destruct b; [by apply IH|done].
Qed.

(** The cluster's answer taken for a failure: helm has upgraded the release, or
    rolled it back, and the step, or the rollback, is reported as failed. *)
Theorem helm_success_fails (s : @st W) (LIVES : ends s = Lives) :
  (forall p r d, ps_helm p = Some r -> truthy_str (namespace r) = true -> truthy_str (chart r) = true ->
     (forall a, a ∈ [Some (release_name r); chart r; Some (version r); namespace r] -> _validate_arg a s = Done tt s) ->
     exit_code (helm_upgrade r (world s)).2 = 0 -> stdout (helm_upgrade r (world s)).2 = Some (JObj d) ->
     exists s', _execute_helm_upgrade p s = Raised (Failed "Helm upgrade failed: unknown error") s' /\
       world s' = (helm_upgrade r (world s)).1) /\
  (forall info ns, rollback_available (row s) = true -> u_status (row s) = U_FAILED ->
     u_rollback_info (row s) = Some info -> flo_namespace info = Some ns -> ns <> "" ->
     (forall s1 : @st W, _validate_arg (Some ns) s1 = Done tt s1) ->
     (forall s1 : @st W, _validate_arg (Some (flo_release_name info)) s1 = Done tt s1) ->
     let h := helm_rollback (flo_release_name info) ns (flo_revision info) (world s) in
     exit_code h.2 = 0 ->
     exists s', rollback s = Raised (Failed "Helm rollback failed") s' /\
       world s' = h.1 /\ u_status (row s') = U_FAILED).
Proof using LAWS.
  clear project_module. split.
  - intros p r d Hr Hns Hch Hargs Hexit Hout. unfold _execute_helm_upgrade. rewrite Hr. unfold mbind, M_bind. cbn [require ret].
    rewrite Hns, Hch. cbn [negb]. unfold upgrade_release, mbind, M_bind.
    rewrite !Hargs by set_solver. unfold tool. destruct (helm_upgrade r (world s)) as [w res] eqn:E. cbn in Hexit, Hout.
    rewrite Hexit, Hout. cbn. assert (Hd : exit_code_of d = false); [|rewrite Hd; by eexists].
    unfold exit_code_of. by rewrite (helm_prints r (world s) d) by (by rewrite E).
  - intros info ns Hav Hst Hinfo Hns Hne Hv1 Hv2 h Hexit. unfold rollback, mbind, M_bind. cbn [get]. rewrite Hav, Hst.
    rewrite bool_decide_true by set_solver. cbn [negb].
    rewrite write_lives by done. rewrite Hinfo. cbn [mbind option_bind]. rewrite Hns.
    unfold truthy_str. destruct (String.eqb_spec ns "") as [|_]; [done|]. cbn [negb]. unfold attempt, rollback_release, mbind, M_bind.
    cbn [default from_option]. rewrite Hv2, Hv1. unfold tool. cbn [world]. subst h.
    destruct (helm_rollback _ _ _ _) as [w res]. cbn [fst snd] in Hexit |- *. rewrite Hexit.
    change (negb (0 =? 0)) with false. cbn [ret as_dict]. change (exit_code_of _) with false.
    unfold fail, raise. cbn [log ends]. rewrite write_lives by done. by eexists.
Qed.
(** No delivery completes an upgrade, unless a worker before it died in the last
    step of the plan: the gates after helm read counts the scan does not have. *)
Theorem no_upgrade_completes (s : @st W) (i : install) (target : string) (locked : bool)
    (PLAN : u_plan (row s) = _build_plan i target)
    (BEFORE_LAST : current_step (row s) < Z.of_nat (length (u_plan (row s))))
    (OPEN : u_status (row s) <> U_COMPLETED) :
  u_status (row (execute_upgrade_task project_module locked s)) <> U_COMPLETED.
Proof using LAWS.
  destruct (plan_last i target) as (p & Hp & Hlast & Ha & Hph & Hc). rewrite PLAN, <-Hlast in BEFORE_LAST.
  assert (Hstuck : stuck p) by (apply tmm_gate_stuck; congruence).
  unfold execute_upgrade_task. destruct locked; [|done].
  enough (Hf : u_status (row (final (execute_upgrade project_module s))) <> U_COMPLETED).
  { destruct (execute_upgrade project_module s) as [[] s'|[why|] s'|s']; cbn [final] in Hf; try done. by case_bool_decide. }
  unfold execute_upgrade. apply final_bind; [done|]. intros u s0 [= <- <-].
  case_match; [done|]. case_match; [by apply final_write|].
  apply final_bind; [by apply final_write|]. intros [] s1 H1. pose proof (write_row [F_status U_IN_PROGRESS; F_results (step_results (row s))] s) as Hw1.
  rewrite H1 in Hw1. destruct Hw1 as (Hr1 & _ & _ & _).
  pose proof (frame_capture s1) as Hk. apply final_bind.
  { unfold final. destruct (capture_rollback s1) as [a s2|[why|] s2|s2]; [| |destruct Hk as [Hk _]..];
      destruct Hk as (_ & _ & Hst & _); rewrite Hst, Hr1; done. }
  intros [] s2 H2. rewrite H2 in Hk. destruct Hk as (_ & (_ & Hpl2 & _) & Hst2 & Hc2 & _).
  apply final_bind.
  { apply steps_status. rewrite Hst2, Hr1. done. }
  intros [] s3 H3; [|by (pose proof (steps_status (u_plan (row s)) s2) as Hs; rewrite H3 in Hs; apply Hs; rewrite Hst2, Hr1)].
  exfalso. rewrite PLAN in H3. revert H3. apply (stuck_steps p); [done|done|apply plan_sorted|].
  rewrite Hc2, Hr1. exact BEFORE_LAST.
Qed.
End worker_facts.

(** ** Requests and deliveries together *)

Section system.
Context {W : Type} {CL : Cluster W} (project_module : string -> option (option library_module)).
Context {SO : SetOrder Z} (new_id : gmap Z upgrade -> Z).

(** The row an execution of upgrade [u] leaves, in a cluster [w], for a worker of
    that fate: taken whole, an execution that is cut off being one that is not
    whole. *)
Definition executed (locked : bool) (w : W) (f : fate) (u : upgrade) : upgrade :=
  row (execute_upgrade_task project_module locked {| row := u; world := w; log := []; ends := f |}).

(** Requests, and deliveries of execution tasks. *)
Inductive step : ubd -> ubd -> Prop :=
| S_create c target sc d : step d (create_upgrade new_id c target sc d).1
| S_cancel c uid d : step d (cancel_route c uid d).1
| S_execute uid u locked w f d : upgrades d !! uid = Some u ->
    step d (set_upgrades <[uid := executed locked w f u]> d).

(** An execution reopens no upgrade. *)
Lemma executed_open locked w f u : is_open (executed locked w f u) = true ->
  is_open u = true /\ u_cluster (executed locked w f u) = u_cluster u.
Proof.
  intros Ho. unfold executed in *. set (s := {| row := u; world := w; log := []; ends := f |}) in *.
  pose proof (event_advance project_module s _ (E_execute project_module locked s)) as ((Hc & _) & _).
  split; [|exact Hc]. destruct locked; [|done]. unfold is_open.
  destruct (_SUPERSEDABLE (u_status u) || _EXECUTING (u_status u)) eqn:Eo; [done|].
  assert (Hst : u_status u <> U_READY /\ u_status u <> U_IN_PROGRESS) by (split; intros E; by rewrite E in Eo).
  revert Ho. unfold execute_upgrade_task, execute_upgrade, mbind, M_bind. cbn [get row s].
  rewrite !bool_decide_false by apply Hst. cbn [orb negb fail raise row]. rewrite bool_decide_false by apply Hst.
  change (row s) with u. unfold is_open. by rewrite Eo.
Qed.

Hypothesis FRESH : forall t, t !! new_id t = None.

(** Whatever is asked and delivered, and however executions end, a cluster has at
    most one upgrade that is planned, ready or under way. *)
Theorem one_open_kept (d d' : ubd) (OPEN : one_open d) (REACHED : rtc step d d') : one_open d'.
Proof using FRESH.
  induction REACHED as [d|d d1 d2 H1 _ IH]; [done|]. apply IH. destruct H1 as [c target sc d|c uid d|uid u locked w f d Hu].
  - by apply create_open.
  - by apply cancel_open.
  - apply one_open_put; [|done]. intros Ho j v Hj Hv Hc. apply executed_open in Ho as [Ho Hcu].
    eapply OPEN; eauto. congruence.
Qed.

(** A second delivery that does not get the lock marks the upgrade failed while
    its worker is at it: the cluster is free for another. *)
Theorem second_delivery_frees_cluster (d : ubd) (uid : Z) (u : upgrade) (w : W) (f : fate)
    (OPEN : one_open d) (ROW : upgrades d !! uid = Some u) (RUNNING : u_status u = U_IN_PROGRESS) :
  u_status (executed false w f u) = U_FAILED /\
  existing_upgrade (u_cluster u) (set_upgrades <[uid := executed false w f u]> d) = None.
Proof.
  split; [done|]. apply existing_None. intros j v. cbn. rewrite lookup_insert_Some. intros [[<- <-]|[Hne Hj]] Hv Hc; [done|].
  apply Hne. apply (OPEN uid j u v ROW Hj); [by unfold is_open; rewrite RUNNING|done|done].
Qed.
End system.

(** ** A cluster to run on *)

Module Example.
Import UpgradePlan.Example.
#[local] Instance some_order : SetOrder Z := elements_order.

(** A healthy cluster whose every reading takes a second, and helm as it is: an
    upgrade or a rollback adds a revision. *)
Record lab := { l_now : Z; l_revisions : list (Z * string) }.
Definition later (n : Z) (w : lab) : lab := {| l_now := l_now w + n; l_revisions := l_revisions w |}.
Definition revised (v : string) (w : lab) : lab :=
  {| l_now := l_now w + 30; l_revisions := l_revisions w ++ [(Z.of_nat (length (l_revisions w)) + 1, v)] |}.
Definition version_at (rev : option Z) (w : lab) : string :=
  match list_find (fun x => Some x.1 = rev) (l_revisions w) with Some (_, (_, v)) => v | None => "" end.
#[local] Instance lab_cluster : Cluster lab := {
  clock := l_now;
  sleep := later;
  scan w := (later 1 w, Some healthy);
  crd_jobs w := (later 1 w, Some []);
  helm_upgrade r w := (revised (version r) w, {| exit_code := 0; stdout := Some (JObj [("name", JStr (release_name r))]) |});
  helm_rollback _ _ rev w := (revised (version_at rev w) w, {| exit_code := 0; stdout := None |});
  helm_history _ _ w := (w, Some ((Some ∘ fst) <$> l_revisions w))
}.
#[local] Instance lab_laws : ClusterLaws lab.
Proof.
  split; cbn; try lia.
  - by intros r w d [= <-].
  - intros w i [= <-]. do 8 eexists. reflexivity.
Qed.

Definition no_module (m : string) : option (option library_module) := None.
Definition before : lab := {| l_now := 0; l_revisions := [(1, "2.20.0-0.0.1")] |}.
Definition ready : upgrade := planned 1 (Some 7) healthy "v1.31.2" "2.21.0-0.0.5".
Definition fresh_worker (f : fate) : st := {| row := ready; world := before; log := []; ends := f |}.

(** What an upgrade comes to: helm has upgraded, and the upgrade has failed. *)
Example run_ex :
  let s := execute_upgrade_task no_module true (fresh_worker Lives) in
  (log s, l_revisions (world s), u_status (row s), error_step (row s)) =
  ([1; 2], [(1, "2.20.0-0.0.1"); (2, "2.21.0-0.0.5")], U_FAILED, Some 2).
Proof. vm_compute. reflexivity. Qed.

(** Rolled back, it has failed still, and helm has a third revision. *)
Example rollback_ex :
  let s := rollback_upgrade_task true (execute_upgrade_task no_module true (fresh_worker Lives)) in
  (l_revisions (world s), u_status (row s), u_error (row s)) =
  ([(1, "2.20.0-0.0.1"); (2, "2.21.0-0.0.5"); (3, "2.20.0-0.0.1")], U_FAILED, Some "Helm rollback failed").
Proof. vm_compute. reflexivity. Qed.

(** A worker that dies in the helm step, before its result is written. *)
Definition died : st := execute_upgrade_task no_module true (fresh_worker (Dies 6)).
Example died_ex : (log died, u_status (row died), current_step (row died), length (step_results (row died))) = ([1; 2], U_IN_PROGRESS, 2, 1%nat).
Proof. vm_compute. reflexivity. Qed.

Lemma ready_sorted : StronglySorted (fun p q => ps_step p < ps_step q) (u_plan ready).
Proof. assert (H : u_plan ready = _build_plan healthy "2.21.0-0.0.5") by (vm_compute; reflexivity). rewrite H. apply plan_sorted. Qed.

Lemma upgrade_run_correct_witness : exists ok rest s',
  pending (u_plan ready) ready = ok ++ rest /\
  execute_upgrade no_module (fresh_worker Lives) = Done tt s' /\ ended ok rest (fresh_worker Lives) s'.
Proof.
  pose proof (upgrade_run_correct no_module (fresh_worker Lives) eq_refl ready_sorted) as H.
  assert (E1 : negb (bool_decide (u_status (row (fresh_worker Lives)) = U_READY) || bool_decide (u_status (row (fresh_worker Lives)) = U_IN_PROGRESS)) = false) by (vm_compute; reflexivity).
  assert (E2 : negb (String.eqb (install_shape (from_bnk_info (row (fresh_worker Lives)))) "flo") = false) by (vm_compute; reflexivity).
  rewrite E1, E2 in H. destruct H as (ok & rest & s' & H1 & H2 & H3 & _). exists ok, rest, s'. split; [exact H1|split; [exact H2|exact H3]].
Defined.

(** The task is delivered again, to a worker that lives. *)
Definition again (s : @st lab) : st := {| row := row s; world := world s; log := log s; ends := Lives |}.
Lemma delivered_again s : rtc (event no_module) s (execute_upgrade_task no_module true (again s)).
Proof.
  apply (rtc_l _ _ (again s)); [apply (E_world no_module s (world s) Lives)|]. apply rtc_once, E_execute.
Qed.
Lemma delivered_twice s : rtc (event no_module) s (execute_upgrade_task no_module true (again (execute_upgrade_task no_module true s))).
Proof. eapply rtc_l; [apply (E_execute no_module true)|apply delivered_again]. Qed.

Lemma at_most_once_witness : NoDup (log (execute_upgrade_task no_module true (again died))).
Proof. exact (proj1 (proj2 (at_most_once no_module (fresh_worker (Dies 6)) _ eq_refl eq_refl (delivered_twice _)))). Defined.

(** The helm step is not run again: the upgrade goes on with the CRDs. *)
Lemma interrupted_step_lost_witness :
  let s := execute_upgrade_task no_module true (again died) in
  log s = [1; 2; 3; 4; 5; 6] /\ Forall (fun r => sr_step r <> 2) (step_results (row s)).
Proof.
  split; [by vm_compute|].
  assert (Hc : current_step (row died) = 2) by (vm_compute; reflexivity).
  assert (Hn : Forall (fun r => sr_step r <> 2) (step_results (row died))) by (vm_compute; repeat constructor; discriminate).
  exact (proj2 (interrupted_step_lost no_module died _ 2 Hc Hn (delivered_again died))).
Defined.

Lemma waits_terminate_witness :
  gate_loop 14 120 (gate "flo_health" ["flo_pods_ready"] 120 4) (fresh_worker Lives) =
  gate_loop 120 120 (gate "flo_health" ["flo_pods_ready"] 120 4) (fresh_worker Lives).
Proof.
  exact (proj1 (waits_terminate (gate "flo_health" ["flo_pods_ready"] 120 4) (fresh_worker Lives) 14 120
    ltac:(vm_compute; reflexivity) ltac:(vm_compute; reflexivity))).
Defined.

Definition flo_upgrade : plan_step :=
  helm_step {| release_name := "flo"; namespace := Some "f5-operator"; chart := Some "oci://charts/flo"; version := "2.21.0" |} 2.
Lemma helm_success_fails_witness : exists s',
  _execute_helm_upgrade flo_upgrade (fresh_worker Lives) = Raised (Failed "Helm upgrade failed: unknown error") s' /\
  l_revisions (world s') = [(1, "2.20.0-0.0.1"); (2, "2.21.0")].
Proof.
  destruct (proj1 (helm_success_fails (fresh_worker Lives) eq_refl) flo_upgrade _ [("name", JStr "flo")]
    eq_refl eq_refl eq_refl) as (s' & H & Hw); [|reflexivity..|].
  - intros a Ha. repeat (apply elem_of_cons in Ha as [->|Ha]; [reflexivity|]). by apply elem_of_nil in Ha.
  - exists s'. split; [exact H|]. by rewrite Hw.
Defined.

Lemma no_upgrade_completes_witness : u_status (row (execute_upgrade_task no_module true (fresh_worker Lives))) <> U_COMPLETED.
Proof.
  apply (no_upgrade_completes no_module (fresh_worker Lives) healthy "2.21.0-0.0.5" true);
    [vm_compute; reflexivity..|vm_compute; discriminate].
Defined.

Lemma one_open_kept_witness :
  one_open (set_upgrades <[5 := executed no_module true before Lives (planned 1 (Some 7) healthy "v1.31.2" "2.20.5-0.0.3")]> waiting).
Proof.
  apply (one_open_kept no_module (next_id upgrade) (next_id_new upgrade) waiting); [exact waiting_open|].
  apply rtc_once. by apply S_execute.
Defined.

Definition running_upgrade : upgrade := set_status U_IN_PROGRESS ready.
Definition under_way : ubd := {| clusters := {[1 := Some 7]}; upgrades := {[5 := running_upgrade]} |}.
Lemma under_way_open : one_open under_way.
Proof.
  intros i j u v Hi Hj _ _ _. unfold under_way in Hi, Hj. cbn [upgrades] in Hi, Hj.
  apply lookup_singleton_Some in Hi as [<- _]. by apply lookup_singleton_Some in Hj as [<- _].
Qed.
Lemma second_delivery_frees_cluster_witness :
  existing_upgrade 1 (set_upgrades <[5 := executed no_module false before Lives running_upgrade]> under_way) = None.
Proof.
  exact (proj2 (second_delivery_frees_cluster no_module under_way 5 running_upgrade before Lives under_way_open eq_refl eq_refl)).
Defined.
End Example.
