(* ===== verification/Naming.v ===== *)
(** * Identifiers derived from names (utils/naming.py)

    The fragments of cloud resources' names that are made of a project's name, on
    ASCII texts, and the patterns that say when a name is safe as it is. *)

From Stdlib Require Import Ascii.
From S2P Require Import Prelude Texts.

#[local] Open Scope string_scope.
#[local] Open Scope list_scope.
#[local] Open Scope Z_scope.
#[local] Set Default Proof Using "Type".

(** ** Characters *)

Definition code (c : ascii) : Z := Z.of_nat (nat_of_ascii c).
Definition between (a b : Z) (c : ascii) : bool := (a <=? code c) && (code c <=? b).
Definition is_lower (c : ascii) : bool := between 97 122 c.
Definition is_upper (c : ascii) : bool := between 65 90 c.
Definition is_number (c : ascii) : bool := between 48 57 c.
Definition is_hyphen (c : ascii) : bool := Ascii.eqb c "-".
Definition among (chars : list ascii) (c : ascii) : bool := existsb (Ascii.eqb c) chars.

(** [[A-Za-z0-9+=,.@_-]], [[a-z0-9-]] and [[a-z0-9]] *)
Definition aws_char (c : ascii) : bool :=
  is_lower c || is_upper c || is_number c || among ["+"; "="; ","; "."; "@"; "_"; "-"]%char c.
Definition slug_char (c : ascii) : bool := is_lower c || is_number c || is_hyphen c.
Definition alnum (c : ascii) : bool := is_lower c || is_number c.

Fixpoint all_chars (p : ascii -> bool) (s : string) : bool :=
  match s with EmptyString => true | String c s => p c && all_chars p s end.

(** ** Replacing and stripping *)

(** [re.sub(r"[...]+", "-", s)] for the characters in [p]; [run]: whether the
    last character was one. *)
Fixpoint sub_runs (p : ascii -> bool) (run : bool) (s : string) : string :=
  match s with
  | EmptyString => EmptyString
  | String c s =>
      if p c then if run then sub_runs p true s else String "-" (sub_runs p true s)
      else String c (sub_runs p false s)
  end.

(** [s.lstrip(chars)], [s.rstrip(chars)] *)
Fixpoint lstrip_chars (p : ascii -> bool) (s : string) : string :=
  match s with
  | EmptyString => EmptyString
  | String c s' => if p c then lstrip_chars p s' else s
  end.
Fixpoint rstrip_chars (p : ascii -> bool) (s : string) : string :=
  match s with
  | EmptyString => EmptyString
  | String c s' =>
      match rstrip_chars p s' with
      | EmptyString => if p c then EmptyString else String c EmptyString
      | t => String c t
      end
  end.
Definition strip_chars (p : ascii -> bool) (s : string) : string := rstrip_chars p (lstrip_chars p s).

(** [s or fallback] *)
Definition or_else (s fallback : string) : string := match s with EmptyString => fallback | _ => s end.

Definition fallback_name : string := "bnk-forge".
Definition edge (c : ascii) : bool := among ["-"; "_"; "."]%char c.

(** ** The slugs *)

Definition slugify_aws_name (value : string) : string :=
  let cleaned := sub_runs (fun c => negb (aws_char c)) false (strip value) in
  let cleaned := or_else (strip_chars edge (sub_runs is_hyphen false cleaned)) fallback_name in
  or_else (rstrip_chars edge (clip 48 cleaned)) fallback_name.

(** The part the others share. *)
Definition cleaned_slug (value : string) : string :=
  strip_chars is_hyphen (sub_runs is_hyphen false (sub_runs (fun c => negb (slug_char c)) false (lower (strip value)))).

Definition slugify_s3_name (value : string) : string :=
  or_else (strip_chars is_hyphen (clip 40 (or_else (cleaned_slug value) fallback_name))) fallback_name.
Definition slugify_ibm_name (value : string) : string :=
  let cleaned := or_else (lstrip_chars is_hyphen (cleaned_slug value)) fallback_name in
  or_else (strip_chars is_hyphen (clip 35 cleaned)) fallback_name.
Definition slugify_gcp_name (value : string) : string :=
  let cleaned := or_else (lstrip_chars (fun c => negb (is_lower c)) (cleaned_slug value)) fallback_name in
  or_else (rstrip_chars is_hyphen (clip 40 cleaned)) fallback_name.

(** ** The patterns *)

Definition is_aws_safe_name (value : string) : bool := negb (String.eqb value "") && all_chars aws_char value.
(** [^[a-z0-9][a-z0-9-]{0,34}$] *)
Definition is_ibm_safe_name (value : string) : bool :=
  match value with
  | EmptyString => false
  | String c s => alnum c && all_chars slug_char s && (Z.of_nat (String.length s) <=? 34)
  end.
Fixpoint last_char (c : ascii) (s : string) : ascii := match s with EmptyString => c | String d s => last_char d s end.
(** [^[a-z][a-z0-9-]{0,38}[a-z0-9]$|^[a-z]$] *)
Definition is_gcp_safe_name (value : string) : bool :=
  match value with
  | EmptyString => false
  | String c EmptyString => is_lower c
  | String c s => is_lower c && all_chars slug_char s && alnum (last_char c s) && (Z.of_nat (String.length s) <=? 39)
  end.

Example slugs_ex :
  (slugify_aws_name " My Project (EU) ", slugify_s3_name "My Project_1", slugify_ibm_name "--9 lives--", slugify_gcp_name "--9 lives--") =
  ("My-Project-EU", "my-project-1", "9-lives", "lives").
Proof. reflexivity. Qed.

(** ** What the slugs are *)

Lemma all_chars_imp (p q : ascii -> bool) s : (forall c, p c = true -> q c = true) -> all_chars p s = true -> all_chars q s = true.
Proof. intros H. induction s as [|c s IH]; [done|]. cbn. intros [Hc Hs]%andb_true_iff. by rewrite (H c Hc), IH. Qed.

Lemma sub_runs_chars (p q : ascii -> bool) s : q "-"%char = true -> (forall c, p c = false -> q c = true) ->
  forall run, all_chars q (sub_runs p run s) = true.
Proof.
  intros Hh Hq. induction s as [|c s IH]; intros run; [done|]. cbn.
  destruct (p c) eqn:E; [destruct run|]; cbn; [by rewrite IH|by rewrite Hh, IH|by rewrite (Hq c E), IH].
Qed.

Lemma sub_runs_keeps (p q : ascii -> bool) s : q "-"%char = true -> forall run, all_chars q s = true -> all_chars q (sub_runs p run s) = true.
Proof.
  intros Hh. induction s as [|c s IH]; intros run; [done|]. cbn. intros [Hc Hs]%andb_true_iff.
  destruct (p c); [destruct run|]; cbn; [by apply IH|by rewrite Hh, IH|by rewrite Hc, IH].
Qed.

Lemma lstrip_keeps (p q : ascii -> bool) s : all_chars q s = true -> all_chars q (lstrip_chars p s) = true.
Proof. induction s as [|c s IH]; [done|]. cbn. intros H. destruct (p c); [|exact H].
  apply IH. by apply andb_true_iff in H as [_ H]. Qed.

Lemma rstrip_cons p c s : rstrip_chars p (String c s) = String c (rstrip_chars p s) \/ rstrip_chars p (String c s) = EmptyString /\ p c = true.
Proof. cbn. destruct (rstrip_chars p s); [destruct (p c); auto|by left]. Qed.

Lemma rstrip_keeps (p q : ascii -> bool) s : all_chars q s = true -> all_chars q (rstrip_chars p s) = true.
Proof.
  induction s as [|c s IH]; [done|]. intros [Hc Hs]%andb_true_iff. destruct (rstrip_cons p c s) as [-> | [-> _]]; [|done].
  cbn. by rewrite Hc, IH.
Qed.

Lemma rstrip_length p s : (String.length (rstrip_chars p s) <= String.length s)%nat.
Proof. induction s as [|c s IH]; [done|]. destruct (rstrip_cons p c s) as [-> | [-> _]]; cbn; lia. Qed.

Lemma lstrip_length p s : (String.length (lstrip_chars p s) <= String.length s)%nat.
Proof. induction s as [|c s IH]; [done|]. cbn. destruct (p c); cbn; lia. Qed.

Lemma clip_cons n c s : clip (S n) (String c s) = String c (clip n s).
Proof. done. Qed.
Lemma clip_keeps q n s : all_chars q s = true -> all_chars q (clip n s) = true.
Proof.
  revert n. induction s as [|c s IH]; intros [|n]; [done..|]. rewrite clip_cons. intros [Hc Hs]%andb_true_iff. cbn. rewrite Hc. by apply IH.
Qed.
Lemma clip_length n s : (String.length (clip n s) <= n)%nat.
Proof. revert n. induction s as [|c s IH]; intros [|n]; cbn; [lia..|]. specialize (IH n). unfold clip in IH. lia. Qed.

(** The last character of a stripped text is not one that is stripped, and a
    first that is not stays. *)
Lemma rstrip_end p u e v : rstrip_chars p u = String e v -> p (last_char e v) = false.
Proof.
  revert e v. induction u as [|x u IH]; intros e v H; [done|]. cbn in H. destruct (rstrip_chars p u) as [|y w] eqn:F.
  - destruct (p x) eqn:Hx; [done|]. by injection H as <- <-.
  - injection H as <- <-. cbn. by apply IH.
Qed.

Lemma rstrip_first p c s : p c = false -> exists t, rstrip_chars p (String c s) = String c t /\ p (last_char c t) = false.
Proof.
  intros Hc. destruct (rstrip_cons p c s) as [H | [_ Hp]]; [|congruence]. eexists. split; [exact H|]. by eapply rstrip_end.
Qed.

Lemma slug_chars v : all_chars slug_char (cleaned_slug v) = true.
Proof.
  unfold cleaned_slug, strip_chars. apply rstrip_keeps, lstrip_keeps, sub_runs_keeps; [done|].
  apply sub_runs_chars; [done|]. intros c Hc. by apply negb_false_iff.
Qed.

(** The first character that is not stripped. *)
Lemma lstrip_first p s : match lstrip_chars p s with EmptyString => True | String c _ => p c = false end.
Proof. induction s as [|c s IH]; [done|]. cbn. by destruct (p c) eqn:E. Qed.

Lemma gcp_slug v : is_gcp_safe_name (slugify_gcp_name v) = true.
Proof.
  unfold slugify_gcp_name. set (cleaned := or_else (lstrip_chars _ _) _).
  assert (Hcl : all_chars slug_char cleaned = true /\ exists c s, cleaned = String c s /\ is_lower c = true).
  { subst cleaned. pose proof (lstrip_first (fun c => negb (is_lower c)) (cleaned_slug v)) as Hf.
    pose proof (lstrip_keeps (fun c => negb (is_lower c)) slug_char (cleaned_slug v) (slug_chars v)) as Hc.
    destruct (lstrip_chars _ (cleaned_slug v)) as [|c s]; cbn; [split; [done|by eexists _, _]|].
    split; [done|]. exists c, s. split; [done|]. by apply negb_false_iff. }
  destruct Hcl as (Hc & c & s & -> & Hl). rewrite clip_cons.
  assert (Hh : is_hyphen c = false) by (destruct (Ascii.eqb_spec c "-"); [by subst|by apply Ascii.eqb_neq]).
  apply (clip_keeps _ 40) in Hc. rewrite clip_cons in Hc.
  pose proof (rstrip_keeps is_hyphen _ _ Hc) as Hk. pose proof (rstrip_length is_hyphen (String c (clip 39 s))) as Hlen.
  pose proof (clip_length 39 s) as Hcl. destruct (rstrip_first is_hyphen c (clip 39 s) Hh) as (t & Ht & Hlast).
  rewrite Ht in Hk, Hlen |- *. cbn in Hk, Hlen. apply andb_true_iff in Hk as [_ Hk]. cbn [or_else is_gcp_safe_name].
  destruct t as [|d t]; [done|]. rewrite Hl, Hk. cbn [andb]. apply andb_true_iff. split; [|apply Z.leb_le; cbn in *; lia].
  assert (Hs : forall c u, all_chars slug_char u = true -> is_lower c = true -> slug_char (last_char c u) = true).
  { clear. intros c u. revert c. assert (G : forall u c, all_chars slug_char u = true -> slug_char c = true -> slug_char (last_char c u) = true).
    { induction u0 as [|e u0 IH]; intros c Hu Hc; [done|]. cbn in *. apply andb_true_iff in Hu as [He Hu]. by apply IH. }
    intros c Hu Hc. apply G; [done|]. unfold slug_char. by rewrite Hc. }
  specialize (Hs c (String d t) Hk Hl). unfold alnum. unfold slug_char in Hs. rewrite Hlast, orb_false_r in Hs. exact Hs.
Qed.

Lemma all_last p c t : all_chars p (String c t) = true -> p (last_char c t) = true.
Proof. revert c. induction t as [|d t IH]; intros c; cbn; [by intros [H _]%andb_true_iff|]. intros [_ H]%andb_true_iff. by apply IH. Qed.

(** Not empty, with a first and a last character in [p]. *)
Definition ends (p : ascii -> bool) (s : string) : bool :=
  match s with EmptyString => false | String c t => p c && p (last_char c t) end.

(** A text stripped on both sides is empty or has other characters at both ends. *)
Lemma strip_ends p s : match strip_chars p s with EmptyString => True | u => ends (fun c => negb (p c)) u = true end.
Proof.
  unfold strip_chars. pose proof (lstrip_first p s) as Hf. destruct (lstrip_chars p s) as [|c t]; [done|].
  destruct (rstrip_first p c t Hf) as (u & -> & Hl). cbn. by rewrite Hf, Hl.
Qed.
Lemma strip_keeps (p q : ascii -> bool) s : all_chars q s = true -> all_chars q (strip_chars p s) = true.
Proof. intros H. by apply rstrip_keeps, lstrip_keeps. Qed.
Lemma strip_length p s : (String.length (strip_chars p s) <= String.length s)%nat.
Proof. unfold strip_chars. pose proof (rstrip_length p (lstrip_chars p s)). pose proof (lstrip_length p s). lia. Qed.

Lemma aws_slug v : let r := slugify_aws_name v in
  is_aws_safe_name r = true /\ ends (fun c => negb (edge c)) r = true /\ (String.length r <= 48)%nat.
Proof.
  unfold slugify_aws_name. set (cleaned := or_else (strip_chars _ _) _). cbv zeta.
  assert (Hc : all_chars aws_char cleaned = true /\ exists c t, cleaned = String c t /\ edge c = false).
  { subst cleaned. match goal with |- context [or_else (strip_chars edge ?s) _] =>
      pose proof (strip_ends edge s) as He; assert (Hs : all_chars aws_char (strip_chars edge s) = true); [apply strip_keeps|destruct (strip_chars edge s) as [|c t]] end.
    - apply sub_runs_keeps; [done|]. apply sub_runs_chars; [done|]. intros c H. by apply negb_false_iff.
    - split; [done|]. by eexists _, _.
    - split; [done|]. exists c, t. split; [done|]. cbn in He. apply andb_true_iff in He as [He _]. by apply negb_true_iff. }
  destruct Hc as (Hc & c & t & -> & Hf). pose proof (rstrip_keeps edge _ _ (clip_keeps _ 48 _ Hc)) as Hk.
  pose proof (rstrip_length edge (clip 48 (String c t))) as Hl. pose proof (clip_length 48 (String c t)) as Hcl.
  rewrite clip_cons in *. destruct (rstrip_first edge c (clip 47 t) Hf) as (u & E & Hlast). rewrite E in *.
  split; [exact Hk|]. split; [cbn [or_else ends]; by rewrite Hf, Hlast|cbn in *; lia].
Qed.

(** The last cut of the S3 and IBM slugs. *)
Lemma cut_slug n s : all_chars slug_char s = true -> (9 <= n)%nat ->
  let r := or_else (strip_chars is_hyphen (clip n s)) fallback_name in
  all_chars slug_char r = true /\ ends alnum r = true /\ (String.length r <= n)%nat.
Proof.
  intros Hs Hn. cbv zeta. pose proof (strip_keeps is_hyphen _ _ (clip_keeps _ n _ Hs)) as Hk.
  pose proof (strip_length is_hyphen (clip n s)) as Hl. pose proof (clip_length n s) as Hc. pose proof (strip_ends is_hyphen (clip n s)) as Hh.
  destruct (strip_chars is_hyphen (clip n s)) as [|c t]; [split; [done|split; [done|cbn; lia]]|].
  split; [exact Hk|split; [|cbn in *; lia]]. cbn [or_else ends] in *. apply andb_true_iff in Hh as [H1%negb_true_iff H2%negb_true_iff].
  pose proof (all_last _ _ _ Hk) as Hlast. cbn in Hk. apply andb_true_iff in Hk as [Hk _].
  unfold slug_char in Hk, Hlast. rewrite H1, orb_false_r in Hk. rewrite H2, orb_false_r in Hlast. unfold alnum. by rewrite Hk, Hlast.
Qed.

(** C39. What the slugs are, whatever the name.  The AWS, IBM and GCP ones match the module's own
    patterns of safe names, within their lengths; the first does not begin or end with a hyphen,
    an underscore or a dot, the second does not end with a hyphen.  The S3 one is a fragment of a
    bucket's name: 1 to 40 lower-case letters, digits and hyphens between letters or digits. *)
Theorem slugs_safe (v : string) :
  (is_aws_safe_name (slugify_aws_name v) = true /\ ends (fun c => negb (edge c)) (slugify_aws_name v) = true /\ (String.length (slugify_aws_name v) <= 48)%nat) /\
  (is_ibm_safe_name (slugify_ibm_name v) = true /\ ends alnum (slugify_ibm_name v) = true) /\
  is_gcp_safe_name (slugify_gcp_name v) = true /\
  (all_chars slug_char (slugify_s3_name v) = true /\ ends alnum (slugify_s3_name v) = true /\ (String.length (slugify_s3_name v) <= 40)%nat).
Proof.
  assert (Hor : forall s, all_chars slug_char s = true -> all_chars slug_char (or_else s fallback_name) = true) by (by intros []).
  split; [apply aws_slug|]. split; [|split; [apply gcp_slug|]].
  - destruct (cut_slug 35 (or_else (lstrip_chars is_hyphen (cleaned_slug v)) fallback_name)) as (Hk & He & Hl);
      [apply Hor, lstrip_keeps, slug_chars|lia|]. unfold slugify_ibm_name. cbv zeta. split; [|exact He].
    destruct (or_else (strip_chars _ _) _) as [|c s]; [done|]. cbn [is_ibm_safe_name]. cbn in Hk, Hl, He.
    apply andb_true_iff in Hk as [_ Hk]. apply andb_true_iff in He as [He _]. rewrite He, Hk. apply Z.leb_le. lia.
  - apply cut_slug; [apply Hor, slug_chars|lia].
Qed.
