(* ===== verification/PyText.v ===== *)
(** * Texts of values: [str], [json.dumps], base64

    What Python prints of a JSON-like value, on ASCII texts, and the encoding of
    bytes in base64, as the assembly of variables uses them. *)

From Stdlib Require Import Ascii.
From S2P Require Import Prelude Texts.

#[local] Open Scope string_scope.
#[local] Open Scope list_scope.
#[local] Open Scope Z_scope.

Fixpoint upper (s : string) : string :=
  match s with
  | EmptyString => EmptyString
  | String c s =>
      let n := Z.of_nat (nat_of_ascii c) in
      String (if (97 <=? n) && (n <=? 122) then ascii_of_nat (nat_of_ascii c - 32) else c) (upper s)
  end.

(** [sep.join(l)] *)
Fixpoint join (sep : string) (l : list string) : string :=
  match l with
  | [] => ""
  | [s] => s
  | s :: l => s +:+ sep +:+ join sep l
  end.

Definition one (c : ascii) : string := String c EmptyString.
Definition hex_digit (n : nat) : ascii := ascii_of_nat (if (n <? 10)%nat then 48 + n else 87 + n).
Definition hex2 (n : nat) : string := String (hex_digit (n / 16)) (one (hex_digit (n mod 16))).
Definition backslash : ascii := "092"%char.
Definition quote2 : ascii := "034"%char.
Definition quote1 : ascii := "039"%char.

Fixpoint escape (esc : ascii -> string) (s : string) : string :=
  match s with EmptyString => EmptyString | String c s => esc c +:+ escape esc s end.

(** The escapes [\n], [\r], [\t] both notations share. *)
Definition esc_space (c : ascii) : option string :=
  match nat_of_ascii c with
  | 10%nat => Some (String backslash "n")
  | 13%nat => Some (String backslash "r")
  | 9%nat => Some (String backslash "t")
  | _ => None
  end.

(** ** [json.dumps] *)

Definition json_esc (c : ascii) : string :=
  if Ascii.eqb c quote2 || Ascii.eqb c backslash then String backslash (one c)
  else match esc_space c with
       | Some t => t
       | None =>
           match nat_of_ascii c with
           | 8%nat => String backslash "b"
           | 12%nat => String backslash "f"
           | n => if (n <? 32)%nat then String backslash ("u00" +:+ hex2 n) else one c
           end
       end.
Definition json_string (s : string) : string := String quote2 (escape json_esc s +:+ one quote2).

Fixpoint json_dumps (j : json) : string :=
  match j with
  | JNull => "null"
  | JBool b => if b then "true" else "false"
  | JInt z => pretty z
  | JStr s => json_string s
  | JList l => "[" +:+ join ", " (map json_dumps l) +:+ "]"
  | JObj fields => "{" +:+ join ", " (map (fun kv => json_string kv.1 +:+ ": " +:+ json_dumps kv.2) fields) +:+ "}"
  end.

(** ** [str] *)

Definition repr_esc (q c : ascii) : string :=
  if Ascii.eqb c q || Ascii.eqb c backslash then String backslash (one c)
  else match esc_space c with
       | Some t => t
       | None => let n := nat_of_ascii c in
                 if (n <? 32)%nat || (n =? 127)%nat then String backslash ("x" +:+ hex2 n) else one c
       end.
Definition repr_string (s : string) : string :=
  let q := if contains (one quote1) s && negb (contains (one quote2) s) then quote2 else quote1 in
  String q (escape (repr_esc q) s +:+ one q).

Fixpoint py_repr (j : json) : string :=
  match j with
  | JNull => "None"
  | JBool b => if b then "True" else "False"
  | JInt z => pretty z
  | JStr s => repr_string s
  | JList l => "[" +:+ join ", " (map py_repr l) +:+ "]"
  | JObj fields => "{" +:+ join ", " (map (fun kv => repr_string kv.1 +:+ ": " +:+ py_repr kv.2) fields) +:+ "}"
  end.
Definition py_str (j : json) : string := match j with JStr s => s | _ => py_repr j end.

(** ** [base64.b64encode] *)

Definition b64_char (n : nat) : ascii :=
  ascii_of_nat (if (n <? 26)%nat then 65 + n else if (n <? 52)%nat then 71 + n else if (n <? 62)%nat then n - 4
                else if (n =? 62)%nat then 43 else 47).
Fixpoint b64encode (s : string) : string :=
  match s with
  | EmptyString => EmptyString
  | String a s1 =>
      let x := nat_of_ascii a in
      match s1 with
      | EmptyString => String (b64_char (x / 4)) (String (b64_char (x mod 4 * 16)) "==")
      | String b s2 =>
          let y := nat_of_ascii b in
          match s2 with
          | EmptyString =>
              String (b64_char (x / 4)) (String (b64_char (x mod 4 * 16 + y / 16)) (String (b64_char (y mod 16 * 4)) "="))
          | String c s3 =>
              let z := nat_of_ascii c in
              String (b64_char (x / 4)) (String (b64_char (x mod 4 * 16 + y / 16))
                (String (b64_char (y mod 16 * 4 + z / 64)) (String (b64_char (z mod 64)) (b64encode s3))))
          end
      end
  end.

Example py_str_ex : py_str (JList [JStr "it's"; JNull; JInt (-3); JObj [("a", JBool true)]]) =
  "[" +:+ String quote2 ("it's" +:+ one quote2) +:+ ", None, -3, {'a': True}]".
Proof. reflexivity. Qed.
Example b64_ex : (b64encode "Man", b64encode "Ma", b64encode "M", upper "aBz") = ("TWFu", "TWE=", "TQ==", "ABZ").
Proof. reflexivity. Qed.
