(* ===== verification/ProjectContext.v ===== *)
(** * The context of a project and the transforms of its modules
      (services/execution/blueprint_context.py)

    What a project's DPU settings, host, release and DPU say, as variables of low
    precedence, and the reshaping of variables for the modules that want them
    under names of their own.  Networks are IPv4; the addresses are TmfifoIpam.v's. *)

From Stdlib Require Import Ascii.
From S2P Require Import Prelude Texts PyText TmfifoIpam.

#[local] Open Scope string_scope.
#[local] Open Scope list_scope.
#[local] Open Scope Z_scope.
#[local] Set Default Proof Using "Type".

(** A dict of variables. *)
Abbreviation vars := (gmap string json).

(** ** The context *)

Record ProjectContext := {
  external_vlan_id : option Z;
  external_vlan_ipv4_subnet : option string;
  internal_vlan_id : option Z;
  internal_vlan_ipv4_subnet : option string;
  high_speed_mtu : option Z;
  dpu_external_vlan_ipv4 : option string;
  dpu_internal_vlan_ipv4 : option string;
  bnk_manifest_version : option string;
  flo_version : option string;
  cert_manager_version : option string;
  storage_class_type : option string;
  storage_provisioner : option string;
  bnk_cr_kind : option string;
  is_bare_metal : bool;
  is_dpu_enabled : bool
}.
Definition empty_context : ProjectContext :=
  {| external_vlan_id := None; external_vlan_ipv4_subnet := None; internal_vlan_id := None; internal_vlan_ipv4_subnet := None;
     high_speed_mtu := None; dpu_external_vlan_ipv4 := None; dpu_internal_vlan_ipv4 := None; bnk_manifest_version := None;
     flo_version := None; cert_manager_version := None; storage_class_type := None; storage_provisioner := None;
     bnk_cr_kind := None; is_bare_metal := false; is_dpu_enabled := false |}.

Definition put {A} (k : string) (mk : A -> json) (v : option A) (m : vars) : vars :=
  match v with Some a => <[k := mk a]> m | None => m end.
Definition flag (b : bool) : option bool := if b then Some true else None.

Definition as_low_precedence_vars (c : ProjectContext) : vars :=
  put "external_vlan_id" JInt (external_vlan_id c)
  (put "external_vlan_ipv4_subnet" JStr (external_vlan_ipv4_subnet c)
  (put "internal_vlan_id" JInt (internal_vlan_id c)
  (put "internal_vlan_ipv4_subnet" JStr (internal_vlan_ipv4_subnet c)
  (put "high_speed_mtu" JInt (high_speed_mtu c)
  (put "dpu_external_vlan_ipv4" JStr (dpu_external_vlan_ipv4 c)
  (put "dpu_internal_vlan_ipv4" JStr (dpu_internal_vlan_ipv4 c)
  (put "bnk_manifest_version" JStr (bnk_manifest_version c)
  (put "flo_version" JStr (flo_version c)
  (put "cert_manager_version" JStr (cert_manager_version c)
  (put "storage_class_type" JStr (storage_class_type c)
  (put "storage_provisioner" JStr (storage_provisioner c)
  (put "bnk_cr_kind" JStr (bnk_cr_kind c)
  (put "is_bare_metal" JBool (flag (is_bare_metal c))
  (put "is_dpu_enabled" JBool (flag (is_dpu_enabled c)) ∅)))))))))))))).

(** ** The rows read *)

Record dpu_settings := {
  ds_project : Z;
  ds_external_vlan_id : option Z;
  ds_external_subnet : option string;
  ds_external_start : option Z;
  ds_internal_vlan_id : option Z;
  ds_internal_subnet : option string;
  ds_internal_start : option Z;
  ds_mtu : option Z
}.
Record profile := {
  vp_manifest_version : string;
  vp_flo_version : string;
  vp_cert_manager_version : option string;
  vp_storage_class_type : option string;
  vp_storage_provisioner : option string;
  vp_cr_kind : string
}.
Record host_row := { bh_ip : string; version_profile : option profile }.
Record dpu_row := { dp_project : Z; host_node_ip : option string; dp_external_ipv4 : option string; dp_internal_ipv4 : option string }.
Record cdb := { settings_rows : gmap Z dpu_settings; host_rows : gmap Z host_row; dpu_rows : gmap Z dpu_row }.

(** [start_host] is an offset in the network; [None] is also the address outside
    the network, or no address at all. *)
Definition _derive_selfip_from_vlan (subnet_cidr : option string) (start_host : option Z) : option string :=
  if negb (truthy_str subnet_cidr) then None
  else
    start ← start_host;
    network ← Ip.ip_network false (default "" subnet_cidr);
    let ip := Ip.n_addr network + start in
    if Ip.contains network ip then Some (Ip.show_ip ip) else None.

Definition or_number (o : option Z) (d : Z) : Z := match o with Some z => if z =? 0 then d else z | None => d end.

Section resolve.
Context {SO : SetOrder Z}.

(** [host_id]: [0] and [None] are no id. *)
Definition resolve_project_context (d : cdb) (project_id : Z) (host_id : option Z) : ProjectContext :=
  let settings := snd <$> head (select (fun _ s => ds_project s =? project_id) (settings_rows d)) in
  let host := i ← host_id; if i =? 0 then None else host_rows d !! i in
  let vp := host ≫= version_profile in
  let dpu := h ← host;
             snd <$> head (select (fun _ r => (dp_project r =? project_id) && bool_decide (host_node_ip r = Some (bh_ip h)))
                             (dpu_rows d)) in
  let derived ip subnet start :=
    s ← settings; if truthy_str (dpu ≫= ip) then None else _derive_selfip_from_vlan (subnet s) (start s) in
  let external := derived dp_external_ipv4 ds_external_subnet ds_external_start in
  let internal := derived dp_internal_ipv4 ds_internal_subnet ds_internal_start in
  let either (o : option string) p := match o with Some _ => o | None => p end in
  {| external_vlan_id := settings ≫= ds_external_vlan_id;
     external_vlan_ipv4_subnet := settings ≫= ds_external_subnet;
     internal_vlan_id := settings ≫= ds_internal_vlan_id;
     internal_vlan_ipv4_subnet := settings ≫= ds_internal_subnet;
     high_speed_mtu := (fun s => or_number (ds_mtu s) 9000) <$> settings;
     dpu_external_vlan_ipv4 := either external (dpu ≫= dp_external_ipv4);
     dpu_internal_vlan_ipv4 := either internal (dpu ≫= dp_internal_ipv4);
     bnk_manifest_version := vp_manifest_version <$> vp;
     flo_version := vp_flo_version <$> vp;
     cert_manager_version := vp ≫= vp_cert_manager_version;
     storage_class_type := vp ≫= vp_storage_class_type;
     storage_provisioner := vp ≫= vp_storage_provisioner;
     bnk_cr_kind := vp_cr_kind <$> vp;
     is_bare_metal := match host with Some _ => true | None => false end;
     is_dpu_enabled := match dpu, external, internal with None, None, None => false | _, _, _ => true end |}.
End resolve.

(** ** Self-IPs *)

(** [raw.rsplit("/", 1)], of a text with a slash. *)
Fixpoint rsplit_slash (s : string) : option (string * string) :=
  match s with
  | EmptyString => None
  | String c s' =>
      match rsplit_slash s' with
      | Some (a, b) => Some (String c a, b)
      | None => if Ascii.eqb c "/" then Some (EmptyString, s') else None
      end
  end.

Definition _resolve_selfip (dialog_value : option json) (dpu_ip : option string) : option string * option Z :=
  let from_dpu := if truthy_str dpu_ip then (strip <$> dpu_ip, None) else (None, None) in
  match dialog_value with
  | Some v =>
      if truthy v then
        let raw := strip (py_str v) in
        if String.eqb raw "" then from_dpu
        else match rsplit_slash raw with
             | Some (ip_part, prefix_part) =>
                 match py_int (strip prefix_part) with
                 | Some prefix =>
                     if (1 <=? prefix) && (prefix <=? 128) then (Some (strip ip_part), Some prefix) else (Some (strip ip_part), None)
                 | None => (Some (strip ip_part), None)
                 end
             | None => (Some raw, None)
             end
      else from_dpu
  | None => from_dpu
  end.

Definition _derive_subnet_cidr (ip : string) (prefix : Z) : option string :=
  Ip.show_net <$> Ip.ip_network false (ip +:+ "/" +:+ pretty prefix).

(** ** Transforms *)

(** A value a transform gives when the variable is not set and [b] holds, and one
    it forces. *)
Definition offer (b : bool) (k : string) (v : json) (variables result : vars) : vars :=
  if b && negb (bool_decide (k ∈ dom variables)) then <[k := v]> result else result.
Definition offer_text (k : string) (v : option string) (variables result : vars) : vars :=
  offer (truthy_str v) k (JStr (default "" v)) variables result.
Definition force (b : bool) (k : string) (v : string) (result : vars) : vars := if b then <[k := JStr v]> result else result.
Definition one_text (s : string) : json := JList [JStr s].

Definition _transform_install_cni (variables : vars) (c : ProjectContext) : vars :=
  offer (is_dpu_enabled c) "dpu_oob_subnet" (JStr "192.168.100.0/24") variables ∅.

Definition _transform_taint_dpu_node (variables : vars) (c : ProjectContext) : vars := force (is_dpu_enabled c) "taint_key" "dpu" ∅.

Definition _transform_bnk_prerequisites (variables : vars) (c : ProjectContext) : vars :=
  force (is_dpu_enabled c) "instance_namespace" "f5-bnk"
    (offer_text "bnk_manifest_version" (bnk_manifest_version c) variables ∅).

Definition _transform_cert_manager (variables : vars) (c : ProjectContext) : vars :=
  offer_text "cert_manager_version" (cert_manager_version c) variables ∅.

Definition offer_subnet (k : string) (subnet : option string) (variables result : vars) : vars :=
  offer (truthy_str subnet) k (one_text (default "" subnet)) variables result.

Definition _transform_network_setup (variables : vars) (c : ProjectContext) : vars :=
  let b := is_dpu_enabled c in
  offer b "namespace" (JStr "f5-bnk") variables
  (offer b "internal_nad_name" (JStr "sf-internal") variables
  (offer b "external_nad_name" (JStr "sf-external") variables
  (offer b "internal_resource_name" (JStr "nvidia.com/bf3_p1_sf") variables
  (offer b "external_resource_name" (JStr "nvidia.com/bf3_p0_sf") variables
  (offer b "cni_type" (JStr "sf") variables
  (force b "tmm_data_plane_mode" "sriov"
  (offer_subnet "internal_subnet_cidrs" (internal_vlan_ipv4_subnet c) variables
  (offer_subnet "external_subnet_cidrs" (external_vlan_ipv4_subnet c) variables ∅)))))))).

Definition _transform_flo (variables : vars) (c : ProjectContext) : vars :=
  offer_text "flo_version" (flo_version c) variables ∅.

(** [if c.high_speed_mtu] *)
Definition offer_mtu (k : string) (c : ProjectContext) (variables result : vars) : vars :=
  match high_speed_mtu c with
  | Some n => offer (negb (n =? 0)) k (JInt n) variables result
  | None => result
  end.

Definition _transform_cneinstance (variables : vars) (c : ProjectContext) : vars :=
  let b := is_dpu_enabled c in
  offer_text "bnk_cr_kind" (bnk_cr_kind c) variables
  (offer b "deployment_size" (JStr "Large") variables
  (offer b "internal_nad_name" (JStr "sf-internal") variables
  (offer b "external_nad_name" (JStr "sf-external") variables
  (force b "tmm_data_plane_mode" "sriov"
  (offer_mtu "tmm_default_mtu" c variables
  (offer b "dpu_enabled" (JBool true) variables
  (offer_text "manifest_version" (bnk_manifest_version c) variables ∅))))))).

(** The network of a self-IP with a prefix that the dialog gives. *)
Definition dialog_subnet (selfip : option json) : option string :=
  match selfip with
  | Some v =>
      if truthy v && contains "/" (py_str v) then
        match _resolve_selfip selfip None with
        | (Some ip, Some prefix) => if String.eqb ip "" || (prefix =? 0) then None else _derive_subnet_cidr ip prefix
        | _ => None
        end
      else None
  | None => None
  end.

Definition vlan_side (selfip self_ips cidrs : string) (dpu_ip subnet : option string) (variables result : vars) : vars :=
  let ip := (_resolve_selfip (variables !! selfip) dpu_ip).1 in
  let cidr := match dialog_subnet (variables !! selfip) with
              | Some d => if String.eqb d "" then subnet else Some d
              | None => subnet
              end in
  offer_subnet cidrs cidr variables (offer_subnet self_ips ip variables result).

Definition _transform_bnk_vlans (variables : vars) (c : ProjectContext) : vars :=
  force (is_dpu_enabled c) "namespace" "f5-bnk"
  (offer_mtu "mtu" c variables
  (vlan_side "internal_selfip" "internal_self_ips" "internal_subnet_cidrs" (dpu_internal_vlan_ipv4 c) (internal_vlan_ipv4_subnet c) variables
  (vlan_side "external_selfip" "external_self_ips" "external_subnet_cidrs" (dpu_external_vlan_ipv4 c) (external_vlan_ipv4_subnet c) variables ∅))).

Definition _transform_bnk_gatewayclass (variables : vars) (c : ProjectContext) : vars :=
  force (is_dpu_enabled c) "controller_name" "f5.com/f5-bnk-f5-cne-controller"
    (force (is_dpu_enabled c) "flo_namespace" "f5-bnk" ∅).

Definition MODULE_TRANSFORMS : list (string * (vars -> ProjectContext -> vars)) :=
  [("bare-metal/install-cni", _transform_install_cni);
   ("bare-metal/taint-dpu-node", _transform_taint_dpu_node);
   ("k8s/bnk-prerequisites", _transform_bnk_prerequisites);
   ("k8s/cert-manager", _transform_cert_manager);
   ("k8s/network-setup", _transform_network_setup);
   ("bnk/flo", _transform_flo);
   ("bnk/cneinstance", _transform_cneinstance);
   ("bnk/bnk-vlans", _transform_bnk_vlans);
   ("bnk/bnk-gatewayclass", _transform_bnk_gatewayclass);
   ("bare-metal/bnk-prerequisites", _transform_bnk_prerequisites);
   ("bare-metal/network-setup", _transform_network_setup);
   ("bare-metal/cert-manager", _transform_cert_manager);
   ("bare-metal/bnk-flo", _transform_flo);
   ("bare-metal/bnk-cneinstance", _transform_cneinstance);
   ("bare-metal/bnk-vlans", _transform_bnk_vlans);
   ("bare-metal/bnk-gatewayclass", _transform_bnk_gatewayclass)].

Definition transform_for_module (module_path : string) (variables : vars) (c : ProjectContext) : vars :=
  match dget module_path MODULE_TRANSFORMS with
  | Some transform => transform variables c
  | None => ∅
  end.

Definition resolve_dialog_field_default (inp_name module_path : string) (c : ProjectContext) : option string :=
  if String.eqb module_path "bnk/bnk-vlans" then
    if String.eqb inp_name "external_selfip" && truthy_str (dpu_external_vlan_ipv4 c) then dpu_external_vlan_ipv4 c
    else if String.eqb inp_name "internal_selfip" && truthy_str (dpu_internal_vlan_ipv4 c) then dpu_internal_vlan_ipv4 c
    else None
  else None.

(** ** What they promise *)

(** A derived self-IP is an address of its network, at the offset asked for, and
    reads back as it. *)
Theorem derived_selfip_inside (subnet t : string) (start : Z)
    (DERIVED : _derive_selfip_from_vlan (Some subnet) (Some start) = Some t) :
  exists n, Ip.ip_network false subnet = Some n /\ 0 <= start < Ip.size n /\ Ip.parse_ip t = Some (Ip.n_addr n + start).
Proof.
  unfold _derive_selfip_from_vlan in DERIVED. destruct (negb _); [done|]. cbn [mbind option_bind default] in DERIVED.
  change (id subnet) with subnet in DERIVED.
  destruct (Ip.ip_network false subnet) as [n|] eqn:En; [|discriminate].
  cbn [mbind option_bind] in DERIVED. destruct (Ip.contains n (Ip.n_addr n + start)) eqn:Ec; [|done]. injection DERIVED as <-.
  unfold Ip.contains in Ec. bool_hyps. exists n. split; [done|]. split; [lia|].
  apply Ip.ip_network_wf in En as (_ & Ha & Hs & _). apply Ip.parse_show_ip. lia.
Qed.

(** The names a DPU forces. *)
Definition FORCED : list string :=
  ["taint_key"; "instance_namespace"; "tmm_data_plane_mode"; "namespace"; "flo_namespace"; "controller_name"].

(** [result] gives no variable that is set but, with a DPU, a forced one. *)
Definition conservative (c : ProjectContext) (variables result : vars) : Prop :=
  forall k, k ∈ dom result -> k ∈ dom variables -> is_dpu_enabled c = true /\ k ∈ FORCED.

Section conservative.
Context (c : ProjectContext) (variables : vars).

Lemma conservative_empty : conservative c variables ∅.
Proof. intros k Hk. by apply elem_of_dom, is_Some_None in Hk. Qed.
Lemma conservative_offer b k v result : conservative c variables result -> conservative c variables (offer b k v variables result).
Proof.
  intros Hr. unfold offer. destruct b; [|done]. case_bool_decide as Hin; cbn; [done|].
  intros k' Hk' Hv. apply elem_of_dom in Hk' as [x Hx]. apply lookup_insert_Some in Hx as [[<- _]|[_ Hx]]; [done|].
  apply Hr; [by apply elem_of_dom_2 in Hx|done].
Qed.
Lemma conservative_force k v result : k ∈ FORCED -> conservative c variables result ->
  conservative c variables (force (is_dpu_enabled c) k v result).
Proof.
  intros Hk Hr. unfold force. destruct (is_dpu_enabled c) eqn:E; [|done].
  intros k' Hk' Hv. apply elem_of_dom in Hk' as [x Hx]. apply lookup_insert_Some in Hx as [[<- _]|[_ Hx]]; [done|].
  apply Hr; [by apply elem_of_dom_2 in Hx|done].
Qed.
Lemma conservative_mtu k result : conservative c variables result -> conservative c variables (offer_mtu k c variables result).
Proof. intros Hr. unfold offer_mtu. destruct (high_speed_mtu c); [by apply conservative_offer|done]. Qed.
End conservative.


(** A module's transform sets what is not set, and overrides nothing unless the
    project has a DPU, and then only the namespaces, names and modes the DPU
    forces. *)
Theorem transforms_conservative (path : string) (c : ProjectContext) (variables : vars) :
  conservative c variables (transform_for_module path variables c).
Proof.
  assert (Hforce : forall k v r, k ∈ FORCED -> conservative c variables r -> conservative c variables (force (is_dpu_enabled c) k v r))
    by (intros; by apply conservative_force).
  assert (Hin : forall k, bool_decide (k ∈ FORCED) = true -> k ∈ FORCED) by (intros k; apply bool_decide_eq_true).
  unfold transform_for_module. destruct (dget path MODULE_TRANSFORMS) as [f|] eqn:E; [|apply conservative_empty].
  apply dget_elem_of in E. unfold MODULE_TRANSFORMS in E.
  repeat (apply elem_of_cons in E as [E|E]; [injection E as -> ->;
    unfold _transform_install_cni, _transform_taint_dpu_node, _transform_bnk_prerequisites, _transform_cert_manager,
      _transform_network_setup, _transform_flo, _transform_cneinstance, _transform_bnk_vlans, _transform_bnk_gatewayclass,
      vlan_side, offer_subnet, offer_text;
    repeat first [apply Hforce; [by apply Hin|] | apply conservative_offer | apply conservative_mtu | apply conservative_empty]|]).
  by apply elem_of_nil in E.
Qed.

Module Example.
Lemma derived_selfip_inside_witness :
  _derive_selfip_from_vlan (Some "10.0.10.0/24") (Some 5) = Some "10.0.10.5" /\ Ip.parse_ip "10.0.10.5" <> None.
Proof.
  assert (D : _derive_selfip_from_vlan (Some "10.0.10.0/24") (Some 5) = Some "10.0.10.5") by (vm_compute; reflexivity).
  split; [exact D|]. destruct (derived_selfip_inside "10.0.10.0/24" "10.0.10.5" 5 D) as (n & _ & _ & E). by rewrite E.
Defined.
End Example.
