(* ===== verification/Variables.v ===== *)
(** * The variables of a module's run (services/execution/variable_assembler.py)

    The layers that make the variables of an execution: the project's, its
    context, the defaults of the module, what its inputs take from other modules,
    what is wired by name, transforms, the module's own, credentials, secrets and
    mappings.  Dicts are maps; what decrypting and the cluster's API answer are
    fields; region warnings and logs are left out. *)

From Stdlib Require Import Ascii.
From S2P Require Import Prelude Texts PyText ModuleState TmfifoIpam Naming ProjectContext.

#[local] Open Scope string_scope.
#[local] Open Scope list_scope.
#[local] Open Scope Z_scope.
#[local] Set Default Proof Using "Type".

(** ** Rows *)

Record input := {
  in_name : string;
  in_source : option string;
  in_from_module : option string;
  in_from_output : option string;
  in_default : json;
  in_encoding : option string
}.
(** [lib_inputs]: the required and the optional ones; [lib_schema]: the names
    declared. *)
Record library := { lib_path : string; lib_inputs : option (list input * list input); lib_schema : list string }.

Record wmod := {
  wm_project : Z;
  wm_stack : option Z;
  wm_status : ModuleStatus;
  wm_outputs : option vars;
  wm_dependencies : list Z;
  wm_library : option library;
  variable_overrides : option vars;
  own_variables : option vars
}.

(** The secrets are what decrypting gives. *)
Record template := {
  provider : string;
  ibmcloud_api_key : option string;
  ibmcloud_resource_group : option string;
  t_region : option string;
  aws_auth_method : option string;
  aws_profile : option string
}.
(** [cl_kubeconfig]: decrypted and normalised.  [vlan_items]: what listing the
    F5SPKVlans answers; [None] when that fails or is no list. *)
Record cluster_info := { cl_name : option string; cl_kubeconfig : option string; vlan_items : option (list json) }.
Record ssh_credential := { sc_host : string; sc_user : string; sc_key : option string }.
Record wproject := {
  p_name : string;
  p_environment : option string;
  cloud_provider : option string;
  p_region : option string;
  credential_template : option template;
  k8s_clusters : list cluster_info;
  project_variables : option vars;
  p_ssh_credential : option ssh_credential
}.
Record mapping := { source_variable_name : string; target_variable_name : string; transform_type : option string }.

Inductive vexc := VValueError (why : string) | VTypeError | VDataError.

(** [d.get(k)] is truthy. *)
Definition is_set (d : vars) (k : string) : bool := match d !! k with Some v => truthy v | None => false end.
(** A dict that is not [None] and not empty. *)
Definition some_dict (d : option vars) : option vars := d ≫= fun m => if (size m =? 0)%nat then None else Some m.
(** [a or b or {}] *)
Definition or_dict (a b : option vars) : vars :=
  match some_dict a with Some m => m | None => default ∅ b end.
(** [d.update(new)], and the update of what [d] does not have. *)
Definition update (new d : vars) : vars := new ∪ d.
Definition fill (new d : vars) : vars := d ∪ new.

(** ** Finding the module an input comes from *)

Section lookup.
Context {SO : SetOrder Z} (modules : gmap Z wmod).

Definition path_of (m : wmod) : string := match wm_library m with Some l => lib_path l | None => "" end.
Definition has_library (m : wmod) : bool := match wm_library m with Some _ => true | None => false end.

(** [s] without the occurrences of an [old] that is not empty. *)
Fixpoint remove_all (old : string) (skip : nat) (s : string) : string :=
  match s with
  | EmptyString => EmptyString
  | String c s' =>
      match skip with
      | S k => remove_all old k s'
      | O => match after_prefix old s with
             | Some _ => remove_all old (String.length old - 1) s'
             | None => String c (remove_all old 0 s')
             end
      end
  end.
Definition without_infra (s : string) : string := remove_all "infra/" 0 s.

Definition _suffix_or_normalized_match (module_path : string) (m : wmod) : bool :=
  ends_with ("/" +:+ module_path) (path_of m) || ends_with ("/" +:+ path_of m) module_path
  || String.eqb (without_infra module_path) (without_infra (path_of m)).

(** The first row in the order of the query. *)
Definition first_module (P : wmod -> bool) : option (Z * wmod) := head (select (fun _ m => P m) modules).

Definition in_project (project : Z) (m : wmod) : bool := (wm_project m =? project) && has_library m.
Definition in_stack (stack : Z) (m : wmod) : bool := bool_decide (wm_stack m = Some stack).

Definition or_next {A} (a : option A) (b : option A) : option A := match a with Some _ => a | None => b end.

Definition find_dependency_by_path (project : Z) (module_path : string) (stack : option Z) : option (Z * wmod) :=
  let exactly m := in_project project m && String.eqb (path_of m) module_path in
  let all := select (fun _ m => in_project project m) modules in
  let matching l := snd <$> list_find (fun im : Z * wmod => _suffix_or_normalized_match module_path im.2 = true) l in
  let scoped P := s ← stack; P s in
  or_next (scoped (fun s => first_module (fun m => exactly m && in_stack s m)))
    (or_next (first_module exactly)
      (or_next (scoped (fun s => matching (filter (fun im => in_stack s im.2 = true) all)))
        (matching all))).

(** An output that is there and not null. *)
Definition output_of (m : wmod) (name : option string) : option json :=
  outs ← some_dict (wm_outputs m); n ← name; v ← outs !! n; match v with JNull => None | _ => Some v end.

Definition _resolve_from_dependency_outputs (m : wmod) (name : option string) : option json :=
  let deps := select (fun i _ => bool_decide (i ∈ wm_dependencies m)) modules in
  let given (l : list (Z * wmod)) := head (omap (fun im => output_of im.2 name) l) in
  let same_stack := filter (fun im : Z * wmod => wm_stack im.2 = wm_stack m) deps in
  or_next (given same_stack)
    (or_next (given deps)
      (let applied := select (fun _ x => (wm_project x =? wm_project m) && bool_decide (wm_status x = APPLIED)
                                         && match wm_stack m with Some s => in_stack s x | None => true end) modules in
       match omap (fun im => output_of im.2 name) applied with
       | [v] => Some v
       | _ => None
       end)).

(** ** Wiring by declaration *)

Definition wire_input (m : wmod) (required : bool) (operation : string) (i : input) (variables : vars) : result vexc vars :=
  let strict := required && negb (String.eqb operation "destroy") in
  let missing := bool_decide (variables !! in_name i = None) in
  if negb (bool_decide (in_source i = Some "module")) then Ok variables
  else if negb (truthy_str (in_from_module i)) then Ok variables
  else
    let from := default "" (in_from_module i) in
    let found := snd <$> find_dependency_by_path (wm_project m) from (wm_stack m) in
    match found ≫= (fun dep => some_dict (wm_outputs dep)), found with
    | Some _, Some dep =>
        match output_of dep (in_from_output i) with
        | Some v => Ok (<[in_name i := v]> variables)
        | None => if strict then Err (VValueError "Required dependency output not available") else Ok variables
        end
    | _, _ =>
        let fallback := match found with None => _resolve_from_dependency_outputs m (in_from_output i) | Some _ => None end in
        match fallback with
        | Some v => Ok (if missing then <[in_name i := v]> variables else variables)
        | None =>
            match in_default i with
            | JNull => if strict && missing then Err (VValueError "Required dependency not available") else Ok variables
            | v => Ok (if missing then <[in_name i := v]> variables else variables)
            end
        end
    end.

Fixpoint wire_inputs (m : wmod) (required : list string) (operation : string) (l : list input) (variables : vars) : result vexc vars :=
  match l with
  | [] => Ok variables
  | i :: l =>
      variables ← wire_input m (bool_decide (in_name i ∈ required)) operation i variables;
      wire_inputs m required operation l variables
  end.

Definition apply_dependency_output_wiring (m : wmod) (operation : string) (variables : vars) : result vexc vars :=
  match wm_library m ≫= lib_inputs with
  | Some (required, optional) => wire_inputs m (in_name <$> required) operation (required ++ optional) variables
  | None => Ok variables
  end.

(** ** Wiring by name *)

Record candidate := { cd_value : json; cd_dep : bool; cd_same_stack : bool; cd_id : Z }.

Definition _candidate_priority (c : candidate) : list Z :=
  if cd_same_stack c then [0; if cd_dep c then 0 else 1; cd_id c]
  else if cd_dep c then [1; 0; cd_id c]
  else [2; 0; cd_id c].

(** [sorted(candidates, key=_candidate_priority)[0]] *)
Fixpoint best (c : candidate) (cs : list candidate) : candidate :=
  match cs with
  | [] => c
  | x :: cs => best (if tuple_lt (_candidate_priority x) (_candidate_priority c) then x else c) cs
  end.
Definition selected (cs : list candidate) : option candidate := match cs with [] => None | c :: cs => Some (best c cs) end.

(** The modules whose outputs may be wired into module [mid]. *)
Definition sources (mid : Z) (m : wmod) : list (Z * wmod) :=
  select (fun i x => (wm_project x =? wm_project m) && bool_decide (wm_status x = APPLIED) && negb (i =? mid)
                     && match some_dict (wm_outputs x) with Some _ => has_library x | None => false end) modules.
Definition candidate_of (m : wmod) (name : string) (im : Z * wmod) : option candidate :=
  outs ← wm_outputs im.2;
  v ← outs !! name;
  Some {| cd_value := v; cd_dep := bool_decide (im.1 ∈ wm_dependencies m);
          cd_same_stack := match wm_stack m with Some s => in_stack s im.2 | None => false end; cd_id := im.1 |}.
Definition available (mid : Z) (m : wmod) (name : string) : option json :=
  cd_value <$> selected (omap (candidate_of m name) (sources mid m)).

Definition output_names (mid : Z) (m : wmod) : list string :=
  elements (⋃ ((fun im : Z * wmod => dom (default ∅ (wm_outputs im.2))) <$> sources mid m)).

Definition _AUTO_WIRE_SKIP : list string := ["namespace"; "release_name"; "name"].
Definition auto_wire_one (mid : Z) (m : wmod) (variables : vars) (name : string) : vars :=
  if bool_decide (name ∈ _AUTO_WIRE_SKIP) || is_set variables name then variables
  else match available mid m name with Some v => <[name := v]> variables | None => variables end.

(** [if not variables.get(k): variables[k] = v] *)
Definition unless_set (k : string) (v : json) (variables : vars) : vars := if is_set variables k then variables else <[k := v]> variables.

Definition auto_wire_common_variables (mid : Z) (m : wmod) (p : wproject) (variables : vars) : vars :=
  let wired := foldl (auto_wire_one mid m) variables (output_names mid m) in
  let named :=
    unless_set "project_name_gcp_safe" (JStr (slugify_gcp_name (p_name p)))
    (unless_set "project_name_s3_safe" (JStr (slugify_s3_name (p_name p)))
    (unless_set "project_name_aws_safe" (JStr (slugify_aws_name (p_name p)))
    (unless_set "project_name" (JStr (p_name p)) wired))) in
  if bool_decide (cloud_provider p = Some "aws") && truthy_str (p_region p) then
    let region := JStr (default "" (p_region p)) in
    unless_set "aws_region" region (unless_set "region" region named)
  else named.
End lookup.

(** ** Mappings *)

Definition _looks_like_jwt (value : string) : bool :=
  match split_on (fun c => Ascii.eqb c ".") value "" with
  | [a; _; _] => match after_prefix "eyJ" a with Some _ => true | None => false end
  | _ => false
  end.

Definition apply_transformation (value : json) (transform : option string) : json :=
  if negb (truthy_str transform) then value
  else
    let t := default "" transform in
    let str_value := py_str value in
    if String.eqb t "none" then value
    else if String.eqb t "uppercase" then JStr (upper str_value)
    else if String.eqb t "lowercase" then JStr (lower str_value)
    else if String.eqb t "json_encode" then JStr (json_dumps value)
    else if String.eqb t "base64" then JStr (if _looks_like_jwt str_value then str_value else b64encode str_value)
    else value.

Definition _get_raw_encoding_vars (m : wmod) : list string :=
  match wm_library m ≫= lib_inputs with
  | Some (required, optional) =>
      in_name <$> filter (fun i => in_encoding i = Some "raw") (required ++ optional)
  | None => []
  end.

(** What the mappings give, and the sources that go. *)
Definition mapped_value (raw : list string) (variables : vars) (mp : mapping) : option json :=
  v ← variables !! source_variable_name mp;
  Some (if bool_decide (target_variable_name mp ∈ raw) || bool_decide (source_variable_name mp ∈ raw) then v
        else apply_transformation v (transform_type mp)).
Fixpoint map_all (raw : list string) (variables : vars) (l : list mapping) (mapped : vars) (sources : list string) : vars * list string :=
  match l with
  | [] => (mapped, sources)
  | mp :: l =>
      match mapped_value raw variables mp with
      | Some v => map_all raw variables l (<[target_variable_name mp := v]> mapped)
                    (if String.eqb (source_variable_name mp) (target_variable_name mp) then sources
                     else source_variable_name mp :: sources)
      | None => map_all raw variables l mapped sources
      end
  end.
(** [mappings]: the active ones of the module. *)
Definition apply_variable_mappings (m : wmod) (mappings : list mapping) (variables : vars) : vars :=
  let '(mapped, sources) := map_all (_get_raw_encoding_vars m) variables mappings ∅ [] in
  foldr (fun s d => if bool_decide (s ∈ dom mapped) then d else delete s d) (update mapped variables) sources.

(** ** The cluster's VIP, credentials and sentinels *)

Definition dict_of (j : json) : option (list (string * json)) := match j with JObj d => Some d | _ => None end.

(** [None]: an exception, which the caller takes for no VIP. *)
Definition vip_of_item (item : json) : option (option string) :=
  let spec := match dict_of item with Some d => default (JObj []) (dget "spec" d) | None => JObj [] end in
  match dict_of spec with
  | None => Some None
  | Some spec =>
      let external := match dget "category" spec with Some (JStr c) => String.eqb c "external" | _ => false end in
      let not_internal := match dget "internal" spec with Some (JBool false) => true | _ => false end in
      if negb (external || not_internal) then Some None
      else
        match dget "selfip_v4s" spec with
        | Some (JList (ip :: ips)) =>
            let prefix := match dget "prefixlen_v4" spec with Some v => if truthy v then v else JInt 24 | None => JInt 24 end in
            match Ip.ip_network false (py_str ip +:+ "/" +:+ py_str prefix) with
            | None => Some None
            | Some net =>
                let candidate := Ip.n_addr net + 100 in
                if 2 ^ 32 <=? candidate then None
                else if negb (Ip.contains net candidate) || (candidate =? Ip.n_addr net) || (candidate =? Ip.n_addr net + Ip.size net - 1)
                then Some None
                else if existsb (fun j => match j with JStr s => String.eqb s (Ip.show_ip candidate) | _ => false end) (ip :: ips)
                then Some None
                else Some (Some (Ip.show_ip candidate))
            end
        | Some (JInt n) => if n =? 0 then Some None else None
        | Some (JBool true) => None
        | Some (JObj (_ :: _)) => None
        | _ => Some None
        end
  end.
Fixpoint _pick_bnk_external_vip (items : list json) : option string :=
  match items with
  | [] => None
  | item :: items =>
      match vip_of_item item with
      | None => None
      | Some (Some ip) => Some ip
      | Some None => _pick_bnk_external_vip items
      end
  end.

Definition INHERIT_FROM_TEMPLATE_SENTINEL : string := "__inherited_from_template__".
Definition inherited (t : template) (name : string) : option string :=
  if String.eqb name "ibmcloud_api_key" then ibmcloud_api_key t
  else if String.eqb name "ibmcloud_resource_group" then ibmcloud_resource_group t
  else if bool_decide (name ∈ ["region"; "ibmcloud_cluster_region"; "ibmcloud_region"]) then t_region t
  else None.
Definition _resolve_inherit_sentinels (p : wproject) (user : vars) : vars :=
  match credential_template p with
  | Some t =>
      if String.eqb (provider t) "ibm" then
        map_imap (fun name v =>
          match v with
          | JStr s => if String.eqb s INHERIT_FROM_TEMPLATE_SENTINEL && truthy_str (inherited t name)
                      then Some (JStr (default "" (inherited t name))) else Some v
          | _ => Some v
          end) user
      else user
  | None => user
  end.

Definition _inject_project_ssh_credential_variables (p : wproject) (m : wmod) (variables : vars) : vars :=
  match p_ssh_credential p, wm_library m with
  | Some cred, Some lib =>
      let wanted k v d := if bool_decide (k ∈ lib_schema lib) then unless_set k v d else d in
      let keyed := wanted "ssh_user" (JStr (sc_user cred)) (wanted "ssh_host" (JStr (sc_host cred)) variables) in
      match sc_key cred with
      | Some key => wanted "ssh_private_key_path" (JStr key) keyed
      | None => keyed
      end
  | _, _ => variables
  end.

Definition _inject_cluster_kubeconfig (cl : cluster_info) (m : wmod) (variables : vars) : vars :=
  match wm_library m with
  | Some lib =>
      if bool_decide ("kubeconfig_content" ∈ lib_schema lib) && negb (is_set variables "kubeconfig_content") then
        match cl_kubeconfig cl with Some k => <["kubeconfig_content" := JStr k]> variables | None => variables end
      else variables
  | None => variables
  end.

(** ** The layers *)

Definition environment_of (p : wproject) : string := if truthy_str (p_environment p) then default "" (p_environment p) else "dev".
Definition CLUSTER_NAMES : list string :=
  ["cluster_name"; "eks_cluster_name"; "aks_cluster_name"; "gke_cluster_name"; "roks_cluster_name"; "openshift_cluster_name"].
Definition set_all (l : list string) (v : json) (variables : vars) : vars := foldl (fun d k => <[k := v]> d) variables l.

Definition names_layer (p : wproject) : vars :=
  <["common_tags" := JObj [("Project", JStr (p_name p)); ("Environment", JStr (environment_of p)); ("ManagedBy", JStr "BNK-Forge")]]>
  (<["environment" := JStr (environment_of p)]>
  (<["project_name_gcp_safe" := JStr (slugify_gcp_name (p_name p))]>
  (<["project_name_s3_safe" := JStr (slugify_s3_name (p_name p))]>
  (<["project_name_aws_safe" := JStr (slugify_aws_name (p_name p))]>
  (<["project_name" := JStr (p_name p)]> ∅))))).

Definition cluster_layer (p : wproject) (variables : vars) : vars :=
  match k8s_clusters p with
  | [] => variables
  | cl :: _ =>
      let named := if truthy_str (cl_name cl) then set_all CLUSTER_NAMES (JStr (default "" (cl_name cl))) variables else variables in
      match vlan_items cl ≫= _pick_bnk_external_vip with
      | Some vip => set_all ["gateway_vip"; "bnk_external_vip"] (JStr vip) named
      | None => named
      end
  end.

Definition text_json (s : option string) : json := match s with Some t => JStr t | None => JNull end.

(** [default_region]: what [get_default] answers. *)
Definition cloud_layer (p : wproject) (default_region : json) (variables : vars) : vars :=
  if bool_decide (cloud_provider p = Some "aws") then
    let region := if truthy_str (p_region p) then text_json (p_region p) else default_region in
    let profile := match credential_template p with
                   | Some t => if bool_decide (aws_auth_method t = Some "profile") && truthy_str (aws_profile t)
                               then default "" (aws_profile t) else "default"
                   | None => "default"
                   end in
    <["aws_profile" := JStr profile]> (set_all ["region"; "aws_region"] region variables)
  else if bool_decide (cloud_provider p = Some "ibm") && truthy_str (p_region p) then
    let regions := set_all ["region"; "ibm_region"] (text_json (p_region p)) variables in
    match credential_template p with
    | Some t => if truthy_str (ibmcloud_resource_group t)
                then <["ibmcloud_resource_group" := text_json (ibmcloud_resource_group t)]> regions else regions
    | None => regions
    end
  else variables.

(** The dict of [variable_defaults], where there is one, stands for all. *)
Definition project_variables_layer (p : wproject) (variables : vars) : result vexc vars :=
  match some_dict (project_variables p) with
  | None => Ok variables
  | Some pv =>
      match pv !! "variable_defaults" with
      | None => Ok (update pv variables)
      | Some (JObj d) => Ok (update (list_to_map (rev d)) variables)
      | Some (JList []) | Some (JStr "") => Ok variables
      | Some _ => Err VTypeError
      end
  end.

Definition system_layers (p : wproject) (default_region : json) : result vexc vars :=
  project_variables_layer p (cloud_layer p default_region (cluster_layer p (names_layer p))).

Definition module_path (m : wmod) : string := match wm_library m with Some l => lib_path l | None => "" end.
Definition host_id_of (m : wmod) : option json :=
  let named (d : option vars) := v ← default ∅ d !! "bare_metal_host_id"; if truthy v then Some v else None in
  match named (variable_overrides m) with Some v => Some v | None => named (own_variables m) end.
Definition pure_cloud_infra (path : string) : bool :=
  existsb (fun pre => bool_decide (after_prefix pre path <> None)) ["infra/aws/"; "infra/gke/"; "infra/azure/"].

Definition user_variables (m : wmod) : vars := or_dict (variable_overrides m) (own_variables m).

(** [db_id]: the integer the database compares an id of a dict with; [None] is
    its refusal. *)
Section build.
Context {SO : SetOrder Z} (db_id : json -> option Z) (modules : gmap Z wmod) (d : cdb) (default_region : json).

Definition context_of (m : wmod) : result vexc ProjectContext :=
  match host_id_of m with
  | None => Ok (if pure_cloud_infra (module_path m) then empty_context else resolve_project_context d (wm_project m) None)
  | Some v =>
      match db_id v with
      | Some i => Ok (resolve_project_context d (wm_project m) (Some i))
      | None => Err VDataError
      end
  end.

(** Layers 2.5 to 4.5. *)
Definition module_layers (mid : Z) (m : wmod) (p : wproject) (operation : string) (c : ProjectContext) (variables : vars) : result vexc vars :=
  let known := fill (user_variables m) (fill (as_low_precedence_vars c) variables) in
  let early := fill (transform_for_module (module_path m) known c) known in
  wired ← apply_dependency_output_wiring modules m operation early;
  let auto := auto_wire_common_variables modules mid m p wired in
  Ok (update (transform_for_module (module_path m) auto c) auto).

(** Layers 5 to 6. *)
Definition user_layers (m : wmod) (p : wproject) (secrets : vars) (variables : vars) : vars :=
  let user := update (_resolve_inherit_sentinels p (user_variables m)) variables in
  let keyed := _inject_project_ssh_credential_variables p m user in
  let kubed := match k8s_clusters p with cl :: _ => _inject_cluster_kubeconfig cl m keyed | [] => keyed end in
  update secrets kubed.

Definition build_variables (mid : Z) (m : wmod) (p : wproject) (mappings : list mapping) (secrets : vars) (operation : string) : result vexc vars :=
  system ← system_layers p default_region;
  c ← context_of m;
  wired ← module_layers mid m p operation c system;
  Ok (apply_variable_mappings m mappings (user_layers m p secrets wired)).

(** ** The variables of a BIG-IP *)

Record bigip := { bi_id : Z; mgmt_host : string; mgmt_port : option Z; bi_name : string }.

Definition device_fields (b : bigip) : vars :=
  <["tmos_host" := JStr (mgmt_host b)]> (<["tmos_port" := JInt (or_number (mgmt_port b) 443)]>
  (<["f5_bigip_device_id" := JInt (bi_id b)]> (<["f5_bigip_device_name" := JStr (bi_name b)]> ∅))).

(** [devices]: the table; an id that is no number is no device. *)
Definition device_of (devices : gmap Z bigip) (m : wmod) : option bigip :=
  let named (d : option vars) := v ← default ∅ d !! "f5_bigip_device_id"; if truthy v then Some v else None in
  v ← match named (variable_overrides m) with Some v => Some v | None => named (own_variables m) end;
  i ← match v with JInt n => Some n | JBool b => Some (if b then 1 else 0) | JStr s => py_int s | _ => None end;
  devices !! i.

Definition build_variables_for_tmos (devices : gmap Z bigip) (mid : Z) (m : wmod) (p : wproject) (given : option bigip)
    (mappings : list mapping) (operation : string) : result vexc vars :=
  variables ← build_variables mid m p mappings ∅ operation;
  Ok (match match given with Some b => Some b | None => device_of devices m end with
      | Some b => fill (device_fields b) variables
      | None => variables
      end).
End build.

(** [_substitute]: [{{name}}] becomes the text of the variable; [skip]: the
    characters of a placeholder that are done. *)
Definition placeholder (s : string) : option string :=
  r ← after_prefix "{{" s;
  let '(name, rest) := span (fun c => negb (Ascii.eqb c "}")) r in
  _ ← after_prefix "}}" rest;
  if String.eqb name "" then None else Some name.
Fixpoint substitute (variables : vars) (skip : nat) (s : string) : string :=
  match s with
  | EmptyString => EmptyString
  | String c s' =>
      match skip with
      | S k => substitute variables k s'
      | O => match placeholder s with
             | Some name =>
                 match variables !! strip name with
                 | None | Some JNull => "{{" +:+ name +:+ "}}"
                 | Some v => py_str v
                 end +:+ substitute variables (String.length name + 3) s'
             | None => String c (substitute variables 0 s')
             end
      end
  end.
