(* ===== verification/VariableLaws.v ===== *)
(** * What the variables of a run are

    Theorems of Variables.v: which layer a variable comes from, when the wiring
    of a required input fails, that wiring by name does not depend on the order
    of the database's answers, and what mappings leave. *)

From Stdlib Require Import Ascii.
From S2P Require Import Prelude Texts PyText ModuleState TmfifoIpam Naming ProjectContext Variables.

#[local] Open Scope string_scope.
#[local] Open Scope list_scope.
#[local] Open Scope Z_scope.
#[local] Set Default Proof Using "Type".

Lemma lookup_update (new d : vars) k : update new d !! k = match new !! k with Some v => Some v | None => d !! k end.
Proof. unfold update. rewrite (lookup_union new d). by destruct (new !! k), (d !! k). Qed.
Lemma lookup_fill (new d : vars) k : fill new d !! k = match d !! k with Some v => Some v | None => new !! k end.
Proof. unfold fill. rewrite (lookup_union d new). by destruct (d !! k), (new !! k). Qed.
Lemma lookup_unless_set k v d k' :
  unless_set k v d !! k' = if bool_decide (k' = k) && negb (is_set d k) then Some v else d !! k'.
Proof.
  unfold unless_set. destruct (is_set d k); [by rewrite andb_false_r|].
  case_bool_decide as E; [subst; apply lookup_insert_eq|by apply lookup_insert_ne].
Qed.
Lemma is_set_lookup d d' k : d !! k = d' !! k -> is_set d k = is_set d' k.
Proof. unfold is_set. by intros ->. Qed.

Lemma existsb_ext' {A} (f g : A -> bool) (l : list A) : (forall x, x ∈ l -> f x = g x) -> existsb f l = existsb g l.
Proof.
  induction l as [|x l IH]; intros H; [done|]. cbn. rewrite H by apply elem_of_cons, or_introl, eq_refl.
  f_equal. apply IH. intros y Hy. by apply H, elem_of_cons, or_intror.
Qed.

(** ** Wiring by declaration *)

Section wiring.
Context {SO : SetOrder Z} (modules : gmap Z wmod) (m : wmod) (operation : string).

(** What the modules have for an input: an output that is wired, a value for an
    input without one, or nothing; [Broken]: the module named has outputs, not
    this one. *)
Inductive supply := Wired (v : json) | Offered (v : json) | Unavailable | Broken | NotWired.

Definition non_null (v : json) : option json := match v with JNull => None | _ => Some v end.
Definition supply_of (i : input) : supply :=
  if negb (bool_decide (in_source i = Some "module") && truthy_str (in_from_module i)) then NotWired
  else
    let offered (o : option json) := match o with Some v => Offered v | None => Unavailable end in
    match snd <$> find_dependency_by_path modules (wm_project m) (default "" (in_from_module i)) (wm_stack m) with
    | Some dep =>
        if bool_decide (some_dict (wm_outputs dep) = None) then offered (non_null (in_default i))
        else match output_of dep (in_from_output i) with Some v => Wired v | None => Broken end
    | None => offered (or_next (_resolve_from_dependency_outputs modules m (in_from_output i)) (non_null (in_default i)))
    end.

(** The value the input ends with, and whether a required one is unanswered,
    where the variable was [cur]. *)
Definition answer (s : supply) (cur : option json) : option json :=
  match s with Wired v => Some v | Offered v => or_next cur (Some v) | _ => cur end.
Definition unanswered (s : supply) (cur : option json) : bool :=
  match s, cur with Broken, _ => true | Unavailable, None => true | _, _ => false end.
End wiring.

Section wiring_laws.
Context {SO : SetOrder Z} (modules : gmap Z wmod) (m : wmod) (operation : string).

Lemma fallback_supply (b : bool) i variables (o : option json) :
  let s := match or_next o (non_null (in_default i)) with Some v => Offered v | None => Unavailable end in
  let cur := variables !! in_name i in
  let missing := bool_decide (variables !! in_name i = None) in
  let r := match o with
           | Some v => Ok (if missing then <[in_name i := v]> variables else variables)
           | None => match in_default i with
                     | JNull => if b && missing then Err (VValueError "Required dependency not available") else Ok variables
                     | v => Ok (if missing then <[in_name i := v]> variables else variables)
                     end
           end in
  if b && unanswered s cur then exists e, r = Err e
  else exists v : vars, r = Ok v /\ v !! in_name i = answer s cur /\ forall k, k <> in_name i -> v !! k = variables !! k.
Proof.
  cbn zeta.
  assert (Hput : forall v, exists d : vars,
    (Ok (if bool_decide (variables !! in_name i = None) then <[in_name i := v]> variables else variables) : result vexc vars) = Ok d /\
    d !! in_name i = or_next (variables !! in_name i) (Some v) /\ forall k, k <> in_name i -> d !! k = variables !! k).
  { intros v. eexists. split; [done|]. case_bool_decide as E.
    - rewrite E. split; [apply lookup_insert_eq|]. intros k Hk. by apply lookup_insert_ne.
    - by destruct (variables !! in_name i). }
  destruct o as [v|]; cbn [or_next answer unanswered].
  { replace (b && false) with false by (by destruct b). destruct (variables !! in_name i); rewrite ?andb_false_r; apply Hput. }
  destruct (in_default i); cbn [non_null answer unanswered];
    try (replace (b && false) with false by (by destruct b); apply Hput).
  case_bool_decide as E; [rewrite E|destruct (variables !! in_name i) eqn:E'; [|done]];
    destruct b; cbn; first [by eexists|by exists variables].
Qed.

Lemma wire_input_supply required i variables :
  let s := supply_of modules m i in
  let cur := variables !! in_name i in
  if required && negb (String.eqb operation "destroy") && unanswered s cur
  then exists e, wire_input modules m required operation i variables = Err e
  else exists v, wire_input modules m required operation i variables = Ok v /\
       v !! in_name i = answer s cur /\ forall k, k <> in_name i -> v !! k = variables !! k.
Proof.
  cbn zeta. unfold wire_input, supply_of.
  destruct (bool_decide (in_source i = Some "module")); cbn [negb andb];
    [|rewrite andb_false_r; by exists variables].
  destruct (truthy_str (in_from_module i)); cbn [negb]; [|rewrite andb_false_r; by exists variables].
  destruct (find_dependency_by_path _ _ _ _) as [[di dep]|]; cbn [fmap option_fmap option_map snd mbind option_bind].
  - destruct (some_dict (wm_outputs dep)) as [outs|].
    + rewrite bool_decide_eq_false_2 by done. destruct (output_of dep _) as [v|]; cbn [unanswered answer].
      * rewrite andb_false_r. eexists. split; [done|]. split; [apply lookup_insert_eq|]. intros k Hk. by apply lookup_insert_ne.
      * rewrite andb_true_r. destruct (required && _); eauto.
    + rewrite bool_decide_eq_true_2 by done. apply (fallback_supply _ i variables None).
  - apply fallback_supply.
Qed.

(** [variables] is what [base] becomes by the answers of the inputs [l]. *)
Definition answered (base variables : vars) (l : list input) : Prop :=
  (forall i, i ∈ l -> variables !! in_name i = answer (supply_of modules m i) (base !! in_name i)) /\
  (forall k, k ∉ in_name <$> l -> variables !! k = base !! k).

Lemma wire_inputs_answered required l variables :
  NoDup (in_name <$> l) ->
  let fails i := bool_decide (in_name i ∈ required) && negb (String.eqb operation "destroy")
                 && unanswered (supply_of modules m i) (variables !! in_name i) in
  if existsb fails l then exists e, wire_inputs modules m required operation l variables = Err e
  else exists v, wire_inputs modules m required operation l variables = Ok v /\ answered variables v l.
Proof.
  cbn zeta. revert variables. induction l as [|i l IH]; intros variables Hnd; cbn [existsb wire_inputs].
  { exists variables. split; [done|]. split; [|done]. intros i Hi. by apply elem_of_nil in Hi. }
  cbn in Hnd. apply NoDup_cons in Hnd as [Hi Hnd].
  pose proof (wire_input_supply (bool_decide (in_name i ∈ required)) i variables) as H. cbn zeta in H.
  destruct (_ && _ && unanswered (supply_of modules m i) _); cbn [orb].
  { destruct H as [e ->]. by exists e. }
  destruct H as (v & -> & Hv & Hrest). cbn [mbind result_bind].
  specialize (IH v Hnd).
  assert (Hsame : forall j, j ∈ l -> v !! in_name j = variables !! in_name j).
  { intros j Hj. apply Hrest. intros E. apply Hi. rewrite <- E. by apply list_elem_of_fmap_2. }
  rewrite (existsb_ext' _ (fun j => bool_decide (in_name j ∈ required) && negb (String.eqb operation "destroy")
      && unanswered (supply_of modules m j) (variables !! in_name j))) in IH by (intros j Hj; by rewrite Hsame).
  destruct (existsb _ l); [done|]. destruct IH as (v' & -> & Hl & Hr). exists v'. split; [done|]. split.
  - intros j [->|Hj]%elem_of_cons; [|rewrite Hl by done; by rewrite Hsame].
    by rewrite Hr.
  - intros k Hk. cbn in Hk. apply not_elem_of_cons in Hk as [Hk1 Hk2]. rewrite Hr by done. by apply Hrest.
Qed.
End wiring_laws.

(** C13. With inputs of distinct names, wiring fails exactly when it is not a destroy
    and a required input is unanswered: its module has outputs but not this one,
    or nothing has it and the variable is not set.  Otherwise every input ends
    with what is wired, or what it was, or what is offered, and no other variable
    changes. *)
Theorem wiring_correct {SO : SetOrder Z} modules m operation required optional variables
    (INPUTS : wm_library m ≫= lib_inputs = Some (required, optional))
    (NAMES : NoDup (in_name <$> required ++ optional)) :
  let fails i := i ∈ required /\ unanswered (supply_of modules m i) (variables !! in_name i) = true in
  match apply_dependency_output_wiring modules m operation variables with
  | Ok v => (operation = "destroy" \/ forall i, ~ fails i) /\ answered modules m variables v (required ++ optional)
  | Err _ => operation <> "destroy" /\ exists i, fails i
  end.
Proof.
  cbn zeta. unfold apply_dependency_output_wiring. rewrite INPUTS.
  pose proof (wire_inputs_answered modules m operation (in_name <$> required) _ variables NAMES) as H. cbn zeta in H.
  assert (Hreq : forall i, i ∈ required ++ optional -> in_name i ∈ in_name <$> required -> i ∈ required).
  { intros i Hi Hn. apply list_elem_of_fmap in Hn as (j & E & Hj). apply elem_of_app in Hi as [Hi|Hi]; [done|].
    rewrite fmap_app in NAMES. apply NoDup_app in NAMES as (_ & Hdis & _). exfalso. apply (Hdis (in_name j)).
    - by apply list_elem_of_fmap_2.
    - rewrite <- E. by apply list_elem_of_fmap_2. }
  destruct (existsb _ _) eqn:E.
  - destruct H as [e ->]. apply existsb_exists in E as (i & Hi & E). apply list_elem_of_In in Hi.
    bool_hyps. split; [by apply String.eqb_neq|]. exists i. auto.
  - destruct H as (v & -> & Ha). split; [|done].
    destruct (String.eqb_spec operation "destroy") as [->|Hop]; [by left|right].
    intros i [Hi Hu]. apply not_true_iff_false in E. apply E, existsb_exists. exists i.
    split; [apply list_elem_of_In, elem_of_app; by left|].
    rewrite Hu, bool_decide_eq_true_2 by (by apply list_elem_of_fmap_2). done.
Qed.

(** ** Finding the module *)

Lemma head_spec {A} (l : list A) : match head l with Some x => x ∈ l | None => l = [] end.
Proof. destruct l; [done|]. apply elem_of_cons. by left. Qed.

(** The rows of [modules] that [P] holds of: one of them, or none is there. *)
Definition found (modules : gmap Z wmod) (P : wmod -> bool) (o : option (Z * wmod)) : Prop :=
  match o with
  | Some im => modules !! im.1 = Some im.2 /\ P im.2 = true
  | None => forall j x, modules !! j = Some x -> P x = false
  end.

(** The place of the first class a row is in. *)
Fixpoint class_of (Ps : list (wmod -> bool)) (m : wmod) : option nat :=
  match Ps with
  | [] => None
  | P :: Ps => if P m then Some 0%nat else S <$> class_of Ps m
  end.

Lemma class_best modules Ps os : Forall2 (found modules) Ps os ->
  match foldr or_next None os with
  | Some im => modules !! im.1 = Some im.2 /\ exists r, class_of Ps im.2 = Some r /\
      forall j x r', modules !! j = Some x -> class_of Ps x = Some r' -> (r <= r')%nat
  | None => forall j x, modules !! j = Some x -> class_of Ps x = None
  end.
Proof.
  induction 1 as [|P o Ps os Hf _ IH]; [done|]. cbn. destruct o as [im|]; cbn [or_next].
  { destruct Hf as [Hm ->]. split; [done|]. exists 0%nat. split; [done|lia]. }
  destruct (foldr or_next None os) as [im|].
  - destruct IH as (Hm & r & Hr & Hmin). split; [done|]. rewrite (Hf _ _ Hm), Hr. exists (S r). split; [done|].
    intros j x r' Hj. rewrite (Hf _ _ Hj). destruct (class_of Ps x) as [r''|] eqn:E; [|done]. intros [= <-].
    specialize (Hmin _ _ _ Hj E). lia.
  - intros j x Hj. by rewrite (Hf _ _ Hj), (IH _ _ Hj).
Qed.

Section lookup_laws.
Context {SO : SetOrder Z} (modules : gmap Z wmod).

Lemma found_first P : found modules P (first_module modules P).
Proof.
  unfold first_module, found. pose proof (head_spec (select (fun _ m => P m) modules)) as H.
  destruct (head _) as [[i m]|].
  - by apply elem_of_select in H.
  - intros j x Hj. destruct (P x) eqn:E; [|done]. exfalso.
    assert (Hin : (j, x) ∈ select (fun _ m => P m) modules) by (by apply elem_of_select).
    rewrite H in Hin. by apply elem_of_nil in Hin.
Qed.

Lemma found_ext (P Q : wmod -> bool) o : (forall m, P m = Q m) -> found modules Q o -> found modules P o.
Proof.
  intros E. unfold found. destruct o; [by rewrite E|]. intros H j x Hj. rewrite E. by apply (H j x).
Qed.

Lemma found_among (P Q : wmod -> bool) (l : list (Z * wmod)) :
  (forall j x, (j, x) ∈ l <-> modules !! j = Some x /\ P x = true) ->
  found modules (fun m => P m && Q m) (snd <$> list_find (fun im : Z * wmod => Q im.2 = true) l).
Proof.
  intros Hl. destruct (list_find _ l) as [[n [i m]]|] eqn:E; cbn.
  - apply list_find_Some in E as (E & Hq & _). apply list_elem_of_lookup_2, Hl in E as [Hm Hp]. split; [done|]. by rewrite Hp.
  - apply list_find_None in E. rewrite Forall_forall in E. intros j x Hj. destruct (P x) eqn:Hp; [|done]. cbn.
    by apply not_true_iff_false, (E (j, x)), Hl.
Qed.
End lookup_laws.

(** The classes of modules that answer a path, best first. *)
Definition answers (project : Z) (module_path : string) (stack : option Z) : list (wmod -> bool) :=
  let here m := match stack with Some s => in_stack s m | None => false end in
  let exactly m := in_project project m && String.eqb (path_of m) module_path in
  let alike m := in_project project m && _suffix_or_normalized_match module_path m in
  [fun m => exactly m && here m; exactly; fun m => here m && alike m; alike].

(** The module an input comes from is one of the project that answers the path,
    and none answers it better: the exact path before a suffix or the path
    without infra/, and in each, the module's own stack first. *)
Theorem dependency_lookup_correct {SO : SetOrder Z} modules project module_path stack :
  match find_dependency_by_path modules project module_path stack with
  | Some im => modules !! im.1 = Some im.2 /\ exists r, class_of (answers project module_path stack) im.2 = Some r /\
      forall j x r', modules !! j = Some x -> class_of (answers project module_path stack) x = Some r' -> (r <= r')%nat
  | None => forall j x, modules !! j = Some x -> class_of (answers project module_path stack) x = None
  end.
Proof.
  set (all := select (fun _ m => in_project project m) modules).
  set (exactly m := in_project project m && String.eqb (path_of m) module_path).
  set (matching := fun l : list (Z * wmod) => snd <$> list_find (fun im => _suffix_or_normalized_match module_path im.2 = true) l).
  set (scoped P := s ← stack; P s : option (Z * wmod)).
  assert (Hall : forall j x, (j, x) ∈ all <-> modules !! j = Some x /\ in_project project x = true).
  { intros j x. unfold all. by rewrite elem_of_select. }
  pose (stages := [scoped (fun s => first_module modules (fun m => exactly m && in_stack s m)); first_module modules exactly;
     scoped (fun s => matching (filter (fun im => in_stack s im.2 = true) all)); matching all]).
  replace (find_dependency_by_path _ _ _ _) with (foldr or_next None stages).
  2: { assert (Hnone : forall o : option (Z * wmod), or_next o None = o) by (by intros []).
       cbn. by rewrite Hnone. }
  apply class_best. repeat constructor.
  - destruct stack as [s|]; [apply found_first|]. intros j x _. apply andb_false_r.
  - apply found_first.
  - destruct stack as [s|]; [|done]. eapply found_ext; [|apply (found_among modules (fun m => in_stack s m && in_project project m))].
    + intros m. by rewrite andb_assoc.
    + intros j x. rewrite list_elem_of_filter, Hall, andb_true_iff. naive_solver.
  - by apply found_among.
Qed.

(** ** Wiring by name *)

Section best_laws.
Implicit Types (c x : candidate) (l : list candidate).

Definition comes_before (x c : candidate) : bool := tuple_lt (_candidate_priority x) (_candidate_priority c).

Lemma best_least c l : best c l ∈ c :: l /\ forall x, x ∈ c :: l -> comes_before x (best c l) = false.
Proof.
  unfold comes_before. revert c. induction l as [|y l IH]; intros c; cbn.
  { split; [by apply list_elem_of_singleton|]. intros x ->%list_elem_of_singleton. apply tuple_lt_irrefl. }
  destruct (tuple_lt (_candidate_priority y) (_candidate_priority c)) eqn:E.
  - destruct (IH y) as [Hin Hmin]. split; [by apply elem_of_cons, or_intror|].
    intros x [->|Hx]%elem_of_cons; [|by apply Hmin].
    destruct (tuple_lt (_candidate_priority c) (_candidate_priority (best y l))) eqn:F; [|done].
    rewrite <- (Hmin y) by (apply elem_of_cons; by left). symmetry. by eapply tuple_lt_trans.
  - destruct (IH c) as [Hin Hmin]. split.
    + apply elem_of_cons in Hin as [->|Hin]; [apply elem_of_cons; by left|].
      by apply elem_of_cons, or_intror, elem_of_cons, or_intror.
    + intros x [->|[->|Hx]%elem_of_cons]%elem_of_cons; [apply Hmin, elem_of_cons; by left| |apply Hmin, elem_of_cons; by right].
      destruct (tuple_lt (_candidate_priority y) (_candidate_priority (best c l))) eqn:F; [|done].
      assert (Hc : tuple_lt (_candidate_priority c) (_candidate_priority (best c l)) = false) by (apply Hmin, elem_of_cons; by left).
      destruct (tuple_lt_total (_candidate_priority (best c l)) (_candidate_priority c)) as [Hlt|[Heq|Hlt]]; [|by rewrite Heq in F; rewrite E in F|by rewrite Hc in Hlt].
      by rewrite (tuple_lt_trans _ _ _ F Hlt) in E.
Qed.

Lemma priority_id x y : _candidate_priority x = _candidate_priority y -> cd_id x = cd_id y.
Proof.
  unfold _candidate_priority. destruct (cd_same_stack x), (cd_same_stack y), (cd_dep x), (cd_dep y); intros; by simplify_eq.
Qed.

(** Of candidates with different ids, the one chosen is before all others. *)
Lemma selected_first l c : (forall x y, x ∈ l -> y ∈ l -> cd_id x = cd_id y -> x = y) ->
  selected l = Some c <-> c ∈ l /\ forall x, x ∈ l -> x = c \/ comes_before c x = true.
Proof.
  intros Hinj. destruct l as [|c0 l]; cbn [selected].
  { split; [done|]. intros [H _]. by apply elem_of_nil in H. }
  destruct (best_least c0 l) as [Hin Hmin].
  assert (Hfirst : forall x, x ∈ c0 :: l -> x = best c0 l \/ comes_before (best c0 l) x = true).
  { intros x Hx. unfold comes_before in *. destruct (tuple_lt_total (_candidate_priority x) (_candidate_priority (best c0 l))) as [H|[H|H]].
    - by rewrite Hmin in H.
    - left. by apply Hinj, priority_id.
    - by right. }
  split.
  - by intros [= <-].
  - intros [Hc Hb]. f_equal. destruct (Hfirst c Hc) as [->|H1]; [done|]. destruct (Hb _ Hin) as [->|H2]; [done|].
    unfold comes_before in *. pose proof (tuple_lt_trans _ _ _ H1 H2) as H. by rewrite tuple_lt_irrefl in H.
Qed.
End best_laws.

Lemma elem_of_sources {SO : SetOrder Z} modules mid m i x :
  (i, x) ∈ sources modules mid m <-> modules !! i = Some x /\ wm_project x = wm_project m /\ wm_status x = APPLIED /\ i <> mid /\
    some_dict (wm_outputs x) <> None /\ has_library x = true.
Proof.
  unfold sources. rewrite elem_of_select, !andb_true_iff, Z.eqb_eq, bool_decide_eq_true, negb_true_iff, Z.eqb_neq.
  destruct (some_dict (wm_outputs x)); naive_solver.
Qed.

Section by_name.
Context (modules : gmap Z wmod) (mid : Z) (m : wmod).

(** A module whose outputs may be wired, with [name] among them. *)
Definition offers (name : string) (i : Z) (c : candidate) : Prop :=
  exists x, modules !! i = Some x /\ wm_project x = wm_project m /\ wm_status x = APPLIED /\ i <> mid /\
    some_dict (wm_outputs x) <> None /\ has_library x = true /\ candidate_of m name (i, x) = Some c.

Context {SO : SetOrder Z}.

Lemma elem_of_candidates name c : c ∈ omap (candidate_of m name) (sources modules mid m) <-> offers name (cd_id c) c.
Proof.
  assert (Hid : forall im c, candidate_of m name im = Some c -> cd_id c = im.1).
  { unfold candidate_of. intros im c'. destruct (wm_outputs im.2) as [o|]; cbn; [|done]. destruct (o !! name); cbn; [|done]. by intros [= <-]. }
  rewrite list_elem_of_omap. unfold offers. split.
  - intros ([i x] & Hin & Hc). apply elem_of_sources in Hin. rewrite (Hid _ _ Hc). cbn. naive_solver.
  - intros (x & ? & ? & ? & ? & ? & ? & Hc). exists (cd_id c, x). by rewrite elem_of_sources.
Qed.

Lemma available_first name v :
  available modules mid m name = Some v <->
  exists c, cd_value c = v /\ offers name (cd_id c) c /\ forall i c', offers name i c' -> c' = c \/ comes_before c c' = true.
Proof.
  assert (Hoid : forall i c, offers name i c -> cd_id c = i).
  { unfold offers, candidate_of. intros i c (x & _ & _ & _ & _ & _ & _ & H). cbn in H.
    destruct (wm_outputs x) as [o|]; cbn in H; [|done]. destruct (o !! name); cbn in H; [|done]. by injection H as <-. }
  assert (Hinj : forall x y, x ∈ omap (candidate_of m name) (sources modules mid m) ->
      y ∈ omap (candidate_of m name) (sources modules mid m) -> cd_id x = cd_id y -> x = y).
  { intros x y Hx%elem_of_candidates Hy%elem_of_candidates E. destruct Hx as (a & Ha & Hx), Hy as (b & Hb & Hy).
    rewrite E, Hb in Ha. rewrite E in Hx. naive_solver congruence. }
  assert (H : forall c, selected (omap (candidate_of m name) (sources modules mid m)) = Some c <->
     offers name (cd_id c) c /\ forall i c', offers name i c' -> c' = c \/ comes_before c c' = true).
  { intros c. rewrite selected_first by done. rewrite elem_of_candidates. split; intros [Hc Hb]; (split; [done|]).
    - intros i c' Hc'. apply Hb, elem_of_candidates. by rewrite (Hoid _ _ Hc').
    - intros x Hx%elem_of_candidates. by apply (Hb (cd_id x)). }
  unfold available. split.
  - destruct (selected _) as [c|] eqn:E; [|done]. intros [= <-]. exists c. split; [done|]. by apply H.
  - intros (c & <- & Hc). apply H in Hc. by rewrite Hc.
Qed.

Lemma elem_of_output_names name : name ∈ output_names modules mid m <-> exists v, available modules mid m name = Some v.
Proof.
  unfold output_names, available. rewrite elem_of_elements, elem_of_union_list.
  split.
  - intros (X & HX & Hn). apply list_elem_of_fmap in HX as ([i x] & -> & Hin). cbn in Hn. apply elem_of_dom in Hn as [v Hv].
    assert (exists c, c ∈ omap (candidate_of m name) (sources modules mid m)) as [c Hc].
    { eexists. apply list_elem_of_omap. exists (i, x). split; [done|]. unfold candidate_of. cbn.
      destruct (wm_outputs x) as [o|]; cbn in *; [by rewrite Hv|]. by apply (lookup_empty_Some ) in Hv. }
    destruct (omap _ _) as [|c' l]; [by apply elem_of_nil in Hc|]. by eexists.
  - intros [v Hv]. destruct (selected _) as [c|] eqn:E; [|done].
    assert (Hc : c ∈ omap (candidate_of m name) (sources modules mid m)).
    { destruct (omap _ _) as [|c' l] eqn:El; [done|]. cbn in E. injection E as <-. apply best_least. }
    apply list_elem_of_omap in Hc as ([i x] & Hin & Hc). exists (dom (default ∅ (wm_outputs x))). split.
    + apply list_elem_of_fmap. by exists (i, x).
    + unfold candidate_of in Hc. cbn in Hc. destruct (wm_outputs x) as [o|]; cbn in *; [|done].
      destruct (o !! name) eqn:Eo; [|done]. by eapply elem_of_dom_2.
Qed.

Lemma auto_wire_one_lookup variables name k :
  auto_wire_one modules mid m variables name !! k =
  if bool_decide (k = name) && negb (bool_decide (name ∈ _AUTO_WIRE_SKIP) || is_set variables name)
  then or_next (available modules mid m name) (variables !! k) else variables !! k.
Proof.
  unfold auto_wire_one. destruct (_ || _); [by rewrite andb_false_r|]. rewrite andb_true_r.
  destruct (available _ _ _ _) as [v|]; [|by destruct (bool_decide _)].
  case_bool_decide as E; [subst; apply lookup_insert_eq|by apply lookup_insert_ne].
Qed.

(** What a name not set, and not skipped, ends with. *)
Definition wired_value (variables : vars) (k : string) : option json :=
  if bool_decide (k ∈ _AUTO_WIRE_SKIP) || is_set variables k then variables !! k else or_next (available modules mid m k) (variables !! k).

Lemma auto_wired_lookup l variables k : NoDup l ->
  foldl (auto_wire_one modules mid m) variables l !! k = if bool_decide (k ∈ l) then wired_value variables k else variables !! k.
Proof.
  revert variables. induction l as [|n l IH]; intros variables Hnd; cbn; [done|].
  apply NoDup_cons in Hnd as [Hn Hnd]. rewrite IH by done. destruct (decide (k = n)) as [->|Hk].
  - rewrite (bool_decide_eq_false_2 (n ∈ l)) by done. rewrite bool_decide_eq_true_2 by (apply elem_of_cons; by left).
    rewrite auto_wire_one_lookup, bool_decide_eq_true_2 by done. unfold wired_value. by destruct (_ || _).
  - assert (Hsame : auto_wire_one modules mid m variables n !! k = variables !! k)
      by (rewrite auto_wire_one_lookup; by rewrite bool_decide_eq_false_2).
    unfold wired_value. rewrite Hsame. rewrite (is_set_lookup _ variables) by done.
    replace (bool_decide (k ∈ n :: l)) with (bool_decide (k ∈ l)); [done|].
    apply bool_decide_ext. rewrite elem_of_cons. naive_solver.
Qed.

Lemma auto_wired variables k : foldl (auto_wire_one modules mid m) variables (output_names modules mid m) !! k = wired_value variables k.
Proof.
  rewrite auto_wired_lookup by apply NoDup_elements. case_bool_decide as E; [done|].
  unfold wired_value. destruct (available modules mid m k) eqn:Ev; [|by destruct (_ || _)].
  exfalso. apply E, elem_of_output_names. by eexists.
Qed.
End by_name.

(** Wiring by name does not depend on the order of the database's answers.  It
    keeps every variable that is set; one that is not, and is not skipped, takes
    the first output of its name that an applied module of the project offers:
    of the same stack before others, among these of a dependency before others,
    and the oldest. *)
Theorem auto_wire_correct (SO SO' : SetOrder Z) modules mid m p variables :
  let result := @auto_wire_common_variables SO modules mid m p variables in
  result = @auto_wire_common_variables SO' modules mid m p variables /\
  (forall k, is_set variables k = true -> result !! k = variables !! k) /\
  (forall k c, is_set variables k = false -> k ∉ _AUTO_WIRE_SKIP -> offers modules mid m k (cd_id c) c -> truthy (cd_value c) = true ->
     (forall i c', offers modules mid m k i c' -> c' = c \/ comes_before c c' = true) -> result !! k = Some (cd_value c)).
Proof.
  cbn zeta.
  assert (Hun : forall k v d d', (forall k, d !! k = d' !! k) -> forall k', unless_set k v d !! k' = unless_set k v d' !! k').
  { intros k v d d' E k'. rewrite !lookup_unless_set, E. by rewrite (is_set_lookup d d'). }
  assert (Hkeep : forall k k' v d, is_set d k = true -> unless_set k' v d !! k = d !! k).
  { intros k k' v d H. rewrite lookup_unless_set. case_bool_decide as E; [subst; by rewrite H|done]. }
  assert (Hset : forall k k' v d, is_set d k = true -> is_set (unless_set k' v d) k = true).
  { intros k k' v d H. by rewrite (is_set_lookup _ d) by (by apply Hkeep). }
  set (wired := fun S => foldl (@auto_wire_one S modules mid m) variables (@output_names S modules mid m)).
  assert (Hstays : forall S k, is_set (wired S) k = true ->
      @auto_wire_common_variables S modules mid m p variables !! k = wired S !! k).
  { intros S k H. unfold auto_wire_common_variables. fold (wired S).
    destruct (_ && _); rewrite ?Hkeep; auto 10. }
  split; [|split].
  - apply map_eq. intros k. unfold auto_wire_common_variables. fold (wired SO). fold (wired SO').
    assert (E : forall k, wired SO !! k = wired SO' !! k).
    { intros k'. unfold wired. rewrite !auto_wired. unfold wired_value. destruct (_ || _); [done|]. f_equal.
      apply option_eq. intros v. by rewrite !available_first. }
    destruct (_ && _); repeat apply Hun; intros; apply E.
  - intros k H. assert (E : wired SO !! k = variables !! k) by (unfold wired; rewrite auto_wired; unfold wired_value; by rewrite H, orb_true_r).
    rewrite Hstays; [done|]. by rewrite (is_set_lookup _ variables).
  - intros k c H Hs Ho Ht Hfirst.
    assert (Ha : @available SO modules mid m k = Some (cd_value c)) by (apply available_first; by exists c).
    assert (E : wired SO !! k = Some (cd_value c)).
    { unfold wired. rewrite auto_wired. unfold wired_value. rewrite H, bool_decide_eq_false_2 by done. cbn [orb]. by rewrite Ha. }
    rewrite Hstays; [done|]. unfold is_set. by rewrite E.
Qed.

(** ** Mappings *)

(** The last of the mappings to [k] whose source is set. *)
Definition target_value (raw : list string) (variables : vars) (mappings : list mapping) (k : string) : option json :=
  foldl (fun o mp => if String.eqb (target_variable_name mp) k then or_next (mapped_value raw variables mp) o else o) None mappings.

Lemma map_all_spec raw variables l mapped gone :
  let r := map_all raw variables l mapped gone in
  (forall k, r.1 !! k = foldl (fun o mp => if String.eqb (target_variable_name mp) k
                                          then or_next (mapped_value raw variables mp) o else o) (mapped !! k) l) /\
  (forall k, k ∈ r.2 <-> k ∈ gone \/ exists mp, mp ∈ l /\ source_variable_name mp = k /\ target_variable_name mp <> k /\ is_Some (variables !! k)).
Proof.
  cbn zeta. revert mapped gone. induction l as [|mp l IH]; intros mapped gone; cbn [map_all foldl].
  { split; [done|]. intros k. split; [by left|]. intros [|(mp & H & _)]; [done|by apply elem_of_nil in H]. }
  destruct (mapped_value raw variables mp) as [v|] eqn:E.
  - destruct (IH (<[target_variable_name mp := v]> mapped)
      (if String.eqb (source_variable_name mp) (target_variable_name mp) then gone else source_variable_name mp :: gone)) as [H1 H2].
    assert (Hs : is_Some (variables !! source_variable_name mp)).
    { unfold mapped_value in E. destruct (variables !! _); [by eexists|done]. }
    split.
    + intros k. rewrite H1. destruct (String.eqb_spec (target_variable_name mp) k) as [->|Hk]; cbn [or_next].
      * by rewrite lookup_insert_eq.
      * by rewrite lookup_insert_ne.
    + intros k. rewrite H2. setoid_rewrite elem_of_cons. destruct (String.eqb_spec (source_variable_name mp) (target_variable_name mp)) as [Hst|Hst].
      * split; [naive_solver|]. intros [|(mp' & [->|Hin] & <- & Hne & Hk)]; [by left|by rewrite <- Hst in Hne|right; eauto].
      * rewrite elem_of_cons. naive_solver.
  - destruct (IH mapped gone) as [H1 H2].
    assert (Hs : variables !! source_variable_name mp = None).
    { unfold mapped_value in E. by destruct (variables !! _). }
    split.
    + intros k. rewrite H1. by destruct (String.eqb _ _).
    + intros k. rewrite H2. setoid_rewrite elem_of_cons. split; [naive_solver|].
      intros [|(mp' & [->|Hin] & <- & Hne & Hk)]; [by left|rewrite Hs in Hk; by destruct Hk|right; eauto].
Qed.

Lemma lookup_removed (keep : string -> bool) (l : list string) (variables : vars) k :
  foldr (fun s d => if keep s then d else delete s d) variables l !! k =
  if bool_decide (k ∈ l) && negb (keep k) then None else variables !! k.
Proof.
  induction l as [|s l IH]; cbn; [done|]. destruct (decide (k = s)) as [->|Hk].
  - rewrite bool_decide_eq_true_2 by (apply elem_of_cons; by left). destruct (keep s) eqn:E; cbn [negb andb].
    + rewrite IH. by rewrite andb_false_r.
    + apply lookup_delete_eq.
  - replace (bool_decide (k ∈ s :: l)) with (bool_decide (k ∈ l)) by (apply bool_decide_ext; rewrite elem_of_cons; naive_solver).
    destruct (keep s); [done|]. by rewrite lookup_delete_ne.
Qed.

(** After the mappings a variable is what the last mapping to it with a source
    that is set gives, is gone when it was such a source of another name, and is
    what it was otherwise.  What a mapping gives is the source's value, changed
    as the mapping says unless the input of either name takes its value raw. *)
Theorem mappings_correct m mappings variables k :
  let raw := _get_raw_encoding_vars m in
  let moved := exists mp, mp ∈ mappings /\ source_variable_name mp = k /\ target_variable_name mp <> k in
  let r := apply_variable_mappings m mappings variables !! k in
  match target_value raw variables mappings k with
  | Some v => r = Some v
  | None => (moved -> r = None) /\ (~ moved -> r = variables !! k)
  end /\
  forall mp v, mapped_value raw variables mp = Some v -> exists v0, variables !! source_variable_name mp = Some v0 /\
    v = if bool_decide (target_variable_name mp ∈ raw \/ source_variable_name mp ∈ raw) then v0 else apply_transformation v0 (transform_type mp).
Proof.
  cbn zeta. split.
  - unfold apply_variable_mappings.
    destruct (map_all_spec (_get_raw_encoding_vars m) variables mappings ∅ []) as [H1 H2].
    destruct (map_all _ _ _ _ _) as [mapped gone]. cbn [fst snd] in *.
    rewrite (lookup_removed (fun s => bool_decide (s ∈ dom mapped))), lookup_update.
    unfold target_value. specialize (H1 k). rewrite lookup_empty in H1. rewrite <- H1.
    destruct (mapped !! k) as [v|] eqn:E.
    + by rewrite (bool_decide_eq_true_2 (k ∈ dom mapped)), andb_false_r by (apply elem_of_dom; by eexists).
    + rewrite (bool_decide_eq_false_2 (k ∈ dom mapped)), andb_true_r by (by apply not_elem_of_dom).
      specialize (H2 k). split.
      * intros (mp & Hin & Hs & Ht). destruct (variables !! k) eqn:Ek; [|by destruct (bool_decide _)].
        rewrite bool_decide_eq_true_2; [done|]. apply H2. right. exists mp. by rewrite ?Ek.
      * intros Hno. rewrite bool_decide_eq_false_2; [done|]. intros [Hin|(mp & ? & ? & ? & _)]%H2; [by apply elem_of_nil in Hin|].
        apply Hno. by exists mp.
  - intros mp v H. unfold mapped_value in H. destruct (variables !! _) as [v0|]; [|done]. cbn in H. injection H as <-. exists v0.
    split; [done|]. by rewrite bool_decide_or.
Qed.

(** ** Precedence *)

(** The names that credentials and the cluster may fill in. *)
Definition CREDENTIALS : list string := ["ssh_host"; "ssh_user"; "ssh_private_key_path"; "kubeconfig_content"].

(** [d'] is [d] but for credentials that [d] does not set. *)
Definition filled_in (d d' : vars) : Prop := forall k, k ∉ CREDENTIALS \/ is_set d k = true -> d' !! k = d !! k.

Lemma filled_in_trans d d' d'' : filled_in d d' -> filled_in d' d'' -> filled_in d d''.
Proof.
  intros H1 H2 k Hk. rewrite H2; [by apply H1|]. destruct Hk as [Hk|Hk]; [by left|right].
  by rewrite (is_set_lookup _ d) by (apply H1; by right).
Qed.
Lemma filled_in_unless_set k v d : k ∈ CREDENTIALS -> filled_in d (unless_set k v d).
Proof.
  intros Hk k' Hk'. rewrite lookup_unless_set. case_bool_decide as E; [|done]. subst.
  destruct Hk' as [Hk'|Hk']; [done|]. by rewrite Hk'.
Qed.

Lemma credentials_filled p m d :
  filled_in d (match k8s_clusters p with cl :: _ => _inject_cluster_kubeconfig cl m (_inject_project_ssh_credential_variables p m d)
               | [] => _inject_project_ssh_credential_variables p m d end).
Proof.
  assert (Hin : forall k, bool_decide (k ∈ CREDENTIALS) = true -> k ∈ CREDENTIALS) by (intros k; apply bool_decide_eq_true).
  assert (Href : forall d, filled_in d d) by (by intros d' k _).
  assert (Hw : forall k v d (b : bool), k ∈ CREDENTIALS -> filled_in d (if b then unless_set k v d else d))
    by (intros k v d' [] Hk; [by apply filled_in_unless_set|done]).
  assert (Hs : filled_in d (_inject_project_ssh_credential_variables p m d)).
  { unfold _inject_project_ssh_credential_variables. destruct (p_ssh_credential p) as [cr|], (wm_library m) as [lib|]; try done.
    cbn zeta. destruct (sc_key cr); repeat (eapply filled_in_trans; [|apply Hw, Hin; reflexivity]); done. }
  destruct (k8s_clusters p) as [|cl ?]; [done|]. apply (filled_in_trans _ _ _ Hs).
  unfold _inject_cluster_kubeconfig. destruct (wm_library m) as [lib|]; [|done].
  destruct (bool_decide _); cbn [andb]; [|done].
  destruct (is_set _ "kubeconfig_content") eqn:E; cbn [negb]; [done|]. destruct (cl_kubeconfig cl) as [kc|]; [|done].
  intros k [Hk|Hk].
  - apply lookup_insert_ne. intros <-. by apply Hk, Hin.
  - apply lookup_insert_ne. intros <-. by rewrite E in Hk.
Qed.

Section precedence.
Context {SO : SetOrder Z} (db_id : json -> option Z) (modules : gmap Z wmod) (d : cdb) (default_region : json).
Context (mid : Z) (m : wmod) (p : wproject) (secrets : vars) (operation : string).

(** C12. The layers of a run before its mappings, from the highest. *)
Theorem precedence_correct r
    (BUILT : build_variables db_id modules d default_region mid m p [] secrets operation = Ok r) :
  exists system c early wired,
    let path := module_path m in
    let auto := auto_wire_common_variables modules mid m p wired in
    let user := _resolve_inherit_sentinels p (user_variables m) in
    let first (ds : list vars) k := foldr (fun d o => or_next (d !! k) o) None ds in
    system_layers p default_region = Ok system /\ context_of db_id d m = Ok c /\
    (let known := [system; as_low_precedence_vars c; user_variables m] in
     exists base, (forall k, base !! k = first known k) /\ forall k, early !! k = first (known ++ [transform_for_module path base c]) k) /\
    apply_dependency_output_wiring modules m operation early = Ok wired /\
    forall k, (k ∈ dom secrets -> r !! k = secrets !! k) /\
      (k ∉ CREDENTIALS -> r !! k = first [secrets; user; transform_for_module path auto c; auto] k) /\
      (k ∉ dom secrets -> is_set user k = true -> r !! k = user !! k).
Proof.
  unfold build_variables in BUILT.
  apply bind_Ok in BUILT as (system & Hsys & BUILT). apply bind_Ok in BUILT as (c & Hc & BUILT).
  apply bind_Ok in BUILT as (tr & Htr & [= <-]). unfold module_layers in Htr. cbn zeta in Htr.
  apply bind_Ok in Htr as (wired & Hwired & [= <-]).
  eexists system, c, _, wired. cbn zeta. split; [done|]. split; [done|]. split; [|split; [exact Hwired|]].
  - exists (fill (user_variables m) (fill (as_low_precedence_vars c) system)).
    split; intros k; rewrite !lookup_fill; cbn [foldr app];
      destruct (system !! k), (as_low_precedence_vars c !! k), (user_variables m !! k); cbn [or_next]; try done.
    by destruct (transform_for_module _ _ _ !! k).
  - intros k.
    assert (Hmap : forall v, apply_variable_mappings m [] v = v) by (intros v; apply (left_id_L ∅ union)).
    rewrite Hmap. unfold user_layers. rewrite lookup_update.
    set (auto := auto_wire_common_variables _ _ _ _ _).
    set (user := _resolve_inherit_sentinels p (user_variables m)).
    set (below := update user _).
    pose proof (credentials_filled p m below) as Hf.
    split; [|split].
    + intros [v Hv]%elem_of_dom. by rewrite Hv.
    + intros Hk. rewrite (Hf k) by (by left). unfold below. rewrite !lookup_update. cbn [foldr].
      destruct (secrets !! k), (user !! k), (transform_for_module _ _ _ !! k), (auto !! k); done.
    + intros Hns Hu. apply not_elem_of_dom in Hns. rewrite Hns.
      assert (Hb : below !! k = user !! k).
      { unfold below. rewrite lookup_update. unfold is_set in Hu. by destruct (user !! k). }
      rewrite (Hf k); [done|]. right. by rewrite (is_set_lookup _ user).
Qed.

(** A default that the template of a module gives beats the namespace that the
    DPU of the project forces: the transform's value is overridden again. *)
Theorem template_beats_dpu c v r
    (BUILT : build_variables db_id modules d default_region mid m p [] secrets operation = Ok r)
    (MODULE : module_path m = "bnk/bnk-vlans")
    (DPU : context_of db_id d m = Ok c /\ is_dpu_enabled c = true)
    (DEFAULT : user_variables m !! "namespace" = Some v /\ v <> JStr INHERIT_FROM_TEMPLATE_SENTINEL)
    (SECRETS : secrets !! "namespace" = None) :
  (forall vs, transform_for_module (module_path m) vs c !! "namespace" = Some (JStr "f5-bnk")) /\ r !! "namespace" = Some v.
Proof.
  destruct DPU as [Hctx Hdpu], DEFAULT as [Hd Hv]. split.
  { intros vs. rewrite MODULE. unfold transform_for_module. cbn [dget MODULE_TRANSFORMS String.eqb Ascii.eqb Bool.eqb].
    change (_transform_bnk_vlans vs c !! "namespace" = Some (JStr "f5-bnk")).
    unfold _transform_bnk_vlans, force. rewrite Hdpu. apply lookup_insert_eq. }
  unfold build_variables in BUILT.
  apply bind_Ok in BUILT as (system & Hsys & BUILT). apply bind_Ok in BUILT as (c' & Hc & BUILT).
  apply bind_Ok in BUILT as (tr & Htr & [= <-]).
  assert (Hmap : forall v, apply_variable_mappings m [] v = v) by (intros v'; apply (left_id_L ∅ union)).
  rewrite Hmap. unfold user_layers. rewrite lookup_update, SECRETS.
  rewrite (credentials_filled p m _ "namespace") by (left; apply (bool_decide_eq_false_1 _); reflexivity). rewrite lookup_update.
  assert (E : _resolve_inherit_sentinels p (user_variables m) !! "namespace" = Some v); [|by rewrite E].
  unfold _resolve_inherit_sentinels. destruct (credential_template p) as [t|]; [|done].
  destruct (String.eqb _ _); [|done]. rewrite map_lookup_imap, Hd. cbn.
  destruct v as [| | |s| |]; try done. destruct (String.eqb_spec s INHERIT_FROM_TEMPLATE_SENTINEL) as [->|]; done.
Qed.
End precedence.

(** ** An example *)

Module Example.
#[local] Instance some_order : SetOrder Z := elements_order.

Definition id_of (v : json) : option Z := match v with JInt n => Some n | JStr s => py_int s | _ => None end.
Definition dict (l : list (string * json)) : vars := list_to_map l.

Definition named (path : string) (inputs : list input * list input) (schema : list string) : library :=
  {| lib_path := path; lib_inputs := Some inputs; lib_schema := schema |}.
Definition from (name module output : string) : input :=
  {| in_name := name; in_source := Some "module"; in_from_module := Some module; in_from_output := Some output;
     in_default := JNull; in_encoding := None |}.
Definition applied_module (path : string) (stack : option Z) (outs : list (string * json)) : wmod :=
  {| wm_project := 1; wm_stack := stack; wm_status := APPLIED; wm_outputs := Some (dict outs); wm_dependencies := [];
     wm_library := Some (named path ([], []) []); variable_overrides := None; own_variables := None |}.

Definition vlans : wmod :=
  {| wm_project := 1; wm_stack := Some 9; wm_status := NOT_INITIALIZED; wm_outputs := None; wm_dependencies := [1];
     wm_library := Some (named "bnk/bnk-vlans" ([from "cluster_id" "k8s/cluster" "id"], [from "zone" "infra/dns" "zone"]) ["kubeconfig_content"]);
     variable_overrides := Some (dict [("namespace", JStr "default"); ("external_selfip", JStr "10.0.10.9/24")]); own_variables := None |}.
Definition table : gmap Z wmod :=
  {[1 := applied_module "k8s/cluster" (Some 9) [("id", JStr "c-1"); ("gateway", JStr "10.0.0.1")];
    2 := applied_module "k8s/cluster" None [("id", JStr "c-2"); ("gateway", JStr "10.0.0.2"); ("site", JStr "lab")];
    3 := vlans]}.
Definition project : wproject :=
  {| p_name := "Lab One"; p_environment := None; cloud_provider := None; p_region := None; credential_template := None;
     k8s_clusters := [{| cl_name := Some "blue"; cl_kubeconfig := Some "apiVersion: v1"; vlan_items := None |}];
     project_variables := Some (dict [("site", JStr "")]); p_ssh_credential := None |}.
Definition rows : cdb :=
  {| settings_rows := {[1 := {| ds_project := 1; ds_external_vlan_id := Some 100; ds_external_subnet := Some "10.0.10.0/24";
                                ds_external_start := Some 5; ds_internal_vlan_id := None; ds_internal_subnet := None;
                                ds_internal_start := None; ds_mtu := None |}]};
     host_rows := ∅; dpu_rows := ∅ |}.
Definition secrets : vars := dict [("far_token", JStr "s3cret")].

Definition run : result vexc vars := build_variables id_of table rows JNull 3 vlans project [] secrets "apply".
Definition built : vars := match run with Ok v => v | Err _ => ∅ end.

Lemma run_built : run = Ok built.
Proof. assert (H : is_Ok run = true) by (vm_compute; reflexivity). unfold built. by destruct run. Qed.

Lemma precedence_correct_witness : run = Ok built /\ built !! "far_token" = Some (JStr "s3cret") /\
  built !! "external_self_ips" = Some (JList [JStr "10.0.10.9"]).
Proof.
  split; [exact run_built|].
  destruct (precedence_correct id_of table rows JNull 3 vlans project secrets "apply" built run_built)
    as (system & c & early & wired & _ & _ & _ & _ & H).
  split; [|vm_compute; reflexivity].
  destruct (H "far_token") as (H1 & _ & _). rewrite H1; [reflexivity|]. apply elem_of_dom. by eexists.
Defined.

Lemma template_beats_dpu_witness : built !! "namespace" = Some (JStr "default").
Proof.
  refine (proj2 (template_beats_dpu id_of table rows JNull 3 vlans project secrets "apply"
    (resolve_project_context rows 1 None) (JStr "default") built run_built _ _ _ _)).
  - reflexivity.
  - split; vm_compute; reflexivity.
  - split; [vm_compute; reflexivity|done].
  - reflexivity.
Defined.

Definition inputs_of (m : wmod) : list input * list input := match wm_library m ≫= lib_inputs with Some io => io | None => ([], []) end.

Lemma wiring_correct_witness :
  match apply_dependency_output_wiring table vlans "apply" ∅ with
  | Ok v => v !! "cluster_id" = Some (JStr "c-1") /\ v !! "zone" = None
  | Err _ => False
  end.
Proof.
  assert (Hn : NoDup (in_name <$> (inputs_of vlans).1 ++ (inputs_of vlans).2)) by (by apply (bool_decide_eq_true_1 _)).
  pose proof (wiring_correct table vlans "apply" (inputs_of vlans).1 (inputs_of vlans).2 ∅ eq_refl Hn) as H. cbn zeta in H.
  destruct (apply_dependency_output_wiring table vlans "apply" ∅) as [v|e].
  - destruct H as (_ & Ha & _). split.
    + refine (eq_trans (Ha (from "cluster_id" "k8s/cluster" "id") _) _); [apply elem_of_cons; by left|vm_compute; reflexivity].
    + refine (eq_trans (Ha (from "zone" "infra/dns" "zone") _) _); [apply elem_of_cons; right; apply elem_of_cons; by left|vm_compute; reflexivity].
  - destruct H as (_ & i & Hi & Hu). apply list_elem_of_singleton in Hi as ->. vm_compute in Hu. discriminate.
Defined.
End Example.

Example substituted : substitute (Example.dict [("host", JStr "10.0.0.9"); ("port", JInt 443)]) 0 "{{host}}:{{ port }} {{none}} {x}" =
  "10.0.0.9:443 {{none}} {x}".
Proof. vm_compute. reflexivity. Qed.
