(* ===== verification/BfConf.v ===== *)
(** * The bf.conf of a DPU (services/bf_conf_renderer.py, and the rendering of
      services/dpu_flash_service.py)

    The name and the tmfifo address a DPU gets, the context its template is
    rendered with, and the lint of what was rendered, on ASCII texts.  Jinja,
    crypt, the derivation of public keys, YAML and [bash -n] are parameters; the
    streaming of the image is left out. *)

From Stdlib Require Import Ascii.
From S2P Require Import Prelude Texts PyText TmfifoIpam Naming ProjectContext.

#[local] Open Scope string_scope.
#[local] Open Scope list_scope.
#[local] Open Scope Z_scope.
#[local] Set Default Proof Using "Type".

(** ** Rows *)

(** A VLAN of the project and a DPU's addresses on one; extras have names. *)
Record vlan_def := { vd_id : option Z; vd_uplink : option string }.
Record vlan_ips := { vi_ipv4 : option string; vi_ipv6 : option string }.
(** [k_private]: [None] without a key, [Some None] when it does not decrypt. *)
Record ssh_key := { k_name : string; k_private : option (option string) }.
Record bf_settings := {
  bs_project : Z;
  bf_template : option Z;
  bs_mtu : option Z;
  dns_servers : list string;
  ntp_servers : list string;
  external_def : vlan_def;
  internal_def : vlan_def;
  extra_defs : list (string * vlan_def);
  oob_username : option string;
  oob_password : option (option string);
  os_password : option (option string);
  os_ssh_credential : option ssh_key
}.
Record bf_dpu := {
  bd_id : Z;
  bd_project : Z;
  in_band : bool;
  bd_host_ip : option string;
  host_hostname : option string;
  pci_address : option string;
  rshim_device : option string;
  serial_number : option string;
  external_ips : vlan_ips;
  internal_ips : vlan_ips;
  extra_ips : list (string * vlan_ips);
  dpu_tmfifo_ip : option string;
  bd_cluster : option Z
}.

(** ** Addresses and names *)

(** [s[len(p):] if s.startswith(p) else s] *)
Definition without_prefix (p s : string) : string := default s (after_prefix p s).

Definition _rshim_index (rshim_device : option string) : Z :=
  let name := strip (if truthy_str rshim_device then default "" rshim_device else "rshim0") in
  match py_int (without_prefix "rshim" name) with
  | Some idx => if (idx <? 0) || (100 <? idx) then 0 else idx
  | None => 0
  end.

Definition is_member (dpu : bf_dpu) : bool := match bd_cluster dpu with Some _ => true | None => false end.
Definition derive_tmfifo_dpu_host (rshim : option string) (dpu : option bf_dpu) : string :=
  let formula := "192.168." +:+ pretty (100 + _rshim_index rshim) +:+ ".2" in
  match dpu with
  | Some d => if truthy_str (dpu_tmfifo_ip d) && is_member d then default "" (dpu_tmfifo_ip d) else formula
  | None => formula
  end.
Definition derive_tmfifo_dpu_ip (rshim : option string) (dpu : option bf_dpu) : string :=
  let formula := "192.168." +:+ pretty (100 + _rshim_index rshim) +:+ ".2/30" in
  match dpu with
  | Some d => if truthy_str (dpu_tmfifo_ip d) && is_member d then default "" (dpu_tmfifo_ip d) +:+ "/30" else formula
  | None => formula
  end.

Definition letter_or_digit (c : ascii) : bool := is_lower c || is_upper c || is_number c.
Definition isdigit (s : string) : bool := negb (String.eqb s "") && all_chars is_number s.

(** The number of [rshimN]. *)
Definition rshim_number (dpu : bf_dpu) : option Z :=
  rshim ← rshim_device dpu; idx ← after_prefix "rshim" rshim; if isdigit idx then py_int idx else None.
Definition _multi_dpu_hostname_suffix (dpu : bf_dpu) : string :=
  match rshim_number dpu with
  | Some n => pretty (n + 1)
  | None =>
      let cleaned := lower (strip_chars is_hyphen (sub_runs (fun c => negb (letter_or_digit c)) false (default "" (pci_address dpu)))) in
      if truthy_str (pci_address dpu) && negb (String.eqb cleaned "") then "-" +:+ cleaned else pretty (bd_id dpu)
  end.

(** The first label of a host's name, as a name for hosts. *)
Definition host_label (hostname : option string) : string :=
  let host := strip (default "" hostname) in
  let label := match partition "." host with Some (a, _) => a | None => host end in
  lower (strip_chars is_hyphen (sub_runs (fun c => negb (letter_or_digit c || is_hyphen c)) false label)).

Definition _derive_bfb_hostname (dpu : bf_dpu) (peer_count : Z) : string :=
  if truthy_str (serial_number dpu) then default "" (serial_number dpu)
  else
    let host := host_label (host_hostname dpu) in
    if in_band dpu && negb (String.eqb host "") then
      if peer_count <=? 1 then host +:+ "-dpu" else host +:+ "-dpu" +:+ _multi_dpu_hostname_suffix dpu
    else "dpu-" +:+ pretty (bd_id dpu).

(** ** The context *)

Record VlanContext := { v_name : string; v_tag : Z; v_ip : string; v_uplink : string; v_gateway : option string }.
Record RenderContext := {
  bfb_hostname : string;
  dpu_mtu : Z;
  ubuntu_password_hash : string;
  dns_ip : string;
  dns_domains : string;
  ntp : string;
  authorized_keys : string;
  vlans : list VlanContext;
  tmfifo_dpu_ip : string
}.

Definition vlan_json (v : VlanContext) : json :=
  JObj ([("name", JStr (v_name v)); ("tag", JInt (v_tag v)); ("ip", JStr (v_ip v)); ("uplink", JStr (v_uplink v))]
        ++ if truthy_str (v_gateway v) then [("default_gateway", JStr (default "" (v_gateway v)))] else []).

Definition to_jinja (c : RenderContext) : json :=
  let host := JObj [("oob_net0_ip", JNull); ("default_gateway", JNull); ("dns_ip", JStr (dns_ip c)); ("dns_domains", JStr (dns_domains c));
                    ("ntp_servers", JStr (ntp c)); ("authorized_keys", JStr (authorized_keys c));
                    ("tmfifo_dpu_ip", JStr (tmfifo_dpu_ip c)); ("vlans", JList (map vlan_json (vlans c)))] in
  JObj [("bfb_hostname", JStr (bfb_hostname c)); ("dpu_mtu", JInt (dpu_mtu c));
        ("DPU_UBUNTU_PASSWORD_HASH", JStr (ubuntu_password_hash c)); ("hostvars", JObj [(bfb_hostname c, host)])].

(** A VLAN that has an id, an uplink and an address. *)
Definition vlan_context (name : string) (d : vlan_def) (ips : vlan_ips) : option VlanContext :=
  let ip := if truthy_str (vi_ipv4 ips) then vi_ipv4 ips else vi_ipv6 ips in
  vid ← vd_id d;
  if truthy_str (vd_uplink d) && truthy_str ip then
    Some {| v_name := name +:+ pretty vid; v_tag := vid; v_ip := default "" ip; v_uplink := default "" (vd_uplink d); v_gateway := None |}
  else None.
Definition no_ips : vlan_ips := {| vi_ipv4 := None; vi_ipv6 := None |}.

Definition vlan_contexts (settings : bf_settings) (dpu : bf_dpu) : list VlanContext :=
  omap id [vlan_context "external" (external_def settings) (external_ips dpu);
           vlan_context "internal" (internal_def settings) (internal_ips dpu)]
  ++ omap (fun nd : string * vlan_def =>
       if String.eqb nd.1 "" then None
       else vlan_context nd.1 nd.2 (default no_ips (dget nd.1 (rev (extra_ips dpu))))) (extra_defs settings).

Section render.
(** [render_bf_conf]'s Jinja: the text, or [None] for a [TemplateError];
    [public_key]: [None] when the key is not one. *)
Context (jinja : Z -> json -> option string) (sha512_crypt : string -> string) (public_key : string -> option string).

Definition authorized (cred : option ssh_key) : string :=
  match cred with
  | Some k =>
      match k_private k with
      | Some (Some pem) =>
          match public_key pem with Some pub => pub +:+ " bnk-forge:" +:+ k_name k | None => "" end
      | _ => ""
      end
  | None => ""
  end.

Definition build_render_context (dpu : bf_dpu) (settings : bf_settings) (cred : option ssh_key) (password : string) (peer_dpu_count : Z) : RenderContext :=
  {| bfb_hostname := _derive_bfb_hostname dpu peer_dpu_count;
     dpu_mtu := or_number (bs_mtu settings) 9000;
     ubuntu_password_hash := sha512_crypt password;
     dns_ip := join "," (dns_servers settings);
     dns_domains := "";
     ntp := join " " (ntp_servers settings);
     authorized_keys := authorized cred;
     vlans := vlan_contexts settings dpu;
     tmfifo_dpu_ip := derive_tmfifo_dpu_ip (rshim_device dpu) (Some dpu) |}.

Definition render_bf_conf (template : Z) (c : RenderContext) : option string := jinja template (to_jinja c).
End render.

(** ** Lint *)

Definition line_break (c : ascii) : bool :=
  let n := code c in (n =? 10) || (n =? 11) || (n =? 12) || (n =? 13) || ((28 <=? n) && (n <=? 30)).
Fixpoint splitlines (s cur : string) : list string :=
  match s with
  | EmptyString => if String.eqb cur "" then [] else [cur]
  | String c s' =>
      if line_break c then
        cur :: match s' with
               | String c' s'' => if Ascii.eqb c "013" && Ascii.eqb c' "010" then splitlines s'' "" else splitlines s' ""
               | EmptyString => []
               end
      else splitlines s' (cur +:+ String c "")
  end.

Definition word (c : ascii) : bool := letter_or_digit c || Ascii.eqb c "_".

(** [\s*(\S+)\s*$] *)
Definition only_token (s : string) : option string :=
  let t := strip s in if String.eqb t "" || negb (all_chars (fun c => negb (is_space c)) t) then None else Some t.

(** [_HEREDOC_RE]: the delimiter and the path. *)
Definition heredoc (line : string) : option (string * string) :=
  s ← after_prefix "cat" (lstrip line);
  s ← after_prefix "<<" (lstrip s);
  let s := lstrip (without_prefix "-" s) in
  let '(q, s) := match s with
                 | String c s' => if Ascii.eqb c quote1 || Ascii.eqb c quote2 then (String c "", s') else ("", s)
                 | EmptyString => ("", s)
                 end in
  let '(delim, s) := span word s in
  if String.eqb delim "" then None
  else
    s ← after_prefix q s;
    s ← after_prefix ">" (lstrip s);
    match after_prefix ">" s ≫= only_token, only_token s with
    | Some path, _ => Some (delim, path)
    | None, Some path => Some (delim, path)
    | None, None => None
    end.

Inductive lint_issue :=
| UnresolvedToken (line : Z) (text : string)
| BashTimedOut
| BashError (text : string)
| NeverClosed (line : Z) (delim path : string)
| YamlFailed (line : Z) (path why : string).

Inductive bash_run := BashMissing | BashTimeout | BashExit (code : Z) (errors : string).

Section lint.
(** [yaml_error]: the first line of what [yaml.safe_load] raises.  [bash_n]: the
    run of [bash -n], the path of the file in its errors replaced. *)
Context (yaml_error : string -> option string) (bash_n : string -> bash_run).

Fixpoint _lint_unresolved_jinja (n : Z) (lines : list string) : list lint_issue :=
  match lines with
  | [] => []
  | l :: lines =>
      (if contains "{{" l || contains "{%" l then [UnresolvedToken n (strip l)] else []) ++ _lint_unresolved_jinja (n + 1) lines
  end.

Definition _lint_bash_syntax (rendered : string) : list lint_issue :=
  match bash_n rendered with
  | BashMissing => []
  | BashTimeout => [BashTimedOut]
  | BashExit rc errors =>
      if rc =? 0 then []
      else omap (fun l => if String.eqb (strip l) "" then None else Some (BashError (strip l))) (splitlines (strip errors) "")
  end.

Definition is_yaml (path : string) : bool := ends_with ".yaml" path || ends_with ".yml" path.
Definition yaml_issue (start : Z) (path : string) (body : list string) : list lint_issue :=
  if is_yaml path then match yaml_error (join (String "010" "") body) with Some why => [YamlFailed start path why] | None => [] end
  else [].

(** [inside]: the heredoc that is open, with its first line and its body. *)
Fixpoint _lint_yaml_heredocs (n : Z) (inside : option (Z * string * string * list string)) (lines : list string) : list lint_issue :=
  match lines with
  | [] => match inside with Some (start, delim, path, _) => [NeverClosed start delim path] | None => [] end
  | l :: lines =>
      match inside with
      | None =>
          _lint_yaml_heredocs (n + 1) ((fun dp : string * string => (n, dp.1, dp.2, [])) <$> heredoc l) lines
      | Some (start, delim, path, body) =>
          if String.eqb (strip l) delim then yaml_issue start path body ++ _lint_yaml_heredocs (n + 1) None lines
          else _lint_yaml_heredocs (n + 1) (Some (start, delim, path, body ++ [l])) lines
      end
  end.

Definition lint_bf_conf (rendered : string) : list lint_issue :=
  let lines := splitlines rendered "" in
  _lint_unresolved_jinja 1 lines ++ _lint_bash_syntax rendered ++ _lint_yaml_heredocs 1 None lines.
End lint.

(** ** Rendering for a flash *)

Section flash.
Context (jinja : Z -> json -> option string) (sha512_crypt : string -> string) (public_key : string -> option string).
Context (yaml_error : string -> option string) (bash_n : string -> bash_run).

(** The in-band DPUs of the host of [dpu] in the table. *)
Definition _count_inband_peers {SO : SetOrder Z} (dpus : gmap Z bf_dpu) (dpu : bf_dpu) : Z :=
  if negb (in_band dpu) || negb (truthy_str (bd_host_ip dpu)) then 1
  else Z.of_nat (length (select (fun _ d => (bd_project d =? bd_project dpu) && in_band d && bool_decide (bd_host_ip d = bd_host_ip dpu)) dpus)).

Inductive flash_error := RenderFailed | LintFailed (count : Z) (first : lint_issue).

(** The text kept as the last rendered one, and what the flash goes on with. *)
Definition _render_and_lint {SO : SetOrder Z} (dpus : gmap Z bf_dpu) (dpu : bf_dpu) (settings : bf_settings) (template : Z)
    (password : string) : option string * result flash_error string :=
  let ctx := build_render_context sha512_crypt public_key dpu settings (os_ssh_credential settings) password (_count_inband_peers dpus dpu) in
  match render_bf_conf jinja template ctx with
  | None => (None, Err RenderFailed)
  | Some rendered =>
      match lint_bf_conf yaml_error bash_n rendered with
      | [] => (Some rendered, Ok rendered)
      | i :: issues => (Some rendered, Err (LintFailed (Z.of_nat (length (i :: issues))) i))
      end
  end.
End flash.

(** ** What they promise *)


(** 192.168.100.2, and the blocks of the pool after it. *)
Definition first_local : Z := 3232261122.

Lemma local_table :
  forallb (fun i => String.eqb ("192.168." +:+ pretty (100 + i) +:+ ".2") (Ip.show_ip (first_local + 256 * i))) (seqZ 0 101) = true.
Proof. vm_compute. reflexivity. Qed.

Lemma rshim_index_range r : 0 <= _rshim_index r <= 100.
Proof.
  unfold _rshim_index. cbn zeta. destruct (py_int _) as [i|]; [|lia].
  destruct (_ || _) eqn:E; [lia|]. apply orb_false_iff in E as [E1 E2]. lia.
Qed.

Lemma tmfifo_cidr rshim dpu : derive_tmfifo_dpu_ip rshim dpu = derive_tmfifo_dpu_host rshim dpu +:+ "/30".
Proof.
  unfold derive_tmfifo_dpu_ip, derive_tmfifo_dpu_host. destruct dpu; [destruct (_ && _); [done|]|]; by rewrite !append_assoc.
Qed.

(** The address baked into a DPU is the one it is reached at, as a /30: what the
    IPAM of its cluster gave while it is a member, and otherwise an address of
    its own for every index of an rshim device. *)
Theorem tmfifo_address_correct (dpu : bf_dpu) :
  let host := derive_tmfifo_dpu_host (rshim_device dpu) (Some dpu) in
  derive_tmfifo_dpu_ip (rshim_device dpu) (Some dpu) = host +:+ "/30" /\
  (forall a, is_member dpu = true -> dpu_tmfifo_ip dpu = Some a -> a <> "" -> host = a) /\
  (is_member dpu = false -> Ip.parse_ip host = Some (first_local + 256 * _rshim_index (rshim_device dpu))).
Proof.
  cbn zeta. split; [apply tmfifo_cidr|]. unfold derive_tmfifo_dpu_host. split.
  - intros a -> -> Ha. cbn. by destruct (String.eqb_spec a "").
  - intros ->. rewrite andb_false_r. pose proof (rshim_index_range (rshim_device dpu)) as Hr.
    pose proof local_table as T. rewrite forallb_forall in T.
    assert (Hin : In (_rshim_index (rshim_device dpu)) (seqZ 0 101)) by (apply list_elem_of_In, elem_of_seqZ; lia).
    apply T, String.eqb_eq in Hin. rewrite Hin. apply Ip.parse_show_ip. unfold first_local. lia.
Qed.

Section names.
Context (a b : bf_dpu) (peers : Z).
Hypothesis KINDS : in_band a = true /\ in_band b = true.
Hypothesis SERIALS : truthy_str (serial_number a) = false /\ truthy_str (serial_number b) = false.
Hypothesis HOST : host_hostname a = host_hostname b /\ host_label (host_hostname a) <> "".

(** Two DPUs of a host without serials, found at rshim devices, get the same
    name exactly when they are taken for single DPUs or at the same device. *)
Theorem hostnames_distinct i j (NUMBERS : rshim_number a = Some i /\ rshim_number b = Some j) :
  _derive_bfb_hostname a peers = _derive_bfb_hostname b peers <-> peers <= 1 \/ i = j.
Proof using KINDS SERIALS HOST.
  destruct KINDS as [Ka Kb], SERIALS as [Sa Sb], HOST as [Hh Hl], NUMBERS as [Na Nb].
  unfold _derive_bfb_hostname, _multi_dpu_hostname_suffix. rewrite Ka, Kb, Sa, Sb, Na, Nb, <- Hh.
  destruct (String.eqb_spec (host_label (host_hostname a)) "") as [|_]; [done|]. cbn [andb negb].
  destruct (Z.leb_spec peers 1) as [Hp|Hp]; [split; [by left|done]|]. split.
  - intros E. right. apply (inj (String.app _)) in E. apply (inj (String.app "-dpu")) in E.
    apply (inj pretty) in E. lia.
  - intros [| ->]; [lia|done].
Qed.
End names.

(** A text whose heredocs are closed, with YAML where the path says so. *)
Inductive tidy (yaml_error : string -> option string) : list string -> Prop :=
| tidy_nil : tidy yaml_error []
| tidy_line l lines : heredoc l = None -> tidy yaml_error lines -> tidy yaml_error (l :: lines)
| tidy_block l delim path body close lines : heredoc l = Some (delim, path) -> Forall (fun b => strip b <> delim) body ->
    strip close = delim -> (is_yaml path = true -> yaml_error (join (String "010" "") body) = None) ->
    tidy yaml_error lines -> tidy yaml_error (l :: body ++ close :: lines).

Section lint_laws.
Context (yaml_error : string -> option string).

Lemma yaml_issue_nil start path body :
  yaml_issue yaml_error start path body = [] <-> (is_yaml path = true -> yaml_error (join (String "010" "") body) = None).
Proof.
  unfold yaml_issue. destruct (is_yaml path); [|split; [intros _; done|done]].
  destruct (yaml_error _); split; intros; try done. by specialize (H eq_refl).
Qed.

Lemma yaml_issue_line start start' path body : yaml_issue yaml_error start path body = [] -> yaml_issue yaml_error start' path body = [].
Proof. by rewrite !yaml_issue_nil. Qed.

(** That there is no issue does not depend on the numbers of the lines. *)
Lemma renumber lines : forall n m,
  (_lint_yaml_heredocs yaml_error n None lines = [] -> _lint_yaml_heredocs yaml_error m None lines = []) /\
  (forall start start' delim path acc, _lint_yaml_heredocs yaml_error n (Some (start, delim, path, acc)) lines = [] ->
     _lint_yaml_heredocs yaml_error m (Some (start', delim, path, acc)) lines = []).
Proof.
  induction lines as [|l lines IH]; intros n m; cbn [_lint_yaml_heredocs]; [done|]. split.
  - destruct (heredoc l) as [[delim path]|]; cbn [fmap option_fmap option_map fst snd]; apply IH.
  - intros start start' delim path acc. destruct (String.eqb _ _); [|apply IH].
    intros [Hy Hr]%app_eq_nil. rewrite (yaml_issue_line _ start' _ _ Hy). cbn. revert Hr. apply IH.
Qed.

(** An open heredoc is left when its end is found. *)
Lemma open_heredoc n start delim path acc lines :
  _lint_yaml_heredocs yaml_error n (Some (start, delim, path, acc)) lines = [] <->
  exists body close rest m, lines = body ++ close :: rest /\ Forall (fun b => strip b <> delim) body /\ strip close = delim /\
    yaml_issue yaml_error start path (acc ++ body) = [] /\ _lint_yaml_heredocs yaml_error m None rest = [].
Proof.
  revert n acc. induction lines as [|l lines IH]; intros n acc; cbn [_lint_yaml_heredocs].
  { split; [done|]. intros (body & close & rest & m & E & _). by destruct body. }
  destruct (String.eqb_spec (strip l) delim) as [E|E].
  - split.
    + intros [Hy Hr]%app_eq_nil. exists [], l, lines, (n + 1). rewrite app_nil_r. by repeat split.
    + intros (body & close & rest & m & El & Hb & Hc & Hy & Hr). destruct body as [|b body].
      * injection El as -> ->. rewrite app_nil_r in Hy. rewrite Hy. cbn. revert Hr. apply renumber.
      * injection El as -> ->. by apply Forall_cons in Hb as [Hb _].
  - rewrite IH. split.
    + intros (body & close & rest & m & -> & Hb & Hc & Hy & Hr). exists (l :: body), close, rest, m.
      rewrite <- (assoc_L (++)) in Hy. repeat split; try done. by constructor.
    + intros (body & close & rest & m & El & Hb & Hc & Hy & Hr). destruct body as [|b body].
      * by injection El as -> ->.
      * injection El as -> ->. exists body, close, rest, m. rewrite <- (assoc_L (++)). apply Forall_cons in Hb as [_ Hb]. by repeat split.
Qed.
Lemma lint_tidy lines n : _lint_yaml_heredocs yaml_error n None lines = [] <-> tidy yaml_error lines.
Proof.
  split.
  - remember (length lines) as k eqn:Ek. revert lines n Ek.
    induction (lt_wf k) as [k _ IH]. intros [|l lines] n -> H; [constructor|]. cbn [_lint_yaml_heredocs] in H.
    destruct (heredoc l) as [[delim path]|] eqn:Eh; cbn [fmap option_fmap option_map fst snd] in H.
    + apply open_heredoc in H as (body & close & rest & m & -> & Hb & Hc & Hy & Hr).
      apply (tidy_block _ l delim path); [done|done|done|exact (proj1 (yaml_issue_nil _ _ _) Hy)|].
      apply (IH (length rest)) with m; [|done|done]. cbn. rewrite length_app. cbn. lia.
    + apply tidy_line; [done|]. apply (IH (length lines)) with (n + 1); [cbn; lia|done|done].
  - intros H. revert n. induction H as [|l lines Hl _ IH|l delim path body close lines Hl Hb Hc Hy _ IH]; intros n; cbn [_lint_yaml_heredocs].
    + done.
    + rewrite Hl. apply IH.
    + rewrite Hl. cbn [fmap option_fmap option_map fst snd]. apply open_heredoc.
      exists body, close, lines, 0. repeat split; [done|done| |apply IH]. exact (proj2 (yaml_issue_nil _ _ _) Hy).
Qed.

End lint_laws.

Lemma lint_unresolved lines n :
  _lint_unresolved_jinja n lines = [] <-> Forall (fun l => contains "{{" l = false /\ contains "{%" l = false) lines.
Proof.
  revert n. induction lines as [|l lines IH]; intros n; cbn [_lint_unresolved_jinja].
  { split; [constructor|done]. }
  rewrite Forall_cons, app_nil, IH. destruct (contains "{{" l), (contains "{%" l); cbn; naive_solver.
Qed.


(** The lint has nothing to say exactly of a text without tokens of Jinja that
    bash reads, and whose heredocs are closed and YAML where they should be. *)
Theorem lint_correct yaml_error bash_n rendered :
  lint_bf_conf yaml_error bash_n rendered = [] <->
  Forall (fun l => contains "{{" l = false /\ contains "{%" l = false) (splitlines rendered "") /\
  _lint_bash_syntax bash_n rendered = [] /\ tidy yaml_error (splitlines rendered "").
Proof.
  unfold lint_bf_conf. cbn zeta. by rewrite !app_nil, lint_unresolved, lint_tidy.
Qed.

Module Example.
Definition card (id : Z) (rshim : option string) : bf_dpu :=
  {| bd_id := id; bd_project := 1; in_band := true; bd_host_ip := Some "10.0.0.5"; host_hostname := Some "Worker1.lab.example";
     pci_address := None; rshim_device := rshim; serial_number := None;
     external_ips := {| vi_ipv4 := Some "10.0.10.5/24"; vi_ipv6 := None |}; internal_ips := no_ips; extra_ips := [];
     dpu_tmfifo_ip := Some "192.168.100.6"; bd_cluster := None |}.

Lemma hostnames_distinct_witness :
  _derive_bfb_hostname (card 7 (Some "rshim0")) 2 = "worker1-dpu1" /\
  (_derive_bfb_hostname (card 7 (Some "rshim0")) 2 = _derive_bfb_hostname (card 8 (Some "rshim1")) 2 <-> 2 <= 1 \/ 0 = 1).
Proof.
  split; [vm_compute; reflexivity|].
  apply (hostnames_distinct (card 7 (Some "rshim0")) (card 8 (Some "rshim1")) 2);
    [split; reflexivity|split; reflexivity|split; [reflexivity|vm_compute; discriminate]|split; vm_compute; reflexivity].
Defined.

(** A DPU not probed yet, and without a PCI address, takes its id, which is the
    number of another's device. *)
Lemma fallback_name_taken : _derive_bfb_hostname (card 1 None) 2 = _derive_bfb_hostname (card 8 (Some "rshim0")) 2.
Proof. vm_compute. reflexivity. Qed.
End Example.
