(* ===== verification/SshVariables.v ===== *)
(** * The variables of the SSH engine (services/execution/variable_assembler.py)

    What a bare-metal host adds to the variables of a run: its identity, its
    hardware, credentials of its BMC and DPU, and the bf.conf rendered for its
    DPU.  Stored secrets are what decrypting gives. *)

From Stdlib Require Import Ascii.
From S2P Require Import Prelude Texts PyText ModuleState TmfifoIpam Naming ProjectContext Variables VariableLaws BfConf.

#[local] Open Scope string_scope.
#[local] Open Scope list_scope.
#[local] Open Scope Z_scope.
#[local] Set Default Proof Using "Type".

(** [None]: nothing is stored; [Some None]: it does not decrypt. *)
Definition stored := option (option string).

Record dpu_login := { dl_username : option string; dl_password : option string; dl_key : option string }.
Record bm_host := {
  bm_id : Z;
  bm_project : Z;
  bm_ip : string;
  bm_topology : option string;
  bm_rshim_source : option string;
  bm_deploy_pci : option string;
  bm_deploy_index : option Z;
  bm_bmc_ip : option string;
  bm_bmc_username : stored;
  bm_bmc_password : stored;
  bm_mst_device : option string;
  bm_nic_mode : option string;
  bm_rshim_present : option bool;
  bm_default_route_iface : option string;
  bm_vf_count : option Z;
  bm_bond_mode : option string;
  bm_net_rshim_mac_base : option string;
  bm_dpu_credential : option dpu_login
}.
(** [templates]: the ids of the bf.conf templates there are. *)
Record ssh_db := { hosts : gmap Z bm_host; settings_of : gmap Z bf_settings; dpus : gmap Z bf_dpu; templates : list Z }.

(** [decrypt_value_or_none] *)
Definition reveal (s : stored) : option string := s ≫= id.
Definition text_else (a : option string) (d : string) : string := if truthy_str a then default "" a else d.

Section ssh.
Context {SO : SetOrder Z} (jinja : Z -> json -> option string) (sha512_crypt : string -> string) (public_key : string -> option string).

Definition project_settings (d : ssh_db) (project : Z) : option bf_settings :=
  snd <$> head (select (fun _ s => bs_project s =? project) (settings_of d)).

(** ** Credentials of the BMC *)

Definition _resolve_bmc_credentials (d : ssh_db) (host : bm_host) : string * string :=
  let user := reveal (bm_bmc_username host) in
  let pass := reveal (bm_bmc_password host) in
  if truthy_str user && truthy_str pass then (default "" user, default "" pass)
  else
    let '(user, pass) :=
      match project_settings d (bm_project host) with
      | Some s =>
          (if negb (truthy_str user) && truthy_str (oob_username s) then oob_username s else user,
           if negb (truthy_str pass) && bool_decide (oob_password s <> None) then reveal (oob_password s) else pass)
      | None => (user, pass)
      end in
    (text_else user "root", text_else pass "0penBmc").

(** ** The bf.conf *)

Inductive sexc := SBuild (e : vexc) | SRuntimeError (why : string) | SRenderError | STypeError | SValueError.

(** [s.rsplit(".", 1)[0]] *)
Fixpoint before_last_dot (s : string) : option string :=
  match s with
  | EmptyString => None
  | String c s' =>
      match before_last_dot s' with
      | Some a => Some (String c a)
      | None => if Ascii.eqb c "." then Some EmptyString else None
      end
  end.
Definition pci_bus (address : option string) : string := let a := default "" address in default a (before_last_dot a).

Definition dpu_of_host (d : ssh_db) (host : bm_host) : option bf_dpu :=
  let bus := pci_bus (bm_deploy_pci host) in
  snd <$> head (select (fun _ r => (bd_project r =? bm_project host) && bool_decide (bd_host_ip r = Some (bm_ip host))
                                   && (String.eqb bus "" || bool_decide (pci_address r = Some bus))) (dpus d)).

(** [variables.get("dpu_password", "")], or the project's. *)
Definition os_login (settings : bf_settings) (variables : vars) : result sexc json :=
  if is_set variables "dpu_password" then Ok (default JNull (variables !! "dpu_password"))
  else match os_password settings with
       | Some (Some p) => if String.eqb p "" then Err (SRuntimeError "No DPU OS password available") else Ok (JStr p)
       | Some None => Err (SRuntimeError "Could not decrypt the DPU OS password")
       | None => Err (SRuntimeError "No DPU OS password available")
       end.

Definition dpu_vlan (v : VlanContext) : json :=
  JObj [("name", JStr (v_name v)); ("tag", JInt (v_tag v)); ("uplink", JStr (v_uplink v)); ("ip", JStr (v_ip v))].
Definition before_slash (s : string) : string := match partition "/" s with Some (a, _) => a | None => s end.

Definition _inject_rendered_bf_conf (d : ssh_db) (host : bm_host) (project : Z) (variables : vars) : result sexc vars :=
  match project_settings d project with
  | None => Ok variables
  | Some settings =>
      match bf_template settings with
      | None => Ok variables
      | Some template =>
          _ ← ensure (bool_decide (template ∈ templates d)) (SRuntimeError "the template row no longer exists");
          match dpu_of_host d host with
          | None => Ok variables
          | Some dpu =>
              password ← os_login settings variables;
              let variables := fill {["dpu_password" := password]} variables in
              match password with
              | JStr plain =>
                  let ctx := build_render_context sha512_crypt public_key dpu settings (os_ssh_credential settings) plain 1 in
                  match render_bf_conf jinja template ctx with
                  | None => Err SRenderError
                  | Some rendered =>
                      Ok (<["dpu_mtu" := JInt (dpu_mtu ctx)]>
                         (<["dpu_vlans" := JList (map dpu_vlan (vlans ctx))]>
                         (<["dpu_tmfifo_ip" := JStr (before_slash (tmfifo_dpu_ip ctx))]>
                         (<["rendered_bf_conf" := JStr rendered]> variables))))
                  end
              | _ => Err STypeError
              end
          end
      end
  end.

(** ** The host's layer *)

Definition host_authoritative_fields (h : bm_host) : vars :=
  put "host_ip" JStr (Some (bm_ip h)) (put "topology" JStr (bm_topology h) (put "rshim_source" JStr (bm_rshim_source h)
  (put "deploy_dpu_pci_address" JStr (bm_deploy_pci h) (put "deploy_dpu_index" JInt (bm_deploy_index h)
  (put "bmc_ip" JStr (bm_bmc_ip h) (put "bare_metal_host_id" JInt (Some (bm_id h)) ∅)))))).
Definition host_fields (h : bm_host) : vars :=
  put "mst_device" JStr (bm_mst_device h) (put "nic_mode" JStr (bm_nic_mode h) (put "rshim_present" JBool (bm_rshim_present h)
  (put "default_route_iface" JStr (bm_default_route_iface h) (put "vf_count" JInt (bm_vf_count h)
  (put "bond_mode" JStr (bm_bond_mode h) (put "net_rshim_mac_base" JStr (bm_net_rshim_mac_base h) ∅)))))).

Definition bmc_layer (d : ssh_db) (h : bm_host) (variables : vars) : vars :=
  if truthy_str (bm_bmc_ip h) && bool_decide (bm_rshim_source h = Some "bmc") then
    let '(user, pass) := _resolve_bmc_credentials d h in
    <["bmc_password" := JStr pass]> (<["bmc_user" := JStr user]> variables)
  else variables.

(** [if cred.get(field): variables[k] = cred[field]] *)
Definition set_text (k : string) (v : option string) (variables : vars) : vars :=
  if truthy_str v then <[k := JStr (default "" v)]> variables else variables.
Definition dpu_login_layer (h : bm_host) (variables : vars) : vars :=
  match bm_dpu_credential h, variables !! "dpu_username" with
  | Some l, None =>
      set_text "dpu_private_key_content" (dl_key l) (set_text "dpu_password" (dl_password l) (set_text "dpu_username" (dl_username l) variables))
  | _, _ => variables
  end.

(** [int(v)] *)
Definition int_of (v : json) : result sexc Z :=
  match v with
  | JInt n => Ok n
  | JBool b => Ok (if b then 1 else 0)
  | JStr s => match py_int s with Some n => Ok n | None => Err SValueError end
  | _ => Err STypeError
  end.

Definition host_row_of (d : ssh_db) (m : wmod) (given : option bm_host) : result sexc (option bm_host) :=
  match given with
  | Some h => Ok (Some h)
  | None =>
      match host_id_of m with
      | Some v => i ← int_of v; Ok (hosts d !! i)
      | None => Ok None
      end
  end.

Definition host_layers (d : ssh_db) (h : bm_host) (project : Z) (variables : vars) : result sexc vars :=
  let known := fill (host_fields h) (update (host_authoritative_fields h) variables) in
  let keyed := dpu_login_layer h (bmc_layer d h known) in
  if bool_decide ("rendered_bf_conf" ∈ dom keyed) then Ok keyed else _inject_rendered_bf_conf d h project keyed.

Definition build_variables_for_ssh (db_id : json -> option Z) (modules : gmap Z wmod) (c : cdb) (default_region : json) (d : ssh_db)
    (mid : Z) (m : wmod) (p : wproject) (given : option bm_host) (mappings : list mapping) (secrets : vars) (operation : string)
    : result sexc vars :=
  match build_variables db_id modules c default_region mid m p mappings secrets operation with
  | Err e => Err (SBuild e)
  | Ok variables =>
      host ← host_row_of d m given;
      match host with
      | None => Ok variables
      | Some h => host_layers d h (wm_project m) variables
      end
  end.
End ssh.

(** ** What they promise *)

(** The names the credentials and the bf.conf write. *)
Definition OWN : list string :=
  ["bmc_user"; "bmc_password"; "dpu_username"; "dpu_password"; "dpu_private_key_content"; "rendered_bf_conf"; "dpu_tmfifo_ip"; "dpu_vlans"; "dpu_mtu"].

(** [d'] is [d] but for the names of [ks]. *)
Definition agree_but (ks : list string) (d d' : vars) : Prop := forall k, k ∉ ks -> d' !! k = d !! k.

Lemma agree_refl ks d : agree_but ks d d.
Proof. by intros k _. Qed.
Lemma agree_insert ks k v d d' : k ∈ ks -> agree_but ks d d' -> agree_but ks d (<[k := v]> d').
Proof. intros Hk H k' Hk'. rewrite lookup_insert_ne by (by intros ->). by apply H. Qed.
Lemma agree_set_text ks k v d d' : k ∈ ks -> agree_but ks d d' -> agree_but ks d (set_text k v d').
Proof. intros Hk H. unfold set_text. destruct (truthy_str v); [by apply agree_insert|done]. Qed.
Lemma agree_trans ks d d' d'' : agree_but ks d d' -> agree_but ks d' d'' -> agree_but ks d d''.
Proof. intros H1 H2 k Hk. by rewrite H2, H1. Qed.
Lemma own_name k : bool_decide (k ∈ OWN) = true -> k ∈ OWN.
Proof. apply bool_decide_eq_true. Qed.

Lemma lookup_put_None {A} k k' (mk : A -> json) v m : k <> k' -> put k' mk v m !! k = m !! k.
Proof. intros Hk. destruct v; [|done]. by apply lookup_insert_ne. Qed.

Section laws.
Context {SO : SetOrder Z} (jinja : Z -> json -> option string) (sha512_crypt : string -> string) (public_key : string -> option string).
Context (d : ssh_db).

Lemma bmc_layer_agrees h variables : agree_but OWN variables (bmc_layer d h variables).
Proof.
  unfold bmc_layer. destruct (_ && _); [|apply agree_refl]. destruct (_resolve_bmc_credentials d h).
  repeat (apply agree_insert; [by apply own_name|]). apply agree_refl.
Qed.
Lemma dpu_login_agrees h variables : agree_but OWN variables (dpu_login_layer h variables).
Proof.
  unfold dpu_login_layer. destruct (bm_dpu_credential h), (variables !! "dpu_username"); try apply agree_refl.
  repeat (apply agree_set_text; [by apply own_name|]). apply agree_refl.
Qed.

Definition rendering := _inject_rendered_bf_conf jinja sha512_crypt public_key d.

(** What rendering does: nothing without settings, a template or a DPU, and
    otherwise the text of one context and what it says. *)
Lemma rendering_spec h project variables r : rendering h project variables = Ok r ->
  r = variables \/
  exists settings template dpu plain rendered,
    let ctx := build_render_context sha512_crypt public_key dpu settings (os_ssh_credential settings) plain 1 in
    project_settings d project = Some settings /\ bf_template settings = Some template /\ dpu_of_host d h = Some dpu /\
    os_login settings variables = Ok (JStr plain) /\
    jinja template (to_jinja ctx) = Some rendered /\
    r = <["dpu_mtu" := JInt (dpu_mtu ctx)]> (<["dpu_vlans" := JList (map dpu_vlan (vlans ctx))]>
          (<["dpu_tmfifo_ip" := JStr (before_slash (tmfifo_dpu_ip ctx))]>
            (<["rendered_bf_conf" := JStr rendered]> (fill {["dpu_password" := JStr plain]} variables)))).
Proof.
  unfold rendering, _inject_rendered_bf_conf.
  destruct (project_settings d project) as [settings|] eqn:Es; [|intros [= <-]; by left].
  destruct (bf_template settings) as [template|] eqn:Et; [|intros [= <-]; by left].
  intros (u & _ & H)%bind_Ok. destruct (dpu_of_host d h) as [dpu|] eqn:Ed; [|injection H as <-; by left].
  apply bind_Ok in H as (pw & Hpw & H). destruct pw as [| | |plain| |]; try done.
  destruct (render_bf_conf _ _ _) as [rendered|] eqn:Er; [|done]. injection H as <-. right.
  exists settings, template, dpu, plain, rendered. by repeat split.
Qed.

Lemma rendering_agrees h project variables r : rendering h project variables = Ok r -> agree_but OWN variables r.
Proof.
  intros H. apply rendering_spec in H as [->|(settings & template & dpu & plain & rendered & _ & _ & _ & _ & _ & ->)]; [apply agree_refl|].
  repeat (apply agree_insert; [by apply own_name|]). intros k Hk. rewrite lookup_fill.
  rewrite lookup_singleton_ne by (intros <-; by apply Hk, own_name). by destruct (variables !! k).
Qed.

Lemma host_layers_agree h project variables r : host_layers jinja sha512_crypt public_key d h project variables = Ok r ->
  agree_but OWN (fill (host_fields h) (update (host_authoritative_fields h) variables)) r.
Proof.
  unfold host_layers. cbn zeta. set (known := fill _ _).
  assert (Hk : agree_but OWN known (dpu_login_layer h (bmc_layer d h known))).
  { eapply agree_trans; [apply bmc_layer_agrees|apply dpu_login_agrees]. }
  case_bool_decide; [intros [= <-]; done|]. intros Hr%rendering_agrees. by eapply agree_trans.
Qed.

(** The host's identity is written over whatever the layers gave; what it knows
    of its hardware is only what they did not give; and but for the credentials
    and the bf.conf they keep the rest. *)
Theorem host_identity_wins db_id modules c default_region mid m p given mappings secrets operation base h r
    (BASE : build_variables db_id modules c default_region mid m p mappings secrets operation = Ok base)
    (HOST : host_row_of d m given = Ok (Some h))
    (BUILT : build_variables_for_ssh jinja sha512_crypt public_key db_id modules c default_region d mid m p given mappings secrets operation = Ok r)
    k (NAME : k ∉ OWN) :
  r !! k = or_next (host_authoritative_fields h !! k) (or_next (base !! k) (host_fields h !! k)).
Proof.
  unfold build_variables_for_ssh in BUILT. rewrite BASE, HOST in BUILT. cbn [mbind result_bind] in BUILT.
  rewrite (host_layers_agree _ _ _ _ BUILT k NAME), lookup_fill, lookup_update.
  by destruct (host_authoritative_fields h !! k), (base !! k), (host_fields h !! k).
Qed.

(** A bf.conf that is rendered is the template's text in the context of the
    host's DPU, and the address reported for the DPU is the one baked into it. *)
Theorem reported_address_baked h project variables r
    (FRESH : "rendered_bf_conf" ∉ dom variables)
    (RENDERED : rendering h project variables = Ok r /\ "rendered_bf_conf" ∈ dom r) :
  exists dpu settings template ctx a text,
    dpu_of_host d h = Some dpu /\ project_settings d project = Some settings /\ bf_template settings = Some template /\
    bfb_hostname ctx = _derive_bfb_hostname dpu 1 /\ vlans ctx = vlan_contexts settings dpu /\
    jinja template (to_jinja ctx) = Some text /\ r !! "rendered_bf_conf" = Some (JStr text) /\
    r !! "dpu_tmfifo_ip" = Some (JStr a) /\
    (partition "/" (derive_tmfifo_dpu_host (rshim_device dpu) (Some dpu)) = None ->
       a = derive_tmfifo_dpu_host (rshim_device dpu) (Some dpu) /\ tmfifo_dpu_ip ctx = a +:+ "/30").
Proof.
  destruct RENDERED as [H Hin]. apply rendering_spec in H as [->|(settings & template & dpu & plain & text & Hs & Ht & Hd & _ & Hj & ->)]; [done|].
  set (ctx := build_render_context _ _ _ _ _ _ _) in *.
  exists dpu, settings, template, ctx, (before_slash (tmfifo_dpu_ip ctx)), text.
  do 6 (split; [done|]). split; [|split].
  - by rewrite !lookup_insert_ne, lookup_insert_eq by done.
  - by rewrite !lookup_insert_ne, lookup_insert_eq by done.
  - intros Hp. assert (E : tmfifo_dpu_ip ctx = derive_tmfifo_dpu_host (rshim_device dpu) (Some dpu) +:+ "/30")
      by exact (tmfifo_cidr (rshim_device dpu) (Some dpu)).
    assert (Ea : before_slash (tmfifo_dpu_ip ctx) = derive_tmfifo_dpu_host (rshim_device dpu) (Some dpu)).
    { unfold before_slash. rewrite E. by rewrite (partition_app _ _ _ Hp). }
    rewrite Ea. by split.
Qed.
End laws.

(** What the bare-metal path renders for a DPU found by probing has the name of a
    single DPU's; of several on the host, the flash renders another. *)
Theorem bare_metal_ignores_peers {SO : SetOrder Z} sha512_crypt public_key settings cred plain peers dpu n
    (KIND : in_band dpu = true /\ truthy_str (serial_number dpu) = false)
    (HOST : host_label (host_hostname dpu) <> "")
    (DEVICE : rshim_number dpu = Some n)
    (PEERS : 1 < _count_inband_peers peers dpu) :
  bfb_hostname (build_render_context sha512_crypt public_key dpu settings cred plain 1) = host_label (host_hostname dpu) +:+ "-dpu" /\
  bfb_hostname (build_render_context sha512_crypt public_key dpu settings cred plain (_count_inband_peers peers dpu)) =
    host_label (host_hostname dpu) +:+ "-dpu" +:+ pretty (n + 1).
Proof.
  destruct KIND as [Hk Hs]. cbn [bfb_hostname build_render_context]. unfold _derive_bfb_hostname, _multi_dpu_hostname_suffix.
  rewrite Hk, Hs, DEVICE. destruct (String.eqb_spec (host_label (host_hostname dpu)) ""); [done|]. cbn [andb negb].
  split; [done|]. by destruct (Z.leb_spec (_count_inband_peers peers dpu) 1); [lia|].
Qed.

Module Example.
#[local] Instance some_order : SetOrder Z := elements_order.

Definition host : bm_host :=
  {| bm_id := 5; bm_project := 1; bm_ip := "10.0.0.5"; bm_topology := Some "dual_dpu_obmc"; bm_rshim_source := Some "bmc";
     bm_deploy_pci := Some "0000:01:00.0"; bm_deploy_index := Some 0; bm_bmc_ip := Some "10.0.1.5"; bm_bmc_username := None;
     bm_bmc_password := None; bm_mst_device := Some "/dev/mst/a"; bm_nic_mode := None; bm_rshim_present := None;
     bm_default_route_iface := None; bm_vf_count := Some 46; bm_bond_mode := None; bm_net_rshim_mac_base := None;
     bm_dpu_credential := None |}.
Definition card (id : Z) (rshim pci : string) : bf_dpu :=
  {| bd_id := id; bd_project := 1; in_band := true; bd_host_ip := Some "10.0.0.5"; host_hostname := Some "worker1";
     pci_address := Some pci; rshim_device := Some rshim; serial_number := None;
     external_ips := {| vi_ipv4 := Some "10.0.10.5/24"; vi_ipv6 := None |}; internal_ips := no_ips; extra_ips := [];
     dpu_tmfifo_ip := Some "192.168.104.6"; bd_cluster := Some 3 |}.
Definition settings : bf_settings :=
  {| bs_project := 1; bf_template := Some 2; bs_mtu := None; dns_servers := ["1.1.1.1"; "8.8.8.8"]; ntp_servers := [];
     external_def := {| vd_id := Some 100; vd_uplink := Some "p0" |}; internal_def := {| vd_id := None; vd_uplink := None |};
     extra_defs := []; oob_username := None; oob_password := None; os_password := Some (Some "ubuntu1"); os_ssh_credential := None |}.
Definition rows : ssh_db :=
  {| hosts := {[5 := host]}; settings_of := {[1 := settings]};
     dpus := {[7 := card 7 "rshim0" "0000:01:00"; 8 := card 8 "rshim1" "0000:02:00"]}; templates := [2] |}.
(** A template that shows the context, and keys that are their own hashes. *)
Definition shown (template : Z) (context : json) : option string := Some (json_dumps context).
Definition flash_module : wmod :=
  {| wm_project := 1; wm_stack := None; wm_status := NOT_INITIALIZED; wm_outputs := None; wm_dependencies := []; wm_library := None;
     variable_overrides := Some (VariableLaws.Example.dict [("bare_metal_host_id", JStr "5"); ("topology", JStr "regular"); ("vf_count", JInt 8)]);
     own_variables := None |}.
Definition project : wproject := VariableLaws.Example.project.
Definition no_context : cdb := {| settings_rows := ∅; host_rows := ∅; dpu_rows := ∅ |}.

Definition base_run : result vexc vars :=
  build_variables VariableLaws.Example.id_of ∅ no_context JNull 3 flash_module project [] ∅ "apply".
Definition ssh_run : result sexc vars :=
  build_variables_for_ssh shown id Some VariableLaws.Example.id_of ∅ no_context JNull rows 3 flash_module project None [] ∅ "apply".
Definition or_empty {E} (r : result E vars) : vars := match r with Ok v => v | Err _ => ∅ end.
Lemma ok_or_empty {E} (r : result E vars) : is_Ok r = true -> r = Ok (or_empty r).
Proof. by destruct r. Qed.
Lemma base_ok : base_run = Ok (or_empty base_run).
Proof. apply ok_or_empty. vm_compute. reflexivity. Qed.
Lemma ssh_ok : ssh_run = Ok (or_empty ssh_run).
Proof. apply ok_or_empty. vm_compute. reflexivity. Qed.

Lemma host_identity_wins_witness :
  or_empty ssh_run !! "topology" = Some (JStr "dual_dpu_obmc") /\ or_empty ssh_run !! "vf_count" = Some (JInt 8).
Proof.
  pose proof (host_identity_wins shown id Some rows VariableLaws.Example.id_of ∅ no_context JNull 3 flash_module project None [] ∅ "apply"
    (or_empty base_run) host (or_empty ssh_run) base_ok eq_refl ssh_ok) as H.
  split; (rewrite H; [vm_compute; reflexivity|apply (bool_decide_eq_false_1 _); vm_compute; reflexivity]).
Defined.

Definition rendered_run : result sexc vars := rendering shown id Some rows host 1 ∅.
Lemma rendered_ok : rendered_run = Ok (or_empty rendered_run).
Proof. apply ok_or_empty. vm_compute. reflexivity. Qed.

Lemma reported_address_baked_witness : or_empty rendered_run !! "dpu_tmfifo_ip" = Some (JStr "192.168.104.6").
Proof.
  assert (Hin : "rendered_bf_conf" ∈ dom (or_empty rendered_run)).
  { apply (bool_decide_eq_true_1 _). vm_compute. reflexivity. }
  destruct (reported_address_baked shown id Some rows host 1 ∅ (or_empty rendered_run)) as (dpu & s & t & ctx & a & text & Hd & _ & _ & _ & _ & _ & _ & Ha & Hb).
  - apply (bool_decide_eq_false_1 _). vm_compute. reflexivity.
  - split; [exact rendered_ok|exact Hin].
  - assert (E : dpu_of_host rows host = Some (card 7 "rshim0" "0000:01:00")) by (vm_compute; reflexivity).
    rewrite E in Hd. injection Hd as <-. destruct Hb as [-> _]; [vm_compute; reflexivity|]. rewrite Ha. vm_compute. reflexivity.
Defined.

Lemma bare_metal_ignores_peers_witness :
  _count_inband_peers (dpus rows) (card 8 "rshim1" "0000:02:00") = 2 /\
  bfb_hostname (build_render_context id Some (card 8 "rshim1" "0000:02:00") settings None "ubuntu1" 1) = "worker1-dpu".
Proof.
  split; [vm_compute; reflexivity|].
  destruct (bare_metal_ignores_peers id Some settings None "ubuntu1" (dpus rows) (card 8 "rshim1" "0000:02:00") 1) as [-> _].
  - split; reflexivity.
  - vm_compute. discriminate.
  - vm_compute. reflexivity.
  - vm_compute. reflexivity.
  - vm_compute. reflexivity.
Defined.
End Example.
