(* ===== verification/StackRun.v ===== *)
(** * Running a stack's deploy (services/stack_service.py [run_deploy])

    The request that starts, or goes on with, the deploy of a stack's modules, on
    the rows of Orchestration.v.  What the check of prerequisites reports is an
    argument; stamping the host's release and keeping the variables as project
    defaults are left out. *)

From S2P Require Import Prelude Texts ModuleState Orchestration DestroyChain DestroyRun DeployChain DeployRun.

#[local] Open Scope string_scope.
#[local] Open Scope list_scope.
#[local] Open Scope Z_scope.
#[local] Set Default Proof Using "Type".

(** ** The request *)

(** The report of [check_prerequisites]. *)
Record prereq_report := { all_satisfied : bool; missing_secrets : bool; blocking_preflight : bool }.

Inductive run_error := StackNotFound | EMPTY_STACK | OPERATION_IN_PROGRESS | MISSING_SECRETS | STACK_PREFLIGHT_FAILED.
Inductive run_outcome := RunDeployed | RunDeploying | RunFailed.
Record run_report := { outcome : run_outcome; queued_modules : Z; skipped_modules : Z; total_modules : Z }.

Definition set_total (n : Z) (s : stack) : stack :=
  {| s_project := s_project s; s_status := s_status s; s_error := s_error s; current_step := current_step s; total_steps := Some n |}.

(** The task a module of a status gets, and its new status. *)
Definition launch_of (st : ModuleStatus) : option (task_type * ModuleStatus) :=
  match st with
  | NOT_INITIALIZED => Some (Tinit, INITIALIZING)
  | INITIALIZED | PLANNED | INIT_FAILED | PLAN_FAILED | APPLY_FAILED | APPLIED => Some (Tapply, APPLYING)
  | _ => None
  end.

Section run.
Context {SO : SetOrder Z} (celery : Z -> string) (vars_changed : Z -> bool).

Definition prerequisites_met (r : option prereq_report) : result run_error unit :=
  match r with
  | None => Ok tt
  | Some r =>
      if all_satisfied r then Ok tt
      else if missing_secrets r then Err MISSING_SECRETS
      else if blocking_preflight r then Err STACK_PREFLIGHT_FAILED
      else Ok tt
  end.

Definition busy (s : stack) : bool := bool_decide (s_status s ∈ [S_DEPLOYING; S_DESTROYING]).

(** A stack under way goes on only when it is a deploy with nothing at work. *)
Definition not_in_progress (s : Z) (st : stack) (d : odb) : bool :=
  if busy st then
    negb (bool_decide (s_status st = S_DESTROYING)
          || some_task (fun t => match t_module t with Some i => bool_decide (i ∈ deployed_modules s d) | None => false end && active_task t) d
          || existsb (fun im => transitional (pm_status im.2)) (stack_modules s d))
  else true.

(** [m.status == APPLIED and workspace.vars_changed(m)] *)
Definition is_applied (m : pmodule) : bool := bool_decide (pm_status m = APPLIED).
Definition changed_applied (im : Z * pmodule) : bool := is_applied im.2 && vars_changed im.1.
Definition unchanged_applied (im : Z * pmodule) : bool := is_applied im.2 && negb (vars_changed im.1).

(** The modules that are not applied, then those whose variables changed. *)
Definition pending_modules (ms : list (Z * pmodule)) : list (Z * pmodule) :=
  filter (fun im => enabled im.2 = true)
    (filter (fun im => is_applied im.2 = false) ms ++ filter (fun im => changed_applied im = true) ms).

Definition launch (d : odb) (i : Z) : odb :=
  match modules d !! i ≫= (fun m => launch_of (pm_status m)) with
  | Some (ty, st) => queue_task celery ty T_QUEUED st i None d
  | None => d
  end.

Definition run_turn (st : odb * Z) (i : Z) : odb * Z :=
  let '(d, queued) := st in
  match modules d !! i with
  | None => st
  | Some m =>
      if in_flight d i then st
      else if negb (deps_ready d m) then st
      else match launch_of (pm_status m) with
           | Some _ => (launch d i, queued + 1)
           | None => st
           end
  end.

(** What is done once nothing stands against it; [ms]: the modules of the stack,
    in order. *)
Definition run_modules (s : Z) (d : odb) : odb * run_report :=
  let ms := by_order (stack_modules s d) in
  let total := Z.of_nat (length ms) in
  let skipped := Z.of_nat (length (filter (fun im => unchanged_applied im = true) ms)) in
  let pending := pending_modules ms in
  let d := update_stack s (fun r => set_total total (set_step skipped (set_stack_status S_DEPLOYING r))) d in
  match pending with
  | [] => (update_stack s (set_stack_status S_DEPLOYED) d,
           {| outcome := RunDeployed; queued_modules := 0; skipped_modules := skipped; total_modules := total |})
  | _ =>
      let '(d, queued) := foldl run_turn (d, 0) pending.*1 in
      if queued =? 0 then
        let error := "Cannot deploy: " +:+ pretty (Z.of_nat (length pending)) +:+ " modules have unsatisfied dependencies" in
        (update_stack s (fun r => set_stack_error (Some error) (set_stack_status S_FAILED r)) d,
         {| outcome := RunFailed; queued_modules := 0; skipped_modules := skipped; total_modules := total |})
      else (d, {| outcome := RunDeploying; queued_modules := queued; skipped_modules := skipped; total_modules := total |})
  end.

(** A refusal undoes what was not committed: the progress was. *)
Definition run_deploy (prereqs : option prereq_report) (s : Z) (d : odb) : odb * result run_error run_report :=
  match stacks d !! s with
  | None => (d, Err StackNotFound)
  | Some st =>
      if bool_decide (deployed_modules s d = []) then (d, Err EMPTY_STACK)
      else
        let d := if busy st then update_stack_progress s d else d in
        match stacks d !! s with
        | None => (d, Err StackNotFound)
        | Some st =>
            if negb (not_in_progress s st d) then (d, Err OPERATION_IN_PROGRESS)
            else match prerequisites_met prereqs with
                 | Err e => (d, Err e)
                 | Ok _ => let '(d', r) := run_modules s d in (d', Ok r)
                 end
        end
  end.

(** ** The modules a run starts *)

(** [taken]: the modules started so far. *)
Fixpoint choose (d : odb) (taken : list Z) (l : list Z) : list Z :=
  match l with
  | [] => taken
  | i :: l =>
      match modules d !! i with
      | Some m =>
          if bool_decide (launch_of (pm_status m) <> None) && negb (in_flight d i)
             && forallb (fun j => applied d j && negb (bool_decide (j ∈ taken))) (pm_dependencies m)
          then choose d (taken ++ [i]) l
          else choose d taken l
      | None => choose d taken l
      end
  end.
End run.

(** ** Several modules started *)

Section launches.
Context {SO : SetOrder Z} (celery : Z -> string) (d0 : odb).
Hypothesis FRESH : forall t r, tasks d0 !! t = Some r -> t < next_task d0.

Definition launch_all (l : list Z) : odb := foldl (launch celery) d0 l.

(** Modules that can be started. *)
Definition launchable (i : Z) : Prop := exists m ty st, modules d0 !! i = Some m /\ launch_of (pm_status m) = Some (ty, st).
Definition launched_status (m : pmodule) : ModuleStatus := match launch_of (pm_status m) with Some (_, st) => st | None => pm_status m end.
Definition launched_task (i : Z) (m : pmodule) (t : Z) : task :=
  {| t_type := match launch_of (pm_status m) with Some (ty, _) => ty | None => Tinit end; t_status := T_QUEUED;
     t_project := pm_project m; t_module := Some i; celery_task_id := Some (celery t); run_handle := None;
     destroy_scope := None; t_error := None |}.

(** The tables after the modules of [l] have been started. *)
Record launched (l : list Z) (d : odb) : Prop := {
  la_modules i : modules d !! i = (fun m => if decide (i ∈ l) then set_status (launched_status m) m else m) <$> modules d0 !! i;
  la_tasks t : tasks d !! t = if decide (next_task d0 <= t < next_task d0 + Z.of_nat (length l))
                              then i ← l !! Z.to_nat (t - next_task d0); m ← modules d0 !! i; Some (launched_task i m t)
                              else tasks d0 !! t;
  la_stacks : stacks d = stacks d0;
  la_next : next_task d = next_task d0 + Z.of_nat (length l)
}.

Lemma launched_snoc l d i : launched l d -> i ∉ l -> launchable i -> launched (l ++ [i]) (launch celery d i).
Proof.
  intros [Hm Ht Hs Hn] Hi (m & ty & st & Hmi & Hl).
  assert (Hd : modules d !! i = Some m) by (rewrite Hm, Hmi; cbn; by rewrite decide_False).
  unfold launch. rewrite Hd. cbn [mbind option_bind]. rewrite Hl.
  assert (Hq : queue_task celery ty T_QUEUED st i None d =
      {| modules := alter (set_status st) i (modules d); tasks := <[next_task d := launched_task i m (next_task d)]> (tasks d);
         stacks := stacks d; next_task := next_task d + 1 |}).
  { unfold queue_task. rewrite Hd. unfold update_module, update_task, add_task, with_modules, with_tasks, launched_task. rewrite Hl.
    cbn. f_equal. apply map_eq. intros t. destruct (decide (t = next_task d)) as [->|Hne].
    - by rewrite lookup_alter_eq, !lookup_insert_eq.
    - by rewrite lookup_alter_ne, !lookup_insert_ne. }
  rewrite Hq. clear Hq. constructor; cbn [modules tasks stacks next_task].
  - intros j. destruct (decide (j = i)) as [->|Hj].
    + rewrite lookup_alter_eq, Hd, Hmi. cbn. rewrite decide_True by (apply elem_of_app; right; apply elem_of_cons; by left).
      unfold launched_status. by rewrite Hl.
    + rewrite lookup_alter_ne, Hm by done. destruct (modules d0 !! j); [|done]. cbn. f_equal.
      assert (E : j ∈ l ++ [i] <-> j ∈ l) by (rewrite elem_of_app, list_elem_of_singleton; naive_solver).
      by repeat case_decide; tauto.
  - intros t. rewrite length_app. cbn [length]. destruct (decide (t = next_task d)) as [->|Hne].
    + rewrite lookup_insert_eq, decide_True by lia. rewrite lookup_app_r by lia.
      replace (Z.to_nat (next_task d - next_task d0) - length l)%nat with 0%nat by lia. cbn. by rewrite Hmi.
    + rewrite lookup_insert_ne, Ht by done. destruct (decide (next_task d0 <= t < next_task d0 + Z.of_nat (length l))).
      * rewrite decide_True by lia. by rewrite lookup_app_l by lia.
      * by rewrite decide_False by lia.
  - done.
  - rewrite length_app. cbn. lia.
Qed.

Lemma launched_all l : NoDup l -> (forall i, i ∈ l -> launchable i) -> launched l (launch_all l).
Proof.
  unfold launch_all. induction l as [|i l IH] using rev_ind; intros Hnd Hl.
  - constructor; cbn; try done; [|intros t; by rewrite decide_False by lia|lia].
    intros i. rewrite <- (option_fmap_id (modules d0 !! i)) at 1. apply option_fmap_ext. intros m.
    by rewrite decide_False by apply not_elem_of_nil.
  - apply NoDup_app in Hnd as (Hnd & Hdis & _). rewrite foldl_app. cbn. apply launched_snoc.
    + apply IH; [done|]. intros j Hj. apply Hl, elem_of_app. by left.
    + intros Hi. apply (Hdis i Hi), elem_of_cons. by left.
    + apply Hl, elem_of_app. right. apply elem_of_cons. by left.
Qed.

Lemma launched_not_applied m : launch_of (pm_status m) <> None -> launched_status m <> APPLIED.
Proof. unfold launched_status. by destruct (pm_status m). Qed.

Lemma launched_applied l d j : launched l d -> (forall i, i ∈ l -> launchable i) -> applied d j = applied d0 j && negb (bool_decide (j ∈ l)).
Proof.
  intros Hd Hl. unfold applied. rewrite (la_modules _ _ Hd). destruct (modules d0 !! j) as [m|] eqn:E; [|done]. cbn.
  case_decide as Hj.
  - rewrite (bool_decide_eq_true_2 (j ∈ l)), andb_false_r by done. apply bool_decide_eq_false. cbn. apply launched_not_applied.
    destruct (Hl j Hj) as (m' & ty & st & Hm' & Hlo). rewrite E in Hm'. injection Hm' as <-. by rewrite Hlo.
  - by rewrite (bool_decide_eq_false_2 (j ∈ l)), andb_true_r by done.
Qed.

Lemma launched_in_flight l d i : launched l d -> i ∉ l -> in_flight d i = in_flight d0 i.
Proof using FRESH.
  intros Hd Hi. apply eq_iff_eq_true. rewrite !in_flight_spec. split; intros (t & r & Ht & Hm & Ha).
  - rewrite (la_tasks _ _ Hd) in Ht. case_decide as Hr; [|by exists t, r]. exfalso.
    destruct (l !! _) as [j|] eqn:Ej; [|done]. cbn in Ht. destruct (modules d0 !! j) as [m|]; [|done]. cbn in Ht.
    injection Ht as <-. cbn in Hm. injection Hm as ->. by apply list_elem_of_lookup_2 in Ej.
  - exists t, r. rewrite (la_tasks _ _ Hd), decide_False; [done|]. apply FRESH in Ht. lia.
Qed.

(** A loop over modules starts exactly the chosen ones, in order. *)
Lemma loop_launches l taken n : NoDup (taken ++ l) -> (forall i, i ∈ taken -> launchable i) ->
  foldl (run_turn celery) (launch_all taken, n) l =
    (launch_all (choose d0 taken l), n + Z.of_nat (length (choose d0 taken l)) - Z.of_nat (length taken)) /\
  NoDup (choose d0 taken l) /\ (forall i, i ∈ choose d0 taken l -> launchable i).
Proof using FRESH.
  revert taken n. induction l as [|i l IH]; intros taken n Hnd Ht.
  { rewrite app_nil_r in Hnd. cbn. split; [f_equal; lia|done]. }
  pose proof Hnd as (H1 & Hdis & [Hil H2]%NoDup_cons)%NoDup_app.
  assert (Hi : i ∉ taken) by (intros H; apply (Hdis i H), elem_of_cons; by left).
  assert (Hskip : NoDup (taken ++ l)).
  { apply NoDup_app. split; [done|]. split; [|done]. intros j Hj Hl. apply (Hdis j Hj), elem_of_cons. by right. }
  pose proof (launched_all taken H1 Ht) as Hla.
  cbn [foldl choose run_turn]. pose proof (la_modules _ _ Hla i) as Hm.
  destruct (modules d0 !! i) as [m|] eqn:Em; cbn in Hm; rewrite ?decide_False in Hm by done; rewrite Hm; [|by apply IH].
  rewrite (launched_in_flight _ _ i Hla Hi).
  assert (Hr : deps_ready (launch_all taken) m = forallb (fun j => applied d0 j && negb (bool_decide (j ∈ taken))) (pm_dependencies m)).
  { unfold deps_ready. induction (pm_dependencies m) as [|j js IHj]; [done|]. cbn. by rewrite IHj, (launched_applied _ _ j Hla Ht). }
  rewrite Hr. destruct (in_flight d0 i); [rewrite andb_false_r; by apply IH|]. cbn [negb]. rewrite andb_true_r.
  destruct (forallb _ _); cbn [negb]; [|rewrite andb_false_r; by apply IH]. rewrite andb_true_r.
  destruct (launch_of (pm_status m)) as [[ty st]|] eqn:El; cbn [bool_decide].
  - rewrite bool_decide_eq_true_2 by done.
    assert (Hl : launch celery (launch_all taken) i = launch_all (taken ++ [i])) by (unfold launch_all; by rewrite foldl_app).
    rewrite Hl. assert (Hnd' : NoDup ((taken ++ [i]) ++ l)) by (by rewrite <- app_assoc).
    assert (Ht' : forall j, j ∈ taken ++ [i] -> launchable j).
    { intros j [Hj| ->%list_elem_of_singleton]%elem_of_app; [by apply Ht|]. by exists m, ty, st. }
    destruct (IH (taken ++ [i]) (n + 1) Hnd' Ht') as (-> & ? & ?). split; [|done]. f_equal. rewrite length_app. cbn. lia.
  - rewrite bool_decide_eq_false_2 by tauto. by apply IH.
Qed.
End launches.

(** ** What is chosen *)

Section chosen.
Context {SO : SetOrder Z} (vars_changed : Z -> bool) (d : odb).

(** Nothing stands against starting the module now. *)
Definition eligible (i : Z) (m : pmodule) : Prop :=
  modules d !! i = Some m /\ launch_of (pm_status m) <> None /\ in_flight d i = false /\ deps_ready d m = true.

Lemma choose_ext d' taken l : modules d' = modules d -> tasks d' = tasks d -> choose d' taken l = choose d taken l.
Proof.
  intros Em Et. revert taken. induction l as [|i l IH]; intros taken; [done|]. cbn. rewrite Em.
  destruct (modules d !! i) as [m|]; [|apply IH].
  assert (Ef : in_flight d' i = in_flight d i) by (unfold in_flight, some_task; by rewrite Et).
  assert (Ea : forallb (fun j => applied d' j && negb (bool_decide (j ∈ taken))) (pm_dependencies m)
             = forallb (fun j => applied d j && negb (bool_decide (j ∈ taken))) (pm_dependencies m)) by (unfold applied; by rewrite Em).
  rewrite Ef, Ea. by rewrite !IH.
Qed.

Lemma choose_app taken l l' : choose d taken (l ++ l') = choose d (choose d taken l) l'.
Proof.
  revert taken. induction l as [|i l IH]; intros taken; [done|]. cbn.
  destruct (modules d !! i); [destruct (_ && _)|]; apply IH.
Qed.

Lemma choose_keeps taken l i : i ∈ taken -> i ∈ choose d taken l.
Proof.
  revert taken. induction l as [|j l IH]; intros taken Hi; [done|]. cbn.
  destruct (modules d !! j); [destruct (_ && _)|]; apply IH; [by apply elem_of_app; left|done..].
Qed.

Lemma choose_eligible taken l i : i ∈ choose d taken l -> i ∈ taken \/ (i ∈ l /\ exists m, eligible i m).
Proof.
  revert taken. induction l as [|j l IH]; intros taken Hi; [by left|]. cbn in Hi. setoid_rewrite elem_of_cons.
  destruct (modules d !! j) as [m|] eqn:Em; [|destruct (IH _ Hi) as [|[? ?]]; auto].
  destruct (bool_decide (launch_of (pm_status m) <> None)) eqn:El; cbn [andb] in Hi; [|destruct (IH _ Hi) as [|[? ?]]; auto].
  destruct (in_flight d j) eqn:Ef; cbn [andb negb] in Hi; [destruct (IH _ Hi) as [|[? ?]]; auto|].
  destruct (forallb _ _) eqn:Ea; [|destruct (IH _ Hi) as [|[? ?]]; auto].
  destruct (IH _ Hi) as [[Ht| ->%list_elem_of_singleton]%elem_of_app|[? ?]]; auto.
  right. split; [by left|]. exists m. apply bool_decide_eq_true in El. repeat split; try done.
  apply deps_ready_spec. intros k Hk. rewrite forallb_forall in Ea. apply list_elem_of_In, Ea in Hk. by apply andb_true_iff in Hk as [? _].
Qed.

(** A module all of whose dependencies are not among those started is. *)
Lemma choose_complete taken l i m : i ∈ l -> eligible i m -> (forall j, j ∈ pm_dependencies m -> j ∉ choose d taken l) -> i ∈ choose d taken l.
Proof.
  intros Hi (Hm & Hl & Hf & Hr). revert taken. induction l as [|j l IH]; intros taken Hd; [by apply elem_of_nil in Hi|].
  apply elem_of_cons in Hi as [<-|Hi].
  - cbn in *. rewrite Hm, Hf in Hd |- *. rewrite bool_decide_eq_true_2 in Hd |- * by done. cbn [andb negb] in Hd |- *.
    destruct (forallb _ _) eqn:Ea; [apply choose_keeps, elem_of_app; right; by apply list_elem_of_singleton|]. exfalso.
    apply not_true_iff_false in Ea. apply Ea, forallb_forall. intros k Hk%list_elem_of_In.
    rewrite (proj1 (deps_ready_spec d m) Hr k Hk). apply negb_true_iff, bool_decide_eq_false. intros Ht.
    by apply (Hd k Hk), choose_keeps.
  - specialize (IH Hi). cbn in *. destruct (modules d !! j); [destruct (_ && _)|]; by apply IH.
Qed.

(** Not applied modules are chosen by what the database says alone. *)
Lemma choose_unapplied taken l i m : (forall j, j ∈ taken ++ l -> applied d j = false) -> i ∈ l -> eligible i m -> i ∈ choose d taken l.
Proof.
  intros Hu Hi He. apply (choose_complete _ _ _ m); [done..|]. intros j Hj Hin.
  destruct He as (Hm & _ & _ & Hr). pose proof (proj1 (deps_ready_spec d m) Hr j Hj) as Ha.
  destruct (choose_eligible _ _ _ Hin) as [Ht|[Hl _]]; rewrite Hu in Ha; try done; apply elem_of_app; auto.
Qed.

Definition pending_ids (s : Z) : list Z := (pending_modules vars_changed (by_order (stack_modules s d))).*1.

Lemma elem_of_ordered s i m : (i, m) ∈ by_order (stack_modules s d) <-> modules d !! i = Some m /\ pm_stack m = Some s.
Proof.
  unfold by_order. rewrite merge_sort_Permutation. unfold stack_modules. rewrite elem_of_select. unfold in_stack. by rewrite bool_decide_eq_true.
Qed.

Lemma ordered_NoDup s : NoDup (by_order (stack_modules s d)).*1.
Proof. unfold by_order. rewrite merge_sort_Permutation. apply select_NoDup. Qed.

Lemma pending_NoDup s : NoDup (pending_ids s).
Proof.
  unfold pending_ids, pending_modules. apply filter_fst_NoDup. rewrite fmap_app. apply NoDup_app. split; [|split].
  - apply filter_fst_NoDup, ordered_NoDup.
  - intros i Hi Hj. apply list_elem_of_fmap in Hi as ([? m] & -> & [Ha Hi]%list_elem_of_filter).
    apply list_elem_of_fmap in Hj as ([? m'] & E & [Hb Hj]%list_elem_of_filter). cbn in E. subst.
    apply elem_of_ordered in Hi as [Hi _], Hj as [Hj _]. assert (m' = m) as -> by congruence.
    unfold changed_applied in Hb. cbn in Ha, Hb. by rewrite Ha in Hb.
  - apply filter_fst_NoDup, ordered_NoDup.
Qed.

(** The modules of a stack that a run starts: of those not applied exactly the
    enabled ones that can be, of the applied ones some with changed variables. *)
Lemma chosen_unapplied s i m : modules d !! i = Some m -> pm_stack m = Some s -> pm_status m <> APPLIED ->
  i ∈ choose d [] (pending_ids s) <-> enabled m = true /\ eligible i m.
Proof.
  intros Hm Hs Ha. split.
  - intros Hi. destruct (choose_eligible _ _ _ Hi) as [H|[Hin (m' & He)]]; [by apply elem_of_nil in H|].
    assert (m' = m) as -> by (destruct He as [He _]; congruence). split; [|done].
    unfold pending_ids, pending_modules in Hin. apply list_elem_of_fmap in Hin as ([j mj] & -> & [Hen Hj]%list_elem_of_filter).
    apply elem_of_app in Hj as [[_ Hj]%list_elem_of_filter|[_ Hj]%list_elem_of_filter]; apply elem_of_ordered in Hj as [Hj _]; cbn in *; congruence.
  - intros [Hen He]. unfold pending_ids, pending_modules. rewrite filter_app, fmap_app, choose_app. apply choose_keeps.
    apply (choose_unapplied _ _ _ m); [|apply list_elem_of_fmap; exists (i, m); split; [done|]|done].
    + intros j Hj. cbn in Hj. apply list_elem_of_fmap in Hj as ([? mj] & -> & [_ [Hu Hj]%list_elem_of_filter]%list_elem_of_filter).
      apply elem_of_ordered in Hj as [Hj _]. unfold applied. cbn. by rewrite Hj.
    + apply list_elem_of_filter. split; [done|]. apply list_elem_of_filter. split; [by apply bool_decide_eq_false|]. by apply elem_of_ordered.
Qed.

Lemma chosen_changed s i m : modules d !! i = Some m -> pm_stack m = Some s -> pm_status m = APPLIED ->
  (i ∈ choose d [] (pending_ids s) -> enabled m = true /\ vars_changed i = true /\ eligible i m) /\
  (enabled m = true -> vars_changed i = true -> eligible i m ->
     (forall j, j ∈ pm_dependencies m -> vars_changed j = false) -> i ∈ choose d [] (pending_ids s)).
Proof.
  intros Hm Hs Ha. split.
  - intros Hi. destruct (choose_eligible _ _ _ Hi) as [H|[Hin (m' & He)]]; [by apply elem_of_nil in H|].
    assert (m' = m) as -> by (destruct He as [He _]; congruence).
    unfold pending_ids, pending_modules in Hin. apply list_elem_of_fmap in Hin as ([j mj] & -> & [Hen Hj]%list_elem_of_filter). cbn in *.
    apply elem_of_app in Hj as [[Hu Hj]%list_elem_of_filter|[Hc Hj]%list_elem_of_filter]; apply elem_of_ordered in Hj as [Hj _];
      assert (mj = m) as -> by congruence.
    + unfold is_applied in Hu. cbn in Hu. by rewrite bool_decide_eq_true_2 in Hu.
    + by apply andb_true_iff in Hc as [_ Hc].
  - intros Hen Hc He Hd. apply (choose_complete _ _ _ m).
    + unfold pending_ids, pending_modules. apply list_elem_of_fmap. exists (i, m). split; [done|]. apply list_elem_of_filter. split; [done|].
      apply elem_of_app. right. apply list_elem_of_filter. split; [|by apply elem_of_ordered].
      unfold changed_applied, is_applied. cbn. by rewrite Hc, bool_decide_eq_true_2.
    + done.
    + intros j Hj Hin. destruct He as (_ & _ & _ & Hr). pose proof (proj1 (deps_ready_spec d m) Hr j Hj) as Hap.
      apply applied_spec in Hap as (mj & Hmj & Hapj).
      destruct (choose_eligible _ _ _ Hin) as [H|[Hl _]]; [by apply elem_of_nil in H|].
      unfold pending_ids, pending_modules in Hl. apply list_elem_of_fmap in Hl as ([? mj'] & -> & [_ Hl]%list_elem_of_filter). cbn in *.
      apply elem_of_app in Hl as [[Hu Hl]%list_elem_of_filter|[Hcj Hl]%list_elem_of_filter]; apply elem_of_ordered in Hl as [Hl _];
        assert (mj' = mj) as -> by congruence.
      * unfold is_applied in Hu. cbn in Hu. by rewrite bool_decide_eq_true_2 in Hu.
      * apply andb_true_iff in Hcj as [_ Hcj]. cbn in Hcj. by rewrite Hd in Hcj.
Qed.
End chosen.

(** ** A run *)

Section runs.
Context {SO : SetOrder Z} (celery : Z -> string) (vars_changed : Z -> bool) (s : Z) (d : odb).
Hypothesis FRESH : forall t r, tasks d !! t = Some r -> t < next_task d.

(** The rows of tasks and modules after [chosen] were started, in that order. *)
Definition started (chosen : list Z) (d' : odb) : Prop :=
  (forall i, modules d' !! i = (fun m => if decide (i ∈ chosen) then set_status (launched_status m) m else m) <$> modules d !! i) /\
  (forall t, tasks d' !! t = if decide (next_task d <= t < next_task d + Z.of_nat (length chosen))
                             then i ← chosen !! Z.to_nat (t - next_task d); m ← modules d !! i; Some (launched_task celery i m t)
                             else tasks d !! t).

Lemma started_none d' : modules d' = modules d -> tasks d' = tasks d -> started [] d'.
Proof.
  intros Em Et. split.
  - intros i. rewrite Em. destruct (modules d !! i); [|done]. cbn. by rewrite decide_False by apply not_elem_of_nil.
  - intros t. rewrite Et, decide_False; [done|]. cbn [length]. lia.
Qed.

Lemma run_modules_spec :
  let ids := pending_ids vars_changed d s in
  let chosen := choose d [] ids in
  let r := run_modules celery vars_changed s d in
  started chosen r.1 /\
  outcome r.2 = (if bool_decide (ids = []) then RunDeployed else if bool_decide (chosen = []) then RunFailed else RunDeploying) /\
  queued_modules r.2 = Z.of_nat (length chosen).
Proof using FRESH.
  cbn zeta. unfold run_modules. set (ms := by_order (stack_modules s d)).
  set (d1 := update_stack s _ d).
  assert (E : choose d1 [] (pending_ids vars_changed d s) = choose d [] (pending_ids vars_changed d s)) by (by apply choose_ext).
  unfold pending_ids in *. fold ms in E |- *. pose proof (pending_NoDup vars_changed d s) as Hnd. unfold pending_ids in Hnd. fold ms in Hnd.
  destruct (pending_modules vars_changed ms) as [|im pending] eqn:Ep.
  { split; [by apply started_none|done]. }
  assert (F1 : forall t r, tasks d1 !! t = Some r -> t < next_task d1) by exact FRESH.
  destruct (loop_launches celery d1 F1 (im :: pending).*1 [] 0 Hnd ltac:(intros i Hi; by apply elem_of_nil in Hi)) as (Hloop & Hnd' & Hl).
  change (launch_all celery d1 []) with d1 in Hloop. rewrite Hloop. clear Hloop. rewrite E in *.
  set (Q := choose d [] (im :: pending).*1) in *.
  pose proof (launched_all celery d1 Q Hnd' Hl) as [Hm Ht _ _].
  assert (Hlen : 0 + Z.of_nat (length Q) - Z.of_nat (length (@nil Z)) = Z.of_nat (length Q)) by (cbn; lia). rewrite Hlen.
  rewrite (bool_decide_eq_false_2 ((im :: pending).*1 = [])) by done.
  destruct (Z.eqb_spec (Z.of_nat (length Q)) 0) as [Hz|Hz].
  - assert (HQ : Q = []) by (apply nil_length_inv, (inj Z.of_nat), Hz). rewrite (bool_decide_eq_true_2 (Q = [])) by done. cbn. split; [|split; [done|exact (eq_sym Hz)]]. by split.
  - rewrite (bool_decide_eq_false_2 (Q = [])) by (intros ->; done). cbn. split; [|done]. by split.
Qed.

(** C14. A run of a stack that nothing stands against starts, of the modules that are
    not applied, exactly the enabled ones that can be started, are not at work and
    have all they need applied; of the applied ones only such whose variables
    changed, and all that need none of these.  Each gets one task, in order; the
    run fails exactly when some module is left to deploy and none is started. *)
Theorem run_deploy_exact :
  let ids := pending_ids vars_changed d s in
  let chosen := choose d [] ids in
  let r := run_modules celery vars_changed s d in
  started chosen r.1 /\
  outcome r.2 = (if bool_decide (ids = []) then RunDeployed else if bool_decide (chosen = []) then RunFailed else RunDeploying) /\
  NoDup chosen /\
  forall i m, modules d !! i = Some m -> pm_stack m = Some s ->
    (pm_status m <> APPLIED -> i ∈ chosen <-> enabled m = true /\ eligible d i m) /\
    (pm_status m = APPLIED -> (i ∈ chosen -> enabled m = true /\ vars_changed i = true /\ eligible d i m) /\
       (enabled m = true -> vars_changed i = true -> eligible d i m ->
          (forall j, j ∈ pm_dependencies m -> vars_changed j = false) -> i ∈ chosen)).
Proof using FRESH.
  cbn zeta. destruct run_modules_spec as (H1 & H2 & _). split; [done|]. split; [done|]. split.
  - destruct (loop_launches celery d FRESH (pending_ids vars_changed d s) [] 0 (pending_NoDup vars_changed d s)
      ltac:(intros i Hi; by apply elem_of_nil in Hi)) as (_ & H & _). exact H.
  - intros i m Hm Hs. split; intros Ha; [by apply chosen_unapplied|by apply chosen_changed].
Qed.

(** A module that is not applied is started together with an applied module it
    depends on, when that one's variables have changed: the dependency is applied
    again while the module is deployed on its old outputs. *)
Theorem redeploy_overlaps i m j mj
    (WAITING : modules d !! i = Some m /\ pm_stack m = Some s /\ enabled m = true /\ pm_status m <> APPLIED /\ eligible d i m)
    (CHANGED : modules d !! j = Some mj /\ pm_stack mj = Some s /\ enabled mj = true /\ pm_status mj = APPLIED /\
               vars_changed j = true /\ in_flight d j = false)
    (NEEDS : j ∈ pm_dependencies m /\ pm_dependencies mj = []) :
  let d' := (run_modules celery vars_changed s d).1 in
  exists t t' r r', tasks d' !! t = Some r /\ tasks d' !! t' = Some r' /\ t_module r = Some i /\ t_module r' = Some j /\
    active_task r = true /\ active_task r' = true /\ t_type r' = Tapply.
Proof using FRESH.
  cbn zeta. destruct run_modules_spec as ((_ & Ht) & _). set (Q := choose _ _ _) in *.
  destruct WAITING as (Hm & Hs & Hen & Hna & He), CHANGED as (Hmj & Hsj & Henj & Ha & Hc & Hf), NEEDS as [_ Hd].
  assert (Hi : i ∈ Q) by (by apply (chosen_unapplied vars_changed d s i m)).
  assert (Hj : j ∈ Q).
  { apply (chosen_changed vars_changed d s j mj); try done.
    - split; [done|]. split; [by rewrite Ha|]. split; [done|]. unfold deps_ready. by rewrite Hd.
    - intros k Hk. rewrite Hd in Hk. by apply elem_of_nil in Hk. }
  assert (Htask : forall k x, modules d !! k = Some x -> k ∈ Q -> exists t, tasks (run_modules celery vars_changed s d).1 !! t = Some (launched_task celery k x t)).
  { intros k x Hx Hk. apply list_elem_of_lookup in Hk as [n Hn]. pose proof (lookup_lt_Some _ _ _ Hn) as Hlt. exists (next_task d + Z.of_nat n).
    rewrite Ht, decide_True by lia. replace (Z.to_nat (next_task d + Z.of_nat n - next_task d)) with n by lia. rewrite Hn. cbn. by rewrite Hx. }
  destruct (Htask i m Hm Hi) as [t Hti], (Htask j mj Hmj Hj) as [t' Htj].
  exists t, t', (launched_task celery i m t), (launched_task celery j mj t'). repeat split; try done. cbn. by rewrite Ha.
Qed.
End runs.

(** ** Chains *)

Section chains.
Context {SO : SetOrder Z} (celery : Z -> string) (vars_changed : Z -> bool).

(** Every module of [chain] depends on the one before it alone. *)
Definition in_chain (chain : list Z) (d : odb) : Prop :=
  forall n i j m, chain !! n = Some i -> chain !! S n = Some j -> modules d !! j = Some m -> pm_dependencies m = [i].

(** From place [k] on nothing is applied, and nothing goes on at [k]. *)
Record stalled (chain : list Z) (k : nat) (d : odb) : Prop := {
  st_chain : in_chain chain d;
  st_block : forall i m, chain !! k = Some i -> modules d !! i = Some m -> enabled m = false;
  st_after : forall n i m, (k <= n)%nat -> chain !! n = Some i -> modules d !! i = Some m -> pm_status m <> APPLIED
}.

Lemma stalled_not_ready chain k d n i m : stalled chain k d -> (k <= n)%nat -> chain !! S n = Some i -> modules d !! i = Some m ->
  deps_ready d m = false.
Proof.
  intros Hs Hn Hi Hm. assert (is_Some (chain !! n)) as [j Hj] by (apply lookup_lt_is_Some; apply lookup_lt_Some in Hi; lia).
  unfold deps_ready. rewrite (st_chain _ _ _ Hs n j i m Hj Hi Hm). cbn. rewrite andb_true_r. unfold applied.
  destruct (modules d !! j) as [mj|] eqn:Ej; [|done]. apply bool_decide_eq_false. by apply (st_after _ _ _ Hs n j mj).
Qed.

(** The stalled part is left as it is. *)
Definition left_alone (chain : list Z) (k : nat) (d d' : odb) : Prop :=
  forall n i, (k <= n)%nat -> chain !! n = Some i -> modules d' !! i = modules d !! i.

Lemma run_leaves_stalled chain k s d : (forall t r, tasks d !! t = Some r -> t < next_task d) -> stalled chain k d ->
  (forall n i m, (k <= n)%nat -> chain !! n = Some i -> modules d !! i = Some m -> pm_stack m = Some s) ->
  left_alone chain k d (run_modules celery vars_changed s d).1.
Proof.
  intros F Hs Hst n i Hn Hi. destruct (run_modules_spec celery vars_changed s d F) as ((Hm & _) & _).
  rewrite Hm. destruct (modules d !! i) as [m|] eqn:Em; [|done]. cbn. rewrite decide_False; [done|].
  intros Hin. apply (chosen_unapplied vars_changed d s i m Em) in Hin as [Hen (_ & _ & _ & Hr)];
    [|by apply (Hst n i)|by apply (st_after _ _ _ Hs n i)].
  destruct (decide (n = k)) as [->|Hne].
  - by rewrite (st_block _ _ _ Hs i m) in Hen.
  - destruct n as [|n]; [lia|]. by rewrite (stalled_not_ready chain k d n i m) in Hr by (done || lia).
Qed.

Lemma queue_deploy_modules st i m h d j : j <> i -> modules (queue_deploy celery st i m h d) !! j = modules d !! j.
Proof.
  intros Hj. unfold queue_deploy.
  assert (Hq : forall ty ms, modules (queue_task celery ty st ms i h d) !! j = modules d !! j).
  { intros ty ms. unfold queue_task. destruct (modules d !! i); [|done]. cbn. by rewrite lookup_alter_ne. }
  destruct (pm_status m); apply Hq.
Qed.

Lemma trigger_leaves_stalled chain k mid d i : stalled chain k d -> left_alone chain k d (trigger_stack_module celery mid d i).
Proof.
  intros Hs n j Hn Hj. unfold trigger_stack_module. destruct (modules d !! i) as [m|] eqn:Em; [|done].
  destruct (enabled m) eqn:Hen; cbn [negb]; [|done]. case_bool_decide; [done|]. destruct (bool_decide (mid ∈ _)); cbn [negb]; [|done].
  destruct (deps_ready d m) eqn:Hr; cbn [negb]; [|done]. destruct (in_flight d i); [done|]. apply queue_deploy_modules. intros ->.
  destruct (decide (n = k)) as [->|Hne].
  - by rewrite (st_block _ _ _ Hs i m) in Hen.
  - destruct n as [|n]; [lia|]. by rewrite (stalled_not_ready chain k d n i m) in Hr by (done || lia).
Qed.

Lemma stalled_kept chain k d d' : stalled chain k d -> left_alone chain k d d' -> in_chain chain d' -> stalled chain k d'.
Proof.
  intros [H1 H2 H3] Hl Hc. constructor; [done|..].
  - intros i m Hi Hm. rewrite (Hl k i) in Hm by done. by apply (H2 i).
  - intros n i m Hn Hi Hm. rewrite (Hl n i) in Hm by done. by apply (H3 n i).
Qed.

Lemma trigger_keeps_chain chain mid d i : in_chain chain d -> in_chain chain (trigger_stack_module celery mid d i).
Proof.
  intros Hc n a b m Ha Hb Hm. unfold trigger_stack_module in Hm.
  assert (Hq : forall x, modules d !! i = Some x -> modules (queue_deploy celery T_PENDING i x (handle_of mid d) d) !! b = Some m ->
    exists m', modules d !! b = Some m' /\ pm_dependencies m' = pm_dependencies m).
  { intros x Hx. unfold queue_deploy. assert (Hq : forall ty ms, modules (queue_task celery ty T_PENDING ms i (handle_of mid d) d) !! b = Some m ->
      exists m', modules d !! b = Some m' /\ pm_dependencies m' = pm_dependencies m).
    { intros ty ms. unfold queue_task. rewrite Hx. cbn. destruct (decide (b = i)) as [->|Hb'].
      - rewrite lookup_alter_eq, Hx. cbn. intros [= <-]. by exists x.
      - rewrite lookup_alter_ne by done. eauto. }
    destruct (pm_status x); apply Hq. }
  destruct (modules d !! i) as [x|] eqn:Ex; [|by apply (Hc n a b)].
  repeat (case_match; try by apply (Hc n a b m)).
  destruct (Hq x eq_refl Hm) as (m' & Hm' & <-). by apply (Hc n a b).
Qed.

(** A chain with a disabled module that is not applied goes no further: neither a
    run of the stack nor the trigger after any module changes a module from there
    on. *)
Theorem disabled_stalls_chain chain k s d mid
    (FRESH : forall t r, tasks d !! t = Some r -> t < next_task d)
    (STALLED : stalled chain k d)
    (STACK : forall n i m, (k <= n)%nat -> chain !! n = Some i -> modules d !! i = Some m -> pm_stack m = Some s) :
  left_alone chain k d (run_modules celery vars_changed s d).1 /\
  left_alone chain k d (_trigger_next_stack_module celery s mid d).
Proof.
  split; [by apply run_leaves_stalled|]. unfold _trigger_next_stack_module.
  destruct (deployed_modules s d) as [|i0 ids]; [by intros n i _ _|]. generalize (by_order (stack_modules s d)).*1. intros l.
  assert (H : forall d1, stalled chain k d1 -> left_alone chain k d d1 -> left_alone chain k d (foldl (trigger_stack_module celery mid) d1 l)).
  { induction l as [|i l IH]; intros d1 Hs Hl; [done|]. cbn. apply IH.
    - apply (stalled_kept _ _ d1); [done|by apply trigger_leaves_stalled|by apply trigger_keeps_chain, (st_chain _ _ _ Hs)].
    - intros n j Hn Hj. rewrite (trigger_leaves_stalled chain k mid d1 i Hs n j Hn Hj). by apply (Hl n). }
  apply H; [done|]. by intros n i _ _.
Qed.
End chains.

(** ** An example *)

Module Example.
#[local] Instance some_order : SetOrder Z := elements_order.

Definition module_row (deps : list Z) (st : ModuleStatus) (on : bool) (order : Z) : pmodule :=
  {| pm_project := 1; pm_stack := Some 9; pm_dependencies := deps; pm_status := st; deployment_error := None;
     library_module := None; enabled := on; deployment_order := order; has_outputs := bool_decide (st = APPLIED) |}.
Definition message (t : Z) : string := "m" +:+ pretty t.
Definition of_modules (ms : gmap Z pmodule) : odb :=
  {| modules := ms; tasks := ∅; stacks := {[9 := {| s_project := 1; s_status := S_PENDING; s_error := None; current_step := 0; total_steps := None |}]};
     next_task := 1 |}.
Lemma no_tasks ms t r : tasks (of_modules ms) !! t = Some r -> t < next_task (of_modules ms).
Proof. cbn. by rewrite lookup_empty. Qed.

(** The network has changed variables; the cluster on it is not deployed yet. *)
Definition changed_network : odb := of_modules {[1 := module_row [] APPLIED true 0; 2 := module_row [1] NOT_INITIALIZED true 1]}.

Lemma run_deploy_exact_witness :
  outcome (run_modules message (Z.eqb 1) 9 changed_network).2 = RunDeploying /\
  choose changed_network [] (pending_ids (Z.eqb 1) changed_network 9) = [2; 1].
Proof.
  destruct (run_deploy_exact message (Z.eqb 1) 9 changed_network (no_tasks _)) as (_ & H & _).
  split; [|vm_compute; reflexivity]. rewrite H. vm_compute. reflexivity.
Defined.

Lemma redeploy_overlaps_witness :
  exists t t' r r', tasks (run_modules message (Z.eqb 1) 9 changed_network).1 !! t = Some r /\
    tasks (run_modules message (Z.eqb 1) 9 changed_network).1 !! t' = Some r' /\ t_module r = Some 2 /\ t_module r' = Some 1 /\
    active_task r = true /\ active_task r' = true /\ t_type r' = Tapply.
Proof.
  apply (redeploy_overlaps message (Z.eqb 1) 9 changed_network (no_tasks _) 2 (module_row [1] NOT_INITIALIZED true 1) 1 (module_row [] APPLIED true 0)).
  - split; [reflexivity|]. split; [reflexivity|]. split; [reflexivity|]. split; [discriminate|].
    split; [reflexivity|]. split; [discriminate|]. split; vm_compute; reflexivity.
  - repeat split; vm_compute; reflexivity.
  - split; [apply elem_of_cons; by left|reflexivity].
Defined.

(** The second of three steps does not fit the host. *)
Definition steps_of_host : odb :=
  of_modules {[1 := module_row [] APPLIED true 0; 2 := module_row [1] NOT_INITIALIZED false 1; 3 := module_row [2] NOT_INITIALIZED true 2]}.

Lemma disabled_stalls_chain_witness :
  modules (run_modules message (fun _ => false) 9 steps_of_host).1 !! 3 = modules steps_of_host !! 3 /\
  modules (_trigger_next_stack_module message 9 1 steps_of_host) !! 3 = modules steps_of_host !! 3.
Proof.
  assert (Hs : stalled [1; 2; 3] 1 steps_of_host).
  { constructor.
    - intros [|[|[|n]]] i j m Hi Hj Hm; cbn in Hi, Hj; simplify_eq; vm_compute in Hm; by simplify_eq.
    - intros i m Hi Hm. cbn in Hi. simplify_eq. vm_compute in Hm. by simplify_eq.
    - intros [|[|[|n]]] i m Hn Hi Hm; [lia|..]; cbn in Hi; simplify_eq; vm_compute in Hm; by simplify_eq. }
  destruct (disabled_stalls_chain message (fun _ => false) [1; 2; 3] 1 9 steps_of_host 1 (no_tasks _) Hs) as [H1 H2].
  - intros [|[|[|n]]] i m Hn Hi Hm; [lia|..]; cbn in Hi; simplify_eq; vm_compute in Hm; by simplify_eq.
  - split; [apply (H1 2%nat)|apply (H2 2%nat)]; (lia || reflexivity).
Defined.
End Example.
