(* ===== verification/ModuleResolution.v ===== *)
(** * Which row of the module library a path means (services/module_resolution.py)

    One path at a time, as the deploy does, and for many paths in one query, as
    the checks do. *)

From S2P Require Import Prelude Texts Orchestration.

#[local] Open Scope string_scope.
#[local] Open Scope list_scope.
#[local] Open Scope Z_scope.
#[local] Set Default Proof Using "Type".

(** [le_deps]: the paths of the required dependencies. *)
Record lib_entry := {
  le_path : string;
  is_active : bool;
  is_latest : bool;
  last_synced : option Z;
  le_library : library;
  le_deps : list string
}.

(** The columns of [_row_order], from the last to the first of the order. *)
Definition rank (ie : Z * lib_entry) : list Z :=
  [if is_latest ie.2 then 1 else 0; match last_synced ie.2 with Some _ => 1 | None => 0 end; default 0 (last_synced ie.2); ie.1].

Definition row_order (a b : Z * lib_entry) : Prop := tuple_lt (rank a) (rank b) = false.
Definition map_order (a b : Z * lib_entry) : Prop := tuple_lt (rank b) (rank a) = false.
#[global] Instance row_order_dec : RelDecision row_order := fun a b => decide (tuple_lt (rank a) (rank b) = false).
#[global] Instance map_order_dec : RelDecision map_order := fun a b => decide (tuple_lt (rank b) (rank a) = false).

Section resolution.
Context {SO : SetOrder Z} (catalog : gmap Z lib_entry).

Definition resolve_module_row (path : string) : option (Z * lib_entry) :=
  head (merge_sort row_order (select (fun _ e => String.eqb (le_path e) path && is_active e) catalog)).

Definition resolve_module_rows_by_path (paths : list string) : gmap string (Z * lib_entry) :=
  match paths with
  | [] => ∅
  | _ => foldl (fun m ie => <[le_path ie.2 := ie]> m) ∅
           (merge_sort map_order (select (fun _ e => bool_decide (le_path e ∈ paths) && is_active e) catalog))
  end.
End resolution.

(** ** The two agree *)

Lemma rank_inj a b : rank a = rank b -> a.1 = b.1.
Proof. unfold rank. intros H. by simplify_eq. Qed.

#[global] Instance row_order_total : Total row_order.
Proof. intros a b. unfold row_order. destruct (tuple_lt_total (rank a) (rank b)) as [H|[H|H]].
  - right. destruct (tuple_lt (rank b) (rank a)) eqn:E; [|done]. pose proof (tuple_lt_trans _ _ _ H E) as F. by rewrite tuple_lt_irrefl in F.
  - left. rewrite H. apply tuple_lt_irrefl.
  - left. destruct (tuple_lt (rank a) (rank b)) eqn:E; [|done]. pose proof (tuple_lt_trans _ _ _ H E) as F. by rewrite tuple_lt_irrefl in F.
Qed.
#[global] Instance row_order_trans : Transitive row_order.
Proof.
  intros a b c. unfold row_order. intros H1 H2. destruct (tuple_lt (rank a) (rank c)) eqn:E; [|done].
  destruct (tuple_lt_total (rank b) (rank c)) as [H|[H|H]]; [by rewrite H2 in H|by rewrite <- H, H1 in E|].
  by rewrite (tuple_lt_trans _ _ _ E H) in H1.
Qed.
#[global] Instance map_order_total : Total map_order.
Proof. intros a b. destruct (total row_order b a); auto. Qed.
#[global] Instance map_order_trans : Transitive map_order.
Proof. intros a b c H1 H2. exact (transitivity (R := row_order) H2 H1). Qed.

Section laws.
Context {SO : SetOrder Z} (catalog : gmap Z lib_entry).

(** A row that is a candidate for a path, and comes before all the others. *)
Definition wins (path : string) (ie : Z * lib_entry) : Prop :=
  catalog !! ie.1 = Some ie.2 /\ le_path ie.2 = path /\ is_active ie.2 = true /\
  forall j e, catalog !! j = Some e -> le_path e = path -> is_active e = true -> tuple_lt (rank ie) (rank (j, e)) = false.

Lemma wins_unique path a b : wins path a -> wins path b -> a = b.
Proof.
  intros (Ha & Hpa & Haa & Hwa) (Hb & Hpb & Hab & Hwb). destruct a as [i e], b as [j f]. cbn [fst snd] in *.
  specialize (Hwa j f Hb Hpb Hab). specialize (Hwb i e Ha Hpa Haa).
  destruct (tuple_lt_total (rank (i, e)) (rank (j, f))) as [H|[H|H]]; [congruence| |congruence].
  apply rank_inj in H. cbn [fst] in H. subst. congruence.
Qed.

Lemma resolve_wins path ie : resolve_module_row catalog path = Some ie <-> wins path ie.
Proof.
  assert (Hsound : forall ie, resolve_module_row catalog path = Some ie -> wins path ie).
  { unfold resolve_module_row. set (l := select _ _). intros [i e] H.
    assert (Hin : forall j f, (j, f) ∈ l <-> catalog !! j = Some f /\ le_path f = path /\ is_active f = true).
    { intros j f. unfold l. rewrite elem_of_select, andb_true_iff, String.eqb_eq. tauto. }
    pose proof (Sorted_merge_sort row_order l) as Hs. pose proof (merge_sort_Permutation row_order l) as Hp.
    destruct (merge_sort row_order l) as [|x xs] eqn:E; [done|]. injection H as ->.
    apply Sorted_StronglySorted in Hs; [|apply _]. apply StronglySorted_inv in Hs as [_ Hs]. rewrite Forall_forall in Hs.
    assert (Hie : (i, e) ∈ l) by (rewrite <- Hp; apply elem_of_cons; by left). apply Hin in Hie as (H1 & H2 & H3).
    repeat split; try done. intros j f Hj Hf Ha.
    assert (Hjf : (j, f) ∈ (i, e) :: xs) by (rewrite Hp; by apply Hin). apply elem_of_cons in Hjf as [[= -> ->]|Hjf]; [apply tuple_lt_irrefl|].
    by apply (Hs (j, f)). }
  split; [apply Hsound|]. intros Hw. destruct (resolve_module_row catalog path) as [x|] eqn:E.
  - f_equal. by apply (wins_unique path); [apply Hsound|].
  - exfalso. unfold resolve_module_row in E. destruct ie as [i e]. destruct Hw as (H1 & H2 & H3 & _). cbn in *.
    assert (Hin : (i, e) ∈ merge_sort row_order (select (fun _ e => String.eqb (le_path e) path && is_active e) catalog)).
    { rewrite merge_sort_Permutation. apply elem_of_select. by rewrite H2, String.eqb_refl, H3. }
    destruct (merge_sort _ _); [by apply elem_of_nil in Hin|done].
Qed.

Lemma last_wins l path (m : gmap string (Z * lib_entry)) :
  foldl (fun m ie => <[le_path ie.2 := ie]> m) m l !! path =
  match last (filter (fun ie : Z * lib_entry => le_path ie.2 = path) l) with Some ie => Some ie | None => m !! path end.
Proof.
  revert m. induction l as [|ie l IH] using rev_ind; intros m; [done|].
  rewrite foldl_app, filter_app, filter_cons, filter_nil, last_app. cbn [foldl]. case_decide as E; cbn [last].
  - subst. apply lookup_insert_eq.
  - rewrite lookup_insert_ne by done. apply IH.
Qed.
End laws.

(** The last of a sorted list with a property comes after the others with it. *)
Lemma last_filter {A} (R : A -> A -> Prop) (P : A -> Prop) `{!forall x, Decision (P x)} (l : list A) x :
  StronglySorted R l -> last (filter P l) = Some x -> x ∈ l /\ P x /\ forall y, y ∈ l -> P y -> y = x \/ R y x.
Proof.
  intros Hs. revert x. induction Hs as [|a l Hs IH Ha]; intros x; [done|].
  rewrite Forall_forall in Ha. rewrite filter_cons. case_decide as Hp.
  - destruct (filter P l) as [|b l'] eqn:E.
    + cbn. intros [= ->]. split; [apply elem_of_cons; by left|]. split; [done|].
      intros y [->|Hy]%elem_of_cons Hpy; [by left|]. exfalso.
      assert (Hin : y ∈ filter P l) by (by apply list_elem_of_filter). rewrite E in Hin. by apply elem_of_nil in Hin.
    + intros Hl. destruct (IH x) as (H1 & H2 & H3); [done|]. split; [apply elem_of_cons; by right|]. split; [done|].
      intros y [->|Hy]%elem_of_cons Hpy; [right; by apply Ha|by apply H3].
  - intros Hl. destruct (IH x Hl) as (H1 & H2 & H3). split; [apply elem_of_cons; by right|]. split; [done|].
    intros y [->|Hy]%elem_of_cons Hpy; [done|by apply H3].
Qed.

(** The rows that the batch finds for paths are the rows the deploy takes, in
    whatever order the database answers either. *)
Theorem resolution_agrees (SO SO' : SetOrder Z) catalog paths path :
  @resolve_module_rows_by_path SO catalog paths !! path =
  if bool_decide (path ∈ paths) then @resolve_module_row SO' catalog path else None.
Proof.
  unfold resolve_module_rows_by_path. destruct paths as [|p0 paths0]; [done|]. set (paths := p0 :: paths0).
  rewrite last_wins. set (l := @select SO _ _ _).
  assert (Hin : forall j f, (j, f) ∈ merge_sort map_order l <-> catalog !! j = Some f /\ le_path f ∈ paths /\ is_active f = true).
  { intros j f. rewrite merge_sort_Permutation. unfold l. rewrite elem_of_select, andb_true_iff, bool_decide_eq_true. tauto. }
  pose proof (StronglySorted_merge_sort map_order l) as Hs.
  destruct (last (filter _ _)) as [[i e]|] eqn:E.
  - destruct (last_filter _ _ _ _ Hs E) as (Hie & Hp & Hmax). apply Hin in Hie as (Hi & Hpi & Ha). cbn [snd] in Hp. subst path.
    rewrite bool_decide_eq_true_2 by done. symmetry. apply resolve_wins. split; [done|]. split; [done|]. split; [done|].
    intros j f Hj Hf Haf. destruct (Hmax (j, f)) as [[= -> ->]|H]; [apply Hin; by rewrite Hf|done|apply tuple_lt_irrefl|exact H].
  - case_bool_decide as Hp; [|apply lookup_empty].
    destruct (@resolve_module_row SO' catalog path) as [[i e]|] eqn:Er; [|apply lookup_empty]. exfalso.
    apply resolve_wins in Er as (Hi & Hpi & Ha & _). cbn [fst snd] in *.
    assert (Hf : (i, e) ∈ filter (fun ie : Z * lib_entry => le_path ie.2 = path) (merge_sort map_order l)).
    { apply list_elem_of_filter. split; [done|]. apply Hin. by rewrite Hpi. }
    apply last_None in E. rewrite E in Hf. by apply elem_of_nil in Hf.
Qed.
