(* ===== verification/StackCreate.v ===== *)
(** * Preparing a stack (services/stack_deployment_service.py [deploy_stack])

    The modules of a stack made from its template: their variables, the layout of
    an AWS network, the rows that are added, their dependencies, and for bare-metal
    stacks the modules taken over, disabled and put in a row.  The prerequisites
    are the argument of StackRun.v; the rows of Orchestration.v have a side table
    for the columns of a module that only this part reads. *)

From Stdlib Require Import Ascii.
From S2P Require Import Prelude Texts PyText ModuleState TmfifoIpam Orchestration DestroyChain DeployChain ProjectContext Variables ModuleResolution StackRun.

#[local] Open Scope string_scope.
#[local] Open Scope list_scope.
#[local] Open Scope Z_scope.
#[local] Set Default Proof Using "Type".

(** ** Rows *)

(** [md_path]: empty when there is none. *)
Record module_def := { md_path : string; md_required : bool; md_variables : vars }.
Record stack_template := {
  t_bare_metal : bool;          (** [category == "bare-metal"] *)
  t_modules : list module_def;
  platform_defaults : gmap string vars
}.
(** [si_variables]: a dict in the order of its insertion. *)
Record instance := {
  si_template : option stack_template;
  si_variables : list (string * json);
  si_cloud_provider : option string
}.
Record mside := { path_in_project : string; overrides : vars; m_outputs : option vars; m_catalog_path : option string }.
(** [m_catalog_path], [le_deps] of the library row: what the relationship to the
    library answers. *)
Record sdb := {
  orch : odb;
  side : gmap Z mside;
  catalog : gmap Z lib_entry;
  row_deps : gmap Z (list string);   (** the required dependencies of a module's library row *)
  topologies : gmap Z (option string);
  defaults_of : gmap Z vars          (** [project_variables] of a project *)
}.
Definition set_orch (o : odb) (d : sdb) : sdb :=
  {| orch := o; side := side d; catalog := catalog d; row_deps := row_deps d; topologies := topologies d; defaults_of := defaults_of d |}.
Definition set_side (f : gmap Z mside -> gmap Z mside) (d : sdb) : sdb :=
  {| orch := orch d; side := f (side d); catalog := catalog d; row_deps := row_deps d; topologies := topologies d; defaults_of := defaults_of d |}.
Definition set_defaults (f : gmap Z vars -> gmap Z vars) (d : sdb) : sdb :=
  {| orch := orch d; side := side d; catalog := catalog d; row_deps := row_deps d; topologies := topologies d; defaults_of := f (defaults_of d) |}.
Definition on_module (i : Z) (f : pmodule -> pmodule) (d : sdb) : sdb := set_orch (update_module i f (orch d)) d.

Definition set_dependencies (l : list Z) (m : pmodule) : pmodule :=
  {| pm_project := pm_project m; pm_stack := pm_stack m; pm_dependencies := l; pm_status := pm_status m;
     deployment_error := deployment_error m; library_module := library_module m; enabled := enabled m;
     deployment_order := deployment_order m; has_outputs := has_outputs m |}.
Definition set_order (n : Z) (m : pmodule) : pmodule :=
  {| pm_project := pm_project m; pm_stack := pm_stack m; pm_dependencies := pm_dependencies m; pm_status := pm_status m;
     deployment_error := deployment_error m; library_module := library_module m; enabled := enabled m;
     deployment_order := n; has_outputs := has_outputs m |}.
Definition disable (m : pmodule) : pmodule :=
  {| pm_project := pm_project m; pm_stack := pm_stack m; pm_dependencies := pm_dependencies m; pm_status := pm_status m;
     deployment_error := deployment_error m; library_module := library_module m; enabled := false;
     deployment_order := deployment_order m; has_outputs := has_outputs m |}.

(** ** The layout of an AWS network *)

Definition AWS_VPC_SUBNET_VAR_NAMES : list string :=
  ["public_subnet_cidr"; "private_external_subnet_a_cidr"; "private_external_subnet_b_cidr";
   "private_internal_subnet_a_cidr"; "private_internal_subnet_b_cidr"].
Definition required_indexes : list Z := [1; 10; 11; 20; 21].

(** [ip_network(v, strict=False)] of a value of a dict; numbers are addresses. *)
Definition network_of (v : json) : option Ip.net :=
  match v with
  | JStr s => Ip.ip_network false s
  | JInt n => if (0 <=? n) && (n <? 2 ^ 32) then Some {| Ip.n_addr := n; Ip.n_prefix := 32 |} else None
  | JBool b => Some {| Ip.n_addr := if b then 1 else 0; Ip.n_prefix := 32 |}
  | _ => None
  end.

Definition child (net : Ip.net) (prefix i : Z) : Ip.net :=
  {| Ip.n_addr := Ip.n_addr net + i * 2 ^ (32 - prefix); Ip.n_prefix := prefix |}.
Definition derived_networks (net : Ip.net) : list Ip.net :=
  let target_prefix := Z.min (Z.max 24 (Ip.n_prefix net + 5)) 28 in
  child net target_prefix <$> required_indexes.

(** [None]: a [ValueError]. *)
Definition _derive_aws_vpc_subnet_defaults (vpc_cidr : json) : option (list (string * string)) :=
  network ← network_of vpc_cidr;
  if 23 <? Ip.n_prefix network then None
  else Some (zip AWS_VPC_SUBNET_VAR_NAMES (Ip.show_net <$> derived_networks network)).

(** [a.subnet_of(b)] *)
Definition subnet_of (a b : Ip.net) : bool :=
  (Ip.n_addr b <=? Ip.n_addr a) && (Ip.n_addr a + Ip.size a <=? Ip.n_addr b + Ip.size b).
Definition in_vpc (vpc : Ip.net) (v : json) : bool := match network_of v with Some n => subnet_of n vpc | None => false end.

Fixpoint normalize_subnets (vpc : Ip.net) (explicit : list string) (derived : list (string * string)) (final : vars) : option vars :=
  match derived with
  | [] => Some final
  | (key, cidr) :: derived =>
      match final !! key with
      | Some v =>
          if negb (truthy v) then normalize_subnets vpc explicit derived (<[key := JStr cidr]> final)
          else if in_vpc vpc v then normalize_subnets vpc explicit derived final
          else if bool_decide (key ∈ explicit) then None
          else normalize_subnets vpc explicit derived (<[key := JStr cidr]> final)
      | None => normalize_subnets vpc explicit derived (<[key := JStr cidr]> final)
      end
  end.
Definition _normalize_aws_vpc_subnet_cidrs (module_path : string) (final : vars) (explicit : list string) : option vars :=
  if negb (String.eqb module_path "infra/aws/vpc") then Some final
  else
    match final !! "vpc_cidr" with
    | Some cidr =>
        if negb (truthy cidr) then Some final
        else
          vpc ← network_of cidr;
          derived ← _derive_aws_vpc_subnet_defaults cidr;
          normalize_subnets vpc explicit derived final
    | None => Some final
    end.

(** ** The variables of a module *)

Definition _MANAGED_CLOUD_PROFILE_MAP : list (string * string) :=
  [("eks", "eks"); ("aws", "eks"); ("aks", "aks"); ("azure", "aks"); ("gke", "gke"); ("gcp", "gke"); ("roks", "roks"); ("ibm", "roks")].
Definition _ONPREM_PROVIDER_PROFILE_MAP : list (string * string) :=
  [("on-prem", "generic_onprem"); ("onprem", "generic_onprem"); ("baremetal", "generic_onprem"); ("vmware", "generic_onprem");
   ("vsphere", "generic_onprem")].

Definition profile_key (cloud : option string) : option string :=
  if truthy_str cloud then
    let c := lower (strip (default "" cloud)) in
    or_next (dget c _MANAGED_CLOUD_PROFILE_MAP) (dget c _ONPREM_PROVIDER_PROFILE_MAP)
  else None.

Definition fields (d : list (string * json)) : vars := list_to_map (rev d).
(** The variables of the stack that are not of a module. *)
Definition flat (variables : list (string * json)) : list (string * json) :=
  filter (fun kv => negb (contains "/" kv.1) && match kv.2 with JObj _ => false | _ => true end = true) variables.

Definition _build_stack_module_variables (inst : instance) (t : stack_template) (module_path : string) (module_vars : vars) : option vars :=
  let platform := match profile_key (si_cloud_provider inst) ≫= (fun k => platform_defaults t !! k) with
                  | Some defaults => update defaults module_vars
                  | None => module_vars
                  end in
  match si_variables inst with
  | [] => Some platform
  | variables =>
      let specific := match dget module_path variables with Some (JObj d) => d | _ => [] end in
      let final := update (fields (flat variables)) (update (fields specific) platform) in
      _normalize_aws_vpc_subnet_cidrs module_path final ((specific.*1) ++ (flat variables).*1)
  end.

(** [_extract_stack_variable_defaults] *)
Definition stack_variable_defaults (variables : list (string * json)) : vars :=
  foldl (fun defaults (kv : string * json) =>
    match kv.2 with
    | JObj d => update (fields (filter (fun nv : string * json => match nv.2 with JObj _ => false | _ => true end = true) d)) defaults
    | v => if contains "/" kv.1 then defaults else <[kv.1 := v]> defaults
    end) ∅ variables.

Definition _persist_stack_variable_defaults (project : Z) (variables : list (string * json)) (d : sdb) : sdb :=
  match variables with
  | [] => d
  | _ =>
      let existing := default ∅ (defaults_of d !! project) in
      let before := match existing !! "variable_defaults" with Some (JObj f) => fields f | _ => ∅ end in
      set_defaults (<[project := <["variable_defaults" := JObj (map_to_list (update (stack_variable_defaults variables) before))]> existing]>) d
  end.

(** ** The rows of the modules *)

Section create.
Context {SO : SetOrder Z} (new_id : gmap Z pmodule -> Z).

Definition _stack_module_path (s : Z) (module_path : string) : string := "stack-" +:+ pretty s +:+ "/" +:+ module_path.

(** A new module: its id, and the database with it. *)
Definition add_stack_module (s project idx : Z) (module_path : string) (lib : lib_entry) (final : vars) (d : sdb) : Z * sdb :=
  let i := new_id (modules (orch d)) in
  let row := {| pm_project := project; pm_stack := Some s; pm_dependencies := []; pm_status := NOT_INITIALIZED; deployment_error := None;
                library_module := Some (le_library lib); enabled := true; deployment_order := idx; has_outputs := false |} in
  let rest := {| path_in_project := _stack_module_path s module_path; overrides := final; m_outputs := None; m_catalog_path := Some (le_path lib) |} in
  (i, {| orch := with_modules <[i := row]> (orch d); side := <[i := rest]> (side d); catalog := catalog d;
         row_deps := <[i := le_deps lib]> (row_deps d); topologies := topologies d; defaults_of := defaults_of d |}).

Definition path_of_row (d : sdb) (i : Z) : string := match side d !! i with Some x => path_in_project x | None => "" end.

(** [module_map]: a dict from paths to modules, in the order of its insertion. *)
Definition module_map : Type := list (string * Z).

(** The ids of the required dependencies that are in the stack. *)
Definition dependency_ids (mmap : module_map) (d : sdb) (i : Z) : list Z :=
  match row_deps d !! i with
  | Some deps => omap (fun p => dget p mmap) deps
  | None => []
  end.

(** ** Filling in what is missing *)

Definition id_le (a b : Z * pmodule) : Prop := a.1 <= b.1.
#[global] Instance id_le_dec : RelDecision id_le := fun a b => decide (a.1 <= b.1).
Definition by_order_id (l : list (Z * pmodule)) : list (Z * pmodule) := merge_sort order_le (merge_sort id_le l).

(** What [reconcile] answers: the message of a missing module, or a [ValueError]
    that the caller does not catch. *)
Inductive reconciled := Reconciled | MissingModule (message : string) | ValueErrorRaised.

Fixpoint backfill (s project idx : Z) (inst : instance) (t : stack_template) (defs : list module_def) (mmap : module_map) (created : list Z) (d : sdb)
    : sdb * result reconciled (module_map * list Z) :=
  match defs with
  | [] => (d, Ok (mmap, created))
  | md :: defs =>
      if String.eqb (md_path md) "" || bool_decide (is_Some (dget (md_path md) mmap)) then backfill s project (idx + 1) inst t defs mmap created d
      else if negb (md_required md) then backfill s project (idx + 1) inst t defs mmap created d
      else
        match resolve_module_row (catalog d) (md_path md) with
        | None => (d, Err (MissingModule ("Required module '" +:+ md_path md +:+ "' not found in library")))
        | Some (_, lib) =>
            match _build_stack_module_variables inst t (md_path md) (md_variables md) with
            | None => (d, Err ValueErrorRaised)
            | Some final =>
                let '(i, d) := add_stack_module s project idx (md_path md) lib final d in
                backfill s project (idx + 1) inst t defs (dset (md_path md) i mmap) (created ++ [i]) d
            end
        end
  end.

Fixpoint relink (idx : Z) (defs : list module_def) (mmap : module_map) (d : sdb) : sdb :=
  match defs with
  | [] => d
  | md :: defs =>
      relink (idx + 1) defs mmap
        (match dget (md_path md) mmap with
         | Some i => on_module i (fun m => set_dependencies (dependency_ids mmap d i) (set_order idx m)) d
         | None => d
         end)
  end.

Definition _reconcile_stack_modules_from_template (s project : Z) (inst : instance) (d : sdb) : sdb * reconciled :=
  match si_template inst with
  | None => (d, Reconciled)
  | Some t =>
      match t_modules t with
      | [] => (d, Reconciled)
      | defs =>
          let existing := by_order_id (stack_modules s (orch d)) in
          let prefix := _stack_module_path s "" in
          let mmap := foldl (fun mm (im : Z * pmodule) =>
            let p := path_of_row d im.1 in dset (default p (after_prefix prefix p)) im.1 mm) [] existing in
          match backfill s project 0 inst t defs mmap [] d with
          | (d, Err e) => (d, e)
          | (d, Ok (mmap, created)) =>
              let d := relink 0 defs mmap d in
              let total := Z.of_nat (length existing + length created) in
              let applied := Z.of_nat (length (filter (fun im => is_applied im.2 = true) existing)) in
              (set_orch (update_stack s (fun r => set_total total (set_step applied r)) (orch d)) d, Reconciled)
          end
      end
  end.

(** ** Making the modules *)

Definition verify_template_modules_present (d : sdb) (t : stack_template) : list string :=
  omap (fun md => if String.eqb (md_path md) "" then None
                  else match resolve_module_row (catalog d) (md_path md) with
                       | Some _ => None
                       | None => if md_required md then Some (md_path md) else None
                       end) (t_modules t).

(** The module of the stack with a path. *)
Definition existing_module (s project : Z) (module_path : string) (d : sdb) : option Z :=
  fst <$> head (select (fun i m => (pm_project m =? project) && Orchestration.in_stack s m && String.eqb (path_of_row d i) (_stack_module_path s module_path))
                  (modules (orch d))).

Fixpoint create_rows (s project idx : Z) (inst : instance) (t : stack_template) (defs : list module_def) (mmap : module_map) (created : list Z) (d : sdb)
    : option (module_map * list Z * sdb) :=
  match defs with
  | [] => Some (mmap, created, d)
  | md :: defs =>
      match existing_module s project (md_path md) d with
      | Some i => create_rows s project (idx + 1) inst t defs (dset (md_path md) i mmap) (created ++ [i]) d
      | None =>
          match resolve_module_row (catalog d) (md_path md) with
          | None => create_rows s project (idx + 1) inst t defs mmap created d
          | Some (_, lib) =>
              final ← _build_stack_module_variables inst t (md_path md) (md_variables md);
              let d := _persist_stack_variable_defaults project (si_variables inst) d in
              let '(i, d) := add_stack_module s project idx (md_path md) lib final d in
              create_rows s project (idx + 1) inst t defs (dset (md_path md) i mmap) (created ++ [i]) d
          end
      end
  end.

(** [path.split("/", 1)] of the module of a stack. *)
Definition path_in_stack (p : string) : option string :=
  match partition "/"%char p with
  | Some (a, b) => match after_prefix "stack-" a with Some _ => Some b | None => None end
  | None => None
  end.

Definition previous_applied (s project : Z) (d : sdb) : list (string * Z) :=
  foldl (fun prev (im : Z * pmodule) =>
    match path_in_stack (path_of_row d im.1) with
    | Some p => match dget p prev with Some _ => prev | None => dset p im.1 prev end
    | None => prev
    end) []
    (select (fun _ m => (pm_project m =? project) && match pm_stack m with Some k => negb (k =? s) | None => false end && is_applied m)
       (modules (orch d))).

Definition outputs_of (d : sdb) (i : Z) : option vars := side d !! i ≫= m_outputs.
Definition give_outputs (o : vars) (x : mside) : mside :=
  {| path_in_project := path_in_project x; overrides := overrides x; m_outputs := Some o; m_catalog_path := m_catalog_path x |}.

Definition _pre_mark_applied_modules (s project : Z) (mmap : module_map) (d : sdb) : sdb :=
  let previous := previous_applied s project d in
  foldl (fun d (pi : string * Z) =>
    match modules (orch d) !! pi.2, dget pi.1 previous ≫= outputs_of d with
    | Some m, Some outs =>
        if bool_decide (pm_status m = NOT_INITIALIZED)
        then set_side (alter (give_outputs outs) pi.2) (on_module pi.2 (fun m => set_outputs true (set_status APPLIED m)) d)
        else d
    | _, _ => d
    end) d mmap.

Definition _TOPOLOGY_MODULE_MAP : list (string * list string) :=
  [("regular", ["bare-metal/set-nic-mode"]);
   ("bf3", ["bare-metal/stage-vf-netplan"; "bare-metal/install-fallback-timer"]);
   ("bf3_ipmi", ["bare-metal/set-nic-mode"; "bare-metal/deposit-phase-c"; "bare-metal/power-cycle-bmc"; "bare-metal/wait-connectivity"]);
   ("bmc", ["bare-metal/stage-vf-netplan"; "bare-metal/deposit-phase-c"; "bare-metal/power-cycle-bmc"; "bare-metal/wait-connectivity"]);
   ("dual_dpu_obmc", [])].

Definition host_of_stack (inst : instance) (mmap : module_map) (d : sdb) : option json :=
  let id (o : option json) := v ← o; if truthy v then Some v else None in
  or_next (id (dget "bare_metal_host_id" (si_variables inst)))
    (head (omap (fun pi : string * Z => id (side d !! pi.2 ≫= fun x => overrides x !! "bare_metal_host_id")) mmap)).

(** The modules that the topology of the host has no use for are disabled; [None]:
    the id of the host is no number. *)
Definition _auto_select_topology_modules (inst : instance) (t : stack_template) (created : list Z) (mmap : module_map) (d : sdb) : option sdb :=
  match host_of_stack inst mmap d with
  | None => Some d
  | Some v =>
      host ← match v with JInt n => Some n | JBool b => Some (if b then 1 else 0) | JStr x => py_int x | _ => None end;
      match topologies d !! host with
      | Some (Some topology) =>
          if String.eqb topology "" then Some d
          else
            let enabled_optionals := default [] (dget (lower topology) _TOPOLOGY_MODULE_MAP) in
            let unused (i : Z) :=
              match side d !! i ≫= m_catalog_path with
              | Some p =>
                  bool_decide (after_prefix "bare-metal/" p <> None)
                  && existsb (fun md => String.eqb (md_path md) p && negb (md_required md)) (t_modules t)
                  && negb (bool_decide (p ∈ enabled_optionals))
              | None => false
              end in
            Some (foldl (fun d i => if unused i then on_module i disable d else d) d created)
      | _ => Some d
      end
  end.

Definition link_dependencies (mmap : module_map) (created : list Z) (d : sdb) : sdb :=
  foldl (fun d i => on_module i (set_dependencies (dependency_ids mmap d i)) d) d created.

(** [sorted(created, key=deployment_order or 0)] *)
Definition template_order (d : sdb) (created : list Z) : list Z :=
  (merge_sort order_le (omap (fun i => (fun m => (i, m)) <$> modules (orch d) !! i) created)).*1.
Fixpoint chain_from (before : option Z) (l : list Z) (d : sdb) : sdb :=
  match l with
  | [] => d
  | i :: l => chain_from (Some i) l (on_module i (set_dependencies (match before with Some p => [p] | None => [] end)) d)
  end.
Definition _enforce_sequential_chain (created : list Z) (d : sdb) : sdb := chain_from None (template_order d created) d.

(** The modules that are made, or why none is; a failure undoes all of it. *)
Inductive create_failure := NoModulesDefined | RequiredMissing (paths : list string) | CreateFailed.
Definition create_project_modules_from_template (s project : Z) (inst : instance) (d : sdb) : sdb * result create_failure (list Z) :=
  match si_template inst with
  | None => (d, Err NoModulesDefined)
  | Some t =>
      if bool_decide (length (t_modules t) = 0%nat) then (d, Err NoModulesDefined)
      else
        match verify_template_modules_present d t with
        | [] =>
            match create_rows s project 0 inst t (t_modules t) [] [] d with
            | None => (d, Err CreateFailed)
            | Some (mmap, created, d1) =>
                let selected := if t_bare_metal t then
                                  _auto_select_topology_modules inst t created mmap (_pre_mark_applied_modules s project mmap d1)
                                else Some d1 in
                match selected with
                | None => (d, Err CreateFailed)
                | Some d2 =>
                    let linked := link_dependencies mmap created d2 in
                    let chained := if t_bare_metal t then _enforce_sequential_chain created linked else linked in
                    (set_orch (update_stack s (fun r => set_total (Z.of_nat (length created)) (set_step 0 r)) (orch chained)) chained, Ok created)
                end
            end
        | paths => (d, Err (RequiredMissing paths))
        end
  end.

(** ** The request *)

(** The reference the library was synced from, and the text of an exception. *)
Context (git_ref why : string).

Inductive prepare_answer :=
| AlreadyDeploying | BeingDestroyed | ReadyForRedeploy | PrerequisitesFailed
| BackfillFailed (message : string) | InvalidVariables | NotCreated (reason : create_failure) | NoModulesCreated
| Prepared (count : Z).

Definition fail_stack (s : Z) (message : string) (d : sdb) : sdb :=
  set_orch (update_stack s (fun r => set_stack_error (Some message) (set_stack_status S_FAILED r)) (orch d)) d.
Definition failure_message (e : create_failure) : string :=
  match e with
  | NoModulesDefined => "Stack template has no modules defined"
  | RequiredMissing paths =>
      "Required modules missing from catalog (synced from " +:+ git_ref +:+ "): " +:+ join ", " paths
      +:+ ". Re-sync the module library or check the catalog branch — deploy blocked so no partial stack is applied."
  | CreateFailed => "Failed to create ProjectModules: " +:+ why
  end.

(** After the checks.  What is flushed but not committed when a [ValueError] leaves is
    undone. *)
Definition prepare_modules (inst : instance) (s project : Z) (d : sdb) : sdb * prepare_answer :=
  let applied := Z.of_nat (length (filter (fun im => is_applied im.2 = true) (stack_modules s (orch d)))) in
  let d0 := set_orch (update_stack s (set_step applied) (orch d)) d in
  match _reconcile_stack_modules_from_template s project inst d0 with
  | (_, ValueErrorRaised) => (d, InvalidVariables)
  | (d1, MissingModule message) => (fail_stack s message d1, BackfillFailed message)
  | (d1, Reconciled) =>
      let d1 := set_orch (update_stack s (fun r => set_stack_error None (set_stack_status S_PENDING r)) (orch d1)) d1 in
      match create_project_modules_from_template s project inst d1 with
      | (d2, Err e) => (fail_stack s (failure_message e) d2, NotCreated e)
      | (d2, Ok []) => (fail_stack s "No modules created from template" d2, NoModulesCreated)
      | (d2, Ok created) => (d2, Prepared (Z.of_nat (length created)))
      end
  end.

Definition deploy_stack (prereqs : prereq_report) (inst : instance) (s : Z) (d : sdb) : sdb * prepare_answer :=
  match stacks (orch d) !! s with
  | None => (d, PrerequisitesFailed)   (* not reached: the caller has the row *)
  | Some st =>
      match s_status st with
      | S_DEPLOYING => (d, AlreadyDeploying)
      | S_DESTROYING => (d, BeingDestroyed)
      | S_DEPLOYED => (d, ReadyForRedeploy)
      | _ =>
          if bool_decide (is_Some (si_template inst)) && (missing_secrets prereqs || blocking_preflight prereqs) then (d, PrerequisitesFailed)
          else prepare_modules inst s (s_project st) d
      end
  end.
End create.
