(* ===== verification/StackLaws.v ===== *)
(** * The laws of preparing a stack (StackCreate.v)

    The layout of an AWS network, the completeness of a prepared stack, the chain
    of a bare-metal stack, and what its variables do to those of the project. *)

From Stdlib Require Import Ascii.
From S2P Require Import Prelude Texts PyText ModuleState TmfifoIpam Orchestration DestroyChain DestroyRun DeployChain DeployRun ProjectContext Variables ModuleResolution StackRun StackCreate.

#[local] Open Scope string_scope.
#[local] Open Scope list_scope.
#[local] Open Scope Z_scope.
#[local] Set Default Proof Using "Type".

(** ** The layout of an AWS network *)

Definition disjoint_nets (a b : Ip.net) : Prop := forall x, Ip.contains a x = true -> Ip.contains b x = true -> False.
Definition within (vpc n : Ip.net) : Prop := forall x, Ip.contains n x = true -> Ip.contains vpc x = true.

Lemma subnet_of_within a b : subnet_of a b = true -> within b a.
Proof. unfold subnet_of, within, Ip.contains. intros H x Hx. apply andb_true_iff in H as [H1 H2], Hx as [H3 H4]. apply andb_true_iff. lia. Qed.

Lemma single_wf a : 0 <= a < 2 ^ 32 -> Ip.wf {| Ip.n_addr := a; Ip.n_prefix := 32 |}.
Proof. intros H. unfold Ip.wf, Ip.size. cbn. repeat split; try lia. apply Z.divide_1_l. Qed.

Lemma strict_lax s n : Ip.ip_network true s = Some n -> Ip.ip_network false s = Some n.
Proof.
  unfold Ip.ip_network. destruct (match Ip.split_on "/"%char s with [a] => _ | _ => _ end) as [[a m]|]; [|done]. cbn.
  destruct (Ip.parse_ip a); [|done]. cbn. destruct (Ip.parse_mask m); [|done]. cbn. by destruct (negb _).
Qed.
Lemma show_net_lax n : Ip.wf n -> Ip.ip_network false (Ip.show_net n) = Some n.
Proof. intros H. by apply strict_lax, Ip.show_net_roundtrip. Qed.

Lemma network_of_wf v n : network_of v = Some n -> Ip.wf n.
Proof.
  destruct v as [| [|] | n' | s | | ]; cbn; try discriminate.
  - intros [= <-]. by apply single_wf.
  - intros [= <-]. by apply single_wf.
  - destruct (_ && _) eqn:E; [|discriminate]. apply andb_true_iff in E as [E1 E2]. intros [= <-].
    apply single_wf. lia.
  - apply Ip.ip_network_wf.
Qed.

Definition target_prefix (net : Ip.net) : Z := Z.min (Z.max 24 (Ip.n_prefix net + 5)) 28.

Lemma child_inside net i : Ip.wf net -> Ip.n_prefix net <= 23 -> 0 <= i < 32 ->
  Ip.wf (child net (target_prefix net) i) /\ subnet_of (child net (target_prefix net) i) net = true.
Proof.
  intros (Hp & Ha & Hs & k & Hk) Hle Hi. unfold target_prefix, child, Ip.wf, subnet_of, Ip.size in *. cbn [Ip.n_addr Ip.n_prefix] in *.
  set (t := Z.min (Z.max 24 (Ip.n_prefix net + 5)) 28). assert (Ht : 24 <= t <= 28 /\ Ip.n_prefix net + 5 <= t) by lia.
  assert (Hsz : 2 ^ (32 - Ip.n_prefix net) = 2 ^ (t - Ip.n_prefix net - 5) * 32 * 2 ^ (32 - t)).
  { change 32 with (2 ^ 5) at 2. rewrite <- !Z.pow_add_r by lia. f_equal. lia. }
  assert (0 < 2 ^ (32 - t)) by (apply Z.pow_pos_nonneg; lia).
  assert (1 <= 2 ^ (t - Ip.n_prefix net - 5)) by (pose proof (Z.pow_pos_nonneg 2 (t - Ip.n_prefix net - 5)); lia).
  set (u := 2 ^ (32 - t)) in *. set (w := 2 ^ (t - Ip.n_prefix net - 5)) in *.
  assert (Hin : i * u + u <= 2 ^ (32 - Ip.n_prefix net)) by nia.
  repeat split; try lia.
  exists (k * w * 32 + i). rewrite Hk, Hsz. ring.
Qed.

Lemma child_disjoint net p i j : 0 <= p <= 32 -> i <> j -> disjoint_nets (child net p i) (child net p j).
Proof.
  intros Hp Hij x. unfold Ip.contains, child, Ip.size. cbn. assert (0 < 2 ^ (32 - p)) by (apply Z.pow_pos_nonneg; lia).
  intros H1 H2. apply andb_true_iff in H1 as [H1 H1'], H2 as [H2 H2']. apply Z.leb_le in H1, H2. apply Z.ltb_lt in H1', H2'.
  assert (i < j \/ j < i) as [?|?] by lia; nia.
Qed.

(** C40. Five networks are derived from a VPC exactly when its prefix is at most 23:
    each is the network its text says, lies in the VPC, has a prefix between 24
    and 28, and no two of them share an address. *)
Theorem derived_layout vpc_cidr :
  match _derive_aws_vpc_subnet_defaults vpc_cidr with
  | None => forall vpc, network_of vpc_cidr = Some vpc -> 23 < Ip.n_prefix vpc
  | Some derived =>
      exists vpc nets, network_of vpc_cidr = Some vpc /\ Ip.n_prefix vpc <= 23 /\
        derived = zip AWS_VPC_SUBNET_VAR_NAMES (Ip.show_net <$> nets) /\ length nets = 5%nat /\
        (forall n, n ∈ nets -> Ip.ip_network false (Ip.show_net n) = Some n /\ within vpc n /\ 24 <= Ip.n_prefix n <= 28) /\
        (forall i j a b, nets !! i = Some a -> nets !! j = Some b -> i <> j -> disjoint_nets a b)
  end.
Proof.
  unfold _derive_aws_vpc_subnet_defaults. destruct (network_of vpc_cidr) as [vpc|] eqn:E; [|done]. cbn.
  destruct (Z.ltb_spec 23 (Ip.n_prefix vpc)) as [Hp|Hp]; [intros v [= <-]; done|].
  pose proof (network_of_wf _ _ E) as Hw. exists vpc, (derived_networks vpc). do 4 (split; [done|]). split.
  - intros n (i & -> & Hi)%list_elem_of_fmap.
    assert (Hr : 0 <= i < 32) by (unfold required_indexes in Hi; rewrite !elem_of_cons, elem_of_nil in Hi; lia).
    destruct (child_inside vpc i Hw Hp Hr) as [Hc Hs].
    split; [by apply show_net_lax|split; [by apply subnet_of_within|cbn; lia]].
  - intros i j a b Ha Hb Hij. unfold derived_networks in Ha, Hb. rewrite list_lookup_fmap in Ha, Hb.
    destruct (required_indexes !! i) as [x|] eqn:Ex; [|done]. destruct (required_indexes !! j) as [y|] eqn:Ey; [|done].
    cbn in Ha, Hb. injection Ha as <-. injection Hb as <-. apply child_disjoint; [lia|]. intros <-. apply Hij.
    by apply (NoDup_lookup required_indexes i j x ltac:(by apply (bool_decide_eq_true_1 _))).
Qed.

(** What a key of the layout becomes. *)
Definition settled (vpc : Ip.net) (given : option json) (cidr : string) : json :=
  match given with Some v => if truthy v && in_vpc vpc v then v else JStr cidr | None => JStr cidr end.
Definition outside (vpc : Ip.net) (explicit : list string) (given : option json) (key : string) : Prop :=
  key ∈ explicit /\ exists v, given = Some v /\ truthy v = true /\ in_vpc vpc v = false.

Lemma normalize_subnets_spec vpc explicit derived final : NoDup derived.*1 ->
  match normalize_subnets vpc explicit derived final with
  | None => exists key, key ∈ derived.*1 /\ outside vpc explicit (final !! key) key
  | Some f => (forall key, key ∉ derived.*1 -> f !! key = final !! key) /\
              (forall key cidr, (key, cidr) ∈ derived -> f !! key = Some (settled vpc (final !! key) cidr) /\ ~ outside vpc explicit (final !! key) key)
  end.
Proof.
  revert final. induction derived as [|[k c] l IH]; intros final Hnd.
  { cbn. split; [done|]. intros key cidr H. by apply elem_of_nil in H. }
  apply NoDup_cons in Hnd as [Hk Hnd]. cbn in Hk.
  assert (Hstep : forall f, (forall key, key <> k -> f !! key = final !! key) -> f !! k = Some (settled vpc (final !! k) c) ->
      ~ outside vpc explicit (final !! k) k ->
      match normalize_subnets vpc explicit l f with
      | None => exists key, key ∈ k :: l.*1 /\ outside vpc explicit (final !! key) key
      | Some f' => (forall key, key ∉ k :: l.*1 -> f' !! key = final !! key) /\
          (forall key cidr, (key, cidr) ∈ (k, c) :: l -> f' !! key = Some (settled vpc (final !! key) cidr) /\ ~ outside vpc explicit (final !! key) key)
      end).
  { intros f Hf Hfk Ho. specialize (IH f Hnd).
    assert (Hne : forall key, key ∈ l.*1 -> key <> k) by (intros key Hin ->; done).
    destruct (normalize_subnets vpc explicit l f) as [f'|].
    - destruct IH as [H1 H2]. split.
      + intros key [Hn Hl]%not_elem_of_cons. rewrite H1, Hf; done.
      + intros key cidr [[= -> ->]|Hin]%elem_of_cons.
        * by rewrite H1.
        * rewrite <- (Hf key); [by apply H2|]. apply Hne, list_elem_of_fmap. by exists (key, cidr).
    - destruct IH as (key & Hin & Hout). exists key. rewrite (Hf key) in Hout by (by apply Hne). split; [|done]. apply elem_of_cons. by right. }
  assert (Hset : forall f, f = <[k := JStr c]> final -> settled vpc (final !! k) c = JStr c -> ~ outside vpc explicit (final !! k) k ->
      (forall key, key <> k -> f !! key = final !! key) /\ f !! k = Some (settled vpc (final !! k) c) /\ ~ outside vpc explicit (final !! k) k).
  { intros f -> -> Ho. split; [intros key Hne; by apply lookup_insert_ne|]. split; [by apply lookup_insert_eq|done]. }
  cbn [normalize_subnets fmap list_fmap fst]. destruct (final !! k) as [v|] eqn:Ev.
  - destruct (truthy v) eqn:Et; cbn [negb].
    + destruct (in_vpc vpc v) eqn:Ein.
      * apply Hstep; [done|by cbn; rewrite Ev, Et, Ein|]. intros [_ (v' & [= <-] & _ & H)]. by rewrite Ein in H.
      * case_bool_decide as Hexp.
        { exists k. rewrite Ev. split; [apply elem_of_cons; by left|]. split; [done|]. by exists v. }
        destruct (Hset _ eq_refl) as (? & ? & ?); [by cbn; rewrite Et, Ein|by intros [? _]|]. by apply Hstep.
    + destruct (Hset _ eq_refl) as (? & ? & ?); [by cbn; rewrite Et|intros [_ (v' & [= <-] & H & _)]; by rewrite Et in H|]. by apply Hstep.
  - destruct (Hset _ eq_refl) as (? & ? & ?); [done|by intros [_ (v' & H & _)]|]. by apply Hstep.
Qed.

(** A VPC with an address range gets all of its five subnets, each in the VPC: one
    that is given and lies in it stays, every other becomes the derived one, and
    nothing else changes.  It fails exactly when the range is none, or its prefix
    is over 23 - also when all five subnets are given -, or a subnet the user gave
    lies outside.  Given subnets are not compared with the derived ones. *)
Theorem normalize_correct final explicit cidr
    (CIDR : final !! "vpc_cidr" = Some cidr /\ truthy cidr = true) :
  match _normalize_aws_vpc_subnet_cidrs "infra/aws/vpc" final explicit with
  | None => forall vpc, network_of cidr = Some vpc -> Ip.n_prefix vpc <= 23 ->
              exists key, key ∈ AWS_VPC_SUBNET_VAR_NAMES /\ outside vpc explicit (final !! key) key
  | Some f =>
      exists vpc derived, network_of cidr = Some vpc /\ Ip.n_prefix vpc <= 23 /\ _derive_aws_vpc_subnet_defaults cidr = Some derived /\
        (forall key, key ∉ AWS_VPC_SUBNET_VAR_NAMES -> f !! key = final !! key) /\
        (forall key, key ∈ AWS_VPC_SUBNET_VAR_NAMES ->
           ~ outside vpc explicit (final !! key) key /\
           exists text v, (key, text) ∈ derived /\ f !! key = Some v /\ v = settled vpc (final !! key) text /\ in_vpc vpc v = true)
  end.
Proof.
  destruct CIDR as [Hc Ht]. unfold _normalize_aws_vpc_subnet_cidrs. rewrite String.eqb_refl, Hc, Ht. cbn [negb].
  destruct (network_of cidr) as [vpc|] eqn:En; [|done]. cbn [mbind option_bind].
  destruct (_derive_aws_vpc_subnet_defaults cidr) as [derived|] eqn:Ed; cbn [mbind option_bind].
  2:{ intros v [= <-] Hp. unfold _derive_aws_vpc_subnet_defaults in Ed. rewrite En in Ed. cbn in Ed. destruct (Z.ltb_spec 23 (Ip.n_prefix vpc)); [lia|done]. }
  assert (Hd : Ip.n_prefix vpc <= 23 /\ derived = zip AWS_VPC_SUBNET_VAR_NAMES (Ip.show_net <$> derived_networks vpc)).
  { unfold _derive_aws_vpc_subnet_defaults in Ed. rewrite En in Ed. cbn [mbind option_bind] in Ed. destruct (Z.ltb_spec 23 (Ip.n_prefix vpc)); by simplify_eq. }
  destruct Hd as [Hp Hd]. assert (Hk : derived.*1 = AWS_VPC_SUBNET_VAR_NAMES) by (by rewrite Hd).
  pose proof (normalize_subnets_spec vpc explicit derived final) as H. rewrite Hk in H.
  specialize (H ltac:(by apply (bool_decide_eq_true_1 _))).
  destruct (normalize_subnets vpc explicit derived final) as [f|].
  2:{ intros v [= <-] _. done. }
  exists vpc, derived. do 3 (split; [done|]). destruct H as [H1 H2]. split; [done|]. intros key Hin.
  rewrite <- Hk in Hin. apply list_elem_of_fmap in Hin as ([k t] & -> & Hin). cbn [fst]. destruct (H2 k t Hin) as [H3 H4].
  split; [done|]. exists t, (settled vpc (final !! k) t). do 3 (split; [done|]).
  assert (Hdef : in_vpc vpc (JStr t) = true).
  { rewrite Hd in Hin. apply elem_of_zip_r in Hin. apply list_elem_of_fmap in Hin as (n & -> & (i & -> & Hi)%list_elem_of_fmap).
    assert (Hr : 0 <= i < 32) by (unfold required_indexes in Hi; rewrite !elem_of_cons, elem_of_nil in Hi; lia).
    destruct (child_inside vpc i (network_of_wf _ _ En) Hp Hr) as [Hw Hs]. unfold in_vpc. cbn [network_of]. by rewrite show_net_lax. }
  unfold settled. destruct (final !! k) as [v|]; [|done]. by destruct (truthy v), (in_vpc vpc v) eqn:?.
Qed.

(** ** The rows of a stack *)

Section rows.
Context {SO : SetOrder Z} (new_id : gmap Z pmodule -> Z) (git_ref why : string).
Hypothesis NEW : forall ms, ms !! new_id ms = None.

Definition row_in (s i : Z) (d : sdb) : Prop := exists m, modules (orch d) !! i = Some m /\ pm_stack m = Some s.
(** A module of the stack stands for the path. *)
Definition has_path (s : Z) (d : sdb) (p : string) : Prop := exists i, row_in s i d /\ path_of_row d i = _stack_module_path s p.

(** The rows of a stack are in its project, and no two have the same path. *)
Record rows_ok (s project : Z) (d : sdb) : Prop := {
  ro_project i m : modules (orch d) !! i = Some m -> pm_stack m = Some s -> pm_project m = project;
  ro_unique i j : row_in s i d -> row_in s j d -> path_of_row d i = path_of_row d j -> i = j
}.

(** Nothing that a row is found by differs. *)
Definition where_is (m : pmodule) : Z * option Z := (pm_project m, pm_stack m).
Record same_rows (d d' : sdb) : Prop := {
  sr_modules i : where_is <$> modules (orch d') !! i = where_is <$> modules (orch d) !! i;
  sr_paths i : path_of_row d' i = path_of_row d i;
  sr_catalog : catalog d' = catalog d
}.

#[global] Instance same_rows_refl : Reflexive same_rows.
Proof. by intros d. Qed.
#[global] Instance same_rows_trans : Transitive same_rows.
Proof. intros a b c [H1 H2 H3] [H4 H5 H6]. split; intros; congruence. Qed.

Lemma same_rows_in s i d d' : same_rows d d' -> row_in s i d <-> row_in s i d'.
Proof.
  intros [H _ _]. specialize (H i). unfold row_in.
  destruct (modules (orch d') !! i) as [m'|], (modules (orch d) !! i) as [m|]; cbn in H; try discriminate; [|naive_solver].
  unfold where_is in H. simplify_eq. split; intros (x & [= <-] & Hx); eexists; (split; [reflexivity|congruence]).
Qed.
Lemma same_rows_ok s project d d' : same_rows d d' -> rows_ok s project d -> rows_ok s project d'.
Proof.
  intros Hs [H1 H2]. split.
  - intros i m Hm Hst. pose proof (sr_modules _ _ Hs i) as H. rewrite Hm in H. destruct (modules (orch d) !! i) as [m0|] eqn:E; [|done].
    unfold where_is in H. cbn in H. simplify_eq. rewrite <- (H1 i m0); congruence.
  - intros i j Hi Hj. rewrite !(sr_paths _ _ Hs). apply H2; by apply (same_rows_in _ _ _ _ Hs).
Qed.
Lemma same_rows_path s p d d' : same_rows d d' -> has_path s d p <-> has_path s d' p.
Proof.
  intros Hs. unfold has_path. split; intros (i & Hi & Hp); exists i; (split; [by apply (same_rows_in _ _ _ _ Hs)|]).
  - by rewrite (sr_paths _ _ Hs).
  - by rewrite <- (sr_paths _ _ Hs).
Qed.

Lemma same_rows_foldl {A} (f : sdb -> A -> sdb) l d : (forall d x, same_rows d (f d x)) -> same_rows d (foldl f d l).
Proof. intros H. revert d. induction l as [|x l IH]; intros d; [done|]. cbn. etrans; [apply H|apply IH]. Qed.

Lemma on_module_same i f d : (forall m, where_is (f m) = where_is m) -> same_rows d (on_module i f d).
Proof.
  intros Hf. split; try done. intros j. cbn. destruct (decide (j = i)) as [->|Hj].
  - rewrite lookup_alter_eq, <- option_fmap_compose. apply option_fmap_ext. exact Hf.
  - by rewrite lookup_alter_ne.
Qed.
Lemma set_stacks_same s f d : same_rows d (set_orch (update_stack s f (orch d)) d).
Proof. by split. Qed.
Lemma fail_stack_same s e d : same_rows d (fail_stack s e d).
Proof. by split. Qed.

(** A module of the stack for a path that had none. *)
Lemma add_stack_module_ok s project idx p lib final d : rows_ok s project d -> ~ has_path s d p ->
  let '(i, d') := add_stack_module new_id s project idx p lib final d in
  rows_ok s project d' /\ row_in s i d' /\ path_of_row d' i = _stack_module_path s p /\ catalog d' = catalog d /\
  forall q, has_path s d' q <-> _stack_module_path s q = _stack_module_path s p \/ has_path s d q.
Proof using NEW.
  intros [H1 H2] Hp. unfold add_stack_module. set (i := new_id _). pose proof (NEW (modules (orch d))) as Hi. fold i in Hi.
  set (d' := Build_sdb _ _ _ _ _ _). set (row := Build_pmodule _ _ _ _ _ _ _ _ _) in d'.
  assert (Hold : forall j, j <> i -> modules (orch d') !! j = modules (orch d) !! j /\ path_of_row d' j = path_of_row d j).
  { intros j Hj. unfold path_of_row. cbn. rewrite !lookup_insert_ne; done. }
  assert (Hnew : modules (orch d') !! i = Some row) by apply lookup_insert_eq.
  assert (Hpi : path_of_row d' i = _stack_module_path s p) by (unfold path_of_row; cbn; by rewrite lookup_insert_eq).
  assert (Hin : forall j, row_in s j d' <-> j = i \/ row_in s j d).
  { intros j. unfold row_in. destruct (decide (j = i)) as [->|Hj].
    - split; [by left|]. intros _. by exists row.
    - destruct (Hold j Hj) as [-> _]. naive_solver. }
  assert (Hne : forall j, row_in s j d -> j <> i) by (intros j (m & Hm & _) ->; congruence).
  split; [|split; [by apply Hin; left|split; [done|split; [done|]]]].
  - split.
    + intros j m Hm Hs. destruct (decide (j = i)) as [->|Hj]; [by rewrite Hnew in Hm; injection Hm as <-|].
      rewrite (proj1 (Hold j Hj)) in Hm. by apply (H1 j).
    + intros j k [->|Hj]%Hin [->|Hk]%Hin; [done|..].
      * rewrite Hpi, (proj2 (Hold k (Hne k Hk))). intros E. exfalso. apply Hp. by exists k.
      * rewrite Hpi, (proj2 (Hold j (Hne j Hj))). intros E. exfalso. apply Hp. by exists j.
      * rewrite (proj2 (Hold j (Hne j Hj))), (proj2 (Hold k (Hne k Hk))). by apply H2.
  - intros q. split.
    + intros (j & [->|Hj]%Hin & Hq); [left; congruence|right]. exists j. by rewrite (proj2 (Hold j (Hne j Hj))) in Hq.
    + intros [Hq|(j & Hj & Hq)]; [exists i|exists j]; (split; [apply Hin; auto|]); [congruence|]. by rewrite (proj2 (Hold j (Hne j Hj))).
Qed.

(** Every path of a module of the stack is a key. *)
Definition covers (s : Z) (d : sdb) (mmap : module_map) : Prop := forall p, has_path s d p -> p ∈ mmap.*1.

Lemma after_own_prefix (p t : string) : after_prefix p (p +:+ t) = Some t.
Proof. induction p as [|c p IH]; [by destruct t|]. change (String c p +:+ t) with (String c (p +:+ t)). cbn [after_prefix]. by rewrite Ascii.eqb_refl. Qed.
Lemma module_path_split s p : _stack_module_path s p = _stack_module_path s "" +:+ p.
Proof. unfold _stack_module_path. by rewrite !append_assoc. Qed.
Lemma module_path_inj s p q : _stack_module_path s p = _stack_module_path s q -> p = q.
Proof. rewrite (module_path_split s p), (module_path_split s q). intros H. apply (f_equal (after_prefix (_stack_module_path s ""))) in H. by rewrite !after_own_prefix in H; injection H. Qed.

Lemma backfill_ok s project inst t defs : forall idx mmap created d, rows_ok s project d -> covers s d mmap ->
  let '(d', r) := backfill new_id s project idx inst t defs mmap created d in
  rows_ok s project d' /\ catalog d' = catalog d /\ forall p, has_path s d p -> has_path s d' p.
Proof using NEW.
  induction defs as [|md defs IH]; intros idx mmap created d Hok Hc; [done|]. cbn [backfill].
  destruct (_ || _) eqn:Ek; [by apply IH|]. destruct (negb (md_required md)); [by apply IH|].
  destruct (resolve_module_row _ _) as [[k lib]|]; [|done]. destruct (_build_stack_module_variables _ _ _ _) as [final|]; [|done].
  apply orb_false_iff in Ek as [_ Ek]. apply bool_decide_eq_false in Ek.
  assert (Hp : ~ has_path s d (md_path md)).
  { intros H. apply Hc in H. destruct (dget (md_path md) mmap) eqn:E; [by apply Ek|]. by apply dget_None in E. }
  pose proof (add_stack_module_ok s project idx (md_path md) lib final d Hok Hp) as Ha.
  destruct (add_stack_module _ _ _ _ _ _ _ _) as [i d1]. destruct Ha as (Hok1 & _ & _ & Hcat & Hh).
  assert (Hc1 : covers s d1 (dset (md_path md) i mmap)).
  { intros q Hq. apply dset_keys. apply Hh in Hq as [Hq|Hq]; [left; by apply module_path_inj in Hq|right; by apply Hc]. }
  specialize (IH (idx + 1) (dset (md_path md) i mmap) (created ++ [i]) d1 Hok1 Hc1).
  destruct (backfill _ _ _ _ _ _ _ _ _ _) as [d2 r]. destruct IH as (H1 & H2 & H3). split; [done|]. split; [congruence|].
  intros p Hpp. apply H3, Hh. by right.
Qed.

Lemma relink_same defs : forall idx mmap d, same_rows d (relink idx defs mmap d).
Proof.
  induction defs as [|md defs IH]; intros idx mmap d; [done|]. cbn [relink]. etrans; [|apply IH].
  destruct (dget _ _); [|done]. by apply on_module_same.
Qed.

Lemma existing_covers s d l : (forall i, row_in s i d -> i ∈ l.*1) ->
  forall p, has_path s d p -> p ∈ (foldl (fun mm (im : Z * pmodule) =>
    let p := path_of_row d im.1 in dset (default p (after_prefix (_stack_module_path s "") p)) im.1 mm) [] l).*1.
Proof.
  intros Hl p (i & Hi & Hp). specialize (Hl i Hi).
  assert (H : forall l mm, (i ∈ l.*1 \/ p ∈ mm.*1) -> p ∈ (foldl (fun mm (im : Z * pmodule) =>
    let p := path_of_row d im.1 in dset (default p (after_prefix (_stack_module_path s "") p)) im.1 mm) mm l).*1).
  { clear l Hl. induction l as [|im l IH]; intros mm [H|H]; cbn; try done.
    - by apply elem_of_nil in H.
    - apply IH. apply elem_of_cons in H as [->|H]; [right|by left]. apply dset_keys. left.
      by rewrite Hp, (module_path_split s p), after_own_prefix.
    - apply IH. right. apply dset_keys. by right. }
  apply H. by left.
Qed.

Lemma reconcile_ok s project inst d : rows_ok s project d ->
  let '(d', r) := _reconcile_stack_modules_from_template new_id s project inst d in
  rows_ok s project d' /\ catalog d' = catalog d.
Proof using NEW.
  intros Hok. unfold _reconcile_stack_modules_from_template.
  destruct (si_template inst) as [t|]; [|done]. destruct (t_modules t) as [|md defs]; [done|]. cbn zeta.
  set (existing := by_order_id _). set (mmap := foldl _ [] existing).
  assert (Hc : covers s d mmap).
  { intros p Hp. apply existing_covers; [|done]. intros i (m & Hm & Hs). apply list_elem_of_fmap. exists (i, m). split; [done|].
    unfold existing, by_order_id. rewrite !merge_sort_Permutation. apply elem_of_select. split; [done|]. by apply bool_decide_eq_true. }
  pose proof (backfill_ok s project inst t (md :: defs) 0 mmap [] d Hok Hc) as H.
  destruct (backfill _ _ _ _ _ _ _ _ _ _) as [d1 [[mm created]|e]]; destruct H as (H1 & H2 & _).
  - split; [|by rewrite <- H2, <- (sr_catalog _ _ (relink_same (md :: defs) 0 mm d1))].
    eapply same_rows_ok; [|exact H1]. etrans; [apply relink_same|apply set_stacks_same].
  - by split.
Qed.

Lemma existing_module_spec s project p d : rows_ok s project d ->
  match existing_module s project p d with
  | Some i => row_in s i d /\ path_of_row d i = _stack_module_path s p
  | None => ~ has_path s d p
  end.
Proof.
  intros Hok. unfold existing_module. set (l := select _ _).
  assert (Hl : forall i m, (i, m) ∈ l <-> modules (orch d) !! i = Some m /\ pm_project m = project /\ pm_stack m = Some s /\ path_of_row d i = _stack_module_path s p).
  { intros i m. unfold l. rewrite elem_of_select, !andb_true_iff, Z.eqb_eq, String.eqb_eq. unfold Orchestration.in_stack. rewrite bool_decide_eq_true. tauto. }
  destruct l as [|[i m] l].
  - intros (i & (m & Hm & Hs) & Hp). apply (not_elem_of_nil (i, m)), Hl. split; [done|]. split; [by apply (ro_project _ _ _ Hok i)|done].
  - cbn. destruct (proj1 (Hl i m)) as (? & ? & ? & ?); [apply elem_of_cons; by left|]. split; [by exists m|done].
Qed.

Lemma persist_same project vs d : same_rows d (_persist_stack_variable_defaults project vs d).
Proof. unfold _persist_stack_variable_defaults. destruct vs; by split. Qed.

(** The modules made so far: of the stack, for the paths [done]. *)
Definition made (s : Z) (paths : list string) (created : list Z) (d : sdb) : Prop :=
  NoDup created /\ forall i, i ∈ created -> row_in s i d /\ exists p, p ∈ paths /\ path_of_row d i = _stack_module_path s p.

Lemma made_same s paths created d d' : same_rows d d' -> made s paths created d -> made s paths created d'.
Proof.
  intros Hs [H1 H2]. split; [done|]. intros i Hi. destruct (H2 i Hi) as [Hr (p & Hp & Hpp)].
  split; [by apply (same_rows_in _ _ _ _ Hs)|]. exists p. by rewrite (sr_paths _ _ Hs).
Qed.

Lemma made_next s paths p created i d : made s paths created d -> p ∉ paths -> row_in s i d -> path_of_row d i = _stack_module_path s p ->
  made s (paths ++ [p]) (created ++ [i]) d.
Proof.
  intros [H1 H2] Hp Hr Hi. split.
  - apply NoDup_app. split; [done|]. split; [|apply NoDup_singleton]. intros j Hj ->%list_elem_of_singleton.
    destruct (H2 i Hj) as [_ (q & Hq & Hqq)]. rewrite Hi in Hqq. apply module_path_inj in Hqq. by subst.
  - intros j [Hj| ->%list_elem_of_singleton]%elem_of_app.
    + destruct (H2 j Hj) as [Hrj (q & Hq & Hqq)]. split; [done|]. exists q. split; [apply elem_of_app; by left|done].
    + split; [done|]. exists p. split; [apply elem_of_app; right; by apply list_elem_of_singleton|done].
Qed.

Lemma made_more s paths paths' created d : paths ⊆ paths' -> made s paths created d -> made s paths' created d.
Proof. intros Hp [H1 H2]. split; [done|]. intros i Hi. destruct (H2 i Hi) as [? (q & Hq & ?)]. split; [done|]. exists q. split; [by apply Hp|done]. Qed.

Lemma add_stack_module_made s project idx p lib final d paths created : rows_ok s project d -> made s paths created d ->
  let '(_, d') := add_stack_module new_id s project idx p lib final d in made s paths created d'.
Proof using NEW.
  intros _ [H1 H2]. unfold add_stack_module. set (i := new_id _). split; [done|]. intros j Hj. destruct (H2 j Hj) as [(m & Hm & Hs) (q & Hq & Hqq)].
  assert (Hji : j <> i) by (intros ->; unfold i in Hm; by rewrite NEW in Hm). split.
  - exists m. cbn. by rewrite lookup_insert_ne.
  - exists q. split; [done|]. rewrite <- Hqq. unfold path_of_row. cbn. by rewrite lookup_insert_ne.
Qed.

Lemma create_rows_ok s project inst t defs : forall idx mmap created d paths mm created' d',
  rows_ok s project d -> made s paths created d -> NoDup (paths ++ (md_path <$> defs)) ->
  create_rows new_id s project idx inst t defs mmap created d = Some (mm, created', d') ->
  rows_ok s project d' /\ catalog d' = catalog d /\ (forall p, has_path s d p -> has_path s d' p) /\
  made s (paths ++ (md_path <$> defs)) created' d' /\
  forall md, md ∈ defs -> is_Some (resolve_module_row (catalog d) (md_path md)) -> has_path s d' (md_path md).
Proof using NEW.
  induction defs as [|md defs IH]; intros idx mmap created d paths mm created' d' Hok Hmade Hnd.
  { cbn. intros [= <- <- <-]. rewrite app_nil_r. do 4 (split; [done|]). intros md H. by apply elem_of_nil in H. }
  cbn [create_rows fmap list_fmap] in *. rewrite (cons_middle (md_path md)), app_assoc in Hnd |- *.
  assert (Hfresh : md_path md ∉ paths).
  { rewrite <- app_assoc in Hnd. apply NoDup_app in Hnd as (_ & H & _). intros Hin. apply (H _ Hin), elem_of_app. left. by apply list_elem_of_singleton. }
  pose proof (existing_module_spec s project (md_path md) d Hok) as He.
  destruct (existing_module s project (md_path md) d) as [i|].
  { destruct He as [Hr Hp]. intros H. apply (IH _ _ _ _ (paths ++ [md_path md])) in H as (H1 & H2 & H3 & H4 & H5); [|done|by apply made_next|done].
    do 4 (split; [done|]). intros md' [->|Hin]%elem_of_cons Hres; [|by apply H5]. apply H3. by exists i. }
  destruct (resolve_module_row (catalog d) (md_path md)) as [[k lib]|] eqn:Er.
  - destruct (_build_stack_module_variables _ _ _ _) as [final|]; [|done]. cbn [mbind option_bind].
    set (d0 := _persist_stack_variable_defaults _ _ _). pose proof (persist_same project (si_variables inst) d) as Hs. fold d0 in Hs.
    pose proof (same_rows_ok _ _ _ _ Hs Hok) as Hok0.
    assert (Hno : ~ has_path s d0 (md_path md)) by (by rewrite <- (same_rows_path _ _ _ _ Hs)).
    pose proof (add_stack_module_ok s project idx (md_path md) lib final d0 Hok0 Hno) as Ha.
    pose proof (add_stack_module_made s project idx (md_path md) lib final d0 paths created Hok0 (made_same _ _ _ _ _ Hs Hmade)) as Hm.
    destruct (add_stack_module _ _ _ _ _ _ _ _) as [i d1]. destruct Ha as (Hok1 & Hi & Hpi & Hcat & Hh). intros H.
    apply (IH _ _ _ _ (paths ++ [md_path md])) in H as (H1 & H2 & H3 & H4 & H5); [|done|by apply made_next|done].
    assert (Hc : catalog d1 = catalog d) by (rewrite Hcat; apply (sr_catalog _ _ Hs)).
    split; [done|]. split; [congruence|]. split; [intros p Hp; apply H3, Hh; right; by apply (same_rows_path _ _ _ _ Hs)|]. split; [done|].
    intros md' [->|Hin]%elem_of_cons Hres; [|apply H5; [done|by rewrite Hc]]. apply H3. by exists i.
  - intros H. apply (IH _ _ _ _ (paths ++ [md_path md])) in H as (H1 & H2 & H3 & H4 & H5); [|done|by apply (made_more s paths); [set_solver|]|done].
    do 4 (split; [done|]). intros md' [->|Hin]%elem_of_cons Hres; [|by apply H5]. rewrite Er in Hres. by destruct Hres.
Qed.

Lemma pre_mark_same s project mmap d : same_rows d (_pre_mark_applied_modules s project mmap d).
Proof.
  unfold _pre_mark_applied_modules. apply same_rows_foldl. intros d1 pi.
  destruct (modules (orch d1) !! pi.2); [|done]. destruct (_ ≫= _) as [outs|]; [|done]. case_bool_decide; [|done].
  etrans; [apply (on_module_same pi.2 (fun m => set_outputs true (set_status APPLIED m))); by intros []|].
  split; try done. intros i. unfold path_of_row. cbn. destruct (decide (i = pi.2)) as [->|Hi].
  - rewrite lookup_alter_eq. by destruct (side d1 !! pi.2).
  - by rewrite lookup_alter_ne.
Qed.
Lemma auto_select_same inst t created mmap d d' : _auto_select_topology_modules inst t created mmap d = Some d' -> same_rows d d'.
Proof.
  unfold _auto_select_topology_modules. destruct (host_of_stack inst mmap d); [|by intros [= <-]].
  destruct (match _ with JNull => _ | _ => _ end) as [host|]; [|done]. cbn [mbind option_bind].
  destruct (topologies d !! host) as [[topo|]|]; [|by intros [= <-]..]. destruct (String.eqb _ _); intros [= <-]; [done|].
  apply same_rows_foldl. intros d1 i. case_match; [|done]. by apply on_module_same.
Qed.
Lemma link_same mmap created d : same_rows d (link_dependencies mmap created d).
Proof. apply same_rows_foldl. intros d1 i. by apply on_module_same. Qed.
Lemma chain_from_same l : forall before d, same_rows d (chain_from before l d).
Proof. induction l as [|i l IH]; intros before d; [done|]. cbn. etrans; [|apply IH]. by apply on_module_same. Qed.

Lemma chain_created_same created d : same_rows d (_enforce_sequential_chain created d).
Proof. apply chain_from_same. Qed.

Lemma create_ok s project inst d t : rows_ok s project d -> si_template inst = Some t -> NoDup (md_path <$> t_modules t) ->
  let '(d', r) := create_project_modules_from_template new_id s project inst d in
  rows_ok s project d' /\
  (forall created, r = Ok created ->
     made s (md_path <$> t_modules t) created d' /\
     forall md, md ∈ t_modules t -> md_required md = true -> md_path md <> "" -> has_path s d' (md_path md)).
Proof using NEW.
  intros Hok Ht Hnd. unfold create_project_modules_from_template. rewrite Ht. case_bool_decide; [by split|].
  destruct (verify_template_modules_present d t) as [|x xs] eqn:Ev; [|by split].
  destruct (create_rows _ _ _ _ _ _ _ _ _ _) as [[[mm created] d1]|] eqn:Ec; [|by split].
  assert (Hm0 : made s [] [] d) by (split; [apply NoDup_nil_2|intros i Hi; by apply elem_of_nil in Hi]).
  destruct (create_rows_ok s project inst t (t_modules t) 0 [] [] d [] mm created d1 Hok Hm0 Hnd Ec) as (H1 & H2 & H3 & H4 & H5).
  assert (Hsel : match (if t_bare_metal t then _auto_select_topology_modules inst t created mm (_pre_mark_applied_modules s project mm d1) else Some d1) with
                 | Some d2 => same_rows d1 d2 | None => True end).
  { destruct (t_bare_metal t); [|done]. destruct (_auto_select_topology_modules _ _ _ _ _) as [d2|] eqn:Ea; [|done].
    etrans; [apply pre_mark_same|by apply auto_select_same in Ea]. }
  destruct (if t_bare_metal t then _ else _) as [d2|]; [|by split]. cbn zeta.
  set (d3 := if t_bare_metal t then _ else _). set (d' := set_orch _ d3).
  assert (Hs : same_rows d1 d').
  { etrans; [exact Hsel|]. etrans; [|apply set_stacks_same]. unfold d3. destruct (t_bare_metal t); [|apply link_same].
    etrans; [apply link_same|apply chain_created_same]. }
  split; [by apply (same_rows_ok _ _ _ _ Hs)|]. intros created' [= <-]. split; [by apply (made_same _ _ _ _ _ Hs)|].
  intros md Hin Hr Hp. apply (same_rows_path _ _ _ _ Hs), H5; [done|].
  destruct (resolve_module_row (catalog d) (md_path md)) eqn:E; [by eexists|]. exfalso.
  assert (Hv : md_path md ∈ verify_template_modules_present d t).
  { unfold verify_template_modules_present. apply list_elem_of_omap. exists md. split; [done|].
    destruct (String.eqb_spec (md_path md) ""); [done|]. by rewrite E, Hr. }
  rewrite Ev in Hv. by apply elem_of_nil in Hv.
Qed.

Lemma prepare_ok inst s project d t : rows_ok s project d -> si_template inst = Some t -> NoDup (md_path <$> t_modules t) ->
  let '(d', answer) := prepare_modules new_id git_ref why inst s project d in
  rows_ok s project d' /\
  forall n, answer = Prepared n -> forall md, md ∈ t_modules t -> md_required md = true -> md_path md <> "" -> has_path s d' (md_path md).
Proof using NEW.
  intros Hok Ht Hnd. unfold prepare_modules. set (d0 := set_orch _ d).
  pose proof (reconcile_ok s project inst d0 (same_rows_ok _ _ _ _ (set_stacks_same s _ d) Hok)) as Hr.
  destruct (_reconcile_stack_modules_from_template _ _ _ _ _) as [d1 [|message|]]; destruct Hr as [Hok1 _].
  - cbn zeta. set (d1' := set_orch _ d1). pose proof (same_rows_ok _ _ _ _ (set_stacks_same s _ d1) Hok1 : rows_ok s project d1') as Hok1'.
    pose proof (create_ok s project inst d1' t Hok1' Ht Hnd) as Hc.
    destruct (create_project_modules_from_template _ _ _ _ _) as [d2 [[|c created]|e]]; destruct Hc as [H1 H2].
    + split; [exact (same_rows_ok _ _ _ _ (fail_stack_same s _ d2) H1)|done].
    + split; [done|]. intros n _. by destruct (H2 _ eq_refl).
    + split; [exact (same_rows_ok _ _ _ _ (fail_stack_same s _ d2) H1)|done].
  - split; [exact (same_rows_ok _ _ _ _ (fail_stack_same s _ d1) Hok1)|done].
  - by split.
Qed.

(** C15. Preparing a stack, however often and however it ends, leaves at most one module
    for a path, all in the project of the stack; when it succeeds, every required
    module of the template that has a path has one. *)
Theorem prepared_complete prereqs inst s d st t
    (STACK : stacks (orch d) !! s = Some st) (ROWS : rows_ok s (s_project st) d)
    (TEMPLATE : si_template inst = Some t /\ NoDup (md_path <$> t_modules t)) :
  let '(d', answer) := deploy_stack new_id git_ref why prereqs inst s d in
  rows_ok s (s_project st) d' /\
  forall n, answer = Prepared n ->
    forall md, md ∈ t_modules t -> md_required md = true -> md_path md <> "" -> has_path s d' (md_path md).
Proof using NEW.
  destruct TEMPLATE as [Ht Hnd]. unfold deploy_stack. rewrite STACK.
  pose proof (prepare_ok inst s (s_project st) d t ROWS Ht Hnd) as Hgo.
  destruct (s_status st); try destruct (_ && _); by (exact Hgo || split).
Qed.

(** A stack whose template names two required modules, the first in the library and
    the second not, is refused with the path of the second alone, and the row of
    the first stays: the check of the whole template comes after the filling in. *)
Theorem missing_module_partial prereqs inst s d st t md1 md2 defs entry final
    (STACK : stacks (orch d) !! s = Some st /\ s_status st = S_PENDING /\ stack_modules s (orch d) = [])
    (TEMPLATE : si_template inst = Some t /\ t_modules t = md1 :: md2 :: defs)
    (REQUIRED : md_required md1 = true /\ md_path md1 <> "" /\ md_required md2 = true /\ md_path md2 <> "" /\ md_path md1 <> md_path md2)
    (LIBRARY : resolve_module_row (catalog d) (md_path md1) = Some entry /\ resolve_module_row (catalog d) (md_path md2) = None)
    (VARIABLES : _build_stack_module_variables inst t (md_path md1) (md_variables md1) = Some final)
    (ALLOWED : missing_secrets prereqs = false /\ blocking_preflight prereqs = false) :
  let '(d', answer) := deploy_stack new_id git_ref why prereqs inst s d in
  answer = BackfillFailed ("Required module '" +:+ md_path md2 +:+ "' not found in library") /\
  ~ has_path s d (md_path md1) /\ has_path s d' (md_path md1).
Proof using NEW.
  destruct STACK as (Hst & Hs & Hms), TEMPLATE as (Ht & Hd), REQUIRED as (Hr1 & Hp1 & Hr2 & Hp2 & Hne), LIBRARY as (Hl1 & Hl2), ALLOWED as [Ha1 Ha2].
  assert (Hnone : forall i, ~ row_in s i d).
  { intros i (m & Hm & Hsm). apply (not_elem_of_nil (i, m)). rewrite <- Hms. apply elem_of_select. split; [done|]. by apply bool_decide_eq_true. }
  unfold deploy_stack. rewrite Hst, Hs, Ha1, Ha2, andb_false_r. unfold prepare_modules. set (d0 := set_orch _ d).
  assert (Hms0 : stack_modules s (orch d0) = []) by exact Hms.
  assert (Hok0 : rows_ok s (s_project st) d0).
  { apply (same_rows_ok _ _ _ _ (set_stacks_same s _ d)). split; [|intros i j Hi]; [|by apply Hnone in Hi]. intros i m Hm Hsm. exfalso. apply (Hnone i). by exists m. }
  assert (Hno : ~ has_path s d0 (md_path md1)) by (intros (i & Hi & _); by apply (Hnone i)).
  unfold _reconcile_stack_modules_from_template. rewrite Ht, Hd, Hms0. cbn [by_order_id merge_sort foldl]. cbn zeta.
  replace (by_order_id []) with (@nil (Z * pmodule)) by done. cbn [foldl]. destruct entry as [k lib].
  cbn [backfill]. destruct (String.eqb_spec (md_path md1) ""); [done|]. cbn [dget orb]. rewrite (bool_decide_eq_false_2 (is_Some None)) by (by intros [? ?]).
  rewrite Hr1. cbn [negb]. change (catalog d0) with (catalog d). rewrite Hl1, VARIABLES.
  pose proof (add_stack_module_ok s (s_project st) 0 (md_path md1) lib final d0 Hok0 Hno) as H.
  destruct (add_stack_module _ _ _ _ _ _ _ _) as [i d1]. destruct H as (_ & Hi & Hpi & Hcat & _).
  cbn [dset app dget backfill]. destruct (String.eqb_spec (md_path md2) ""); [done|]. rewrite (decide_False (P := md_path md2 = md_path md1)) by congruence. cbn [orb].
  rewrite (bool_decide_eq_false_2 (is_Some None)) by (by intros [? ?]). rewrite Hr2. cbn [negb]. rewrite Hcat. change (catalog d0) with (catalog d). rewrite Hl2.
  split; [done|]. split; [intros (j & Hj & _); by apply (Hnone j)|]. exists i. split; [exact Hi|exact Hpi].
Qed.
End rows.

(** ** The chain of a bare-metal stack *)

Lemma chain_from_deps before l d i : ~ i ∈ l -> modules (orch (chain_from before l d)) !! i = modules (orch d) !! i.
Proof.
  revert before d. induction l as [|j l IH]; intros before d Hi; [done|]. apply not_elem_of_cons in Hi as [Hj Hi].
  cbn. rewrite IH by done. cbn. by apply lookup_alter_ne.
Qed.

Lemma chain_from_tasks before l d : tasks (orch (chain_from before l d)) = tasks (orch d) /\ next_task (orch (chain_from before l d)) = next_task (orch d).
Proof. revert before d. induction l as [|j l IH]; intros before d; [done|]. cbn [chain_from]. by destruct (IH (Some j) (on_module j (set_dependencies (match before with Some p => [p] | None => [] end)) d)) as [-> ->]. Qed.

(** Every module of the list needs the one before it alone. *)
Lemma chain_from_spec l : forall before d n i, NoDup l -> l !! n = Some i ->
  modules (orch (chain_from before l d)) !! i =
  set_dependencies (match n with O => match before with Some p => [p] | None => [] end | S k => match l !! k with Some p => [p] | None => [] end end)
    <$> modules (orch d) !! i.
Proof.
  induction l as [|j l IH]; intros before d n i Hnd Hi; [done|]. apply NoDup_cons in Hnd as [Hj Hnd]. cbn [chain_from].
  destruct n as [|n]; cbn in Hi.
  - injection Hi as <-. rewrite chain_from_deps by done. cbn. by rewrite lookup_alter_eq.
  - rewrite (IH (Some j) _ n i Hnd Hi). cbn [orch on_module set_orch update_module with_modules modules].
    assert (Hne : i <> j) by (intros ->; by apply list_elem_of_lookup_2 in Hi). rewrite lookup_alter_ne by done. by destruct n.
Qed.

Lemma template_order_spec d created : NoDup created -> NoDup (template_order d created) /\
  forall i, i ∈ template_order d created <-> i ∈ created /\ is_Some (modules (orch d) !! i).
Proof.
  intros Hnd. unfold template_order. set (l := omap _ created).
  assert (Hl : NoDup l.*1 /\ forall i, i ∈ l.*1 <-> i ∈ created /\ is_Some (modules (orch d) !! i)).
  { unfold l. clear l. induction created as [|j c IH]; [split; [apply NoDup_nil_2|intros i; cbn; rewrite elem_of_nil; tauto]|].
    apply NoDup_cons in Hnd as [Hj Hnd]. destruct (IH Hnd) as [H1 H2]. cbn. destruct (modules (orch d) !! j) as [m|] eqn:E; cbn.
    - split; [apply NoDup_cons; split; [rewrite H2; tauto|done]|]. intros i. rewrite !elem_of_cons, H2. split; [|naive_solver].
      intros [->|[? ?]]; [split; [by left|by rewrite E]|tauto].
    - split; [done|]. intros i. rewrite elem_of_cons, H2. split; [tauto|]. intros [[->|?] Hs]; [rewrite E in Hs; by destruct Hs|done]. }
  pose proof (merge_sort_Permutation order_le l) as Hp. apply (fmap_Permutation fst) in Hp. split.
  - rewrite Hp. apply Hl.
  - intros i. rewrite Hp. apply Hl.
Qed.

(** The modules made for a bare-metal stack, in the order of the template, are a
    chain whose first needs nothing.  A module of it that is disabled and not
    applied, with nothing applied after it, ends the deploy there: neither a run of
    the stack nor the trigger after any module changes a module from there on. *)
Theorem bare_metal_chain {SO : SetOrder Z} created s d celery vars_changed mid
    (MADE : NoDup created /\ forall i, i ∈ created -> exists m, modules (orch d) !! i = Some m /\ pm_stack m = Some s)
    (FRESH : forall t r, tasks (orch d) !! t = Some r -> t < next_task (orch d)) :
  let chain := template_order d created in
  let d' := orch (_enforce_sequential_chain created d) in
  in_chain chain d' /\
  (forall i m, head chain = Some i -> modules d' !! i = Some m -> pm_dependencies m = []) /\
  (forall i, i ∉ created -> modules d' !! i = modules (orch d) !! i) /\
  forall k,
    (forall i m, chain !! k = Some i -> modules (orch d) !! i = Some m -> enabled m = false) ->
    (forall n i m, (k <= n)%nat -> chain !! n = Some i -> modules (orch d) !! i = Some m -> pm_status m <> APPLIED) ->
    left_alone chain k d' (run_modules celery vars_changed s d').1 /\
    left_alone chain k d' (_trigger_next_stack_module celery s mid d').
Proof.
  destruct MADE as [Hnd Hrow]. cbn zeta. set (chain := template_order d created). set (d' := orch _).
  destruct (template_order_spec d created Hnd) as [Hcn Hci]. fold chain in Hcn, Hci.
  assert (Hm : forall n i, chain !! n = Some i -> modules d' !! i =
    set_dependencies (match n with O => [] | S k => match chain !! k with Some p => [p] | None => [] end end) <$> modules (orch d) !! i).
  { intros n i Hi. exact (chain_from_spec chain None d n i Hcn Hi). }
  assert (Hold : forall n i m, chain !! n = Some i -> modules d' !! i = Some m ->
    exists m0, modules (orch d) !! i = Some m0 /\ enabled m = enabled m0 /\ pm_status m = pm_status m0 /\ pm_stack m = pm_stack m0).
  { intros n i m Hi H. rewrite (Hm n i Hi) in H. destruct (modules (orch d) !! i) as [m0|]; [|done]. exists m0. cbn in H. by simplify_eq. }
  assert (Hchain : in_chain chain d').
  { intros n i j m Hi Hj H. rewrite (Hm (S n) j Hj), Hi in H. destruct (modules (orch d) !! j); [|done]. cbn in H. by simplify_eq. }
  split; [done|]. split; [|split].
  - intros i m Hi H. destruct chain as [|c chain'] eqn:Ec; [done|]. injection Hi as ->. rewrite (Hm O i eq_refl) in H.
    destruct (modules (orch d) !! i); [|done]. cbn in H. by simplify_eq.
  - intros i Hi. apply chain_from_deps. intros Hin%Hci. tauto.
  - intros k Hdis Hafter. apply disabled_stalls_chain.
    + destruct (chain_from_tasks None chain d) as [Ht Hn]. change (forall t r, tasks d' !! t = Some r -> t < next_task d').
      change (tasks d' = tasks (orch d)) in Ht. change (next_task d' = next_task (orch d)) in Hn. by rewrite Ht, Hn.
    + split; [done|..].
      * intros i m Hi H. destruct (Hold k i m Hi H) as (m0 & H0 & -> & _). by apply (Hdis i).
      * intros n i m Hn Hi H. destruct (Hold n i m Hi H) as (m0 & H0 & _ & -> & _). by apply (Hafter n i).
    + intros n i m _ Hi H. destruct (Hold n i m Hi H) as (m0 & H0 & _ & _ & ->).
      assert (Hin : i ∈ chain) by (by apply list_elem_of_lookup_2 in Hi). apply Hci in Hin as [Hin _].
      destruct (Hrow i Hin) as (m1 & H1 & H2). congruence.
Qed.

(** ** The variables of a stack and those of its project *)

Lemma fields_of_map (m : vars) : fields (map_to_list m) = m.
Proof.
  unfold fields. assert (Hp : rev (map_to_list m) ≡ₚ map_to_list m) by (symmetry; apply Permutation_rev).
  rewrite (list_to_map_proper (rev (map_to_list m)) (map_to_list m)); [apply list_to_map_to_list| |done].
  rewrite Hp. apply NoDup_fst_map_to_list.
Qed.

(** Keeping the variables of a stack as defaults of its project hides the variables
    that the project has itself: its layer then holds the defaults and no others. *)
Theorem stack_hides_project_variables project variables d pv (p : wproject) below
    (GIVEN : variables <> [] /\ defaults_of d !! project = Some pv /\ pv !! "variable_defaults" = None)
    (ROW : project_variables p = defaults_of (_persist_stack_variable_defaults project variables d) !! project) :
  project_variables_layer p below = Ok (update (stack_variable_defaults variables) below) /\
  (forall key v, pv !! key = Some v -> stack_variable_defaults variables !! key = None ->
     match project_variables_layer p below with Ok layer => layer !! key = below !! key | Err _ => False end).
Proof.
  destruct GIVEN as (Hv & Hd & Hn).
  assert (H : project_variables_layer p below = Ok (update (stack_variable_defaults variables) below)).
  { unfold project_variables_layer. rewrite ROW. unfold _persist_stack_variable_defaults. destruct variables as [|kv l]; [done|].
    rewrite Hd. cbn zeta. change (default ∅ (Some pv)) with pv. rewrite Hn. cbn [defaults_of set_defaults]. rewrite lookup_insert_eq. unfold some_dict. cbn [mbind option_bind].
    rewrite map_size_insert_None by done. cbn [Nat.eqb]. rewrite lookup_insert_eq. f_equal. f_equal.
    etrans; [exact (fields_of_map _)|]. unfold update. apply (right_id_L ∅ union). }
  split; [exact H|]. intros key v _ Hk. rewrite H. unfold update. rewrite lookup_union, Hk. by destruct (below !! key).
Qed.

(** ** An example *)

Module Example.
#[local] Instance some_order : SetOrder Z := elements_order.

Definition entry (path : string) (deps : list string) : lib_entry :=
  {| le_path := path; is_active := true; is_latest := true; last_synced := Some 1; le_library := {| execution_engine := None; engine_type := None |}; le_deps := deps |}.
Definition step_of (path : string) (required : bool) (vs : list (string * json)) : module_def :=
  {| md_path := path; md_required := required; md_variables := list_to_map vs |}.
Definition empty_stack : sdb :=
  {| orch := {| modules := ∅; tasks := ∅; stacks := {[9 := {| s_project := 1; s_status := S_PENDING; s_error := None; current_step := 0; total_steps := None |}]};
                next_task := 1 |};
     side := ∅; catalog := {[1 := entry "infra/aws/vpc" []; 2 := entry "k8s/cluster" ["infra/aws/vpc"]]}; row_deps := ∅; topologies := ∅;
     defaults_of := {[1 := {["site" := JStr "lab"]}]} |}.
Definition with_template (defs : list module_def) (vs : list (string * json)) : instance :=
  {| si_template := Some {| t_bare_metal := false; t_modules := defs; platform_defaults := ∅ |}; si_variables := vs; si_cloud_provider := Some "aws" |}.
Definition allowed : prereq_report := {| all_satisfied := true; missing_secrets := false; blocking_preflight := false |}.

Lemma empty_rows s : rows_ok s 1 empty_stack.
Proof. split; [intros i m Hm|intros i j (m & Hm & _)]; cbn in Hm; by rewrite lookup_empty in Hm. Qed.

Definition network_defs : list module_def :=
  [step_of "infra/aws/vpc" true [("vpc_cidr", JStr "10.1.0.0/16"); ("public_subnet_cidr", JStr "10.0.1.0/24")]; step_of "k8s/cluster" true []].
Definition region : list (string * json) := [("region", JStr "eu")].

Lemma prepared_complete_witness :
  match deploy_stack (next_id pmodule) "main" "" allowed (with_template network_defs region) 9 empty_stack with
  | (d', Prepared n) => n = 2 /\ rows_ok 9 1 d' /\ has_path 9 d' "k8s/cluster"
  | _ => False
  end.
Proof.
  pose proof (prepared_complete (next_id pmodule) "main" "" (next_id_new pmodule) allowed (with_template network_defs region) 9 empty_stack
    {| s_project := 1; s_status := S_PENDING; s_error := None; current_step := 0; total_steps := None |}
    {| t_bare_metal := false; t_modules := network_defs; platform_defaults := ∅ |} eq_refl (empty_rows 9)) as H.
  assert (Ha : match (deploy_stack (next_id pmodule) "main" "" allowed (with_template network_defs region) 9 empty_stack).2 with Prepared n => n = 2 | _ => False end)
    by (vm_compute; reflexivity).
  destruct (deploy_stack _ _ _ _ _ _ _) as [d' answer]. cbn [snd] in Ha. destruct answer as [| | | | | | | |n]; try contradiction.
  destruct H as [H1 H2].
  { split; [reflexivity|]. by apply (bool_decide_eq_true_1 _). }
  split; [exact Ha|]. split; [exact H1|].
  apply (H2 n eq_refl (step_of "k8s/cluster" true [])); [apply elem_of_cons; right; apply elem_of_cons; by left|reflexivity|discriminate].
Defined.

Definition missing_defs : list module_def := [step_of "k8s/cluster" true []; step_of "bnk/flo" true []; step_of "bnk/cert" true []].

Lemma missing_module_partial_witness :
  match deploy_stack (next_id pmodule) "main" "" allowed (with_template missing_defs []) 9 empty_stack with
  | (d', answer) => answer = BackfillFailed "Required module 'bnk/flo' not found in library" /\ has_path 9 d' "k8s/cluster"
  end.
Proof.
  pose proof (missing_module_partial (next_id pmodule) "main" "" (next_id_new pmodule) allowed (with_template missing_defs []) 9 empty_stack
    {| s_project := 1; s_status := S_PENDING; s_error := None; current_step := 0; total_steps := None |}
    {| t_bare_metal := false; t_modules := missing_defs; platform_defaults := ∅ |}
    (step_of "k8s/cluster" true []) (step_of "bnk/flo" true []) [step_of "bnk/cert" true []] (2, entry "k8s/cluster" ["infra/aws/vpc"]) ∅) as H.
  destruct (deploy_stack _ _ _ _ _ _ _) as [d' answer].
  destruct H as (H1 & _ & H3).
  - split; [reflexivity|]. split; reflexivity.
  - split; reflexivity.
  - split; [reflexivity|]. split; [discriminate|]. split; [reflexivity|]. split; discriminate.
  - split; vm_compute; reflexivity.
  - reflexivity.
  - split; reflexivity.
  - split; [exact H1|exact H3].
Defined.

(** The public subnet that is given is also the one derived for another. *)
Definition given_vpc : vars := {["vpc_cidr" := JStr "10.1.0.0/16"; "public_subnet_cidr" := JStr "10.1.10.0/24"]}.

Lemma normalize_correct_witness :
  match _normalize_aws_vpc_subnet_cidrs "infra/aws/vpc" given_vpc ["public_subnet_cidr"] with
  | Some f => (exists v, f !! "private_internal_subnet_b_cidr" = Some v) /\ f !! "public_subnet_cidr" = f !! "private_external_subnet_a_cidr"
  | None => False
  end.
Proof.
  pose proof (normalize_correct given_vpc ["public_subnet_cidr"] (JStr "10.1.0.0/16") (conj eq_refl eq_refl)) as H.
  assert (Hf : match _normalize_aws_vpc_subnet_cidrs "infra/aws/vpc" given_vpc ["public_subnet_cidr"] with
    | Some f => f !! "public_subnet_cidr" = f !! "private_external_subnet_a_cidr" | None => False end) by (vm_compute; reflexivity).
  destruct (_normalize_aws_vpc_subnet_cidrs _ _ _) as [f|]; [|contradiction].
  destruct H as (vpc & derived & _ & _ & _ & _ & H). split; [|exact Hf].
  destruct (H "private_internal_subnet_b_cidr") as (_ & text & v & _ & Hv & _); [|by exists v].
  unfold AWS_VPC_SUBNET_VAR_NAMES. rewrite !elem_of_cons. tauto.
Defined.

(** Three steps on a host; its topology has no use for the second. *)
Definition host_step (id : Z) (on : bool) : pmodule := StackRun.Example.module_row [] NOT_INITIALIZED on id.
Definition host_stack : sdb :=
  set_orch (StackRun.Example.of_modules {[1 := StackRun.Example.module_row [] APPLIED true 0; 2 := host_step 1 false; 3 := host_step 2 true]}) empty_stack.

Lemma bare_metal_chain_witness :
  let d' := orch (_enforce_sequential_chain [1; 2; 3] host_stack) in
  in_chain [1; 2; 3] d' /\
  modules (_trigger_next_stack_module StackRun.Example.message 9 1 d') !! 3 = modules d' !! 3.
Proof.
  assert (Hc : template_order host_stack [1; 2; 3] = [1; 2; 3]) by (vm_compute; reflexivity).
  destruct (bare_metal_chain [1; 2; 3] 9 host_stack StackRun.Example.message (fun _ => false) 1) as (H1 & _ & _ & H).
  - split; [by apply (bool_decide_eq_true_1 _)|]. intros i Hi.
    rewrite !elem_of_cons, elem_of_nil in Hi. destruct Hi as [->|[->|[->|[]]]]; eexists; (split; [vm_compute; reflexivity|reflexivity]).
  - apply StackRun.Example.no_tasks.
  - cbn zeta. rewrite Hc in H1, H. split; [exact H1|].
    destruct (H 1%nat) as [_ H2].
    + intros i m Hi Hm. injection Hi as <-. vm_compute in Hm. by simplify_eq.
    + intros [|[|[|n]]] i m Hn Hi Hm; [lia|..]; cbn in Hi; simplify_eq; vm_compute in Hm; by simplify_eq.
    + exact (H2 2%nat 3 ltac:(lia) eq_refl).
Defined.

Lemma stack_hides_project_variables_witness :
  let p := {| p_name := "Lab"; p_environment := None; cloud_provider := None; p_region := None; credential_template := None; k8s_clusters := [];
              project_variables := defaults_of (_persist_stack_variable_defaults 1 region empty_stack) !! 1; p_ssh_credential := None |} in
  match project_variables_layer p ∅ with Ok layer => layer !! "site" = None | Err _ => False end.
Proof.
  cbn zeta. set (p := Build_wproject _ _ _ _ _ _ _ _).
  refine (proj2 (stack_hides_project_variables 1 region empty_stack {["site" := JStr "lab"]} p ∅ _ _) "site" (JStr "lab") _ _).
  - split; [discriminate|]. split; vm_compute; reflexivity.
  - reflexivity.
  - vm_compute. reflexivity.
  - vm_compute. reflexivity.
Defined.
End Example.
