(* ===== verification/Accounts.v ===== *)
(** * Accounts, tokens and access (services/auth_service.py,
      services/api_token_service.py, core/auth_context.py, core/auth_middleware.py,
      routes/auth.py, startup_steps.py [seed_auth_step])

    Users and their long-lived tokens, the checks a request passes - the middleware
    and the dependencies of its route -, the handlers that change accounts, and
    what a start does to the accounts that were shipped.  bcrypt, SHA-256 and JWT
    are parameters.  Times of the last login and use, and lists, are left out. *)

From Stdlib Require Import Ascii.
From S2P Require Import Prelude Texts.

#[local] Open Scope string_scope.
#[local] Open Scope list_scope.
#[local] Open Scope Z_scope.
#[local] Set Default Proof Using "Type".

(** ** Rows *)

Record user := {
  username : string;
  email : string;
  hashed_password : string;
  u_role : string;
  is_active : bool;
  must_change_password : bool;
  is_service_account : bool
}.
Record api_token := { tk_user : Z; tk_name : string; token_hash : string; token_prefix : string; tk_role : string; expires_at : option Z }.
(** [owners]: [Project.user_id]; modules and clusters with their projects. *)
Record adb := {
  users : gmap Z user;
  api_tokens : gmap Z api_token;
  owners : gmap Z (option Z);
  module_projects : gmap Z Z;
  cluster_projects : gmap Z Z
}.

Definition with_users (f : gmap Z user -> gmap Z user) (d : adb) : adb :=
  {| users := f (users d); api_tokens := api_tokens d; owners := owners d; module_projects := module_projects d; cluster_projects := cluster_projects d |}.
Definition with_tokens (f : gmap Z api_token -> gmap Z api_token) (d : adb) : adb :=
  {| users := users d; api_tokens := f (api_tokens d); owners := owners d; module_projects := module_projects d; cluster_projects := cluster_projects d |}.

Definition set_role (r : string) (u : user) : user :=
  {| username := username u; email := email u; hashed_password := hashed_password u; u_role := r; is_active := is_active u;
     must_change_password := must_change_password u; is_service_account := is_service_account u |}.
Definition set_email (e : string) (u : user) : user :=
  {| username := username u; email := e; hashed_password := hashed_password u; u_role := u_role u; is_active := is_active u;
     must_change_password := must_change_password u; is_service_account := is_service_account u |}.
Definition set_active (b : bool) (u : user) : user :=
  {| username := username u; email := email u; hashed_password := hashed_password u; u_role := u_role u; is_active := b;
     must_change_password := must_change_password u; is_service_account := is_service_account u |}.
Definition set_password (h : string) (must : bool) (u : user) : user :=
  {| username := username u; email := email u; hashed_password := h; u_role := u_role u; is_active := is_active u;
     must_change_password := must; is_service_account := is_service_account u |}.
Definition set_service (u : user) : user :=
  {| username := username u; email := email u; hashed_password := hashed_password u; u_role := u_role u; is_active := is_active u;
     must_change_password := must_change_password u; is_service_account := true |}.

Inductive auth_exc :=
| UnauthorizedError (why : string) | ForbiddenError (why : string) | BadRequestError (code : string)
| ConflictError (what : string) | NotFoundError (what : string) | ValueError (why : string).

(** ** Roles *)

Definition ROLE_ADMIN : string := "admin".
Definition ROLE_OPERATOR : string := "operator".
Definition ROLE_VIEWER : string := "viewer".
Definition ALL_ROLES : list string := ["admin"; "operator"; "viewer"].

Definition role_order (r : string) (missing : Z) : Z :=
  if String.eqb r "viewer" then 1 else if String.eqb r "operator" then 2 else if String.eqb r "admin" then 3 else missing.
Definition _role_at_most (requested max_role : string) : bool := role_order requested 99 <=? role_order max_role 0.

(** [(role or "viewer").strip()] *)
Definition account_role (r : string) : string := strip (if String.eqb r "" then "viewer" else r).
Definition clamp_role (token_role user_role : string) : string :=
  let account := account_role user_role in
  let requested := strip token_role in
  if String.eqb requested "" || negb (bool_decide (requested ∈ ["viewer"; "operator"; "admin"])) then account
  else if _role_at_most requested account then requested else account.

(** The user of a request, with the role of its token. *)
Record principal := { p_id : Z; p_user : user; request_role : option string }.
Definition effective_role (p : principal) : string := default (u_role (p_user p)) (or_else (request_role p) None).

(** ** Reading and writing accounts *)

Definition JWT_EXPIRATION_HOURS : Z := 24.
Definition MCP_KNOWN_DEFAULT_PASSWORDS : list string := ["mcp-service-changeme"; "changeme"].
Definition _KNOWN_DEFAULT_ADMIN_PASSWORDS : list string := ["changeme"].
Definition _RESERVED_HUMAN_USERNAMES : list string := ["admin"].
Definition _normalize_service_username (name : string) : string := lower (strip name).
Definition _is_reserved_human_username (name : string) : bool := bool_decide (_normalize_service_username name ∈ _RESERVED_HUMAN_USERNAMES).

Definition TOKEN_PREFIX : string := "bnk_".
Definition PREFIX_LOOKUP_LEN : nat := 12.
Definition _prefix_of (plaintext : string) : string := clip PREFIX_LOOKUP_LEN plaintext.
Definition VALID_ROLES : list string := ["viewer"; "operator"; "admin"].

Definition PASSWORD_CHANGE_EXEMPT_PATHS : list string := ["/api/auth/change-password"; "/api/auth/me"].
(** [path.rstrip("/")] *)
Fixpoint rstrip_slashes (s : string) : string :=
  match s with
  | EmptyString => EmptyString
  | String c s =>
      match rstrip_slashes s with
      | EmptyString => if Ascii.eqb c "/"%char then EmptyString else String c EmptyString
      | t => String c t
      end
  end.
Definition enforce_password_change (path : string) (u : user) : result auth_exc unit :=
  if negb (must_change_password u) then Ok tt
  else if bool_decide (rstrip_slashes path ∈ PASSWORD_CHANGE_EXEMPT_PATHS) then Ok tt
  else Err (ForbiddenError "Password change required").

(** What [/login] puts into a JWT. *)
Record claims := { sub : string; claimed_role : string; valid_until : Z }.

Section accounts.
Context {SO : SetOrder Z} (hash_password : Z -> string -> string) (verify_password : string -> string -> bool)
  (_hash_token : string -> string) (jwt_decode : Z -> string -> option (option string)).

Definition user_where (P : user -> bool) (d : adb) : option (Z * user) := head (select (fun _ u => P u) (users d)).
Definition by_username (name : string) (d : adb) : option (Z * user) := user_where (fun u => String.eqb (username u) name) d.
Definition by_email (e : string) (d : adb) : option (Z * user) := user_where (fun u => String.eqb (email u) e) d.

Definition holds_one_of (passwords : list string) (u : user) : bool := existsb (fun p => verify_password p (hashed_password u)) passwords.
Definition holds_known_default_password (u : user) : bool := holds_one_of MCP_KNOWN_DEFAULT_PASSWORDS u.

Definition authenticate_user (name password : string) (d : adb) : result auth_exc (Z * user) :=
  match (match by_username name d with Some x => Some x | None => by_email name d end) with
  | None => Err (UnauthorizedError "Invalid username or password")
  | Some (i, u) =>
      if negb (verify_password password (hashed_password u)) then Err (UnauthorizedError "Invalid username or password")
      else if negb (is_active u) then Err (UnauthorizedError "Account is disabled")
      else Ok (i, u)
  end.

(** [now]: the seconds of the clock; [jwt_decode] is [None] for a token that does
    not verify or has expired, and else its subject. *)
Definition decode_token (now : Z) (token : string) : result auth_exc string :=
  match jwt_decode now token with
  | None => Err (UnauthorizedError "Invalid token")
  | Some None => Err (UnauthorizedError "Invalid token: missing subject")
  | Some (Some name) => Ok name
  end.
Definition get_user_from_token (now : Z) (token : string) (d : adb) : result auth_exc (Z * user) :=
  name ← decode_token now token;
  match by_username name d with
  | None => Err (UnauthorizedError "User not found")
  | Some (i, u) => if is_active u then Ok (i, u) else Err (UnauthorizedError "Account is disabled")
  end.
Definition token_user_state (now : Z) (token : string) (d : adb) : option (Z * user) :=
  match get_user_from_token now token d with Ok x => Some x | Err _ => None end.

Definition create_access_token (now : Z) (name role : string) : claims :=
  {| sub := name; claimed_role := role; valid_until := now + JWT_EXPIRATION_HOURS * 3600 |}.

(** [new_id]: the id of the row, [salt]: what bcrypt draws. *)
Definition create_user (new_id salt : Z) (name mail password role : string) (must : bool) (d : adb) : adb * result auth_exc (Z * user) :=
  match by_username name d with
  | Some _ => (d, Err (ConflictError "username"))
  | None =>
      match by_email mail d with
      | Some _ => (d, Err (ConflictError "email"))
      | None =>
          if negb (bool_decide (role ∈ ["admin"; "operator"; "viewer"])) then (d, Err (BadRequestError "role"))
          else
            let u := {| username := name; email := mail; hashed_password := hash_password salt password; u_role := role; is_active := true;
                        must_change_password := must; is_service_account := false |} in
            (with_users <[new_id := u]> d, Ok (new_id, u))
      end
  end.

Definition change_password (salt i : Z) (u : user) (current new_password : string) (d : adb) : adb * result auth_exc unit :=
  if negb (verify_password current (hashed_password u)) then (d, Err (BadRequestError "Current password is incorrect"))
  else if (String.length new_password <? 8)%nat then (d, Err (BadRequestError "New password must be at least 8 characters"))
  else (with_users (alter (set_password (hash_password salt new_password) false) i) d, Ok tt).

(** ** Tokens *)

(** [create]: [body] is the random part of the token; the caller commits. *)
Definition create_token (new_id now : Z) (body : string) (uid : Z) (u : user) (name : string) (role : option string)
    (expires_in_days : option Z) (max_role : option string) (d : adb) : adb * result auth_exc api_token :=
  let name := strip name in
  if String.eqb name "" then (d, Err (BadRequestError "TOKEN_NAME_REQUIRED"))
  else
    let ceiling := strip (default "viewer" (or_else max_role (or_else (Some (u_role u)) None))) in
    let effective := strip (default ceiling (or_else role None)) in
    if negb (bool_decide (effective ∈ VALID_ROLES)) then (d, Err (BadRequestError "INVALID_TOKEN_ROLE"))
    else if negb (_role_at_most effective ceiling) then (d, Err (BadRequestError "TOKEN_ROLE_ESCALATION"))
    else if match expires_in_days with Some n => (n <=? 0) || (3650 <? n) | None => false end then (d, Err (BadRequestError "INVALID_EXPIRY"))
    else
      let plaintext := TOKEN_PREFIX +:+ body in
      let t := {| tk_user := uid; tk_name := name; token_hash := _hash_token plaintext; token_prefix := _prefix_of plaintext;
                  tk_role := effective; expires_at := (fun n => now + n * 86400) <$> expires_in_days |} in
      (with_tokens <[new_id := t]> d, Ok t).

Definition revoke_token (uid token_id : Z) (d : adb) : adb * result auth_exc unit :=
  match api_tokens d !! token_id with
  | Some t => if tk_user t =? uid then (with_tokens (delete token_id) d, Ok tt) else (d, Err (NotFoundError "api_token"))
  | None => (d, Err (NotFoundError "api_token"))
  end.

Definition verify_token (now : Z) (plaintext : string) (d : adb) : result auth_exc (Z * user * api_token) :=
  if bool_decide (after_prefix TOKEN_PREFIX plaintext = None) then Err (UnauthorizedError "Invalid API token format")
  else
    let candidates := select (fun _ t => String.eqb (token_prefix t) (_prefix_of plaintext)) (api_tokens d) in
    match snd <$> list_find (fun it : Z * api_token => token_hash it.2 = _hash_token plaintext) candidates with
    | None => Err (UnauthorizedError "Invalid API token")
    | Some (_, t) =>
        if match expires_at t with Some e => e <? now | None => false end then Err (UnauthorizedError "API token has expired")
        else match users d !! tk_user t with
             | Some u => if is_active u then Ok (tk_user t, u, t) else Err (UnauthorizedError "Token user is inactive")
             | None => Err (UnauthorizedError "Token user is inactive")
             end
    end.

(** ** The checks of a route *)

(** [auth_header.split(" ", 1)[1]] of a header that begins with ["Bearer "]. *)
Definition bearer (header : option string) : option string := h ← header; after_prefix "Bearer " h.

Definition get_current_user (now : Z) (path : string) (header : option string) (d : adb) : result auth_exc principal :=
  match bearer header with
  | None => Err (UnauthorizedError "Missing or invalid Authorization header")
  | Some token =>
      if bool_decide (after_prefix TOKEN_PREFIX token <> None) then
        '(i, u, t) ← verify_token now token d;
        _ ← enforce_password_change path u;
        Ok {| p_id := i; p_user := u; request_role := Some (clamp_role (tk_role t) (u_role u)) |}
      else
        '(i, u) ← get_user_from_token now token d;
        _ ← enforce_password_change path u;
        Ok {| p_id := i; p_user := u; request_role := None |}
  end.

Definition require_role (allowed : list string) (p : principal) : result auth_exc unit :=
  ensure (bool_decide (effective_role p ∈ allowed)) (ForbiddenError "Requires role").
Definition require_admin : principal -> result auth_exc unit := require_role [ROLE_ADMIN].
Definition require_operator : principal -> result auth_exc unit := require_role [ROLE_ADMIN; ROLE_OPERATOR].
Definition require_viewer : principal -> result auth_exc unit := require_role [ROLE_ADMIN; ROLE_OPERATOR; ROLE_VIEWER].

Definition _check_ownership (p : principal) (owner : option Z) : result auth_exc unit :=
  if String.eqb (effective_role p) ROLE_ADMIN then Ok tt
  else match owner with
       | None => Ok tt
       | Some o => ensure (o =? p_id p) (ForbiddenError "You don't have permission to modify this project")
       end.

Definition require_project_owner (project : Z) (p : principal) (d : adb) : result auth_exc unit :=
  _ ← require_operator p;
  match owners d !! project with None => Err (NotFoundError "project") | Some o => _check_ownership p o end.
Definition require_module_owner (m : Z) (p : principal) (d : adb) : result auth_exc unit :=
  _ ← require_operator p;
  match module_projects d !! m with
  | None => Err (NotFoundError "module")
  | Some project => match owners d !! project with None => Err (NotFoundError "project") | Some o => _check_ownership p o end
  end.
Definition require_cluster_owner (c : Z) (p : principal) (d : adb) : result auth_exc unit :=
  _ ← require_operator p;
  match cluster_projects d !! c with
  | None => Err (NotFoundError "cluster")
  | Some project => match owners d !! project with None => Err (NotFoundError "project") | Some o => _check_ownership p o end
  end.

(** ** The middleware *)

Definition PUBLIC_PATHS : list string := ["/api/auth/login"; "/ping"; "/"; "/docs"; "/openapi.json"; "/redoc"].
Definition PUBLIC_PREFIXES : list string := ["/api/auth/login"; "/api/system/health"; "/ws/"; "/api/operators/install/"; "/api/operators/register-poll"].
Definition OPERATOR_POLLING_PATTERNS : list string := ["/poll"; "/results/"; "/heartbeat"].
Definition AGENT_PUBLIC_ENDPOINTS : list (string * string) :=
  [("POST", "/api/benchmarks/agents"); ("POST", "/api/benchmarks/results"); ("POST", "/api/benchmarks/results/aiperf")].

Record request := { rq_method : string; rq_path : string; authorization : option string }.
Definition starts_with (p s : string) : bool := match after_prefix p s with Some _ => true | None => false end.

(** Requests that pass without a token. *)
Definition exempt (rq : request) : bool :=
  String.eqb (rq_method rq) "OPTIONS"
  || bool_decide (rq_path rq ∈ PUBLIC_PATHS)
  || existsb (fun p => starts_with p (rq_path rq)) PUBLIC_PREFIXES
  || (starts_with "/api/operators/" (rq_path rq) && existsb (fun p => contains p (rq_path rq)) OPERATOR_POLLING_PATTERNS)
  || bool_decide ((rq_method rq, rq_path rq) ∈ AGENT_PUBLIC_ENDPOINTS)
  || negb (starts_with "/api/" (rq_path rq)).

Inductive dispatched := CallNext | Status401 | Status403.
Definition dispatch (require_auth : bool) (now : Z) (rq : request) (d : adb) : dispatched :=
  if negb require_auth then CallNext
  else if exempt rq then CallNext
  else
    match bearer (authorization rq) with
    | None => Status401
    | Some token =>
        let checked :=
          if bool_decide (after_prefix TOKEN_PREFIX token <> None) then
            '(_, u, _) ← verify_token now token d; enforce_password_change (rq_path rq) u
          else
            _ ← decode_token now token;
            match token_user_state now token d with
            | None => Err (UnauthorizedError "Token subject could not be resolved")
            | Some (_, u) => enforce_password_change (rq_path rq) u
            end in
        match checked with
        | Ok _ => CallNext
        | Err (ForbiddenError _) => Status403
        | Err _ => Status401
        end
    end.

(** ** The handlers *)

Definition login (now : Z) (name password : string) (d : adb) : result auth_exc claims :=
  '(_, u) ← authenticate_user name password d;
  Ok (create_access_token now (username u) (u_role u)).

Definition change_user_password (salt now : Z) (path : string) (header : option string) (current new_password : string) (d : adb) : adb * result auth_exc unit :=
  match get_current_user now path header d with
  | Err e => (d, Err e)
  | Ok p => change_password salt (p_id p) (p_user p) current new_password d
  end.

(** [admin_route]: the two dependencies of the routes on users. *)
Definition admin_route (now : Z) (path : string) (header : option string) (d : adb) : result auth_exc principal :=
  p ← get_current_user now path header d; _ ← require_admin p; Ok p.

Definition create_new_user (new_id salt now : Z) (path : string) (header : option string) (name mail password role : string) (must : bool) (d : adb)
    : adb * result auth_exc (Z * user) :=
  match admin_route now path header d with
  | Err e => (d, Err e)
  | Ok _ => create_user new_id salt name mail password role must d
  end.

Record user_update := { uq_role : option string; uq_email : option string; uq_active : option bool }.

Definition updated_user (target : Z) (t : user) (q : user_update) (d : adb) : result auth_exc user :=
  t ← match uq_role q with
      | Some r => if bool_decide (r ∈ ALL_ROLES) then Ok (set_role r t) else Err (BadRequestError "Invalid role")
      | None => Ok t
      end;
  t ← match uq_email q with
      | Some e => if bool_decide (select (fun i u => String.eqb (email u) e && negb (i =? target)) (users d) = []) then Ok (set_email e t)
                  else Err (ConflictError "email")
      | None => Ok t
      end;
  match uq_active q with
  | Some b => if b && negb (is_active t) && is_service_account t && holds_known_default_password t then Err (BadRequestError "known default password")
              else Ok (set_active b t)
  | None => Ok t
  end.

Definition update_user (now : Z) (path : string) (header : option string) (target : Z) (q : user_update) (d : adb) : adb * result auth_exc unit :=
  match admin_route now path header d with
  | Err e => (d, Err e)
  | Ok p =>
      match users d !! target with
      | None => (d, Err (NotFoundError "user"))
      | Some t =>
          if (p_id p =? target) && match uq_role q with Some r => negb (String.eqb r "") && negb (String.eqb r "admin") | None => false end
          then (d, Err (ForbiddenError "Cannot change your own role from admin"))
          else if (p_id p =? target) && bool_decide (uq_active q = Some false) then (d, Err (ForbiddenError "Cannot deactivate your own account"))
          else match updated_user target t q d with
               | Err e => (d, Err e)
               | Ok t' => (with_users <[target := t']> d, Ok tt)
               end
      end
  end.

(** The tokens of a user go with it; its projects are left without an owner. *)
Definition drop_user (i : Z) (d : adb) : adb :=
  {| users := delete i (users d);
     api_tokens := filter (fun it => tk_user it.2 <> i) (api_tokens d);
     owners := (fun o : option Z => if bool_decide (o = Some i) then None else o) <$> owners d;
     module_projects := module_projects d; cluster_projects := cluster_projects d |}.

Definition delete_user (now : Z) (path : string) (header : option string) (target : Z) (d : adb) : adb * result auth_exc unit :=
  match admin_route now path header d with
  | Err e => (d, Err e)
  | Ok p =>
      if p_id p =? target then (d, Err (ForbiddenError "Cannot delete your own account"))
      else match users d !! target with
           | None => (d, Err (NotFoundError "user"))
           | Some _ => (drop_user target d, Ok tt)
           end
  end.

(** The schema of the request asks for 1 to 255 characters and 1 to 3650 days. *)
Definition create_api_token (new_id now : Z) (body path : string) (header : option string) (name : string) (role : option string)
    (expires_in_days : option Z) (d : adb) : adb * result auth_exc api_token :=
  match get_current_user now path header d with
  | Err e => (d, Err e)
  | Ok p => create_token new_id now body (p_id p) (p_user p) name role expires_in_days (Some (effective_role p)) d
  end.

Definition revoke_api_token (now : Z) (path : string) (header : option string) (token_id : Z) (d : adb) : adb * result auth_exc unit :=
  match get_current_user now path header d with
  | Err e => (d, Err e)
  | Ok p => revoke_token (p_id p) token_id d
  end.

(** ** The start of the backend *)

Record settings := {
  DEFAULT_ADMIN_PASSWORD : option string;
  DEFAULT_ADMIN_MUST_CHANGE : bool;
  MCP_SERVICE_USERNAME : string;
  MCP_SERVICE_PASSWORD : option string;
  keys_dir_writable : bool
}.
(** What a start draws at random, and the ids of the rows it adds. *)
Record draws := {
  drawn_password : string; admin_salt : Z; admin_id : Z;
  drawn_secret : Z -> string; secret_salt : Z -> Z;
  service_salt : Z; service_id : Z
}.

(** [false]: the generated password could not be written. *)
Definition _rotate_known_default_admin (cfg : settings) (w : draws) (d : adb) : adb * bool :=
  match by_username "admin" d with
  | None => (d, true)
  | Some (i, u) =>
      if negb (holds_one_of _KNOWN_DEFAULT_ADMIN_PASSWORDS u) then (d, true)
      else
        match or_else (DEFAULT_ADMIN_PASSWORD cfg) None with
        | Some configured =>
            if negb (bool_decide (configured ∈ _KNOWN_DEFAULT_ADMIN_PASSWORDS))
            then (with_users (alter (set_password (hash_password (admin_salt w) configured) true) i) d, true)
            else if keys_dir_writable cfg
            then (with_users (alter (set_password (hash_password (admin_salt w) (drawn_password w)) true) i) d, true)
            else (d, false)
        | None =>
            if keys_dir_writable cfg
            then (with_users (alter (set_password (hash_password (admin_salt w) (drawn_password w)) true) i) d, true)
            else (d, false)
        end
  end.

Definition seed_admin_user (cfg : settings) (w : draws) (d : adb) : adb * bool :=
  if negb (bool_decide (users d = ∅)) then _rotate_known_default_admin cfg w d
  else
    let chosen := match or_else (DEFAULT_ADMIN_PASSWORD cfg) None with
                  | Some p => if bool_decide (p ∈ _KNOWN_DEFAULT_ADMIN_PASSWORDS) then None else Some p
                  | None => None
                  end in
    match create_user (admin_id w) (admin_salt w) "admin" "admin@bnk-forge.local" (default (drawn_password w) chosen) "admin" (DEFAULT_ADMIN_MUST_CHANGE cfg) d with
    | (_, Err _) => (d, true)
    | (d', Ok _) => if bool_decide (chosen = None) && negb (keys_dir_writable cfg) then (d, false) else (d', true)
    end.

Definition disable_stale_service_user (w : draws) (skip_username : option string) (d : adb) : adb :=
  with_users (map_imap (fun i u => Some (
    if is_active u && is_service_account u && negb (bool_decide (skip_username = Some (username u)))
    then set_password (hash_password (secret_salt w i) (drawn_secret w i)) (must_change_password u) (set_active false u)
    else u))) d.

Definition legacy_fingerprint (u : user) : bool := String.eqb (username u) "mcp" && String.eqb (email u) "mcp@bnk-forge.local".

Definition ensure_service_user (w : draws) (name : string) (password : option string) (role : string) (d : adb) : adb * result auth_exc unit :=
  if _is_reserved_human_username name then (d, Err (ValueError "reserved human username"))
  else
    match or_else password None with
    | None => (d, Err (ValueError "without a usable MCP_SERVICE_PASSWORD"))
    | Some password =>
        if bool_decide (password ∈ MCP_KNOWN_DEFAULT_PASSWORDS) then (d, Err (ValueError "without a usable MCP_SERVICE_PASSWORD"))
        else
          match by_username name d with
          | None =>
              match create_user (service_id w) (service_salt w) name (name +:+ "@bnk-forge.local") password role false d with
              | (_, Err e) => (d, Err e)
              | (d', Ok (i, _)) => (with_users (alter set_service i) d', Ok tt)
              end
          | Some (i, u) =>
              let adoption := negb (is_service_account u) in
              if adoption && negb (legacy_fingerprint u && holds_known_default_password u) then (d, Err (ValueError "it is not a service account"))
              else
                (with_users (alter (fun u => set_service (set_active true
                   (set_password (hash_password (service_salt w) password) (if adoption then must_change_password u else false) u))) i) d, Ok tt)
          end
    end.

Definition mcp_password_usable (cfg : settings) : bool :=
  match or_else (MCP_SERVICE_PASSWORD cfg) None with Some p => negb (bool_decide (p ∈ MCP_KNOWN_DEFAULT_PASSWORDS)) | None => false end.

(** [CannotStart]: the process ends; [StepFailed]: an exception that only the
    runner of the steps catches. *)
Inductive seeded := Seeded | CannotStart | StepFailed.
Definition seed_auth_step (cfg : settings) (w : draws) (d : adb) : adb * seeded :=
  match seed_admin_user cfg w d with
  | (_, false) => (d, CannotStart)
  | (d1, true) =>
      let usable := mcp_password_usable cfg in
      let d2 := disable_stale_service_user w (if usable then Some (MCP_SERVICE_USERNAME cfg) else None) d1 in
      if usable then
        match ensure_service_user w (MCP_SERVICE_USERNAME cfg) (MCP_SERVICE_PASSWORD cfg) "admin" d2 with
        | (d3, Ok _) => (d3, Seeded)
        | (_, Err (ValueError _)) => (d2, Seeded)
        | (_, Err _) => (d2, StepFailed)
        end
      else (d2, Seeded)
  end.
End accounts.
