(* ===== verification/AccountLaws.v ===== *)
(** * The laws of accounts and access (Accounts.v)

    Which requests pass, what a token can do, who is left to administer, and what a
    start does about the passwords that were shipped. *)

From S2P Require Import Prelude Texts Accounts.

#[local] Open Scope string_scope.
#[local] Open Scope list_scope.
#[local] Open Scope Z_scope.
#[local] Set Default Proof Using "Type".

(** ** Roles *)

Definition level (r : string) : Z := role_order r 0.

Lemma role_order_valid r m : r ∈ VALID_ROLES -> role_order r m = level r /\ 1 <= level r <= 3.
Proof. unfold VALID_ROLES. rewrite !elem_of_cons, elem_of_nil. intros [->|[->|[->|[]]]]; cbn; lia. Qed.
Lemma strip_valid r : r ∈ VALID_ROLES -> strip r = r.
Proof. unfold VALID_ROLES. rewrite !elem_of_cons, elem_of_nil. by intros [->|[->|[->|[]]]]. Qed.
Lemma valid_not_empty r : r ∈ VALID_ROLES -> r <> "".
Proof. unfold VALID_ROLES. rewrite !elem_of_cons, elem_of_nil. by intros [->|[->|[->|[]]]]. Qed.
Lemma all_valid r : r ∈ ALL_ROLES -> r ∈ VALID_ROLES.
Proof. unfold VALID_ROLES, ALL_ROLES. rewrite !elem_of_cons, elem_of_nil. tauto. Qed.
Lemma level_bounds r : 0 <= level r <= 3.
Proof. unfold level, role_order. by repeat destruct (String.eqb _ _). Qed.

Lemma account_role_valid r : r ∈ VALID_ROLES -> account_role r = r.
Proof. intros H. unfold account_role. destruct (String.eqb_spec r "") as [->|]; [|by apply strip_valid]. by apply valid_not_empty in H. Qed.

Lemma at_most_level requested m : _role_at_most requested m = true -> requested ∈ VALID_ROLES -> level requested <= level m.
Proof. unfold _role_at_most. intros H Hv. destruct (role_order_valid _ 99 Hv) as [E _]. rewrite E in H. by apply Z.leb_le in H. Qed.

(** The role of a request with a token is never above that of the account, nor above
    that of the token. *)
Lemma clamp_level t u : level (clamp_role t u) <= level (account_role u) /\ (t ∈ VALID_ROLES -> level (clamp_role t u) <= level t).
Proof.
  unfold clamp_role. destruct (_ || _) eqn:E.
  - split; [lia|]. intros Hv. apply orb_true_iff in E as [E|E].
    + apply String.eqb_eq in E. rewrite strip_valid in E by done. by apply valid_not_empty in Hv.
    + apply negb_true_iff, bool_decide_eq_false in E. by rewrite strip_valid in E.
  - apply orb_false_iff in E as [_ E]. apply negb_false_iff, bool_decide_eq_true in E.
    destruct (_role_at_most _ _) eqn:Em.
    + pose proof (at_most_level _ _ Em E). split; [done|]. intros Hv. by rewrite strip_valid.
    + split; [lia|]. intros Hv. rewrite strip_valid in Em by done. unfold _role_at_most in Em. apply Z.leb_gt in Em.
      destruct (role_order_valid _ 99 Hv) as [E' _]. rewrite E' in Em. unfold level in *. lia.
Qed.

Lemma prefix_split (p s t : string) : after_prefix p s = Some t -> s = p +:+ t.
Proof.
  revert s. induction p as [|c p IH]; intros s; cbn; [by destruct s; intros [= <-]|]. destruct s as [|c' s]; [done|].
  destruct (Ascii.eqb_spec c c') as [->|]; [|done]. intros H. by rewrite (IH s H).
Qed.

Section laws.
Context {SO : SetOrder Z} (_hash_token : string -> string) (jwt_decode : Z -> string -> option (option string)).

#[local] Abbreviation verify_token := (verify_token _hash_token).
#[local] Abbreviation get_current_user := (get_current_user _hash_token jwt_decode).
#[local] Abbreviation create_api_token := (create_api_token _hash_token jwt_decode).
#[local] Abbreviation dispatch := (dispatch _hash_token jwt_decode).

(** A row that stands for the token now, and its user. *)
Definition live_token (now : Z) (plaintext : string) (d : adb) (i : Z) (u : user) (t : api_token) : Prop :=
  after_prefix TOKEN_PREFIX plaintext <> None /\
  (exists k, api_tokens d !! k = Some t) /\ token_hash t = _hash_token plaintext /\ token_prefix t = _prefix_of plaintext /\
  (forall e, expires_at t = Some e -> now <= e) /\ tk_user t = i /\ users d !! i = Some u /\ is_active u = true.

Lemma verify_live now token d i u t : verify_token now token d = Ok (i, u, t) -> live_token now token d i u t.
Proof.
  unfold Accounts.verify_token. case_bool_decide as Hp; [done|]. set (l := select _ _).
  destruct (list_find _ l) as [[n [k t']]|] eqn:Ef; [|done]. cbn [fmap option_fmap option_map snd].
  apply list_find_Some in Ef as (Hn & Hh & _). apply list_elem_of_lookup_2 in Hn. unfold l in Hn. apply elem_of_select in Hn as [Hk Hpre].
  apply String.eqb_eq in Hpre. cbn in Hh.
  destruct (match expires_at t' with Some e => e <? now | None => false end) eqn:He; [done|].
  destruct (users d !! tk_user t') as [u'|] eqn:Eu; [|done]. destruct (is_active u') eqn:Ea; [|done]. intros [= <- <- <-].
  split; [done|]. split; [by exists k|]. do 2 (split; [done|]). split; [|done]. intros e Ee. rewrite Ee in He. by apply Z.ltb_ge in He.
Qed.

(** The hashes of tokens are unique: a constraint of the table. *)
Definition hashes_unique (d : adb) : Prop := forall i j s t, api_tokens d !! i = Some s -> api_tokens d !! j = Some t -> token_hash s = token_hash t -> i = j.

Lemma live_verify now token d i u t : hashes_unique d -> live_token now token d i u t -> verify_token now token d = Ok (i, u, t).
Proof.
  intros Hu (Hp & [k Hk] & Hh & Hpre & He & Ht & Hi & Ha). unfold Accounts.verify_token. rewrite bool_decide_eq_false_2 by done.
  set (l := select _ _). assert (Hin : (k, t) ∈ l) by (apply elem_of_select; split; [done|]; by apply String.eqb_eq).
  destruct (list_find (fun it : Z * api_token => token_hash it.2 = _hash_token token) l) as [[n [k' t']]|] eqn:Ef.
  - apply list_find_Some in Ef as (Hn & Hh' & _). apply list_elem_of_lookup_2 in Hn. apply elem_of_select in Hn as [Hk' _]. cbn in Hh'.
    assert (k' = k) as -> by (apply (Hu k' k t' t Hk' Hk); congruence). rewrite Hk in Hk'. injection Hk' as <-.
    cbn [fmap option_fmap option_map snd]. destruct (expires_at t) as [e|] eqn:Ee.
    + specialize (He e eq_refl). destruct (Z.ltb_spec e now); [lia|]. by rewrite Ht, Hi, Ha.
    + by rewrite Ht, Hi, Ha.
  - rewrite list_find_None, Forall_forall in Ef. by apply Ef in Hin.
Qed.

(** ** Which requests pass *)

(** The account that a bearer token stands for. *)
Definition stands_for (now : Z) (token : string) (d : adb) (u : user) : Prop :=
  if decide (after_prefix TOKEN_PREFIX token = None)
  then exists name i, jwt_decode now token = Some (Some name) /\ by_username name d = Some (i, u) /\ is_active u = true
  else exists i t, live_token now token d i u t.

Definition may_go_on (path : string) (u : user) : Prop := must_change_password u = true -> rstrip_slashes path ∈ PASSWORD_CHANGE_EXEMPT_PATHS.

Lemma enforce_Ok path u x : enforce_password_change path u = Ok x <-> may_go_on path u.
Proof.
  unfold enforce_password_change, may_go_on. destruct x. destruct (must_change_password u); cbn; [|split; [done|intros _; done]].
  case_bool_decide; split; try done; intros H'; by specialize (H' eq_refl).
Qed.

(** C16. With authentication on, the middleware lets a request pass exactly when it is one
    of the exempt ones or its bearer token stands for an active account - a token of
    the table that has not expired, or a JWT of its name - that has no password to
    change, or asks for the change. *)
Theorem access_decided now rq d (UNIQUE : hashes_unique d) :
  dispatch true now rq d = CallNext <->
  exempt rq = true \/ exists token u, bearer (authorization rq) = Some token /\ stands_for now token d u /\ may_go_on (rq_path rq) u.
Proof.
  unfold Accounts.dispatch. cbn [negb]. destruct (exempt rq); [split; [by left|done]|].
  destruct (bearer (authorization rq)) as [token|]; [|split; [done|intros [?|(? & ? & ? & _)]; done]].
  unfold stands_for. destruct (decide (after_prefix TOKEN_PREFIX token = None)) as [Hp|Hp].
  - rewrite bool_decide_eq_false_2 by (by rewrite Hp; intros []).
    unfold decode_token, token_user_state, get_user_from_token, decode_token.
    split.
    + destruct (jwt_decode now token) as [[name|]|] eqn:Ej; cbn; try done.
      destruct (by_username name d) as [[i u]|] eqn:Eu; cbn; [|done]. destruct (is_active u) eqn:Ea; cbn; [|done].
      destruct (enforce_password_change (rq_path rq) u) as [x|e] eqn:Ee; [|by destruct e]. intros _. right. exists token, u.
      split; [done|]. rewrite decide_True by done. split; [by exists name, i|]. by apply (enforce_Ok _ _ x).
    + intros [?|(token' & u & [= <-] & Hs & Hm)]; [done|]. rewrite decide_True in Hs by done. destruct Hs as (name & i & -> & Hu & Ha). cbn. rewrite Hu. cbn.
      rewrite Ha. by apply (enforce_Ok _ _ tt) in Hm as ->.
  - rewrite bool_decide_eq_true_2 by done. split.
    + destruct (verify_token now token d) as [[[i u] t]|e] eqn:Ev; cbn; [|destruct e; try done]. 
      destruct (enforce_password_change (rq_path rq) u) as [x|e] eqn:Ee; [|by destruct e]. intros _. right. exists token, u.
      split; [done|]. rewrite decide_False by done. split; [exists i, t; by apply verify_live|]. by apply (enforce_Ok _ _ x).
    + intros [?|(token' & u & [= <-] & Hs & Hm)]; [done|]. rewrite decide_False in Hs by done. destruct Hs as (i & t & Hl).
      rewrite (live_verify now token d i u t UNIQUE Hl). cbn. by apply (enforce_Ok _ _ tt) in Hm as ->.
Qed.

(** ** What a token can do *)

Lemma principal_of_token now path token d p : after_prefix TOKEN_PREFIX token <> None ->
  get_current_user now path (Some ("Bearer " +:+ token)) d = Ok p ->
  exists i u t, verify_token now token d = Ok (i, u, t) /\ p = {| p_id := i; p_user := u; request_role := Some (clamp_role (tk_role t) (u_role u)) |}.
Proof.
  intros Hp. unfold Accounts.get_current_user, bearer.
  assert (E : (h ← Some ("Bearer " +:+ token); after_prefix "Bearer " h) = Some token) by reflexivity. rewrite E.
  rewrite bool_decide_eq_true_2 by done. destruct (verify_token now token d) as [[[i u] t]|e]; cbn; [|done].
  destruct (enforce_password_change path u); cbn; [|done]. intros [= <-]. by exists i, u, t.
Qed.

Lemma clamp_nonempty t u : u ∈ VALID_ROLES -> clamp_role t u ∈ VALID_ROLES.
Proof.
  intros Hu. unfold clamp_role. rewrite account_role_valid by done. destruct (_ || _) eqn:E; [done|].
  apply orb_false_iff in E as [_ E]. apply negb_false_iff, bool_decide_eq_true in E. by destruct (_role_at_most _ _).
Qed.

Lemma effective_of_token i u r : r ∈ VALID_ROLES -> effective_role {| p_id := i; p_user := u; request_role := Some r |} = r.
Proof. intros H. unfold effective_role. cbn. destruct (String.eqb_spec r "") as [->|]; [by apply valid_not_empty in H|done]. Qed.

Lemma created_role new_id now body uid u name role days r d d' t : r ∈ VALID_ROLES ->
  create_token _hash_token new_id now body uid u name role days (Some r) d = (d', Ok t) ->
  tk_role t ∈ VALID_ROLES /\ level (tk_role t) <= level r /\ token_hash t = _hash_token (TOKEN_PREFIX +:+ body) /\ tk_user t = uid /\
  d' = with_tokens <[new_id := t]> d.
Proof.
  intros Hr. unfold create_token. destruct (String.eqb _ _); [done|]. cbn zeta.
  cbn [or_else]. rewrite (proj2 (String.eqb_neq r "")) by (by apply valid_not_empty). cbn [default from_option id].
  change (default "viewer" (Some r)) with r. rewrite (strip_valid r Hr). set (eff := strip _).
  destruct (negb (bool_decide (eff ∈ VALID_ROLES))) eqn:Ev; [done|]. apply negb_false_iff, bool_decide_eq_true in Ev.
  destruct (negb (_role_at_most eff r)) eqn:Em; [done|]. apply negb_false_iff in Em. destruct (match days with Some _ => _ | None => _ end); [done|].
  intros [= <- <-]. cbn. split; [done|]. split; [by apply at_most_level|done].
Qed.

(** What a holder of tokens and everybody else do: others change accounts and tokens
    in any way that draws no token the holder has; the holder makes tokens with the
    tokens it holds. *)
Inductive token_step : adb * list string -> adb * list string -> Prop :=
| others_act d d' held :
    (forall i t, api_tokens d' !! i = Some t -> api_tokens d !! i = Some t \/ token_hash t ∉ _hash_token <$> held) ->
    (forall i u, users d' !! i = Some u -> u_role u ∈ VALID_ROLES) ->
    token_step (d, held) (d', held)
| holder_mints d d' held token new_id now body path name role days t :
    token ∈ held -> api_tokens d !! new_id = None ->
    (forall i t', api_tokens d !! i = Some t' -> token_hash t' <> _hash_token (TOKEN_PREFIX +:+ body)) ->
    create_api_token new_id now body path (Some ("Bearer " +:+ token)) name role days d = (d', Ok t) ->
    token_step (d, held) (d', (TOKEN_PREFIX +:+ body) :: held).

(** All that is held is of a role at most [L]. *)
Record confined (L : Z) (s : adb * list string) : Prop := {
  cf_prefix token : token ∈ s.2 -> after_prefix TOKEN_PREFIX token <> None;
  cf_tokens i t : api_tokens s.1 !! i = Some t -> token_hash t ∈ _hash_token <$> s.2 -> tk_role t ∈ VALID_ROLES /\ level (tk_role t) <= L;
  cf_users i u : users s.1 !! i = Some u -> u_role u ∈ VALID_ROLES
}.

Lemma confined_role L s now path token p : confined L s -> token ∈ s.2 -> get_current_user now path (Some ("Bearer " +:+ token)) s.1 = Ok p ->
  effective_role p ∈ VALID_ROLES /\ level (effective_role p) <= L /\ level (effective_role p) <= level (u_role (p_user p)).
Proof.
  intros [Hp Ht Hu] Hin Hg. destruct (principal_of_token now path token s.1 p (Hp token Hin) Hg) as (i & u & t & Hv & ->).
  destruct (verify_live now token s.1 i u t Hv) as (_ & [k Hk] & Hh & _ & _ & _ & Hi & _).
  destruct (Ht k t Hk) as [Hr Hl]; [rewrite Hh; apply list_elem_of_fmap; by exists token|].
  pose proof (Hu i u Hi) as Hur. rewrite effective_of_token by (by apply clamp_nonempty). cbn [p_user].
  destruct (clamp_level (tk_role t) (u_role u)) as [H1 H2]. rewrite account_role_valid in H1 by done.
  split; [by apply clamp_nonempty|]. split; [etrans; [by apply H2|done]|done].
Qed.

Lemma token_step_confined L s s' : confined L s -> token_step s s' -> confined L s'.
Proof.
  intros Hc Hs. destruct Hs as [d d' held Hold Husers|d d' held token new_id now body path name role days t Hin Hnew Hfresh Hmint].
  - destruct Hc as [Hp Ht _]. split; cbn in *; [done| |done]. intros i t Hi Hh. destruct (Hold i t Hi) as [H|H]; [by apply (Ht i)|done].
  - unfold Accounts.create_api_token in Hmint. destruct (get_current_user now path _ d) as [p|e] eqn:Eg; [|done].
    destruct (confined_role L _ now path token p Hc Hin Eg) as (Hr & Hl & _).
    destruct (created_role _ _ _ _ _ _ _ _ _ _ _ _ Hr Hmint) as (Hv & Hle & Hh & _ & ->). destruct Hc as [Hp Ht Hu]. split; cbn [fst snd] in *.
    + intros tok [->|Htok]%elem_of_cons; [by cbn|by apply Hp].
    + intros i t' Hi Hh'. cbn in Hi. destruct (decide (i = new_id)) as [->|Hne].
      * rewrite lookup_insert_eq in Hi. injection Hi as <-. split; [done|lia].
      * rewrite lookup_insert_ne in Hi by done. destruct (decide (token_hash t' ∈ _hash_token <$> held)) as [Hin'|Hout]; [by apply (Ht i)|].
        cbn in Hh'. apply elem_of_cons in Hh' as [Hh'|Hh']; [|done]. by apply (Hfresh i t') in Hh'.
    + exact Hu.
Qed.

Lemma run_confined L s s' : confined L s -> rtc token_step s s' -> confined L s'.
Proof. intros Hc Hr. induction Hr as [|s1 s2 s3 Hs Hr IH]; [done|]. by apply IH, (token_step_confined L s1). Qed.

Lemma require_role_level allowed p : (forall r, r ∈ allowed -> level (effective_role p) < level r) -> require_role allowed p = Err (ForbiddenError "Requires role").
Proof. intros H. unfold require_role, ensure. rewrite bool_decide_eq_false_2; [done|]. intros Hin. specialize (H _ Hin). lia. Qed.

(** C17. Whoever starts with tokens up to a role never comes to use more: of all the tokens
    it makes with them, one with the other, in whatever way accounts and the other
    tokens change meanwhile, each is used with at most that role and at most the role
    its account has at the time. *)
Theorem held_tokens_confined L s s' now path token p
    (START : confined L s) (RUN : rtc token_step s s') (HELD : token ∈ s'.2)
    (USED : get_current_user now path (Some ("Bearer " +:+ token)) s'.1 = Ok p) :
  level (effective_role p) <= L /\ level (effective_role p) <= level (u_role (p_user p)) /\
  (L < 3 -> is_Ok (require_admin p) = false) /\ (L < 2 -> is_Ok (require_operator p) = false).
Proof.
  destruct (confined_role L s' now path token p (run_confined L s s' START RUN) HELD USED) as (_ & H1 & H2).
  do 2 (split; [done|]). split; intros HL; unfold require_admin, require_operator; rewrite require_role_level; try done;
    intros r; rewrite ?elem_of_cons, elem_of_nil; [intros [->|[]]|intros [->|[->|[]]]]; cbn; lia.
Qed.
End laws.

(** ** Who is left to administer *)

Section admins.
Context {SO : SetOrder Z} (hash_password : Z -> string -> string) (verify_password : string -> string -> bool)
  (_hash_token : string -> string) (jwt_decode : Z -> string -> option (option string)).

(** The requests that change accounts. *)
Inductive account_request (d : adb) : adb -> Prop :=
| rq_create new_id salt now path header name mail password role must : users d !! new_id = None ->
    account_request d (create_new_user hash_password _hash_token jwt_decode new_id salt now path header name mail password role must d).1
| rq_update now path header target q : account_request d (update_user verify_password _hash_token jwt_decode now path header target q d).1
| rq_delete now path header target : account_request d (delete_user _hash_token jwt_decode now path header target d).1
| rq_password salt now path header current new : account_request d (change_user_password hash_password verify_password _hash_token jwt_decode salt now path header current new d).1
| rq_token new_id now body path header name role days :
    account_request d (create_api_token _hash_token jwt_decode new_id now body path header name role days d).1
| rq_revoke now path header i : account_request d (revoke_api_token _hash_token jwt_decode now path header i d).1.

Definition roles_valid (d : adb) : Prop := forall i u, users d !! i = Some u -> u_role u ∈ VALID_ROLES.
Definition active_admin (d : adb) : Prop := exists i u, users d !! i = Some u /\ is_active u = true /\ u_role u = ROLE_ADMIN.

Lemma principal_row now path header d p : get_current_user _hash_token jwt_decode now path header d = Ok p ->
  users d !! p_id p = Some (p_user p) /\ is_active (p_user p) = true /\
  (request_role p = None \/ exists t, request_role p = Some (clamp_role t (u_role (p_user p)))).
Proof.
  unfold get_current_user. destruct (bearer header) as [token|]; [|done]. case_bool_decide.
  - destruct (verify_token _hash_token now token d) as [[[i u] t]|e] eqn:Ev; cbn; [|done]. destruct (enforce_password_change path u); cbn; [|done].
    intros [= <-]. apply verify_live in Ev as (_ & _ & _ & _ & _ & _ & Hu & Ha). cbn. do 2 (split; [done|]). right. by eexists.
  - unfold get_user_from_token. destruct (decode_token jwt_decode now token) as [name|e]; cbn; [|done].
    destruct (by_username name d) as [[i u]|] eqn:Eu; [|done]. destruct (is_active u) eqn:Ea; cbn; [|done].
    destruct (enforce_password_change path u); cbn; [|done]. intros [= <-]. cbn. split; [|split; [done|by left]].
    unfold by_username, user_where in Eu. destruct (select _ (users d)) as [|x l] eqn:El; [done|]. injection Eu as ->.
    apply (elem_of_select (fun _ u => String.eqb (username u) name) (users d) i u). rewrite El. apply elem_of_cons. by left.
Qed.

Lemma admin_principal now path header d p : roles_valid d -> admin_route _hash_token jwt_decode now path header d = Ok p ->
  users d !! p_id p = Some (p_user p) /\ is_active (p_user p) = true /\ u_role (p_user p) = ROLE_ADMIN.
Proof.
  intros Hv. unfold admin_route. destruct (get_current_user _ _ _ _ _ _) as [p0|e] eqn:Eg; cbn; [|done].
  destruct (require_admin p0) as [x|e] eqn:Er; cbn; [|done]. intros [= ->]. destruct (principal_row _ _ _ _ _ Eg) as (Hu & Ha & Hr).
  do 2 (split; [done|]). unfold require_admin, require_role, ensure in Er. case_bool_decide as Hin; [|done]. apply list_elem_of_singleton in Hin.
  pose proof (Hv _ _ Hu) as Hrole. destruct Hr as [Hr|[t Hr]].
  - unfold effective_role in Hin. by rewrite Hr in Hin.
  - assert (Hp : p = {| p_id := p_id p; p_user := p_user p; request_role := Some (clamp_role t (u_role (p_user p))) |}) by (rewrite <- Hr; by destruct p).
    rewrite Hp, effective_of_token in Hin by (by apply clamp_nonempty). destruct (clamp_level t (u_role (p_user p))) as [Hl _].
    rewrite Hin, account_role_valid in Hl by done. unfold VALID_ROLES in Hrole. rewrite !elem_of_cons, elem_of_nil in Hrole.
    destruct Hrole as [E|[E|[E|[]]]]; rewrite E in Hl |- *; [cbn in Hl; lia..|done].
Qed.

Lemma updated_user_row target t q d t' : updated_user verify_password target t q d = Ok t' ->
  u_role t' = default (u_role t) (uq_role q) /\ is_active t' = default (is_active t) (uq_active q) /\ (forall r, uq_role q = Some r -> r ∈ ALL_ROLES).
Proof.
  unfold updated_user. destruct q as [r e a]. cbn.
  destruct r as [r|]; [case_bool_decide as Hr|]; cbn; try done;
  (destruct e as [e|]; [case_bool_decide|]; cbn; try done);
  (destruct a as [a|]; [destruct (_ && _)|]; cbn; try done; intros [= <-]; cbn; by repeat split; intros; simplify_eq).
Qed.

(** C18. Roles stay valid, and there stays an active administrator: nobody takes the last
    one away, in any request that changes accounts. *)
Theorem an_admin_remains d d' (ROLES : roles_valid d) (ADMIN : active_admin d) (REQUEST : account_request d d') : roles_valid d' /\ active_admin d'.
Proof.
  destruct REQUEST as [new_id salt now path header name mail password role must Hnew|now path header target q|now path header target
    |salt now path header current new|new_id now body path header name role days|now path header i].
  - unfold create_new_user. destruct (admin_route _ _ _ _ _ _) as [p|e]; [|done]. unfold create_user.
    destruct (by_username name d); [done|]. destruct (by_email mail d); [done|]. destruct (negb (bool_decide (role ∈ _))) eqn:Er; [done|].
    apply negb_false_iff, bool_decide_eq_true in Er. cbn. split.
    + intros j u Hj. cbn [users with_users fst] in Hj. destruct (decide (j = new_id)) as [->|Hne]; [rewrite lookup_insert_eq in Hj; injection Hj as <-; by apply all_valid|].
      rewrite lookup_insert_ne in Hj by done. by apply (ROLES j).
    + destruct ADMIN as (j & u & Hj & Ha). exists j, u. split; [|done]. cbn. rewrite lookup_insert_ne; [done|]. intros ->. congruence.
  - unfold update_user. destruct (admin_route _ _ _ _ _ _) as [p|e] eqn:Ep; [|done]. destruct (admin_principal _ _ _ _ _ ROLES Ep) as (Hp & Hpa & Hpr).
    destruct (users d !! target) as [t|] eqn:Et; [|done]. destruct (_ && _) eqn:Es; [done|]. destruct (_ && bool_decide _) eqn:Ea; [done|].
    destruct (updated_user _ target t q d) as [t'|e] eqn:Eu; [|done]. destruct (updated_user_row _ _ _ _ _ Eu) as (H1 & H2 & H3). cbn. split.
    + intros j u Hj. cbn [users with_users fst] in Hj. destruct (decide (j = target)) as [->|Hne]; [|rewrite lookup_insert_ne in Hj by done; by apply (ROLES j)].
      rewrite lookup_insert_eq in Hj. injection Hj as <-. rewrite H1. destruct (uq_role q) as [r|]; [by apply all_valid, H3|by apply (ROLES target)].
    + destruct (decide (p_id p = target)) as [E|Hne].
      * exists target, t'. cbn. rewrite lookup_insert_eq. split; [done|]. rewrite E in Hp. rewrite Et in Hp. injection Hp as ->.
        rewrite E, Z.eqb_refl in Es, Ea. cbn in Es, Ea. apply bool_decide_eq_false in Ea. split.
        { rewrite H2. destruct (uq_active q) as [[|]|]; [done|by destruct Ea|done]. }
        rewrite H1. destruct (uq_role q) as [r|] eqn:Er; [|done]. cbn. specialize (H3 r eq_refl). apply andb_false_iff in Es as [Es|Es].
        { apply negb_false_iff, String.eqb_eq in Es. subst r. by apply all_valid, valid_not_empty in H3. }
        { by apply negb_false_iff, String.eqb_eq in Es. }
      * exists (p_id p), (p_user p). cbn. by rewrite lookup_insert_ne.
  - unfold delete_user. destruct (admin_route _ _ _ _ _ _) as [p|e] eqn:Ep; [|done]. destruct (admin_principal _ _ _ _ _ ROLES Ep) as (Hp & Hpa & Hpr).
    destruct (Z.eqb_spec (p_id p) target) as [|Hne]; [done|]. destruct (users d !! target) as [t0|] eqn:Et0; [|done]. clear Et0. cbn. split.
    + intros j u Hj. cbn [users drop_user fst] in Hj. apply lookup_delete_Some in Hj as [_ Hj]. by apply (ROLES j).
    + exists (p_id p), (p_user p). cbn. by rewrite lookup_delete_ne.
  - unfold change_user_password. destruct (get_current_user _ _ _ _ _ _) as [p|e]; [|done]. unfold change_password.
    destruct (negb _); [done|]. destruct (_ <? _)%nat; [done|]. cbn. split.
    + intros j u Hj. cbn [users with_users fst] in Hj. apply lookup_alter_Some in Hj as [(Ej & u0 & Hu0 & ->)|[_ Hj]]; [exact (ROLES _ u0 Hu0)|by apply (ROLES j)].
    + destruct ADMIN as (j & u & Hj & Ha & Hr). destruct (decide (j = p_id p)) as [->|Hne].
      * exists (p_id p), (set_password (hash_password salt new) false u). cbn. by rewrite lookup_alter_eq, Hj.
      * exists j, u. cbn. by rewrite lookup_alter_ne.
  - unfold create_api_token. destruct (get_current_user _ _ _ _ _ _) as [p|e]; [|done]. unfold create_token.
    by repeat (case_match; [|]); try done.
  - unfold revoke_api_token. destruct (get_current_user _ _ _ _ _ _) as [p|e]; [|done]. unfold revoke_token.
    destruct (api_tokens d !! i) as [t|]; [|done]. by destruct (_ =? _).
Qed.
End admins.

(** ** Shipped passwords *)

Lemma admin_known : _KNOWN_DEFAULT_ADMIN_PASSWORDS ⊆ MCP_KNOWN_DEFAULT_PASSWORDS.
Proof. unfold _KNOWN_DEFAULT_ADMIN_PASSWORDS, MCP_KNOWN_DEFAULT_PASSWORDS. set_solver. Qed.

Section start.
Context {SO : SetOrder Z} (hash_password : Z -> string -> string) (verify_password : string -> string -> bool)
  (_hash_token : string -> string) (jwt_decode : Z -> string -> option (option string)).

#[local] Abbreviation seed_auth_step := (seed_auth_step hash_password verify_password).

Definition names_unique (d : adb) : Prop := forall i j u v, users d !! i = Some u -> users d !! j = Some v -> username u = username v -> i = j.
Definition never_reserved (d : adb) : Prop := forall i u, users d !! i = Some u -> is_service_account u = true -> _is_reserved_human_username (username u) = false.

(** The account [admin] does not have the password it was shipped with. *)
Definition admin_sealed (d : adb) : Prop := forall i u, users d !! i = Some u -> username u = "admin" ->
  holds_one_of verify_password _KNOWN_DEFAULT_ADMIN_PASSWORDS u = false.
Definition services_sealed (d : adb) : Prop := forall i u, users d !! i = Some u -> is_active u = true -> is_service_account u = true ->
  holds_known_default_password verify_password u = false.

Lemma by_username_spec name d :
  match by_username name d with
  | Some (i, u) => users d !! i = Some u /\ username u = name
  | None => forall i u, users d !! i = Some u -> username u <> name
  end.
Proof.
  unfold by_username, user_where. set (l := select _ _).
  assert (Hl : forall i u, (i, u) ∈ l <-> users d !! i = Some u /\ username u = name).
  { intros i u. unfold l. rewrite elem_of_select. by rewrite String.eqb_eq. }
  destruct l as [|[i u] l]; cbn.
  - intros i u Hi Hn. apply (not_elem_of_nil (i, u)), Hl. done.
  - apply Hl, elem_of_cons. by left.
Qed.

(** Names and flags as before. *)
Definition same_names (d d' : adb) : Prop := forall i, ((fun u => (username u, is_service_account u)) <$> users d' !! i) = ((fun u => (username u, is_service_account u)) <$> users d !! i).
Lemma same_names_unique d d' : same_names d d' -> names_unique d -> names_unique d'.
Proof.
  intros Hs Hu i j u v Hi Hj E. pose proof (Hs i) as Hsi. pose proof (Hs j) as Hsj. rewrite Hi in Hsi. rewrite Hj in Hsj.
  destruct (users d !! i) as [u0|] eqn:Ei; [|done]. destruct (users d !! j) as [v0|] eqn:Ej; [|done]. cbn in Hsi, Hsj. simplify_eq.
  apply (Hu i j u0 v0); congruence.
Qed.
Lemma same_names_reserved d d' : same_names d d' -> never_reserved d -> never_reserved d'.
Proof.
  intros Hs Hr i u Hi Hsv. pose proof (Hs i) as Hsi. rewrite Hi in Hsi. destruct (users d !! i) as [u0|] eqn:Ei; [|done]. cbn in Hsi. simplify_eq.
  match goal with H : username u = username u0 |- _ => rewrite H end. apply (Hr i); [done|congruence].
Qed.
Lemma alter_same i f d : (forall u, username (f u) = username u /\ is_service_account (f u) = is_service_account u) -> same_names d (with_users (alter f i) d).
Proof.
  intros Hf j. cbn. destruct (decide (j = i)) as [->|Hj]; [|by rewrite lookup_alter_ne].
  rewrite lookup_alter_eq. destruct (users d !! i) as [u|]; [|done]. cbn. by destruct (Hf u) as [-> ->].
Qed.

(** bcrypt tells the shipped passwords, which are short, from all others. *)
Hypothesis BCRYPT : forall salt p q, p ∈ MCP_KNOWN_DEFAULT_PASSWORDS -> verify_password p (hash_password salt q) = true -> q = p.

Lemma sealed_by salt q known : known ⊆ MCP_KNOWN_DEFAULT_PASSWORDS -> q ∉ known ->
  forall u, hashed_password u = hash_password salt q -> holds_one_of verify_password known u = false.
Proof using BCRYPT.
  intros Hk Hq u Hu. unfold holds_one_of. rewrite Hu. apply not_true_is_false. intros H. apply existsb_exists in H as (p & Hp & Hv).
  apply list_elem_of_In in Hp. apply BCRYPT in Hv; [by subst|by apply Hk].
Qed.
Lemma reset_sealed i salt q must d : q ∉ _KNOWN_DEFAULT_ADMIN_PASSWORDS -> names_unique d -> (exists u, users d !! i = Some u /\ username u = "admin") ->
  admin_sealed (with_users (alter (set_password (hash_password salt q) must) i) d).
Proof using BCRYPT.
  intros Hq Hu (u0 & Hu0 & Hn0) j u Hj Hn. cbn in Hj. apply lookup_alter_Some in Hj as [(<- & u1 & _ & ->)|[Hne Hj]].
  - apply (sealed_by salt q); [apply admin_known|done|done].
  - exfalso. apply Hne. apply (Hu i j u0 u); congruence.
Qed.

(** What the random draws of a start are not. *)
Definition draws_random (w : draws) : Prop := (drawn_password w ∉ MCP_KNOWN_DEFAULT_PASSWORDS) /\ forall i, drawn_secret w i ∉ MCP_KNOWN_DEFAULT_PASSWORDS.

Lemma seed_admin_sealed cfg w d d' : draws_random w -> names_unique d -> never_reserved d ->
  seed_admin_user hash_password verify_password cfg w d = (d', true) -> names_unique d' /\ never_reserved d' /\ admin_sealed d'.
Proof using BCRYPT.
  intros [Hdr _] Hu Hr. assert (Hdr' : drawn_password w ∉ _KNOWN_DEFAULT_ADMIN_PASSWORDS) by (intros H; by apply Hdr, admin_known).
  unfold seed_admin_user. case_bool_decide as He; cbn [negb].
  - set (chosen := match or_else _ _ with Some p => _ | None => _ end).
    assert (Hch : default (drawn_password w) chosen ∉ _KNOWN_DEFAULT_ADMIN_PASSWORDS).
    { unfold chosen. destruct (or_else _ _) as [p|]; [|done]. by case_bool_decide. }
    unfold create_user. pose proof (by_username_spec "admin" d) as Hb. destruct (by_username "admin" d) as [[i u]|]; [by rewrite He in Hb; destruct Hb|].
    destruct (by_email _ d) as [[i u]|] eqn:Em.
    { intros [= <-]. do 2 (split; [done|]). intros j v Hj. by rewrite He in Hj. }
    cbn [bool_decide]. destruct (negb (bool_decide _)); [intros [= <-]; do 2 (split; [done|]); intros j v Hj; by rewrite He in Hj|].
    destruct (_ && _); [done|]. intros [= <-].
    assert (Hone : forall j v, users (with_users <[admin_id w := {| username := "admin"; email := "admin@bnk-forge.local"; hashed_password := hash_password (admin_salt w) (default (drawn_password w) chosen);
      u_role := "admin"; is_active := true; must_change_password := DEFAULT_ADMIN_MUST_CHANGE cfg; is_service_account := false |}]> d) !! j = Some v ->
      j = admin_id w /\ is_service_account v = false /\ hashed_password v = hash_password (admin_salt w) (default (drawn_password w) chosen)).
    { intros j v Hj. cbn in Hj. rewrite He in Hj. apply lookup_insert_Some in Hj as [[<- <-]|[_ Hj]]; [done|by rewrite lookup_empty in Hj]. }
    split; [|split].
    + intros j k v x Hj Hk _. apply Hone in Hj as [-> _], Hk as [-> _]. done.
    + intros j v Hj Hs. apply Hone in Hj as (_ & Hf & _). congruence.
    + intros j v Hj _. apply Hone in Hj as (_ & _ & Hh). by apply (sealed_by (admin_salt w) (default (drawn_password w) chosen)); [apply admin_known|..].
  - unfold _rotate_known_default_admin. pose proof (by_username_spec "admin" d) as Hb. destruct (by_username "admin" d) as [[i u]|].
    2:{ intros [= <-]. do 2 (split; [done|]). intros j v Hj Hn. by apply Hb in Hj. }
    destruct Hb as [Hi Hn].
    destruct (holds_one_of _ _ u) eqn:Eh; cbn [negb].
    2:{ intros [= <-]. do 2 (split; [done|]). intros j v Hj Hnv. assert (j = i) as -> by (apply (Hu j i v u); congruence). by simplify_eq. }
    assert (Hreset : forall q must, q ∉ _KNOWN_DEFAULT_ADMIN_PASSWORDS -> let d1 := with_users (alter (set_password (hash_password (admin_salt w) q) must) i) d in
      names_unique d1 /\ never_reserved d1 /\ admin_sealed d1).
    { intros q must Hq. assert (Hs : same_names d (with_users (alter (set_password (hash_password (admin_salt w) q) must) i) d)) by (by apply alter_same).
      split; [by apply (same_names_unique d)|]. split; [by apply (same_names_reserved d)|]. apply reset_sealed; [done..|by exists u]. }
    destruct (or_else _ _) as [p|].
    + case_bool_decide; cbn [negb].
      * destruct (keys_dir_writable cfg); [|done]. intros [= <-]. by apply Hreset.
      * intros [= <-]. by apply Hreset.
    + destruct (keys_dir_writable cfg); [|done]. intros [= <-]. by apply Hreset.
Qed.

Lemma disable_spec w skip d : draws_random w -> admin_sealed d ->
  let d' := disable_stale_service_user hash_password w skip d in
  same_names d d' /\ admin_sealed d' /\
  forall i u, users d' !! i = Some u -> is_active u = true -> is_service_account u = true -> skip = Some (username u).
Proof using BCRYPT.
  intros [_ Hdr] Ha. cbn zeta. unfold disable_stale_service_user. split; [|split].
  - intros i. cbn. rewrite map_lookup_imap. destruct (users d !! i) as [u|]; [|done]. cbn. by destruct (_ && _).
  - intros i u Hi Hn. cbn in Hi. rewrite map_lookup_imap in Hi. destruct (users d !! i) as [u0|] eqn:Eu; [|done]. cbn in Hi. injection Hi as <-.
    destruct (_ && _).
    + eapply (sealed_by _ (drawn_secret w i)); [apply admin_known|intros H; by apply (Hdr i), admin_known|done].
    + by apply (Ha i).
  - intros i u Hi Hact Hsv. cbn in Hi. rewrite map_lookup_imap in Hi. destruct (users d !! i) as [u0|] eqn:Eu; [|done]. cbn in Hi. injection Hi as <-.
    destruct (is_active u0 && is_service_account u0 && _) eqn:Eb; [done|]. rewrite Hact, Hsv in Eb. cbn in Eb. by apply negb_false_iff, bool_decide_eq_true in Eb.
Qed.

Lemma usable_password cfg : mcp_password_usable cfg = true -> exists p, or_else (MCP_SERVICE_PASSWORD cfg) None = Some p /\ p ∉ MCP_KNOWN_DEFAULT_PASSWORDS.
Proof.
  unfold mcp_password_usable. destruct (or_else _ _) as [p|]; [|done]. intros H. apply negb_true_iff, bool_decide_eq_false in H. by exists p.
Qed.

(** What reconciling the service account leaves, when every other one is disabled. *)
Lemma ensure_sealed w name password d p : or_else password None = Some p -> p ∉ MCP_KNOWN_DEFAULT_PASSWORDS ->
  users d !! service_id w = None -> names_unique d -> never_reserved d -> admin_sealed d ->
  (forall i u, users d !! i = Some u -> is_active u = true -> is_service_account u = true -> name = username u) ->
  let '(d', r) := ensure_service_user hash_password verify_password w name password "admin" d in
  match r with
  | Ok _ => admin_sealed d' /\ services_sealed d'
  | Err _ => services_sealed d
  end.
Proof using BCRYPT.
  intros Hpw Hp Hid Hu Hr Ha Hname. unfold ensure_service_user.
  destruct (_is_reserved_human_username name) eqn:Eres.
  { intros i u Hi Hact Hsv. exfalso. pose proof (Hr i u Hi Hsv) as H. by rewrite <- (Hname i u Hi Hact Hsv), Eres in H. }
  assert (Hna : name <> "admin") by (intros ->; discriminate Eres).
  rewrite Hpw, bool_decide_eq_false_2 by done. pose proof (by_username_spec name d) as Hb.
  destruct (by_username name d) as [[i u]|] eqn:Eb.
  - destruct Hb as [Hi Hn]. destruct (_ && negb _) eqn:Ead.
    + intros j v Hj Hact Hsv. exfalso. assert (j = i) as -> by (apply (Hu j i v u Hj Hi); rewrite Hn; symmetry; by apply (Hname j)).
      rewrite Hi in Hj. injection Hj as ->. by rewrite Hsv in Ead.
    + split.
      * intros j v Hj Hnv. cbn in Hj. apply lookup_alter_Some in Hj as [(<- & u1 & Hu1 & ->)|[_ Hj]]; [|by apply (Ha j)].
        cbn in Hnv. rewrite Hi in Hu1. injection Hu1 as <-. congruence.
      * intros j v Hj Hact Hsv. cbn in Hj. apply lookup_alter_Some in Hj as [(<- & u1 & Hu1 & ->)|[Hne Hj]].
        -- by apply (sealed_by (service_salt w) p).
        -- exfalso. apply Hne. apply (Hu i j u v Hi Hj). rewrite Hn. by apply (Hname j).
  - assert (Hnone : forall j v, users d !! j = Some v -> is_active v = true -> is_service_account v = true -> False).
    { intros j v Hj Hact Hsv. apply (Hb j v Hj). symmetry. by apply (Hname j). }
    unfold create_user. rewrite Eb. destruct (by_email _ d); [intros j v Hj Hact Hsv; by destruct (Hnone j v)|].
    destruct (negb _); [intros j v Hj Hact Hsv; by destruct (Hnone j v)|]. split.
    + intros j v Hj Hnv. cbn in Hj. apply lookup_alter_Some in Hj as [(<- & u1 & Hu1 & ->)|[Hne Hj]].
      * rewrite lookup_insert_eq in Hu1. injection Hu1 as <-. by cbn in Hnv.
      * rewrite lookup_insert_ne in Hj by done. by apply (Ha j).
    + intros j v Hj Hact Hsv. cbn in Hj. apply lookup_alter_Some in Hj as [(<- & u1 & Hu1 & ->)|[Hne Hj]].
      * rewrite lookup_insert_eq in Hu1. injection Hu1 as <-. by apply (sealed_by (service_salt w) p).
      * rewrite lookup_insert_ne in Hj by done. by destruct (Hnone j v).
Qed.

(** After a start that goes on, no active service account has a password it was ever
    shipped with, and [admin] does not have its own, whatever the settings are. *)
Theorem defaults_revoked cfg w d d' s
    (TABLE : names_unique d /\ never_reserved d) (RANDOM : draws_random w)
    (NEW : forall i u, users d !! i = Some u -> i <> service_id w) (IDS : admin_id w <> service_id w)
    (START : seed_auth_step cfg w d = (d', s)) (GOES_ON : s <> CannotStart) :
  services_sealed d' /\ admin_sealed d'.
Proof using BCRYPT.
  destruct TABLE as [Hu Hr]. unfold Accounts.seed_auth_step in START.
  destruct (seed_admin_user _ _ cfg w d) as [d1 [|]] eqn:Es; [|by injection START as <- <-].
  destruct (seed_admin_sealed cfg w d d1 RANDOM Hu Hr Es) as (Hu1 & Hr1 & Ha1).
  assert (Hid1 : users d1 !! service_id w = None).
  { destruct (users d1 !! service_id w) as [u|] eqn:E; [|done]. exfalso. unfold seed_admin_user in Es. case_bool_decide as He; cbn [negb] in Es.
    - unfold create_user in Es. destruct (by_username _ d); [injection Es as <-; exact (NEW _ u E eq_refl)|].
      destruct (by_email _ d); [injection Es as <-; exact (NEW _ u E eq_refl)|]. destruct (negb (bool_decide _)); [injection Es as <-; exact (NEW _ u E eq_refl)|].
      destruct (_ && _); [done|]. injection Es as <-. cbn in E. rewrite lookup_insert_ne in E by done. exact (NEW _ u E eq_refl).
    - unfold _rotate_known_default_admin in Es.
      assert (Hk : forall i f, users (with_users (alter f i) d) !! service_id w = Some u -> False).
      { intros i f Hi. cbn in Hi. apply lookup_alter_Some in Hi as [(Ei & u0 & Hu0 & _)|[_ Hi]]; [exact (NEW _ _ Hu0 eq_refl)|exact (NEW _ _ Hi eq_refl)]. }
      destruct (by_username _ d) as [[i v]|]; [|injection Es as <-; exact (NEW _ u E eq_refl)].
      destruct (negb _); [injection Es as <-; exact (NEW _ u E eq_refl)|].
      destruct (or_else _ _); [destruct (negb _)|]; try destruct (keys_dir_writable cfg); (done || (injection Es as <-; exact (Hk _ _ E))). }
  pose proof (fun skip => disable_spec w skip d1 RANDOM Ha1) as Hd. cbn zeta in Hd.
  destruct (mcp_password_usable cfg) eqn:Eus.
  - destruct (usable_password cfg Eus) as (p & Hpw & Hp). specialize (Hd (Some (MCP_SERVICE_USERNAME cfg))). destruct Hd as (Hs2 & Ha2 & Hact).
    set (d2 := disable_stale_service_user _ _ _ _) in *.
    assert (Hid2 : users d2 !! service_id w = None).
    { specialize (Hs2 (service_id w)). rewrite Hid1 in Hs2. by destruct (users d2 !! service_id w). }
    pose proof (ensure_sealed w (MCP_SERVICE_USERNAME cfg) (MCP_SERVICE_PASSWORD cfg) d2 p Hpw Hp Hid2 (same_names_unique _ _ Hs2 Hu1) (same_names_reserved _ _ Hs2 Hr1) Ha2) as Hen.
    specialize (Hen ltac:(intros i u Hi H1 H2; specialize (Hact i u Hi H1 H2); congruence)).
    destruct (ensure_service_user _ _ _ _ _ _ _) as [d3 [x|e]].
    + injection START as <- <-. destruct Hen as [H1 H2]. by split.
    + destruct e; injection START as <- <-; done.
  - specialize (Hd None). destruct Hd as (Hs2 & Ha2 & Hact). injection START as <- <-. split; [|done].
    intros i u Hi H1 H2. by specialize (Hact i u Hi H1 H2).
Qed.

(** The tokens of the service account outlive the password they were made with: a
    token that was valid before a start with a new password is valid after it, with
    the same account and role. *)
Theorem tokens_survive_rotation cfg w d now plaintext i u t
    (TOKEN : hashes_unique d /\ live_token _hash_token now plaintext d i u t)
    (ACCOUNT : is_service_account u = true /\ username u = MCP_SERVICE_USERNAME cfg /\ _is_reserved_human_username (username u) = false)
    (TABLE : names_unique d /\ admin_sealed d)
    (PASSWORD : mcp_password_usable cfg = true) :
  let d' := (seed_auth_step cfg w d).1 in
  exists u', verify_token _hash_token now plaintext d' = Ok (i, u', t) /\ u_role u' = u_role u /\ must_change_password u' = false /\
    forall p, or_else (MCP_SERVICE_PASSWORD cfg) None = Some p -> hashed_password u' = hash_password (service_salt w) p.
Proof.
  destruct TOKEN as [Hh Hl], ACCOUNT as (Hsv & Hn & Hres), TABLE as [Hu Hadm]. cbn zeta.
  pose proof Hl as (Hp & Hk & Hhash & Hpre & Hexp & Htk & Hi & Hact).
  destruct (usable_password cfg PASSWORD) as (p & Hpw & Hpd).
  assert (Hseed : seed_admin_user hash_password verify_password cfg w d = (d, true)).
  { unfold seed_admin_user. rewrite bool_decide_eq_false_2 by (intros E; by rewrite E, lookup_empty in Hi). cbn. unfold _rotate_known_default_admin.
    pose proof (by_username_spec "admin" d) as Hb. destruct (by_username "admin" d) as [[j v]|]; [|done]. destruct Hb as [Hj Hv]. by rewrite (Hadm j v Hj Hv). }
  unfold Accounts.seed_auth_step. rewrite Hseed, PASSWORD. set (d2 := disable_stale_service_user _ _ _ _).
  assert (Hi2 : users d2 !! i = Some u).
  { unfold d2, disable_stale_service_user. cbn. rewrite map_lookup_imap, Hi. cbn. by rewrite Hact, Hsv, Hn, bool_decide_eq_true_2. }
  assert (Hs2 : same_names d d2).
  { intros j. unfold d2, disable_stale_service_user. cbn. rewrite map_lookup_imap. destruct (users d !! j) as [v|]; [|done]. cbn. by destruct (_ && _). }
  unfold ensure_service_user. rewrite <- Hn, Hres, Hpw, bool_decide_eq_false_2 by done.
  pose proof (by_username_spec (username u) d2) as Hb. destruct (by_username (username u) d2) as [[j v]|]; [|by destruct (Hb i u Hi2)].
  destruct Hb as [Hj Hnj]. assert (j = i) as -> by (apply (same_names_unique _ _ Hs2 Hu j i v u); congruence). rewrite Hi2 in Hj. injection Hj as <-.
  rewrite Hsv. cbn [negb andb fst]. set (f := fun u : user => set_service (set_active true (set_password (hash_password (service_salt w) p) false u))). exists (f u).
  split; [|split; [done|split; [done|intros q [= <-]; done]]].
  assert (Hf : users (with_users (alter f i) d2) !! i = Some (f u)).
  { change (alter f i (users d2) !! i = Some (f u)). by rewrite lookup_alter_eq, Hi2. }
  apply live_verify; [exact Hh|]. split; [exact Hp|]. split; [exact Hk|]. do 3 (split; [done|]). split; [exact Htk|]. by split.
Qed.
End start.

(** ** Owners *)

Lemma require_operator_Ok p x : require_operator p = Ok x <-> effective_role p = ROLE_ADMIN \/ effective_role p = ROLE_OPERATOR.
Proof. unfold require_operator, require_role. rewrite ensure_Ok, bool_decide_eq_true, !elem_of_cons, elem_of_nil. tauto. Qed.

Lemma check_ownership_Ok p o x : _check_ownership p o = Ok x <-> effective_role p = ROLE_ADMIN \/ o = None \/ o = Some (p_id p).
Proof.
  unfold _check_ownership. destruct x, (String.eqb_spec (effective_role p) ROLE_ADMIN) as [|Hn]; [split; [by left|done]|].
  destruct o as [o|]; [|split; [by right; left|done]]. rewrite ensure_Ok, Z.eqb_eq. split; [intros ->; by right; right|intros [?|[?|[= ->]]]; done].
Qed.

(** A project, a module or a cluster may be changed exactly by an administrator, and by
    an operator where the project is the operator's own or nobody's. *)
Theorem ownership_decided p d i :
  let may project := exists o, owners d !! project = Some o /\
    (effective_role p = ROLE_ADMIN \/ (effective_role p = ROLE_OPERATOR /\ (o = None \/ o = Some (p_id p)))) in
  (require_project_owner i p d = Ok tt <-> may i) /\
  (require_module_owner i p d = Ok tt <-> exists project, module_projects d !! i = Some project /\ may project) /\
  (require_cluster_owner i p d = Ok tt <-> exists project, cluster_projects d !! i = Some project /\ may project).
Proof.
  cbn zeta.
  assert (Hproject : forall project, (_ ← require_operator p; match owners d !! project with None => Err (NotFoundError "project") | Some o => _check_ownership p o end) = Ok tt <->
    exists o, owners d !! project = Some o /\ (effective_role p = ROLE_ADMIN \/ (effective_role p = ROLE_OPERATOR /\ (o = None \/ o = Some (p_id p))))).
  { intros project. rewrite bind_Ok. setoid_rewrite require_operator_Ok. split.
    - intros (x & Hr & H). destruct (owners d !! project) as [o|]; [|done]. exists o. split; [done|]. apply check_ownership_Ok in H. tauto.
    - intros (o & Ho & H). exists tt. rewrite Ho, check_ownership_Ok. tauto. }
  split; [apply Hproject|].
  assert (Hof : forall (m : option Z) what, (_ ← require_operator p; match m with None => Err (NotFoundError what) | Some project =>
      match owners d !! project with None => Err (NotFoundError "project") | Some o => _check_ownership p o end end) = Ok tt <->
    exists project, m = Some project /\ exists o, owners d !! project = Some o /\
      (effective_role p = ROLE_ADMIN \/ (effective_role p = ROLE_OPERATOR /\ (o = None \/ o = Some (p_id p))))).
  { intros [project|] what; [rewrite Hproject|rewrite bind_Ok]; [|split; [by intros (x & _ & H)|by intros (project & H & _)]].
    split; [by exists project|by intros (q & [= <-] & H)]. }
  split; apply Hof.
Qed.

(** Deleting an account opens its projects to every operator. *)
Theorem deleted_owner_opens_projects {SO : SetOrder Z} _hash_token jwt_decode now path header target d p project
    (DELETED : snd (delete_user _hash_token jwt_decode now path header target d) = Ok tt)
    (OWNED : owners d !! project = Some (Some target))
    (OPERATOR : effective_role p = ROLE_OPERATOR /\ p_id p <> target) :
  require_project_owner project p d = Err (ForbiddenError "You don't have permission to modify this project") /\
  require_project_owner project p (delete_user _hash_token jwt_decode now path header target d).1 = Ok tt.
Proof.
  destruct OPERATOR as [Hr Hne]. unfold delete_user in *. destruct (admin_route _ _ _ _ _ _) as [q|e]; [|done].
  destruct (p_id q =? target); [done|]. destruct (users d !! target); [|done]. cbn [fst].
  assert (Hop : require_operator p = Ok tt) by (apply require_operator_Ok; by right).
  unfold require_project_owner. rewrite Hop. cbn. rewrite OWNED, lookup_fmap, OWNED. unfold _check_ownership. rewrite Hr. cbn.
  rewrite bool_decide_eq_true_2 by done. split; [|done]. by destruct (Z.eqb_spec target (p_id p)); [congruence|].
Qed.

(** ** An example *)

Module Example.
#[local] Instance some_order : SetOrder Z := elements_order.

Definition hashed (salt : Z) (p : string) : string := p.
Definition verifies (p h : string) : bool := String.eqb p h.
Definition digest (p : string) : string := p.
Definition decode (now : Z) (token : string) : option (option string) :=
  match after_prefix "jwt-" token with Some name => if now <? 100 then Some (Some name) else None | None => None end.

Lemma bcrypt_tells salt p q : p ∈ MCP_KNOWN_DEFAULT_PASSWORDS -> verifies p (hashed salt q) = true -> q = p.
Proof. unfold verifies, hashed. intros _ H. symmetry. by apply String.eqb_eq. Qed.

Definition account (name password role : string) (service : bool) : user :=
  {| username := name; email := name +:+ "@lab"; hashed_password := password; u_role := role; is_active := true;
     must_change_password := false; is_service_account := service |}.
Definition viewer_token : api_token :=
  {| tk_user := 1; tk_name := "ci"; token_hash := "bnk_viewer"; token_prefix := "bnk_viewer"; tk_role := "viewer"; expires_at := Some 50 |}.
Definition mcp_token : api_token :=
  {| tk_user := 3; tk_name := "old"; token_hash := "bnk_mcp"; token_prefix := "bnk_mcp"; tk_role := "admin"; expires_at := None |}.
Definition tables : adb :=
  {| users := {[1 := account "ann" "correct horse" "admin" false; 2 := account "bob" "battery" "operator" false; 3 := account "mcp" "changeme" "admin" true]};
     api_tokens := {[1 := viewer_token; 2 := mcp_token]}; owners := {[7 := Some 2]}; module_projects := ∅; cluster_projects := ∅ |}.

Lemma users_cases i u : users tables !! i = Some u ->
  (i = 1 /\ u = account "ann" "correct horse" "admin" false) \/ (i = 2 /\ u = account "bob" "battery" "operator" false) \/ (i = 3 /\ u = account "mcp" "changeme" "admin" true).
Proof. cbn. rewrite !lookup_insert_Some, lookup_singleton_Some. naive_solver. Qed.
Lemma tokens_cases i t : api_tokens tables !! i = Some t -> (i = 1 /\ t = viewer_token) \/ (i = 2 /\ t = mcp_token).
Proof. cbn. rewrite lookup_insert_Some, lookup_singleton_Some. naive_solver. Qed.

Lemma tables_names : names_unique tables.
Proof. intros i j u v [[-> ->]|[[-> ->]|[-> ->]]]%users_cases [[-> ->]|[[-> ->]|[-> ->]]]%users_cases H; cbn in H; done. Qed.
Lemma tables_hashes : hashes_unique tables.
Proof. intros i j s t [[-> ->]|[-> ->]]%tokens_cases [[-> ->]|[-> ->]]%tokens_cases H; cbn in H; done. Qed.
Lemma tables_roles : roles_valid tables.
Proof. intros i u [[-> ->]|[[-> ->]|[-> ->]]]%users_cases; by apply (bool_decide_eq_true_1 _). Qed.

Definition to_clusters (header : string) : request := {| rq_method := "GET"; rq_path := "/api/clusters"; authorization := Some header |}.

Lemma access_decided_witness :
  dispatch digest decode true 40 (to_clusters "Bearer bnk_viewer") tables = CallNext /\
  dispatch digest decode true 60 (to_clusters "Bearer bnk_viewer") tables = Status401.
Proof.
  split; [|vm_compute; reflexivity]. apply (access_decided digest decode 40 (to_clusters "Bearer bnk_viewer") tables tables_hashes). right.
  exists "bnk_viewer", (account "ann" "correct horse" "admin" false). split; [reflexivity|]. split; [|discriminate].
  unfold stands_for. destruct (decide _) as [H|H]; [discriminate H|]. exists 1, viewer_token.
  apply verify_live. vm_compute. reflexivity.
Defined.

(** The viewer token of an administrator makes a token, and asks for an operator's. *)
Definition after_mint : adb := (create_api_token digest decode 9 40 "second" "/api/auth/tokens" (Some "Bearer bnk_viewer") "next" None None tables).1.

Lemma held_tokens_confined_witness :
  snd (create_api_token digest decode 9 40 "second" "/api/auth/tokens" (Some "Bearer bnk_viewer") "next" (Some "operator") None tables) = Err (BadRequestError "TOKEN_ROLE_ESCALATION") /\
  match get_current_user digest decode 45 "/api/clusters" (Some "Bearer bnk_second") after_mint with
  | Ok p => level (effective_role p) <= 1 /\ is_Ok (require_operator p) = false
  | Err _ => False
  end.
Proof.
  split; [vm_compute; reflexivity|].
  assert (Hs : confined digest 1 (tables, ["bnk_viewer"])).
  { split; cbn.
    - intros token ->%list_elem_of_singleton. discriminate.
    - intros i t [[-> ->]|[-> ->]]%tokens_cases H; [split; [by apply (bool_decide_eq_true_1 _)|reflexivity]|].
      by apply list_elem_of_singleton in H.
    - exact tables_roles. }
  assert (Hr : rtc (token_step digest decode) (tables, ["bnk_viewer"]) (after_mint, ["bnk_second"; "bnk_viewer"])).
  { apply rtc_once. apply (holder_mints digest decode tables after_mint ["bnk_viewer"] "bnk_viewer" 9 40 "second" "/api/auth/tokens" "next" None None
      {| tk_user := 1; tk_name := "next"; token_hash := "bnk_second"; token_prefix := "bnk_second"; tk_role := "viewer"; expires_at := None |}).
    - by apply list_elem_of_singleton.
    - reflexivity.
    - intros i t [[-> ->]|[-> ->]]%tokens_cases; discriminate.
    - vm_compute. reflexivity. }
  pose proof (held_tokens_confined digest decode 1 (tables, ["bnk_viewer"]) (after_mint, ["bnk_second"; "bnk_viewer"]) 45 "/api/clusters" "bnk_second") as H.
  assert (Hg : is_Ok (get_current_user digest decode 45 "/api/clusters" (Some "Bearer bnk_second") after_mint) = true) by (vm_compute; reflexivity).
  destruct (get_current_user digest decode 45 "/api/clusters" (Some "Bearer bnk_second") after_mint) as [p|e] eqn:Eg; [|discriminate].
  destruct (H p Hs Hr ltac:(apply elem_of_cons; by left) Eg) as (H1 & _ & _ & H2). split; [exact H1|apply H2; lia].
Defined.

Lemma an_admin_remains_witness :
  active_admin (update_user verifies digest decode 40 "/api/auth/users/2" (Some "Bearer jwt-ann") 2 {| uq_role := Some "admin"; uq_email := None; uq_active := None |} tables).1 /\
  snd (update_user verifies digest decode 40 "/api/auth/users/1" (Some "Bearer jwt-ann") 1 {| uq_role := Some "viewer"; uq_email := None; uq_active := None |} tables)
    = Err (ForbiddenError "Cannot change your own role from admin").
Proof.
  split; [|vm_compute; reflexivity].
  refine (proj2 (an_admin_remains hashed verifies digest decode tables _ tables_roles _ _)).
  - exists 1, (account "ann" "correct horse" "admin" false). split; [reflexivity|]. split; reflexivity.
  - apply rq_update.
Defined.

Definition config (password : option string) : settings :=
  {| DEFAULT_ADMIN_PASSWORD := None; DEFAULT_ADMIN_MUST_CHANGE := true; MCP_SERVICE_USERNAME := "mcp"; MCP_SERVICE_PASSWORD := password; keys_dir_writable := true |}.
Definition drawn : draws :=
  {| drawn_password := "r1"; admin_salt := 0; admin_id := 20; drawn_secret := fun _ => "r2"; secret_salt := fun _ => 0; service_salt := 0; service_id := 21 |}.
Lemma drawn_random : draws_random drawn.
Proof. split; [|intros i]; cbn; by apply (bool_decide_eq_true_1 _). Qed.
Lemma tables_reserved : never_reserved tables.
Proof. intros i u [[-> ->]|[[-> ->]|[-> ->]]]%users_cases H; by vm_compute in H |- *. Qed.
Lemma tables_sealed : admin_sealed verifies tables.
Proof. intros i u [[-> ->]|[[-> ->]|[-> ->]]]%users_cases H; cbn in H; done. Qed.

Lemma defaults_revoked_witness :
  is_Ok (authenticate_user verifies "mcp" "changeme" tables) = true /\
  services_sealed verifies (seed_auth_step hashed verifies (config None) drawn tables).1 /\
  is_Ok (authenticate_user verifies "mcp" "changeme" (seed_auth_step hashed verifies (config None) drawn tables).1) = false.
Proof.
  split; [vm_compute; reflexivity|]. split; [|vm_compute; reflexivity].
  destruct (seed_auth_step hashed verifies (config None) drawn tables) as [d' s] eqn:Es.
  refine (proj1 (defaults_revoked hashed verifies bcrypt_tells (config None) drawn tables d' s _ drawn_random _ _ Es _)).
  - split; [exact tables_names|exact tables_reserved].
  - intros i u [[-> ->]|[[-> ->]|[-> ->]]]%users_cases; discriminate.
  - discriminate.
  - intros ->. apply (f_equal snd) in Es. vm_compute in Es. discriminate.
Defined.

Lemma tokens_survive_rotation_witness :
  is_Ok (verify_token digest 40 "bnk_mcp" (seed_auth_step hashed verifies (config (Some "long and new")) drawn tables).1) = true.
Proof.
  destruct (tokens_survive_rotation hashed verifies digest (config (Some "long and new")) drawn tables 40 "bnk_mcp" 3
    (account "mcp" "changeme" "admin" true) mcp_token) as (u & H & _).
  - split; [exact tables_hashes|]. apply verify_live. vm_compute. reflexivity.
  - split; [reflexivity|]. split; vm_compute; reflexivity.
  - split; [exact tables_names|exact tables_sealed].
  - vm_compute. reflexivity.
  - by rewrite H.
Defined.

Lemma deleted_owner_opens_projects_witness :
  let p := {| p_id := 5; p_user := account "eve" "x" "operator" false; request_role := None |} in
  is_Ok (require_project_owner 7 p tables) = false /\
  require_project_owner 7 p (delete_user digest decode 40 "/api/auth/users/2" (Some "Bearer jwt-ann") 2 tables).1 = Ok tt.
Proof.
  cbn zeta. set (p := Build_principal _ _ _).
  destruct (deleted_owner_opens_projects digest decode 40 "/api/auth/users/2" (Some "Bearer jwt-ann") 2 tables p 7) as [H1 H2].
  - vm_compute. reflexivity.
  - reflexivity.
  - split; [reflexivity|discriminate].
  - split; [by rewrite H1|exact H2].
Defined.

(** The health reports of an operator that polls do not pass the middleware. *)
Example health_refused :
  dispatch digest decode true 40 {| rq_method := "POST"; rq_path := "/api/operators/op-1/heartbeat"; authorization := Some "Bearer bnk_reg_1" |} tables = CallNext /\
  dispatch digest decode true 40 {| rq_method := "POST"; rq_path := "/api/operators/op-1/health"; authorization := Some "Bearer bnk_reg_1" |} tables = Status401.
Proof. split; vm_compute; reflexivity. Qed.
End Example.
