(* ===== verification/Operators.v ===== *)
(** * Operators in the field (services/operator_registry.py,
      routes/operator_polling.py, routes/operator_ws.py, routes/operators/ [crud.py]
      and [commands.py], tasks/operator_cleanup_task.py)

    The agents inside clusters: their registration tokens, the rows of the
    operators, the queue of commands for those that poll over HTTP, and the sessions
    of those that hold a WebSocket.  SHA-256 is a parameter; a new row's id and what
    [uuid4] gives are arguments.  Times are microseconds. *)

From S2P Require Import Prelude Texts.

#[local] Open Scope string_scope.
#[local] Open Scope list_scope.
#[local] Open Scope Z_scope.
#[local] Set Default Proof Using "Type".

Definition seconds (n : Z) : Z := n * 1000000.

(** ** Rows *)

Inductive OperatorStatus := REGISTERED | CONNECTED | DISCONNECTED | ERROR.
Inductive OperatorCommandStatus := QUEUED | PICKED_UP | COMPLETED | FAILED | EXPIRED.
#[global] Instance status_eq_dec : EqDecision OperatorStatus.
Proof. solve_decision. Defined.
#[global] Instance command_status_eq_dec : EqDecision OperatorCommandStatus.
Proof. solve_decision. Defined.

Record registration_token := {
  rt_hash : string; rt_prefix : string; rt_name : string; max_uses : option Z; use_count : Z; rt_expires_at : option Z;
  rt_labels : list (string * json); rt_active : bool; rt_last_used_at : option Z
}.
(** The columns of [ConnectedOperator] in groups that change together. *)
Record presence := {
  is_connected : bool; last_heartbeat_at : option Z; last_connected_at : option Z; last_disconnected_at : option Z;
  disconnect_reason : option string; op_status : OperatorStatus
}.
Record op_stats := { operator_version : option string; commands_executed : Z; commands_failed : Z; uptime_seconds : Z }.
Record op_health := { last_health_report : option json; last_health_at : option Z; kubernetes_version : option json; node_count : option json; nodes_ready : option json }.
Record connected_operator := {
  operator_id : string; registration_token_id : option Z; o_cluster_name : string; o_cluster : option Z;
  connectivity_mode : string; connectivity_config : list (string * json); o_labels : list (string * json);
  o_presence : presence; o_stats : op_stats; o_health : op_health
}.
Record command := {
  command_id : string; cmd_operator : string; action : string; payload : json; timeout_seconds : Z;
  cmd_status : OperatorCommandStatus; picked_up_at : option Z; cmd_result : option json; output_lines : option json;
  error_message : option string; created_at : Z; completed_at : option Z
}.
(** The three tables, and the clusters that exist. *)
Record opdb := { tokens : gmap Z registration_token; operators : gmap Z connected_operator; queue : gmap Z command; k8s_clusters : gset Z }.

Definition with_rtokens (f : gmap Z registration_token -> gmap Z registration_token) (d : opdb) : opdb :=
  {| tokens := f (tokens d); operators := operators d; queue := queue d; k8s_clusters := k8s_clusters d |}.
Definition with_operators (f : gmap Z connected_operator -> gmap Z connected_operator) (d : opdb) : opdb :=
  {| tokens := tokens d; operators := f (operators d); queue := queue d; k8s_clusters := k8s_clusters d |}.
Definition with_queue (f : gmap Z command -> gmap Z command) (d : opdb) : opdb :=
  {| tokens := tokens d; operators := operators d; queue := f (queue d); k8s_clusters := k8s_clusters d |}.

Definition on_presence (f : presence -> presence) (o : connected_operator) : connected_operator :=
  {| operator_id := operator_id o; registration_token_id := registration_token_id o; o_cluster_name := o_cluster_name o; o_cluster := o_cluster o;
     connectivity_mode := connectivity_mode o; connectivity_config := connectivity_config o; o_labels := o_labels o;
     o_presence := f (o_presence o); o_stats := o_stats o; o_health := o_health o |}.
Definition on_stats (f : op_stats -> op_stats) (o : connected_operator) : connected_operator :=
  {| operator_id := operator_id o; registration_token_id := registration_token_id o; o_cluster_name := o_cluster_name o; o_cluster := o_cluster o;
     connectivity_mode := connectivity_mode o; connectivity_config := connectivity_config o; o_labels := o_labels o;
     o_presence := o_presence o; o_stats := f (o_stats o); o_health := o_health o |}.
Definition set_health (h : op_health) (o : connected_operator) : connected_operator :=
  {| operator_id := operator_id o; registration_token_id := registration_token_id o; o_cluster_name := o_cluster_name o; o_cluster := o_cluster o;
     connectivity_mode := connectivity_mode o; connectivity_config := connectivity_config o; o_labels := o_labels o;
     o_presence := o_presence o; o_stats := o_stats o; o_health := h |}.
Definition set_cluster (c : option Z) (o : connected_operator) : connected_operator :=
  {| operator_id := operator_id o; registration_token_id := registration_token_id o; o_cluster_name := o_cluster_name o; o_cluster := c;
     connectivity_mode := connectivity_mode o; connectivity_config := connectivity_config o; o_labels := o_labels o;
     o_presence := o_presence o; o_stats := o_stats o; o_health := o_health o |}.
Definition set_mode (mode : string) (config : list (string * json)) (o : connected_operator) : connected_operator :=
  {| operator_id := operator_id o; registration_token_id := registration_token_id o; o_cluster_name := o_cluster_name o; o_cluster := o_cluster o;
     connectivity_mode := mode; connectivity_config := config; o_labels := o_labels o;
     o_presence := o_presence o; o_stats := o_stats o; o_health := o_health o |}.
Definition reregistered (token : Z) (labels : list (string * json)) (o : connected_operator) : connected_operator :=
  {| operator_id := operator_id o; registration_token_id := Some token; o_cluster_name := o_cluster_name o; o_cluster := o_cluster o;
     connectivity_mode := connectivity_mode o; connectivity_config := connectivity_config o; o_labels := labels;
     o_presence := o_presence o; o_stats := o_stats o; o_health := o_health o |}.

Definition connected_at (now : Z) (p : presence) : presence :=
  {| is_connected := true; last_heartbeat_at := last_heartbeat_at p; last_connected_at := Some now; last_disconnected_at := last_disconnected_at p;
     disconnect_reason := None; op_status := CONNECTED |}.
Definition disconnected_at (now : Z) (reason : string) (p : presence) : presence :=
  {| is_connected := false; last_heartbeat_at := last_heartbeat_at p; last_connected_at := last_connected_at p; last_disconnected_at := Some now;
     disconnect_reason := Some reason; op_status := DISCONNECTED |}.
Definition heard_at (now : Z) (p : presence) : presence :=
  {| is_connected := is_connected p; last_heartbeat_at := Some now; last_connected_at := last_connected_at p;
     last_disconnected_at := last_disconnected_at p; disconnect_reason := disconnect_reason p; op_status := op_status p |}.
(** What a poll does to the row: the reason of a disconnection stays. *)
Definition polled_at (now : Z) (p : presence) : presence :=
  let p := heard_at now p in
  if is_connected p then p
  else {| is_connected := true; last_heartbeat_at := last_heartbeat_at p; last_connected_at := Some now; last_disconnected_at := last_disconnected_at p;
          disconnect_reason := disconnect_reason p; op_status := CONNECTED |}.

Definition expired (now : Z) (why : string) (c : command) : command :=
  {| command_id := command_id c; cmd_operator := cmd_operator c; action := action c; payload := payload c; timeout_seconds := timeout_seconds c;
     cmd_status := EXPIRED; picked_up_at := picked_up_at c; cmd_result := cmd_result c; output_lines := output_lines c;
     error_message := Some why; created_at := created_at c; completed_at := Some now |}.
Definition picked_up (now : Z) (c : command) : command :=
  {| command_id := command_id c; cmd_operator := cmd_operator c; action := action c; payload := payload c; timeout_seconds := timeout_seconds c;
     cmd_status := PICKED_UP; picked_up_at := Some now; cmd_result := cmd_result c; output_lines := output_lines c;
     error_message := error_message c; created_at := created_at c; completed_at := completed_at c |}.

Inductive op_exc :=
| UnauthorizedError (why : string) | NotFoundError (what : string) | BadRequestError (why : string)
| DatabaseError (why : string) | AttributeError.

Record submission := { s_success : bool; s_result : option json; s_output : option json; s_error : option string }.
Definition or_value (empty : json) (x : option json) : json := match x with Some j => if truthy j then j else empty | None => empty end.
Definition completed (now : Z) (b : submission) (c : command) : command :=
  {| command_id := command_id c; cmd_operator := cmd_operator c; action := action c; payload := payload c; timeout_seconds := timeout_seconds c;
     cmd_status := if s_success b then COMPLETED else FAILED; picked_up_at := picked_up_at c;
     cmd_result := Some (or_value (JObj []) (s_result b)); output_lines := Some (or_value (JList []) (s_output b));
     error_message := s_error b; created_at := created_at c; completed_at := Some now |}.

Definition STALE_HEARTBEAT_THRESHOLD : Z := 120.
(** [error_message = Column(String(2000))] *)
Definition ERROR_WIDTH : nat := 2000.

Section operators.
Context {SO : SetOrder Z} (_hash_token : string -> string).

(** ** Tokens of registration *)

Definition generate_registration_token (drawn : string) : string := "bnk_reg_" +:+ drawn.
Definition create_registration_token (new_id : Z) (drawn name : string) (uses expires : option Z) (labels : list (string * json)) (d : opdb) : opdb * string :=
  let plaintext := generate_registration_token drawn in
  (with_rtokens <[new_id := {| rt_hash := _hash_token plaintext; rt_prefix := String.substring 0 12 plaintext; rt_name := name; max_uses := uses;
     use_count := 0; rt_expires_at := expires; rt_labels := labels; rt_active := true; rt_last_used_at := None |}]> d, plaintext).

Definition exhausted (t : registration_token) : bool := match max_uses t with Some n => n <=? use_count t | None => false end.
Definition validate_registration_token (now : Z) (plaintext : string) (d : opdb) : option (Z * registration_token) :=
  match head (select (fun _ t => String.eqb (rt_hash t) (_hash_token plaintext) && rt_active t) (tokens d)) with
  | None => None
  | Some (i, t) =>
      if match rt_expires_at t with Some e => e <? now | None => false end then None
      else if exhausted t then None
      else Some (i, t)
  end.

Definition used (now : Z) (t : registration_token) : registration_token :=
  {| rt_hash := rt_hash t; rt_prefix := rt_prefix t; rt_name := rt_name t; max_uses := max_uses t; use_count := use_count t + 1;
     rt_expires_at := rt_expires_at t; rt_labels := rt_labels t; rt_active := rt_active t; rt_last_used_at := Some now |}.

Definition with_version (v : option string) (s : op_stats) : op_stats :=
  {| operator_version := v; commands_executed := commands_executed s; commands_failed := commands_failed s; uptime_seconds := uptime_seconds s |}.
Definition new_operator (uuid : string) (token : Z) (cluster_name : string) (version : option string) (labels : list (string * json)) (now : Z) : connected_operator :=
  {| operator_id := uuid; registration_token_id := Some token; o_cluster_name := cluster_name; o_cluster := None; connectivity_mode := "direct_ws";
     connectivity_config := []; o_labels := labels;
     o_presence := {| is_connected := true; last_heartbeat_at := None; last_connected_at := Some now; last_disconnected_at := None;
                      disconnect_reason := None; op_status := CONNECTED |};
     o_stats := {| operator_version := version; commands_executed := 0; commands_failed := 0; uptime_seconds := 0 |};
     o_health := {| last_health_report := None; last_health_at := None; kubernetes_version := None; node_count := None; nodes_ready := None |} |}.

Definition by_cluster_name (name : string) (d : opdb) : option (Z * connected_operator) :=
  head (select (fun _ o => String.eqb (o_cluster_name o) name) (operators d)).
Definition get_operator (op : string) (d : opdb) : option (Z * connected_operator) :=
  head (select (fun _ o => String.eqb (operator_id o) op) (operators d)).

(** The id of the row and what [uuid4] gave; a [uuid] in use violates the
    uniqueness of [operator_id] at the flush. *)
Definition register_operator (new_id : Z) (uuid : string) (now token_id : Z) (t : registration_token) (cluster_name : string) (version : option string)
    (extra_labels : list (string * json)) (d : opdb) : result op_exc (opdb * Z) :=
  let merged := foldl (fun l kv => dset kv.1 kv.2 l) (rt_labels t) extra_labels in
  let d' := with_rtokens (alter (used now) token_id) d in
  match by_cluster_name cluster_name d with
  | Some (i, _) => Ok (with_operators (alter (fun o => on_stats (with_version version) (on_presence (connected_at now) (reregistered token_id merged o))) i) d', i)
  | None =>
      match get_operator uuid d with
      | Some _ => Err (DatabaseError "operator_id")
      | None => Ok (with_operators <[new_id := new_operator uuid token_id cluster_name version merged now]> d', new_id)
      end
  end.

Definition mark_operator_disconnected (now : Z) (op reason : string) (d : opdb) : opdb :=
  match get_operator op d with
  | Some (i, _) => with_operators (alter (on_presence (disconnected_at now reason)) i) d
  | None => d
  end.

Definition update_operator_health (now : Z) (op : string) (health_report : list (string * json)) (d : opdb) : result op_exc opdb :=
  match get_operator op d with
  | None => Ok d
  | Some (i, _) =>
      match dget "cluster" health_report with
      | None => Ok []
      | Some (JObj cluster_info) => Ok cluster_info
      | Some _ => Err AttributeError
      end ≫= fun cluster_info =>
      Ok (with_operators (alter (fun o => on_presence (heard_at now)
            (set_health {| last_health_report := Some (JObj health_report); last_health_at := Some now; kubernetes_version := dget "kubernetes_version" cluster_info;
                           node_count := dget "node_count" cluster_info; nodes_ready := dget "nodes_ready" cluster_info |} o)) i) d)
  end.

Record beat := { b_version : option string; b_uptime : option Z; b_commands : option Z }.
Definition update_operator_heartbeat (now : Z) (op : string) (b : beat) (d : opdb) : opdb :=
  match get_operator op d with
  | None => d
  | Some (i, _) =>
      with_operators (alter (fun o => on_presence (heard_at now) (on_stats (fun s =>
        {| operator_version := or_else (b_version b) (operator_version s);
           commands_executed := default (commands_executed s) (b_commands b); commands_failed := commands_failed s;
           uptime_seconds := default (uptime_seconds s) (b_uptime b) |}) o)) i) d
  end.

(** [live]: the operators with a WebSocket in the process that cleans up. *)
Definition is_stale (live : gset string) (now : Z) (o : connected_operator) : bool :=
  is_connected (o_presence o) && sql_true (sql_lt (last_heartbeat_at (o_presence o)) (now - seconds STALE_HEARTBEAT_THRESHOLD))
  && negb (bool_decide (operator_id o ∈ live)).
Definition cleanup_stale_operators (live : gset string) (now : Z) (d : opdb) : opdb :=
  with_operators (fmap (fun o => if is_stale live now o then on_presence (disconnected_at now "heartbeat_timeout") o else o)) d.

Definition is_queued (c : command) : bool := bool_decide (cmd_status c = QUEUED).
Definition over_age (now : Z) (c : command) : bool := seconds (timeout_seconds c) <? now - created_at c.
Definition cleanup_expired_commands (now : Z) (d : opdb) : opdb :=
  with_queue (fmap (fun c => if is_queued c && over_age now c
                             then expired now ("Command expired after " +:+ pretty (timeout_seconds c) +:+ "s (never picked up)") c else c)) d.
(** The task and the route. *)
Definition cleanup_stale_operators_and_commands (live : gset string) (now : Z) (d : opdb) : opdb :=
  cleanup_expired_commands now (cleanup_stale_operators live now d).

(** ** The routes of operators that poll *)

Record credentials := { authorization : string; query_token : string }.

Definition token_of (q : credentials) : string :=
  match after_prefix "Bearer " (authorization q) with
  | Some t => if String.eqb t "" then query_token q else t
  | None => query_token q
  end.
Definition _validate_operator_token (now : Z) (q : credentials) (d : opdb) : result op_exc string :=
  let token := token_of q in
  if String.eqb token "" then Err (UnauthorizedError "Missing registration token")
  else match validate_registration_token now token d with
       | None => Err (UnauthorizedError "Invalid or expired registration token.")
       | Some _ => Ok token
       end.

Record registration := { r_cluster_name : string; r_version : option string; r_labels : list (string * json); r_mode : option string }.
(** The token is read a second time, and then not from the query when the header
    begins with ["Bearer "]. *)
Definition register_poll_operator (new_id : Z) (uuid : string) (now : Z) (q : credentials) (b : registration) (d : opdb) : result op_exc (opdb * string) :=
  _ ← _validate_operator_token now q d;
  let token_str := default (query_token q) (after_prefix "Bearer " (authorization q)) in
  match validate_registration_token now token_str d with
  | None => Err (UnauthorizedError "Invalid registration token")
  | Some (ti, t) =>
      '(d', i) ← register_operator new_id uuid now ti t (r_cluster_name b) (r_version b) (r_labels b) d;
      let mode := default "polling" (or_else (r_mode b) None) in
      Ok (with_operators (alter (fun o => set_mode mode (connectivity_config o) o) i) d',
          match operators d' !! i with Some o => operator_id o | None => "" end)
  end.

Record delivery := { d_id : string; d_action : string; d_payload : json; d_timeout : Z }.
Definition delivery_of (c : command) : delivery :=
  {| d_id := command_id c; d_action := action c; d_payload := or_value (JObj []) (Some (payload c)); d_timeout := timeout_seconds c |}.

Definition created_le (a b : Z * command) : Prop := created_at a.2 <= created_at b.2.
#[local] Instance created_le_dec a b : Decision (created_le a b) := Z_le_dec _ _.

(** The query of [poll_commands]. *)
Definition pending_commands (op : string) (d : opdb) : list (Z * command) :=
  take 5 (merge_sort created_le (select (fun _ c => String.eqb (cmd_operator c) op && is_queued c) (queue d))).
(** Its loop: the rows written and the commands handed out. *)
Definition pick_up (now : Z) (st : opdb * list delivery) (ic : Z * command) : opdb * list delivery :=
  let '(d, commands) := st in
  if over_age now ic.2
  then (with_queue (alter (expired now ("Command expired after " +:+ pretty (timeout_seconds ic.2) +:+ "s")) ic.1) d, commands)
  else (with_queue (alter (picked_up now) ic.1) d, commands ++ [delivery_of ic.2]).

(** [now] is read at the start and, as [later], before the loop. *)
Definition poll_commands (now later : Z) (op : string) (q : credentials) (d : opdb) : opdb * result op_exc (list delivery * json) :=
  match _validate_operator_token now q d with
  | Err e => (d, Err e)
  | Ok _ =>
      match get_operator op d with
      | None => (d, Err (NotFoundError "operator"))
      | Some (i, o) =>
          let d := with_operators (alter (on_presence (polled_at now)) i) d in
          let '(d, commands) := foldl (pick_up later) (d, []) (pending_commands op d) in
          (d, Ok (commands, default (JInt 5) (dget "poll_interval_seconds" (connectivity_config o))))
      end
  end.

Definition get_command (op cmd : string) (d : opdb) : option (Z * command) :=
  head (select (fun _ c => String.eqb (command_id c) cmd && String.eqb (cmd_operator c) op) (queue d)).
Definition tallied (success : bool) (s : op_stats) : op_stats :=
  {| operator_version := operator_version s; commands_executed := commands_executed s + 1;
     commands_failed := if success then commands_failed s else commands_failed s + 1; uptime_seconds := uptime_seconds s |}.
Definition submit_result (now : Z) (op cmd : string) (q : credentials) (b : submission) (d : opdb) : opdb * result op_exc unit :=
  match _validate_operator_token now q d with
  | Err e => (d, Err e)
  | Ok _ =>
      match get_command op cmd d with
      | None => (d, Err (NotFoundError "command"))
      | Some (i, c) =>
          if negb (bool_decide (cmd_status c ∈ [PICKED_UP; QUEUED])) then (d, Err (BadRequestError "cannot submit result"))
          else if match s_error b with Some e => (ERROR_WIDTH <? String.length e)%nat | None => false end
          then (d, Err (DatabaseError "value too long"))
          else
            let d := with_queue (alter (completed now b) i) d in
            (match get_operator op d with
             | Some (j, _) => with_operators (alter (on_stats (tallied (s_success b))) j) d
             | None => d
             end, Ok tt)
      end
  end.

Definition submit_heartbeat (now : Z) (op : string) (q : credentials) (b : beat) (d : opdb) : opdb * result op_exc unit :=
  match _validate_operator_token now q d with
  | Err e => (d, Err e)
  | Ok _ => (update_operator_heartbeat now op b d, Ok tt)
  end.
(** [cluster] and [bnk] of the body. *)
Definition submit_health (now : Z) (op : string) (q : credentials) (cluster bnk : list (string * json)) (d : opdb) : opdb * result op_exc unit :=
  match _validate_operator_token now q d with
  | Err e => (d, Err e)
  | Ok _ =>
      let part key l := match l with [] => [] | _ => [(key, JObj l)] end in
      match update_operator_health now op (part "cluster" cluster ++ part "bnk" bnk) d with
      | Ok d' => (d', Ok tt)
      | Err e => (d, Err e)
      end
  end.

(** ** The queue, from the side that deploys *)

(** [drawn]: the digits of [uuid4]; an id in use violates the uniqueness of
    [command_id]. *)
Definition enqueue_command (new_id : Z) (drawn : string) (now : Z) (op act : string) (arguments : json) (timeout : Z) (d : opdb) : opdb * result op_exc string :=
  let id := op +:+ ":" +:+ drawn in
  match head (select (fun _ c => String.eqb (command_id c) id) (queue d)) with
  | Some _ => (d, Err (DatabaseError "command_id"))
  | None =>
      (with_queue <[new_id := {| command_id := id; cmd_operator := op; action := act; payload := arguments; timeout_seconds := timeout; cmd_status := QUEUED;
         picked_up_at := None; cmd_result := None; output_lines := Some (JList []); error_message := None; created_at := now; completed_at := None |}]> d, Ok id)
  end.

(** What [wait_for_result] returns. *)
Inductive waited :=
| Gone
| Answered (success : bool) (res out : json) (error : option string)
| Lapsed
| GaveUp.

Definition row_of (id : string) (d : opdb) : option command :=
  snd <$> head (select (fun _ c => String.eqb (command_id c) id) (queue d)).
Definition settled_answer (c : command) : option waited :=
  match cmd_status c with
  | COMPLETED | FAILED => Some (Answered (bool_decide (cmd_status c = COMPLETED)) (or_value (JObj []) (cmd_result c)) (or_value (JList []) (output_lines c)) (error_message c))
  | EXPIRED => Some Lapsed
  | QUEUED | PICKED_UP => None
  end.
(** [clock k] and [seen k]: the time and the table in turn [k]. *)
Fixpoint wait_loop (fuel : nat) (clock : nat -> Z) (seen : nat -> opdb) (start timeout : Z) (id : string) (k : nat) : option waited :=
  match fuel with
  | O => None
  | S fuel =>
      if negb (clock k - start <? timeout) then Some GaveUp
      else match row_of id (seen k) with
           | None => Some Gone
           | Some c => match settled_answer c with
                       | Some a => Some a
                       | None => wait_loop fuel clock seen start timeout id (S k)
                       end
           end
  end.
(** The turns a wait of [timeout] takes at most when each sleeps [interval]. *)
Definition wait_turns (timeout interval : Z) : nat := S (Z.to_nat (timeout / interval + 1)).
Definition wait_for_result (clock : nat -> Z) (seen : nat -> opdb) (start timeout interval : Z) (id : string) : option waited :=
  wait_loop (wait_turns timeout interval) clock seen start timeout id 0.

(** ** The routes of users *)

Definition delete_operator (op : string) (d : opdb) : option opdb :=
  match get_operator op d with
  | Some (i, _) => Some (with_operators (delete i) d)
  | None => None
  end.
Definition remove_operator (op : string) (d : opdb) : opdb * result op_exc unit :=
  match delete_operator op d with Some d' => (d', Ok tt) | None => (d, Err (NotFoundError "operator")) end.

Definition CONNECTIVITY_MODES : list string := ["direct_ws"; "reverse_ssh"; "polling"; "ngrok_tunnel"; "in_cluster"].
Definition set_connectivity_mode (op mode : string) (config : list (string * json)) (d : opdb) : opdb * result op_exc unit :=
  if negb (bool_decide (mode ∈ CONNECTIVITY_MODES)) then (d, Err (BadRequestError "Unknown connectivity mode"))
  else match get_operator op d with
       | None => (d, Err (NotFoundError "operator"))
       | Some (i, _) => (with_operators (alter (set_mode mode config) i) d, Ok tt)
       end.

Definition link_operator_to_cluster (op : string) (cluster : Z) (d : opdb) : opdb * result op_exc unit :=
  match get_operator op d with
  | None => (d, Err (NotFoundError "operator"))
  | Some (i, _) =>
      if negb (bool_decide (cluster ∈ k8s_clusters d)) then (d, Err (NotFoundError "cluster"))
      else match head (select (fun _ o => bool_decide (o_cluster o = Some cluster) && negb (String.eqb (operator_id o) op)) (operators d)) with
           | Some _ => (d, Err (BadRequestError "already has an operator"))
           | None => (with_operators (alter (set_cluster (Some cluster)) i) d, Ok tt)
           end
  end.
Definition unlink_operator_from_cluster (op : string) (d : opdb) : opdb * result op_exc unit :=
  match get_operator op d with
  | None => (d, Err (NotFoundError "operator"))
  | Some (i, _) => (with_operators (alter (set_cluster None) i) d, Ok tt)
  end.

(** [ORDER BY last_heartbeat_at DESC], where PostgreSQL puts NULL first; [live]: the
    operators with a WebSocket in this process. *)
Definition heartbeat_ge (a b : Z * connected_operator) : Prop :=
  match last_heartbeat_at (o_presence a.2), last_heartbeat_at (o_presence b.2) with
  | None, _ => True
  | Some _, None => False
  | Some x, Some y => y <= x
  end.
#[local] Instance heartbeat_ge_dec a b : Decision (heartbeat_ge a b).
Proof. unfold heartbeat_ge. repeat case_match; apply _. Defined.
Definition get_operator_for_cluster (live : gset string) (cluster : Z) (connected_only : bool) (d : opdb) : option connected_operator :=
  let ops := (merge_sort heartbeat_ge (select (fun _ o => bool_decide (o_cluster o = Some cluster)
                && (negb connected_only || is_connected (o_presence o))) (operators d))).*2 in
  match snd <$> list_find (fun o => operator_id o ∈ live) ops with
  | Some o => Some o
  | None => head ops
  end.
End operators.
