(* ===== verification/OperatorLaws.v ===== *)
(** * The laws of operators in the field (Operators.v)

    What the queue of commands hands out and takes back, how long a wait for a result
    lasts, who is let in with a registration token, and what the rows of operators
    keep. *)

From S2P Require Import Prelude Texts Operators.

#[local] Open Scope string_scope.
#[local] Open Scope list_scope.
#[local] Open Scope Z_scope.
#[local] Set Default Proof Using "Type".

(** ** First rows *)

Section first.
Context {SO : SetOrder Z} {R : Type}.

Lemma first_row (P : Z -> R -> bool) t i r : head (select P t) = Some (i, r) -> t !! i = Some r /\ P i r = true.
Proof. intros H. apply elem_of_select. destruct (select P t); [done|]. injection H as ->. left. Qed.
Lemma first_none (P : Z -> R -> bool) t : head (select P t) = None <-> (forall i r, t !! i = Some r -> P i r = false).
Proof.
  split.
  - intros H i r Hi. destruct (P i r) eqn:E; [|done]. assert (X : (i, r) ∈ select P t) by by apply elem_of_select.
    destruct (select P t); [by apply elem_of_nil in X|done].
  - intros H. destruct (select P t) as [|[i r] l] eqn:E; [done|]. assert (X : (i, r) ∈ select P t) by (rewrite E; left).
    apply elem_of_select in X as [Hi Hp]. by rewrite (H i r Hi) in Hp.
Qed.
(** The one row that satisfies a condition is the first. *)
Lemma first_unique (P : Z -> R -> bool) t i r :
  t !! i = Some r -> P i r = true -> (forall j r', t !! j = Some r' -> P j r' = true -> j = i) -> head (select P t) = Some (i, r).
Proof.
  intros Hi Hp U. destruct (head (select P t)) as [[j r']|] eqn:E.
  - apply first_row in E as [Hj Hp']. assert (j = i) as -> by eauto. congruence.
  - rewrite first_none in E. by rewrite (E i r Hi) in Hp.
Qed.
Lemma select_ext (P Q : Z -> R -> bool) t : (forall i r, t !! i = Some r -> P i r = Q i r) -> select P t = select Q t.
Proof. intros H. unfold select. apply list_omap_ext, Forall2_same_length_lookup_2; [done|].
  intros k x y Hx Hy. assert (x = y) as -> by congruence. destruct (t !! y) eqn:E; [|done]. by rewrite (H _ _ E).
Qed.
End first.

(** ** A poll *)

Section laws.
Context {SO : SetOrder Z} (_hash_token : string -> string).

#[local] Abbreviation poll_commands := (poll_commands _hash_token).
#[local] Abbreviation submit_result := (submit_result _hash_token).
#[local] Abbreviation register_poll_operator := (register_poll_operator _hash_token).
#[local] Abbreviation submit_heartbeat := (submit_heartbeat _hash_token).
#[local] Abbreviation submit_health := (submit_health _hash_token).
#[local] Abbreviation validate_registration_token := (validate_registration_token _hash_token).
#[local] Abbreviation _validate_operator_token := (_validate_operator_token _hash_token).

Definition dead_text (c : command) : string := "Command expired after " +:+ pretty (timeout_seconds c) +:+ "s".
(** What the loop of a poll makes of a row. *)
Definition handled (now : Z) (c : command) : command := if over_age now c then expired now (dead_text c) c else picked_up now c.

Lemma pick_up_fold now l : forall d acc, NoDup l.*1 -> (forall i c, (i, c) ∈ l -> queue d !! i = Some c) ->
  let '(d', cs) := foldl (pick_up now) (d, acc) l in
  tokens d' = tokens d /\ operators d' = operators d /\ k8s_clusters d' = k8s_clusters d /\
  (forall j, queue d' !! j = if decide (j ∈ l.*1) then handled now <$> queue d !! j else queue d !! j) /\
  cs = acc ++ (delivery_of ∘ snd <$> filter (fun ic => over_age now ic.2 = false) l).
Proof.
  induction l as [|[i c] l IH]; intros d acc Hn Hl; [cbn; by rewrite app_nil_r|].
  cbn [fmap list_fmap fst] in Hn. apply NoDup_cons in Hn as [Hi Hn].
  assert (Hc : queue d !! i = Some c) by (apply Hl; left).
  cbn [foldl]. unfold pick_up at 2. cbn [fst snd].
  assert (Hl' : forall f j c', (j, c') ∈ l -> queue (with_queue (alter f i) d) !! j = Some c').
  { intros f j c' Hj. cbn. rewrite lookup_alter_ne; [apply Hl; by right|]. intros ->. apply Hi, list_elem_of_fmap. by exists (j, c'). }
  destruct (over_age now c) eqn:E.
  - specialize (IH (with_queue (alter (expired now (dead_text c)) i) d) acc Hn (Hl' _)). unfold dead_text in *.
    destruct (foldl _ _ l) as [d' cs]. destruct IH as (-> & -> & -> & Hq & ->). do 3 (split; [done|]). split.
    + intros j. rewrite Hq. cbn [with_queue queue]. cbn [fmap list_fmap fst]. destruct (decide (j = i)) as [->|N].
      * rewrite decide_False by done. rewrite decide_True by left. rewrite lookup_alter_eq, Hc. cbn. unfold handled. by rewrite E.
      * rewrite lookup_alter_ne by done. destruct (decide (j ∈ l.*1)); [rewrite decide_True by by right|rewrite decide_False; [done|]]; [done|].
        by intros [?|?]%elem_of_cons.
    + rewrite filter_cons_False by (cbn; congruence). done.
  - specialize (IH (with_queue (alter (picked_up now) i) d) (acc ++ [delivery_of c]) Hn (Hl' _)).
    destruct (foldl _ _ l) as [d' cs]. destruct IH as (-> & -> & -> & Hq & ->). do 3 (split; [done|]). split.
    + intros j. rewrite Hq. cbn [with_queue queue]. cbn [fmap list_fmap fst]. destruct (decide (j = i)) as [->|N].
      * rewrite decide_False by done. rewrite decide_True by left. rewrite lookup_alter_eq, Hc. cbn. unfold handled. by rewrite E.
      * rewrite lookup_alter_ne by done. destruct (decide (j ∈ l.*1)); [rewrite decide_True by by right|rewrite decide_False; [done|]]; [done|].
        by intros [?|?]%elem_of_cons.
    + rewrite filter_cons_True by done. cbn. by rewrite <- app_assoc.
Qed.

Lemma elem_of_pending op d i c : (i, c) ∈ pending_commands op d -> queue d !! i = Some c /\ cmd_operator c = op /\ cmd_status c = QUEUED.
Proof.
  unfold pending_commands. intros (k & H & _)%elem_of_take. apply list_elem_of_lookup_2 in H. rewrite merge_sort_Permutation, elem_of_select in H.
  destruct H as [Hi H]. apply andb_true_iff in H as [H1%String.eqb_eq H2%bool_decide_eq_true]. done.
Qed.
Lemma pending_rows_NoDup op d : NoDup (pending_commands op d).*1.
Proof.
  unfold pending_commands. rewrite fmap_take. eapply sublist_NoDup; [|apply sublist_take].
  rewrite merge_sort_Permutation. apply select_NoDup.
Qed.

Lemma poll_spec now later op q d d' cs interval : poll_commands now later op q d = (d', Ok (cs, interval)) ->
  (exists token, _validate_operator_token now q d = Ok token) /\
  (exists i o, get_operator op d = Some (i, o) /\ operators d' = alter (on_presence (polled_at now)) i (operators d)) /\
  tokens d' = tokens d /\ k8s_clusters d' = k8s_clusters d /\
  (forall j, queue d' !! j = if decide (j ∈ (pending_commands op d).*1) then handled later <$> queue d !! j else queue d !! j) /\
  cs = delivery_of ∘ snd <$> filter (fun ic => over_age later ic.2 = false) (pending_commands op d).
Proof.
  unfold Operators.poll_commands. destruct (_validate_operator_token now q d) as [token|]; [|done].
  destruct (get_operator op d) as [[i o]|] eqn:Eo; [|done].
  set (d1 := with_operators _ d).
  pose proof (pick_up_fold later (pending_commands op d1) d1 [] (pending_rows_NoDup op d1) (fun i c H => proj1 (elem_of_pending op d1 i c H))) as F.
  destruct (foldl _ _ _) as [d2 cs']. intros [= -> -> _]. destruct F as (F1 & F2 & F3 & F4 & F5).
  split; [by eexists|]. split; [by exists i, o|]. done.
Qed.

Lemma refused_poll now later op q d d' e : poll_commands now later op q d = (d', Err e) -> d' = d.
Proof.
  unfold Operators.poll_commands. destruct (_validate_operator_token now q d); [|by intros [= <-]].
  destruct (get_operator op d) as [[i o]|]; [|by intros [= <-]]. by destruct (foldl _ _ _).
Qed.

(** ** What may happen to the queue *)

Definition ids_unique (d : opdb) : Prop :=
  forall i j c c', queue d !! i = Some c -> queue d !! j = Some c' -> command_id c = command_id c' -> i = j.
Definition settled (c : command) : Prop := cmd_status c = COMPLETED \/ cmd_status c = FAILED.
Definition open (c : command) : Prop := cmd_status c = QUEUED \/ cmd_status c = PICKED_UP.

(** Requests, each with what it hands out and what result it takes. *)
Inductive served (d : opdb) : opdb -> list string -> list string -> Prop :=
| sv_poll now later op q d' cs interval : poll_commands now later op q d = (d', Ok (cs, interval)) -> served d d' (d_id <$> cs) []
| sv_submit now op cmd q b d' : submit_result now op cmd q b d = (d', Ok tt) -> served d d' [] [cmd]
| sv_enqueue new_id drawn now op act arguments timeout d' r : queue d !! new_id = None ->
    enqueue_command new_id drawn now op act arguments timeout d = (d', r) -> served d d' [] []
| sv_cleanup live now : served d (cleanup_stale_operators_and_commands live now d) [] []
| sv_register new_id uuid now q b d' i : operators d !! new_id = None -> register_poll_operator new_id uuid now q b d = Ok (d', i) -> served d d' [] []
| sv_heartbeat now op q b d' r : submit_heartbeat now op q b d = (d', r) -> served d d' [] []
| sv_health now op q c b d' r : submit_health now op q c b d = (d', r) -> served d d' [] []
| sv_remove op d' r : remove_operator op d = (d', r) -> served d d' [] []
| sv_mode op mode config d' r : set_connectivity_mode op mode config d = (d', r) -> served d d' [] []
| sv_link op c d' r : link_operator_to_cluster op c d = (d', r) -> served d d' [] []
| sv_unlink op d' r : unlink_operator_from_cluster op d = (d', r) -> served d d' [] [].

Inductive history (d : opdb) : opdb -> list string -> list string -> Prop :=
| h_start : history d d [] []
| h_next d1 d2 dl ac dl' ac' : history d d1 dl ac -> served d1 d2 dl' ac' -> history d d2 (dl ++ dl') (ac ++ ac').

Definition moved (c c' : command) : Prop :=
  command_id c' = command_id c /\ cmd_operator c' = cmd_operator c /\
  (c' = c \/ cmd_status c = QUEUED /\ cmd_status c' <> QUEUED \/ cmd_status c = PICKED_UP /\ settled c').
Record change (d d' : opdb) (dl ac : list string) : Prop := {
  ch_kept i c : queue d !! i = Some c -> exists c', queue d' !! i = Some c' /\ moved c c';
  ch_new i c' : queue d' !! i = Some c' -> queue d !! i = None ->
    cmd_status c' = QUEUED /\ (forall j c, queue d !! j = Some c -> command_id c <> command_id c') /\
    (forall j c'', queue d' !! j = Some c'' -> queue d !! j = None -> j = i);
  ch_dl : NoDup dl /\ forall id, id ∈ dl -> exists i c c', queue d !! i = Some c /\ queue d' !! i = Some c' /\ command_id c = id /\ cmd_status c = QUEUED /\ cmd_status c' = PICKED_UP;
  ch_ac : NoDup ac /\ forall id, id ∈ ac -> exists i c c', queue d !! i = Some c /\ queue d' !! i = Some c' /\ command_id c = id /\ open c /\ settled c'
}.

Lemma moved_refl c : moved c c.
Proof. unfold moved. auto. Qed.
Hint Resolve moved_refl : core.

(** A request that changes rows of the queue in place and hands out nothing. *)
Lemma change_map d d' (f : Z -> command -> command) :
  (forall i, queue d' !! i = f i <$> queue d !! i) -> (forall i c, queue d !! i = Some c -> moved c (f i c)) -> change d d' [] [].
Proof.
  intros Hq Hm. split.
  - intros i c Hi. exists (f i c). rewrite Hq, Hi. auto.
  - intros i c' Hi Hn. rewrite Hq, Hn in Hi. done.
  - split; [constructor|by intros ? ?%elem_of_nil].
  - split; [constructor|by intros ? ?%elem_of_nil].
Qed.
Lemma change_same d d' : queue d' = queue d -> change d d' [] [].
Proof. intros E. apply (change_map d d' (fun _ c => c)); [|auto]. intros i. rewrite E. by destruct (queue d !! i). Qed.

Lemma served_poll now later op q d d' cs interval : ids_unique d ->
  poll_commands now later op q d = (d', Ok (cs, interval)) -> change d d' (d_id <$> cs) [].
Proof.
  intros U H. apply poll_spec in H as (_ & _ & _ & _ & Hq & ->).
  assert (E : forall ic, ic ∈ pending_commands op d -> queue d' !! ic.1 = Some (handled later ic.2)).
  { intros [i c] Hi. rewrite Hq, decide_True by (apply list_elem_of_fmap; by exists (i, c)).
    apply elem_of_pending in Hi as [Hi _]. cbn. by rewrite Hi. }
  split.
  - intros i c Hi. rewrite Hq, Hi. destruct (decide _) as [Hp|]; [|eauto]. eexists. split; [done|].
    apply list_elem_of_fmap in Hp as ([i' c'] & -> & Hp). apply elem_of_pending in Hp as (Hp & _ & Hs). cbn in Hi.
    assert (c' = c) as -> by congruence. unfold handled, moved. destruct (over_age later c); cbn; rewrite Hs; split; [done| |done|]; (split; [done|]); right; left; done.
  - intros i c' Hi Hn. rewrite Hq, Hn in Hi. by destruct (decide _).
  - split.
    + rewrite <- list_fmap_compose. apply NoDup_fmap_2_strong.
      * intros [i c] [j c'] [_ H1]%list_elem_of_filter [_ H2]%list_elem_of_filter Hid.
        apply elem_of_pending in H1 as (H1 & _), H2 as (H2 & _). cbn in Hid. assert (i = j) as -> by eauto. congruence.
      * apply NoDup_filter, (NoDup_fmap_1 fst), pending_rows_NoDup.
    + intros id ([? ?] & -> & Hc)%list_elem_of_fmap. apply list_elem_of_fmap in Hc as ([i c] & Hd & [Ho Hc]%list_elem_of_filter).
      exists i, c, (handled later c). specialize (E _ Hc). apply elem_of_pending in Hc as (Hc & _ & Hs). cbn in *.
      injection Hd as -> _ _ _. unfold handled in *. by rewrite Ho in *.
  - split; [constructor|by intros ? ?%elem_of_nil].
Qed.

Lemma served_submit now op cmd q b d d' : ids_unique d -> submit_result now op cmd q b d = (d', Ok tt) -> change d d' [] [cmd].
Proof.
  intros U. unfold Operators.submit_result. destruct (_validate_operator_token now q d); [|done].
  destruct (get_command op cmd d) as [[i c]|] eqn:E; [|done]. destruct (bool_decide _) eqn:Es; [|done].
  destruct (match s_error b with Some _ => _ | None => _ end); [done|]. cbn [negb].
  apply first_row in E as [Hi E]. apply andb_true_iff in E as [E1%String.eqb_eq E2%String.eqb_eq].
  apply bool_decide_eq_true in Es. rewrite !elem_of_cons, elem_of_nil in Es.
  assert (O : open c) by (unfold open; naive_solver).
  assert (S : settled (completed now b c)) by (unfold settled; cbn; destruct (s_success b); auto).
  intros H. assert (Hq : queue d' = alter (completed now b) i (queue d)).
  { destruct (get_operator _ _) as [[j o]|]; by injection H as <-. }
  split.
  - intros j x Hj. rewrite Hq. destruct (decide (j = i)) as [->|N]; [|rewrite lookup_alter_ne by done; eauto].
    rewrite lookup_alter_eq, Hj. assert (x = c) as -> by congruence. eexists. split; [done|].
    split; [done|]. split; [done|]. right. destruct O as [O|O]; rewrite O; [left|right; done].
    split; [done|]. destruct S as [->| ->]; done.
  - intros j x Hj Hn. rewrite Hq in Hj. destruct (decide (j = i)) as [->|N]; [congruence|]. rewrite lookup_alter_ne in Hj by done. congruence.
  - split; [constructor|by intros ? ?%elem_of_nil].
  - split; [apply NoDup_singleton|]. intros id ->%list_elem_of_singleton. exists i, c, (completed now b c).
    split; [done|]. rewrite Hq, lookup_alter_eq, Hi. done.
Qed.

Lemma served_enqueue new_id drawn now op act arguments timeout d d' r : queue d !! new_id = None ->
  enqueue_command new_id drawn now op act arguments timeout d = (d', r) -> change d d' [] [].
Proof.
  intros Hn. unfold enqueue_command. destruct (head _) eqn:E; [intros [= <- _]; by apply change_same|].
  intros [= <- _]. rewrite first_none in E. split; cbn [with_queue queue].
  - intros i c Hi. exists c. rewrite lookup_insert_ne by congruence. auto.
  - intros i c' Hi Hi'. destruct (decide (i = new_id)) as [->|N]; [|rewrite lookup_insert_ne in Hi by done; congruence].
    rewrite lookup_insert_eq in Hi. injection Hi as <-. cbn. split; [done|]. split.
    + intros j c Hj Hid. specialize (E _ _ Hj). cbn in E. by apply String.eqb_neq in E.
    + intros j c'' Hj Hj'. destruct (decide (j = new_id)) as [->|N]; [done|]. rewrite lookup_insert_ne in Hj by done. congruence.
  - split; [constructor|by intros ? ?%elem_of_nil].
  - split; [constructor|by intros ? ?%elem_of_nil].
Qed.

Lemma served_cleanup live now d : change d (cleanup_stale_operators_and_commands live now d) [] [].
Proof.
  eapply (change_map _ _ (fun _ c => _)).
  - intros i. cbn [cleanup_stale_operators_and_commands cleanup_expired_commands with_queue queue]. rewrite lookup_fmap. reflexivity.
  - intros i c Hi. cbn beta. destruct (is_queued c) eqn:E; [|by cbn; auto]. apply bool_decide_eq_true in E.
    destruct (over_age now c); cbn [andb]; [|auto]. split; [done|]. split; [done|]. right. left. done.
Qed.

Lemma register_queue new_id uuid now q b d d' i : register_poll_operator new_id uuid now q b d = Ok (d', i) -> queue d' = queue d.
Proof.
  unfold Operators.register_poll_operator. intros (x & Hx & H)%bind_Ok. destruct (validate_registration_token _ _ _) as [[ti t]|]; [|done].
  apply bind_Ok in H as ([d1 j] & H1 & H). injection H as <- _. unfold register_operator in H1.
  destruct (by_cluster_name _ _) as [[k o]|]; [by injection H1 as <- <-|]. destruct (get_operator _ _); [done|by injection H1 as <- <-].
Qed.

(** Each request changes rows of the queue along their way only. *)
Lemma served_change d d' dl ac : ids_unique d -> served d d' dl ac -> change d d' dl ac.
Proof.
  intros U H. destruct H as [??????? H|?????? H|????????? N H| |??????? _ H|?????? H|??????? H|??? H|????? H|???? H|??? H].
  - by eapply served_poll.
  - by eapply served_submit.
  - by eapply served_enqueue.
  - apply served_cleanup.
  - apply change_same. by eapply register_queue.
  - apply change_same. unfold Operators.submit_heartbeat, update_operator_heartbeat in H. repeat case_match; by simplify_eq.
  - apply change_same. unfold Operators.submit_health, update_operator_health in H.
    repeat (case_match; simplify_eq/=; try done).
  - apply change_same. unfold remove_operator, delete_operator in H. repeat case_match; by simplify_eq.
  - apply change_same. unfold set_connectivity_mode in H. repeat case_match; by simplify_eq.
  - apply change_same. unfold link_operator_to_cluster in H. repeat case_match; by simplify_eq.
  - apply change_same. unfold unlink_operator_from_cluster in H. repeat case_match; by simplify_eq.
Qed.

Lemma change_unique d d' dl ac : ids_unique d -> change d d' dl ac -> ids_unique d'.
Proof.
  intros U C i j c c' Hi Hj Hid. destruct (queue d !! i) as [ci|] eqn:Ei, (queue d !! j) as [cj|] eqn:Ej.
  - destruct (ch_kept _ _ _ _ C _ _ Ei) as (x & Hx & Mx & _), (ch_kept _ _ _ _ C _ _ Ej) as (y & Hy & My & _). apply (U i j ci cj); congruence.
  - destruct (ch_kept _ _ _ _ C _ _ Ei) as (x & Hx & Mx & _). destruct (ch_new _ _ _ _ C _ _ Hj Ej) as (_ & N & _). exfalso. apply (N _ _ Ei). congruence.
  - destruct (ch_kept _ _ _ _ C _ _ Ej) as (x & Hx & Mx & _). destruct (ch_new _ _ _ _ C _ _ Hi Ei) as (_ & N & _). exfalso. apply (N _ _ Ej). congruence.
  - destruct (ch_new _ _ _ _ C _ _ Hj Ej) as (_ & _ & N). by eapply N.
Qed.

(** C19. Over any history: a command is handed out at most once and gets at most one
    result, which stays. *)
Lemma delivered_once d d' dl ac : ids_unique d -> history d d' dl ac ->
  ids_unique d' /\ NoDup dl /\ NoDup ac /\
  (forall i c, queue d !! i = Some c -> ~ open c -> queue d' !! i = Some c) /\
  (forall id, id ∈ dl -> exists i c, queue d' !! i = Some c /\ command_id c = id /\ cmd_status c <> QUEUED) /\
  (forall id, id ∈ ac -> exists i c, queue d' !! i = Some c /\ command_id c = id /\ settled c).
Proof.
  intros U H. induction H as [|d1 d2 dl ac dl' ac' _ IH S].
  { split; [done|]. repeat (split; [by constructor|]). split; [done|]. by split; intros ? ?%elem_of_nil. }
  destruct IH as (U1 & Ndl & Nac & F & D & A). pose proof (served_change _ _ _ _ U1 S) as C.
  assert (K : forall i c, queue d1 !! i = Some c -> exists c', queue d2 !! i = Some c' /\ moved c c') by apply C.
  destruct (ch_dl _ _ _ _ C) as [Ndl' D'], (ch_ac _ _ _ _ C) as [Nac' A'].
  assert (frozen : forall c c', moved c c' -> ~ open c -> c' = c).
  { unfold moved, open. intros c c' (_ & _ & [?|[[? ?]|[? ?]]]) N; [done|destruct N; auto..]. }
  split; [by eapply change_unique|]. split; [|split; [|split; [|split]]].
  - apply NoDup_app. split; [done|]. split; [|done]. intros id (i & c & Hi & Hid & Hs)%D (j & c2 & _ & Hj & _ & Hid2 & Hs2 & _)%D'.
    assert (i = j) as -> by (eapply U1; [done..|congruence]). congruence.
  - apply NoDup_app. split; [done|]. split; [|done]. intros id (i & c & Hi & Hid & Hs)%A (j & c2 & _ & Hj & _ & Hid2 & Hs2 & _)%A'.
    assert (i = j) as -> by (eapply U1; [done..|congruence]). assert (c = c2) as -> by congruence.
    unfold open, settled in *. destruct Hs as [Hs|Hs], Hs2 as [Hs2|Hs2]; congruence.
  - intros i c Hi Ho. destruct (K i c (F i c Hi Ho)) as (c' & Hc' & M). by rewrite <- (frozen _ _ M Ho).
  - intros id [H|H]%elem_of_app.
    + destruct (D id H) as (i & c & Hi & Hid & Hs). destruct (K i c Hi) as (c' & Hc' & M). exists i, c'. split; [done|].
      destruct M as (M1 & _ & M). split; [congruence|]. destruct M as [->|[[M _]|[_ [M|M]]]]; [done..|congruence|congruence].
    + destruct (D' id H) as (i & c & c' & Hi & Hc' & Hid & Hs & Hs'). destruct (K i c Hi) as (c2 & Hc2 & M1 & _). exists i, c'. split; [done|]. split; [congruence|congruence].
  - intros id [H|H]%elem_of_app.
    + destruct (A id H) as (i & c & Hi & Hid & Hs). destruct (K i c Hi) as (c' & Hc' & M). exists i, c'. split; [done|].
      rewrite (frozen _ _ M) by (unfold open, settled in *; destruct Hs as [-> | ->]; intros [?|?]; done). done.
    + destruct (A' id H) as (i & c & c' & Hi & Hc' & Hid & _ & Hs). destruct (K i c Hi) as (c2 & Hc2 & M1 & _). exists i, c'. split; [done|]. split; [congruence|done].
Qed.

(** ** Draining the queue *)

Lemma validate_tokens now q d d' : tokens d' = tokens d -> _validate_operator_token now q d' = _validate_operator_token now q d.
Proof. intros E. unfold Operators._validate_operator_token, Operators.validate_registration_token. by rewrite E. Qed.

Definition queued (op : string) (d : opdb) : list (Z * command) := select (fun _ c => String.eqb (cmd_operator c) op && is_queued c) (queue d).
(** Polls of one operator, each with its two readings of the clock. *)
Fixpoint polls (ts : list (Z * Z)) (op : string) (q : credentials) (d : opdb) : opdb :=
  match ts with
  | [] => d
  | t :: ts => polls ts op q (poll_commands t.1 t.2 op q d).1
  end.

Lemma elem_of_queued op d i : i ∈ (queued op d).*1 <-> exists c, queue d !! i = Some c /\ cmd_operator c = op /\ cmd_status c = QUEUED.
Proof.
  rewrite list_elem_of_fmap. split.
  - intros ([j c] & -> & H). apply elem_of_select in H as [Hi H]. apply andb_true_iff in H as [H1%String.eqb_eq H2%bool_decide_eq_true]. by exists c.
  - intros (c & Hi & H1 & H2). exists (i, c). split; [done|]. apply elem_of_select. split; [done|].
    apply andb_true_iff. split; [by apply String.eqb_eq|by apply bool_decide_eq_true].
Qed.

Lemma get_operator_kept op d d' i f : operators d' = alter (on_presence f) i (operators d) -> get_operator op d <> None -> get_operator op d' <> None.
Proof.
  unfold get_operator. intros E H N. apply H. rewrite first_none in N. apply first_none. intros j o Hj. rewrite E in N.
  destruct (decide (j = i)) as [->|Hne].
  - specialize (N i (on_presence f o)). rewrite lookup_alter_eq, Hj in N. by apply N.
  - apply N with (i := j). by rewrite lookup_alter_ne by done.
Qed.

(** A poll takes the five oldest, or all when there are fewer. *)
Lemma poll_takes now later op q d d' r : poll_commands now later op q d = (d', Ok r) ->
  tokens d' = tokens d /\ (get_operator op d <> None -> get_operator op d' <> None) /\
  (queued op d).*1 ≡ₚ (pending_commands op d).*1 ++ (queued op d').*1 /\ length (pending_commands op d) = Nat.min 5 (length (queued op d)).
Proof.
  destruct r as [cs interval]. intros H. apply poll_spec in H as (_ & (i & o & _ & Ho) & Ht & _ & Hq & _).
  split; [done|]. split; [by eapply get_operator_kept|]. split.
  - apply NoDup_Permutation; [apply select_NoDup| |].
    + apply NoDup_app. split; [apply pending_rows_NoDup|]. split; [|apply select_NoDup].
      intros j Hj (c & Hc & _ & Hs)%elem_of_queued. rewrite Hq, decide_True in Hc by done.
      destruct (queue d !! j) as [c0|]; [|done]. injection Hc as <-. unfold handled in Hs. by destruct (over_age later c0).
    + intros j. rewrite elem_of_app, !elem_of_queued. split.
      * intros (c & Hc & Hop & Hs). destruct (decide (j ∈ (pending_commands op d).*1)) as [|N]; [by left|right].
        exists c. by rewrite Hq, decide_False by done.
      * intros [Hj|(c & Hc & Hop & Hs)].
        -- apply list_elem_of_fmap in Hj as ([j' c] & -> & Hj). apply elem_of_pending in Hj. by exists c.
        -- rewrite Hq in Hc. destruct (decide _) as [Hj|]; [|by exists c].
           destruct (queue d !! j) as [c0|]; [|done]. injection Hc as <-. unfold handled in Hs. by destruct (over_age later c0).
  - unfold pending_commands. rewrite length_take. by rewrite merge_sort_Permutation.
Qed.

(** Polls that are let in empty the queue of their operator, five commands each. *)
Lemma queue_drains ts op q d :
  (forall t, t ∈ ts -> is_Ok (_validate_operator_token t.1 q d) = true) -> get_operator op d <> None ->
  (length (queued op d) <= 5 * length ts)%nat ->
  forall i c, queue (polls ts op q d) !! i = Some c -> cmd_operator c = op -> cmd_status c <> QUEUED.
Proof.
  revert d. induction ts as [|t ts IH]; intros d V G L i c Hi Hop Hs.
  - cbn in L, Hi. assert (X : i ∈ (queued op d).*1) by (apply elem_of_queued; by exists c).
    destruct (queued op d); cbn in L; [by apply elem_of_nil in X|lia].
  - cbn [polls] in Hi. destruct (poll_commands t.1 t.2 op q d) as [d1 [r|e]] eqn:E.
    + apply poll_takes in E as (Ht & Hg & P & Lp). cbn [fst] in Hi.
      eapply (IH d1); [| | |exact Hi|done|done].
      * intros t' Ht'. rewrite (validate_tokens _ _ d) by done. apply V. by right.
      * auto.
      * apply Permutation_length in P. rewrite length_app, !length_fmap in P. cbn in L. lia.
    + exfalso. unfold Operators.poll_commands in E. specialize (V t ltac:(left)).
      destruct (_validate_operator_token t.1 q d); [|done]. destruct (get_operator op d) as [[j o]|]; [|done].
      by destruct (foldl _ _ _).
Qed.

(** ** Waiting for a result *)

Definition unsettled_turn (clock : nat -> Z) (seen : nat -> opdb) (start timeout : Z) (id : string) (k : nat) : Prop :=
  clock k - start < timeout /\ exists c, row_of id (seen k) = Some c /\ settled_answer c = None.
(** How turn [k] ends the wait. *)
Definition ends_with (clock : nat -> Z) (seen : nat -> opdb) (start timeout : Z) (id : string) (k : nat) (r : waited) : Prop :=
  (timeout <= clock k - start /\ r = GaveUp) \/
  (clock k - start < timeout /\ match row_of id (seen k) with None => r = Gone | Some c => settled_answer c = Some r end).

Lemma wait_loop_correct fuel clock seen start timeout id k :
  (exists n, (k <= n < k + fuel)%nat /\ timeout <= clock n - start) ->
  exists n r, (k <= n)%nat /\ wait_loop fuel clock seen start timeout id k = Some r /\
    (forall j, (k <= j < n)%nat -> unsettled_turn clock seen start timeout id j) /\ ends_with clock seen start timeout id n r.
Proof.
  revert k. induction fuel as [|fuel IH]; intros k (m & Hm & Hc); [lia|]. cbn.
  destruct (Z.ltb_spec (clock k - start) timeout) as [L|L]; cbn.
  - destruct (row_of id (seen k)) as [c|] eqn:E.
    + destruct (settled_answer c) as [a|] eqn:Ea.
      * exists k, a. split; [done|]. split; [done|]. split; [lia|]. right. by rewrite E.
      * destruct (IH (S k)) as (n & r & Hn & Hr & Hj & He).
        { exists m. split; [|done]. destruct (decide (m = k)) as [->|]; [lia|lia]. }
        exists n, r. split; [lia|]. split; [done|]. split; [|done]. intros j Hjk.
        destruct (decide (j = k)) as [->|]; [by (split; [done|]; exists c)|apply Hj; lia].
    + exists k, Gone. split; [done|]. split; [done|]. split; [lia|]. right. by rewrite E.
  - exists k, GaveUp. split; [done|]. split; [done|]. split; [lia|]. left. split; [lia|done].
Qed.

(** With a pause of [interval] between turns a wait always returns; what it returns is
    what the first turn says that finds the command settled or gone or the time over. *)
Lemma wait_correct clock seen start timeout interval id :
  0 < interval -> start <= clock 0%nat -> (forall k, clock k + interval <= clock (S k)) ->
  exists n r, wait_for_result clock seen start timeout interval id = Some r /\
    (forall j, (j < n)%nat -> unsettled_turn clock seen start timeout id j) /\ ends_with clock seen start timeout id n r.
Proof.
  intros Hp H0 Hs. assert (C : forall k, start + Z.of_nat k * interval <= clock k).
  { induction k as [|k IH]; [lia|]. specialize (Hs k). lia. }
  destruct (wait_loop_correct (wait_turns timeout interval) clock seen start timeout id 0) as (n & r & _ & Hr & Hj & He).
  - exists (Z.to_nat (timeout / interval + 1)). split; [unfold wait_turns; lia|].
    specialize (C (Z.to_nat (timeout / interval + 1))).
    destruct (Z_lt_dec timeout 0) as [N|N]; [nia|].
    assert (0 <= timeout / interval) by (apply Z.div_pos; lia). rewrite Z2Nat.id in C by lia.
    pose proof (Z.mod_pos_bound timeout interval Hp). pose proof (Z.div_mod timeout interval). nia.
  - exists n, r. split; [done|]. split; [|done]. intros j Hlt. apply Hj. lia.
Qed.

(** ** Tokens *)

Definition hashes_unique (d : opdb) : Prop :=
  forall i j t t', tokens d !! i = Some t -> tokens d !! j = Some t' -> rt_hash t = rt_hash t' -> i = j.

Lemma validated now p d i t : validate_registration_token now p d = Some (i, t) ->
  tokens d !! i = Some t /\ rt_hash t = _hash_token p /\ rt_active t = true /\ exhausted t = false.
Proof.
  unfold Operators.validate_registration_token. destruct (head _) as [[j u]|] eqn:E; [|done].
  apply first_row in E as [Hj E]. apply andb_true_iff in E as [E1%String.eqb_eq E2].
  destruct (match rt_expires_at u with Some _ => _ | None => _ end); [done|]. destruct (exhausted u) eqn:Ex; [done|].
  by intros [= <- <-].
Qed.

Lemma registered_tokens new_id uuid now q b d d' id : register_poll_operator new_id uuid now q b d = Ok (d', id) ->
  exists ti t, validate_registration_token now (default (query_token q) (after_prefix "Bearer " (authorization q))) d = Some (ti, t) /\
    tokens d' = alter (used now) ti (tokens d).
Proof.
  unfold Operators.register_poll_operator. intros (x & _ & H)%bind_Ok. destruct (validate_registration_token _ _ _) as [[ti t]|] eqn:E; [|done].
  apply bind_Ok in H as ([d1 j] & H1 & H). injection H as <- _. exists ti, t. split; [done|]. unfold register_operator in H1.
  destruct (by_cluster_name _ _) as [[k o]|]; [by injection H1 as <- <-|]. destruct (get_operator _ _); [done|by injection H1 as <- <-].
Qed.

(** Only registrations touch tokens, and they only count up. *)
Lemma served_tokens d d' dl ac : served d d' dl ac -> tokens d' = tokens d \/ exists now ti, tokens d' = alter (used now) ti (tokens d).
Proof.
  intros H. destruct H as [??????? H|?????? H|????????? N H| |??????? _ H|?????? H|??????? H|??? H|????? H|???? H|??? H].
  - left. apply poll_spec in H. tauto.
  - left. unfold Operators.submit_result in H. repeat (case_match; simplify_eq/=; try done).
  - left. unfold enqueue_command in H. repeat case_match; by simplify_eq.
  - by left.
  - right. apply registered_tokens in H as (ti & t & _ & H). eauto.
  - left. unfold Operators.submit_heartbeat, update_operator_heartbeat in H. repeat case_match; by simplify_eq.
  - left. unfold Operators.submit_health, update_operator_health in H. repeat (case_match; simplify_eq/=; try done).
  - left. unfold remove_operator, delete_operator in H. repeat case_match; by simplify_eq.
  - left. unfold set_connectivity_mode in H. repeat case_match; by simplify_eq.
  - left. unfold link_operator_to_cluster in H. repeat case_match; by simplify_eq.
  - left. unfold unlink_operator_from_cluster in H. repeat case_match; by simplify_eq.
Qed.

Definition spent (h : string) (d : opdb) : Prop :=
  forall i t, tokens d !! i = Some t -> rt_hash t = h -> exhausted t = true.

Lemma used_spent now ti h d d' : tokens d' = alter (used now) ti (tokens d) -> spent h d -> spent h d'.
Proof.
  intros E S i t Hi Hh. rewrite E in Hi. destruct (decide (i = ti)) as [->|N]; [|rewrite lookup_alter_ne in Hi by done; eauto].
  rewrite lookup_alter_eq in Hi. destruct (tokens d !! ti) as [t0|] eqn:E0; [|done]. injection Hi as <-. cbn in Hh.
  specialize (S ti t0 E0 Hh). unfold exhausted in *. cbn. destruct (max_uses t0); [|done]. apply Z.leb_le in S. apply Z.leb_le. lia.
Qed.
Lemma history_spent h d d' dl ac : history d d' dl ac -> spent h d -> spent h d'.
Proof.
  intros H S. induction H as [|d1 d2 dl ac dl' ac' _ IH St]; [done|]. apply served_tokens in St as [E|(now & ti & E)].
  - intros i t. rewrite E. apply IH.
  - by eapply used_spent.
Qed.
Lemma spent_refused now q d : spent (_hash_token (token_of q)) d -> exists why, _validate_operator_token now q d = Err (UnauthorizedError why).
Proof.
  intros S. unfold Operators._validate_operator_token. destruct (String.eqb (token_of q) ""); [by eexists|].
  destruct (validate_registration_token now (token_of q) d) as [[i t]|] eqn:E; [|by eexists].
  apply validated in E as (Hi & Hh & _ & Hx). by rewrite (S i t Hi Hh) in Hx.
Qed.

(** The registration that uses a token up locks its operator out: whatever happens
    afterwards, what is sent with the token is refused and changes nothing. *)
Lemma last_use_locks_out new_id uuid now p b d d1 id ti t n d2 dl ac :
  hashes_unique d -> p <> "" -> validate_registration_token now p d = Some (ti, t) -> max_uses t = Some n -> n <= use_count t + 1 ->
  register_poll_operator new_id uuid now {| authorization := "Bearer " +:+ p; query_token := "" |} b d = Ok (d1, id) -> history d1 d2 dl ac ->
  forall later later' q, token_of q = p -> exists why,
    poll_commands later later' id q d2 = (d2, Err (UnauthorizedError why)) /\
    (forall cmd s, submit_result later id cmd q s d2 = (d2, Err (UnauthorizedError why))) /\
    (forall s, submit_heartbeat later id q s d2 = (d2, Err (UnauthorizedError why))).
Proof.
  intros U Hp V Hn Hu R H later later' q Hq. pose proof (validated _ _ _ _ _ V) as (Ht & Hh & _).
  assert (S : spent (rt_hash t) d1).
  { apply registered_tokens in R as (ti' & t' & V' & E). assert (X : after_prefix "Bearer " ("Bearer " +:+ p) = Some p) by (cbn; by destruct p).
    cbn [authorization] in V'. rewrite X in V'. cbn in V'. assert (ti' = ti) as -> by congruence. intros i u Hi Hhu. rewrite E in Hi.
    destruct (decide (i = ti)) as [->|N].
    - rewrite lookup_alter_eq, Ht in Hi. injection Hi as <-. unfold exhausted. cbn. rewrite Hn. apply Z.leb_le. lia.
    - rewrite lookup_alter_ne in Hi by done. by destruct N; eapply U. }
  apply (history_spent _ _ _ _ _ H) in S. rewrite Hh, <- Hq in S. destruct (spent_refused later _ _ S) as (why & W). exists why.
  unfold Operators.poll_commands, Operators.submit_result, Operators.submit_heartbeat. by rewrite W.
Qed.

(** A token is not bound to an operator: what polls and results do does not depend on
    which valid token came with them. *)
Lemma tokens_interchangeable now q q' d : is_Ok (_validate_operator_token now q d) = true -> is_Ok (_validate_operator_token now q' d) = true ->
  forall later op cmd b, poll_commands now later op q d = poll_commands now later op q' d /\ submit_result now op cmd q b d = submit_result now op cmd q' b d.
Proof.
  unfold Operators.poll_commands, Operators.submit_result. intros H H' later op cmd b.
  destruct (_validate_operator_token now q d), (_validate_operator_token now q' d); done.
Qed.

(** ** The rows of operators *)

Record fleet_inv (d : opdb) : Prop := {
  inv_ids i j o o' : operators d !! i = Some o -> operators d !! j = Some o' -> operator_id o = operator_id o' -> i = j;
  inv_names i j o o' : operators d !! i = Some o -> operators d !! j = Some o' -> o_cluster_name o = o_cluster_name o' -> i = j;
  inv_links i j o o' c : operators d !! i = Some o -> operators d !! j = Some o' -> o_cluster o = Some c -> o_cluster o' = Some c -> i = j
}.

(** Rows changed in place without their id, their name or a new link. *)
Lemma inv_map d d' (f : Z -> connected_operator -> connected_operator) : (forall i, operators d' !! i = f i <$> operators d !! i) ->
  (forall i o, operator_id (f i o) = operator_id o /\ o_cluster_name (f i o) = o_cluster_name o /\ (o_cluster (f i o) = o_cluster o \/ o_cluster (f i o) = None)) ->
  fleet_inv d -> fleet_inv d'.
Proof.
  intros E K I. assert (L : forall i o', operators d' !! i = Some o' -> exists o, operators d !! i = Some o /\ o' = f i o).
  { intros i o'. rewrite E. destruct (operators d !! i); [intros [= <-]; eauto|done]. }
  split; intros i j o1 o2; [intros (u & Hu & ->)%L (v & Hv & ->)%L..|intros c (u & Hu & ->)%L (v & Hv & ->)%L];
    destruct (K i u) as (K1 & K2 & K3), (K j v) as (K4 & K5 & K6).
  - rewrite K1, K4. by eapply inv_ids.
  - rewrite K2, K5. by eapply inv_names.
  - intros H1 H2. destruct K3, K6; try congruence. apply (inv_links _ I i j u v c); congruence.
Qed.
Lemma inv_alter d d' f i : operators d' = alter f i (operators d) ->
  (forall o, operator_id (f o) = operator_id o /\ o_cluster_name (f o) = o_cluster_name o /\ (o_cluster (f o) = o_cluster o \/ o_cluster (f o) = None)) ->
  fleet_inv d -> fleet_inv d'.
Proof.
  intros E K. apply (inv_map _ _ (fun j o => if decide (j = i) then f o else o)).
  - intros j. rewrite E. destruct (decide (j = i)) as [->|N]; [by rewrite lookup_alter_eq|]. rewrite lookup_alter_ne by done. by destruct (operators d !! j).
  - intros j o. destruct (decide (j = i)); [apply K|auto].
Qed.
Lemma inv_same d d' : operators d' = operators d -> fleet_inv d -> fleet_inv d'.
Proof. intros E [A B C]. split; rewrite E; eauto. Qed.

Lemma inv_mode m c i d d' : operators d' = alter (fun o => set_mode m (c o) o) i (operators d) -> fleet_inv d -> fleet_inv d'.
Proof. intros E. eapply inv_alter; [done|]. cbn. auto. Qed.

Lemma inv_register new_id uuid now q b d d' i : operators d !! new_id = None -> register_poll_operator new_id uuid now q b d = Ok (d', i) -> fleet_inv d -> fleet_inv d'.
Proof.
  intros Hn. unfold Operators.register_poll_operator. intros (x & _ & H)%bind_Ok I. destruct (validate_registration_token _ _ _) as [[ti t]|]; [|done].
  apply bind_Ok in H as ([d1 j] & H1 & H). injection H as <- _. eapply (inv_mode _ connectivity_config); [reflexivity|]. unfold register_operator in H1.
  destruct (by_cluster_name _ _) as [[k o]|] eqn:En.
  - injection H1 as <- _. eapply (inv_alter d); [reflexivity| |exact I]. cbn. auto.
  - destruct (get_operator uuid d) eqn:Eu; [done|]. injection H1 as <- _. unfold by_cluster_name, get_operator in En, Eu. rewrite first_none in En, Eu.
    assert (Nn : forall j o, operators d !! j = Some o -> o_cluster_name o <> r_cluster_name b) by (intros ? ? Hj%En; by apply String.eqb_neq).
    assert (Nu : forall j o, operators d !! j = Some o -> operator_id o <> uuid) by (intros ? ? Hj%Eu; by apply String.eqb_neq).
    split; cbn [with_operators operators with_rtokens]; intros a e o o'; [| |intros c]; rewrite !lookup_insert_Some; cbn [new_operator];
      intros [[<- <-]|[? Ha]] [[<- <-]|[? He]]; cbn; try done; try (intros; symmetry; eauto; fail); intros;
      first [by eapply (inv_ids _ I)|by eapply (inv_names _ I)|by eapply (inv_links _ I)|exfalso; naive_solver].
Qed.

Lemma inv_link op c d d' r : link_operator_to_cluster op c d = (d', r) -> fleet_inv d -> fleet_inv d'.
Proof.
  unfold link_operator_to_cluster. destruct (get_operator op d) as [[i o]|] eqn:Eo; [|by intros [= <- _]].
  destruct (negb _); [by intros [= <- _]|]. destruct (head _) eqn:E; intros [= <- _]; [done|]. intros I.
  apply first_row in Eo as [Hi Hop%String.eqb_eq]. rewrite first_none in E.
  assert (N : forall j o', operators d !! j = Some o' -> o_cluster o' = Some c -> j = i).
  { intros j o' Hj Hc. specialize (E j o' Hj). rewrite bool_decide_eq_true_2 in E by done. cbn in E. apply negb_false_iff, String.eqb_eq in E.
    eapply (inv_ids _ I); [done..|congruence]. }
  split; cbn [with_operators operators]; intros a e u v; [| |intros x]; rewrite !lookup_alter_Some; cbn [set_cluster];
    intros [(<- & u0 & Ha & ->)|[? Ha]] [(<- & v0 & He & ->)|[? He]]; cbn; try done; intros.
  all: first [by eapply (inv_ids _ I); eauto|by eapply (inv_names _ I); eauto|idtac].
  - simplify_eq. symmetry. eauto.
  - simplify_eq. eauto.
  - by eapply (inv_links _ I).
Qed.

Lemma inv_served d d' dl ac : served d d' dl ac -> fleet_inv d -> fleet_inv d'.
Proof.
  intros H. destruct H as [??????? H|?????? H|????????? N H| |??????? N H|?????? H|??????? H|??? H|????? H|???? H|??? H].
  - apply poll_spec in H as (_ & (i & o & _ & E) & _). eapply inv_alter; [done|]. cbn. auto.
  - unfold Operators.submit_result in H. repeat (case_match; simplify_eq/=; try done); first [by apply inv_same|eapply (inv_alter d); [reflexivity|cbn; auto]].
  - unfold enqueue_command in H. apply inv_same. repeat case_match; by simplify_eq.
  - eapply (inv_map _ _ (fun _ o => _)).
    + intros i. cbn [cleanup_stale_operators_and_commands cleanup_expired_commands cleanup_stale_operators with_queue with_operators operators].
      rewrite lookup_fmap. reflexivity.
    + intros i o. cbn beta. destruct (is_stale _ _ _); cbn; auto.
  - by eapply inv_register.
  - unfold Operators.submit_heartbeat, update_operator_heartbeat in H. repeat (case_match; simplify_eq/=; try done). eapply inv_alter; [done|]. cbn. auto.
  - unfold Operators.submit_health, update_operator_health in H. repeat (case_match; simplify_eq/=; try done);
      (eapply inv_alter; [done|]; cbn; auto).
  - unfold remove_operator, delete_operator in H. repeat (case_match; simplify_eq/=; try done). intros I.
    split; cbn [with_operators operators]; intros a e u v; [| |intros x]; rewrite !lookup_delete_Some; intros [_ Ha] [_ He]; [by apply (inv_ids _ I)|by apply (inv_names _ I)|by apply (inv_links _ I)].
  - unfold set_connectivity_mode in H. repeat (case_match; simplify_eq/=; try done). eapply inv_alter; [done|]. cbn. auto.
  - by eapply inv_link.
  - unfold unlink_operator_from_cluster in H. repeat (case_match; simplify_eq/=; try done). eapply inv_alter; [done|]. cbn. auto.
Qed.

(** In every history an operator's id and its cluster's name are its own, and no cluster
    is linked to two. *)
Lemma one_operator_per_cluster d d' dl ac : fleet_inv d -> history d d' dl ac -> fleet_inv d'.
Proof. intros I H. induction H as [|d1 d2 dl ac dl' ac' _ IH S]; [done|]. by eapply inv_served. Qed.

(** ** Cleaning up *)

(** What is left connected: who was heard in time, who has a WebSocket here, and who was
    never heard at all. *)
Lemma cleanup_exact live now d i o : operators d !! i = Some o ->
  exists o', operators (cleanup_stale_operators_and_commands live now d) !! i = Some o' /\
    (is_connected (o_presence o') = true <->
     is_connected (o_presence o) = true /\
     (operator_id o ∈ live \/ match last_heartbeat_at (o_presence o) with
                              | None => True
                              | Some t => now - seconds STALE_HEARTBEAT_THRESHOLD <= t
                              end)).
Proof.
  intros Hi. eexists. split.
  - cbn [cleanup_stale_operators_and_commands cleanup_expired_commands cleanup_stale_operators with_queue with_operators operators].
    by rewrite lookup_fmap, Hi.
  - unfold is_stale. destruct (is_connected (o_presence o)) eqn:C; cbn [andb]; [|rewrite C; naive_solver].
    destruct (last_heartbeat_at (o_presence o)) as [t|]; cbn [sql_lt sql_true andb].
    + destruct (Z.ltb_spec t (now - seconds STALE_HEARTBEAT_THRESHOLD)) as [L|L]; cbn [andb].
      * destruct (decide (operator_id o ∈ live)) as [Hl|Hl].
        -- rewrite bool_decide_eq_true_2 by done. cbn. naive_solver.
        -- rewrite bool_decide_eq_false_2 by done. cbn. split; [done|]. intros [_ [?|?]]; [done|lia].
      * rewrite C. naive_solver.
    + rewrite C. naive_solver.
Qed.

(** A row of the queue that waits for a result stays through every cleanup. *)
Lemma cleanup_queue live now d i c : queue d !! i = Some c ->
  queue (cleanup_stale_operators_and_commands live now d) !! i =
  Some (if is_queued c && over_age now c then expired now ("Command expired after " +:+ pretty (timeout_seconds c) +:+ "s (never picked up)") c else c).
Proof.
  intros Hi. cbn [cleanup_stale_operators_and_commands cleanup_expired_commands cleanup_stale_operators with_queue with_operators queue].
  by rewrite lookup_fmap, Hi.
Qed.

(** ** Taking over *)

(** Whoever registers under the name of a cluster that is there, with any valid token,
    gets the id of its operator and keeps the cluster's link. *)
Lemma any_token_takes_over new_id uuid now p q b d ti t i o :
  fleet_inv d -> token_of q = p -> p <> "" -> after_prefix "Bearer " (authorization q) = Some p ->
  validate_registration_token now p d = Some (ti, t) -> operators d !! i = Some o -> o_cluster_name o = r_cluster_name b ->
  exists d' o', register_poll_operator new_id uuid now q b d = Ok (d', operator_id o) /\
    operators d' !! i = Some o' /\ o_cluster o' = o_cluster o /\ registration_token_id o' = Some ti.
Proof.
  intros I Hq Hp Ha V Hi Hn. unfold Operators.register_poll_operator, Operators._validate_operator_token.
  rewrite Hq, V. destruct (String.eqb_spec p "") as [|_]; [done|]. rewrite Ha. change (default (query_token q) (Some p)) with p. cbn [mbind result_bind]. rewrite V.
  assert (E : by_cluster_name (r_cluster_name b) d = Some (i, o)).
  { apply first_unique; [done|by apply String.eqb_eq|]. intros j o' Hj Ho%String.eqb_eq. eapply (inv_names _ I); [done..|congruence]. }
  unfold register_operator. rewrite E. cbn [mbind result_bind].
  eexists _, _. split; [|split].
  - repeat f_equal. cbn [with_operators with_rtokens operators]. by rewrite lookup_alter_eq, Hi.
  - cbn [with_operators with_rtokens operators]. rewrite !lookup_alter_eq, Hi. reflexivity.
  - done.
Qed.
End laws.

(** ** Concrete runs *)

Module Example.
#[local] Instance some_order : SetOrder Z := elements_order.
Definition digest (p : string) : string := p.

Definition token : registration_token :=
  {| rt_hash := "bnk_reg_1"; rt_prefix := "bnk_reg_1"; rt_name := "one"; max_uses := Some 1; use_count := 0; rt_expires_at := None; rt_labels := [];
     rt_active := true; rt_last_used_at := None |}.
Definition spare : registration_token :=
  {| rt_hash := "bnk_reg_2"; rt_prefix := "bnk_reg_2"; rt_name := "two"; max_uses := None; use_count := 0; rt_expires_at := None; rt_labels := [];
     rt_active := true; rt_last_used_at := None |}.
Definition agent : connected_operator := set_mode "polling" [] (new_operator "op-1" 2 "east" None [] 0).
Definition work (n : string) (t : Z) : command :=
  {| command_id := "op-1:" +:+ n; cmd_operator := "op-1"; action := "scan_cluster"; payload := JNull; timeout_seconds := 300; cmd_status := QUEUED;
     picked_up_at := None; cmd_result := None; output_lines := None; error_message := None; created_at := t; completed_at := None |}.
Definition base : opdb :=
  {| tokens := {[1 := token; 2 := spare]}; operators := {[1 := set_cluster (Some 7) agent]};
     queue := {[1 := work "a" 0; 2 := work "b" 1]}; k8s_clusters := {[7]} |}.
Definition with_spare : credentials := {| authorization := "Bearer bnk_reg_2"; query_token := "" |}.
Definition fine : submission := {| s_success := true; s_result := Some (JObj [("resources_created", JInt 3)]); s_output := None; s_error := None |}.

Lemma base_ids : ids_unique base.
Proof.
  intros i j c c'. cbn [base queue]. rewrite !lookup_insert_Some, !lookup_singleton_Some.
  intros [[<- <-]|[_ [<- <-]]] [[<- <-]|[_ [<- <-]]]; done.
Qed.
Lemma base_hashes : hashes_unique base.
Proof.
  intros i j c c'. cbn [base tokens]. rewrite !lookup_insert_Some, !lookup_singleton_Some.
  intros [[<- <-]|[_ [<- <-]]] [[<- <-]|[_ [<- <-]]]; done.
Qed.
Lemma base_inv : fleet_inv base.
Proof. split; intros i j o o'; [| |intros c]; cbn [base operators]; rewrite !lookup_singleton_Some; intros [<- <-] [<- <-]; done. Qed.

(** The second result of a command is refused. *)
Definition polled : opdb := (poll_commands digest 10 10 "op-1" with_spare base).1.
Definition answered : opdb := (submit_result digest 20 "op-1" "op-1:a" with_spare fine polled).1.
Example second_result : (submit_result digest 30 "op-1" "op-1:a" with_spare fine answered).2 = Err (BadRequestError "cannot submit result").
Proof. vm_compute. reflexivity. Qed.

(** A result is taken for a command that was never handed out. *)
Example unpolled_result : (submit_result digest 30 "op-1" "op-1:b" with_spare fine base).2 = Ok tt.
Proof. vm_compute. reflexivity. Qed.

(** A long error message is not recorded, and the command stays as it was. *)
Definition long_error : submission := {| s_success := false; s_result := None; s_output := None; s_error := Some (String.concat "" (replicate 2001 "x")) |}.
Example long_error_lost : (submit_result digest 30 "op-1" "op-1:a" with_spare long_error polled).2 = Err (DatabaseError "value too long").
Proof. vm_compute. reflexivity. Qed.

(** Two polls that have both read the queue before either writes hand out the same
    commands. *)
Example overlapping_polls :
  let '(d1, cs1) := foldl (pick_up 10) (base, []) (pending_commands "op-1" base) in
  let '(d2, cs2) := foldl (pick_up 11) (d1, []) (pending_commands "op-1" base) in
  d_id <$> cs1 = ["op-1:a"; "op-1:b"] /\ d_id <$> cs2 = ["op-1:a"; "op-1:b"].
Proof. vm_compute. done. Qed.

Lemma delivered_once_witness :
  ids_unique base /\ history digest base answered (["op-1:a"; "op-1:b"] ++ []) (([] ++ []) ++ ["op-1:a"]) /\ ids_unique answered.
Proof.
  assert (H : history digest base answered ((([] ++ ["op-1:a"; "op-1:b"])) ++ []) (([] ++ []) ++ ["op-1:a"])).
  { eapply h_next; [eapply h_next; [apply h_start|eapply (sv_poll digest base 10 10 "op-1" with_spare polled [delivery_of (work "a" 0); delivery_of (work "b" 1)] (JInt 5))]|apply (sv_submit digest polled 20 "op-1" "op-1:a" with_spare fine)].
    - unfold polled. rewrite (surjective_pairing (poll_commands _ _ _ _ _ _)) at 1. apply f_equal2; [reflexivity|vm_compute; reflexivity].
    - unfold answered. rewrite (surjective_pairing (submit_result _ _ _ _ _ _ _)) at 1. apply f_equal2; [reflexivity|vm_compute; reflexivity]. }
  split; [apply base_ids|]. split; [exact H|]. exact (proj1 (delivered_once digest base answered _ _ base_ids H)).
Defined.

Lemma queue_drains_witness : (length (queued "op-1" base) <= 5 * 1)%nat /\
  forall i c, queue (polls digest [(10, 10)] "op-1" with_spare base) !! i = Some c -> cmd_operator c = "op-1" -> cmd_status c <> QUEUED.
Proof.
  split; [vm_compute; lia|]. apply (queue_drains digest [(10, 10)] "op-1" with_spare base).
  - intros t ->%list_elem_of_singleton. vm_compute. reflexivity.
  - vm_compute. discriminate.
  - vm_compute. lia.
Defined.

Definition newcomer : registration := {| r_cluster_name := "west"; r_version := None; r_labels := []; r_mode := None |}.
Definition joined : opdb := match register_poll_operator digest 5 "op-5" 40 {| authorization := "Bearer bnk_reg_1"; query_token := "" |} newcomer base with Ok (d, _) => d | Err _ => base end.
Lemma last_use_locks_out_witness : validate_registration_token digest 40 "bnk_reg_1" base = Some (1, token) /\
  exists why, (poll_commands digest 50 50 "op-5" {| authorization := ""; query_token := "bnk_reg_1" |} joined).2 = Err (UnauthorizedError why).
Proof.
  assert (V : validate_registration_token digest 40 "bnk_reg_1" base = Some (1, token)) by (vm_compute; reflexivity).
  assert (R : register_poll_operator digest 5 "op-5" 40 {| authorization := "Bearer bnk_reg_1"; query_token := "" |} newcomer base = Ok (joined, "op-5")).
  { unfold joined. destruct (register_poll_operator _ _ _ _ _ _ _) as [[d i]|e] eqn:E; [|vm_compute in E; discriminate].
    f_equal. f_equal. assert (X : (match register_poll_operator digest 5 "op-5" 40 {| authorization := "Bearer bnk_reg_1"; query_token := "" |} newcomer base with Ok (_, i) => i | Err _ => "" end) = "op-5") by (vm_compute; reflexivity).
    rewrite E in X. exact X. }
  split; [exact V|].
  destruct (last_use_locks_out digest 5 "op-5" 40 "bnk_reg_1" newcomer base joined "op-5" 1 token 1 joined [] [] base_hashes ltac:(discriminate) V eq_refl
    ltac:(vm_compute; discriminate) R (h_start digest joined) 50 50 {| authorization := ""; query_token := "bnk_reg_1" |} eq_refl) as (why & H & _).
  exists why. by rewrite H.
Defined.

Lemma one_operator_per_cluster_witness : fleet_inv base /\ fleet_inv (unlink_operator_from_cluster "op-1" base).1.
Proof.
  split; [exact base_inv|]. eapply (one_operator_per_cluster digest base); [exact base_inv|].
  eapply h_next; [apply h_start|]. eapply (sv_unlink digest base "op-1"). apply surjective_pairing.
Defined.
End Example.
