(* ===== verification/OperatorSockets.v ===== *)
(** * Operators with a WebSocket (services/operator_registry.py
      [OperatorConnectionManager], routes/operator_ws.py,
      services/execution/operator_engine.py)

    The connections of a process and the commands that wait on them; what a WebSocket
    session does to the database; how the engine sends a command and reads its answer.
    The payloads of modules are not modelled.  A handler of the event loop is a step
    from one [await] to the next. *)

From S2P Require Import Prelude Texts Operators.

#[local] Open Scope string_scope.
#[local] Open Scope list_scope.
#[local] Open Scope Z_scope.
#[local] Set Default Proof Using "Type".

(** ** The connections of a process *)

(** The state of the future a sender waits on. *)
Inductive future := Waiting | Resulted (message : list (string * json)) | Failed (why : string).
(** [senders]: the calls of [send_command] that have not returned, with their futures. *)
Record hub := {
  _connections : gmap string Z;
  _pending_commands : gset string;
  _command_output : gmap string (list string);
  senders : gmap string future;
  _total_commands_sent : Z;
  _total_commands_failed : Z
}.
Definition hub_start : hub :=
  {| _connections := ∅; _pending_commands := ∅; _command_output := ∅; senders := ∅; _total_commands_sent := 0; _total_commands_failed := 0 |}.
Definition hub_connected (op : string) (h : hub) : bool := bool_decide (is_Some (_connections h !! op)).

(** [self._connections[operator_id] = websocket]; the socket that was there is closed. *)
Definition hub_register (op : string) (ws : Z) (h : hub) : hub :=
  {| _connections := <[op := ws]> (_connections h); _pending_commands := _pending_commands h; _command_output := _command_output h;
     senders := senders h; _total_commands_sent := _total_commands_sent h; _total_commands_failed := _total_commands_failed h |}.

Definition fail_waiting (why : string) (f : future) : future := match f with Waiting => Failed why | _ => f end.
Definition of_operator (op cmd : string) : bool := bool_decide (after_prefix op cmd <> None).
Definition unregister (op reason : string) (h : hub) : hub :=
  let cancelled := filter (fun cmd => of_operator op cmd = true) (_pending_commands h) in
  {| _connections := delete op (_connections h);
     _pending_commands := _pending_commands h ∖ cancelled;
     _command_output := filter (fun kv => kv.1 ∉ cancelled) (_command_output h);
     senders := map_imap (fun cmd f => Some (if decide (cmd ∈ cancelled) then fail_waiting ("Operator disconnected: " +:+ reason) f else f)) (senders h);
     _total_commands_sent := _total_commands_sent h; _total_commands_failed := _total_commands_failed h |}.

(** [send_command] up to its wait; [drawn]: the digits of [uuid4]; [None]: the
    [ConnectionError] of an operator that is not connected. *)
Definition send_command (op drawn : string) (h : hub) : option (hub * string) :=
  if negb (hub_connected op h) then None
  else
    let cmd := op +:+ ":" +:+ drawn in
    Some ({| _connections := _connections h; _pending_commands := {[cmd]} ∪ _pending_commands h; _command_output := <[cmd := []]> (_command_output h);
             senders := <[cmd := Waiting]> (senders h); _total_commands_sent := _total_commands_sent h + 1; _total_commands_failed := _total_commands_failed h |}, cmd).

Inductive sent := Answer (message : list (string * json)) | Raised (why : string) | TimedOut.
(** The end of a call: the future is done, or the time is over. *)
Definition sender_ends (cmd : string) (h : hub) : option (hub * sent) :=
  f ← senders h !! cmd;
  let outcome := match f with Resulted m => Answer m | Failed why => Raised why | Waiting => TimedOut end in
  Some ({| _connections := _connections h; _pending_commands := _pending_commands h ∖ {[cmd]}; _command_output := delete cmd (_command_output h);
           senders := delete cmd (senders h); _total_commands_sent := _total_commands_sent h;
           _total_commands_failed := match f with Waiting => _total_commands_failed h + 1 | _ => _total_commands_failed h end |}, outcome).

(** Messages of an operator, by their type. *)
Inductive op_message :=
| Output (cmd line : string)
| ResultOf (cmd : string) (message : list (string * json))
| ErrorOf (cmd : string) (why : option string)
| OtherMessage.
Definition settle (cmd : string) (g : future -> future) (h : hub) : hub :=
  {| _connections := _connections h; _pending_commands := _pending_commands h; _command_output := _command_output h;
     senders := alter g cmd (senders h); _total_commands_sent := _total_commands_sent h; _total_commands_failed := _total_commands_failed h |}.
Definition handle_message (m : op_message) (h : hub) : hub :=
  match m with
  | Output cmd line =>
      {| _connections := _connections h; _pending_commands := _pending_commands h; _command_output := alter (fun l => l ++ [line]) cmd (_command_output h);
         senders := senders h; _total_commands_sent := _total_commands_sent h; _total_commands_failed := _total_commands_failed h |}
  | ResultOf cmd message =>
      if bool_decide (cmd ∈ _pending_commands h) then
        settle cmd (fun f => match f with
          | Waiting => Resulted (dset "output_lines" (JList (JStr <$> default [] (_command_output h !! cmd))) message)
          | _ => f end) h
      else h
  | ErrorOf cmd why =>
      if bool_decide (cmd ∈ _pending_commands h) then settle cmd (fail_waiting (default "Unknown operator error" why)) h else h
  | OtherMessage => h
  end.

(** ** A session *)

(** [SessionLocal()]: what is committed and what the session sees; closing it rolls
    back. *)
Record session := { committed : opdb; working : opdb }.
Definition SessionLocal (d : opdb) : session := {| committed := d; working := d |}.
Definition on_session (f : opdb -> opdb) (s : session) : session := {| committed := committed s; working := f (working s) |}.
Definition close_session (s : session) : opdb := committed s.

Section ws.
Context {SO : SetOrder Z} (_hash_token : string -> string).

(** The registration of [operator_websocket]: the close code, or the operator's id.
    [init]: the first message, its cluster's name, version and labels; [None] when none
    came in time or it was of another type. *)
Definition ws_register (new_id : Z) (uuid : string) (now : Z) (token : string) (init : option (option string * option string * list (string * json))) (d : opdb) : opdb * (Z + string) :=
  let s := SessionLocal d in
  if String.eqb token "" then (d, inl 4001)
  else match validate_registration_token _hash_token now token (working s) with
       | None => (close_session s, inl 4003)
       | Some (ti, t) =>
           match init with
           | None => (close_session s, inl 4002)
           | Some (name, version, labels) =>
               let cluster_name := default ("cluster-" +:+ rt_name t) name in
               match register_operator new_id uuid now ti t cluster_name version labels (working s) with
               | Err _ => (close_session s, inl 4000)
               | Ok (d', i) =>
                   let s := on_session (fun _ => d') s in
                   (close_session s, inr match operators (working s) !! i with Some o => operator_id o | None => "" end)
               end
           end
       end.

(** The messages of the loop that reach the database, and its end. *)
Inductive ws_message := WsHeartbeat (b : beat) | WsHealth (report : list (string * json)) | WsClosed.
Definition ws_receive (now : Z) (op : string) (m : ws_message) (d : opdb) : opdb :=
  let s := SessionLocal d in
  close_session (on_session (fun d => match m with
    | WsHeartbeat b => update_operator_heartbeat now op b d
    | WsHealth report => match update_operator_health now op report d with Ok d' => d' | Err _ => d end
    | WsClosed => mark_operator_disconnected now op "websocket_closed" d
    end) s).
End ws.

(** ** The engine *)

Record OperatorEngine := { e_operator : string; e_mode : string }.

(** [OperatorEngine.health_check]; [live]: the operators with a WebSocket here. *)
Definition health_check {SO : SetOrder Z} (live : gset string) (now : Z) (e : OperatorEngine) (d : opdb) : bool :=
  if String.eqb (e_mode e) "polling" then
    match get_operator (e_operator e) d with
    | Some (_, o) => is_connected (o_presence o) && match last_heartbeat_at (o_presence o) with Some t => now - t <? seconds 60 | None => false end
    | None => false
    end
  else bool_decide (e_operator e ∈ live).

Inductive route := OverSocket | OverQueue.
Definition _send_command (live : gset string) (e : OperatorEngine) : route :=
  if bool_decide (e_operator e ∈ live) && negb (String.eqb (e_mode e) "polling") then OverSocket else OverQueue.

(** The dict a wait for [cmd] gives the engine. *)
Definition _send_command_polling (cmd : string) (w : waited) : list (string * json) :=
  match w with
  | Gone => [("success", JBool false); ("error_message", JStr ("No result received for command " +:+ cmd))]
  | Answered ok res out error =>
      [("success", JBool ok); ("command_id", JStr cmd); ("result", res); ("output_lines", out);
       ("error_message", match error with Some e => JStr e | None => JNull end)]
  | Lapsed => [("success", JBool false); ("command_id", JStr cmd); ("error_message", JStr "Command expired")]
  | GaveUp => [("success", JBool false); ("command_id", JStr cmd); ("error_message", JStr "Timed out waiting for result")]
  end.

Record OperationResult := { op_success : json; op_output_lines : json; op_resources : json; op_error : json; op_outputs : json }.
(** What [apply] makes of the dict; [pack_outputs]: the outputs the pack declares. *)
Definition apply_result (result : list (string * json)) (pack_outputs : list (string * json)) : OperationResult :=
  let success := default (JBool false) (dget "success" result) in
  {| op_success := success; op_output_lines := default (JList []) (dget "output_lines" result);
     op_resources := default (JInt 0) (dget "resources_created" result);
     op_error := if truthy success then JNull else default JNull (dget "error_message" result);
     op_outputs := if truthy success
                   then match pack_outputs with [] => default (JObj []) (dget "outputs" result) | _ => JObj pack_outputs end
                   else JObj [] |}.
Definition destroy_result (result : list (string * json)) : OperationResult :=
  let success := default (JBool false) (dget "success" result) in
  {| op_success := success; op_output_lines := default (JList []) (dget "output_lines" result);
     op_resources := default (JInt 0) (dget "resources_destroyed" result);
     op_error := if truthy success then JNull else default JNull (dget "error_message" result); op_outputs := JObj [] |}.

(** [init] refuses before it sends anything when the operator is neither polling nor
    connected. *)
Definition init_refused (live : gset string) (e : OperatorEngine) : bool := negb (String.eqb (e_mode e) "polling") && negb (bool_decide (e_operator e ∈ live)).

(** ** Laws of the connections *)

Lemma prefix_self op s : after_prefix op (op +:+ s) = Some s.
Proof. induction op as [|c op IH]; [by destruct s|]. change (String c op +:+ s) with (String c (op +:+ s)). cbn. destruct (Ascii.eqb_spec c c) as [_|N]; [exact IH|by destruct N]. Qed.
Lemma prefix_same_length a b s : String.length a = String.length b -> after_prefix a (b +:+ s) <> None -> a = b.
Proof.
  revert b. induction a as [|c a IH]; intros [|c' b]; try done. change (String c' b +:+ s) with (String c' (b +:+ s)). cbn. intros [= L]. destruct (Ascii.eqb_spec c c') as [->|]; [|done].
  intros H. by rewrite (IH b L H).
Qed.

(** Steps of the event loop. *)
Inductive hub_step (h : hub) : hub -> Prop :=
| hs_register op ws : hub_step h (hub_register op ws h)
| hs_unregister op reason : hub_step h (unregister op reason h)
| hs_send op drawn h' cmd : senders h !! (op +:+ ":" +:+ drawn) = None -> send_command op drawn h = Some (h', cmd) -> hub_step h h'
| hs_end cmd h' r : sender_ends cmd h = Some (h', r) -> hub_step h h'
| hs_message m : hub_step h (handle_message m h).

(** What waits belongs to a call that has not returned. *)
Record hub_inv (h : hub) : Prop := {
  hi_pending : _pending_commands h ⊆ dom (senders h);
  hi_output : dom (_command_output h) = _pending_commands h;
  hi_waiting cmd : senders h !! cmd = Some Waiting -> cmd ∈ _pending_commands h
}.

Lemma hub_inv_step h h' : hub_step h h' -> hub_inv h -> hub_inv h'.
Proof.
  intros H [P O W]. destruct H as [op ws|op reason|op drawn h' cmd Hn H|cmd h' r H|m].
  - by split.
  - split; cbn [unregister _pending_commands senders _command_output].
    + intros c [Hc _]%elem_of_difference. apply elem_of_dom. rewrite map_lookup_imap. apply P, elem_of_dom in Hc as [f ->]. by eexists.
    + apply set_eq. intros c. rewrite elem_of_difference, elem_of_dom. rewrite <- O, elem_of_dom. unfold is_Some.
      setoid_rewrite map_lookup_filter_Some. cbn. naive_solver.
    + intros c. rewrite map_lookup_imap. destruct (senders h !! c) as [f|] eqn:E; [|done]. cbn.
      destruct (decide _) as [D|D]; intros [= H]; [by destruct f|]. subst f. apply elem_of_difference. auto.
  - unfold send_command in H. destruct (hub_connected op h); [|done]. injection H as <- _. split; cbn [_pending_commands senders _command_output].
    + rewrite dom_insert_L. set_solver.
    + rewrite dom_insert_L. by rewrite O.
    + intros c. rewrite lookup_insert_Some. intros [[<- _]|[_ Hc]]; [set_solver|]. apply elem_of_union. auto.
  - unfold sender_ends in H. destruct (senders h !! cmd) as [f|]; [|done]. injection H as <- _. split; cbn [_pending_commands senders _command_output].
    + rewrite dom_delete_L. set_solver.
    + rewrite dom_delete_L. by rewrite O.
    + intros c. rewrite lookup_delete_Some. intros [? Hc]. apply W in Hc. set_solver.
  - destruct m as [cmd line|cmd message|cmd why|]; cbn [handle_message].
    + split; cbn [_pending_commands senders _command_output]; [done| |done]. by rewrite dom_alter_L.
    + destruct (bool_decide _); [|by split]. split; cbn [settle _pending_commands senders _command_output]; [by rewrite dom_alter_L|done|].
      intros c. rewrite lookup_alter_Some. intros [(<- & f & Hf & H)|[_ H]]; [|auto]. by destruct f.
    + destruct (bool_decide _); [|by split]. split; cbn [settle _pending_commands senders _command_output]; [by rewrite dom_alter_L|done|].
      intros c. rewrite lookup_alter_Some. intros [(<- & f & Hf & H)|[_ H]]; [|auto]. by destruct f.
    + by split.
Qed.

(** Whatever happens, nothing is left of a command when its call has returned: when no
    call is under way, nothing waits and no output is kept. *)
Lemma nothing_left h : rtc hub_step hub_start h -> hub_inv h /\ (senders h = ∅ -> _pending_commands h = ∅ /\ _command_output h = ∅).
Proof.
  intros H. assert (I : hub_inv h).
  { revert h H. apply (rtc_ind_r hub_inv); [split; cbn; [done|by rewrite dom_empty_L|by intros cmd; rewrite lookup_empty]|].
    intros h1 h2 _ S IH. by eapply hub_inv_step. }
  split; [done|]. intros E. destruct I as [P O _]. rewrite E, dom_empty_L in P.
  assert (Q : _pending_commands h = ∅) by set_solver. split; [done|]. rewrite Q in O. by apply dom_empty_inv_L in O.
Qed.

(** The calls that a disconnection ends are those of the operator, when ids of operators
    have one length; the others do not notice. *)
Lemma unregister_exact op reason h cmd op' drawn f : hub_inv h -> String.length op' = String.length op -> cmd = op' +:+ ":" +:+ drawn -> senders h !! cmd = Some f ->
  senders (unregister op reason h) !! cmd =
  Some (if decide (op' = op) then (match f with Waiting => Failed ("Operator disconnected: " +:+ reason) | _ => f end) else f).
Proof.
  intros I L -> Hf. cbn [unregister senders]. rewrite map_lookup_imap, Hf. cbn [mbind option_bind]. f_equal.
  destruct (decide (op' = op)) as [->|N].
  - destruct f; [|by destruct (decide _)..]. rewrite decide_True; [done|]. apply elem_of_filter. split; [|by apply (hi_waiting _ I)].
    apply bool_decide_eq_true. by rewrite prefix_self.
  - rewrite decide_False; [done|]. intros [H _]%elem_of_filter. apply bool_decide_eq_true in H. apply N. symmetry. by eapply prefix_same_length.
Qed.

(** What a call waits for: the first result or error for its command, a result with the
    lines of output that came before it. *)
Fixpoint first_reply (cmd : string) (ms : list op_message) (lines : list string) : sent :=
  match ms with
  | [] => TimedOut
  | Output c l :: ms => first_reply cmd ms (if String.eqb c cmd then lines ++ [l] else lines)
  | ResultOf c m :: ms => if String.eqb c cmd then Answer (dset "output_lines" (JList (JStr <$> lines)) m) else first_reply cmd ms lines
  | ErrorOf c why :: ms => if String.eqb c cmd then Raised (default "Unknown operator error" why) else first_reply cmd ms lines
  | OtherMessage :: ms => first_reply cmd ms lines
  end.

Definition outcome_of (cmd : string) (h : hub) : option sent := snd <$> sender_ends cmd h.
Lemma outcome_settled cmd h f : senders h !! cmd = Some f ->
  outcome_of cmd h = Some (match f with Resulted m => Answer m | Failed why => Raised why | Waiting => TimedOut end).
Proof. intros H. unfold outcome_of, sender_ends. by rewrite H. Qed.

(** Once settled, a call's outcome stays whatever comes. *)
Lemma settled_stays cmd ms : forall h f, senders h !! cmd = Some f -> f <> Waiting -> senders (foldl (fun h m => handle_message m h) h ms) !! cmd = Some f.
Proof.
  induction ms as [|m ms IH]; intros h f Hf Hw; [done|]. cbn [foldl]. apply IH; [|done].
  destruct m as [c l|c x|c why|]; cbn [handle_message]; try done; (destruct (bool_decide _); [|done]); cbn [settle senders];
    (destruct (decide (c = cmd)) as [->|N]; [rewrite lookup_alter_eq, Hf; by destruct f|by rewrite lookup_alter_ne]).
Qed.

Lemma call_answered_from cmd ms : forall h lines, cmd ∈ _pending_commands h -> senders h !! cmd = Some Waiting -> _command_output h !! cmd = Some lines ->
  outcome_of cmd (foldl (fun h m => handle_message m h) h ms) = Some (first_reply cmd ms lines).
Proof.
  induction ms as [|m ms IH]; intros h lines Hp Hs Ho; [by rewrite (outcome_settled _ _ Waiting)|].
  cbn [foldl]. destruct m as [c l|c x|c why|]; cbn [handle_message first_reply].
  - apply IH; [done|done|]. cbn [_command_output]. destruct (String.eqb_spec c cmd) as [->|N]; [by rewrite lookup_alter_eq, Ho|by rewrite lookup_alter_ne].
  - destruct (String.eqb_spec c cmd) as [->|N].
    + rewrite bool_decide_eq_true_2 by done. rewrite Ho. eapply (outcome_settled _ _ (Resulted _)), settled_stays; [cbn [settle senders]; by rewrite lookup_alter_eq, Hs|done].
    + destruct (bool_decide (c ∈ _)); [|by apply IH]. apply IH; cbn [settle senders _pending_commands _command_output]; [done|by rewrite lookup_alter_ne|done].
  - destruct (String.eqb_spec c cmd) as [->|N].
    + rewrite bool_decide_eq_true_2 by done. eapply (outcome_settled _ _ (Failed _)), settled_stays; [cbn [settle senders]; by rewrite lookup_alter_eq, Hs|done].
    + destruct (bool_decide (c ∈ _)); [|by apply IH]. apply IH; cbn [settle senders _pending_commands _command_output]; [done|by rewrite lookup_alter_ne|done].
  - by apply IH.
Qed.

(** A call gets the first result or error that comes for its command, and times out when
    none comes. *)
Lemma call_answered op drawn h h' cmd ms : send_command op drawn h = Some (h', cmd) ->
  outcome_of cmd (foldl (fun h m => handle_message m h) h' ms) = Some (first_reply cmd ms []).
Proof.
  unfold send_command. destruct (hub_connected op h); [|done]. intros [= <- <-].
  apply call_answered_from; cbn [_pending_commands senders _command_output]; [set_solver|by rewrite lookup_insert_eq|by rewrite lookup_insert_eq].
Qed.

(** An operator that connects again is cut off by the end of its first session. *)
Lemma reconnect_loses_connection op ws ws' reason h : hub_connected op (unregister op reason (hub_register op ws' (hub_register op ws h))) = false.
Proof. unfold hub_connected. cbn [unregister hub_register _connections]. rewrite lookup_delete_eq. by apply bool_decide_eq_false_2; intros []. Qed.

(** ** Laws of sessions and of the engine *)

Section laws.
Context {SO : SetOrder Z} (_hash_token : string -> string).

(** Nothing a WebSocket session writes is committed: no row of its operator, no use of
    its token, no heartbeat, no disconnection. *)
Inductive ws_history (d : opdb) : opdb -> Prop :=
| wh_start : ws_history d d
| wh_register d1 new_id uuid now token init : ws_history d d1 -> ws_history d (ws_register _hash_token new_id uuid now token init d1).1
| wh_receive d1 now op m : ws_history d d1 -> ws_history d (ws_receive now op m d1).

Lemma ws_sessions_unrecorded d d' : ws_history d d' -> d' = d.
Proof.
  induction 1 as [|d1 new_id uuid now token init _ ->|d1 now op m _ ->]; [done| |done]. unfold ws_register.
  destruct (String.eqb token ""); [done|]. cbn [SessionLocal working]. destruct (validate_registration_token _ _ _ _) as [[ti t]|]; [|done].
  destruct init as [[[name version] labels]|]; [|done]. by destruct (register_operator _ _ _ _ _ _ _ _ _) as [[d2 i]|].
Qed.

(** So a token for one use serves any number of sessions. *)
Lemma ws_uses_not_counted d d' now token i t : ws_history d d' -> validate_registration_token _hash_token now token d = Some (i, t) ->
  validate_registration_token _hash_token now token d' = Some (i, t).
Proof. by intros ->%ws_sessions_unrecorded. Qed.
End laws.

(** Over the queue an apply never reports a resource or an output of the operator's: they
    are inside [result], and the engine looks for them beside it. *)
Lemma polled_apply_counts_nothing cmd w pack_outputs :
  let r := apply_result (_send_command_polling cmd w) pack_outputs in
  op_resources r = JInt 0 /\ op_resources (destroy_result (_send_command_polling cmd w)) = JInt 0 /\
  (op_outputs r = JObj [] \/ op_outputs r = JObj pack_outputs).
Proof.
  cbn zeta. unfold apply_result, destroy_result. cbn [op_resources op_outputs].
  destruct w as [|ok res out error| |]; cbn; (split; [done|]); (split; [done|]); auto. destruct ok; cbn; [|auto]. destruct pack_outputs; auto.
Qed.

Module Example.
#[local] Instance some_order : SetOrder Z := elements_order.

(** The same answer of an operator over the two ways. *)
Definition handler_result : list (string * json) := [("success", JBool true); ("resources_created", JInt 3)].
Example counted_over_socket : op_resources (apply_result handler_result []) = JInt 3.
Proof. reflexivity. Qed.
Example not_counted_over_queue : op_resources (apply_result (_send_command_polling "c" (Answered true (JObj handler_result) (JList []) None)) []) = JInt 0.
Proof. reflexivity. Qed.

Definition connected : hub := hub_register "op-1" 1 hub_start.
Lemma call_answered_witness : exists h cmd, send_command "op-1" "ab" connected = Some (h, cmd) /\
  outcome_of cmd (foldl (fun h m => handle_message m h) h [Output "op-1:ab" "x"; ResultOf "op-1:ab" []; ErrorOf "op-1:ab" None]) = Some (Answer [("output_lines", JList [JStr "x"])]).
Proof.
  eexists _, _. split; [reflexivity|].
  exact (call_answered "op-1" "ab" connected _ _ [Output "op-1:ab" "x"; ResultOf "op-1:ab" []; ErrorOf "op-1:ab" None] eq_refl).
Defined.
End Example.
