(* ===== verification/EngineRouter.v ===== *)
(** * The choice of an engine (services/engine_registry.py,
      services/execution/engine_router.py)

    The table of engines and the maps derived from it; the breakers and the health
    cache of a process; the engine a module gets, and the operator of a project.  Which
    modules are of the SSH registry, what a health check answers and which operators
    have a WebSocket in this process are arguments.  Times are microseconds, one reading
    for a call.  The kubeconfig and the tokens that go into it are not modelled. *)

From S2P Require Import Prelude Texts Operators.

#[local] Open Scope string_scope.
#[local] Open Scope list_scope.
#[local] Open Scope Z_scope.
#[local] Set Default Proof Using "Type".

(** ** The registry *)

Record EngineSpec := {
  engine_name : string; pack_engine : option string; execution_engine : option string; legacy_engine_type : option string;
  runner_profiles : list string; spec_priority : option Z
}.
Definition _ENGINES : list EngineSpec :=
  [{| engine_name := "opentofu"; pack_engine := Some "opentofu"; execution_engine := Some "opentofu"; legacy_engine_type := Some "opentofu"; runner_profiles := ["opentofu-default"]; spec_priority := Some 3 |};
   {| engine_name := "kubernetes"; pack_engine := Some "kubernetes"; execution_engine := Some "kubernetes-direct"; legacy_engine_type := Some "kubernetes"; runner_profiles := ["kubernetes-default"]; spec_priority := Some 2 |};
   {| engine_name := "ansible"; pack_engine := Some "ansible"; execution_engine := Some "ansible"; legacy_engine_type := Some "ansible"; runner_profiles := ["ansible-default"]; spec_priority := None |};
   {| engine_name := "script"; pack_engine := Some "script"; execution_engine := None; legacy_engine_type := None; runner_profiles := ["script-restricted"]; spec_priority := None |};
   {| engine_name := "operator"; pack_engine := None; execution_engine := Some "operator"; legacy_engine_type := None; runner_profiles := []; spec_priority := Some 1 |};
   {| engine_name := "ssh"; pack_engine := None; execution_engine := Some "ssh"; legacy_engine_type := Some "ssh"; runner_profiles := []; spec_priority := Some 0 |};
   {| engine_name := "tmos"; pack_engine := None; execution_engine := Some "tmos"; legacy_engine_type := None; runner_profiles := []; spec_priority := None |};
   {| engine_name := "container"; pack_engine := Some "container"; execution_engine := Some "container"; legacy_engine_type := None; runner_profiles := ["container-default"]; spec_priority := None |};
   {| engine_name := "cli-bnkctl"; pack_engine := None; execution_engine := Some "cli-bnkctl"; legacy_engine_type := None; runner_profiles := []; spec_priority := None |}].

Definition valid_pack_engines (es : list EngineSpec) : list string := omap pack_engine es.
Definition runner_profiles_by_engine (es : list EngineSpec) : list (string * list string) :=
  dict_of (omap (fun e => (fun p => (p, runner_profiles e)) <$> pack_engine e) es).
Definition pack_to_execution (es : list EngineSpec) : list (string * string) :=
  dict_of (omap (fun e => (fun p => (p, default (engine_name e) (execution_engine e))) <$> pack_engine e) es).
Definition explicit_execution_engines (es : list EngineSpec) : gset string := list_to_set (omap execution_engine es).
Definition explicit_engine_types (es : list EngineSpec) : gset string := list_to_set (omap legacy_engine_type es).
Definition router_priority (es : list EngineSpec) : list (string * Z) :=
  dict_of (omap (fun e => (fun p => (engine_name e, p)) <$> spec_priority e) es).

(** ** Breakers and the health cache

    A missing entry stands for the fresh one that the code puts there when it looks. *)

Record engine_breaker := { eb_failures : Z; tripped_at : option Z; last_probe_at : option Z }.
Record engine_state := { _circuit_breaker_state : gmap string engine_breaker; _health_cache : gmap string (bool * Z) }.

Definition CIRCUIT_BREAKER_FAILURE_THRESHOLD : Z := 3.
Definition CIRCUIT_BREAKER_TRIP_DURATION : Z := seconds 60.
Definition HEALTH_CACHE_TTL : Z := seconds 30.

Definition default_breaker : engine_breaker := {| eb_failures := 0; tripped_at := None; last_probe_at := None |}.
Definition get_circuit_breaker_state (name : string) (s : engine_state) : engine_breaker := default default_breaker (_circuit_breaker_state s !! name).
Definition with_breakers (f : gmap string engine_breaker -> gmap string engine_breaker) (s : engine_state) : engine_state :=
  {| _circuit_breaker_state := f (_circuit_breaker_state s); _health_cache := _health_cache s |}.
Definition with_cache (f : gmap string (bool * Z) -> gmap string (bool * Z)) (s : engine_state) : engine_state :=
  {| _circuit_breaker_state := _circuit_breaker_state s; _health_cache := f (_health_cache s) |}.

Definition in_trip_window (now : Z) (b : engine_breaker) : bool :=
  match tripped_at b with Some t => now - t <? CIRCUIT_BREAKER_TRIP_DURATION | None => false end.
Definition is_circuit_tripped (now : Z) (name : string) (s : engine_state) : bool := in_trip_window now (get_circuit_breaker_state name s).
Definition is_probe_allowed (now : Z) (name : string) (s : engine_state) : bool :=
  let b := get_circuit_breaker_state name s in
  match tripped_at b with
  | None => true
  | Some t =>
      if now - t <? CIRCUIT_BREAKER_TRIP_DURATION then false
      else match last_probe_at b with Some p => negb (now - p <? CIRCUIT_BREAKER_TRIP_DURATION) | None => true end
  end.

Definition record_engine_success (name : string) (s : engine_state) : engine_state := with_breakers <[name := default_breaker]> s.
Definition failed_breaker (now : Z) (b : engine_breaker) : engine_breaker :=
  match tripped_at b with
  | Some _ => {| eb_failures := eb_failures b + 1; tripped_at := Some now; last_probe_at := Some now |}
  | None =>
      {| eb_failures := eb_failures b + 1;
         tripped_at := if CIRCUIT_BREAKER_FAILURE_THRESHOLD <=? eb_failures b + 1 then Some now else None; last_probe_at := last_probe_at b |}
  end.
Definition record_engine_failure (now : Z) (name : string) (s : engine_state) : engine_state :=
  with_breakers <[name := failed_breaker now (get_circuit_breaker_state name s)]> s.
Definition probing (now : Z) (name : string) (s : engine_state) : engine_state :=
  with_breakers <[name := let b := get_circuit_breaker_state name s in
                  {| eb_failures := eb_failures b; tripped_at := tripped_at b; last_probe_at := Some now |}]> s.

(** [answer]: what [health_check] returns; an exception counts as [false]. *)
Definition check_engine_health_cached (now : Z) (name : string) (answer : bool) (s : engine_state) : engine_state * bool :=
  match _health_cache s !! name with
  | Some (h, t) => if now - t <? HEALTH_CACHE_TTL then (s, h) else (with_cache <[name := (answer, now)]> s, answer)
  | None => (with_cache <[name := (answer, now)]> s, answer)
  end.
Definition invalidate_health_cache (name : option string) (s : engine_state) : engine_state :=
  with_cache (fun c => match name with None => ∅ | Some n => delete n c end) s.

(** ** The router *)

Record EngineRouter := { _kubeconfig_path : option string; _operator_id : option string; _connectivity_mode : string }.

Definition priority_of (name : string) : Z := default 99 (dget name (router_priority _ENGINES)).
Definition priority_le (a b : string) : Prop := priority_of a <= priority_of b.
#[local] Instance priority_le_dec a b : Decision (priority_le a b) := Z_le_dec _ _.

Section router.
Context (is_ssh : string -> bool) (live : gset string).

Definition k8s_engine (r : EngineRouter) : bool := truthy_str (_kubeconfig_path r).
Definition operator_engine (r : EngineRouter) : bool :=
  match or_else (_operator_id r) None with
  | Some op => String.eqb (_connectivity_mode r) "polling" || bool_decide (op ∈ live)
  | None => false
  end.

Definition k8s_native (engine : option string) : bool := bool_decide (engine = Some "kubernetes-direct") || bool_decide (engine = Some "operator").
Definition get_engine_type (r : EngineRouter) (path : string) (engine : option string) : string :=
  if is_ssh path then "ssh"
  else if k8s_native engine then
    if operator_engine r then "operator"
    else if k8s_engine r then "kubernetes"
    else "opentofu"
  else "opentofu".
Definition _get_compatible_engines (r : EngineRouter) (path : string) (engine : option string) : list string :=
  if is_ssh path then ["ssh"]
  else if k8s_native engine then (if operator_engine r then ["operator"] else []) ++ (if k8s_engine r then ["kubernetes"] else [])
  else ["opentofu"].

Inductive unavailable := Tripped (failures : Z) | HealthCheckFailed.
Inductive engine_choice := Engine (name : string) | NoEngine (why : list (string * unavailable)).

(** The loop over the candidates; [answer]: what each health check would say. *)
Fixpoint try_engines (now : Z) (answer : string -> bool) (candidates : list string) (why : list (string * unavailable)) (s : engine_state) : engine_state * engine_choice :=
  match candidates with
  | [] => (s, NoEngine why)
  | name :: rest =>
      if is_circuit_tripped now name s then
        let why := dset name (Tripped (eb_failures (get_circuit_breaker_state name s))) why in
        if is_probe_allowed now name s then (probing now name s, Engine name)
        else try_engines now answer rest why s
      else
        let '(s, healthy) := check_engine_health_cached now name (answer name) s in
        if healthy then (s, Engine name)
        else try_engines now answer rest (dset name HealthCheckFailed why) s
  end.
Definition get_engine (now : Z) (answer : string -> bool) (r : EngineRouter) (path : string) (engine : option string) (s : engine_state) : engine_state * engine_choice :=
  try_engines now answer (merge_sort priority_le (_get_compatible_engines r path engine)) [] s.

(** [cluster]: the id of the project's cluster. *)
Context {SO : SetOrder Z}.
Definition resolve_operator_for_project (now : Z) (cluster : option Z) (d : opdb) : option string :=
  c ← cluster;
  '(_, o) ← head (select (fun _ o => bool_decide (o_cluster o = Some c) && is_connected (o_presence o)) (operators d));
  if String.eqb (connectivity_mode o) "polling" then
    match last_heartbeat_at (o_presence o) with
    | Some t => if seconds 60 <? now - t then None else Some (operator_id o)
    | None => Some (operator_id o)
    end
  else if bool_decide (operator_id o ∈ live) then Some (operator_id o) else None.
End router.

(** ** Laws *)

(** Whether an engine can be used now, and what the cache says of it afterwards. *)
Definition health_of (now : Z) (answer : string -> bool) (s : engine_state) (name : string) : bool :=
  match _health_cache s !! name with
  | Some (h, t) => if now - t <? HEALTH_CACHE_TTL then h else answer name
  | None => answer name
  end.
Definition usable (now : Z) (answer : string -> bool) (s : engine_state) (name : string) : bool :=
  negb (is_circuit_tripped now name s) && health_of now answer s name.

Lemma health_cached now name a s : check_engine_health_cached now name a s =
  (match _health_cache s !! name with Some (_, t) => if now - t <? HEALTH_CACHE_TTL then s else with_cache <[name := (a, now)]> s | None => with_cache <[name := (a, now)]> s end,
   health_of now (fun _ => a) s name).
Proof. unfold check_engine_health_cached, health_of. destruct (_health_cache s !! name) as [[h t]|]; [by destruct (now - t <? _)|done]. Qed.

(** In the window in which an engine counts as tripped no probe is allowed. *)
Lemma no_probe_while_tripped now name s : is_circuit_tripped now name s = true -> is_probe_allowed now name s = false.
Proof. unfold is_circuit_tripped, is_probe_allowed, in_trip_window. destruct (tripped_at _); [by intros ->|done]. Qed.

Lemma usable_other now answer s s' name : _circuit_breaker_state s' = _circuit_breaker_state s -> _health_cache s' !! name = _health_cache s !! name ->
  usable now answer s' name = usable now answer s name.
Proof. intros H1 H2. unfold usable, is_circuit_tripped, get_circuit_breaker_state, health_of. by rewrite H1, H2. Qed.

Lemma try_engines_correct now answer candidates : forall why s, NoDup candidates ->
  (try_engines now answer candidates why s).2 =
    match head (filter (fun n => usable now answer s n = true) candidates) with
    | Some n => Engine n
    | None => NoEngine (foldl (fun w n => dset n (if is_circuit_tripped now n s then Tripped (eb_failures (get_circuit_breaker_state n s)) else HealthCheckFailed) w) why candidates)
    end /\
  _circuit_breaker_state (try_engines now answer candidates why s).1 = _circuit_breaker_state s.
Proof.
  induction candidates as [|n l IH]; intros why s ND; [done|]. apply NoDup_cons in ND as [Hn ND]. cbn [try_engines].
  destruct (is_circuit_tripped now n s) eqn:T.
  - rewrite (no_probe_while_tripped _ _ _ T). rewrite filter_cons_False by (unfold usable; rewrite T; done).
    destruct (IH (dset n (Tripped (eb_failures (get_circuit_breaker_state n s))) why) s ND) as [-> ->]. split; [|done]. destruct (head _); [done|]. cbn. by rewrite T.
  - rewrite health_cached. change (health_of now (fun _ => answer n) s n) with (health_of now answer s n).
    set (s1 := match _ with Some _ => _ | None => _ end).
    assert (B : _circuit_breaker_state s1 = _circuit_breaker_state s) by (unfold s1; destruct (_health_cache s !! n) as [[h t]|]; [destruct (now - t <? _)|]; done).
    destruct (health_of now answer s n) eqn:H.
    + rewrite filter_cons_True by (unfold usable; rewrite T; done). done.
    + rewrite filter_cons_False by (unfold usable; rewrite T, H; done).
      destruct (IH (dset n HealthCheckFailed why) s1 ND) as [-> ->]. split; [|done].
      assert (F : forall m, m ∈ l -> usable now answer s1 m = usable now answer s m).
      { intros m Hm. apply usable_other; [done|]. unfold s1. destruct (_health_cache s !! n) as [[h t]|]; [destruct (now - t <? _); [done|]|];
          cbn; (rewrite lookup_insert_ne; [done|]; intros ->; done). }
      assert (E : filter (fun m => usable now answer s1 m = true) l = filter (fun m => usable now answer s m = true) l).
      { clear -F. induction l as [|m l IHl]; [done|]. rewrite !filter_cons, (F m) by left. rewrite IHl by (intros; apply F; by right). done. }
      rewrite E. destruct (head _); [done|]. cbn [foldl]. rewrite T.
      assert (Q : forall m, is_circuit_tripped now m s1 = is_circuit_tripped now m s /\ get_circuit_breaker_state m s1 = get_circuit_breaker_state m s).
      { intros m. unfold is_circuit_tripped, get_circuit_breaker_state. by rewrite B. }
      f_equal. generalize (dset n HealthCheckFailed why). clear -Q. induction l as [|m l IHl]; intros w; [done|]. cbn.
      destruct (Q m) as [-> ->]. apply IHl.
Qed.

Lemma compatible_sorted is_ssh live r path engine :
  merge_sort priority_le (_get_compatible_engines is_ssh live r path engine) = _get_compatible_engines is_ssh live r path engine /\
  NoDup (_get_compatible_engines is_ssh live r path engine).
Proof.
  unfold _get_compatible_engines.
  assert (S : forall a, NoDup [a : string]) by apply NoDup_singleton.
  destruct (is_ssh path); [split; [reflexivity|apply S]|]. destruct (k8s_native engine); [|split; [reflexivity|apply S]].
  destruct (operator_engine live r), (k8s_engine r); cbn [app]; (split; [reflexivity|]); try apply S; [|constructor].
  apply NoDup_cons. split; [by intros ?%list_elem_of_singleton|apply S].
Qed.

(** A module gets the first of its engines, in the order of the registry, that is not
    tripped and healthy; an error lists all of them with their reasons.  The one that
    [get_engine_type] names is the first, where there is any. *)
Lemma get_engine_correct is_ssh live now answer r path engine s :
  let engines := _get_compatible_engines is_ssh live r path engine in
  (get_engine is_ssh live now answer r path engine s).2 =
    match head (filter (fun n => usable now answer s n = true) engines) with
    | Some n => Engine n
    | None => NoEngine (foldl (fun w n => dset n (if is_circuit_tripped now n s then Tripped (eb_failures (get_circuit_breaker_state n s)) else HealthCheckFailed) w) [] engines)
    end /\
  (engines = [] <-> is_ssh path = false /\ k8s_native engine = true /\ operator_engine live r = false /\ k8s_engine r = false) /\
  (engines <> [] -> head engines = Some (get_engine_type is_ssh live r path engine)).
Proof.
  cbn zeta. unfold get_engine. destruct (compatible_sorted is_ssh live r path engine) as [-> ND].
  split; [by apply try_engines_correct|]. unfold _get_compatible_engines, get_engine_type.
  destruct (is_ssh path), (k8s_native engine), (operator_engine live r), (k8s_engine r); cbn; naive_solver.
Qed.

(** Choosing an engine never touches a breaker: the probe that the code means to allow
    once is not recorded. *)
Lemma get_engine_keeps_breakers is_ssh live now answer r path engine s :
  _circuit_breaker_state (get_engine is_ssh live now answer r path engine s).1 = _circuit_breaker_state s.
Proof. unfold get_engine. destruct (compatible_sorted is_ssh live r path engine) as [-> ND]. by apply try_engines_correct. Qed.

(** ** What a breaker counts *)

(** Outcomes of an engine, each with its time; [true] is a success. *)
Definition record_outcome (name : string) (s : engine_state) (o : Z * bool) : engine_state :=
  if o.2 then record_engine_success name s else record_engine_failure o.1 name s.
(** The failures since the last success, the newest first. *)
Fixpoint trailing_failures (os : list (Z * bool)) (acc : list Z) : list Z :=
  match os with
  | [] => acc
  | (t, true) :: os => trailing_failures os []
  | (t, false) :: os => trailing_failures os (t :: acc)
  end.

Definition counts (b : engine_breaker) (ts : list Z) : Prop :=
  eb_failures b = Z.of_nat (length ts) /\ tripped_at b = if decide (3 <= length ts)%nat then head ts else None.

Lemma breaker_counts_from name os : forall s ts, counts (get_circuit_breaker_state name s) ts ->
  counts (get_circuit_breaker_state name (foldl (record_outcome name) s os)) (trailing_failures os ts).
Proof.
  induction os as [|[t b] os IH]; intros s ts C; [done|]. cbn [foldl trailing_failures]. destruct b; apply IH; unfold record_outcome; cbn [snd fst].
  - unfold get_circuit_breaker_state, record_engine_success. cbn. rewrite lookup_insert_eq. by split.
  - unfold record_engine_failure, get_circuit_breaker_state at 1. cbn. rewrite lookup_insert_eq. cbn. destruct C as [Cf Ct].
    unfold failed_breaker, counts, CIRCUIT_BREAKER_FAILURE_THRESHOLD. rewrite Ct, Cf. destruct (decide (3 <= length ts)%nat) as [L|L].
    + destruct ts as [|t0 ts]; cbn in L; [lia|]. cbn [head length eb_failures tripped_at]. split; [lia|]. by rewrite decide_True by lia.
    + cbn [head length eb_failures tripped_at]. split; [lia|]. destruct (Z.leb_spec 3 (Z.of_nat (length ts) + 1)); [rewrite decide_True by lia|rewrite decide_False by lia]; done.
Qed.

(** An engine is skipped exactly when its last three outcomes or more are failures and
    the last is less than 60 seconds old. *)
Lemma tripped_exactly name os now :
  is_circuit_tripped now name (foldl (record_outcome name) {| _circuit_breaker_state := ∅; _health_cache := ∅ |} os) = true <->
  (3 <= length (trailing_failures os []))%nat /\ exists t, head (trailing_failures os []) = Some t /\ now - t < seconds 60.
Proof.
  destruct (breaker_counts_from name os {| _circuit_breaker_state := ∅; _health_cache := ∅ |} []) as [_ C]; [done|].
  unfold is_circuit_tripped, in_trip_window. rewrite C. destruct (decide (3 <= length (trailing_failures os []))%nat) as [L|L].
  - destruct (trailing_failures os []) as [|t ts]; cbn in L; [lia|]. cbn. unfold CIRCUIT_BREAKER_TRIP_DURATION. rewrite Z.ltb_lt.
    split; [intros H; split; [lia|by exists t]|]. by intros (_ & ? & [= <-] & ?).
  - split; [done|]. by intros [? _].
Qed.

(** ** The operator of a project *)

Section resolve.
Context {SO : SetOrder Z}.

(** Who is used for the deployments of a cluster: the connected operator linked to it,
    if it polls and was heard within a minute or never, or has a WebSocket here. *)
Lemma resolve_exact live now c d op :
  (forall i j o o', operators d !! i = Some o -> operators d !! j = Some o' -> o_cluster o = Some c -> o_cluster o' = Some c -> i = j) ->
  resolve_operator_for_project live now (Some c) d = Some op <->
  exists i o, operators d !! i = Some o /\ o_cluster o = Some c /\ is_connected (o_presence o) = true /\ operator_id o = op /\
    if String.eqb (connectivity_mode o) "polling"
    then match last_heartbeat_at (o_presence o) with Some t => now - t <= seconds 60 | None => True end
    else op ∈ live.
Proof.
  intros U. unfold resolve_operator_for_project. cbn [mbind option_bind].
  assert (X : forall i o, operators d !! i = Some o -> o_cluster o = Some c -> is_connected (o_presence o) = true ->
     head (select (fun _ o => bool_decide (o_cluster o = Some c) && is_connected (o_presence o)) (operators d)) = Some (i, o)).
  { intros i o Hi Hc Hp. destruct (head _) as [[j o']|] eqn:E.
    - assert (Hx : (j, o') ∈ select (fun _ o => bool_decide (o_cluster o = Some c) && is_connected (o_presence o)) (operators d)).
      { destruct (select _ _); [done|]. injection E as ->. left. }
      apply elem_of_select in Hx as [Hj Hx]. bool_hyps. assert (j = i) as -> by (eapply U; eauto). congruence.
    - assert (Hx : (i, o) ∈ select (fun _ o => bool_decide (o_cluster o = Some c) && is_connected (o_presence o)) (operators d)).
      { apply elem_of_select. split; [done|]. rewrite Hp, bool_decide_eq_true_2 by done. done. }
      destruct (select _ _); [by apply elem_of_nil in Hx|done]. }
  split.
  - destruct (head _) as [[i o]|] eqn:E; [|done]. intros H.
    assert (Hx : (i, o) ∈ select (fun _ o => bool_decide (o_cluster o = Some c) && is_connected (o_presence o)) (operators d)).
    { destruct (select _ _); [done|]. injection E as ->. left. }
    apply elem_of_select in Hx as [Hi Hx]. bool_hyps. cbn [mbind option_bind] in H. exists i, o.
    destruct (String.eqb (connectivity_mode o) "polling").
    + destruct (last_heartbeat_at (o_presence o)) as [t|]; [destruct (Z.ltb_spec (seconds 60) (now - t)); [done|]|]; injection H as <-; auto.
    + destruct (bool_decide (operator_id o ∈ live)) eqn:L; [|done]. apply bool_decide_eq_true in L. by injection H as <-.
  - intros (i & o & Hi & Hc & Hp & Ho & H). rewrite (X i o Hi Hc Hp). cbn [mbind option_bind]. destruct (String.eqb (connectivity_mode o) "polling").
    + destruct (last_heartbeat_at (o_presence o)) as [t|]; [|by rewrite Ho]. destruct (Z.ltb_spec (seconds 60) (now - t)); [lia|by rewrite Ho].
    + rewrite bool_decide_eq_true_2 by by rewrite Ho. by rewrite Ho.
Qed.
End resolve.

Module Example.
#[local] Instance some_order : SetOrder Z := elements_order.

(** No engine is the answer where the type says "opentofu". *)
Example opentofu_named_but_no_engine :
  let r := {| _kubeconfig_path := None; _operator_id := None; _connectivity_mode := "direct_ws" |} in
  get_engine_type (fun _ => false) ∅ r "k8s/cne" (Some "operator") = "opentofu" /\
  _get_compatible_engines (fun _ => false) ∅ r "k8s/cne" (Some "operator") = [].
Proof. vm_compute. done. Qed.

(** The derived maps as their comments give them, but for the set of execution engines. *)
Example derived_maps :
  router_priority _ENGINES = [("opentofu", 3); ("kubernetes", 2); ("operator", 1); ("ssh", 0)] /\
  explicit_engine_types _ENGINES = list_to_set ["ansible"; "kubernetes"; "opentofu"; "ssh"] /\
  "tmos" ∈ explicit_execution_engines _ENGINES.
Proof. split; [done|]. split; [by apply (bool_decide_unpack _)|by apply (bool_decide_unpack _)]. Qed.

Definition lone : opdb :=
  {| tokens := ∅; operators := {[1 := set_cluster (Some 7) (set_mode "polling" [] (new_operator "op-1" 2 "east" None [] 0))]}; queue := ∅; k8s_clusters := {[7]} |}.
(** An operator that registered and was never heard of is used. *)
Lemma resolve_exact_witness : resolve_operator_for_project ∅ (seconds 86400) (Some 7) lone = Some "op-1".
Proof.
  apply (resolve_exact ∅ (seconds 86400) 7 lone "op-1").
  - intros i j o o'. cbn [lone operators]. rewrite !lookup_singleton_Some. by intros [<- _] [<- _].
  - exists 1. eexists. repeat (split; [reflexivity|]). exact I.
Defined.
End Example.
