(* ===== verification/ProxyMigration.v ===== *)
(** * Migrations from a proxy to BNK (services/proxy_migration_service.py,
      tasks/proxy_migration_tasks.py, the migration routes of routes/k8s/f5bnk.py)

    A run of five steps with two confirmations by an operator, the check of the new
    gateway, the abort.  What the cluster answers - to kubectl, to the probe, to an
    uninstallation - is an argument.  Times, logs and the texts of results are left out
    but for the first error. *)

From Stdlib Require Import Ascii.
From S2P Require Import Prelude Texts.

#[local] Open Scope string_scope.
#[local] Open Scope list_scope.
#[local] Open Scope Z_scope.
#[local] Set Default Proof Using "Type".

(** ** Rows *)

Inductive ProxyMigrationStatus :=
| PM_PENDING | PM_IN_PROGRESS | PM_AWAITING_VERIFY | PM_VERIFY_FAILED | PM_AWAITING_CUTOVER | PM_CUTOVER_CONFIRMED
| PM_AWAITING_TEARDOWN | PM_COMPLETED | PM_FAILED | PM_ABORTED | PM_ROLLED_BACK.
Inductive MigrationStepStatus := ST_PENDING | ST_RUNNING | ST_COMPLETED | ST_FAILED | ST_SKIPPED | ST_BLOCKED | ST_AWAITING_CONFIRM.
Inductive step_name := Translate | DeployBnk | Verify | Cutover | TeardownOld.
#[global] Instance migration_status_eq_dec : EqDecision ProxyMigrationStatus.
Proof. solve_decision. Defined.
#[global] Instance step_status_eq_dec : EqDecision MigrationStepStatus.
Proof. solve_decision. Defined.
#[global] Instance step_name_eq_dec : EqDecision step_name.
Proof. solve_decision. Defined.

Definition terminal_states : list ProxyMigrationStatus := [PM_COMPLETED; PM_FAILED; PM_ABORTED; PM_ROLLED_BACK].

(** [name], [requires_confirm], [reversible] *)
Definition MIGRATION_STEPS : list (step_name * bool * bool) :=
  [(Translate, false, true); (DeployBnk, false, true); (Verify, false, true); (Cutover, true, false); (TeardownOld, true, false)].

Record VerifyResult := { programmed : bool; reachable : bool; passed : bool; reasons : list string }.
Record teardown_info := { helm_release : string; kubectl_resources : list string }.

Record migration := {
  descriptor : list (string * json);
  translated_manifest : string;
  bnk_gateway_name : string;
  bnk_gateway_namespace : string;
  teardown : option teardown_info;
  m_status : ProxyMigrationStatus;
  current_step : option step_name;
  verify_result : option VerifyResult;
  error_step : option step_name;
  cutover_confirmed_by : option string;
  teardown_confirmed_by : option string;
  m_steps : list (step_name * MigrationStepStatus)
}.
(** What has become of the two proxies: the new one's manifest is applied, the old one
    is there. *)
Record proxies := { bnk_applied : bool; old_there : bool }.

Definition set_status (s : ProxyMigrationStatus) (m : migration) : migration :=
  {| descriptor := descriptor m; translated_manifest := translated_manifest m; bnk_gateway_name := bnk_gateway_name m; bnk_gateway_namespace := bnk_gateway_namespace m;
     teardown := teardown m; m_status := s; current_step := current_step m; verify_result := verify_result m; error_step := error_step m;
     cutover_confirmed_by := cutover_confirmed_by m; teardown_confirmed_by := teardown_confirmed_by m; m_steps := m_steps m |}.
Definition set_current (n : step_name) (m : migration) : migration :=
  {| descriptor := descriptor m; translated_manifest := translated_manifest m; bnk_gateway_name := bnk_gateway_name m; bnk_gateway_namespace := bnk_gateway_namespace m;
     teardown := teardown m; m_status := m_status m; current_step := Some n; verify_result := verify_result m; error_step := error_step m;
     cutover_confirmed_by := cutover_confirmed_by m; teardown_confirmed_by := teardown_confirmed_by m; m_steps := m_steps m |}.
Definition set_address (a : option string) (m : migration) : migration :=
  {| descriptor := dset "bnk_gateway_address" (match a with Some s => JStr s | None => JNull end) (descriptor m); translated_manifest := translated_manifest m;
     bnk_gateway_name := bnk_gateway_name m; bnk_gateway_namespace := bnk_gateway_namespace m;
     teardown := teardown m; m_status := m_status m; current_step := current_step m; verify_result := verify_result m; error_step := error_step m;
     cutover_confirmed_by := cutover_confirmed_by m; teardown_confirmed_by := teardown_confirmed_by m; m_steps := m_steps m |}.
Definition set_verdict (v : VerifyResult) (m : migration) : migration :=
  {| descriptor := descriptor m; translated_manifest := translated_manifest m; bnk_gateway_name := bnk_gateway_name m; bnk_gateway_namespace := bnk_gateway_namespace m;
     teardown := teardown m; m_status := m_status m; current_step := current_step m; verify_result := Some v; error_step := error_step m;
     cutover_confirmed_by := cutover_confirmed_by m; teardown_confirmed_by := teardown_confirmed_by m; m_steps := m_steps m |}.
Definition set_error (n : step_name) (m : migration) : migration :=
  {| descriptor := descriptor m; translated_manifest := translated_manifest m; bnk_gateway_name := bnk_gateway_name m; bnk_gateway_namespace := bnk_gateway_namespace m;
     teardown := teardown m; m_status := m_status m; current_step := current_step m; verify_result := verify_result m; error_step := Some n;
     cutover_confirmed_by := cutover_confirmed_by m; teardown_confirmed_by := teardown_confirmed_by m; m_steps := m_steps m |}.
Definition set_confirmed (c t : option string) (m : migration) : migration :=
  {| descriptor := descriptor m; translated_manifest := translated_manifest m; bnk_gateway_name := bnk_gateway_name m; bnk_gateway_namespace := bnk_gateway_namespace m;
     teardown := teardown m; m_status := m_status m; current_step := current_step m; verify_result := verify_result m; error_step := error_step m;
     cutover_confirmed_by := c; teardown_confirmed_by := t; m_steps := m_steps m |}.
(** [_get_step] and the write of its status. *)
Definition _get_step (n : step_name) (m : migration) : option MigrationStepStatus :=
  (fun ix : nat * (step_name * MigrationStepStatus) => ix.2.2) <$> list_find (fun x => x.1 = n) (m_steps m).
Definition set_step (n : step_name) (s : MigrationStepStatus) (m : migration) : migration :=
  {| descriptor := descriptor m; translated_manifest := translated_manifest m; bnk_gateway_name := bnk_gateway_name m; bnk_gateway_namespace := bnk_gateway_namespace m;
     teardown := teardown m; m_status := m_status m; current_step := current_step m; verify_result := verify_result m; error_step := error_step m;
     cutover_confirmed_by := cutover_confirmed_by m; teardown_confirmed_by := teardown_confirmed_by m;
     m_steps := (fun x => if decide (x.1 = n) then (n, s) else x) <$> m_steps m |}.

(** ** Creation *)

(** [re.sub(r"[^a-z0-9-]", "-", raw.lower())], then runs of dashes become one and those
    at the end go, then 63 characters; the text begins with a letter. *)
Definition plain (c : Ascii.ascii) : bool :=
  let n := Ascii.nat_of_ascii c in ((97 <=? n) && (n <=? 122) || (48 <=? n) && (n <=? 57))%nat.
Fixpoint dashed (s : string) (dash : bool) : string :=
  match s with
  | EmptyString => EmptyString
  | String c s =>
      if plain c then (if dash then String "-"%char (String c (dashed s false)) else String c (dashed s false))
      else dashed s true
  end.
Definition text_at (key : string) (d : list (string * json)) : option string :=
  match dget key d with Some (JStr s) => if String.eqb s "" then None else Some s | _ => None end.
Definition _derive_gateway_name (d : list (string * json)) : string :=
  let raw := "forge-" +:+ default "proxy" (text_at "proxy_type" d) +:+ "-" +:+ default "migration" (text_at "class_name" d) in
  clip 63 (dashed (lower raw) false).

Definition create_migration (source : list (string * json)) (combined_yaml : string) (info : option teardown_info) : migration :=
  {| descriptor := source; translated_manifest := combined_yaml;
     bnk_gateway_name := default (_derive_gateway_name source) (text_at "gateway_name" source);
     bnk_gateway_namespace := default (default "default" (text_at "namespace" source)) (text_at "gateway_namespace" source);
     teardown := info; m_status := PM_PENDING; current_step := None; verify_result := None; error_step := None;
     cutover_confirmed_by := None; teardown_confirmed_by := None; m_steps := (fun d => (d.1.1, ST_PENDING)) <$> MIGRATION_STEPS |}.

(** ** The check of the new gateway *)

Definition obj_get (key : string) (j : json) : json := match j with JObj f => default JNull (dget key f) | _ => JNull end.
Definition jlist (j : json) : list json := match j with JList l => l | _ => [] end.
(** [status.conditions] of a Gateway, [conditions] of a parent of an HTTPRoute. *)
Definition _extract_conditions (obj : json) : list json := jlist (obj_get "conditions" (obj_get "status" obj)).
Definition _extract_parent_conditions (parent : json) : list json := jlist (obj_get "conditions" parent).
Definition is_true (j : json) : bool :=
  match j with JStr s => String.eqb (lower s) "true" | JBool b => b | _ => false end.
Definition _condition_true (conditions : list json) (type_ : string) : bool :=
  existsb (fun c => match obj_get "type" c with JStr t => String.eqb t type_ | _ => false end && is_true (obj_get "status" c)) conditions.

Definition gateway_ready (obj : option json) : bool :=
  match obj with Some o => _condition_true (_extract_conditions o) "Programmed" | None => false end.
Definition route_ready (obj : option json) : bool :=
  match obj with
  | Some o => existsb (fun p => _condition_true (_extract_parent_conditions p) "Accepted" && _condition_true (_extract_parent_conditions p) "ResolvedRefs")
                (jlist (obj_get "parents" (obj_get "status" o)))
  | None => false
  end.

(** The polling of [_check_gateway_programmed], a poll for every turn of its loop before the
    deadline: what kubectl gave for the gateway and for the route, [None] when it failed. *)
Fixpoint poll_loop (polls : list (option json * option json)) (gw route : bool) : bool * bool :=
  match polls with
  | [] => (gw, route)
  | (g, r) :: polls =>
      let gw := gw || gateway_ready g in
      let route := route || route_ready r in
      if gw && route then (true, true) else poll_loop polls gw route
  end.
Definition _check_gateway_programmed (cluster_found : bool) (polls : list (option json * option json)) : bool * list string :=
  if negb cluster_found then (false, ["Cluster not found"])
  else
    let '(gw, route) := poll_loop polls false false in
    if gw && route then (true, [])
    else (false, (if gw then [] else ["Gateway did not reach Programmed=True"]) ++ (if route then [] else ["HTTPRoute not accepted"])).

(** The first backend of the HTTPRoute that has a name, else the hint of the descriptor. *)
Definition named_backend (gw_ns : string) (b : json) : option (string * string) :=
  match obj_get "name" b with
  | JStr n => if String.eqb n "" then None
              else Some (n, match obj_get "namespace" b with JStr ns => if String.eqb ns "" then gw_ns else ns | _ => gw_ns end)
  | _ => None
  end.
Definition route_backends (o : json) : list json :=
  mjoin ((fun rule => jlist (obj_get "backendRefs" rule)) <$> jlist (obj_get "rules" (obj_get "spec" o))).
Definition _derive_backend_service (route : option json) (gw_ns : string) (d : list (string * json)) : option (string * string) :=
  match (match route with Some o => head (omap (named_backend gw_ns) (route_backends o)) | None => None end) with
  | Some b => Some b
  | None => (fun n => (n, default gw_ns (text_at "namespace" d))) <$> text_at "backend_service" d
  end.

(** What the cluster answers in one execution of the verify step: [None] for a check that
    raises; [probes]: whether each attempt at the backend succeeds. *)
Record verify_answers := { va_found : bool; va_polls : option (list (option json * option json)); va_route : option json; va_client : bool; va_probes : list bool }.
Definition _check_backend_reachable (a : verify_answers) (gw_ns : string) (d : list (string * json)) : bool * list string :=
  if negb (va_found a) then (false, ["Cluster not found"])
  else if negb (va_client a) then (false, ["Cannot build K8s API client"])
  else match _derive_backend_service (va_route a) gw_ns d with
       | None => (false, ["Cannot derive backend service"])
       | Some _ => if existsb id (take 3 (va_probes a)) then (true, []) else (false, ["Backend service not reachable"])
       end.

Definition verify_bnk_migration (a : verify_answers) (m : migration) : VerifyResult :=
  let denied p r := {| programmed := p; reachable := false; passed := false; reasons := r |} in
  if String.eqb (bnk_gateway_name m) "" || String.eqb (bnk_gateway_namespace m) "" then denied false ["Gateway name/namespace not set"]
  else match va_polls a with
       | None => denied false ["Gateway programmed check failed"]
       | Some polls =>
           let '(p, why) := _check_gateway_programmed (va_found a) polls in
           if negb p then denied false (why ++ ["Skipping reachability probe: gateway not yet programmed"])
           else
             let '(r, why') := _check_backend_reachable a (bnk_gateway_namespace m) (descriptor m) in
             {| programmed := true; reachable := r; passed := true && r; reasons := why ++ why' |}
       end.

(** [_verify_passed]: a missing result is not passed. *)
Definition _verify_passed (m : migration) : bool := match verify_result m with Some v => passed v | None => false end.

(** ** The steps *)

(** What the cluster does in one execution of a step: an application gives an address, or
    none in time, or raises, with the manifest applied or not; an uninstallation removes
    the old proxy or fails, which is only logged. *)
Inductive applying := Applied (address : option string) | ApplyRaised (applied : bool).
Record answers := { on_apply : applying; on_verify : verify_answers; removes : bool }.

Inductive step_result := Done | AwaitingConfirm | VerifyFailed | Raised.

Definition _step_translate (m : migration) : step_result := if String.eqb (translated_manifest m) "" then Raised else Done.

Definition _step_deploy_bnk (a : answers) (m : migration) (p : proxies) : migration * proxies * step_result :=
  if String.eqb (bnk_gateway_name m) "" || String.eqb (bnk_gateway_namespace m) "" then (m, p, Raised)
  else match on_apply a with
       | Applied address => (set_address address (set_status PM_AWAITING_VERIFY m), {| bnk_applied := true; old_there := old_there p |}, Done)
       | ApplyRaised applied => (m, {| bnk_applied := bnk_applied p || applied; old_there := old_there p |}, Raised)
       end.

Definition _step_verify (a : answers) (m : migration) : migration * step_result :=
  let v := verify_bnk_migration (on_verify a) m in
  let m := set_verdict v m in
  if passed v then (set_status PM_AWAITING_CUTOVER m, AwaitingConfirm) else (m, VerifyFailed).

Definition _step_cutover (m : migration) : migration * step_result :=
  if negb (_verify_passed m) then (m, Raised)
  else match cutover_confirmed_by m with
       | None => (m, AwaitingConfirm)
       | Some _ => (set_status PM_AWAITING_TEARDOWN m, Done)
       end.

Definition _step_teardown_old (a : answers) (m : migration) (p : proxies) : proxies * step_result :=
  if negb (_verify_passed m) then (p, Raised)
  else match cutover_confirmed_by m, teardown_confirmed_by m with
       | None, _ => (p, Raised)
       | Some _, None => (p, AwaitingConfirm)
       | Some _, Some _ =>
           match teardown m with
           | None => (p, Done)
           | Some i => if String.eqb (helm_release i) "" && bool_decide (kubectl_resources i = []) then (p, Done)
                       else ({| bnk_applied := bnk_applied p; old_there := old_there p && negb (removes a) |}, Done)
           end
       end.

Definition _execute_step (a : answers) (n : step_name) (m : migration) (p : proxies) : migration * proxies * step_result :=
  match n with
  | Translate => (m, p, _step_translate m)
  | DeployBnk => _step_deploy_bnk a m p
  | Verify => let '(m, r) := _step_verify a m in (m, p, r)
  | Cutover => let '(m, r) := _step_cutover m in (m, p, r)
  | TeardownOld => let '(p, r) := _step_teardown_old a m p in (m, p, r)
  end.

(** ** The execution *)

Definition _in_progress_guard : list ProxyMigrationStatus := [PM_IN_PROGRESS; PM_CUTOVER_CONFIRMED; PM_AWAITING_CUTOVER; PM_AWAITING_TEARDOWN].
(** The first commit of [execute_migration]. *)
Definition begin_execution (m : migration) : migration := if bool_decide (m_status m ∈ _in_progress_guard) then m else set_status PM_IN_PROGRESS m.

Inductive examined := Skip | HaltConfirm | Refused | Start.
(** What the loop does with a step before it runs it. *)
Definition examine (n : step_name) (m : migration) : examined :=
  match _get_step n m with
  | Some (ST_COMPLETED | ST_SKIPPED) => Skip
  | Some ST_AWAITING_CONFIRM => HaltConfirm
  | _ => if bool_decide (n ∈ [Cutover; TeardownOld]) && negb (_verify_passed m) then Refused else Start
  end.
(** The commit before a step and, with its result, the one after it. *)
Definition step_started (n : step_name) (m : migration) : migration := set_current n (set_step n ST_RUNNING m).
Definition step_ended (n : step_name) (r : step_result) (m : migration) : migration :=
  match r with
  | Done => set_step n ST_COMPLETED m
  | AwaitingConfirm => set_step n ST_AWAITING_CONFIRM m
  | VerifyFailed => set_error n (set_status PM_VERIFY_FAILED (set_step n ST_FAILED m))
  | Raised => set_error n (set_status (if decide (n = Verify) then PM_VERIFY_FAILED else PM_FAILED) (set_step n ST_FAILED m))
  end.

Inductive ended := Completed | Awaiting (n : step_name) | NotVerified | StepRaised (n : step_name) | GateRefused (n : step_name).
Fixpoint run_migration (a : answers) (ns : list step_name) (m : migration) (p : proxies) : migration * proxies * ended :=
  match ns with
  | [] => (set_status PM_COMPLETED m, p, Completed)
  | n :: ns =>
      match examine n m with
      | Skip => run_migration a ns m p
      | HaltConfirm => (m, p, Awaiting n)
      | Refused => (m, p, GateRefused n)
      | Start =>
          let '(m, p, r) := _execute_step a n (step_started n m) p in
          let m := step_ended n r m in
          match r with
          | Done => run_migration a ns m p
          | AwaitingConfirm => (m, p, Awaiting n)
          | VerifyFailed => (m, p, NotVerified)
          | Raised => (m, p, StepRaised n)
          end
      end
  end.
Definition execute_migration (a : answers) (m : migration) (p : proxies) : migration * proxies * ended :=
  run_migration a (m_steps m).*1 (begin_execution m) p.

(** ** The operator *)

Definition confirm_cutover (by_ : string) (m : migration) : option migration :=
  if decide (m_status m = PM_AWAITING_CUTOVER)
  then Some (set_step Cutover ST_PENDING (set_status PM_CUTOVER_CONFIRMED (set_confirmed (Some by_) (teardown_confirmed_by m) m)))
  else None.
Definition confirm_teardown (by_ : string) (m : migration) : option migration :=
  if decide (m_status m = PM_AWAITING_TEARDOWN)
  then Some (set_status PM_IN_PROGRESS (set_step TeardownOld ST_PENDING (set_confirmed (cutover_confirmed_by m) (Some by_) m)))
  else None.

(** [deleted]: [_rollback_deploy] returns, with the manifest deleted; [None]: refused. *)
Definition abort_migration (deleted : bool) (m : migration) (p : proxies) : option (migration * proxies) :=
  if bool_decide (m_status m ∈ terminal_states) then None
  else if bool_decide (m_status m ∈ [PM_AWAITING_TEARDOWN; PM_CUTOVER_CONFIRMED]) then Some (set_status PM_ABORTED m, p)
  else if decide (_get_step DeployBnk m = Some ST_COMPLETED) then
    if deleted then Some (set_status PM_ROLLED_BACK m, {| bnk_applied := false; old_there := old_there p |})
    else Some (set_status PM_ABORTED m, p)
  else Some (set_status PM_ABORTED m, p).

(** ** Workers, the operator and the database together *)

(** A worker about to look at the first of the steps that are left, or running one. *)
Inductive worker := At (ns : list step_name) | In (n : step_name) (ns : list step_name).
Record system := { row_ : migration; world : proxies; workers : list worker }.

(** Commits are the steps; a message of the queue may be delivered again, a worker may
    die anywhere, and requests come between any two commits. *)
Inductive happens : system -> system -> Prop :=
| hp_begin m p ws : happens {| row_ := m; world := p; workers := ws |} {| row_ := begin_execution m; world := p; workers := ws ++ [At (m_steps m).*1] |}
| hp_skip m p ws ws' n ns : examine n m = Skip ->
    happens {| row_ := m; world := p; workers := ws ++ At (n :: ns) :: ws' |} {| row_ := m; world := p; workers := ws ++ At ns :: ws' |}
| hp_start m p ws ws' n ns : examine n m = Start ->
    happens {| row_ := m; world := p; workers := ws ++ At (n :: ns) :: ws' |} {| row_ := step_started n m; world := p; workers := ws ++ In n ns :: ws' |}
| hp_done m p ws ws' n ns a m' p' : _execute_step a n m p = (m', p', Done) ->
    happens {| row_ := m; world := p; workers := ws ++ In n ns :: ws' |} {| row_ := step_ended n Done m'; world := p'; workers := ws ++ At ns :: ws' |}
| hp_stop m p ws ws' n ns a m' p' r : _execute_step a n m p = (m', p', r) -> r <> Done ->
    happens {| row_ := m; world := p; workers := ws ++ In n ns :: ws' |} {| row_ := step_ended n r m'; world := p'; workers := ws ++ ws' |}
| hp_end m p ws ws' : happens {| row_ := m; world := p; workers := ws ++ At [] :: ws' |} {| row_ := set_status PM_COMPLETED m; world := p; workers := ws ++ ws' |}
| hp_gone m p ws w ws' : happens {| row_ := m; world := p; workers := ws ++ w :: ws' |} {| row_ := m; world := p; workers := ws ++ ws' |}
| hp_cutover m p ws by_ m' : confirm_cutover by_ m = Some m' -> happens {| row_ := m; world := p; workers := ws |} {| row_ := m'; world := p; workers := ws |}
| hp_teardown m p ws by_ m' : confirm_teardown by_ m = Some m' -> happens {| row_ := m; world := p; workers := ws |} {| row_ := m'; world := p; workers := ws |}
| hp_abort m p ws deleted m' p' : abort_migration deleted m p = Some (m', p') -> happens {| row_ := m; world := p; workers := ws |} {| row_ := m'; world := p'; workers := ws |}.

(** ** Laws *)

Lemma execute_old a n m p m' p' r : _execute_step a n m p = (m', p', r) -> old_there p = true -> old_there p' = false ->
  n = TeardownOld /\ _verify_passed m = true /\ is_Some (cutover_confirmed_by m) /\ is_Some (teardown_confirmed_by m) /\ is_Some (teardown m).
Proof.
  destruct n; cbn.
  - intros [= <- <- <-]. congruence.
  - unfold _step_deploy_bnk. destruct (_ || _); [intros [= <- <- <-]; congruence|].
    destruct (on_apply a); intros [= <- <- <-]; cbn; congruence.
  - unfold _step_verify. destruct (passed _); intros [= <- <- <-]; congruence.
  - unfold _step_cutover. destruct (negb _); [|destruct (cutover_confirmed_by m)]; intros [= <- <- <-]; congruence.
  - unfold _step_teardown_old. destruct (_verify_passed m); cbn [negb]; [|intros [= <- <- <-]; congruence].
    destruct (cutover_confirmed_by m), (teardown_confirmed_by m); try (intros [= <- <- <-]; congruence).
    destruct (teardown m) as [i|]; [|intros [= <- <- <-]; congruence]. intros _ _ _. repeat split; by eexists.
Qed.

(** C20. Whatever state a run is in, the old proxy is removed only by its teardown step, when
    the check of the new gateway has passed and both confirmations are there. *)
Lemma teardown_gated s s' : happens s s' -> old_there (world s) = true -> old_there (world s') = false ->
  _verify_passed (row_ s) = true /\ is_Some (cutover_confirmed_by (row_ s)) /\ is_Some (teardown_confirmed_by (row_ s)) /\ is_Some (teardown (row_ s)) /\
  exists ns, In TeardownOld ns ∈ workers s.
Proof.
  intros H. destruct H as [m p ws|m p ws ws' n ns E|m p ws ws' n ns E|m p ws ws' n ns a m' p' E|m p ws ws' n ns a m' p' r E N|m p ws ws'|m p ws w ws'|m p ws b m' E|m p ws b m' E|m p ws del m' p' E];
    cbn; intros Ho Hn; try congruence.
  - destruct (execute_old _ _ _ _ _ _ _ E Ho Hn) as (-> & H1 & H2 & H3 & H4). repeat (split; [done|]). exists ns. apply elem_of_app. right. left.
  - destruct (execute_old _ _ _ _ _ _ _ E Ho Hn) as (-> & H1 & H2 & H3 & H4). repeat (split; [done|]). exists ns. apply elem_of_app. right. left.
  - unfold abort_migration in E. repeat (case_match; simplify_eq/=; try congruence).
Qed.

(** ** What becomes of a run *)

Lemma get_set_step n n' s m : _get_step n (set_step n' s m) = if decide (n = n') then (fun _ => s) <$> _get_step n m else _get_step n m.
Proof.
  unfold _get_step. cbn [set_step m_steps]. induction (m_steps m) as [|[x t] l IH]; cbn; [by case_decide|].
  destruct (decide (x = n')) as [->|Hx]; cbn [fst snd].
  - destruct (decide (n' = n)) as [->|Hn].
    + cbn. rewrite !decide_True by done. reflexivity.
    + rewrite (decide_False (P := n = n')) in * by congruence. destruct (list_find _ (_ <$> l)) as [[i [y u]]|], (list_find _ l) as [[j [z v]]|]; cbn in *; congruence.
  - destruct (decide (x = n)) as [->|Hn].
    + rewrite (decide_False (P := n = n')) by congruence. reflexivity.
    + destruct (list_find _ (_ <$> l)) as [[i [y u]]|], (list_find _ l) as [[j [z v]]|]; cbn in *; destruct (decide (n = n')); cbn in *; congruence.
Qed.

Definition all_steps : list step_name := [Translate; DeployBnk; Verify; Cutover; TeardownOld].
(** The places of a worker up to the verify step. *)
Definition early (w : worker) : Prop :=
  match w with
  | At ns => ns = all_steps \/ ns = [DeployBnk; Verify; Cutover; TeardownOld] \/ ns = [Verify; Cutover; TeardownOld]
  | In n ns => (n, ns) = (Translate, [DeployBnk; Verify; Cutover; TeardownOld]) \/ (n, ns) = (DeployBnk, [Verify; Cutover; TeardownOld]) \/ (n, ns) = (Verify, [Cutover; TeardownOld])
  end.
Record before_cutover (m : migration) (p : proxies) : Prop := {
  bc_names : (m_steps m).*1 = all_steps;
  bc_verify : exists st, _get_step Verify m = Some st /\ st <> ST_COMPLETED /\ st <> ST_SKIPPED;
  bc_cutover : _get_step Cutover m = Some ST_PENDING;
  bc_teardown : _get_step TeardownOld m = Some ST_PENDING;
  bc_status : m_status m <> PM_COMPLETED /\ m_status m <> PM_AWAITING_TEARDOWN;
  bc_old : old_there p = true
}.

Lemma set_step_names n s m : (m_steps (set_step n s m)).*1 = (m_steps m).*1.
Proof. cbn. rewrite <- list_fmap_compose. apply list_fmap_ext. intros i [x t] _. cbn. by case_decide; subst. Qed.

(** Writes that keep the steps, the old proxy and the two statuses that are not reached. *)
Lemma bc_keep m m' p p' : m_steps m' = m_steps m -> m_status m' <> PM_COMPLETED /\ m_status m' <> PM_AWAITING_TEARDOWN -> old_there p' = old_there p ->
  before_cutover m p -> before_cutover m' p'.
Proof. intros E S O [A B C D F G]. unfold _get_step in *. split; unfold _get_step; rewrite ?E; [done..|done|congruence]. Qed.
(** A step's status, of one that is not behind the verify step. *)
Lemma bc_set_step n st m p : n ∈ [Translate; DeployBnk] \/ (n = Verify /\ st <> ST_COMPLETED /\ st <> ST_SKIPPED) \/ (n ∈ [Cutover; TeardownOld] /\ st = ST_PENDING) ->
  before_cutover m p -> before_cutover (set_step n st m) p.
Proof.
  intros H [A (v & B & B1 & B2) C D F G].
  assert (N : n = Translate \/ n = DeployBnk \/ n = Verify /\ st <> ST_COMPLETED /\ st <> ST_SKIPPED \/ n = Cutover /\ st = ST_PENDING \/ n = TeardownOld /\ st = ST_PENDING).
  { rewrite !elem_of_cons, !elem_of_nil in H. naive_solver. }
  split; [by rewrite set_step_names| | | |done|done]; rewrite get_set_step.
  - rewrite B. destruct N as [->|[->|[(-> & ? & ?)|[(-> & ->)|(-> & ->)]]]]; cbn; eauto.
  - rewrite C. by destruct N as [->|[->|[(-> & ? & ?)|[(-> & ->)|(-> & ->)]]]].
  - rewrite D. by destruct N as [->|[->|[(-> & ? & ?)|[(-> & ->)|(-> & ->)]]]].
Qed.

Lemma early_middle ws ws' w : Forall early (ws ++ w :: ws') <-> Forall early (ws ++ ws') /\ early w.
Proof. rewrite !Forall_app, Forall_cons. tauto. Qed.

(** A step up to verify that runs, whatever it gives. *)
Lemma bc_execute a n m p m' p' r : n ∈ [Translate; DeployBnk; Verify] -> _execute_step a n m p = (m', p', r) -> before_cutover m p ->
  before_cutover (step_ended n r m') p' /\ (n = Verify -> r <> Done).
Proof.
  intros Hn E I.
  assert (K : before_cutover m' p' /\ (n = Verify -> r <> Done)).
  { rewrite !elem_of_cons, elem_of_nil in Hn. destruct Hn as [->|[->|[->|[]]]]; cbn in E.
    - by injection E as <- <- <-.
    - split; [|done]. unfold _step_deploy_bnk in E. destruct (_ || _); [by injection E as <- <- <-|].
      destruct (on_apply a); injection E as <- <- <-; [|by eapply bc_keep; [| | |exact I]; [done|apply I|done]].
      eapply bc_keep; [| | |exact I]; done.
    - unfold _step_verify in E. destruct (passed _); injection E as <- <- <-; (split; [|done]); (eapply bc_keep; [| | |exact I]); try done. apply I. }
  destruct K as [K1 K2]. split; [|done]. rewrite !elem_of_cons, elem_of_nil in Hn.
  assert (S : forall st, (n = Verify -> st <> ST_COMPLETED /\ st <> ST_SKIPPED) -> before_cutover (set_step n st m') p').
  { intros st Hst. apply bc_set_step; [|done]. destruct Hn as [->|[->|[->|[]]]]; [left; set_solver|left; set_solver|right; left; auto]. }
  destruct r; cbn [step_ended].
  - apply S. intros X. by destruct (K2 X).
  - by apply S.
  - eapply bc_keep; [| | |apply (S ST_FAILED); done]; [done|cbn; done|done].
  - eapply bc_keep; [| | |apply (S ST_FAILED); done]; [done|cbn; by case_decide|done].
Qed.

Lemma bc_happens s s' : happens s s' -> before_cutover (row_ s) (world s) -> Forall early (workers s) ->
  before_cutover (row_ s') (world s') /\ Forall early (workers s').
Proof.
  intros H. destruct H as [m p ws|m p ws ws' n ns E|m p ws ws' n ns E|m p ws ws' n ns a m' p' E|m p ws ws' n ns a m' p' r E N|m p ws ws'|m p ws w ws'|m p ws b m' E|m p ws b m' E|m p ws del m' p' E];
    cbn [row_ world workers]; intros I F.
  - split.
    + unfold begin_execution. destruct (bool_decide _); [done|]. by eapply bc_keep; [| | |exact I].
    + apply Forall_app. split; [done|]. apply Forall_singleton. cbn. left. apply I.
  - split; [done|]. apply early_middle in F as [F We]. apply early_middle. split; [done|]. cbn in We |- *.
    destruct We as [[= -> ->]|[[= -> ->]|[= -> ->]]]; [auto|auto|]. exfalso. destruct (bc_verify _ _ I) as (v & Hv & V1 & V2).
    unfold examine in E. rewrite Hv in E. destruct v; try done; by destruct (_ && _).
  - apply early_middle in F as [F We]. split.
    + eapply bc_keep; [| | |apply (bc_set_step n ST_RUNNING m p); [|exact I]]; [done|apply I|done|].
      cbn in We. destruct We as [[= -> ->]|[[= -> ->]|[= -> ->]]]; [left; set_solver|left; set_solver|right; left; done].
    + apply early_middle. split; [done|]. cbn in We |- *. destruct We as [[= -> ->]|[[= -> ->]|[= -> ->]]]; auto.
  - apply early_middle in F as [F We]. cbn in We.
    assert (Hn : n ∈ [Translate; DeployBnk; Verify]) by (destruct We as [[= -> ->]|[[= -> ->]|[= -> ->]]]; set_solver).
    destruct (bc_execute _ _ _ _ _ _ _ Hn E I) as [I' V]. split; [exact I'|]. apply early_middle. split; [done|]. cbn.
    destruct We as [[= -> ->]|[[= -> ->]|[= -> ->]]]; [auto|auto|]. by destruct V.
  - apply early_middle in F as [F We]. cbn in We.
    assert (Hn : n ∈ [Translate; DeployBnk; Verify]) by (destruct We as [[= -> ->]|[[= -> ->]|[= -> ->]]]; set_solver).
    by destruct (bc_execute _ _ _ _ _ _ _ Hn E I) as [I' _].
  - apply early_middle in F as [_ We]. cbn in We. by destruct We as [?|[?|?]].
  - by apply early_middle in F as [F _].
  - split; [|done]. unfold confirm_cutover in E. case_decide; [|done]. injection E as <-. apply bc_set_step; [right; right; set_solver|].
    by eapply bc_keep; [| | |exact I].
  - unfold confirm_teardown in E. case_decide as Hs; [|done]. by destruct (bc_status _ _ I).
  - split; [|done]. unfold abort_migration in E. repeat (case_match; simplify_eq/=; try done); by eapply bc_keep; [| | |exact I].
Qed.

Definition created (source : list (string * json)) (yaml : string) (info : option teardown_info) : system :=
  {| row_ := create_migration source yaml info; world := {| bnk_applied := false; old_there := true |}; workers := [] |}.

(** C21. The verify step of a run that was created waits for a confirmation when it has passed,
    and no confirmation is one of this step: whatever happens, in any order, no run gets
    to its cutover, is completed, or removes the old proxy. *)
Lemma no_migration_completes source yaml info s : rtc happens (created source yaml info) s ->
  m_status (row_ s) <> PM_COMPLETED /\ m_status (row_ s) <> PM_AWAITING_TEARDOWN /\ old_there (world s) = true /\
  _get_step Cutover (row_ s) = Some ST_PENDING /\ _get_step TeardownOld (row_ s) = Some ST_PENDING.
Proof.
  intros H. assert (X : before_cutover (row_ s) (world s) /\ Forall early (workers s)).
  { revert s H. apply (rtc_ind_r (fun s => before_cutover (row_ s) (world s) /\ Forall early (workers s))).
    - split; [|constructor]. split; cbn; try done. by eexists.
    - intros s1 s2 _ S [I F]. by eapply bc_happens. }
  destruct X as [[A B C D [E1 E2] F] _]. auto.
Qed.

(** ** The check *)

Lemma poll_loop_all polls : forall g r, (g && r) = false -> (let '(g', r') := poll_loop polls g r in g' && r') =
  ((g || existsb (fun p => gateway_ready p.1) polls) && (r || existsb (fun p => route_ready p.2) polls)).
Proof.
  induction polls as [|[og or] polls IH]; intros g r H; cbn; [by rewrite !orb_false_r|].
  destruct ((g || gateway_ready og) && (r || route_ready or)) eqn:E.
  - apply andb_true_iff in E as [E1 E2]. rewrite !orb_assoc, E1, E2. done.
  - rewrite (IH _ _ E). by rewrite !orb_assoc.
Qed.

(** The check passes exactly when the gateway is found programmed at some poll, the route
    accepted at some poll, a backend is known, and one of three probes of it succeeds. *)
Lemma verify_passes_iff a m :
  passed (verify_bnk_migration a m) = true <->
  bnk_gateway_name m <> "" /\ bnk_gateway_namespace m <> "" /\ va_found a = true /\ va_client a = true /\
  (exists polls, va_polls a = Some polls /\ (exists p, p ∈ polls /\ gateway_ready p.1 = true) /\ (exists p, p ∈ polls /\ route_ready p.2 = true)) /\
  (exists b, _derive_backend_service (va_route a) (bnk_gateway_namespace m) (descriptor m) = Some b) /\
  (true ∈ take 3 (va_probes a)).
Proof.
  assert (X : forall {A} (f : A -> bool) l, existsb f l = true <-> exists x, x ∈ l /\ f x = true).
  { intros A f l. rewrite existsb_exists. split; intros (x & Hx & Hf); exists x; (split; [by apply list_elem_of_In|done]). }
  unfold verify_bnk_migration. destruct (String.eqb_spec (bnk_gateway_name m) "") as [E1|E1], (String.eqb_spec (bnk_gateway_namespace m) "") as [E2|E2];
    cbn [orb]; try (split; [done|]; intros (? & ? & _); done).
  destruct (va_polls a) as [polls|]; [|split; [done|]; by intros (_ & _ & _ & _ & (? & ? & _) & _)].
  unfold _check_gateway_programmed. destruct (va_found a) eqn:Ef; cbn [negb]; [|split; [done|]; by intros (_ & _ & ? & _)].
  pose proof (poll_loop_all polls false false eq_refl) as P. destruct (poll_loop polls false false) as [gw route]. cbn [orb] in P. rewrite P.
  destruct (existsb _ polls && existsb _ polls) eqn:E.
  - cbn [negb]. unfold _check_backend_reachable. rewrite Ef. cbn [negb]. apply andb_true_iff in E as [G R]. rewrite X in G. rewrite X in R.
    destruct (va_client a); cbn [negb]; [|split; [done|]; by intros (_ & _ & _ & ? & _)].
    destruct (_derive_backend_service _ _ _) as [b|]; [|split; [done|]; by intros (_ & _ & _ & _ & _ & (? & ?) & _)].
    destruct (existsb id (take 3 (va_probes a))) eqn:Ep.
    + cbn. split; [intros _|done]. repeat (split; [done|]). split; [by exists polls|]. split; [by exists b|].
      rewrite X in Ep. destruct Ep as (x & Hx & Hid). cbn in Hid. by subst x.
    + cbn. split; [done|]. intros (_ & _ & _ & _ & _ & _ & H). assert (Y : existsb id (take 3 (va_probes a)) = true) by (apply X; by exists true). congruence.
  - destruct gw, route; cbn; (split; [done|]); intros (_ & _ & _ & _ & (polls' & [= <-] & G & R) & _);
      rewrite <- X in G; rewrite <- X in R; rewrite G, R in E; done.
Qed.

(** ** Aborts *)

(** What an abort of a run that is not over does: before the cutover is confirmed a deployed
    manifest is deleted, and the old proxy is never touched. *)
Lemma abort_exact deleted m p m' p' : abort_migration deleted m p = Some (m', p') ->
  (m_status m ∉ terminal_states) /\ old_there p' = old_there p /\ m_steps m' = m_steps m /\
  (m_status m' = PM_ROLLED_BACK /\ bnk_applied p' = false /\ deleted = true /\ _get_step DeployBnk m = Some ST_COMPLETED /\
     m_status m <> PM_AWAITING_TEARDOWN /\ m_status m <> PM_CUTOVER_CONFIRMED \/
   m_status m' = PM_ABORTED /\ p' = p).
Proof.
  unfold abort_migration. destruct (bool_decide (m_status m ∈ terminal_states)) eqn:T; [done|]. apply bool_decide_eq_false in T.
  destruct (bool_decide (m_status m ∈ [_; _])) eqn:C; [intros [= <- <-]; do 3 (split; [done|]); by right|]. apply bool_decide_eq_false in C.
  assert (N : m_status m <> PM_AWAITING_TEARDOWN /\ m_status m <> PM_CUTOVER_CONFIRMED) by (split; intros E; apply C; rewrite E; set_solver).
  case_decide as D; [destruct deleted|]; intros [= <- <-]; do 3 (split; [done|]); [left|right..]; [|done..].
  do 4 (split; [done|]). exact N.
Qed.

(** A run whose steps are all pending gets to the check when its manifest can be applied. *)
Lemma pending_run a m p address :
  m_steps m = (fun n => (n, ST_PENDING)) <$> all_steps -> translated_manifest m <> "" -> bnk_gateway_name m <> "" -> bnk_gateway_namespace m <> "" ->
  on_apply a = Applied address ->
  exists m2 e, run_migration a all_steps m p = (m2, {| bnk_applied := true; old_there := old_there p |}, e) /\
    (m_status m2 = PM_AWAITING_CUTOVER \/ m_status m2 = PM_VERIFY_FAILED).
Proof.
  destruct m as [desc yaml gn gns td st cur vr es cc tc steps]. cbn -[run_migration]. intros -> Hy%String.eqb_neq Hn%String.eqb_neq Hns%String.eqb_neq Ha.
  cbv -[String.eqb verify_bnk_migration on_apply dset passed on_verify old_there bnk_applied]. rewrite Hy, Hn, Hns, Ha.
  destruct (passed _); eexists _, _; (split; [reflexivity|]); auto.
Qed.

(** An abort does not stop a worker that was sent for: the run goes on and deploys. *)
Lemma abort_does_not_stop source yaml info a address p :
  yaml <> "" -> bnk_gateway_name (create_migration source yaml info) <> "" -> bnk_gateway_namespace (create_migration source yaml info) <> "" ->
  on_apply a = Applied address ->
  exists m1 m2 e, abort_migration true (create_migration source yaml info) p = Some (m1, p) /\ m_status m1 = PM_ABORTED /\
    execute_migration a m1 p = (m2, {| bnk_applied := true; old_there := old_there p |}, e) /\ (m_status m2 = PM_AWAITING_CUTOVER \/ m_status m2 = PM_VERIFY_FAILED).
Proof.
  intros Hy Hn Hns Ha. exists (set_status PM_ABORTED (create_migration source yaml info)).
  destruct (pending_run a (set_status PM_IN_PROGRESS (create_migration source yaml info)) p address) as (m2 & e & E & S); [done..|].
  exists m2, e. split; [reflexivity|]. split; [done|]. split; [exact E|done].
Qed.

(** A manifest that was applied when its step failed cannot be taken back any more. *)
Lemma failed_deploy_stays a m p m' p' e :
  m_steps m = (fun n => (n, ST_PENDING)) <$> all_steps -> translated_manifest m <> "" -> bnk_gateway_name m <> "" -> bnk_gateway_namespace m <> "" ->
  on_apply a = ApplyRaised true -> run_migration a all_steps m p = (m', p', e) ->
  bnk_applied p' = true /\ m_status m' = PM_FAILED /\ forall deleted, abort_migration deleted m' p' = None.
Proof.
  destruct m as [desc yaml gn gns td st cur vr es cc tc steps]. cbn -[run_migration]. intros -> Hy%String.eqb_neq Hn%String.eqb_neq Hns%String.eqb_neq Ha.
  cbv -[String.eqb verify_bnk_migration on_apply dset passed on_verify old_there bnk_applied orb]. rewrite Hy, Hn, Hns, Ha.
  cbn. intros [= <- <- <-]. cbn. by rewrite orb_true_r.
Qed.

(** After the teardown is confirmed an abort counts as one before the cutover, and deletes the
    gateway that serves. *)
Lemma abort_deletes_serving by_ m m1 p : confirm_teardown by_ m = Some m1 -> _get_step DeployBnk m = Some ST_COMPLETED ->
  exists m2, abort_migration true m1 p = Some (m2, {| bnk_applied := false; old_there := old_there p |}).
Proof.
  unfold confirm_teardown. case_decide; [|done]. intros [= <-] D. unfold abort_migration. cbn [m_status set_status].
  rewrite !bool_decide_eq_false_2 by set_solver. rewrite decide_True; [by eexists|].
  change (_get_step DeployBnk (set_status PM_IN_PROGRESS ?x)) with (_get_step DeployBnk x). rewrite get_set_step. by rewrite decide_False.
Qed.

(** ** A run whose verify step was completed by hand *)

Module Example.

Definition source : list (string * json) := [("proxy_type", JStr "nginx"); ("class_name", JStr "Public.Web"); ("namespace", JStr "edge")].
Definition old_release : teardown_info := {| helm_release := "ingress-nginx"; kubectl_resources := [] |}.
Definition fresh_run : migration := create_migration source "kind: Gateway" (Some old_release).
Example gateway_name : bnk_gateway_name fresh_run = "forge-nginx-public-web".
Proof. reflexivity. Qed.
(** The cut after 63 characters may leave a dash at the end. *)
Example dash_at_the_end : _derive_gateway_name [("proxy_type", JStr "nginx"); ("class_name", JStr "aaaaaaaaaaaaaaaaaaaaaaaaaaaaaaaaaaaaaaaaaaaaaaaaaa-b")] =
  "forge-nginx-aaaaaaaaaaaaaaaaaaaaaaaaaaaaaaaaaaaaaaaaaaaaaaaaaa-".
Proof. reflexivity. Qed.

Definition yes (key : string) : json := JObj [("type", JStr key); ("status", JStr "True")].
Definition good : answers :=
  {| on_apply := Applied (Some "10.0.0.9");
     on_verify := {| va_found := true;
                     va_polls := Some [(Some (JObj [("status", JObj [("conditions", JList [yes "Programmed"])])]), None);
                                       (None, Some (JObj [("status", JObj [("parents", JList [JObj [("conditions", JList [yes "Accepted"; yes "ResolvedRefs"])]])])]))];
                     va_route := Some (JObj [("spec", JObj [("rules", JList [JObj [("backendRefs", JList [JObj [("name", JStr "web")]])]])])]);
                     va_client := true; va_probes := [false; true] |};
     removes := true |}.
Definition both : proxies := {| bnk_applied := false; old_there := true |}.

(** The run waits after verify, is confirmed, and waits again at the same place. *)
Definition checked : migration := (execute_migration good fresh_run both).1.1.
Definition confirmed : migration := default checked (confirm_cutover "ann" checked).
Example waits_after_verify : m_status checked = PM_AWAITING_CUTOVER /\ (execute_migration good fresh_run both).2 = Awaiting Verify.
Proof. vm_compute. done. Qed.
Example waits_again : m_status confirmed = PM_CUTOVER_CONFIRMED /\ (execute_migration good confirmed both).2 = Awaiting Verify /\ (execute_migration good confirmed both).1.1 = confirmed.
Proof. vm_compute. done. Qed.

(** With the step's status corrected the rest is as meant. *)
Definition corrected : migration := set_step Verify ST_COMPLETED confirmed.
Definition cut_over : migration := (execute_migration good corrected both).1.1.
Definition torn_down : migration * proxies * ended := execute_migration good (default cut_over (confirm_teardown "bob" cut_over)) {| bnk_applied := true; old_there := true |}.
Example rest_as_meant : m_status cut_over = PM_AWAITING_TEARDOWN /\ m_status torn_down.1.1 = PM_COMPLETED /\ old_there torn_down.1.2 = false.
Proof. vm_compute. done. Qed.

Definition at_teardown : migration := step_started TeardownOld (default cut_over (confirm_teardown "bob" cut_over)).
Lemma teardown_gated_witness : exists s', happens {| row_ := at_teardown; world := both; workers := [In TeardownOld []] |} s' /\ old_there (world s') = false /\ _verify_passed at_teardown = true.
Proof.
  eexists. split; [apply (hp_done at_teardown both [] [] TeardownOld [] good); vm_compute; reflexivity|]. split; [reflexivity|].
  exact (proj1 (teardown_gated {| row_ := at_teardown; world := both; workers := [] ++ In TeardownOld [] :: [] |} _
    (hp_done at_teardown both [] [] TeardownOld [] good _ _ eq_refl) eq_refl eq_refl)).
Defined.

Definition start : system := created source "kind: Gateway" (Some old_release).
Definition picked : system := {| row_ := begin_execution fresh_run; world := both; workers := [At all_steps] |}.
Lemma no_migration_completes_witness : rtc happens start picked /\ m_status (row_ picked) <> PM_COMPLETED.
Proof.
  assert (H : rtc happens start picked) by (apply rtc_once, (hp_begin fresh_run both [])).
  split; [exact H|]. exact (proj1 (no_migration_completes source "kind: Gateway" (Some old_release) picked H)).
Defined.

Lemma abort_does_not_stop_witness : exists m1 m2 e, abort_migration true fresh_run both = Some (m1, both) /\ m_status m1 = PM_ABORTED /\
  execute_migration good m1 both = (m2, {| bnk_applied := true; old_there := true |}, e) /\ (m_status m2 = PM_AWAITING_CUTOVER \/ m_status m2 = PM_VERIFY_FAILED).
Proof.
  apply (abort_does_not_stop source "kind: Gateway" (Some old_release) good (Some "10.0.0.9") both); [discriminate|discriminate|discriminate|reflexivity].
Defined.
End Example.
