(* ===== verification/ProxyTranslate.v ===== *)
(** * Translation of proxies (services/proxy_translate_service.py)

    Ingresses or HTTPRoutes into one HTTPRoute behind a new Gateway, with the list of what
    could not be mapped.  An object is what the code reads of its dict; the rendering in
    YAML is left out. *)

From Stdlib Require Import Ascii.
From S2P Require Import Prelude Texts.

#[local] Open Scope string_scope.
#[local] Open Scope list_scope.
#[local] Open Scope Z_scope.
#[local] Set Default Proof Using "Type".

(** ** Objects *)

(** A path of an Ingress: [path], [pathType] and the service of its backend. *)
Record ing_path := { ip_path : option string; ip_type : option string; ip_service : string; ip_port : option Z; ip_port_name : option string }.
Record ing_rule := { ir_host : option string; ir_paths : list ing_path }.
Record ing_tls := { it_secret : option string; it_hosts : list string }.
Record ingress := {
  in_name : string; in_ns : string; in_annotations : list (string * string); in_tls : list ing_tls; in_rules : list ing_rule;
  in_default : option (string * option Z)
}.

(** What the functions are given: a dict with the keys of the API, or an object of the
    client library. *)
Inductive source_object := PlainDict (i : ingress) | ClientObject (i : ingress).
Definition obj_ingress (x : source_object) : ingress := match x with PlainDict i | ClientObject i => i end.

(** A dict is taken as it is.  [to_dict] of a client object names its keys [path_type] and
    [default_backend], which the code does not read. *)
Definition without_type (p : ing_path) : ing_path :=
  {| ip_path := ip_path p; ip_type := None; ip_service := ip_service p; ip_port := ip_port p; ip_port_name := ip_port_name p |}.
Definition _obj_to_dict (x : source_object) : ingress :=
  match x with
  | PlainDict i => i
  | ClientObject i =>
      {| in_name := in_name i; in_ns := in_ns i; in_annotations := in_annotations i; in_tls := in_tls i;
         in_rules := (fun r => {| ir_host := ir_host r; ir_paths := without_type <$> ir_paths r |}) <$> in_rules i;
         in_default := None |}
  end.

Inductive match_type := PathPrefix | Exact.
#[global] Instance match_type_eq_dec : EqDecision match_type.
Proof. solve_decision. Defined.
Record backend_ref := { br_name : string; br_port : Z; br_ns : option string }.
#[global] Instance backend_ref_eq_dec : EqDecision backend_ref.
Proof. solve_decision. Defined.
Record route_rule := { rr_type : match_type; rr_value : string; rr_backend : backend_ref }.
Record listener := { l_name : string; l_port : Z; l_https : bool; l_hostname : string; l_secret : option (string * string) }.

Inductive construct :=
| CAnnotation (key value : string) | CCrossNamespace (service ns : string) | CPortByName (name : string) | CPathType (type_ path : string)
| CNoRules | CNoRoutes | CExtensionRef (name : string) | CAllBackendsUnmapped | CFilter (type_ : string).
Record unmapped_entry := { u_name : string; u_ns : string; u_construct : construct }.

Definition BNK_GATEWAY_CLASS_NAME : string := "f5-bnk".
Definition _INGRESS_PATH_TYPE_MAP (t : string) : option match_type :=
  if String.eqb t "Prefix" then Some PathPrefix else if String.eqb t "Exact" then Some Exact else None.

(** ** Annotations *)

Definition _NGINX_ANNOTATION_PREFIX : string := "nginx.ingress.kubernetes.io".
Definition _HAPROXY_ANNOTATION_PREFIX : string := "haproxy.org".
Definition _F5_ANNOTATION_PREFIX : string := "virtual-server.f5.com".
Definition _F5_ANNOTATION_REASONS : list string :=
  ["virtual-server.f5.com/ip"; "virtual-server.f5.com/clientssl"; "virtual-server.f5.com/health"; "virtual-server.f5.com/balance";
   "virtual-server.f5.com/partition"; "ingress.kubernetes.io/ssl-redirect"; "ingress.kubernetes.io/allow-http"].
Definition begins (p s : string) : bool := match after_prefix p s with Some _ => true | None => false end.
(** No annotation is on the lists of mapped ones. *)
Definition annotation_flagged (proxy_type key : string) : bool :=
  if begins _NGINX_ANNOTATION_PREFIX key && String.eqb proxy_type "nginx" then true
  else if begins _HAPROXY_ANNOTATION_PREFIX key && String.eqb proxy_type "haproxy" then true
  else if contains "envoy" (lower key) then true
  else (begins _F5_ANNOTATION_PREFIX key || bool_decide (key ∈ _F5_ANNOTATION_REASONS)) && bool_decide (proxy_type ∈ ["cis-f5"; "cis-bigip"; "f5"]).
Definition _collect_unmapped_annotations (proxy_type : string) (i : ingress) : list unmapped_entry :=
  omap (fun kv => if annotation_flagged proxy_type kv.1 then Some {| u_name := in_name i; u_ns := in_ns i; u_construct := CAnnotation kv.1 kv.2 |} else None) (in_annotations i).

(** ** Ingresses *)

(** The variables of the loop. *)
Record translating := { t_rules : list route_rule; t_hostnames : list string; t_tls : list listener; t_namespace : option string; t_unmapped : list unmapped_entry }.

(** [if host and host not in hostnames: hostnames.append(host)] *)
Definition add_host (h : string) (hs : list string) : list string := if String.eqb h "" || bool_decide (h ∈ hs) then hs else hs ++ [h].
Definition with_hosts (f : list string -> list string) (t : translating) : translating :=
  {| t_rules := t_rules t; t_hostnames := f (t_hostnames t); t_tls := t_tls t; t_namespace := t_namespace t; t_unmapped := t_unmapped t |}.
Definition flag (i : ingress) (cs : list construct) (t : translating) : translating :=
  {| t_rules := t_rules t; t_hostnames := t_hostnames t; t_tls := t_tls t; t_namespace := t_namespace t;
     t_unmapped := t_unmapped t ++ ((fun c => {| u_name := in_name i; u_ns := in_ns i; u_construct := c |}) <$> cs) |}.

Definition tls_step (i : ingress) (t : translating) (e : ing_tls) : translating :=
  let t := with_hosts (fun hs => foldl (fun hs h => add_host h hs) hs (it_hosts e)) t in
  match or_else (it_secret e) None with
  | None => t
  | Some secret =>
      {| t_rules := t_rules t; t_hostnames := t_hostnames t;
         t_tls := t_tls t ++ [{| l_name := "https-" +:+ clip 20 secret; l_port := 443; l_https := true; l_hostname := default "*" (head (it_hosts e)); l_secret := Some (secret, in_ns i) |}];
         t_namespace := t_namespace t; t_unmapped := t_unmapped t |}
  end.

(** [x or y] of a port: zero is falsy. *)
Definition port_or (p : option Z) (z : Z) : Z := match p with Some n => if n =? 0 then z else n | None => z end.
Definition port_missing (p : option Z) : bool := match p with Some n => n =? 0 | None => true end.

Definition path_step (i : ingress) (t : translating) (p : ing_path) : translating :=
  if String.eqb (ip_service p) "" then t
  else
    let path_val := default "/" (or_else (ip_path p) None) in
    let path_type := default "Prefix" (or_else (ip_type p) None) in
    let gw := default (in_ns i) (t_namespace t) in
    let crossed := negb (String.eqb (in_ns i) gw) in
    let by_name := truthy_str (ip_port_name p) && port_missing (ip_port p) in
    let t := flag i ((if crossed then [CCrossNamespace (ip_service p) (in_ns i)] else []) ++
                     (if by_name then [CPortByName (default "" (ip_port_name p))] else []) ++
                     (match _INGRESS_PATH_TYPE_MAP path_type with None => [CPathType path_type path_val] | Some _ => [] end)) t in
    {| t_rules := t_rules t ++ [{| rr_type := default PathPrefix (_INGRESS_PATH_TYPE_MAP path_type); rr_value := path_val;
         rr_backend := {| br_name := ip_service p; br_port := port_or (ip_port p) 80; br_ns := if crossed && negb (String.eqb gw "") then Some (in_ns i) else None |} |}];
       t_hostnames := t_hostnames t; t_tls := t_tls t; t_namespace := Some gw; t_unmapped := t_unmapped t |}.

Definition rule_step (i : ingress) (t : translating) (r : ing_rule) : translating :=
  foldl (path_step i) (with_hosts (match ir_host r with Some h => add_host h | None => id end) t) (ir_paths r).

Definition default_step (i : ingress) (t : translating) : translating :=
  match in_default i with
  | Some (service, port) =>
      if String.eqb service "" then t
      else {| t_rules := t_rules t ++ [{| rr_type := PathPrefix; rr_value := "/"; rr_backend := {| br_name := service; br_port := port_or port 80; br_ns := None |} |}];
              t_hostnames := t_hostnames t; t_tls := t_tls t; t_namespace := t_namespace t; t_unmapped := t_unmapped t |}
  | None => t
  end.

Definition ingress_step (proxy_type : string) (t : translating) (i : ingress) : translating :=
  let t := {| t_rules := t_rules t; t_hostnames := t_hostnames t; t_tls := t_tls t; t_namespace := t_namespace t;
              t_unmapped := t_unmapped t ++ _collect_unmapped_annotations proxy_type i |} in
  default_step i (foldl (rule_step i) (foldl (tls_step i) t (in_tls i)) (in_rules i)).

Definition placeholder : route_rule := {| rr_type := PathPrefix; rr_value := "/"; rr_backend := {| br_name := "REPLACE_WITH_SERVICE_NAME"; br_port := 80; br_ns := None |} |}.

Definition _default_listener : listener := {| l_name := "http"; l_port := 80; l_https := false; l_hostname := ""; l_secret := None |}.
Definition listener_key (l : listener) : string := l_name l +:+ ":" +:+ pretty (l_port l).
Fixpoint unique_listeners (seen : list string) (ls : list listener) : list listener :=
  match ls with
  | [] => []
  | l :: ls => if bool_decide (listener_key l ∈ seen) then unique_listeners seen ls else l :: unique_listeners (listener_key l :: seen) ls
  end.
Definition _build_listeners (tls_listeners : list listener) : list listener := _default_listener :: unique_listeners [] tls_listeners.

Record httproute := { hr_name : string; hr_ns : string; hr_parent : string * string; hr_hostnames : list string; hr_rules : list route_rule }.
Definition _build_httproute (name ns : string) (hostnames : list string) (rules : list route_rule) : httproute :=
  {| hr_name := name; hr_ns := ns; hr_parent := (name, ns); hr_hostnames := hostnames; hr_rules := rules |}.

Definition _ingress_to_httproute (proxy_type : string) (source_ingresses : list source_object) (gateway_name : string) (target_namespace : option string) :
    httproute * list listener * option string * list unmapped_entry :=
  let t := foldl (ingress_step proxy_type) {| t_rules := []; t_hostnames := []; t_tls := []; t_namespace := target_namespace; t_unmapped := [] |} (_obj_to_dict <$> source_ingresses) in
  let '(rules, more) := match t_rules t with
    | [] => ([placeholder], [{| u_name := "(none)"; u_ns := "(none)"; u_construct := CNoRules |}])
    | rules => (rules, [])
    end in
  (_build_httproute gateway_name (default "default" (or_else (t_namespace t) None)) (t_hostnames t) rules, _build_listeners (t_tls t), t_namespace t, t_unmapped t ++ more).

(** The route translates the objects of the client library. *)
Definition translate_ingresses (proxy_type : string) (live : list ingress) (gateway_name : string) (target_namespace : option string) :=
  _ingress_to_httproute proxy_type (ClientObject <$> live) gateway_name target_namespace.

(** ** HTTPRoutes *)

Record source_ref := { sr_name : string; sr_port : Z; sr_ns : option string; sr_group : option string }.
Record source_rule := { so_matches : json; so_backends : list source_ref; so_filters : list (string * json) }.
Record source_route := { so_name : string; so_ns : string; so_hostnames : list string; so_rules : list source_rule }.
Record source_listener := { sl_name : string; sl_port : Z; sl_protocol : string; sl_hostname : string; sl_tls : option (string * string) }.

(** A rule of the result: its keys, [None] when a key is not set. *)
Record passed_rule := { pr_matches : option json; pr_backends : option (list backend_ref); pr_filters : option (list (string * json)) }.
Definition standard_filters : list string := ["RequestHeaderModifier"; "ResponseHeaderModifier"; "RequestRedirect"; "URLRewrite"; "RequestMirror"].
Definition foreign_group (b : source_ref) : bool :=
  match sr_group b with Some g => negb (bool_decide (g ∈ [""; "core"])) | None => false end.
Definition pass_rule (r : source_route) (rule : source_rule) : passed_rule * list unmapped_entry :=
  let note c := {| u_name := so_name r; u_ns := so_ns r; u_construct := c |} in
  let kept := (fun b => {| br_name := sr_name b; br_port := sr_port b; br_ns := sr_ns b |}) <$> filter (fun b => foreign_group b = false) (so_backends rule) in
  let standard := filter (fun f : string * json => f.1 ∈ standard_filters) (so_filters rule) in
  ({| pr_matches := if truthy (so_matches rule) then Some (so_matches rule) else None;
      pr_backends := match kept, so_backends rule with
                     | [], [] => None
                     | [], _ => Some [rr_backend placeholder]
                     | _, _ => Some kept
                     end;
      pr_filters := match standard with [] => None | _ => Some standard end |},
   ((fun b => note (CExtensionRef (sr_name b))) <$> filter (fun b => foreign_group b = true) (so_backends rule)) ++
   (match kept, so_backends rule with [], _ :: _ => [note CAllBackendsUnmapped] | _, _ => [] end) ++
   ((fun f => note (CFilter f.1)) <$> filter (fun f : string * json => ~ f.1 ∈ standard_filters) (so_filters rule))).

Definition pass_tls (l : source_listener) : option listener :=
  match sl_tls l with
  | Some secret => if String.eqb (sl_protocol l) "HTTPS"
                   then Some {| l_name := sl_name l; l_port := sl_port l; l_https := true; l_hostname := sl_hostname l; l_secret := Some secret |} else None
  | None => None
  end.
Definition _httproute_passthrough (routes : list source_route) (gateways : list (list source_listener)) (target_namespace : option string) :
    list string * list passed_rule * list listener * option string * list unmapped_entry :=
  let no_rules := [{| pr_matches := None; pr_backends := Some [rr_backend placeholder]; pr_filters := None |}] in
  match routes with
  | [] => ([], no_rules, [_default_listener], target_namespace, [{| u_name := "(none)"; u_ns := "(none)"; u_construct := CNoRoutes |}])
  | first :: _ =>
      let results := mjoin ((fun r => pass_rule r <$> so_rules r) <$> routes) in
      (foldl (fun hs r => foldl (fun hs h => add_host h hs) hs (so_hostnames r)) [] routes,
       match results.*1 with [] => no_rules | rules => rules end,
       _build_listeners (mjoin ((fun g => omap pass_tls g) <$> gateways)),
       Some (default (so_ns first) target_namespace),
       mjoin results.*2)
  end.

(** ** The whole translation *)

Inductive route_body := FromIngresses (hr : httproute) | FromRoutes (hostnames : list string) (rules : list passed_rule).
Record TranslationResult := { tr_class : string; tr_gateway : string; tr_namespace : string; tr_listeners : list listener; tr_route : route_body; tr_unmapped : list unmapped_entry }.

(** [proxy_type.replace("/", "-").replace(".", "-")[:30]] *)
Fixpoint slugged (s : string) : string :=
  match s with
  | EmptyString => EmptyString
  | String c s => String (if bool_decide (c = "/"%char \/ c = "."%char) then "-"%char else c) (slugged s)
  end.
Definition translate_to_bnk (proxy_type source_kind : string) (ingresses : list source_object) (routes : list source_route) (gateways : list (list source_listener))
    (gateway_class : string) (gateway_name target_namespace : option string) : TranslationResult :=
  let gateway_name := default (clip 30 (slugged proxy_type) +:+ "-bnk-migrate") (or_else gateway_name None) in
  if String.eqb source_kind "IngressClass" || bool_decide (proxy_type ∈ ["nginx"; "haproxy"]) then
    let '(hr, ls, ns, said) := _ingress_to_httproute proxy_type ingresses gateway_name target_namespace in
    {| tr_class := gateway_class; tr_gateway := gateway_name; tr_namespace := default "default" (or_else ns None); tr_listeners := ls; tr_route := FromIngresses hr; tr_unmapped := said |}
  else
    let '(hostnames, rules, ls, ns, said) := _httproute_passthrough routes gateways target_namespace in
    {| tr_class := gateway_class; tr_gateway := gateway_name; tr_namespace := default "default" (or_else ns None); tr_listeners := ls; tr_route := FromRoutes hostnames rules; tr_unmapped := said |}.

(** What the handler fetches: Ingresses with their class, Gateways with their name and class,
    HTTPRoutes with the names of their parents. *)
Record live_ingress := { li_class : option string; li_ingress : ingress }.
Record live_gateway := { lg_name : string; lg_class : string; lg_listeners : list source_listener }.
Record live_route := { lr_parents : list string; lr_route : source_route }.

Definition of_class (class_name : string) (i : live_ingress) : bool :=
  String.eqb (lower (default "" (li_class i))) (lower class_name) ||
  String.eqb (lower (default "" (snd <$> (list_find (fun kv => kv.1 = "kubernetes.io/ingress.class") (in_annotations (li_ingress i)) ≫= fun x => Some x.2)))) (lower class_name).
Definition translate_proxy_to_bnk (ingresses : list live_ingress) (gateways : list live_gateway) (routes : list live_route)
    (class_name proxy_type source_kind gateway_class : string) (gateway_name target_namespace : option string) : TranslationResult :=
  let source_gateways := filter (fun g => lower (lg_class g) = lower class_name) gateways in
  let names := lg_name <$> source_gateways in
  translate_to_bnk proxy_type source_kind (ClientObject ∘ li_ingress <$> filter (fun i => of_class class_name i = true) ingresses)
    (lr_route <$> filter (fun r => existsb (fun n => bool_decide (n ∈ names)) (lr_parents r) = true) routes) (lg_listeners <$> source_gateways)
    gateway_class gateway_name target_namespace.

(** ** Laws of the translation of Ingresses *)

Definition real (p : ing_path) : bool := negb (String.eqb (ip_service p) "").
Definition path_of (p : ing_path) : string := default "/" (or_else (ip_path p) None).
Definition type_of (p : ing_path) : string := default "Prefix" (or_else (ip_type p) None).
(** The rule of a path when the result is in namespace [g], and that of a default backend. *)
Definition rule_of (g : string) (i : ingress) (p : ing_path) : route_rule :=
  {| rr_type := default PathPrefix (_INGRESS_PATH_TYPE_MAP (type_of p)); rr_value := path_of p;
     rr_backend := {| br_name := ip_service p; br_port := port_or (ip_port p) 80;
                      br_ns := if negb (String.eqb (in_ns i) g) && negb (String.eqb g "") then Some (in_ns i) else None |} |}.
Definition default_rules (i : ingress) : list route_rule :=
  match in_default i with
  | Some (service, port) => if String.eqb service "" then [] else [{| rr_type := PathPrefix; rr_value := "/"; rr_backend := {| br_name := service; br_port := port_or port 80; br_ns := None |} |}]
  | None => []
  end.
Definition paths_of (i : ingress) : list ing_path := filter (fun p => real p = true) (mjoin (ir_paths <$> in_rules i)).
Definition rules_of (g : string) (i : ingress) : list route_rule := (rule_of g i <$> paths_of i) ++ default_rules i.

(** What is said about a path that is translated with a loss. *)
Definition losses (g : string) (i : ingress) (p : ing_path) : list construct :=
  (if String.eqb (in_ns i) g then [] else [CCrossNamespace (ip_service p) (in_ns i)]) ++
  (if truthy_str (ip_port_name p) && port_missing (ip_port p) then [CPortByName (default "" (ip_port_name p))] else []) ++
  (match _INGRESS_PATH_TYPE_MAP (type_of p) with None => [CPathType (type_of p) (path_of p)] | Some _ => [] end).

(** What a part of the loop adds to the state. *)
Record adds (i : ingress) (ps : list ing_path) (t t' : translating) : Prop := {
  ad_ns : t_namespace t' = match t_namespace t with Some g => Some g | None => match ps with [] => None | _ => Some (in_ns i) end end;
  ad_rules : t_rules t' = t_rules t ++ (rule_of (default (in_ns i) (t_namespace t)) i <$> ps);
  ad_losses p c : p ∈ ps -> c ∈ losses (default (in_ns i) (t_namespace t)) i p -> {| u_name := in_name i; u_ns := in_ns i; u_construct := c |} ∈ t_unmapped t';
  ad_kept u : u ∈ t_unmapped t -> u ∈ t_unmapped t'
}.

Lemma adds_refl i t : adds i [] t t.
Proof. split; [by destruct (t_namespace t)|by rewrite app_nil_r|by intros p c ?%elem_of_nil|done]. Qed.
Lemma adds_trans i ps qs t1 t2 t3 : adds i ps t1 t2 -> adds i qs t2 t3 -> adds i (ps ++ qs) t1 t3.
Proof.
  intros [A1 A2 A3 A4] [B1 B2 B3 B4].
  assert (D : qs <> [] -> ps <> [] \/ is_Some (t_namespace t1) -> default (in_ns i) (t_namespace t2) = default (in_ns i) (t_namespace t1)).
  { intros _ _. rewrite A1. destruct (t_namespace t1); [done|]. by destruct ps. }
  assert (D' : default (in_ns i) (t_namespace t2) = default (in_ns i) (t_namespace t1)).
  { rewrite A1. destruct (t_namespace t1); [done|]. by destruct ps. }
  split.
  - rewrite B1, A1. destruct (t_namespace t1); [done|]. by destruct ps, qs.
  - rewrite B2, A2, D', fmap_app. by rewrite app_assoc.
  - intros p c [Hp|Hp]%elem_of_app Hc; [apply B4; eauto|]. rewrite <- D' in Hc. eauto.
  - auto.
Qed.

Lemma adds_hosts i f t : adds i [] t (with_hosts f t).
Proof. split; cbn; [by destruct (t_namespace t)|by rewrite app_nil_r|by intros p c ?%elem_of_nil|done]. Qed.

Lemma adds_path i t p : adds i (filter (fun p => real p = true) [p]) t (path_step i t p).
Proof.
  unfold path_step, real. destruct (String.eqb (ip_service p) "") eqn:E.
  - rewrite filter_cons_False by (cbn; by rewrite E). apply adds_refl.
  - rewrite filter_cons_True by (cbn; by rewrite E). rewrite filter_nil. fold (path_of p) (type_of p).
    set (g := default (in_ns i) (t_namespace t)). split; cbn [t_namespace t_rules t_unmapped flag].
    + subst g. by destruct (t_namespace t).
    + cbn. unfold rule_of. fold g. done.
    + intros q c ->%list_elem_of_singleton Hc. fold g in Hc. apply elem_of_app. right. apply list_elem_of_fmap. exists c. split; [done|].
      unfold losses in Hc. rewrite !elem_of_app in Hc |- *. destruct Hc as [Hc|[Hc|Hc]]; [left|by right; left|by right; right].
      destruct (String.eqb (in_ns i) g); done.
    + intros u Hu. apply elem_of_app. by left.
Qed.

Lemma adds_fold {A} i (f : translating -> A -> translating) (ps : A -> list ing_path) : (forall t x, adds i (ps x) t (f t x)) ->
  forall l t, adds i (mjoin (ps <$> l)) t (foldl f t l).
Proof.
  intros H l. induction l as [|x l IH]; intros t; [apply adds_refl|]. change (mjoin (ps <$> x :: l)) with (ps x ++ mjoin (ps <$> l)).
  change (foldl f t (x :: l)) with (foldl f (f t x) l). eapply adds_trans; [apply H|apply IH].
Qed.

Lemma adds_rule i t r : adds i (filter (fun p => real p = true) (ir_paths r)) t (rule_step i t r).
Proof.
  unfold rule_step. change (filter _ (ir_paths r)) with ([] ++ filter (fun p => real p = true) (ir_paths r)). eapply adds_trans; [apply adds_hosts|].
  assert (E : filter (fun p => real p = true) (ir_paths r) = mjoin ((fun p => filter (fun p => real p = true) [p]) <$> ir_paths r)).
  { induction (ir_paths r) as [|p l IH]; [done|]. rewrite (filter_app _ [p] l : filter _ (p :: l) = _), IH. done. }
  rewrite E. apply adds_fold. intros t' p. apply adds_path.
Qed.
Lemma adds_tls i t e : adds i [] t (tls_step i t e).
Proof.
  unfold tls_step. destruct (or_else (it_secret e) None); [|apply adds_hosts].
  split; cbn; [by destruct (t_namespace t)|by rewrite app_nil_r|by intros p c ?%elem_of_nil|done].
Qed.

Lemma ingress_step_adds proxy_type t i : exists t', adds i (paths_of i) t t' /\
  t_namespace (ingress_step proxy_type t i) = t_namespace t' /\ t_rules (ingress_step proxy_type t i) = t_rules t' ++ default_rules i /\
  (forall u, u ∈ t_unmapped t' -> u ∈ t_unmapped (ingress_step proxy_type t i)).
Proof.
  unfold ingress_step. set (t0 := {| t_rules := t_rules t; t_hostnames := _; t_tls := _; t_namespace := _; t_unmapped := _ |}).
  exists (foldl (rule_step i) (foldl (tls_step i) t0 (in_tls i)) (in_rules i)). split.
  - change (paths_of i) with ([] ++ ([] ++ paths_of i)). eapply adds_trans; [|eapply adds_trans].
    + instantiate (1 := t0). split; cbn; [by destruct (t_namespace t)|by rewrite app_nil_r|by intros p c ?%elem_of_nil|]. intros u Hu. apply elem_of_app. by left.
    + assert (E : ([] : list ing_path) = mjoin ((fun _ : ing_tls => []) <$> in_tls i)) by (induction (in_tls i); done).
      rewrite E. apply adds_fold. intros t' e. apply adds_tls.
    + assert (E : paths_of i = mjoin ((fun r => filter (fun p => real p = true) (ir_paths r)) <$> in_rules i)).
      { unfold paths_of. induction (in_rules i) as [|r l IH]; [done|]. change (mjoin (ir_paths <$> r :: l)) with (ir_paths r ++ mjoin (ir_paths <$> l)). by rewrite filter_app, IH. }
      rewrite E. apply adds_fold. intros t' r. apply adds_rule.
  - unfold default_step, default_rules. destruct (in_default i) as [[service port]|]; [|by rewrite app_nil_r].
    destruct (String.eqb service ""); [by rewrite app_nil_r|]. done.
Qed.

(** The namespace of the result: the caller's, else that of the first Ingress with a backend. *)
Definition first_namespace (igs : list ingress) : option string := head (omap (fun i => match paths_of i with [] => None | _ => Some (in_ns i) end) igs).
Definition namespace_of (target : option string) (igs : list ingress) : option string := match target with Some g => Some g | None => first_namespace igs end.

Lemma rules_of_nil g g' i : paths_of i = [] -> rules_of g i = rules_of g' i.
Proof. intros E. unfold rules_of. by rewrite E. Qed.

Lemma fold_adds pt igs : forall t, let t' := foldl (ingress_step pt) t igs in
  t_namespace t' = namespace_of (t_namespace t) igs /\
  t_rules t' = t_rules t ++ mjoin (rules_of (default "" (t_namespace t')) <$> igs) /\
  (forall u, u ∈ t_unmapped t -> u ∈ t_unmapped t') /\
  (forall i p c, i ∈ igs -> p ∈ paths_of i -> c ∈ losses (default "" (t_namespace t')) i p -> {| u_name := in_name i; u_ns := in_ns i; u_construct := c |} ∈ t_unmapped t').
Proof.
  induction igs as [|i igs IH]; intros t.
  - cbn. split; [by destruct (t_namespace t)|]. split; [by rewrite app_nil_r|]. split; [done|]. by intros i p c ?%elem_of_nil.
  - cbn [foldl]. destruct (IH (ingress_step pt t i)) as (N & R & K & L). destruct (ingress_step_adds pt t i) as (t1 & [A1 A2 A3 A4] & En & Er & Eu).
    cbv zeta in *. set (t' := foldl _ _ igs) in *. rewrite En, A1 in N.
    assert (P : paths_of i <> [] -> default "" (t_namespace t') = default (in_ns i) (t_namespace t)).
    { intros Hp. rewrite N. destruct (t_namespace t); [done|]. by destruct (paths_of i). }
    split; [|split; [|split]].
    + rewrite N. unfold namespace_of, first_namespace. destruct (t_namespace t); [done|]. cbn. by destruct (paths_of i).
    + rewrite R, Er, A2. change (mjoin (?f <$> i :: igs)) with (f i ++ mjoin (f <$> igs)). rewrite <- !app_assoc. f_equal. rewrite app_assoc. f_equal.
      unfold rules_of. f_equal. destruct (paths_of i) as [|p ps] eqn:Ep; [done|]. by rewrite P.
    + intros u Hu. by apply K, Eu, A4.
    + intros j p c [->|Hj]%elem_of_cons Hp Hc; [|by eapply L]. apply K, Eu, (A3 p c Hp). rewrite P in Hc; [done|]. intros E. rewrite E in Hp. by apply elem_of_nil in Hp.
Qed.

(** *** What a route serves, and what the Ingresses did *)

(** A kind of match, a path, and the service it goes to. *)
Definition target : Type := match_type * string * (string * string * Z).
Definition resolved (ns : string) (r : route_rule) : target := (rr_type r, rr_value r, (default ns (br_ns (rr_backend r)), br_name (rr_backend r), br_port (rr_backend r))).
(** What a path says, when it is one that HTTPRoutes can say. *)
Definition meant (i : ingress) (p : ing_path) : option target :=
  t ← _INGRESS_PATH_TYPE_MAP (type_of p); n ← (if port_missing (ip_port p) then None else ip_port p); Some (t, path_of p, (in_ns i, ip_service p, n)).

(** The translation, with the pieces of the result. *)
Definition translated (pt : string) (xs : list source_object) (name : string) (target : option string) : httproute := (_ingress_to_httproute pt xs name target).1.1.1.
Definition reported (pt : string) (xs : list source_object) (name : string) (target : option string) : list unmapped_entry := (_ingress_to_httproute pt xs name target).2.

Lemma translation_facts pt xs name target :
  let igs := _obj_to_dict <$> xs in
  let g := default "" (namespace_of target igs) in
  hr_ns (translated pt xs name target) = (if String.eqb g "" then "default" else g) /\
  hr_rules (translated pt xs name target) = (match mjoin (rules_of g <$> igs) with [] => [placeholder] | rs => rs end) /\
  (forall i p c, i ∈ igs -> p ∈ paths_of i -> c ∈ losses g i p -> {| u_name := in_name i; u_ns := in_ns i; u_construct := c |} ∈ reported pt xs name target) /\
  (mjoin (rules_of g <$> igs) = [] -> {| u_name := "(none)"; u_ns := "(none)"; u_construct := CNoRules |} ∈ reported pt xs name target).
Proof.
  cbv zeta. unfold translated, reported, _ingress_to_httproute. set (igs := _obj_to_dict <$> xs).
  destruct (fold_adds pt igs {| t_rules := []; t_hostnames := []; t_tls := []; t_namespace := target; t_unmapped := [] |}) as (N & R & K & L). cbv zeta in *.
  set (t := foldl _ _ _) in *. cbn [t_namespace t_rules app] in N, R. rewrite N in *. destruct (t_rules t) as [|r rs] eqn:E; cbn -[default String.eqb].
  - rewrite <- R. split; [|split; [done|split]].
    + destruct (namespace_of target igs) as [g|]; [|done]. cbn. by destruct (String.eqb g "").
    + intros i p c H1 H2 H3. apply elem_of_app. left. by eapply L.
    + intros _. apply elem_of_app. right. by left.
  - rewrite <- R. split; [|split; [done|split]].
    + destruct (namespace_of target igs) as [g|]; [|done]. cbn. by destruct (String.eqb g "").
    + intros i p c H1 H2 H3. apply elem_of_app. left. by eapply L.
    + done.
Qed.

Lemma rule_meant g i p x : in_ns i <> "" -> (g = "" -> in_ns i = g) -> meant i p = Some x -> resolved (if String.eqb g "" then "default" else g) (rule_of g i p) = x.
Proof.
  unfold meant, rule_of, resolved. intros Hns Hg. destruct (_INGRESS_PATH_TYPE_MAP (type_of p)) as [t|]; [|done].
  destruct (String.eqb_spec g "") as [->|Hg']; [by destruct Hns, Hg|]. cbn [mbind option_bind negb andb default rr_type rr_value rr_backend br_ns br_name br_port from_option].
  unfold port_missing, port_or. destruct (ip_port p) as [n|]; [|done]. destruct (n =? 0); [done|]. cbn [mbind option_bind]. intros [= <-].
  rewrite andb_true_r. destruct (String.eqb_spec (in_ns i) g) as [->|]; done.
Qed.

(** What is said of an object itself: its dict lacks the types of paths when it is a client
    object. *)
Definition conveyed (x : source_object) (p : ing_path) : Prop := match x with PlainDict _ => True | ClientObject _ => type_of p = "Prefix" end.

Lemma paths_of_dict x : paths_of (_obj_to_dict x) = match x with PlainDict i => paths_of i | ClientObject i => without_type <$> paths_of i end.
Proof.
  destruct x as [i|i]; [done|]. unfold paths_of. cbn [_obj_to_dict in_rules]. induction (in_rules i) as [|r l IH]; [done|].
  change (mjoin (ir_paths <$> r :: l)) with (ir_paths r ++ mjoin (ir_paths <$> l)). rewrite fmap_cons.
  change (mjoin (ir_paths <$> ?a :: ?b)) with (ir_paths a ++ mjoin (ir_paths <$> b)). cbn [ir_paths]. rewrite !filter_app, fmap_app, IH. f_equal.
  clear. induction (ir_paths r) as [|p l IH]; [done|]. rewrite fmap_cons, !filter_cons. change (real (without_type p)) with (real p). case_decide; [rewrite fmap_cons|]; by rewrite IH.
Qed.
Lemma conveyed_dict x p : p ∈ paths_of (obj_ingress x) -> conveyed x p ->
  exists q, q ∈ paths_of (_obj_to_dict x) /\ path_of q = path_of p /\ type_of q = type_of p /\ ip_service q = ip_service p /\ ip_port q = ip_port p /\ ip_port_name q = ip_port_name p.
Proof.
  intros Hp Hc. rewrite paths_of_dict. destruct x as [i|i]; [by exists p|]. exists (without_type p). split; [by apply list_elem_of_fmap_2|]. cbn in Hc. split_and!; try done.
Qed.

(** C23. Every path of an Ingress whose backend has a port, or the name of one, has a rule in the
    route, with its path, to its service in its namespace.  The kind of match is the one of the
    path, or it is a prefix and the kind is reported; the port is the one of the backend, or 80 and
    the name is reported; and a service outside the namespace of the route is reported. *)
Lemma paths_accounted_for pt xs name target x p :
  let i := obj_ingress x in
  let hr := translated pt xs name target in
  let said c := {| u_name := in_name i; u_ns := in_ns i; u_construct := c |} ∈ reported pt xs name target in
  x ∈ xs -> p ∈ paths_of i -> conveyed x p -> port_missing (ip_port p) = false \/ truthy_str (ip_port_name p) = true ->
  Forall (fun y => in_ns (obj_ingress y) <> "") xs -> target <> Some "" ->
  exists r, r ∈ hr_rules hr /\ rr_value r = path_of p /\ br_name (rr_backend r) = ip_service p /\ default (hr_ns hr) (br_ns (rr_backend r)) = in_ns i /\
    (_INGRESS_PATH_TYPE_MAP (type_of p) = Some (rr_type r) \/ rr_type r = PathPrefix /\ said (CPathType (type_of p) (path_of p))) /\
    (ip_port p = Some (br_port (rr_backend r)) \/ br_port (rr_backend r) = 80 /\ exists n, ip_port_name p = Some n /\ said (CPortByName n)) /\
    (in_ns i = hr_ns hr \/ said (CCrossNamespace (ip_service p) (in_ns i))).
Proof.
  intros i hr said Hx Hp Hc Hport Hns Ht. destruct (translation_facts pt xs name target) as (N & R & L & _). cbv zeta in *.
  set (igs := _obj_to_dict <$> xs) in *. set (g := default "" _) in *. set (d := _obj_to_dict x).
  assert (Hd : d ∈ igs) by (by apply list_elem_of_fmap_2). assert (En : in_name d = in_name i /\ in_ns d = in_ns i) by (by destruct x). destruct En as [En Es].
  destruct (conveyed_dict x p Hp Hc) as (q & Hq & Q1 & Q2 & Q3 & Q4 & Q5). fold d in Hq.
  assert (G : g <> "").
  { unfold g, namespace_of. destruct target as [t|]; [cbn; congruence|]. clear -Hd Hq Hns. unfold first_namespace. subst igs. induction Hns as [|y ys Hy Hns IH]; [by apply elem_of_nil in Hd|].
    rewrite fmap_cons in *. cbn [omap list_omap]. destruct (paths_of (_obj_to_dict y)) eqn:E; [|cbn; by destruct y].
    apply elem_of_cons in Hd as [Hd|Hd]; [rewrite Hd, E in Hq; by apply elem_of_nil in Hq|by apply IH]. }
  destruct (String.eqb_spec g "") as [|_]; [done|]. assert (Sd : forall c, c ∈ losses g d q -> said c) by (intros c Hl; unfold said; rewrite <- En, <- Es; by apply (L d q c Hd Hq)).
  exists (rule_of g d q). unfold rule_of, hr. cbn [rr_value rr_backend rr_type br_name br_port br_ns]. rewrite N, Es, Q1, Q2, Q3, Q4. unfold losses in Sd. rewrite Es, Q1, Q2, Q3, Q4, Q5 in Sd.
  split; [|split; [done|split; [done|split; [|split; [|split]]]]].
  - rewrite R. assert (X : rule_of g d q ∈ mjoin (rules_of g <$> igs)).
    { apply list_elem_of_join. exists (rules_of g d). split; [|by apply list_elem_of_fmap_2]. apply elem_of_app. left. by apply list_elem_of_fmap_2. }
    unfold rule_of in X. rewrite Es, Q1, Q2, Q3, Q4 in X. destruct (mjoin _); [by apply elem_of_nil in X|done].
  - destruct (String.eqb_spec (in_ns i) g) as [->|Hne]; cbn; [done|]. by destruct (String.eqb_spec g "").
  - destruct (_INGRESS_PATH_TYPE_MAP (type_of p)); [by left|]. right. split; [done|]. apply Sd. rewrite !elem_of_app. right. right. left.
  - unfold port_missing, port_or in *. destruct (ip_port p) as [n|]; [destruct (n =? 0) eqn:E0; [|by left]|];
      (destruct Hport as [|Hn]; [done|]; right; split; [done|]; destruct (ip_port_name p) as [m|]; [|done]; exists m; split; [done|]; apply Sd; rewrite Hn; cbn [andb]; rewrite !elem_of_app; right; left; left).
  - destruct (String.eqb_spec (in_ns i) g) as [->|Hne]; [by left|]. right. apply Sd. rewrite !elem_of_app. left. left.
Qed.

(** *** Hosts *)

Definition hosts_of (i : ingress) : list string := mjoin (it_hosts <$> in_tls i) ++ omap ir_host (in_rules i).
Definition add_hosts (hs l : list string) : list string := foldl (fun hs h => add_host h hs) hs l.

Lemma add_hosts_elem l : forall hs h, h ∈ add_hosts hs l <-> h ∈ hs \/ h ∈ l /\ h <> "".
Proof.
  induction l as [|x l IH]; intros hs h; cbn.
  - split; [auto|]. intros [|[?%elem_of_nil ?]]; done.
  - rewrite IH. unfold add_host. destruct (String.eqb_spec x "") as [->|Hx]; cbn.
    + rewrite elem_of_cons. naive_solver.
    + destruct (bool_decide (x ∈ hs)) eqn:B; [apply bool_decide_eq_true in B|]; rewrite ?elem_of_app, ?list_elem_of_singleton, elem_of_cons; naive_solver.
Qed.
Lemma add_hosts_nodup l : forall hs, NoDup hs -> NoDup (add_hosts hs l).
Proof.
  induction l as [|x l IH]; intros hs H; [done|]. cbn. apply IH. unfold add_host. destruct (String.eqb x ""); [done|]. cbn.
  case_bool_decide; [done|]. apply NoDup_app. split; [done|]. split; [|apply NoDup_singleton]. intros y Hy ->%list_elem_of_singleton. done.
Qed.
Lemma add_hosts_app hs l l' : add_hosts hs (l ++ l') = add_hosts (add_hosts hs l) l'.
Proof. apply foldl_app. Qed.

Lemma fold_hosts {A} (f : translating -> A -> translating) (hosts : A -> list string) : (forall t x, t_hostnames (f t x) = add_hosts (t_hostnames t) (hosts x)) ->
  forall l t, t_hostnames (foldl f t l) = add_hosts (t_hostnames t) (mjoin (hosts <$> l)).
Proof.
  intros H l. induction l as [|x l IH]; intros t; [done|]. change (mjoin (hosts <$> x :: l)) with (hosts x ++ mjoin (hosts <$> l)).
  cbn [foldl]. by rewrite IH, H, add_hosts_app.
Qed.
Lemma path_hosts i t p : t_hostnames (path_step i t p) = t_hostnames t.
Proof. unfold path_step. by destruct (String.eqb (ip_service p) ""). Qed.
Lemma rule_hosts i t r : t_hostnames (rule_step i t r) = add_hosts (t_hostnames t) (match ir_host r with Some h => [h] | None => [] end).
Proof.
  unfold rule_step. rewrite (fold_hosts (path_step i) (fun _ => [])) by (intros; apply path_hosts).
  assert (E : mjoin ((fun _ : ing_path => [] : list string) <$> ir_paths r) = []) by (induction (ir_paths r); done). rewrite E. by destruct (ir_host r).
Qed.
Lemma tls_hosts i t e : t_hostnames (tls_step i t e) = add_hosts (t_hostnames t) (it_hosts e).
Proof. unfold tls_step. by destruct (or_else (it_secret e) None). Qed.
Lemma ingress_hosts pt t i : t_hostnames (ingress_step pt t i) = add_hosts (t_hostnames t) (hosts_of i).
Proof.
  unfold ingress_step, hosts_of. assert (D : forall t, t_hostnames (default_step i t) = t_hostnames t).
  { intros u. unfold default_step. destruct (in_default i) as [[s n]|]; [|done]. by destruct (String.eqb s ""). }
  rewrite D, (fold_hosts _ _ (rule_hosts i)), (fold_hosts _ _ (tls_hosts i)), add_hosts_app. f_equal.
  induction (in_rules i) as [|r l IH]; [done|]. change (mjoin (?f <$> r :: l)) with (f r ++ mjoin (f <$> l)). rewrite IH. cbn. by destruct (ir_host r).
Qed.

Lemma hosts_of_dict x : hosts_of (_obj_to_dict x) = hosts_of (obj_ingress x).
Proof.
  destruct x as [i|i]; [done|]. unfold hosts_of. cbn [_obj_to_dict in_rules in_tls obj_ingress]. f_equal. induction (in_rules i) as [|r l IH]; [done|]. cbn. destruct (ir_host r); [f_equal|]; done.
Qed.
(** The hostnames of the route are those of all TLS entries and rules, each once. *)
Lemma hostnames_dicts pt xs name target :
  NoDup (hr_hostnames (translated pt xs name target)) /\
  forall h, h ∈ hr_hostnames (translated pt xs name target) <-> h <> "" /\ exists i, i ∈ _obj_to_dict <$> xs /\ h ∈ hosts_of i.
Proof.
  assert (E : hr_hostnames (translated pt xs name target) = add_hosts [] (mjoin (hosts_of <$> (_obj_to_dict <$> xs)))).
  { unfold translated, _ingress_to_httproute. set (t0 := {| t_rules := []; t_hostnames := []; t_tls := []; t_namespace := target; t_unmapped := [] |}).
    change (add_hosts [] ?l) with (add_hosts (t_hostnames t0) l). rewrite <- (fold_hosts _ _ (ingress_hosts pt)).
    by destruct (t_rules (foldl _ t0 _)). }
  rewrite E. split; [apply add_hosts_nodup, NoDup_nil_2|]. intros h. rewrite add_hosts_elem, list_elem_of_join.
  setoid_rewrite (list_elem_of_fmap hosts_of). split; [intros [?%elem_of_nil|[(l & Hl & i & -> & Hi) Hh]]; [done|]; eauto|].
  intros [Hh (i & Hi & Hl)]. right. split; [|done]. exists (hosts_of i). eauto.
Qed.
Lemma hostnames_exact pt xs name target :
  NoDup (hr_hostnames (translated pt xs name target)) /\
  forall h, h ∈ hr_hostnames (translated pt xs name target) <-> h <> "" /\ exists x, x ∈ xs /\ h ∈ hosts_of (obj_ingress x).
Proof.
  destruct (hostnames_dicts pt xs name target) as [H1 H2]. split; [done|]. intros h. rewrite H2. setoid_rewrite list_elem_of_fmap. split.
  - intros [Hh (i & (x & -> & Hx) & Hi)]. split; [done|]. exists x. by rewrite <- hosts_of_dict.
  - intros [Hh (x & Hx & Hi)]. split; [done|]. exists (_obj_to_dict x). rewrite hosts_of_dict. eauto.
Qed.

(** *** Requests *)

(** What serves requests for a host, in the order of the rules: a route whose hostnames name
    the host or which has none, and an Ingress's rules for the host or for all hosts.  Names
    with wildcards are left out. *)
Definition route_serves (hr : httproute) (host : string) : list target :=
  if bool_decide (hr_hostnames hr = []) || bool_decide (host ∈ hr_hostnames hr) then resolved (hr_ns hr) <$> hr_rules hr else [].
Definition rule_hosted (host : string) (r : ing_rule) : bool :=
  match ir_host r with Some h => String.eqb h "" || String.eqb h host | None => true end.
Definition rule_serves (i : ingress) (host : string) (r : ing_rule) : list target :=
  if rule_hosted host r then omap (meant i) (filter (fun p => real p = true) (ir_paths r)) else [].
Definition ingress_serves (host : string) (i : ingress) : list target := mjoin (rule_serves i host <$> in_rules i).

(** An Ingress whose rules and certificates are for one host, without a default backend,
    with paths that HTTPRoutes can say. *)
Record plain_for (h : string) (i : ingress) : Prop := {
  pf_ns : in_ns i <> "";
  pf_default : in_default i = None;
  pf_tls : Forall (fun e => Forall (fun x => x = h) (it_hosts e)) (in_tls i);
  pf_rules : Forall (fun r => ir_host r = Some h) (in_rules i);
  pf_paths : Forall (fun p => is_Some (meant i p)) (paths_of i)
}.

Lemma plain_hosts h i x : plain_for h i -> x ∈ hosts_of i -> x = h.
Proof.
  intros [_ _ T R _] [(l & Hx & (e & -> & He)%list_elem_of_fmap)%list_elem_of_join|(r & Hr & E)%list_elem_of_omap]%elem_of_app.
  - rewrite Forall_forall in T. specialize (T _ He). rewrite Forall_forall in T. auto.
  - rewrite Forall_forall in R. rewrite (R _ Hr) in E. congruence.
Qed.

Lemma omap_app' {A B} (f : A -> option B) l l' : omap f (l ++ l') = omap f l ++ omap f l'.
Proof. induction l as [|x l IH]; [done|]. cbn. destruct (f x); [|done]. cbn. by rewrite IH. Qed.

Lemma ingress_serves_plain h i host : plain_for h i -> h <> "" -> ingress_serves host i = if String.eqb h host then omap (meant i) (paths_of i) else [].
Proof.
  intros [_ _ _ R _] Hh. unfold ingress_serves, paths_of. induction R as [|r l Hr R IH]; [by destruct (String.eqb h host)|].
  change (mjoin (?f <$> r :: l)) with (f r ++ mjoin (f <$> l)). rewrite IH. unfold rule_serves at 1, rule_hosted. rewrite Hr.
  destruct (String.eqb_spec h "") as [|_]; [done|]. cbn [orb]. destruct (String.eqb h host); [|done]. by rewrite filter_app, omap_app'.
Qed.

Lemma rules_meant g i : in_ns i <> "" -> in_default i = None -> (paths_of i <> [] -> g = "" -> in_ns i = g) -> Forall (fun p => is_Some (meant i p)) (paths_of i) ->
  resolved (if String.eqb g "" then "default" else g) <$> rules_of g i = omap (meant i) (paths_of i).
Proof.
  intros Hns Hd Hg H. unfold rules_of, default_rules. rewrite Hd, app_nil_r. rewrite <- list_fmap_compose.
  destruct (paths_of i) as [|q l] eqn:E; [done|]. clear E. specialize (Hg ltac:(done)). induction H as [|p l' [x Hx] H IH]; [done|].
  cbn -[resolved String.eqb rule_of meant]. rewrite Hx, IH. f_equal. by apply rule_meant.
Qed.

Lemma dicts_preserved pt xs name target h host :
  h <> "" -> Forall (plain_for h) (_obj_to_dict <$> xs) -> target <> Some "" -> mjoin (paths_of <$> (_obj_to_dict <$> xs)) <> [] ->
  route_serves (translated pt xs name target) host = mjoin (ingress_serves host <$> (_obj_to_dict <$> xs)).
Proof.
  intros Hh P Ht Hp. destruct (translation_facts pt xs name target) as (N & R & _). cbv zeta in *. set (igs := _obj_to_dict <$> xs) in *. set (g := default "" _) in *.
  assert (M : resolved (hr_ns (translated pt xs name target)) <$> mjoin (rules_of g <$> igs) = mjoin ((fun i => omap (meant i) (paths_of i)) <$> igs)).
  { rewrite N. assert (G : forall i, i ∈ igs -> paths_of i <> [] -> g = "" -> in_ns i = g).
    { intros i Hi Hpi Eg. exfalso. unfold g, namespace_of in Eg. destruct target as [x|]; [cbn in Eg; by subst|]. clear -Eg Hi Hpi P.
      unfold first_namespace in Eg. induction P as [|j l Hj P IH]; [by apply elem_of_nil in Hi|]. cbn in Eg. destruct (paths_of j) eqn:Ej; [|by apply (pf_ns _ _ Hj)].
      apply elem_of_cons in Hi as [->|Hi]; [done|]. by apply IH. }
    clear -P G. clearbody g. induction P as [|i l [Pn Pd _ _ Pp] P IH]; [done|]. change (mjoin (?f <$> i :: l)) with (f i ++ mjoin (f <$> l)).
    rewrite fmap_app, IH by (intros j Hj; apply G; by right). f_equal. apply rules_meant; [done|done| |done]. apply G. left. }
  assert (NE : mjoin (rules_of g <$> igs) <> []).
  { intros E. apply Hp. clear -E. clearbody g. induction igs as [|i l IH]; [done|]. change (mjoin (?f <$> i :: l)) with (f i ++ mjoin (f <$> l)) in *. apply app_eq_nil in E as [E1 E2].
    rewrite (IH E2), app_nil_r. unfold rules_of in E1. apply app_eq_nil in E1 as [E1 _]. by apply fmap_nil_inv in E1. }
  assert (RR : hr_rules (translated pt xs name target) = mjoin (rules_of g <$> igs)) by (rewrite R; by destruct (mjoin (rules_of g <$> igs))).
  destruct (hostnames_dicts pt xs name target) as [_ HH]. fold igs in HH. unfold route_serves. rewrite RR, M.
  assert (Hin : h ∈ hr_hostnames (translated pt xs name target)).
  { apply HH. split; [done|]. destruct (mjoin (paths_of <$> igs)) as [|p l] eqn:E; [done|].
    assert (X : p ∈ mjoin (paths_of <$> igs)) by (rewrite E; left). apply list_elem_of_join in X as (ps & Hps & (i & -> & Hi)%list_elem_of_fmap). exists i. split; [done|].
    apply elem_of_app. right. unfold paths_of in Hps. apply list_elem_of_filter in Hps as [_ (rs & Hrs & (r & -> & Hr)%list_elem_of_fmap)%list_elem_of_join].
    apply list_elem_of_omap. exists r. split; [done|]. rewrite Forall_forall in P. destruct (P i Hi) as [_ _ _ Pr _]. rewrite Forall_forall in Pr. auto. }
  rewrite bool_decide_eq_false_2 by (intros E; rewrite E in Hin; by apply elem_of_nil in Hin). cbn [orb].
  assert (B : bool_decide (host ∈ hr_hostnames (translated pt xs name target)) = String.eqb h host).
  { destruct (String.eqb_spec h host) as [<-|Hne]; [by apply bool_decide_eq_true_2|]. apply bool_decide_eq_false_2. intros [_ (i & Hi & Hx)]%HH.
    rewrite Forall_forall in P. by rewrite (plain_hosts h i host) in Hne by auto. }
  rewrite B. clear -P Hh. induction P as [|i l Hi P IH]; [by destruct (String.eqb h host)|]. change (mjoin (?f <$> i :: l)) with (f i ++ mjoin (f <$> l)).
  rewrite <- IH, (ingress_serves_plain h i host Hi Hh). by destruct (String.eqb h host).
Qed.


(** A dict says what the object does, where it has the types of its paths. *)
Lemma meant_without i i' p : in_ns i' = in_ns i -> type_of p = "Prefix" -> meant i' (without_type p) = meant i p.
Proof. intros E T. unfold meant. rewrite E, T. done. Qed.
Lemma conveyed_plain h x : plain_for h (obj_ingress x) -> Forall (conveyed x) (paths_of (obj_ingress x)) -> plain_for h (_obj_to_dict x).
Proof.
  destruct x as [i|i]; [done|]. cbn [obj_ingress]. intros [P1 P2 P3 P4 P5] C. split; [done|done|done| |].
  - cbn [_obj_to_dict in_rules]. rewrite Forall_fmap. eapply Forall_impl; [exact P4|]. done.
  - rewrite (paths_of_dict (ClientObject i)). rewrite Forall_fmap. rewrite Forall_forall in P5, C |- *. intros p Hp. unfold compose. rewrite (meant_without i); [by apply P5|done|by apply C].
Qed.
Lemma conveyed_serves host x : Forall (conveyed x) (paths_of (obj_ingress x)) -> ingress_serves host (_obj_to_dict x) = ingress_serves host (obj_ingress x).
Proof.
  destruct x as [i|i]; [done|]. cbn [obj_ingress conveyed]. intros C. unfold ingress_serves. cbn [_obj_to_dict in_rules]. unfold paths_of in C.
  set (i' := {| in_name := in_name i; in_ns := _; in_annotations := _; in_tls := _; in_rules := _; in_default := _ |}). assert (E : in_ns i' = in_ns i) by done. clearbody i'. rewrite <- list_fmap_compose.
  induction (in_rules i) as [|r l IH]; [done|]. change (mjoin (ir_paths <$> r :: l)) with (ir_paths r ++ mjoin (ir_paths <$> l)) in C. rewrite filter_app, Forall_app in C. destruct C as [C C'].
  change (mjoin (?f <$> r :: l)) with (f r ++ mjoin (f <$> l)). rewrite IH by done. f_equal. unfold compose, rule_serves, rule_hosted. cbn [ir_host ir_paths].
  destruct (match ir_host r with Some h => _ | None => true end); [|done]. revert C. clear -E. induction (ir_paths r) as [|p l IH]; [done|].
  rewrite fmap_cons, !filter_cons. change (real (without_type p)) with (real p). case_decide; [|done]. intros [T C]%Forall_cons.
  change (omap ?f (?a :: ?l)) with (match f a with Some y => y :: omap f l | None => omap f l end). rewrite (meant_without i i' p) by done. by rewrite IH.
Qed.

(** C22. Ingresses of one host keep all they do: the route serves the same requests with the
    same services, in the same order, and nothing else.  Of Ingresses that are client objects
    the paths have to be of type Prefix, for their dicts do not tell the type. *)
Lemma one_host_preserved pt xs name target h host :
  h <> "" -> Forall (fun x => plain_for h (obj_ingress x) /\ Forall (conveyed x) (paths_of (obj_ingress x))) xs -> target <> Some "" ->
  mjoin (paths_of <$> (obj_ingress <$> xs)) <> [] ->
  route_serves (translated pt xs name target) host = mjoin (ingress_serves host <$> (obj_ingress <$> xs)).
Proof.
  intros Hh P Ht Hp. rewrite (dicts_preserved pt xs name target h host Hh); [| |done|].
  - f_equal. rewrite <- !list_fmap_compose. apply list_fmap_ext. intros k x Hx. rewrite Forall_forall in P. apply conveyed_serves, P. by eapply list_elem_of_lookup_2.
  - rewrite Forall_fmap. eapply Forall_impl; [exact P|]. intros x [Px C]. by apply conveyed_plain.
  - intros E. apply Hp. clear -E. induction xs as [|x xs IH]; [done|]. rewrite !fmap_cons in *. change (mjoin (?a :: ?b)) with (a ++ mjoin b) in *. apply app_eq_nil in E as [E1 E2].
    rewrite (IH E2), app_nil_r. rewrite paths_of_dict in E1. destruct x; [done|]. by apply fmap_nil_inv in E1.
Qed.

(** *** Listeners *)

Lemma unique_listeners_sound seen ls : forall l, l ∈ unique_listeners seen ls -> l ∈ ls /\ listener_key l ∉ seen.
Proof.
  revert seen. induction ls as [|x ls IH]; intros seen l; cbn; [by intros ?%elem_of_nil|]. case_bool_decide as B.
  - intros [? ?]%IH. split; [by right|done].
  - intros [->|[? Hn]%IH]%elem_of_cons; [split; [left|done]|]. split; [by right|]. intros Hs. apply Hn. by right.
Qed.
Lemma unique_listeners_nodup ls : forall seen, NoDup (listener_key <$> unique_listeners seen ls).
Proof.
  induction ls as [|x ls IH]; intros seen; cbn; [constructor|]. case_bool_decide; [done|]. cbn. constructor; [|done].
  intros (l & E & [_ Hn]%unique_listeners_sound)%list_elem_of_fmap. apply Hn. rewrite <- E. left.
Qed.
Lemma unique_listeners_complete ls : forall seen l, l ∈ ls -> listener_key l ∉ seen -> exists l', l' ∈ unique_listeners seen ls /\ listener_key l' = listener_key l.
Proof.
  induction ls as [|x ls IH]; intros seen l; [by intros ?%elem_of_nil|]. intros [->|Hl]%elem_of_cons Hs; cbn; case_bool_decide as B; try done.
  - exists x. split; [left|done].
  - by apply IH.
  - destruct (decide (listener_key l = listener_key x)) as [->|Hne]; [exists x; split; [left|done]|].
    destruct (IH (listener_key x :: seen) l Hl) as (l' & Hl' & E); [|exists l'; split; [by right|done]]. intros [?|?]%elem_of_cons; done.
Qed.
(** A gateway listens once under each key of the listeners it should have, and to HTTP. *)
Lemma listeners_unique ls : let r := _build_listeners ls in
  head r = Some _default_listener /\ NoDup (listener_key <$> tail r) /\ (forall l, l ∈ tail r -> l ∈ ls) /\ (forall l, l ∈ ls -> listener_key l ∈ listener_key <$> tail r).
Proof.
  cbn. split; [done|]. split; [apply unique_listeners_nodup|]. split; [by intros l [? _]%unique_listeners_sound|].
  intros l Hl. destruct (unique_listeners_complete ls [] l Hl) as (l' & H & E); [by intros ?%elem_of_nil|]. rewrite <- E. by apply list_elem_of_fmap_2.
Qed.

(** ** Laws of the passthrough *)

Definition ref_of (b : source_ref) : backend_ref := {| br_name := sr_name b; br_port := sr_port b; br_ns := sr_ns b |}.
Definition noted (r : source_route) (c : construct) : unmapped_entry := {| u_name := so_name r; u_ns := so_ns r; u_construct := c |}.

Lemma pass_rule_keeps r rule : let '(pr, said) := pass_rule r rule in
  pr_matches pr = (if truthy (so_matches rule) then Some (so_matches rule) else None) /\
  (forall b, b ∈ so_backends rule -> if foreign_group b then noted r (CExtensionRef (sr_name b)) ∈ said else ref_of b ∈ default [] (pr_backends pr)) /\
  (forall f, f ∈ so_filters rule -> if bool_decide (f.1 ∈ standard_filters) then f ∈ default [] (pr_filters pr) else noted r (CFilter f.1) ∈ said) /\
  (pr_backends pr = Some [rr_backend placeholder] \/ forall b, b ∈ default [] (pr_backends pr) -> exists s, s ∈ so_backends rule /\ b = ref_of s).
Proof.
  unfold pass_rule. set (kept := _ <$> filter (fun b => foreign_group b = false) _). cbn [pr_matches pr_backends pr_filters]. split; [done|].
  assert (K : forall b, b ∈ kept <-> exists s, b = ref_of s /\ foreign_group s = false /\ s ∈ so_backends rule).
  { intros b. unfold kept. rewrite list_elem_of_fmap. setoid_rewrite list_elem_of_filter. done. }
  split; [|split].
  - intros b Hb. destruct (foreign_group b) eqn:E.
    + apply elem_of_app. left. apply list_elem_of_fmap. exists b. split; [done|]. by apply list_elem_of_filter.
    + assert (X : ref_of b ∈ kept) by (apply K; eauto). destruct kept; [by apply elem_of_nil in X|done].
  - intros f Hf. case_bool_decide as B.
    + assert (X : f ∈ filter (fun f : string * json => f.1 ∈ standard_filters) (so_filters rule)) by (by apply list_elem_of_filter).
      destruct (filter (fun f : string * json => f.1 ∈ standard_filters) (so_filters rule)); [by apply elem_of_nil in X|done].
    + rewrite !elem_of_app. right. right. apply list_elem_of_fmap. exists f. split; [done|]. by apply list_elem_of_filter.
  - destruct kept as [|k ks] eqn:E; [destruct (so_backends rule); [right; by intros b ?%elem_of_nil|by left]|].
    right. cbn. intros b Hb. apply K in Hb as (s & -> & _ & Hs). eauto.
Qed.

(** Every rule of every source route becomes one rule with the same matches; a backend or a
    filter that is left out is reported, and no other backend comes in. *)
Lemma passthrough_keeps routes gateways target r rule : r ∈ routes -> rule ∈ so_rules r ->
  let '(_, rules, _, _, said) := _httproute_passthrough routes gateways target in
  exists pr, pr ∈ rules /\ pr_matches pr = (if truthy (so_matches rule) then Some (so_matches rule) else None) /\
    (forall b, b ∈ so_backends rule -> if foreign_group b then noted r (CExtensionRef (sr_name b)) ∈ said else ref_of b ∈ default [] (pr_backends pr)) /\
    (forall f, f ∈ so_filters rule -> if bool_decide (f.1 ∈ standard_filters) then f ∈ default [] (pr_filters pr) else noted r (CFilter f.1) ∈ said) /\
    (pr_backends pr = Some [rr_backend placeholder] \/ forall b, b ∈ default [] (pr_backends pr) -> exists s, s ∈ so_backends rule /\ b = ref_of s).
Proof.
  intros Hr Hrule. unfold _httproute_passthrough. destruct routes as [|first routes]; [by apply elem_of_nil in Hr|].
  set (results := mjoin _). pose proof (pass_rule_keeps r rule) as H. destruct (pass_rule r rule) as [pr said] eqn:E. destruct H as (H1 & H2 & H3 & H4).
  assert (X : (pr, said) ∈ results).
  { unfold results. apply list_elem_of_join. exists (pass_rule r <$> so_rules r). split; [rewrite <- E; by apply list_elem_of_fmap_2|].
    apply list_elem_of_fmap. by exists r. }
  assert (Y : forall u, u ∈ said -> u ∈ mjoin results.*2).
  { intros u Hu. apply list_elem_of_join. exists said. split; [done|]. apply list_elem_of_fmap. by exists (pr, said). }
  assert (Z : pr ∈ results.*1) by (apply list_elem_of_fmap; by exists (pr, said)). cbv beta iota zeta.
  exists pr. split; [by destruct (results.*1); [apply elem_of_nil in Z|]|]. split; [done|]. split; [|split; [|done]].
  - intros b Hb. specialize (H2 b Hb). destruct (foreign_group b); auto.
  - intros f Hf. specialize (H3 f Hf). case_bool_decide; auto.
Qed.

(** ** Examples *)

Module Example.

Definition path (p t service : string) : ing_path := {| ip_path := Some p; ip_type := Some t; ip_service := service; ip_port := Some 8080; ip_port_name := None |}.
Definition site (name ns host : string) (ps : list ing_path) : ingress :=
  {| in_name := name; in_ns := ns; in_annotations := []; in_tls := []; in_rules := [{| ir_host := Some host; ir_paths := ps |}]; in_default := None |}.
Definition shop : ingress := site "shop" "web" "shop.example.com" [path "/cart" "Prefix" "cart"; path "/" "Prefix" "front"].
Definition blog : ingress := site "blog" "web" "blog.example.com" [path "/admin" "Exact" "editor"].

Lemma one_host_preserved_witness : route_serves (translated "nginx" [PlainDict shop; ClientObject shop] "gw" None) "shop.example.com" =
  [(PathPrefix, "/cart", ("web", "cart", 8080)); (PathPrefix, "/", ("web", "front", 8080));
   (PathPrefix, "/cart", ("web", "cart", 8080)); (PathPrefix, "/", ("web", "front", 8080))].
Proof.
  transitivity (mjoin (ingress_serves "shop.example.com" <$> (obj_ingress <$> [PlainDict shop; ClientObject shop]))); [|vm_compute; reflexivity].
  assert (P : plain_for "shop.example.com" shop).
  { split; [discriminate|reflexivity|constructor|constructor; [reflexivity|constructor]|]. vm_compute. repeat constructor; eexists; reflexivity. }
  apply (one_host_preserved "nginx" [PlainDict shop; ClientObject shop] "gw" None "shop.example.com" "shop.example.com"); [discriminate| |discriminate|discriminate].
  constructor; [split; [exact P|vm_compute; repeat constructor]|]. constructor; [split; [exact P|vm_compute; repeat constructor]|constructor].
Defined.

(** With two hosts every host gets the paths of the other, and nothing is reported. *)
Example hosts_crossed :
  route_serves (translated "nginx" [PlainDict shop; PlainDict blog] "gw" None) "shop.example.com" = mjoin (ingress_serves "shop.example.com" <$> [shop; blog]) ++ [(Exact, "/admin", ("web", "editor", 8080))] /\
  reported "nginx" [PlainDict shop; PlainDict blog] "gw" None = [].
Proof. vm_compute. done. Qed.

(** A rule for all hosts serves those that are named only. *)
Definition any_host : ingress := {| in_name := "any"; in_ns := "web"; in_annotations := []; in_tls := []; in_rules := [{| ir_host := None; ir_paths := [path "/" "Prefix" "front"] |}]; in_default := None |}.
Example other_hosts_lost : ingress_serves "other.example.com" any_host = [(PathPrefix, "/", ("web", "front", 8080))] /\
  route_serves (translated "nginx" [PlainDict blog; PlainDict any_host] "gw" None) "other.example.com" = [] /\ reported "nginx" [PlainDict blog; PlainDict any_host] "gw" None = [].
Proof. vm_compute. done. Qed.

(** Live objects lose the type of their paths and their default backend, and nothing is
    reported. *)
Definition with_default (i : ingress) : ingress :=
  {| in_name := in_name i; in_ns := in_ns i; in_annotations := in_annotations i; in_tls := in_tls i; in_rules := in_rules i; in_default := Some ("fallback", Some 80) |}.
Example live_objects_lose :
  let '(hr, _, _, said) := translate_ingresses "nginx" [with_default blog] "gw" None in
  (resolved (hr_ns hr) <$> hr_rules hr) = [(PathPrefix, "/admin", ("web", "editor", 8080))] /\ said = [] /\
  (resolved "web" <$> hr_rules (translated "nginx" [PlainDict (with_default blog)] "gw" None)) = [(Exact, "/admin", ("web", "editor", 8080)); (PathPrefix, "/", ("web", "fallback", 80))].
Proof. vm_compute. done. Qed.

(** A default backend of another namespace is looked for in that of the route. *)
Example default_backend_misplaced :
  (resolved "web" <$> hr_rules (translated "nginx" [PlainDict shop; PlainDict (with_default (site "docs" "docs" "docs.example.com" []))] "gw" None)) =
    [(PathPrefix, "/cart", ("web", "cart", 8080)); (PathPrefix, "/", ("web", "front", 8080)); (PathPrefix, "/", ("web", "fallback", 80))] /\
  reported "nginx" [PlainDict shop; PlainDict (with_default (site "docs" "docs" "docs.example.com" []))] "gw" None = [].
Proof. vm_compute. done. Qed.

(** Secrets whose names agree in 20 characters share a listener: the second is dropped. *)
Definition secret (name host : string) : ing_tls := {| it_secret := Some name; it_hosts := [host] |}.
Definition two_certificates : ingress :=
  {| in_name := "shop"; in_ns := "web"; in_annotations := [];
     in_tls := [secret "wildcard-example-com-2024" "a.example.com"; secret "wildcard-example-com-2025" "b.example.com"]; in_rules := []; in_default := Some ("front", None) |}.
Example certificate_dropped : (l_secret <$> (_ingress_to_httproute "nginx" [PlainDict two_certificates] "gw" None).1.1.2) = [None; Some ("wildcard-example-com-2024", "web")].
Proof. vm_compute. done. Qed.

Definition from_ns (ns service : string) : source_route :=
  {| so_name := service; so_ns := ns; so_hostnames := []; so_rules := [{| so_matches := JNull; so_backends := [{| sr_name := service; sr_port := 80; sr_ns := None; sr_group := None |}]; so_filters := [] |}] |}.
(** The backend of a route of another namespace is looked for in that of the first. *)
Example backends_move :
  let '(_, rules, _, ns, said) := _httproute_passthrough [from_ns "a" "one"; from_ns "b" "two"] [] None in
  ns = Some "a" /\ (default [] ∘ pr_backends <$> rules) = [[{| br_name := "one"; br_port := 80; br_ns := None |}]; [{| br_name := "two"; br_port := 80; br_ns := None |}]] /\ said = [].
Proof. vm_compute. done. Qed.

(** A route of a gateway of another class is taken for one of the class when the gateways
    have the same name. *)
Example gateways_by_name :
  tr_route (translate_proxy_to_bnk [] [{| lg_name := "public"; lg_class := "envoy"; lg_listeners := [] |}; {| lg_name := "public"; lg_class := "internal"; lg_listeners := [] |}]
    [{| lr_parents := ["public"]; lr_route := from_ns "a" "one" |}; {| lr_parents := ["public"]; lr_route := from_ns "secret" "two" |}] "envoy" "envoy" "GatewayClass" BNK_GATEWAY_CLASS_NAME None None) =
  FromRoutes [] (fst <$> mjoin ((fun r => pass_rule r <$> so_rules r) <$> [from_ns "a" "one"; from_ns "secret" "two"])).
Proof. vm_compute. done. Qed.

(** An Ingress of another namespace, with a port by name and a kind of path of its own:
    three reports, and a rule all the same. *)
Definition odd_path : ing_path := {| ip_path := Some "/odd"; ip_type := Some "ImplementationSpecific"; ip_service := "odd"; ip_port := None; ip_port_name := Some "http" |}.
Definition odd : ingress := site "odd" "other" "shop.example.com" [odd_path].
Lemma paths_accounted_for_witness :
  let hr := translated "nginx" [PlainDict shop; PlainDict odd] "gw" None in
  let said c := {| u_name := "odd"; u_ns := "other"; u_construct := c |} ∈ reported "nginx" [PlainDict shop; PlainDict odd] "gw" None in
  (exists r, r ∈ hr_rules hr /\ rr_value r = "/odd" /\ br_name (rr_backend r) = "odd" /\ br_ns (rr_backend r) = Some "other") /\
  said (CPathType "ImplementationSpecific" "/odd") /\ said (CPortByName "http") /\ said (CCrossNamespace "odd" "other").
Proof.
  destruct (paths_accounted_for "nginx" [PlainDict shop; PlainDict odd] "gw" None (PlainDict odd) odd_path) as (r & H1 & H2 & H3 & H4 & H5 & H6 & H7).
  - right. left.
  - left.
  - exact I.
  - right. reflexivity.
  - repeat constructor; discriminate.
  - discriminate.
  - split; [exists r; split; [exact H1|split; [exact H2|split; [exact H3|]]]|].
    + destruct (br_ns (rr_backend r)); [f_equal; exact H4|discriminate H4].
    + split; [destruct H5 as [H5|[_ H5]]; [discriminate H5|exact H5]|].
      split; [destruct H6 as [H6|(_ & n & [= <-] & H6)]; [discriminate H6|exact H6]|].
      destruct H7 as [H7|H7]; [discriminate H7|exact H7].
Defined.

Lemma passthrough_keeps_witness : exists pr, pr ∈ (_httproute_passthrough [from_ns "a" "one"] [] None).1.1.1.2 /\ ref_of {| sr_name := "one"; sr_port := 80; sr_ns := None; sr_group := None |} ∈ default [] (pr_backends pr).
Proof.
  pose proof (passthrough_keeps [from_ns "a" "one"] [] None (from_ns "a" "one") {| so_matches := JNull; so_backends := [{| sr_name := "one"; sr_port := 80; sr_ns := None; sr_group := None |}]; so_filters := [] |}
    ltac:(left) ltac:(left)) as H.
  destruct (_httproute_passthrough [from_ns "a" "one"] [] None) as [[[[hs rules] ls] ns] said]. destruct H as (pr & H1 & _ & H2 & _).
  exists pr. split; [exact H1|]. exact (H2 _ ltac:(left)).
Defined.
End Example.
