(* ===== verification/InputChecks.v ===== *)
(** * Checks of the values given to modules (VariableValidator of
      services/variable_parser.py, services/project_module_service.py,
      [validate_action_inputs] of utils/security.py)

    Values are JSON without numbers that are not integers.  Errors are kept as data, and so
    is what an effective number that is not an integer was given as. *)

From Stdlib Require Import Ascii.
From S2P Require Import Prelude Texts PyText.

#[local] Open Scope string_scope.
#[local] Open Scope list_scope.
#[local] Open Scope Z_scope.
#[local] Set Default Proof Using "Type".

(** ** Python values *)

Definition is_digit (c : ascii) : bool := match digit c with Some _ => true | None => false end.
(** The digits from here on, with single underscores between them. *)
Fixpoint skip_digits (s : string) : string :=
  match s with
  | String c s' =>
      if is_digit c then skip_digits s'
      else if Ascii.eqb c "_"%char then
        match s' with String c' s'' => if is_digit c' then skip_digits s'' else s | EmptyString => s end
      else s
  | EmptyString => EmptyString
  end.
Definition digitpart (s : string) : option string :=
  match s with String c s' => if is_digit c then Some (skip_digits s') else None | EmptyString => None end.
Definition unsign (s : string) : string := match s with String c s' => if Ascii.eqb c "-"%char || Ascii.eqb c "+"%char then s' else s | EmptyString => s end.
Definition exponent (s : string) : bool :=
  match s with
  | EmptyString => true
  | String c s' => (Ascii.eqb c "e"%char || Ascii.eqb c "E"%char) && match digitpart (unsign s') with Some r => String.eqb r "" | None => false end
  end.
Definition unsigned_float (s : string) : bool :=
  if bool_decide (lower s ∈ ["inf"; "infinity"; "nan"]) then true
  else match digitpart s with
       | Some (String "." r) => exponent (default r (digitpart r))
       | Some r => exponent r
       | None => match s with String "." r => match digitpart r with Some r' => exponent r' | None => false end | _ => false end
       end.
(** Whether [float(s)] returns. *)
Definition float_ok (s : string) : bool := unsigned_float (unsign (strip s)).

(** [a == b]: a truth value is the number it stands for. *)
Fixpoint py_eq (a b : json) {struct a} : bool :=
  match a, b with
  | JNull, JNull => true
  | JBool x, JBool y => Bool.eqb x y
  | JBool x, JInt z => Z.b2z x =? z
  | JInt z, JBool x => Z.b2z x =? z
  | JInt x, JInt y => x =? y
  | JStr x, JStr y => String.eqb x y
  | JList l, JList l' =>
      (fix go (l l' : list json) : bool :=
         match l, l' with [], [] => true | x :: l, y :: l' => py_eq x y && go l l' | _, _ => false end) l l'
  | JObj f, JObj g =>
      (length f =? length g)%nat &&
      (fix go (f : list (string * json)) : bool :=
         match f with [] => true | (k, x) :: f => match dget k g with Some y => py_eq x y | None => false end && go f end) f
  | _, _ => false
  end.
Definition py_in (x : json) (l : list json) : bool := existsb (py_eq x) l.

(** [isinstance(value, (int, float))]: a [bool] is one. *)
Definition is_number (j : json) : bool := match j with JInt _ | JBool _ => true | _ => false end.

(** ** [VariableValidator] *)

Record schema := { v_name : string; v_type : string; v_required : bool; v_source : string }.

Inductive complaint := Missing (name : string) | Required (name : string) | WrongType (name type_ : string).

Definition blank (j : json) : bool := match j with JNull => true | JStr s => String.eqb s "" | _ => false end.
Definition typed (t : string) (j : json) : bool :=
  if String.eqb t "string" then match j with JStr _ => true | _ => false end
  else if String.eqb t "number" then is_number j || match j with JStr s => float_ok s | _ => false end
  else if String.eqb t "bool" then match j with JBool _ => true | _ => bool_decide (lower (py_str j) ∈ ["true"; "false"; "0"; "1"]) end
  else if String.eqb t "list" then match j with JList _ => true | _ => false end
  else if String.eqb t "map" || String.eqb t "object" then match j with JObj _ => true | _ => false end
  else true.
Definition validate_variable_value (value : json) (v : schema) : option complaint :=
  if blank value then if v_required v then Some (Required (v_name v)) else None
  else if typed (v_type v) value then None else Some (WrongType (v_name v) (v_type v)).

(** The errors; the variables are valid when there are none. *)
Definition validate_variables (values : list (string * json)) (vs : list schema) : list complaint :=
  let schema_map := dict_of ((fun v => (v_name v, v)) <$> vs) in
  omap (fun v => if v_required v && bool_decide (v_name v ∉ values.*1) then Some (Missing (v_name v)) else None) vs ++
  omap (fun kv => v ← dget kv.1 schema_map; validate_variable_value kv.2 v) values.

(** [inputs_metadata]: the inputs of its two groups. *)
Record inputs_meta := { in_required : list schema; in_optional : list schema }.

Definition user_typed (t : string) (j : json) : bool :=
  let is_str := match j with JStr _ => true | _ => false end in
  let is_bool := match j with JBool _ => true | _ => false end in
  let is_list := match j with JList _ => true | _ => false end in
  let is_dict := match j with JObj _ => true | _ => false end in
  if String.eqb t "string" && negb is_str then false
  else if bool_decide (t ∈ ["number"; "int"; "integer"]) && negb (is_number j) then false
  else if bool_decide (t ∈ ["bool"; "boolean"]) && negb is_bool then bool_decide (lower (strip (py_str j)) ∈ ["true"; "false"; "0"; "1"])
  else if contains "list" t && negb is_list then false
  else if contains "map" t || contains "object" t then is_dict
  else true.
Definition validate_user_variables (values : list (string * json)) (m : inputs_meta) : list complaint :=
  let inputs_map := dict_of ((fun v => (v_name v, v)) <$> in_required m ++ in_optional m) in
  omap (fun v => if bool_decide (v_source v ∈ ["module"; "project"]) then None
                 else if bool_decide (v_name v ∉ values.*1) then Some (Missing (v_name v)) else None) (in_required m) ++
  omap (fun kv => v ← dget kv.1 inputs_map; if user_typed (v_type v) kv.2 then None else Some (WrongType (v_name v) (v_type v))) values.

(** What the catalog says of a module's inputs; empty metadata is no metadata. *)
Record declared_inputs := { d_meta : option inputs_meta; d_schema : list schema }.

Definition without (skip : list string) (values : list (string * json)) : list (string * json) := filter (fun kv => kv.1 ∉ skip) values.
Definition kept_inputs (skip : list string) (vs : list schema) : list schema := filter (fun v => v_name v ∉ skip) vs.
(** [_validate_module_variables]: the errors, which are raised when there are any, or the
    warnings. *)
Definition _validate_module_variables (d : declared_inputs) (values : list (string * json)) (skip : list string) : result (list complaint) (list string) :=
  let '(errors, names) :=
    match d_meta d with
    | Some m => (validate_user_variables (without skip values) {| in_required := kept_inputs skip (in_required m); in_optional := kept_inputs skip (in_optional m) |},
                 v_name <$> in_required m ++ in_optional m)
    | None => match d_schema d with
              | [] => ([], [])
              | vs => (validate_variables (without skip values) (kept_inputs skip vs), v_name <$> vs)
              end
    end in
  match errors with
  | [] => Ok (filter (fun k => names <> [] /\ k ∉ names) values.*1)
  | _ => Err errors
  end.

(** ** Inputs of actions *)

(** A value as it goes to a step: JSON, or a number that is not an integer, by its text. *)
Inductive arg := AJson (j : json) | AFloat (text : string).
Inductive action_exc := Undeclared (key : string) | NotAChoice (name : string) | NotABool (name : string) | NotANumber (name : string) | NotAnInteger (name : string) | DashFirst (name : string) | NotAScalar (name : string).

(** A declaration of an action's input: a dict with a [name]. *)
Definition decl_name (d : json) : option string := match d with JObj f => match dget "name" f with Some (JStr n) => Some n | _ => None end | _ => None end.
Definition declared_by_name (ds : list json) : list (string * list (string * json)) :=
  dict_of (omap (fun d => match d with JObj f => n ← decl_name d; Some (n, f) | _ => None end) ds).

Definition validate_cli_arg (name value : string) : result action_exc unit :=
  match after_prefix "-" value with Some _ => Err (DashFirst name) | None => Ok tt end.

Definition _coerce_action_bool (name : string) (value : json) : result action_exc bool :=
  match value with
  | JBool b => Ok b
  | JStr s => let t := lower (strip s) in
              if bool_decide (t ∈ ["true"; "false"; "1"; "0"; "yes"; "no"]) then Ok (bool_decide (t ∈ ["true"; "1"; "yes"])) else Err (NotABool name)
  | _ => Err (NotABool name)
  end.
Definition _coerce_action_number (name : string) (value : json) (declared_type : string) : result action_exc arg :=
  n ← match value with
      | JInt z => Ok (AJson (JInt z))
      | JStr s => if contains "." s || contains "e" (lower s) then if float_ok s then Ok (AFloat (strip s)) else Err (NotANumber name)
                  else match py_int s with Some z => Ok (AJson (JInt z)) | None => Err (NotANumber name) end
      | _ => Err (NotANumber name)
      end;
  match n with
  | AFloat _ => if bool_decide (declared_type ∈ ["int"; "integer"]) then Err (NotAnInteger name) else Ok n
  | AJson _ => Ok n
  end.

(** [str(number)]; of a float only that it begins with a minus matters. *)
Definition arg_text (a : arg) : string := match a with AJson j => py_str j | AFloat t => t end.
Definition choices_of (decl : list (string * json)) : list json := match dget "choices" decl with Some (JList l) => l | _ => [] end.
Definition type_of_decl (decl : list (string * json)) : string :=
  match dget "type" decl with Some j => if truthy j then lower (py_str j) else "string" | None => "string" end.

Definition effective_value (name : string) (decl : list (string * json)) (value : json) : result action_exc arg :=
  match choices_of decl with
  | (_ :: _) as choices => if py_in value choices then Ok (AJson value) else Err (NotAChoice name)
  | [] =>
      let t := type_of_decl decl in
      if bool_decide (t ∈ ["bool"; "boolean"]) then b ← _coerce_action_bool name value; Ok (AJson (JBool b))
      else if bool_decide (t ∈ ["int"; "integer"; "number"; "float"]) then
        n ← _coerce_action_number name value t; _ ← validate_cli_arg name (arg_text n); Ok n
      else match value with
           | JNull => Ok (AJson JNull)
           | JList _ | JObj _ => Err (NotAScalar name)
           | _ => _ ← validate_cli_arg name (py_str value); Ok (AJson value)
           end
  end.

Fixpoint effective_inputs (decls : list (string * list (string * json))) (provided : list (string * json)) : result action_exc (list (string * arg)) :=
  match decls with
  | [] => Ok []
  | (name, decl) :: decls =>
      match (match dget name provided with Some v => Some v | None => dget "default" decl end) with
      | None => effective_inputs decls provided
      | Some v => a ← effective_value name decl v; rest ← effective_inputs decls provided; Ok ((name, a) :: rest)
      end
  end.

Definition validate_action_inputs (ds : list json) (provided : list (string * json)) : result action_exc (list (string * arg)) :=
  let decls := declared_by_name ds in
  match list_find (fun k => k ∉ decls.*1) provided.*1 with
  | Some (_, k) => Err (Undeclared k)
  | None => effective_inputs decls provided
  end.

(** ** Laws of the inputs of actions *)

Lemma cli_arg_ok name t : validate_cli_arg name t = Ok tt <-> after_prefix "-" t = None.
Proof. unfold validate_cli_arg. by destruct (after_prefix "-" t). Qed.

(** What may reach a step of an action: one of the author's choices, a truth value, or
    something whose text does not begin with a dash. *)
Definition harmless (decl : list (string * json)) (a : arg) : Prop :=
  (exists j, a = AJson j /\ choices_of decl <> [] /\ py_in j (choices_of decl) = true) \/
  (choices_of decl = [] /\ ((exists b, a = AJson (JBool b)) \/ a = AJson JNull \/ after_prefix "-" (arg_text a) = None)).
(** Of the type that is declared, when that is a number or a truth value. *)
Definition of_type (decl : list (string * json)) (a : arg) : Prop :=
  choices_of decl = [] ->
  (type_of_decl decl ∈ ["bool"; "boolean"] -> exists b, a = AJson (JBool b)) /\
  (type_of_decl decl ∈ ["int"; "integer"] -> exists z, a = AJson (JInt z)) /\
  (type_of_decl decl ∈ ["number"; "float"] -> (exists z, a = AJson (JInt z)) \/ exists t, a = AFloat t /\ float_ok t = true) /\
  (forall l, a <> AJson (JList l)) /\ (forall f, a <> AJson (JObj f)).

Lemma lstrip_strip s : lstrip (strip s) = strip s.
Proof.
  unfold strip. induction s as [|c s IH]; [done|]. cbn. destruct (is_space c) eqn:E; [done|]. cbn. destruct (rstrip s) eqn:R; rewrite ?E; cbn; by rewrite E.
Qed.
Lemma rstrip_idem s : rstrip (rstrip s) = rstrip s.
Proof.
  induction s as [|c s IH]; [done|]. cbn. destruct (rstrip s) eqn:R; [destruct (is_space c) eqn:E; cbn; [done|by rewrite E]|].
  cbn in IH |- *. destruct (rstrip s0) eqn:R0; [destruct (is_space a) eqn:Ea; [done|]|]; injection IH as IH; subst; try done.
Qed.
Lemma strip_idem s : strip (strip s) = strip s.
Proof. unfold strip at 1. rewrite lstrip_strip. unfold strip. by rewrite rstrip_idem. Qed.

Lemma coerce_number_ok name v t n : _coerce_action_number name v t = Ok n ->
  (exists z, n = AJson (JInt z)) \/ (exists s, n = AFloat s /\ float_ok s = true /\ t ∉ ["int"; "integer"]).
Proof.
  unfold _coerce_action_number. destruct v; try done.
  - intros [= <-]. left. by eexists.
  - destruct (contains "." s || contains "e" (lower s)).
    + destruct (float_ok s) eqn:F; [|done]. cbn. case_bool_decide as B; [done|]. intros [= <-]. right. exists (strip s).
      split; [done|]. split; [|done]. unfold float_ok in *. by rewrite strip_idem.
    + destruct (py_int s); [|done]. cbn. intros [= <-]. left. by eexists.
Qed.

Lemma types_apart t : t ∈ ["bool"; "boolean"] -> (t ∉ ["int"; "integer"]) /\ (t ∉ ["number"; "float"]) /\ t ∉ ["int"; "integer"; "number"; "float"].
Proof. intros [->|[->|[]%elem_of_nil]%elem_of_cons]%elem_of_cons; repeat split; apply (bool_decide_unpack _); vm_compute; exact I. Qed.

Lemma effective_value_ok name decl v a : effective_value name decl v = Ok a -> harmless decl a /\ of_type decl a.
Proof.
  unfold effective_value, harmless, of_type. destruct (choices_of decl) as [|c cs] eqn:E.
  - case_bool_decide as B1; [|case_bool_decide as B2].
    + destruct (_coerce_action_bool name v) as [b|]; [|done]. cbn. intros [= <-]. split; [right; split; [done|left; by exists b]|]. intros _.
      destruct (types_apart _ B1) as (T1 & T2 & _). split; [by eexists|]. done.
    + destruct (_coerce_action_number name v _) as [n|] eqn:N; [|done]. cbn. destruct (validate_cli_arg name (arg_text n)) as [[]|] eqn:C; [|done].
      cbn. intros [= <-]. apply cli_arg_ok in C. apply coerce_number_ok in N. split; [right; split; [done|by right; right]|]. intros _. split; [done|].
      destruct N as [(z & ->)|(s & -> & F & T)].
      * split; [by eexists|]. split; [left; by eexists|done].
      * split; [done|]. split; [right; by eexists|done].
    + assert (N1 : type_of_decl decl ∉ ["int"; "integer"]) by set_solver. assert (N2 : type_of_decl decl ∉ ["number"; "float"]) by set_solver.
      destruct v; try done; try (destruct (validate_cli_arg name _) as [[]|] eqn:C; [|done]); cbn; intros [= <-];
        (split; [right; split; [done|]|intros _; done]); [by right; left|right; right; by apply cli_arg_ok in C..].
  - destruct (py_in v (c :: cs)) eqn:P; [|done]. intros [= <-]. split; [left; by exists v|done].
Qed.

Lemma effective_inputs_ok decls provided eff : NoDup decls.*1 -> effective_inputs decls provided = Ok eff ->
  NoDup eff.*1 /\
  (forall k a, (k, a) ∈ eff -> exists decl, (k, decl) ∈ decls /\ harmless decl a /\ of_type decl a) /\
  (forall k decl, (k, decl) ∈ decls -> is_Some (dget k provided) \/ is_Some (dget "default" decl) -> k ∈ eff.*1).
Proof.
  revert eff. induction decls as [|[name decl] decls IH]; intros eff ND; cbn [effective_inputs].
  - intros [= <-]. split; [constructor|]. split; [by intros k a ?%elem_of_nil|by intros k d ?%elem_of_nil].
  - apply NoDup_cons in ND as [Hni ND]. destruct (match dget name provided with Some v => Some v | None => dget "default" decl end) as [v|] eqn:V.
    + destruct (effective_value name decl v) as [a|] eqn:A; [|done]. cbn. destruct (effective_inputs decls provided) as [rest|] eqn:R; [|done]. cbn. intros [= <-].
      destruct (IH rest ND eq_refl) as (I1 & I2 & I3). apply effective_value_ok in A. split; [|split].
      * cbn. constructor; [|done]. intros ([k a'] & -> & (d & Hd & _)%I2)%list_elem_of_fmap. apply Hni. by apply (list_elem_of_fmap_2 fst _ (_, d)).
      * intros k a' [[= -> ->]|H]%elem_of_cons; [exists decl; split; [left|done]|]. destruct (I2 _ _ H) as (d & ? & ?). exists d. split; [by right|done].
      * intros k d [[= -> ->]|H]%elem_of_cons Hs; cbn; [left|right; eauto].
    + intros R. destruct (IH eff ND R) as (I1 & I2 & I3). split; [done|]. split.
      * intros k a H. destruct (I2 _ _ H) as (d & ? & ?). exists d. split; [by right|done].
      * intros k d [[= -> ->]|H]%elem_of_cons Hs; [|eauto]. destruct (dget name provided); [done|]. rewrite V in Hs. by destruct Hs as [[]|[]].
Qed.

(** C26. The inputs an action runs with are among the declared ones, each once, each one of its
    choices or of its type and nothing that could be read as an option; those given and
    those with a default are all there, and nothing else was given. *)
Lemma action_inputs_confined ds provided eff : validate_action_inputs ds provided = Ok eff ->
  NoDup eff.*1 /\
  (forall k, k ∈ provided.*1 -> k ∈ (declared_by_name ds).*1 /\ k ∈ eff.*1) /\
  (forall k decl, (k, decl) ∈ declared_by_name ds -> is_Some (dget "default" decl) -> k ∈ eff.*1) /\
  (forall k a, (k, a) ∈ eff -> exists decl, (k, decl) ∈ declared_by_name ds /\ harmless decl a /\ of_type decl a).
Proof.
  unfold validate_action_inputs. destruct (list_find _ _) as [[i k]|] eqn:L; [done|]. apply list_find_None in L. rewrite Forall_forall in L.
  intros H. destruct (effective_inputs_ok _ _ _ (dict_of_NoDup _) H) as (I1 & I2 & I3). split; [done|]. split; [|split; [|done]].
  - intros k Hk. specialize (L k Hk). apply dec_stable in L. split; [done|]. apply list_elem_of_fmap in L as ([k' d] & -> & Hd). eapply I3; [done|]. left.
    destruct (dget _ provided) eqn:E; [by eexists|]. by apply dget_None in E.
  - intros k d Hd Hs. eapply I3; [done|]. by right.
Qed.

(** Negative numbers are refused, whatever the declared type of the number is. *)
Lemma negative_numbers_refused name decl z : z < 0 -> choices_of decl = [] -> type_of_decl decl ∈ ["int"; "integer"; "number"; "float"] ->
  effective_value name decl (JInt z) = Err (DashFirst name).
Proof.
  intros Hz Hc Ht. unfold effective_value. rewrite Hc. rewrite bool_decide_eq_false_2 by (by intros (_ & _ & T)%types_apart). rewrite bool_decide_eq_true_2 by done.
  cbn. unfold validate_cli_arg. destruct z; try lia. done.
Qed.

(** ** Laws of the checks of variables *)

Lemma omap_nil_iff {A B} (f : A -> option B) l : omap f l = [] <-> forall x, x ∈ l -> f x = None.
Proof.
  induction l as [|x l IH]; cbn; [split; [by intros _ x ?%elem_of_nil|done]|]. destruct (f x) eqn:E.
  - split; [done|]. intros H. rewrite (H x ltac:(left)) in E. done.
  - rewrite IH. split; [intros H y [->|Hy]%elem_of_cons; auto|]. intros H y Hy. apply H. by right.
Qed.

(** Variables pass exactly when the required ones are given, and each that is declared is of
    its type, or blank and not required. *)
Lemma validate_variables_iff values vs :
  validate_variables values vs = [] <->
  (forall v, v ∈ vs -> v_required v = true -> v_name v ∈ values.*1) /\
  (forall k x v, (k, x) ∈ values -> dget k (dict_of ((fun v => (v_name v, v)) <$> vs)) = Some v ->
     if blank x then v_required v = false else typed (v_type v) x = true).
Proof.
  unfold validate_variables. rewrite app_nil, !omap_nil_iff. split; intros [H1 H2]; split.
  - intros v Hv R. specialize (H1 v Hv). cbn in H1. rewrite R in H1. cbn in H1. case_bool_decide as B; [done|]. first [exact B|by apply dec_stable in B].
  - intros k x v Hk E. specialize (H2 _ Hk). cbn in H2. rewrite E in H2. cbn in H2. unfold validate_variable_value in H2. destruct (blank x); [by destruct (v_required v)|].
    by destruct (typed (v_type v) x).
  - intros v Hv. destruct (v_required v) eqn:R; [|done]. cbn. rewrite bool_decide_eq_false_2; [done|]. intros N. apply N. by apply H1.
  - intros [k x] Hk. cbn. destruct (dget k _) as [v|] eqn:E; [|done]. cbn. specialize (H2 _ _ _ Hk E). unfold validate_variable_value.
    destruct (blank x); rewrite H2; done.
Qed.

(** And so for the inputs of modules with metadata: those a user gives are there, and each
    that is declared passes the check of its type. *)
Lemma validate_user_iff values m :
  validate_user_variables values m = [] <->
  (forall v, v ∈ in_required m -> v_source v ∉ ["module"; "project"] -> v_name v ∈ values.*1) /\
  (forall k x v, (k, x) ∈ values -> dget k (dict_of ((fun v => (v_name v, v)) <$> in_required m ++ in_optional m)) = Some v -> user_typed (v_type v) x = true).
Proof.
  unfold validate_user_variables. rewrite app_nil, !omap_nil_iff. split; intros [H1 H2]; split.
  - intros v Hv R. specialize (H1 v Hv). cbn beta in H1. rewrite bool_decide_eq_false_2 in H1 by done. case_bool_decide as B; [done|]. first [exact B|by apply dec_stable in B].
  - intros k x v Hk E. specialize (H2 _ Hk). cbn beta iota in H2. cbn [fst snd] in H2. rewrite E in H2. cbn in H2. by destruct (user_typed (v_type v) x).
  - intros v Hv. case_bool_decide as R; [done|]. rewrite bool_decide_eq_false_2; [done|]. intros N. apply N. by apply H1.
  - intros [k x] Hk. cbn [fst snd]. destruct (dget k _) as [v|] eqn:E; [|done]. cbn. by rewrite (H2 _ _ _ Hk E).
Qed.

(** No value is of a type that is a list of maps or of objects. *)
Lemma user_list_of_maps t j : contains "list" t = true -> contains "map" t || contains "object" t = true -> user_typed t j = false.
Proof.
  intros L M. unfold user_typed.
  assert (A : String.eqb t "string" = false) by (destruct (String.eqb_spec t "string") as [->|]; [discriminate L|done]).
  assert (B : t ∉ ["number"; "int"; "integer"]) by (intros H; repeat (apply elem_of_cons in H as [->|H]; [discriminate L|]); by apply elem_of_nil in H).
  assert (C : t ∉ ["bool"; "boolean"]) by (intros H; repeat (apply elem_of_cons in H as [->|H]; [discriminate L|]); by apply elem_of_nil in H).
  rewrite A. rewrite (bool_decide_eq_false_2 _ B), (bool_decide_eq_false_2 _ C), L, M. by destruct j.
Qed.

(** So a module with a required input of such a type takes no values at all. *)
Lemma list_of_maps_never_valid m v values :
  v ∈ in_required m -> v_source v ∉ ["module"; "project"] -> contains "list" (v_type v) = true -> contains "map" (v_type v) || contains "object" (v_type v) = true ->
  NoDup (v_name <$> in_required m ++ in_optional m) -> validate_user_variables values m <> [].
Proof.
  intros Hv Hs L M ND E. apply validate_user_iff in E as [E1 E2]. specialize (E1 v Hv Hs). apply list_elem_of_fmap in E1 as ([k x] & Ek & Hx).
  specialize (E2 k x v Hx). rewrite (user_list_of_maps _ _ L M) in E2. apply (Bool.diff_false_true), E2. cbn in Ek. subst k.
  assert (N : NoDup ((fun v => (v_name v, v)) <$> in_required m ++ in_optional m).*1).
  { rewrite <- list_fmap_compose. exact ND. }
  rewrite (dget_dict_of _ _ N). apply elem_of_dget; [done|]. apply list_elem_of_fmap. exists v. split; [done|]. apply elem_of_app. by left.
Qed.

(** ** Examples *)

Module Example.

Definition input (n t : string) : schema := {| v_name := n; v_type := t; v_required := true; v_source := "user" |}.
Example numbers_read : float_ok " -1_000.5e-3 " = true /\ float_ok "1__0" = false /\ float_ok "." = false /\ float_ok "-Infinity" = true /\ float_ok "1e" = false.
Proof. vm_compute. done. Qed.
(** Truth values pass for numbers. *)
Example truth_is_a_number : typed "number" (JBool true) = true /\ user_typed "number" (JBool true) = true.
Proof. vm_compute. done. Qed.

Definition nodes : inputs_meta := {| in_required := [input "region" "string"; input "nodes" "list(object({name=string}))"]; in_optional := [] |}.
Lemma list_of_maps_never_valid_witness : validate_user_variables [("region", JStr "eu"); ("nodes", JList [JObj [("name", JStr "a")]])] nodes <> [].
Proof.
  apply (list_of_maps_never_valid nodes (input "nodes" "list(object({name=string}))")).
  - right. left.
  - apply (bool_decide_unpack _). vm_compute. exact I.
  - reflexivity.
  - reflexivity.
  - apply (bool_decide_unpack _). vm_compute. exact I.
Defined.

Definition decl (n t : string) (extra : list (string * json)) : json := JObj (("name", JStr n) :: ("type", JStr t) :: extra).
Definition decls : list json := [decl "mode" "string" [("choices", JList [JStr "fast"; JStr "safe"])]; decl "count" "int" [("default", JStr "3")]; decl "note" "string" []; decl "force" "bool" []].
Definition given : list (string * json) := [("note", JStr "hello"); ("mode", JStr "safe"); ("force", JStr " Yes ")].
Definition effective : list (string * arg) := [("mode", AJson (JStr "safe")); ("count", AJson (JInt 3)); ("note", AJson (JStr "hello")); ("force", AJson (JBool true))].
Example given_works : validate_action_inputs decls given = Ok effective.
Proof. vm_compute. reflexivity. Qed.
Lemma action_inputs_confined_witness : validate_action_inputs decls given = Ok effective /\ NoDup effective.*1.
Proof.
  assert (H : validate_action_inputs decls given = Ok effective) by (vm_compute; reflexivity).
  split; [exact H|]. exact (proj1 (action_inputs_confined decls given effective H)).
Defined.
Example refused : validate_action_inputs decls [("note", JStr "--force")] = Err (DashFirst "note") /\ validate_action_inputs decls [("mode", JStr "quick")] = Err (NotAChoice "mode") /\
  validate_action_inputs decls [("other", JNull)] = Err (Undeclared "other") /\ validate_action_inputs decls [("count", JStr "1.5")] = Err (NotAnInteger "count").
Proof. vm_compute. done. Qed.
Lemma negative_numbers_refused_witness : effective_value "offset" [("type", JStr "int")] (JInt (-1)) = Err (DashFirst "offset").
Proof. apply (negative_numbers_refused "offset" [("type", JStr "int")] (-1)); [lia|reflexivity|]. apply (bool_decide_unpack _). vm_compute. exact I. Defined.
End Example.
