(* ===== verification/ProjectModules.v ===== *)
(** * The modules of a project (services/project_module_service.py,
      [detect_module_dependencies] and [update_project_counts] of
      services/project_service.py)

    Adding, changing, re-pinning and removing modules, their dependencies and the order
    they are deployed in.  Ids come from a sequence.  A request that fails is rolled back;
    whether an operation holds a module's lock is an argument.  Descriptions, workspaces
    and logs are left out. *)

From Stdlib Require Import Ascii.
From S2P Require Import Prelude Texts ModuleState DepGraph InputChecks.

#[local] Open Scope string_scope.
#[local] Open Scope list_scope.
#[local] Open Scope Z_scope.
#[local] Set Default Proof Using "Type".

(** ** Rows *)

(** A row of the catalog; [lb_meta]: the paths under [required] of its
    [dependencies_metadata], [None] when that is empty. *)
Record catalog_row := {
  lb_name : string; lb_path : string; lb_version : string; lb_source : option Z; lb_active : bool;
  lb_meta : option (list string); lb_flat : list string; lb_inputs : declared_inputs
}.
Record counts := { module_count : Z; deployed_count : Z; failed_count : Z }.
Record pmod := {
  p_project : Z; p_lib : Z; p_path : string; p_overrides : list (string * json);
  p_order : Z; p_deps : list Z; p_status : ModuleStatus; p_enabled : bool
}.
Record pdb := { catalog : gmap Z catalog_row; prows : gmap Z counts; pmods : gmap Z pmod; p_next : Z }.

Definition with_pmods (f : gmap Z pmod -> gmap Z pmod) (d : pdb) : pdb := {| catalog := catalog d; prows := prows d; pmods := f (pmods d); p_next := p_next d |}.
Definition set_deps (ds : list Z) (m : pmod) : pmod :=
  {| p_project := p_project m; p_lib := p_lib m; p_path := p_path m; p_overrides := p_overrides m; p_order := p_order m; p_deps := ds; p_status := p_status m; p_enabled := p_enabled m |}.
Definition set_order (n : Z) (m : pmod) : pmod :=
  {| p_project := p_project m; p_lib := p_lib m; p_path := p_path m; p_overrides := p_overrides m; p_order := n; p_deps := p_deps m; p_status := p_status m; p_enabled := p_enabled m |}.
Definition set_lib (l : Z) (m : pmod) : pmod :=
  {| p_project := p_project m; p_lib := l; p_path := p_path m; p_overrides := p_overrides m; p_order := p_order m; p_deps := p_deps m; p_status := p_status m; p_enabled := p_enabled m |}.

Inductive edit_exc := NoProject | NoModule | NoLibrary | PathTaken | BadVariables (errors : list complaint) | BadDependencies (v : validation) | Circular (e : graph_exc)
  | Locked | EmptyVersion | NoSuchVersion.

Definition library_of (d : pdb) (m : pmod) : option catalog_row := catalog d !! p_lib m.
Definition in_project (p : Z) (m : pmod) : bool := bool_decide (p_project m = p).

(** ** [detect_module_dependencies] *)

(** [s.replace(key, "")]; [skip] characters of an occurrence are left. *)
Fixpoint cut (key : string) (skip : nat) (s : string) : string :=
  match s with
  | EmptyString => EmptyString
  | String c s' =>
      match skip with
      | S n => cut key n s'
      | O => match after_prefix key s with Some _ => cut key (String.length key - 1) s' | None => String c (cut key 0 s') end
      end
  end.
Fixpoint underscored (s : string) : string :=
  match s with
  | EmptyString => EmptyString
  | String c s => String (if bool_decide (c = "-"%char \/ c = " "%char) then "_"%char else c) (underscored s)
  end.
Definition normalized (s : string) : string := underscored (lower s).

Definition MODULE_DEPENDENCY_RULES : list (string * list string) :=
  [("vpc", []); ("vnet", []); ("network", []); ("networking", []);
   ("eks", ["vpc"; "network"]); ("aks", ["vnet"; "network"]); ("gke", ["network"]); ("kubernetes", ["vpc"; "vnet"; "network"]); ("k8s", ["vpc"; "vnet"; "network"]);
   ("database", ["vpc"; "vnet"; "network"]); ("rds", ["vpc"; "network"]); ("aurora", ["vpc"; "network"]);
   ("storage", ["vpc"; "vnet"; "network"]);
   ("bnk", ["eks"; "aks"; "gke"; "kubernetes"; "k8s"]); ("f5", ["eks"; "aks"; "gke"; "kubernetes"; "k8s"]); ("big-ip", ["eks"; "aks"; "gke"; "kubernetes"; "k8s"]);
   ("ingress", ["eks"; "aks"; "gke"; "kubernetes"; "k8s"]); ("load-balancer", ["vpc"; "vnet"; "network"]);
   ("security", ["vpc"; "vnet"; "network"]); ("firewall", ["vpc"; "vnet"; "network"]);
   ("monitoring", ["vpc"; "vnet"; "eks"; "aks"; "gke"; "kubernetes"]); ("prometheus", ["eks"; "aks"; "gke"; "kubernetes"])].

(** The last part of [path_in_project]. *)
Definition last_part (path : string) : string := List.last (split_on (fun c => Ascii.eqb c "/"%char) path "") "".
Definition display_name (d : pdb) (m : pmod) : string := match library_of d m with Some l => lb_name l | None => last_part (p_path m) end.

(** A required path among the modules that are there, as it is or without ["infra/"]. *)
Definition match_path (by_path : list (string * Z)) (path : string) : option Z :=
  match dget path by_path with
  | Some i => Some i
  | None => (fun x : nat * (string * Z) => x.2.2) <$> list_find (fun kv : string * Z => cut "infra/" 0 kv.1 = cut "infra/" 0 path) by_path
  end.
Definition by_rules (d : pdb) (name : string) (existing : list (Z * pmod)) : list Z :=
  let n := normalized name in
  let potential := match list_find (fun r : string * list string => contains r.1 n || contains n r.1 = true) MODULE_DEPENDENCY_RULES with Some (_, r) => r.2 | None => [] end in
  foldl (fun acc dep_type =>
           foldl (fun acc (im : Z * pmod) =>
                    let e := normalized (display_name d im.2) in
                    if (contains dep_type e || contains e dep_type) && bool_decide (im.1 ∉ acc) then acc ++ [im.1] else acc) acc existing)
    [] potential.
Definition detect_module_dependencies (d : pdb) (l : catalog_row) (existing : list (Z * pmod)) : list Z :=
  match lb_meta l with
  | Some required => omap (match_path (dict_of (omap (fun im : Z * pmod => (fun x => (lb_path x, im.1)) <$> library_of d im.2) existing))) required
  | None => by_rules d (lb_name l) existing
  end.

(** ** [update_project_counts] *)

Definition count_if (P : pmod -> bool) (ms : gmap Z pmod) : Z := Z.of_nat (size (filter (fun im : Z * pmod => P im.2 = true) ms)).
Definition failed_status (s : ModuleStatus) : bool := bool_decide (s ∈ [FAILED; APPLY_FAILED; DESTROY_FAILED; INIT_FAILED; PLAN_FAILED]).
(** [seen]: the modules the query finds. *)
Definition update_project_counts (p : Z) (seen : gmap Z pmod) (d : pdb) : pdb :=
  {| catalog := catalog d;
     prows := alter (fun _ => {| module_count := count_if (in_project p) seen;
                                 deployed_count := count_if (fun m => in_project p m && bool_decide (p_status m = APPLIED)) seen;
                                 failed_count := count_if (fun m => in_project p m && failed_status (p_status m)) seen |}) p (prows d);
     pmods := pmods d; p_next := p_next d |}.

Section service.
Context {SO : SetOrder Z}.

Definition project_rows (p : Z) (d : pdb) : list (Z * pmod) := select (fun _ m => in_project p m) (pmods d).

(** ** [calculate_deployment_order] *)

Definition resolve_flat (names : list (string * Z)) (self : Z) (flat : list string) : list Z :=
  omap (fun n => i ← dget n names; if i =? self then None else Some i) flat.
Definition rederived (d : pdb) (enabled : list (Z * pmod)) (i : Z) (m : pmod) : list Z :=
  match library_of d m with
  | None => p_deps m
  | Some l =>
      let detected := detect_module_dependencies d l (filter (fun jm => jm.1 <> i) enabled) in
      if bool_decide (lb_meta l <> None) || bool_decide (detected <> []) then detected
      else resolve_flat (dict_of (omap (fun im : Z * pmod => (fun x => (lb_name x, im.1)) <$> library_of d im.2) enabled)) i (lb_flat l)
  end.
Definition enabled_rows (p : Z) (d : pdb) : list (Z * pmod) := filter (fun im => p_enabled im.2 = true) (project_rows p d).
(** The dependencies a calculation gives an enabled module. *)
Definition deps_after (p : Z) (use_existing : bool) (d : pdb) (i : Z) (m : pmod) : list Z := if use_existing then p_deps m else rederived d (enabled_rows p d) i m.
Definition graph_module (im : Z * pmod) : module := Module im.1 (Some (p_project im.2)) None None None None (Some (p_deps im.2)).

(** The dependencies are assigned before the order is computed, and stay assigned when it
    cannot be. *)
Definition calculate_deployment_order (p : Z) (use_existing : bool) (d : pdb) : pdb * result edit_exc (list (Z * nat)) :=
  if bool_decide (prows d !! p = None) then (d, Err NoProject)
  else
    let enabled := enabled_rows p d in
    let deps (im : Z * pmod) := deps_after p use_existing d im.1 im.2 in
    let d := foldl (fun d im => with_pmods (alter (set_deps (deps im)) im.1) d) d enabled in
    match DepGraph.calculate_deployment_order ((fun im => graph_module (im.1, set_deps (deps im) im.2)) <$> enabled) with
    | Err e => (d, Err (Circular e))
    | Ok orders => (foldl (fun d im => with_pmods (alter (set_order (Z.of_nat (default 0%nat (dget im.1 orders)))) im.1) d) d enabled, Ok orders)
    end.

(** ** The operations *)

(** [max(..., default=0)] *)
Definition max_order (l : list Z) : Z := match l with [] => 0 | n :: l => foldl Z.max n l end.

Definition add_module (p lib : Z) (path : string) (overrides : list (string * json)) (order : Z) (enabled : bool) (resolved : list string) (d : pdb) : pdb * result edit_exc Z :=
  if bool_decide (prows d !! p = None) then (d, Err NoProject)
  else match catalog d !! lib with
       | None => (d, Err NoLibrary)
       | Some l =>
           if bool_decide (Exists (fun im => p_path im.2 = path) (project_rows p d)) then (d, Err PathTaken)
           else match (if bool_decide (overrides = []) then Ok [] else _validate_module_variables (lb_inputs l) overrides resolved) with
                | Err e => (d, Err (BadVariables e))
                | Ok _ =>
                    let existing := project_rows p d in
                    let auto := detect_module_dependencies d l existing in
                    let order := if negb (bool_decide (auto = [])) && (order =? 0)
                                 then max_order ((fun im : Z * pmod => p_order im.2) <$> filter (fun im => im.1 ∈ auto) existing) + 1 else order in
                    let m := {| p_project := p; p_lib := lib; p_path := path; p_overrides := overrides; p_order := order; p_deps := auto; p_status := NOT_INITIALIZED; p_enabled := enabled |} in
                    let d' := {| catalog := catalog d; prows := prows d; pmods := <[p_next d := m]> (pmods d); p_next := p_next d + 1 |} in
                    (update_project_counts p (pmods d') d', Ok (p_next d))
                end
       end.

(** The row with the columns that the request gives. *)
Definition updated (overrides : option (list (string * json))) (order : option Z) (enabled : option bool) (m : pmod) : pmod :=
  {| p_project := p_project m; p_lib := p_lib m; p_path := p_path m; p_overrides := default (p_overrides m) overrides; p_order := default (p_order m) order;
     p_deps := p_deps m; p_status := p_status m; p_enabled := default (p_enabled m) enabled |}.
Definition update_module (i : Z) (overrides : option (list (string * json))) (order : option Z) (enabled : option bool) (d : pdb) : pdb * result edit_exc unit :=
  match pmods d !! i with
  | None => (d, Err NoModule)
  | Some m =>
      let errors := match overrides, library_of d m with
                    | Some vs, Some l => match d_schema (lb_inputs l) with [] => [] | s => validate_variables vs s end
                    | _, _ => []
                    end in
      match errors with
      | _ :: _ => (d, Err (BadVariables errors))
      | [] =>
          let d := with_pmods (<[i := updated overrides order enabled m]>) d in
          if bool_decide (enabled = Some true) && negb (p_enabled m) && bool_decide (library_of d m <> None)
          then ((calculate_deployment_order (p_project m) false d).1, Ok tt)
          else (d, Ok tt)
      end
  end.

Definition same_module (l : catalog_row) (version : string) (x : catalog_row) : bool :=
  String.eqb (lb_path x) (lb_path l) && String.eqb (lb_version x) version && bool_decide (lb_source x = lb_source l) && lb_active x.
Definition change_module_version (i : Z) (target_version : string) (d : pdb) : pdb * result edit_exc Z :=
  match pmods d !! i with
  | None => (d, Err NoModule)
  | Some m =>
      match library_of d m with
      | None => (d, Err NoLibrary)
      | Some l =>
          let v := strip target_version in
          if String.eqb v "" then (d, Err EmptyVersion)
          else if String.eqb (lb_version l) v then (d, Ok (p_lib m))
          else match (select (fun _ x => same_module l v x) (catalog d)).*1 with
               | [] => (d, Err NoSuchVersion)
               | j :: js => let target := foldl Z.max j js in (with_pmods (alter (set_lib target) i) d, Ok target)
               end
      end
  end.

(** The session does not flush before a query: the counts are of the modules before the
    deletion. *)
Definition remove_module (held : Z -> bool) (i : Z) (d : pdb) : pdb * result edit_exc unit :=
  match pmods d !! i with
  | None => (d, Err NoModule)
  | Some m =>
      if bool_decide (prows d !! p_project m = None) then (d, Err NoProject)
      else if held i then (d, Err Locked)
      else (update_project_counts (p_project m) (pmods d) (with_pmods (delete i) d), Ok tt)
  end.

Definition set_dependencies (i : Z) (ids : list Z) (d : pdb) : pdb * result edit_exc unit :=
  match pmods d !! i with
  | None => (d, Err NoModule)
  | Some m =>
      match validate_dependencies i ids (p_project m) (graph_module <$> project_rows (p_project m) d) with
      | Valid => (with_pmods (alter (set_deps ids) i) d, Ok tt)
      | v => (d, Err (BadDependencies v))
      end
  end.

Inductive unmet_dependency := MissingModule (i : Z) | NotApplied (name : string) (s : ModuleStatus).
(** What stands against an apply of the module. *)
Definition check_module_dependencies (d : pdb) (m : pmod) : list unmet_dependency :=
  omap (fun i => match pmods d !! i with
                 | Some x => if in_project (p_project m) x then if bool_decide (p_status x = APPLIED) then None else Some (NotApplied (display_name d x) (p_status x))
                             else Some (MissingModule i)
                 | None => Some (MissingModule i)
                 end) (p_deps m).
End service.

(** ** Laws *)

Section laws.
Context {SO : SetOrder Z}.

Lemma elem_project_rows p d i m : (i, m) ∈ project_rows p d <-> pmods d !! i = Some m /\ p_project m = p.
Proof. unfold project_rows. rewrite elem_of_select. unfold in_project. by rewrite bool_decide_eq_true. Qed.

(** The dependencies of a project's modules as a graph. *)
Definition graph_of (p : Z) (d : pdb) : deps_dict := (fun im => (im.1, p_deps im.2)) <$> project_rows p d.
Lemma graph_keys p d : (graph_of p d).*1 = (project_rows p d).*1.
Proof. unfold graph_of. rewrite <- list_fmap_compose. done. Qed.
Lemma edge_graph p d i j : edge (graph_of p d) i j <-> exists m, pmods d !! i = Some m /\ p_project m = p /\ j ∈ p_deps m.
Proof.
  assert (ND : NoDup (graph_of p d).*1) by (rewrite graph_keys; apply select_NoDup).
  assert (K : forall ds, (i, ds) ∈ graph_of p d <-> exists m, pmods d !! i = Some m /\ p_project m = p /\ ds = p_deps m).
  { intros ds. unfold graph_of. rewrite list_elem_of_fmap. split.
    - intros ([i' m] & [= -> ->] & [H1 H2]%elem_project_rows). eauto.
    - intros (m & H1 & H2 & ->). exists (i, m). split; [done|]. by apply elem_project_rows. }
  unfold edge, deps_of. destruct (dget i (graph_of p d)) as [ds|] eqn:E; cbn.
  - apply dget_elem_of, K in E as (m & H1 & H2 & ->). split; [eauto|]. intros (m' & H1' & _ & H). congruence.
  - split; [by intros ?%elem_of_nil|]. intros (m & H1 & H2 & _). apply dget_None in E. exfalso. apply E.
    apply (list_elem_of_fmap_2 fst _ (i, p_deps m)), K. eauto.
Qed.

(** *** Cycles *)

Lemma chain_weaken d d' l : (forall a b, a ∈ l -> edge d a b -> edge d' a b) -> chain d l -> chain d' l.
Proof.
  induction l as [|x [|y l] IH]; [done..|]. intros H [H1 H2]. split; [apply H; [left|done]|]. apply IH; [|done]. intros a b Ha. apply H. by right.
Qed.
Lemma chain_in_edge d x l a : chain d (x :: l) -> a ∈ l -> exists b, edge d b a.
Proof.
  revert x. induction l as [|y l IH]; intros x; [by intros _ ?%elem_of_nil|]. intros [H1 H2] [->|Ha]%elem_of_cons; [by exists x|]. by apply (IH y).
Qed.
Lemma cycle_in_edge d c a : is_cycle d c -> a ∈ c -> exists b, edge d b a.
Proof.
  intros (x & l & -> & H) [->|Ha]%elem_of_cons; apply (chain_in_edge _ _ _ _ H); [|done]. apply elem_of_app. right. left.
Qed.
(** Edges that can be on a cycle lead from a node to which an edge leads. *)
Lemma cycle_weaken d d' c : (forall a b, (exists z, edge d z a) -> edge d a b -> edge d' a b) -> is_cycle d c -> is_cycle d' c.
Proof.
  intros H C. pose proof C as (x & l & -> & Hc). exists x, l. split; [done|]. revert Hc. apply chain_weaken. intros a b Ha. apply H. by eapply cycle_in_edge.
Qed.

(** *** What stays true *)

Record legal (d : pdb) : Prop := {
  lg_ids i m : pmods d !! i = Some m -> i < p_next d /\ forall j, j ∈ p_deps m -> j < p_next d;
  lg_acyclic p c : ~ is_cycle (graph_of p d) c;
  lg_same i m j x : pmods d !! i = Some m -> j ∈ p_deps m -> pmods d !! j = Some x -> p_project x = p_project m;
  lg_paths i j m m' : pmods d !! i = Some m -> pmods d !! j = Some m' -> p_project m = p_project m' -> p_path m = p_path m' -> i = j;
  lg_library i m : pmods d !! i = Some m -> is_Some (library_of d m)
}.

Lemma match_path_in by_path path i : match_path by_path path = Some i -> i ∈ by_path.*2.
Proof.
  unfold match_path. destruct (dget path by_path) as [j|] eqn:E.
  - intros [= <-]. apply dget_elem_of in E. by apply (list_elem_of_fmap_2 snd) in E.
  - destruct (list_find _ _) as [[k kv]|] eqn:F; [|done]. intros [= <-]. apply list_find_Some in F as (F & _). apply list_elem_of_lookup_2 in F.
    by apply (list_elem_of_fmap_2 snd) in F.
Qed.
Lemma by_rules_in d name existing i : i ∈ by_rules d name existing -> i ∈ existing.*1.
Proof.
  unfold by_rules. set (ps := match list_find _ _ with Some _ => _ | None => _ end). clearbody ps.
  assert (G : forall acc, (forall j, j ∈ acc -> j ∈ existing.*1) -> forall j, j ∈ foldl (fun acc dep_type =>
     foldl (fun acc (im : Z * pmod) => let e := normalized (display_name d im.2) in
        if (contains dep_type e || contains e dep_type) && bool_decide (im.1 ∉ acc) then acc ++ [im.1] else acc) acc existing) acc ps -> j ∈ existing.*1).
  { induction ps as [|t ps IH]; intros acc H; [done|]. cbn [foldl]. apply IH.
    assert (I : forall ex, (forall im, im ∈ ex -> im ∈ existing) -> forall acc, (forall j, j ∈ acc -> j ∈ existing.*1) -> forall j,
      j ∈ foldl (fun acc (im : Z * pmod) => let e := normalized (display_name d im.2) in
        if (contains t e || contains e t) && bool_decide (im.1 ∉ acc) then acc ++ [im.1] else acc) acc ex -> j ∈ existing.*1).
    { induction ex as [|im ex IHex]; intros Hex acc' H'; [done|]. cbn [foldl]. apply IHex; [intros x Hx; apply Hex; by right|]. cbv zeta.
      destruct (_ && _); [|done]. intros j [Hj| ->%list_elem_of_singleton]%elem_of_app; [auto|]. apply list_elem_of_fmap_2, Hex. left. }
    by apply I. }
  apply G. by intros j ?%elem_of_nil.
Qed.
Lemma detect_in d l existing i : i ∈ detect_module_dependencies d l existing -> i ∈ existing.*1.
Proof.
  unfold detect_module_dependencies. destruct (lb_meta l); [|apply by_rules_in]. intros (path & _ & ([path' j] & E & H)%match_path_in%list_elem_of_fmap)%list_elem_of_omap.
  cbn in E. subst j. apply dict_of_elem, list_elem_of_omap in H as ([k m] & Hk & E). cbn in E. destruct (library_of d m); [|done]. injection E as _ ->.
  by apply (list_elem_of_fmap_2 fst) in Hk.
Qed.

Lemma legal_add d p lib path overrides order enabled resolved i d' : legal d -> add_module p lib path overrides order enabled resolved d = (d', Ok i) ->
  legal d' /\ i = p_next d /\ pmods d !! i = None /\
  exists m, pmods d' = <[i := m]> (pmods d) /\ p_project m = p /\ p_path m = path /\ p_status m = NOT_INITIALIZED /\
    (forall j, j ∈ p_deps m -> exists x, pmods d !! j = Some x /\ p_project x = p).
Proof.
  intros [L1 L2 L4 L3 L5]. unfold add_module. case_bool_decide as Hp; [done|]. destruct (catalog d !! lib) as [l|] eqn:El; [|done]. case_bool_decide as Hpath; [done|].
  destruct (if bool_decide (overrides = []) then _ else _) as [ws|]; [|done]. intros [= <- <-].
  set (m := {| p_project := p |}). assert (N : pmods d !! p_next d = None).
  { destruct (pmods d !! p_next d) as [x|] eqn:E; [|done]. apply L1 in E as [E _]. lia. }
  assert (D : forall j, j ∈ p_deps m -> exists x, pmods d !! j = Some x /\ p_project x = p).
  { intros j Hj. cbn in Hj. apply detect_in, list_elem_of_fmap in Hj as ([j' x] & -> & Hx). apply elem_project_rows in Hx. by exists x. }
  split; [|split; [done|split; [done|by exists m]]]. split; cbn [pmods p_next update_project_counts].
  - intros j x. destruct (decide (j = p_next d)) as [->|Hj].
    + rewrite lookup_insert_eq. intros [= <-]. split; [lia|]. intros j' (x & Hx & _)%D. apply L1 in Hx as [Hx _]. lia.
    + rewrite lookup_insert_ne by done. intros Hx. apply L1 in Hx as [H1 H2]. split; [lia|]. intros j' Hj'. apply H2 in Hj'. lia.
  - intros q c C. apply (L2 q c). revert C. apply cycle_weaken. intros a b [z Hz] (x & Hx & Hq & Hb)%edge_graph. apply edge_graph in Hz as (y & Hy & _ & Ha).
    cbn [pmods update_project_counts] in Hx, Hy. assert (Hlt : a < p_next d).
    { destruct (decide (z = p_next d)) as [->|Hz].
      - rewrite lookup_insert_eq in Hy. injection Hy as <-. apply D in Ha as (x' & Hx' & _). by apply L1 in Hx' as [Hx' _].
      - rewrite lookup_insert_ne in Hy by done. apply L1 in Hy as [_ Hy]. auto. }
    rewrite lookup_insert_ne in Hx by lia. apply edge_graph. eauto.
  - intros a x b y Hx Hb Hy. destruct (decide (a = p_next d)) as [->|Ha].
    + rewrite lookup_insert_eq in Hx. injection Hx as <-. apply D in Hb as (y' & Hy' & Hp'). rewrite lookup_insert_ne in Hy by (intros <-; congruence). cbn. congruence.
    + rewrite lookup_insert_ne in Hx by done. destruct (L1 _ _ Hx) as [_ Hl]. specialize (Hl _ Hb). rewrite lookup_insert_ne in Hy by lia. by eapply L4.
  - assert (F : forall j x, pmods d !! j = Some x -> p_project x = p -> p_path x <> path).
    { intros j x Hx Hq E. apply Hpath. apply Exists_exists. exists (j, x). split; [by apply elem_project_rows|done]. }
    intros j k x y. destruct (decide (j = p_next d)) as [->|Hj], (decide (k = p_next d)) as [->|Hk]; rewrite ?lookup_insert_eq, ?lookup_insert_ne by done; [done|..].
    + intros [= <-] Hy Eq Ep. cbn in Eq, Ep. exfalso. by eapply (F k y).
    + intros Hx [= <-] Eq Ep. cbn in Eq, Ep. exfalso. by eapply (F j x).
    + apply L3.
  - intros j x. destruct (decide (j = p_next d)) as [->|Hj]; [rewrite lookup_insert_eq; intros [= <-]; by exists l|].
    rewrite lookup_insert_ne by done. apply L5.
Qed.

(** A change of one row that keeps its project, path and dependencies keeps all this. *)
Lemma legal_alter f i d : (forall m, pmods d !! i = Some m -> p_project (f m) = p_project m /\ p_path (f m) = p_path m /\ p_deps (f m) = p_deps m /\
    (is_Some (library_of d m) -> is_Some (library_of d (f m)))) ->
  legal d -> legal (with_pmods (alter f i) d).
Proof.
  intros K [L1 L2 L4 L3 L5].
  assert (G : forall j x, pmods (with_pmods (alter f i) d) !! j = Some x -> exists y, pmods d !! j = Some y /\ p_project x = p_project y /\ p_path x = p_path y /\ p_deps x = p_deps y /\ (is_Some (library_of d y) -> is_Some (library_of d x))).
  { intros j x. cbn. destruct (decide (i = j)) as [->|H]; [rewrite lookup_alter_eq|rewrite lookup_alter_ne by done; intros Hx; exists x; by split_and!].
    destruct (pmods d !! j) as [y|] eqn:E; [|done]. intros [= <-]. exists y. destruct (K y eq_refl) as (K1 & K2 & K3 & K4). auto. }
  split.
  - intros j x (y & Hy & _ & _ & E & _)%G. rewrite E. by apply L1.
  - intros p c C. apply (L2 p c). revert C. apply cycle_weaken. intros a b _ (x & (y & Hy & E1 & _ & E3 & _)%G & Hp & Hb)%edge_graph.
    apply edge_graph. exists y. rewrite <- E1, <- E3. auto.
  - intros a x b y (x' & Hx & E1 & _ & E3 & _)%G Hb (y' & Hy & F1 & _)%G. rewrite E1, F1. rewrite E3 in Hb. by eapply L4.
  - intros j k x y (x' & Hx & E1 & E2 & _)%G (y' & Hy & F1 & F2 & _)%G. rewrite E1, E2, F1, F2. eauto.
  - intros j x (y & Hy & _ & _ & _ & HL)%G. apply HL. by eapply L5.
Qed.

Lemma hypothetical_edge i ids p d a b : is_Some (pmods d !! i) ->
  edge (hypothetical_deps i ids p (graph_module <$> project_rows p d)) a b <->
  exists m, pmods d !! a = Some m /\ p_project m = p /\ b ∈ (if decide (a = i) then ids else p_deps m).
Proof.
  intros _. unfold hypothetical_deps.
  assert (F : filter (fun m : module => m_project_id m = Some p) (graph_module <$> project_rows p d) = graph_module <$> project_rows p d).
  { apply filter_all. apply Forall_forall. intros x ([j m] & -> & [_ E]%elem_project_rows)%list_elem_of_fmap. cbn. by rewrite E. }
  rewrite F. rewrite <- list_fmap_compose. set (l := _ <$> project_rows p d).
  assert (ND : NoDup l.*1).
  { unfold l. rewrite <- list_fmap_compose. exact (select_NoDup (fun _ m => in_project p m) (pmods d)). }
  assert (K : forall ds, (a, ds) ∈ l <-> exists m, pmods d !! a = Some m /\ p_project m = p /\ ds = if decide (a = i) then ids else p_deps m).
  { intros ds. unfold l. rewrite list_elem_of_fmap. split.
    - intros ([a' m] & [= -> ->] & [H1 H2]%elem_project_rows). eauto.
    - intros (m & H1 & H2 & ->). exists (a, m). split; [done|]. by apply elem_project_rows. }
  unfold edge, deps_of. rewrite (dget_dict_of _ _ ND). destruct (dget a l) as [ds|] eqn:E; cbn.
  - apply dget_elem_of, K in E as (m & H1 & H2 & ->). split; [eauto|]. intros (m' & H1' & _ & H). rewrite H1 in H1'. by injection H1' as <-.
  - split; [by intros ?%elem_of_nil|]. intros (m & H1 & H2 & _). apply dget_None in E. exfalso. apply E.
    apply (list_elem_of_fmap_2 fst _ (a, if decide (a = i) then ids else p_deps m)), K. eauto.
Qed.

Lemma legal_set_dependencies d i ids d' : legal d -> set_dependencies i ids d = (d', Ok tt) ->
  legal d' /\ (exists m, pmods d' !! i = Some m /\ p_deps m = ids) /\ (i ∉ ids) /\
  (forall j, j ∈ ids -> exists m x, pmods d !! i = Some m /\ pmods d !! j = Some x /\ p_project x = p_project m).
Proof.
  intros [L1 L2 L4 L3 L5]. unfold set_dependencies. destruct (pmods d !! i) as [m|] eqn:Em; [|done].
  pose proof (validate_dependencies_correct i ids (p_project m) (graph_module <$> project_rows (p_project m) d)) as V. cbv zeta in V.
  destruct (validate_dependencies _ _ _ _); try done. intros [= <-]. destruct V as (V1 & V2 & V3).
  assert (I : forall j, j ∈ ids -> exists x, pmods d !! j = Some x /\ p_project x = p_project m).
  { intros j Hj. apply V2 in Hj. unfold project_module_ids in Hj. rewrite elem_of_list_to_set in Hj.
    apply list_elem_of_fmap in Hj as (y & -> & [_ ([j x] & -> & Hx)%list_elem_of_fmap]%list_elem_of_filter). apply elem_project_rows in Hx. by exists x. }
  assert (X : pmods (with_pmods (alter (set_deps ids) i) d) !! i = Some (set_deps ids m)) by (cbn; by rewrite lookup_alter_eq, Em).
  split; [|split; [by exists (set_deps ids m)|split; [done|intros j (x & Hx & Hp)%I; by exists m, x]]].
  assert (G : forall j x, pmods (with_pmods (alter (set_deps ids) i) d) !! j = Some x ->
    exists y, pmods d !! j = Some y /\ p_project x = p_project y /\ p_path x = p_path y /\ (p_deps x = if decide (j = i) then ids else p_deps y) /\ p_lib x = p_lib y).
  { intros j x. destruct (decide (j = i)) as [->|H]; [rewrite X; intros [= <-]; by exists m|].
    cbn. rewrite lookup_alter_ne by done. intros Hx. exists x. by split_and!. }
  split.
  - intros j x (y & Hy & _ & _ & E & _)%G. destruct (L1 _ _ Hy) as [B1 B2]. split; [exact B1|]. rewrite E. case_decide as D; [|exact B2]. intros k (z & Hz & _)%I. by destruct (L1 _ _ Hz).
  - intros p c C. destruct (decide (p = p_project m)) as [->|Hp].
    + apply (V3 c). revert C. apply cycle_weaken. intros a b _ (x & (y & Hy & E1 & _ & E3 & _)%G & Hp & Hb)%edge_graph.
      apply hypothetical_edge; [by rewrite Em|]. exists y. split; [done|]. split; [congruence|]. by rewrite <- E3.
    + apply (L2 p c). revert C. apply cycle_weaken. intros a b _ (x & (y & Hy & E1 & _ & E3 & _)%G & Hx & Hb)%edge_graph.
      apply edge_graph. exists y. split; [done|]. split; [congruence|]. rewrite E3 in Hb. case_decide as D; [|done]. subst a. congruence.
  - intros a x b y (x' & Hx & E1 & _ & E3 & _)%G Hb (y' & Hy & F1 & _)%G. rewrite E1, F1. rewrite E3 in Hb. case_decide as D; [|by eapply L4].
    subst a. apply I in Hb as (z & Hz & Ez). congruence.
  - intros j k x y (x' & Hx & E1 & E2 & _)%G (y' & Hy & F1 & F2 & _)%G. rewrite E1, E2, F1, F2. eauto.
  - intros j x (y & Hy & _ & _ & _ & El)%G. unfold library_of. rewrite El. by apply (L5 j).
Qed.

Lemma legal_remove held i d d' : legal d -> remove_module held i d = (d', Ok tt) -> legal d' /\ held i = false /\ pmods d' = delete i (pmods d).
Proof.
  intros [L1 L2 L4 L3 L5]. unfold remove_module. destruct (pmods d !! i) as [m|] eqn:Em; [|done]. case_bool_decide; [done|]. destruct (held i); [done|]. intros [= <-].
  split; [|done]. split; cbn.
  - intros j x [_ Hx]%lookup_delete_Some. by apply L1.
  - intros p c C. apply (L2 p c). revert C. apply cycle_weaken. intros a b _ (x & Hx & Hp & Hb)%edge_graph. cbn in Hx. apply lookup_delete_Some in Hx as [_ Hx]. apply edge_graph. eauto.
  - intros a x b y [_ Hx]%lookup_delete_Some Hb [_ Hy]%lookup_delete_Some. by eapply L4.
  - intros j k x y [_ Hx]%lookup_delete_Some [_ Hy]%lookup_delete_Some. eauto.
  - intros j x [_ Hx]%lookup_delete_Some. by apply (L5 j).
Qed.

Lemma legal_version i v d d' j : legal d -> change_module_version i v d = (d', Ok j) ->
  legal d' /\ exists m l l', pmods d !! i = Some m /\ library_of d m = Some l /\ catalog d !! j = Some l' /\ pmods d' !! i = Some (set_lib j m) /\
    lb_path l' = lb_path l /\ lb_source l' = lb_source l /\ lb_version l' = strip v /\ (j = p_lib m \/ lb_active l' = true /\
      forall k x, catalog d !! k = Some x -> same_module l (strip v) x = true -> k <= j).
Proof.
  intros L. unfold change_module_version. destruct (pmods d !! i) as [m|] eqn:Em; [|done]. destruct (library_of d m) as [l|] eqn:El; [|done]. cbv zeta.
  destruct (String.eqb (strip v) ""); [done|]. destruct (String.eqb_spec (lb_version l) (strip v)) as [Ev|].
  - intros [= <- <-]. split; [done|]. exists m, l, l. rewrite Em, El. repeat (split; [done|]). split; [by destruct m|]. repeat (split; [done|]). by left.
  - destruct (select _ _).*1 as [|k ks] eqn:Es; [done|]. intros [= <- <-].
    assert (M : forall x, x ∈ k :: ks <-> exists y, catalog d !! x = Some y /\ same_module l (strip v) y = true).
    { intros x. rewrite <- Es, list_elem_of_fmap. split; [intros ([x' y] & -> & H%elem_of_select); eauto|]. intros (y & H). exists (x, y). split; [done|]. by apply elem_of_select. }
    assert (F : foldl Z.max k ks ∈ k :: ks /\ forall x, x ∈ k :: ks -> x <= foldl Z.max k ks).
    { clear. revert k. induction ks as [|a ks IH]; intros k; cbn; [split; [left|by intros x ->%list_elem_of_singleton]|]. destruct (IH (k `max` a)) as [I1 I2]. split.
      - apply elem_of_cons in I1 as [->|I1]; [|by right; right]. destruct (Z.max_spec k a) as [[_ ->]|[_ ->]]; [right; left|left].
      - intros x [->|[->|Hx]%elem_of_cons]%elem_of_cons.
        + specialize (I2 (k `max` a) ltac:(left)). lia.
        + specialize (I2 (k `max` a) ltac:(left)). lia.
        + apply I2. by right. }
    destruct F as [F1 F2]. apply M in F1 as (l' & H1 & H2). split; [apply legal_alter; [intros m0 _; split_and!; try done; intros _; by exists l'|exact L]|]. exists m, l, l'. split; [done|]. split; [done|]. split; [done|]. split; [cbn; by rewrite lookup_alter_eq, Em|].
    pose proof H2 as S. unfold same_module in S. apply andb_true_iff in S as [S1 S4]. apply andb_true_iff in S1 as [S1 S3]. apply andb_true_iff in S1 as [S1 S2].
    apply String.eqb_eq in S1, S2. apply bool_decide_eq_true in S3. repeat (split; [done|]). right. split; [done|]. intros x y Hx Hy. apply F2, M. eauto.
Qed.

(** *** Orders *)

Lemma fold_alter (f : Z * pmod -> pmod -> pmod) l : forall d, NoDup l.*1 ->
  let d' := foldl (fun d im => with_pmods (alter (f im) im.1) d) d l in
  catalog d' = catalog d /\ prows d' = prows d /\ p_next d' = p_next d /\
  forall i, pmods d' !! i = match dget i l with Some m => f (i, m) <$> pmods d !! i | None => pmods d !! i end.
Proof.
  induction l as [|[j m] l IH]; intros d ND; [done|]. apply NoDup_cons in ND as [Hj ND]. cbn [foldl]. destruct (IH (with_pmods (alter (f (j, m)) j) d) ND) as (E1 & E2 & E3 & E4).
  split; [done|]. split; [done|]. split; [done|]. intros i. rewrite E4. cbn [dget pmods with_pmods fst]. destruct (decide (i = j)) as [->|H].
  - apply dget_None in Hj. cbn in Hj. by rewrite Hj, lookup_alter_eq.
  - by rewrite lookup_alter_ne.
Qed.

Lemma enabled_rows_keys p d : NoDup (enabled_rows p d).*1.
Proof.
  unfold enabled_rows. pose proof (select_NoDup (fun _ m => in_project p m) (pmods d)) as H. unfold project_rows. induction (select _ _) as [|x l IH]; [constructor|].
  apply NoDup_cons in H as [Hx H]. destruct (decide (p_enabled x.2 = true)); [rewrite filter_cons_True by done|rewrite filter_cons_False by done; auto].
  cbn. constructor; [|auto]. intros (y & E & [_ Hy]%list_elem_of_filter)%list_elem_of_fmap. apply Hx. rewrite E. by apply list_elem_of_fmap_2.
Qed.
Lemma dget_enabled p d i m : dget i (enabled_rows p d) = Some m <-> pmods d !! i = Some m /\ p_project m = p /\ p_enabled m = true.
Proof.
  split.
  - intros H%dget_elem_of. apply list_elem_of_filter in H as [H1 H2]. apply elem_project_rows in H2. naive_solver.
  - intros (H1 & H2 & H3). apply elem_of_dget; [apply enabled_rows_keys|]. apply list_elem_of_filter. split; [done|]. by apply elem_project_rows.
Qed.
(** The graph the order is computed from: enabled modules only. *)
Definition enabled_graph (p : Z) (d : pdb) : deps_dict := module_dict ((fun im => graph_module im) <$> enabled_rows p d).

(** C25. A calculation changes nothing but the dependencies and orders of enabled modules.  It
    numbers them from 0 without repeats, each after those it depends on; or it reports a
    cycle among the dependencies it has just assigned. *)
Definition ordered (p : Z) (d' : pdb) : Prop :=
  (forall i m, dget i (enabled_rows p d') = Some m -> 0 <= p_order m < Z.of_nat (length (enabled_rows p d'))) /\
  (forall i j m x, dget i (enabled_rows p d') = Some m -> dget j (enabled_rows p d') = Some x -> p_order m = p_order x -> i = j) /\
  (forall i j m x, dget i (enabled_rows p d') = Some m -> dget j (enabled_rows p d') = Some x -> j ∈ p_deps m -> p_order x < p_order m).

Lemma order_correct p b d : prows d !! p <> None -> let '(d', r) := calculate_deployment_order p b d in
  (forall i, match dget i (enabled_rows p d) with
             | None => pmods d' !! i = pmods d !! i
             | Some m => exists n, pmods d' !! i = Some (set_order n (set_deps (deps_after p b d i m) m)) /\ ((forall os, r <> Ok os) -> n = p_order m)
             end) /\
  match r with
  | Ok _ => ordered p d'
  | Err e => exists c, e = Circular (CircularDependencyError c) /\
      is_cycle (module_dict ((fun im => graph_module (im.1, set_deps (deps_after p b d im.1 im.2) im.2)) <$> enabled_rows p d)) c
  end.
Proof.
  intros Hp. unfold calculate_deployment_order. rewrite bool_decide_eq_false_2 by done. cbv zeta. set (en := enabled_rows p d).
  pose proof (enabled_rows_keys p d) as ND. fold en in ND.
  destruct (fold_alter (fun im => set_deps (deps_after p b d im.1 im.2)) en d ND) as (A1 & A2 & A3 & A4). set (d1 := foldl _ d en) in *.
  set (ms := (fun im => graph_module (im.1, set_deps (deps_after p b d im.1 im.2) im.2)) <$> en).
  assert (Ids : forall i, i ∈ module_ids ms <-> i ∈ en.*1).
  { intros i. unfold module_ids, ms. rewrite elem_of_list_to_set, <- list_fmap_compose. done. }
  assert (L : forall i m, dget i en = Some m -> pmods d1 !! i = Some (set_deps (deps_after p b d i m) m)).
  { intros i m E. rewrite A4, E. apply dget_enabled in E as (-> & _). done. }
  destruct (sort_spec ms (module_dict ms) (module_dict_NoDup _)) as [(c & E & C)|[Ac _]].
  - unfold DepGraph.calculate_deployment_order. rewrite E. cbn. split; [|by exists c]. intros i. destruct (dget i en) as [m|] eqn:Em.
    + exists (p_order m). rewrite (L i m Em). split; [by destruct m|done].
    + by rewrite A4, Em.
  - destruct (deployment_order_correct ms Ac) as (orders & -> & O1 & O2 & O3 & O4 & O5). cbn.
    destruct (fold_alter (fun im => set_order (Z.of_nat (default 0%nat (dget im.1 orders)))) en d1 ND) as (B1 & B2 & B3 & B4). set (d2 := foldl _ d1 en) in *.
    assert (L2 : forall i m, dget i en = Some m -> pmods d2 !! i = Some (set_order (Z.of_nat (default 0%nat (dget i orders))) (set_deps (deps_after p b d i m) m))).
    { intros i m E. rewrite B4, E. cbn. by rewrite (L i m E). }
    split.
    + intros i. destruct (dget i en) as [m|] eqn:Em; [|by rewrite B4, Em, A4, Em]. exists (Z.of_nat (default 0%nat (dget i orders))). rewrite (L2 i m Em). split; [done|]. intros H. by destruct (H orders).
    + assert (En : forall i x, dget i (enabled_rows p d2) = Some x <-> exists m, dget i en = Some m /\ x = set_order (Z.of_nat (default 0%nat (dget i orders))) (set_deps (deps_after p b d i m) m)).
      { intros i x. rewrite dget_enabled. split.
        - intros (H1 & H2 & H3). rewrite B4, A4 in H1. destruct (dget i en) as [m|] eqn:Em.
          + exists m. split; [done|]. pose proof Em as (E & _)%dget_enabled. rewrite E in H1. cbn in H1. by injection H1 as <-.
          + exfalso. assert (X : dget i en = Some x) by (by apply dget_enabled). congruence.
        - intros (m & Em & ->). split; [by apply L2|]. apply dget_enabled in Em as (_ & ? & ?). done. }
      assert (Or : forall i m, dget i en = Some m -> exists o, dget i orders = Some o).
      { intros i m Em. destruct (dget i orders) as [o|] eqn:E; [by exists o|]. apply dget_None in E. exfalso. apply E, O2, Ids.
        apply dget_elem_of in Em. by apply (list_elem_of_fmap_2 fst) in Em. }
      assert (Sz : length (enabled_rows p d2) = length en).
      { rewrite <- (length_fmap fst (enabled_rows p d2)), <- (length_fmap fst en). apply Permutation_length, NoDup_Permutation; [apply enabled_rows_keys|exact ND|].
        intros i. split; intros ([i' x] & -> & Hx)%list_elem_of_fmap; cbn.
        - apply (elem_of_dget _ _ _ (enabled_rows_keys p d2)) in Hx. apply En in Hx as (m & Hm%dget_elem_of & _). by apply (list_elem_of_fmap_2 fst) in Hm.
        - apply (elem_of_dget _ _ _ ND) in Hx. assert (Y : exists y, dget i' (enabled_rows p d2) = Some y) by (eexists; apply En; eauto).
          destruct Y as [y Hy%dget_elem_of]. by apply (list_elem_of_fmap_2 fst) in Hy. }
      split; [|split].
      * intros i x (m & Em & ->)%En. destruct (Or i m Em) as [o Eo]. cbn. rewrite Eo. cbn. pose proof (O3 _ _ Eo) as Hlt. rewrite Sz.
        assert (S : (size (module_ids ms) <= length en)%nat).
        { unfold module_ids. rewrite size_list_to_set; [unfold ms; by rewrite !length_fmap|]. unfold ms. rewrite <- list_fmap_compose. exact ND. }
        lia.
      * intros i j x y (m & Em & ->)%En (m' & Em' & ->)%En E. destruct (Or i m Em) as [o Eo], (Or j m' Em') as [o' Eo']. cbn in E. rewrite Eo, Eo' in E. cbn in E.
        assert (o = o') as <- by lia. by eapply O5.
      * intros i j x y (m & Em & ->)%En (m' & Em' & ->)%En Hj. destruct (Or i m Em) as [o Eo], (Or j m' Em') as [o' Eo']. cbn. rewrite Eo, Eo'. cbn.
        destruct (O4 i j o) as (o'' & E'' & Hlt).
        { unfold edge, deps_of. unfold module_dict. rewrite dget_dict_of; [|unfold ms; rewrite <- !list_fmap_compose; exact ND].
          erewrite elem_of_dget; [exact Hj| |].
          - unfold ms. rewrite <- !list_fmap_compose. exact ND.
          - unfold ms. rewrite <- list_fmap_compose. apply list_elem_of_fmap. exists (i, m). split; [done|]. by apply dget_elem_of. }
        { apply Ids. apply dget_elem_of in Em'. by apply (list_elem_of_fmap_2 fst) in Em'. }
        { done. }
        assert (o'' = o') by congruence. lia.
Qed.

(** *** Requests in a row *)

Lemma calculate_keys p b d i : pmods (calculate_deployment_order p b d).1 !! i = None <-> pmods d !! i = None.
Proof.
  destruct (decide (prows d !! p = None)) as [H|H]; [unfold calculate_deployment_order; by rewrite bool_decide_eq_true_2|].
  pose proof (order_correct p b d H) as O. destruct (calculate_deployment_order p b d) as [d' r]. destruct O as [O _]. specialize (O i). cbn.
  destruct (dget i (enabled_rows p d)) as [m|] eqn:E; [|by rewrite O]. apply dget_enabled in E as (E & _). destruct O as (n & -> & _). by rewrite E.
Qed.
Lemma calculate_next p b d : p_next (calculate_deployment_order p b d).1 = p_next d /\ catalog (calculate_deployment_order p b d).1 = catalog d.
Proof.
  unfold calculate_deployment_order. destruct (bool_decide _); [done|]. cbv zeta. pose proof (enabled_rows_keys p d) as ND.
  destruct (fold_alter (fun im => set_deps (deps_after p b d im.1 im.2)) (enabled_rows p d) d ND) as (C & _ & E & _).
  destruct (DepGraph.calculate_deployment_order _) as [orders|e]; cbn; [|done].
  destruct (fold_alter (fun im => set_order (Z.of_nat (default 0%nat (dget im.1 orders)))) (enabled_rows p d)
    (foldl (fun d0 im => with_pmods (alter (set_deps (deps_after p b d im.1 im.2)) im.1) d0) d (enabled_rows p d)) ND) as (C' & _ & E' & _).
  by rewrite E', C', E, C.
Qed.

(** Dependencies derived anew are enabled modules of the project. *)
Lemma rederived_in d en i m l j : library_of d m = Some l -> j ∈ rederived d en i m -> j ∈ en.*1.
Proof.
  unfold rederived. intros ->. cbv zeta. case_match.
  - intros ([k x] & -> & [_ Hk]%list_elem_of_filter)%detect_in%list_elem_of_fmap. by apply (list_elem_of_fmap_2 fst) in Hk.
  - unfold resolve_flat. intros (n & _ & E)%list_elem_of_omap. destruct (dget n _) as [k|] eqn:Ek; [|done]. cbn in E. destruct (k =? i); [done|]. injection E as ->.
    apply dget_elem_of, dict_of_elem, list_elem_of_omap in Ek as ([k x] & Hk & E). cbn in E. destruct (library_of d x); [|done]. injection E as _ ->.
    by apply (list_elem_of_fmap_2 fst) in Hk.
Qed.

(** Along a chain inside a set that edges do not leave, a number that falls with
    every edge falls. *)
Lemma chain_falls d (P : Z -> Prop) (f : Z -> Z) : (forall a b, P a -> edge d a b -> P b /\ f b < f a) ->
  forall l x y, P x -> chain d (x :: l ++ [y]) -> f y < f x.
Proof.
  intros H l. induction l as [|z l IH]; intros x y Hx; cbn [app].
  - intros [E _]. by apply H.
  - intros [E C]. destruct (H x z Hx E) as [Hz Hf]. pose proof (IH z y Hz C). lia.
Qed.
Lemma cycle_meets d (P : Z -> Prop) (f : Z -> Z) c : (forall a b, P a -> edge d a b -> P b /\ f b < f a) -> is_cycle d c -> forall a, a ∈ c -> ~ P a.
Proof.
  intros H (x & l & -> & C) a Ha Pa. assert (Px : P x).
  { apply elem_of_cons in Ha as [->|Ha]; [done|]. apply elem_of_app in Ha as [Ha|Ha]; [|by apply list_elem_of_singleton in Ha as ->].
    apply list_elem_of_split in Ha as (l1 & l2 & ->).
    assert (G : forall l y, P y -> chain d (y :: l ++ [x]) -> P x).
    { clear -H. induction l as [|z l IH]; intros y Hy; cbn [app]; [intros [E _]; by eapply H|]. intros [E C]. apply (IH z); [|done]. by eapply H. }
    apply (G l2 a Pa). rewrite <- app_assoc in C. apply (chain_app d (x :: l1) a (l2 ++ [x])), C. }
  pose proof (chain_falls d P f H l x x Px C). lia.
Qed.

(** An order that can be computed keeps it: every enabled module is behind those
    it depends on, and none of them depends on a disabled one. *)
Lemma legal_calculate p b d d' os : legal d -> calculate_deployment_order p b d = (d', Ok os) -> legal d'.
Proof.
  intros [L1 L2 L4 L3 L5] E. assert (Hp : prows d !! p <> None).
  { intros H. unfold calculate_deployment_order in E. by rewrite bool_decide_eq_true_2 in E. }
  pose proof (order_correct p b d Hp) as O. destruct (calculate_next p b d) as [Nx Ca]. rewrite E in O, Nx, Ca. cbn in Nx, Ca. destruct O as [O (_ & _ & O3)].
  assert (G : forall i x, pmods d' !! i = Some x -> exists m, pmods d !! i = Some m /\ p_project x = p_project m /\ p_path x = p_path m /\ p_lib x = p_lib m /\ p_enabled x = p_enabled m /\
    p_deps x = if p_enabled m && bool_decide (p_project m = p) then deps_after p b d i m else p_deps m).
  { intros i x Hx. specialize (O i). destruct (dget i (enabled_rows p d)) as [m|] eqn:Em.
    - apply dget_enabled in Em as (Hm & Hq & He). destruct O as (n & O & _). rewrite O in Hx. injection Hx as <-. exists m. rewrite He, bool_decide_eq_true_2 by done. by split_and!.
    - rewrite O in Hx. exists x. split_and!; try done. destruct (p_enabled x && bool_decide (p_project x = p)) eqn:B; [|done]. bool_hyps.
      assert (X : dget i (enabled_rows p d) = Some x) by (by apply dget_enabled). congruence. }
  assert (I : forall i m j, pmods d !! i = Some m -> b = false -> j ∈ deps_after p b d i m -> exists x, pmods d !! j = Some x /\ p_project x = p /\ p_enabled x = true).
  { intros i m j Hm -> Hj. destruct (L5 i m Hm) as [l Hl]. apply (rederived_in _ _ _ _ l) in Hj; [|done].
    apply list_elem_of_fmap in Hj as ([j' x] & -> & Hj). exists x. apply dget_enabled, elem_of_dget; [apply enabled_rows_keys|done]. }
  split.
  - intros i x Hx. rewrite Nx. destruct (G i x Hx) as (m & Hm & _ & _ & _ & _ & Ed). destruct (L1 i m Hm) as [B1 B2]. split; [done|].
    rewrite Ed. destruct (_ && _); [|done]. unfold deps_after in *. destruct b; [done|]. intros j (y & Hy & _)%(I i m j Hm eq_refl). by destruct (L1 j y Hy).
  - intros q c C. destruct b.
    { apply (L2 q c). revert C. apply cycle_weaken. intros a a' _ (x & Hx & Hq & Ha)%edge_graph. destruct (G a x Hx) as (m & Hm & Eq & _ & _ & _ & Ed).
      apply edge_graph. exists m. rewrite Ed in Ha. rewrite <- Eq. unfold deps_after in Ha. by destruct (_ && _). }
    set (P := fun a => exists m, dget a (enabled_rows p d') = Some m). set (f := fun a => match pmods d' !! a with Some m => p_order m | None => 0 end).
    assert (F : q = p -> forall a a', P a -> edge (graph_of q d') a a' -> P a' /\ f a' < f a).
    { intros -> a a' [m Hm] (x & Hx & _ & Ha)%edge_graph. pose proof Hm as (Hm' & Hmp & He)%dget_enabled. rewrite Hm' in Hx. injection Hx as <-.
      destruct (G a m Hm') as (m0 & Hm0 & Eq & _ & _ & Ee & Ed). rewrite Ed, <- Ee, He, <- Eq, bool_decide_eq_true_2 in Ha by done. cbn [andb] in Ha.
      destruct (I a m0 a' Hm0 eq_refl Ha) as (y0 & Hy0 & Hyp & Hye).
      assert (X : exists y, dget a' (enabled_rows p d') = Some y).
      { specialize (O a'). assert (Z' : dget a' (enabled_rows p d) = Some y0) by (by apply dget_enabled). rewrite Z' in O. destruct O as (n & O & _). eexists. apply dget_enabled. rewrite O. split_and!; [reflexivity|done|done]. }
      destruct X as [y Hy]. split; [by exists y|]. pose proof Hy as (Hy' & _)%dget_enabled. unfold f. rewrite Hm', Hy'. apply (O3 a a' m y Hm Hy). rewrite Ed, <- Ee, He, <- Eq, bool_decide_eq_true_2 by done. done. }
    apply (L2 q c). assert (NP : q = p -> forall a, a ∈ c -> ~ P a) by (intros Eq; by apply (cycle_meets _ P f c (F Eq))).
    pose proof C as (x & l & -> & Hc). exists x, l. split; [done|]. revert Hc. apply chain_weaken. intros a a' Ha (y & Hy & Hq & Hd)%edge_graph.
    destruct (G a y Hy) as (m & Hm & Eq & _ & _ & Ee & Ed). apply edge_graph. exists m. split; [done|]. split; [congruence|].
    rewrite Ed in Hd. destruct (p_enabled m && bool_decide (p_project m = p)) eqn:B; [|done]. bool_hyps. exfalso.
    assert (Hqp : q = p) by congruence. apply (NP Hqp a Ha). exists y. apply dget_enabled. split_and!; congruence.
  - intros a x a' y Hx Ha Hy. destruct (G a x Hx) as (m & Hm & Eq & _ & _ & _ & Ed), (G a' y Hy) as (m' & Hm' & Eq' & _).
    rewrite Eq, Eq'. rewrite Ed in Ha. destruct (p_enabled m && bool_decide (p_project m = p)) eqn:B; [|by eapply L4]. bool_hyps.
    unfold deps_after in *. destruct b; [by eapply L4|]. destruct (I a m a' Hm eq_refl Ha) as (z & Hz & Hzp & _). congruence.
  - intros i j x y Hx Hy. destruct (G i x Hx) as (m & Hm & -> & -> & _), (G j y Hy) as (m' & Hm' & -> & -> & _). eauto.
  - intros i x Hx. destruct (G i x Hx) as (m & Hm & _ & _ & El & _). unfold library_of. rewrite El, Ca. by apply (L5 i).
Qed.

(** The requests of the routes.  [rc_enable] is the enabling of a module, whatever comes of the
    calculation it starts; [ed_enable] the one whose calculation succeeds.  A request that
    fails changes nothing. *)
Inductive edit : pdb -> pdb -> Prop :=
| ed_add d p lib path vs n e rs d' i : add_module p lib path vs n e rs d = (d', Ok i) -> edit d d'
| ed_update d i vs n e d' m : pmods d !! i = Some m -> e <> Some true \/ p_enabled m = true -> update_module i vs n e d = (d', Ok tt) -> edit d d'
| ed_enable d i vs n d' m os : pmods d !! i = Some m -> update_module i vs n (Some true) d = (d', Ok tt) ->
    calculate_deployment_order (p_project m) false (with_pmods (<[i := updated vs n (Some true) m]>) d) = (d', Ok os) -> edit d d'
| ed_version d i v d' j : change_module_version i v d = (d', Ok j) -> edit d d'
| ed_remove d held i d' : remove_module held i d = (d', Ok tt) -> edit d d'
| ed_dependencies d i ids d' : set_dependencies i ids d = (d', Ok tt) -> edit d d'
| ed_order d p b d' os : calculate_deployment_order p b d = (d', Ok os) -> edit d d'.
Inductive recalculation : pdb -> pdb -> Prop :=
| rc_enable d i vs n d' : update_module i vs n (Some true) d = (d', Ok tt) -> recalculation d d'.
Definition request (d d' : pdb) : Prop := edit d d' \/ recalculation d d'.

Lemma alter_const {A} (x y : A) (t : gmap Z A) i : t !! i = Some x -> <[i := y]> t = alter (fun _ => y) i t.
Proof.
  intros H. apply map_eq. intros j. destruct (decide (i = j)) as [->|Hj]; [by rewrite lookup_insert_eq, lookup_alter_eq, H|].
  by rewrite lookup_insert_ne, lookup_alter_ne.
Qed.

Lemma legal_updated i vs n e m d : pmods d !! i = Some m -> legal d -> legal (with_pmods (<[i := updated vs n e m]>) d).
Proof.
  intros Hm L. unfold with_pmods at 1. rewrite (alter_const m _ _ _ Hm). refine (legal_alter (fun _ => _) i d _ L).
  intros m0 Hm0. rewrite Hm in Hm0. injection Hm0 as <-. by split_and!.
Qed.

Lemma legal_edit d d' : edit d d' -> legal d -> legal d'.
Proof.
  intros [? ? ? ? ? ? ? ? ? ? E|d0 i vs n e ? m Hm He E|d0 i vs n ? m os Hm _ E|? ? ? ? ? E|? ? ? ? E|? ? ? ? E|? ? ? ? ? E] L.
  - by apply legal_add in E as [? _].
  - unfold update_module in E. rewrite Hm in E. destruct (match vs with Some _ => _ | None => _ end); [|done]. cbv zeta in E.
    assert (R : bool_decide (e = Some true) && negb (p_enabled m) = false).
    { destruct He as [He| ->]; [by rewrite bool_decide_eq_false_2|]. by rewrite andb_false_r. }
    rewrite R in E. cbn [andb] in E. injection E as <-. by apply legal_updated.
  - eapply legal_calculate; [|exact E]. by apply legal_updated.
  - by eapply legal_version in E as [? _].
  - by eapply legal_remove in E as [? _].
  - by eapply legal_set_dependencies in E as [? _].
  - by eapply legal_calculate.
Qed.

(** C24. Modules may be added, changed, enabled, re-pinned and removed, dependencies set and orders
    computed, in any number and order: a project's dependencies stay without cycles and inside
    it, and its paths distinct, as long as the order that enabling a module computes exists
    ([Example.reenabling_saves_cycle] is the other case). *)
Lemma edits_keep_legal d d' : rtc edit d d' -> legal d -> legal d'.
Proof. induction 1 as [|? ? ? E _ IH]; [done|]. intros L. by eapply IH, legal_edit. Qed.

(** *** What removal leaves *)

(** An id that was given out and is free stays free. *)
Lemma gone_for_good d d' i : request d d' -> i < p_next d -> pmods d !! i = None -> i < p_next d' /\ pmods d' !! i = None.
Proof.
  assert (U : forall d j vs n e, pmods d !! i = None -> i < p_next d -> forall d1, update_module j vs n e d = (d1, Ok tt) -> i < p_next d1 /\ pmods d1 !! i = None).
  { clear d. intros d j vs n e Hi Hlt d1. unfold update_module. destruct (pmods d !! j) as [m|] eqn:Ej; [|done]. destruct (match vs with Some _ => _ | None => _ end); [|done]. cbv zeta.
    assert (X : forall m', i < p_next (with_pmods (<[j := m']>) d) /\ pmods (with_pmods (<[j := m']>) d) !! i = None).
    { intros m'. split; [done|]. cbn. rewrite lookup_insert_ne; [done|]. intros <-. congruence. }
    destruct (_ && _); intros [= <-]; [|apply X]. rewrite (proj1 (calculate_next _ _ _)). split; [apply X|]. apply calculate_keys. apply X. }
  intros [[]|[]] Hlt Hi.
  - unfold add_module in H. destruct (bool_decide _); [done|]. destruct (catalog d0 !! lib); [|done]. destruct (bool_decide _); [done|].
    destruct (if bool_decide (vs = []) then _ else _); [|done]. injection H as <- _. cbn. split; [lia|]. rewrite lookup_insert_ne by lia. done.
  - by eapply U.
  - by eapply U.
  - unfold change_module_version in H. destruct (pmods d0 !! i0) as [m|] eqn:E; [|done]. destruct (library_of d0 m); [|done]. cbv zeta in H.
    destruct (String.eqb _ ""); [done|]. destruct (String.eqb _ _); [by injection H as <- _|]. destruct (select _ _).*1; [done|]. injection H as <- _. split; [done|]. cbn.
    by rewrite lookup_alter_None.
  - unfold remove_module in H. destruct (pmods d0 !! i0); [|done]. destruct (bool_decide _); [done|]. destruct (held i0); [done|]. injection H as <-. split; [done|]. cbn.
    apply lookup_delete_None. by right.
  - unfold set_dependencies in H. destruct (pmods d0 !! i0); [|done]. destruct (validate_dependencies _ _ _ _); try done. injection H as <-. split; [done|]. cbn. by rewrite lookup_alter_None.
  - destruct (calculate_next p b d0) as [N _]. pose proof (calculate_keys p b d0 i) as K. rewrite H in N, K. cbn in N, K. rewrite N. split; [done|]. by apply K.
  - by eapply U.
Qed.

(** Removing a module leaves its id with the modules that depend on it: none of them can be
    applied again, until its dependencies are set or derived anew. *)
Lemma removal_blocks held i d d1 d2 k m : i < p_next d -> remove_module held i d = (d1, Ok tt) -> rtc request d1 d2 ->
  pmods d2 !! k = Some m -> i ∈ p_deps m -> MissingModule i ∈ check_module_dependencies d2 m.
Proof.
  intros Hlt R S Hk Hi. assert (G : i < p_next d2 /\ pmods d2 !! i = None).
  { assert (G1 : i < p_next d1 /\ pmods d1 !! i = None).
    { unfold remove_module in R. destruct (pmods d !! i); [|done]. destruct (bool_decide _); [done|]. destruct (held i); [done|]. injection R as <-. split; [done|]. cbn. apply lookup_delete_eq. }
    clear -S G1. induction S as [|x y z E _ IH]; [done|]. apply IH. destruct G1. by eapply gone_for_good. }
  apply list_elem_of_omap. exists i. split; [done|]. by rewrite (proj2 G).
Qed.

(** The counts of a project are right after an addition, and one too high after a removal. *)
Lemma counts_after_add p lib path vs n e rs d d' i : add_module p lib path vs n e rs d = (d', Ok i) ->
  exists c, prows d' !! p = Some c /\ module_count c = count_if (in_project p) (pmods d') /\
    deployed_count c = count_if (fun m => in_project p m && bool_decide (p_status m = APPLIED)) (pmods d') /\
    failed_count c = count_if (fun m => in_project p m && failed_status (p_status m)) (pmods d').
Proof.
  unfold add_module. case_bool_decide as Hp; [done|]. destruct (catalog d !! lib); [|done]. destruct (bool_decide _); [done|].
  destruct (if bool_decide (vs = []) then _ else _); [|done]. intros [= <- _]. cbn. destruct (prows d !! p) as [c0|] eqn:E; [|done].
  eexists. rewrite lookup_alter_eq, E. split; [reflexivity|]. done.
Qed.
Lemma counts_after_removal held i d d' m : pmods d !! i = Some m -> remove_module held i d = (d', Ok tt) ->
  exists c, prows d' !! p_project m = Some c /\ module_count c = count_if (in_project (p_project m)) (pmods d') + 1.
Proof.
  intros Hm. unfold remove_module. rewrite Hm. case_bool_decide as Hp; [done|]. destruct (held i); [done|]. intros [= <-]. cbn.
  destruct (prows d !! p_project m) as [c|] eqn:E; [|done]. eexists. rewrite lookup_alter_eq, E. split; [reflexivity|]. cbn. unfold count_if.
  rewrite <- (insert_delete_id (pmods d) i m Hm) at 1. rewrite map_filter_insert_True by (cbn; unfold in_project; by apply bool_decide_eq_true_2).
  rewrite map_size_insert_None; [lia|]. apply map_lookup_filter_None. left. apply lookup_delete_eq.
Qed.

(** A module without a schema takes any values in an update, whatever its metadata says. *)
Lemma updates_unchecked i vs d m l : pmods d !! i = Some m -> library_of d m = Some l -> d_schema (lb_inputs l) = [] ->
  exists d', update_module i (Some vs) None None d = (d', Ok tt) /\ pmods d' !! i = Some
    {| p_project := p_project m; p_lib := p_lib m; p_path := p_path m; p_overrides := vs; p_order := p_order m; p_deps := p_deps m; p_status := p_status m; p_enabled := p_enabled m |}.
Proof.
  intros Hm Hl Hs. unfold update_module. rewrite Hm, Hl, Hs. cbv zeta. rewrite bool_decide_eq_false_2 by done. cbn [andb]. eexists. split; [reflexivity|]. cbn. by rewrite lookup_insert_eq.
Qed.
End laws.

(** ** Examples *)

Module Example.
#[local] Existing Instance elements_order.

Definition no_inputs : declared_inputs := {| d_meta := None; d_schema := [] |}.
Definition lib (name path : string) (meta : option (list string)) : catalog_row :=
  {| lb_name := name; lb_path := path; lb_version := "1.0"; lb_source := None; lb_active := true; lb_meta := meta; lb_flat := []; lb_inputs := no_inputs |}.
Definition empty_counts : counts := {| module_count := 0; deployed_count := 0; failed_count := 0 |}.
Definition start : pdb :=
  {| catalog := list_to_map [(10, lib "vpc" "infra/aws/vpc" (Some [])); (11, lib "eks" "infra/aws/eks" (Some ["aws/vpc"]));
                             (12, lib "ping" "app/ping" (Some ["app/pong"])); (13, lib "pong" "app/pong" (Some ["app/ping"]));
                             (14, lib "alpha" "x/alpha" None); (15, lib "beta" "x/beta" None); (16, lib "big-ip" "f5/big-ip" None)];
     prows := {[1 := empty_counts]}; pmods := ∅; p_next := 1 |}.
Definition add (l : Z) (path : string) (enabled : bool) (d : pdb) : pdb := (add_module 1 l path [] 0 enabled [] d).1.
Definition enable (b : bool) (i : Z) (d : pdb) : pdb := (update_module i None None (Some b) d).1.
Definition deps_now (d : pdb) : list (Z * list Z) := omap (fun i => (fun m => (i, p_deps m)) <$> pmods d !! i) [1; 2; 3].

Lemma legal_start : legal start.
Proof.
  assert (N : forall i, pmods start !! i = None) by (intros i; apply lookup_empty).
  split.
  - intros i m H. rewrite N in H. discriminate H.
  - intros p c (x & l & -> & H). assert (E : edge (graph_of p start) x (List.hd x (l ++ [x]))) by (destruct l; apply H).
    apply edge_graph in E as (m & E & _). rewrite N in E. discriminate E.
  - intros i m j x H. rewrite N in H. discriminate H.
  - intros i j m m0 H. rewrite N in H. discriminate H.
  - intros i m H. rewrite N in H. discriminate H.
Qed.

(** A module is put after those its metadata requires. *)
Definition cluster : pdb := add 11 "eks" true (add 10 "vpc" true start).
Example added : deps_now cluster = [(1, []); (2, [1])] /\ (p_order <$> pmods cluster !! 2) = Some 1.
Proof. vm_compute. done. Qed.

Lemma added_edits : rtc edit start cluster.
Proof.
  eapply rtc_l; [eapply (ed_add start 1 10 "vpc" [] 0 true []); vm_compute; reflexivity|].
  eapply rtc_l; [eapply (ed_add _ 1 11 "eks" [] 0 true []); vm_compute; reflexivity|]. vm_compute. apply rtc_refl.
Qed.
(** Disabled and enabled again: the order is computed anew. *)
Definition toggled : pdb := enable true 2 (enable false 2 cluster).
Lemma toggled_edits : rtc edit cluster toggled.
Proof.
  eapply rtc_l; [eapply (ed_update cluster 2 None None (Some false)); [vm_compute; reflexivity|by left|vm_compute; reflexivity]|].
  apply rtc_once. eapply (ed_enable _ 2 None None); [vm_compute; reflexivity|vm_compute; reflexivity|vm_compute; reflexivity].
Qed.
Lemma edits_keep_legal_witness : legal toggled /\ deps_now toggled = [(1, []); (2, [1])].
Proof.
  split; [|vm_compute; reflexivity]. exact (edits_keep_legal start toggled (transitivity added_edits toggled_edits) legal_start).
Defined.

Lemma order_correct_witness : exists d', (calculate_deployment_order 1 true cluster).1 = d' /\ ordered 1 d'.
Proof.
  assert (Hp : prows cluster !! 1 <> None) by (vm_compute; discriminate).
  pose proof (order_correct 1 true cluster Hp) as O.
  assert (E : is_Ok (calculate_deployment_order 1 true cluster).2 = true) by (vm_compute; reflexivity).
  destruct (calculate_deployment_order 1 true cluster) as [d' r]. exists d'. split; [reflexivity|]. destruct O as [_ O]. destruct r; [exact O|discriminate E].
Defined.

(** Two modules that require each other: enabling one again answers success and leaves them
    depending on each other. *)
Definition both : pdb := add 13 "pong" true (add 12 "ping" true start).
Example reenabling_saves_cycle : deps_now both = [(1, []); (2, [1])] /\
  (update_module 1 None None (Some true) (enable false 1 both)).2 = Ok tt /\ deps_now (enable true 1 (enable false 1 both)) = [(1, [2]); (2, [1])].
Proof. vm_compute. done. Qed.

(** The edges of a blueprint are lost when one of its optional modules is enabled. *)
Definition imported : pdb := (set_dependencies 2 [1] (add 10 "c" false (add 15 "b" true (add 14 "a" true start)))).1.
Example enabling_drops_edges : deps_now imported = [(1, []); (2, [1]); (3, [])] /\ deps_now (enable true 3 imported) = [(1, []); (2, []); (3, [])].
Proof. vm_compute. done. Qed.

(** A removed module stays among the dependencies of the others. *)
Definition removed : pdb := (remove_module (fun _ => false) 1 cluster).1.
Lemma removal_blocks_witness : exists m, pmods removed !! 2 = Some m /\ MissingModule 1 ∈ check_module_dependencies removed m.
Proof.
  destruct (pmods removed !! 2) as [m|] eqn:E; [|exfalso; vm_compute in E; discriminate]. exists m. split; [reflexivity|].
  apply (removal_blocks (fun _ => false) 1 cluster removed removed 2 m).
  - vm_compute. reflexivity.
  - vm_compute. reflexivity.
  - apply rtc_refl.
  - exact E.
  - vm_compute in E. injection E as <-. left.
Defined.
Lemma counts_after_removal_witness : exists c, prows removed !! 1 = Some c /\ module_count c = 2 /\ size (pmods removed) = 1%nat.
Proof.
  destruct (pmods cluster !! 1) as [m|] eqn:E; [|exfalso; vm_compute in E; discriminate].
  destruct (counts_after_removal (fun _ => false) 1 cluster removed m E) as (c & H1 & H2); [vm_compute; reflexivity|].
  assert (P : p_project m = 1) by (vm_compute in E; injection E as <-; reflexivity). rewrite P in *. exists c. split; [exact H1|].
  split; [rewrite H2; vm_compute; reflexivity|vm_compute; reflexivity].
Defined.

(** No rule whose key has a dash applies, as names lose theirs. *)
Example dashed_rules : by_rules start "big-ip" [(7, {| p_project := 1; p_lib := 11; p_path := "eks"; p_overrides := []; p_order := 0; p_deps := []; p_status := APPLIED; p_enabled := true |})] = [] /\
  by_rules start "f5" [(7, {| p_project := 1; p_lib := 11; p_path := "eks"; p_overrides := []; p_order := 0; p_deps := []; p_status := APPLIED; p_enabled := true |})] = [7].
Proof. vm_compute. done. Qed.
End Example.
