(* ===== verification/BenchmarkScenarios.v ===== *)
(** * Scenarios of benchmarks

    services/benchmark_scenarios.py: the registry of load-test recipes and
    their expansion into the configurations of child runs, with the check of
    overrides in schemas/benchmarks.py.  A configuration is a dict of flags; a
    decimal literal is kept as its digits. *)

From S2P Require Import Prelude Texts.
From stdpp Require Import pretty.

Open Scope string_scope.
Open Scope list_scope.
Open Scope Z_scope.

(** ** Flags *)

Inductive flag : Type :=
| FInt (z : Z)
| FStr (s : string)
| FBool (b : bool)
| FStrs (l : list string)
| FDict (d : list (string * string))
| FDecimal (digits : Z) (scale : nat)
| FNull.

#[global] Instance flag_eq_dec : EqDecision flag.
Proof. solve_decision. Defined.

Notation config := (list (string * flag)).

Definition SYNTHETIC_MODEL : string := "meta-llama/Llama-3.1-70B-Instruct".
Definition DEFAULT_SWEEP : list Z := [50; 100; 150; 200].
Definition HEAVY_CONC_ISL : list (Z * Z) := [(150, 5000); (200, 7000); (250, 9000); (300, 10000)].

(** [ScenarioPreset]; the builders take no argument, so a preset holds what
    its builder returns. *)
Record ScenarioPreset := {
  key : string;
  name : string;
  description : string;
  base_flags : config;
  build_variants : list config;
  trace_driven : bool;
  tags : list string
}.

Definition _synthetic_base (endpoint_type : string) : config :=
  [("model", FStr SYNTHETIC_MODEL); ("endpoint_type", FStr endpoint_type); ("streaming", FBool true);
   ("extra_inputs", FStrs ["ignore_eos:true"]); ("ui", FStr "none")].

Definition _rc_min (c mult floor : Z) : Z := Z.max (c * mult) floor.

(** ** Variants *)

(** [f"c{c}"] *)
Definition c_label (c : Z) : string := "c" +:+ pretty c.

Definition _baseline_variants : list config :=
  (fun c => [("_variant_label", FStr (c_label c)); ("concurrency", FInt c);
             ("request_count", FInt (_rc_min c 5 20));
             ("synthetic_input_tokens_mean", FInt 500); ("output_tokens_mean", FInt 128)])
  <$> DEFAULT_SWEEP.

Definition _high_concurrency_variants : list config :=
  (fun ci => [("_variant_label", FStr (c_label ci.1 +:+ "-isl" +:+ pretty ci.2)); ("concurrency", FInt ci.1);
              ("request_count", FInt (ci.1 * 5));
              ("synthetic_input_tokens_mean", FInt ci.2); ("output_tokens_mean", FInt 128)])
  <$> HEAVY_CONC_ISL.

Definition _mixed_workload_variants : list config :=
  [[("_variant_label", FStr "warmup"); ("_phase", FStr "warmup"); ("concurrency", FInt 50);
    ("request_count", FInt 150); ("synthetic_input_tokens_mean", FInt 500); ("output_tokens_mean", FInt 128)]] ++
  ((fun c => [("_variant_label", FStr ("short-" +:+ c_label c)); ("_phase", FStr "short"); ("concurrency", FInt c);
              ("request_count", FInt (c * 5));
              ("synthetic_input_tokens_mean", FInt 500); ("output_tokens_mean", FInt 64)])
   <$> DEFAULT_SWEEP) ++
  ((fun c => [("_variant_label", FStr ("long-" +:+ c_label c)); ("_phase", FStr "long"); ("concurrency", FInt c);
              ("request_count", FInt (c * 5));
              ("synthetic_input_tokens_mean", FInt 600); ("output_tokens_mean", FInt 128);
              ("prefix_prompt_length", FInt 1400); ("num_prefix_prompts", FInt 10)])
   <$> DEFAULT_SWEEP).

Definition turn_label (turn c : Z) : string := "turn" +:+ pretty turn +:+ "-" +:+ c_label c.

Definition _multi_turn_variants : list config :=
  ((fun c => [("_variant_label", FStr (turn_label 1 c)); ("_turn", FInt 1); ("concurrency", FInt c);
              ("request_count", FInt (c * 5));
              ("synthetic_input_tokens_mean", FInt 500); ("output_tokens_mean", FInt 128)])
   <$> DEFAULT_SWEEP) ++
  tp ← [(2, 500); (3, 1000); (4, 1500)];
  (fun c => [("_variant_label", FStr (turn_label tp.1 c)); ("_turn", FInt tp.1); ("concurrency", FInt c);
             ("request_count", FInt (c * 5));
             ("synthetic_input_tokens_mean", FInt 500); ("output_tokens_mean", FInt 128);
             ("prefix_prompt_length", FInt tp.2); ("num_prefix_prompts", FInt 10)])
  <$> DEFAULT_SWEEP.

Definition _prefix_cache_variants : list config :=
  (fun ci =>
     let prefix_len := ci.2 * 8 / 10 in
     let unique_len := ci.2 - prefix_len in
     [("_variant_label", FStr ("isl" +:+ pretty ci.2 +:+ "-" +:+ c_label ci.1)); ("concurrency", FInt ci.1);
      ("request_count", FInt (ci.1 * 5));
      ("synthetic_input_tokens_mean", FInt unique_len); ("synthetic_input_tokens_stddev", FInt (unique_len / 10));
      ("output_tokens_mean", FInt 128); ("num_prefix_prompts", FInt 20); ("prefix_prompt_length", FInt prefix_len)])
  <$> HEAVY_CONC_ISL.

Definition _bimodal_variants : list config :=
  (fun c => [("_variant_label", FStr (c_label c)); ("concurrency", FInt c);
             ("request_count", FInt (_rc_min c 5 20));
             ("seq_dist", FStr "300|100,64|16:70;4000|500,256|64:30")])
  <$> DEFAULT_SWEEP.

Definition _sustained_load_variants : list config :=
  (fun c => [("_variant_label", FStr (c_label c)); ("concurrency", FInt c); ("request_count", FInt (c * 10));
             ("synthetic_input_tokens_mean", FInt 1500); ("synthetic_input_tokens_stddev", FInt 300);
             ("output_tokens_mean", FInt 128)])
  <$> [50; 100; 150; 200; 250].

Definition _burst_recovery_variants : list config :=
  rnd ← [1; 2; 3; 4; 5];
  [[("_variant_label", FStr ("round" +:+ pretty rnd +:+ "-burst")); ("_round", FInt rnd); ("_phase", FStr "burst");
    ("concurrency", FInt 200); ("request_count", FInt 400);
    ("seq_dist", FStr "300|100,64|16:50;3000|400,200|50:50")];
   [("_variant_label", FStr ("round" +:+ pretty rnd +:+ "-probe")); ("_round", FInt rnd); ("_phase", FStr "probe");
    ("concurrency", FInt 25); ("request_count", FInt 50); ("synthetic_input_tokens_mean", FInt 256);
    ("synthetic_input_tokens_stddev", FInt 50); ("output_tokens_mean", FInt 64)]].

Definition MOONCAKE_MODEL : string := "Qwen/Qwen3-32B".
Definition MOONCAKE_TRACE_URL : string :=
  "https://raw.githubusercontent.com/kvcache-ai/Mooncake/refs/heads/main/" +:+
  "FAST25-release/traces/toolagent_trace.jsonl".
Definition MOONCAKE_DILATION : flag := FDecimal 80 2.

Definition _mooncake_variants : list config :=
  [[("_variant_label", FStr "trace"); ("_trace_dilation", MOONCAKE_DILATION); ("trace_url", FStr MOONCAKE_TRACE_URL);
    ("custom_dataset_type", FStr "mooncake_trace"); ("fixed_schedule", FBool true); ("random_seed", FInt 42);
    ("workers_max", FInt 200); ("request_timeout_seconds", FInt 1000); ("profile_export_level", FStr "summary");
    ("record_processors", FInt 8); ("goodput", FStr "time_to_first_token:5000 inter_token_latency:100")]].

(** ** The registry *)

(** [{**a, **b}] *)
Definition merge (a b : config) : config := foldl (fun d kv => dset kv.1 kv.2 d) a b.

Definition preset (k n d : string) (base : config) (vs : list config) (tr : bool) (tg : list string) :
    string * ScenarioPreset :=
  (k, {| key := k; name := n; description := d; base_flags := base; build_variants := vs; trace_driven := tr; tags := tg |}).

Definition SCENARIO_PRESETS : list (string * ScenarioPreset) :=
  [ preset "baseline" "Baseline"
      "ISL 500 / OSL 128, concurrency sweep {50,100,150,200}, rc=max(c*5,20)."
      (_synthetic_base "chat") _baseline_variants false ["synthetic"];
    preset "high-concurrency" "High Concurrency"
      ("Large prompts (ISL 5000-10000) / OSL 128, no prefix sharing, " +:+
       "(concurrency,ISL) pairs (150,5000)(200,7000)(250,9000)(300,10000), rc=c*5.")
      (_synthetic_base "chat") _high_concurrency_variants false ["synthetic"];
    preset "mixed-workload" "Mixed Workload"
      "Warmup + short + long phases per concurrency; long phase uses prefix prompts."
      (_synthetic_base "chat") _mixed_workload_variants false ["synthetic"; "multi-phase"];
    preset "multi-turn" "Multi-Turn"
      "Turn 1 no-prefix, turns 2-4 with growing prefix-prompt-length (500/1000/1500)."
      (_synthetic_base "chat") _multi_turn_variants false ["synthetic"; "prefix-cache"];
    preset "prefix-cache" "Prefix Cache (chat)"
      ("80% shared prefix on large prompts / OSL 128, 20 prefix prompts, " +:+
       "prefix-prompt-length 4000-8000 (unique-token mean 1000-2000), " +:+
       "(concurrency,ISL) pairs (150,5000)(200,7000)(250,9000)(300,10000).")
      (_synthetic_base "chat") _prefix_cache_variants false ["synthetic"; "prefix-cache"];
    preset "prefix-cache-completions" "Prefix Cache (completions)"
      "Same as prefix-cache but --endpoint-type completions with FP8 tokenizer."
      (merge (_synthetic_base "completions")
         [("tokenizer", FStr "neuralmagic/Meta-Llama-3.1-70B-Instruct-FP8"); ("_env", FDict [("HF_HOME", "/model-store")])])
      _prefix_cache_variants false ["synthetic"; "prefix-cache"; "completions"];
    preset "bimodal" "Bimodal"
      "Two-mode seq-dist (short 70% / long 30%), rc=max(c*5,20), sweep."
      (_synthetic_base "chat") _bimodal_variants false ["synthetic"];
    preset "sustained-load" "Sustained Load"
      "ISL 1500±300 / OSL 128, rc=c*10, sweep {50,100,150,200,250}."
      (_synthetic_base "chat") _sustained_load_variants false ["synthetic"];
    preset "burst-recovery" "Burst Recovery"
      "5 rounds of burst (c=200) + probe (c=25) phases."
      (_synthetic_base "chat") _burst_recovery_variants false ["synthetic"; "multi-phase"];
    preset "mooncake" "Mooncake Trace (production)"
      "Open-loop, trace-driven Qwen3-32B run with 0.80x time-dilation. No concurrency sweep."
      [("model", FStr MOONCAKE_MODEL); ("tokenizer", FStr MOONCAKE_MODEL); ("streaming", FBool true); ("ui", FStr "none")]
      _mooncake_variants true ["trace"; "production"] ].

(** [get_scenario]: a [KeyError] is [None]. *)
Definition get_scenario (scenario_key : string) : option ScenarioPreset := dget scenario_key SCENARIO_PRESETS.

Record CatalogRow := {
  row_key : string;
  row_name : string;
  row_description : string;
  row_trace_driven : bool;
  child_run_count : nat;
  row_tags : list string
}.

Definition list_scenarios : list CatalogRow :=
  (fun kp => {| row_key := key kp.2; row_name := name kp.2; row_description := description kp.2;
                row_trace_driven := trace_driven kp.2; child_run_count := length (build_variants kp.2);
                row_tags := tags kp.2 |}) <$> SCENARIO_PRESETS.

(** ** Expansion *)

Definition starts_underscore (k : string) : bool := String.prefix "_" k.

(** What a caller's overrides may not name. *)
Definition reserved (k : string) : bool := String.eqb k "trace_url" || starts_underscore k.

Definition safe_overrides (overrides : config) : config := filter (fun kv => reserved kv.1 = false) overrides.

(** [if model:] *)
Definition with_model (model : option string) (c : config) : config :=
  if truthy_str model then dset "model" (FStr (default "" model)) c else c.

Definition child_config (p : ScenarioPreset) (scenario_key base_url endpoint : string) (model : option string)
    (overrides : config) (variant : config) : config :=
  let c := merge (merge (base_flags p) variant)
             [("url", FStr base_url); ("endpoint", FStr endpoint); ("_scenario_key", FStr scenario_key)] in
  merge (with_model model c) (safe_overrides overrides).

Definition expand_scenario (scenario_key base_url endpoint : string) (model : option string) (overrides : config) :
    option (list config) :=
  p ← get_scenario scenario_key;
  Some (child_config p scenario_key base_url endpoint model overrides <$> build_variants p).

(** [ScenarioRunRequest.no_internal_keys]: the names it refuses. *)
Definition no_internal_keys (v : option config) : result (list string) (option config) :=
  match v with
  | None => Ok None
  | Some o =>
      let bad := filter (fun k => reserved k = true) o.*1 in
      match bad with [] => Ok (Some o) | _ => Err bad end
  end.

(** ** Dicts merged *)

Lemma merge_snoc a b kv : merge a (b ++ [kv]) = dset kv.1 kv.2 (merge a b).
Proof. unfold merge. by rewrite foldl_app. Qed.

(** The last of [b]'s pairs for a key wins, then [a]'s. *)
Lemma dget_merge k a b : dget k (merge a b) = match dget k (reverse b) with Some v => Some v | None => dget k a end.
Proof.
  induction b as [|[k' v] b IH] using rev_ind; [done|].
  rewrite merge_snoc, dget_dset, reverse_app. cbn. rewrite IH. by case_decide.
Qed.

Lemma dget_reverse k (l : config) : NoDup l.*1 -> dget k (reverse l) = dget k l.
Proof.
  intros Hl. destruct (dget k l) as [v|] eqn:E.
  - apply elem_of_dget; [rewrite fmap_reverse; by rewrite reverse_Permutation|]. apply elem_of_reverse.
    by apply dget_elem_of.
  - apply dget_None. rewrite fmap_reverse, elem_of_reverse. by apply dget_None.
Qed.

Lemma merge_NoDup a b : NoDup a.*1 -> NoDup (merge a b).*1.
Proof.
  intros Ha. induction b as [|kv b IH] using rev_ind; [done|]. rewrite merge_snoc. by apply dset_NoDup.
Qed.

Lemma filter_fst_NoDup_str (Q : string * flag -> Prop) `{!forall x, Decision (Q x)} (l : config) :
  NoDup l.*1 -> NoDup (filter Q l).*1.
Proof.
  induction l as [|x l IH]; [done|]. cbn [fmap list_fmap]. intros [Hx Hl]%NoDup_cons. rewrite filter_cons.
  case_decide; [|auto]. apply NoDup_cons. split; [|auto].
  intros (y & Hxy & [_ Hy]%list_elem_of_filter)%list_elem_of_fmap. apply Hx, list_elem_of_fmap. by exists y.
Qed.

Lemma safe_overrides_keys o k : k ∈ (safe_overrides o).*1 <-> k ∈ o.*1 /\ reserved k = false.
Proof.
  unfold safe_overrides. rewrite !list_elem_of_fmap. split.
  - intros ([k' v] & -> & [Hr Ho]%list_elem_of_filter). split; [by exists (k', v)|done].
  - intros [([k' v] & -> & Ho) Hr]. exists (k', v). split; [done|]. by apply list_elem_of_filter.
Qed.

Lemma dget_safe_overrides o k : NoDup o.*1 ->
  dget k (reverse (safe_overrides o)) = if reserved k then None else dget k o.
Proof.
  intros Ho. destruct (reserved k) eqn:Er.
  - apply dget_None. rewrite fmap_reverse, elem_of_reverse, safe_overrides_keys. intros [_ ?]. congruence.
  - rewrite dget_reverse.
    + destruct (dget k o) as [v|] eqn:E.
      * apply elem_of_dget; [by apply filter_fst_NoDup_str|].
        apply list_elem_of_filter. split; [done|]. by apply dget_elem_of.
      * apply dget_None. rewrite safe_overrides_keys. apply dget_None in E. by intros [? _].
    + by apply filter_fst_NoDup_str.
Qed.

(** ** The registry *)

(** The registry gives each preset under its own key, once. *)
Theorem registry_keyed : NoDup SCENARIO_PRESETS.*1 /\ Forall (fun kp => key kp.2 = kp.1) SCENARIO_PRESETS.
Proof.
  split; [apply (bool_decide_unpack _); vm_compute; exact I|repeat constructor].
Qed.

(** A variant's label, as the child run stores it. *)
Definition label_of (c : config) : option string :=
  match dget "_variant_label" c with Some (FStr s) => Some s | _ => None end.

Definition preset_ok (p : ScenarioPreset) : bool :=
  negb (bool_decide (build_variants p = [])) &&
  bool_decide (NoDup (label_of <$> build_variants p)) && bool_decide (None ∉ (label_of <$> build_variants p)) &&
  forallb (fun v => bool_decide (NoDup v.*1)) (build_variants p) && bool_decide (NoDup (base_flags p).*1).

Lemma presets_ok : forallb (fun kp => preset_ok kp.2) SCENARIO_PRESETS = true.
Proof. vm_compute. reflexivity. Qed.

Lemma get_scenario_elem k p : get_scenario k = Some p -> (k, p) ∈ SCENARIO_PRESETS.
Proof. apply dget_elem_of. Qed.

Lemma get_scenario_ok k p : get_scenario k = Some p -> preset_ok p = true.
Proof.
  intros H%get_scenario_elem. pose proof presets_ok as HP. rewrite forallb_forall in HP.
  by apply (HP (k, p)), list_elem_of_In.
Qed.

Lemma child_keys_label p k url ep m o v :
  dget "_variant_label" (child_config p k url ep m o v) = dget "_variant_label" (merge (base_flags p) v).
Proof.
  unfold child_config. rewrite dget_merge.
  replace (dget "_variant_label" (reverse (safe_overrides o))) with (@None flag).
  - unfold with_model. case_match; rewrite ?dget_dset; cbn; rewrite !dget_dset; by repeat (case_decide; [done|]).
  - symmetry. apply dget_None. rewrite fmap_reverse, elem_of_reverse, safe_overrides_keys. intros [_ [=]].
Qed.

Lemma expand_inv k url ep m o cs :
  expand_scenario k url ep m o = Some cs <->
  exists p, get_scenario k = Some p /\ cs = child_config p k url ep m o <$> build_variants p.
Proof.
  unfold expand_scenario. destruct (get_scenario k) as [p|]; cbn.
  - split; [intros [= <-]; eauto|by intros (? & [= <-] & ->)].
  - split; [done|by intros (? & [=] & _)].
Qed.

Lemma preset_labels k p : get_scenario k = Some p ->
  build_variants p <> [] /\ NoDup (label_of <$> build_variants p) /\ None ∉ (label_of <$> build_variants p) /\
  Forall (fun v => NoDup v.*1) (build_variants p) /\ NoDup (base_flags p).*1.
Proof.
  intros H%get_scenario_ok. unfold preset_ok in H. bool_hyps. split_and!; try done.
  apply Forall_forall. intros v Hv. rewrite forallb_forall in *.
  apply (bool_decide_eq_true_1 _). by apply H1, list_elem_of_In.
Qed.

(** No preset's base flags hold a label, so a child's label is its variant's. *)
Lemma base_unlabelled : forallb (fun kp => bool_decide (dget "_variant_label" (base_flags kp.2) = None)) SCENARIO_PRESETS = true.
Proof. vm_compute. reflexivity. Qed.

Lemma child_label k p url ep m o v : get_scenario k = Some p -> v ∈ build_variants p ->
  label_of (child_config p k url ep m o v) = label_of v.
Proof.
  intros Hp Hv. unfold label_of. rewrite child_keys_label, dget_merge, dget_reverse.
  - pose proof base_unlabelled as HB. rewrite forallb_forall in HB.
    specialize (HB (k, p)). cbn in HB. apply get_scenario_elem in Hp.
    rewrite (bool_decide_eq_true_1 _ (HB (proj1 (list_elem_of_In _ _) Hp))). by destruct (dget _ v).
  - apply preset_labels in Hp as (_ & _ & _ & HF & _). by rewrite Forall_forall in HF; apply HF.
Qed.

(** What a scenario expands into: at least one child, whatever is overridden
    the children have labels, and no two the same. *)
Theorem expansion_labels k url ep m o cs :
  expand_scenario k url ep m o = Some cs ->
  cs <> [] /\ NoDup (label_of <$> cs) /\ None ∉ (label_of <$> cs).
Proof.
  intros (p & Hp & ->)%expand_inv. pose proof (preset_labels k p Hp) as (Hne & Hnd & Hno & _).
  assert (E : label_of <$> (child_config p k url ep m o <$> build_variants p) = label_of <$> build_variants p).
  { rewrite <- list_fmap_compose. apply list_fmap_ext. intros i v Hv. cbn.
    eapply child_label; [done|by eapply list_elem_of_lookup_2]. }
  rewrite E. split_and!; [|done..]. intros H%fmap_nil_inv. done.
Qed.

(** A scenario expands exactly when the registry has its key; the number of
    children is the one the catalogue says. *)
Theorem expansion_total k url ep m o :
  (expand_scenario k url ep m o = None <-> k ∉ SCENARIO_PRESETS.*1) /\
  forall cs, expand_scenario k url ep m o = Some cs ->
  exists r, r ∈ list_scenarios /\ row_key r = k /\ child_run_count r = length cs.
Proof.
  split.
  - unfold expand_scenario. rewrite <- dget_None. change (dget k SCENARIO_PRESETS) with (get_scenario k).
    by destruct (get_scenario k).
  - intros cs (p & Hp & ->)%expand_inv. apply get_scenario_elem in Hp.
    eexists. split; [apply list_elem_of_fmap; exists (k, p); split; [reflexivity|done]|]. cbn.
    split; [|by rewrite length_fmap]. destruct registry_keyed as [_ HF]. rewrite Forall_forall in HF.
    exact (HF _ Hp).
Qed.

(** What a caller may change: in every child, a flag that is neither the
    trace's address nor internal is the override's where there is one; all
    other flags are what they are without overrides. *)
Theorem overrides_confined k url ep m o cs i c :
  NoDup o.*1 -> expand_scenario k url ep m o = Some cs -> cs !! i = Some c ->
  exists cs' c', expand_scenario k url ep m [] = Some cs' /\ cs' !! i = Some c' /\
  forall f, dget f c = match (if reserved f then None else dget f o) with Some v => Some v | None => dget f c' end.
Proof.
  intros Ho (p & Hp & ->)%expand_inv Hc. apply list_lookup_fmap_Some in Hc as (v & -> & Hv).
  do 2 eexists. split; [apply expand_inv; by exists p|].
  split; [rewrite list_lookup_fmap, Hv; reflexivity|]. intros f. unfold child_config.
  rewrite dget_merge, dget_safe_overrides by done. by rewrite (dget_merge f _ (safe_overrides [])).
Qed.

(** A child without overrides is sent to the address of the call and marked
    with its scenario. *)
Theorem child_address k url ep m cs c :
  expand_scenario k url ep m [] = Some cs -> c ∈ cs ->
  dget "url" c = Some (FStr url) /\ dget "endpoint" c = Some (FStr ep) /\ dget "_scenario_key" c = Some (FStr k) /\
  (truthy_str m = true -> dget "model" c = Some (FStr (default "" m))).
Proof.
  intros (p & Hp & ->)%expand_inv (v & -> & Hv)%list_elem_of_fmap. unfold child_config, with_model. cbn.
  destruct (truthy_str m); rewrite ?dget_dset; cbn; rewrite ?dget_dset; cbn; by split_and!.
Qed.

(** The two checks of overrides agree: what the request's validator lets pass,
    the expansion takes whole. *)
Theorem validator_agrees o :
  no_internal_keys (Some o) = Ok (Some o) <-> safe_overrides o = o.
Proof.
  unfold no_internal_keys, safe_overrides. split.
  - intros H. destruct (filter _ o.*1) as [|k l] eqn:E; [|done]. apply filter_all, Forall_forall.
    intros [k v] Hkv. cbn. destruct (reserved k) eqn:Er; [|done].
    assert (Hin : k ∈ filter (fun k => reserved k = true) o.*1); [|rewrite E in Hin; by apply elem_of_nil in Hin].
    apply list_elem_of_filter. split; [done|]. apply list_elem_of_fmap. by exists (k, v).
  - intros H. assert (E : filter (fun k => reserved k = true) o.*1 = []); [|by rewrite E].
    apply filter_none, Forall_forall. intros k ([k' v] & -> & Hkv)%list_elem_of_fmap. cbn.
    rewrite <- H in Hkv. apply list_elem_of_filter in Hkv as [E _]. cbn in E. by rewrite E.
Qed.

Example override_address :
  exists cs, expand_scenario "mooncake" "http://llm:8000" "/v1/chat/completions" None
    [("url", FStr "http://elsewhere"); ("trace_url", FStr "http://trace")] = Some cs /\
  (dget "url" <$> cs) = [Some (FStr "http://elsewhere")] /\
  (dget "trace_url" <$> cs) = [Some (FStr MOONCAKE_TRACE_URL)] /\
  no_internal_keys (Some [("url", FStr "http://elsewhere")]) = Ok (Some [("url", FStr "http://elsewhere")]).
Proof. eexists. vm_compute. split_and!; reflexivity. Qed.
