(* ===== verification/BenchmarkRuns.v ===== *)
(** * Runs of benchmarks

    services/benchmark_service.py and the handlers of routes/benchmarks.py:
    runs and their groups, the dispatch of one child after the other to an
    agent, what agents report over their WebSocket, cancels, baselines.

    A world holds the tables, the registry of connections and the commands
    agents were sent.  A handler is one step, except that a route which sends a
    command and then marks the run is two: what the agent reports can come
    between.  Times and durations are integers of one unit.  The numbers of a
    result are what parsing it yields ([Measured]); rates, latencies and their
    averages are left out. *)

From S2P Require Import Prelude Texts BenchmarkScenarios.

Open Scope string_scope.
Open Scope list_scope.
Open Scope Z_scope.

(** ** Data *)

Inductive RunStatus : Type := PENDING | RUNNING | COMPLETED | FAILED | CANCELLED.
Inductive AgentStatus : Type := CONNECTED | DISCONNECTED | BUSY.

#[global] Instance RunStatus_eq_dec : EqDecision RunStatus.
Proof. solve_decision. Defined.
#[global] Instance AgentStatus_eq_dec : EqDecision AgentStatus.
Proof. solve_decision. Defined.

(** [BenchmarkRunStatus.terminal_states] *)
Definition terminal (s : RunStatus) : bool :=
  match s with COMPLETED | FAILED | CANCELLED => true | PENDING | RUNNING => false end.

Record BenchmarkRun := {
  agent_id : option Z;
  run_group_id : option Z;
  target_id : option Z;
  scenario_key : option string;
  config_id : option Z;
  proxy : string;
  variant_label : option string;
  config_snapshot : option config;
  is_baseline : bool;
  run_status : RunStatus;
  error_message : option string;
  total_requests : option Z;
  successful_requests : option Z;
  failed_requests : option Z;
  duration_seconds : option Z;
  started_at : option Z;
  completed_at : option Z
}.

(** [_aggregate_children]: the variants listed and the counts of statuses. *)
Record Aggregate := {
  variants : list (Z * option string);
  status_counts : list (RunStatus * Z)
}.

Record RunGroup := {
  group_scenario : string;
  group_agent : option Z;
  group_status : RunStatus;
  total_runs : Z;
  completed_runs : Z;
  failed_runs : Z;
  aggregate_json : option Aggregate;
  group_started : option Z;
  group_completed : option Z
}.

Record Agent := {
  agent_name : string;
  agent_status : AgentStatus;
  last_heartbeat : option Z
}.

(** [ON DELETE SET NULL] of a group's agent. *)
Definition without_agent (g : RunGroup) : RunGroup :=
  {| group_scenario := group_scenario g; group_agent := None; group_status := group_status g; total_runs := total_runs g;
     completed_runs := completed_runs g; failed_runs := failed_runs g; aggregate_json := aggregate_json g;
     group_started := group_started g; group_completed := group_completed g |}.

(** What an agent is told. *)
Inductive command : Type :=
| RunCommand (agent run : Z) (c : option config)
| CancelCommand (agent run : Z).

Record World := {
  runs : gmap Z BenchmarkRun;
  groups : gmap Z RunGroup;
  agents : gmap Z Agent;
  configs : gmap Z config;
  conns : gmap Z Z;            (* [_agent_ws_connections] *)
  sent : list command
}.

Inductive bench_error : Type :=
| RunNotFound (i : Z)
| GroupNotFound (i : Z)
| ConfigNotFound (i : Z)
| AgentNotFound (i : Z)
| RunNotCompleted
| MissingTarget
| RunActive
| InvalidTransition
| UnknownScenario
| ProxyNotReady
| NoAgent
| AgentNotConnected.

Definition upd_runs (f : gmap Z BenchmarkRun -> gmap Z BenchmarkRun) (w : World) : World :=
  {| runs := f (runs w); groups := groups w; agents := agents w; configs := configs w; conns := conns w; sent := sent w |}.
Definition upd_groups (f : gmap Z RunGroup -> gmap Z RunGroup) (w : World) : World :=
  {| runs := runs w; groups := f (groups w); agents := agents w; configs := configs w; conns := conns w; sent := sent w |}.
Definition upd_agents (f : gmap Z Agent -> gmap Z Agent) (w : World) : World :=
  {| runs := runs w; groups := groups w; agents := f (agents w); configs := configs w; conns := conns w; sent := sent w |}.
Definition upd_conns (f : gmap Z Z -> gmap Z Z) (w : World) : World :=
  {| runs := runs w; groups := groups w; agents := agents w; configs := configs w; conns := f (conns w); sent := sent w |}.
Definition tell (c : command) (w : World) : World :=
  {| runs := runs w; groups := groups w; agents := agents w; configs := configs w; conns := conns w; sent := sent w ++ [c] |}.

(** ** Columns of a run that change *)

Definition set_status (s : RunStatus) (started : option Z) (r : BenchmarkRun) : BenchmarkRun :=
  {| agent_id := agent_id r; run_group_id := run_group_id r; target_id := target_id r; scenario_key := scenario_key r;
     config_id := config_id r; proxy := proxy r; variant_label := variant_label r; config_snapshot := config_snapshot r;
     is_baseline := is_baseline r; run_status := s; error_message := error_message r;
     total_requests := total_requests r; successful_requests := successful_requests r;
     failed_requests := failed_requests r; duration_seconds := duration_seconds r; started_at := started;
     completed_at := completed_at r |}.

Definition set_is_baseline (b : bool) (r : BenchmarkRun) : BenchmarkRun :=
  {| agent_id := agent_id r; run_group_id := run_group_id r; target_id := target_id r; scenario_key := scenario_key r;
     config_id := config_id r; proxy := proxy r; variant_label := variant_label r; config_snapshot := config_snapshot r;
     is_baseline := b; run_status := run_status r; error_message := error_message r;
     total_requests := total_requests r; successful_requests := successful_requests r;
     failed_requests := failed_requests r; duration_seconds := duration_seconds r; started_at := started_at r;
     completed_at := completed_at r |}.

(** [ON DELETE SET NULL] *)
Definition unlink (agent config : option Z) (r : BenchmarkRun) : BenchmarkRun :=
  {| agent_id := agent; run_group_id := run_group_id r; target_id := target_id r; scenario_key := scenario_key r;
     config_id := config; proxy := proxy r; variant_label := variant_label r; config_snapshot := config_snapshot r;
     is_baseline := is_baseline r; run_status := run_status r; error_message := error_message r;
     total_requests := total_requests r; successful_requests := successful_requests r;
     failed_requests := failed_requests r; duration_seconds := duration_seconds r; started_at := started_at r;
     completed_at := completed_at r |}.

(** [_cancel_single_run] *)
Definition _cancel_single_run (now : Z) (r : BenchmarkRun) : BenchmarkRun :=
  {| agent_id := agent_id r; run_group_id := run_group_id r; target_id := target_id r; scenario_key := scenario_key r;
     config_id := config_id r; proxy := proxy r; variant_label := variant_label r; config_snapshot := config_snapshot r;
     is_baseline := is_baseline r; run_status := CANCELLED; error_message := error_message r;
     total_requests := total_requests r; successful_requests := successful_requests r;
     failed_requests := failed_requests r;
     duration_seconds := match started_at r, duration_seconds r with
                         | Some s, None => Some (now - s)
                         | _, d => d
                         end;
     started_at := started_at r; completed_at := Some now |}.

(** What parsing a result yields. *)
Record Measured := {
  m_successful : Z;
  m_failed : Z;
  m_duration : Z;
  m_end : option Z
}.

(** The columns [complete_run_with_aiperf_result] writes. *)
Definition measure (now : Z) (m : Measured) (r : BenchmarkRun) : BenchmarkRun :=
  {| agent_id := agent_id r; run_group_id := run_group_id r; target_id := target_id r; scenario_key := scenario_key r;
     config_id := config_id r; proxy := proxy r; variant_label := variant_label r; config_snapshot := config_snapshot r;
     is_baseline := is_baseline r; run_status := COMPLETED; error_message := error_message r;
     total_requests := Some (m_successful m + m_failed m); successful_requests := Some (m_successful m);
     failed_requests := Some (m_failed m); duration_seconds := Some (m_duration m); started_at := started_at r;
     completed_at := Some (default now (m_end m)) |}.

(** The columns a reported failure writes. *)
Definition fail_run (now : Z) (msg : string) (r : BenchmarkRun) : BenchmarkRun :=
  {| agent_id := agent_id r; run_group_id := run_group_id r; target_id := target_id r; scenario_key := scenario_key r;
     config_id := config_id r; proxy := proxy r; variant_label := variant_label r; config_snapshot := config_snapshot r;
     is_baseline := is_baseline r; run_status := FAILED; error_message := Some (clip 1000 msg);
     total_requests := total_requests r; successful_requests := successful_requests r;
     failed_requests := failed_requests r; duration_seconds := duration_seconds r; started_at := started_at r;
     completed_at := Some now |}.

Section bench.
Context {SO : SetOrder Z}.

(** ** Groups *)

Definition get_run (i : Z) (w : World) : result bench_error BenchmarkRun :=
  match runs w !! i with Some r => Ok r | None => Err (RunNotFound i) end.

Definition in_group (g : Z) (r : BenchmarkRun) : bool := bool_decide (run_group_id r = Some g).
Definition has_status (s : RunStatus) (r : BenchmarkRun) : bool := bool_decide (run_status r = s).

(** The rows of a group, in an order the database chooses. *)
Definition children (g : Z) (w : World) : list (Z * BenchmarkRun) := select (fun _ r => in_group g r) (runs w).

Definition with_status (s : RunStatus) (l : list (Z * BenchmarkRun)) : list (Z * BenchmarkRun) :=
  filter (fun ir => run_status ir.2 = s) l.

(** [_aggregate_children] *)
Definition _aggregate_children (completed all_children : list (Z * BenchmarkRun)) : Aggregate :=
  {| variants := (fun ir => (ir.1, variant_label ir.2)) <$> completed;
     status_counts := foldl (fun counts ir => dset (run_status ir.2) (default 0 (dget (run_status ir.2) counts) + 1) counts)
                        [] all_children |}.

Definition count (l : list (Z * BenchmarkRun)) : Z := Z.of_nat (length l).

(** The columns a group gets: [over] is its status when it ends. *)
Definition recount (cs : list (Z * BenchmarkRun)) (st : RunStatus) (over : option Z) (g : RunGroup) : RunGroup :=
  {| group_scenario := group_scenario g; group_agent := group_agent g; group_status := st; total_runs := total_runs g;
     completed_runs := count (with_status COMPLETED cs); failed_runs := count (with_status FAILED cs);
     aggregate_json := match over with Some _ => Some (_aggregate_children (with_status COMPLETED cs) cs)
                                  | None => aggregate_json g end;
     group_started := group_started g; group_completed := match over with Some _ => over | None => group_completed g end |}.

(** The status a group ends with. *)
Definition final_status (cs : list (Z * BenchmarkRun)) : RunStatus :=
  match with_status COMPLETED cs, with_status CANCELLED cs, with_status FAILED cs with
  | _ :: _, _, _ => COMPLETED
  | [], _ :: _, [] => CANCELLED
  | [], _, _ => FAILED
  end.

Definition all_terminal (cs : list (Z * BenchmarkRun)) : bool :=
  forallb (fun ir => terminal (run_status ir.2)) cs && negb (bool_decide (cs = [])).

Definition finalized (now : Z) (cs : list (Z * BenchmarkRun)) (g : RunGroup) : RunGroup :=
  if all_terminal cs then recount cs (final_status cs) (Some now) g
  else recount cs
    (if bool_decide (group_status g = PENDING) && existsb (fun ir => has_status RUNNING ir.2) cs then RUNNING
     else group_status g) None g.

Definition maybe_finalize_run_group (now g : Z) (w : World) : World :=
  upd_groups (alter (finalized now (children g w)) g) w.

(** ** Dispatch of children *)

(** [ORDER BY id LIMIT 1] of the pending children. *)
Definition pending_ids (g : Z) (w : World) : list Z :=
  merge_sort Z.le (select (fun _ r => in_group g r && has_status PENDING r) (runs w)).*1.

Definition get_next_pending_group_run (g : Z) (w : World) : option Z := head (pending_ids g w).

(** [claim_pending_run]: the conditional UPDATE, and whether it changed a row. *)
Definition claim_pending_run (now i : Z) (w : World) : World * bool :=
  match runs w !! i with
  | Some r => if has_status PENDING r then (upd_runs (<[i := set_status RUNNING (Some now) r]>) w, true) else (w, false)
  | None => (w, false)
  end.

Definition release_claimed_run (i : Z) (w : World) : World :=
  match runs w !! i with
  | Some r => if has_status RUNNING r then upd_runs (<[i := set_status PENDING None r]>) w else w
  | None => w
  end.

(** [send_command_to_agent]: [goes] says whether the socket takes the text. *)
Definition send_command_to_agent (agent : Z) (c : command) (goes : bool) (w : World) : World * bool :=
  if bool_decide (is_Some (conns w !! agent)) && goes then (tell c w, true) else (w, false).

Definition _dispatch_next_group_child (now agent g : Z) (goes : bool) (w : World) : World :=
  match get_next_pending_group_run g w with
  | None => w
  | Some i =>
      let snapshot := match runs w !! i with Some r => config_snapshot r | None => None end in
      let cw := claim_pending_run now i w in
      if cw.2 then
        let sw := send_command_to_agent agent (RunCommand agent i snapshot) goes cw.1 in
        if sw.2 then sw.1 else release_claimed_run i sw.1
      else w
  end.

(** ** Agents *)

Definition update_agent_status (now a : Z) (s : AgentStatus) (w : World) : result bench_error World :=
  match agents w !! a with
  | Some x => Ok (upd_agents (<[a := {| agent_name := agent_name x; agent_status := s; last_heartbeat := Some now |}]>) w)
  | None => Err (AgentNotFound a)
  end.

Definition update_agent_heartbeat (now a : Z) (w : World) : result bench_error World :=
  match agents w !! a with
  | Some x => Ok (upd_agents (<[a := {| agent_name := agent_name x; agent_status := agent_status x;
                                        last_heartbeat := Some now |}]>) w)
  | None => Err (AgentNotFound a)
  end.

(** [register_agent]: by name. *)
Definition register_agent (now fresh : Z) (name : string) (w : World) : World * Z :=
  let row := {| agent_name := name; agent_status := CONNECTED; last_heartbeat := Some now |} in
  match select (fun _ a => bool_decide (agent_name a = name)) (agents w) with
  | (a, _) :: _ => (upd_agents (<[a := row]>) w, a)
  | [] => (upd_agents (<[fresh := row]>) w, fresh)
  end.

Definition delete_agent (a : Z) (w : World) : result bench_error World :=
  match agents w !! a with
  | None => Err (AgentNotFound a)
  | Some _ => Ok (upd_runs (fmap (fun r => if decide (agent_id r = Some a) then unlink None (config_id r) r else r))
                 (upd_groups (fmap (fun g => if decide (group_agent g = Some a) then without_agent g else g))
                 (upd_agents (delete a) w)))
  end.

Definition _agent_owns_run (a i : Z) (w : World) : bool :=
  match get_run i w with Ok r => bool_decide (agent_id r = Some a) | Err _ => false end.

(** [_status_for_heartbeat] *)
Definition _status_for_heartbeat (reported : option string) : AgentStatus :=
  if bool_decide (reported = Some "running") then BUSY else CONNECTED.

(** A handler's [except]: the transaction is rolled back. *)
Definition rolled (w : World) (x : result bench_error World) : World := match x with Ok w' => w' | Err _ => w end.

(** ** What an agent reports *)

(** The [result] of a [run_completed]: falsy, such that parsing raises, or
    read. *)
Inductive payload : Type := Missing | Malformed | Read (m : Measured).

(** [complete_run_with_aiperf_result] on a result that was read. *)
Definition complete_run_with_aiperf_result (now i : Z) (m : Measured) (w : World) : result bench_error World :=
  r ← get_run i w;
  let w1 := upd_runs (<[i := measure now m r]>) w in
  Ok (match run_group_id r with Some g => maybe_finalize_run_group now g w1 | None => w1 end).

(** The branch [run_completed] of [agent_websocket]. *)
Definition run_completed (now a i : Z) (p : payload) (goes : bool) (w : World) : World :=
  match update_agent_status now a CONNECTED w with
  | Err _ => w
  | Ok w1 =>
      match p with
      | Missing => w1
      | _ =>
          if _agent_owns_run a i w1 then
            match p with
            | Read m =>
                match complete_run_with_aiperf_result now i m w1 with
                | Ok w2 =>
                    match get_run i w2 with
                    | Ok done => match run_group_id done with
                                 | Some g => _dispatch_next_group_child now a g goes w2
                                 | None => w2
                                 end
                    | Err _ => w
                    end
                | Err _ => w
                end
            | _ => w
            end
          else w1
      end
  end.

(** The branch [run_failed]. *)
Definition run_failed (now a i : Z) (msg : string) (goes : bool) (w : World) : World :=
  match update_agent_status now a CONNECTED w with
  | Err _ => w
  | Ok w1 =>
      if _agent_owns_run a i w1 then
        match runs w1 !! i with
        | Some r =>
            if has_status PENDING r || has_status RUNNING r then
              let w2 := upd_runs (<[i := fail_run now msg r]>) w1 in
              match run_group_id r with
              | Some g => _dispatch_next_group_child now a g goes (maybe_finalize_run_group now g w2)
              | None => w2
              end
            else w1
        | None => w1
        end
      else w1
  end.

(** The branch [heartbeat]. *)
Definition heartbeat (now a : Z) (reported : option string) (w : World) : World :=
  rolled w (w1 ← update_agent_heartbeat now a w; update_agent_status now a (_status_for_heartbeat reported) w1).

(** A connection is taken: it replaces the agent's former one. *)
Definition connected (now a socket : Z) (w : World) : World :=
  let w1 := upd_conns (<[a := socket]>) w in
  rolled w1 (update_agent_status now a CONNECTED w1).

Definition _owns_agent_connection (a socket : Z) (w : World) : bool := bool_decide (conns w !! a = Some socket).

(** The [finally] of a connection. *)
Definition disconnected (now a socket : Z) (w : World) : World :=
  if _owns_agent_connection a socket w then
    let w1 := upd_conns (delete a) w in rolled w1 (update_agent_status now a DISCONNECTED w1)
  else w.

(** ** Requests *)

Definition delete_run (i : Z) (w : World) : result bench_error World :=
  r ← get_run i w;
  _ ← ensure (negb (has_status RUNNING r)) RunActive;
  Ok (upd_runs (delete i) w).

(** [_cancel_group_siblings] with the run itself. *)
Definition cancel_children (now g i : Z) (t : gmap Z BenchmarkRun) : gmap Z BenchmarkRun :=
  map_imap (fun j r => Some (if bool_decide (j = i) || (in_group g r && negb (terminal (run_status r)))
                             then _cancel_single_run now r else r)) t.

Definition _finalize_group_cancelled (now g : Z) (w : World) : World :=
  upd_groups (alter (recount (children g w) CANCELLED (Some now)) g) w.

Definition cancel_run (now i : Z) (w : World) : result bench_error World :=
  r ← get_run i w;
  _ ← ensure (negb (terminal (run_status r))) InvalidTransition;
  Ok (match run_group_id r with
      | None => upd_runs (<[i := _cancel_single_run now r]>) w
      | Some g => _finalize_group_cancelled now g (upd_runs (cancel_children now g i) w)
      end).

Definition find_running_group_child (g : Z) (w : World) : option (Z * BenchmarkRun) :=
  head (with_status RUNNING (children g w)).

(** The route [cancel_benchmark_run]. *)
Definition cancel_benchmark_run (now i : Z) (goes : bool) (w : World) : result bench_error World :=
  target ← get_run i w;
  let live := match run_group_id target with
              | Some g => match find_running_group_child g w with
                          | Some (j, r) => (agent_id r, Some j)
                          | None => (None, None)
                          end
              | None => (agent_id target, Some i)
              end in
  w1 ← cancel_run now i w;
  Ok (match live with
      | (Some a, Some j) => (send_command_to_agent a (CancelCommand a j) goes w1).1
      | _ => w1
      end).

(** ** Baselines *)

(** The identity of a run's context. *)
Definition context (r : BenchmarkRun) : option Z * option string * option Z * string * option string :=
  (target_id r, scenario_key r, config_id r, proxy r, variant_label r).

Definition set_baseline (i : Z) (w : World) : result bench_error World :=
  r ← get_run i w;
  _ ← ensure (has_status COMPLETED r) RunNotCompleted;
  _ ← ensure (bool_decide (is_Some (target_id r))) MissingTarget;
  Ok (upd_runs (map_imap (fun j x =>
        Some (if bool_decide (context x = context r) then
                if bool_decide (j = i) then set_is_baseline true x
                else if is_baseline x then set_is_baseline false x else x
              else x))) w).

Definition unset_baseline (i : Z) (w : World) : result bench_error World :=
  r ← get_run i w; Ok (upd_runs (<[i := set_is_baseline false r]>) w).

(** [_attach_baseline_context]: for each run the run its numbers are compared
    with. *)
Definition _attach_baseline_context (rs : list (Z * BenchmarkRun)) (w : World) : list (option Z) :=
  let target_ids := omap (fun ir => target_id ir.2) rs in
  let candidates := select (fun _ r => is_baseline r && match target_id r with Some t => bool_decide (t ∈ target_ids) | None => false end) (runs w) in
  let baselines := dict_of ((fun ir => (context ir.2, ir.1)) <$> candidates) in
  (fun ir => match dget (context ir.2) baselines with
             | Some b => if bool_decide (b = ir.1) then None else Some b
             | None => None
             end) <$> rs.

(** [delete_config]: the runs that used it stay, unlinked. *)
Definition delete_config (c : Z) (w : World) : result bench_error World :=
  match configs w !! c with
  | None => Err (ConfigNotFound c)
  | Some _ => Ok {| runs := (fun r => if decide (config_id r = Some c) then unlink (agent_id r) None r else r) <$> runs w;
                    groups := groups w; agents := agents w; configs := delete c (configs w); conns := conns w;
                    sent := sent w |}
  end.

(** ** Starting runs *)

(** [if x:] *)
Definition given_int (x : option Z) : option Z := match x with Some z => if z =? 0 then None else Some z | None => None end.

(** The agent a request names, or one that is connected. *)
Definition resolve_agent (named : option Z) (w : World) : result bench_error Z :=
  a ← match given_int named with
      | Some a => Ok a
      | None => match select (fun _ x => bool_decide (agent_status x = CONNECTED)) (agents w) with
                | (a, _) :: _ => Ok a
                | [] => Err NoAgent
                end
      end;
  match agents w !! a with
  | None => Err (AgentNotFound a)
  | Some x => _ ← ensure (bool_decide (agent_status x = CONNECTED)) AgentNotConnected; Ok a
  end.

(** The request and the rows of its target and proxy that a run takes over. *)
Record StartRequest := {
  s_ready : bool;              (* the proxy's status is ready or discovered *)
  s_target : Z;
  s_target_name : string;
  s_model : string;
  s_endpoint : string;
  s_base_url : string;
  s_proxy_type : string;
  s_config : option Z;
  s_timeout : option Z;
  s_total_requests : option Z;
  s_max_tokens : option Z;
  s_overrides : option config
}.

(** [x or d] *)
Definition or_int (x : option Z) (d : Z) : Z := match x with Some z => if z =? 0 then d else z | None => d end.
Definition or_str (x d : string) : string := if String.eqb x "" then d else x.

(** The flags [trigger_benchmark_run] builds. *)
Definition config_json (q : StartRequest) : config :=
  let base := [("url", FStr (s_base_url q)); ("model", FStr (s_model q)); ("endpoint_type", FStr "chat");
               ("endpoint", FStr (or_str (s_endpoint q) "/v1/chat/completions")); ("streaming", FBool true);
               ("request_timeout_seconds", FInt (or_int (s_timeout q) 600)); ("concurrency", FInt 50);
               ("request_count", FInt 250); ("synthetic_input_tokens_mean", FInt 500);
               ("output_tokens_mean", FInt 128); ("extra_inputs", FStrs ["ignore_eos:true"]); ("ui", FStr "none");
               ("_proxy_type", FStr (s_proxy_type q)); ("_target_name", FStr (s_target_name q))] in
  let c1 := match given_int (s_total_requests q) with Some n => dset "request_count" (FInt n) base | None => base end in
  match given_int (s_max_tokens q) with Some n => dset "output_tokens_mean" (FInt n) c1 | None => c1 end.

(** [create_run] through the route: up to the first commit. *)
Definition create_run (q : StartRequest) (a i : Z) (w : World) : result bench_error World :=
  c ← match given_int (s_config q) with
      | None => Ok (config_json q)
      | Some k => match configs w !! k with
                  | Some saved => Ok (merge saved (config_json q))
                  | None => Err (ConfigNotFound k)
                  end
      end;
  Ok (upd_runs (<[i := {| agent_id := Some a; run_group_id := None; target_id := Some (s_target q); scenario_key := None;
                          config_id := s_config q; proxy := s_proxy_type q; variant_label := None;
                          config_snapshot := Some c; is_baseline := false; run_status := PENDING; error_message := None;
                          total_requests := None; successful_requests := None; failed_requests := None;
                          duration_seconds := None; started_at := None; completed_at := None |}]>) w).

(** A child run of a scenario. *)
Definition child_row (q : StartRequest) (scenario : string) (a g : Z) (c : config) : BenchmarkRun :=
  {| agent_id := Some a; run_group_id := Some g; target_id := Some (s_target q); scenario_key := Some scenario;
     config_id := None; proxy := or_str (s_proxy_type q) "nodeport"; variant_label := label_of c;
     config_snapshot := Some c; is_baseline := false; run_status := PENDING; error_message := None;
     total_requests := None; successful_requests := None; failed_requests := None; duration_seconds := None;
     started_at := None; completed_at := None |}.

(** The ids the sequence gives to [n] rows. *)
Definition new_ids (next : Z) (n : nat) : list Z := (fun k => next + Z.of_nat k) <$> seq 0 n.

Definition create_run_group_from_scenario (q : StartRequest) (scenario : string) (a g next : Z) (w : World) :
    result bench_error (World * list Z) :=
  match expand_scenario scenario (s_base_url q) (or_str (s_endpoint q) "/v1/chat/completions") (Some (s_model q))
          (default [] (s_overrides q)) with
  | None => Err UnknownScenario
  | Some cs =>
      let group := {| group_scenario := scenario; group_agent := Some a; group_status := PENDING;
                      total_runs := Z.of_nat (length cs); completed_runs := 0; failed_runs := 0; aggregate_json := None;
                      group_started := None; group_completed := None |} in
      let ids := new_ids next (length cs) in
      let rows := zip ids (child_row q scenario a g <$> cs) in
      Ok (upd_runs (fun t => list_to_map rows ∪ t) (upd_groups (<[g := group]>) w), ids)
  end.

(** The first send of a route, and what it writes when the text went out. *)
Definition send_run (a i : Z) (goes : bool) (w : World) : World * bool :=
  let snapshot := match runs w !! i with Some r => config_snapshot r | None => None end in
  send_command_to_agent a (RunCommand a i snapshot) goes w.

Definition mark_running (now i : Z) (w : World) : World := upd_runs (alter (set_status RUNNING (Some now)) i) w.

Definition mark_group (now g : Z) (w : World) : World :=
  upd_groups (alter (fun x => {| group_scenario := group_scenario x; group_agent := group_agent x;
    group_status := RUNNING; total_runs := total_runs x; completed_runs := completed_runs x; failed_runs := failed_runs x;
    aggregate_json := aggregate_json x; group_started := Some now; group_completed := group_completed x |}) g) w.

(** [run_benchmark_scenario] and [trigger_benchmark_run]: up to the send, and
    with what follows when nothing comes between. *)
Definition start_scenario (q : StartRequest) (scenario : string) (named : option Z) (g next : Z) (goes : bool) (w : World) :
    result bench_error (World * option Z) :=
  _ ← ensure (s_ready q) ProxyNotReady;
  a ← resolve_agent named w;
  wi ← create_run_group_from_scenario q scenario a g next w;
  Ok (match wi.2 with
      | [] => (wi.1, None)
      | i :: _ => let ws := send_run a i goes wi.1 in (ws.1, if ws.2 then Some i else None)
      end).

Definition mark_started (now g : Z) (first : option Z) (w : World) : World :=
  match first with Some i => mark_group now g (mark_running now i w) | None => w end.

Definition run_benchmark_scenario (now : Z) (q : StartRequest) (scenario : string) (named : option Z) (g next : Z)
    (goes : bool) (w : World) : result bench_error World :=
  wf ← start_scenario q scenario named g next goes w; Ok (mark_started now g wf.2 wf.1).

Definition trigger_benchmark_run (now : Z) (q : StartRequest) (named : option Z) (i : Z) (goes : bool) (w : World) :
    result bench_error World :=
  _ ← ensure (s_ready q) ProxyNotReady;
  a ← resolve_agent named w;
  w1 ← create_run q a i w;
  let ws := send_run a i goes w1 in
  Ok (if ws.2 then mark_running now i ws.1 else ws.1).
End bench.

(** ** The handshake of an agent's WebSocket *)

Section handshake.
Context (decode_token : string -> option (list (string * json)))   (* auth_service: the claims of a valid token *)
        (token_user_state : string -> option bool).                (* its active user: must the password change? *)

(** [int(x)] of a claim; [None] where Python raises. *)
Definition int_of (j : json) : option Z :=
  match j with
  | JInt z => Some z
  | JBool b => Some (if b then 1 else 0)
  | JStr s => py_int s
  | _ => None
  end.

(** [_agent_ws_authorized]: the close code, or [None]. *)
Definition _agent_ws_authorized (agent_auth_required require_auth : bool) (token : option string) (agent : Z) : option Z :=
  if agent_auth_required then
    if truthy_str token then
      match decode_token (default "" token) with
      | None => Some 4401
      | Some payload =>
          match dget "agent_id" payload with
          | None | Some JNull => Some 4401
          | Some claim => if bool_decide (int_of claim = Some agent) then None else Some 4401
          end
      end
    else Some 4401
  else if negb require_auth then None
  else if truthy_str token then
    match decode_token (default "" token) with
    | None => Some 4001
    | Some payload =>
        if match dget "role" payload with Some (JStr role) => String.eqb role "agent" | _ => false end then None
        else match token_user_state (default "" token) with Some false => None | _ => Some 4001 end
    end
  else Some 4001.
End handshake.
