(* ===== verification/BenchmarkLaws.v ===== *)
(** * What holds of benchmark runs

    Theorems on BenchmarkRuns.v: how a group ends, that its children run one
    after the other, what a cancel leaves, baselines, who may connect. *)

From S2P Require Import Prelude Texts BenchmarkScenarios BenchmarkRuns.

Open Scope string_scope.
Open Scope list_scope.
Open Scope Z_scope.

Section groups.
Context {SO : SetOrder Z}.

(** ** Counting *)

Lemma elem_of_children g w i r : (i, r) ∈ children g w <-> runs w !! i = Some r /\ run_group_id r = Some g.
Proof. unfold children, in_group. rewrite elem_of_select, bool_decide_eq_true. done. Qed.

Lemma elem_of_with_status s l ir : ir ∈ with_status s l <-> ir ∈ l /\ run_status ir.2 = s.
Proof. unfold with_status. rewrite list_elem_of_filter. naive_solver. Qed.

Lemma with_status_cons s x l :
  with_status s (x :: l) = if decide (run_status x.2 = s) then x :: with_status s l else with_status s l.
Proof. unfold with_status. by rewrite filter_cons. Qed.

Lemma count_cons x l : count (x :: l) = 1 + count l.
Proof. unfold count. cbn. lia. Qed.

(** Every row has one of the five statuses. *)
Lemma counts_add_up l :
  count l = count (with_status PENDING l) + count (with_status RUNNING l) + count (with_status COMPLETED l) +
            count (with_status FAILED l) + count (with_status CANCELLED l).
Proof.
  induction l as [|x l IH]; [done|]. rewrite !with_status_cons, count_cons, IH.
  destruct (run_status x.2); repeat (case_decide; [|try done]); try done; rewrite ?count_cons; lia.
Qed.

(** [status_counts] holds for each status the number of rows that have it. *)
Lemma status_counts_snoc l x s :
  default 0 (dget s (status_counts (_aggregate_children [] (l ++ [x])))) =
  default 0 (dget s (status_counts (_aggregate_children [] l))) + (if decide (run_status x.2 = s) then 1 else 0).
Proof.
  unfold _aggregate_children. cbn [status_counts]. rewrite foldl_app. cbn [foldl]. rewrite dget_dset.
  repeat case_decide; subst; cbn; try congruence; lia.
Qed.

Lemma status_counts_count c l s : default 0 (dget s (status_counts (_aggregate_children c l))) = count (with_status s l).
Proof.
  change (status_counts (_aggregate_children c l)) with (status_counts (_aggregate_children [] l)).
  induction l as [|x l IH] using rev_ind; [done|]. rewrite status_counts_snoc, IH.
  unfold with_status, count. rewrite filter_app, length_app, filter_cons. cbn.
  case_decide; cbn; lia.
Qed.

Lemma with_status_nil s l : with_status s l = [] <-> forall ir, ir ∈ l -> run_status ir.2 <> s.
Proof.
  split.
  - intros E ir Hir Hs. assert (H : ir ∈ with_status s l) by by apply elem_of_with_status.
    rewrite E in H. by apply elem_of_nil in H.
  - intros H. destruct (with_status s l) as [|x l'] eqn:E; [done|].
    assert (Hx : x ∈ with_status s l) by (rewrite E; left). apply elem_of_with_status in Hx as [Hx Hs].
    by destruct (H x Hx).
Qed.

Lemma all_terminal_true l : all_terminal l = true <-> l <> [] /\ forall ir, ir ∈ l -> terminal (run_status ir.2) = true.
Proof.
  unfold all_terminal. rewrite andb_true_iff, forallb_forall, negb_true_iff, bool_decide_eq_false.
  split; intros [H1 H2]; split; try done; intros x Hx; apply list_elem_of_In in Hx; by auto.
Qed.

(** When all are terminal the three counts are all there are. *)
Lemma terminal_counts l : all_terminal l = true ->
  count l = count (with_status COMPLETED l) + count (with_status FAILED l) + count (with_status CANCELLED l).
Proof.
  intros [_ H]%all_terminal_true. rewrite counts_add_up.
  assert (E1 : with_status PENDING l = []) by (apply with_status_nil; intros ir Hir Hs; specialize (H ir Hir); by rewrite Hs in H).
  assert (E2 : with_status RUNNING l = []) by (apply with_status_nil; intros ir Hir Hs; specialize (H ir Hir); by rewrite Hs in H).
  rewrite E1, E2. unfold count. cbn. lia.
Qed.

Lemma final_status_spec l : all_terminal l = true ->
  (final_status l = COMPLETED <-> exists ir, ir ∈ l /\ run_status ir.2 = COMPLETED) /\
  (final_status l = CANCELLED <-> forall ir, ir ∈ l -> run_status ir.2 = CANCELLED) /\
  terminal (final_status l) = true.
Proof.
  intros [Hne HT]%all_terminal_true. unfold final_status.
  assert (HC : with_status COMPLETED l <> [] <-> exists ir, ir ∈ l /\ run_status ir.2 = COMPLETED).
  { split.
    - intros H. destruct (with_status COMPLETED l) as [|x l'] eqn:E; [done|]. exists x.
      apply elem_of_with_status. rewrite E. left.
    - intros (ir & Hir & Hs) E. by apply (proj1 (with_status_nil _ _) E ir Hir). }
  destruct (with_status COMPLETED l) as [|c cs] eqn:EC.
  - assert (Hno : forall ir, ir ∈ l -> run_status ir.2 <> COMPLETED) by by apply with_status_nil.
    destruct (with_status CANCELLED l) as [|x xs] eqn:EX.
    + split_and!; [|split; [done|]|done].
      * split; [done|]. intros (ir & Hir & Hs). by destruct (Hno ir Hir).
      * intros H. destruct l as [|y l]; [done|]. exfalso.
        apply (proj1 (with_status_nil CANCELLED _) EX y); [left|]. apply H. left.
    + destruct (with_status FAILED l) as [|f fs] eqn:EF.
      * split_and!; [split; [done|]|split; [|done]|done].
        -- intros (ir & Hir & Hs). by destruct (Hno ir Hir).
        -- intros _ ir Hir. specialize (HT ir Hir). specialize (Hno ir Hir).
           pose proof (proj1 (with_status_nil FAILED _) EF ir Hir). by destruct (run_status ir.2).
      * split_and!; [split; [done|]|split; [done|]|done].
        -- intros (ir & Hir & Hs). by destruct (Hno ir Hir).
        -- intros H. assert (Hf : f ∈ with_status FAILED l) by (rewrite EF; left).
           apply elem_of_with_status in Hf as [Hf Hs]. rewrite (H f Hf) in Hs. done.
  - split_and!; [split; [intros _; by apply HC|done]|split; [done|]|done].
    intros H. assert (Hc : c ∈ with_status COMPLETED l) by (rewrite EC; left).
    apply elem_of_with_status in Hc as [Hc Hs]. rewrite (H c Hc) in Hs. done.
Qed.

(** How a group's row follows its children: the counts are right at every
    call; once all children are over the group is over, with a status that
    says whether one was completed or all were cancelled, and with an account
    of the statuses that adds up to the number of children. *)
Theorem group_finalized now g w x :
  groups w !! g = Some x ->
  exists y, groups (maybe_finalize_run_group now g w) !! g = Some y /\
  completed_runs y = count (with_status COMPLETED (children g w)) /\
  failed_runs y = count (with_status FAILED (children g w)) /\
  (all_terminal (children g w) = true ->
   terminal (group_status y) = true /\ group_completed y = Some now /\
   (group_status y = COMPLETED <-> exists ir, ir ∈ children g w /\ run_status ir.2 = COMPLETED) /\
   (group_status y = CANCELLED <-> forall ir, ir ∈ children g w -> run_status ir.2 = CANCELLED) /\
   exists a, aggregate_json y = Some a /\
   default 0 (dget COMPLETED (status_counts a)) + default 0 (dget FAILED (status_counts a)) +
   default 0 (dget CANCELLED (status_counts a)) = count (children g w)) /\
  (all_terminal (children g w) = false ->
   terminal (group_status y) = terminal (group_status x) /\ aggregate_json y = aggregate_json x).
Proof.
  intros Hx. eexists. unfold maybe_finalize_run_group. cbn. rewrite lookup_alter_eq, Hx. cbn.
  split; [reflexivity|]. unfold finalized.
  split; [by case_match|]. split; [by case_match|]. split.
  - intros HA. rewrite HA. cbn. destruct (final_status_spec _ HA) as (H1 & H2 & H3).
    split_and!; try done. eexists. split; [reflexivity|].
    rewrite !status_counts_count. symmetry. by apply terminal_counts.
  - intros HA. rewrite HA. cbn. split; [|done]. case_match; [|done].
    bool_hyps. match goal with H : group_status x = PENDING |- _ => by rewrite H end.
Qed.

(** ** The next child *)

Definition is_pending (g i : Z) (w : World) : Prop :=
  exists r, runs w !! i = Some r /\ run_group_id r = Some g /\ run_status r = PENDING.
Definition is_running (g i : Z) (w : World) : Prop :=
  exists r, runs w !! i = Some r /\ run_group_id r = Some g /\ run_status r = RUNNING.

Lemma elem_of_pending_ids g w i : i ∈ pending_ids g w <-> is_pending g i w.
Proof.
  unfold pending_ids, is_pending. rewrite (merge_sort_Permutation Z.le), list_elem_of_fmap. split.
  - intros ([j r] & -> & H%elem_of_select). unfold in_group, has_status in H.
    destruct H as [H HB]. bool_hyps. by exists r.
  - intros (r & H & Hg & Hs). exists (i, r). split; [done|]. apply elem_of_select. unfold in_group, has_status.
    by rewrite Hg, Hs, !bool_decide_true.
Qed.

Lemma pending_sorted g w : StronglySorted Z.lt (pending_ids g w).
Proof.
  assert (HS : StronglySorted Z.le (pending_ids g w)) by (apply StronglySorted_merge_sort; apply _).
  assert (HN : NoDup (pending_ids g w)).
  { unfold pending_ids. rewrite (merge_sort_Permutation Z.le). apply select_NoDup. }
  induction HS as [|x l Hl IH Hx]; [constructor|]. apply NoDup_cons in HN as [Hni HN].
  constructor; [auto|]. rewrite Forall_forall in Hx |- *. intros y Hy. specialize (Hx y Hy).
  assert (x <> y) by congruence. lia.
Qed.

Lemma sorted_unique (l k : list Z) : StronglySorted Z.lt l -> StronglySorted Z.lt k -> (forall i, i ∈ l <-> i ∈ k) -> l = k.
Proof.
  intros Hl Hk E.
  assert (ND : forall m, StronglySorted Z.lt m -> NoDup m).
  { induction 1 as [|x m Hm IH Hx]; constructor; [|done]. intros Hin. rewrite Forall_forall in Hx.
    specialize (Hx x Hin). lia. }
  apply (StronglySorted_unique Z.le).
  - clear -Hl. induction Hl; constructor; [done|]. eapply Forall_impl; [done|]. cbn. lia.
  - clear -Hk. induction Hk; constructor; [done|]. eapply Forall_impl; [done|]. cbn. lia.
  - by apply NoDup_Permutation; auto.
Qed.

Lemma pending_ids_eq g w l : StronglySorted Z.lt l -> (forall i, i ∈ l <-> is_pending g i w) -> pending_ids g w = l.
Proof.
  intros Hl E. apply sorted_unique; [apply pending_sorted|done|]. intros i. by rewrite elem_of_pending_ids, E.
Qed.

(** ** Claims *)

(** A claim is won exactly on a pending run; the run is then running, so a
    second claim is lost; giving it back makes it pending again. *)
Theorem claim_once now i w :
  ((claim_pending_run now i w).2 = true <-> exists r, runs w !! i = Some r /\ run_status r = PENDING) /\
  ((claim_pending_run now i w).2 = false -> (claim_pending_run now i w).1 = w) /\
  (forall later, (claim_pending_run later i (claim_pending_run now i w).1).2 = false) /\
  forall r, runs w !! i = Some r -> run_status r = PENDING ->
    runs (release_claimed_run i (claim_pending_run now i w).1) !! i = Some (set_status PENDING None r).
Proof.
  unfold claim_pending_run, release_claimed_run, has_status.
  destruct (runs w !! i) as [r|] eqn:Er.
  - destruct (bool_decide (run_status r = PENDING)) eqn:E; bool_hyps; cbn.
    + rewrite lookup_insert_eq. cbn. split_and!; [split; [by exists r|done]|done|done|].
      intros r' [= <-] _. rewrite bool_decide_true by done. cbn. by rewrite lookup_insert_eq.
    + rewrite Er, bool_decide_false by done. split_and!; [|done|done|].
      * split; [done|]. by intros (? & [= <-] & ?).
      * by intros r' [= <-] ?.
  - cbn. rewrite Er. split_and!; [|done|done|done]. split; [done|]. by intros (? & [=] & _).
Qed.

Lemma claim_won now i w : (claim_pending_run now i w).2 = true ->
  exists r, runs w !! i = Some r /\ run_status r = PENDING /\
  (claim_pending_run now i w).1 = upd_runs (<[i := set_status RUNNING (Some now) r]>) w.
Proof.
  unfold claim_pending_run, has_status. destruct (runs w !! i) as [r|]; [|done].
  destruct (bool_decide (run_status r = PENDING)) eqn:E; bool_hyps; [|done]. by exists r.
Qed.

(** What a dispatch does: nothing when no child is pending; else the pending
    child of the lowest id is running and its agent has been told, or, when
    the text did not go out, it is pending as before. *)
Lemma dispatch_cases now a g goes w :
  match pending_ids g w with
  | [] => _dispatch_next_group_child now a g goes w = w
  | i :: _ => exists r, runs w !! i = Some r /\ run_group_id r = Some g /\ run_status r = PENDING /\
      _dispatch_next_group_child now a g goes w =
        if bool_decide (is_Some (conns w !! a)) && goes
        then tell (RunCommand a i (config_snapshot r)) (upd_runs (<[i := set_status RUNNING (Some now) r]>) w)
        else upd_runs (<[i := set_status PENDING None r]>) w
  end.
Proof.
  unfold _dispatch_next_group_child, get_next_pending_group_run.
  destruct (pending_ids g w) as [|i l] eqn:E; [done|]. cbn.
  assert (Hp : is_pending g i w) by (apply elem_of_pending_ids; rewrite E; left).
  destruct Hp as (r & Hr & Hg & Hs). exists r. split_and!; try done.
  unfold claim_pending_run. rewrite Hr. unfold has_status. rewrite Hs, bool_decide_true by done. cbn.
  unfold send_command_to_agent. cbn. destruct (bool_decide _ && goes); cbn; [done|].
  unfold release_claimed_run, has_status. cbn. rewrite lookup_insert_eq. cbn.
  unfold upd_runs. cbn. by rewrite insert_insert_eq.
Qed.

(** ** A sweep: one child after the other *)

(** What an agent reports of the run it was given. *)
Inductive sweep_report : Type := Done (m : Measured) | Failed (msg : string).

Definition over (now : Z) (o : sweep_report) (r : BenchmarkRun) : BenchmarkRun :=
  match o with Done m => measure now m r | Failed msg => fail_run now msg r end.
Definition outcome_status (o : sweep_report) : RunStatus := match o with Done _ => COMPLETED | Failed _ => FAILED end.

Definition report (now a i : Z) (o : sweep_report) (goes : bool) (w : World) : World :=
  match o with
  | Done m => run_completed now a i (Read m) goes w
  | Failed msg => run_failed now a i msg goes w
  end.

Lemma over_status now o r : run_status (over now o r) = outcome_status o.
Proof. by destruct o. Qed.
Lemma over_group now o r : run_group_id (over now o r) = run_group_id r.
Proof. by destruct o. Qed.
Lemma over_agent now o r : agent_id (over now o r) = agent_id r.
Proof. by destruct o. Qed.

(** The report of the owner on its running run: the row is over, the group
    follows, the next child is dispatched. *)
Lemma report_eq now a i o goes w r g :
  is_Some (agents w !! a) -> runs w !! i = Some r -> agent_id r = Some a -> run_group_id r = Some g ->
  run_status r = RUNNING ->
  exists x, agents w !! a = Some x /\
  report now a i o goes w =
    _dispatch_next_group_child now a g goes (maybe_finalize_run_group now g (upd_runs (<[i := over now o r]>)
      (upd_agents (<[a := {| agent_name := agent_name x; agent_status := CONNECTED; last_heartbeat := Some now |}]>) w))).
Proof.
  intros [x Hx] Hr Ha Hg Hs. exists x. split; [done|].
  destruct o as [m|msg]; cbn; unfold run_completed, run_failed, update_agent_status; rewrite Hx; cbn;
    unfold _agent_owns_run, get_run; cbn; rewrite Hr, bool_decide_true by done; cbn.
  - unfold complete_run_with_aiperf_result, get_run. cbn. rewrite Hr. cbn. rewrite Hg. cbn.
    rewrite lookup_insert_eq. cbn. by rewrite Hg.
  - unfold has_status. rewrite Hs, Hg. done.
Qed.

(** A group's sweep stands at [i]: [i] alone is running, [l] is pending, and
    the children are the agent's. *)
Record stands (g a i : Z) (l : list Z) (w : World) : Prop := {
  st_agent : is_Some (agents w !! a);
  st_conn : is_Some (conns w !! a);
  st_group : is_Some (groups w !! g);
  st_owner : forall j r, runs w !! j = Some r -> run_group_id r = Some g -> agent_id r = Some a;
  st_running : forall j, is_running g j w <-> j = i;
  st_pending : pending_ids g w = l
}.

(** The sweep is over. *)
Definition swept (g : Z) (w : World) : Prop :=
  forall j r, runs w !! j = Some r -> run_group_id r = Some g -> terminal (run_status r) = true.

Lemma pending_running_terminal r : run_status r <> PENDING -> run_status r <> RUNNING -> terminal (run_status r) = true.
Proof. by destruct (run_status r). Qed.

Lemma report_last now a i o w g :
  stands g a i [] w ->
  swept g (report now a i o true w) /\ sent (report now a i o true w) = sent w /\
  is_Some (groups (report now a i o true w) !! g) /\
  (exists r, runs w !! i = Some r /\ runs (report now a i o true w) = <[i := over now o r]> (runs w)) /\
  exists y, groups (report now a i o true w) !! g = Some y /\
    groups (report now a i o true w) !! g =
      finalized now (children g (report now a i o true w)) <$> groups w !! g.
Proof.
  intros ST. destruct (proj2 (st_running _ _ _ _ _ ST i) eq_refl) as (r & Hr & Hg & Hs).
  destruct (report_eq now a i o true w r g (st_agent _ _ _ _ _ ST) Hr (st_owner _ _ _ _ _ ST i r Hr Hg) Hg Hs)
    as (x & Hx & ->).
  set (w1 := maybe_finalize_run_group _ _ _).
  assert (E1 : runs w1 = <[i := over now o r]> (runs w)) by done.
  assert (EP : pending_ids g w1 = []).
  { apply pending_ids_eq; [constructor|]. intros j. split; [by intros ?%elem_of_nil|].
    intros (rj & Hj & Hgj & Hsj). rewrite E1 in Hj. destruct (decide (j = i)) as [->|Hji].
    - rewrite lookup_insert_eq in Hj. simplify_eq. rewrite over_status in Hsj. by destruct o.
    - rewrite lookup_insert_ne in Hj by done.
      assert (Hjp : j ∈ pending_ids g w) by (apply elem_of_pending_ids; by exists rj).
      rewrite (st_pending _ _ _ _ _ ST) in Hjp. by apply elem_of_nil in Hjp. }
  pose proof (dispatch_cases now a g true w1) as HD. rewrite EP in HD. rewrite HD.
  assert (EG : groups w1 !! g = finalized now (children g w1) <$> groups w !! g).
  { subst w1. unfold maybe_finalize_run_group. cbn. by rewrite lookup_alter_eq. }
  destruct (st_group _ _ _ _ _ ST) as [y Hy]. split_and!.
  - intros j rj Hj Hgj. rewrite E1 in Hj. destruct (decide (j = i)) as [->|Hji].
    + rewrite lookup_insert_eq in Hj. simplify_eq. rewrite over_status. by destruct o.
    + rewrite lookup_insert_ne in Hj by done. apply pending_running_terminal.
      * intros Hsj. assert (Hjp : j ∈ pending_ids g w) by (apply elem_of_pending_ids; by exists rj).
        rewrite (st_pending _ _ _ _ _ ST) in Hjp. by apply elem_of_nil in Hjp.
      * intros Hsj. apply Hji. apply (st_running _ _ _ _ _ ST). by exists rj.
  - done.
  - rewrite EG, Hy. by eexists.
  - by exists r.
  - rewrite EG, Hy. cbn. by eexists.
Qed.

Lemma report_next now a i o w g j l :
  stands g a i (j :: l) w ->
  stands g a j l (report now a i o true w) /\
  exists r rj, runs w !! i = Some r /\ runs w !! j = Some rj /\ i <> j /\
    sent (report now a i o true w) = sent w ++ [RunCommand a j (config_snapshot rj)] /\
    runs (report now a i o true w) = <[j := set_status RUNNING (Some now) rj]> (<[i := over now o r]> (runs w)).
Proof.
  intros ST. destruct (proj2 (st_running _ _ _ _ _ ST i) eq_refl) as (r & Hr & Hg & Hs).
  destruct (report_eq now a i o true w r g (st_agent _ _ _ _ _ ST) Hr (st_owner _ _ _ _ _ ST i r Hr Hg) Hg Hs)
    as (x & Hx & ->).
  set (w1 := maybe_finalize_run_group _ _ _).
  assert (E1 : runs w1 = <[i := over now o r]> (runs w)) by done.
  assert (Hj : is_pending g j w) by (apply elem_of_pending_ids; rewrite (st_pending _ _ _ _ _ ST); left).
  destruct Hj as (rj & Hj & Hgj & Hsj).
  assert (Hij : i <> j) by (intros ->; simplify_eq; congruence).
  assert (EP : pending_ids g w1 = j :: l).
  { apply pending_ids_eq; [rewrite <- (st_pending _ _ _ _ _ ST); apply pending_sorted|]. intros k.
    rewrite <- (st_pending _ _ _ _ _ ST), elem_of_pending_ids. unfold is_pending. rewrite E1.
    destruct (decide (k = i)) as [->|Hk].
    - rewrite lookup_insert_eq, Hr. split; intros (? & [= <-] & _ & H); [congruence|].
      rewrite over_status in H. by destruct o.
    - by rewrite lookup_insert_ne by done. }
  pose proof (dispatch_cases now a g true w1) as HD. rewrite EP in HD.
  destruct HD as (rj' & Hj' & _ & _ & HD). rewrite E1, lookup_insert_ne in Hj' by done. simplify_eq.
  assert (HC : bool_decide (is_Some (conns w1 !! a)) && true = true).
  { rewrite andb_true_r. apply bool_decide_eq_true. exact (st_conn _ _ _ _ _ ST). }
  rewrite HC in HD. rewrite HD. clear HC.
  split; [|exists r, rj; by split_and!].
  assert (E2 : forall k, runs (tell (RunCommand a j (config_snapshot rj)) (upd_runs (<[j:=set_status RUNNING (Some now) rj]>) w1)) !! k
     = <[j := set_status RUNNING (Some now) rj]> (<[i := over now o r]> (runs w)) !! k) by done.
  constructor.
  - cbn. destruct (decide (a = a)) as [_|]; [|done]. rewrite lookup_insert_eq. by eexists.
  - exact (st_conn _ _ _ _ _ ST).
  - cbn. rewrite lookup_alter_eq. destruct (st_group _ _ _ _ _ ST) as [y ->]. by eexists.
  - intros k rk. rewrite E2. intros Hk Hgk.
    destruct (decide (k = j)) as [->|]; [|destruct (decide (k = i)) as [->|]].
    + rewrite lookup_insert_eq in Hk. simplify_eq. by apply (st_owner _ _ _ _ _ ST j rj).
    + rewrite lookup_insert_ne, lookup_insert_eq in Hk by done. simplify_eq. rewrite over_agent.
      by apply (st_owner _ _ _ _ _ ST i r).
    + rewrite !lookup_insert_ne in Hk by done. by apply (st_owner _ _ _ _ _ ST k rk).
  - intros k. unfold is_running. rewrite E2. destruct (decide (k = j)) as [->|Hkj].
    + rewrite lookup_insert_eq. split; [done|]. intros _. by eexists.
    + rewrite lookup_insert_ne by done. destruct (decide (k = i)) as [->|Hki].
      * rewrite lookup_insert_eq. split; [|by intros ->]. intros (? & [= <-] & _ & H).
        rewrite over_status in H. by destruct o.
      * rewrite lookup_insert_ne by done. split; [|by intros ->]. intros H.
        destruct Hki. by apply (st_running _ _ _ _ _ ST).
  - assert (HSl : StronglySorted Z.lt (j :: l)) by (rewrite <- (st_pending _ _ _ _ _ ST); apply pending_sorted).
    inversion HSl as [|? ? HSl' Hjl]; subst. rewrite Forall_forall in Hjl.
    apply pending_ids_eq; [done|]. intros k.
    assert (Hk : k ∈ l <-> k <> j /\ k ∈ j :: l).
    { rewrite elem_of_cons. split; [|naive_solver]. intros H. specialize (Hjl k H). split; [lia|by right]. }
    rewrite Hk, <- EP, elem_of_pending_ids. unfold is_pending. rewrite E2. change (runs w1) with (<[i := over now o r]> (runs w)).
    destruct (decide (k = j)) as [->|Hkj].
    + rewrite lookup_insert_eq. split; [naive_solver|]. by intros (? & [= <-] & _ & [=]).
    + rewrite (lookup_insert_ne _ j k) by done. naive_solver.
Qed.

(** The agent reports, for each sweep_report, on the child that is running. *)
Definition play (now a g : Z) (os : list sweep_report) (w : World) : World :=
  foldl (fun w o => match find_running_group_child g w with
                    | Some (i, _) => report now a i o true w
                    | None => w
                    end) w os.

Definition snapshot_of (w : World) (j : Z) : option config :=
  match runs w !! j with Some r => config_snapshot r | None => None end.

Lemma stands_live g a i l w : stands g a i l w -> exists r, find_running_group_child g w = Some (i, r).
Proof.
  intros ST. unfold find_running_group_child.
  destruct (with_status RUNNING (children g w)) as [|[j r] k] eqn:E.
  - destruct (proj2 (st_running _ _ _ _ _ ST i) eq_refl) as (r & Hr & Hg & Hs). exfalso.
    apply (proj1 (with_status_nil _ _) E (i, r)); [by apply elem_of_children|done].
  - assert (Hj : (j, r) ∈ with_status RUNNING (children g w)) by (rewrite E; left).
    apply elem_of_with_status in Hj as [Hj Hs]. apply elem_of_children in Hj as [Hj Hg].
    assert (j = i) as -> by (apply (st_running _ _ _ _ _ ST); by exists r). by exists r.
Qed.

Lemma play_cons now a g i l o os w : stands g a i l w -> play now a g (o :: os) w = play now a g os (report now a i o true w).
Proof. intros ST. destruct (stands_live _ _ _ _ _ ST) as [r Hr]. unfold play. cbn. by rewrite Hr. Qed.

Lemma stands_NoDup g a i l w : stands g a i l w -> NoDup (i :: l).
Proof.
  intros ST. pose proof (pending_sorted g w) as HS. rewrite (st_pending _ _ _ _ _ ST) in HS.
  constructor.
  - rewrite <- (st_pending _ _ _ _ _ ST), elem_of_pending_ids. intros (r & Hr & _ & Hs).
    destruct (proj2 (st_running _ _ _ _ _ ST i) eq_refl) as (r' & Hr' & _ & Hs'). congruence.
  - clear ST. induction HS as [|x m Hm IH Hx]; constructor; [|done]. intros Hin. rewrite Forall_forall in Hx.
    specialize (Hx x Hin). lia.
Qed.

(** What a sweep has come to, after one report for each child left. *)
Record sweep_result (now g a i : Z) (l : list Z) (os : list sweep_report) (w w' : World) : Prop := {
  sr_swept : swept g w';
  sr_sent : sent w' = sent w ++ ((fun j => RunCommand a j (snapshot_of w j)) <$> l);
  sr_each : forall k j o, (i :: l) !! k = Some j -> os !! k = Some o ->
              exists r, runs w' !! j = Some r /\ run_status r = outcome_status o;
  sr_others : forall j, j ∉ i :: l -> runs w' !! j = runs w !! j;
  sr_child : exists j r, runs w' !! j = Some r /\ run_group_id r = Some g;
  sr_group : exists x y, groups w' !! g = Some y /\ y = finalized now (children g w') x
}.

Lemma sweep_plays now a g os : forall i l w,
  stands g a i l w -> length os = S (length l) -> sweep_result now g a i l os w (play now a g os w).
Proof.
  induction os as [|o os IH]; [done|]. intros i l w ST [= Hlen]. rewrite (play_cons _ _ _ _ _ _ _ _ ST).
  pose proof (stands_NoDup _ _ _ _ _ ST) as HND. destruct l as [|j l].
  - destruct os; [|done]. cbn. destruct (report_last now a i o w g ST) as (H1 & H2 & H3 & (r & Hr & H4) & (y & Hy & H5)).
    constructor.
    + done.
    + by rewrite H2, app_nil_r.
    + intros k j o' Hk Ho. destruct k as [|k]; [|by destruct k]. cbn in Hk, Ho. simplify_eq.
      exists (over now o' r). rewrite H4, lookup_insert_eq. split; [done|apply over_status].
    + intros j Hj. rewrite H4. apply lookup_insert_ne. intros ->. apply Hj. left.
    + exists i, (over now o r). rewrite H4, lookup_insert_eq, over_group. split; [done|].
      destruct (proj2 (st_running _ _ _ _ _ ST i) eq_refl) as (r0 & Hr0 & Hg0 & _). congruence.
    + destruct (groups w !! g) as [x|]; cbn in H5; [|congruence]. exists x, y. split; [done|]. congruence.
  - destruct (report_next now a i o w g j l ST) as (ST' & r & rj & Hr & Hj & Hij & Hsent & Hruns).
    destruct (IH j l _ ST' ltac:(cbn in Hlen; lia)) as [R1 R2 R3 R4 R5 R6].
    apply NoDup_cons in HND as [Hi HND].
    assert (Hrest : forall k, k ∉ [i; j] -> runs (report now a i o true w) !! k = runs w !! k).
    { intros k Hk. rewrite Hruns, !lookup_insert_ne; [done|set_solver..]. }
    constructor.
    + done.
    + rewrite R2, Hsent, <- app_assoc. f_equal. cbn. f_equal.
      * unfold snapshot_of. by rewrite Hj.
      * apply list_fmap_ext. intros k x Hx. unfold snapshot_of. rewrite Hrest; [done|].
        apply list_elem_of_lookup_2 in Hx. apply NoDup_cons in HND as [Hjl _].
        intros [->| ->%list_elem_of_singleton]%elem_of_cons; [apply Hi; by right|done].
    + intros [|k] x o' Hk Ho; [|by apply (R3 k)]. cbn in Hk, Ho. simplify_eq.
      exists (over now o' r). rewrite R4 by done. rewrite Hruns, lookup_insert_ne, lookup_insert_eq by done.
      split; [done|apply over_status].
    + intros x Hx. rewrite R4 by set_solver. apply Hrest. set_solver.
    + done.
    + done.
Qed.

Lemma swept_all_terminal g w i r : swept g w -> runs w !! i = Some r -> run_group_id r = Some g -> all_terminal (children g w) = true.
Proof.
  intros HS Hi Hg. apply all_terminal_true. split.
  - intros E. assert (H : (i, r) ∈ children g w) by by apply elem_of_children. rewrite E in H. by apply elem_of_nil in H.
  - intros [j rj] [Hj Hgj]%elem_of_children. by apply (HS j).
Qed.

(** C27. A sweep whose first child runs ends after one report for each child that
    is left, whatever the reports say: each pending child is sent to the agent
    once, in the order of ids, each child has the status of its report, no
    other run changes, and the group is over, its counts adding up to the
    number of its children. *)
Theorem sweep_finishes now a g i l os w :
  stands g a i l w -> length os = S (length l) ->
  let w' := play now a g os w in
  swept g w' /\
  sent w' = sent w ++ ((fun j => RunCommand a j (snapshot_of w j)) <$> l) /\
  (forall k j o, (i :: l) !! k = Some j -> os !! k = Some o ->
     exists r, runs w' !! j = Some r /\ run_status r = outcome_status o) /\
  (forall j, j ∉ i :: l -> runs w' !! j = runs w !! j) /\
  exists y, groups w' !! g = Some y /\ terminal (group_status y) = true /\
    (group_status y = COMPLETED <-> exists ir, ir ∈ children g w' /\ run_status ir.2 = COMPLETED) /\
    completed_runs y + failed_runs y + count (with_status CANCELLED (children g w')) = count (children g w').
Proof.
  intros ST Hlen. cbn. destruct (sweep_plays now a g os i l w ST Hlen) as [R1 R2 R3 R4 (j & r & Hj & Hg) (x & y & Hy & Ey)].
  split_and!; try done.
  pose proof (swept_all_terminal _ _ _ _ R1 Hj Hg) as HA. exists y. split; [done|].
  rewrite Ey. unfold finalized. rewrite HA. cbn.
  destruct (final_status_spec _ HA) as (H1 & _ & H3). split_and!; [done|done|].
  by rewrite (terminal_counts _ HA).
Qed.

(** ** At most one child of a group runs *)

Definition one_running (w : World) : Prop := forall g i j, is_running g i w -> is_running g j w -> i = j.

Lemma one_running_mono w w' : (forall g j, is_running g j w' -> is_running g j w) -> one_running w -> one_running w'.
Proof. intros H H1 g i j Hi Hj. by apply (H1 g); apply H. Qed.

(** Updates that keep group and status, or make runs stop. *)
Lemma running_same w w' :
  (forall j r', runs w' !! j = Some r' -> run_status r' = RUNNING -> run_group_id r' <> None ->
     exists r, runs w !! j = Some r /\ run_group_id r = run_group_id r' /\ run_status r = RUNNING) ->
  forall g j, is_running g j w' -> is_running g j w.
Proof.
  intros H g j (r' & Hr' & Hg & Hs). destruct (H j r' Hr' Hs) as (r & Hr & Hgr & Hsr); [congruence|].
  exists r. split_and!; [done|congruence|done].
Qed.

Lemma update_agent_runs now a st w w' : update_agent_status now a st w = Ok w' -> runs w' = runs w /\ groups w' = groups w.
Proof. unfold update_agent_status. destruct (agents w !! a); [|done]. by intros [= <-]. Qed.

Lemma send_runs a c goes w : runs (send_command_to_agent a c goes w).1 = runs w /\ groups (send_command_to_agent a c goes w).1 = groups w.
Proof. unfold send_command_to_agent. by case_match. Qed.

Lemma dispatch_running now a g goes w g' j :
  is_running g' j (_dispatch_next_group_child now a g goes w) ->
  is_running g' j w \/ (g' = g /\ head (pending_ids g w) = Some j).
Proof.
  pose proof (dispatch_cases now a g goes w) as HD. destruct (pending_ids g w) as [|i l]; [rewrite HD; auto|].
  destruct HD as (r & Hr & Hg & Hs & ->).
  intros (r' & Hr' & Hg' & Hs'). case_match; cbn in Hr'; destruct (decide (i = j)) as [->|Hij];
    rewrite ?lookup_insert_eq in Hr'; rewrite ?lookup_insert_ne in Hr' by done; simplify_eq; cbn in *; try done.
  - right. split; [congruence|done].
  - left. by exists r'.
  - left. by exists r'.
Qed.

Lemma dispatch_one now a g goes w :
  (forall j, ~ is_running g j w) -> one_running w -> one_running (_dispatch_next_group_child now a g goes w).
Proof.
  intros Hno H1 g' i j Hi Hj. apply dispatch_running in Hi as [Hi|[-> Hi]], Hj as [Hj|[Eg Hj]].
  - by apply (H1 g').
  - subst. by destruct (Hno i).
  - by destruct (Hno j).
  - congruence.
Qed.

(** A running run that stops leaves its group without a running child. *)
Lemma ended_one w w' i r r' :
  runs w !! i = Some r -> run_status r = RUNNING -> run_group_id r' = run_group_id r -> terminal (run_status r') = true ->
  runs w' = <[i := r']> (runs w) -> one_running w ->
  one_running w' /\ forall g, run_group_id r = Some g -> forall j, ~ is_running g j w'.
Proof.
  intros Hr Hs Hg Ht E H1.
  assert (HM : forall g j, is_running g j w' -> j <> i /\ is_running g j w).
  { intros g j (x & Hx & Hgx & Hsx). rewrite E in Hx. destruct (decide (j = i)) as [->|Hj].
    - rewrite lookup_insert_eq in Hx. simplify_eq. by rewrite Hsx in Ht.
    - rewrite lookup_insert_ne in Hx by done. split; [done|]. by exists x. }
  split.
  - eapply one_running_mono; [|done]. intros g j Hj. by apply HM.
  - intros g Hgr j [Hji Hj]%HM. apply Hji. apply (H1 g); [done|]. by exists r.
Qed.

Lemma completed_one now a i p goes w r :
  runs w !! i = Some r -> run_status r = RUNNING -> one_running w -> one_running (run_completed now a i p goes w).
Proof.
  intros Hr Hs H1. unfold run_completed. destruct (update_agent_status now a CONNECTED w) as [w1|] eqn:EU; [|done].
  apply update_agent_runs in EU as [ER _].
  assert (H1' : one_running w1) by (intros g x y; unfold is_running; rewrite ER; apply H1).
  assert (Hi : runs w1 !! i = Some r) by by rewrite ER.
  destruct p as [| |m]; [done|by case_match|]. destruct (_agent_owns_run a i w1); [|done].
  unfold complete_run_with_aiperf_result, get_run. rewrite Hi. cbn.
  set (w2 := match run_group_id r with Some g => _ | None => _ end).
  assert (E2 : runs w2 = <[i := measure now m r]> (runs w1)) by (subst w2; by case_match).
  destruct (ended_one w1 w2 i r (measure now m r) Hi Hs eq_refl eq_refl E2 H1') as [HA HB].
  rewrite E2, lookup_insert_eq. cbn. destruct (run_group_id r) as [g|] eqn:Eg; [|done].
  apply dispatch_one; [|done]. by apply HB.
Qed.

Lemma failed_one now a i msg goes w r :
  runs w !! i = Some r -> run_status r = RUNNING -> one_running w -> one_running (run_failed now a i msg goes w).
Proof.
  intros Hr Hs H1. unfold run_failed. destruct (update_agent_status now a CONNECTED w) as [w1|] eqn:EU; [|done].
  apply update_agent_runs in EU as [ER _].
  assert (H1' : one_running w1) by (intros g x y; unfold is_running; rewrite ER; apply H1).
  assert (Hi : runs w1 !! i = Some r) by by rewrite ER.
  destruct (_agent_owns_run a i w1); [|done]. rewrite Hi. unfold has_status. rewrite Hs. cbn.
  destruct (run_group_id r) as [g|] eqn:Eg.
  - set (w2 := maybe_finalize_run_group _ _ _).
    destruct (ended_one w1 w2 i r (fail_run now msg r) Hi Hs eq_refl eq_refl eq_refl H1') as [HA HB].
    apply dispatch_one; [|done]. by apply HB.
  - by destruct (ended_one w1 (upd_runs (<[i:=fail_run now msg r]>) w1) i r (fail_run now msg r) Hi Hs eq_refl eq_refl eq_refl H1').
Qed.

(** ** What a cancel does *)

Lemma lookup_cancel_children now g i t j :
  cancel_children now g i t !! j =
  (fun r => if bool_decide (j = i) || (in_group g r && negb (terminal (run_status r)))
            then _cancel_single_run now r else r) <$> t !! j.
Proof. unfold cancel_children. rewrite map_lookup_imap. by destruct (t !! j). Qed.

Lemma cancel_run_inv now i w w' : cancel_run now i w = Ok w' ->
  exists r, runs w !! i = Some r /\ terminal (run_status r) = false /\
  w' = match run_group_id r with
       | None => upd_runs (<[i := _cancel_single_run now r]>) w
       | Some g => _finalize_group_cancelled now g (upd_runs (cancel_children now g i) w)
       end.
Proof.
  unfold cancel_run, get_run. destruct (runs w !! i) as [r|]; [|done]. cbn.
  destruct (terminal (run_status r)) eqn:Et; [done|]. cbn. intros [= <-]. by exists r.
Qed.

Lemma cancel_running now i w w' g j : cancel_run now i w = Ok w' -> is_running g j w' -> is_running g j w.
Proof.
  intros (r & Hr & Ht & ->)%cancel_run_inv. apply running_same. clear g j. intros j r' Hj Hs Hg.
  destruct (run_group_id r) as [g|]; cbn in Hj.
  - rewrite lookup_cancel_children in Hj. destruct (runs w !! j) as [x|]; [|done]. cbn in Hj. simplify_eq.
    exists x. case_match; [done|]. by split_and!.
  - destruct (decide (j = i)) as [->|]; [rewrite lookup_insert_eq in Hj; by simplify_eq|].
    rewrite lookup_insert_ne in Hj by done. by exists r'.
Qed.

Lemma find_running_spec g w k z : find_running_group_child g w = Some (k, z) ->
  runs w !! k = Some z /\ run_group_id z = Some g /\ run_status z = RUNNING.
Proof.
  unfold find_running_group_child. intros EF. assert (Hk : (k, z) ∈ with_status RUNNING (children g w)).
  { destruct (with_status RUNNING (children g w)); [done|]. cbn in EF. simplify_eq. left. }
  by apply elem_of_with_status in Hk as [[Hk Hgk]%elem_of_children Hsk].
Qed.

(** C29. Cancelling a child that is not over ends its whole sweep: every child is
    over, those that were over before are as they were, and other runs do not change;
    the group is cancelled now, with the numbers of its completed and failed children.
    When at most one child was running, its agent is told to stop it if the agent is
    connected and the text goes out; nothing else is sent. *)
Theorem cancel_ends_sweep now i goes w w' r g :
  cancel_benchmark_run now i goes w = Ok w' -> runs w !! i = Some r -> run_group_id r = Some g ->
  is_Some (groups w !! g) ->
  (forall j, runs w' !! j = (fun x => if in_group g x && negb (terminal (run_status x)) then _cancel_single_run now x else x) <$> runs w !! j) /\
  swept g w' /\ pending_ids g w' = [] /\
  (exists y, groups w' !! g = Some y /\ group_status y = CANCELLED /\ group_completed y = Some now /\
     completed_runs y = count (with_status COMPLETED (children g w')) /\
     failed_runs y = count (with_status FAILED (children g w'))) /\
  ((forall j, ~ is_running g j w) -> sent w' = sent w) /\
  (one_running w -> forall j x, is_running g j w -> runs w !! j = Some x ->
     sent w' = sent w ++ match agent_id x with
                         | Some a => if bool_decide (is_Some (conns w !! a)) && goes then [CancelCommand a j] else []
                         | None => []
                         end).
Proof.
  intros HC Hr Hg [y Hy]. unfold cancel_benchmark_run, get_run in HC. rewrite Hr in HC. cbn in HC.
  destruct (cancel_run now i w) as [w1|] eqn:E1; [|done]. cbn in HC. rewrite Hg in HC.
  apply cancel_run_inv in E1 as (r' & Hr' & Ht & E1). rewrite Hr in Hr'. injection Hr' as <-. rewrite Hg in E1.
  assert (ER : runs w' = runs w1 /\ groups w' = groups w1).
  { destruct (find_running_group_child g w) as [[j x]|]; [destruct (agent_id x)|]; simplify_eq; try done. apply send_runs. }
  destruct ER as [ER EG].
  assert (HR : forall j, runs w' !! j = (fun x => if in_group g x && negb (terminal (run_status x)) then _cancel_single_run now x else x) <$> runs w !! j).
  { intros j. rewrite ER, E1. cbn. rewrite lookup_cancel_children. destruct (runs w !! j) as [x|] eqn:Hj; [|done]. cbn.
    destruct (decide (j = i)) as [->|Hji]; [|by rewrite bool_decide_false by done].
    simplify_eq. unfold in_group. by rewrite !bool_decide_true, Ht by done. }
  assert (HS : swept g w').
  { intros j x' Hx' Hgx. destruct (runs w !! j) as [x|] eqn:Hj.
    - rewrite (HR j), Hj in Hx'. cbn in Hx'. simplify_eq. destruct (in_group g x && negb (terminal (run_status x))) eqn:Eb; [done|].
      unfold in_group in Eb. rewrite bool_decide_true in Eb by done. cbn in Eb. by destruct (terminal (run_status x)).
    - rewrite ER, E1 in Hx'. cbn in Hx'. rewrite lookup_cancel_children, Hj in Hx'. done. }
  split_and!; [done|done| | | |].
  - apply pending_ids_eq; [constructor|]. intros j. split; [by intros ?%elem_of_nil|].
    intros (x & Hx & Hgx & Hsx). specialize (HS j x Hx Hgx). by rewrite Hsx in HS.
  - eexists. rewrite EG, E1. cbn. rewrite lookup_alter_eq, Hy. split; [reflexivity|]. cbn.
    assert (EC : children g w' = children g (upd_runs (cancel_children now g i) w)).
    { unfold children. by rewrite ER, E1. }
    by rewrite EC.
  - intros Hno. destruct (find_running_group_child g w) as [[k z]|] eqn:EF; [|injection HC as <-; by rewrite E1].
    exfalso. apply find_running_spec in EF as (Hk & Hgk & Hsk). apply (Hno k). by exists z.
  - intros H1 j x Hj Hx. destruct (find_running_group_child g w) as [[k z]|] eqn:EF.
    + apply find_running_spec in EF as (Hk & Hgk & Hsk).
      assert (k = j) as -> by (apply (H1 g); [by exists z|done]). rewrite Hk in Hx. injection Hx as ->.
      destruct (agent_id x) as [a|]; injection HC as <-; [|by rewrite E1, app_nil_r].
      rewrite E1. unfold send_command_to_agent. cbn. destruct (bool_decide (is_Some (conns w !! a))), goes; cbn; by rewrite ?app_nil_r.
    + exfalso. destruct Hj as (x' & Hx' & Hgx' & Hsx'). unfold find_running_group_child in EF.
      assert (Hm : (j, x') ∈ with_status RUNNING (children g w)) by (apply elem_of_with_status; split; [by apply elem_of_children|done]).
      destruct (with_status RUNNING (children g w)); [by apply elem_of_nil in Hm|done].
Qed.

(** ** Starting *)

Lemma send_run_runs a i goes w : runs (send_run a i goes w).1 = runs w /\ groups (send_run a i goes w).1 = groups w.
Proof. apply send_runs. Qed.

Lemma lookup_new_rows (next : Z) (rs : list BenchmarkRun) j x :
  (list_to_map (zip (new_ids next (length rs)) rs) : gmap Z BenchmarkRun) !! j = Some x -> x ∈ rs.
Proof.
  intros H%elem_of_list_to_map_2. by apply elem_of_zip_r in H.
Qed.

Lemma scenario_inv now q scenario named g next goes w w' :
  run_benchmark_scenario now q scenario named g next goes w = Ok w' ->
  exists rs : list BenchmarkRun, (forall x, x ∈ rs -> run_status x = PENDING /\ run_group_id x = Some g) /\
  (runs w' = list_to_map (zip (new_ids next (length rs)) rs) ∪ runs w \/
   exists i, runs w' = alter (set_status RUNNING (Some now)) i (list_to_map (zip (new_ids next (length rs)) rs) ∪ runs w) /\
     i ∈ new_ids next (length rs)) /\ is_Some (groups w' !! g) /\ (forall k, k <> g -> groups w' !! k = groups w !! k).
Proof.
  unfold run_benchmark_scenario, start_scenario. destruct (s_ready q); [|done]. cbn.
  destruct (resolve_agent named w) as [a|]; [|done]. cbn.
  unfold create_run_group_from_scenario. destruct (expand_scenario _ _ _ _ _) as [cs|]; [|done]. cbn.
  intros [= <-]. exists (child_row q scenario a g <$> cs). split.
  { intros x (c & -> & _)%list_elem_of_fmap. done. }
  rewrite length_fmap. set (w1 := upd_runs _ _).
  destruct (new_ids next (length cs)) as [|i l] eqn:El; cbn.
  { split; [by left|]. split; [rewrite lookup_insert_eq; by eexists|]. intros k Hk. by rewrite lookup_insert_ne. }
  destruct (send_run a i goes w1) as [w2 b] eqn:Es. cbn.
  pose proof (send_run_runs a i goes w1) as [E1 E2]. rewrite Es in E1, E2. cbn in E1, E2.
  assert (EG : forall k, groups w1 !! k = if decide (k = g) then groups w1 !! g else groups w !! k).
  { intros k. case_decide; [by subst|]. cbn. by rewrite lookup_insert_ne. }
  destruct b; cbn.
  - split; [right; exists i; split; [by rewrite E1|left]|]. rewrite E2. split.
    + rewrite lookup_alter_eq. cbn. rewrite lookup_insert_eq. by eexists.
    + intros k Hk. rewrite lookup_alter_ne, EG by done. by rewrite decide_False.
  - split; [left; by rewrite E1|]. rewrite E2. split.
    + cbn. rewrite lookup_insert_eq. by eexists.
    + intros k Hk. rewrite EG. by rewrite decide_False.
Qed.

(** A new group adds at most one running child, its own. *)
Lemma scenario_running now q scenario named g next goes w w' :
  run_benchmark_scenario now q scenario named g next goes w = Ok w' ->
  exists first, forall k j, is_running k j w' -> is_running k j w \/ (k = g /\ j = first).
Proof.
  intros (rs & Hrs & HR & _)%scenario_inv.
  assert (HU : forall j x, (list_to_map (zip (new_ids next (length rs)) rs) ∪ runs w) !! j = Some x ->
            (run_status x = PENDING /\ run_group_id x = Some g) \/ runs w !! j = Some x).
  { intros j x Hx. apply lookup_union_Some_raw in Hx as [Hx|[_ Hx]]; [left; by apply Hrs; eapply lookup_new_rows|by right]. }
  destruct HR as [HR|(i & HR & Hi)].
  - exists 0. intros k j (x & Hx & Hk & Hs). left. rewrite HR in Hx. destruct (HU j x Hx) as [[Hp _]|Hx']; [congruence|by exists x].
  - exists i. intros k j (x & Hx & Hk & Hs). rewrite HR in Hx. destruct (decide (j = i)) as [->|Hji].
    + rewrite lookup_alter_eq in Hx. destruct (_ !! i) as [z|] eqn:Ez; [|done]. cbn in Hx. simplify_eq.
      cbn in Hk. right. split; [|done]. apply lookup_union_Some_raw in Ez as [Ez|[Ez _]].
      * apply lookup_new_rows, Hrs in Ez as [_ Ez]. congruence.
      * exfalso. apply not_elem_of_list_to_map in Ez. apply Ez. rewrite fst_zip; [done|].
        unfold new_ids. rewrite length_fmap, length_seq. done.
    + rewrite lookup_alter_ne in Hx by done. left. destruct (HU j x Hx) as [[Hp _]|Hx']; [congruence|by exists x].
Qed.

(** ** Any sequence of requests and reports *)

(** A step of the program with agents that report on a run only while it is
    running, and routes that mark what they started before a report comes. *)
Inductive bstep (w : World) : World -> Prop :=
| step_completed now a i p goes r :
    runs w !! i = Some r -> run_status r = RUNNING -> bstep w (run_completed now a i p goes w)
| step_failed now a i msg goes r :
    runs w !! i = Some r -> run_status r = RUNNING -> bstep w (run_failed now a i msg goes w)
| step_heartbeat now a s : bstep w (heartbeat now a s w)
| step_connected now a k : bstep w (connected now a k w)
| step_disconnected now a k : bstep w (disconnected now a k w)
| step_register now f n : bstep w (register_agent now f n w).1
| step_delete_agent a w' : delete_agent a w = Ok w' -> bstep w w'
| step_cancel now i goes w' : cancel_benchmark_run now i goes w = Ok w' -> bstep w w'
| step_delete i w' : delete_run i w = Ok w' -> bstep w w'
| step_baseline i w' : set_baseline i w = Ok w' -> bstep w w'
| step_unset i w' : unset_baseline i w = Ok w' -> bstep w w'
| step_delete_config c w' : delete_config c w = Ok w' -> bstep w w'
| step_trigger now q named i goes w' : trigger_benchmark_run now q named i goes w = Ok w' -> bstep w w'
| step_scenario now q s named g next goes w' :
    groups w !! g = None -> (forall i r, runs w !! i = Some r -> run_group_id r <> Some g) ->
    run_benchmark_scenario now q s named g next goes w = Ok w' -> bstep w w'.

Lemma rolled_runs w x : (forall w', x = Ok w' -> runs w' = runs w /\ groups w' = groups w) ->
  runs (rolled w x) = runs w /\ groups (rolled w x) = groups w.
Proof. destruct x; cbn; [|done]. intros H. by apply H. Qed.

Lemma status_update_running (w w' : World) g j :
  (forall j x', runs w' !! j = Some x' -> exists x, runs w !! j = Some x /\ run_status x' = run_status x /\ run_group_id x' = run_group_id x) ->
  is_running g j w' -> is_running g j w.
Proof.
  intros H (x' & Hx' & Hg & Hs). destruct (H j x' Hx') as (x & Hx & Es & Eg). exists x. split_and!; congruence.
Qed.

Lemma heartbeat_runs now a s w : runs (heartbeat now a s w) = runs w /\ groups (heartbeat now a s w) = groups w.
Proof.
  apply rolled_runs. intros w' H. unfold update_agent_heartbeat in H. destruct (agents w !! a); [|done].
  cbn in H. by apply update_agent_runs in H.
Qed.

Lemma connected_runs now a k w : runs (connected now a k w) = runs w /\ groups (connected now a k w) = groups w.
Proof. unfold connected. apply (rolled_runs (upd_conns _ w)). intros w' H. by apply update_agent_runs in H. Qed.

Lemma disconnected_runs now a k w : runs (disconnected now a k w) = runs w /\ groups (disconnected now a k w) = groups w.
Proof.
  unfold disconnected. case_match; [|done]. apply (rolled_runs (upd_conns _ w)). intros w' HU.
  by apply update_agent_runs in HU.
Qed.

Lemma trigger_running now q named i goes w w' g j :
  trigger_benchmark_run now q named i goes w = Ok w' -> is_running g j w' -> is_running g j w.
Proof.
  unfold trigger_benchmark_run. destruct (s_ready q); [|done]. cbn. destruct (resolve_agent named w) as [a|]; [|done]. cbn.
  unfold create_run. set (c := match given_int _ with Some _ => _ | None => _ end). destruct c as [c|]; [|done]. cbn.
  set (w1 := upd_runs _ w). intros [= <-] (x & Hx & Hg & Hs).
  destruct (decide (j = i)) as [->|Hji].
  - exfalso. destruct (send_run a i goes w1) as [w2 b] eqn:E. pose proof (send_run_runs a i goes w1) as [E1 _].
    rewrite E in E1. cbn in *. destruct b; cbn in Hx; rewrite ?lookup_alter_eq, E1 in Hx; cbn in Hx;
      rewrite lookup_insert_eq in Hx; cbn in Hx; by simplify_eq.
  - exists x. split_and!; try done. destruct (send_run a i goes w1) as [w2 b] eqn:E.
    pose proof (send_run_runs a i goes w1) as [E1 _]. rewrite E in E1. cbn in *.
    destruct b; cbn in Hx; rewrite ?lookup_alter_ne in Hx by done; rewrite E1 in Hx; cbn in Hx;
      by rewrite lookup_insert_ne in Hx.
Qed.

(** The requests that start nothing keep every group's running children or
    stop them. *)
Lemma quiet_running w w' :
  (exists a, delete_agent a w = Ok w') \/ (exists now i goes, cancel_benchmark_run now i goes w = Ok w') \/
  (exists i, delete_run i w = Ok w') \/ (exists i, set_baseline i w = Ok w') \/ (exists i, unset_baseline i w = Ok w') \/
  (exists c, delete_config c w = Ok w') ->
  forall g j, is_running g j w' -> is_running g j w.
Proof.
  intros [[a H]|[(now & i & goes & H)|[[i H]|[[i H]|[[i H]|[c H]]]]]] g j.
  - unfold delete_agent in H. destruct (agents w !! a); [|done]. injection H as <-.
    apply status_update_running. clear j. intros j x' Hx'. cbn in Hx'.
    rewrite lookup_fmap in Hx'. destruct (runs w !! j) as [x|]; [|done]. cbn in Hx'. simplify_eq. exists x. by case_decide.
  - unfold cancel_benchmark_run in H. apply bind_Ok in H as (t & Ht & H). apply bind_Ok in H as (w1 & H1 & H).
    injection H as <-. intros HR. eapply cancel_running; [exact H1|]. revert HR. apply status_update_running.
    intros k x' Hx'. exists x'. split; [|done]. rewrite <- Hx'. destruct (match run_group_id t with Some _ => _ | None => _ end) as [[?|] [?|]];
      by rewrite ?(proj1 (send_runs _ _ _ _)).
  - unfold delete_run in H. apply bind_Ok in H as (t & Ht & H). apply bind_Ok in H as ([] & _ & H). injection H as <-.
    apply status_update_running. clear j. intros j x' Hx'. cbn in Hx'. apply lookup_delete_Some in Hx' as [_ Hx']. by exists x'.
  - unfold set_baseline in H. apply bind_Ok in H as (t & Ht & H). apply bind_Ok in H as ([] & _ & H).
    apply bind_Ok in H as ([] & _ & H). injection H as <-.
    apply status_update_running. clear j. intros j x' Hx'. cbn in Hx'. rewrite map_lookup_imap in Hx'.
    destruct (runs w !! j) as [x|]; [|done]. cbn in Hx'. simplify_eq. exists x. by repeat case_match.
  - unfold unset_baseline in H. apply bind_Ok in H as (t & Ht & H). injection H as <-. unfold get_run in Ht.
    destruct (runs w !! i) as [z|] eqn:Ez; [|done]. injection Ht as ->.
    apply status_update_running. clear j. intros j x' Hx'. cbn in Hx'.
    destruct (decide (j = i)) as [->|]; [rewrite lookup_insert_eq in Hx'; simplify_eq; by exists t|].
    rewrite lookup_insert_ne in Hx' by done. by exists x'.
  - unfold delete_config in H. destruct (configs w !! c); [|done]. injection H as <-.
    apply status_update_running. clear j. intros j x' Hx'. cbn in Hx'.
    rewrite lookup_fmap in Hx'. destruct (runs w !! j) as [x|]; [|done]. cbn in Hx'. simplify_eq. exists x. by case_decide.
Qed.

Lemma running_runs w w' g j : runs w' = runs w -> is_running g j w' -> is_running g j w.
Proof. intros E. unfold is_running. by rewrite E. Qed.

Lemma bstep_one w w' : bstep w w' -> one_running w -> one_running w'.
Proof.
  destruct 1 as [now a i p goes r Hr Hs|now a i msg goes r Hr Hs|now a s|now a k|now a k|now f n|a w' H|now i goes w' H|i w' H
    |i w' H|i w' H|c w' H|now q named i goes w' H|now q s named g next goes w' Hg Hno H].
  - by apply (completed_one _ _ _ _ _ _ r).
  - by apply (failed_one _ _ _ _ _ _ r).
  - apply one_running_mono. intros g j. apply running_runs. apply heartbeat_runs.
  - apply one_running_mono. intros g j. apply running_runs. apply connected_runs.
  - apply one_running_mono. intros g j. apply running_runs. apply disconnected_runs.
  - apply one_running_mono. intros g j. apply running_runs. unfold register_agent. by case_match; [|case_match].
  - apply one_running_mono, quiet_running. eauto.
  - apply one_running_mono, quiet_running. eauto 10.
  - apply one_running_mono, quiet_running. eauto 10.
  - apply one_running_mono, quiet_running. eauto 10.
  - apply one_running_mono, quiet_running. eauto 10.
  - apply one_running_mono, quiet_running. eauto 10.
  - apply one_running_mono. intros g j. by apply (trigger_running now q named i goes).
  - intros H1. destruct (scenario_running _ _ _ _ _ _ _ _ _ H) as [first Hf]. intros k i j Hi Hj.
    assert (Hnog : forall x, ~ is_running g x w) by (intros x (r & Hr & Hgr & _); by apply (Hno x r)).
    apply Hf in Hi as [Hi|[-> ->]], Hj as [Hj|[E ->]]; try done; subst; try (by edestruct Hnog).
    by apply (H1 k).
Qed.

(** C28. At any time at most one child of a group is running, as long as agents
    report a run only while it is running. *)
Theorem one_child_at_a_time w w' : rtc bstep w w' -> one_running w -> one_running w'.
Proof. induction 1 as [|x y z H _ IH]; [done|]. intros H1. by apply IH, (bstep_one x). Qed.

(** ** A sweep that stands still *)

Lemma dispatch_groups now a g goes w : groups (_dispatch_next_group_child now a g goes w) = groups w.
Proof.
  pose proof (dispatch_cases now a g goes w) as HD. destruct (pending_ids g w) as [|i l]; [by rewrite HD|].
  destruct HD as (r & _ & _ & _ & ->). by case_match.
Qed.

Lemma completed_other now a i p goes w r k j :
  runs w !! i = Some r -> run_group_id r <> Some k -> is_running k j (run_completed now a i p goes w) -> is_running k j w.
Proof.
  intros Hr Hk. unfold run_completed. destruct (update_agent_status now a CONNECTED w) as [w1|] eqn:EU; [|done].
  apply update_agent_runs in EU as [ER _]. intros HR. apply (running_runs w w1); [done|]. revert HR.
  assert (Hi : runs w1 !! i = Some r) by by rewrite ER.
  destruct p as [| |m]; [done|case_match; [|done]; by apply running_runs|]. destruct (_agent_owns_run a i w1); [|done].
  unfold complete_run_with_aiperf_result, get_run. rewrite Hi. cbn.
  set (w2 := match run_group_id r with Some g => _ | None => _ end).
  assert (E2 : runs w2 = <[i := measure now m r]> (runs w1)) by (subst w2; by case_match).
  assert (H2 : is_running k j w2 -> is_running k j w1).
  { intros (x & Hx & Hgx & Hsx). rewrite E2 in Hx. destruct (decide (j = i)) as [->|Hj].
    - rewrite lookup_insert_eq in Hx. by simplify_eq.
    - rewrite lookup_insert_ne in Hx by done. by exists x. }
  rewrite E2, lookup_insert_eq. cbn. destruct (run_group_id r) as [g|] eqn:Eg; [|done].
  intros [HR|[-> _]]%dispatch_running; [by apply H2|congruence].
Qed.

Lemma failed_other now a i msg goes w r k j :
  runs w !! i = Some r -> run_group_id r <> Some k -> is_running k j (run_failed now a i msg goes w) -> is_running k j w.
Proof.
  intros Hr Hk. unfold run_failed. destruct (update_agent_status now a CONNECTED w) as [w1|] eqn:EU; [|done].
  apply update_agent_runs in EU as [ER _]. intros HR. apply (running_runs w w1); [done|]. revert HR.
  assert (Hi : runs w1 !! i = Some r) by by rewrite ER.
  destruct (_agent_owns_run a i w1); [|done]. rewrite Hi. case_match; [|done].
  set (w2 := upd_runs _ w1).
  assert (H2 : is_running k j w2 -> is_running k j w1).
  { intros (x & Hx & Hgx & Hsx). cbn in Hx. destruct (decide (j = i)) as [->|Hj].
    - rewrite lookup_insert_eq in Hx. by simplify_eq.
    - rewrite lookup_insert_ne in Hx by done. by exists x. }
  destruct (run_group_id r) as [g|] eqn:Eg; [|done].
  intros [HR|[-> _]]%dispatch_running; [|congruence]. apply H2. revert HR. by apply running_runs.
Qed.

Lemma is_Some_alter (t : gmap Z RunGroup) f i g : is_Some (t !! g) -> is_Some (alter f i t !! g).
Proof.
  intros [x Hx]. destruct (decide (g = i)) as [->|Hn]; [rewrite lookup_alter_eq, Hx|rewrite lookup_alter_ne, Hx by done]; by eexists.
Qed.

(** Groups stay. *)
Lemma bstep_groups w w' g : bstep w w' -> is_Some (groups w !! g) -> is_Some (groups w' !! g).
Proof.
  intros HB HS.
  destruct HB as [now a i p goes r Hr Hs|now a i msg goes r Hr Hs|now a s|now a k|now a k|now f n|a w' H|now i goes w' H|i w' H
    |i w' H|i w' H|c w' H|now q named i goes w' H|now q s named g' next goes w' Hg Hno H].
  - unfold run_completed. destruct (update_agent_status now a CONNECTED w) as [w1|] eqn:EU; [|done].
    apply update_agent_runs in EU as [ER EG]. rewrite <- EG in HS.
    destruct p as [| |m]; [done|by case_match; [rewrite <- EG|]|]. case_match; [|done].
    unfold complete_run_with_aiperf_result. destruct (get_run i w1) as [x|]; cbn; [|by rewrite <- EG].
    set (w2 := match run_group_id x with Some _ => _ | None => _ end).
    assert (H2 : is_Some (groups w2 !! g)) by (subst w2; case_match; [by apply is_Some_alter|done]).
    destruct (get_run i w2) as [y|]; [|by rewrite <- EG]. case_match; [|done]. by rewrite dispatch_groups.
  - unfold run_failed. destruct (update_agent_status now a CONNECTED w) as [w1|] eqn:EU; [|done].
    apply update_agent_runs in EU as [ER EG]. rewrite <- EG in HS.
    destruct (_agent_owns_run a i w1); [|done]. destruct (runs w1 !! i) as [x|]; [|done]. case_match; [|done].
    destruct (run_group_id x) as [g'|]; [|done]. rewrite dispatch_groups. by apply is_Some_alter.
  - by rewrite (proj2 (heartbeat_runs now a s w)).
  - by rewrite (proj2 (connected_runs now a k w)).
  - by rewrite (proj2 (disconnected_runs now a k w)).
  - unfold register_agent. by case_match; [|case_match].
  - unfold delete_agent in H. case_match; [|done]. injection H as <-. cbn. rewrite lookup_fmap.
    destruct HS as [x ->]. by eexists.
  - unfold cancel_benchmark_run in H. apply bind_Ok in H as (t & Ht & H). apply bind_Ok in H as (w1 & H1 & H).
    injection H as <-. assert (H2 : is_Some (groups w1 !! g)).
    { apply cancel_run_inv in H1 as (r & _ & _ & ->). case_match; [by apply is_Some_alter|done]. }
    destruct (match run_group_id t with Some _ => _ | None => _ end) as [[?|] [?|]]; by rewrite ?(proj2 (send_runs _ _ _ _)).
  - unfold delete_run in H. apply bind_Ok in H as (t & Ht & H). apply bind_Ok in H as ([] & _ & H). by injection H as <-.
  - unfold set_baseline in H. apply bind_Ok in H as (t & Ht & H). apply bind_Ok in H as ([] & _ & H).
    apply bind_Ok in H as ([] & _ & H). by injection H as <-.
  - unfold unset_baseline in H. apply bind_Ok in H as (t & Ht & H). by injection H as <-.
  - unfold delete_config in H. case_match; [|done]. by injection H as <-.
  - unfold trigger_benchmark_run in H. apply bind_Ok in H as ([] & _ & H). apply bind_Ok in H as (a & _ & H).
    apply bind_Ok in H as (w1 & H1 & H). injection H as <-. unfold create_run in H1. apply bind_Ok in H1 as (c & _ & H1).
    injection H1 as <-. case_match; cbn; by rewrite (proj2 (send_run_runs _ _ _ _)).
  - apply scenario_inv in H as (_ & _ & _ & H1 & H2). destruct (decide (g = g')) as [->|Hn]; [done|by rewrite H2].
Qed.

Lemma bstep_stalled w w' g : bstep w w' -> is_Some (groups w !! g) -> (forall j, ~ is_running g j w) -> forall j, ~ is_running g j w'.
Proof.
  intros HB HS Hno j HR. apply (Hno j).
  destruct HB as [now a i p goes r Hr Hs|now a i msg goes r Hr Hs|now a s|now a k|now a k|now f n|a w' H|now i goes w' H|i w' H
    |i w' H|i w' H|c w' H|now q named i goes w' H|now q s named g' next goes w' Hg Hfresh H].
  - apply (completed_other now a i p goes w r); try done. intros Hg. apply (Hno i). by exists r.
  - apply (failed_other now a i msg goes w r); try done. intros Hg. apply (Hno i). by exists r.
  - revert HR. apply running_runs, heartbeat_runs.
  - revert HR. apply running_runs, connected_runs.
  - revert HR. apply running_runs, disconnected_runs.
  - revert HR. apply running_runs. unfold register_agent. by case_match; [|case_match].
  - revert HR. apply quiet_running. eauto.
  - revert HR. apply quiet_running. eauto 10.
  - revert HR. apply quiet_running. eauto 10.
  - revert HR. apply quiet_running. eauto 10.
  - revert HR. apply quiet_running. eauto 10.
  - revert HR. apply quiet_running. eauto 10.
  - revert HR. by apply (trigger_running now q named i goes).
  - destruct (scenario_running _ _ _ _ _ _ _ _ _ H) as [first Hf]. destruct (Hf _ _ HR) as [HR'|[E _]]; [done|].
    rewrite E, Hg in HS. by destruct HS.
Qed.

(** A group without a running child never has one again: nothing takes up its
    pending children, not even a new connection of their agent. *)
Theorem stopped_sweep_stays w w' g :
  rtc bstep w w' -> is_Some (groups w !! g) -> (forall j, ~ is_running g j w) -> forall j, ~ is_running g j w'.
Proof.
  induction 1 as [|x y z H _ IH]; [done|]. intros HS Hno. apply IH; [by apply (bstep_groups x)|by apply (bstep_stalled x)].
Qed.
End groups.

Section baselines.
Context {SO : SetOrder Z}.

(** ** Baselines *)

(** Among the runs of one context with a target at most one is its baseline. *)
Definition one_baseline (w : World) : Prop :=
  forall i j ri rj, runs w !! i = Some ri -> runs w !! j = Some rj -> is_baseline ri = true -> is_baseline rj = true ->
  context ri = context rj -> target_id ri <> None -> i = j.

Lemma context_target a b : context a = context b -> target_id a = target_id b.
Proof. unfold context. congruence. Qed.

Lemma set_baseline_inv i w w' : set_baseline i w = Ok w' ->
  exists r, runs w !! i = Some r /\ run_status r = COMPLETED /\ target_id r <> None /\
  forall j, runs w' !! j = (fun x => if bool_decide (context x = context r) then
                if bool_decide (j = i) then set_is_baseline true x
                else if is_baseline x then set_is_baseline false x else x
              else x) <$> runs w !! j.
Proof.
  unfold set_baseline, get_run. destruct (runs w !! i) as [r|]; [|done]. cbn. unfold has_status.
  destruct (bool_decide (run_status r = COMPLETED)) eqn:Es; [|done]. cbn.
  destruct (bool_decide (is_Some (target_id r))) eqn:Et; [|done]. cbn. intros [= <-]. bool_hyps.
  exists r. split_and!; [done|done|by apply not_eq_None_Some|]. intros j. cbn. rewrite map_lookup_imap. by destruct (runs w !! j).
Qed.

Lemma set_is_baseline_context b x : context (set_is_baseline b x) = context x.
Proof. done. Qed.

(** Marking a completed run with a target makes it the one baseline of its
    context and leaves other contexts alone. *)
Theorem set_baseline_unique i w w' :
  set_baseline i w = Ok w' ->
  (exists r, runs w !! i = Some r /\ run_status r = COMPLETED /\
   (forall j x, runs w' !! j = Some x -> context x = context r -> (is_baseline x = true <-> j = i)) /\
   (forall j x, runs w !! j = Some x -> context x <> context r -> runs w' !! j = Some x)) /\
  (one_baseline w -> one_baseline w').
Proof.
  intros (r & Hr & Hs & Ht & HW)%set_baseline_inv.
  assert (HA : forall j x, runs w' !! j = Some x -> context x = context r -> (is_baseline x = true <-> j = i)).
  { intros j x Hx Hc. rewrite HW in Hx. destruct (runs w !! j) as [y|] eqn:Hy; [|done]. cbn in Hx.
    destruct (bool_decide (context y = context r)) eqn:E1; bool_hyps.
    - destruct (bool_decide (j = i)) eqn:E2; bool_hyps; simplify_eq; [done|].
      destruct (is_baseline y) eqn:Eb; simplify_eq; cbn; [done|]. by rewrite Eb.
    - by simplify_eq. }
  assert (HB : forall j x, runs w !! j = Some x -> context x <> context r -> runs w' !! j = Some x).
  { intros j x Hx Hc. rewrite HW, Hx. cbn. by rewrite bool_decide_false. }
  split; [by exists r|]. intros H1 a b ra rb Ha Hb HBa HBb Hc Hta.
  destruct (decide (context ra = context r)) as [E|N].
  - assert (a = i) as -> by (by apply (HA a ra)). symmetry. apply (HA b rb); [done|congruence|done].
  - assert (Hback : forall j x, runs w' !! j = Some x -> context x <> context r -> runs w !! j = Some x).
    { intros j x Hx Hcx. rewrite HW in Hx. destruct (runs w !! j) as [y|] eqn:Hy; [|done]. cbn in Hx.
      destruct (bool_decide (context y = context r)) eqn:E1; bool_hyps; [|done].
      exfalso. apply Hcx. rewrite <- E1. by repeat case_match; simplify_eq. }
    apply (H1 a b ra rb); try done; apply Hback; congruence.
Qed.

(** What a run's numbers are compared with: the baseline of its context,
    unless it is the run itself; nothing without a target. *)
Theorem baseline_reference w rs k i r o :
  one_baseline w -> (forall ir, ir ∈ rs -> runs w !! ir.1 = Some ir.2) -> rs !! k = Some (i, r) ->
  _attach_baseline_context rs w !! k = Some o ->
  forall b, o = Some b <-> b <> i /\ target_id r <> None /\
    exists x, runs w !! b = Some x /\ is_baseline x = true /\ context x = context r.
Proof.
  intros H1 Hrs Hk Ho b. unfold _attach_baseline_context in Ho. rewrite list_lookup_fmap, Hk in Ho. cbn in Ho.
  set (tids := omap (fun ir => target_id ir.2) rs) in Ho.
  set (cands := select _ (runs w)) in Ho.
  assert (HC : forall j x, (j, x) ∈ cands <-> runs w !! j = Some x /\ is_baseline x = true /\
    exists t, target_id x = Some t /\ t ∈ tids).
  { intros j x. subst cands. rewrite elem_of_select. destruct (target_id x) as [t|].
    - rewrite andb_true_iff, bool_decide_eq_true. naive_solver.
    - rewrite andb_false_r. naive_solver. }
  assert (HT : target_id r <> None -> exists t, target_id r = Some t /\ t ∈ tids).
  { destruct (target_id r) as [t|] eqn:Et; [|done]. intros _. exists t. split; [done|].
    apply list_elem_of_omap. exists (i, r). split; [by eapply list_elem_of_lookup_2|done]. }
  assert (HD : forall c, dget (context r) (dict_of ((fun ir => (context ir.2, ir.1)) <$> cands)) = Some c <->
    target_id r <> None /\ exists x, runs w !! c = Some x /\ is_baseline x = true /\ context x = context r).
  { intros c. split.
    - intros H%dget_elem_of%dict_of_elem. apply list_elem_of_fmap in H as ([j x] & [Hc ->]%pair_equal_spec & Hjx); cbn in Hc.
      apply HC in Hjx as (Hx & Hb & t & Ht & _). split; [|by exists x].
      rewrite (context_target r x Hc), Ht. done.
    - intros [Htr (x & Hx & Hb & Hc)].
      assert (Hin : (c, x) ∈ cands).
      { apply HC. split_and!; [done|done|]. destruct (HT Htr) as (t & Ht & Hm). exists t. split; [|done].
        by rewrite (context_target x r Hc). }
      destruct (dget (context r) _) as [c'|] eqn:E.
      + apply dget_elem_of, dict_of_elem in E. apply list_elem_of_fmap in E as ([j x'] & [Hc' ->]%pair_equal_spec & Hjx); cbn in Hc'.
        apply HC in Hjx as (Hx' & Hb' & _). f_equal. apply (H1 j c x' x); try done; [congruence|].
        rewrite <- (context_target _ _ Hc'). done.
      + exfalso. apply dget_None in E. apply E, dict_of_keys, list_elem_of_fmap. exists (context r, c). split; [done|].
        apply list_elem_of_fmap. exists (c, x). cbn. by rewrite Hc. }
  destruct (dget (context r) _) as [c|] eqn:E.
  - destruct (proj1 (HD c) eq_refl) as [Htr Hx]. case_bool_decide as Eci; simplify_eq; split.
    + done.
    + intros (Hbi & _ & Hb). exfalso. destruct Hx as (x & Hx1 & Hx2 & Hx3), Hb as (y & Hy1 & Hy2 & Hy3).
      apply Hbi. apply (H1 b i y x); try done; [congruence|]. by rewrite (context_target _ _ Hy3).
    + by intros [= <-].
    + intros (Hbi & _ & Hb). f_equal. destruct Hx as (x & Hx1 & Hx2 & Hx3), Hb as (y & Hy1 & Hy2 & Hy3).
      apply (H1 c b x y); try done; [congruence|]. by rewrite (context_target _ _ Hx3).
  - simplify_eq. split; [done|]. intros (_ & Htr & Hb). pose proof (proj2 (HD b) (conj Htr Hb)). done.
Qed.

(** ** The flags of a single run *)

Lemma config_json_NoDup q : NoDup (config_json q).*1.
Proof.
  unfold config_json. set (base := _ :: _). assert (HB : NoDup base.*1) by (apply (bool_decide_unpack _); vm_compute; exact I).
  repeat case_match; repeat apply dset_NoDup; done.
Qed.

(** A saved configuration gives only the flags the route does not set itself,
    so never the number of concurrent requests, which is 50. *)
Theorem saved_config_hidden q a i w w' k saved :
  create_run q a i w = Ok w' -> given_int (s_config q) = Some k -> configs w !! k = Some saved -> NoDup saved.*1 ->
  exists c, config_snapshot <$> runs w' !! i = Some (Some c) /\
  (forall f, dget f c = match dget f (config_json q) with Some v => Some v | None => dget f saved end) /\
  dget "concurrency" c = Some (FInt 50).
Proof.
  unfold create_run. intros H Hk Hc Hs. rewrite Hk, Hc in H. cbn in H. injection H as <-. cbn. rewrite lookup_insert_eq.
  eexists. split; [reflexivity|].
  assert (HF : forall f, dget f (merge saved (config_json q)) = match dget f (config_json q) with Some v => Some v | None => dget f saved end).
  { intros f. by rewrite dget_merge, dget_reverse by apply config_json_NoDup. }
  split; [done|]. rewrite HF. unfold config_json. repeat case_match; rewrite ?dget_dset in *; cbn in *; simplify_eq; done.
Qed.
End baselines.

(** ** Who may connect as an agent *)

Section handshake_laws.
Context (decode_token : string -> option (list (string * json))) (token_user_state : string -> option bool).

(** With agent authentication a connection is taken exactly when its token is
    valid and its claim [agent_id] is the agent of the path.  Without it, and
    with the login required, exactly when the token is valid and is an agent's
    or that of an active user who owes no new password; the agent of the path
    plays no part. *)
Theorem handshake_admits require_auth token agent :
  (_agent_ws_authorized decode_token token_user_state true require_auth token agent = None <->
   exists t claims j, token = Some t /\ t <> "" /\ decode_token t = Some claims /\ dget "agent_id" claims = Some j /\
     int_of j = Some agent) /\
  (_agent_ws_authorized decode_token token_user_state false true token agent = None <->
   exists t claims, token = Some t /\ t <> "" /\ decode_token t = Some claims /\
     (dget "role" claims = Some (JStr "agent") \/ token_user_state t = Some false)) /\
  _agent_ws_authorized decode_token token_user_state false false token agent = None.
Proof.
  assert (HT : forall t, truthy_str (Some t) = true <-> t <> "").
  { intros t. unfold truthy_str. rewrite negb_true_iff. apply String.eqb_neq. }
  split_and!; [| |done].
  - unfold _agent_ws_authorized. destruct token as [t|]; [|split; [done|by intros (? & ? & ? & [=] & _)]].
    change (default "" (Some t)) with t. destruct (truthy_str (Some t)) eqn:E.
    + destruct (decode_token t) as [cl|] eqn:Ed.
      * destruct (dget "agent_id" cl) as [j|] eqn:Ej.
        -- assert (HJ : (match j with JNull => Some 4401 | _ => if bool_decide (int_of j = Some agent) then None else Some 4401 end = None)
             <-> int_of j = Some agent) by (destruct j; try (case_bool_decide; split; done); done).
           etransitivity; [exact HJ|]. split.
           ++ intros Hi. exists t, cl, j. split_and!; try done. by apply HT.
           ++ intros (t' & cl' & j' & [= <-] & _ & Hd & Hj' & Hi). congruence.
        -- split; [done|]. intros (t' & cl' & j' & [= <-] & _ & Hd & Hj' & Hi). congruence.
      * split; [done|]. intros (t' & cl' & j' & [= <-] & _ & Hd & _). congruence.
    + split; [done|]. intros (t' & cl' & j' & [= <-] & Hne & _). apply HT in Hne. congruence.
  - unfold _agent_ws_authorized. cbn [negb]. destruct token as [t|]; [|split; [done|by intros (? & ? & [=] & _)]].
    change (default "" (Some t)) with t. destruct (truthy_str (Some t)) eqn:E.
    + destruct (decode_token t) as [cl|] eqn:Ed.
      * set (b := match dget "role" cl with Some (JStr role) => String.eqb role "agent" | _ => false end).
        assert (Hb : b = true <-> dget "role" cl = Some (JStr "agent")).
        { subst b. destruct (dget "role" cl) as [[]|]; try done. rewrite String.eqb_eq. naive_solver. }
        destruct b.
        -- split; [|done]. intros _. exists t, cl. split_and!; try done; [by apply HT|]. left. by apply Hb.
        -- split.
           ++ intros H. exists t, cl. split_and!; try done; [by apply HT|]. right. by destruct (token_user_state t) as [[]|].
           ++ intros (t' & cl' & [= <-] & _ & Hd & [Hr|Hu]); [|by rewrite Hu].
              simplify_eq. by apply Hb in Hr.
      * split; [done|]. intros (t' & cl' & [= <-] & _ & Hd & _). congruence.
    + split; [done|]. intros (t' & cl' & [= <-] & Hne & _). apply HT in Hne. congruence.
Qed.
End handshake_laws.

(** ** A sweep, computed *)

#[local] Instance ordered : SetOrder Z := elements_order.

Lemma stands_intro g a i l w :
  is_Some (agents w !! a) -> is_Some (conns w !! a) -> is_Some (groups w !! g) ->
  map_Forall (fun _ r => run_group_id r = Some g -> agent_id r = Some a) (runs w) ->
  (with_status RUNNING (children g w)).*1 = [i] -> pending_ids g w = l -> stands g a i l w.
Proof.
  intros H1 H2 H3 H4 H5 H6. constructor; try done.
  intros j. rewrite <- (list_elem_of_singleton j i), <- H5, list_elem_of_fmap. split.
  - intros (r & Hr & Hg & Hs). exists (j, r). split; [done|]. apply elem_of_with_status. split; [by apply elem_of_children|done].
  - intros ([j' r] & -> & [[Hr Hg]%elem_of_children Hs]%elem_of_with_status). by exists r.
Qed.

Definition bench_request : StartRequest :=
  {| s_ready := true; s_target := 3; s_target_name := "llm"; s_model := "m"; s_endpoint := ""; s_base_url := "http://llm";
     s_proxy_type := "nginx"; s_config := None; s_timeout := None; s_total_requests := None; s_max_tokens := None;
     s_overrides := None |}.

Definition bench_idle : World :=
  {| runs := ∅; groups := ∅;
     agents := {[1 := {| agent_name := "loadgen-01"; agent_status := CONNECTED; last_heartbeat := None |}]};
     configs := ∅; conns := {[1 := 77]}; sent := [] |}.

Definition bench_started : World :=
  match run_benchmark_scenario 5 bench_request "baseline" None 9 100 true bench_idle with Ok w => w | Err _ => bench_idle end.

Definition bench_done : sweep_report := Done {| m_successful := 250; m_failed := 0; m_duration := 30; m_end := None |}.

Definition statuses (w : World) : list (option RunStatus) :=
  (fun i => run_status <$> runs w !! i) <$> [100; 101; 102; 103].

Lemma bench_started_stands : stands 9 1 100 [101; 102; 103] bench_started.
Proof.
  apply stands_intro; try (apply (bool_decide_unpack _); vm_compute; exact I); vm_compute; reflexivity.
Qed.

Lemma bench_started_one : one_running bench_started.
Proof.
  intros g i j (ri & Hi & Hg & Hsi) (rj & Hj & Hgj & Hsj).
  assert (HM : map_Forall (fun _ r => run_group_id r = Some 9) (runs bench_started)) by (apply (bool_decide_unpack _); vm_compute; exact I).
  assert (g = 9) as -> by (specialize (HM i ri Hi); cbn in HM; congruence).
  transitivity 100; [|symmetry]; apply (st_running _ _ _ _ _ bench_started_stands); [by exists ri|by exists rj].
Qed.

Lemma sweep_finishes_witness :
  let w' := play 8 1 9 [bench_done; Failed "oom"; bench_done; bench_done] bench_started in
  (exists y, groups w' !! 9 = Some y /\ group_status y = COMPLETED) /\ swept 9 w'.
Proof.
  destruct (sweep_finishes 8 1 9 100 [101; 102; 103] [bench_done; Failed "oom"; bench_done; bench_done] bench_started
    bench_started_stands eq_refl) as (H1 & _ & H3 & _ & y & Hy & _ & HC & _).
  split; [|exact H1]. exists y. split; [exact Hy|]. apply HC.
  destruct (H3 0%nat 100 bench_done eq_refl eq_refl) as (r & Hr & Hs). exists (100, r). split; [|exact Hs].
  apply elem_of_children. split; [exact Hr|]. revert Hr. vm_compute. intros [= <-]. reflexivity.
Defined.

Lemma one_child_at_a_time_witness : one_running (run_completed 8 1 100 (Read {| m_successful := 1; m_failed := 0; m_duration := 1; m_end := None |}) true bench_started).
Proof.
  apply (one_child_at_a_time bench_started).
  - apply rtc_once. destruct (runs bench_started !! 100) as [r|] eqn:E; [|vm_compute in E; discriminate E].
    apply (step_completed _ _ _ _ _ _ r E). revert E. vm_compute. intros [= <-]. reflexivity.
  - exact bench_started_one.
Defined.

Lemma cancel_ends_sweep_witness :
  match cancel_benchmark_run 8 101 true bench_started with
  | Ok w' => pending_ids 9 w' = [] /\ sent w' = sent bench_started ++ [CancelCommand 1 100] /\
      exists y, groups w' !! 9 = Some y /\ group_status y = CANCELLED
  | Err _ => False
  end.
Proof.
  destruct (cancel_benchmark_run 8 101 true bench_started) as [w'|e] eqn:E; [|vm_compute in E; discriminate E].
  destruct (runs bench_started !! 101) as [r|] eqn:Er; [|vm_compute in Er; discriminate Er].
  destruct (runs bench_started !! 100) as [x|] eqn:Ex; [|vm_compute in Ex; discriminate Ex].
  assert (Hg : run_group_id r = Some 9) by (revert Er; vm_compute; intros [= <-]; reflexivity).
  assert (Ha : agent_id x = Some 1) by (revert Ex; vm_compute; intros [= <-]; reflexivity).
  destruct (cancel_ends_sweep 8 101 true bench_started w' r 9 E Er Hg (st_group _ _ _ _ _ bench_started_stands))
    as (_ & _ & H3 & (y & Hy & Hst & _) & _ & H5).
  split; [exact H3|]. split; [|exists y; split; [exact Hy|exact Hst]].
  rewrite (H5 bench_started_one 100 x (proj2 (st_running _ _ _ _ _ bench_started_stands 100) eq_refl) Ex), Ha.
  rewrite bool_decide_eq_true_2 by exact (st_conn _ _ _ _ _ bench_started_stands). reflexivity.
Defined.

(** The same report twice, and two children run. *)
Example repeated_report_two_children :
  let w := report 8 1 100 bench_done true bench_started in
  statuses w = [Some COMPLETED; Some RUNNING; Some PENDING; Some PENDING] /\
  statuses (report 9 1 100 bench_done true w) = [Some COMPLETED; Some RUNNING; Some RUNNING; Some PENDING] /\
  sent (report 9 1 100 bench_done true w) = (fun i => RunCommand 1 i (snapshot_of bench_started i)) <$> [100; 101; 102].
Proof. vm_compute. split_and!; reflexivity. Qed.

(** A report that comes before the route has marked the child it started: the
    mark overwrites it, the child that failed is running again, and so is the
    next. *)
Example report_before_mark :
  match start_scenario bench_request "baseline" None 9 100 true bench_idle with
  | Ok (w, first) =>
      let w1 := report 6 1 100 (Failed "no aiperf") true w in
      let w2 := mark_started 7 9 first w1 in
      statuses w1 = [Some FAILED; Some RUNNING; Some PENDING; Some PENDING] /\
      statuses w2 = [Some RUNNING; Some RUNNING; Some PENDING; Some PENDING]
  | Err _ => False
  end.
Proof. vm_compute. split; reflexivity. Qed.

(** A result that comes after the cancel: the run is completed, and so is the
    group that was cancelled. *)
Example late_result_after_cancel :
  match cancel_benchmark_run 8 101 true bench_started with
  | Ok w =>
      (group_status <$> groups w !! 9) = Some CANCELLED /\
      sent w = [RunCommand 1 100 (snapshot_of bench_started 100); CancelCommand 1 100] /\
      let w' := report 9 1 100 bench_done true w in
      statuses w' = [Some COMPLETED; Some CANCELLED; Some CANCELLED; Some CANCELLED] /\
      (group_status <$> groups w' !! 9) = Some COMPLETED
  | Err _ => False
  end.
Proof. vm_compute. split_and!; reflexivity. Qed.

(** A text that does not go out: the sweep has no running child, and by
    [stopped_sweep_stays] never has one again; the group still says running. *)
Example lost_text_stops_sweep :
  let w := connected 9 1 78 (report 8 1 100 bench_done false bench_started) in
  statuses w = [Some COMPLETED; Some PENDING; Some PENDING; Some PENDING] /\
  (group_status <$> groups w !! 9) = Some RUNNING /\ runs (heartbeat 10 1 None w) = runs w.
Proof. vm_compute. split_and!; reflexivity. Qed.

(** An empty result leaves the run running. *)
Example empty_result_ignored : runs (run_completed 8 1 100 Missing true bench_started) = runs bench_started.
Proof. vm_compute. reflexivity. Qed.

(** Deleting what two contexts differ in leaves one context with two
    baselines. *)
Definition bench_run (c : Z) : BenchmarkRun :=
  {| agent_id := Some 1; run_group_id := None; target_id := Some 3; scenario_key := None; config_id := Some c;
     proxy := "nginx"; variant_label := None; config_snapshot := None; is_baseline := false; run_status := COMPLETED;
     error_message := None; total_requests := None; successful_requests := None; failed_requests := None;
     duration_seconds := None; started_at := None; completed_at := None |}.

Example two_baselines :
  let w := {| runs := {[1 := bench_run 21; 2 := bench_run 22]}; groups := ∅; agents := ∅;
              configs := {[21 := []; 22 := []]}; conns := ∅; sent := [] |} in
  match (w1 ← set_baseline 1 w; w2 ← set_baseline 2 w1; w3 ← delete_config 21 w2; delete_config 22 w3) with
  | Ok w' => (is_baseline <$> runs w' !! 1) = Some true /\ (is_baseline <$> runs w' !! 2) = Some true /\
             (context <$> runs w' !! 1) = (context <$> runs w' !! 2)
  | Err _ => False
  end.
Proof. vm_compute. split_and!; reflexivity. Qed.
