(* ===== verification/BenchmarkAgent.v ===== *)
(** * The agent that runs benchmarks

    scripts/forge_agent.py: the command line it makes of a configuration, the
    download of a trace, and the queue of its runs with what it reports.  A
    connection is a number; a message goes out on the connection its run came
    in on, and is lost when that one is closed. *)

From Stdlib Require Import Ascii.
From S2P Require Import Prelude Texts PyText BenchmarkScenarios.

Open Scope string_scope.
Open Scope list_scope.
Open Scope Z_scope.

(** ** The command line *)

Definition SCALAR_FLAG_MAP : list (string * string) :=
  [("url", "--url"); ("model", "--model"); ("endpoint_type", "--endpoint-type"); ("endpoint", "--endpoint");
   ("request_count", "--request-count"); ("concurrency", "--concurrency"); ("request_rate", "--request-rate");
   ("warmup_request_count", "--warmup-request-count"); ("request_timeout_seconds", "--request-timeout-seconds");
   ("benchmark_duration", "--benchmark-duration"); ("isl", "--isl"); ("osl", "--osl");
   ("synthetic_input_tokens_mean", "--synthetic-input-tokens-mean");
   ("synthetic_input_tokens_stddev", "--synthetic-input-tokens-stddev"); ("output_tokens_mean", "--output-tokens-mean");
   ("prefix_prompt_length", "--prefix-prompt-length"); ("num_prefix_prompts", "--num-prefix-prompts");
   ("seq_dist", "--seq-dist"); ("tokenizer", "--tokenizer"); ("random_seed", "--random-seed");
   ("workers_max", "--workers-max"); ("profile_export_level", "--profile-export-level");
   ("record_processors", "--record-processors"); ("goodput", "--goodput");
   ("custom_dataset_type", "--custom-dataset-type"); ("input_file", "--input-file"); ("artifact_dir", "--artifact-dir");
   ("output_artifact_dir", "--output-artifact-dir")].

Definition BOOL_FLAG_MAP : list (string * string) :=
  [("streaming", "--streaming"); ("fixed_schedule", "--fixed-schedule")].

(** The digits of [n] with at least [width] of them. *)
Definition padded (width : nat) (n : Z) : string :=
  let s := pretty n in String.concat "" (repeat "0" (width - String.length s)%nat) +:+ s.

Fixpoint drop_zeros (s : string) : string :=
  match s with
  | EmptyString => EmptyString
  | String c t => let t' := drop_zeros t in
                  match t' with EmptyString => if Ascii.eqb c "0"%char then EmptyString else String c EmptyString
                  | _ => String c t' end
  end.

(** [str(x)] of a float given by its digits, of a size Python writes without
    an exponent. *)
Definition decimal_text (digits : Z) (scale : nat) : string :=
  let p := 10 ^ Z.of_nat scale in
  let a := Z.abs digits in
  let fraction := drop_zeros (if (0 <? scale)%nat then padded scale (a mod p) else "") in
  (if digits <? 0 then "-" else "") +:+ pretty (a / p) +:+ "." +:+ (if String.eqb fraction "" then "0" else fraction).

(** [str(val)] *)
Definition flag_text (f : flag) : string :=
  match f with
  | FInt z => pretty z
  | FStr s => s
  | FBool b => if b then "True" else "False"
  | FStrs l => py_repr (JList (JStr <$> l))
  | FDict d => py_repr (JObj (prod_map id JStr <$> d))
  | FDecimal d s => decimal_text d s
  | FNull => "None"
  end.

Definition flag_truthy (f : flag) : bool :=
  match f with
  | FInt z => negb (z =? 0)
  | FStr s => negb (String.eqb s "")
  | FBool b => b
  | FStrs l => negb (bool_decide (l = []))
  | FDict d => negb (bool_decide (d = []))
  | FDecimal d _ => negb (d =? 0)
  | FNull => false
  end.

(** [config.get(k)]: a null is as good as nothing. *)
Definition given (k : string) (c : config) : option flag :=
  match dget k c with Some FNull | None => None | Some v => Some v end.

Definition scalar_args (c : config) : list string :=
  kf ← SCALAR_FLAG_MAP; match given kf.1 c with Some v => [kf.2; flag_text v] | None => [] end.

Definition bool_args (c : config) : list string :=
  kf ← BOOL_FLAG_MAP; match given kf.1 c with Some v => if flag_truthy v then [kf.2] else [] | None => [] end.

(** The repeated [--extra-inputs]; [None] where iterating raises. *)
Definition extra_args (c : config) : option (list string) :=
  match given "extra_inputs" c with
  | None => Some []
  | Some v =>
      if flag_truthy v then
        match v with
        | FStr s => Some ["--extra-inputs"; s]
        | FStrs l => Some (i ← l; ["--extra-inputs"; i])
        | FDict d => Some (kv ← d; ["--extra-inputs"; kv.1])
        | _ => None
        end
      else Some []
  end.

Definition _build_aiperf_command (c : config) : option (list string) :=
  extra ← extra_args c;
  Some (["aiperf"; "profile"] ++ scalar_args c ++ bool_args c ++ extra ++
        ["--ui"; flag_text (default (FStr "none") (dget "ui" c))]).

(** The keys the command line knows. *)
Definition known_keys : list string := SCALAR_FLAG_MAP.*1 ++ BOOL_FLAG_MAP.*1 ++ ["extra_inputs"; "ui"].

(** ** Traces *)

Definition TRACE_MAX_BYTES : Z := 512 * 1024 * 1024.
Definition TRACE_ALLOWED_SCHEMES : list string := ["https"; "http"].

Inductive trace_error : Type :=
| SchemeNotAllowed
| NoHost
| DeclaredTooLarge
| TooLarge.

(** [declared.isdigit()] and its number. *)
Definition declared_size (declared : option string) : option Z :=
  match declared with
  | Some s => if negb (String.eqb s "") && forallb (fun c => bool_decide (is_Some (digit c))) (String.list_ascii_of_string s)
              then unsigned_int s else None
  | None => None
  end.

(** The chunks of the body written to disk until one too many has come. *)
Fixpoint write_chunks (max_bytes written : Z) (chunks : list Z) : Z * result trace_error Z :=
  match chunks with
  | [] => (written, Ok written)
  | n :: rest =>
      if n =? 0 then write_chunks max_bytes written rest
      else if max_bytes <? written + n then (written, Err TooLarge)
      else write_chunks max_bytes (written + n) rest
  end.

(** [_download_trace]: the bytes on disk and the outcome, given what parsing
    the address, the response's header and its chunks are. *)
Definition _download_trace (scheme netloc : string) (declared : option string) (chunks : list Z) (max_bytes : Z) :
    Z * result trace_error Z :=
  if negb (bool_decide (scheme ∈ TRACE_ALLOWED_SCHEMES)) then (0, Err SchemeNotAllowed)
  else if String.eqb netloc "" then (0, Err NoHost)
  else match declared_size declared with
       | Some n => if max_bytes <? n then (0, Err DeclaredTooLarge) else write_chunks max_bytes 0 chunks
       | None => write_chunks max_bytes 0 chunks
       end.

(** The configuration [_prepare_trace_input] returns. *)
Definition trace_config (dilated artifacts : string) (c : config) : config :=
  let c1 := dset "input_file" (FStr dilated) (filter (fun kv => kv.1 <> "trace_url") c) in
  match dget "output_artifact_dir" c1 with
  | Some _ => c1
  | None => dset "output_artifact_dir" (FStr artifacts) c1
  end.

(** [if config.get("trace_url") and config.get("custom_dataset_type")] *)
Definition is_trace (c : config) : bool :=
  match given "trace_url" c, given "custom_dataset_type" c with
  | Some u, Some t => flag_truthy u && flag_truthy t
  | _, _ => false
  end.

(** ** Runs *)

Inductive message : Type :=
| MCompleted (run : Z)
| MFailed (run : Z).

(** [waiting] are the tasks at the run lock, in order; [holding] is the one
    that has it, [process] whether its process exists. *)
Record Machine := {
  socket : option Z;
  waiting : list (Z * Z);          (* connection and run *)
  holding : option (Z * Z);
  process : bool;
  reported : list message
}.

(** A text sent on a connection. *)
Definition say (on : Z) (m : message) (x : Machine) : list message :=
  if bool_decide (socket x = Some on) then reported x ++ [m] else reported x.

(** A command [run] comes in. *)
Definition receive_run (run : Z) (x : Machine) : Machine :=
  match socket x with
  | None => x
  | Some s => {| socket := socket x; waiting := waiting x ++ [(s, run)]; holding := holding x; process := process x;
                 reported := reported x |}
  end.

(** The lock is free and the next task takes it; [starts] says whether the
    command could be built and the process made. *)
Definition begin_run (starts : bool) (x : Machine) : Machine :=
  match holding x, waiting x with
  | None, (s, run) :: rest =>
      if starts then {| socket := socket x; waiting := rest; holding := Some (s, run); process := true; reported := reported x |}
      else {| socket := socket x; waiting := rest; holding := None; process := false; reported := say s (MFailed run) x |}
  | _, _ => x
  end.

(** The process ends: with exit code 0 and a result, or not. *)
Definition end_run (good : bool) (x : Machine) : Machine :=
  match holding x with
  | Some (s, run) =>
      if process x then
        {| socket := socket x; waiting := waiting x; holding := None; process := false;
           reported := say s (if good then MCompleted run else MFailed run) x |}
      else x
  | None => x
  end.

(** [_handle_cancel]: the process there is, if any, is killed, and its run
    fails. *)
Definition _handle_cancel (run : Z) (x : Machine) : Machine := if process x then end_run false x else x.

(** The connection is replaced. *)
Definition reconnect (s : Z) (x : Machine) : Machine :=
  {| socket := Some s; waiting := waiting x; holding := holding x; process := process x; reported := reported x |}.

(** ** Theorems *)

(** What is not a known flag has no part in the command: neither Forge's own
    keys nor an override whose name the agent does not know. *)
Theorem unknown_keys_dropped c :
  _build_aiperf_command c = _build_aiperf_command (filter (fun kv => kv.1 ∈ known_keys) c).
Proof.
  assert (HD : forall k, k ∈ known_keys -> dget k (filter (fun kv => kv.1 ∈ known_keys) c) = dget k c).
  { intros k Hk. induction c as [|[k' v] c IH]; [done|]. rewrite filter_cons. cbn [fst].
    destruct (decide (k' ∈ known_keys)) as [Hk'|Hk']; cbn [dget]; [by rewrite IH|].
    rewrite IH. case_decide; [by subst|done]. }
  assert (HG : forall k, k ∈ known_keys -> given k (filter (fun kv => kv.1 ∈ known_keys) c) = given k c).
  { intros k Hk. unfold given. by rewrite HD. }
  unfold _build_aiperf_command.
  assert (E1 : extra_args (filter (fun kv => kv.1 ∈ known_keys) c) = extra_args c).
  { unfold extra_args. rewrite HG; [done|]. apply (bool_decide_unpack _). vm_compute. exact I. }
  assert (E2 : scalar_args (filter (fun kv => kv.1 ∈ known_keys) c) = scalar_args c).
  { unfold scalar_args, mbind, list_bind. cbn. by rewrite !HG by (apply (bool_decide_unpack _); vm_compute; exact I). }
  assert (E3 : bool_args (filter (fun kv => kv.1 ∈ known_keys) c) = bool_args c).
  { unfold bool_args, mbind, list_bind. cbn. by rewrite !HG by (apply (bool_decide_unpack _); vm_compute; exact I). }
  rewrite E1, E2, E3, HD; [done|]. apply (bool_decide_unpack _). vm_compute. exact I.
Qed.

(** Every flag of every scenario is one the agent knows, or Forge's own: no
    preset sets a flag that is dropped. *)
Theorem preset_flags_known k url ep m cs c f :
  expand_scenario k url ep m [] = Some cs -> c ∈ cs -> f ∈ c.*1 ->
  f ∈ known_keys \/ reserved f = true.
Proof.
  intros (p & Hp & ->)%expand_inv (v & -> & Hv)%list_elem_of_fmap Hf.
  assert (HK : forallb (fun kp => forallb (fun v => forallb (fun f => bool_decide (f ∈ known_keys) || reserved f)
                 ((base_flags kp.2).*1 ++ v.*1)) (build_variants kp.2)) SCENARIO_PRESETS = true) by (vm_compute; reflexivity).
  rewrite forallb_forall in HK. specialize (HK (k, p)). cbn in HK.
  assert (HM : forall a b : config, forall x, x ∈ (merge a b).*1 -> x ∈ a.*1 \/ x ∈ b.*1).
  { intros a b x. induction b as [|kv b IH] using rev_ind; [by left|].
    rewrite merge_snoc, dset_keys, fmap_app, elem_of_app. intros [->|Hx].
    - right. right. left.
    - destruct (IH Hx); auto. }
  apply get_scenario_elem in Hp. specialize (HK (proj1 (list_elem_of_In _ _) Hp)).
  rewrite forallb_forall in HK. specialize (HK v (proj1 (list_elem_of_In _ _) Hv)). rewrite forallb_forall in HK.
  assert (HF : f ∈ (base_flags p).*1 ++ v.*1 -> f ∈ known_keys \/ reserved f = true).
  { intros Hin. specialize (HK f (proj1 (list_elem_of_In _ _) Hin)). apply orb_true_iff in HK as [HK|HK]; [left|by right].
    by apply bool_decide_eq_true in HK. }
  assert (HU : f ∈ ["url"; "endpoint"; "_scenario_key"; "model"] -> f ∈ known_keys \/ reserved f = true).
  { rewrite !elem_of_cons, elem_of_nil. intros [->|[->|[->|[->|[]]]]]; try (left; apply (bool_decide_unpack _); vm_compute; exact I).
    by right. }
  unfold child_config in Hf. apply HM in Hf as [Hf|Hf]; [|by apply elem_of_nil in Hf].
  assert (Hf' : f = "model" \/ f ∈ (merge (merge (base_flags p) v)
      [("url", FStr url); ("endpoint", FStr ep); ("_scenario_key", FStr k)]).*1).
  { unfold with_model in Hf. case_match; [by apply dset_keys in Hf|by right]. }
  destruct Hf' as [->|Hf']; [apply HU; right; right; right; left|].
  apply HM in Hf' as [Hf'|Hf'].
  - apply HF. apply elem_of_app. by apply HM in Hf'.
  - apply HU. cbn in Hf'. set_solver.
Qed.

Lemma write_chunks_bound max_bytes chunks : forall written,
  Forall (fun n => 0 <= n) chunks -> written <= max_bytes ->
  let r := write_chunks max_bytes written chunks in
  written <= r.1 <= max_bytes /\
  (r.2 = Ok (written + foldr Z.add 0 chunks) /\ r.1 = written + foldr Z.add 0 chunks \/
   r.2 = Err TooLarge /\ max_bytes < written + foldr Z.add 0 chunks).
Proof.
  induction chunks as [|n chunks IH]; intros written HF Hw; cbn [write_chunks foldr].
  - rewrite Z.add_0_r. cbn. split; [lia|by left].
  - apply Forall_cons in HF as [Hn HF]. destruct (n =? 0) eqn:E0.
    + apply Z.eqb_eq in E0 as ->. rewrite Z.add_0_l. by apply IH.
    + destruct (max_bytes <? written + n) eqn:E.
      * apply Z.ltb_lt in E. cbn. split; [lia|]. right. split; [done|].
        assert (0 <= foldr Z.add 0 chunks); [|lia]. clear -HF. induction HF; cbn; lia.
      * apply Z.ltb_ge in E. destruct (IH (written + n) HF E) as [H1 H2]. split; [cbn in *; lia|].
        rewrite Z.add_assoc. exact H2.
Qed.

(** A download never leaves more than the allowed number of bytes on disk, and
    returns exactly when the address is of an allowed scheme, with a host, and
    neither the declared nor the real size is above it. *)
Theorem download_bounded scheme netloc declared chunks max_bytes :
  0 <= max_bytes -> Forall (fun n => 0 <= n) chunks ->
  let d := _download_trace scheme netloc declared chunks max_bytes in
  0 <= d.1 <= max_bytes /\
  (is_Ok d.2 = true <-> scheme ∈ TRACE_ALLOWED_SCHEMES /\ netloc <> "" /\
     (forall n, declared_size declared = Some n -> n <= max_bytes) /\ foldr Z.add 0 chunks <= max_bytes) /\
  (forall n, d.2 = Ok n -> n = d.1 /\ n = foldr Z.add 0 chunks).
Proof.
  intros Hm HF. unfold _download_trace.
  destruct (bool_decide (scheme ∈ TRACE_ALLOWED_SCHEMES)) eqn:Es; bool_hyps; cbn [negb].
  2: { cbn. split_and!; [lia..| |done]. split; [done|naive_solver]. }
  destruct (String.eqb netloc "") eqn:En.
  { apply String.eqb_eq in En. cbn. split_and!; [lia..| |done]. split; [done|naive_solver]. }
  apply String.eqb_neq in En.
  assert (HW : (forall n, declared_size declared = Some n -> n <= max_bytes) ->
    let r := write_chunks max_bytes 0 chunks in
    0 <= r.1 <= max_bytes /\
    (is_Ok r.2 = true <-> scheme ∈ TRACE_ALLOWED_SCHEMES /\ netloc <> "" /\
     (forall n, declared_size declared = Some n -> n <= max_bytes) /\ foldr Z.add 0 chunks <= max_bytes) /\
    (forall n, r.2 = Ok n -> n = r.1 /\ n = foldr Z.add 0 chunks)).
  { intros HD r. destruct (write_chunks_bound max_bytes chunks 0 HF Hm) as [H1 H2]. fold r in H1, H2.
    split; [exact H1|]. destruct H2 as [[H2 H3]|[H2 H3]]; rewrite H2; cbn.
    - split; [split; [intros _; split_and!; try done; lia|done]|]. intros n [= <-]. lia.
    - split; [split; [done|]|done]. intros (_ & _ & _ & H). lia. }
  destruct (declared_size declared) as [n|] eqn:Ed.
  - destruct (max_bytes <? n) eqn:E.
    + apply Z.ltb_lt in E. cbn. split_and!; [lia..| |done]. split; [done|]. intros (_ & _ & H & _). specialize (H n eq_refl). lia.
    + apply Z.ltb_ge in E. apply HW. by intros ? [= <-].
  - by apply HW.
Qed.

Definition outcome_message (run : Z) (good : bool) : message := if good then MCompleted run else MFailed run.

(** The task at the head of the queue starts and ends. *)
Definition serve (x : Machine) (good : bool) : Machine := end_run good (begin_run true x).

(** While the connection lasts the waiting runs are carried out one after the
    other in the order they came in, each reported once on what it came to. *)
Theorem queue_served s rs : forall x outcomes,
  socket x = Some s -> holding x = None -> waiting x = (pair s <$> rs) -> length outcomes = length rs ->
  let y := foldl serve x outcomes in
  waiting y = [] /\ holding y = None /\ reported y = reported x ++ zip_with outcome_message rs outcomes.
Proof.
  induction rs as [|r rs IH]; intros x [|o os] Hs Hh Hw Hl; try done.
  - cbn. rewrite app_nil_r. done.
  - cbn [foldl]. assert (E : serve x o =
      {| socket := socket x; waiting := pair s <$> rs; holding := None; process := false;
         reported := reported x ++ [outcome_message r o] |}).
    { unfold serve, begin_run. rewrite Hh, Hw. cbn. unfold end_run, say. cbn. rewrite bool_decide_true by done. by destruct o. }
    destruct (IH (serve x o) os) as (H1 & H2 & H3); [by rewrite E..|cbn in Hl; lia|].
    split_and!; [done|done|]. rewrite H3, E. cbn. by rewrite <- app_assoc.
Qed.

(** What a run that outlives its connection comes to is never reported. *)
Theorem outlived_connection_silent s s' run good x :
  holding x = Some (s, run) -> process x = true -> s' <> s ->
  reported (end_run good (reconnect s' x)) = reported x /\ holding (end_run good (reconnect s' x)) = None.
Proof.
  intros Hh Hp Hs. unfold end_run. cbn. rewrite Hh, Hp. unfold say. cbn. rewrite bool_decide_false by congruence. done.
Qed.

(** Cancelling a run that waits kills the one that is in progress; the
    cancelled one is carried out afterwards. *)
Example cancel_kills_another :
  let x := begin_run true (receive_run 11 (receive_run 10 {| socket := Some 1; waiting := []; holding := None; process := false; reported := [] |})) in
  let y := _handle_cancel 11 x in
  holding x = Some (1, 10) /\ reported y = [MFailed 10] /\
  reported (end_run true (begin_run true y)) = [MFailed 10; MCompleted 11].
Proof. vm_compute. split_and!; reflexivity. Qed.

(** An override that makes the agent take the data from one of its own files,
    and one that is dropped. *)
Example overrides_on_the_command_line :
  match expand_scenario "mooncake" "http://llm" "/v1" None [("custom_dataset_type", FStr ""); ("input_file", FStr "/etc/passwd");
                                                          ("temperature", FDecimal 7 1)] with
  | Some [c] => is_trace c = false /\
      match _build_aiperf_command c with
      | Some cmd => bool_decide ("/etc/passwd" ∈ cmd) && bool_decide ("0.7" ∉ cmd) = true
      | None => False
      end
  | _ => False
  end.
Proof. vm_compute. split; reflexivity. Qed.

Example decimals : decimal_text 80 2 = "0.8" /\ decimal_text (-1250) 3 = "-1.25" /\ decimal_text 3 0 = "3.0" /\ decimal_text 105 2 = "1.05".
Proof. vm_compute. split_and!; reflexivity. Qed.
