(* ===== verification/CatalogVersions.v ===== *)
(** * Versions in the catalogue

    utils/catalog_versioning.py, services/module_version_query.py and
    services/catalog_prune_service.py: the order of versions, which row of a
    path is the latest, and what pruning a source leaves. *)

From Stdlib Require Import Ascii.
From S2P Require Import Prelude Texts.

#[local] Open Scope string_scope.
#[local] Open Scope list_scope.
#[local] Open Scope Z_scope.

(** ** The order of versions *)

(** [(numeric parts, 0 for a pre-release, the pre-release)] *)
Definition version_key : Type := list Z * Z * string.

Fixpoint lstrip_v (s : string) : string :=
  match s with
  | String c t => if bool_decide (c = "v"%char \/ c = "V"%char) then lstrip_v t else s
  | EmptyString => s
  end.

(** The parts up to the first that is not a number. *)
Fixpoint numeric_parts (parts : list string) : list Z :=
  match parts with
  | [] => []
  | p :: rest => match py_int p with Some n => n :: numeric_parts rest | None => [] end
  end.

(** [s.partition(sep)], without the separator. *)
Definition cut_at (sep : ascii) (s : string) : string * string :=
  match partition sep s with Some kv => kv | None => (s, "") end.

Definition version_sort_key (version : option string) : version_key :=
  if truthy_str version then
    let bare := (cut_at "+"%char (lstrip_v (strip (default "" version)))).1 in
    let cp := cut_at "-"%char bare in
    (numeric_parts (split_on (fun c => Ascii.eqb c "."%char) cp.1 ""), if String.eqb cp.2 "" then 1 else 0, cp.2)
  else ([], 0, "").

(** [a < b] on keys with the row's id as the last component. *)
Definition key_lt (a b : version_key * Z) : bool :=
  let '(pa, ra, sa, ia) := a in
  let '(pb, rb, sb, ib) := b in
  if bool_decide (pa = pb) then
    if ra =? rb then
      if String.eqb sa sb then ia <? ib else String.ltb sa sb
    else ra <? rb
  else tuple_lt pa pb.

(** ** Entries

    What the algorithms read of a row: of a [ModuleLibrary] its path, version
    and flags, of a [BlueprintRelease] its blueprint's id, version and flag. *)
Record entry := {
  e_source : option Z;
  e_group : string;
  e_version : option string;
  e_active : bool;
  e_latest : bool
}.

Definition set_active (b : bool) (e : entry) : entry :=
  {| e_source := e_source e; e_group := e_group e; e_version := e_version e; e_active := b; e_latest := e_latest e |}.
Definition set_latest (b : bool) (e : entry) : entry :=
  {| e_source := e_source e; e_group := e_group e; e_version := e_version e; e_active := e_active e; e_latest := b |}.

Definition rank (x : Z * entry) : version_key * Z := (version_sort_key (e_version x.2), x.1).
Definition newer (x y : Z * entry) : Prop := key_lt (rank y) (rank x) = true.
#[global] Instance newer_dec : RelDecision newer := fun x y => decide (key_lt (rank y) (rank x) = true).
Definition newer_eq (x y : Z * entry) : Prop := key_lt (rank x) (rank y) = false.
#[global] Instance newer_eq_dec : RelDecision newer_eq := fun x y => decide (key_lt (rank x) (rank y) = false).

Section catalogue.
Context {SO : SetOrder Z}.

Definition group_rows (s : option Z) (g : string) (t : gmap Z entry) : list (Z * entry) :=
  select (fun _ e => bool_decide (e_source e = s) && String.eqb (e_group e) g) t.

(** ** The latest row of a path *)

(** [max(active, key=...)] *)
Definition newest (l : list (Z * entry)) : option (Z * entry) :=
  match l with
  | [] => None
  | x :: rest => Some (foldl (fun best y => if key_lt (rank best) (rank y) then y else best) x rest)
  end.

Definition latest_id (rows : list (Z * entry)) : option Z := fst <$> newest (filter (fun x => e_active x.2 = true) rows).

(** [recompute_is_latest]: every row of the path is flagged, the latest as
    such. *)
Definition recompute_is_latest (s : option Z) (g : string) (t : gmap Z entry) : gmap Z entry :=
  let rows := group_rows s g t in
  let latest := latest_id rows in
  foldr (fun i => alter (set_latest (bool_decide (Some i = latest))) i) t rows.*1.

(** ** Pruning a source *)

(** [sorted(..., reverse=True)] *)
Definition _ordered (rows : list (Z * entry)) : list (Z * entry) := merge_sort newer_eq rows.

Inductive action := Kept (spared : bool) | AlreadyInactive | InUse | Hidden | Deactivated | Deleted.
#[global] Instance action_eq_dec : EqDecision action.
Proof. solve_decision. Defined.

Record prune_mode := { keep : nat; delete_rows : bool; include_in_use : bool }.

Section prune.
Context (mode : prune_mode) (refs : Z -> nat).

Definition in_use (i : Z) : bool := negb (bool_decide (refs i = 0%nat)).

(** [_spare_last_active] *)
Definition _spare_last_active (kept candidates : list (Z * entry)) : option Z :=
  let survives := filter (fun x => e_active x.2 = true) kept ++
                  filter (fun x => e_active x.2 && in_use x.1 && negb (include_in_use mode) = true) candidates in
  match survives with
  | [] => fst <$> head (filter (fun x => e_active x.2 = true) candidates)
  | _ => None
  end.

(** What becomes of a candidate. *)
Definition candidate_action (spared : option Z) (x : Z * entry) : action :=
  if bool_decide (spared = Some x.1) then Kept true
  else if in_use x.1 && negb (include_in_use mode) then InUse
  else if in_use x.1 then Hidden
  else if delete_rows mode then Deleted
  else if e_active x.2 then Deactivated
  else AlreadyInactive.

(** The report on one group, the newest first. *)
Definition prune_group (rows : list (Z * entry)) : list (Z * action) :=
  let ordered := _ordered rows in
  let kept := take (keep mode) ordered in
  let candidates := drop (keep mode) ordered in
  let spared := _spare_last_active kept candidates in
  ((fun x => (x.1, Kept false)) <$> kept) ++ ((fun x => (x.1, candidate_action spared x)) <$> candidates).
End prune.

Definition apply_action (t : gmap Z entry) (ia : Z * action) : gmap Z entry :=
  match ia.2 with
  | Kept _ | AlreadyInactive | InUse => t
  | Hidden | Deactivated => alter (set_active false) ia.1 t
  | Deleted => delete ia.1 t
  end.

(** Does the group's flag have to be computed again? *)
Definition touches (t : gmap Z entry) (ia : Z * action) : bool :=
  match ia.2 with
  | Kept spared => spared
  | AlreadyInactive | InUse => false
  | Hidden | Deactivated => match t !! ia.1 with Some e => e_active e | None => false end
  | Deleted => true
  end.

(** The groups of a source in the order their first row comes. *)
Definition groups_of (rows : list (Z * entry)) : list string := (dict_of ((fun x => (e_group x.2, tt)) <$> rows)).*1.

Definition source_rows (s : Z) (t : gmap Z entry) : list (Z * entry) := select (fun _ e => bool_decide (e_source e = Some s)) t.

Definition prune_plan (mode : prune_mode) (refs : Z -> nat) (s : Z) (t : gmap Z entry) : list (string * list (Z * action)) :=
  let rows := source_rows s t in
  (fun g => (g, prune_group mode refs (filter (fun x => e_group x.2 = g) rows))) <$> groups_of rows.

(** [prune_module_source]: the report and, unless it is a dry run, the table
    after it; [None] when there is no such source. *)
Definition prune_module_source (known : Z -> bool) (mode : prune_mode) (dry_run : bool) (refs : Z -> nat) (s : Z)
    (t : gmap Z entry) : option (list (string * list (Z * action)) * gmap Z entry) :=
  if known s then
    let plan := prune_plan mode refs s t in
    let t1 := foldl apply_action t (plan ≫= snd) in
    let touched := (filter (fun ga => existsb (touches t) ga.2 = true) plan).*1 in
    Some (plan, if dry_run then t else foldl (fun t g => recompute_is_latest (Some s) g t) t1 touched)
  else None.

(** [prune_blueprint_source]: releases have no flag to compute again. *)
Definition prune_blueprint_source (known : Z -> bool) (mode : prune_mode) (dry_run : bool) (refs : Z -> nat) (s : Z)
    (t : gmap Z entry) : option (list (string * list (Z * action)) * gmap Z entry) :=
  if known s then
    let plan := prune_plan mode refs s t in
    Some (plan, if dry_run then t else foldl apply_action t (plan ≫= snd))
  else None.
End catalogue.

(** ** Keys are a total order *)

Lemma string_ltb_irrefl s : String.ltb s s = false.
Proof. unfold String.ltb. destruct (String.compare s s) eqn:E; [done|exfalso|done]. pose proof (String.compare_antisym s s) as H. by rewrite E in H. Qed.

Lemma string_ltb_leb a b : String.ltb a b = negb (String.leb b a).
Proof. unfold String.ltb, String.leb. rewrite (String.compare_antisym b a). by destruct (String.compare a b). Qed.

Lemma string_ltb_trans a b c : String.ltb a b = true -> String.ltb b c = true -> String.ltb a c = true.
Proof.
  rewrite !string_ltb_leb, !negb_true_iff. intros H1 H2. destruct (String.leb c a) eqn:E; [|done]. exfalso.
  assert (Hab : String.leb a b = true) by (destruct (String.leb_total a b) as [->|E']; [done|congruence]).
  assert (Hcb : String.le c b) by (etransitivity; [apply Is_true_true_2, E|apply Is_true_true_2, Hab]).
  unfold String.le in Hcb. by rewrite H2 in Hcb.
Qed.

Lemma string_ltb_total a b : String.ltb a b = true \/ a = b \/ String.ltb b a = true.
Proof.
  rewrite !string_ltb_leb. destruct (String.leb b a) eqn:E1, (String.leb a b) eqn:E2; auto.
  right. left. by apply String.leb_antisym.
Qed.

Lemma key_lt_irrefl a : key_lt a a = false.
Proof. destruct a as [[[p r] s] i]. cbn. rewrite bool_decide_true, Z.eqb_refl, String.eqb_refl by done. apply Z.ltb_irrefl. Qed.

Lemma key_lt_trans a b c : key_lt a b = true -> key_lt b c = true -> key_lt a c = true.
Proof.
  destruct a as [[[pa ra] sa] ia], b as [[[pb rb] sb] ib], c as [[[pc rc] sc] ic]. cbn.
  destruct (bool_decide_reflect (pa = pb)), (bool_decide_reflect (pb = pc)), (bool_decide_reflect (pa = pc)); subst; try done;
    [|by intros H1 H2; pose proof (tuple_lt_trans _ _ _ H1 H2) as H; rewrite tuple_lt_irrefl in H
     |by intros H1 H2; apply (tuple_lt_trans _ _ _ H1 H2)].
  destruct (Z.eqb_spec ra rb), (Z.eqb_spec rb rc), (Z.eqb_spec ra rc); subst; try done; try lia.
  destruct (String.eqb_spec sa sb), (String.eqb_spec sb sc), (String.eqb_spec sa sc); subst; try done; try lia;
    intros H1 H2; pose proof (string_ltb_trans _ _ _ H1 H2) as H; [by rewrite string_ltb_irrefl in H|done].
Qed.

Lemma key_lt_total a b : key_lt a b = true \/ a = b \/ key_lt b a = true.
Proof.
  destruct a as [[[pa ra] sa] ia], b as [[[pb rb] sb] ib]. cbn.
  destruct (bool_decide_reflect (pa = pb)), (bool_decide_reflect (pb = pa)); subst; try done;
    [|destruct (tuple_lt_total pa pb) as [|[|]]; auto; done].
  destruct (Z.eqb_spec ra rb), (Z.eqb_spec rb ra); subst; try done;
    [|destruct (Z.ltb_spec ra rb); [auto|right; right; lia]].
  destruct (String.eqb_spec sa sb), (String.eqb_spec sb sa); subst; try done;
    [|destruct (string_ltb_total sa sb) as [|[|]]; auto; done].
  destruct (Z.lt_total ia ib) as [H|[->|H]]; [left; lia|auto|right; right; lia].
Qed.

Lemma key_le_trans a b c : key_lt b a = false -> key_lt c b = false -> key_lt c a = false.
Proof.
  intros H1 H2. destruct (key_lt c a) eqn:E; [|done].
  destruct (key_lt_total b c) as [H|[->|H]]; [|congruence|congruence].
  pose proof (key_lt_trans _ _ _ H E). congruence.
Qed.

#[global] Instance newer_eq_trans : Transitive newer_eq.
Proof. intros x y z H1 H2. unfold newer_eq in *. by eapply key_le_trans. Qed.
#[global] Instance newer_eq_total : Total newer_eq.
Proof.
  intros x y. unfold newer_eq. destruct (key_lt (rank x) (rank y)) eqn:E; [right|by left].
  destruct (key_lt (rank y) (rank x)) eqn:E'; [|done].
  pose proof (key_lt_trans _ _ _ E E') as H. by rewrite key_lt_irrefl in H.
Qed.

Section laws.
Context {SO : SetOrder Z}.

(** ** The latest row *)

Lemma newest_spec l x : newest l = Some x -> x ∈ l /\ forall y, y ∈ l -> key_lt (rank x) (rank y) = false.
Proof.
  destruct l as [|a l]; [done|]. cbn. intros [= <-].
  assert (G : forall l b, let m := foldl (fun best y => if key_lt (rank best) (rank y) then y else best) b l in
    m ∈ b :: l /\ forall y, y ∈ b :: l -> key_lt (rank m) (rank y) = false).
  { clear. induction l as [|y l IH]; intros b m.
    - split; [left|]. intros z ->%list_elem_of_singleton. apply key_lt_irrefl.
    - subst m. cbn. destruct (IH (if key_lt (rank b) (rank y) then y else b)) as [I1 I2].
      set (m := foldl _ _ l) in *. split.
      + apply elem_of_cons in I1 as [->|I1]; [|by right; right]. case_match; [right; left|left].
      + assert (Hb : key_lt (rank m) (rank (if key_lt (rank b) (rank y) then y else b)) = false) by (apply I2; left).
        assert (HB : key_lt (rank m) (rank b) = false /\ key_lt (rank m) (rank y) = false).
        { destruct (key_lt (rank b) (rank y)) eqn:E; split; try done.
          - destruct (key_lt (rank m) (rank b)) eqn:E'; [|done]. pose proof (key_lt_trans _ _ _ E' E). congruence.
          - by eapply key_le_trans. }
        intros z [->|[->|Hz]%elem_of_cons]%elem_of_cons; [apply HB..|]. apply I2. by right. }
  apply G.
Qed.

Lemma newest_none l : newest l = None <-> l = [].
Proof. by destruct l. Qed.

Lemma elem_of_group_rows s g t i e : (i, e) ∈ group_rows s g t <-> t !! i = Some e /\ e_source e = s /\ e_group e = g.
Proof. unfold group_rows. rewrite elem_of_select, andb_true_iff, bool_decide_eq_true, String.eqb_eq. done. Qed.

(** The row that must carry the flag: active, and no active row of its path is
    newer. *)
Definition latest_row (t : gmap Z entry) (i : Z) (e : entry) : Prop :=
  e_active e = true /\ forall j e', t !! j = Some e' -> e_source e' = e_source e -> e_group e' = e_group e -> e_active e' = true ->
    key_lt (rank (i, e)) (rank (j, e')) = false.

Lemma latest_id_spec s g t i e : (i, e) ∈ group_rows s g t ->
  latest_id (group_rows s g t) = Some i <-> latest_row t i e.
Proof.
  intros Hi. pose proof Hi as (Hti & Hs & Hg)%elem_of_group_rows. unfold latest_id.
  set (l := filter _ (group_rows s g t)).
  assert (HL : forall j e', (j, e') ∈ l <-> t !! j = Some e' /\ e_source e' = s /\ e_group e' = g /\ e_active e' = true).
  { intros j e'. unfold l. rewrite list_elem_of_filter, elem_of_group_rows. cbn. tauto. }
  split.
  - destruct (newest l) as [[j e']|] eqn:E; [|done]. cbn. intros [= ->]. apply newest_spec in E as [E1 E2].
    apply HL in E1 as (H1 & H2 & H3 & H4). rewrite Hti in H1. injection H1 as <-. split; [done|].
    intros k x Hk Hks Hkg Hka. apply E2. apply HL. split_and!; congruence.
  - intros [Ha Hmax]. assert (Hin : (i, e) ∈ l) by by apply HL.
    destruct (newest l) as [[j e']|] eqn:E; [|apply newest_none in E; rewrite E in Hin; by apply elem_of_nil in Hin].
    cbn. apply newest_spec in E as [E1 E2]. specialize (E2 _ Hin). apply HL in E1 as (H1 & H2 & H3 & H4).
    assert (H5 : key_lt (rank (i, e)) (rank (j, e')) = false) by (apply Hmax; congruence).
    destruct (key_lt_total (rank (i, e)) (rank (j, e'))) as [|[Eq|]]; [congruence| |congruence].
    f_equal. unfold rank in Eq. cbn in Eq. by injection Eq as _ ->.
Qed.

Lemma lookup_recompute s g t j :
  recompute_is_latest s g t !! j =
  match t !! j with
  | Some e => if bool_decide (e_source e = s) && String.eqb (e_group e) g
              then Some (set_latest (bool_decide (Some j = latest_id (group_rows s g t))) e) else Some e
  | None => None
  end.
Proof.
  unfold recompute_is_latest. rewrite (lookup_alter_all (fun i => set_latest (bool_decide (Some i = latest_id (group_rows s g t))))) by done.
  destruct (t !! j) as [e|] eqn:Ej; cbn.
  - case_decide as Hin.
    + apply list_elem_of_fmap in Hin as ([j' e'] & -> & Hin). apply elem_of_group_rows in Hin as (H1 & H2 & H3). cbn in *.
      rewrite Ej in H1. injection H1 as <-. by rewrite (bool_decide_true (e_source e = s)), H3, String.eqb_refl by done.
    + destruct (bool_decide (e_source e = s) && String.eqb (e_group e) g) eqn:E; [|done]. exfalso. apply Hin.
      apply list_elem_of_fmap. exists (j, e). split; [done|]. apply elem_of_group_rows. bool_hyps. split_and!; [done|done|by apply String.eqb_eq].
  - by case_decide.
Qed.

(** After a recomputation exactly the newest active row of the path is flagged
    as the latest, and no other row has changed. *)
Theorem recompute_correct s g t i e' :
  recompute_is_latest s g t !! i = Some e' ->
  exists e, t !! i = Some e /\
  (e_source e = s /\ e_group e = g -> e' = set_latest (e_latest e') e /\ (e_latest e' = true <-> latest_row t i e)) /\
  (~ (e_source e = s /\ e_group e = g) -> e' = e).
Proof.
  rewrite lookup_recompute. destruct (t !! i) as [e|] eqn:Ei; [|done]. intros H. exists e. split; [done|].
  destruct (bool_decide (e_source e = s) && String.eqb (e_group e) g) eqn:E.
  - bool_hyps. match goal with H : String.eqb _ _ = true |- _ => apply String.eqb_eq in H end.
    injection H as <-. split; [|tauto]. intros _. split; [done|]. cbn. rewrite bool_decide_eq_true.
    rewrite <- (latest_id_spec s g t i e) by (by apply elem_of_group_rows). split; congruence.
  - injection H as <-. split; [|done]. intros [Hs Hg]. by rewrite (bool_decide_true _ Hs), Hg, String.eqb_refl in E.
Qed.

(** Every path's flag is where it belongs. *)
Definition flags_ok (t : gmap Z entry) : Prop := forall i e, t !! i = Some e -> (e_latest e = true <-> latest_row t i e).
(** ** What a plan holds *)

Lemma ordered_elem rows x : x ∈ _ordered rows <-> x ∈ rows.
Proof. unfold _ordered. by rewrite merge_sort_Permutation. Qed.

Lemma prune_group_ids mode refs rows : (prune_group mode refs rows).*1 = (_ordered rows).*1.
Proof.
  unfold prune_group. rewrite fmap_app, <- !list_fmap_compose.
  transitivity ((take (keep mode) (_ordered rows)).*1 ++ (drop (keep mode) (_ordered rows)).*1); [done|].
  by rewrite <- fmap_app, take_drop.
Qed.

Lemma elem_of_prune_group mode refs rows i a : (i, a) ∈ prune_group mode refs rows <->
  exists e, ((i, e) ∈ take (keep mode) (_ordered rows) /\ a = Kept false) \/
    ((i, e) ∈ drop (keep mode) (_ordered rows) /\
     a = candidate_action mode refs (_spare_last_active mode refs (take (keep mode) (_ordered rows)) (drop (keep mode) (_ordered rows))) (i, e)).
Proof.
  unfold prune_group. rewrite elem_of_app, !list_elem_of_fmap. split.
  - intros [([j e] & [= -> ->] & H)|([j e] & [= -> ->] & H)]; exists e; auto.
  - intros (e & [[H ->]|[H ->]]); [left|right]; exists (i, e); auto.
Qed.

Lemma take_drop_elem (n : nat) (l : list (Z * entry)) x : x ∈ l <-> x ∈ take n l \/ x ∈ drop n l.
Proof. rewrite <- elem_of_app, take_drop. done. Qed.

Definition group_of (s : Z) (g : string) (t : gmap Z entry) : list (Z * entry) := filter (fun x => e_group x.2 = g) (source_rows s t).

Lemma elem_of_source_rows s t i e : (i, e) ∈ source_rows s t <-> t !! i = Some e /\ e_source e = Some s.
Proof. unfold source_rows. by rewrite elem_of_select, bool_decide_eq_true. Qed.

Lemma elem_of_group_of s g t i e : (i, e) ∈ group_of s g t <-> t !! i = Some e /\ e_source e = Some s /\ e_group e = g.
Proof. unfold group_of. rewrite list_elem_of_filter, elem_of_source_rows. cbn. tauto. Qed.

Lemma group_of_NoDup s g t : NoDup (group_of s g t).*1.
Proof. apply filter_fst_NoDup, select_NoDup. Qed.

Lemma newest_first_NoDup rows : NoDup rows.*1 -> NoDup (_ordered rows).*1.
Proof. unfold _ordered. by rewrite merge_sort_Permutation. Qed.

Definition plan_actions (plan : list (string * list (Z * action))) : list (Z * action) := plan ≫= snd.

Lemma elem_of_plan_actions mode refs s t i a : (i, a) ∈ plan_actions (prune_plan mode refs s t) <->
  exists e, t !! i = Some e /\ e_source e = Some s /\ (i, a) ∈ prune_group mode refs (group_of s (e_group e) t).
Proof.
  unfold plan_actions, prune_plan. rewrite list_elem_of_bind. split.
  - intros ([g l] & Hi & Hg). cbn in Hi. apply list_elem_of_fmap in Hg as (g' & [= -> ->] & Hg).
    assert (HI : i ∈ (prune_group mode refs (group_of s g' t)).*1) by (apply list_elem_of_fmap; by exists (i, a)).
    rewrite prune_group_ids in HI. apply list_elem_of_fmap in HI as ([i' e] & -> & HI).
    apply ordered_elem, elem_of_group_of in HI as (H1 & H2 & H3). cbn. exists e. subst g'. done.
  - intros (e & Ht & Hs & Hi). exists (e_group e, prune_group mode refs (group_of s (e_group e) t)). split; [done|].
    apply list_elem_of_fmap. exists (e_group e). split; [done|]. unfold groups_of. apply dict_of_keys.
    rewrite <- list_fmap_compose. apply list_elem_of_fmap. exists (i, e). split; [done|]. by apply elem_of_source_rows.
Qed.

Lemma fmap_bind {A B C} (f : A -> list B) (h : B -> C) (l : list A) : h <$> (l ≫= f) = l ≫= (fun x => h <$> f x).
Proof. induction l as [|x l IH]; [done|]. change (h <$> (f x ++ (l ≫= f)) = (h <$> f x) ++ (l ≫= fun x => h <$> f x)). by rewrite fmap_app, IH. Qed.

Lemma plan_actions_NoDup mode refs s t : NoDup (plan_actions (prune_plan mode refs s t)).*1.
Proof.
  unfold plan_actions, prune_plan. rewrite fmap_bind. set (gs := groups_of _).
  assert (E : forall gs, (((fun g => (g, prune_group mode refs (filter (fun x => e_group x.2 = g) (source_rows s t)))) <$> gs)
                 ≫= (fun x : string * list (Z * action) => x.2.*1)) =
              gs ≫= (fun g => (_ordered (group_of s g t)).*1)).
  { clear gs. induction gs as [|g gs IH]; [done|]. 
    change ((prune_group mode refs (group_of s g t)).*1 ++ (((fun g => (g, prune_group mode refs (filter (fun x => e_group x.2 = g) (source_rows s t)))) <$> gs)
                 ≫= (fun x : string * list (Z * action) => x.2.*1)) = (_ordered (group_of s g t)).*1 ++ (gs ≫= (fun g => (_ordered (group_of s g t)).*1))).
    by rewrite IH, prune_group_ids. }
  rewrite E. apply NoDup_bind.
  - intros g g' i _ _ Hi Hi'. apply list_elem_of_fmap in Hi as ([j e] & -> & Hi), Hi' as ([j' e'] & Hj & Hi'). cbn in Hj. subst j'.
    apply ordered_elem, elem_of_group_of in Hi as (H1 & _ & H2), Hi' as (H1' & _ & H2'). congruence.
  - intros g _. apply newest_first_NoDup, group_of_NoDup.
  - unfold gs, groups_of. apply dict_of_NoDup.
Qed.

(** What an action makes of its row. *)
Definition act_on (a : action) (r : option entry) : option entry :=
  match a with
  | Kept _ | AlreadyInactive | InUse => r
  | Hidden | Deactivated => set_active false <$> r
  | Deleted => None
  end.

Lemma lookup_apply l : forall t j, NoDup l.*1 ->
  foldl apply_action t l !! j = match dget j l with Some a => act_on a (t !! j) | None => t !! j end.
Proof.
  induction l as [|[i a] l IH]; intros t j Hnd; [done|]. cbn [fmap list_fmap] in Hnd. apply NoDup_cons in Hnd as [Hi Hnd].
  cbn [foldl]. rewrite IH by done. cbn [dget]. case_decide as E.
  - subst j. rewrite (proj2 (dget_None i l) Hi). unfold apply_action. destruct a; cbn; try done.
    + apply lookup_alter_eq.
    + apply lookup_alter_eq.
    + apply lookup_delete_eq.
  - assert (HL : apply_action t (i, a) !! j = t !! j).
    { unfold apply_action. destruct a; cbn; try done; [apply lookup_alter_ne|apply lookup_alter_ne|apply lookup_delete_ne]; done. }
    by rewrite HL.
Qed.

(** The table before flags are computed again. *)
Definition pruned (mode : prune_mode) (refs : Z -> nat) (s : Z) (t : gmap Z entry) : gmap Z entry :=
  foldl apply_action t (plan_actions (prune_plan mode refs s t)).

(** A row of the source has one action, which decides its fate; others have
    none. *)
Lemma lookup_pruned mode refs s t i e : t !! i = Some e ->
  (e_source e <> Some s /\ pruned mode refs s t !! i = Some e) \/
  (e_source e = Some s /\ exists a, (i, a) ∈ prune_group mode refs (group_of s (e_group e) t) /\ pruned mode refs s t !! i = act_on a (Some e)).
Proof.
  intros He. unfold pruned. rewrite lookup_apply by apply plan_actions_NoDup. rewrite He.
  destruct (decide (e_source e = Some s)) as [Hs|Hs].
  - right. split; [done|].
    assert (Hin : i ∈ (prune_group mode refs (group_of s (e_group e) t)).*1).
    { rewrite prune_group_ids. apply list_elem_of_fmap. exists (i, e). split; [done|]. by apply ordered_elem, elem_of_group_of. }
    apply list_elem_of_fmap in Hin as ([i' a] & -> & Ha). cbn in *. exists a. split; [done|].
    rewrite (elem_of_dget i' a); [done|apply plan_actions_NoDup|]. apply elem_of_plan_actions. by exists e.
  - left. split; [done|]. destruct (dget i _) as [a|] eqn:E; [|done]. exfalso. apply dget_elem_of, elem_of_plan_actions in E as (e' & He' & Hs' & _).
    congruence.
Qed.

Lemma lookup_pruned_None mode refs s t i : t !! i = None -> pruned mode refs s t !! i = None.
Proof.
  intros He. unfold pruned. rewrite lookup_apply by apply plan_actions_NoDup. rewrite He. case_match; [|done]. by destruct a.
Qed.
(** ** Fates *)

(** Does the action leave the row as it is? *)
Definition leaves (a : action) : bool := match a with Kept _ | AlreadyInactive | InUse => true | _ => false end.

Lemma leaves_act_on a r : leaves a = true -> act_on a r = r.
Proof. by destruct a. Qed.

Lemma candidate_in_use mode refs spared x : in_use refs x.1 = true ->
  candidate_action mode refs spared x <> Deleted /\
  (include_in_use mode = false -> leaves (candidate_action mode refs spared x) = true).
Proof. intros H. unfold candidate_action. rewrite H. destruct (include_in_use mode); cbn; by case_match. Qed.

Lemma group_in_use mode refs rows i a : (i, a) ∈ prune_group mode refs rows -> in_use refs i = true ->
  a <> Deleted /\ (include_in_use mode = false -> leaves a = true).
Proof.
  intros (e & [[_ ->]|[_ ->]])%elem_of_prune_group Hu; [done|]. by apply (candidate_in_use _ _ _ (i, e)).
Qed.

Lemma group_deleted mode refs rows i : (i, Deleted) ∈ prune_group mode refs rows -> delete_rows mode = true /\ in_use refs i = false.
Proof.
  intros (e & [[_ H]|[_ H]])%elem_of_prune_group; [done|]. unfold candidate_action in H. cbn [fst] in H.
  destruct (bool_decide _), (in_use refs i), (include_in_use mode), (delete_rows mode); cbn in H; try done; by destruct (e_active _).
Qed.

Lemma group_kept mode refs rows i e a : NoDup rows.*1 -> (i, a) ∈ prune_group mode refs rows ->
  (i, e) ∈ take (keep mode) (_ordered rows) -> a = Kept false.
Proof.
  intros HN (e' & [[_ ->]|[Hd _]])%elem_of_prune_group Ht; [done|]. exfalso.
  apply newest_first_NoDup in HN. rewrite <- (take_drop (keep mode) (_ordered rows)), fmap_app in HN.
  apply NoDup_app in HN as (_ & HN & _). apply (HN i).
  - apply list_elem_of_fmap. by exists (i, e).
  - apply list_elem_of_fmap. by exists (i, e').
Qed.

(** A group with an active row has one that is left as it is. *)
Lemma group_survivor mode refs rows i e : (i, e) ∈ rows -> e_active e = true ->
  exists j x a, (j, x) ∈ rows /\ e_active x = true /\ (j, a) ∈ prune_group mode refs rows /\ leaves a = true.
Proof.
  intros Hi He. set (o := _ordered rows). set (kept := take (keep mode) o). set (cands := drop (keep mode) o).
  set (spared := _spare_last_active mode refs kept cands).
  assert (HK : forall x, x ∈ kept -> x ∈ rows) by (intros x Hx; apply ordered_elem, (take_drop_elem (keep mode)); by left).
  assert (HC : forall x, x ∈ cands -> x ∈ rows) by (intros x Hx; apply ordered_elem, (take_drop_elem (keep mode)); by right).
  unfold _spare_last_active in spared.
  destruct (filter (fun x => e_active x.2 = true) kept) as [|[j x] ks] eqn:EK.
  2: { assert (Hj : (j, x) ∈ filter (fun x => e_active x.2 = true) kept) by (rewrite EK; left).
       apply list_elem_of_filter in Hj as [Hx Hj]. exists j, x, (Kept false). split_and!; [by apply HK|done| |done].
       apply elem_of_prune_group. exists x. by left. }
  set (us := filter (fun x => e_active x.2 && in_use refs x.1 && negb (include_in_use mode) = true) cands) in *.
  destruct us as [|[j x] us'] eqn:EU.
  2: { assert (Hj : (j, x) ∈ us) by (rewrite EU; left). unfold us in Hj.
       apply list_elem_of_filter in Hj as [Hx Hj]. cbn in Hx. apply andb_true_iff in Hx as [Hx Hn]. apply andb_true_iff in Hx as [Hx Hu].
       exists j, x, (candidate_action mode refs (_spare_last_active mode refs kept cands) (j, x)).
       split_and!; [by apply HC|done|apply elem_of_prune_group; exists x; by right|].
       apply candidate_in_use; [done|]. by apply negb_true_iff in Hn. }
  cbn [app] in spared. destruct (filter (fun x => e_active x.2 = true) cands) as [|[j x] cs] eqn:EC.
  - exfalso. apply ordered_elem, (take_drop_elem (keep mode)) in Hi as [Hi|Hi].
    + assert (H : (i, e) ∈ filter (fun x => e_active x.2 = true) kept) by by apply list_elem_of_filter. rewrite EK in H. by apply elem_of_nil in H.
    + assert (H : (i, e) ∈ filter (fun x => e_active x.2 = true) cands) by by apply list_elem_of_filter. rewrite EC in H. by apply elem_of_nil in H.
  - assert (Hj : (j, x) ∈ filter (fun x => e_active x.2 = true) cands) by (rewrite EC; left).
    apply list_elem_of_filter in Hj as [Hx Hj]. exists j, x, (Kept true). split_and!; [by apply HC|done| |done].
    apply elem_of_prune_group. exists x. right. split; [done|]. unfold candidate_action.
    assert (ES : _spare_last_active mode refs kept cands = Some j).
    { unfold _spare_last_active. rewrite EK. fold us. rewrite EU. cbn. by rewrite EC. }
    fold o kept cands. rewrite ES. by rewrite bool_decide_true.
Qed.

(** ** Flags after a prune *)

(** A row without its flag. *)
Definition core (e : entry) : entry := set_latest false e.

Lemma core_eq e e' : core e' = core e -> e_source e' = e_source e /\ e_group e' = e_group e /\ e_version e' = e_version e /\ e_active e' = e_active e.
Proof. destruct e, e'. unfold core, set_latest. cbn. intros [= -> -> -> ->]. done. Qed.

Lemma latest_row_ext t t' i e e' : core e' = core e ->
  (forall j, (core <$> t !! j = core <$> t' !! j) \/ (forall x, t !! j = Some x \/ t' !! j = Some x -> ~ (e_source x = e_source e /\ e_group x = e_group e))) ->
  latest_row t i e -> latest_row t' i e'.
Proof.
  intros (E1 & E2 & E3 & E4)%core_eq HT [Ha Hm]. split; [congruence|]. intros j x' Hj Hs Hg Hx.
  destruct (HT j) as [Ec|Hn]; [|exfalso; apply (Hn x'); [by right|split; congruence]].
  rewrite Hj in Ec. destruct (t !! j) as [x|] eqn:Ex; [|done]. cbn in Ec. injection Ec as Ec1 Ec2 Ec3 Ec4.
  specialize (Hm j x Ex). unfold rank in *. cbn [fst snd] in *. rewrite E3, <- Ec3. apply Hm; congruence.
Qed.

Lemma lookup_recompute_all s gs : forall t j e, t !! j = Some e ->
  exists e', foldl (fun t g => recompute_is_latest (Some s) g t) t gs !! j = Some e' /\ core e' = core e /\
  ((e_source e = Some s /\ e_group e ∈ gs) -> (e_latest e' = true <-> latest_row t j e)) /\
  (~ (e_source e = Some s /\ e_group e ∈ gs) -> e' = e).
Proof.
  induction gs as [|g gs IH]; intros t j e Hj; cbn [foldl].
  - exists e. split_and!; try done. intros [_ H]. by apply elem_of_nil in H.
  - set (t1 := recompute_is_latest (Some s) g t).
    assert (HT : forall k, core <$> t !! k = core <$> t1 !! k).
    { intros k. unfold t1. rewrite lookup_recompute. destruct (t !! k); [|done]. by case_match. }
    assert (H1 : exists e1, t1 !! j = Some e1 /\ core e1 = core e /\
       ((e_source e = Some s /\ e_group e = g) -> (e_latest e1 = true <-> latest_row t j e)) /\
       (~ (e_source e = Some s /\ e_group e = g) -> e1 = e)).
    { unfold t1. rewrite lookup_recompute, Hj. destruct (bool_decide (e_source e = Some s) && String.eqb (e_group e) g) eqn:E.
      - apply andb_true_iff in E as [Es%bool_decide_eq_true Eg%String.eqb_eq].
        eexists. split; [reflexivity|]. split; [done|]. split; [|tauto]. intros _. cbn. rewrite bool_decide_eq_true.
        rewrite <- (latest_id_spec (Some s) g t j e) by (by apply elem_of_group_rows). split; congruence.
      - exists e. split_and!; try done. intros [Es Eg]. by rewrite (bool_decide_true _ Es), Eg, String.eqb_refl in E. }
    destruct H1 as (e1 & Hj1 & Hc1 & Hl1 & Hn1). destruct (IH t1 j e1 Hj1) as (e' & Hj' & Hc' & Hl' & Hn').
    pose proof (core_eq _ _ Hc1) as (Es & Eg & _ & _).
    assert (HLR : latest_row t1 j e1 <-> latest_row t j e).
    { split; apply latest_row_ext; try done; intros k; left; [symmetry|]; apply HT. }
    exists e'. split; [done|]. split; [congruence|]. split.
    + intros [Hs Hg]. destruct (decide (e_group e ∈ gs)) as [Hgs|Hgs].
      * rewrite <- HLR. apply Hl'. by rewrite Es, Eg.
      * assert (e_group e = g) as Hgg by (apply elem_of_cons in Hg as [|]; done).
        rewrite Hn' by (rewrite Eg; tauto). by apply Hl1.
    + intros Hn. rewrite Hn'; [apply Hn1|].
      * intros [Hs Hg]. apply Hn. split; [done|]. subst g. left.
      * rewrite Es, Eg. intros [Hs Hg]. apply Hn. split; [done|]. by right.
Qed.
Definition touched_groups (mode : prune_mode) (refs : Z -> nat) (s : Z) (t : gmap Z entry) : list string :=
  (filter (fun ga => existsb (touches t) ga.2 = true) (prune_plan mode refs s t)).*1.

(** A group that is not touched is as it was. *)
Lemma untouched mode refs s t i e : t !! i = Some e -> ~ (e_source e = Some s /\ e_group e ∈ touched_groups mode refs s t) ->
  pruned mode refs s t !! i = Some e.
Proof.
  intros He Hn. destruct (lookup_pruned mode refs s t i e He) as [[_ ?]|(Hs & a & Ha & ->)]; [done|].
  assert (HT : touches t (i, a) = false).
  { destruct (touches t (i, a)) eqn:ET; [|done]. exfalso. apply Hn. split; [done|]. unfold touched_groups.
    apply list_elem_of_fmap. exists (e_group e, prune_group mode refs (group_of s (e_group e) t)). split; [done|].
    apply list_elem_of_filter. split.
    - apply existsb_exists. exists (i, a). split; [by apply list_elem_of_In|done].
    - unfold prune_plan. apply list_elem_of_fmap. exists (e_group e). split; [done|]. unfold groups_of. apply dict_of_keys.
      rewrite <- list_fmap_compose. apply list_elem_of_fmap. exists (i, e). split; [done|]. by apply elem_of_source_rows. }
  unfold touches in HT. cbn [fst snd] in HT. rewrite He in HT. destruct a; cbn; try done.
  - destruct e; cbn in *. by subst.
  - destruct e; cbn in *. by subst.
Qed.

Lemma pruned_from mode refs s t i e1 : pruned mode refs s t !! i = Some e1 ->
  exists e, t !! i = Some e /\ e_source e1 = e_source e /\ e_group e1 = e_group e /\ e_version e1 = e_version e.
Proof.
  intros H1. destruct (t !! i) as [e|] eqn:He; [|by rewrite lookup_pruned_None in H1].
  exists e. split; [done|]. destruct (lookup_pruned mode refs s t i e He) as [[_ H2]|(_ & a & _ & H2)]; rewrite H1 in H2; [by simplify_eq|].
  destruct a; cbn in H2; by simplify_eq.
Qed.

Lemma pruned_flags mode refs s t : flags_ok t ->
  flags_ok (foldl (fun t g => recompute_is_latest (Some s) g t) (pruned mode refs s t) (touched_groups mode refs s t)).
Proof.
  intros HF i e' Hi. set (t1 := pruned mode refs s t) in *. set (gs := touched_groups mode refs s t) in *.
  set (t' := foldl _ t1 gs) in *.
  assert (HC : forall k, core <$> t1 !! k = core <$> t' !! k).
  { intros k. destruct (t1 !! k) as [x|] eqn:Ek.
    - destruct (lookup_recompute_all s gs t1 k x Ek) as (x' & Hx' & Hc & _). fold t' in Hx'. rewrite Hx'. cbn. by rewrite Hc.
    - destruct (t' !! k) as [x|] eqn:Ek'; [|done]. exfalso. clear -Ek Ek'. subst t'. revert Ek. generalize dependent t1.
      induction gs as [|g gs IH]; intros t1 Ek' Ek; cbn in Ek'; [congruence|]. eapply IH; [exact Ek'|]. by rewrite lookup_recompute, Ek. }
  destruct (t1 !! i) as [e1|] eqn:Ei1.
  2: { specialize (HC i). by rewrite Ei1, Hi in HC. }
  destruct (lookup_recompute_all s gs t1 i e1 Ei1) as (e2 & He2 & Hc & HL & HN). fold t' in He2. rewrite Hi in He2. injection He2 as <-.
  assert (HR : latest_row t' i e' <-> latest_row t1 i e1).
  { split; apply latest_row_ext; try done; intros k; left; [symmetry|]; apply HC. }
  rewrite HR. destruct (decide (e_source e1 = Some s /\ e_group e1 ∈ gs)) as [Hin|Hout]; [by apply HL|].
  rewrite HN by done. clear HR HL HN Hc.
  destruct (pruned_from mode refs s t i e1 Ei1) as (e & He & Es & Eg & _).
  assert (e1 = e) as -> by (pose proof (untouched mode refs s t i e He) as HU; fold t1 in HU; rewrite Ei1 in HU;
    rewrite Es, Eg in Hout; by injection (HU Hout)).
  rewrite (HF i e He). split; apply latest_row_ext; try done; intros k.
  - destruct (t !! k) as [x|] eqn:Ek; [|left; unfold t1; by rewrite lookup_pruned_None].
    destruct (decide (e_source x = e_source e /\ e_group x = e_group e)) as [[Xs Xg]|Hx].
    + left. unfold t1. by rewrite (untouched mode refs s t k x Ek) by (by rewrite Xs, Xg).
    + right. intros y [[= <-]|Hy]; [done|]. destruct (pruned_from mode refs s t k y Hy) as (z & Hz & -> & -> & _). congruence.
  - destruct (t !! k) as [x|] eqn:Ek; [|left; unfold t1; by rewrite lookup_pruned_None].
    destruct (decide (e_source x = e_source e /\ e_group x = e_group e)) as [[Xs Xg]|Hx].
    + left. unfold t1. by rewrite (untouched mode refs s t k x Ek) by (by rewrite Xs, Xg).
    + right. intros y [Hy|[= <-]]; [|done]. destruct (pruned_from mode refs s t k y Hy) as (z & Hz & -> & -> & _). congruence.
Qed.

(** What carrying out a plan keeps, whichever table it is carried out on. *)
Record keeps (mode : prune_mode) (refs : Z -> nat) (s : Z) (t t' : gmap Z entry) : Prop := {
  others_kept : forall i e, t !! i = Some e -> e_source e <> Some s -> t' !! i = Some e;
  used_kept : forall i e, t !! i = Some e -> refs i <> 0%nat ->
    exists e', t' !! i = Some e' /\ (include_in_use mode = false -> e_active e' = e_active e);
  asked_to_delete : forall i e, t !! i = Some e -> t' !! i = None -> delete_rows mode = true;
  newest_kept : forall i e, t !! i = Some e -> e_source e = Some s ->
    (i, e) ∈ take (keep mode) (_ordered (group_of s (e_group e) t)) -> exists e', t' !! i = Some e' /\ e_active e' = e_active e;
  one_active_left : forall i e, t !! i = Some e -> e_source e = Some s -> e_active e = true ->
    exists j e', t' !! j = Some e' /\ e_source e' = Some s /\ e_group e' = e_group e /\ e_active e' = true
}.

Lemma keeps_refl mode refs s t : keeps mode refs s t t.
Proof.
  split; intros i e He; intros; [done|by exists e|congruence|by exists e|by exists i, e].
Qed.

Lemma pruned_act mode refs s t i e a : t !! i = Some e -> pruned mode refs s t !! i = act_on a (Some e) -> a <> Deleted ->
  exists e', pruned mode refs s t !! i = Some e' /\ (leaves a = true -> e' = e) /\ e_source e' = e_source e /\ e_group e' = e_group e.
Proof. intros He -> Ha. destruct a; try done; by (cbn; eexists; split_and!; [reflexivity|..]). Qed.

Lemma pruned_keeps mode refs s t : keeps mode refs s t (pruned mode refs s t).
Proof.
  pose proof (fun i e a => pruned_act mode refs s t i e a) as HK. split.
  - intros i e He Hs. by destruct (lookup_pruned mode refs s t i e He) as [[_ H1]|[Hs' _]].
  - intros i e He Hu. destruct (lookup_pruned mode refs s t i e He) as [[Hs H1]|(Hs & a & Ha & H1)]; [by exists e|].
    assert (HU : in_use refs i = true) by (unfold in_use; by rewrite bool_decide_false).
    destruct (group_in_use mode refs _ i a Ha HU) as [Hd Hl]. destruct (HK i e a He H1 Hd) as (e' & He' & HE & _).
    exists e'. split; [done|]. intros Hi. by rewrite (HE (Hl Hi)).
  - intros i e He HN. destruct (lookup_pruned mode refs s t i e He) as [[Hs H1]|(Hs & a & Ha & H1)]; [congruence|].
    destruct (decide (a = Deleted)) as [->|Hd]; [by eapply group_deleted|].
    destruct (HK i e a He H1 Hd) as (e' & He' & _). congruence.
  - intros i e He Hs Ht. destruct (lookup_pruned mode refs s t i e He) as [[Hs' _]|(_ & a & Ha & H1)]; [done|].
    pose proof (group_kept mode refs _ i e a (group_of_NoDup _ _ _) Ha Ht) as ->.
    destruct (HK i e (Kept false) He H1) as (e' & He' & HE & _); [done|]. exists e'. split; [done|]. by rewrite HE.
  - intros i e He Hs Hact. destruct (group_survivor mode refs (group_of s (e_group e) t) i e) as (j & x & a & Hj & Hx & Ha & Hl);
      [by apply elem_of_group_of|done|]. apply elem_of_group_of in Hj as (Hj & Hjs & Hjg).
    destruct (lookup_pruned mode refs s t j x Hj) as [[Hs' _]|(_ & a' & Ha' & H1)]; [done|]. rewrite Hjg in Ha'.
    assert (a' = a) as ->.
    { pose proof (plan_actions_NoDup mode refs s t) as HN.
      assert (Hin : forall b, (j, b) ∈ prune_group mode refs (group_of s (e_group e) t) -> dget j (plan_actions (prune_plan mode refs s t)) = Some b).
      { intros b Hb. apply elem_of_dget; [done|]. apply elem_of_plan_actions. exists x. by rewrite Hjg. }
      pose proof (Hin a Ha). pose proof (Hin a' Ha'). congruence. }
    destruct (HK j x a Hj H1) as (e' & He' & HE & E1 & E2); [by intros ->|]. exists j, x. by rewrite He', HE.
Qed.

(** Computing flags again keeps all of it. *)
Lemma keeps_flags mode refs s t t1 gs : keeps mode refs s t t1 -> (forall i e1, t1 !! i = Some e1 -> is_Some (t !! i)) ->
  keeps mode refs s t (foldl (fun t g => recompute_is_latest (Some s) g t) t1 gs).
Proof.
  intros [K1 K2 K3 K4 K5] Hd. set (t' := foldl _ t1 gs).
  assert (HL : forall i e1, t1 !! i = Some e1 -> exists e', t' !! i = Some e' /\ e_source e' = e_source e1 /\ e_group e' = e_group e1 /\
    e_active e' = e_active e1 /\ (e_source e1 <> Some s -> e' = e1)).
  { intros i e1 H1. destruct (lookup_recompute_all s gs t1 i e1 H1) as (e' & He' & (C1 & C2 & _ & C4)%core_eq & _ & HN).
    exists e'. split_and!; try done. intros Hs. apply HN. tauto. }
  split.
  - intros i e He Hs. destruct (HL i e (K1 i e He Hs)) as (e' & He' & _ & _ & _ & HN). rewrite He'. by rewrite HN.
  - intros i e He Hu. destruct (K2 i e He Hu) as (e1 & H1 & HA). destruct (HL i e1 H1) as (e' & He' & _ & _ & HE & _).
    exists e'. split; [done|]. intros Hi. by rewrite HE, HA.
  - intros i e He HN. apply (K3 i e He). destruct (t1 !! i) as [e1|] eqn:E; [|done]. destruct (HL i e1 E) as (e' & He' & _). congruence.
  - intros i e He Hs Ht. destruct (K4 i e He Hs Ht) as (e1 & H1 & HA). destruct (HL i e1 H1) as (e' & He' & _ & _ & HE & _).
    exists e'. split; [done|]. by rewrite HE.
  - intros i e He Hs Ha. destruct (K5 i e He Hs Ha) as (j & e1 & H1 & X1 & X2 & X3). destruct (HL j e1 H1) as (e' & He' & Y1 & Y2 & Y3 & _).
    exists j, e'. split; [done|]. by rewrite Y1, Y2, Y3.
Qed.

(** C30. What pruning a source of modules keeps.  Rows of other sources stay as they
    are; a row that a project uses is never deleted, and not hidden unless
    asked for; nothing is deleted unless asked for; the newest [keep] of each
    path keep their place; a path that had an active version still has one;
    flags that were right are right; a dry run gives the report of the real
    one and changes nothing. *)
Theorem prune_modules_safe known mode dry_run refs s t plan t' :
  prune_module_source known mode dry_run refs s t = Some (plan, t') ->
  keeps mode refs s t t' /\ (flags_ok t -> flags_ok t') /\
  (dry_run = true -> t' = t /\ fst <$> prune_module_source known mode false refs s t = Some plan).
Proof.
  unfold prune_module_source. destruct (known s); [|done]. intros [= <- <-].
  change (foldl apply_action t (prune_plan mode refs s t ≫= snd)) with (pruned mode refs s t).
  change ((filter (fun ga => existsb (touches t) ga.2 = true) (prune_plan mode refs s t)).*1) with (touched_groups mode refs s t).
  destruct dry_run; (split_and!; [|done || apply pruned_flags|done]).
  - apply keeps_refl.
  - apply keeps_flags; [apply pruned_keeps|]. intros i e1 (e & He & _)%pruned_from. by rewrite He.
Qed.

(** The same for releases, whose users are the stacks made from them. *)
Theorem prune_blueprints_safe known mode dry_run refs s t plan t' :
  prune_blueprint_source known mode dry_run refs s t = Some (plan, t') ->
  keeps mode refs s t t' /\ (forall i e', t' !! i = Some e' -> exists e, t !! i = Some e /\ e_latest e' = e_latest e) /\
  (dry_run = true -> t' = t /\ fst <$> prune_blueprint_source known mode false refs s t = Some plan).
Proof.
  unfold prune_blueprint_source. destruct (known s); [|done]. intros [= <- <-].
  change (foldl apply_action t (prune_plan mode refs s t ≫= snd)) with (pruned mode refs s t).
  destruct dry_run; (split_and!; [| |done]).
  - apply keeps_refl.
  - intros i e' He'. by exists e'.
  - apply pruned_keeps.
  - intros i e' He'. destruct (t !! i) as [e|] eqn:He; [|by rewrite lookup_pruned_None in He'].
    exists e. split; [done|]. destruct (lookup_pruned mode refs s t i e He) as [[_ H1]|(_ & a & _ & H1)]; rewrite He' in H1; [by simplify_eq|].
    destruct a; cbn in H1; by simplify_eq.
Qed.
End laws.

(** ** A source of three versions, the newest of them withdrawn *)

#[local] Instance some_order : SetOrder Z := elements_order.

Example version_keys :
  version_sort_key (Some "v1.20.0") = ([1; 20; 0], 1, "") /\ version_sort_key (Some "2.3.0-ehf-2+b.7") = ([2; 3; 0], 0, "ehf-2") /\
  version_sort_key (Some "main") = ([], 1, "") /\ version_sort_key None = ([], 0, "").
Proof. vm_compute. split_and!; reflexivity. Qed.

(** The tags of pre-releases are compared as texts: the tenth candidate comes
    before the ninth. *)
Example tenth_candidate_older :
  key_lt (version_sort_key (Some "1.0.0-rc.10"), 2) (version_sort_key (Some "1.0.0-rc.9"), 1) = true.
Proof. reflexivity. Qed.

Definition version_row (v : string) (active latest : bool) : entry :=
  {| e_source := Some 1; e_group := "modules/vpc"; e_version := Some v; e_active := active; e_latest := latest |}.
Definition catalogue_table : gmap Z entry :=
  list_to_map [(1, version_row "1.0.0" true false); (2, version_row "1.2.0" false false); (3, version_row "1.1.0" true true);
               (4, {| e_source := Some 2; e_group := "modules/vpc"; e_version := Some "0.1"; e_active := true; e_latest := true |})].
Definition retire : prune_mode := {| keep := 1; delete_rows := true; include_in_use := true |}.
Definition used_once (i : Z) : nat := if i =? 1 then 1 else 0.

(** The newest row is inactive, so the newest active one is spared; the oldest
    is in use and is hidden, though deletion was asked for. *)
Example retired :
  prune_plan retire used_once 1 catalogue_table = [("modules/vpc", [(2, Kept false); (3, Kept true); (1, Hidden)])].
Proof. vm_compute. reflexivity. Qed.

Lemma recompute_correct_witness :
  recompute_is_latest (Some 1) "modules/vpc" catalogue_table !! 3 = Some (version_row "1.1.0" true true) /\
  latest_row catalogue_table 3 (version_row "1.1.0" true true).
Proof.
  assert (H : recompute_is_latest (Some 1) "modules/vpc" catalogue_table !! 3 = Some (version_row "1.1.0" true true)) by (vm_compute; reflexivity).
  split; [exact H|]. destruct (recompute_correct (Some 1) "modules/vpc" catalogue_table 3 _ H) as (e & He & HA & _).
  assert (E : catalogue_table !! 3 = Some (version_row "1.1.0" true true)) by (vm_compute; reflexivity).
  rewrite E in He. injection He as <-. apply HA; split; reflexivity.
Defined.

Lemma prune_modules_safe_witness :
  exists plan t', prune_module_source (fun _ => true) retire false used_once 1 catalogue_table = Some (plan, t') /\
  keeps retire used_once 1 catalogue_table t'.
Proof.
  destruct (prune_module_source (fun _ => true) retire false used_once 1 catalogue_table) as [[plan t']|] eqn:E; [|discriminate E].
  exists plan, t'. split; [reflexivity|]. exact (proj1 (prune_modules_safe _ _ _ _ _ _ _ _ E)).
Defined.
